(* ===== verification/_CoqProject ===== *)
-Q . S2P
Prelude.v
Text.v
Runes.v
Json.v
Engines.v
Db.v
InstanceStore.v
ProfileStore.v
Wire.v
NodeStore.v
NetIP.v
NodeToken.v
Calendar.v
GoTime.v
JsonText.v
JsonFacts.v
Session.v
LoginGuard.v
LoginGuardSpec.v
Schedule.v
ScheduleZone.v
Rbac.v
Passwords.v
Ldap.v
Nodes.v
NodesSpec.v
Inventory.v
ScheduleRun.v
AlertRaiser.v
AlertStore.v
AlertFacts.v
Alerts.v
AlertContract.v
Lifecycle.v
LifecycleSpec.v
LaunchNames.v
StaleStore.v
StaleClassify.v
StaleScan.v
StaleRun.v
AgentStale.v
StaleSpec.v
Profiles.v
ProfilesSpec.v
InventorySpec.v
TransferStore.v
Transfers.v
TransfersSpec.v
EngineStore.v
EmailStore.v
Mailer.v
Email.v
EmailSpec.v
EmailEffects.v
EmailWork.v
EmailText.v
EngineProvision.v
ContainerLogStore.v
ContainerLogs.v
AgentLogs.v
ContainerLogsSpec.v
Paths.v
RealPath.v
PeerGrants.v
PeerGrantsSpec.v
PeerText.v
ModelScan.v
ModelScanSpec.v
AgentModels.v
AgentModelsSpec.v
GroupStore.v
Groups.v
Login.v
LoginSpec.v
LoginMain.v
EngineProbe.v
AgentInstances.v
AgentInstancesSpec.v
AgentReports.v
AgentNode.v
