(* ===== verification/Prelude.v ===== *)
(** * Sparky verification library (root file)

    Sparky is a control plane for language-model servers: a central server
    ([cmd/sparky-server]) keeps users, nodes, models, profiles and running
    instances in Postgres and talks over WebSockets to an agent
    ([cmd/sparky-agent]) on every node.  This library translates the decision
    logic of that program, and the statements it runs on its tables, into Rocq
    and proves what makes it correct.

    ** How the code is modelled

    - A method of a service or of a repository is a computation in the state
      and error monad [M] over [World] (Db.v): the tables, the in-memory maps of
      the services, the messages sent to agents, the log, the clock.  Errors
      are values ([error]); an error never undoes what was done before it,
      except inside a transaction ([tx]).
    - Every statement and every message is a numbered external call; the class
      [Env] says how long it takes and whether it fails ([fault]), so each
      theorem covers every pattern of failures.  Cancelled contexts and
      time-outs are such faults.
    - A row is a Record, a table a finite map, a [CHECK], unique index or
      reference is tested by the statement that could break it and answered
      with its SQLSTATE.  Ids are texts in canonical form; [jsonb] columns are
      [json] values, with the key order and the duplicates [jsonb] imposes.
    - Times are nanoseconds of the proleptic calendar as [Z]; Postgres'
      truncation to microseconds is not modelled.  Machine integers are [Z]
      wrapped ([int64]) where the code's arithmetic can leave the width.
      Strings are byte strings, runes decoded as Go does (Text.v); case folding
      is that of ASCII.
    - Operations of a service are taken one at a time: a theorem about runs
      quantifies over sequences of them.  Goroutines appear only as such
      interleavings; the messages that arrive while a request waits are a
      parameter ([Agents]).  Where a race decides a claim the operation is cut
      in two steps: the checks of a load and its insert (LifecycleSpec.v), a
      connection's checks and its marker (PeerGrantsSpec.v), the goroutine of
      an upload (ContainerLogsSpec.v), the two halves of an unload
      (AgentReports.v).
    - Code outside the repository is a parameter with its documented laws:
      argon2, the random source, the zone database, the directory, the
      container daemon, gzip.  A service that another one calls is a class of
      its own, which the component that implements it discharges (the raiser
      of alerts, the notifier, the hashing of passwords).
    - What runs on a node is modelled apart from the server: an agent is its
      own state and the [Host] that answers its calls (AgentLogs.v), its disk a
      tree of files ([tree], AgentModels.v).

    ** The files

    - Prelude.v (errors, the monad, weakest preconditions, shared lemmas),
      Text.v (bytes, runes, hex, base64, SHA-256, patterns, parts of a text),
      Json.v (JSON values and their decoding), Calendar.v and GoTime.v (dates, zones, durations),
      NetIP.v ([net/netip]), Db.v (rows and the [World]), Wire.v (the payloads
      of [internal/agentproto]).
    - Rbac.v: [internal/rbac] (tier rules, accounts, themes).  Passwords.v:
      [internal/auth/breakglass.go], the stored form of a password; it
      discharges what the services ask of a hasher.
    - Schedule.v, ScheduleZone.v, ScheduleRun.v: [internal/schedule]
      (occurrences of a schedule in a zone; the next one in zones that are
      regular for a while only, as real ones are; the runner and its time
      zone).
    - AlertRaiser.v, AlertStore.v, AlertFacts.v, Alerts.v, AlertContract.v:
      [internal/alerts] and [internal/db/alerts.go].  AlertRaiser.v is the
      interface the producers use, AlertContract.v discharges it.
    - GroupStore.v, Groups.v: [internal/groups] and the
      membership cache of [internal/db/app_groups.go].
    - Engines.v: [internal/engines]; ProfileStore.v, Profiles.v,
      ProfilesSpec.v: [internal/profiles].
    - InstanceStore.v, Lifecycle.v, LifecycleSpec.v, LaunchNames.v:
      [internal/lifecycle].
    - NodeStore.v, NodeToken.v, Nodes.v, NodesSpec.v: [internal/nodes] and the
      tokens of [internal/auth/nodetoken.go].
    - Inventory.v, InventorySpec.v: [internal/inventory/service.go];
      TransferStore.v, Transfers.v, TransfersSpec.v: [internal/transfers].
    - StaleStore.v, StaleClassify.v, StaleScan.v, StaleRun.v, AgentStale.v:
      [internal/stalecontainers], and what the agent does about it
      ([agent/connection/stalecontainers.go], [agent/runtime/containers/list.go]).
    - EngineStore.v, EngineProvision.v: [internal/engineprovision] and its two
      tables.
    - ContainerLogStore.v, ContainerLogs.v, AgentLogs.v, ContainerLogsSpec.v:
      [internal/containerlogs], its tables, and the agent's side
      ([agent/connection/logarchive.go]).  A goroutine a handler starts is a
      [Task] that runs at some later step; what arrives while a request waits is
      the parameter [LogTraffic].
    - ModelScan.v, ModelScanSpec.v: [internal/inventory/scan.go].  Paths.v:
      [path/filepath] and [agent/modelpath].  AgentModels.v, AgentModelsSpec.v:
      [agent/modelscan], [agent/connection/scanmodels.go] and [deletemodel.go].
    - Runes.v (what the e-mails use of [unicode/utf8]), EmailStore.v (its
      tables: [internal/db/user_email.go], [email_queue.go],
      [email_delivery.go], [email_settings.go]), Mailer.v ([internal/mailer],
      against a [Relay] that answers each command), Email.v ([internal/email]);
      EmailSpec.v (the invariant of the tables and of runs), EmailEffects.v
      (addresses and alerts; the notifier the alerts use), EmailWork.v (digests
      and delivery), EmailText.v (subjects and recorded reasons).
    - RealPath.v ([filepath.EvalSymlinks]), PeerGrants.v
      ([agent/peertransfer/grants.go] and [serve.go], the public key check of
      [internal/agentproto/sshkey.go]), PeerGrantsSpec.v (runs of both sides),
      PeerText.v (the accepted command, the lines for sshd).  The two
      directories of grants are the state, every system call may fail
      ([GrantHost]).
    - EngineProbe.v (what an engine is asked and its answers), AgentInstances.v
      ([agent/connection/connection.go] and [readiness.go]: loading, waiting
      for the engine, unloading, health), AgentInstancesSpec.v, AgentReports.v
      (what a load and a node report), AgentNode.v (concrete nodes).  The
      runtime backend and the engine are the parameter [EngineHost].
    - JsonText.v and JsonFacts.v (the text of JSON as [encoding/json] writes and
      reads it, times, base64), Session.v ([internal/session]); LoginGuard.v and
      LoginGuardSpec.v (the rate limiter, the address list of the break-glass
      login and the CSRF check of [internal/httpapi]); Ldap.v
      ([internal/auth/ldap.go], [sid.go]); Login.v, LoginSpec.v and LoginMain.v
      (the three logins, [RequireSession], setup).  LoginSpec.v asks the class
      [QuietService] of the services a login calls, LoginMain.v puts the service
      together as [main] does and discharges it.

    A definition keeps the Go name; where two packages share one, it carries a
    suffix ([Create_instance], [List_nodes_db]).

    ** What is proved

    - Who may do what: every capability admits exactly the tiers from its floor
      up, nobody but the SuperAdmin makes or unmakes an Admin.
    - When jobs run: [Latest] is sound and complete in a zone of whole-minute
      changes that do not crowd, [Next] is minimal in any zone that is such
      from the moment asked about to the run it returns; no occurrence is run
      twice.
    - Alerts: the tables stay well-formed under every operation; what a viewer
      is told depends only on what they may see; the producers' alerts are open
      exactly while their condition holds.
    - Groups: no membership survives its mapping, and every view of a group
      agrees on its members.
    - Nodes, profiles, instances, inventory, transfers: what is stored is
      screened and read back as it was sent; a stored profile is launchable;
      a profile has one active instance, but for two loads of it that overlap
      and a late report, which the code does not rule out; what is finished
      stays finished;
      deletes and answers reach only what they name.
    - Stale containers: [Classify] calls stale exactly what the stated rules
      say; a list crosses the wire whole; an agent removes nothing it did not
      archive first.
    - Engines: what the inventory of engines says is what a finished run of
      that node installed.
    - Container logs: a log that is sent arrives whole, whatever else arrives in
      between, and a confirmation is sent only for a log that is stored, or
      whose id was used before.
    - Model scans: what is kept of a node's answer was checked; an import takes
      its facts from the scan and nothing else; a scan lists exactly the models
      that are there; and a delete of what an import let through leaves the
      other models, but for the exceptions shown at the end of
      AgentModelsSpec.v.
    - E-mail: the tables stay well-formed over every run; an alert is sent to
      exactly those who would see it, had they not dismissed it, and want it,
      and each is told or is in the log; a link changes the one
      account it was made for; no mail or password goes in the clear where the
      settings ask for encryption; a delivery pass hands a mail over at most
      once, a digest takes nothing it did not send.
    - Grants for pulls: over any run of authorizations, revocations, sweeps
      and racing connections a grant serves once, unless a revocation or sweep
      removes its marker while a connection is past its checks or the grant
      still live, and serves only what its request named inside the model
      storage; no field of a grant can escape the
      line it is written on.
    - Instances on a node: a load reports running only after the engine
      completed a prompt, a wait for an engine ends, a node reports what its
      host answered.
    - Signing in: a cookie is read back as the session it was signed for; over
      any run of logins and of requests with cookies nobody forged, whoever is
      let through has earned it with a login of a day at most and, from the
      directory, with a membership confirmed within the recheck interval; the
      limiter answers an address as if it were alone; the text of a SID
      determines it; setup leaves one break-glass password and one account that
      can be used.

    ** Fuel

    Recursion that is not structural takes fuel, and a lemma says it is
    enough: the calendar loops of Schedule.v scan a bounded number of days (a
    weekly schedule recurs within eight), [raise_attempts] is the code's own
    retry bound, [send_parts] takes one step per container and one more,
    [chunks_of] one per byte and one more; [walk] counts down the depth the
    code allows; the pattern matcher of Paths.v takes a step per byte; the
    reader of JSON two per byte; [ready_loop] a round per tick of its time
    limit.

    ** What is not modelled

    HTTP handlers and HTML but for the logins, sockets and goroutines, the
    LDAP library and the container daemon; telemetry, its settings and the audit
    settings; the configuration read at start-up; the downloads of models and
    engines.  That nobody forges a cookie is a hypothesis of the run of logins
    ([authentic]), not a fact about HMAC.  Of an e-mail the MIME text is left out ([mailer.build]): the relay
    is handed the body.  Two archives of one agent are not interleaved, and the timers
    around retention are left out.  On an agent's disk a link holds what it
    leads to, so that a file reached in two ways is two files; RealPath.v resolves links as the system does.  Peer transfers are
    taken as enabled.  That the users and groups an audience names exist is not
    looked at, and a count of occurrences is not a column of 32 bits.  A load,
    a health tick and a sweep of grants on a node are one step each.  Text columns accept
    any string except where a refusal changes an outcome
    ([TransferStore.SetStatus_transfer]).  In StaleRun.v the list requests of a
    scan are taken one after another, the text of a stale alert reads the clock
    once, and the summary of a run is kept as a record, not as its JSON.  Where
    the code sorts with an unstable sort, ties keep their order. *)
From stdpp Require Import base list strings gmap.
From Stdlib Require Import ZArith Lia.
From Stdlib Require Import Ascii.
From Stdlib Require String.
Local Open Scope Z_scope.

(** ** Go errors

    A Go error is a chain: a package-level sentinel ([errors.New], identified
    by the variable that holds it, not by its text), a wrapping made by
    [fmt.Errorf] with one [%w], or an error made by code outside [src/] (a
    Postgres error with its SQLSTATE, anything else).  [errors_Is] is
    [errors.Is] against a sentinel, [error_text] is [Error()]. *)
Inductive error :=
| Sentinel (name text : string)
| Errorf (pre : string) (inner : error) (post : string)
| PgError (code : string)
| Opaque (msg : string).

#[export] Instance error_eq_dec : EqDecision error.
Proof. solve_decision. Defined.

Fixpoint errors_Is (e : error) (target : string) : bool :=
  match e with
  | Sentinel n _ => bool_decide (n = target)
  | Errorf _ i _ => errors_Is i target
  | _ => false
  end.

Fixpoint error_text (e : error) : string :=
  match e with
  | Sentinel _ t => t
  | Errorf p i q => p +:+ error_text i +:+ q
  | PgError c => c
  | Opaque m => m
  end.

(** [errors.As] into a [*pgconn.PgError] with the given SQLSTATE. *)
Fixpoint is_pg_code (e : error) (code : string) : bool :=
  match e with
  | PgError c => bool_decide (c = code)
  | Errorf _ i _ => is_pg_code i code
  | _ => false
  end.

Lemma errors_Is_wrap p e q t : errors_Is (Errorf p e q) t = errors_Is e t.
Proof. reflexivity. Qed.

Inductive result (A : Type) := Ok (a : A) | Err (e : error).
Arguments Ok {A} a. Arguments Err {A} e.

Definition is_ok {A} (r : result A) : bool := match r with Ok _ => true | Err _ => false end.

(** ** The service monad

    A Go method of a service is a state transformer that ends in a value or an
    error.  The state after an error is kept: Go does not roll memory or the
    database back when a function returns an error. *)
Definition ST (S A : Type) : Type := S -> result A * S.

Section Monad.
Context {S : Type}.

#[global] Instance ST_ret : MRet (ST S) := fun A a s => (Ok a, s).
#[global] Instance ST_bind : MBind (ST S) := fun A B k m s =>
  match m s with
  | (Ok a, s') => k a s'
  | (Err e, s') => (Err e, s')
  end.

Definition throw {A} (e : error) : ST S A := fun s => (Err e, s).
Definition gets {A} (f : S -> A) : ST S A := fun s => (Ok (f s), s).
Definition modify (f : S -> S) : ST S unit := fun s => (Ok tt, f s).

(** [attempt m]: Go's [v, err := m()] whose error the caller inspects. *)
Definition attempt {A} (m : ST S A) : ST S (result A) := fun s =>
  let (r, s') := m s in (Ok r, s').

(** [if err != nil { return fmt.Errorf(pre + "%w", err) }] *)
Definition wrap {A} (pre : string) (m : ST S A) : ST S A := fun s =>
  match m s with
  | (Ok a, s') => (Ok a, s')
  | (Err e, s') => (Err (Errorf pre e ""), s')
  end.

(** [if err != nil { return f(err) }] for a function on errors. *)
Definition map_err {A} (f : error -> error) (m : ST S A) : ST S A := fun s =>
  match m s with
  | (Ok a, s') => (Ok a, s')
  | (Err e, s') => (Err (f e), s')
  end.

Definition when (b : bool) (m : ST S unit) : ST S unit := if b then m else mret tt.

(** A guard [if !b { return e }]. *)
Definition guard_err (b : bool) (e : error) : ST S unit :=
  if b then mret tt else throw e.

(** [for _, x := range l { body }] for a body that cannot leave the loop. *)
Fixpoint forM_ {A} (l : list A) (f : A -> ST S unit) : ST S unit :=
  match l with
  | [] => mret tt
  | x :: l' => f x ;; forM_ l' f
  end.

(** [fmt.Errorf(%w (revert also failed: %v), auditErr, revertErr)] *)
Definition revert_failed (auditErr revertErr : error) : error :=
  Errorf "" auditErr (" (revert also failed: " +:+ error_text revertErr +:+ ")").

Definition discard {A} (m : ST S A) : ST S unit := m ;; mret tt.

(** The tail every audited change shares: audit it, undo it when that fails. *)
Definition audited_or_reverted {A} (audit revert : ST S unit) (done_ : ST S A) : ST S A :=
  r ← attempt audit;
  match r with
  | Err e =>
      let auditErr := Errorf "record audit: " e "" in
      rr ← attempt revert;
      match rr with Err e2 => throw (revert_failed auditErr e2) | Ok _ => throw auditErr end
  | Ok _ => done_
  end.

(** ** Weakest preconditions

    [wp m s Q] says that running [m] from [s] ends with a result and a state
    that satisfy [Q].  Programs are total, so [wp] is total correctness. *)
Definition wp {A} (m : ST S A) (s : S) (Q : result A -> S -> Prop) : Prop :=
  Q (fst (m s)) (snd (m s)).

Lemma wp_run {A} (m : ST S A) s Q r s' : m s = (r, s') -> Q r s' -> wp m s Q.
Proof. unfold wp. intros ->. done. Qed.

Lemma wp_mono {A} (m : ST S A) s (Q Q' : result A -> S -> Prop) :
  wp m s Q -> (forall r s', Q r s' -> Q' r s') -> wp m s Q'.
Proof. unfold wp. auto. Qed.

Lemma wp_and {A} (m : ST S A) s (Q Q' : result A -> S -> Prop) :
  wp m s Q -> wp m s Q' -> wp m s (fun r s' => Q r s' /\ Q' r s').
Proof. unfold wp. auto. Qed.

Lemma wp_ret {A} (a : A) s (Q : result A -> S -> Prop) : Q (Ok a) s -> wp (mret a) s Q.
Proof. done. Qed.
Lemma wp_throw {A} e s (Q : result A -> S -> Prop) : Q (Err e) s -> wp (throw e) s Q.
Proof. done. Qed.
Lemma wp_gets {A} (f : S -> A) s (Q : result A -> S -> Prop) : Q (Ok (f s)) s -> wp (gets f) s Q.
Proof. done. Qed.
Lemma wp_modify (f : S -> S) s (Q : result unit -> S -> Prop) : Q (Ok tt) (f s) -> wp (modify f) s Q.
Proof. done. Qed.

Lemma wp_bind {A B} (m : ST S A) (k : A -> ST S B) s (Q : result B -> S -> Prop) :
  wp m s (fun r s' => match r with Ok a => wp (k a) s' Q | Err e => Q (Err e) s' end) ->
  wp (m ≫= k) s Q.
Proof.
  unfold wp, mbind, ST_bind. destruct (m s) as [[a|e] s'] eqn:E; simpl; auto.
Qed.

Lemma wp_attempt {A} (m : ST S A) s (Q : result (result A) -> S -> Prop) :
  wp m s (fun r s' => Q (Ok r) s') -> wp (attempt m) s Q.
Proof. unfold wp, attempt. destruct (m s); auto. Qed.

Lemma wp_wrap {A} pre (m : ST S A) s (Q : result A -> S -> Prop) :
  wp m s (fun r s' => match r with Ok a => Q (Ok a) s' | Err e => Q (Err (Errorf pre e "")) s' end) ->
  wp (wrap pre m) s Q.
Proof. unfold wp, wrap. destruct (m s) as [[a|e] s']; auto. Qed.

Lemma wp_map_err {A} f (m : ST S A) s (Q : result A -> S -> Prop) :
  wp m s (fun r s' => match r with Ok a => Q (Ok a) s' | Err e => Q (Err (f e)) s' end) ->
  wp (map_err f m) s Q.
Proof. unfold wp, map_err. destruct (m s) as [[a|e] s']; auto. Qed.

Lemma wp_guard b e s (Q : result unit -> S -> Prop) :
  (b = true -> Q (Ok tt) s) -> (b = false -> Q (Err e) s) -> wp (guard_err b e) s Q.
Proof. destruct b; simpl; unfold wp; simpl; auto. Qed.

Lemma wp_when b m s (Q : result unit -> S -> Prop) :
  (b = true -> wp m s Q) -> (b = false -> Q (Ok tt) s) -> wp (when b m) s Q.
Proof. destruct b; simpl; unfold wp; simpl; auto. Qed.

Lemma wp_discard {A} (m : ST S A) s (Q : result unit -> S -> Prop) :
  wp m s (fun r s' => match r with Ok _ => Q (Ok tt) s' | Err e => Q (Err e) s' end) -> wp (discard m) s Q.
Proof. unfold wp, discard, mbind, ST_bind. destruct (m s) as [[]]; auto. Qed.

(** The audited tail ends with the error of the audit; the state is then what
    the revert left, and the error says so when the revert failed too. *)
Lemma wp_audited_or_reverted {A} audit revert (done_ : ST S A) s (Q : result A -> S -> Prop) :
  wp audit s (fun r s' => match r with
    | Ok _ => wp done_ s' Q
    | Err e => wp revert s' (fun r s2 => match r with
        | Ok _ => Q (Err (Errorf "record audit: " e "")) s2
        | Err e2 => Q (Err (revert_failed (Errorf "record audit: " e "") e2)) s2
        end)
    end) -> wp (audited_or_reverted audit revert done_) s Q.
Proof.
  unfold wp, audited_or_reverted, attempt, mbind, ST_bind, throw.
  destruct (audit s) as [[|e] s1]; simpl; [done|]. destruct (revert s1) as [[] s2]; done.
Qed.

(** The invariant rule for a loop whose body never returns an error. *)
Lemma wp_forM {A} (I : S -> Prop) (l : list A) (f : A -> ST S unit) s (Q : result unit -> S -> Prop) :
  I s ->
  (forall x s, x ∈ l -> I s -> wp (f x) s (fun r s' => r = Ok tt /\ I s')) ->
  (forall s, I s -> Q (Ok tt) s) -> wp (forM_ l f) s Q.
Proof.
  revert s. induction l as [|x l IH]; intros s HI Hbody HQ; simpl; [by apply wp_ret, HQ|].
  apply wp_bind. eapply wp_mono; [apply Hbody; [set_solver|done]|].
  intros r s' [-> HI']. apply IH; auto. intros y s0 Hy. apply Hbody. set_solver.
Qed.

(** ** Frames

    [Preserves f m]: whatever [m] does, the part [f] of the state is as it
    was.  Instances compose through the monad, so a component that promises
    not to touch another component's tables does so once. *)
Class Preserves {A B} (f : S -> B) (m : ST S A) : Prop :=
  preserves : forall s, f (snd (m s)) = f s.

Lemma wp_preserves {A B} (f : S -> B) (m : ST S A) `{!Preserves f m} s :
  wp m s (fun _ s' => f s' = f s).
Proof. apply preserves. Qed.

#[global] Instance preserves_ret {A B} (f : S -> B) (a : A) : Preserves f (mret a : ST S A).
Proof. done. Qed.
#[global] Instance preserves_throw {A B} (f : S -> B) e : Preserves f (throw e : ST S A).
Proof. done. Qed.
#[global] Instance preserves_gets {A B} (f : S -> B) (g : S -> A) : Preserves f (gets g).
Proof. done. Qed.
#[global] Instance preserves_bind {A A' B} (f : S -> B) (m : ST S A) (k : A -> ST S A') :
  Preserves f m -> (forall a, Preserves f (k a)) -> Preserves f (m ≫= k).
Proof.
  intros Hm Hk s. unfold mbind, ST_bind. specialize (Hm s).
  destruct (m s) as [[a|e] s'] eqn:E; simpl in *; [|done]. by rewrite (Hk a s').
Qed.
#[global] Instance preserves_attempt {A B} (f : S -> B) (m : ST S A) :
  Preserves f m -> Preserves f (attempt m).
Proof. intros Hm s. unfold attempt. specialize (Hm s). by destruct (m s). Qed.
#[global] Instance preserves_wrap {A B} (f : S -> B) p (m : ST S A) :
  Preserves f m -> Preserves f (wrap p m).
Proof. intros Hm s. unfold wrap. specialize (Hm s). by destruct (m s) as [[]]. Qed.
#[global] Instance preserves_map_err {A B} (f : S -> B) g (m : ST S A) :
  Preserves f m -> Preserves f (map_err g m).
Proof. intros Hm s. unfold map_err. specialize (Hm s). by destruct (m s) as [[]]. Qed.
#[global] Instance preserves_guard {B} (f : S -> B) b e : Preserves f (guard_err b e).
Proof. by destruct b. Qed.
#[global] Instance preserves_when {B} (f : S -> B) b m : Preserves f m -> Preserves f (when b m).
Proof. by destruct b. Qed.
#[global] Instance preserves_forM {A B} (f : S -> B) (l : list A) g :
  (forall x, Preserves f (g x)) -> Preserves f (forM_ l g).
Proof. intros Hg. induction l as [|x l IH]; simpl; apply _. Qed.

#[global] Instance preserves_discard {A B} (f : S -> B) (m : ST S A) : Preserves f m -> Preserves f (discard m).
Proof. intros. unfold discard. apply _. Qed.
#[global] Instance preserves_audited_or_reverted {A B} (f : S -> B) audit revert (done_ : ST S A) :
  Preserves f audit -> Preserves f revert -> Preserves f done_ -> Preserves f (audited_or_reverted audit revert done_).
Proof.
  intros. unfold audited_or_reverted. apply preserves_bind; [apply _|]. intros []; [apply _|].
  apply preserves_bind; [apply _|]. intros []; apply _.
Qed.

(** ** Invariants

    [Keeps I m]: [m] takes a state that satisfies [I] to one that does,
    whether it ends with a value or an error. *)
Class Keeps {A} (I : S -> Prop) (m : ST S A) : Prop := keeps : forall s, I s -> I (snd (m s)).

Lemma wp_keeps {A} (I : S -> Prop) (m : ST S A) `{!Keeps I m} s : I s -> wp m s (fun _ s' => I s').
Proof. apply keeps. Qed.
Lemma wp_inv {A} (I : S -> Prop) (m : ST S A) s (Q : result A -> S -> Prop) :
  Keeps I m -> I s -> (forall r s', I s' -> Q r s') -> wp m s Q.
Proof. unfold wp. intros Hm Hs HQ. apply HQ, Hm, Hs. Qed.
Lemma keeps_wp {A} (I : S -> Prop) (m : ST S A) : (forall s, I s -> wp m s (fun _ s' => I s')) -> Keeps I m.
Proof. done. Qed.
#[global] Instance keeps_ret {A} (I : S -> Prop) (a : A) : Keeps I (mret a : ST S A).
Proof. intros s Hs. exact Hs. Qed.
#[global] Instance keeps_throw {A} (I : S -> Prop) e : Keeps I (throw e : ST S A).
Proof. intros s Hs. exact Hs. Qed.
#[global] Instance keeps_bind {A A'} (I : S -> Prop) (m : ST S A) (k : A -> ST S A') :
  Keeps I m -> (forall a, Keeps I (k a)) -> Keeps I (m ≫= k).
Proof.
  intros Hm Hk s Hs. unfold mbind, ST_bind. specialize (Hm s Hs).
  destruct (m s) as [[a|e] s']; simpl in *; [by apply Hk|done].
Qed.
#[global] Instance keeps_attempt {A} (I : S -> Prop) (m : ST S A) : Keeps I m -> Keeps I (attempt m).
Proof. intros Hm s Hs. unfold attempt. specialize (Hm s Hs). by destruct (m s). Qed.
#[global] Instance keeps_wrap {A} (I : S -> Prop) p (m : ST S A) : Keeps I m -> Keeps I (wrap p m).
Proof. intros Hm s Hs. unfold wrap. specialize (Hm s Hs). by destruct (m s) as [[]]. Qed.
#[global] Instance keeps_map_err {A} (I : S -> Prop) g (m : ST S A) : Keeps I m -> Keeps I (map_err g m).
Proof. intros Hm s Hs. unfold map_err. specialize (Hm s Hs). by destruct (m s) as [[]]. Qed.
#[global] Instance keeps_guard (I : S -> Prop) b e : Keeps I (guard_err b e).
Proof. destruct b; [apply keeps_ret | apply keeps_throw]. Qed.
#[global] Instance keeps_when (I : S -> Prop) b m : Keeps I m -> Keeps I (when b m).
Proof. intros Hm. destruct b; [exact Hm | apply keeps_ret]. Qed.
#[global] Instance keeps_forM {A} (I : S -> Prop) (l : list A) g :
  (forall x, Keeps I (g x)) -> Keeps I (forM_ l g).
Proof. intros Hg. induction l as [|x l IH]; simpl; apply _. Qed.
#[global] Instance keeps_discard {A} (I : S -> Prop) (m : ST S A) : Keeps I m -> Keeps I (discard m).
Proof. intros. unfold discard. apply _. Qed.
#[global] Instance keeps_audited_or_reverted {A} (I : S -> Prop) audit revert (done_ : ST S A) :
  Keeps I audit -> Keeps I revert -> Keeps I done_ -> Keeps I (audited_or_reverted audit revert done_).
Proof.
  intros. unfold audited_or_reverted. apply keeps_bind; [apply _|]. intros []; [apply _|].
  apply keeps_bind; [apply _|]. intros []; apply _.
Qed.

(** ** Step relations

    [Evolves R m]: whatever [m] does is a step of the preorder [R]. *)
Section Evolves.
Context (R : S -> S -> Prop) `{!PreOrder R}.
Class Evolves {A} (m : ST S A) : Prop := evolves : forall s, R s (snd (m s)).
Lemma wp_evolves {A} (m : ST S A) s (Q : result A -> S -> Prop) :
  Evolves m -> (forall r s', R s s' -> Q r s') -> wp m s Q.
Proof. unfold wp. intros Hm HQ. apply HQ, Hm. Qed.
#[global] Instance evolves_ret {A} (a : A) : Evolves (mret a : ST S A).
Proof using PreOrder0. intros s. by simpl. Qed.
#[global] Instance evolves_throw {A} e : Evolves (throw e : ST S A).
Proof using PreOrder0. intros s. by simpl. Qed.
#[global] Instance evolves_bind {A A'} (m : ST S A) (k : A -> ST S A') :
  Evolves m -> (forall a, Evolves (k a)) -> Evolves (m ≫= k).
Proof using PreOrder0.
  intros Hm Hk s. unfold mbind, ST_bind. specialize (Hm s). destruct (m s) as [[a|e] s']; simpl in *; [|done].
  etransitivity; [exact Hm|apply Hk].
Qed.
#[global] Instance evolves_attempt {A} (m : ST S A) : Evolves m -> Evolves (attempt m).
Proof. intros Hm s. unfold attempt. specialize (Hm s). by destruct (m s). Qed.
#[global] Instance evolves_wrap {A} p (m : ST S A) : Evolves m -> Evolves (wrap p m).
Proof. intros Hm s. unfold wrap. specialize (Hm s). by destruct (m s) as [[]]. Qed.
#[global] Instance evolves_map_err {A} g (m : ST S A) : Evolves m -> Evolves (map_err g m).
Proof. intros Hm s. unfold map_err. specialize (Hm s). by destruct (m s) as [[]]. Qed.
#[global] Instance evolves_guard b e : Evolves (guard_err b e).
Proof using PreOrder0. destruct b; apply _. Qed.
#[global] Instance evolves_when b m : Evolves m -> Evolves (when b m).
Proof using PreOrder0. destruct b; [done|intros _; apply evolves_ret]. Qed.
(** What leaves the part [f] alone is a step of a relation that looks at [f]
    only. *)
Lemma evolves_preserves {A B} (f : S -> B) (m : ST S A) :
  (forall s s', f s' = f s -> R s s') -> Preserves f m -> Evolves m.
Proof. intros HR Hm s. apply HR, Hm. Qed.
End Evolves.

(** ** Errors

    [Raises P m]: an error [m] ends with satisfies [P].  A [P] that looks
    through wrapping, as [errors_Is] does, is [WrapClosed]. *)
Class WrapClosed (P : error -> Prop) : Prop := wrap_closed : forall p e q, P e -> P (Errorf p e q).
Class Raises {A} (P : error -> Prop) (m : ST S A) : Prop := raises : forall s e, fst (m s) = Err e -> P e.

Lemma wp_raises {A} P (m : ST S A) `{!Raises P m} s (Q : result A -> S -> Prop) :
  (forall a s', Q (Ok a) s') -> (forall e s', P e -> Q (Err e) s') -> wp m s Q.
Proof. intros Hok He. unfold wp. destruct (fst (m s)) as [a|e] eqn:E; [apply Hok|]. by apply He, (raises s). Qed.
#[global] Instance raises_ret {A} P (a : A) : Raises P (mret a : ST S A).
Proof. by intros s e. Qed.
Lemma raises_throw {A} (P : error -> Prop) e : P e -> Raises P (throw e : ST S A).
Proof. intros He s e' [= <-]. exact He. Qed.
#[global] Instance raises_bind {A A'} P (m : ST S A) (k : A -> ST S A') :
  Raises P m -> (forall a, Raises P (k a)) -> Raises P (m ≫= k).
Proof.
  intros Hm Hk s e. unfold mbind, ST_bind. specialize (Hm s). destruct (m s) as [[a|e'] s']; [apply Hk|].
  intros [= <-]. by apply Hm.
Qed.
#[global] Instance raises_attempt {A} P (m : ST S A) : Raises P (attempt m).
Proof. intros s e. unfold attempt. by destruct (m s). Qed.
#[global] Instance raises_wrap {A} P p (m : ST S A) `{!WrapClosed P} : Raises P m -> Raises P (wrap p m).
Proof.
  intros Hm s e. unfold wrap. specialize (Hm s). destruct (m s) as [[a|e'] s']; [done|].
  intros [= <-]. by apply wrap_closed, Hm.
Qed.
(** An error that is caught is one the caught program raises. *)
Lemma raises_try {A A'} P (m : ST S A) (k : result A -> ST S A') :
  Raises P m -> (forall a, Raises P (k (Ok a))) -> (forall e, P e -> Raises P (k (Err e))) -> Raises P (attempt m ≫= k).
Proof.
  intros Hm Hok He s e. unfold mbind, ST_bind, attempt. specialize (Hm s). destruct (m s) as [[a|e'] s']; [apply Hok|].
  by apply He, Hm.
Qed.
Lemma raises_guard P b e : P e -> Raises P (guard_err b e).
Proof. intros He. destruct b; [apply raises_ret|by apply raises_throw]. Qed.
#[global] Instance raises_when P b (m : ST S unit) : Raises P m -> Raises P (when b m).
Proof. by destruct b; [|intros; apply raises_ret]. Qed.
End Monad.

#[export] Hint Extern 2 (Evolves _ (match ?x with _ => _ end)) => destruct x : typeclass_instances.
#[export] Hint Extern 2 (Raises _ (match ?x with _ => _ end)) => destruct x : typeclass_instances.

#[export] Hint Extern 2 (Preserves _ (match ?x with _ => _ end)) => destruct x : typeclass_instances.

#[export] Hint Extern 2 (Keeps _ (match ?x with _ => _ end)) => destruct x : typeclass_instances.

(** ** Automation

    [wp_step] applies the rule of the statement at the head of the goal;
    [wp_auto] runs a straight-line program to its ends, splitting on every
    guard and on every match of the program. *)
Create HintDb sparky.

Ltac wp_step :=
  lazymatch goal with
  | |- wp (mret _) _ _ => apply wp_ret
  | |- wp (throw _) _ _ => apply wp_throw
  | |- wp (gets _) _ _ => apply wp_gets
  | |- wp (modify _) _ _ => apply wp_modify
  | |- wp (_ ≫= _) _ _ => apply wp_bind
  | |- wp (attempt _) _ _ => apply wp_attempt
  | |- wp (wrap _ _) _ _ => apply wp_wrap
  | |- wp (map_err _ _) _ _ => apply wp_map_err
  | |- wp (guard_err _ _) _ _ => apply wp_guard; intros ?
  | |- wp (when _ _) _ _ => apply wp_when; intros ?
  | |- wp (if ?b then _ else _) _ _ => let H := fresh "Hb" in destruct b eqn:H
  | |- wp (match ?x with _ => _ end) _ _ => let H := fresh "Hm" in destruct x eqn:H
  | |- wp (let _ := _ in _) _ _ => cbv zeta
  end.
Ltac wp_auto := repeat (cbv beta zeta; wp_step).

(** Boolean tests to propositions. *)
Ltac propb :=
  repeat match goal with
  | H : bool_decide _ = true |- _ => apply bool_decide_eq_true in H
  | H : bool_decide _ = false |- _ => apply bool_decide_eq_false in H
  | H : (_ && _)%bool = true |- _ => apply andb_true_iff in H; destruct H
  | H : (_ || _)%bool = false |- _ => apply orb_false_iff in H; destruct H
  | H : negb _ = true |- _ => apply negb_true_iff in H
  | H : negb _ = false |- _ => apply negb_false_iff in H
  | H : (_ <? _)%Z = true |- _ => apply Z.ltb_lt in H
  | H : (_ <? _)%Z = false |- _ => apply Z.ltb_ge in H
  | H : (_ <=? _)%Z = true |- _ => apply Z.leb_le in H
  | H : (_ <=? _)%Z = false |- _ => apply Z.leb_gt in H
  | H : (_ =? _)%Z = true |- _ => apply Z.eqb_eq in H
  | H : (_ =? _)%Z = false |- _ => apply Z.eqb_neq in H
  end.

Lemma existsb_same {A} (f g : A -> bool) l : (forall x, f x = g x) -> existsb f l = existsb g l.
Proof. intros Hfg. induction l as [|x l IH]; simpl; [done|]. by rewrite Hfg, IH. Qed.

(** ** Membership in the lists a query builds *)
Lemma elem_of_List_filter {A} (p : A -> bool) x l : x ∈ List.filter p l <-> p x = true /\ x ∈ l.
Proof. rewrite !list_elem_of_In, List.filter_In. naive_solver. Qed.
Lemma existsb_elem {A} (p : A -> bool) l : existsb p l = true <-> exists x, x ∈ l /\ p x = true.
Proof. rewrite List.existsb_exists. by setoid_rewrite list_elem_of_In. Qed.
Lemma existsb_map {K A} `{Countable K} (p : K * A -> bool) (m : gmap K A) :
  existsb p (map_to_list m) = true <-> exists k a, m !! k = Some a /\ p (k, a) = true.
Proof.
  rewrite existsb_elem. split.
  - intros ([k a] & Hin & Hp). exists k, a. by rewrite <-elem_of_map_to_list.
  - intros (k & a & Hm & Hp). exists (k, a). by rewrite elem_of_map_to_list.
Qed.
