(* ===== verification/Text.v ===== *)
(** * Text: what the source uses of [strings], [unicode/utf8], [regexp], [sort]

    Go strings are byte strings; [runes] decodes UTF-8 the way a [range] loop
    does (an invalid byte is one replacement rune of width one).  The fixed
    regular expressions of the source are written as boolean matchers over
    character classes.  Case folding is modelled on ASCII letters. *)
From stdpp Require Import base list strings sorting.
From Stdlib Require Import ZArith Lia.
From Stdlib Require Import Ascii.
From Stdlib Require String.
From S2P Require Import Prelude.
Local Open Scope Z_scope.

(** ** Characters *)
Definition code (c : ascii) : Z := Z.of_N (N_of_ascii c).
Definition in_range (lo hi : Z) (c : ascii) : bool := (lo <=? code c) && (code c <=? hi).
Definition is_digit : ascii -> bool := in_range 48 57.
Definition is_lower : ascii -> bool := in_range 97 122.
Definition is_upper : ascii -> bool := in_range 65 90.
Definition is_alnum (c : ascii) : bool := is_digit c || is_lower c || is_upper c.
Definition is_hex (c : ascii) : bool := is_digit c || in_range 97 102 c || in_range 65 70 c.
Definition is_char (n : Z) (c : ascii) : bool := code c =? n.

Definition bytes (s : string) : list ascii := String.list_ascii_of_string s.
Definition of_bytes (l : list ascii) : string := String.string_of_list_ascii l.
Definition len (s : string) : Z := Z.of_nat (String.length s).

Lemma bytes_of_bytes l : bytes (of_bytes l) = l.
Proof. apply String.list_ascii_of_string_of_list_ascii. Qed.
Lemma length_bytes s : length (bytes s) = String.length s.
Proof. unfold bytes. induction s as [|c s IH]; simpl; congruence. Qed.
Lemma length_of_bytes l : String.length (of_bytes l) = length l.
Proof. by rewrite <-length_bytes, bytes_of_bytes. Qed.
Lemma bytes_app s t : bytes (s +:+ t) = bytes s ++ bytes t.
Proof. induction s as [|c s IH]; [done|]. change (c :: bytes (s +:+ t) = c :: (bytes s ++ bytes t)). by rewrite IH. Qed.
Lemma of_bytes_bytes s : of_bytes (bytes s) = s.
Proof. apply String.string_of_list_ascii_of_string. Qed.

Definition all_chars (p : ascii -> bool) (s : string) : bool := forallb p (bytes s).

(** A character as a one-byte string, for the quote and the control characters. *)
Definition chr (n : N) : string := String.String (ascii_of_N n) String.EmptyString.

(** ** Lower case and prefixes *)
Definition lower_char (c : ascii) : ascii :=
  if is_upper c then ascii_of_N (N_of_ascii c + 32) else c.
Definition to_lower (s : string) : string := of_bytes (map lower_char (bytes s)).
Definition equal_fold (s t : string) : bool := bool_decide (to_lower s = to_lower t).

Definition has_prefix (s p : string) : bool := String.prefix p s.
Definition has_suffix (s p : string) : bool :=
  bool_decide (skipn (length (bytes s) - length (bytes p)) (bytes s) = bytes p).

Fixpoint join (sep : string) (l : list string) : string :=
  match l with
  | [] => ""
  | [x] => x
  | x :: l' => x +:+ sep +:+ join sep l'
  end%string.

(** [strconv.Itoa] on a natural number. *)
Fixpoint dec_digits (fuel : nat) (n : Z) (acc : string) : string :=
  match fuel with
  | O => acc
  | S f =>
      let acc' := String.String (ascii_of_N (Z.to_N (48 + n mod 10))) acc in
      if n / 10 =? 0 then acc' else dec_digits f (n / 10) acc'
  end.
Definition itoa (n : Z) : string :=
  if n <? 0 then ("-" +:+ dec_digits 20 (- n) "")%string else dec_digits 20 n "".

(** [%q] for text without control characters: the quote and the backslash
    are escaped. *)
Fixpoint escape_quotes (l : list ascii) : list ascii :=
  match l with
  | [] => []
  | c :: l' =>
      if is_char 34 c || is_char 92 c then ascii_of_N 92 :: c :: escape_quotes l' else c :: escape_quotes l'
  end.
Definition quote (s : string) : string := (chr 34 +:+ of_bytes (escape_quotes (bytes s)) +:+ chr 34)%string.

(** ** Runes *)
Definition cont (c : ascii) : bool := in_range 128 191 c.

(** One step of the decoder: the rune, its width, on a non-empty input.  The
    first-byte ranges are those of [unicode/utf8] (no overlong forms, no
    surrogates, nothing past U+10FFFF). *)
Definition decode_rune (l : list ascii) : Z * nat :=
  let bad := (65533, 1%nat) in
  match l with
  | [] => bad
  | a :: l1 =>
      let x := code a in
      if x <? 128 then (x, 1%nat)
      else match l1 with
      | b :: l2 =>
          if (194 <=? x) && (x <=? 223) then
            if cont b then ((x - 192) * 64 + (code b - 128), 2%nat) else bad
          else match l2 with
          | c :: l3 =>
              if (224 <=? x) && (x <=? 239) then
                if cont b && cont c && (if x =? 224 then 160 <=? code b else true)
                   && (if x =? 237 then code b <=? 159 else true)
                then ((x - 224) * 4096 + (code b - 128) * 64 + (code c - 128), 3%nat) else bad
              else match l3 with
              | d :: _ =>
                  if (240 <=? x) && (x <=? 244) then
                    if cont b && cont c && cont d && (if x =? 240 then 144 <=? code b else true)
                       && (if x =? 244 then code b <=? 143 else true)
                    then ((x - 240) * 262144 + (code b - 128) * 4096 + (code c - 128) * 64 + (code d - 128), 4%nat)
                    else bad
                  else bad
              | [] => bad
              end
          | [] => bad
          end
      | [] => bad
      end
  end.

Fixpoint decode (fuel : nat) (l : list ascii) : list (Z * list ascii) :=
  match fuel, l with
  | S f, _ :: _ => let '(r, n) := decode_rune l in (r, take n l) :: decode f (drop n l)
  | _, _ => []
  end.
Definition chunks (s : string) : list (Z * list ascii) := decode (length (bytes s)) (bytes s).
Definition runes (s : string) : list Z := map fst (chunks s).
Definition rune_count (s : string) : Z := Z.of_nat (length (runes s)).
Definition unchunk (l : list (Z * list ascii)) : string := of_bytes (concat (map snd l)).

(** [unicode.IsControl] and [unicode.IsSpace]. *)
Definition is_control (r : Z) : bool := ((0 <=? r) && (r <=? 31)) || ((127 <=? r) && (r <=? 159)).
Definition is_space (r : Z) : bool :=
  ((9 <=? r) && (r <=? 13)) || (r =? 32) || (r =? 133) || (r =? 160) || (r =? 5760)
  || ((8192 <=? r) && (r <=? 8202)) || (r =? 8232) || (r =? 8233) || (r =? 8239) || (r =? 8287) || (r =? 12288).

Fixpoint drop_spaces (l : list (Z * list ascii)) : list (Z * list ascii) :=
  match l with
  | c :: l' => if is_space (fst c) then drop_spaces l' else l
  | [] => []
  end.
Definition trim_chunks (l : list (Z * list ascii)) : list (Z * list ascii) :=
  rev (drop_spaces (rev (drop_spaces l))).
(** [strings.TrimSpace] *)
Definition trim_space (s : string) : string := unchunk (trim_chunks (chunks s)).

(** [utf8.ValidString] *)
Definition valid_utf8 (s : string) : bool :=
  forallb (fun c : Z * list ascii => negb ((c.1 =? 65533) && Nat.eqb (length c.2) 1)) (chunks s).

(** [strings.Split(s, "/")], [strings.Contains] and [strings.TrimSuffix]. *)
Fixpoint segments (l : list ascii) : list (list ascii) :=
  match l with
  | [] => [[]]
  | c :: l' =>
      if is_char 47 c then [] :: segments l'
      else match segments l' with s :: ss => (c :: s) :: ss | [] => [[c]] end
  end.
Lemma segments_cons l : exists s ss, segments l = s :: ss.
Proof. destruct l as [|c l]; simpl; [eauto|]. destruct (is_char 47 c); [eauto|]. destruct (segments l); eauto. Qed.
Fixpoint contains (s sub : string) : bool :=
  String.prefix sub s || match s with String.String _ s' => contains s' sub | String.EmptyString => false end.
Definition trim_suffix (s suffix : string) : string :=
  if has_suffix s suffix then of_bytes (take (String.length s - String.length suffix) (bytes s)) else s.

(** ** The uuid pattern, 8-4-4-4-12 hexadecimal digits *)
Fixpoint match_shape (shape : list (ascii -> bool)) (l : list ascii) : bool :=
  match shape, l with
  | [], [] => true
  | p :: shape', c :: l' => p c && match_shape shape' l'
  | _, _ => false
  end.
Definition uuid_shape : list (ascii -> bool) :=
  let h n := repeat is_hex n in let d := [is_char 45] in
  h 8%nat ++ d ++ h 4%nat ++ d ++ h 4%nat ++ d ++ h 4%nat ++ d ++ h 12%nat.
Definition uuid_match (s : string) : bool := match_shape uuid_shape (bytes s).

(** ** Stable sorting ([sort.Slice], [sort.Strings], SQL's [ORDER BY]) *)
Section Sort.
Context {A : Type} (le : A -> A -> bool).

Fixpoint insert_by (x : A) (l : list A) : list A :=
  match l with
  | [] => [x]
  | y :: l' => if le x y then x :: l else y :: insert_by x l'
  end.
Definition sort_by (l : list A) : list A := foldr insert_by [] l.

Lemma insert_by_perm x l : insert_by x l ≡ₚ x :: l.
Proof.
  induction l as [|y l IH]; simpl; [done|]. destruct (le x y); [done|].
  rewrite IH. apply Permutation_swap.
Qed.
Lemma sort_by_perm l : sort_by l ≡ₚ l.
Proof. induction l as [|x l IH]; simpl; [done|]. by rewrite insert_by_perm, IH. Qed.
Lemma elem_of_sort_by x l : x ∈ sort_by l <-> x ∈ l.
Proof. by rewrite sort_by_perm. Qed.
Lemma length_sort_by l : length (sort_by l) = length l.
Proof. by rewrite sort_by_perm. Qed.
Lemma NoDup_sort_by l : NoDup (sort_by l) <-> NoDup l.
Proof. by rewrite sort_by_perm. Qed.

Context (le_total : forall x y, le x y = false -> le y x = true).
Context (le_trans : forall x y z, le x y = true -> le y z = true -> le x z = true).

Lemma insert_by_sorted x l : StronglySorted (fun a b => le a b = true) l ->
  StronglySorted (fun a b => le a b = true) (insert_by x l).
Proof using le_total le_trans.
  induction 1 as [|y l Hs IH Hall]; simpl; [repeat constructor|].
  destruct (le x y) eqn:E.
  - constructor; [by constructor|]. constructor; [done|].
    eapply Forall_impl; [exact Hall|]. eauto.
  - constructor; [done|]. rewrite insert_by_perm. constructor; auto.
Qed.
Lemma sort_by_sorted l : StronglySorted (fun a b => le a b = true) (sort_by l).
Proof using le_total le_trans.
  induction l; simpl; [constructor|]. by apply insert_by_sorted.
Qed.

(** Sorting by an antisymmetric order forgets the order of the input. *)
Lemma sort_by_canonical (l l' : list A) :
  (forall x y, le x y = true -> le y x = true -> x = y) ->
  l ≡ₚ l' -> sort_by l = sort_by l'.
Proof using le_total le_trans.
  intros Hanti Hp. apply (StronglySorted_unique_strong (fun a b => le a b = true)).
  - intros x y _ _ Hxy Hyx. by apply Hanti.
  - apply sort_by_sorted.
  - apply sort_by_sorted.
  - by rewrite !sort_by_perm.
Qed.
End Sort.

Definition string_le (s t : string) : bool := String.leb s t.
Lemma string_le_total x y : string_le x y = false -> string_le y x = true.
Proof. unfold string_le. destruct (String.leb_total x y) as [->|]; done. Qed.
Lemma ascii_compare_N a b : Ascii.compare a b = N.compare (N_of_ascii a) (N_of_ascii b).
Proof. reflexivity. Qed.
Lemma string_le_trans x y z : string_le x y = true -> string_le y z = true -> string_le x z = true.
Proof.
  unfold string_le, String.leb. revert y z.
  induction x as [|a x IH]; intros [|b y] [|c z]; simpl; try done.
  rewrite !ascii_compare_N.
  destruct (N.compare_spec (N_of_ascii a) (N_of_ascii b)) as [Hab|Hab|Hab]; try done;
    destruct (N.compare_spec (N_of_ascii b) (N_of_ascii c)) as [Hbc|Hbc|Hbc]; try done;
    destruct (N.compare_spec (N_of_ascii a) (N_of_ascii c)) as [Hac|Hac|Hac]; try done; try lia.
  apply IH.
Qed.

(** ** Splitting a text at a character, and joining it again

    [strings.Split] with a separator of one byte; what is joined from parts
    without it splits into the parts. *)
Local Open Scope string_scope.
Local Open Scope list_scope.
Local Open Scope Z_scope.
Fixpoint split_on (sep : Z) (l : list ascii) : list (list ascii) :=
  match l with
  | [] => [[]]
  | c :: l' =>
      if is_char sep c then [] :: split_on sep l'
      else match split_on sep l' with w :: ws => (c :: w) :: ws | [] => [[c]] end
  end.
Definition split_text (sep : Z) (s : string) : list string := map of_bytes (split_on sep (bytes s)).

Lemma text_eq (a b : string) : bytes a = bytes b -> a = b.
Proof. intros E. by rewrite <-(of_bytes_bytes a), <-(of_bytes_bytes b), E. Qed.
Lemma text_assoc (a b c : string) : (a +:+ b) +:+ c = a +:+ (b +:+ c).
Proof. apply text_eq. by rewrite !bytes_app, <-(assoc_L (++)). Qed.
Lemma text_nil_r (a : string) : a +:+ "" = a.
Proof. apply text_eq. rewrite bytes_app. apply app_nil_r. Qed.
Section Split.
Context (k : ascii).
Definition one_char : string := String.String k "".
Definition free_of (s : string) : Prop := existsb (is_char (code k)) (bytes s) = false.
Lemma is_char_iff c : is_char (code k) c = true <-> c = k.
Proof.
  unfold is_char. rewrite Z.eqb_eq. split; [|by intros ->]. unfold code. intros E%N2Z.inj.
  by rewrite <-(ascii_N_embedding c), E, ascii_N_embedding.
Qed.
Lemma split_on_cons l : exists w ws, split_on (code k) l = w :: ws.
Proof. destruct l as [|c l]; cbn; [eauto|]. destruct (is_char _ c); [eauto|]. destruct (split_on (code k) l); eauto. Qed.
Lemma split_on_app l m : split_on (code k) (l ++ k :: m) = split_on (code k) l ++ split_on (code k) m.
Proof.
  induction l as [|x l IH]; cbn [app split_on].
  - by rewrite (proj2 (is_char_iff k) eq_refl).
  - rewrite IH. destruct (is_char _ x); [done|]. by destruct (split_on_cons l) as (w & ws & ->).
Qed.
Lemma split_on_free l : existsb (is_char (code k)) l = false -> split_on (code k) l = [l].
Proof. induction l as [|c l IH]; cbn; [done|]. intros [Hc Hl]%orb_false_iff. by rewrite Hc, (IH Hl). Qed.
Lemma split_text_free s : free_of s -> split_text (code k) s = [s].
Proof. intros Hs. unfold split_text. rewrite split_on_free by done. cbn. by rewrite of_bytes_bytes. Qed.
Lemma split_text_app a b : split_text (code k) (a +:+ one_char +:+ b) = split_text (code k) a ++ split_text (code k) b.
Proof. unfold split_text. rewrite !bytes_app. change (bytes one_char ++ bytes b) with (k :: bytes b). by rewrite split_on_app, map_app. Qed.
Lemma split_text_join l : l <> [] -> Forall free_of l -> split_text (code k) (join one_char l) = l.
Proof.
  induction l as [|x l IH]; [done|]. intros _ [Hx Hl]%Forall_cons. destruct l as [|y l]; [by apply split_text_free|].
  change (join one_char (x :: y :: l)) with (x +:+ one_char +:+ join one_char (y :: l)).
  rewrite split_text_app, IH by done. by rewrite split_text_free.
Qed.
Lemma join_split_text s : join one_char (split_text (code k) s) = s.
Proof.
  unfold split_text. rewrite <-(of_bytes_bytes s) at 2. generalize (bytes s). clear s. intros l.
  induction l as [|c l IH]; [done|]. cbn [split_on]. destruct (split_on_cons l) as (w & ws & E). rewrite E in *.
  destruct (is_char _ c) eqn:Ec; cbn [map] in *.
  - apply is_char_iff in Ec as ->. change (of_bytes (k :: l)) with (one_char +:+ of_bytes l). by rewrite <-IH.
  - change (of_bytes (c :: l)) with (String.String c (of_bytes l)). rewrite <-IH. by destruct ws.
Qed.
(** Lines, each ended by the character. *)
Lemma split_lines l : Forall free_of l -> split_text (code k) (String.concat "" (map (fun x => x +:+ one_char) l)) = l ++ [""].
Proof.
  induction 1 as [|x l Hx Hl IH]; [done|].
  assert (Hc : String.concat "" (map (fun x => x +:+ one_char) (x :: l)) = x +:+ one_char +:+ String.concat "" (map (fun x => x +:+ one_char) l)).
  { destruct l as [|y l]; [by rewrite text_nil_r|]. cbn [map]. rewrite <-text_assoc. done. }
  rewrite Hc, split_text_app, split_text_free, IH by done. done.
Qed.
End Split.
