(* ===== verification/Runes.v ===== *)
(** * Runes to text: what the source uses of [unicode/utf8] and [strings] to
    write runes

    [of_runes] is [string([]rune)] and what [strings.Map] builds; with
    [Text.runes] it is the identity on valid runes.  [ToValidUTF8], [Fields] and
    a cut at a rune boundary are here too, each with what it leaves of a text. *)
From stdpp Require Import base list strings.
From Stdlib Require Import ZArith Lia.
From Stdlib Require Import Ascii.
From Stdlib Require String.
From S2P Require Import Prelude Text.
Local Open Scope string_scope.
Local Open Scope list_scope.
Local Open Scope Z_scope.

Definition byte_of (n : Z) : ascii := ascii_of_N (Z.to_N n).
Definition RuneError : Z := 65533.
Definition valid_rune (r : Z) : bool := ((0 <=? r) && (r <? 55296)) || ((57344 <=? r) && (r <? 1114112)).
Definition utf8_bytes (r : Z) : list ascii :=
  if r <? 128 then [byte_of r]
  else if r <? 2048 then [byte_of (192 + r / 64); byte_of (128 + r mod 64)]
  else if r <? 65536 then [byte_of (224 + r / 4096); byte_of (128 + r / 64 mod 64); byte_of (128 + r mod 64)]
  else [byte_of (240 + r / 262144); byte_of (128 + r / 4096 mod 64); byte_of (128 + r / 64 mod 64); byte_of (128 + r mod 64)].
(** [utf8.AppendRune]: what is not a rune is the replacement rune. *)
Definition encode_rune (r : Z) : list ascii := utf8_bytes (if valid_rune r then r else RuneError).
Definition rune_bytes (l : list Z) : list ascii := concat (map encode_rune l).
Definition of_runes (l : list Z) : string := of_bytes (rune_bytes l).

(** ** [strings.Fields], joined with single spaces *)
Fixpoint fields (l : list Z) : list (list Z) :=
  match l with
  | [] => []
  | r :: l' =>
      if is_space r then fields l'
      else match l' with
           | r' :: _ => if is_space r' then [r] :: fields l'
                        else match fields l' with f :: fs => (r :: f) :: fs | [] => [[r]] end
           | [] => [[r]]
           end
  end.
Fixpoint join_fields (fs : list (list Z)) : list Z :=
  match fs with
  | [] => []
  | [f] => f
  | f :: fs' => f ++ 32 :: join_fields fs'
  end.
(** [strings.TrimSpace] on runes. *)
Fixpoint drop_space_runes (l : list Z) : list Z :=
  match l with r :: l' => if is_space r then drop_space_runes l' else l | [] => [] end.
Definition trim_runes (l : list Z) : list Z := rev (drop_space_runes (rev (drop_space_runes l))).

(** ** [strings.ToValidUTF8] *)
Definition bad_chunk (c : Z * list ascii) : bool := (c.1 =? RuneError) && Nat.eqb (length c.2) 1.
Fixpoint valid_chunks (replacement : list ascii) (l : list (Z * list ascii)) (invalid : bool) : list ascii :=
  match l with
  | [] => []
  | c :: l' =>
      if bad_chunk c then (if invalid then [] else replacement) ++ valid_chunks replacement l' true
      else c.2 ++ valid_chunks replacement l' false
  end.
Definition ToValidUTF8 (s replacement : string) : string := of_bytes (valid_chunks (bytes replacement) (chunks s) false).
(** [strings.ReplaceAll] of one byte by another. *)
Definition replace_byte (old new : ascii) (s : string) : string :=
  of_bytes (map (fun c => if bool_decide (c = old) then new else c) (bytes s)).
(** [for cut > 0 && !utf8.RuneStart(s[cut]) { cut-- }] *)
Fixpoint rune_cut (l : list ascii) (cut : nat) : nat :=
  match cut with
  | O => O
  | S n => match l !! cut with Some c => if cont c then rune_cut l n else cut | None => cut end
  end.

(** ** Facts *)
Lemma code_byte_of n : 0 <= n < 256 -> code (byte_of n) = n.
Proof. intros Hn. unfold code, byte_of. rewrite N_ascii_embedding; lia. Qed.
Lemma code_range c : 0 <= code c < 256.
Proof. unfold code. pose proof (N_ascii_bounded c). lia. Qed.
Lemma valid_error : valid_rune RuneError = true.
Proof. reflexivity. Qed.
Lemma encode_valid r : valid_rune r = true -> encode_rune r = utf8_bytes r.
Proof. unfold encode_rune. by intros ->. Qed.
Lemma encode_ne r : exists c l, encode_rune r = c :: l.
Proof.
  unfold encode_rune, utf8_bytes. generalize (if valid_rune r then r else RuneError). intros z.
  repeat case_match; eauto.
Qed.

Ltac zeuc := Z.to_euclidean_division_equations; lia.

(** What is decoded from the bytes of a rune, whatever follows, is the rune. *)
Lemma decode_utf8 r tl : valid_rune r = true -> decode_rune (utf8_bytes r ++ tl) = (r, length (utf8_bytes r)).
Proof.
  unfold valid_rune. rewrite orb_true_iff, !andb_true_iff, !Z.leb_le, !Z.ltb_lt. intros Hr.
  unfold utf8_bytes.
  destruct (Z.ltb_spec r 128) as [H1|H1]; [|destruct (Z.ltb_spec r 2048) as [H2|H2];
    [|destruct (Z.ltb_spec r 65536) as [H3|H3]]]; unfold decode_rune, cont, in_range; cbn [app length];
    rewrite !code_byte_of by zeuc;
    repeat match goal with
    | |- context [(?a <? ?b)] => first [rewrite (proj2 (Z.ltb_lt a b)) by zeuc | rewrite (proj2 (Z.ltb_ge a b)) by zeuc]
    | |- context [(?a <=? ?b)] => first [rewrite (proj2 (Z.leb_le a b)) by zeuc | rewrite (proj2 (Z.leb_gt a b)) by zeuc]
    | |- context [if (?a =? ?b) then _ else _] => destruct (Z.eqb_spec a b)
    end; cbn [andb]; try (f_equal; zeuc); try done.
Qed.
Lemma decode_encode r tl : valid_rune r = true -> decode_rune (encode_rune r ++ tl) = (r, length (encode_rune r)).
Proof. intros Hr. rewrite encode_valid by done. by apply decode_utf8. Qed.

Lemma decode_runes rs f tl : Forall (fun r => valid_rune r = true) rs -> (length (rune_bytes rs ++ tl) <= f)%nat ->
  exists f', (length tl <= f')%nat /\
  decode f (rune_bytes rs ++ tl) = map (fun r => (r, encode_rune r)) rs ++ decode f' tl.
Proof.
  intros Hrs. revert f. induction Hrs as [|r rs Hr Hrs IH]; intros f Hf; [by exists f|].
  change (rune_bytes (r :: rs)) with (encode_rune r ++ rune_bytes rs) in *. rewrite <-(assoc_L _) in *.
  destruct (encode_ne r) as (c & l & Hc). destruct f as [|f]; [rewrite Hc in Hf; simpl in Hf; lia|].
  destruct (IH f) as (f' & Hf' & IHf).
  { rewrite Hc in Hf. simpl in Hf. rewrite !length_app in *. lia. }
  exists f'. split; [done|]. cbn [map app]. rewrite <-IHf.
  pose proof (decode_encode r (rune_bytes rs ++ tl) Hr) as Hd.
  assert (Hs : encode_rune r ++ rune_bytes rs ++ tl = c :: l ++ rune_bytes rs ++ tl) by by rewrite Hc.
  unfold decode; fold decode. rewrite Hs. rewrite <-Hs, Hd. by rewrite take_app_length, drop_app_length.
Qed.
Lemma chunks_of_runes rs : Forall (fun r => valid_rune r = true) rs -> chunks (of_runes rs) = map (fun r => (r, encode_rune r)) rs.
Proof.
  intros Hrs. unfold chunks, of_runes. rewrite bytes_of_bytes.
  destruct (decode_runes rs (length (rune_bytes rs)) [] Hrs) as (f & Hf & He); [by rewrite app_nil_r|].
  rewrite app_nil_r in He. rewrite He. destruct f; by rewrite app_nil_r.
Qed.
(** Writing runes and reading them back. *)
Lemma runes_of_runes rs : Forall (fun r => valid_rune r = true) rs -> runes (of_runes rs) = rs.
Proof. intros Hrs. unfold runes. rewrite chunks_of_runes by done. rewrite map_map. apply map_id. Qed.

(** Whatever is decoded is a rune, from at least one byte. *)
Lemma decode_rune_valid l : l <> [] -> valid_rune (decode_rune l).1 = true /\ (0 < (decode_rune l).2)%nat.
Proof.
  destruct l as [|a l]; [done|intros _]. unfold decode_rune, cont, in_range.
  pose proof (code_range a) as Ha. destruct (Z.ltb_spec (code a) 128) as [H1|H1].
  { cbn. split; [|lia]. unfold valid_rune. apply orb_true_iff. left. apply andb_true_iff. split; [apply Z.leb_le|apply Z.ltb_lt]; lia. }
  repeat case_match; cbn [fst snd]; (split; [|lia]); try done; propb;
    repeat match goal with H : (_ && _)%bool = true |- _ => apply andb_true_iff in H; destruct H
           | H : (_ <=? _) = true |- _ => apply Z.leb_le in H | H : (_ =? _) = true |- _ => apply Z.eqb_eq in H
           | H : (_ =? _) = false |- _ => apply Z.eqb_neq in H end;
    unfold valid_rune; apply orb_true_iff; rewrite !andb_true_iff, !Z.leb_le, !Z.ltb_lt; lia.
Qed.
Lemma decode_valid f l : Forall (fun c => valid_rune c.1 = true) (decode f l).
Proof.
  revert l. induction f as [|f IH]; intros l; [constructor|]. destruct l as [|a l]; [constructor|].
  cbn [decode]. destruct (decode_rune_valid (a :: l)) as [Hv _]; [done|].
  destruct (decode_rune (a :: l)) as [r n]. by constructor.
Qed.
Lemma runes_valid s : Forall (fun r => valid_rune r = true) (runes s).
Proof. unfold runes. rewrite Forall_map. apply decode_valid. Qed.
Lemma byte_of_code c n : n = code c -> byte_of n = c.
Proof. intros ->. unfold byte_of, code. by rewrite N2Z.id, ascii_N_embedding. Qed.
(** A decoded rune that is not an invalid byte was written by its bytes. *)
Lemma decode_good l : l <> [] ->
  bad_chunk ((decode_rune l).1, take (decode_rune l).2 l) = true \/ take (decode_rune l).2 l = encode_rune (decode_rune l).1.
Proof.
  intros Hl. destruct (decode_rune_valid l Hl) as [Hv _]. rewrite encode_valid by done. clear Hv.
  destruct l as [|a l]; [done|clear Hl]. unfold decode_rune, cont, in_range.
  pose proof (code_range a) as Ha. destruct (Z.ltb_spec (code a) 128) as [H1|H1].
  { right. cbn. unfold utf8_bytes. rewrite (proj2 (Z.ltb_lt _ _)) by lia. by rewrite (byte_of_code a). }
  repeat case_match; cbn [fst snd take]; try (by left; reflexivity); right; propb;
    repeat match goal with H : (_ && _)%bool = true |- _ => apply andb_true_iff in H; destruct H
           | H : (_ <=? _) = true |- _ => apply Z.leb_le in H | H : (_ =? _) = true |- _ => apply Z.eqb_eq in H
           | H : (_ =? _) = false |- _ => apply Z.eqb_neq in H end; unfold utf8_bytes;
    repeat match goal with
    | |- context [(?a <? ?b)] => first [rewrite (proj2 (Z.ltb_lt a b)) by lia | rewrite (proj2 (Z.ltb_ge a b)) by lia]
    end; first [exfalso; zeuc | repeat match goal with |- _ :: _ = _ :: _ => apply (f_equal2 cons); [symmetry; apply byte_of_code; zeuc|] end; done].
Qed.

(** A text is the runes of its good chunks between the invalid bytes. *)
Lemma decode_chunk f l : Forall (fun c => bad_chunk c = true \/ c.2 = encode_rune c.1) (decode f l).
Proof.
  revert l. induction f as [|f IH]; intros l; [constructor|]. destruct l as [|a l]; [constructor|].
  cbn [decode]. destruct (decode_good (a :: l)) as [Hb|Hb]; [done| |];
    destruct (decode_rune (a :: l)) as [r n]; constructor; simpl in *; auto.
Qed.
Fixpoint valid_runes (replacement : list Z) (l : list (Z * list ascii)) (invalid : bool) : list Z :=
  match l with
  | [] => []
  | c :: l' =>
      if bad_chunk c then (if invalid then [] else replacement) ++ valid_runes replacement l' true
      else c.1 :: valid_runes replacement l' false
  end.
Lemma rune_bytes_app l l' : rune_bytes (l ++ l') = rune_bytes l ++ rune_bytes l'.
Proof. unfold rune_bytes. by rewrite map_app, concat_app. Qed.
Lemma valid_chunks_runes rep l inv : Forall (fun c => bad_chunk c = true \/ c.2 = encode_rune c.1) l ->
  valid_chunks (rune_bytes rep) l inv = rune_bytes (valid_runes rep l inv).
Proof.
  intros Hl. revert inv. induction Hl as [|c l Hc Hl IH]; intros inv; [done|]. simpl.
  destruct (bad_chunk c) eqn:E.
  - rewrite rune_bytes_app, IH. by destruct inv.
  - destruct Hc as [Hc|Hc]; [done|]. rewrite Hc, IH. done.
Qed.
Lemma valid_runes_valid rep l inv : Forall (fun r => valid_rune r = true) rep -> Forall (fun c => valid_rune c.1 = true) l ->
  Forall (fun r => valid_rune r = true) (valid_runes rep l inv).
Proof.
  intros Hr Hl. revert inv. induction Hl as [|c l Hc Hl IH]; intros inv; simpl; [constructor|].
  destruct (bad_chunk c); [|by constructor]. apply Forall_app. split; [by destruct inv|done].
Qed.
Lemma ToValidUTF8_runes s rep : Forall (fun r => valid_rune r = true) rep ->
  exists rs, Forall (fun r => valid_rune r = true) rs /\ ToValidUTF8 s (of_runes rep) = of_runes rs.
Proof.
  intros Hr. exists (valid_runes rep (chunks s) false). split; [apply valid_runes_valid; [done|apply decode_valid]|].
  unfold ToValidUTF8, of_runes. rewrite bytes_of_bytes. by rewrite valid_chunks_runes by apply decode_chunk.
Qed.

(** ** Cutting at a rune boundary *)
Lemma encode_tail r : exists c l, encode_rune r = c :: l /\ cont c = false /\ Forall (fun c => cont c = true) l.
Proof.
  unfold encode_rune. assert (Hv : valid_rune (if valid_rune r then r else RuneError) = true) by by destruct (valid_rune r) eqn:E.
  revert Hv. generalize (if valid_rune r then r else RuneError). intros z Hz.
  unfold valid_rune in Hz. rewrite orb_true_iff, !andb_true_iff, !Z.leb_le, !Z.ltb_lt in Hz. unfold utf8_bytes, cont, in_range.
  repeat case_match; eexists _, _; (split; [done|]); propb; rewrite ?Forall_cons, ?Forall_nil, !code_byte_of by zeuc;
    rewrite ?andb_false_iff, ?andb_true_iff, ?Z.leb_le, ?Z.leb_gt; repeat split; try zeuc.
Qed.
(** The cut falls after a whole number of runes. *)
Lemma rune_cut_runes rs n : (n <= length (rune_bytes rs))%nat ->
  exists k, take (rune_cut (rune_bytes rs) n) (rune_bytes rs) = rune_bytes (take k rs).
Proof.
  revert n. induction rs as [|r rs IH]; intros n Hn; [exists 0%nat; by destruct n|].
  change (rune_bytes (r :: rs)) with (encode_rune r ++ rune_bytes rs) in *.
  destruct (decide (n < length (encode_rune r))%nat) as [Hlt|Hge].
  - exists 0%nat. enough (Hz : rune_cut (encode_rune r ++ rune_bytes rs) n = 0%nat) by by rewrite Hz.
    clear Hn. destruct (encode_tail r) as (c & l & He & _ & Hl). rewrite He in *. simpl in Hlt.
    induction n as [|n IHn]; [done|]. cbn [rune_cut app].
    destruct (lookup_lt_is_Some_2 l n) as [x Hx]; [lia|].
    change ((c :: l ++ rune_bytes rs) !! S n) with ((l ++ rune_bytes rs) !! n). rewrite lookup_app_l by lia. rewrite Hx. rewrite (Forall_lookup_1 _ _ _ _ Hl Hx). apply IHn. lia.
  - assert (Hm : exists m, n = (length (encode_rune r) + m)%nat) by (exists (n - length (encode_rune r))%nat; lia).
    destruct Hm as [m ->]. rewrite length_app in Hn. destruct (IH m) as [k Hk]; [lia|].
    enough (He : rune_cut (encode_rune r ++ rune_bytes rs) (length (encode_rune r) + m) =
                 (length (encode_rune r) + rune_cut (rune_bytes rs) m)%nat).
    { exists (S k). rewrite He, take_app_add. by rewrite Hk. }
    clear Hk Hge Hn IH. destruct (encode_tail r) as (c & l & -> & Hc & Hl). induction m as [|m IHm].
    + rewrite Nat.add_0_r. cbn [rune_cut]. rewrite Nat.add_0_r. simpl length. cbn [rune_cut].
      destruct (rune_bytes rs) as [|c2 l2] eqn:E2.
      * rewrite app_nil_r. by rewrite lookup_ge_None_2 by (simpl; lia).
      * rewrite lookup_app_r by done. rewrite Nat.sub_diag. change ((c2 :: l2) !! 0%nat) with (Some c2).
        destruct rs as [|r2 rs]; [done|]. destruct (encode_tail r2) as (c3 & l3 & H3 & Hc3 & _).
        change (encode_rune r2 ++ rune_bytes rs = c2 :: l2) in E2. rewrite H3 in E2. injection E2 as <- _. by rewrite Hc3.
    + rewrite Nat.add_succ_r. cbn [rune_cut]. rewrite lookup_app_r by lia.
      replace (S (length (c :: l) + m) - length (c :: l))%nat with (S m) by lia.
      destruct (rune_bytes rs !! S m) as [x|]; [destruct (cont x)|]; [exact IHm|lia|lia].
Qed.

(** ** Trimming twice *)

(** A prefix that holds the first chunk decodes to it. *)
Lemma decode_rune_take m l : l <> [] -> ((decode_rune l).2 <= m)%nat -> decode_rune (take m l) = decode_rune l.
Proof.
  destruct l as [|a [|b [|c [|d l]]]]; [done|intros _..];
    destruct m as [|[|[|[|m]]]]; unfold decode_rune; cbn [firstn]; try done;
    repeat case_match; cbn [snd]; intros Hm; try done; lia.
Qed.

(** Each chunk is what the decoder finds at its place, with [tl] behind the
    last one. *)
Definition chunk_bytes (l : list (Z * list ascii)) : list ascii := concat (map snd l).
Fixpoint steps (l : list (Z * list ascii)) (tl : list ascii) : Prop :=
  match l with
  | [] => True
  | c :: l' => c.2 <> [] /\ decode_rune (c.2 ++ chunk_bytes l' ++ tl) = (c.1, length c.2) /\ steps l' tl
  end.
Lemma chunk_bytes_app l l' : chunk_bytes (l ++ l') = chunk_bytes l ++ chunk_bytes l'.
Proof. unfold chunk_bytes. by rewrite map_app, concat_app. Qed.
Lemma decode_width l : l <> [] -> ((decode_rune l).2 <= length l)%nat.
Proof.
  destruct l as [|a [|b [|c [|d l]]]]; [done|intros _..]; unfold decode_rune; repeat case_match; simpl; lia.
Qed.
Lemma decode_steps f l : (length l <= f)%nat -> steps (decode f l) [] /\ chunk_bytes (decode f l) = l.
Proof.
  revert l. induction f as [|f IH]; intros l Hf; [by destruct l; [|simpl in Hf; lia]|]. destruct l as [|a l]; [done|].
  cbn [decode]. destruct (decode_rune_valid (a :: l)) as [_ Hn]; [done|]. pose proof (decode_width (a :: l)) as Hw.
  destruct (decode_rune (a :: l)) as [r n] eqn:E. cbn [fst snd] in *. destruct (IH (drop n (a :: l))) as [Hs Hb].
  { rewrite length_drop. simpl in *. lia. }
  assert (Hcb : chunk_bytes ((r, take n (a :: l)) :: decode f (drop n (a :: l))) = a :: l).
  { unfold chunk_bytes. simpl map. simpl concat. unfold chunk_bytes in Hb. rewrite Hb. apply take_drop. }
  split; [|exact Hcb]. cbn [steps fst snd]. split; [by destruct n; [lia|]|]. split; [|exact Hs].
  rewrite Hb, app_nil_r, take_drop, E. f_equal. rewrite length_take. assert (a :: l <> []) as Hne by done. specialize (Hw Hne). lia.
Qed.
Lemma steps_decode l f : steps l [] -> (length (chunk_bytes l) <= f)%nat -> decode f (chunk_bytes l) = l.
Proof.
  revert f. induction l as [|[r b] l IH]; intros f Hs Hf; [by destruct f|]. destruct Hs as (Hb & Hd & Hs). cbn [fst snd] in *.
  change (chunk_bytes ((r, b) :: l)) with (b ++ chunk_bytes l) in *. rewrite app_nil_r in Hd.
  destruct b as [|a b]; [done|]. destruct f as [|f]; [simpl in Hf; lia|].
  unfold decode; fold decode. cbn [app] in *. rewrite Hd. cbv beta iota. rewrite app_comm_cons.
  rewrite take_app_length, drop_app_length. f_equal. apply IH; [done|]. simpl in Hf. rewrite length_app in Hf. lia.
Qed.
Lemma steps_prefix l tl : steps l tl -> steps l [].
Proof.
  induction l as [|[r b] l IH]; [done|]. intros (Hb & Hd & Hs). split; [done|]. split; [|by apply IH]. cbn [fst snd] in *.
  rewrite app_nil_r. rewrite (assoc_L (++)) in Hd. rewrite <-Hd, <-(decode_rune_take (length (b ++ chunk_bytes l)) ((b ++ chunk_bytes l) ++ tl)).
  - by rewrite take_app_length.
  - destruct b; [done|discriminate].
  - rewrite Hd. simpl. rewrite length_app. lia.
Qed.
Lemma steps_app l l' tl : steps (l ++ l') tl -> steps l (chunk_bytes l' ++ tl) /\ steps l' tl.
Proof.
  induction l as [|[r b] l IH]; [done|]. intros (Hb & Hd & Hs). destruct (IH Hs) as [H1 H2]. split; [|done].
  split; [done|]. split; [|done]. rewrite chunk_bytes_app, <-(assoc_L (++)) in Hd. exact Hd.
Qed.
(** A run of the chunks of a text are the chunks of their own text. *)
Lemma chunks_middle s l1 l2 l3 : chunks s = l1 ++ l2 ++ l3 -> chunks (unchunk l2) = l2.
Proof.
  intros He. destruct (decode_steps (length (bytes s)) (bytes s)) as [Hs _]; [done|]. fold (chunks s) in Hs. rewrite He in Hs.
  apply steps_app in Hs as [_ Hs]. apply steps_app in Hs as [Hs _]. apply steps_prefix in Hs.
  unfold chunks, unchunk. rewrite bytes_of_bytes. by apply steps_decode.
Qed.
Lemma unchunk_chunks s : unchunk (chunks s) = s.
Proof.
  destruct (decode_steps (length (bytes s)) (bytes s)) as [_ Hb]; [done|]. unfold unchunk, chunks. unfold chunk_bytes in Hb. rewrite Hb.
  apply of_bytes_bytes.
Qed.

Lemma drop_spaces_split l : exists l1, l = l1 ++ drop_spaces l.
Proof. induction l as [|c l [l1 IH]]; [by exists []|]. simpl. destruct (is_space c.1); [|by exists []]. exists (c :: l1). simpl. by rewrite <-IH. Qed.
Lemma drop_spaces_idemp l : drop_spaces (drop_spaces l) = drop_spaces l.
Proof. induction l as [|c l IH]; [done|]. simpl. destruct (is_space c.1) eqn:E; [done|]. simpl. by rewrite E. Qed.
Lemma drop_spaces_last l c : is_space c.1 = false -> drop_spaces (l ++ [c]) = drop_spaces l ++ [c].
Proof. intros Hc. induction l as [|d l IH]; simpl; [by rewrite Hc|]. by destruct (is_space d.1). Qed.
Lemma trim_chunks_middle l : exists l1 l3, l = l1 ++ trim_chunks l ++ l3.
Proof.
  unfold trim_chunks. destruct (drop_spaces_split l) as [l1 H1]. destruct (drop_spaces_split (rev (drop_spaces l))) as [l3 H3].
  exists l1, (rev l3). rewrite <-rev_app_distr, <-H3, rev_involutive. exact H1.
Qed.
Lemma trim_chunks_idemp l : trim_chunks (trim_chunks l) = trim_chunks l.
Proof.
  unfold trim_chunks. set (m := drop_spaces (rev (drop_spaces l))).
  assert (Hm : drop_spaces (rev m) = rev m).
  { destruct (drop_spaces_split (rev (drop_spaces l))) as [l3 H3]. fold m in H3.
    assert (Hd : drop_spaces l = rev m ++ rev l3) by by rewrite <-rev_app_distr, <-H3, rev_involutive.
    destruct (rev m) as [|c k] eqn:Er; [done|]. pose proof (drop_spaces_idemp l) as Hi. rewrite Hd in Hi. simpl in *.
    destruct (is_space c.1); [|done]. exfalso. destruct (drop_spaces_split (k ++ rev l3)) as [q Hq].
    apply (f_equal length) in Hq. rewrite Hi, !length_app in Hq. simpl in Hq. rewrite length_app in Hq. lia. }
  rewrite Hm, rev_involutive. subst m. by rewrite drop_spaces_idemp.
Qed.
Lemma trim_space_idemp s : trim_space (trim_space s) = trim_space s.
Proof.
  unfold trim_space. destruct (trim_chunks_middle (chunks s)) as (l1 & l3 & He). rewrite (chunks_middle _ _ _ _ He).
  by rewrite trim_chunks_idemp.
Qed.
