(* ===== verification/Json.v ===== *)
(** * Numbers and JSON: what the source uses of [encoding/json] and [strconv]

    A [json.RawMessage] as the decoder sees it, decoding into a struct of
    pointer fields with [DisallowUnknownFields], machine integers with their
    wrap-around and floats as the decimals they are written as. *)
From stdpp Require Import base list strings.
From Stdlib Require Import ZArith Lia.
From Stdlib Require Import Ascii.
From Stdlib Require String.
From S2P Require Import Prelude Text.
Local Open Scope string_scope.
Local Open Scope list_scope.
Local Open Scope Z_scope.

(** ** Machine integers *)

(** [int64] arithmetic keeps the low 64 bits, read as two's complement. *)
Definition int64 (z : Z) : Z := (z + 2 ^ 63) mod 2 ^ 64 - 2 ^ 63.
Definition in_int64 (z : Z) : bool := (- 2 ^ 63 <=? z) && (z <? 2 ^ 63).

Lemma int64_range z : - 2 ^ 63 <= int64 z < 2 ^ 63.
Proof. unfold int64. pose proof (Z.mod_pos_bound (z + 2 ^ 63) (2 ^ 64) ltac:(lia)). lia. Qed.
Lemma int64_id z : in_int64 z = true -> int64 z = z.
Proof. unfold int64, in_int64. intros H; propb. rewrite Z.mod_small; lia. Qed.

(** ** [float64]

    A finite float is the decimal it is written as, [m * 10^e]; the source
    only compares floats with 0 and 1 and prints them, so decimals of at most
    15 significant digits, which survive the trip through [float64], are
    enough. *)
Inductive float64 := FDec (m e : Z) | FInf (negative : bool) | FNaN.
#[export] Instance float64_eq_dec : EqDecision float64.
Proof. solve_decision. Defined.

(** [f <= 0] and [f > n]; every comparison with NaN is false. *)
Definition fle_zero (f : float64) : bool :=
  match f with FDec m _ => m <=? 0 | FInf neg => neg | FNaN => false end.
Definition fgt (f : float64) (n : Z) : bool :=
  match f with
  | FDec m e => if 0 <=? e then n <? m * 10 ^ e else n * 10 ^ (- e) <? m
  | FInf neg => negb neg
  | FNaN => false
  end.

(** [strconv.FormatFloat(f, 'f', -1, 64)] *)
Fixpoint strip_zeros (fuel : nat) (m : Z) (places : Z) : Z * Z :=
  match fuel with
  | O => (m, places)
  | S f => if (0 <? places) && (m mod 10 =? 0) then strip_zeros f (m / 10) (places - 1) else (m, places)
  end.
Definition pad_zeros (n : Z) (s : string) : string :=
  of_bytes (repeat (ascii_of_N 48) (Z.to_nat (n - len s))) +:+ s.
Definition FormatFloat (f : float64) : string :=
  match f with
  | FInf neg => if neg then "-Inf" else "+Inf"
  | FNaN => "NaN"
  | FDec m e =>
      if 0 <=? e then itoa (m * 10 ^ e)
      else
        let sign := if m <? 0 then "-" else "" in
        let '(a, places) := strip_zeros (Z.to_nat (- e)) (Z.abs m) (- e) in
        if places =? 0 then sign +:+ itoa a
        else sign +:+ itoa (a / 10 ^ places) +:+ "." +:+ pad_zeros places (itoa (a mod 10 ^ places))
  end.
Example FormatFloat_ex : (FormatFloat (FDec 90 (-2)), FormatFloat (FDec 5 (-2)), FormatFloat (FDec 1 0)) = ("0.9", "0.05", "1").
Proof. reflexivity. Qed.

(** ** JSON values

    A number keeps whether it was written as an integer, because decoding into
    an [int] looks at the literal. *)
Inductive json :=
| JNull
| JBool (b : bool)
| JInt (z : Z)
| JDec (m e : Z)
| JStr (s : string)
| JArr (l : list json)
| JObj (fields : list (string * json)).

(** Values are compared field by field. *)
Fixpoint json_eqb (a b : json) : bool :=
  match a, b with
  | JNull, JNull => true
  | JBool x, JBool y => Bool.eqb x y
  | JInt x, JInt y => x =? y
  | JDec x e, JDec y f => (x =? y) && (e =? f)
  | JStr x, JStr y => bool_decide (x = y)
  | JArr l, JArr l' =>
      (fix go l l' := match l, l' with
       | [], [] => true | x :: t, y :: t' => json_eqb x y && go t t' | _, _ => false end) l l'
  | JObj l, JObj l' =>
      (fix go (l l' : list (string * json)) := match l, l' with
       | [], [] => true | (k, x) :: t, (k', y) :: t' => bool_decide (k = k') && json_eqb x y && go t t' | _, _ => false end) l l'
  | _, _ => false
  end.
Lemma json_nested_ind (P : json -> Prop) :
  P JNull -> (forall b, P (JBool b)) -> (forall z, P (JInt z)) -> (forall m e, P (JDec m e)) -> (forall s, P (JStr s)) ->
  (forall l, Forall P l -> P (JArr l)) -> (forall l, Forall (fun kv => P kv.2) l -> P (JObj l)) -> forall v, P v.
Proof.
  intros H1 H2 H3 H4 H5 H6 H7. fix IH 1. intros [|b|z|m e|s|l|l]; [exact H1|apply H2|apply H3|apply H4|apply H5| |].
  - apply H6. induction l; constructor; auto.
  - apply H7. induction l; constructor; auto.
Qed.
Lemma json_eqb_spec a b : json_eqb a b = true <-> a = b.
Proof.
  revert b. induction a as [|x|x|x e|x|l Hl|l Hl] using json_nested_ind;
    intros [|y|y|y f|y|l'|l']; simpl; try (split; [done|by intros [=]]).
  - split; [by intros ->%eqb_prop|intros [= ->]; apply eqb_reflx].
  - rewrite Z.eqb_eq. naive_solver.
  - rewrite andb_true_iff, !Z.eqb_eq. naive_solver.
  - rewrite bool_decide_eq_true. naive_solver.
  - revert l'. induction Hl as [|x l Hx Hl IH]; intros [|y l']; try (split; [done|by intros [=]]).
    rewrite andb_true_iff, Hx, IH. naive_solver.
  - revert l'. induction Hl as [|[k x] l Hx Hl IH]; intros [|[k' y] l']; try (split; [done|by intros [=]]).
    simpl in Hx. rewrite !andb_true_iff, bool_decide_eq_true, Hx, IH. naive_solver.
Qed.
#[export] Instance json_eq_dec : EqDecision json.
Proof. refine (fun a b => cast_if (decide (json_eqb a b = true))); rewrite <-json_eqb_spec; done. Defined.

(** A [json.RawMessage]: no bytes at all, bytes that do not begin with a JSON
    value, or a value and whether more bytes follow it. *)
Inductive RawMessage := RawEmpty | RawMalformed (why : string) | Raw (v : json) (trailing : bool).

(** [json.Unmarshal]: the whole input is one value. *)
Definition Unmarshal (r : RawMessage) : option json :=
  match r with Raw v false => Some v | _ => None end.

(** Decoding of one field; [null] sets the pointer to nil. *)
Definition decode_int (v : json) : result (option Z) :=
  match v with
  | JNull => Ok None
  | JInt z => if in_int64 z then Ok (Some z) else Err (Opaque "number out of range")
  | _ => Err (Opaque "cannot unmarshal into Go struct field of type int")
  end.
Definition decode_float (v : json) : result (option float64) :=
  match v with
  | JNull => Ok None
  | JInt z => Ok (Some (FDec z 0))
  | JDec m e => Ok (Some (FDec m e))
  | _ => Err (Opaque "cannot unmarshal into Go struct field of type float64")
  end.
Definition decode_string (v : json) : result (option string) :=
  match v with
  | JNull => Ok None
  | JStr s => Ok (Some s)
  | _ => Err (Opaque "cannot unmarshal into Go struct field of type string")
  end.
Definition decode_bool (v : json) : result (option bool) :=
  match v with
  | JNull => Ok None
  | JBool b => Ok (Some b)
  | _ => Err (Opaque "cannot unmarshal into Go struct field of type bool")
  end.

(** [dec.Decode(dst)] for a struct: every key is matched to a field, exactly or
    else ignoring case, and later keys overwrite earlier ones; [null] leaves
    the struct as it is; bytes after the value are not looked at. *)
Section Decode.
Context {S : Type} (field : string -> option (json -> S -> result S)) (names : list string).

Definition match_field (key : string) : option (json -> S -> result S) :=
  if bool_decide (key ∈ names) then field key
  else match List.find (fun n => equal_fold n key) names with Some n => field n | None => None end.
Fixpoint decode_fields (l : list (string * json)) (dst : S) : result S :=
  match l with
  | [] => Ok dst
  | (k, v) :: l' =>
      match match_field k with
      | None => Err (Opaque ("json: unknown field " +:+ quote k))
      | Some f => match f v dst with Ok dst' => decode_fields l' dst' | Err e => Err e end
      end
  end.
Definition decode_struct (r : RawMessage) (zero : S) : result S :=
  match r with
  | RawEmpty => Err (Opaque "EOF")
  | RawMalformed why => Err (Opaque why)
  | Raw (JObj l) _ => decode_fields l zero
  | Raw JNull _ => Ok zero
  | Raw _ _ => Err (Opaque "json: cannot unmarshal into Go value of struct type")
  end.
End Decode.
