(* ===== verification/Engines.v ===== *)
(** * Engine adapters ([internal/engines])

    The registry of adapters, the model-id rule of [modelid.go] and the two
    adapters, llama.cpp and vLLM: how engine parameters are validated and how
    they become a launch specification. *)
From stdpp Require Import base list strings.
From Stdlib Require Import ZArith Lia.
From Stdlib Require Import Ascii.
From Stdlib Require String.
From S2P Require Import Prelude Text Json.
Local Open Scope string_scope.
Local Open Scope list_scope.
Local Open Scope Z_scope.

Definition ErrInvalidParams : error := Sentinel "engines.ErrInvalidParams" "invalid engine params".
Definition ErrUnknownEngineType : error := Sentinel "engines.ErrUnknownEngineType" "unknown engine type".

Record LaunchSpec := MkLaunchSpec { Image : string; Args : list string; ShmSizeBytes : Z; IPCMode : string }.
Definition set_Image (v : string) (s : LaunchSpec) : LaunchSpec :=
  MkLaunchSpec v (Args s) (ShmSizeBytes s) (IPCMode s).

(** The interface every engine implements. *)
Record Adapter := MkAdapter {
  RequiresFullGPUResidency : bool;
  ValidateParams : RawMessage -> result unit;
  BuildLaunchSpec : RawMessage -> string -> result LaunchSpec
}.

(** [unmarshalParamsObject] *)
Definition unmarshalParamsObject {S} (field : string -> option (json -> S -> result S)) (names : list string)
    (zero : S) (params : RawMessage) : result S :=
  match params with
  | RawEmpty => Err (Errorf "" ErrInvalidParams ": engine_params must not be empty")
  | _ =>
      match decode_struct field names params zero with
      | Ok p => Ok p
      | Err e => Err (Errorf "" ErrInvalidParams (": " +:+ error_text e))
      end
  end.

(** [json.Unmarshal] of one field: the value, put into the struct. *)
Definition into {A S} (decode : json -> result (option A)) (put : option A -> S -> S) (v : json) (dst : S) : result S :=
  match decode v with Ok a => Ok (put a dst) | Err e => Err e end.

(** A guard on a field that is set: [if p.X != nil && bad { return ... }]. *)
Definition check {A} (x : option A) (bad : A -> bool) (e : A -> string) : result unit :=
  match x with
  | Some a => if bad a then Err (Errorf "" ErrInvalidParams (e a)) else Ok tt
  | None => Ok tt
  end.
(** The checks of a validation in order: the first that fails is returned. *)
Fixpoint first_error (l : list (result unit)) : result unit :=
  match l with [] => Ok tt | Ok _ :: l' => first_error l' | Err e :: _ => Err e end.
(** The arguments of a field that is set: [if p.X != nil { args = append(args, ...) }]. *)
Definition flag {A} (x : option A) (f : A -> list string) : list string := match x with Some a => f a | None => [] end.

(** ** llama.cpp *)
Module LlamaCPP.
Definition llamaCPPImage : string := "ghcr.io/ggml-org/llama.cpp:server".
Record llamaCPPParams := MkParams { NGPULayers : option Z; CtxSize : option Z; Threads : option Z }.
Definition zero : llamaCPPParams := MkParams None None None.
Definition names : list string := ["n_gpu_layers"; "ctx_size"; "threads"].
Definition field (name : string) : option (json -> llamaCPPParams -> result llamaCPPParams) :=
  if bool_decide (name = "n_gpu_layers") then
    Some (into decode_int (fun v p => MkParams v (CtxSize p) (Threads p)))
  else if bool_decide (name = "ctx_size") then
    Some (into decode_int (fun v p => MkParams (NGPULayers p) v (Threads p)))
  else if bool_decide (name = "threads") then
    Some (into decode_int (fun v p => MkParams (NGPULayers p) (CtxSize p) v))
  else None.
Definition params_of (params : RawMessage) : result llamaCPPParams := unmarshalParamsObject field names zero params.

Definition ValidateParams (params : RawMessage) : result unit :=
  match params_of params with
  | Err e => Err e
  | Ok p => first_error
      [check (NGPULayers p) (fun n => n <? 0) (fun n => ": n_gpu_layers must not be negative, got " +:+ itoa n);
       check (CtxSize p) (fun n => n <? 1) (fun n => ": ctx_size must be positive, got " +:+ itoa n);
       check (Threads p) (fun n => n <? 1) (fun n => ": threads must be positive, got " +:+ itoa n)]
  end.
Definition args (p : llamaCPPParams) (servedModelName : string) : list string :=
  flag (NGPULayers p) (fun n => ["--gpu-layers"; itoa n])
  ++ flag (CtxSize p) (fun n => ["--ctx-size"; itoa n])
  ++ flag (Threads p) (fun n => ["--threads"; itoa n])
  ++ (if bool_decide (servedModelName = "") then [] else ["--alias"; servedModelName]).
Definition BuildLaunchSpec (params : RawMessage) (servedModelName : string) : result LaunchSpec :=
  match params_of params with
  | Err e => Err e
  | Ok p => Ok (MkLaunchSpec llamaCPPImage (args p servedModelName) 0 "")
  end.
Definition adapter : Adapter := MkAdapter false ValidateParams BuildLaunchSpec.
End LlamaCPP.

(** ** vLLM *)
Module VLLM.
Definition vllmImage : string := "vllm/vllm-openai:latest".
Record vllmParams := MkParams {
  TensorParallelSize : option Z; GPUMemoryUtilization : option float64; DType : option string;
  Quantization : option string; MaxModelLen : option Z; ServedModelName : option string;
  KVCacheDType : option string; MaxNumBatchedTokens : option Z; MaxNumSeqs : option Z;
  EnableChunkedPrefill : option bool; EnableAutoToolChoice : option bool; ToolCallParser : option string;
  ShmSizeGB : option Z
}.
Definition zero : vllmParams := MkParams None None None None None None None None None None None None None.
Definition names : list string :=
  ["tensor_parallel_size"; "gpu_memory_utilization"; "dtype"; "quantization"; "max_model_len"; "served_model_name";
   "kv_cache_dtype"; "max_num_batched_tokens"; "max_num_seqs"; "enable_chunked_prefill"; "enable_auto_tool_choice";
   "tool_call_parser"; "shm_size_gb"].
Definition put_ints (name : string) (v : option Z) (p : vllmParams) : vllmParams :=
  let 'MkParams a b c d e f g h i j k l m := p in
  if bool_decide (name = "tensor_parallel_size") then MkParams v b c d e f g h i j k l m
  else if bool_decide (name = "max_model_len") then MkParams a b c d v f g h i j k l m
  else if bool_decide (name = "max_num_batched_tokens") then MkParams a b c d e f g v i j k l m
  else if bool_decide (name = "max_num_seqs") then MkParams a b c d e f g h v j k l m
  else MkParams a b c d e f g h i j k l v.
Definition put_strings (name : string) (v : option string) (p : vllmParams) : vllmParams :=
  let 'MkParams a b c d e f g h i j k l m := p in
  if bool_decide (name = "dtype") then MkParams a b v d e f g h i j k l m
  else if bool_decide (name = "quantization") then MkParams a b c v e f g h i j k l m
  else if bool_decide (name = "served_model_name") then MkParams a b c d e v g h i j k l m
  else if bool_decide (name = "kv_cache_dtype") then MkParams a b c d e f v h i j k l m
  else MkParams a b c d e f g h i j k v m.
Definition put_bools (name : string) (v : option bool) (p : vllmParams) : vllmParams :=
  let 'MkParams a b c d e f g h i j k l m := p in
  if bool_decide (name = "enable_chunked_prefill") then MkParams a b c d e f g h i v k l m
  else MkParams a b c d e f g h i j v l m.
Definition put_float (v : option float64) (p : vllmParams) : vllmParams :=
  let 'MkParams a b c d e f g h i j k l m := p in MkParams a v c d e f g h i j k l m.
Definition field (name : string) : option (json -> vllmParams -> result vllmParams) :=
  if bool_decide (name ∈ ["tensor_parallel_size"; "max_model_len"; "max_num_batched_tokens"; "max_num_seqs"; "shm_size_gb"])
  then Some (into decode_int (put_ints name))
  else if bool_decide (name ∈ ["dtype"; "quantization"; "served_model_name"; "kv_cache_dtype"; "tool_call_parser"])
  then Some (into decode_string (put_strings name))
  else if bool_decide (name ∈ ["enable_chunked_prefill"; "enable_auto_tool_choice"])
  then Some (into decode_bool (put_bools name))
  else if bool_decide (name = "gpu_memory_utilization") then Some (into decode_float put_float)
  else None.
Definition params_of (params : RawMessage) : result vllmParams := unmarshalParamsObject field names zero params.

Definition positive (name : string) (x : option Z) : result unit :=
  check x (fun n => n <? 1) (fun n => ": " +:+ name +:+ " must be positive, got " +:+ itoa n).
Definition is_set (b : option bool) : bool := match b with Some b => b | None => false end.
Definition validate (p : vllmParams) : result unit := first_error
  [positive "tensor_parallel_size" (TensorParallelSize p);
   check (GPUMemoryUtilization p) (fun f => fle_zero f || fgt f 1)
     (fun f => ": gpu_memory_utilization must be in (0, 1], got " +:+ FormatFloat f);
   positive "max_model_len" (MaxModelLen p);
   positive "max_num_batched_tokens" (MaxNumBatchedTokens p);
   positive "max_num_seqs" (MaxNumSeqs p);
   check (ToolCallParser p) (fun _ => negb (is_set (EnableAutoToolChoice p)))
     (fun _ => ": tool_call_parser requires enable_auto_tool_choice to be true");
   positive "shm_size_gb" (ShmSizeGB p)].
Definition ValidateParams (params : RawMessage) : result unit :=
  match params_of params with Err e => Err e | Ok p => validate p end.

Definition args (p : vllmParams) (servedModelName : string) : list string :=
  flag (TensorParallelSize p) (fun n => ["--tensor-parallel-size"; itoa n])
  ++ flag (GPUMemoryUtilization p) (fun f => ["--gpu-memory-utilization"; FormatFloat f])
  ++ flag (DType p) (fun s => ["--dtype"; s])
  ++ flag (Quantization p) (fun s => ["--quantization"; s])
  ++ flag (MaxModelLen p) (fun n => ["--max-model-len"; itoa n])
  ++ (if bool_decide (servedModelName = "") then [] else ["--served-model-name=" +:+ servedModelName])
  ++ flag (KVCacheDType p) (fun s => ["--kv-cache-dtype"; s])
  ++ flag (MaxNumBatchedTokens p) (fun n => ["--max-num-batched-tokens"; itoa n])
  ++ flag (MaxNumSeqs p) (fun n => ["--max-num-seqs"; itoa n])
  ++ (if is_set (EnableChunkedPrefill p) then ["--enable-chunked-prefill"] else [])
  ++ (if is_set (EnableAutoToolChoice p) then ["--enable-auto-tool-choice"] else [])
  ++ flag (ToolCallParser p) (fun s => ["--tool-call-parser"; s]).
(** The gigabytes as [int64], times 1024 three times, each product at its width. *)
Definition shm_bytes (gb : Z) : Z := int64 (int64 (int64 (int64 gb * 1024) * 1024) * 1024).
Definition BuildLaunchSpec (params : RawMessage) (servedModelName : string) : result LaunchSpec :=
  match params_of params with
  | Err e => Err e
  | Ok p =>
      Ok (match ShmSizeGB p with
          | Some gb => MkLaunchSpec vllmImage (args p servedModelName) (shm_bytes gb) "host"
          | None => MkLaunchSpec vllmImage (args p servedModelName) 0 ""
          end)
  end.
Definition adapter : Adapter := MkAdapter true ValidateParams BuildLaunchSpec.
End VLLM.

(** ** The registry *)
Definition ProfileEngineVLLM : string := "vllm".
Definition ProfileEngineAphrodite : string := "aphrodite".
Definition ProfileEngineLlamaCPP : string := "llamacpp".
Definition NewRegistry : list (string * Adapter) :=
  [(ProfileEngineVLLM, VLLM.adapter); (ProfileEngineLlamaCPP, LlamaCPP.adapter)].
Definition Registry_Adapter (engineType : string) : result Adapter :=
  match List.find (fun a => bool_decide (a.1 = engineType)) NewRegistry with
  | Some a => Ok a.2
  | None => Err (Errorf "" ErrUnknownEngineType (": " +:+ quote engineType))
  end.

(** ** [modelid.go] *)
Definition MaxModelIDLength : Z := 64.
Definition id_start (c : ascii) : bool := is_alnum c.
Definition id_char (c : ascii) : bool :=
  is_alnum c || is_char 46 c || is_char 95 c || is_char 58 c || is_char 45 c.

(** The matcher of [^seg(/seg)*$] where [seg] is [id_start] then [id_char]s;
    [fresh] says that a segment must begin here. *)
Fixpoint modelIDPattern (fresh : bool) (l : list ascii) : bool :=
  match l with
  | [] => negb fresh
  | c :: l' =>
      if fresh then id_start c && modelIDPattern false l'
      else if is_char 47 c then modelIDPattern true l'
      else id_char c && modelIDPattern false l'
  end.
Definition ValidModelID (name : string) : bool :=
  (len name <=? MaxModelIDLength) && modelIDPattern true (bytes name).

Definition ModelIDRule : string :=
  "letters, digits and . _ - : only, with / allowed between parts; each part must start with a letter or digit; at most 64 characters; no spaces or commas".
Definition is_blank (c : ascii) : bool := is_char 32 c || is_char 9 c || is_char 13 c || is_char 10 c.
Definition CheckModelID (name : string) : result unit :=
  if bool_decide (name = "") then Err (Opaque "name is required")
  else if len name >? MaxModelIDLength then
    Err (Opaque ("name " +:+ quote name +:+ " is " +:+ itoa (len name) +:+ " characters; the limit is "
      +:+ itoa MaxModelIDLength +:+ ", because it is the model id clients use"))
  else if ValidModelID name then Ok tt
  else if existsb is_blank (bytes name) then
    Err (Opaque ("name " +:+ quote name +:+ " contains whitespace; it is the model id clients use, so use only " +:+ ModelIDRule))
  else if existsb (is_char 44) (bytes name) then
    Err (Opaque ("name " +:+ quote name +:+ " contains a comma; llama.cpp would split it into several model ids, so use only " +:+ ModelIDRule))
  else Err (Opaque ("name " +:+ quote name +:+ " is not a valid model id; use only " +:+ ModelIDRule)).

(** ** Properties *)

Definition good_segment (s : list ascii) : bool :=
  match s with [] => false | c :: s' => id_start c && forallb id_char s' end.

Lemma id_start_slash c : is_char 47 c = true -> id_start c = false.
Proof.
  unfold is_char, id_start, is_alnum, is_digit, is_lower, is_upper, in_range. intros Hc; propb. rewrite Hc. reflexivity.
Qed.
Lemma id_char_slash c : is_char 47 c = true -> id_char c = false.
Proof.
  unfold id_char. intros Hc. rewrite (id_start_slash c Hc : is_alnum c = false).
  unfold is_char in *. propb. by rewrite Hc.
Qed.
(** The matcher in the middle of a segment accepts the rest of it. *)
Lemma modelIDPattern_segments l :
  modelIDPattern true l = forallb good_segment (segments l) /\
  modelIDPattern false l = match segments l with
                           | s :: ss => forallb id_char s && forallb good_segment ss
                           | [] => true
                           end.
Proof.
  induction l as [|c l [IH1 IH2]]; simpl; [done|].
  destruct (segments_cons l) as (s & ss & E). rewrite E in *.
  destruct (is_char 47 c) eqn:Hc; simpl.
  - by rewrite id_start_slash, IH1.
  - rewrite IH2. split; [by rewrite andb_assoc|by rewrite andb_assoc].
Qed.

Lemma checked_model_id name :
  ValidModelID name = (len name <=? 64) && forallb good_segment (segments (bytes name)) /\
  is_ok (CheckModelID name) = ValidModelID name.
Proof.
  split; [unfold ValidModelID; by destruct (modelIDPattern_segments (bytes name)) as [-> _]|].
  unfold CheckModelID. case_bool_decide as He; [by subst|].
  destruct (len name >? MaxModelIDLength) eqn:Hl.
  - simpl. unfold ValidModelID. by rewrite Z.leb_antisym, <-Z.gtb_ltb, Hl.
  - destruct (ValidModelID name); [done|]. destruct (existsb _ _); [done|]. by destruct (existsb _ _).
Qed.

(** A model id is accepted exactly when it has at most 64 bytes and each of
    its "/"-separated parts begins with a letter or digit and goes on with
    letters, digits and . _ - : only; the check that words the refusals agrees
    with the rule on every name. *)
Theorem ValidModelID_iff name :
  ValidModelID name = (len name <=? 64) && forallb good_segment (segments (bytes name)) /\
  is_ok (CheckModelID name) = ValidModelID name.
Proof. apply checked_model_id. Qed.

Lemma params_of_ok (a : Adapter) r : is_ok (ValidateParams a r) = true ->
  a ∈ NewRegistry.*2 -> forall n, is_ok (BuildLaunchSpec a r n) = true.
Proof.
  intros Hv Hin n. unfold NewRegistry in Hin. simpl in Hin. rewrite !elem_of_cons, elem_of_nil in Hin.
  destruct Hin as [->|[->|[]]]; simpl in *.
  - unfold VLLM.BuildLaunchSpec, VLLM.ValidateParams in *. by destruct (VLLM.params_of r).
  - unfold LlamaCPP.BuildLaunchSpec, LlamaCPP.ValidateParams in *. by destruct (LlamaCPP.params_of r).
Qed.

Lemma int64_mul_l a b : int64 (int64 a * b) = int64 (a * b).
Proof.
  unfold int64. f_equal.
  replace (((a + 2 ^ 63) mod 2 ^ 64 - 2 ^ 63) * b + 2 ^ 63)
    with ((a + 2 ^ 63) mod 2 ^ 64 * b + (2 ^ 63 - 2 ^ 63 * b)) by ring.
  rewrite Z.add_mod, Z.mul_mod_idemp_l by lia. rewrite <-Z.add_mod by lia. f_equal. ring.
Qed.
Lemma shm_bytes_wrap gb : VLLM.shm_bytes gb = int64 (gb * 2 ^ 30).
Proof. unfold VLLM.shm_bytes. rewrite (int64_mul_l gb), (int64_mul_l (gb * 1024)), int64_mul_l. f_equal. lia. Qed.

Lemma first_error_in l c : first_error l = Ok tt -> c ∈ l -> c = Ok tt.
Proof.
  induction l as [|[[]|e] l IH]; simpl; [by intros _ ?%elem_of_nil| |done].
  intros Hl [->|Hc]%elem_of_cons; auto.
Qed.

(** For vLLM parameters that were accepted, the launch always builds, asks
    for host IPC exactly when a shared memory size is set, and asks for exactly
    that many bytes as long as the size is below 2^33 GB; from there on the
    product wraps around [int64]. *)
Theorem vllm_shm_size r name p : VLLM.params_of r = Ok p -> VLLM.validate p = Ok tt ->
  exists spec, VLLM.BuildLaunchSpec r name = Ok spec /\
    match VLLM.ShmSizeGB p with
    | None => ShmSizeBytes spec = 0 /\ IPCMode spec = ""
    | Some gb => IPCMode spec = "host" /\ 1 <= gb /\ ShmSizeBytes spec = int64 (gb * 2 ^ 30) /\
        (gb < 2 ^ 33 -> ShmSizeBytes spec = gb * 2 ^ 30)
    end.
Proof.
  intros Hp Hv. unfold VLLM.BuildLaunchSpec. rewrite Hp. eexists. split; [done|].
  destruct (VLLM.ShmSizeGB p) as [gb|] eqn:Hg; [|done]. simpl. rewrite shm_bytes_wrap.
  assert (Hc : VLLM.positive "shm_size_gb" (Some gb) = Ok tt).
  { rewrite <-Hg. eapply first_error_in; [exact Hv|]. do 6 right. left. }
  unfold VLLM.positive, check in Hc. destruct (gb <? 1) eqn:Hlt; [done|]. propb.
  split_and!; try done. intros Hb. apply int64_id. unfold in_int64.
  apply andb_true_iff. split; [apply Z.leb_le|apply Z.ltb_lt]; lia.
Qed.
Definition big_shm : RawMessage := Raw (JObj [("shm_size_gb", JInt 8589934592)]) false.
(** 2^33 GB is accepted and launched with a negative size. *)
Lemma vllm_shm_size_witness :
  VLLM.ValidateParams big_shm = Ok tt /\
  exists spec, VLLM.BuildLaunchSpec big_shm "m" = Ok spec /\ ShmSizeBytes spec = - 2 ^ 63.
Proof.
  split; [reflexivity|].
  destruct (vllm_shm_size big_shm "m"
    (VLLM.MkParams None None None None None None None None None None None None (Some 8589934592))
    ltac:(reflexivity) ltac:(reflexivity)) as (spec & Hs & _ & _ & Hb & _).
  exists spec. split; [exact Hs|]. rewrite Hb. reflexivity.
Defined.

(** A JSON [null] and bytes after the object are accepted as parameters. *)
Example null_params_accepted :
  VLLM.ValidateParams (Raw JNull false) = Ok tt /\ LlamaCPP.ValidateParams (Raw (JObj []) true) = Ok tt.
Proof. split; reflexivity. Qed.
(** Keys match ignoring case, and a later key wins. *)
Example params_keys :
  LlamaCPP.BuildLaunchSpec (Raw (JObj [("ctx_size", JInt 1); ("CTX_Size", JInt 4096)]) false) "m"
  = Ok (MkLaunchSpec LlamaCPP.llamaCPPImage ["--ctx-size"; "4096"; "--alias"; "m"] 0 "").
Proof. reflexivity. Qed.
