(* ===== verification/Db.v ===== *)
(** * The data model of [internal/db] and the effects of a service

    The rows of the database as [internal/db] reads them, the messages of
    [internal/agentproto] the server sends, the world a service acts on and the
    primitive effects every service is made of: a database statement, a clock
    reading, a log line, an audit record ([internal/audit]), an envelope sent
    to an agent, an event published to browsers ([internal/events]). *)
From stdpp Require Import base list strings gmap.
From Stdlib Require Import ZArith Lia.
From Stdlib Require Import Ascii.
From Stdlib Require String.
From S2P Require Import Prelude Text Json.
Local Open Scope Z_scope.

(** [time.Time] as an instant: nanoseconds since 0001-01-01T00:00:00Z, the zero
    [time.Time], so [IsZero] is [= 0]. *)
Abbreviation Time := Z (only parsing).

(** [db.Tier], declared in ascending order as the [user_tier] enum is. *)
Inductive Tier := TierReadOnly | TierDeveloper | TierPowerDev | TierAdmin.
#[export] Instance Tier_eq_dec : EqDecision Tier.
Proof. solve_decision. Defined.

(** The order of the [user_tier] enum, the order SQL's [<=] compares by. *)
Definition tier_rank (t : Tier) : Z :=
  match t with TierReadOnly => 0 | TierDeveloper => 1 | TierPowerDev => 2 | TierAdmin => 3 end.

Definition Tier_string (t : Tier) : string :=
  match t with
  | TierReadOnly => "read_only" | TierDeveloper => "developer"
  | TierPowerDev => "power_dev" | TierAdmin => "admin"
  end%string.

(** [db.AlertSeverity], in ascending order. *)
Inductive AlertSeverity := AlertSeverityInfo | AlertSeverityWarning | AlertSeverityCritical.
#[export] Instance AlertSeverity_eq_dec : EqDecision AlertSeverity.
Proof. solve_decision. Defined.

(** [db.AlertResolution]. *)
Inductive AlertResolution := AlertResolutionCleared | AlertResolutionUser.
#[export] Instance AlertResolution_eq_dec : EqDecision AlertResolution.
Proof. solve_decision. Defined.

(** [db.RunningInstanceStatus]. *)
Inductive RunningInstanceStatus := Starting | Running | Stopping | Stopped | Failed.
#[export] Instance RunningInstanceStatus_eq_dec : EqDecision RunningInstanceStatus.
Proof. solve_decision. Defined.

(** [db.InstanceHealthStatus]. *)
Inductive InstanceHealthStatus := HealthHealthy | HealthUnhealthy | HealthUnknown | HealthDead.
#[export] Instance InstanceHealthStatus_eq_dec : EqDecision InstanceHealthStatus.
Proof. solve_decision. Defined.

(** [db.TransferSourceType]. *)
Inductive TransferSourceType := SourceInternet | SourcePeerNode.
#[export] Instance TransferSourceType_eq_dec : EqDecision TransferSourceType.
Proof. solve_decision. Defined.

(** [db.TransferStatus]. *)
Inductive TransferStatus := TQueued | TTransferring | TCompleted | TFailed | TCancelled.
#[export] Instance TransferStatus_eq_dec : EqDecision TransferStatus.
Proof. solve_decision. Defined.

(** [db.ModelFormat]. *)
Inductive ModelFormat := FormatSafetensors | FormatGGUF.
#[export] Instance ModelFormat_eq_dec : EqDecision ModelFormat.
Proof. solve_decision. Defined.

(** [db.InventoryStatus]. *)
Inductive InventoryStatus := InvPresent | InvStale | InvRemoved | InvIncomplete.
#[export] Instance InventoryStatus_eq_dec : EqDecision InventoryStatus.
Proof. solve_decision. Defined.

(** [db.RuntimeBackend]. *)
Inductive RuntimeBackend := Docker | Podman | BareMetal.
#[export] Instance RuntimeBackend_eq_dec : EqDecision RuntimeBackend.
Proof. solve_decision. Defined.

(** [db.StaleContainerMode]. *)
Inductive StaleContainerMode := ModeNone | ModeReport | ModePrune.
#[export] Instance StaleContainerMode_eq_dec : EqDecision StaleContainerMode.
Proof. solve_decision. Defined.

(** [db.AlertAudience]: exactly one of a user, a minimum tier, a group. *)
Inductive AlertAudience :=
| AudienceUser (user_id : string)
| AudienceTier (min_tier : Tier)
| AudienceGroup (app_group_id : string).
#[export] Instance AlertAudience_eq_dec : EqDecision AlertAudience.
Proof. solve_decision. Defined.

(** A row of [alert_user_state]: one viewer's read and dismissed times. *)
Record UserState := MkUserState { ReadAt : option Time; DismissedAt : option Time }.

(** The key of [node_model_inventory]. *)
Abbreviation InvKey := (string * string * string * ModelFormat)%type.
#[export] Instance ModelFormat_countable : Countable ModelFormat.
Proof.
  refine (inj_countable' (fun f => match f with FormatSafetensors => true | FormatGGUF => false end)
    (fun b : bool => if b then FormatSafetensors else FormatGGUF) _). by intros [].
Defined.

(** A value of an audit record's detail object. *)
Inductive DVal := DStr (s : string) | DInt (z : Z) | DBool (b : bool) | DRaw (v : json).

(** [db.User], with the password hash column [UserRepository] reads beside it. *)
Record User := MkUser {
  UserID : string;
  ADSID : option string;
  DisplayName : string;
  UTier : Tier;
  CreatedAt : Time;
  LastLoginAt : option Time;
  ElevatedBy : option string;
  ElevatedAt : option Time;
  LDAPDN : option string;
  LocalUsername : option string;
  UThemePreset : option string;
  UThemeCustomColors : string;
  UThemeStatusPalette : option string;
  LocalPasswordHash : option string
}.

Definition set_DisplayName (v : string) (r : User) : User :=
  MkUser (UserID r) (ADSID r) v (UTier r) (CreatedAt r) (LastLoginAt r) (ElevatedBy r) (ElevatedAt r) (LDAPDN r) (LocalUsername r) (UThemePreset r) (UThemeCustomColors r) (UThemeStatusPalette r) (LocalPasswordHash r).
Definition set_UTier (v : Tier) (r : User) : User :=
  MkUser (UserID r) (ADSID r) (DisplayName r) v (CreatedAt r) (LastLoginAt r) (ElevatedBy r) (ElevatedAt r) (LDAPDN r) (LocalUsername r) (UThemePreset r) (UThemeCustomColors r) (UThemeStatusPalette r) (LocalPasswordHash r).
Definition set_ElevatedBy (v : option string) (r : User) : User :=
  MkUser (UserID r) (ADSID r) (DisplayName r) (UTier r) (CreatedAt r) (LastLoginAt r) v (ElevatedAt r) (LDAPDN r) (LocalUsername r) (UThemePreset r) (UThemeCustomColors r) (UThemeStatusPalette r) (LocalPasswordHash r).
Definition set_ElevatedAt (v : option Time) (r : User) : User :=
  MkUser (UserID r) (ADSID r) (DisplayName r) (UTier r) (CreatedAt r) (LastLoginAt r) (ElevatedBy r) v (LDAPDN r) (LocalUsername r) (UThemePreset r) (UThemeCustomColors r) (UThemeStatusPalette r) (LocalPasswordHash r).
Definition set_LastLoginAt (v : option Time) (r : User) : User :=
  MkUser (UserID r) (ADSID r) (DisplayName r) (UTier r) (CreatedAt r) v (ElevatedBy r) (ElevatedAt r) (LDAPDN r) (LocalUsername r) (UThemePreset r) (UThemeCustomColors r) (UThemeStatusPalette r) (LocalPasswordHash r).
Definition set_LDAPDN (v : option string) (r : User) : User :=
  MkUser (UserID r) (ADSID r) (DisplayName r) (UTier r) (CreatedAt r) (LastLoginAt r) (ElevatedBy r) (ElevatedAt r) v (LocalUsername r) (UThemePreset r) (UThemeCustomColors r) (UThemeStatusPalette r) (LocalPasswordHash r).
Definition set_UThemePreset (v : option string) (r : User) : User :=
  MkUser (UserID r) (ADSID r) (DisplayName r) (UTier r) (CreatedAt r) (LastLoginAt r) (ElevatedBy r) (ElevatedAt r) (LDAPDN r) (LocalUsername r) v (UThemeCustomColors r) (UThemeStatusPalette r) (LocalPasswordHash r).
Definition set_UThemeCustomColors (v : string) (r : User) : User :=
  MkUser (UserID r) (ADSID r) (DisplayName r) (UTier r) (CreatedAt r) (LastLoginAt r) (ElevatedBy r) (ElevatedAt r) (LDAPDN r) (LocalUsername r) (UThemePreset r) v (UThemeStatusPalette r) (LocalPasswordHash r).
Definition set_UThemeStatusPalette (v : option string) (r : User) : User :=
  MkUser (UserID r) (ADSID r) (DisplayName r) (UTier r) (CreatedAt r) (LastLoginAt r) (ElevatedBy r) (ElevatedAt r) (LDAPDN r) (LocalUsername r) (UThemePreset r) (UThemeCustomColors r) v (LocalPasswordHash r).
Definition set_LocalPasswordHash (v : option string) (r : User) : User :=
  MkUser (UserID r) (ADSID r) (DisplayName r) (UTier r) (CreatedAt r) (LastLoginAt r) (ElevatedBy r) (ElevatedAt r) (LDAPDN r) (LocalUsername r) (UThemePreset r) (UThemeCustomColors r) (UThemeStatusPalette r) v.

(** [db.Alert], a row of [alerts]. *)
Record Alert := MkAlert {
  AlertID : string;
  AKind : string;
  ASeverity : AlertSeverity;
  ATitle : string;
  ABody : string;
  AObjectType : option string;
  AObjectID : option string;
  ADedupeKey : option string;
  FirstRaisedAt : Time;
  LastRaisedAt : Time;
  Occurrences : Z;
  ResolvedAt : option Time;
  ResolvedBy : option string;
  Resolution : option AlertResolution
}.

Definition set_ASeverity (v : AlertSeverity) (r : Alert) : Alert :=
  MkAlert (AlertID r) (AKind r) v (ATitle r) (ABody r) (AObjectType r) (AObjectID r) (ADedupeKey r) (FirstRaisedAt r) (LastRaisedAt r) (Occurrences r) (ResolvedAt r) (ResolvedBy r) (Resolution r).
Definition set_ATitle (v : string) (r : Alert) : Alert :=
  MkAlert (AlertID r) (AKind r) (ASeverity r) v (ABody r) (AObjectType r) (AObjectID r) (ADedupeKey r) (FirstRaisedAt r) (LastRaisedAt r) (Occurrences r) (ResolvedAt r) (ResolvedBy r) (Resolution r).
Definition set_ABody (v : string) (r : Alert) : Alert :=
  MkAlert (AlertID r) (AKind r) (ASeverity r) (ATitle r) v (AObjectType r) (AObjectID r) (ADedupeKey r) (FirstRaisedAt r) (LastRaisedAt r) (Occurrences r) (ResolvedAt r) (ResolvedBy r) (Resolution r).
Definition set_LastRaisedAt (v : Time) (r : Alert) : Alert :=
  MkAlert (AlertID r) (AKind r) (ASeverity r) (ATitle r) (ABody r) (AObjectType r) (AObjectID r) (ADedupeKey r) (FirstRaisedAt r) v (Occurrences r) (ResolvedAt r) (ResolvedBy r) (Resolution r).
Definition set_Occurrences (v : Z) (r : Alert) : Alert :=
  MkAlert (AlertID r) (AKind r) (ASeverity r) (ATitle r) (ABody r) (AObjectType r) (AObjectID r) (ADedupeKey r) (FirstRaisedAt r) (LastRaisedAt r) v (ResolvedAt r) (ResolvedBy r) (Resolution r).
Definition set_ResolvedAt (v : option Time) (r : Alert) : Alert :=
  MkAlert (AlertID r) (AKind r) (ASeverity r) (ATitle r) (ABody r) (AObjectType r) (AObjectID r) (ADedupeKey r) (FirstRaisedAt r) (LastRaisedAt r) (Occurrences r) v (ResolvedBy r) (Resolution r).
Definition set_ResolvedBy (v : option string) (r : Alert) : Alert :=
  MkAlert (AlertID r) (AKind r) (ASeverity r) (ATitle r) (ABody r) (AObjectType r) (AObjectID r) (ADedupeKey r) (FirstRaisedAt r) (LastRaisedAt r) (Occurrences r) (ResolvedAt r) v (Resolution r).
Definition set_Resolution (v : option AlertResolution) (r : Alert) : Alert :=
  MkAlert (AlertID r) (AKind r) (ASeverity r) (ATitle r) (ABody r) (AObjectType r) (AObjectID r) (ADedupeKey r) (FirstRaisedAt r) (LastRaisedAt r) (Occurrences r) (ResolvedAt r) (ResolvedBy r) v.

(** [db.RunningInstance], a row of [running_instances]. *)
Record RunningInstance := MkInstance {
  InstID : string;
  InstProfileID : string;
  InstStatus : RunningInstanceStatus;
  PrimaryNodeID : string;
  ActualPort : option Z;
  StartedBy : option string;
  StartedAt : Time;
  StoppedAt : option Time;
  HealthStatus : InstanceHealthStatus;
  LastHealthCheckAt : option Time;
  HealthDetail : option (gmap string float64);
  InstErrorMessage : option string
}.

Definition set_InstStatus (v : RunningInstanceStatus) (r : RunningInstance) : RunningInstance :=
  MkInstance (InstID r) (InstProfileID r) v (PrimaryNodeID r) (ActualPort r) (StartedBy r) (StartedAt r) (StoppedAt r) (HealthStatus r) (LastHealthCheckAt r) (HealthDetail r) (InstErrorMessage r).
Definition set_ActualPort (v : option Z) (r : RunningInstance) : RunningInstance :=
  MkInstance (InstID r) (InstProfileID r) (InstStatus r) (PrimaryNodeID r) v (StartedBy r) (StartedAt r) (StoppedAt r) (HealthStatus r) (LastHealthCheckAt r) (HealthDetail r) (InstErrorMessage r).
Definition set_StoppedAt (v : option Time) (r : RunningInstance) : RunningInstance :=
  MkInstance (InstID r) (InstProfileID r) (InstStatus r) (PrimaryNodeID r) (ActualPort r) (StartedBy r) (StartedAt r) v (HealthStatus r) (LastHealthCheckAt r) (HealthDetail r) (InstErrorMessage r).
Definition set_HealthStatus (v : InstanceHealthStatus) (r : RunningInstance) : RunningInstance :=
  MkInstance (InstID r) (InstProfileID r) (InstStatus r) (PrimaryNodeID r) (ActualPort r) (StartedBy r) (StartedAt r) (StoppedAt r) v (LastHealthCheckAt r) (HealthDetail r) (InstErrorMessage r).
Definition set_LastHealthCheckAt (v : option Time) (r : RunningInstance) : RunningInstance :=
  MkInstance (InstID r) (InstProfileID r) (InstStatus r) (PrimaryNodeID r) (ActualPort r) (StartedBy r) (StartedAt r) (StoppedAt r) (HealthStatus r) v (HealthDetail r) (InstErrorMessage r).
Definition set_HealthDetail (v : option (gmap string float64)) (r : RunningInstance) : RunningInstance :=
  MkInstance (InstID r) (InstProfileID r) (InstStatus r) (PrimaryNodeID r) (ActualPort r) (StartedBy r) (StartedAt r) (StoppedAt r) (HealthStatus r) (LastHealthCheckAt r) v (InstErrorMessage r).
Definition set_InstErrorMessage (v : option string) (r : RunningInstance) : RunningInstance :=
  MkInstance (InstID r) (InstProfileID r) (InstStatus r) (PrimaryNodeID r) (ActualPort r) (StartedBy r) (StartedAt r) (StoppedAt r) (HealthStatus r) (LastHealthCheckAt r) (HealthDetail r) v.

(** [db.ProfileTopology]. *)
Inductive ProfileTopology := TopologySingleNode | TopologyClustered.
#[export] Instance ProfileTopology_eq_dec : EqDecision ProfileTopology.
Proof. solve_decision. Defined.

(** [db.Profile], a row of [model_profiles]. *)
Record Profile := MkProfile {
  ProfID : string;
  ProfName : string;
  ProfModelRef : string;
  EngineType : string;
  EngineParams : RawMessage;
  RequiresFullGPUResidency : bool;
  RequiredMemoryGB : option float64;
  EngineVersion : option string;
  ProfQuantization : string;
  ProfFormat : ModelFormat;
  ProfImage : option string;
  Topology : ProfileTopology;
  TargetNodeID : option string;
  ProfPort : Z;
  ProfCreatedBy : option string;
  ProfCreatedAt : Time;
  ProfUpdatedBy : option string;
  ProfUpdatedAt : Time
}.

Definition set_ProfName (v : string) (r : Profile) : Profile :=
  MkProfile (ProfID r) v (ProfModelRef r) (EngineType r) (EngineParams r) (RequiresFullGPUResidency r) (RequiredMemoryGB r) (EngineVersion r) (ProfQuantization r) (ProfFormat r) (ProfImage r) (Topology r) (TargetNodeID r) (ProfPort r) (ProfCreatedBy r) (ProfCreatedAt r) (ProfUpdatedBy r) (ProfUpdatedAt r).

(** [db.ModelTransfer], a row of [model_transfers]. *)
Record ModelTransfer := MkTransfer {
  TransferID : string;
  DestNodeID : string;
  TModelRef : string;
  TSourceType : TransferSourceType;
  TSourceNodeID : option string;
  TStatus : TransferStatus;
  BytesTransferred : Z;
  BytesTotal : Z;
  TQuantization : option string;
  RequestedBy : option string;
  RequestedAt : Time;
  CompletedAt : option Time;
  TErrorMessage : option string;
  TSourceInterface : option string;
  TFormat : option ModelFormat
}.

Definition set_TStatus (v : TransferStatus) (r : ModelTransfer) : ModelTransfer :=
  MkTransfer (TransferID r) (DestNodeID r) (TModelRef r) (TSourceType r) (TSourceNodeID r) v (BytesTransferred r) (BytesTotal r) (TQuantization r) (RequestedBy r) (RequestedAt r) (CompletedAt r) (TErrorMessage r) (TSourceInterface r) (TFormat r).
Definition set_BytesTransferred (v : Z) (r : ModelTransfer) : ModelTransfer :=
  MkTransfer (TransferID r) (DestNodeID r) (TModelRef r) (TSourceType r) (TSourceNodeID r) (TStatus r) v (BytesTotal r) (TQuantization r) (RequestedBy r) (RequestedAt r) (CompletedAt r) (TErrorMessage r) (TSourceInterface r) (TFormat r).
Definition set_BytesTotal (v : Z) (r : ModelTransfer) : ModelTransfer :=
  MkTransfer (TransferID r) (DestNodeID r) (TModelRef r) (TSourceType r) (TSourceNodeID r) (TStatus r) (BytesTransferred r) v (TQuantization r) (RequestedBy r) (RequestedAt r) (CompletedAt r) (TErrorMessage r) (TSourceInterface r) (TFormat r).
Definition set_CompletedAt (v : option Time) (r : ModelTransfer) : ModelTransfer :=
  MkTransfer (TransferID r) (DestNodeID r) (TModelRef r) (TSourceType r) (TSourceNodeID r) (TStatus r) (BytesTransferred r) (BytesTotal r) (TQuantization r) (RequestedBy r) (RequestedAt r) v (TErrorMessage r) (TSourceInterface r) (TFormat r).
Definition set_TErrorMessage (v : option string) (r : ModelTransfer) : ModelTransfer :=
  MkTransfer (TransferID r) (DestNodeID r) (TModelRef r) (TSourceType r) (TSourceNodeID r) (TStatus r) (BytesTransferred r) (BytesTotal r) (TQuantization r) (RequestedBy r) (RequestedAt r) (CompletedAt r) v (TSourceInterface r) (TFormat r).
Definition set_TSourceInterface (v : option string) (r : ModelTransfer) : ModelTransfer :=
  MkTransfer (TransferID r) (DestNodeID r) (TModelRef r) (TSourceType r) (TSourceNodeID r) (TStatus r) (BytesTransferred r) (BytesTotal r) (TQuantization r) (RequestedBy r) (RequestedAt r) (CompletedAt r) (TErrorMessage r) v (TFormat r).
Definition set_TFormat (v : option ModelFormat) (r : ModelTransfer) : ModelTransfer :=
  MkTransfer (TransferID r) (DestNodeID r) (TModelRef r) (TSourceType r) (TSourceNodeID r) (TStatus r) (BytesTransferred r) (BytesTotal r) (TQuantization r) (RequestedBy r) (RequestedAt r) (CompletedAt r) (TErrorMessage r) (TSourceInterface r) v.

(** [db.NodeModelInventory], a row of [node_model_inventory]. *)
Record NodeModelInventory := MkInventory {
  InvNodeID : string;
  InvModelRef : string;
  InvQuantization : string;
  InvFormat : ModelFormat;
  InvStatus : InventoryStatus;
  InvSizeBytes : Z;
  InvPlacedAt : Time;
  InvPlacedVia : string
}.

Definition set_InvStatus (v : InventoryStatus) (r : NodeModelInventory) : NodeModelInventory :=
  MkInventory (InvNodeID r) (InvModelRef r) (InvQuantization r) (InvFormat r) v (InvSizeBytes r) (InvPlacedAt r) (InvPlacedVia r).

(** [db.AgentStatus]. *)
Inductive AgentStatus := AgentOnline | AgentOffline | AgentUnreachable.
#[export] Instance AgentStatus_eq_dec : EqDecision AgentStatus.
Proof. solve_decision. Defined.

(** [db.Node], a row of [nodes], with the bearer token hash column
    [FindCredentialByName] reads beside it. *)
Record Node := MkNode {
  NodeID : string;
  NodeName : string;
  NodeHostname : string;
  NodeIPAddress : string;
  NodeRuntimeBackend : RuntimeBackend;
  NodeGPUMemoryGB : float64;
  NodeCPUMemoryGB : float64;
  NodeAgentStatus : AgentStatus;
  NodeLastHeartbeatAt : option Time;
  NodeRegisteredBy : option string;
  NodeRegisteredAt : Time;
  NodeSSHPublicKey : option string;
  NodeSSHHostPublicKey : option string;
  NodeDefaultTransferInterface : option string;
  NodeComment : option string;
  NodeCommentUpdatedBy : option string;
  NodeCommentUpdatedAt : option Time;
  NodeBearerTokenHash : string
}.

Definition set_NodeAgentStatus (v : AgentStatus) (r : Node) : Node :=
  MkNode (NodeID r) (NodeName r) (NodeHostname r) (NodeIPAddress r) (NodeRuntimeBackend r) (NodeGPUMemoryGB r) (NodeCPUMemoryGB r) v (NodeLastHeartbeatAt r) (NodeRegisteredBy r) (NodeRegisteredAt r) (NodeSSHPublicKey r) (NodeSSHHostPublicKey r) (NodeDefaultTransferInterface r) (NodeComment r) (NodeCommentUpdatedBy r) (NodeCommentUpdatedAt r) (NodeBearerTokenHash r).
Definition set_NodeLastHeartbeatAt (v : option Time) (r : Node) : Node :=
  MkNode (NodeID r) (NodeName r) (NodeHostname r) (NodeIPAddress r) (NodeRuntimeBackend r) (NodeGPUMemoryGB r) (NodeCPUMemoryGB r) (NodeAgentStatus r) v (NodeRegisteredBy r) (NodeRegisteredAt r) (NodeSSHPublicKey r) (NodeSSHHostPublicKey r) (NodeDefaultTransferInterface r) (NodeComment r) (NodeCommentUpdatedBy r) (NodeCommentUpdatedAt r) (NodeBearerTokenHash r).
Definition set_NodeSSHPublicKey (v : option string) (r : Node) : Node :=
  MkNode (NodeID r) (NodeName r) (NodeHostname r) (NodeIPAddress r) (NodeRuntimeBackend r) (NodeGPUMemoryGB r) (NodeCPUMemoryGB r) (NodeAgentStatus r) (NodeLastHeartbeatAt r) (NodeRegisteredBy r) (NodeRegisteredAt r) v (NodeSSHHostPublicKey r) (NodeDefaultTransferInterface r) (NodeComment r) (NodeCommentUpdatedBy r) (NodeCommentUpdatedAt r) (NodeBearerTokenHash r).
Definition set_NodeSSHHostPublicKey (v : option string) (r : Node) : Node :=
  MkNode (NodeID r) (NodeName r) (NodeHostname r) (NodeIPAddress r) (NodeRuntimeBackend r) (NodeGPUMemoryGB r) (NodeCPUMemoryGB r) (NodeAgentStatus r) (NodeLastHeartbeatAt r) (NodeRegisteredBy r) (NodeRegisteredAt r) (NodeSSHPublicKey r) v (NodeDefaultTransferInterface r) (NodeComment r) (NodeCommentUpdatedBy r) (NodeCommentUpdatedAt r) (NodeBearerTokenHash r).
Definition set_NodeDefaultTransferInterface (v : option string) (r : Node) : Node :=
  MkNode (NodeID r) (NodeName r) (NodeHostname r) (NodeIPAddress r) (NodeRuntimeBackend r) (NodeGPUMemoryGB r) (NodeCPUMemoryGB r) (NodeAgentStatus r) (NodeLastHeartbeatAt r) (NodeRegisteredBy r) (NodeRegisteredAt r) (NodeSSHPublicKey r) (NodeSSHHostPublicKey r) v (NodeComment r) (NodeCommentUpdatedBy r) (NodeCommentUpdatedAt r) (NodeBearerTokenHash r).
Definition set_NodeComment (v : option string) (r : Node) : Node :=
  MkNode (NodeID r) (NodeName r) (NodeHostname r) (NodeIPAddress r) (NodeRuntimeBackend r) (NodeGPUMemoryGB r) (NodeCPUMemoryGB r) (NodeAgentStatus r) (NodeLastHeartbeatAt r) (NodeRegisteredBy r) (NodeRegisteredAt r) (NodeSSHPublicKey r) (NodeSSHHostPublicKey r) (NodeDefaultTransferInterface r) v (NodeCommentUpdatedBy r) (NodeCommentUpdatedAt r) (NodeBearerTokenHash r).
Definition set_NodeCommentUpdatedBy (v : option string) (r : Node) : Node :=
  MkNode (NodeID r) (NodeName r) (NodeHostname r) (NodeIPAddress r) (NodeRuntimeBackend r) (NodeGPUMemoryGB r) (NodeCPUMemoryGB r) (NodeAgentStatus r) (NodeLastHeartbeatAt r) (NodeRegisteredBy r) (NodeRegisteredAt r) (NodeSSHPublicKey r) (NodeSSHHostPublicKey r) (NodeDefaultTransferInterface r) (NodeComment r) v (NodeCommentUpdatedAt r) (NodeBearerTokenHash r).
Definition set_NodeCommentUpdatedAt (v : option Time) (r : Node) : Node :=
  MkNode (NodeID r) (NodeName r) (NodeHostname r) (NodeIPAddress r) (NodeRuntimeBackend r) (NodeGPUMemoryGB r) (NodeCPUMemoryGB r) (NodeAgentStatus r) (NodeLastHeartbeatAt r) (NodeRegisteredBy r) (NodeRegisteredAt r) (NodeSSHPublicKey r) (NodeSSHHostPublicKey r) (NodeDefaultTransferInterface r) (NodeComment r) (NodeCommentUpdatedBy r) v (NodeBearerTokenHash r).
Definition set_NodeName (v : string) (r : Node) : Node :=
  MkNode (NodeID r) v (NodeHostname r) (NodeIPAddress r) (NodeRuntimeBackend r) (NodeGPUMemoryGB r) (NodeCPUMemoryGB r) (NodeAgentStatus r) (NodeLastHeartbeatAt r) (NodeRegisteredBy r) (NodeRegisteredAt r) (NodeSSHPublicKey r) (NodeSSHHostPublicKey r) (NodeDefaultTransferInterface r) (NodeComment r) (NodeCommentUpdatedBy r) (NodeCommentUpdatedAt r) (NodeBearerTokenHash r).

(** [db.NodeNetworkInterface], a row of [node_network_interfaces]. *)
Record NodeNetworkInterface := MkInterface {
  IfNodeID : string;
  InterfaceName : string;
  IfIPAddress : string;
  LinkSpeedMbps : option Z;
  IfReportedAt : Time
}.

(** [db.AppGroup], a row of [app_groups]. *)
Record AppGroup := MkGroup {
  GroupID : string;
  GroupName : string;
  GroupCreatedBy : option string;
  GroupCreatedAt : Time;
  GroupUpdatedBy : option string;
  GroupUpdatedAt : Time
}.

Definition set_GroupName (v : string) (r : AppGroup) : AppGroup :=
  MkGroup (GroupID r) v (GroupCreatedBy r) (GroupCreatedAt r) (GroupUpdatedBy r) (GroupUpdatedAt r).
Definition set_GroupUpdatedBy (v : option string) (r : AppGroup) : AppGroup :=
  MkGroup (GroupID r) (GroupName r) (GroupCreatedBy r) (GroupCreatedAt r) v (GroupUpdatedAt r).
Definition set_GroupUpdatedAt (v : Time) (r : AppGroup) : AppGroup :=
  MkGroup (GroupID r) (GroupName r) (GroupCreatedBy r) (GroupCreatedAt r) (GroupUpdatedBy r) v.

(** [db.AppGroupADMapping], a row of [app_group_ad_groups]. *)
Record AppGroupADMapping := MkADMapping {
  MapDN : string;
  MapName : string;
  MapAddedBy : option string;
  MapAddedAt : Time
}.

(** [db.AuditRecord], a row of [audit_log]. *)
Record AuditRecord := MkAudit {
  AuditActorID : option string;
  IsSuperAdminAction : bool;
  AuditAction : string;
  AuditObjectType : string;
  AuditObjectID : string;
  AuditDetail : option (gmap string DVal);
  AuditCreatedAt : Time
}.

Definition set_AuditAction (v : string) (r : AuditRecord) : AuditRecord :=
  MkAudit (AuditActorID r) (IsSuperAdminAction r) v (AuditObjectType r) (AuditObjectID r) (AuditDetail r) (AuditCreatedAt r).

(** [RunSummary] of [internal/stalecontainers]. *)
Record RunSummary := MkSummary {
  SumMode : StaleContainerMode; SumStartedAt : Time; SumFinishedAt : Time;
  NodesScanned : Z; NodesSkipped : Z; SumStale : Z; SumRecent : Z; SumOrphans : Z;
  SumRemoved : Z; SumGone : Z; SumKept : Z; SumFailed : Z
}.

(** [db.StaleContainerSettings], the settings row; the schedule is a [jsonb]
    value, and the summary, which is only ever read back, the record its JSON
    is made of. *)
Record StaleContainerSettings := MkStale {
  SCMode : StaleContainerMode;
  SCSchedule : option json;
  ScheduleSetAt : Time;
  LastRunAt : option Time;
  LastRunSummary : option RunSummary;
  MinAgeHours : Z;
  ArchiveLines : Z;
  SCUpdatedBy : option string;
  SCUpdatedAt : Time
}.

Definition set_SCMode (v : StaleContainerMode) (r : StaleContainerSettings) : StaleContainerSettings :=
  MkStale v (SCSchedule r) (ScheduleSetAt r) (LastRunAt r) (LastRunSummary r) (MinAgeHours r) (ArchiveLines r) (SCUpdatedBy r) (SCUpdatedAt r).
Definition set_LastRunAt (v : option Time) (r : StaleContainerSettings) : StaleContainerSettings :=
  MkStale (SCMode r) (SCSchedule r) (ScheduleSetAt r) v (LastRunSummary r) (MinAgeHours r) (ArchiveLines r) (SCUpdatedBy r) (SCUpdatedAt r).
Definition set_LastRunSummary (v : option RunSummary) (r : StaleContainerSettings) : StaleContainerSettings :=
  MkStale (SCMode r) (SCSchedule r) (ScheduleSetAt r) (LastRunAt r) v (MinAgeHours r) (ArchiveLines r) (SCUpdatedBy r) (SCUpdatedAt r).

(** The envelopes the server sends to an agent ([internal/agentproto]), with
    the payload fields the modelled code fills in. *)
Record LoadInstance := MkLoadInstance {
  li_InstanceID : string; li_ModelRef : string; li_EngineType : string;
  li_EngineVersion : string; li_Quantization : string; li_Image : string;
  li_Args : list string; li_Port : Z; li_RequiresFullGPUResidency : bool;
  li_ShmSize : Z; li_IPCMode : string; li_ContainerName : string; li_ProfileID : string
}.
Record AuthorizePeerPull := MkAuthorizePeerPull {
  ap_TransferID : string; ap_DestPublicKey : string; ap_DestIPAddress : string;
  ap_ModelRef : string; ap_Quantization : string; ap_Format : string
}.
Record StartPeerTransfer := MkStartPeerTransfer {
  sp_TransferID : string; sp_SourceNodeID : string; sp_SourceHost : string;
  sp_SourceSSHPort : Z; sp_SourceHostPublicKey : string; sp_ModelRef : string;
  sp_Quantization : string; sp_Format : string
}.
Inductive Message :=
| MLoadInstance (m : LoadInstance)
| MUnloadInstance (instance_id : string)
| MCheckInstance (instance_id : string) (port : Z) (engine_type : string)
| MStartTransfer (transfer_id model_ref quantization : string)
| MCancelTransfer (transfer_id : string)
| MAuthorizePeerPull (m : AuthorizePeerPull)
| MStartPeerTransfer (m : StartPeerTransfer)
| MRevokePeerPull (transfer_id : string)
| MListContainers (scan_id : string)
| MRemoveContainer (remove_id instance_id : string) (lines : Z)
| MRescanInterfaces
| MDeleteModel (model_ref quantization format : string)
| MCheckPeerConnectivity (check_id source_host : string) (source_ssh_port : Z)
| MStartEngineTransfer (transfer_id engine_type version : string)
| MScanModels (scan_id : string)
| MContainerLogAck (upload_id : string) (stored : bool) (error : string)
| MFetchLogs (fetch_id instance_id : string) (lines : Z).

Record ManagedContainer := MkManagedContainer {
  mc_InstanceID : string; mc_ProfileID : string; mc_ContainerID : string; mc_ContainerName : string; mc_State : string;
  mc_Labelled : bool; mc_ExitCode : option Z; mc_OOMKilled : bool; mc_CreatedAt : option Time; mc_FinishedAt : option Time
}.
Record RemoveContainerResult := MkRemoveContainerResult {
  rc_RemoveID : string; rc_InstanceID : string; rc_Outcome : string; rc_Detail : string
}.

(** What the server keeps in memory: the deletes sent and not confirmed
    ([deleteState] of [internal/inventory]), the reachability checks asked for
    ([pendingCheck] of [internal/transfers/peer.go]) and the requests of
    [internal/stalecontainers] that wait for an agent: the container lists
    whose parts are arriving ([listWait]) and the removals ([removeWait], with
    the answer its channel holds). *)
Record listWait := MkListWait {
  lw_nodeID : string; lw_next : Z; lw_containers : list ManagedContainer; lw_truncated : bool; lw_errMsg : string; lw_finished : bool
}.
Record removeWait := MkRemoveWait { rw_nodeID : string; rw_instanceID : string; rw_ch : option RemoveContainerResult }.
Record deleteState := MkDelete { ds_at : Time; ds_failed : bool; ds_reason : string }.
Record ConnectivityResult := MkConnectivity { cr_Reachable : bool; cr_LatencyMs : Z; cr_Reason : string }.
Record pendingCheck := MkCheck { ck_destNodeID : string; ck_created : Time; ck_result : option ConnectivityResult }.

(** [internal/db/engine_transfers.go], [node_engine_inventory.go]. *)
Inductive EngineTransferStatus := EQueued | ETransferring | ECompleted | EFailed | ECancelled.
#[export] Instance EngineTransferStatus_eq_dec : EqDecision EngineTransferStatus.
Proof. solve_decision. Defined.
Record EngineTransfer := MkEngineTransfer {
  EngTransferID : string;
  EngDestNodeID : string;
  EngType : string;
  EngVersion : string;
  EngStatus : EngineTransferStatus;
  EngBytesTransferred : Z;
  EngBytesTotal : Z;
  EngRequestedBy : option string;
  EngRequestedAt : Time;
  EngCompletedAt : option Time;
  EngErrorMessage : option string
}.
Record NodeEngineInventory := MkEngineInventory {
  EinvNodeID : string;
  EinvEngineType : string;
  EinvVersion : string;
  EinvStatus : InventoryStatus;
  EinvInstallPath : string;
  EinvSizeBytes : Z;
  EinvPlacedAt : Time;
  EinvPlacedVia : string
}.
Record EngineTables := MkEngineTables {
  eng_transfers : gmap string EngineTransfer;
  eng_inventory : gmap (string * string * string) NodeEngineInventory
}.
Definition set_eng_transfers (v : gmap string EngineTransfer) (r : EngineTables) : EngineTables :=
  MkEngineTables v (eng_inventory r).
Definition set_eng_inventory (v : gmap (string * string * string) NodeEngineInventory) (r : EngineTables) : EngineTables :=
  MkEngineTables (eng_transfers r) v.

(** The scans of nodes for models [internal/inventory/scan.go] holds. *)
Record ScannedModel := MkScannedModel {
  sm_ModelRef : string; sm_Quantization : string; sm_Format : string; sm_SizeBytes : Z; sm_FileName : string; sm_PossiblyIncomplete : bool
}.
Record ScanCandidate := MkCandidate {
  cand_ModelRef : string; cand_Quantization : string; cand_Format : ModelFormat; cand_SizeBytes : Z; cand_FileName : string;
  cand_PossiblyIncomplete : bool; cand_PreviouslyRemoved : bool; cand_BlockedReason : string
}.
Inductive ScanStatus := ModelScanPending | ModelScanDone | ModelScanOffline | ModelScanFailed.
#[export] Instance ScanStatus_eq_dec : EqDecision ScanStatus.
Proof. solve_decision. Defined.
Record nodeScanState := MkNodeScanState {
  nss_status : ScanStatus; nss_err : string; nss_truncated : bool; nss_known : Z;
  nss_models : list ScannedModel; nss_candidates : list ScanCandidate
}.
Record scanState := MkScanState { scan_at : Time; scan_order : list string; scan_nodes : gmap string nodeScanState }.

(** [internal/db/container_log_archives.go] with the body, its settings row,
    and what [internal/containerlogs] keeps in memory: the uploads whose chunks
    are arriving, and the live requests that wait, with what their channel
    holds. *)
Record ContainerLogMeta := MkLogMeta {
  lm_InstanceID : string; lm_ContainerID : string; lm_ContainerName : string; lm_Reason : string; lm_State : string;
  lm_ExitCode : option Z; lm_OOMKilled : bool; lm_StartedAt : option Time; lm_FinishedAt : option Time;
  lm_LinesRequested : Z; lm_LinesKept : Z; lm_Truncated : bool; lm_SizeBytes : Z
}.
Record ContainerLogArchive := MkArchive {
  LogID : string; LogUploadID : string; LogNodeID : string; LogInstanceID : option string; LogProfileID : option string;
  LogProfileName : string; LogContainerName : string; LogContainerID : string; LogReason : string; LogState : string;
  LogExitCode : option Z; LogOOMKilled : bool; LogStartedAt : option Time; LogFinishedAt : option Time;
  LogLinesRequested : option Z; LogLinesKept : Z; LogTruncated : bool; LogSizeBytes : Z; LogGz : string; LogCreatedAt : Time
}.
Record ContainerLogSettings := MkLogSettings { LogRetentionMonths : Z; LogUpdatedBy : option string; LogUpdatedAt : Time }.
Record upload := MkUpload {
  up_nodeID : string; up_uploadID : string; up_fetchID : string; up_meta : ContainerLogMeta; up_next : Z; up_buf : string; up_lastSeen : Time
}.
Record liveResult := MkLiveResult { lr_meta : option ContainerLogMeta; lr_text : string; lr_err : option error }.
Record liveFetch := MkLiveFetch { lf_nodeID : string; lf_ch : option liveResult }.
Record LogTables := MkLogTables {
  log_archives : gmap string ContainerLogArchive;
  log_settings : ContainerLogSettings;
  log_uploads : gmap string upload;
  log_live : gmap string liveFetch
}.
Definition set_log_archives (v : gmap string ContainerLogArchive) (r : LogTables) : LogTables :=
  MkLogTables v (log_settings r) (log_uploads r) (log_live r).
Definition set_log_settings (v : ContainerLogSettings) (r : LogTables) : LogTables :=
  MkLogTables (log_archives r) v (log_uploads r) (log_live r).
Definition set_log_uploads (v : gmap string upload) (r : LogTables) : LogTables :=
  MkLogTables (log_archives r) (log_settings r) v (log_live r).
Definition set_log_live (v : gmap string liveFetch) (r : LogTables) : LogTables :=
  MkLogTables (log_archives r) (log_settings r) (log_uploads r) v.

(** [internal/db/user_email.go], [email_delivery.go], [email_queue.go],
    [email_settings.go]: the e-mail columns of [users], the changes of address
    that wait for a confirmation (by user), the queue, the alerts that wait for
    a digest (by user and alert) and the settings row.  [em_relayed] is what
    the relay has accepted, in order. *)
Inductive EmailSource := EmailSourceDirectory | EmailSourceSelf | EmailSourceAdmin.
#[export] Instance EmailSource_eq_dec : EqDecision EmailSource.
Proof. solve_decision. Defined.
Inductive EmailDelivery := EmailDeliveryOff | EmailDeliveryImmediate | EmailDeliveryHourly | EmailDeliveryDaily.
#[export] Instance EmailDelivery_eq_dec : EqDecision EmailDelivery.
Proof. solve_decision. Defined.
Inductive EmailKind := EmailKindAlert | EmailKindDigest | EmailKindConfirmation | EmailKindTest.
#[export] Instance EmailKind_eq_dec : EqDecision EmailKind.
Proof. solve_decision. Defined.
Inductive EmailStatus := EmailPending | EmailSent | EmailFailed.
#[export] Instance EmailStatus_eq_dec : EqDecision EmailStatus.
Proof. solve_decision. Defined.
Inductive EmailTLSMode := EmailTLSNone | EmailTLSStartTLS | EmailTLSImplicit.
#[export] Instance EmailTLSMode_eq_dec : EqDecision EmailTLSMode.
Proof. solve_decision. Defined.
Record EmailColumns := MkEmailColumns {
  ColEmail : option string; ColSource : option EmailSource; ColDelivery : EmailDelivery; ColMinSeverity : AlertSeverity
}.
Record EmailConfirmation := MkConfirmation {
  ConfUserID : string; ConfEmail : string; ConfTokenHash : string; ConfSource : EmailSource;
  ConfRequestedBy : option string; ConfCreatedAt : Time; ConfExpiresAt : Time
}.
Record Email := MkEmail {
  EmailID : string; EKind : EmailKind; ToAddress : string; EUserID : option string; ESubject : string; EBody : string;
  EStatus : EmailStatus; Attempts : Z; NextAttemptAt : Time; LastError : option string; ECreatedAt : Time; SentAt : option Time
}.
Record DigestRow := MkDigestRow { DigSeverity : AlertSeverity; DigTitle : string; DigQueuedAt : Time }.
Record EmailSettings := MkEmailSettings {
  EmEnabled : bool; EmHost : string; EmPort : Z; EmTLSMode : EmailTLSMode; EmUsername : string;
  EmFromAddress : string; EmFromName : string; DailyDigestTime : string; DigestScheduleSetAt : Time;
  LastHourlyDigestAt : option Time; LastDailyDigestAt : option Time; EmUpdatedBy : option string; EmUpdatedAt : Time
}.
Record MailMessage := MkMail { MailTo : string; MailSubject : string; MailBody : string }.
Record EmailTables := MkEmailTables {
  em_columns : gmap string EmailColumns;
  em_confirmations : gmap string EmailConfirmation;
  em_queue : gmap string Email;
  em_digest : gmap (string * string) DigestRow;
  em_settings : EmailSettings;
  em_relayed : list MailMessage
}.
Definition set_em_columns (v : gmap string EmailColumns) (r : EmailTables) : EmailTables :=
  MkEmailTables v (em_confirmations r) (em_queue r) (em_digest r) (em_settings r) (em_relayed r).
Definition set_em_confirmations (v : gmap string EmailConfirmation) (r : EmailTables) : EmailTables :=
  MkEmailTables (em_columns r) v (em_queue r) (em_digest r) (em_settings r) (em_relayed r).
Definition set_em_queue (v : gmap string Email) (r : EmailTables) : EmailTables :=
  MkEmailTables (em_columns r) (em_confirmations r) v (em_digest r) (em_settings r) (em_relayed r).
Definition set_em_digest (v : gmap (string * string) DigestRow) (r : EmailTables) : EmailTables :=
  MkEmailTables (em_columns r) (em_confirmations r) (em_queue r) v (em_settings r) (em_relayed r).
Definition set_em_settings (v : EmailSettings) (r : EmailTables) : EmailTables :=
  MkEmailTables (em_columns r) (em_confirmations r) (em_queue r) (em_digest r) v (em_relayed r).
Definition set_em_relayed (v : list MailMessage) (r : EmailTables) : EmailTables :=
  MkEmailTables (em_columns r) (em_confirmations r) (em_queue r) (em_digest r) (em_settings r) v.

(** The one row of [break_glass_credential]. *)
Record BreakGlassCredential := MkBreakGlassCredential { BGPasswordHash : string; BGUpdatedAt : Time }.

(** The state of the server: the rows of its database, the audit log, the log,
    the events published to browsers, the envelopes sent to agents, what is kept
    in memory, the number of external calls made so far and the clock. *)
Record World := MkWorld {
  w_calls : N;
  w_clock : Time;
  w_users : gmap string User;
  w_overrides : gmap (string * string) string;
  w_audit : list AuditRecord;
  w_logs : list string;
  w_events : list string;
  w_sent : list (string * Message);
  w_alerts : gmap string Alert;
  w_audiences : gmap string (list AlertAudience);
  w_ustate : gmap (string * string) UserState;
  w_groups : gmap string AppGroup;
  w_admaps : gmap (string * string) AppGroupADMapping;
  w_locals : gmap (string * string) (option string);
  w_member : gset (string * string);
  w_instances : gmap string RunningInstance;
  w_profiles : gmap string Profile;
  w_transfers : gmap string ModelTransfer;
  w_inventory : gmap InvKey NodeModelInventory;
  w_nodes : gmap string Node;
  w_interfaces : gmap string (list NodeNetworkInterface);
  w_alert_retention : Z * option string;
  w_timezone : string * option string;
  w_stale : StaleContainerSettings;
  w_deletes : gmap string deleteState;
  w_checks : gmap string pendingCheck;
  w_lists : gmap string listWait;
  w_removes : gmap string removeWait;
  w_engines : EngineTables;
  w_scans : gmap string scanState;
  w_archive : LogTables;
  w_email : EmailTables;
  w_breakglass : option BreakGlassCredential
}.

Definition set_w_engines (v : EngineTables) (r : World) : World :=
  MkWorld (w_calls r) (w_clock r) (w_users r) (w_overrides r) (w_audit r) (w_logs r) (w_events r) (w_sent r) (w_alerts r) (w_audiences r) (w_ustate r) (w_groups r) (w_admaps r) (w_locals r) (w_member r) (w_instances r) (w_profiles r) (w_transfers r) (w_inventory r) (w_nodes r) (w_interfaces r) (w_alert_retention r) (w_timezone r) (w_stale r) (w_deletes r) (w_checks r) (w_lists r) (w_removes r) v (w_scans r) (w_archive r) (w_email r) (w_breakglass r).
Definition set_w_scans (v : gmap string scanState) (r : World) : World :=
  MkWorld (w_calls r) (w_clock r) (w_users r) (w_overrides r) (w_audit r) (w_logs r) (w_events r) (w_sent r) (w_alerts r) (w_audiences r) (w_ustate r) (w_groups r) (w_admaps r) (w_locals r) (w_member r) (w_instances r) (w_profiles r) (w_transfers r) (w_inventory r) (w_nodes r) (w_interfaces r) (w_alert_retention r) (w_timezone r) (w_stale r) (w_deletes r) (w_checks r) (w_lists r) (w_removes r) (w_engines r) v (w_archive r) (w_email r) (w_breakglass r).
Definition set_w_archive (v : LogTables) (r : World) : World :=
  MkWorld (w_calls r) (w_clock r) (w_users r) (w_overrides r) (w_audit r) (w_logs r) (w_events r) (w_sent r) (w_alerts r) (w_audiences r) (w_ustate r) (w_groups r) (w_admaps r) (w_locals r) (w_member r) (w_instances r) (w_profiles r) (w_transfers r) (w_inventory r) (w_nodes r) (w_interfaces r) (w_alert_retention r) (w_timezone r) (w_stale r) (w_deletes r) (w_checks r) (w_lists r) (w_removes r) (w_engines r) (w_scans r) v (w_email r) (w_breakglass r).
Definition set_w_email (v : EmailTables) (r : World) : World :=
  MkWorld (w_calls r) (w_clock r) (w_users r) (w_overrides r) (w_audit r) (w_logs r) (w_events r) (w_sent r) (w_alerts r) (w_audiences r) (w_ustate r) (w_groups r) (w_admaps r) (w_locals r) (w_member r) (w_instances r) (w_profiles r) (w_transfers r) (w_inventory r) (w_nodes r) (w_interfaces r) (w_alert_retention r) (w_timezone r) (w_stale r) (w_deletes r) (w_checks r) (w_lists r) (w_removes r) (w_engines r) (w_scans r) (w_archive r) v (w_breakglass r).
Definition set_w_breakglass (v : option BreakGlassCredential) (r : World) : World :=
  MkWorld (w_calls r) (w_clock r) (w_users r) (w_overrides r) (w_audit r) (w_logs r) (w_events r) (w_sent r) (w_alerts r) (w_audiences r) (w_ustate r) (w_groups r) (w_admaps r) (w_locals r) (w_member r) (w_instances r) (w_profiles r) (w_transfers r) (w_inventory r) (w_nodes r) (w_interfaces r) (w_alert_retention r) (w_timezone r) (w_stale r) (w_deletes r) (w_checks r) (w_lists r) (w_removes r) (w_engines r) (w_scans r) (w_archive r) (w_email r) v.
Definition set_w_lists (v : gmap string listWait) (r : World) : World :=
  MkWorld (w_calls r) (w_clock r) (w_users r) (w_overrides r) (w_audit r) (w_logs r) (w_events r) (w_sent r) (w_alerts r) (w_audiences r) (w_ustate r) (w_groups r) (w_admaps r) (w_locals r) (w_member r) (w_instances r) (w_profiles r) (w_transfers r) (w_inventory r) (w_nodes r) (w_interfaces r) (w_alert_retention r) (w_timezone r) (w_stale r) (w_deletes r) (w_checks r) v (w_removes r) (w_engines r) (w_scans r) (w_archive r) (w_email r) (w_breakglass r).
Definition set_w_removes (v : gmap string removeWait) (r : World) : World :=
  MkWorld (w_calls r) (w_clock r) (w_users r) (w_overrides r) (w_audit r) (w_logs r) (w_events r) (w_sent r) (w_alerts r) (w_audiences r) (w_ustate r) (w_groups r) (w_admaps r) (w_locals r) (w_member r) (w_instances r) (w_profiles r) (w_transfers r) (w_inventory r) (w_nodes r) (w_interfaces r) (w_alert_retention r) (w_timezone r) (w_stale r) (w_deletes r) (w_checks r) (w_lists r) v (w_engines r) (w_scans r) (w_archive r) (w_email r) (w_breakglass r).

Definition set_w_deletes (v : gmap string deleteState) (r : World) : World :=
  MkWorld (w_calls r) (w_clock r) (w_users r) (w_overrides r) (w_audit r) (w_logs r) (w_events r) (w_sent r) (w_alerts r) (w_audiences r) (w_ustate r) (w_groups r) (w_admaps r) (w_locals r) (w_member r) (w_instances r) (w_profiles r) (w_transfers r) (w_inventory r) (w_nodes r) (w_interfaces r) (w_alert_retention r) (w_timezone r) (w_stale r) v (w_checks r) (w_lists r) (w_removes r) (w_engines r) (w_scans r) (w_archive r) (w_email r) (w_breakglass r).
Definition set_w_checks (v : gmap string pendingCheck) (r : World) : World :=
  MkWorld (w_calls r) (w_clock r) (w_users r) (w_overrides r) (w_audit r) (w_logs r) (w_events r) (w_sent r) (w_alerts r) (w_audiences r) (w_ustate r) (w_groups r) (w_admaps r) (w_locals r) (w_member r) (w_instances r) (w_profiles r) (w_transfers r) (w_inventory r) (w_nodes r) (w_interfaces r) (w_alert_retention r) (w_timezone r) (w_stale r) (w_deletes r) v (w_lists r) (w_removes r) (w_engines r) (w_scans r) (w_archive r) (w_email r) (w_breakglass r).
Definition set_w_calls (v : N) (r : World) : World :=
  MkWorld v (w_clock r) (w_users r) (w_overrides r) (w_audit r) (w_logs r) (w_events r) (w_sent r) (w_alerts r) (w_audiences r) (w_ustate r) (w_groups r) (w_admaps r) (w_locals r) (w_member r) (w_instances r) (w_profiles r) (w_transfers r) (w_inventory r) (w_nodes r) (w_interfaces r) (w_alert_retention r) (w_timezone r) (w_stale r) (w_deletes r) (w_checks r) (w_lists r) (w_removes r) (w_engines r) (w_scans r) (w_archive r) (w_email r) (w_breakglass r).
Definition set_w_clock (v : Time) (r : World) : World :=
  MkWorld (w_calls r) v (w_users r) (w_overrides r) (w_audit r) (w_logs r) (w_events r) (w_sent r) (w_alerts r) (w_audiences r) (w_ustate r) (w_groups r) (w_admaps r) (w_locals r) (w_member r) (w_instances r) (w_profiles r) (w_transfers r) (w_inventory r) (w_nodes r) (w_interfaces r) (w_alert_retention r) (w_timezone r) (w_stale r) (w_deletes r) (w_checks r) (w_lists r) (w_removes r) (w_engines r) (w_scans r) (w_archive r) (w_email r) (w_breakglass r).
Definition set_w_users (v : gmap string User) (r : World) : World :=
  MkWorld (w_calls r) (w_clock r) v (w_overrides r) (w_audit r) (w_logs r) (w_events r) (w_sent r) (w_alerts r) (w_audiences r) (w_ustate r) (w_groups r) (w_admaps r) (w_locals r) (w_member r) (w_instances r) (w_profiles r) (w_transfers r) (w_inventory r) (w_nodes r) (w_interfaces r) (w_alert_retention r) (w_timezone r) (w_stale r) (w_deletes r) (w_checks r) (w_lists r) (w_removes r) (w_engines r) (w_scans r) (w_archive r) (w_email r) (w_breakglass r).
Definition set_w_overrides (v : gmap (string * string) string) (r : World) : World :=
  MkWorld (w_calls r) (w_clock r) (w_users r) v (w_audit r) (w_logs r) (w_events r) (w_sent r) (w_alerts r) (w_audiences r) (w_ustate r) (w_groups r) (w_admaps r) (w_locals r) (w_member r) (w_instances r) (w_profiles r) (w_transfers r) (w_inventory r) (w_nodes r) (w_interfaces r) (w_alert_retention r) (w_timezone r) (w_stale r) (w_deletes r) (w_checks r) (w_lists r) (w_removes r) (w_engines r) (w_scans r) (w_archive r) (w_email r) (w_breakglass r).
Definition set_w_audit (v : list AuditRecord) (r : World) : World :=
  MkWorld (w_calls r) (w_clock r) (w_users r) (w_overrides r) v (w_logs r) (w_events r) (w_sent r) (w_alerts r) (w_audiences r) (w_ustate r) (w_groups r) (w_admaps r) (w_locals r) (w_member r) (w_instances r) (w_profiles r) (w_transfers r) (w_inventory r) (w_nodes r) (w_interfaces r) (w_alert_retention r) (w_timezone r) (w_stale r) (w_deletes r) (w_checks r) (w_lists r) (w_removes r) (w_engines r) (w_scans r) (w_archive r) (w_email r) (w_breakglass r).
Definition set_w_logs (v : list string) (r : World) : World :=
  MkWorld (w_calls r) (w_clock r) (w_users r) (w_overrides r) (w_audit r) v (w_events r) (w_sent r) (w_alerts r) (w_audiences r) (w_ustate r) (w_groups r) (w_admaps r) (w_locals r) (w_member r) (w_instances r) (w_profiles r) (w_transfers r) (w_inventory r) (w_nodes r) (w_interfaces r) (w_alert_retention r) (w_timezone r) (w_stale r) (w_deletes r) (w_checks r) (w_lists r) (w_removes r) (w_engines r) (w_scans r) (w_archive r) (w_email r) (w_breakglass r).
Definition set_w_events (v : list string) (r : World) : World :=
  MkWorld (w_calls r) (w_clock r) (w_users r) (w_overrides r) (w_audit r) (w_logs r) v (w_sent r) (w_alerts r) (w_audiences r) (w_ustate r) (w_groups r) (w_admaps r) (w_locals r) (w_member r) (w_instances r) (w_profiles r) (w_transfers r) (w_inventory r) (w_nodes r) (w_interfaces r) (w_alert_retention r) (w_timezone r) (w_stale r) (w_deletes r) (w_checks r) (w_lists r) (w_removes r) (w_engines r) (w_scans r) (w_archive r) (w_email r) (w_breakglass r).
Definition set_w_sent (v : list (string * Message)) (r : World) : World :=
  MkWorld (w_calls r) (w_clock r) (w_users r) (w_overrides r) (w_audit r) (w_logs r) (w_events r) v (w_alerts r) (w_audiences r) (w_ustate r) (w_groups r) (w_admaps r) (w_locals r) (w_member r) (w_instances r) (w_profiles r) (w_transfers r) (w_inventory r) (w_nodes r) (w_interfaces r) (w_alert_retention r) (w_timezone r) (w_stale r) (w_deletes r) (w_checks r) (w_lists r) (w_removes r) (w_engines r) (w_scans r) (w_archive r) (w_email r) (w_breakglass r).
Definition set_w_alerts (v : gmap string Alert) (r : World) : World :=
  MkWorld (w_calls r) (w_clock r) (w_users r) (w_overrides r) (w_audit r) (w_logs r) (w_events r) (w_sent r) v (w_audiences r) (w_ustate r) (w_groups r) (w_admaps r) (w_locals r) (w_member r) (w_instances r) (w_profiles r) (w_transfers r) (w_inventory r) (w_nodes r) (w_interfaces r) (w_alert_retention r) (w_timezone r) (w_stale r) (w_deletes r) (w_checks r) (w_lists r) (w_removes r) (w_engines r) (w_scans r) (w_archive r) (w_email r) (w_breakglass r).
Definition set_w_audiences (v : gmap string (list AlertAudience)) (r : World) : World :=
  MkWorld (w_calls r) (w_clock r) (w_users r) (w_overrides r) (w_audit r) (w_logs r) (w_events r) (w_sent r) (w_alerts r) v (w_ustate r) (w_groups r) (w_admaps r) (w_locals r) (w_member r) (w_instances r) (w_profiles r) (w_transfers r) (w_inventory r) (w_nodes r) (w_interfaces r) (w_alert_retention r) (w_timezone r) (w_stale r) (w_deletes r) (w_checks r) (w_lists r) (w_removes r) (w_engines r) (w_scans r) (w_archive r) (w_email r) (w_breakglass r).
Definition set_w_ustate (v : gmap (string * string) UserState) (r : World) : World :=
  MkWorld (w_calls r) (w_clock r) (w_users r) (w_overrides r) (w_audit r) (w_logs r) (w_events r) (w_sent r) (w_alerts r) (w_audiences r) v (w_groups r) (w_admaps r) (w_locals r) (w_member r) (w_instances r) (w_profiles r) (w_transfers r) (w_inventory r) (w_nodes r) (w_interfaces r) (w_alert_retention r) (w_timezone r) (w_stale r) (w_deletes r) (w_checks r) (w_lists r) (w_removes r) (w_engines r) (w_scans r) (w_archive r) (w_email r) (w_breakglass r).
Definition set_w_groups (v : gmap string AppGroup) (r : World) : World :=
  MkWorld (w_calls r) (w_clock r) (w_users r) (w_overrides r) (w_audit r) (w_logs r) (w_events r) (w_sent r) (w_alerts r) (w_audiences r) (w_ustate r) v (w_admaps r) (w_locals r) (w_member r) (w_instances r) (w_profiles r) (w_transfers r) (w_inventory r) (w_nodes r) (w_interfaces r) (w_alert_retention r) (w_timezone r) (w_stale r) (w_deletes r) (w_checks r) (w_lists r) (w_removes r) (w_engines r) (w_scans r) (w_archive r) (w_email r) (w_breakglass r).
Definition set_w_admaps (v : gmap (string * string) AppGroupADMapping) (r : World) : World :=
  MkWorld (w_calls r) (w_clock r) (w_users r) (w_overrides r) (w_audit r) (w_logs r) (w_events r) (w_sent r) (w_alerts r) (w_audiences r) (w_ustate r) (w_groups r) v (w_locals r) (w_member r) (w_instances r) (w_profiles r) (w_transfers r) (w_inventory r) (w_nodes r) (w_interfaces r) (w_alert_retention r) (w_timezone r) (w_stale r) (w_deletes r) (w_checks r) (w_lists r) (w_removes r) (w_engines r) (w_scans r) (w_archive r) (w_email r) (w_breakglass r).
Definition set_w_locals (v : gmap (string * string) (option string)) (r : World) : World :=
  MkWorld (w_calls r) (w_clock r) (w_users r) (w_overrides r) (w_audit r) (w_logs r) (w_events r) (w_sent r) (w_alerts r) (w_audiences r) (w_ustate r) (w_groups r) (w_admaps r) v (w_member r) (w_instances r) (w_profiles r) (w_transfers r) (w_inventory r) (w_nodes r) (w_interfaces r) (w_alert_retention r) (w_timezone r) (w_stale r) (w_deletes r) (w_checks r) (w_lists r) (w_removes r) (w_engines r) (w_scans r) (w_archive r) (w_email r) (w_breakglass r).
Definition set_w_member (v : gset (string * string)) (r : World) : World :=
  MkWorld (w_calls r) (w_clock r) (w_users r) (w_overrides r) (w_audit r) (w_logs r) (w_events r) (w_sent r) (w_alerts r) (w_audiences r) (w_ustate r) (w_groups r) (w_admaps r) (w_locals r) v (w_instances r) (w_profiles r) (w_transfers r) (w_inventory r) (w_nodes r) (w_interfaces r) (w_alert_retention r) (w_timezone r) (w_stale r) (w_deletes r) (w_checks r) (w_lists r) (w_removes r) (w_engines r) (w_scans r) (w_archive r) (w_email r) (w_breakglass r).
Definition set_w_instances (v : gmap string RunningInstance) (r : World) : World :=
  MkWorld (w_calls r) (w_clock r) (w_users r) (w_overrides r) (w_audit r) (w_logs r) (w_events r) (w_sent r) (w_alerts r) (w_audiences r) (w_ustate r) (w_groups r) (w_admaps r) (w_locals r) (w_member r) v (w_profiles r) (w_transfers r) (w_inventory r) (w_nodes r) (w_interfaces r) (w_alert_retention r) (w_timezone r) (w_stale r) (w_deletes r) (w_checks r) (w_lists r) (w_removes r) (w_engines r) (w_scans r) (w_archive r) (w_email r) (w_breakglass r).
Definition set_w_profiles (v : gmap string Profile) (r : World) : World :=
  MkWorld (w_calls r) (w_clock r) (w_users r) (w_overrides r) (w_audit r) (w_logs r) (w_events r) (w_sent r) (w_alerts r) (w_audiences r) (w_ustate r) (w_groups r) (w_admaps r) (w_locals r) (w_member r) (w_instances r) v (w_transfers r) (w_inventory r) (w_nodes r) (w_interfaces r) (w_alert_retention r) (w_timezone r) (w_stale r) (w_deletes r) (w_checks r) (w_lists r) (w_removes r) (w_engines r) (w_scans r) (w_archive r) (w_email r) (w_breakglass r).
Definition set_w_transfers (v : gmap string ModelTransfer) (r : World) : World :=
  MkWorld (w_calls r) (w_clock r) (w_users r) (w_overrides r) (w_audit r) (w_logs r) (w_events r) (w_sent r) (w_alerts r) (w_audiences r) (w_ustate r) (w_groups r) (w_admaps r) (w_locals r) (w_member r) (w_instances r) (w_profiles r) v (w_inventory r) (w_nodes r) (w_interfaces r) (w_alert_retention r) (w_timezone r) (w_stale r) (w_deletes r) (w_checks r) (w_lists r) (w_removes r) (w_engines r) (w_scans r) (w_archive r) (w_email r) (w_breakglass r).
Definition set_w_inventory (v : gmap InvKey NodeModelInventory) (r : World) : World :=
  MkWorld (w_calls r) (w_clock r) (w_users r) (w_overrides r) (w_audit r) (w_logs r) (w_events r) (w_sent r) (w_alerts r) (w_audiences r) (w_ustate r) (w_groups r) (w_admaps r) (w_locals r) (w_member r) (w_instances r) (w_profiles r) (w_transfers r) v (w_nodes r) (w_interfaces r) (w_alert_retention r) (w_timezone r) (w_stale r) (w_deletes r) (w_checks r) (w_lists r) (w_removes r) (w_engines r) (w_scans r) (w_archive r) (w_email r) (w_breakglass r).
Definition set_w_nodes (v : gmap string Node) (r : World) : World :=
  MkWorld (w_calls r) (w_clock r) (w_users r) (w_overrides r) (w_audit r) (w_logs r) (w_events r) (w_sent r) (w_alerts r) (w_audiences r) (w_ustate r) (w_groups r) (w_admaps r) (w_locals r) (w_member r) (w_instances r) (w_profiles r) (w_transfers r) (w_inventory r) v (w_interfaces r) (w_alert_retention r) (w_timezone r) (w_stale r) (w_deletes r) (w_checks r) (w_lists r) (w_removes r) (w_engines r) (w_scans r) (w_archive r) (w_email r) (w_breakglass r).
Definition set_w_interfaces (v : gmap string (list NodeNetworkInterface)) (r : World) : World :=
  MkWorld (w_calls r) (w_clock r) (w_users r) (w_overrides r) (w_audit r) (w_logs r) (w_events r) (w_sent r) (w_alerts r) (w_audiences r) (w_ustate r) (w_groups r) (w_admaps r) (w_locals r) (w_member r) (w_instances r) (w_profiles r) (w_transfers r) (w_inventory r) (w_nodes r) v (w_alert_retention r) (w_timezone r) (w_stale r) (w_deletes r) (w_checks r) (w_lists r) (w_removes r) (w_engines r) (w_scans r) (w_archive r) (w_email r) (w_breakglass r).
Definition set_w_alert_retention (v : Z * option string) (r : World) : World :=
  MkWorld (w_calls r) (w_clock r) (w_users r) (w_overrides r) (w_audit r) (w_logs r) (w_events r) (w_sent r) (w_alerts r) (w_audiences r) (w_ustate r) (w_groups r) (w_admaps r) (w_locals r) (w_member r) (w_instances r) (w_profiles r) (w_transfers r) (w_inventory r) (w_nodes r) (w_interfaces r) v (w_timezone r) (w_stale r) (w_deletes r) (w_checks r) (w_lists r) (w_removes r) (w_engines r) (w_scans r) (w_archive r) (w_email r) (w_breakglass r).
Definition set_w_timezone (v : string * option string) (r : World) : World :=
  MkWorld (w_calls r) (w_clock r) (w_users r) (w_overrides r) (w_audit r) (w_logs r) (w_events r) (w_sent r) (w_alerts r) (w_audiences r) (w_ustate r) (w_groups r) (w_admaps r) (w_locals r) (w_member r) (w_instances r) (w_profiles r) (w_transfers r) (w_inventory r) (w_nodes r) (w_interfaces r) (w_alert_retention r) v (w_stale r) (w_deletes r) (w_checks r) (w_lists r) (w_removes r) (w_engines r) (w_scans r) (w_archive r) (w_email r) (w_breakglass r).
Definition set_w_stale (v : StaleContainerSettings) (r : World) : World :=
  MkWorld (w_calls r) (w_clock r) (w_users r) (w_overrides r) (w_audit r) (w_logs r) (w_events r) (w_sent r) (w_alerts r) (w_audiences r) (w_ustate r) (w_groups r) (w_admaps r) (w_locals r) (w_member r) (w_instances r) (w_profiles r) (w_transfers r) (w_inventory r) (w_nodes r) (w_interfaces r) (w_alert_retention r) (w_timezone r) v (w_deletes r) (w_checks r) (w_lists r) (w_removes r) (w_engines r) (w_scans r) (w_archive r) (w_email r) (w_breakglass r).

(** ** The environment

    What the server does not control, as a function of the number of external
    calls made so far: whether the call fails and how, the uuid Postgres
    generates, how far the clock moves, which agents are connected.  Every
    theorem holds for every environment. *)
Class Env := {
  fault : N -> option error;
  gen_random_uuid : N -> string;
  tick : N -> N;
  agent_connected : N -> string -> bool
}.

Abbreviation M := (ST World).

Section Effects.
Context `{Env}.

(** One external call: the call counter and the clock move. *)
Definition bump (w : World) : World :=
  set_w_clock (w_clock w + Z.of_N (tick (w_calls w))) (set_w_calls (N.succ (w_calls w)) w).

(** A database statement.  It fails with no effect when the environment says
    so; otherwise [f] gives its answer and the new rows, or the constraint
    violation Postgres refuses it with. *)
Definition sql {A} (f : World -> error + (A * World)) : M A := fun w =>
  let w1 := bump w in
  match fault (w_calls w) with
  | Some e => (Err e, w1)
  | None => match f w1 with
            | inl e => (Err e, w1)
            | inr (a, w2) => (Ok a, w2)
            end
  end.

Definition query {A} (f : World -> A) : M A := sql (fun w => inr (f w, w)).
Definition exec (f : World -> World) : M unit := sql (fun w => inr (tt, f w)).

(** [agentproto.NewEnvelope]: JSON marshalling, which Go lets fail. *)
Definition NewEnvelope (m : Message) : M Message := query (fun _ => m).

(** [Registry.Connected] and [Registry.Send]. *)
Definition Connected (nodeID : string) : M bool := fun w =>
  (Ok (agent_connected (w_calls w) nodeID), bump w).
Definition Send (nodeID : string) (m : Message) : M unit :=
  exec (fun w => set_w_sent (w_sent w ++ [(nodeID, m)]) w).

(** [time.Now]. *)
Definition time_now : M Time := fun w => (Ok (w_clock (bump w)), bump w).

(** [logger.Printf]: a line is recorded by its format string. *)
Definition logf (fmt : string) : M unit := modify (fun w => set_w_logs (w_logs w ++ [fmt]) w).

(** [if err := m(); err != nil { logger.Printf(fmt, err) }] *)
Definition log_on_error {A} (fmt : string) (m : M A) : M unit :=
  r ← attempt m; match r with Ok _ => mret tt | Err _ => logf fmt end.

(** [Broker.Publish] as its callers see it. *)
Definition Publish (evt : string) : M unit :=
  modify (fun w => set_w_events (w_events w ++ [evt]) w).

(** [AuditRepository.Write], then [Recorder.Record]: the database write is
    authoritative and its failure is returned; the stdout line is not
    observable by the program. *)
Definition AuditWrite (actorID : option string) (superAdmin : bool)
    (action objectType objectID : string) (detail : option (gmap string DVal)) : M unit :=
  wrap "write audit record: "
    (exec (fun w => set_w_audit
      (w_audit w ++ [MkAudit actorID superAdmin action objectType objectID detail (w_clock w)]) w)).
Definition Record_ (actorID : option string) (superAdmin : bool)
    (action objectType objectID : string) (detail : option (gmap string DVal)) : M unit :=
  wrap "write audit record: " (AuditWrite actorID superAdmin action objectType objectID detail).

(** A database transaction, between [pool.Begin] and [tx.Commit]: [now()] is
    the time it began, and an error on the way, the commit's included, leaves
    the rows as they were. *)
Definition rollback (w w' : World) : World := set_w_calls (w_calls w') (set_w_clock (w_clock w') w).
Definition transaction {A} (pre_begin pre_commit : string) (body : Time -> M A) : M A := fun w =>
  match wrap pre_begin (query w_clock) w with
  | (Err e, w1) => (Err e, w1)
  | (Ok now, w1) =>
      match (a ← body now; wrap pre_commit (query (fun _ => tt)) ;; mret a) w1 with
      | (Ok a, w2) => (Ok a, w2)
      | (Err e, w2) => (Err e, rollback w1 w2)
      end
  end.

(** *** Rules *)
Lemma wp_transaction_cause {A} pb pc (body : Time -> M A) w (Q : result A -> World -> Prop) :
  (forall n e e', fault n = Some e -> Q (Err e') (bump w)) ->
  wp (body (w_clock (bump w))) (bump w) (fun r w2 =>
    match r with
    | Ok a => Q (Ok a) (bump w2) /\ (forall n e e', fault n = Some e -> Q (Err e') (rollback (bump w) (bump w2)))
    | Err e => Q (Err e) (rollback (bump w) w2)
    end) ->
  wp (transaction pb pc body) w Q.
Proof.
  intros He Hb. unfold wp, transaction, wrap, query, sql in *.
  destruct (fault (w_calls w)) as [e|] eqn:Ef; [by eapply He|]. unfold mbind, ST_bind.
  destruct (body (w_clock (bump w)) (bump w)) as [[a|e] w2]; [|done]. cbn [fst snd] in *.
  destruct Hb as [Hok Herr]. destruct (fault (w_calls w2)) eqn:Ef2; [by eapply Herr|exact Hok].
Qed.
Lemma wp_transaction {A} pb pc (body : Time -> M A) w (Q : result A -> World -> Prop) :
  (forall e, Q (Err e) (bump w)) ->
  wp (body (w_clock (bump w))) (bump w) (fun r w2 =>
    match r with
    | Ok a => Q (Ok a) (bump w2) /\ (forall e, Q (Err e) (rollback (bump w) (bump w2)))
    | Err e => Q (Err e) (rollback (bump w) w2)
    end) ->
  wp (transaction pb pc body) w Q.
Proof.
  intros He Hb. apply wp_transaction_cause; [auto|]. eapply wp_mono; [exact Hb|].
  intros [a|e] w2; [|done]. intros [Hok Herr]. auto.
Qed.
Lemma wp_sql {A} (f : World -> error + (A * World)) w (Q : result A -> World -> Prop) :
  (forall e, fault (w_calls w) = Some e -> Q (Err e) (bump w)) ->
  (fault (w_calls w) = None -> match f (bump w) with inl e => Q (Err e) (bump w) | inr (a, w2) => Q (Ok a) w2 end) ->
  wp (sql f) w Q.
Proof.
  unfold wp, sql. intros H1 H2. destruct (fault (w_calls w)) as [e|]; [by apply H1|].
  specialize (H2 eq_refl). by destruct (f (bump w)) as [e|[a w2]].
Qed.
Lemma wp_query {A} (f : World -> A) w (Q : result A -> World -> Prop) :
  (forall e, fault (w_calls w) = Some e -> Q (Err e) (bump w)) ->
  (fault (w_calls w) = None -> Q (Ok (f (bump w))) (bump w)) -> wp (query f) w Q.
Proof. intros. by apply wp_sql. Qed.
Lemma wp_exec (f : World -> World) w (Q : result unit -> World -> Prop) :
  (forall e, fault (w_calls w) = Some e -> Q (Err e) (bump w)) ->
  (fault (w_calls w) = None -> Q (Ok tt) (f (bump w))) -> wp (exec f) w Q.
Proof. intros. by apply wp_sql. Qed.
Lemma wp_NewEnvelope m w (Q : result Message -> World -> Prop) :
  (forall e, fault (w_calls w) = Some e -> Q (Err e) (bump w)) ->
  (fault (w_calls w) = None -> Q (Ok m) (bump w)) -> wp (NewEnvelope m) w Q.
Proof. intros. by apply wp_query. Qed.
Lemma wp_Connected n w (Q : result bool -> World -> Prop) :
  (forall b, agent_connected (w_calls w) n = b -> Q (Ok b) (bump w)) -> wp (Connected n) w Q.
Proof. intros HQ. by apply HQ. Qed.
Lemma wp_time_now w (Q : result Time -> World -> Prop) :
  Q (Ok (w_clock (bump w))) (bump w) -> wp time_now w Q.
Proof. done. Qed.
Lemma wp_Send n m w (Q : result unit -> World -> Prop) :
  (forall e, fault (w_calls w) = Some e -> Q (Err e) (bump w)) ->
  (fault (w_calls w) = None -> Q (Ok tt) (set_w_sent (w_sent w ++ [(n, m)]) (bump w))) -> wp (Send n m) w Q.
Proof. intros. by apply wp_exec. Qed.
Lemma wp_logf fmt w (Q : result unit -> World -> Prop) :
  Q (Ok tt) (set_w_logs (w_logs w ++ [fmt]) w) -> wp (logf fmt) w Q.
Proof. done. Qed.
Lemma wp_Publish evt w (Q : result unit -> World -> Prop) :
  Q (Ok tt) (set_w_events (w_events w ++ [evt]) w) -> wp (Publish evt) w Q.
Proof. done. Qed.
Lemma wp_log_on_error {A} fmt (m : M A) w (Q : result unit -> World -> Prop) :
  wp m w (fun r w' => match r with Ok _ => Q (Ok tt) w' | Err _ => Q (Ok tt) (set_w_logs (w_logs w' ++ [fmt]) w') end) ->
  wp (log_on_error fmt m) w Q.
Proof.
  intros Hm. unfold log_on_error. apply wp_bind, wp_attempt.
  eapply wp_mono; [exact Hm|]. by intros [a|e] w'.
Qed.
Lemma wp_Record actorID sa a ot oi d w (Q : result unit -> World -> Prop) :
  (forall e, fault (w_calls w) = Some e ->
    Q (Err (Errorf "write audit record: " (Errorf "write audit record: " e "") "")) (bump w)) ->
  (fault (w_calls w) = None ->
    Q (Ok tt) (set_w_audit (w_audit w ++ [MkAudit actorID sa a ot oi d (w_clock (bump w))]) (bump w))) ->
  wp (Record_ actorID sa a ot oi d) w Q.
Proof. intros. unfold Record_, AuditWrite. apply wp_wrap, wp_wrap. by apply wp_exec. Qed.

(** *** Frames of the primitive effects *)
Class BumpFree {B} (f : World -> B) : Prop := bump_free : forall w, f (bump w) = f w.
Lemma preserves_sql {A B} (f : World -> B) (g : World -> error + (A * World)) `{!BumpFree f} :
  (forall w, match g w with inl _ => True | inr (_, w2) => f w2 = f w end) -> Preserves f (sql g).
Proof.
  intros Hg w. unfold sql. destruct (fault _); simpl; [apply bump_free|].
  specialize (Hg (bump w)). destruct (g (bump w)) as [e|[a w2]]; simpl; rewrite ?Hg; apply bump_free.
Qed.
#[global] Instance preserves_query {A B} (f : World -> B) (g : World -> A) `{!BumpFree f} : Preserves f (query g).
Proof. by apply preserves_sql. Qed.
Lemma preserves_exec {B} (f : World -> B) g `{!BumpFree f} :
  (forall w, f (g w) = f w) -> Preserves f (exec g).
Proof. intros Hg. by apply preserves_sql. Qed.
Lemma preserves_transaction {A B} (f : World -> B) pb pc (body : Time -> M A) `{!BumpFree f} :
  (forall w w', f (rollback w w') = f w) -> (forall now, Preserves f (body now)) ->
  Preserves f (transaction pb pc body).
Proof.
  intros Hr Hb w. unfold transaction.
  pose proof (preserves_wrap f pb (query w_clock) _ w) as H1.
  destruct (wrap pb (query w_clock) w) as [[now|e] w1]; [|done]. cbn [fst snd] in *.
  pose proof (preserves_bind f (body now)
    (fun a => wrap pc (query (fun _ => tt)) ;; mret a) (Hb now) _ w1) as H2.
  destruct ((a ← body now; wrap pc (query (fun _ => tt)) ;; mret a) w1) as [[a|e] w2];
    cbn [fst snd] in *; [congruence|]. by rewrite Hr.
Qed.
(** *** Invariants that bookkeeping leaves alone

    The log, the events, the envelopes and the audit log only grow. *)
Class Stable (I : World -> Prop) : Prop := {
  stable_bump : forall w, I w -> I (bump w);
  stable_logs : forall l w, I w -> I (set_w_logs (w_logs w ++ l) w);
  stable_events : forall l w, I w -> I (set_w_events (w_events w ++ l) w);
  stable_sent : forall l w, I w -> I (set_w_sent (w_sent w ++ l) w);
  stable_audit : forall l w, I w -> I (set_w_audit (w_audit w ++ l) w)
}.
Lemma keeps_sql {A} (I : World -> Prop) (g : World -> error + (A * World)) `{!Stable I} :
  (forall w, I w -> match g w with inl _ => True | inr (_, w2) => I w2 end) -> Keeps I (sql g).
Proof.
  intros Hg w Hw. unfold sql. destruct (fault _); simpl; [by apply stable_bump|].
  specialize (Hg (bump w) (stable_bump w Hw)). destruct (g (bump w)) as [e|[a w2]]; simpl; [by apply stable_bump|done].
Qed.
Lemma keeps_transaction {A} (I : World -> Prop) pb pc (body : Time -> M A) `{!Stable I} :
  (forall w w', I w -> I (rollback w w')) -> (forall now, Keeps I (body now)) ->
  Keeps I (transaction pb pc body).
Proof.
  intros Hr Hb. apply keeps_wp. intros w Hw. apply wp_transaction; [intros; by apply stable_bump|].
  refine (wp_mono _ _ (fun _ w2 => I w2) _ (Hb _ _ (stable_bump w Hw)) _).
  intros [a|e] w2 Hw2; [split; [by apply stable_bump|intros _]|]; apply Hr; by apply stable_bump.
Qed.
#[global] Instance keeps_query {A} (I : World -> Prop) (g : World -> A) `{!Stable I} : Keeps I (query g).
Proof. by apply keeps_sql. Qed.
Lemma keeps_exec (I : World -> Prop) g `{!Stable I} : (forall w, I w -> I (g w)) -> Keeps I (exec g).
Proof. intros Hg. by apply keeps_sql. Qed.
#[global] Instance keeps_Connected (I : World -> Prop) n `{!Stable I} : Keeps I (Connected n).
Proof. intros w. apply stable_bump. Qed.
#[global] Instance keeps_now (I : World -> Prop) `{!Stable I} : Keeps I time_now.
Proof. intros w. apply stable_bump. Qed.
#[global] Instance keeps_NewEnvelope (I : World -> Prop) m `{!Stable I} : Keeps I (NewEnvelope m).
Proof. unfold NewEnvelope. apply _. Qed.
#[global] Instance keeps_Send (I : World -> Prop) n m `{!Stable I} : Keeps I (Send n m).
Proof. apply keeps_exec; [done|]. intros w. apply (stable_sent [(n, m)]). Qed.
#[global] Instance keeps_logf (I : World -> Prop) fmt `{!Stable I} : Keeps I (logf fmt).
Proof. intros w. apply (stable_logs [fmt]). Qed.
#[global] Instance keeps_Publish (I : World -> Prop) e `{!Stable I} : Keeps I (Publish e).
Proof. intros w. apply (stable_events [e]). Qed.
#[global] Instance keeps_Record (I : World -> Prop) a b c d e f `{!Stable I} : Keeps I (Record_ a b c d e f).
Proof.
  unfold Record_, AuditWrite. do 2 apply keeps_wrap. apply keeps_exec; [done|]. intros w. apply (stable_audit [_]).
Qed.
#[global] Instance keeps_log_on_error {A} (I : World -> Prop) fmt (m : M A) `{!Stable I} :
  Keeps I m -> Keeps I (log_on_error fmt m).
Proof. intros. unfold log_on_error. apply keeps_bind; [apply _|]. intros []; apply _. Qed.

(** The errors of an external call are those of the environment, or the one
    the statement is refused with. *)
Definition Foreign (P : error -> Prop) : Prop := forall n e, fault n = Some e -> P e.
Lemma raises_sql {A} (P : error -> Prop) (g : World -> error + (A * World)) :
  Foreign P -> (forall w e, g w = inl e -> P e) -> Raises P (sql g).
Proof.
  intros Hf Hg w e. unfold sql. destruct (fault (w_calls w)) as [e'|] eqn:E; [by intros [= <-]; apply (Hf _ _ E)|].
  destruct (g (bump w)) as [e'|[a w2]] eqn:Eg; [|done]. intros [= <-]. by apply (Hg _ _ Eg).
Qed.
Lemma raises_exec (P : error -> Prop) g : Foreign P -> Raises P (exec g).
Proof. intros Hf. by apply raises_sql. Qed.
Lemma raises_query {A} (P : error -> Prop) (g : World -> A) : Foreign P -> Raises P (query g).
Proof. intros Hf. by apply raises_sql. Qed.
#[global] Instance raises_Connected (P : error -> Prop) n : Raises P (Connected n).
Proof. by intros w e. Qed.
#[global] Instance raises_now (P : error -> Prop) : Raises P time_now.
Proof. by intros w e. Qed.
#[global] Instance raises_logf (P : error -> Prop) fmt : Raises P (logf fmt).
Proof. by intros w e. Qed.
Lemma raises_Record (P : error -> Prop) a b c d e f `{!WrapClosed P} : Foreign P -> Raises P (Record_ a b c d e f).
Proof. intros Hf. unfold Record_, AuditWrite. do 2 (apply raises_wrap; [done|]). by apply raises_exec. Qed.
#[global] Instance raises_log_on_error {A} (P : error -> Prop) fmt (m : M A) : Raises P (log_on_error fmt m).
Proof. unfold log_on_error. apply raises_bind; [apply _|]. intros []; apply _. Qed.
#[global] Instance preserves_Connected {B} (f : World -> B) n `{!BumpFree f} : Preserves f (Connected n).
Proof. intros w. apply bump_free. Qed.
#[global] Instance preserves_now {B} (f : World -> B) `{!BumpFree f} : Preserves f time_now.
Proof. intros w. apply bump_free. Qed.
#[global] Instance preserves_NewEnvelope {B} (f : World -> B) m `{!BumpFree f} : Preserves f (NewEnvelope m).
Proof. unfold NewEnvelope. apply _. Qed.
#[global] Instance preserves_log_on_error {A B} (f : World -> B) fmt (m : M A) :
  Preserves f m -> Preserves f (logf fmt) -> Preserves f (log_on_error fmt m).
Proof. intros. unfold log_on_error. apply preserves_bind; [apply _|]. intros []; apply _. Qed.
End Effects.

#[export] Hint Extern 1 (BumpFree _) => (intros ?; reflexivity) : typeclass_instances.
#[export] Hint Extern 1 (Preserves _ (exec _)) => (apply preserves_exec; [apply _ | intros ?; reflexivity]) : typeclass_instances.
#[export] Hint Extern 1 (Preserves _ (transaction _ _ _)) =>
  (apply preserves_transaction; [apply _ | intros ? ?; reflexivity | intros ?]) : typeclass_instances.
#[export] Hint Extern 1 (Preserves _ (modify _)) => (intros ?; reflexivity) : typeclass_instances.
#[export] Hint Extern 1 (Preserves _ (logf _)) => (intros ?; reflexivity) : typeclass_instances.
#[export] Hint Extern 1 (Preserves _ (Publish _)) => (intros ?; reflexivity) : typeclass_instances.
#[export] Hint Extern 1 (Preserves _ (Send _ _)) => (unfold Send; apply _) : typeclass_instances.
#[export] Hint Extern 1 (Preserves _ (Record_ _ _ _ _ _ _)) => (unfold Record_, AuditWrite; apply _) : typeclass_instances.

(** [io_step] extends [wp_step] with the rules of the effects. *)
Ltac io_step :=
  lazymatch goal with
  | |- wp (Record_ _ _ _ _ _ _) _ _ => apply wp_Record; [intros ? ?|intros ?]
  | |- wp (Connected _) _ _ => apply wp_Connected; intros ? ?
  | |- wp time_now _ _ => apply wp_time_now
  | |- wp (Send _ _) _ _ => apply wp_Send; [intros ? ?|intros ?]
  | |- wp (NewEnvelope _) _ _ => apply wp_NewEnvelope; [intros ? ?|intros ?]
  | |- wp (logf _) _ _ => apply wp_logf
  | |- wp (Publish _) _ _ => apply wp_Publish
  | |- wp (log_on_error _ _) _ _ => apply wp_log_on_error
  | |- wp (query _) _ _ => apply wp_query; [intros ? ?|intros ?]
  | |- wp (exec _) _ _ => apply wp_exec; [intros ? ?|intros ?]
  | |- wp (sql _) _ _ => apply wp_sql; [intros ? ?|intros ?]
  | |- wp _ _ _ => wp_step
  | |- match (if ?b then _ else _) with _ => _ end => let H := fresh "Hb" in destruct b eqn:H
  | |- match match ?x with _ => _ end with _ => _ end => let H := fresh "Hm" in destruct x eqn:H
  end.
Ltac io_auto := repeat (cbv beta zeta; io_step).

(** The actor column of an audit record or of an [updated_by]: null for the
    break-glass account, which is not a users row. *)
Definition audited (a : string) (w w' : World) : Prop :=
  exists r, w_audit w' = w_audit w ++ [r] /\ AuditAction r = a.

(** ** Concrete environments and worlds, for the witnesses *)
Definition quiet_env : Env := {|
  fault := fun _ => None;
  gen_random_uuid := fun n => ("00000000-0000-0000-0000-00000000000" +:+ String.String (ascii_of_N (97 + n)) "")%string;
  tick := fun _ => 1%N;
  agent_connected := fun _ _ => true
|}.
(** As [quiet_env], but the calls listed fail. *)
Definition failing_env (calls : list N) : Env := {|
  fault := fun n => if bool_decide (n ∈ calls) then Some (Opaque "unreachable") else None;
  gen_random_uuid := @gen_random_uuid quiet_env;
  tick := fun _ => 1%N;
  agent_connected := fun _ _ => true
|}.
Definition empty_world : World :=
  MkWorld 0 63900000000000000000 ∅ ∅ [] [] [] [] ∅ ∅ ∅ ∅ ∅ ∅ ∅ ∅ ∅ ∅ ∅ ∅ ∅ (12, None) ("UTC"%string, None)
    (MkStale ModeNone None 0 None None 24 2000 None 0) ∅ ∅ ∅ ∅
    (MkEngineTables ∅ ∅) ∅ (MkLogTables ∅ (MkLogSettings 12 None 0) ∅ ∅)
    (MkEmailTables ∅ ∅ ∅ ∅ (MkEmailSettings false "" 587 EmailTLSStartTLS "" "" "Sparky" "08:00" 0 None None None 0) []) None.
