(* ===== verification/InstanceStore.v ===== *)
(** * The running_instances table ([internal/db/running_instances.go]) *)
From stdpp Require Import base list strings gmap.
From Stdlib Require Import ZArith Lia.
From Stdlib Require Import Ascii.
From Stdlib Require String.
From S2P Require Import Prelude Text Json Db.
Local Open Scope string_scope.
Local Open Scope list_scope.
Local Open Scope Z_scope.

Definition ErrRunningInstanceNotFound : error :=
  Sentinel "db.ErrRunningInstanceNotFound" "running instance not found".

Definition isTerminalRunningInstanceStatus (status : RunningInstanceStatus) : bool :=
  match status with Stopped | Failed => true | _ => false end.
(** [status IN ('starting', 'running', 'stopping')] *)
Definition inst_active (i : RunningInstance) : bool := negb (isTerminalRunningInstanceStatus (InstStatus i)).

(** [looksLikeUUID]: 36 bytes, a dash at 8, 13, 18 and 23, hexadecimal digits
    elsewhere. *)
Fixpoint uuid_chars (i : Z) (l : list ascii) : bool :=
  match l with
  | [] => true
  | c :: l' =>
      (if bool_decide (i ∈ [8; 13; 18; 23]) then is_char 45 c else is_hex c) && uuid_chars (i + 1) l'
  end.
Definition looksLikeUUID (s : string) : bool := (len s =? 36) && uuid_chars 0 (bytes s).

(** What the pattern matches looks like a uuid, in lower case too. *)
Definition uuid_char (i : Z) : ascii -> bool := if bool_decide (i ∈ [8; 13; 18; 23]) then is_char 45 else is_hex.
Lemma uuid_char_lower i c : uuid_char i c = true -> uuid_char i (lower_char c) = true.
Proof. unfold uuid_char. case_bool_decide; destruct c as [[] [] [] [] [] [] [] []]; vm_compute; congruence. Qed.
Lemma match_shape_chars n a l : match_shape (map (fun k => uuid_char (Z.of_nat k)) (seq a n)) l = true ->
  uuid_chars (Z.of_nat a) (map lower_char l) = true /\ length l = n.
Proof.
  revert a l. induction n as [|n IH]; intros a [|c l]; try done. cbn. intros [Hc Hl]%andb_true_iff.
  destruct (IH _ _ Hl) as [IHl <-]. split; [|done]. rewrite Nat2Z.inj_succ, <-Z.add_1_r in IHl. rewrite IHl, andb_true_r.
  apply uuid_char_lower in Hc. unfold uuid_char in Hc. by destruct (bool_decide _).
Qed.
Lemma uuid_match_looks s : uuid_match s = true -> looksLikeUUID (to_lower s) = true.
Proof.
  unfold uuid_match, looksLikeUUID, to_lower. assert (Hs : uuid_shape = map (fun k => uuid_char (Z.of_nat k)) (seq 0 36)) by reflexivity.
  rewrite Hs. intros [Hc Hl]%match_shape_chars. change (uuid_chars 0) with (uuid_chars (Z.of_nat 0)).
  unfold len. by rewrite bytes_of_bytes, Hc, length_of_bytes, length_map, Hl.
Qed.

(** A nullable reference to a users row. *)
Definition user_ref_ok (u : option string) (w : World) : bool :=
  match u with Some u => bool_decide (is_Some (w_users w !! u)) | None => true end.
(** A Go [int] in a Postgres [integer] column. *)
Definition in_int4 (z : Z) : bool := (- 2 ^ 31 <=? z) && (z <? 2 ^ 31).

(** The rows a [WHERE] keeps, oldest first. *)
Definition started_before (x y : RunningInstance) : bool :=
  if StartedAt x =? StartedAt y then string_le (InstID x) (InstID y) else StartedAt x <? StartedAt y.
Definition instances_where (p : RunningInstance -> bool) (w : World) : list RunningInstance :=
  sort_by started_before (List.filter p (map snd (map_to_list (w_instances w)))).

Section Repository.
Context `{Env}.

Definition scanRunningInstance (r : option RunningInstance) : M RunningInstance :=
  match r with Some i => mret i | None => throw ErrRunningInstanceNotFound end.
Definition scan_instance : M (option RunningInstance) -> M (option RunningInstance) := wrap "scan running instance: ".

Definition new_instance (id profileID primaryNodeID : string) (startedBy : option string) (now : Time) : RunningInstance :=
  MkInstance id profileID Starting primaryNodeID None startedBy now None HealthUnknown None None None.
Definition Create_instance (profileID primaryNodeID : string) (startedBy : option string) : M RunningInstance :=
  wrap "create running instance: " (wrap "scan running instance: " (sql (fun w =>
    let inst := new_instance (gen_random_uuid (w_calls w)) profileID primaryNodeID startedBy (w_clock w) in
    if bool_decide (is_Some (w_instances w !! InstID inst)) then inl (PgError "23505")
    else if bool_decide (is_Some (w_profiles w !! profileID)) && bool_decide (is_Some (w_nodes w !! primaryNodeID))
            && user_ref_ok startedBy w
    then inr (inst, set_w_instances (<[InstID inst := inst]> (w_instances w)) w)
    else inl (PgError "23503")))).

Definition FindByID_instance (id : string) : M RunningInstance :=
  r ← scan_instance (query (fun w => w_instances w !! id)); scanRunningInstance r.

(** [FindByIDs]: the rows of the ids that look like uuids; no statement is run
    when none does. *)
Definition FindByIDs (ids : list string) : M (gmap string RunningInstance) :=
  let valid := List.filter looksLikeUUID ids in
  match valid with
  | [] => mret ∅
  | _ => wrap "find running instances by id: " (query (fun w =>
           filter (fun ki : string * RunningInstance => ki.1 ∈ valid) (w_instances w)))
  end.

(** [ORDER BY started_at DESC LIMIT 1] *)
Definition FindActiveByProfileID (profileID : string) : M RunningInstance :=
  r ← scan_instance (query (fun w =>
        last (instances_where (fun i => bool_decide (InstProfileID i = profileID) && inst_active i) w)));
  scanRunningInstance r.
Definition running_on (nodeID : string) (i : RunningInstance) : bool :=
  bool_decide (PrimaryNodeID i = nodeID) && bool_decide (InstStatus i = Running).
Definition FindActiveByNode (nodeID : string) : M RunningInstance :=
  r ← scan_instance (query (fun w => last (instances_where (running_on nodeID) w)));
  scanRunningInstance r.
Definition ListRunningByNode (nodeID : string) : M (list RunningInstance) :=
  wrap ("list running instances for node " +:+ nodeID +:+ ": ") (query (instances_where (running_on nodeID))).
Definition List_db : M (list RunningInstance) :=
  wrap "list running instances: " (query (fun w => rev (instances_where (fun _ => true) w))).

Definition upd_instance (id : string) (f : RunningInstance -> RunningInstance) (w : World) : World :=
  set_w_instances (alter f id (w_instances w)) w.
(** [COALESCE($2, actual_port)] *)
Definition coalesce {A} (x y : option A) : option A := match x with Some _ => x | None => y end.
Definition status_row (now : Time) (status : RunningInstanceStatus) (actualPort : option Z)
    (errorMessage : option string) (i : RunningInstance) : RunningInstance :=
  let i := set_InstErrorMessage errorMessage
    (set_ActualPort (coalesce actualPort (ActualPort i)) (set_InstStatus status i)) in
  if isTerminalRunningInstanceStatus status then set_StoppedAt (Some now) i else i.
Definition SetStatus (id : string) (status : RunningInstanceStatus) (actualPort : option Z)
    (errorMessage : option string) : M unit :=
  wrap ("set status for running instance " +:+ id +:+ ": ") (sql (fun w =>
    if match actualPort with Some p => in_int4 p | None => true end
    then inr (tt, upd_instance id (status_row (w_clock w) status actualPort errorMessage) w)
    else inl (Opaque "actual_port is out of the range of an integer column"))).

Definition health_row (status : InstanceHealthStatus) (checkedAt : Time) (detail : option (gmap string float64))
    (i : RunningInstance) : RunningInstance :=
  set_HealthDetail detail (set_LastHealthCheckAt (Some checkedAt) (set_HealthStatus status i)).
Definition UpdateHealth (id : string) (status : InstanceHealthStatus) (checkedAt : Time)
    (detail : option (gmap string float64)) : M unit :=
  wrap ("update health for running instance " +:+ id +:+ ": ")
    (exec (upd_instance id (health_row status checkedAt detail))).
End Repository.

(** ** Facts *)

(** [looksLikeUUID] accepts the 8-4-4-4-12 shape and nothing else. *)
Lemma uuid_chars_shape l : (length l = 36)%nat -> uuid_chars 0 l = match_shape uuid_shape l.
Proof.
  intros Hl. do 36 (destruct l as [|? l]; [done|]). destruct l; [|done]. reflexivity.
Qed.
Lemma match_shape_length p l : match_shape p l = true -> length l = length p.
Proof. revert l. induction p as [|q p IH]; intros [|c l]; simpl; try done. intros [_ ?]%andb_true_iff. f_equal. auto. Qed.
Lemma looksLikeUUID_iff s : looksLikeUUID s = uuid_match s.
Proof.
  unfold looksLikeUUID, uuid_match, len.
  assert (Hlen : length (bytes s) = String.length s) by (unfold bytes; induction s; simpl; congruence).
  destruct (Z.eqb_spec (Z.of_nat (String.length s)) 36) as [E|E]; cbn [andb].
  - apply uuid_chars_shape. lia.
  - symmetry. apply not_true_iff_false. intros Hm%match_shape_length. change (length uuid_shape) with 36%nat in Hm. lia.
Qed.

Lemma elem_of_instances_where p i w : (forall k j, w_instances w !! k = Some j -> InstID j = k) ->
  i ∈ instances_where p w <-> w_instances w !! InstID i = Some i /\ p i = true.
Proof.
  intros Hid. unfold instances_where. rewrite elem_of_sort_by, elem_of_List_filter, list_elem_of_fmap. split.
  - intros [Hp ([k j] & -> & Hin%elem_of_map_to_list)]. simpl in *. by rewrite (Hid k j Hin).
  - intros [Hi Hp]. split; [done|]. exists (InstID i, i). by rewrite elem_of_map_to_list.
Qed.
Lemma instances_where_nil p w :
  instances_where p w = [] <-> forall k i, w_instances w !! k = Some i -> p i = false.
Proof.
  unfold instances_where. split.
  - intros Hnil k i Hk. apply not_true_iff_false. intros Hp.
    assert (Hin : i ∈ sort_by started_before (List.filter p (map snd (map_to_list (w_instances w))))).
    { rewrite elem_of_sort_by, elem_of_List_filter, list_elem_of_fmap. split; [done|]. exists (k, i). by rewrite elem_of_map_to_list. }
    rewrite Hnil in Hin. by apply elem_of_nil in Hin.
  - intros Hall. destruct (List.filter p (map snd (map_to_list (w_instances w)))) as [|i l] eqn:E; [done|]. exfalso.
    assert (Hin : i ∈ List.filter p (map snd (map_to_list (w_instances w)))) by (rewrite E; left).
    rewrite elem_of_List_filter, list_elem_of_fmap in Hin.
    destruct Hin as [Hp ([k j] & -> & Hk%elem_of_map_to_list)]. simpl in Hp. by rewrite (Hall k j Hk) in Hp.
Qed.

Section Wp.
Context `{Env}.
Lemma wp_FindByID_instance id w (Q : result RunningInstance -> World -> Prop) :
  (forall e, Q (Err (Errorf "scan running instance: " e "")) (bump w)) ->
  (w_instances w !! id = None -> Q (Err ErrRunningInstanceNotFound) (bump w)) ->
  (forall i, w_instances w !! id = Some i -> Q (Ok i) (bump w)) -> wp (FindByID_instance id) w Q.
Proof.
  intros He Hn Hs. unfold FindByID_instance, scan_instance. apply wp_bind, wp_wrap, wp_query; [intros; apply He|intros _].
  unfold scanRunningInstance. change (w_instances (bump w)) with (w_instances w).
  destruct (w_instances w !! id); [apply wp_ret; auto|apply wp_throw; auto].
Qed.
Lemma wp_SetStatus id st port msg w (Q : result unit -> World -> Prop) :
  (forall e, Q (Err e) (bump w)) ->
  (match port with Some p => in_int4 p = true | None => True end ->
   Q (Ok tt) (upd_instance id (status_row (w_clock (bump w)) st port msg) (bump w))) ->
  wp (SetStatus id st port msg) w Q.
Proof.
  intros He Hok. unfold SetStatus. apply wp_wrap, wp_sql; [intros; apply He|intros _].
  destruct port as [p|]; [destruct (in_int4 p) eqn:E; [by apply Hok|apply He]|by apply Hok].
Qed.
Lemma wp_UpdateHealth id st t d w (Q : result unit -> World -> Prop) :
  (forall e, Q (Err e) (bump w)) -> Q (Ok tt) (upd_instance id (health_row st t d) (bump w)) ->
  wp (UpdateHealth id st t d) w Q.
Proof. intros He Hok. unfold UpdateHealth. apply wp_wrap, wp_exec; [intros; apply He|intros _; exact Hok]. Qed.
End Wp.

(** ** The table as the services above it see it

    What loading and unloading change: the rows, the envelopes sent, the audit
    log; [wp_observe] forgets everything else about a state in the middle of a
    program. *)
Definition observed (w : World) := (w_profiles w, w_instances w, w_sent w, w_audit w).
Lemma wp_observe {B A} (obs : World -> B) (v : B) (m : M A) X (Q : result A -> World -> Prop) :
  obs X = v -> (forall w, obs w = v -> wp m w Q) -> wp m X Q.
Proof. intros <- Hm. by apply Hm. Qed.

(** The errors of calls outside the program (the database driver, the agent's
    socket) are not this program's sentinels. *)
Class ForeignFaults `{Env} : Prop :=
  fault_foreign : forall n e s, fault n = Some e -> errors_Is e s = false.
#[export] Instance quiet_foreign : @ForeignFaults quiet_env.
Proof. by intros n e s. Qed.
#[export] Instance failing_foreign calls : @ForeignFaults (failing_env calls).
Proof. intros n e s. simpl. case_bool_decide; [by intros [= <-]|done]. Qed.

Section WpTable.
Context `{Env}.

Lemma wp_Create_instance profileID nodeID by_ w (Q : result RunningInstance -> World -> Prop) :
  (forall e, Q (Err e) (bump w)) ->
  (forall inst, w_instances w !! InstID inst = None ->
    inst = new_instance (InstID inst) profileID nodeID by_ (w_clock (bump w)) ->
    is_Some (w_profiles w !! profileID) -> is_Some (w_nodes w !! nodeID) ->
    Q (Ok inst) (set_w_instances (<[InstID inst := inst]> (w_instances w)) (bump w))) ->
  wp (Create_instance profileID nodeID by_) w Q.
Proof.
  intros He Hok. unfold Create_instance. apply wp_wrap, wp_wrap, wp_sql; [intros; apply He|intros _].
  cbv zeta. set (inst := new_instance _ _ _ _ _). change (w_instances (bump w)) with (w_instances w).
  case_bool_decide as Hn; [apply He|].
  change (w_profiles (bump w)) with (w_profiles w). change (w_nodes (bump w)) with (w_nodes w).
  destruct (bool_decide (is_Some (w_profiles w !! profileID)) && bool_decide (is_Some (w_nodes w !! nodeID))
            && user_ref_ok by_ (bump w)) eqn:E; [|apply He].
  propb. apply Hok; [by apply eq_None_not_Some|done|done|done].
Qed.
(** Looking for an active instance: found, none, or the statement failed. *)
Lemma wp_FindActiveByProfileID `{!ForeignFaults} id w (Q : result RunningInstance -> World -> Prop) :
  (forall e, errors_Is e "db.ErrRunningInstanceNotFound" = false -> Q (Err e) (bump w)) ->
  ((forall k i, w_instances w !! k = Some i -> InstProfileID i = id -> inst_active i = false) ->
    Q (Err ErrRunningInstanceNotFound) (bump w)) ->
  (forall i, Q (Ok i) (bump w)) -> wp (FindActiveByProfileID id) w Q.
Proof.
  intros He Hn Hs. unfold FindActiveByProfileID, scan_instance.
  apply wp_bind, wp_wrap, wp_query; [intros e Hf|intros _].
  { apply He. simpl. by eapply fault_foreign. }
  set (l := instances_where _ _). destruct (last l) as [i|] eqn:El; simpl; [apply wp_ret, Hs|apply wp_throw, Hn].
  assert (Hl : l = []) by by apply last_None. clear El. unfold l in Hl.
  intros k i Hk Hp. pose proof (proj1 (instances_where_nil _ _) Hl k i Hk) as Hf. simpl in Hf.
  by rewrite Hp, bool_decide_true in Hf.
Qed.
End WpTable.
