(* ===== verification/ProfileStore.v ===== *)
(** * The model_profiles table ([internal/db/profiles.go])

    The unique name, the references to the inventory, the users and the running
    instances, and [engine_params] as a [jsonb] column: what is read back is
    not the text that was written. *)
From stdpp Require Import base list strings gmap.
From Stdlib Require Import ZArith Lia.
From Stdlib Require Import Ascii.
From Stdlib Require String.
From S2P Require Import Prelude Text Json Db InstanceStore.
Local Open Scope string_scope.
Local Open Scope list_scope.
Local Open Scope Z_scope.

Definition ErrProfileNotFound : error := Sentinel "db.ErrProfileNotFound" "model profile not found".
Definition ErrProfileNameTaken : error := Sentinel "db.ErrProfileNameTaken" "model profile name already in use".

(** ** [jsonb]

    Postgres keeps one value per key, the last, orders the keys by length and
    then by bytes, and writes a number without an exponent. *)
Definition key_before (x y : string) : bool :=
  if len x =? len y then string_le x y else len x <? len y.
Fixpoint put_key (k : string) (v : json) (l : list (string * json)) : list (string * json) :=
  match l with
  | [] => [(k, v)]
  | (k', v') :: l' =>
      if bool_decide (k = k') then (k, v) :: l'
      else if key_before k k' then (k, v) :: l else (k', v') :: put_key k v l'
  end.
Definition put_keys (l : list (string * json)) : list (string * json) :=
  fold_left (fun acc kv => put_key kv.1 kv.2 acc) l [].
Fixpoint jsonb (v : json) : json :=
  match v with
  | JDec m e => if 0 <=? e then JInt (m * 10 ^ e) else v
  | JArr l => JArr (map jsonb l)
  | JObj l => JObj (put_keys (map (fun kv => (kv.1, jsonb kv.2)) l))
  | _ => v
  end.
(** A text in it holds a NUL, which [jsonb] refuses. *)
Definition nul_text (s : string) : bool := existsb (is_char 0) (bytes s).
Fixpoint has_nul (v : json) : bool :=
  match v with
  | JStr s => nul_text s
  | JArr l => existsb has_nul l
  | JObj l => existsb (fun kv => nul_text kv.1 || has_nul kv.2) l
  | _ => false
  end.
(** A parameter of a [jsonb] column, as the column gives it back. *)
Definition jsonb_param (r : RawMessage) : error + RawMessage :=
  match Unmarshal r with
  | Some v => if has_nul v then inl (PgError "22P05") else inr (Raw (jsonb v) false)
  | None => inl (PgError "22P02")
  end.

Section Repository.
Context `{Env}.

Definition scanProfile (r : option Profile) : M Profile :=
  match r with Some p => mret p | None => throw ErrProfileNotFound end.
Definition scan_profile {A} : M A -> M A := wrap "scan model profile: ".

Definition inv_key (p : Profile) : option InvKey :=
  match TargetNodeID p with
  | Some n => Some (n, ProfModelRef p, ProfQuantization p, ProfFormat p)
  | None => None
  end.
Definition name_of_another (p : Profile) (w : World) : bool :=
  existsb (fun kq : string * Profile => negb (bool_decide (kq.1 = ProfID p)) && bool_decide (ProfName kq.2 = ProfName p))
    (map_to_list (w_profiles w)).
(** What Postgres refuses the row with: the [CHECK], the unique name, then the
    references. *)
Definition profile_fault (by_ : option string) (p : Profile) (w : World) : option error :=
  if negb (bool_decide (Topology p = TopologySingleNode) && bool_decide (is_Some (TargetNodeID p))) then Some (PgError "23514")
  else if name_of_another p w then Some (PgError "23505")
  else if match inv_key p with Some k => bool_decide (is_Some (w_inventory w !! k)) | None => true end
          && match TargetNodeID p with Some n => bool_decide (is_Some (w_nodes w !! n)) | None => true end
          && user_ref_ok by_ w
  then None else Some (PgError "23503").

(** The columns a create and an update share. *)
Record ProfileColumns := MkColumns {
  PCName : string; PCModelRef : string; PCEngineType : string; PCEngineParams : RawMessage;
  PCRequiresFullGPUResidency : bool; PCRequiredMemoryGB : option float64; PCEngineVersion : option string;
  PCQuantization : string; PCFormat : ModelFormat; PCImage : option string; PCTargetNodeID : string; PCPort : Z
}.
Definition profile_row (id : string) (c : ProfileColumns) (params : RawMessage) (topology : ProfileTopology)
    (createdBy : option string) (createdAt : Time) (updatedBy : option string) (updatedAt : Time) : Profile :=
  MkProfile id (PCName c) (PCModelRef c) (PCEngineType c) params (PCRequiresFullGPUResidency c) (PCRequiredMemoryGB c)
    (PCEngineVersion c) (PCQuantization c) (PCFormat c) (PCImage c) topology (Some (PCTargetNodeID c)) (PCPort c)
    createdBy createdAt updatedBy updatedAt.

(** Store the row unless Postgres refuses it. *)
Definition put_profile (by_ : option string) (p : Profile) (w : World) : error + (Profile * World) :=
  match profile_fault by_ p w with
  | Some e => inl e
  | None => inr (p, set_w_profiles (<[ProfID p := p]> (w_profiles w)) w)
  end.

Definition Create_profile (c : ProfileColumns) (createdBy : option string) : M Profile :=
  map_err (fun e => if is_pg_code e "23505" then ErrProfileNameTaken else Errorf "create model profile: " e "")
    (scan_profile (sql (fun w =>
      match jsonb_param (PCEngineParams c) with
      | inl e => inl e
      | inr params =>
          let id := gen_random_uuid (w_calls w) in
          if bool_decide (is_Some (w_profiles w !! id)) then inl (PgError "23505")
          else put_profile createdBy
            (profile_row id c params TopologySingleNode createdBy (w_clock w) None (w_clock w)) w
      end))).

Definition FindByID_profile (id : string) : M Profile :=
  r ← scan_profile (query (fun w => w_profiles w !! id)); scanProfile r.
Definition profiles_by_name (w : World) : list Profile :=
  sort_by (fun a b => string_le (ProfName a) (ProfName b)) (map snd (map_to_list (w_profiles w))).
Definition List_profiles_db : M (list Profile) := wrap "list model profiles: " (query profiles_by_name).

Definition Update_profile (id : string) (c : ProfileColumns) (updatedBy : option string) : M Profile :=
  map_err (fun e => if is_pg_code e "23505" then ErrProfileNameTaken else e)
    (r ← scan_profile (sql (fun w =>
       match jsonb_param (PCEngineParams c) with
       | inl e => inl e
       | inr params =>
           match w_profiles w !! id with
           | None => inr (None, w)
           | Some old =>
               match put_profile updatedBy (profile_row id c params (Topology old) (ProfCreatedBy old)
                       (ProfCreatedAt old) updatedBy (w_clock w)) w with
               | inl e => inl e
               | inr (p, w') => inr (Some p, w')
               end
           end
       end));
     scanProfile r).

(** [DELETE]: a row of [running_instances], however old, keeps its profile. *)
Definition instance_of (id : string) (w : World) : bool :=
  existsb (fun ki : string * RunningInstance => bool_decide (InstProfileID ki.2 = id)) (map_to_list (w_instances w)).
Definition Delete_profile (id : string) : M unit :=
  found ← wrap ("delete model profile " +:+ id +:+ ": ") (sql (fun w =>
    if bool_decide (is_Some (w_profiles w !! id)) && instance_of id w then inl (PgError "23503")
    else inr (bool_decide (is_Some (w_profiles w !! id)), set_w_profiles (delete id (w_profiles w)) w)));
  guard_err found ErrProfileNotFound.
End Repository.

(** ** Facts *)
Lemma put_key_elem k v l k' v' : (k', v') ∈ put_key k v l -> (k' = k /\ v' = v) \/ (k', v') ∈ l.
Proof.
  induction l as [|[k0 v0] l IH]; simpl; [intros ?%list_elem_of_singleton; left; by simplify_eq|].
  case_bool_decide as E; [subst; intros [?|?]%elem_of_cons; [left; by simplify_eq|right; by right]|].
  destruct (key_before k k0).
  - intros [?|Hin]%elem_of_cons; [left; by simplify_eq|by right].
  - intros [?|Hin]%elem_of_cons; [right; simplify_eq; by left|]. destruct (IH Hin); [by left|right; by right].
Qed.
(** Every key of the stored object was a key of the written one, with a value
    it had there. *)
Lemma put_keys_elem k v l : (k, v) ∈ put_keys l -> (k, v) ∈ l.
Proof.
  unfold put_keys. assert (Hg : forall acc, (k, v) ∈ fold_left (fun acc kv => put_key kv.1 kv.2 acc) l acc -> (k, v) ∈ acc \/ (k, v) ∈ l).
  { induction l as [|[k0 v0] l IH]; intros acc; simpl; [by left|].
    intros [Hin|Hin]%IH; [|right; by right]. simpl in Hin.
    destruct (put_key_elem _ _ _ _ _ Hin) as [[-> ->]|?]; [right; left|by left]. }
  intros [?%elem_of_nil|?]%Hg; done.
Qed.

Section Wp.
Context `{Env}.
Lemma wp_FindByID_profile id w (Q : result Profile -> World -> Prop) :
  (forall e, Q (Err (Errorf "scan model profile: " e "")) (bump w)) ->
  (w_profiles w !! id = None -> Q (Err ErrProfileNotFound) (bump w)) ->
  (forall p, w_profiles w !! id = Some p -> Q (Ok p) (bump w)) -> wp (FindByID_profile id) w Q.
Proof.
  intros He Hn Hs. unfold FindByID_profile, scan_profile. apply wp_bind, wp_wrap, wp_query; [intros; apply He|intros _].
  unfold scanProfile. change (w_profiles (bump w)) with (w_profiles w).
  destruct (w_profiles w !! id); [apply wp_ret; auto|apply wp_throw; auto].
Qed.
End Wp.
