(* ===== verification/Wire.v ===== *)
(** * What agents send ([internal/agentproto])

    The envelopes an agent sends to the server, with the payload as
    [DecodePayload] gives it: the fields, or the reason it is malformed. *)
From stdpp Require Import base list strings gmap.
From Stdlib Require Import ZArith Lia.
From Stdlib Require String.
From S2P Require Import Prelude Json Db.
Local Open Scope Z_scope.

Definition InstanceStatusRunning : string := "running".
Definition InstanceStatusFailed : string := "failed".
Definition InstanceStatusStopped : string := "stopped".
Definition InstanceHealthStatusHealthy : string := "healthy".
Definition InstanceHealthStatusUnhealthy : string := "unhealthy".
Definition InstanceHealthStatusDead : string := "dead".

Record InstanceResult := MkInstanceResult {
  ir_InstanceID : string; ir_Status : string; ir_ActualPort : Z; ir_ErrorMessage : string
}.
Record InstanceHealth := MkInstanceHealth {
  ih_InstanceID : string; ih_Status : string; ih_CheckedAt : Time; ih_Detail : gmap string float64
}.
Record NetworkInterface := MkNetworkInterface {
  ni_Name : string; ni_IPAddress : string; ni_LinkSpeedMbps : option Z
}.
Definition ReportInterfaces : Type := list NetworkInterface.
Record TransferProgress := MkTransferProgress {
  tp_TransferID : string; tp_BytesTransferred : Z; tp_BytesTotal : Z; tp_Status : string; tp_ErrorMessage : string
}.
Record PeerAuthorizeResult := MkPeerAuthorizeResult { pa_TransferID : string; pa_Accepted : bool; pa_Reason : string }.
Record ConnectivityCheckResult := MkConnectivityCheckResult {
  cc_CheckID : string; cc_Reachable : bool; cc_LatencyMs : Z; cc_Reason : string
}.
Record ListContainersResult := MkListContainersResult {
  lc_ScanID : string; lc_Part : Z; lc_Final : bool; lc_Containers : list ManagedContainer; lc_Truncated : bool; lc_Error : string
}.
Record DeleteModelResult := MkDeleteModelResult {
  dm_ModelRef : string; dm_Quantization : string; dm_Format : string; dm_Success : bool; dm_Reason : string
}.
Record EngineTransferProgress := MkEngineTransferProgress {
  ep_TransferID : string; ep_BytesTransferred : Z; ep_BytesTotal : Z; ep_Status : string; ep_ErrorMessage : string;
  ep_InstallPath : string; ep_InstalledSizeBytes : Z
}.
Record ScanModelsResult := MkScanModelsResult { sr_ScanID : string; sr_Models : list ScannedModel; sr_Truncated : bool; sr_Error : string }.
Record ContainerLogChunk := MkLogChunk {
  ch_UploadID : string; ch_FetchID : string; ch_Seq : Z; ch_Data : string; ch_Meta : option ContainerLogMeta; ch_Final : bool;
  ch_TotalBytes : Z; ch_SHA256 : string; ch_Error : string
}.

(** The envelopes of an agent by type; an envelope of any other type is
    [EOther]. *)
Inductive Envelope :=
| EInstanceResult (p : result InstanceResult)
| EInstanceHealth (p : result InstanceHealth)
| EReportInterfaces (p : result ReportInterfaces)
| ETransferProgress (p : result TransferProgress)
| EPeerAuthorizeResult (p : result PeerAuthorizeResult)
| EConnectivityCheckResult (p : result ConnectivityCheckResult)
| EListContainersResult (p : result ListContainersResult)
| ERemoveContainerResult (p : result RemoveContainerResult)
| EDeleteModelResult (p : result DeleteModelResult)
| EEngineTransferProgress (p : result EngineTransferProgress)
| EScanModelsResult (p : result ScanModelsResult)
| EContainerLogChunk (p : result ContainerLogChunk)
| EOther (type : string).
