(* ===== verification/NodeStore.v ===== *)
(** * The nodes, their interfaces and their inventory

    The tables of [internal/db/nodes.go], [internal/db/node_network_interfaces.go]
    and [internal/db/node_model_inventory.go] and their statements. *)
From stdpp Require Import base list strings gmap.
From Stdlib Require Import ZArith Lia.
From Stdlib Require Import Ascii.
From Stdlib Require String.
From S2P Require Import Prelude Text Json Db InstanceStore.
Local Open Scope string_scope.
Local Open Scope list_scope.
Local Open Scope Z_scope.

Definition ErrNodeNotFound : error := Sentinel "db.ErrNodeNotFound" "node not found".
Definition ErrNodeModelInventoryNotFound : error :=
  Sentinel "db.ErrNodeModelInventoryNotFound" "node model inventory entry not found".

Section Nodes.
Context `{Env}.

Definition scanNode (r : option Node) : M Node :=
  match r with Some n => mret n | None => throw ErrNodeNotFound end.
Definition node_named (name : string) (w : World) : option Node :=
  snd <$> List.find (fun kn : string * Node => bool_decide (NodeName kn.2 = name)) (map_to_list (w_nodes w)).

(** The unique name and the reference to who registered it. *)
Definition Create_node (name hostname ipAddress : string) (runtimeBackend : RuntimeBackend)
    (gpuMemoryGB cpuMemoryGB : float64) (registeredBy : option string) (bearerTokenHash : string) : M Node :=
  wrap "create node: " (wrap "scan node: " (sql (fun w =>
    let n := MkNode (gen_random_uuid (w_calls w)) name hostname ipAddress runtimeBackend gpuMemoryGB cpuMemoryGB
      AgentOffline None registeredBy (w_clock w) None None None None None None bearerTokenHash in
    if bool_decide (is_Some (w_nodes w !! NodeID n)) || bool_decide (is_Some (node_named name w)) then inl (PgError "23505")
    else if user_ref_ok registeredBy w then inr (n, set_w_nodes (<[NodeID n := n]> (w_nodes w)) w)
    else inl (PgError "23503")))).
Definition FindByID_node (id : string) : M Node :=
  r ← wrap "scan node: " (query (fun w => w_nodes w !! id)); scanNode r.
Definition FindCredentialByName (name : string) : M (Node * string) :=
  r ← wrap "find node credential: " (query (node_named name));
  match r with Some n => mret (n, NodeBearerTokenHash n) | None => throw ErrNodeNotFound end.
Definition List_nodes_db : M (list Node) :=
  wrap "list nodes: " (query (fun w =>
    sort_by (fun a b => string_le (NodeName a) (NodeName b)) (map snd (map_to_list (w_nodes w))))).

(** An [UPDATE nodes ... WHERE id = $n]. *)
Definition upd_node (id : string) (f : Node -> Node) (w : World) : World := set_w_nodes (alter f id (w_nodes w)) w.
Definition SetAgentStatus (nodeID : string) (status : AgentStatus) (bumpHeartbeat : bool) : M unit :=
  wrap ("set agent status for node " +:+ nodeID +:+ ": ") (exec (fun w =>
    upd_node nodeID (fun n => let n := set_NodeAgentStatus status n in
      if bumpHeartbeat then set_NodeLastHeartbeatAt (Some (w_clock w)) n else n) w)).
Definition UpdateSSHIdentity (nodeID : string) (sshPublicKey sshHostPublicKey : option string) : M unit :=
  wrap ("update SSH identity for node " +:+ nodeID +:+ ": ")
    (exec (upd_node nodeID (fun n => set_NodeSSHHostPublicKey sshHostPublicKey (set_NodeSSHPublicKey sshPublicKey n)))).
Definition SetDefaultTransferInterface_db (nodeID : string) (interfaceName : option string) : M unit :=
  wrap ("set default transfer interface for node " +:+ nodeID +:+ ": ")
    (exec (upd_node nodeID (set_NodeDefaultTransferInterface interfaceName))).
Definition commented (comment updatedBy : option string) (updatedAt : Time) (n : Node) : Node :=
  set_NodeCommentUpdatedAt (Some updatedAt) (set_NodeCommentUpdatedBy updatedBy (set_NodeComment comment n)).
Definition SetComment_db (nodeID : string) (comment updatedBy : option string) (updatedAt : Time) : M unit :=
  wrap ("set comment for node " +:+ nodeID +:+ ": ")
    (exec (upd_node nodeID (commented comment updatedBy updatedAt))).

(** ** Interfaces *)

Definition interfaces_of (nodeID : string) (w : World) : list NodeNetworkInterface := default [] (w_interfaces w !! nodeID).
(** One [INSERT] of [ReplaceForNode]: the key is (node, name). *)
Definition insert_interface (nodeID : string) (now : Time) (i : NodeNetworkInterface) : M unit :=
  sql (fun w =>
    let rows := interfaces_of nodeID w in
    if existsb (fun r => bool_decide (InterfaceName r = InterfaceName i)) rows then inl (PgError "23505")
    else if negb (bool_decide (is_Some (w_nodes w !! nodeID))) then inl (PgError "23503")
    else if negb match LinkSpeedMbps i with Some s => in_int4 s | None => true end
    then inl (Opaque "link_speed_mbps is out of the range of an integer column")
    else inr (tt, set_w_interfaces
      (<[nodeID := rows ++ [MkInterface nodeID (InterfaceName i) (IfIPAddress i) (LinkSpeedMbps i) now]]> (w_interfaces w)) w)).
Fixpoint insert_interfaces (pre nodeID : string) (now : Time) (l : list NodeNetworkInterface) : M unit :=
  match l with
  | [] => mret tt
  | i :: l' => wrap pre (insert_interface nodeID now i);; insert_interfaces pre nodeID now l'
  end.
Definition ReplaceForNode (nodeID : string) (interfaces : list NodeNetworkInterface) : M unit :=
  let pre := "replace node network interfaces for node " +:+ nodeID +:+ ": " in
  transaction ("begin " +:+ pre) pre (fun now =>
    wrap pre (exec (fun w => set_w_interfaces (delete nodeID (w_interfaces w)) w));;
    insert_interfaces pre nodeID now interfaces).
Definition by_name (a b : NodeNetworkInterface) : bool := string_le (InterfaceName a) (InterfaceName b).
Definition ListByNode_interfaces (nodeID : string) : M (list NodeNetworkInterface) :=
  wrap ("list node network interfaces for node " +:+ nodeID +:+ ": ")
    (query (fun w => sort_by by_name (interfaces_of nodeID w))).

(** ** The inventory *)
Definition scan_inventory {A} : M A -> M A := wrap "scan node model inventory: ".
Definition transfer_ref_ok (placedVia : string) (w : World) : bool :=
  bool_decide (placedVia = "") || bool_decide (is_Some (w_transfers w !! placedVia)).
Definition Upsert_inventory (nodeID modelRef quantization : string) (format : ModelFormat) (status : InventoryStatus)
    (sizeBytes : Z) (placedVia : string) : M NodeModelInventory :=
  wrap "upsert node model inventory: " (scan_inventory (sql (fun w =>
    let inv := MkInventory nodeID modelRef quantization format status sizeBytes (w_clock w) placedVia in
    if bool_decide (is_Some (w_nodes w !! nodeID)) && transfer_ref_ok placedVia w
    then inr (inv, set_w_inventory (<[(nodeID, modelRef, quantization, format) := inv]> (w_inventory w)) w)
    else inl (PgError "23503")))).
Definition Get_inventory (nodeID modelRef quantization : string) (format : ModelFormat) : M NodeModelInventory :=
  r ← scan_inventory (query (fun w => w_inventory w !! (nodeID, modelRef, quantization, format)));
  match r with Some i => mret i | None => throw ErrNodeModelInventoryNotFound end.
Definition format_le (a b : ModelFormat) : bool :=
  match a, b with FormatGGUF, FormatSafetensors => false | _, _ => true end.
(** [ORDER BY model_ref, quantization, format, node_id]; the enum declares
    safetensors first. *)
Definition inv_le (a b : NodeModelInventory) : bool :=
  if bool_decide (InvModelRef a = InvModelRef b) then
    if bool_decide (InvQuantization a = InvQuantization b) then
      if bool_decide (InvFormat a = InvFormat b) then string_le (InvNodeID a) (InvNodeID b)
      else format_le (InvFormat a) (InvFormat b)
    else string_le (InvQuantization a) (InvQuantization b)
  else string_le (InvModelRef a) (InvModelRef b).
Definition inventory_rows (w : World) : list NodeModelInventory := map snd (map_to_list (w_inventory w)).
Definition ListByNode_inventory (nodeID : string) : M (list NodeModelInventory) :=
  wrap ("list node model inventory for node " +:+ nodeID +:+ ": ") (query (fun w =>
    sort_by (fun a b => string_le (InvModelRef a) (InvModelRef b))
      (List.filter (fun i => bool_decide (InvNodeID i = nodeID)) (inventory_rows w)))).
Definition List_inventory : M (list NodeModelInventory) :=
  wrap "list node model inventory: " (query (fun w => sort_by inv_le (inventory_rows w))).
Definition SetStatus_inventory (nodeID modelRef quantization : string) (format : ModelFormat) (status : InventoryStatus) : M unit :=
  found ← wrap "set node model inventory status: " (sql (fun w =>
    let k := (nodeID, modelRef, quantization, format) in
    inr (bool_decide (is_Some (w_inventory w !! k)), set_w_inventory (alter (set_InvStatus status) k (w_inventory w)) w)));
  guard_err found ErrNodeModelInventoryNotFound.
End Nodes.

Section Wp.
Context `{Env}.
Lemma wp_FindByID_node id w (Q : result Node -> World -> Prop) :
  (forall e, fault (w_calls w) = Some e -> Q (Err (Errorf "scan node: " e "")) (bump w)) ->
  (w_nodes w !! id = None -> Q (Err ErrNodeNotFound) (bump w)) ->
  (forall n, w_nodes w !! id = Some n -> Q (Ok n) (bump w)) -> wp (FindByID_node id) w Q.
Proof.
  intros He Hn Hs. unfold FindByID_node. apply wp_bind, wp_wrap, wp_query; [intros; by apply He|intros _].
  unfold scanNode. change (w_nodes (bump w)) with (w_nodes w).
  destruct (w_nodes w !! id); [apply wp_ret; auto|apply wp_throw; auto].
Qed.
Lemma wp_Get_inventory n m q f w (Q : result NodeModelInventory -> World -> Prop) :
  (forall e, fault (w_calls w) = Some e -> Q (Err (Errorf "scan node model inventory: " e "")) (bump w)) ->
  (w_inventory w !! (n, m, q, f) = None -> Q (Err ErrNodeModelInventoryNotFound) (bump w)) ->
  (forall i, w_inventory w !! (n, m, q, f) = Some i -> Q (Ok i) (bump w)) -> wp (Get_inventory n m q f) w Q.
Proof.
  intros He Hn Hs. unfold Get_inventory, scan_inventory. apply wp_bind, wp_wrap, wp_query; [intros; by apply He|intros _].
  change (w_inventory (bump w)) with (w_inventory w).
  destruct (w_inventory w !! (n, m, q, f)); [apply wp_ret; auto|apply wp_throw; auto].
Qed.
End Wp.
