(* ===== verification/NetIP.v ===== *)
(** * IP addresses: [net.ParseIP] and [net.IP.String]

    An address is its sixteen bytes, an IPv4 address in its v4-in-v6 form, as
    [net.IP] holds it.  Parsing an address's text gives the address back. *)
From stdpp Require Import base list strings.
From Stdlib Require Import ZArith Lia.
From Stdlib Require Import Ascii.
From Stdlib Require String.
From S2P Require Import Prelude Text.
Local Open Scope list_scope.
Local Open Scope Z_scope.

Abbreviation IP := (list Z) (only parsing).

(** ** Parsing *)
Definition hex_value (c : ascii) : option Z :=
  if is_digit c then Some (code c - 48)
  else if in_range 97 102 c then Some (code c - 87)
  else if in_range 65 70 c then Some (code c - 55)
  else None.

(** [parseIPv4Fields]: [prev] tells whether the byte before was a dot (or the
    start), [val] and [digLen] the octet so far, [done_] the octets read. *)
Fixpoint ipv4_fields (l : list ascii) (start : bool) (val : Z) (digLen : nat) (done_ : list Z) : option (list Z) :=
  match l with
  | [] => if bool_decide (length done_ = 3%nat) then Some (done_ ++ [val]) else None
  | c :: l' =>
      if is_digit c then
        if bool_decide (digLen = 1%nat) && (val =? 0) then None
        else let v := val * 10 + (code c - 48) in
          if 255 <? v then None else ipv4_fields l' false v (S digLen) done_
      else if is_char 46 c then
        if start || bool_decide (l' = []) then None
        else if bool_decide (length done_ = 3%nat) then None
        else ipv4_fields l' true 0 0 (done_ ++ [val])
      else None
  end.
Definition parse_ipv4 (l : list ascii) : option (list Z) := ipv4_fields l true 0 0 [].

(** The hexadecimal digits a group starts with, and the rest. *)
Fixpoint hex_digits (l : list ascii) : list Z * list ascii :=
  match l with
  | c :: l' => match hex_value c with Some v => let '(ds, r) := hex_digits l' in (v :: ds, r) | None => ([], l) end
  | [] => ([], [])
  end.
Definition group_value (ds : list Z) : Z := fold_left (fun acc d => acc * 16 + d) ds 0.

(** The loop of [parseIPv6]: [ip] the bytes read, [ell] where the ellipsis is.
    The answer is the bytes, the ellipsis and the text that is left. *)
Fixpoint ipv6_loop (fuel : nat) (s : list ascii) (ip : list Z) (ell : option nat)
    : option (list Z * option nat * list ascii) :=
  match fuel with
  | O => Some (ip, ell, s)
  | S fuel' =>
      if Nat.leb 16 (length ip) then Some (ip, ell, s)
      else
        let '(ds, r) := hex_digits s in
        if Nat.ltb 4 (length ds) || bool_decide (ds = []) then None
        else match r with
        | [] => Some (ip ++ [group_value ds / 256; group_value ds mod 256], ell, [])
        | c :: r' =>
            if is_char 46 c then
              if bool_decide (ell = None) && negb (bool_decide (length ip = 12%nat)) then None
              else if Nat.ltb 16 (length ip + 4) then None
              else match parse_ipv4 s with Some f => Some (ip ++ f, ell, []) | None => None end
            else
              let ip' := ip ++ [group_value ds / 256; group_value ds mod 256] in
              if negb (is_char 58 c) then None
              else match r' with
              | [] => None
              | d :: r'' =>
                  if is_char 58 d then
                    match ell with
                    | Some _ => None
                    | None => if bool_decide (r'' = []) then Some (ip', Some (length ip'), []) 
                              else ipv6_loop fuel' r'' ip' (Some (length ip'))
                    end
                  else ipv6_loop fuel' r' ip' ell
              end
        end
  end.
(** What follows the loop: the text must be used up, the ellipsis expanded. *)
Definition expand (r : list Z * option nat * list ascii) : option (list Z) :=
  let '(ip, ell, s) := r in
  if negb (bool_decide (s = [])) then None
  else if Nat.ltb (length ip) 16 then
    match ell with
    | None => None
    | Some e => Some (take e ip ++ repeat 0 (16 - length ip)%nat ++ drop e ip)
    end
  else match ell with Some _ => None | None => Some ip end.
Definition ipv6_from (s : list ascii) (ell : option nat) : option (list Z) :=
  match ipv6_loop 8 s [] ell with Some r => expand r | None => None end.
Definition parse_ipv6 (l : list ascii) : option (list Z) :=
  match l with
  | c :: d :: l' =>
      if is_char 58 c && is_char 58 d then
        if bool_decide (l' = []) then Some (repeat 0 16) else ipv6_from l' (Some 0%nat)
      else ipv6_from l None
  | _ => ipv6_from l None
  end.

Definition v4_prefix : list Z := repeat 0 10 ++ [255; 255].
(** [netip.ParseAddr] takes the form of the first dot, colon or percent sign;
    [net.ParseIP] refuses an address with a zone. *)
Fixpoint addr_form (l : list ascii) : option bool :=
  match l with
  | [] => None
  | c :: l' => if is_char 46 c then Some true else if is_char 58 c then Some false
               else if is_char 37 c then None else addr_form l'
  end.
Definition ParseIP (s : string) : option IP :=
  match addr_form (bytes s) with
  | Some true => (fun f => v4_prefix ++ f) <$> parse_ipv4 (bytes s)
  | Some false => if existsb (is_char 37) (bytes s) then None else parse_ipv6 (bytes s)
  | None => None
  end.

(** ** Printing *)
Definition hex_char (d : Z) : ascii := ascii_of_N (Z.to_N (if d <? 10 then 48 + d else 87 + d)).
(** [appendHex] of a 16-bit group, and [appendDecimal] of a byte. *)
Definition hex_group (x : Z) : list ascii :=
  (if 4096 <=? x then [hex_char (x / 4096)] else []) ++
  (if 256 <=? x then [hex_char (x / 256 mod 16)] else []) ++
  (if 16 <=? x then [hex_char (x / 16 mod 16)] else []) ++ [hex_char (x mod 16)].
Definition dec_byte (x : Z) : list ascii :=
  (if 100 <=? x then [hex_char (x / 100)] else []) ++
  (if 10 <=? x then [hex_char (x / 10 mod 10)] else []) ++ [hex_char (x mod 10)].

Fixpoint groups (ip : list Z) : list Z :=
  match ip with a :: b :: ip' => (a * 256 + b) :: groups ip' | _ => [] end.
Fixpoint zero_run (gs : list Z) : nat :=
  match gs with g :: gs' => if g =? 0 then S (zero_run gs') else O | [] => O end.
(** The longest run of at least two zero groups, the first of the longest:
    its start and its length. *)
Fixpoint best_run (i : nat) (gs : list Z) (best : nat * nat) : nat * nat :=
  match gs with
  | [] => best
  | _ :: gs' =>
      let l := zero_run gs in
      best_run (S i) gs' (if Nat.leb 2 l && Nat.ltb best.2 l then (i, l) else best)
  end.
Fixpoint colons (gs : list Z) : list ascii :=
  match gs with
  | [] => []
  | [g] => hex_group g
  | g :: gs' => hex_group g ++ ascii_of_N 58 :: colons gs'
  end.
Definition print_ipv6 (ip : list Z) : list ascii :=
  let gs := groups ip in
  let '(start, n) := best_run 0 gs (0%nat, 0%nat) in
  if Nat.eqb n 0 then colons gs
  else colons (take start gs) ++ ascii_of_N 58 :: ascii_of_N 58 :: colons (drop (start + n) gs).
Fixpoint dots (bs : list Z) : list ascii :=
  match bs with
  | [] => []
  | [b] => dec_byte b
  | b :: bs' => dec_byte b ++ ascii_of_N 46 :: dots bs'
  end.
Definition IP_String (ip : IP) : string :=
  of_bytes (if bool_decide (take 12 ip = v4_prefix) then dots (drop 12 ip) else print_ipv6 ip).

Example parse_v4 : (IP_String <$> ParseIP "10.0.0.7") = Some "10.0.0.7"%string.
Proof. reflexivity. Qed.
Example parse_v6 : (IP_String <$> ParseIP "2001:DB8:0:0:0:0:0:01") = Some "2001:db8::1"%string.
Proof. reflexivity. Qed.
Example parse_mapped : (IP_String <$> ParseIP "::ffff:10.0.0.7") = Some "10.0.0.7"%string.
Proof. reflexivity. Qed.
Example parse_any : (IP_String <$> ParseIP "::") = Some "::"%string.
Proof. reflexivity. Qed.
Example parse_bad : map ParseIP ["10.0.0.256"; "10.0.0"; "010.0.0.1"; "1::2::3"; "fe80::1%eth0"; "host"; ""; "1:2:3:4:5:6:7::8"; ":1::"]%string
  = repeat None 9.
Proof. reflexivity. Qed.

(** ** Parsing what was printed *)
Definition is_byte (x : Z) : Prop := 0 <= x < 256.
Definition ip_ok (ip : IP) : Prop := length ip = 16%nat /\ Forall is_byte ip.

(** A fact of every small number, by cases. *)
Lemma below (n : nat) (P : Z -> Prop) : Forall P (map Z.of_nat (seq 0 n)) -> forall x, 0 <= x < Z.of_nat n -> P x.
Proof.
  intros Hall x Hx. rewrite Forall_forall in Hall. apply Hall. apply list_elem_of_fmap.
  exists (Z.to_nat x). split; [lia|]. apply elem_of_seq. lia.
Qed.

Lemma octet_step x : 0 <= x < 256 -> forall l done_,
  ipv4_fields (dec_byte x ++ l) true 0 0 done_ = ipv4_fields l false x (length (dec_byte x)) done_.
Proof. revert x. refine (below 256 _ _). repeat constructor. Qed.
Lemma dec_byte_nonempty x l : dec_byte x ++ l <> [].
Proof. unfold dec_byte. intros E%(f_equal length). rewrite !length_app in E. cbn [length] in E. lia. Qed.
Lemma ipv4_dot b l v k done_ : l <> [] -> length done_ <> 3%nat ->
  b = false -> ipv4_fields (ascii_of_N 46 :: l) b v k done_ = ipv4_fields l true 0 0 (done_ ++ [v]).
Proof.
  intros Hl Hd ->. cbn [ipv4_fields]. change (is_digit (ascii_of_N 46)) with false.
  change (is_char 46 (ascii_of_N 46)) with true. cbv iota. by rewrite !bool_decide_false.
Qed.
Lemma parse_dots a b c d : is_byte a -> is_byte b -> is_byte c -> is_byte d ->
  parse_ipv4 (dots [a; b; c; d]) = Some [a; b; c; d].
Proof.
  intros Ha Hb Hc Hd. unfold parse_ipv4. cbn [dots].
  assert (Hd' : dec_byte d <> []) by (rewrite <-(app_nil_r (dec_byte d)); apply dec_byte_nonempty).
  rewrite octet_step, ipv4_dot by (done || apply dec_byte_nonempty).
  rewrite octet_step, ipv4_dot by (done || apply dec_byte_nonempty).
  rewrite octet_step, ipv4_dot by done.
  rewrite <-(app_nil_r (dec_byte d)), octet_step by done. done.
Qed.

(** *** Groups *)
Definition hex_ds (x : Z) : list Z :=
  (if 4096 <=? x then [x / 4096] else []) ++ (if 256 <=? x then [x / 256 mod 16] else []) ++
  (if 16 <=? x then [x / 16 mod 16] else []) ++ [x mod 16].
Definition is_group (g : Z) : Prop := 0 <= g < 65536.
Lemma hex_group_ds x : hex_group x = map hex_char (hex_ds x).
Proof. unfold hex_group, hex_ds. by repeat case_match. Qed.
Lemma hex_ds_ok x : is_group x ->
  Forall (fun d => 0 <= d < 16) (hex_ds x) /\ group_value (hex_ds x) = x /\ (length (hex_ds x) <= 4)%nat.
Proof.
  unfold is_group, hex_ds, group_value. intros Hx.
  destruct (4096 <=? x) eqn:E1, (256 <=? x) eqn:E2, (16 <=? x) eqn:E3; propb;
    cbn [app fold_left length]; split_and!; repeat constructor; try lia; Z.to_euclidean_division_equations; lia.
Qed.
Lemma hex_char_value d : 0 <= d < 16 -> hex_value (hex_char d) = Some d.
Proof. revert d. refine (below 16 _ _). repeat constructor. Qed.
Lemma hex_char_plain d : 0 <= d < 16 -> is_char 46 (hex_char d) = false /\ is_char 58 (hex_char d) = false /\ is_char 37 (hex_char d) = false.
Proof. revert d. refine (below 16 _ _). repeat constructor. Qed.
(** The text after a group: nothing, or a colon. *)
Definition group_end (l : list ascii) : Prop := match l with c :: _ => hex_value c = None | [] => True end.
Lemma hex_digits_map ds l : Forall (fun d => 0 <= d < 16) ds -> group_end l ->
  hex_digits (map hex_char ds ++ l) = (ds, l).
Proof.
  intros Hds Hl. induction Hds as [|d ds Hd Hds IH]; cbn [map app].
  - destruct l as [|c l]; [done|]. cbn [hex_digits]. red in Hl. by rewrite Hl.
  - cbn [hex_digits]. by rewrite hex_char_value, IH.
Qed.
Lemma hex_ds_nonempty x : hex_ds x <> [].
Proof. unfold hex_ds. intros E%(f_equal length). rewrite !length_app in E. cbn [length] in E. lia. Qed.

Definition group_bytes (g : Z) : list Z := [g / 256; g mod 256].
Definition ungroup (gs : list Z) : list Z := concat (map group_bytes gs).
Lemma length_ungroup gs : length (ungroup gs) = (2 * length gs)%nat.
Proof. induction gs as [|g gs IH]; [done|]. cbn. unfold ungroup in IH. rewrite IH. lia. Qed.
Lemma ungroup_app gs gs' : ungroup (gs ++ gs') = ungroup gs ++ ungroup gs'.
Proof. unfold ungroup. by rewrite map_app, concat_app. Qed.
Lemma groups_ind (P : list Z -> Prop) : P [] -> (forall a b l, P l -> P (a :: b :: l)) -> forall l,
  Nat.even (length l) = true -> P l.
Proof.
  intros H0 HS. refine (fix rec l := match l with [] => fun _ => H0 | [a] => _ | a :: b :: l' => fun Hl => HS a b l' (rec l' Hl) end).
  discriminate.
Qed.
Lemma ungroup_groups ip : Nat.even (length ip) = true -> Forall is_byte ip ->
  ungroup (groups ip) = ip /\ Forall is_group (groups ip) /\ (2 * length (groups ip))%nat = length ip.
Proof.
  revert ip. refine (groups_ind _ _ _); [by repeat constructor|]. intros a b l IH (Ha & (Hb & Hl)%Forall_cons)%Forall_cons.
  destruct (IH Hl) as (E & Hg & Hlen). cbn [groups length]. split_and!.
  - unfold ungroup in *. cbn [map concat]. rewrite E. unfold group_bytes, is_byte in *.
    cbn [app]. f_equal; [|f_equal]; Z.to_euclidean_division_equations; lia.
  - constructor; [|done]. unfold is_byte, is_group in *. lia.
  - lia.
Qed.

(** *** The loop over groups *)
Lemma hex_digits_group g l : is_group g -> group_end l -> hex_digits (hex_group g ++ l) = (hex_ds g, l).
Proof. intros Hg Hl. rewrite hex_group_ds. apply hex_digits_map; [by apply hex_ds_ok|done]. Qed.
Lemma loop_step fuel g l ip ell : is_group g -> group_end l -> (length ip < 16)%nat ->
  ipv6_loop (S fuel) (hex_group g ++ l) ip ell =
    match l with
    | [] => Some (ip ++ group_bytes g, ell, [])
    | c :: r' =>
        if is_char 46 c then ipv6_loop (S fuel) (hex_group g ++ l) ip ell
        else if negb (is_char 58 c) then None
        else match r' with
        | [] => None
        | d :: r'' =>
            if is_char 58 d then
              match ell with
              | Some _ => None
              | None => if bool_decide (r'' = []) then Some (ip ++ group_bytes g, Some (length (ip ++ group_bytes g)), [])
                        else ipv6_loop fuel r'' (ip ++ group_bytes g) (Some (length (ip ++ group_bytes g)))
              end
            else ipv6_loop fuel r' (ip ++ group_bytes g) ell
        end
    end.
Proof.
  intros Hg Hl Hip. pose proof (hex_ds_ok g Hg) as (Hds & Hv & Hlen).
  destruct l as [|c l]; [|destruct (is_char 46 c) eqn:Edot; [done|]]; cbn [ipv6_loop];
    rewrite hex_digits_group by done; rewrite (proj2 (Nat.leb_gt 16 (length ip))) by lia;
    rewrite (proj2 (Nat.ltb_ge 4 (length (hex_ds g)))) by lia;
    rewrite (bool_decide_false (hex_ds g = [])) by apply hex_ds_nonempty; cbn [orb]; rewrite Hv; [done|].
  by rewrite Edot.
Qed.

Definition colon2 : list ascii := [ascii_of_N 58; ascii_of_N 58].
Lemma colons_cons g gs : gs <> [] -> colons (g :: gs) = hex_group g ++ ascii_of_N 58 :: colons gs.
Proof. by destruct gs. Qed.
Lemma colons_head gs : gs <> [] -> Forall is_group gs -> exists d l, colons gs = hex_char d :: l /\ 0 <= d < 16.
Proof.
  intros Hgs Hg. destruct gs as [|g gs]; [done|]. apply Forall_cons in Hg as [Hg _].
  destruct (hex_ds_ok g Hg) as (Hds & _ & _). pose proof (hex_ds_nonempty g) as Hne.
  assert (Hh : exists l, colons (g :: gs) = hex_group g ++ l).
  { destruct gs; cbn [colons]; [exists []; by rewrite app_nil_r|by eexists]. }
  destruct Hh as [l ->]. rewrite hex_group_ds. destruct (hex_ds g) as [|d ds]; [done|].
  apply Forall_cons in Hds as [Hd _]. by exists d, (map hex_char ds ++ l).
Qed.
(** What the loop does on printed groups, up to what follows them. *)
Definition loop_end (fuel : nat) (tail : option (list ascii)) (ip : list Z) (ell : option nat) :=
  match tail with
  | None => Some (ip, ell, [])
  | Some t => if bool_decide (t = []) then Some (ip, Some (length ip), []) else ipv6_loop fuel t ip (Some (length ip))
  end.
Definition tail_text (tail : option (list ascii)) : list ascii :=
  match tail with Some t => colon2 ++ t | None => [] end.
Lemma loop_groups gs : gs <> [] -> Forall is_group gs -> forall fuel ip ell tail,
  (length ip + 2 * length gs <= 16)%nat -> (tail <> None -> ell = None) ->
  ipv6_loop (length gs + fuel) (colons gs ++ tail_text tail) ip ell = loop_end fuel tail (ip ++ ungroup gs) ell.
Proof.
  intros Hne Hall. induction Hall as [|g gs Hg Hgs IH]; [done|]. intros fuel ip ell tail Hlen Hell.
  cbn [length Nat.add] in *. destruct (decide (gs = [])) as [->|Hgs'].
  - cbn [colons length Nat.add]. rewrite loop_step; [|done|by destruct tail|lia].
    unfold ungroup. cbn [map concat]. rewrite app_nil_r. destruct tail as [t|]; [|done].
    rewrite (Hell ltac:(done)). done.
  - rewrite colons_cons by done. rewrite <-app_assoc, <-app_comm_cons, loop_step; [|done|done|lia].
    destruct (colons_head gs Hgs' Hgs) as (d & l & Hl & Hd). rewrite Hl, <-app_comm_cons.
    change (is_char 46 (ascii_of_N 58)) with false. change (is_char 58 (ascii_of_N 58)) with true. cbv iota. cbn [negb].
    rewrite (proj1 (proj2 (hex_char_plain d Hd))). rewrite app_comm_cons, <-Hl, IH; [|done| |done].
    + unfold ungroup. cbn [map concat]. by rewrite app_assoc.
    + rewrite length_app. cbn [group_bytes length]. lia.
Qed.

(** *** The run of zero groups *)
Lemma zero_run_spec gs : take (zero_run gs) gs = repeat 0 (zero_run gs) /\ (zero_run gs <= length gs)%nat.
Proof.
  induction gs as [|g gs [IH Hle]]; [done|]. cbn [zero_run]. destruct (g =? 0) eqn:E; [|split; [done|lia]].
  propb. subst g. cbn [take repeat length]. rewrite IH. split; [done|lia].
Qed.
Lemma best_run_spec gs i best : best_run i gs best = best \/
  (i <= (best_run i gs best).1)%nat /\ (2 <= (best_run i gs best).2)%nat /\
  (best_run i gs best).2 = zero_run (drop ((best_run i gs best).1 - i) gs).
Proof.
  revert i best. induction gs as [|g gs IH]; intros i best; [by left|]. cbn [best_run].
  destruct (Nat.leb 2 (zero_run (g :: gs)) && Nat.ltb best.2 (zero_run (g :: gs))) eqn:E.
  - apply andb_true_iff in E as [E _]. apply Nat.leb_le in E. right.
    destruct (IH (S i) (i, zero_run (g :: gs))) as [->|(H1 & H2 & H3)].
    + cbn [fst snd]. rewrite Nat.sub_diag. split_and!; [lia|done|done].
    + split_and!; [lia|done|]. rewrite H3 at 1.
      replace (_ - i)%nat with (S ((best_run (S i) gs (i, zero_run (g :: gs))).1 - S i)) by lia. done.
  - destruct (IH (S i) best) as [->|(H1 & H2 & H3)]; [by left|]. right.
    split_and!; [lia|done|]. rewrite H3 at 1.
    replace (_ - i)%nat with (S ((best_run (S i) gs best).1 - S i)) by lia. done.
Qed.
Lemma ungroup_zeros n : ungroup (repeat 0 n) = repeat 0 (2 * n).
Proof.
  induction n as [|n IH]; [done|]. replace (2 * S n)%nat with (S (S (2 * n))) by lia.
  unfold ungroup in *. cbn [repeat map concat]. rewrite IH. done.
Qed.
Lemma expand_run (a b : list Z) (n : nat) : (length a + n + length b = 16)%nat -> (0 < n)%nat ->
  expand (a ++ b, Some (length a), []) = Some (a ++ repeat 0 n ++ b).
Proof.
  intros Hlen Hn. unfold expand. cbn [negb bool_decide decide_rel]. rewrite bool_decide_true by done. cbn [negb].
  rewrite (proj2 (Nat.ltb_lt (length (a ++ b)) 16)) by (rewrite length_app; lia).
  rewrite take_app_length, drop_app_length. do 3 f_equal. rewrite length_app. f_equal. lia.
Qed.
(** An address whose text starts with a group. *)
Lemma parse_ipv6_group gs l : gs <> [] -> Forall is_group gs -> parse_ipv6 (colons gs ++ l) = ipv6_from (colons gs ++ l) None.
Proof.
  intros Hne Hg. destruct (colons_head gs Hne Hg) as (d & t & -> & Hd). cbn [app].
  unfold parse_ipv6. destruct (t ++ l); [done|]. by rewrite (proj1 (proj2 (hex_char_plain d Hd))).
Qed.
Lemma print_parse_run pre post n : Forall is_group pre -> Forall is_group post -> (2 <= n)%nat ->
  (length pre + n + length post = 8)%nat ->
  parse_ipv6 (colons pre ++ colon2 ++ colons post) = Some (ungroup pre ++ repeat 0 (2 * n) ++ ungroup post).
Proof.
  intros Hpre Hpost Hn Hlen.
  pose proof (length_ungroup pre) as Lpre. pose proof (length_ungroup post) as Lpost.
  destruct (decide (pre = [])) as [->|Hne].
  - cbn [colons colon2 app parse_ipv6]. change (is_char 58 (ascii_of_N 58)) with true. cbn [andb].
    destruct (decide (post = [])) as [->|Hpne].
    + cbn [length] in Hlen. replace n with 8%nat by lia. done.
    + destruct (colons_head post Hpne Hpost) as (d & t & Ht & _). rewrite bool_decide_false by (by rewrite Ht).
      unfold ipv6_from. replace 8%nat with (length post + n)%nat by (cbn [length] in Hlen; lia).
      pose proof (loop_groups post Hpne Hpost n [] (Some 0%nat) None) as HL. cbn [tail_text] in HL.
      rewrite app_nil_r in HL. rewrite HL; [|cbn [length] in *; lia|done]. cbn [loop_end app].
      apply (expand_run [] (ungroup post) (2 * n)); cbn [length] in *; lia.
  - rewrite parse_ipv6_group by done. unfold ipv6_from.
    replace 8%nat with (length pre + (n + length post))%nat by lia.
    pose proof (loop_groups pre Hne Hpre (n + length post) [] None (Some (colons post))) as HL.
    cbn [tail_text] in HL. rewrite HL; [|cbn [length] in *; lia|done]. cbn [loop_end app].
    destruct (decide (post = [])) as [->|Hpne].
    + cbn [colons]. rewrite bool_decide_true by done.
      rewrite <-(app_nil_r (ungroup pre)) at 1. rewrite expand_run with (n := (2 * n)%nat); [done|rewrite ?app_nil_r; cbn [length] in *; lia|lia].
    + destruct (colons_head post Hpne Hpost) as (d & t & Ht & _). rewrite bool_decide_false by (by rewrite Ht).
      replace (n + length post)%nat with (length post + n)%nat by lia.
      pose proof (loop_groups post Hpne Hpost n (ungroup pre) (Some (length (ungroup pre))) None) as HL2.
      cbn [tail_text] in HL2. rewrite app_nil_r in HL2. rewrite HL2; [|lia|done]. cbn [loop_end].
      apply (expand_run (ungroup pre) (ungroup post) (2 * n)); lia.
Qed.

(** *** The round trip *)
Definition v6_char (c : ascii) : Prop := is_char 46 c = false /\ is_char 37 c = false.
Lemma colons_chars gs : Forall is_group gs -> Forall v6_char (colons gs).
Proof.
  assert (Hg1 : forall g, is_group g -> Forall v6_char (hex_group g)).
  { intros g Hg. rewrite hex_group_ds. destruct (hex_ds_ok g Hg) as (Hds & _ & _).
    apply List.Forall_map. eapply Forall_impl; [exact Hds|]. intros d Hd. destruct (hex_char_plain d Hd) as (? & _ & ?). by split. }
  intros Hgs. induction Hgs as [|g gs Hg Hgs IH]; [constructor|].
  destruct gs as [|g' gs']; [by apply Hg1|]. rewrite colons_cons by done.
  apply Forall_app. split; [by apply Hg1|]. by constructor.
Qed.
Lemma addr_form_v6 l : Forall v6_char l -> ascii_of_N 58 ∈ l -> addr_form l = Some false.
Proof.
  induction 1 as [|c l [Hd Hp] Hl IH]; intros Hin; [by apply elem_of_nil in Hin|].
  cbn [addr_form]. rewrite Hd, Hp. destruct (is_char 58 c) eqn:E; [done|].
  apply elem_of_cons in Hin as [<-|Hin]; [by vm_compute in E|auto].
Qed.
Lemma no_percent l : Forall v6_char l -> existsb (is_char 37) l = false.
Proof. induction 1 as [|c l [Hd Hp] Hl IH]; [done|]. cbn [existsb]. by rewrite Hp, IH. Qed.
Lemma print_ipv6_chars ip : Forall is_group (groups ip) -> length (groups ip) = 8%nat ->
  Forall v6_char (print_ipv6 ip) /\ ascii_of_N 58 ∈ print_ipv6 ip.
Proof.
  intros Hg Hlen. unfold print_ipv6. destruct (best_run 0 (groups ip) (0%nat, 0%nat)) as [start n].
  destruct (Nat.eqb n 0).
  - split; [by apply colons_chars|]. destruct (groups ip) as [|g [|g' gs]]; [done|done|].
    rewrite colons_cons by done. apply elem_of_app. right. left.
  - split; [|apply elem_of_app; right; left]. apply Forall_app. split; [apply colons_chars; by apply Forall_take|].
    do 2 (constructor; [done|]). apply colons_chars. by apply Forall_drop.
Qed.
Lemma parse_print_ipv6 ip : ip_ok ip -> parse_ipv6 (print_ipv6 ip) = Some ip.
Proof.
  intros [Hlen Hb]. destruct (ungroup_groups ip) as (Hug & Hg & Hl8); [by rewrite Hlen|done|].
  rewrite Hlen in Hl8. unfold print_ipv6.
  pose proof (best_run_spec (groups ip) 0 (0%nat, 0%nat)) as Hrun.
  destruct (best_run 0 (groups ip) (0%nat, 0%nat)) as [start n]. cbn [fst snd] in Hrun.
  destruct Hrun as [[= -> ->]|(_ & Hn & Hz)].
  - cbn [Nat.eqb]. assert (Hne : groups ip <> []) by (intros E; rewrite E in Hl8; cbn in Hl8; lia).
    rewrite <-(app_nil_r (colons (groups ip))), parse_ipv6_group by done. unfold ipv6_from.
    pose proof (loop_groups (groups ip) Hne Hg 0 [] None None) as HL.
    cbn [tail_text] in HL. replace (length (groups ip) + 0)%nat with 8%nat in HL by lia.
    rewrite HL; [|cbn [length]; lia|done]. cbn [loop_end app]. rewrite Hug. unfold expand.
    rewrite bool_decide_true by done. by rewrite Hlen.
  - rewrite Nat.sub_0_r in Hz. pose proof (zero_run_spec (drop start (groups ip))) as [Htake Hle].
    rewrite <-Hz in Htake, Hle. rewrite length_drop in Hle.
    destruct (Nat.eqb_spec n 0) as [->|_]; [lia|].
    etransitivity; [apply (print_parse_run (take start (groups ip)) (drop (start + n) (groups ip)) n);
      [by apply Forall_take|by apply Forall_drop|done|rewrite length_take, length_drop; lia]|].
    rewrite <-ungroup_zeros, <-Htake, <-!ungroup_app, <-drop_drop, take_drop, take_drop. by rewrite Hug.
Qed.
Lemma addr_form_v4 l1 l2 : Forall (fun c => is_digit c = true) l1 -> addr_form (l1 ++ ascii_of_N 46 :: l2) = Some true.
Proof.
  induction 1 as [|c l Hc Hl IH]; [done|]. cbn [addr_form app].
  unfold is_digit, in_range in Hc. propb. unfold is_char.
  destruct (code c =? 46) eqn:E1; propb; [lia|]. destruct (code c =? 58) eqn:E2; propb; [lia|].
  destruct (code c =? 37) eqn:E3; propb; [lia|done].
Qed.
Lemma dec_byte_digits x : is_byte x -> Forall (fun c => is_digit c = true) (dec_byte x).
Proof. revert x. refine (below 256 _ _). repeat constructor. Qed.
Lemma ParseIP_String ip : ip_ok ip -> ParseIP (IP_String ip) = Some ip.
Proof.
  intros Hok. pose proof Hok as [Hlen Hb]. unfold ParseIP, IP_String. rewrite bytes_of_bytes.
  case_bool_decide as H4.
  - assert (Hrest : exists a b c d, drop 12 ip = [a; b; c; d]).
    { assert (Hl : length (drop 12 ip) = 4%nat) by (rewrite length_drop; lia).
      destruct (drop 12 ip) as [|a [|b [|c [|d [|? ?]]]]]; try done. eauto. }
    destruct Hrest as (a & b & c & d & Hd). rewrite Hd.
    pose proof (Forall_drop is_byte 12 ip Hb) as Hf. rewrite Hd in Hf. rewrite !Forall_cons in Hf.
    destruct Hf as (Ha & Hb' & Hc & Hd' & _). pose proof (parse_dots a b c d Ha Hb' Hc Hd') as Hp.
    assert (Hform : addr_form (dots [a; b; c; d]) = Some true) by (apply addr_form_v4, dec_byte_digits, Ha).
    rewrite Hform, Hp. change (Some (v4_prefix ++ [a; b; c; d]) = Some ip). by rewrite <-H4, <-Hd, take_drop.
  - destruct (ungroup_groups ip) as (_ & Hg & Hl8); [by rewrite Hlen|done|]. rewrite Hlen in Hl8.
    destruct (print_ipv6_chars ip Hg ltac:(lia)) as [Hch Hc].
    rewrite addr_form_v6, no_percent by done. by apply parse_print_ipv6.
Qed.

(** What is parsed is an address. *)
Lemma ipv4_fields_ok l : forall start val k done_ f, ipv4_fields l start val k done_ = Some f ->
  is_byte val -> Forall is_byte done_ -> length f = 4%nat /\ Forall is_byte f.
Proof.
  induction l as [|c l IH]; intros start val k done_ f; cbn [ipv4_fields].
  - case_bool_decide as Hl; [|done]. intros [= <-] Hv Hd. rewrite length_app, Hl. split; [done|].
    apply Forall_app. split; [done|by apply Forall_singleton].
  - destruct (is_digit c) eqn:Ed.
    + destruct (_ && _); [done|]. destruct (255 <? _) eqn:Ev; [done|]. intros Hf Hv Hd.
      refine (IH _ _ _ _ _ Hf _ Hd). unfold is_digit, in_range, is_byte in *. propb. lia.
    + destruct (is_char 46 c); [|done]. destruct (_ || _); [done|]. case_bool_decide; [done|]. intros Hf Hv Hd.
      refine (IH _ _ _ _ _ Hf _ _); [by unfold is_byte|]. apply Forall_app. split; [done|by apply Forall_singleton].
Qed.
Lemma hex_digits_ok l : Forall (fun d => 0 <= d < 16) (hex_digits l).1.
Proof.
  induction l as [|c l IH]; [constructor|]. cbn [hex_digits]. destruct (hex_value c) as [v|] eqn:E; [|constructor].
  destruct (hex_digits l) as [ds r]. constructor; [|exact IH].
  unfold hex_value, is_digit, in_range in E.
  repeat match type of E with context [if ?b then _ else _] => destruct b eqn:? end; simplify_eq; propb; lia.
Qed.
Lemma group_value_range ds : Forall (fun d => 0 <= d < 16) ds -> (length ds <= 4)%nat -> is_group (group_value ds).
Proof.
  intros Hds Hl. unfold group_value, is_group.
  destruct Hds as [|a ? Ha [|b ? Hb [|c ? Hc [|d ? Hd [|e ? He Hr]]]]]; cbn [fold_left length] in *; lia.
Qed.
Lemma group_bytes_ok g : is_group g -> Forall is_byte (group_bytes g).
Proof.
  unfold is_group, group_bytes, is_byte. intros Hg. repeat constructor; Z.to_euclidean_division_equations; lia.
Qed.
Definition loop_ok (r : list Z * option nat * list ascii) : Prop :=
  (length r.1.1 <= 16)%nat /\ Forall is_byte r.1.1 /\ match r.1.2 with Some e => (e <= length r.1.1)%nat | None => True end.
Lemma ipv6_loop_ok fuel : forall s ip ell r, ipv6_loop fuel s ip ell = Some r ->
  Nat.even (length ip) = true -> loop_ok (ip, ell, s) -> loop_ok r.
Proof.
  induction fuel as [|fuel IH]; intros s ip ell r; cbn [ipv6_loop]; [by intros [= <-]|].
  destruct (Nat.leb_spec 16 (length ip)) as [H16|H16]; [by intros [= <-]|].
  pose proof (hex_digits_ok s) as Hds. destruct (hex_digits s) as [ds rest]. cbn [fst] in Hds.
  destruct (Nat.ltb_spec 4 (length ds)) as [|Hd4]; [done|]. cbn [orb]. case_bool_decide as Hne; [done|].
  pose proof (group_bytes_ok _ (group_value_range ds Hds Hd4)) as Hgb.
  intros Hr Hev (Hl & Hb & He). cbn [fst snd] in Hl, Hb, He.
  set (ip' := ip ++ [group_value ds / 256; group_value ds mod 256]) in *.
  assert (Hlen' : length ip' = S (S (length ip))) by (unfold ip'; rewrite length_app; cbn [length]; lia).
  assert (Hev' : Nat.even (length ip') = true) by by rewrite Hlen'.
  assert (H15 : length ip <> 15%nat) by (intros E; by rewrite E in Hev).
  assert (Hb' : Forall is_byte ip') by (by apply Forall_app).
  assert (Hok' : loop_ok (ip', ell, [])).
  { split_and!; cbn [fst snd]; [lia|done|]. destruct ell; [lia|done]. }
  destruct rest as [|c rest]; [by simplify_eq|]. destruct (is_char 46 c).
  - destruct (_ && _); [done|]. destruct (Nat.ltb_spec 16 (length ip + 4)); [done|].
    destruct (parse_ipv4 s) as [f|] eqn:Ef; [|done]. simplify_eq.
    destruct (ipv4_fields_ok _ _ _ _ _ _ Ef) as [Hf4 Hfb]; [unfold is_byte; lia|constructor|].
    split_and!; cbn [fst snd]; [rewrite length_app; lia|by apply Forall_app|].
    destruct ell; [rewrite length_app; lia|done].
  - destruct (negb _); [done|]. destruct rest as [|d rest]; [done|]. destruct (is_char 58 d).
    + destruct ell; [done|]. case_bool_decide; [simplify_eq; split_and!; cbn [fst snd]; [lia|done|lia]|].
      refine (IH _ _ _ _ Hr Hev' _). split_and!; cbn [fst snd]; [lia|done|lia].
    + exact (IH _ _ _ _ Hr Hev' Hok').
Qed.
Lemma ipv6_from_ok s ell ip : (match ell with Some e => e = 0%nat | None => True end) -> ipv6_from s ell = Some ip -> ip_ok ip.
Proof.
  intros He. unfold ipv6_from. destruct (ipv6_loop 8 s [] ell) as [[[b e] t]|] eqn:El; [|done].
  assert (Hok : loop_ok (b, e, t)).
  { refine (ipv6_loop_ok _ _ _ _ _ El eq_refl _). split_and!; cbn [fst snd]; [cbn; lia|constructor|]. destruct ell; [cbn; lia|done]. }
  destruct Hok as (Hl & Hb & Hle). cbn [fst snd] in *. unfold expand. destruct (negb _); [done|].
  destruct (Nat.ltb_spec (length b) 16) as [Hlt|Hge].
  - destruct e as [e|]; [|done]. intros [= <-]. split.
    + rewrite !length_app, length_take, repeat_length, length_drop. lia.
    + rewrite !Forall_app. split_and!; [by apply Forall_take| |by apply Forall_drop].
      apply Forall_forall. intros x Hx%list_elem_of_In%repeat_spec. subst x. unfold is_byte. lia.
  - destruct e; [done|]. intros [= <-]. split; [lia|done].
Qed.
Lemma ParseIP_ok s ip : ParseIP s = Some ip -> ip_ok ip.
Proof.
  unfold ParseIP. destruct (addr_form (bytes s)) as [[]|]; [| |done].
  - destruct (parse_ipv4 (bytes s)) as [f|] eqn:E; [|done]. intros Hf. injection Hf as <-.
    destruct (ipv4_fields_ok _ _ _ _ _ _ E) as [Hl Hb]; [unfold is_byte; lia|constructor|].
    split; [change (length (v4_prefix ++ f) = 16%nat); by rewrite length_app, Hl|].
    change (Forall is_byte (v4_prefix ++ f)). apply Forall_app. split; [|done]. repeat constructor; unfold is_byte; lia.
  - destruct (existsb _ _); [done|]. unfold parse_ipv6.
    assert (H16 : ip_ok (repeat 0 16)) by (split; [done|]; repeat constructor; unfold is_byte; lia).
    destruct (bytes s) as [|c [|d l]]; [by apply ipv6_from_ok|by apply ipv6_from_ok|].
    destruct (_ && _); [|by apply ipv6_from_ok]. case_bool_decide; [by intros [= <-]|by apply ipv6_from_ok].
Qed.
(** The text an address is stored as names the same address, in the form it
    is stored in. *)
Lemma canonical_ip s ip : ParseIP s = Some ip -> ParseIP (IP_String ip) = Some ip.
Proof. intros H. by eapply ParseIP_String, ParseIP_ok. Qed.
