(* ===== verification/NodeToken.v ===== *)
(** * Node bearer tokens ([internal/auth/nodetoken.go])

    The token an agent presents and the hash the server keeps of it, with the
    standard library's base64, hexadecimal and SHA-256 written out. *)
From stdpp Require Import base list strings.
From Stdlib Require Import ZArith Lia.
From Stdlib Require Import Ascii.
From Stdlib Require String.
From S2P Require Import Prelude Text Json Db.
Local Open Scope string_scope.
Local Open Scope list_scope.
Local Open Scope Z_scope.

(** ** [encoding/base64]'s RawURLEncoding and [encoding/hex] *)
Definition char_of (n : Z) : ascii := ascii_of_N (Z.to_N n).
Definition base64_char (n : Z) : ascii :=
  if n <? 26 then char_of (65 + n) else if n <? 52 then char_of (71 + n)
  else if n <? 62 then char_of (n - 4) else if n =? 62 then char_of 45 else char_of 95.
Fixpoint base64_raw (bs : list Z) : list ascii :=
  match bs with
  | a :: b :: c :: bs' =>
      let v := a * 65536 + b * 256 + c in
      base64_char (v / 262144) :: base64_char (v / 4096 mod 64) :: base64_char (v / 64 mod 64)
        :: base64_char (v mod 64) :: base64_raw bs'
  | [a; b] =>
      let v := a * 65536 + b * 256 in
      [base64_char (v / 262144); base64_char (v / 4096 mod 64); base64_char (v / 64 mod 64)]
  | [a] => let v := a * 65536 in [base64_char (v / 262144); base64_char (v / 4096 mod 64)]
  | [] => []
  end.
Definition nibble (n : Z) : ascii := if n <? 10 then char_of (48 + n) else char_of (87 + n).
Definition hex_encode (bs : list Z) : list ascii := concat (map (fun b => [nibble (b / 16); nibble (b mod 16)]) bs).

(** ** [crypto/sha256]

    On 32-bit words, every sum taken modulo 2^32. *)
Module SHA256.
Definition w32 (n : Z) : Z := n mod 4294967296.
Definition rotr (n x : Z) : Z := Z.lor (Z.shiftr x n) (w32 (Z.shiftl x (32 - n))).
Definition xor3 (a b c : Z) : Z := Z.lxor (Z.lxor a b) c.
(** The constants: the first 32 bits of the fractional parts of the cube roots
    (square roots) of the first 64 (8) primes. *)
Fixpoint cube_root (bits : nat) (n r : Z) : Z :=
  match bits with
  | O => r
  | S b => let r' := r + Z.shiftl 1 (Z.of_nat b) in cube_root b n (if r' * r' * r' <=? n then r' else r)
  end.
Definition primes (below : nat) : list Z :=
  List.filter (fun p => forallb (fun d => negb (p mod d =? 0)) (map Z.of_nat (seq 2 (Z.to_nat p - 2)))) (map Z.of_nat (seq 2 (below - 2))).
Definition K : list Z := Eval vm_compute in map (fun p => w32 (cube_root 36 (Z.shiftl p 96) 0)) (primes 312).
Definition init : list Z := Eval vm_compute in map (fun p => w32 (Z.sqrt (Z.shiftl p 64))) (primes 20).

Definition be_bytes (n : nat) (x : Z) : list Z :=
  map (fun i => Z.shiftr x (8 * Z.of_nat (n - 1 - i)) mod 256) (seq 0 n).
(** The message, a one bit, zeros, and its length in bits. *)
Definition pad (m : list Z) : list Z :=
  let l := length m in
  m ++ 128 :: repeat 0 (Z.to_nat ((55 - Z.of_nat l) mod 64)) ++ be_bytes 8 (8 * Z.of_nat l).
Fixpoint words (m : list Z) : list Z :=
  match m with
  | a :: b :: c :: d :: m' => (a * 16777216 + b * 65536 + c * 256 + d) :: words m'
  | _ => []
  end.
Fixpoint blocks (fuel : nat) (ws : list Z) : list (list Z) :=
  match fuel, ws with
  | S f, _ :: _ => take 16 ws :: blocks f (drop 16 ws)
  | _, _ => []
  end.
(** The message schedule, kept with its newest word first. *)
Fixpoint schedule (n : nat) (ws : list Z) : list Z :=
  match n with
  | O => rev ws
  | S n' =>
      let w i := nth i ws 0 in
      let s0 := xor3 (rotr 7 (w 14%nat)) (rotr 18 (w 14%nat)) (Z.shiftr (w 14%nat) 3) in
      let s1 := xor3 (rotr 17 (w 1%nat)) (rotr 19 (w 1%nat)) (Z.shiftr (w 1%nat) 10) in
      schedule n' (w32 (w 15%nat + s0 + w 6%nat + s1) :: ws)
  end.
Definition round (st : list Z) (kw : Z * Z) : list Z :=
  match st with
  | [a; b; c; d; e; f; g; h] =>
      let s1 := xor3 (rotr 6 e) (rotr 11 e) (rotr 25 e) in
      let ch := Z.lxor (Z.land e f) (Z.land (Z.lxor e 4294967295) g) in
      let t1 := w32 (h + s1 + ch + kw.1 + kw.2) in
      let s0 := xor3 (rotr 2 a) (rotr 13 a) (rotr 22 a) in
      let maj := xor3 (Z.land a b) (Z.land a c) (Z.land b c) in
      [w32 (t1 + w32 (s0 + maj)); a; b; c; w32 (d + t1); e; f; g]
  | _ => st
  end.
Definition block (st ws : list Z) : list Z :=
  zip_with (fun x y => w32 (x + y)) st (fold_left round (zip K (schedule 48 (rev ws))) st).
Definition Sum256 (m : list Z) : list Z :=
  let ws := words (pad m) in
  concat (map (be_bytes 4) (fold_left block (blocks (length ws) ws) init)).
End SHA256.

Definition byte_codes (s : string) : list Z := map code (bytes s).

(** ** [nodetoken.go] *)
Definition nodeTokenPrefix : string := "spk_".
Definition nodeTokenRandomBytes : nat := 32.
Definition HashNodeToken (token : string) : string := of_bytes (hex_encode (SHA256.Sum256 (byte_codes token))).
(** [subtle.ConstantTimeCompare] of the bytes of two strings. *)
Definition VerifyNodeToken (token hash : string) : bool := bool_decide (bytes (HashNodeToken token) = bytes hash).

(** What [crypto/rand] reads, as a function of the number of external calls
    made so far. *)
Class RandomSource := random_bytes : N -> nat -> list Z.
Section Generate.
Context `{Env} `{RandomSource}.
Definition GenerateNodeToken : M string :=
  buf ← wrap "generate node token: " (query (fun w => random_bytes (w_calls w) nodeTokenRandomBytes));
  mret (nodeTokenPrefix +:+ of_bytes (base64_raw buf)).
End Generate.

Example sha256_abc :
  HashNodeToken "abc" = "ba7816bf8f01cfea414140de5dae2223b00361a396177a9cb410ff61f20015ad".
Proof. vm_compute. reflexivity. Qed.
Example sha256_two_blocks :
  HashNodeToken "abcdbcdecdefdefgefghfghighijhijkijkljklmklmnlmnomnopnopq"
  = "248d6a61d20638b8e5c026930c3e6039a33ce45964ff2167f6ecedd419db06c1".
Proof. vm_compute. reflexivity. Qed.
Example base64_vector : of_bytes (base64_raw [255; 239; 190; 1; 251]) = "_---Afs".
Proof. vm_compute. reflexivity. Qed.

Lemma VerifyNodeToken_iff token hash : VerifyNodeToken token hash = true <-> HashNodeToken token = hash.
Proof.
  unfold VerifyNodeToken. rewrite bool_decide_eq_true. split; [|by intros ->].
  intros Hb%(f_equal of_bytes). by rewrite !of_bytes_bytes in Hb.
Qed.
