(* ===== verification/Calendar.v ===== *)
(** * The calendar of the [time] package

    Dates of the proleptic Gregorian calendar as day numbers, and back. *)
From stdpp Require Import base list.
From Stdlib Require Import ZArith Lia.
From S2P Require Import Prelude.
Local Open Scope Z_scope.

(** Days from 0001-01-01 to the given date; the day may be any integer and
    rolls over, as [time.Date]'s does. *)
Definition day_number (y m d : Z) : Z :=
  let y' := if m <=? 2 then y - 1 else y in
  let era := y' / 400 in
  let yoe := y' mod 400 in
  let doy := (153 * ((m + 9) mod 12) + 2) / 5 in
  era * 146097 + (yoe * 365 + yoe / 4 - yoe / 100 + doy) - 306 + (d - 1).

(** The year, month and day within one 400-year era, by day of era. *)
Definition civil_in_era (doe : Z) : Z * Z * Z :=
  let yoe := (doe - doe / 1460 + doe / 36524 - doe / 146096) / 365 in
  let doy := doe - (365 * yoe + yoe / 4 - yoe / 100) in
  let mp := (5 * doy + 2) / 153 in
  let m := if mp <? 10 then mp + 3 else mp - 9 in
  (if m <=? 2 then yoe + 1 else yoe, m, doy - (153 * mp + 2) / 5 + 1).
Definition civil (n : Z) : Z * Z * Z :=
  let z := n + 306 in
  let '(y, m, d) := civil_in_era (z mod 146097) in (y + 400 * (z / 146097), m, d).

(** [time.Weekday] of a day number: 0001-01-01 was a Monday. *)
Definition Weekday (n : Z) : Z := (n + 1) mod 7.

(** Linear arithmetic with [/] and [mod] by constants. *)
Ltac zdiv := Z.to_euclidean_division_equations; lia.

Fixpoint all_from (fuel : nat) (k : Z) (p : Z -> bool) : bool :=
  match fuel with O => true | S f => p k && all_from f (Z.succ k) p end.
Lemma all_from_spec fuel k p i : all_from fuel k p = true -> k <= i < k + Z.of_nat fuel -> p i = true.
Proof.
  revert k. induction fuel as [|f IH]; intros k; [lia|]. cbn [all_from].
  intros [H1 H2]%andb_true_iff Hi. destruct (decide (k = i)) as [->|]; [done|].
  apply (IH (Z.succ k)); [done|lia].
Qed.

(** The first day of a year of the era, and the year of a day. *)
Definition year_start (yoe : Z) : Z := 365 * yoe + yoe / 4 - yoe / 100.
Definition year_of (doe : Z) : Z := (doe - doe / 1460 + doe / 36524 - doe / 146096) / 365.

Lemma year_of_step doe : 0 <= doe < 146096 -> year_of doe <= year_of (Z.succ doe).
Proof. intros H. unfold year_of. apply Z.div_le_mono; [done|]. zdiv. Qed.
Lemma year_of_mono d e : 0 <= d <= e -> e < 146097 -> year_of d <= year_of e.
Proof.
  intros [Hd Hle]. revert Hle. apply (Z.right_induction (fun e => e < 146097 -> year_of d <= year_of e));
    [by intros ? ? ->|done|].
  intros k Hk IH Hlt. etransitivity; [apply IH; lia|apply year_of_step; lia].
Qed.
(** Each year's first and last day are days of that year. *)
Definition year_check (y : Z) : bool :=
  (year_of (year_start y) =? y) && (year_of (Z.min 146096 (year_start (y + 1) - 1)) =? y) &&
  (0 <=? year_start y) && (year_start y <=? 146096) && (year_start (y + 1) - year_start y <=? 366).
Lemma year_check_all : all_from 400 0 year_check = true.
Proof. vm_compute. reflexivity. Qed.

(** The day of the year, counted from the first of March. *)
Lemma year_of_spec doe : 0 <= doe < 146097 ->
  0 <= year_of doe < 400 /\ 0 <= doe - year_start (year_of doe) <= 366.
Proof.
  intros Hd. assert (Hy : 0 <= year_of doe < 400).
  { pose proof (year_of_mono 0 doe ltac:(lia) ltac:(lia)) as H0.
    pose proof (year_of_mono doe 146096 ltac:(lia) ltac:(lia)) as H1.
    change (year_of 0) with 0 in H0. change (year_of 146096) with 399 in H1. lia. }
  split; [done|]. pose proof (all_from_spec _ _ _ (year_of doe) year_check_all ltac:(lia)) as Hc.
  unfold year_check in Hc. propb.
  split.
  - destruct (decide (year_start (year_of doe) <= doe)) as [|Hlt]; [lia|]. exfalso.
    assert (0 < year_of doe) by (destruct (decide (year_of doe = 0)) as [E|]; [|lia]; rewrite E in Hlt; change (year_start 0) with 0 in Hlt; lia).
    pose proof (all_from_spec _ _ _ (year_of doe - 1) year_check_all ltac:(lia)) as Hc'.
    unfold year_check in Hc'. propb. replace (year_of doe - 1 + 1) with (year_of doe) in * by lia.
    pose proof (year_of_mono doe (Z.min 146096 (year_start (year_of doe) - 1)) ltac:(lia) ltac:(lia)). lia.
  - destruct (decide (year_of doe = 399)) as [E|]; [rewrite E; change (year_start 399) with 145731; lia|].
    destruct (decide (doe < year_start (year_of doe + 1))) as [|Hge]; [lia|]. exfalso.
    pose proof (all_from_spec _ _ _ (year_of doe + 1) year_check_all ltac:(lia)) as Hc'.
    unfold year_check in Hc'. propb.
    pose proof (year_of_mono (year_start (year_of doe + 1)) doe ltac:(lia) ltac:(lia)). lia.
Qed.

Lemma civil_in_era_spec doe : 0 <= doe < 146097 ->
  let '(y, m, d) := civil_in_era doe in day_number y m d + 306 = doe.
Proof.
  intros Hd. destruct (year_of_spec doe Hd) as [Hy Hdoy]. unfold civil_in_era. fold (year_of doe).
  unfold year_start in Hdoy. set (yoe := year_of doe) in *.
  set (doy := doe - (365 * yoe + yoe / 4 - yoe / 100)) in *.
  assert (Hmp : 0 <= (5 * doy + 2) / 153 <= 11) by zdiv.
  set (mp := (5 * doy + 2) / 153) in *. cbv zeta. unfold day_number.
  set (m := if mp <? 10 then mp + 3 else mp - 9).
  assert (Hm : (m + 9) mod 12 = mp) by (unfold m; destruct (Z.ltb_spec mp 10); zdiv).
  rewrite Hm. replace (if m <=? 2 then (if m <=? 2 then yoe + 1 else yoe) - 1
    else if m <=? 2 then yoe + 1 else yoe) with yoe by (destruct (m <=? 2); lia).
  rewrite (Z.div_small yoe 400), (Z.mod_small yoe 400) by lia. unfold doy. lia.
Qed.

Lemma day_number_shift_era y m d k : day_number (y + 400 * k) m d = day_number y m d + 146097 * k.
Proof.
  unfold day_number.
  replace (if m <=? 2 then y + 400 * k - 1 else y + 400 * k)
    with ((if m <=? 2 then y - 1 else y) + k * 400) by (destruct (m <=? 2); lia).
  rewrite Z.div_add, Z.mod_add by lia. lia.
Qed.
Lemma day_number_add y m d k : day_number y m (d + k) = day_number y m d + k.
Proof. unfold day_number. lia. Qed.

(** Splitting a day number into a date and putting the date together again. *)
Lemma day_number_civil n : let '(y, m, d) := civil n in day_number y m d = n.
Proof.
  unfold civil. pose proof (Z.mod_pos_bound (n + 306) 146097 ltac:(lia)) as Hb.
  pose proof (civil_in_era_spec ((n + 306) mod 146097) Hb) as Hc.
  destruct (civil_in_era ((n + 306) mod 146097)) as [[y m] d].
  rewrite day_number_shift_era. pose proof (Z.div_mod (n + 306) 146097 ltac:(lia)). lia.
Qed.
