(* ===== verification/GoTime.v ===== *)
(** * The [time] package as [internal/schedule] uses it

    Zones ([time.Location]
    as the lookup function of its transitions), [time.Date], [In], [Hour],
    [Truncate], [Sub].  Local readings are seconds since 0001-01-01T00:00:00 on
    the zone's clock.  [LocationLaws] is what the theorems ask of a zone;
    [zone_laws] discharges it for every table of well-spaced transitions. *)
From stdpp Require Import base list strings.
From Stdlib Require Import ZArith Lia.
From Stdlib Require String.
From S2P Require Import Prelude Db Text Calendar.
Local Open Scope list_scope.
Local Open Scope Z_scope.

Definition second : Z := 1000000000.
Definition minute : Z := 60 * second.
Definition hour : Z := 3600 * second.

(** ** Zones *)

(** [Location.lookup]: the offset in force at an instant (seconds since year
    1, UTC) and the interval it is in force for; [None] is unbounded. *)
Record Location := MkLocation { LocName : string; lookup : Z -> Z * option Z * option Z }.

Definition offset_at (loc : Location) (s : Z) : Z := fst (fst (lookup loc s)).
(** Whether [u] lies in the interval that [lookup s] reports. *)
Definition in_zone (loc : Location) (s u : Z) : bool :=
  let '(_, st, en) := lookup loc s in
  (match st with Some x => x <=? u | None => true end) && (match en with Some x => u <? x | None => true end).

(** A zone given by its first offset and its transitions, in time order. *)
Fixpoint zone_lookup (off : Z) (start : option Z) (tx : list (Z * Z)) (s : Z) : Z * option Z * option Z :=
  match tx with
  | [] => (off, start, None)
  | (T, o) :: tx' => if s <? T then (off, start, Some T) else zone_lookup o (Some T) tx' s
  end.
Definition zone (name : string) (off : Z) (tx : list (Z * Z)) : Location :=
  MkLocation name (zone_lookup off None tx).
Definition UTC : Location := zone "UTC" 0 [].

(** ** Instants *)
Definition secs (t : Time) : Z := t / second.
(** The reading of [loc]'s clock at [t]: [t.In(loc)]. *)
Definition reading (loc : Location) (t : Time) : Z := secs t + offset_at loc (secs t).
(** [t.In(loc).Date()], [.Hour()], [.Minute()], [.Second()]. *)
Definition DateOf (loc : Location) (t : Time) : Z * Z * Z := civil (reading loc t / 86400).
Definition HourOf (loc : Location) (t : Time) : Z := reading loc t mod 86400 / 3600.
Definition MinuteOf (loc : Location) (t : Time) : Z := reading loc t mod 3600 / 60.
Definition SecondOf (loc : Location) (t : Time) : Z := reading loc t mod 60.

(** The reading a date and a time of day stand for. *)
Definition wall (y m d h mi s : Z) : Z := day_number y m d * 86400 + h * 3600 + mi * 60 + s.

(** [time.Date]'s choice of offset: look the reading up as if it were UTC,
    keep that offset if it holds at the instant it leads to, else look that
    instant up. *)
Definition resolve (loc : Location) (w : Z) : Z :=
  let o := offset_at loc w in
  if o =? 0 then w
  else let utc := w - o in
       if negb (in_zone loc w utc) then w - offset_at loc utc else utc.
Definition Date (y m d h mi s : Z) (loc : Location) : Time := resolve loc (wall y m d h mi s) * second.

(** [t.Truncate(d)]: down to a multiple of [d] since the zero time. *)
Definition Truncate (t : Time) (d : Z) : Time := t - t mod d.
(** [t.Sub(u)]: saturates at the ends of an int64 of nanoseconds. *)
Definition Sub (t u : Time) : Z := Z.max (- 2 ^ 63) (Z.min (2 ^ 63 - 1) (t - u)).

Lemma Date_UTC y m d h mi s : Date y m d h mi s UTC = wall y m d h mi s * second.
Proof. reflexivity. Qed.

(** ** What the theorems ask of a zone

    At all times, which real zones keep only for a while: [RegularZone] of
    ScheduleZone.v asks for it over a span, and the zone that goes on as it is
    at the ends of the span keeps it at all times.

    Around any instant there is at most one change of offset, at a whole
    minute and of at most three hours, and the date never goes back; all offsets lie within twelve hours of
    each other and within a day of UTC. *)
Definition window : Z := 5 * 86400.
Class LocationLaws (loc : Location) (base : Z) : Prop := {
  loc_base : -86400 <= base <= 43200;
  loc_offsets : forall s, base <= offset_at loc s <= base + 43200;
  loc_window : forall x, exists T a b,
    T mod 60 = 0 /\ Z.abs (b - a) <= 10800 /\ (T + a - 1) / 86400 <= (T + b) / 86400 /\
    (forall s, x - window <= s <= x + window -> offset_at loc s = if s <? T then a else b) /\
    (forall s u, x - window <= s <= x + window -> x - window <= u <= x + window ->
       in_zone loc s u = eqb (s <? T) (u <? T))
}.

(** Transitions at whole minutes, more than ten days apart, of at most three
    hours, between offsets in range. *)
Fixpoint well_spaced (base off : Z) (tx : list (Z * Z)) : bool :=
  (base <=? off) && (off <=? base + 43200) &&
  match tx with
  | [] => true
  | (T, o) :: tx' =>
      (T mod 60 =? 0) && (Z.abs (o - off) <=? 10800) &&
      ((T + off - 1) / 86400 <=? (T + o) / 86400) &&
      match tx' with (T2, _) :: _ => T + 2 * window <? T2 | [] => true end &&
      well_spaced base o tx'
  end.

Definition zone_in (off : Z) (start : option Z) (tx : list (Z * Z)) (s u : Z) : bool :=
  let '(_, st, en) := zone_lookup off start tx s in
  (match st with Some x => x <=? u | None => true end) && (match en with Some x => u <? x | None => true end).

Lemma zone_offsets base off start tx s : well_spaced base off tx = true ->
  base <= (zone_lookup off start tx s).1.1 <= base + 43200.
Proof.
  revert off start. induction tx as [|[T o] tx IH]; intros off start; simpl.
  - intros H. propb. lia.
  - intros H. propb. destruct (s <? T); simpl; [lia|by apply IH].
Qed.

(** No transition in the window: a constant offset, and a stand-in transition
    past the window's end. *)
Lemma zone_constant (P : Z -> Z * option Z * option Z) x off st en :
  (forall s, x - window <= s <= x + window -> P s = (off, st, en)) ->
  match st with Some y => y <= x - window | None => True end ->
  match en with Some y => x + window < y | None => True end ->
  exists T a b, T mod 60 = 0 /\ Z.abs (b - a) <= 10800 /\ (T + a - 1) / 86400 <= (T + b) / 86400 /\
    (forall s, x - window <= s <= x + window -> (P s).1.1 = if s <? T then a else b) /\
    (forall s u, x - window <= s <= x + window -> x - window <= u <= x + window ->
       (let '(_, st, en) := P s in
        (match st with Some x => x <=? u | None => true end) && (match en with Some x => u <? x | None => true end))
       = eqb (s <? T) (u <? T)).
Proof.
  intros HP Hst Hen. exists (60 * ((x + window) / 60 + 1)), off, off.
  pose proof (Z.div_mod (x + window) 60 ltac:(lia)). pose proof (Z.mod_pos_bound (x + window) 60 ltac:(lia)).
  assert (Hlt : forall s, s <= x + window -> (s <? 60 * ((x + window) / 60 + 1)) = true)
    by (intros; apply Z.ltb_lt; lia).
  split_and!; [rewrite Z.mul_comm; apply Z_mod_mult|lia|apply Z.div_le_mono; lia| |].
  - intros s Hs. rewrite HP by done. by destruct (s <? _).
  - intros s u Hs Hu. rewrite (HP s Hs), !Hlt by lia. simpl. apply andb_true_iff. split.
    + destruct st; [apply Z.leb_le; lia|done].
    + destruct en; [apply Z.ltb_lt; lia|done].
Qed.

Lemma zone_window base off start tx x :
  well_spaced base off tx = true ->
  match start with Some y => y <= x - window | None => True end ->
  exists T a b, T mod 60 = 0 /\ Z.abs (b - a) <= 10800 /\ (T + a - 1) / 86400 <= (T + b) / 86400 /\
    (forall s, x - window <= s <= x + window -> (zone_lookup off start tx s).1.1 = if s <? T then a else b) /\
    (forall s u, x - window <= s <= x + window -> x - window <= u <= x + window ->
       zone_in off start tx s u = eqb (s <? T) (u <? T)).
Proof.
  revert off start. induction tx as [|[T o] tx IH]; intros off start Hw Hst.
  - by apply (zone_constant (zone_lookup off start []) x off start None).
  - cbn [well_spaced] in Hw. propb.
    destruct (decide (x + window < T)) as [Hlate|].
    { apply (zone_constant (zone_lookup off start ((T, o) :: tx)) x off start (Some T)); [|done|done].
      intros s Hs. simpl. by rewrite (proj2 (Z.ltb_lt s T)) by lia. }
    destruct (decide (T <= x - window)) as [Hearly|].
    { destruct (IH o (Some T)) as (T' & a & b & H1' & H2' & H0' & H3' & H4'); [done|done|].
      exists T', a, b. split_and!; try done.
      - intros s Hs. simpl. rewrite (proj2 (Z.ltb_ge s T)) by lia. by apply H3'.
      - intros s u Hs Hu. rewrite <-H4' by done. unfold zone_in. simpl.
        by rewrite (proj2 (Z.ltb_ge s T)) by lia. }
    assert (Hnext : forall s, T <= s <= x + window -> exists en, zone_lookup o (Some T) tx s = (o, Some T, en) /\
              match en with Some y => x + window < y | None => True end).
    { intros s Hs. destruct tx as [|[T2 o2] tx2]; cbn [zone_lookup well_spaced] in *; [by eexists|]. propb.
      rewrite (proj2 (Z.ltb_lt s T2)) by lia. eexists. split; [done|]. cbn. lia. }
    exists T, off, o. split_and!; try done.
    + intros s Hs. simpl. destruct (s <? T) eqn:E; [done|]. propb.
      by destruct (Hnext s) as (en & -> & _); [lia|].
    + intros s u Hs Hu. unfold zone_in. simpl. destruct (s <? T) eqn:E; simpl.
      * destruct (u <? T); destruct start; simpl; rewrite ?andb_true_r, ?andb_false_r; try done.
        apply Z.leb_le. lia.
      * propb. destruct (Hnext s) as (en & -> & Hen); [lia|].
        rewrite Z.leb_antisym. destruct (u <? T); [done|]. simpl.
        destruct en; [|done]. apply Z.ltb_lt. lia.
Qed.

(** Every table of well-spaced transitions is a zone the theorems hold for. *)
Lemma zone_laws name base off tx :
  -86400 <= base <= 43200 -> well_spaced base off tx = true -> LocationLaws (zone name off tx) base.
Proof.
  intros Hb Hw. constructor; [done| |].
  - intros s. by apply zone_offsets.
  - intros x. by apply (zone_window base).
Qed.

(** ** Reading the clock and setting it *)

(** What [loc_window] gives for the window around [x]. *)
Definition around (loc : Location) (base x T a b : Z) : Prop :=
  T mod 60 = 0 /\ Z.abs (b - a) <= 10800 /\ (T + a - 1) / 86400 <= (T + b) / 86400 /\
  (forall s, x - window <= s <= x + window -> offset_at loc s = if s <? T then a else b) /\
  (forall s u, x - window <= s <= x + window -> x - window <= u <= x + window ->
     in_zone loc s u = eqb (s <? T) (u <? T)) /\
  -86400 <= base <= 43200 /\ base <= a <= base + 43200 /\ base <= b <= base + 43200.

(** The instant a reading stands for around one change of offset: the first
    instant after it for a reading that is skipped, and for one that occurs
    twice the one [time.Date] picks. *)
Definition pick (T a b w : Z) : Z :=
  if (w - a <? T) && ((w - b <? T) || (w <? T)) then w - a
  else if T <=? w - b then w - b else T.

Ltac zcases :=
  repeat match goal with
  | |- context [?x <? ?y] => destruct (Z.ltb_spec x y)
  | |- context [?x <=? ?y] => destruct (Z.leb_spec x y)
  | |- context [?x =? ?y] => destruct (Z.eqb_spec x y)
  end; cbn [andb orb negb eqb] in *.

Section Zone.
Context (loc : Location) (base : Z) `{!LocationLaws loc base}.

Lemma around_ex x : exists T a b, around loc base x T a b.
Proof using LocationLaws0.
  destruct (loc_window x) as (T & a & b & H1 & H2 & H3 & H4 & H5).
  pose proof loc_base as Hb.
  pose proof (loc_offsets (Z.min T (x - window))) as Hlo.
  (* the offsets that are used are offsets of the zone; the others are free *)
  destruct (decide (x - window < T)) as [HT1|HT1]; destruct (decide (T <= x + window)) as [HT2|HT2].
  - exists T, a, b. unfold around. split_and!; try done; try lia.
    1,2: pose proof (loc_offsets (x - window)) as Ho; rewrite H4 in Ho by (unfold window in *; lia);
      rewrite (proj2 (Z.ltb_lt _ _)) in Ho by lia; lia.
    1,2: pose proof (loc_offsets T) as Ho; rewrite H4 in Ho by lia;
      rewrite (proj2 (Z.ltb_ge _ _)) in Ho by lia; lia.
  - exists T, a, a. pose proof (loc_offsets x) as Ho. rewrite H4 in Ho by (unfold window; lia).
    rewrite (proj2 (Z.ltb_lt _ _)) in Ho by (unfold window in *; lia).
    unfold around. split_and!; try done; try lia; [apply Z.div_le_mono; lia|].
    intros s Hs. rewrite H4 by done. zcases; lia.
  - exists T, b, b. pose proof (loc_offsets x) as Ho. rewrite H4 in Ho by (unfold window; lia).
    rewrite (proj2 (Z.ltb_ge _ _)) in Ho by (unfold window in *; lia).
    unfold around. split_and!; try done; try lia; [apply Z.div_le_mono; lia|].
    intros s Hs. rewrite H4 by done. zcases; lia.
  - unfold window in *; lia.
Qed.

(** [time.Date]: the instant whose reading is [w], or one of the two
    candidates when there is none. *)
Lemma resolve_cases x T a b w : around loc base x T a b -> Z.abs (w - x) <= 172800 ->
  (resolve loc w = pick T a b w /\ (w - a < T \/ T <= w - b)) \/
  (T <= w - a /\ w - b < T /\ (resolve loc w = w - a \/ resolve loc w = w - b)).
Proof using Type.
  intros (HT & Hab & _ & Hoff & Hin & Hbase & Ha & Hb) Hx. unfold resolve.
  assert (Hw : offset_at loc w = if w <? T then a else b) by (apply Hoff; unfold window; lia).
  rewrite Hw. destruct (Z.ltb_spec w T).
  - destruct (Z.eqb_spec a 0).
    + unfold pick. zcases; lia.
    + rewrite Hin, (Hoff (w - a)) by (unfold window; lia). unfold pick. zcases; lia.
  - destruct (Z.eqb_spec b 0).
    + unfold pick. zcases; lia.
    + rewrite Hin, (Hoff (w - b)) by (unfold window; lia). unfold pick. zcases; lia.
Qed.

(** Local dates never go back. *)
Lemma local_date_mono s1 s2 : s1 <= s2 -> (s1 + offset_at loc s1) / 86400 <= (s2 + offset_at loc s2) / 86400.
Proof using LocationLaws0.
  intros Hle. pose proof (loc_offsets s1). pose proof (loc_offsets s2).
  destruct (decide (s2 - s1 <= 172800)); [|apply Z.div_le_mono; lia].
  destruct (around_ex s1) as (T & a & b & HT & Hab & Hd & Hoff & _).
  rewrite (Hoff s1), (Hoff s2) by (unfold window; lia).
  destruct (Z.ltb_spec s1 T); destruct (Z.ltb_spec s2 T); try (apply Z.div_le_mono; lia).
  transitivity ((T + a - 1) / 86400); [apply Z.div_le_mono; lia|].
  transitivity ((T + b) / 86400); [done|apply Z.div_le_mono; lia].
Qed.
Lemma reading_date_mono t1 t2 : t1 <= t2 -> reading loc t1 / 86400 <= reading loc t2 / 86400.
Proof using LocationLaws0. intros. apply local_date_mono. apply Z.div_le_mono; unfold second; lia. Qed.
End Zone.

Lemma pick_mono T a b w1 w2 : w1 <= w2 -> pick T a b w1 <= pick T a b w2.
Proof. intros. unfold pick. zcases; lia. Qed.
Lemma pick_bounds T a b w : w - Z.max a b <= pick T a b w <= w - Z.min a b.
Proof. unfold pick. zcases; lia. Qed.

(** Taking a reading apart and putting it together again. *)
Lemma date_clock loc t :
  let '(y, m, d) := DateOf loc t in
  wall y m d (HourOf loc t) (MinuteOf loc t) (SecondOf loc t) = reading loc t.
Proof.
  unfold DateOf, HourOf, MinuteOf, SecondOf, wall. generalize (reading loc t) as r. intros r.
  pose proof (day_number_civil (r / 86400)) as Hd. destruct (civil (r / 86400)) as [[y m] d].
  rewrite Hd. zdiv.
Qed.
Lemma clock_eq r h mi s : 0 <= h < 24 -> 0 <= mi < 60 -> 0 <= s < 60 ->
  (r mod 86400 / 3600 =? h) && (r mod 3600 / 60 =? mi) && (r mod 60 =? s) =
  (r mod 86400 =? h * 3600 + mi * 60 + s).
Proof.
  intros. apply eq_true_iff_eq. rewrite !andb_true_iff, !Z.eqb_eq. split; [intros [[]]|intros; split_and!]; zdiv.
Qed.
Lemma wall_mod y m d h mi s : 0 <= h < 24 -> 0 <= mi < 60 -> 0 <= s < 60 ->
  wall y m d h mi s mod 86400 = h * 3600 + mi * 60 + s.
Proof. intros. unfold wall. zdiv. Qed.

(** [t.AddDate(0, n, 0)] in [loc]: the same day and time of day [n] months on,
    overflowing days rolling into the next month. *)
Definition AddMonths (loc : Location) (t : Time) (n : Z) : Time :=
  let '(y, m, d) := DateOf loc t in
  let m' := m - 1 + n in
  Date (y + m' / 12) (m' mod 12 + 1) d (HourOf loc t) (MinuteOf loc t) (SecondOf loc t) loc + t mod second.

(** [t.UTC().Format(time.RFC3339)] *)
Fixpoint pad_zeros (n : nat) (s : string) : string :=
  match n with O => s | S n' => pad_zeros n' ("0" +:+ s)%string end.
Definition padded (width : nat) (n : Z) : string := pad_zeros (width - String.length (itoa n)) (itoa n).
Definition RFC3339 (t : Time) : string :=
  let '(y, m, d) := DateOf UTC t in
  (padded 4 y +:+ "-" +:+ padded 2 m +:+ "-" +:+ padded 2 d +:+ "T" +:+ padded 2 (HourOf UTC t) +:+ ":"
   +:+ padded 2 (MinuteOf UTC t) +:+ ":" +:+ padded 2 (SecondOf UTC t) +:+ "Z")%string.
