(* ===== verification/JsonText.v ===== *)
(** * Texts of JSON, times and base64 as the standard library reads and writes them

    What the session cookie uses of [encoding/json], [time] and
    [encoding/base64]: a value is checked by the grammar and handed to the
    decoder of its field as the text it was written as, which is how the package
    decodes a struct. *)
From stdpp Require Import base list strings.
From Stdlib Require Import ZArith Lia.
From Stdlib Require Import Ascii.
From Stdlib Require String.
From S2P Require Import Prelude Text Runes Json Db Calendar GoTime NodeToken.
Local Open Scope string_scope.
Local Open Scope list_scope.
Local Open Scope Z_scope.

(** ** Strings *)
Definition dq : ascii := byte_of 34.
Definition backslash : ascii := byte_of 92.
Definition hex4 (r : Z) : list ascii := map nibble [r / 4096; r / 256 mod 16; r / 16 mod 16; r mod 16].
(** A rune as [json.Marshal] writes it, with the escapes for HTML. *)
Definition json_rune (c : Z * list ascii) : list ascii :=
  let r := c.1 in
  if bad_chunk c then backslash :: byte_of 117 :: hex4 RuneError
  else if (r =? 34) || (r =? 92) then [backslash; byte_of r]
  else if r =? 8 then [backslash; byte_of 98] else if r =? 12 then [backslash; byte_of 102]
  else if r =? 10 then [backslash; byte_of 110] else if r =? 13 then [backslash; byte_of 114]
  else if r =? 9 then [backslash; byte_of 116]
  else if (r <? 32) || (r =? 60) || (r =? 62) || (r =? 38) || (r =? 8232) || (r =? 8233) then backslash :: byte_of 117 :: hex4 r
  else c.2.
Definition json_string (s : string) : list ascii := dq :: concat (map json_rune (chunks s)) ++ [dq].

Definition hex_digit (c : ascii) : option Z :=
  if is_digit c then Some (code c - 48) else if in_range 97 102 c then Some (code c - 87)
  else if in_range 65 70 c then Some (code c - 55) else None.
Definition getu4 (l : list ascii) : option (Z * list ascii) :=
  match l with
  | a :: b :: c :: d :: l' =>
      match hex_digit a, hex_digit b, hex_digit c, hex_digit d with
      | Some a, Some b, Some c, Some d => Some (a * 4096 + b * 256 + c * 16 + d, l')
      | _, _, _, _ => None
      end
  | _ => None
  end.
Definition simple_escape (c : ascii) : option ascii :=
  if is_char 34 c || is_char 92 c || is_char 47 c then Some c
  else if is_char 98 c then Some (byte_of 8) else if is_char 102 c then Some (byte_of 12)
  else if is_char 110 c then Some (byte_of 10) else if is_char 114 c then Some (byte_of 13)
  else if is_char 116 c then Some (byte_of 9) else None.
Definition high_surrogate (r : Z) : bool := (55296 <=? r) && (r <? 56320).
Definition low_surrogate (r : Z) : bool := (56320 <=? r) && (r <? 57344).
(** The low half of a pair, when it follows. *)
Definition second_half (l : list ascii) : option (Z * list ascii) :=
  match l with
  | b :: u :: l' =>
      if is_char 92 b && is_char 117 u then
        match getu4 l' with Some (r, l'') => if low_surrogate r then Some (r, l'') else None | None => None end
      else None
  | _ => None
  end.
(** The bytes of a string and what follows its closing quote; [l] begins after
    the opening one. *)
Fixpoint unquote (fuel : nat) (l : list ascii) : option (list ascii * list ascii) :=
  match fuel with
  | O => None
  | S f =>
      let more s l := match unquote f l with Some (t, r) => Some (s ++ t, r) | None => None end in
      match l with
      | [] => None
      | c :: l' =>
          if is_char 34 c then Some ([], l')
          else if is_char 92 c then
            match l' with
            | [] => None
            | e :: l2 =>
                if is_char 117 e then
                  match getu4 l2 with
                  | None => None
                  | Some (r, l3) =>
                      if high_surrogate r then
                        match second_half l3 with
                        | Some (r2, l4) => more (encode_rune ((r - 55296) * 1024 + (r2 - 56320) + 65536)) l4
                        | None => more (encode_rune RuneError) l3
                        end
                      else more (encode_rune r) l3
                  end
                else match simple_escape e with Some b => more [b] l2 | None => None end
            end
          else if code c <? 32 then None
          else let '(r, n) := decode_rune l in more (encode_rune r) (drop n l)
      end
  end.

(** ** Values *)
Definition is_ws (c : ascii) : bool := is_char 32 c || is_char 9 c || is_char 10 c || is_char 13 c.
Fixpoint skip_ws (l : list ascii) : list ascii := match l with c :: l' => if is_ws c then skip_ws l' else l | [] => [] end.
Fixpoint skip_digits (l : list ascii) : list ascii := match l with c :: l' => if is_digit c then skip_digits l' else l | [] => [] end.
Definition digits1 (l : list ascii) : option (list ascii) :=
  match l with c :: l' => if is_digit c then Some (skip_digits l') else None | [] => None end.
Definition skip_exponent (l : list ascii) : option (list ascii) :=
  match l with
  | c :: l' =>
      if is_char 101 c || is_char 69 c then
        match l' with s :: l2 => if is_char 43 s || is_char 45 s then digits1 l2 else digits1 l' | [] => None end
      else Some l
  | [] => Some []
  end.
Definition skip_fraction (l : list ascii) : option (list ascii) :=
  match l with
  | c :: l' => if is_char 46 c then match digits1 l' with Some l2 => skip_exponent l2 | None => None end else skip_exponent l
  | [] => Some []
  end.
Definition skip_number (l : list ascii) : option (list ascii) :=
  let body l := match l with
                | c :: l' => if is_char 48 c then skip_fraction l' else if is_digit c then skip_fraction (skip_digits l') else None
                | [] => None
                end in
  match l with c :: l' => if is_char 45 c then body l' else body l | [] => None end.
Definition after (p l : list ascii) : option (list ascii) :=
  if bool_decide (take (length p) l = p) then Some (drop (length p) l) else None.
Definition maxNestingDepth : Z := 10000.
Definition raw_of (l rest : list ascii) : list ascii := take (length l - length rest) l.
(** What follows a value; the members of an object with the texts of their
    values, and what follows it. *)
Fixpoint skip_value (fuel : nat) (depth : Z) (l : list ascii) : option (list ascii) :=
  match fuel with
  | O => None
  | S f =>
      match skip_ws l with
      | [] => None
      | c :: l' =>
          if is_char 34 c then snd <$> unquote (length l) l'
          else if is_char 123 c then
            if maxNestingDepth <=? depth then None else snd <$> members f (depth + 1) true l'
          else if is_char 91 c then
            if maxNestingDepth <=? depth then None
            else match skip_ws l' with
                 | d :: l2 => if is_char 93 d then Some l2 else elements f (depth + 1) l'
                 | [] => None
                 end
          else if is_char 116 c then after (bytes "true") (c :: l')
          else if is_char 102 c then after (bytes "false") (c :: l')
          else if is_char 110 c then after (bytes "null") (c :: l')
          else skip_number (c :: l')
      end
  end
with members (fuel : nat) (depth : Z) (first : bool) (l : list ascii) : option (list (list ascii * list ascii) * list ascii) :=
  match fuel with
  | O => None
  | S f =>
      match skip_ws l with
      | [] => None
      | c :: l' =>
          if is_char 125 c && first then Some ([], l')
          else if negb (is_char 34 c) then None
          else match unquote (length l) l' with
          | None => None
          | Some (k, l2) =>
              match skip_ws l2 with
              | [] => None
              | d :: l3 =>
                  if negb (is_char 58 d) then None
                  else match skip_value f depth l3 with
                  | None => None
                  | Some l4 =>
                      let kv := (k, raw_of (skip_ws l3) l4) in
                      match skip_ws l4 with
                      | [] => None
                      | e :: l5 =>
                          if is_char 125 e then Some ([kv], l5)
                          else if is_char 44 e then
                            match members f depth false l5 with Some (kvs, l6) => Some (kv :: kvs, l6) | None => None end
                          else None
                      end
                  end
              end
          end
      end
  end
with elements (fuel : nat) (depth : Z) (l : list ascii) : option (list ascii) :=
  match fuel with
  | O => None
  | S f =>
      match skip_value f depth l with
      | None => None
      | Some l2 =>
          match skip_ws l2 with
          | d :: l3 => if is_char 93 d then Some l3 else if is_char 44 d then elements f depth l3 else None
          | [] => None
          end
      end
  end.
(** The fuel: two steps for every character. *)
Definition enough (l : list ascii) : nat := S (S (2 * length l)).
Inductive document := DocNull | DocObject (fields : list (list ascii * list ascii)) | DocOther.
(** A whole text: one value and nothing after it. *)
Definition read_document (l : list ascii) : option document :=
  match skip_value (enough l) 0 l with
  | Some rest =>
      if negb (bool_decide (skip_ws rest = [])) then None
      else match skip_ws l with
           | c :: l' =>
               if is_char 123 c then match members (enough l) 1 true l' with Some (kvs, _) => Some (DocObject kvs) | None => None end
               else if is_char 110 c then Some DocNull else Some DocOther
           | [] => None
           end
  | None => None
  end.

(** An object as it is written: its keys with the texts of their values. *)
Definition member_text (kv : string * list ascii) : list ascii := json_string kv.1 ++ byte_of 58 :: kv.2.
Fixpoint members_text (kvs : list (string * list ascii)) : list ascii :=
  match kvs with
  | [] => [byte_of 125]
  | [kv] => member_text kv ++ [byte_of 125]
  | kv :: kvs' => member_text kv ++ byte_of 44 :: members_text kvs'
  end.
Definition object_text (kvs : list (string * list ascii)) : list ascii := byte_of 123 :: members_text kvs.

(** ** Times *)
(** The last [w] decimal digits of a number. *)
Fixpoint digits (w : nat) (n : Z) : list ascii :=
  match w with O => [] | S w' => digits w' (n / 10) ++ [byte_of (48 + n mod 10)] end.
Definition digits_value (l : list ascii) : Z := fold_left (fun acc c => acc * 10 + (code c - 48)) l 0.
Fixpoint drop_zeros (l : list ascii) : list ascii := match l with c :: l' => if is_char 48 c then drop_zeros l' else l | [] => [] end.
Definition fraction (ns : Z) : list ascii :=
  match drop_zeros (rev (digits 9 ns)) with [] => [] | ds => byte_of 46 :: rev ds end.
(** [t.UTC()] as [Time.MarshalJSON] writes it between the quotes. *)
Definition time_text (t : Time) : list ascii :=
  let '(y, m, d) := DateOf UTC t in
  digits 4 y ++ byte_of 45 :: digits 2 m ++ byte_of 45 :: digits 2 d ++ byte_of 84 :: digits 2 (HourOf UTC t) ++ byte_of 58 ::
  digits 2 (MinuteOf UTC t) ++ byte_of 58 :: digits 2 (SecondOf UTC t) ++ fraction (t mod second) ++ [byte_of 90].
Definition year_ok (t : Time) : bool := let '(y, _, _) := DateOf UTC t in (0 <=? y) && (y <=? 9999).

Definition two_digits (l : list ascii) : option (Z * list ascii) :=
  match l with a :: b :: l' => if is_digit a && is_digit b then Some (digits_value [a; b], l') else None | _ => None end.
(** The hour may be written with one digit. *)
Definition hour_digits (l : list ascii) : option (Z * list ascii) :=
  match two_digits l with
  | Some r => Some r
  | None => match l with a :: l' => if is_digit a then Some (digits_value [a], l') else None | [] => None end
  end.
Definition expect (n : Z) (l : list ascii) : option (list ascii) :=
  match l with c :: l' => if is_char n c then Some l' else None | [] => None end.
Fixpoint take_digits (l : list ascii) : list ascii * list ascii :=
  match l with c :: l' => if is_digit c then let '(ds, r) := take_digits l' in (c :: ds, r) else ([], l) | [] => ([], []) end.
Definition parse_fraction (l : list ascii) : Z * list ascii :=
  match l with
  | c :: d :: _ =>
      if (is_char 46 c || is_char 44 c) && is_digit d then
        let '(ds, r) := take_digits (drop 1 l) in
        let ds := take 9 ds in (digits_value ds * 10 ^ (9 - Z.of_nat (length ds)), r)
      else (0, l)
  | _ => (0, l)
  end.
(** The offset of the zone, in seconds, at the end of the text. *)
Definition parse_zone (l : list ascii) : option Z :=
  match l with
  | [z] => if is_char 90 z then Some 0 else None
  | [s; h1; h2; k; m1; m2] =>
      match two_digits [h1; h2], two_digits [m1; m2] with
      | Some (h, _), Some (m, _) =>
          if is_char 58 k && (h <=? 24) && (m <=? 60) then
            let off := (h * 60 + m) * 60 in
            if is_char 43 s then Some off else if is_char 45 s then Some (- off) else None
          else None
      | _, _ => None
      end
  | _ => None
  end.
Definition leap (y : Z) : bool := (y mod 4 =? 0) && (negb (y mod 100 =? 0) || (y mod 400 =? 0)).
Definition daysIn (m y : Z) : Z :=
  if m =? 2 then (if leap y then 29 else 28) else if (m =? 4) || (m =? 6) || (m =? 9) || (m =? 11) then 30 else 31.
Local Notation "'let?' x := a 'in' b" := (match a with Some x => b | None => None end) (at level 200, x pattern, right associativity).
(** [time.Parse(time.RFC3339, l)], which also takes what the strict reading
    before it takes. *)
Definition parse_time (l : list ascii) : option Time :=
  if negb (Nat.eqb (length (take 4 l)) 4 && forallb is_digit (take 4 l)) then None
  else
    let y := digits_value (take 4 l) in
    let? l := expect 45 (drop 4 l) in let? (m, l) := two_digits l in
    let? l := expect 45 l in let? (d, l) := two_digits l in
    let? l := expect 84 l in let? (h, l) := hour_digits l in
    let? l := expect 58 l in let? (mi, l) := two_digits l in
    let? l := expect 58 l in let? (s, l) := two_digits l in
    let '(ns, l) := parse_fraction l in
    let? off := parse_zone l in
    if (1 <=? m) && (m <=? 12) && (h <? 24) && (mi <? 60) && (s <? 60) && (1 <=? d) && (d <=? daysIn m y)
    then Some ((wall y m d h mi s - off) * second + ns) else None.

(** ** [base64.RawURLEncoding.DecodeString] *)
Definition base64_value (c : ascii) : option Z :=
  if is_upper c then Some (code c - 65) else if is_lower c then Some (code c - 71)
  else if is_digit c then Some (code c + 4) else if is_char 45 c then Some 62 else if is_char 95 c then Some 63 else None.
Fixpoint base64_groups (vs : list Z) : option (list Z) :=
  match vs with
  | a :: b :: c :: d :: vs' =>
      let v := a * 262144 + b * 4096 + c * 64 + d in
      match base64_groups vs' with Some bs => Some (v / 65536 :: v / 256 mod 256 :: v mod 256 :: bs) | None => None end
  | [a; b; c] => let v := a * 4096 + b * 64 + c in Some [v / 1024; v / 4 mod 256]
  | [a; b] => Some [(a * 64 + b) / 16]
  | [a] => None
  | [] => Some []
  end.
Fixpoint base64_values (l : list ascii) : option (list Z) :=
  match l with
  | [] => Some []
  | c :: l' =>
      if is_char 10 c || is_char 13 c then base64_values l'
      else match base64_value c, base64_values l' with Some v, Some vs => Some (v :: vs) | _, _ => None end
  end.
Definition base64_decode (l : list ascii) : option (list Z) := let? vs := base64_values l in base64_groups vs.

Example time_texts :
  (of_bytes (time_text 0), of_bytes (time_text (63835596800 * second + 120000000))) =
  ("0001-01-01T00:00:00Z", "2023-11-14T22:13:20.12Z") /\
  map (fun s => parse_time (bytes s)) ["2023-11-14T22:13:20.12Z"; "2023-11-14T23:13:20,120+01:00"; "2023-02-29T00:00:00Z"; "2023-1-1T00:00:00Z"; "0001-01-01T00:00:00Z"] =
  [Some (63835596800 * second + 120000000); Some (63835596800 * second + 120000000); None; None; Some 0].
Proof. vm_compute. split; reflexivity. Qed.
(** Single quotes stand for double ones. *)
Definition dquoted (s : string) : list ascii := map (fun c => if is_char 39 c then dq else c) (bytes s).
Example documents :
  map (fun s => match read_document (dquoted s) with Some (DocObject kvs) => Some (map (fun kv => (kv.1, kv.2)) kvs) | _ => None end)
    [" {} "; "{'a' : 1.5e3 ,'b':[{}, 'x\n'] }"; "{'a':01}"; "{'a':1,}"; "{'\u0041\ud83d\ude00':null}"; "{} x"; "[]"] =
  [Some []; Some [(dquoted "a", dquoted "1.5e3"); (dquoted "b", dquoted "[{}, 'x\n']")]; None; None;
   Some [(byte_of 65 :: map byte_of [240; 159; 152; 128], dquoted "null")]; None; None].
Proof. vm_compute. reflexivity. Qed.
