(* ===== verification/JsonFacts.v ===== *)
(** * What is read back of a text that was written

    Strings, objects, times and base64 as JsonText.v writes and reads them. *)
From stdpp Require Import base list strings.
From Stdlib Require Import ZArith Lia.
From Stdlib Require Import Ascii.
From Stdlib Require String.
From S2P Require Import Prelude Text Runes Json Db Calendar GoTime NodeToken JsonText.
Local Open Scope string_scope.
Local Open Scope list_scope.
Local Open Scope Z_scope.

(** ** Strings *)
Lemma nibble_digit d : 0 <= d < 16 -> hex_digit (nibble d) = Some d.
Proof.
  intros Hd. assert (Hall : forallb (fun d => bool_decide (hex_digit (nibble d) = Some d)) (map Z.of_nat (seq 0 16)) = true) by (vm_compute; reflexivity).
  rewrite forallb_forall in Hall. apply (bool_decide_eq_true (hex_digit (nibble d) = Some d)), Hall, in_map_iff.
  exists (Z.to_nat d). split; [lia|]. apply in_seq. lia.
Qed.
Lemma getu4_hex4 r tl : 0 <= r < 65536 -> getu4 (hex4 r ++ tl) = Some (r, tl).
Proof.
  intros Hr. unfold hex4. cbn [map app getu4]. rewrite !nibble_digit; [|zdiv..]. f_equal. f_equal. zdiv.
Qed.
Lemma unquote_char f c l s r : is_char 34 c = false -> is_char 92 c = false -> 32 <= code c -> decode_rune (c :: l) = (s, r) ->
  unquote (S f) (c :: l) = (let '(t, rest) := (s, r) in match unquote f (drop r (c :: l)) with Some (t', r') => Some (encode_rune s ++ t', r') | None => None end).
Proof.
  intros H34 H92 Hc Hd. cbn [unquote]. rewrite H34, H92. rewrite (proj2 (Z.ltb_ge _ _)) by lia. rewrite Hd. done.
Qed.
Lemma is_char_code n c : is_char n c = (code c =? n).
Proof. reflexivity. Qed.
Lemma first_byte r : valid_rune r = true -> exists c l, encode_rune r = c :: l /\ (r < 128 -> code c = r /\ l = []) /\ (128 <= r -> 192 <= code c).
Proof.
  intros Hr. rewrite encode_valid by done. unfold valid_rune in Hr. rewrite orb_true_iff, !andb_true_iff, !Z.leb_le, !Z.ltb_lt in Hr.
  unfold utf8_bytes. destruct (Z.ltb_spec r 128); [|destruct (Z.ltb_spec r 2048); [|destruct (Z.ltb_spec r 65536)]];
    eexists _, _; (split; [reflexivity|]); rewrite code_byte_of by zdiv; split; intros; try done; zdiv.
Qed.
Lemma not_bad r : bad_chunk (r, encode_rune r) = false.
Proof. unfold bad_chunk. cbn [fst snd]. destruct (Z.eqb_spec r RuneError) as [->|]; done. Qed.
Definition push (s : list ascii) (x : option (list ascii * list ascii)) : option (list ascii * list ascii) :=
  match x with Some (t, r) => Some (s ++ t, r) | None => None end.
Lemma unquote_rune f r l : valid_rune r = true ->
  unquote (S f) (json_rune (r, encode_rune r) ++ l) = push (encode_rune r) (unquote f l).
Proof.
  intros Hr. unfold json_rune. rewrite not_bad. cbn [fst snd].
  destruct (Z.eqb_spec r 34) as [->|]; [reflexivity|]. destruct (Z.eqb_spec r 92) as [->|]; [reflexivity|]. cbn [orb].
  destruct (Z.eqb_spec r 8) as [->|]; [reflexivity|]. destruct (Z.eqb_spec r 12) as [->|]; [reflexivity|].
  destruct (Z.eqb_spec r 10) as [->|]; [reflexivity|]. destruct (Z.eqb_spec r 13) as [->|]; [reflexivity|].
  destruct (Z.eqb_spec r 9) as [->|]; [reflexivity|].
  assert (Hrange := Hr). unfold valid_rune in Hrange. rewrite orb_true_iff, !andb_true_iff, !Z.leb_le, !Z.ltb_lt in Hrange.
  destruct (_ || _) eqn:Ee.
  - rewrite !orb_true_iff, Z.ltb_lt, !Z.eqb_eq in Ee. change (unquote (S f) ((backslash :: byte_of 117 :: hex4 r) ++ l)) with
      (match getu4 (hex4 r ++ l) with
       | None => None
       | Some (r, l3) => if high_surrogate r then match second_half l3 with
            | Some (r2, l4) => push (encode_rune ((r - 55296) * 1024 + (r2 - 56320) + 65536)) (unquote f l4)
            | None => push (encode_rune RuneError) (unquote f l3) end
          else push (encode_rune r) (unquote f l3) end).
    rewrite getu4_hex4 by lia. unfold high_surrogate. rewrite (proj2 (andb_false_iff _ _)); [done|].
    rewrite Z.leb_gt, Z.ltb_ge. lia.
  - rewrite !orb_false_iff, Z.ltb_ge, !Z.eqb_neq in Ee. destruct (first_byte r Hr) as (c & tl & E & Hlow & Hhigh).
    assert (Hc : 32 <= code c /\ code c <> 34 /\ code c <> 92).
    { destruct (Z.lt_ge_cases r 128) as [Hl|Hl]; [destruct (Hlow Hl) as [-> _]; lia|specialize (Hhigh Hl); lia]. }
    destruct (decode_rune (encode_rune r ++ l)) as [rn wid] eqn:Ed. rewrite decode_encode in Ed by done. injection Ed as <- <-.
    pose proof (decode_encode r l Hr) as Hd. rewrite E in Hd |- *. cbn [app] in *.
    rewrite (unquote_char f c (tl ++ l) r (length (c :: tl))); [|apply Z.eqb_neq; lia|apply Z.eqb_neq; lia|lia|done].
    cbn [length drop]. rewrite drop_app_length. rewrite E. reflexivity.
Qed.
Lemma json_rune_ne r : valid_rune r = true -> (1 <= length (json_rune (r, encode_rune r)))%nat.
Proof.
  intros Hr. unfold json_rune. destruct (first_byte r Hr) as (c & l & E & _). rewrite not_bad. cbn [fst snd]. rewrite E.
  repeat case_match; cbn [length]; lia.
Qed.
Lemma valid_chunks_encoded s : valid_utf8 s = true -> exists rs, Forall (fun r => valid_rune r = true) rs /\ chunks s = map (fun r => (r, encode_rune r)) rs /\ bytes s = rune_bytes rs.
Proof.
  intros Hv. exists (runes s). split; [apply runes_valid|].
  assert (Hc : chunks s = map (fun r => (r, encode_rune r)) (runes s)).
  { unfold runes. rewrite map_map. rewrite <-(map_id (chunks s)) at 1. apply map_ext_in. intros [r l] Hin.
    pose proof (decode_chunk (length (bytes s)) (bytes s)) as Hd. rewrite Forall_forall in Hd.
    destruct (Hd (r, l)) as [Hb|Hb]; [by apply list_elem_of_In| |cbn in *; by rewrite Hb].
    unfold valid_utf8 in Hv. rewrite forallb_forall in Hv. specialize (Hv (r, l) Hin). unfold bad_chunk, RuneError in Hb. cbn in Hv, Hb. by rewrite Hb in Hv. }
  split; [done|]. pose proof (unchunk_chunks s) as Hu. rewrite <-Hu at 1. unfold unchunk. rewrite bytes_of_bytes, Hc, map_map. done.
Qed.
Lemma unquote_runes rs tl f : Forall (fun r => valid_rune r = true) rs ->
  (length (concat (map json_rune (map (fun r => (r, encode_rune r)) rs))) < f)%nat ->
  unquote f (concat (map json_rune (map (fun r => (r, encode_rune r)) rs)) ++ dq :: tl) = Some (rune_bytes rs, tl).
Proof.
  intros Hrs. revert f. induction Hrs as [|r rs Hr Hrs IH]; intros f Hf; (destruct f as [|f]; [lia|]); [reflexivity|].
  cbn [map concat] in *. rewrite <-(assoc_L (++)), unquote_rune by done. rewrite length_app in Hf. pose proof (json_rune_ne r Hr).
  rewrite IH by lia. reflexivity.
Qed.
(** A string is read back as it was written. *)
Lemma unquote_json_string s tl f : valid_utf8 s = true -> (length (json_string s) <= f)%nat ->
  unquote f (tail (json_string s) ++ tl) = Some (bytes s, tl).
Proof.
  intros Hv Hf. destruct (valid_chunks_encoded s Hv) as (rs & Hrs & Hc & Hb). unfold json_string in *. cbn [tail].
  rewrite Hc, Hb in *. rewrite <-(assoc_L (++)). cbn [app]. apply unquote_runes; [done|]. cbn [length] in Hf. rewrite length_app in Hf. cbn [length] in Hf. lia.
Qed.

(** ** Base64 *)
Lemma base64_char_value v : 0 <= v < 64 -> base64_value (base64_char v) = Some v /\ is_char 10 (base64_char v) || is_char 13 (base64_char v) = false.
Proof.
  intros Hv.
  assert (Hall : forallb (fun v => bool_decide (base64_value (base64_char v) = Some v) && negb (is_char 10 (base64_char v) || is_char 13 (base64_char v))) (map Z.of_nat (seq 0 64)) = true) by (vm_compute; reflexivity).
  rewrite forallb_forall in Hall. destruct (andb_prop _ _ (Hall v ltac:(apply in_map_iff; exists (Z.to_nat v); rewrite in_seq; lia))) as [H1 H2].
  apply bool_decide_eq_true in H1. apply negb_true_iff in H2. done.
Qed.
Lemma base64_values_cons v l vs : 0 <= v < 64 -> base64_values l = Some vs -> base64_values (base64_char v :: l) = Some (v :: vs).
Proof. intros Hv Hl. destruct (base64_char_value v Hv) as [E1 E2]. cbn [base64_values]. by rewrite E2, E1, Hl. Qed.
Definition octet (b : Z) : Prop := 0 <= b < 256.
Lemma base64_values_raw n : forall bs, (length bs <= n)%nat -> Forall octet bs -> exists vs, base64_values (base64_raw bs) = Some vs /\ base64_groups vs = Some bs.
Proof.
  induction n as [|n IH]; intros bs Hn Hbs; [destruct bs; [by exists []|cbn in Hn; lia]|].
  destruct bs as [|a [|b [|c bs]]]; [by exists []|..]; cbn [base64_raw].
  - apply Forall_cons in Hbs as [Ha _]. unfold octet in Ha.
    eexists. split; [do 2 (apply base64_values_cons; [zdiv|]); reflexivity|]. cbn [base64_groups]. do 2 f_equal. zdiv.
  - apply Forall_cons in Hbs as [Ha [Hb _]%Forall_cons]. unfold octet in *.
    eexists. split; [do 3 (apply base64_values_cons; [zdiv|]); reflexivity|]. cbn [base64_groups]. f_equal. f_equal; [zdiv|]. f_equal. zdiv.
  - apply Forall_cons in Hbs as [Ha [Hb [Hc Hbs]%Forall_cons]%Forall_cons]. unfold octet in *.
    destruct (IH bs) as (vs & E1 & E2); [cbn in Hn; lia|done|].
    eexists. split; [do 4 (apply base64_values_cons; [zdiv|]); exact E1|]. cbn [base64_groups]. rewrite E2.
    f_equal. f_equal; [zdiv|]. f_equal; [zdiv|]. f_equal. zdiv.
Qed.
Lemma base64_roundtrip bs : Forall octet bs -> base64_decode (base64_raw bs) = Some bs.
Proof.
  intros Hbs. destruct (base64_values_raw (length bs) bs (Nat.le_refl _) Hbs) as (vs & E1 & E2). unfold base64_decode. by rewrite E1.
Qed.

(** ** Digits *)
Lemma length_digits w n : length (digits w n) = w.
Proof. revert n. induction w as [|w IH]; intros n; [done|]. cbn [digits]. rewrite length_app, IH. cbn. lia. Qed.
Lemma digit_byte d : 0 <= d < 10 -> code (byte_of (48 + d)) = 48 + d /\ is_digit (byte_of (48 + d)) = true.
Proof.
  intros Hd. rewrite code_byte_of by lia. split; [done|]. unfold is_digit, in_range. rewrite code_byte_of by lia.
  apply andb_true_iff. rewrite !Z.leb_le. lia.
Qed.
Lemma digits_are w n : Forall (fun c => is_digit c = true) (digits w n).
Proof.
  revert n. induction w as [|w IH]; intros n; [constructor|]. cbn [digits]. apply Forall_app. split; [apply IH|]. repeat constructor.
  apply digit_byte. zdiv.
Qed.
Lemma digits_value_app l c : digits_value (l ++ [c]) = digits_value l * 10 + (code c - 48).
Proof. unfold digits_value. by rewrite fold_left_app. Qed.
Lemma digits_value_digits w n : 0 <= n < 10 ^ Z.of_nat w -> digits_value (digits w n) = n.
Proof.
  revert n. induction w as [|w IH]; intros n Hn; [cbn in *; lia|]. cbn [digits]. rewrite digits_value_app.
  rewrite Nat2Z.inj_succ, Z.pow_succ_r in Hn by lia. rewrite IH by zdiv.
  destruct (digit_byte (n mod 10)) as [-> _]; [zdiv|]. zdiv.
Qed.
Lemma two_digits_digits n tl : 0 <= n < 100 -> two_digits (digits 2 n ++ tl) = Some (n, tl).
Proof.
  intros Hn. pose proof (digits_value_digits 2 n ltac:(lia)) as Hv. pose proof (digits_are 2 n) as Hd. pose proof (length_digits 2 n) as Hl.
  destruct (digits 2 n) as [|a [|b [|]]]; try done. apply Forall_cons in Hd as [Ha [Hb _]%Forall_cons]. cbn [app two_digits]. by rewrite Ha, Hb, Hv.
Qed.
Lemma hour_digits_digits n tl : 0 <= n < 100 -> hour_digits (digits 2 n ++ tl) = Some (n, tl).
Proof. intros Hn. unfold hour_digits. by rewrite two_digits_digits. Qed.
Lemma expect_byte n tl : 0 <= n < 256 -> expect n (byte_of n :: tl) = Some tl.
Proof. intros Hn. cbn [expect]. unfold is_char. by rewrite code_byte_of, Z.eqb_refl. Qed.

(** ** Dates *)
Definition leap_check (y : Z) : bool := year_start (y + 1) - year_start y <=? (if leap (y + 1) then 366 else 365).
Lemma leap_check_all : all_from 400 0 leap_check = true.
Proof. vm_compute. reflexivity. Qed.
Lemma era_day doe : 0 <= doe < 146097 -> 0 <= doe - year_start (year_of doe) <= (if leap (year_of doe + 1) then 365 else 364).
Proof.
  intros Hd. destruct (year_of_spec doe Hd) as [Hy [Hlo _]]. split; [done|].
  pose proof (all_from_spec _ _ _ (year_of doe) leap_check_all ltac:(lia)) as Hc. unfold leap_check in Hc. apply Z.leb_le in Hc.
  destruct (decide (year_of doe = 399)) as [E|Hne]; [rewrite E in *; change (leap (399 + 1)) with true; change (year_start 399) with 145731; cbv iota; lia|].
  destruct (decide (doe < year_start (year_of doe + 1))) as [|Hge]; [destruct (leap _); lia|]. exfalso.
  pose proof (all_from_spec _ _ _ (year_of doe + 1) year_check_all ltac:(lia)) as Hc'. unfold year_check in Hc'. propb.
  pose proof (year_of_mono (year_start (year_of doe + 1)) doe ltac:(lia) ltac:(lia)). lia.
Qed.
Lemma leap_shift y k : leap (y + 400 * k) = leap y.
Proof.
  unfold leap. replace ((y + 400 * k) mod 4) with (y mod 4) by zdiv. replace ((y + 400 * k) mod 100) with (y mod 100) by zdiv.
  replace ((y + 400 * k) mod 400) with (y mod 400) by zdiv. done.
Qed.
Lemma civil_valid n : let '(y, m, d) := civil n in 1 <= m <= 12 /\ 1 <= d <= daysIn m y.
Proof.
  unfold civil. pose proof (Z.mod_pos_bound (n + 306) 146097 ltac:(lia)) as Hb. generalize dependent ((n + 306) mod 146097). intros doe Hb.
  pose proof (era_day doe Hb) as He. unfold civil_in_era. fold (year_of doe). unfold year_start in He.
  set (doy := doe - (365 * year_of doe + year_of doe / 4 - year_of doe / 100)) in *.
  assert (Hmp : 0 <= (5 * doy + 2) / 153 <= 11) by (destruct (leap _); zdiv).
  set (mp := (5 * doy + 2) / 153) in *. cbv zeta.
  assert (Hdoy : 153 * mp <= 5 * doy + 2 < 153 * mp + 153) by (unfold mp; zdiv).
  assert (Hcases : mp = 0 \/ mp = 1 \/ mp = 2 \/ mp = 3 \/ mp = 4 \/ mp = 5 \/ mp = 6 \/ mp = 7 \/ mp = 8 \/ mp = 9 \/ mp = 10 \/ mp = 11) by lia.
  clearbody mp. unfold daysIn. rewrite leap_shift.
  clear Hmp Hb. clearbody doy.
  decompose [or] Hcases; subst mp; clear Hcases; cbn -[Z.add Z.sub Z.mul leap Z.le Z.div];
    repeat match goal with
    | |- context [Z.add ?a 3] => is_ground a; let v := eval vm_compute in (a + 3) in change (a + 3) with v
    | |- context [Z.sub ?a 9] => is_ground a; let v := eval vm_compute in (a - 9) in change (a - 9) with v
    end; cbn -[Z.add Z.sub Z.mul leap Z.le Z.div];
    destruct (leap (year_of doe + 1)); split; zdiv.
Qed.

Lemma drop_zeros_split l : exists k, l = repeat (byte_of 48) k ++ drop_zeros l.
Proof.
  induction l as [|c l [k IH]]; [by exists 0%nat|]. cbn [drop_zeros]. destruct (is_char 48 c) eqn:E; [|by exists 0%nat].
  exists (S k). cbn [repeat app]. rewrite <-IH. f_equal. unfold is_char in E. apply Z.eqb_eq in E. symmetry. by apply byte_of_code.
Qed.
Lemma digits_value_zeros l k : digits_value (l ++ repeat (byte_of 48) k) = digits_value l * 10 ^ Z.of_nat k.
Proof.
  induction k as [|k IH]; [cbn [repeat]; rewrite app_nil_r; lia|].
  replace (repeat (byte_of 48) (S k)) with (repeat (byte_of 48) k ++ [byte_of 48]) by (symmetry; apply repeat_cons).
  rewrite (assoc_L (++)), digits_value_app, IH, Nat2Z.inj_succ, Z.pow_succ_r by lia. change (code (byte_of 48)) with 48. lia.
Qed.
Lemma take_digits_app ds tl : Forall (fun c => is_digit c = true) ds -> (match tl with c :: _ => is_digit c = false | [] => True end) ->
  take_digits (ds ++ tl) = (ds, tl).
Proof.
  intros Hd Htl. induction Hd as [|c ds Hc Hd IH]; cbn [app take_digits].
  - destruct tl as [|c tl]; [done|]. cbn [take_digits]. by rewrite Htl.
  - by rewrite Hc, IH.
Qed.
Lemma parse_fraction_text ns : 0 <= ns < second -> parse_fraction (fraction ns ++ [byte_of 90]) = (ns, [byte_of 90]).
Proof.
  intros Hns. unfold fraction. pose proof (digits_value_digits 9 ns Hns) as Hv. pose proof (length_digits 9 ns) as Hl.
  pose proof (digits_are 9 ns) as Hd. destruct (drop_zeros_split (rev (digits 9 ns))) as [k E]. apply (f_equal (@rev ascii)) in E.
  rewrite rev_involutive, rev_app_distr, rev_repeat in E. destruct (drop_zeros (rev (digits 9 ns))) as [|c ds].
  - cbn [rev app] in E. rewrite E in Hv. change (repeat (byte_of 48) k) with ([] ++ repeat (byte_of 48) k) in Hv. rewrite digits_value_zeros in Hv.
    cbn in Hv. subst ns. reflexivity.
  - set (fs := rev (c :: ds)) in *. rewrite E in Hv, Hl, Hd. rewrite digits_value_zeros in Hv. rewrite length_app, repeat_length in Hl.
    apply Forall_app in Hd as [Hd _]. assert (Hne : (1 <= length fs)%nat) by (unfold fs; rewrite length_rev; cbn; lia).
    destruct fs as [|f fs'] eqn:Ef; [cbn in Hne; lia|]. cbn [app parse_fraction]. apply Forall_cons in Hd as Hd'. destruct Hd' as [Hf _].
    change (is_char 46 (byte_of 46)) with true. cbn [orb andb]. rewrite Hf. cbn [drop].
    change (f :: fs' ++ [byte_of 90]) with ((f :: fs') ++ [byte_of 90]). rewrite take_digits_app by (done || reflexivity).
    rewrite take_ge by (cbn [length] in *; lia). replace (9 - Z.of_nat (length (f :: fs'))) with (Z.of_nat k) by lia. by rewrite Hv.
Qed.
Lemma parse_time_text t : year_ok t = true -> parse_time (time_text t) = Some t.
Proof.
  unfold year_ok, time_text, parse_time. pose proof (date_clock UTC t) as Hw. unfold DateOf in *.
  pose proof (civil_valid (reading UTC t / 86400)) as Hc. destruct (civil (reading UTC t / 86400)) as [[y m] d]. destruct Hc as [Hm Hd].
  intros Hy. rewrite andb_true_iff, !Z.leb_le in Hy.
  assert (Hd31 : daysIn m y <= 31) by (unfold daysIn; repeat case_match; lia).
  assert (Hbounds : 0 <= HourOf UTC t < 24 /\ 0 <= MinuteOf UTC t < 60 /\ 0 <= SecondOf UTC t < 60) by (unfold HourOf, MinuteOf, SecondOf; split_and!; zdiv).
  destruct Hbounds as (Hh & Hmi & Hs).
  rewrite (take_app_length' (digits 4 y)), (drop_app_length' (digits 4 y)) by (by rewrite length_digits).
  rewrite length_digits, (proj2 (forallb_forall _ _)).
  2: { intros c Hin. pose proof (digits_are 4 y) as Hall. rewrite Forall_forall in Hall. by apply Hall, list_elem_of_In. }
  cbn [Nat.eqb andb negb]. rewrite digits_value_digits by lia.
  rewrite expect_byte, two_digits_digits, expect_byte, two_digits_digits, expect_byte, hour_digits_digits, expect_byte, two_digits_digits, expect_byte, two_digits_digits by lia.
  rewrite parse_fraction_text by (unfold second; zdiv). cbn [parse_zone]. change (is_char 90 (byte_of 90)) with true. cbv iota.
  rewrite !(proj2 (Z.leb_le _ _)), !(proj2 (Z.ltb_lt _ _)) by lia. cbn [andb]. f_equal. rewrite Hw, Z.sub_0_r.
  unfold reading. change (offset_at UTC (secs t)) with 0. unfold secs, second. zdiv.
Qed.

(** ** Objects *)
(** The text of one value: it does not begin with a blank, and wherever a comma
    or a brace follows it, it is read to its end. *)
Definition ends (tl : list ascii) : Prop := match tl with c :: _ => is_char 44 c = true \/ is_char 125 c = true | [] => False end.
Definition value_text (raw : list ascii) : Prop :=
  (exists c l, raw = c :: l /\ is_ws c = false) /\
  forall f d tl, ends tl -> (1 <= f)%nat -> skip_value f d (raw ++ tl) = Some tl.
Lemma skip_ws_head c l : is_ws c = false -> skip_ws (c :: l) = c :: l.
Proof. intros E. cbn [skip_ws]. by rewrite E. Qed.
Lemma json_string_head s : exists l, json_string s = dq :: l.
Proof. by eexists. Qed.
Lemma value_text_string s : valid_utf8 s = true -> value_text (json_string s).
Proof.
  intros Hs. split; [by exists dq; eexists|]. intros f d tl _ Hf. destruct f as [|f]; [lia|]. destruct (json_string_head s) as [l El].
  pose proof (unquote_json_string s tl (length (dq :: l ++ tl)) Hs) as Hu. rewrite El in *. cbn [tail app] in *.
  cbn [skip_value]. rewrite skip_ws_head by done. change (is_char 34 dq) with true. cbv iota. rewrite Hu; [done|]. cbn [length]. rewrite length_app. lia.
Qed.
Lemma value_text_true : value_text (bytes "true").
Proof.
  split; [by eexists _, _|]. intros f d tl _ Hf. destruct f as [|f]; [lia|]. reflexivity.
Qed.
Lemma raw_of_app raw tl : raw_of (raw ++ tl) tl = raw.
Proof. unfold raw_of. rewrite length_app, Nat.add_sub. apply take_app_length. Qed.
Definition member_ok (kv : string * list ascii) : Prop := valid_utf8 kv.1 = true /\ value_text kv.2.
Lemma members_step f d first kv tl : member_ok kv -> (2 <= f)%nat -> ends tl ->
  members (S f) d first (member_text kv ++ tl) =
  match tl with
  | e :: l5 => if is_char 125 e then Some ([(bytes kv.1, kv.2)], l5)
               else match members f d false l5 with Some (kvs, l6) => Some ((bytes kv.1, kv.2) :: kvs, l6) | None => None end
  | [] => None
  end.
Proof.
  destruct kv as [k raw]. intros [Hk Hraw] Hf Htl. cbn [fst snd] in *. destruct Hraw as [(c & l & -> & Hws) Hv]. unfold member_text. cbn [fst snd].
  destruct (json_string_head k) as [kl Ek]. set (rest := byte_of 58 :: c :: l ++ tl).
  assert (Etext : (json_string k ++ byte_of 58 :: c :: l) ++ tl = dq :: kl ++ rest) by (rewrite <-(assoc_L (++)), Ek; done).
  rewrite Etext. assert (Hu : unquote (length (dq :: kl ++ rest)) (kl ++ rest) = Some (bytes k, rest)).
  { pose proof (unquote_json_string k rest (length (dq :: kl ++ rest)) Hk) as Hu. rewrite Ek in Hu. cbn [tail] in Hu. apply Hu. cbn [length]. rewrite length_app. lia. }
  cbn [members]. rewrite skip_ws_head by done. change (is_char 125 dq) with false. change (is_char 34 dq) with true. cbn [andb negb].
  rewrite Hu. unfold rest. rewrite skip_ws_head by done. change (is_char 58 (byte_of 58)) with true. cbn [negb].
  pose proof (Hv f d tl Htl ltac:(lia)) as Hs. cbn [app] in Hs. rewrite Hs. rewrite (skip_ws_head c) by done.
  change (c :: l ++ tl) with ((c :: l) ++ tl). rewrite raw_of_app. destruct tl as [|e tl]; [done|].
  assert (He : is_ws e = false).
  { unfold is_ws, is_char in *. destruct Htl as [Htl|Htl]; apply Z.eqb_eq in Htl; by rewrite Htl. }
  rewrite skip_ws_head by done. destruct (is_char 125 e) eqn:E125; [done|]. destruct Htl as [->|]; [done|congruence].
Qed.
Lemma members_print kvs : kvs <> [] -> Forall member_ok kvs -> forall f d first tl, (length kvs + 2 <= f)%nat ->
  members f d first (members_text kvs ++ tl) = Some (map (fun kv => (bytes kv.1, kv.2)) kvs, tl).
Proof.
  induction kvs as [|kv kvs IH]; [done|]. intros _ [Hkv Hkvs]%Forall_cons f d first tl Hf. cbn [length] in Hf. destruct f as [|f]; [lia|].
  destruct kvs as [|kv' kvs].
  - change (members_text [kv]) with (member_text kv ++ [byte_of 125]). rewrite <-(assoc_L (++)). rewrite members_step by (done || lia || by right). reflexivity.
  - change (members_text (kv :: kv' :: kvs)) with (member_text kv ++ byte_of 44 :: members_text (kv' :: kvs)). rewrite <-(assoc_L (++)).
    rewrite members_step by (done || lia || by left). cbn [app]. change (is_char 125 (byte_of 44)) with false. cbv iota. rewrite IH by (done || (cbn [length] in *; lia)). done.
Qed.
(** An object is read back as the members it was written with. *)
Lemma read_object kvs : kvs <> [] -> Forall member_ok kvs ->
  read_document (object_text kvs) = Some (DocObject (map (fun kv => (bytes kv.1, kv.2)) kvs)).
Proof.
  intros Hne Hok.
  assert (Hlen : (length kvs <= length (members_text kvs))%nat).
  { clear Hne Hok. induction kvs as [|kv [|kv' kvs] IH]; [cbn; lia|unfold members_text; rewrite length_app; cbn; lia|].
    change (members_text (kv :: kv' :: kvs)) with (member_text kv ++ byte_of 44 :: members_text (kv' :: kvs)). rewrite length_app. cbn [length] in *. lia. }
  unfold read_document. set (n := enough (object_text kvs)).
  assert (Hn : (length kvs + 3 <= n)%nat) by (unfold n, enough, object_text; cbn [length]; lia).
  assert (Hskip : skip_value n 0 (object_text kvs) = Some []).
  { destruct n as [|n']; [lia|]. unfold object_text. cbn [skip_value]. rewrite skip_ws_head by done. change (is_char 34 (byte_of 123)) with false.
    change (is_char 123 (byte_of 123)) with true. change (maxNestingDepth <=? 0) with false. cbv iota.
    rewrite <-(app_nil_r (members_text kvs)). rewrite members_print by (done || lia). done. }
  rewrite Hskip. change (negb (bool_decide (skip_ws [] = []))) with false. cbv iota. unfold object_text at 1. rewrite skip_ws_head by done.
  change (is_char 123 (byte_of 123)) with true. cbv iota. rewrite <-(app_nil_r (members_text kvs)). rewrite members_print by (done || lia). done.
Qed.
