(* ===== verification/Session.v ===== *)
(** * Session cookies ([internal/session])

    The cookie is the base64 of a JSON text, a dot, and the base64 of its
    HMAC-SHA256: the bytes are those the program writes. *)
From stdpp Require Import base list strings.
From Stdlib Require Import ZArith Lia.
From Stdlib Require Import Ascii.
From Stdlib Require String.
From S2P Require Import Prelude Text Runes Json Db Calendar GoTime NodeToken JsonText JsonFacts.
Local Open Scope string_scope.
Local Open Scope list_scope.
Local Open Scope Z_scope.

Definition ErrInvalid : error := Sentinel "session.ErrInvalid" "invalid session".
Record Session := MkSession {
  SUserID : string; SIsSuperAdmin : bool; SExpiresAt : Time; SLastVerifiedAt : Time; SIsLocalAccount : bool
}.
Definition New (userID : string) (duration : Z) (now : Time) : Session := MkSession userID false (now + duration) now false.
Definition NewLocal (userID : string) (duration : Z) (now : Time) : Session := MkSession userID false (now + duration) 0 true.
Definition NewSuperAdmin (duration : Z) (now : Time) : Session := MkSession "" true (now + duration) 0 false.

(** ** HMAC-SHA256 *)
Definition hmac_block : nat := 64.
Definition hmac_key (secret : list Z) : list Z :=
  let k := if Nat.ltb hmac_block (length secret) then SHA256.Sum256 secret else secret in k ++ repeat 0 (hmac_block - length k).
Definition hmac_sha256 (secret data : list Z) : list Z :=
  let k := hmac_key secret in
  SHA256.Sum256 (map (Z.lxor 92) k ++ SHA256.Sum256 (map (Z.lxor 54) k ++ data)).
Definition sign (secret : string) (data : string) : string := of_bytes (base64_raw (hmac_sha256 (byte_codes secret) (byte_codes data))).

(** ** The payload *)
Definition quoted_time (t : Time) : list ascii := dq :: time_text t ++ [dq].
Definition when_set (b : bool) (l : list (string * list ascii)) : list (string * list ascii) := if b then l else [].
Definition session_members (s : Session) : list (string * list ascii) :=
  [("uid", json_string (SUserID s))] ++ when_set (SIsSuperAdmin s) [("sa", bytes "true")] ++
  [("exp", quoted_time (SExpiresAt s)); ("lva", quoted_time (SLastVerifiedAt s))] ++
  when_set (SIsLocalAccount s) [("loc", bytes "true")].
Definition marshal (s : Session) : result (list ascii) :=
  if year_ok (SExpiresAt s) && year_ok (SLastVerifiedAt s) then Ok (object_text (session_members s))
  else Err (Opaque "Time.MarshalJSON: year outside of range [0,9999]").

Definition no_field : error := Opaque "json: cannot unmarshal into Go struct field".
Definition is_null (raw : list ascii) : bool := bool_decide (raw = bytes "null").
Definition string_field (raw : list ascii) (old : string) : result string :=
  if is_null raw then Ok old
  else match raw with
       | c :: l => if is_char 34 c then match unquote (length raw) l with Some (b, _) => Ok (of_bytes b) | None => Err no_field end else Err no_field
       | [] => Err no_field
       end.
Definition bool_field (raw : list ascii) (old : bool) : result bool :=
  if is_null raw then Ok old else if bool_decide (raw = bytes "true") then Ok true else if bool_decide (raw = bytes "false") then Ok false else Err no_field.
(** [Time.UnmarshalJSON], on the text between the quotes as it stands. *)
Definition time_field (raw : list ascii) (old : Time) : result Time :=
  if is_null raw then Ok old
  else match raw with
       | c :: l =>
           if is_char 34 c && (2 <=? Z.of_nat (length raw)) && bool_decide (last l = Some dq) then
             match parse_time (removelast l) with Some t => Ok t | None => Err no_field end
           else Err no_field
       | [] => Err no_field
       end.
Definition field_names : list string := ["uid"; "sa"; "exp"; "lva"; "loc"].
(** The field a key names: exactly, or else whatever the case. *)
Definition field_of (key : string) : option string :=
  if bool_decide (key ∈ field_names) then Some key else List.find (fun n => equal_fold n key) field_names.
Definition set_field (name : string) (raw : list ascii) (s : Session) : result Session :=
  if bool_decide (name = "uid") then
    match string_field raw (SUserID s) with
    | Ok v => Ok (MkSession v (SIsSuperAdmin s) (SExpiresAt s) (SLastVerifiedAt s) (SIsLocalAccount s)) | Err e => Err e end
  else if bool_decide (name = "sa") then
    match bool_field raw (SIsSuperAdmin s) with
    | Ok v => Ok (MkSession (SUserID s) v (SExpiresAt s) (SLastVerifiedAt s) (SIsLocalAccount s)) | Err e => Err e end
  else if bool_decide (name = "exp") then
    match time_field raw (SExpiresAt s) with
    | Ok v => Ok (MkSession (SUserID s) (SIsSuperAdmin s) v (SLastVerifiedAt s) (SIsLocalAccount s)) | Err e => Err e end
  else if bool_decide (name = "lva") then
    match time_field raw (SLastVerifiedAt s) with
    | Ok v => Ok (MkSession (SUserID s) (SIsSuperAdmin s) (SExpiresAt s) v (SIsLocalAccount s)) | Err e => Err e end
  else
    match bool_field raw (SIsLocalAccount s) with
    | Ok v => Ok (MkSession (SUserID s) (SIsSuperAdmin s) (SExpiresAt s) (SLastVerifiedAt s) v) | Err e => Err e end.
(** Keys that name no field are skipped. *)
Fixpoint set_fields (kvs : list (list ascii * list ascii)) (s : Session) : result Session :=
  match kvs with
  | [] => Ok s
  | (k, raw) :: kvs' =>
      match field_of (of_bytes k) with
      | Some n => match set_field n raw s with Ok s' => set_fields kvs' s' | Err e => Err e end
      | None => set_fields kvs' s
      end
  end.
Definition zero_session : Session := MkSession "" false 0 0 false.
Definition unmarshal (l : list ascii) : result Session :=
  match read_document l with
  | Some (DocObject kvs) => set_fields kvs zero_session
  | Some DocNull => Ok zero_session
  | Some DocOther => Err no_field
  | None => Err (Opaque "invalid character in JSON text")
  end.

(** ** [Sign] and [Verify] *)
Definition Sign (secret : string) (s : Session) : result string :=
  match marshal s with
  | Err e => Err (Errorf "marshal session: " e "")
  | Ok payload =>
      let encoded := of_bytes (base64_raw (map code payload)) in
      Ok (encoded +:+ "." +:+ sign secret encoded)
  end.
Fixpoint splitOnce (l : list ascii) (sep : Z) : option (list ascii * list ascii) :=
  match l with
  | [] => None
  | c :: l' => if is_char sep c then Some ([], l') else match splitOnce l' sep with Some (a, b) => Some (c :: a, b) | None => None end
  end.
Definition Verify (secret cookieValue : string) (now : Time) : result Session :=
  match splitOnce (bytes cookieValue) 46 with
  | None => Err ErrInvalid
  | Some (encoded, signature) =>
      if negb (bool_decide (signature = bytes (sign secret (of_bytes encoded)))) then Err ErrInvalid
      else match base64_decode encoded with
      | None => Err ErrInvalid
      | Some payload =>
          match unmarshal (map byte_of payload) with
          | Err _ => Err ErrInvalid
          | Ok s => if SExpiresAt s <? now then Err ErrInvalid else Ok s
          end
      end
  end.

Example hmac_vector :
  of_bytes (hex_encode (hmac_sha256 (byte_codes "key") (byte_codes "The quick brown fox jumps over the lazy dog"))) =
  "f7bc83f430538424b13298e6aa6fb143ef4d59a14946175997479dbc2d1a3cd8".
Proof. vm_compute. reflexivity. Qed.
Example payload_text :
  (of_bytes <$> match marshal (New "ann" hour (63835596800 * second)) with Ok l => Some l | Err _ => None end) =
  Some (of_bytes (dquoted "{'uid':'ann','exp':'2023-11-14T23:13:20Z','lva':'2023-11-14T22:13:20Z'}")).
Proof. vm_compute. reflexivity. Qed.
Example lenient_payloads :
  map (fun s => unmarshal (dquoted s)) ["{'UID':'ann', 'x':[1], 'sa':null, 'exp':'2023-11-14T23:13:20Z'}"; "null"; "{'uid':1}"; "{'exp':'tomorrow'}"; "{"] =
  [Ok (MkSession "ann" false (63835600400 * second) 0 false); Ok zero_session; Err no_field; Err no_field; Err (Opaque "invalid character in JSON text")].
Proof. vm_compute. reflexivity. Qed.

(** ** What is read back *)
(** A text of characters JSON writes as they are. *)
Definition plain_char (c : ascii) : bool :=
  (32 <=? code c) && (code c <? 127) && negb (existsb (fun n => is_char n c) [34; 92; 60; 62; 38]).
Lemma plain_rune c : plain_char c = true -> valid_rune (code c) = true /\ encode_rune (code c) = [c] /\ json_rune (code c, [c]) = [c].
Proof. destruct c as [[] [] [] [] [] [] [] []]; vm_compute; (intros Hc; split_and!; congruence). Qed.
Lemma plain_chunks l : Forall (fun c => plain_char c = true) l ->
  Forall (fun r => valid_rune r = true) (map code l) /\ rune_bytes (map code l) = l /\
  concat (map json_rune (map (fun r => (r, encode_rune r)) (map code l))) = l.
Proof.
  induction 1 as [|c l Hc Hl (IH1 & IH2 & IH3)]; [done|]. destruct (plain_rune c Hc) as (H1 & H2 & H3). cbn [map].
  split; [by constructor|]. unfold rune_bytes in *. cbn [map concat]. rewrite IH2, IH3, H2, H3. done.
Qed.
Lemma plain_string l : Forall (fun c => plain_char c = true) l -> json_string (of_bytes l) = dq :: l ++ [dq] /\ valid_utf8 (of_bytes l) = true.
Proof.
  intros Hl. destruct (plain_chunks l Hl) as (H1 & H2 & H3).
  assert (Hc : chunks (of_bytes l) = map (fun r => (r, encode_rune r)) (map code l)).
  { rewrite <-chunks_of_runes by done. unfold of_runes. by rewrite H2. }
  split; [unfold json_string; by rewrite Hc, H3|]. unfold valid_utf8. rewrite Hc. apply forallb_forall. intros [r b] (x & [= <- <-] & _)%in_map_iff.
  apply negb_true_iff. exact (not_bad x).
Qed.
Lemma digit_plain c : is_digit c = true -> plain_char c = true.
Proof. destruct c as [[] [] [] [] [] [] [] []]; vm_compute; congruence. Qed.
Lemma digits_plain w n : Forall (fun c => plain_char c = true) (digits w n).
Proof. eapply Forall_impl; [apply digits_are|]. apply digit_plain. Qed.
Lemma fraction_plain ns : Forall (fun c => plain_char c = true) (fraction ns).
Proof.
  unfold fraction. destruct (drop_zeros_split (rev (digits 9 ns))) as [k E]. destruct (drop_zeros (rev (digits 9 ns))) as [|c ds]; [constructor|].
  constructor; [done|]. apply List.Forall_rev. assert (Hr : Forall (fun c => plain_char c = true) (rev (digits 9 ns))) by (apply List.Forall_rev, digits_plain).
  rewrite E in Hr. by apply Forall_app in Hr as [_ Hr].
Qed.
Lemma time_plain t : Forall (fun c => plain_char c = true) (time_text t).
Proof.
  unfold time_text. destruct (DateOf UTC t) as [[y m] d].
  repeat (apply Forall_app; split; [apply digits_plain|]; constructor; [done|]). apply Forall_app; split; [apply digits_plain|].
  apply Forall_app; split; [apply fraction_plain|]. by repeat constructor.
Qed.
Lemma quoted_time_value t : value_text (quoted_time t).
Proof. destruct (plain_string _ (time_plain t)) as [E Hv]. unfold quoted_time. rewrite <-E. by apply value_text_string. Qed.
Lemma not_null c l : is_char 110 c = false -> is_null (c :: l) = false.
Proof. intros Hc. apply bool_decide_eq_false. intros [= -> _]. by vm_compute in Hc. Qed.
Lemma time_field_text t old : year_ok t = true -> time_field (quoted_time t) old = Ok t.
Proof.
  intros Hy. unfold time_field, quoted_time. rewrite not_null by done. change (is_char 34 dq) with true. cbn [length]. rewrite length_app. cbn [length].
  rewrite (proj2 (Z.leb_le 2 _)) by lia. rewrite last_snoc, bool_decide_eq_true_2 by done. cbn [andb]. rewrite removelast_last. by rewrite parse_time_text.
Qed.
Lemma string_field_text s old : valid_utf8 s = true -> string_field (json_string s) old = Ok s.
Proof.
  intros Hs. pose proof (unquote_json_string s [] (length (json_string s)) Hs (Nat.le_refl _)) as Hu. rewrite app_nil_r in Hu.
  unfold string_field. destruct (json_string_head s) as [l E]. rewrite E in *. cbn [tail] in Hu. rewrite not_null by done. change (is_char 34 dq) with true.
  cbv iota. rewrite Hu. by rewrite of_bytes_bytes.
Qed.
Lemma session_members_ok s : valid_utf8 (SUserID s) = true -> Forall member_ok (session_members s).
Proof.
  intros Hs. pose proof value_text_true as Ht. pose proof (value_text_string _ Hs) as Hu.
  pose proof (quoted_time_value (SExpiresAt s)) as He. pose proof (quoted_time_value (SLastVerifiedAt s)) as Hl.
  unfold session_members. destruct (SIsSuperAdmin s), (SIsLocalAccount s); cbn [when_set app];
    repeat (apply Forall_cons; split; [by split|]); constructor.
Qed.
Lemma set_uid raw u sa ex lv lo : set_field "uid" raw (MkSession u sa ex lv lo) =
  match string_field raw u with Ok v => Ok (MkSession v sa ex lv lo) | Err e => Err e end.
Proof. reflexivity. Qed.
Lemma set_sa raw u sa ex lv lo : set_field "sa" raw (MkSession u sa ex lv lo) =
  match bool_field raw sa with Ok v => Ok (MkSession u v ex lv lo) | Err e => Err e end.
Proof. reflexivity. Qed.
Lemma set_exp raw u sa ex lv lo : set_field "exp" raw (MkSession u sa ex lv lo) =
  match time_field raw ex with Ok v => Ok (MkSession u sa v lv lo) | Err e => Err e end.
Proof. reflexivity. Qed.
Lemma set_lva raw u sa ex lv lo : set_field "lva" raw (MkSession u sa ex lv lo) =
  match time_field raw lv with Ok v => Ok (MkSession u sa ex v lo) | Err e => Err e end.
Proof. reflexivity. Qed.
Lemma set_loc raw u sa ex lv lo : set_field "loc" raw (MkSession u sa ex lv lo) =
  match bool_field raw lo with Ok v => Ok (MkSession u sa ex lv v) | Err e => Err e end.
Proof. reflexivity. Qed.
Lemma unmarshal_marshal s : valid_utf8 (SUserID s) = true -> year_ok (SExpiresAt s) && year_ok (SLastVerifiedAt s) = true ->
  unmarshal (object_text (session_members s)) = Ok s.
Proof.
  intros Hs [He Hl]%andb_true_iff. unfold unmarshal. rewrite read_object; [|by destruct s|by apply session_members_ok].
  destruct s as [u sa ex lv lo]. unfold session_members. cbn [SUserID SIsSuperAdmin SExpiresAt SLastVerifiedAt SIsLocalAccount] in *.
  pose proof (string_field_text u "" Hs) as Hu. pose proof (time_field_text ex 0 He) as Hex. pose proof (time_field_text lv 0 Hl) as Hlv.
  assert (Hfield : forall n, n ∈ field_names -> field_of (of_bytes (bytes n)) = Some n).
  { intros n Hn. rewrite of_bytes_bytes. unfold field_of. by rewrite bool_decide_eq_true_2. }
  unfold field_names in Hfield.
  assert (Htrue : forall b, bool_field (bytes "true") b = Ok true) by done.
  destruct sa, lo; cbn [when_set app map fst snd set_fields]; rewrite !Hfield by (repeat first [left|right]);
    unfold zero_session;
    repeat first [rewrite set_uid, Hu|rewrite set_sa, Htrue|rewrite set_exp, Hex|rewrite set_lva, Hlv|rewrite set_loc, Htrue]; reflexivity.
Qed.

Lemma splitOnce_app a b : existsb (is_char 46) a = false -> splitOnce (a ++ byte_of 46 :: b) 46 = Some (a, b).
Proof. induction a as [|c a IH]; cbn [existsb app splitOnce]; [done|]. intros [-> Ha]%orb_false_iff. by rewrite IH. Qed.
Lemma splitOnce_sound l a b : splitOnce l 46 = Some (a, b) -> l = a ++ byte_of 46 :: b /\ existsb (is_char 46) a = false.
Proof.
  revert a. induction l as [|c l IH]; intros a; cbn [splitOnce]; [done|]. destruct (is_char 46 c) eqn:Ec.
  - intros [= <- <-]. split; [|done]. cbn [app]. f_equal. unfold is_char in Ec. apply Z.eqb_eq in Ec. symmetry. by apply byte_of_code.
  - destruct (splitOnce l 46) as [[a' b']|]; [|done]. intros [= <- <-]. destruct (IH a' eq_refl) as [-> Ha]. cbn [existsb]. by rewrite Ec, Ha.
Qed.
Lemma base64_char_not_dot v : 0 <= v < 64 -> is_char 46 (base64_char v) = false.
Proof.
  intros Hv. assert (Hall : forallb (fun v => negb (is_char 46 (base64_char v))) (map Z.of_nat (seq 0 64)) = true) by (vm_compute; reflexivity).
  rewrite forallb_forall in Hall. apply negb_true_iff, Hall, in_map_iff. exists (Z.to_nat v). rewrite in_seq. lia.
Qed.
Lemma base64_no_dot n : forall bs, (length bs <= n)%nat -> Forall octet bs -> existsb (is_char 46) (base64_raw bs) = false.
Proof.
  induction n as [|n IH]; intros bs Hn Hbs; [by destruct bs; [|cbn in Hn; lia]|].
  destruct bs as [|a [|b [|c bs]]]; [done|..]; cbn [base64_raw existsb]; unfold octet in *; repeat match goal with H : Forall _ (_ :: _) |- _ => apply Forall_cons in H as [? ?] end.
  - rewrite !base64_char_not_dot by zdiv. done.
  - rewrite !base64_char_not_dot by zdiv. done.
  - rewrite !base64_char_not_dot by zdiv. cbn [orb]. apply IH; [cbn in Hn; lia|done].
Qed.
Lemma codes_octets l : Forall octet (map code l).
Proof. apply List.Forall_map, Forall_forall. intros c _. apply code_range. Qed.
Lemma byte_of_codes l : map byte_of (map code l) = l.
Proof. rewrite map_map. rewrite <-(map_id l) at 2. apply map_ext. intros c. by apply byte_of_code. Qed.

Lemma Verify_of_Sign secret s now : valid_utf8 (SUserID s) = true -> year_ok (SExpiresAt s) && year_ok (SLastVerifiedAt s) = true ->
  exists c, Sign secret s = Ok c /\ Verify secret c now = if SExpiresAt s <? now then Err ErrInvalid else Ok s.
Proof.
  intros Hu Hy. unfold Sign, marshal. rewrite Hy. eexists. split; [reflexivity|]. unfold Verify. rewrite !bytes_app, bytes_of_bytes.
  change (bytes ".") with [byte_of 46]. cbn [app]. pose proof (codes_octets (object_text (session_members s))) as Ho.
  rewrite splitOnce_app by (by eapply base64_no_dot). rewrite bool_decide_eq_true_2 by done. cbn [negb].
  rewrite base64_roundtrip by done. rewrite byte_of_codes, unmarshal_marshal by done. done.
Qed.
(** What is read from a cookie that was signed. *)
Lemma Verify_signed secret s c now s' : Sign secret s = Ok c -> valid_utf8 (SUserID s) = true -> Verify secret c now = Ok s' ->
  s' = s /\ now <= SExpiresAt s.
Proof.
  intros Hs Hu Hv. assert (Hy : year_ok (SExpiresAt s) && year_ok (SLastVerifiedAt s) = true).
  { unfold Sign, marshal in Hs. by destruct (_ && _). }
  destruct (Verify_of_Sign secret s now Hu Hy) as (c' & E & Hv'). rewrite Hs in E. injection E as <-. rewrite Hv in Hv'.
  destruct (Z.ltb_spec (SExpiresAt s) now); [done|]. injection Hv' as ->. done.
Qed.
(** C39: a cookie that was signed is read back as the very session, byte for byte
    through JSON and base64, up to the moment it expires and not after; every
    session of an id in UTF-8 that expires before the year 10000 can be
    signed. *)
Theorem Verify_Sign secret s now : valid_utf8 (SUserID s) = true -> year_ok (SExpiresAt s) && year_ok (SLastVerifiedAt s) = true ->
  exists c, Sign secret s = Ok c /\ Verify secret c now = if SExpiresAt s <? now then Err ErrInvalid else Ok s.
Proof. intros Hu Hy. by apply Verify_of_Sign. Qed.
Lemma Verify_Sign_witness : valid_utf8 "ann" = true /\ exists c, Sign "key" (New "ann" hour (63835596800 * second)) = Ok c /\
  Verify "key" c (63835600401 * second) = Err ErrInvalid.
Proof.
  split; [vm_compute; reflexivity|].
  exact (Verify_Sign "key" (New "ann" hour (63835596800 * second)) (63835600401 * second) ltac:(vm_compute; reflexivity) ltac:(vm_compute; reflexivity)).
Defined.

(** What makes a cookie acceptable: the part before the first dot carries its own
    signature under the secret and is the text of a session that has not
    expired. *)
Lemma Verify_sound secret c now s : Verify secret c now = Ok s ->
  exists p, c = p +:+ "." +:+ sign secret p /\ now <= SExpiresAt s /\
    exists bs, base64_decode (bytes p) = Some bs /\ unmarshal (map byte_of bs) = Ok s.
Proof.
  unfold Verify. destruct (splitOnce (bytes c) 46) as [[a b]|] eqn:Es; [|done]. apply splitOnce_sound in Es as [Ec _].
  case_bool_decide as Hb; [|done]. cbn [negb]. destruct (base64_decode a) as [bs|] eqn:Eb; [|done].
  destruct (unmarshal (map byte_of bs)) as [s'|] eqn:Eu; [|done]. destruct (Z.ltb_spec (SExpiresAt s') now); [done|]. intros [= <-].
  exists (of_bytes a). split.
  - rewrite <-(of_bytes_bytes c), Ec, Hb. rewrite <-(of_bytes_bytes (of_bytes a +:+ _)). rewrite !bytes_app, bytes_of_bytes. done.
  - split; [done|]. exists bs. by rewrite bytes_of_bytes.
Qed.
