(* ===== verification/LoginGuard.v ===== *)
(** * What stands before a login ([internal/httpapi])

    The attempts an address may make ([rate_limit.go]), the addresses that may
    use the break-glass login ([breakglass_ip_whitelist.go]), the token a form
    must carry ([csrf.go]). *)
From stdpp Require Import base list strings gmap.
From Stdlib Require Import ZArith Lia.
From Stdlib Require Import Ascii.
From Stdlib Require String.
From S2P Require Import Prelude Text Runes Json Db NetIP GoTime.
Local Open Scope string_scope.
Local Open Scope list_scope.
Local Open Scope Z_scope.

(** ** Addresses ([net]) *)
Fixpoint index_from (n : Z) (i : nat) (l : list ascii) : option nat :=
  match l with c :: l' => if is_char n c then Some i else index_from n (S i) l' | [] => None end.
Definition index_byte (n : Z) (l : list ascii) : option nat := index_from n 0 l.
Definition last_index_byte (n : Z) (l : list ascii) : option nat :=
  match index_byte n (rev l) with Some i => Some (length l - 1 - i)%nat | None => None end.
Definition has_byte (n : Z) (l : list ascii) : bool := existsb (is_char n) l.
(** [net.SplitHostPort]: the host, when the text has the form of one. *)
Definition SplitHostPort (hostport : string) : option (string * string) :=
  let l := bytes hostport in
  match last_index_byte 58 l with
  | None => None
  | Some i =>
      let port := drop (S i) l in
      match l with
      | c :: l' =>
          if is_char 91 c then
            match index_byte 93 l with
            | None => None
            | Some e =>
                if Nat.eqb (S e) i then
                  if has_byte 91 (drop 1 l) || has_byte 93 (drop (S e) l) then None
                  else Some (of_bytes (take (e - 1) l'), of_bytes port)
                else None
            end
          else
            let host := take i l in
            if has_byte 58 host || has_byte 91 l || has_byte 93 l then None else Some (of_bytes host, of_bytes port)
      | [] => None
      end
  end.
Definition host_of (remoteAddr : string) : string := match SplitHostPort remoteAddr with Some (h, _) => h | None => remoteAddr end.

(** [net.ParseCIDR] and [IPNet.Contains]: the bytes of the network and of its
    mask. *)
Record IPNet := MkIPNet { net_ip : list Z; net_mask : list Z }.
Definition mask_byte (n : Z) (i : nat) : Z := 256 - 2 ^ (8 - Z.max 0 (Z.min 8 (n - 8 * Z.of_nat i))).
Definition CIDRMask (n : Z) (len : nat) : list Z := map (mask_byte n) (seq 0 len).
Definition mask_of (ip mask : list Z) : list Z := zip_with Z.land ip mask.
(** [dtoi]: digits up to the end, below 16777215. *)
Definition cidr_bits (l : list ascii) : option Z :=
  if bool_decide (l = []) || negb (forallb is_digit l) then None
  else let n := fold_left (fun acc c => if 16777215 <=? acc then acc else acc * 10 + (code c - 48)) l 0 in
       if 16777215 <=? n then None else Some n.
(** The address is of the family it is written in. *)
Definition ParseCIDR (s : string) : option IPNet :=
  let l := bytes s in
  match index_byte 47 l with
  | None => None
  | Some i =>
      match ParseIP (of_bytes (take i l)), addr_form (take i l), cidr_bits (drop (S i) l) with
      | Some ip, Some v4, Some n =>
          let raw := if v4 : bool then drop 12 ip else ip in
          if Z.of_nat (8 * length raw) <? n then None
          else let m := CIDRMask n (length raw) in Some (MkIPNet (mask_of raw m) m)
      | _, _, _ => None
      end
  end.
Definition To4 (ip : list Z) : option (list Z) :=
  if Nat.eqb (length ip) 4 then Some ip else if bool_decide (take 12 ip = v4_prefix) && Nat.eqb (length ip) 16 then Some (drop 12 ip) else None.
(** The network and its mask at the length of an IPv4 address, where it is one. *)
Definition networkNumberAndMask (n : IPNet) : list Z * list Z :=
  match To4 (net_ip n) with
  | Some ip => (ip, if Nat.eqb (length (net_mask n)) 16 then drop 12 (net_mask n) else net_mask n)
  | None => (net_ip n, net_mask n)
  end.
Definition Contains (n : IPNet) (ip : IP) : bool :=
  let (nn, m) := networkNumberAndMask n in
  let ip := default ip (To4 ip) in
  Nat.eqb (length ip) (length nn) && forallb (fun p => Z.land p.1.1 p.2 =? Z.land p.1.2 p.2) (zip (zip nn ip) m).

(** ** [breakglass_ip_whitelist.go] *)
Definition is_v4 (ip : IP) : bool := bool_decide (is_Some (To4 ip)).
Definition parse_entry (entry : string) : result IPNet :=
  let cidr e := match ParseCIDR e with Some n => Ok n | None => Err (Opaque ("invalid CIDR " +:+ quote e +:+ ": invalid CIDR address: " +:+ e)) end in
  if has_byte 47 (bytes entry) then cidr entry
  else match ParseIP entry with
       | None => Err (Opaque ("invalid IP " +:+ quote entry))
       | Some ip => cidr (entry +:+ "/" +:+ itoa (if is_v4 ip then 32 else 128))
       end.
Fixpoint parse_entries (entries : list string) : result (list IPNet) :=
  match entries with
  | [] => Ok []
  | e :: entries' =>
      let e := trim_space e in
      if bool_decide (e = "") then parse_entries entries'
      else match parse_entry e with
           | Err x => Err x
           | Ok n => match parse_entries entries' with Ok ns => Ok (n :: ns) | Err x => Err x end
           end
  end.
Definition newBreakGlassIPWhitelist (rawList : string) : result (list IPNet) :=
  let trimmed := trim_space rawList in
  if bool_decide (trimmed = "") then Ok [] else parse_entries (split_text 44 trimmed).
Definition allowed (nets : list IPNet) (remoteAddr : string) : bool :=
  if bool_decide (nets = []) then true
  else match ParseIP (host_of remoteAddr) with
       | None => false
       | Some ip => existsb (fun n => Contains n ip) nets
       end.

(** ** [rate_limit.go]

    Under its lock a call is one step. *)
Record rateLimitBucket := MkBucket { b_count : Z; b_windowStart : Time }.
Record loginRateLimiter := MkLimiter { l_maxAttempts : Z; l_window : Z; l_buckets : gmap string rateLimitBucket; l_lastSweep : Time }.
Definition newLoginRateLimiter (maxAttempts window : Z) : loginRateLimiter := MkLimiter maxAttempts window ∅ 0.
Definition set_buckets (m : gmap string rateLimitBucket) (l : loginRateLimiter) : loginRateLimiter :=
  MkLimiter (l_maxAttempts l) (l_window l) m (l_lastSweep l).
Definition sweepLocked (now : Time) (l : loginRateLimiter) : loginRateLimiter :=
  if Sub now (l_lastSweep l) <? l_window l then l
  else MkLimiter (l_maxAttempts l) (l_window l)
         (filter (fun kv => negb (l_window l <=? Sub now (b_windowStart kv.2))) (l_buckets l)) now.
Definition allow (remoteAddr : string) (now : Time) (l : loginRateLimiter) : bool * loginRateLimiter :=
  let host := host_of remoteAddr in
  let l := sweepLocked now l in
  let fresh := (true, set_buckets (<[host := MkBucket 1 now]> (l_buckets l)) l) in
  match l_buckets l !! host with
  | None => fresh
  | Some b =>
      if l_window l <=? Sub now (b_windowStart b) then fresh
      else if l_maxAttempts l <=? b_count b then (false, l)
      else (true, set_buckets (<[host := MkBucket (b_count b + 1) (b_windowStart b)]> (l_buckets l)) l)
  end.

(** ** [csrf.go] *)
(** What of a request the check reads; [rq_form] is the token of the body, when
    the body can be parsed. *)
Record FormRequest := MkFormRequest {
  rq_contentType : string; rq_csrfCookie : option string; rq_header : string; rq_form : option string
}.
Definition isFormRequest (contentType : string) : bool :=
  has_prefix contentType "application/x-www-form-urlencoded" || has_prefix contentType "multipart/form-data".
Inductive verdict := Pass | Reject (status : Z) (code : string).
Definition csrf_invalid : verdict := Reject 403 "CSRF_INVALID".
Definition RequireCSRF (r : FormRequest) : verdict :=
  if negb (isFormRequest (rq_contentType r)) then Pass
  else match rq_csrfCookie r with
       | None => csrf_invalid
       | Some cookie =>
           if bool_decide (cookie = "") then csrf_invalid
           else
             let check submitted := if bool_decide (submitted = "") || negb (bool_decide (submitted = cookie)) then csrf_invalid else Pass in
             if bool_decide (rq_header r = "") then
               match rq_form r with None => csrf_invalid | Some f => check f end
             else check (rq_header r)
       end.
Definition limiter_middleware (remoteAddr : string) (now : Time) (l : loginRateLimiter) : verdict * loginRateLimiter :=
  let (ok, l') := allow remoteAddr now l in (if ok then Pass else Reject 429 "RATE_LIMITED", l').
Definition whitelist_middleware (nets : list IPNet) (remoteAddr : string) : verdict :=
  if allowed nets remoteAddr then Pass else Reject 403 "IP_NOT_ALLOWED".
(** The guards of the three login routes in the order they are mounted. *)
Definition login_guards (nets : option (list IPNet)) (remoteAddr : string) (now : Time) (r : FormRequest) (l : loginRateLimiter) : verdict * loginRateLimiter :=
  match match nets with Some n => whitelist_middleware n remoteAddr | None => Pass end with
  | Reject s c => (Reject s c, l)
  | Pass => match limiter_middleware remoteAddr now l with
            | (Pass, l') => (RequireCSRF r, l')
            | other => other
            end
  end.

Example hosts :
  map host_of ["10.0.0.7:443"; "[::1]:80"; "[::1]"; "10.0.0.7"; "::1"; "[a]b:1"; ":80"] = ["10.0.0.7"; "::1"; "[::1]"; "10.0.0.7"; "::1"; "[a]b:1"; ""].
Proof. vm_compute. reflexivity. Qed.
Example whitelist_ranges :
  match newBreakGlassIPWhitelist " 10.0.0.0/8, 127.0.0.1 ,2001:db8::/33," with
  | Ok nets => map (allowed nets) ["10.255.0.1:1"; "11.0.0.1:1"; "127.0.0.1:1"; "127.0.0.2:1"; "[2001:db8:7fff::1]:1"; "[2001:db8:8000::1]:1"; "[::ffff:10.1.1.1]:1"; "junk"]
  | Err _ => []
  end = [true; false; true; false; true; false; true; false] /\
  map (fun s => is_ok (newBreakGlassIPWhitelist s)) ["10.0.0.300"; "10.0.0.0/33"; "host"; "10.0.0.0/a"] = [false; false; false; false].
Proof. vm_compute. split; reflexivity. Qed.
(** A host written as an IPv4 address inside IPv6 is taken for a network of 32
    bits of IPv6: it is shut out itself, and [::1] comes in. *)
Example whitelist_mapped :
  match newBreakGlassIPWhitelist "::ffff:10.0.0.7" with
  | Ok nets => map (allowed nets) ["10.0.0.7:1"; "[::ffff:10.0.0.7]:1"; "[::1]:1"]
  | Err _ => []
  end = [false; false; true].
Proof. vm_compute. reflexivity. Qed.
(** A list of nothing but separators is a list that lets everybody in. *)
Example whitelist_separators :
  match newBreakGlassIPWhitelist " , " with Ok nets => allowed nets "203.0.113.9:1" | Err _ => false end = true.
Proof. vm_compute. reflexivity. Qed.
