(* ===== verification/LoginGuardSpec.v ===== *)
(** * What the guards of a login hold to

    The limiter answers each address as if it were the only one and its map were
    never swept; in no stretch of a window's length does it let an address
    through twice as often as configured, and it refuses only an address that
    has used its attempts. *)
From stdpp Require Import base list strings gmap.
From Stdlib Require Import ZArith Lia.
From Stdlib Require Import Ascii.
From Stdlib Require String.
From S2P Require Import Prelude Text Runes Json Db NetIP GoTime LoginGuard.
Local Open Scope string_scope.
Local Open Scope list_scope.
Local Open Scope Z_scope.

(** ** A run of the limiter *)
Abbreviation Call := (string * Time)%type.
Fixpoint verdicts (l : loginRateLimiter) (calls : list Call) : list (Call * bool) :=
  match calls with
  | [] => []
  | c :: calls' => let (ok, l') := allow c.1 c.2 l in (c, ok) :: verdicts l' calls'
  end.
Fixpoint ordered (t : Time) (ts : list Time) : Prop := match ts with [] => True | u :: ts' => t <= u /\ ordered u ts' end.
Definition calls_ordered (calls : list Call) : Prop := match map snd calls with [] => True | u :: ts => ordered u ts end.
Definition from_host (h : string) (c : Call) : bool := bool_decide (host_of c.1 = h).
Definition answers_to (h : string) (vs : list (Call * bool)) : list (Time * bool) :=
  map (fun v => (v.1.2, v.2)) (List.filter (fun v => from_host h v.1) vs).
Definition accepted (vs : list (Time * bool)) : list Time := map fst (List.filter snd vs).

(** ** One address by itself *)
Section Reference.
Context (m w : Z).
Definition ref_allow (now : Time) (b : option rateLimitBucket) : bool * option rateLimitBucket :=
  match b with
  | None => (true, Some (MkBucket 1 now))
  | Some b =>
      if w <=? now - b_windowStart b then (true, Some (MkBucket 1 now))
      else if m <=? b_count b then (false, Some b)
      else (true, Some (MkBucket (b_count b + 1) (b_windowStart b)))
  end.
Fixpoint ref_answers (b : option rateLimitBucket) (ts : list Time) : list (Time * bool) :=
  match ts with
  | [] => []
  | u :: ts' => let (ok, b') := ref_allow u b in (u, ok) :: ref_answers b' ts'
  end.
Definition within (t : Time) (u : Time) : bool := (t <=? u) && (u <? t + w).
Definition uses (t : Time) (vs : list (Time * bool)) : Z := Z.of_nat (length (List.filter (within t) (accepted vs))).
Definition cap : Z := Z.max 1 m.

Lemma ordered_weaken t t' ts : t' <= t -> ordered t ts -> ordered t' ts.
Proof. destruct ts as [|u ts]; [done|]. cbn. intros ? [? ?]. split; [lia|done]. Qed.
Lemma uses_cons t u ok vs : uses t ((u, ok) :: vs) = (if ok && within t u then 1 else 0) + uses t vs.
Proof. unfold uses, accepted. destruct ok; cbn [List.filter snd map fst andb]; [|lia]. destruct (within t u); cbn [length]; lia. Qed.
Lemma uses_late t ts : forall b u, t + w <= u -> ordered u ts -> uses t (ref_answers b ts) = 0.
Proof.
  induction ts as [|v ts IH]; intros b u Hu Hts; [done|]. cbn [ref_answers]. destruct (ref_allow v b) as [ok b']. destruct Hts as [Hv Hts].
  rewrite uses_cons, (IH b' v) by (done || lia). unfold within. rewrite (proj2 (Z.ltb_ge v (t + w))) by lia. by rewrite andb_false_r, andb_false_r.
Qed.
Lemma uses_in_window t ts : forall c s u, t + w <= s + w -> ordered u ts -> uses t (ref_answers (Some (MkBucket c s)) ts) <= Z.max 0 (m - c).
Proof.
  induction ts as [|v ts IH]; intros c s u Hs Hts; [change (0 <= Z.max 0 (m - c)); lia|]. destruct Hts as [Hv Hts].
  destruct (Z.le_gt_cases (t + w) v) as [Hlate|Hearly]; [rewrite (uses_late t (v :: ts) _ v) by (done || (split; [lia|done])); lia|].
  cbn [ref_answers ref_allow b_windowStart b_count]. rewrite (proj2 (Z.leb_gt w (v - s))) by lia.
  destruct (Z.leb_spec m c); rewrite uses_cons; cbn [andb].
  - specialize (IH c s v Hs Hts). lia.
  - specialize (IH (c + 1) s v Hs Hts). destruct (within t v); lia.
Qed.
Lemma uses_from t ts : forall b u, 0 <= w -> t <= u -> ordered u ts -> (forall x, b = Some x -> 1 <= b_count x) ->
  uses t (ref_answers b ts) <= match b with Some x => Z.max 0 (m - b_count x) + cap | None => cap end.
Proof.
  unfold cap. induction ts as [|v ts IH]; intros b u Hw Hu Hts Hb; [change (uses t (ref_answers b [])) with 0; destruct b; lia|]. destruct Hts as [Hv Hts].
  assert (Hfresh : uses t ((v, true) :: ref_answers (Some (MkBucket 1 v)) ts) <= Z.max 1 m).
  { rewrite uses_cons. pose proof (uses_in_window t ts 1 v v ltac:(lia) Hts). destruct (true && within t v); lia. }
  destruct b as [[c s]|]; [|exact Hfresh]. specialize (Hb _ eq_refl). cbn [b_count] in *. cbn [ref_answers ref_allow b_windowStart b_count].
  destruct (Z.leb_spec w (v - s)); [etransitivity; [exact Hfresh|lia]|]. destruct (Z.leb_spec m c); rewrite uses_cons; cbn [andb].
  - pose proof (IH (Some (MkBucket c s)) v Hw ltac:(lia) Hts ltac:(by intros ? [= <-])) as Hi. cbn [b_count] in Hi. lia.
  - pose proof (IH (Some (MkBucket (c + 1) s)) v Hw ltac:(lia) Hts ltac:(intros ? [= <-]; cbn; lia)) as Hi. cbn [b_count] in Hi. destruct (within t v); lia.
Qed.
Lemma uses_any t ts : forall b u, 0 <= w -> ordered u ts -> (forall x, b = Some x -> 1 <= b_count x) -> uses t (ref_answers b ts) <= 2 * cap - 1.
Proof.
  induction ts as [|v ts IH]; intros b u Hw Hts Hb; [change (uses t (ref_answers b [])) with 0; unfold cap; lia|]. destruct Hts as [Hv Hts].
  destruct (Z.le_gt_cases t v) as [Hin|Hbefore].
  - pose proof (uses_from t (v :: ts) b v Hw Hin ltac:(split; [lia|done]) Hb) as Hf. unfold cap in *. destruct b as [x|]; [specialize (Hb x eq_refl)|]; lia.
  - assert (Hno : within t v = false) by (unfold within; by rewrite (proj2 (Z.leb_gt t v)) by lia).
    cbn [ref_answers]. destruct (ref_allow v b) as [ok b'] eqn:Er. rewrite uses_cons, Hno, andb_false_r. rewrite Z.add_0_l. apply (IH b' v Hw Hts).
    intros x ->. unfold ref_allow in Er. destruct b as [[c s]|]; cbn [b_windowStart b_count] in Er; [specialize (Hb _ eq_refl); cbn in Hb|by injection Er as <- <-].
    repeat case_match; simplify_eq; cbn; lia.
Qed.
End Reference.

(** ** The limiter and its reference *)
Definition window_ok (w : Z) : Prop := 0 <= w < 2 ^ 63.
Lemma Sub_window w now s : window_ok w -> (w <=? Sub now s) = (w <=? now - s).
Proof. unfold window_ok, Sub. intros Hw. apply eq_true_iff_eq. rewrite !Z.leb_le. lia. Qed.
Section Simulation.
Context (m w : Z) (h : string) (Hw : window_ok w).
Definition matches (now : Time) (b : option rateLimitBucket) (l : loginRateLimiter) : Prop :=
  l_maxAttempts l = m /\ l_window l = w /\
  (l_buckets l !! h = b \/ (l_buckets l !! h = None /\ exists x, b = Some x /\ w <= now - b_windowStart x)).
Lemma matches_later now now' b l : now <= now' -> matches now b l -> matches now' b l.
Proof. intros Hn (E1 & E2 & [E|(E & x & Ex & Hx)]); (split; [done|split; [done|]]); [by left|right]. split; [done|]. exists x. split; [done|lia]. Qed.
Lemma matches_sweep now b l : matches now b l -> matches now b (sweepLocked now l).
Proof.
  intros (E1 & E2 & Hb). unfold sweepLocked. destruct (_ <? _); [by split|]. split; [done|]. split; [done|]. cbn [l_buckets].
  destruct Hb as [Hb|[Hb Hx]].
  - destruct b as [x|]; [|left; apply map_lookup_filter_None; by left].
    rewrite E2. destruct (w <=? Sub now (b_windowStart x)) eqn:Ex.
    + right. split; [|exists x; split; [done|]; rewrite Sub_window in Ex by done; by apply Z.leb_le]. apply map_lookup_filter_None. right.
      intros y Hy. rewrite Hb in Hy. injection Hy as <-. cbn. rewrite Ex. by intros [].
    + left. apply map_lookup_filter_Some. split; [done|]. cbn. by rewrite Ex.
  - right. split; [|done]. apply map_lookup_filter_None. by left.
Qed.
Lemma allow_matches addr now b l : matches now b l ->
  if bool_decide (host_of addr = h) then (allow addr now l).1 = (ref_allow m w now b).1 /\ matches now (ref_allow m w now b).2 (allow addr now l).2
  else matches now b (allow addr now l).2.
Proof.
  intros Hm%matches_sweep. unfold allow. cbv zeta. generalize dependent (sweepLocked now l). clear l. intros l (E1 & E2 & Hb).
  assert (Hput : forall k x, matches now (if bool_decide (k = h) then Some x else b) (set_buckets (<[k := x]> (l_buckets l)) l)).
  { intros k x. split; [done|]. split; [done|]. cbn [l_buckets set_buckets]. case_bool_decide as Hk; [subst k; left; by rewrite lookup_insert_eq|].
    by rewrite lookup_insert_ne. }
  assert (Hkeep : matches now b l) by by split. case_bool_decide as Hh.
  - assert (Hput' := Hput (host_of addr)). rewrite bool_decide_eq_true_2 in Hput' by done. rewrite Hh in *.
    destruct Hb as [Hb|(Hb & x & -> & Hx)]; rewrite Hb.
    + destruct b as [[c s]|]; cbn [b_windowStart b_count ref_allow]; [|split; [done|apply Hput']].
      rewrite E1, E2, Sub_window by done. destruct (w <=? now - s); [split; [done|apply Hput']|]. destruct (m <=? c); [by split|split; [done|apply Hput']].
    + destruct x as [c s]. cbn [ref_allow b_windowStart b_count] in *. rewrite (proj2 (Z.leb_le w (now - s))) by done. split; [done|apply Hput'].
  - assert (Hput' := Hput (host_of addr)). rewrite bool_decide_eq_false_2 in Hput' by done.
    repeat case_match; cbn [snd]; try apply Hput'; done.
Qed.
Lemma run_matches calls : forall now b l, matches now b l -> ordered now (map snd calls) ->
  answers_to h (verdicts l calls) = ref_answers m w b (map snd (List.filter (from_host h) calls)).
Proof.
  induction calls as [|[addr u] calls IH]; intros now b l Hm Hts; [done|]. destruct Hts as [Hu Hts]. cbn [snd] in Hu.
  pose proof (allow_matches addr u b l (matches_later now u b l Hu Hm)) as Ha. cbn [verdicts fst snd]. destruct (allow addr u l) as [ok l'].
  unfold answers_to in *. cbn [List.filter fst snd].
  change (from_host h (addr, u)) with (bool_decide (host_of addr = h)). destruct (bool_decide (host_of addr = h)).
  - destruct Ha as [E Hm']. cbn [map fst snd ref_answers]. destruct (ref_allow m w u b) as [ok' b']. cbn [fst snd] in *. subst ok'. f_equal. by apply (IH u).
  - by apply (IH u).
Qed.
Lemma fresh_matches now : matches now None (newLoginRateLimiter m w).
Proof. split; [done|]. split; [done|]. left. apply lookup_empty. Qed.
End Simulation.
Lemma calls_ordered_from calls : calls_ordered calls -> exists now, ordered now (map snd calls).
Proof. unfold calls_ordered. destruct (map snd calls) as [|u ts]; [by exists 0|]. intros Hts. exists u. split; [lia|done]. Qed.

(** The limiter with its shared map and its sweeps answers every address
    exactly as a limiter of that address alone, which is never swept: what
    others do, and when the map is cleared, makes no difference. *)
Theorem limiter_reference m w h calls : window_ok w -> calls_ordered calls ->
  answers_to h (verdicts (newLoginRateLimiter m w) calls) = ref_answers m w None (map snd (List.filter (from_host h) calls)).
Proof. intros Hw [now Hc]%calls_ordered_from. eapply run_matches; [done|apply (fresh_matches m w h now)|done]. Qed.

(** ** How often an address gets through *)
Definition since (s : Time) (vs : list (Time * bool)) : Z := Z.of_nat (length (List.filter (fun t => s <=? t) (accepted vs))).
Lemma accepted_app vs vs' : accepted (vs ++ vs') = accepted vs ++ accepted vs'.
Proof. unfold accepted. by rewrite List.filter_app, map_app. Qed.
Lemma since_app s vs vs' : since s (vs ++ vs') = since s vs + since s vs'.
Proof. unfold since. rewrite accepted_app, List.filter_app, length_app. lia. Qed.
Lemma since_mono s s' vs : s' <= s -> since s vs <= since s' vs.
Proof.
  intros Hs. unfold since. generalize (accepted vs). intros l. induction l as [|t l IH]; cbn [List.filter]; [lia|].
  destruct (Z.leb_spec s t), (Z.leb_spec s' t); cbn [length]; lia.
Qed.
Lemma since_one s u ok : since s [(u, ok)] = if ok && (s <=? u) then 1 else 0.
Proof. unfold since, accepted. destruct ok; [|done]. cbn. by destruct (s <=? u). Qed.
Definition counted_in (vs : list (Time * bool)) (b : option rateLimitBucket) : Prop :=
  match b with Some x => b_count x <= since (b_windowStart x) vs | None => True end.
Lemma refusal_counted m w u post pre : forall b vs ts now, counted_in vs b -> (forall x, b = Some x -> b_windowStart x <= now) -> ordered now ts ->
  ref_answers m w b ts = pre ++ (u, false) :: post -> m <= since (u - w + 1) (vs ++ pre).
Proof.
  induction pre as [|[v ok] pre IH]; intros b vs ts now Hb Hnow Hts He; (destruct ts as [|v' ts]; [done|]); cbn [ref_answers app] in He;
    destruct Hts as [Hv Hts]; destruct (ref_allow m w v' b) as [ok' b'] eqn:Er; injection He as -> -> He.
  - rewrite app_nil_r. destruct b as [[c s]|]; [|done]. cbn [ref_allow b_windowStart b_count counted_in] in *.
    destruct (Z.leb_spec w (u - s)); [done|]. destruct (Z.leb_spec m c); [|done]. pose proof (since_mono s (u - w + 1) vs ltac:(lia)). lia.
  - replace (vs ++ (v, ok) :: pre) with ((vs ++ [(v, ok)]) ++ pre) by (by rewrite <-(assoc_L (++))).
    apply (IH b' (vs ++ [(v, ok)]) ts v); [| |done|done].
    + unfold counted_in in *. destruct b as [[c s]|]; cbn [ref_allow b_windowStart b_count] in *.
      * pose proof (Hnow _ eq_refl) as Hs. cbn in Hs. destruct (Z.leb_spec w (v - s)); [|destruct (Z.leb_spec m c)]; injection Er as <- <-; cbn [b_count b_windowStart];
          rewrite since_app, since_one; cbn [andb]; try (rewrite (proj2 (Z.leb_le _ v)) by lia); try lia.
        assert (0 <= since v vs) by (unfold since; lia). lia.
      * injection Er as <- <-. cbn [b_count b_windowStart]. rewrite since_app, since_one, Z.leb_refl. cbn [andb].
        assert (0 <= since v vs) by (unfold since; lia). lia.
    + intros x ->. destruct b as [[c s]|]; cbn [ref_allow b_windowStart b_count] in *; [pose proof (Hnow _ eq_refl) as Hs; cbn in Hs|];
        repeat case_match; simplify_eq; cbn; lia.
Qed.

(** C40: how often an address gets through, when calls take the lock in the
    order they read the clock: whatever other addresses do, in no
    stretch of time as long as the window more than twice the configured number
    of attempts, less one; and an address that is refused has had the
    configured number of attempts let through within the window before. *)
Theorem limiter_bounds m w h calls : window_ok w -> calls_ordered calls ->
  let vs := answers_to h (verdicts (newLoginRateLimiter m w) calls) in
  (forall t, uses w t vs <= 2 * cap m - 1) /\
  (forall pre u post, vs = pre ++ (u, false) :: post -> m <= since (u - w + 1) pre).
Proof.
  intros Hw Hc vs. destruct (calls_ordered_from calls Hc) as [now Hts].
  assert (E : vs = ref_answers m w None (map snd (List.filter (from_host h) calls))) by (eapply run_matches; [done|apply (fresh_matches m w h now)|done]).
  assert (Hsub : ordered now (map snd (List.filter (from_host h) calls))).
  { clear - Hts. revert now Hts. induction calls as [|c calls IH]; intros now Hts; [done|]. destruct Hts as [Hn Hts]. cbn [List.filter].
    destruct (from_host h c); cbn [map]; [split; [done|by apply IH]|]. apply IH. eapply ordered_weaken; [exact Hn|exact Hts]. }
  rewrite E. split.
  - intros t. eapply uses_any; [apply Hw|exact Hsub|done].
  - intros pre u post He. change pre with ([] ++ pre). eapply (refusal_counted m w u post pre None [] _ now); done.
Qed.
Definition burst : list Call := [("10.0.0.7:1", 1); ("10.0.0.7:2", 90); ("10.0.0.8:1", 95); ("10.0.0.7:3", 99); ("10.0.0.7:4", 101); ("10.0.0.7:5", 102); ("10.0.0.7:6", 103)].
Lemma limiter_reference_witness :
  answers_to "10.0.0.7" (verdicts (newLoginRateLimiter 2 100) burst) = ref_answers 2 100 None [1; 90; 99; 101; 102; 103].
Proof. exact (limiter_reference 2 100 "10.0.0.7" burst ltac:(unfold window_ok; lia) ltac:(repeat split; vm_compute; congruence)). Defined.
Lemma limiter_bounds_witness :
  answers_to "10.0.0.7" (verdicts (newLoginRateLimiter 2 100) burst) = [(1, true); (90, true); (99, false); (101, true); (102, true); (103, false)] /\
  2 <= since (99 - 100 + 1) [(1, true); (90, true)].
Proof.
  split; [vm_compute; reflexivity|].
  exact (proj2 (limiter_bounds 2 100 "10.0.0.7" burst ltac:(unfold window_ok; lia) ltac:(repeat split; vm_compute; congruence))
    [(1, true); (90, true)] 99 [(101, true); (102, true); (103, false)] ltac:(vm_compute; reflexivity)).
Defined.

(** A form gets past the check of its token exactly when it brings the very
    token of its cookie, in the header or else in the body; what is no form is
    not checked. *)
Theorem RequireCSRF_iff r : RequireCSRF r = Pass <->
  (isFormRequest (rq_contentType r) = true ->
   exists token, rq_csrfCookie r = Some token /\ token <> "" /\ (if bool_decide (rq_header r = "") then rq_form r = Some token else rq_header r = token)).
Proof.
  unfold RequireCSRF. cbv zeta. destruct (isFormRequest _); cbn [negb]; [|by split].
  destruct (rq_csrfCookie r) as [c|]; [|split; [done|intros Hx; by destruct (Hx eq_refl) as (t & ? & _)]].
  case_bool_decide as Hc; [split; [done|intros Hx; destruct (Hx eq_refl) as (t & Et & ? & _); congruence]|].
  assert (Hcheck : forall s, (if bool_decide (s = "") || negb (bool_decide (s = c)) then csrf_invalid else Pass) = Pass <-> s = c).
  { intros s. case_bool_decide as E1; cbn [orb]; [subst; split; [done|intros E; congruence]|]. case_bool_decide as E2; cbn [negb]; [by split|by split]. }
  case_bool_decide as Hh.
  - destruct (rq_form r) as [f|]; [etransitivity; [apply Hcheck|]|]; split; try done.
    + intros -> _. by exists c.
    + intros Hx. destruct (Hx eq_refl) as (t & Et & _ & Ef). congruence.
    + intros Hx. destruct (Hx eq_refl) as (t & Et & _ & Ef). congruence.
  - pose proof (Hcheck (rq_header r)) as Hk. rewrite (bool_decide_eq_false_2 _ Hh) in Hk. etransitivity; [exact Hk|].
    split; [intros <- _; by exists (rq_header r)|]. intros Hx. destruct (Hx eq_refl) as (t & Et & _ & Ef). congruence.
Qed.
