(* ===== verification/Schedule.v ===== *)
(** * Schedules ([internal/schedule/spec.go])

    A [Spec] and its two forms, [Validate], [Normalized], [Describe], the
    occurrences it has ([Latest], [Next]) and [wallClock], the reading of a
    zone's clock across a daylight saving change.  The [for] loops are recursive
    functions with fuel; [latestWeekly_loop_fuel] and [probe_loop_fuel] show
    that the fuel is never used up. *)
From stdpp Require Import base list strings sorting.
From Stdlib Require Import ZArith Lia.
From Stdlib Require Import Ascii.
From Stdlib Require String.
From S2P Require Import Prelude Db Text Calendar GoTime.
Local Open Scope string_scope.
Local Open Scope list_scope.
Local Open Scope Z_scope.

(** ** The specification of a schedule *)
Inductive Kind := KindWeekly | KindEveryDays | KindOther (s : string).
#[export] Instance Kind_eq_dec : EqDecision Kind.
Proof. solve_decision. Defined.
Definition Kind_string (k : Kind) : string :=
  match k with KindWeekly => "weekly" | KindEveryDays => "every_days" | KindOther s => s end.

Definition MaxTimesPerDay : Z := 24.
Definition MaxEveryDays : Z := 365.
Definition ErrInvalidSpec : error := Sentinel "schedule.ErrInvalidSpec" "invalid schedule".

Record Spec := MkSpec { SpecKind : Kind; Weekdays : list Z; Times : list string; EveryDays : Z }.

(** The pattern [([01][0-9]|2[0-3]):([0-5][0-9])] and the two numbers it captures. *)
Definition digit (c : ascii) : Z := code c - 48.
Definition parseTimeOfDay (s : string) : option (Z * Z) :=
  match bytes s with
  | [a; b; c; d; e] =>
      if ((in_range 48 49 a && is_digit b) || (is_char 50 a && in_range 48 51 b))
         && is_char 58 c && in_range 48 53 d && is_digit e
      then Some (10 * digit a + digit b, 10 * digit d + digit e)
      else None
  | _ => None
  end.

Definition invalid (msg : string) : option error := Some (Errorf "" ErrInvalidSpec (": " +:+ msg)).

(** The two loops of [Validate], with the map of what was seen. *)
Fixpoint validate_days (seen days : list Z) : option error :=
  match days with
  | [] => None
  | d :: days' =>
      if (d <? 0) || (d >? 6) then invalid ("weekday " +:+ itoa d +:+ " is not between 0 (Sunday) and 6 (Saturday)")
      else if bool_decide (d ∈ seen) then invalid ("weekday " +:+ itoa d +:+ " is listed twice")
      else validate_days (d :: seen) days'
  end.
Fixpoint validate_times (seen times : list string) : option error :=
  match times with
  | [] => None
  | t :: times' =>
      match parseTimeOfDay t with
      | None => invalid (quote t +:+ " is not a time of day written HH:MM (24-hour)")
      | Some _ =>
          if bool_decide (t ∈ seen) then invalid ("time " +:+ t +:+ " is listed twice")
          else validate_times (t :: seen) times'
      end
  end.

Definition Validate (s : Spec) : option error :=
  match SpecKind s with
  | KindWeekly =>
      if negb (EveryDays s =? 0) then invalid "a weekly schedule does not take an interval in days"
      else if Nat.eqb (length (Weekdays s)) 0 then invalid "choose at least one weekday"
      else match validate_days [] (Weekdays s) with
      | Some e => Some e
      | None =>
          if Nat.eqb (length (Times s)) 0 then invalid "choose at least one time of day"
          else if Z.of_nat (length (Times s)) >? MaxTimesPerDay then
            invalid ("at most " +:+ itoa MaxTimesPerDay +:+ " times of day")
          else validate_times [] (Times s)
      end
  | KindEveryDays =>
      if negb (Nat.eqb (length (Weekdays s)) 0) || negb (Nat.eqb (length (Times s)) 0) then
        invalid "an every-N-days schedule does not take weekdays or times of day"
      else if (EveryDays s <? 1) || (EveryDays s >? MaxEveryDays) then
        invalid ("every N days needs N between 1 and " +:+ itoa MaxEveryDays)
      else None
  | k => invalid ("unknown schedule kind " +:+ quote (Kind_string k))
  end.
Definition valid (s : Spec) : bool := match Validate s with None => true | Some _ => false end.

Definition weekdayNames : list string :=
  ["Sunday"; "Monday"; "Tuesday"; "Wednesday"; "Thursday"; "Friday"; "Saturday"].
Definition WeekdayName (d : Z) : string :=
  if (d <? 0) || (d >? 6) then "" else nth (Z.to_nat d) weekdayNames "".

Definition joinAnd (items : list string) : string :=
  match items with
  | [] => ""
  | [x] => x
  | _ => join ", " (removelast items) +:+ " and " +:+ List.last items ""
  end.

Definition Normalized (s : Spec) : Spec :=
  MkSpec (SpecKind s) (sort_by Z.leb (Weekdays s)) (sort_by string_le (Times s)) (EveryDays s).

Definition Describe (s : Spec) : string :=
  if negb (valid s) then "no valid schedule"
  else
    let n := Normalized s in
    match SpecKind n with
    | KindEveryDays =>
        if EveryDays n =? 1 then "Every day, starting when it was saved"
        else "Every " +:+ itoa (EveryDays n) +:+ " days, starting when it was saved"
    | _ => joinAnd (map (fun d => WeekdayName d +:+ "s") (Weekdays n)) +:+ " at " +:+ joinAnd (Times n)
    end.

Definition tod_le (x y : Z * Z) : bool :=
  if negb (x.1 =? y.1) then x.1 <? y.1 else x.2 <=? y.2.
Definition sortedTimes (s : Spec) : list (Z * Z) := sort_by tod_le (omap parseTimeOfDay (Times s)).
Definition weekdaySet (days : list Z) (d : Z) : bool := bool_decide (d ∈ days).

(** ** [wallClock] *)

(** [for probe := p; probe.Before(bound); probe = probe.Add(time.Minute)] *)
Fixpoint probe_loop (fuel : nat) (loc : Location) (wanted bound probe : Time) : option Time :=
  match fuel with
  | O => None
  | S f =>
      if probe <? bound then
        let '(y, m, d) := DateOf loc probe in
        let reading := Date y m d (HourOf loc probe) (MinuteOf loc probe) (SecondOf loc probe) UTC in
        if negb (reading <? wanted) then Some probe
        else probe_loop f loc wanted bound (probe + minute)
      else None
  end.
(** Nine hours of minutes, and two for the rounding at the ends. *)
Definition probe_fuel : nat := 542.

Definition wallClock (year month day h mi s : Z) (loc : Location) : Time :=
  let t := Date year month day h mi s loc in
  if (HourOf loc t =? h) && (MinuteOf loc t =? mi) && (SecondOf loc t =? s) then t
  else
    let wanted := Date year month day h mi s UTC in
    match probe_loop probe_fuel loc wanted (t + 6 * hour) (Truncate (t - 3 * hour) minute) with
    | Some probe => probe
    | None => t
    end.

(** ** [Latest] *)

(** The inner loop over a day's times, newest first: [None] goes on to the
    previous day, [Some r] returns [r]. *)
Fixpoint latest_on_day (loc : Location) (day lower upTo : Time) (times : list (Z * Z)) : option (option Time) :=
  match times with
  | [] => None
  | (h, mi) :: times' =>
      let '(y, m, d) := DateOf UTC day in
      let at_ := wallClock y m d h mi 0 loc in
      if upTo <? at_ then latest_on_day loc day lower upTo times'
      else if negb (lower <? at_) then Some None
      else Some (Some at_)
  end.

Fixpoint latestWeekly_loop (fuel : nat) (s : Spec) (loc : Location) (lower upTo floor : Time)
    (ymd : Z * Z * Z) (offset : Z) : option (option Time) :=
  match fuel with
  | O => None
  | S f =>
      let '(y, m, d) := ymd in
      let day := Date y m (d - offset) 0 0 0 UTC in
      if day <? floor then Some None
      else if negb (weekdaySet (Weekdays s) (Weekday (reading UTC day / 86400))) then
        latestWeekly_loop f s loc lower upTo floor ymd (offset + 1)
      else match latest_on_day loc day lower upTo (rev (sortedTimes s)) with
           | Some r => Some r
           | None => latestWeekly_loop f s loc lower upTo floor ymd (offset + 1)
           end
  end.
Definition weekly_fuel (loc : Location) (lower upTo : Time) : nat :=
  Z.to_nat (reading loc upTo / 86400 - reading loc lower / 86400) + 2.

Definition latestWeekly (s : Spec) (lower upTo : Time) (loc : Location) : option Time :=
  let '(ly, lm, ld) := DateOf loc lower in
  let floor := Date ly lm ld 0 0 0 UTC in
  match latestWeekly_loop (weekly_fuel loc lower upTo) s loc lower upTo floor (DateOf loc upTo) 0 with
  | Some r => r
  | None => None
  end.

Definition everyDaysAt (s : Spec) (anchor : Time) (k : Z) (loc : Location) : Time :=
  if k =? 0 then anchor
  else
    let '(y, m, d) := DateOf loc anchor in
    wallClock y m (d + k * EveryDays s) (HourOf loc anchor) (MinuteOf loc anchor) (SecondOf loc anchor) loc.

(** [for k := k0; k >= 0 && k >= estimate-2; k--] *)
Fixpoint latestEveryDays_loop (fuel : nat) (s : Spec) (anchor after upTo : Time) (loc : Location)
    (estimate k : Z) : option Time :=
  match fuel with
  | O => None
  | S f =>
      if (0 <=? k) && (estimate - 2 <=? k) then
        let at_ := everyDaysAt s anchor k loc in
        if upTo <? at_ then latestEveryDays_loop f s anchor after upTo loc estimate (k - 1)
        else if negb (after <? at_) then None
        else Some at_
      else None
  end.
Definition latestEveryDays (s : Spec) (anchor after upTo : Time) (loc : Location) : option Time :=
  if upTo <? anchor then None
  else
    let estimate := Sub upTo anchor ÷ (EveryDays s * 24 * hour) in
    latestEveryDays_loop 5 s anchor after upTo loc estimate (estimate + 1).

Definition Latest (s : Spec) (anchor after upTo : Time) (loc : option Location) : option Time :=
  match Validate s, loc with
  | None, Some loc =>
      if anchor =? 0 then None
      else match SpecKind s with
      | KindWeekly => latestWeekly s (if after <? anchor then anchor else after) upTo loc
      | _ => latestEveryDays s anchor after upTo loc
      end
  | _, _ => None
  end.

(** ** [Next] *)
Fixpoint next_on_day (loc : Location) (day from : Time) (times : list (Z * Z)) : option Time :=
  match times with
  | [] => None
  | (h, mi) :: times' =>
      let '(y, m, d) := DateOf UTC day in
      let at_ := wallClock y m d h mi 0 loc in
      if from <? at_ then Some at_ else next_on_day loc day from times'
  end.

(** [for offset := 0; offset <= 8; offset++] *)
Fixpoint nextWeekly_loop (fuel : nat) (s : Spec) (loc : Location) (from : Time)
    (ymd : Z * Z * Z) (offset : Z) : option Time :=
  match fuel with
  | O => None
  | S f =>
      if offset <=? 8 then
        let '(y, m, d) := ymd in
        let day := Date y m (d + offset) 0 0 0 UTC in
        if negb (weekdaySet (Weekdays s) (Weekday (reading UTC day / 86400))) then
          nextWeekly_loop f s loc from ymd (offset + 1)
        else match next_on_day loc day from (sortedTimes s) with
             | Some t => Some t
             | None => nextWeekly_loop f s loc from ymd (offset + 1)
             end
      else None
  end.
Definition nextWeekly (s : Spec) (from : Time) (loc : Location) : option Time :=
  nextWeekly_loop 10 s loc from (DateOf loc from) 0.

(** [for k := k0; k <= estimate+3; k++] *)
Fixpoint nextEveryDays_loop (fuel : nat) (s : Spec) (anchor after : Time) (loc : Location)
    (estimate k : Z) : option Time :=
  match fuel with
  | O => None
  | S f =>
      if k <=? estimate + 3 then
        let at_ := everyDaysAt s anchor k loc in
        if after <? at_ then Some at_
        else nextEveryDays_loop f s anchor after loc estimate (k + 1)
      else None
  end.
Definition nextEveryDays (s : Spec) (anchor after : Time) (loc : Location) : option Time :=
  if after <? anchor then Some anchor
  else
    let estimate := Sub after anchor ÷ (EveryDays s * 24 * hour) in
    nextEveryDays_loop 7 s anchor after loc estimate (Z.max (estimate - 2) 0).

Definition Next (s : Spec) (anchor after : Time) (loc : option Location) : option Time :=
  match Validate s, loc with
  | None, Some loc =>
      if anchor =? 0 then None
      else match SpecKind s with
      | KindWeekly => nextWeekly s (if after <? anchor then anchor else after) loc
      | _ => nextEveryDays s anchor after loc
      end
  | _, _ => None
  end.

(** ** The loops end before their fuel *)

(** The probe loop from [p], when the first probe that reads [w] or later is
    the instant [T]. *)
Lemma probe_loop_finds fuel loc w bound p T :
  p <= T * second -> (T * second - p) mod minute = 0 -> T * second < bound ->
  T * second - p < minute * Z.of_nat fuel ->
  (forall q, p <= q < T * second -> reading loc q < w) -> w <= reading loc (T * second) ->
  probe_loop fuel loc (w * second) bound p = Some (T * second).
Proof.
  revert p. induction fuel as [|f IH]; intros p Hp Hm Hb Hf Hq HT; [unfold minute, second in *; lia|].
  cbn [probe_loop]. rewrite (proj2 (Z.ltb_lt _ _)) by lia.
  pose proof (date_clock loc p) as Hc. destruct (DateOf loc p) as [[y m] d]. cbv zeta.
  rewrite Date_UTC, Hc. destruct (decide (p = T * second)) as [->|Hne].
  - by rewrite (proj2 (Z.ltb_ge _ _)) by (apply Z.mul_le_mono_nonneg_r; [done|lia]).
  - rewrite (proj2 (Z.ltb_lt (_ * _) _)) by (apply Z.mul_lt_mono_pos_r; [done|apply Hq; lia]). cbn [negb].
    assert (p + minute <= T * second) by (unfold minute, second in *; zdiv).
    apply IH; [done| |done| |intros; apply Hq; unfold minute, second in *; lia|done];
      unfold minute, second in *; zdiv.
Qed.

(** The loop always ends by its own condition within [probe_fuel] rounds: more
    fuel gives the same answer. *)
Lemma probe_loop_fuel fuel loc w bound p : bound - p <= minute * Z.of_nat fuel ->
  forall more, probe_loop (fuel + more) loc w bound p = probe_loop fuel loc w bound p.
Proof.
  revert p. induction fuel as [|f IH]; intros p Hb more; cbn [Nat.add probe_loop].
  - destruct more as [|n]; [done|]. cbn [probe_loop].
    by rewrite (proj2 (Z.ltb_ge _ _)) by lia.
  - destruct (p <? bound); [|done]. destruct (DateOf loc p) as [[y m] d]. cbv zeta.
    destruct (_ <? w); [|done]. apply IH. unfold minute, second in *. lia.
Qed.
Lemma probe_fuel_enough t more loc w :
  probe_loop (probe_fuel + more) loc w (t + 6 * hour) (Truncate (t - 3 * hour) minute) =
  probe_loop probe_fuel loc w (t + 6 * hour) (Truncate (t - 3 * hour) minute).
Proof.
  apply probe_loop_fuel. unfold Truncate, probe_fuel, minute, hour, second. change (Z.of_nat 542) with 542.
  pose proof (Z.mod_pos_bound (t - 3 * (3600 * 1000000000)) (60 * 1000000000) ltac:(lia)). lia.
Qed.

(** ** What [wallClock] returns *)
Section WallClock.
Context (loc : Location) (base : Z) `{!LocationLaws loc base}.

Lemma secs_mul s : secs (s * second) = s.
Proof. unfold secs. apply Z.div_mul. done. Qed.
Lemma reading_mul s : reading loc (s * second) = s + offset_at loc s.
Proof. unfold reading. by rewrite secs_mul. Qed.

(** The walk of [wallClock] from either candidate finds the change itself. *)
Lemma probe_gap x T a b w c : around loc base x T a b -> Z.abs (w - x) <= 172800 ->
  T <= w - a -> w - b < T -> (c = w - a \/ c = w - b) ->
  probe_loop probe_fuel loc (w * second) (c * second + 6 * hour) (Truncate (c * second - 3 * hour) minute)
    = Some (T * second).
Proof using Type.
  intros (HT & Hab & _ & Hoff & _ & Hbase & Ha & Hb) Hx Hwa Hwb Hc.
  set (p := Truncate (c * second - 3 * hour) minute).
  assert (Hp : p mod minute = 0 /\ c * second - 3 * hour - minute < p <= c * second - 3 * hour).
  { unfold p, Truncate, minute, hour, second. zdiv. }
  apply probe_loop_finds; unfold minute, hour, second, probe_fuel in *; try lia; try zdiv.
  - intros q Hq. unfold reading. rewrite (Hoff (secs q)).
    + destruct (Z.ltb_spec (secs q) T); unfold secs, second in *; zdiv.
    + unfold window, secs, second. zdiv.
  - rewrite reading_mul, Hoff by (unfold window; lia).
    rewrite (proj2 (Z.ltb_ge _ _)) by lia. lia.
Qed.

Lemma wallClock_pick x T a b y m d h mi s : around loc base x T a b ->
  0 <= h < 24 -> 0 <= mi < 60 -> 0 <= s < 60 ->
  Z.abs (wall y m d h mi s - x) <= 172800 ->
  wallClock y m d h mi s loc = pick T a b (wall y m d h mi s) * second.
Proof using Type.
  intros Har Hh Hmi Hs Hx. unfold wallClock, Date. cbv zeta.
  set (w := wall y m d h mi s) in *.
  unfold HourOf, MinuteOf, SecondOf. rewrite clock_eq by done.
  rewrite <-(wall_mod y m d h mi s) by done. fold w. rewrite reading_mul.
  pose proof Har as (HT & Hab & Hd & Hoff & Hin & Hbase & Ha & Hb).
  destruct (resolve_cases loc base x T a b w Har Hx) as [[-> Hun]|(Hwa & Hwb & Hr)].
  - rewrite (proj2 (Z.eqb_eq _ _)); [done|]. f_equal. rewrite Hoff by (unfold pick, window; zcases; lia).
    unfold pick. zcases; lia.
  - assert (Hp : pick T a b w = T) by (unfold pick; zcases; lia). rewrite Hp.
    rewrite (proj2 (Z.eqb_neq _ _)).
    + change (resolve UTC w) with w. by rewrite (probe_gap x T a b w).
    + destruct Hr as [-> | ->]; rewrite Hoff by (unfold window; lia); zcases; zdiv.
Qed.

Lemma wallClock_bounds y m d h mi s :
  0 <= h < 24 -> 0 <= mi < 60 -> 0 <= s < 60 ->
  (wall y m d h mi s - base - 43200) * second <= wallClock y m d h mi s loc
    <= (wall y m d h mi s - base) * second.
Proof using LocationLaws0.
  intros Hh Hm Hs. set (w := wall y m d h mi s).
  destruct (around_ex loc base w) as (T & a & b & Har).
  rewrite (wallClock_pick w T a b) by (try done; fold w; lia). fold w.
  destruct Har as (_ & _ & _ & _ & _ & Hbase & Ha & Hb).
  pose proof (pick_bounds T a b w). unfold second. lia.
Qed.

(** [wallClock] never goes back when the reading goes forward. *)
Lemma wallClock_mono y m d h mi s y' m' d' h' mi' s' :
  0 <= h < 24 -> 0 <= mi < 60 -> 0 <= s < 60 -> 0 <= h' < 24 -> 0 <= mi' < 60 -> 0 <= s' < 60 ->
  wall y m d h mi s <= wall y' m' d' h' mi' s' ->
  wallClock y m d h mi s loc <= wallClock y' m' d' h' mi' s' loc.
Proof using LocationLaws0.
  intros Hh Hm Hs Hh' Hm' Hs' Hle.
  destruct (decide (wall y' m' d' h' mi' s' - wall y m d h mi s <= 172800)) as [Hnear|Hfar].
  - destruct (around_ex loc base (wall y m d h mi s)) as (T & a & b & Har).
    rewrite !(wallClock_pick (wall y m d h mi s) T a b) by (done || lia).
    apply Z.mul_le_mono_nonneg_r; [done|by apply pick_mono].
  - pose proof (wallClock_bounds y m d h mi s Hh Hm Hs).
    pose proof (wallClock_bounds y' m' d' h' mi' s' Hh' Hm' Hs'). unfold second in *. lia.
Qed.

(** The date read at the instant [wallClock] returns is not before the one
    asked for, and at every earlier instant not after it. *)
Lemma wallClock_date y m d h mi s :
  0 <= h < 24 -> 0 <= mi < 60 -> 0 <= s < 60 ->
  day_number y m d <= reading loc (wallClock y m d h mi s loc) / 86400 /\
  (forall t, t < wallClock y m d h mi s loc -> reading loc t / 86400 <= day_number y m d).
Proof using LocationLaws0.
  intros Hh Hm Hs.
  assert (Hday : day_number y m d = wall y m d h mi s / 86400) by (unfold wall; zdiv).
  rewrite Hday. set (w := wall y m d h mi s).
  destruct (around_ex loc base w) as (T & a & b & Har).
  rewrite (wallClock_pick w T a b) by (try done; fold w; lia). fold w.
  destruct Har as (HT & Hab & Hd & Hoff & Hin & Hbase & Ha & Hb).
  assert (Hpick : offset_at loc (pick T a b w) = if pick T a b w <? T then a else b).
  { apply Hoff. pose proof (pick_bounds T a b w). unfold window. lia. }
  rewrite reading_mul, Hpick. split; [apply Z.div_le_mono; [done|unfold pick; zcases; lia]|].
  intros t Ht.
  assert (Hgap : w = pick T a b w + (if pick T a b w <? T then a else b) \/
            (pick T a b w = T /\ T + a <= w)) by (unfold pick; zcases; lia).
  destruct Hgap as [Hw|[Hp Hw]].
  - replace w with (reading loc (pick T a b w * second)) at 1 by (rewrite reading_mul, Hpick; lia).
    apply reading_date_mono with base; [done|lia].
  - rewrite Hp in Ht. transitivity (reading loc ((T - 1) * second) / 86400).
    + unfold reading. apply local_date_mono with base; [done|]. rewrite secs_mul. unfold secs, second in *. zdiv.
    + rewrite reading_mul, Hoff by (unfold window; pose proof (pick_bounds T a b w); lia).
      rewrite (proj2 (Z.ltb_lt _ _)) by lia. apply Z.div_le_mono; lia.
Qed.
End WallClock.

(** ** The occurrences of a schedule *)

(** The instant a weekly schedule runs at on day [n] at a time of day. *)
Definition at_day (loc : Location) (n : Z) (tod : Z * Z) : Time :=
  let '(y, m, d) := civil n in wallClock y m d tod.1 tod.2 0 loc.

(** What [Spec]'s fields promise: a weekly schedule occurs on each of its
    weekdays at each of its times, after it was saved; the other form every N
    days from the moment it was saved. *)
Inductive occurs (s : Spec) (anchor : Time) (loc : Location) : Time -> Prop :=
| occurs_weekly n str tod :
    SpecKind s = KindWeekly -> Weekday n ∈ Weekdays s -> str ∈ Times s -> parseTimeOfDay str = Some tod ->
    anchor < at_day loc n tod -> occurs s anchor loc (at_day loc n tod)
| occurs_every_days k :
    SpecKind s = KindEveryDays -> 0 <= k -> occurs s anchor loc (everyDaysAt s anchor k loc).

Definition scheduled (s : Spec) (n : Z) (tod : Z * Z) : Prop :=
  Weekday n ∈ Weekdays s /\ tod ∈ sortedTimes s.

Lemma elem_of_sortedTimes s tod :
  tod ∈ sortedTimes s <-> exists str, str ∈ Times s /\ parseTimeOfDay str = Some tod.
Proof.
  unfold sortedTimes. rewrite elem_of_sort_by, list_elem_of_omap. done.
Qed.

Lemma parseTimeOfDay_range str h mi : parseTimeOfDay str = Some (h, mi) -> 0 <= h < 24 /\ 0 <= mi < 60.
Proof.
  unfold parseTimeOfDay, is_digit, is_char, in_range, digit.
  destruct (bytes str) as [|a [|b [|c [|d [|e [|]]]]]]; try done.
  match goal with |- context [if ?x then _ else _] => destruct x eqn:E end; [|done].
  intros [= <- <-]. propb. repeat match goal with H : (_ || _)%bool = true |- _ =>
    apply orb_true_iff in H; destruct H end; propb; lia.
Qed.
Lemma sortedTimes_range s h mi : (h, mi) ∈ sortedTimes s -> 0 <= h < 24 /\ 0 <= mi < 60.
Proof. rewrite elem_of_sortedTimes. intros (str & _ & Hp). by eapply parseTimeOfDay_range. Qed.

Lemma tod_le_total x y : tod_le x y = false -> tod_le y x = true.
Proof. destruct x, y. unfold tod_le. simpl. zcases; try done; lia. Qed.
Lemma tod_le_trans x y z : tod_le x y = true -> tod_le y z = true -> tod_le x z = true.
Proof. destruct x, y, z. unfold tod_le. simpl. zcases; try done; lia. Qed.
Lemma sortedTimes_sorted s : StronglySorted (fun a b => tod_le a b = true) (sortedTimes s).
Proof. apply sort_by_sorted; [apply tod_le_total|apply tod_le_trans]. Qed.

Lemma StronglySorted_rev {A} (R : A -> A -> Prop) l :
  StronglySorted R l -> StronglySorted (flip R) (rev l).
Proof.
  induction 1 as [|x l Hs IH Hall]; simpl; [constructor|].
  apply StronglySorted_app. split_and!; [|done|by repeat constructor].
  intros y z Hy Hz. apply list_elem_of_singleton in Hz as ->.
  rewrite Forall_forall in Hall. apply Hall. rewrite list_elem_of_In, <-List.in_rev in Hy. by apply list_elem_of_In.
Qed.

(** A day as the loops carry it: midnight UTC of its date. *)
Definition midnight (n : Z) : Time := n * 86400 * second.
Lemma Date_midnight y m d k : Date y m (d + k) 0 0 0 UTC = midnight (day_number y m d + k).
Proof. rewrite Date_UTC. unfold wall, midnight. rewrite day_number_add. f_equal. lia. Qed.
Lemma reading_midnight n : reading UTC (midnight n) = n * 86400.
Proof. unfold midnight. rewrite reading_mul. unfold offset_at. simpl. lia. Qed.
Lemma DateOf_midnight n : DateOf UTC (midnight n) = civil n.
Proof. unfold DateOf. rewrite reading_midnight, Z.div_mul by done. done. Qed.
Lemma wall_at_day n h mi : let '(y, m, d) := civil n in wall y m d h mi 0 = n * 86400 + h * 3600 + mi * 60.
Proof.
  pose proof (day_number_civil n) as Hn. destruct (civil n) as [[y m] d]. unfold wall. rewrite Hn. lia.
Qed.

(** ** The loops of [Latest] *)
Section Loops.
Context (s : Spec) (loc : Location).

Definition ordered_day : Prop := forall n p q,
  p ∈ sortedTimes s -> q ∈ sortedTimes s -> tod_le p q = true -> at_day loc n p <= at_day loc n q.

Lemma latest_on_day_cons n lower upTo tod l :
  latest_on_day loc (midnight n) lower upTo (tod :: l) =
  if upTo <? at_day loc n tod then latest_on_day loc (midnight n) lower upTo l
  else if negb (lower <? at_day loc n tod) then Some None else Some (Some (at_day loc n tod)).
Proof.
  destruct tod as [h mi]. cbn [latest_on_day]. rewrite DateOf_midnight. unfold at_day.
  by destruct (civil n) as [[y m] d].
Qed.

Lemma latest_on_day_spec n lower upTo l :
  StronglySorted (flip (fun a b => tod_le a b = true)) l -> (forall p, p ∈ l -> p ∈ sortedTimes s) ->
  match latest_on_day loc (midnight n) lower upTo l with
  | None => forall p, p ∈ l -> upTo < at_day loc n p
  | Some r => exists p, p ∈ l /\ at_day loc n p <= upTo /\
      r = (if lower <? at_day loc n p then Some (at_day loc n p) else None) /\
      (ordered_day -> forall q, q ∈ l -> upTo < at_day loc n q \/ at_day loc n q <= at_day loc n p)
  end.
Proof.
  induction 1 as [|tod l Hs IH Hall]; intros Hl; [by intros p ?%not_elem_of_nil|].
  rewrite latest_on_day_cons. specialize (IH (fun p Hp => Hl p (list_elem_of_further _ _ _ Hp))).
  destruct (Z.ltb_spec upTo (at_day loc n tod)) as [Hlt|Hge].
  - destruct (latest_on_day loc (midnight n) lower upTo l) as [r|].
    + destruct IH as (p & Hp & Hle & -> & Ho). exists p. split_and!; [by right|done|done|].
      intros Hord q [-> | Hq]%elem_of_cons; [by left|by apply Ho].
    + intros p [-> | Hp]%elem_of_cons; [done|by apply IH].
  - assert (Hbest : ordered_day -> forall q, q ∈ tod :: l ->
      upTo < at_day loc n q \/ at_day loc n q <= at_day loc n tod).
    { intros Hord q Hq. right. pose proof Hq as Hq'. apply elem_of_cons in Hq as [-> | Hq]; [done|].
      rewrite Forall_forall in Hall. apply Hord; [by apply Hl|apply Hl; by left|by apply Hall]. }
    destruct (lower <? at_day loc n tod) eqn:E; cbn [negb]; exists tod; rewrite E; split_and!; try done; by left.
Qed.

(** One step of the walk over days, from the local date [D] of [upTo]. *)
Lemma latestWeekly_loop_step f lower upTo F D offset :
  latestWeekly_loop (S f) s loc lower upTo (midnight F) (civil D) offset =
  if D - offset <? F then Some None
  else if negb (weekdaySet (Weekdays s) (Weekday (D - offset))) then
    latestWeekly_loop f s loc lower upTo (midnight F) (civil D) (offset + 1)
  else match latest_on_day loc (midnight (D - offset)) lower upTo (rev (sortedTimes s)) with
       | Some r => Some r
       | None => latestWeekly_loop f s loc lower upTo (midnight F) (civil D) (offset + 1)
       end.
Proof.
  cbn [latestWeekly_loop]. pose proof (day_number_civil D) as HD. destruct (civil D) as [[y m] d].
  cbv zeta. unfold Z.sub. rewrite Date_midnight, HD, reading_midnight, Z.div_mul by done.
  replace (midnight (D + - offset) <? midnight F) with (D + - offset <? F); [done|].
  unfold midnight, second. zcases; lia || done.
Qed.

(** The walk always ends: [weekly_fuel] is never used up. *)
Lemma latestWeekly_loop_fuel f lower upTo F D offset :
  0 < Z.of_nat f -> D - offset - F + 1 < Z.of_nat f ->
  exists r, latestWeekly_loop f s loc lower upTo (midnight F) (civil D) offset = Some r.
Proof.
  revert offset. induction f as [|f IH]; intros offset H0 Hf; [lia|].
  rewrite latestWeekly_loop_step. destruct (Z.ltb_spec (D - offset) F); [by eexists|].
  destruct (negb _); [apply IH; lia|].
  destruct (latest_on_day _ _ _ _ _); [by eexists|apply IH; lia].
Qed.

Lemma latestWeekly_loop_spec f lower upTo F D offset r :
  latestWeekly_loop f s loc lower upTo (midnight F) (civil D) offset = Some r ->
  (r = None /\ forall n p, F <= n <= D - offset -> scheduled s n p -> upTo < at_day loc n p) \/
  (exists n0 p0, scheduled s n0 p0 /\ F <= n0 <= D - offset /\ at_day loc n0 p0 <= upTo /\
     r = (if lower <? at_day loc n0 p0 then Some (at_day loc n0 p0) else None) /\
     (ordered_day -> forall n p, scheduled s n p -> n0 <= n <= D - offset ->
        upTo < at_day loc n p \/ (n = n0 /\ at_day loc n p <= at_day loc n0 p0))).
Proof.
  revert offset. induction f as [|f IH]; intros offset; [done|]. rewrite latestWeekly_loop_step.
  destruct (Z.ltb_spec (D - offset) F); [intros [= <-]; left; split; [done|intros; lia]|].
  (* the walk goes on from the day before when this day has no hit *)
  assert (Hnext : (forall p, scheduled s (D - offset) p -> upTo < at_day loc (D - offset) p) ->
    latestWeekly_loop f s loc lower upTo (midnight F) (civil D) (offset + 1) = Some r ->
    (r = None /\ forall n p, F <= n <= D - offset -> scheduled s n p -> upTo < at_day loc n p) \/
    (exists n0 p0, scheduled s n0 p0 /\ F <= n0 <= D - offset /\ at_day loc n0 p0 <= upTo /\
       r = (if lower <? at_day loc n0 p0 then Some (at_day loc n0 p0) else None) /\
       (ordered_day -> forall n p, scheduled s n p -> n0 <= n <= D - offset ->
          upTo < at_day loc n p \/ (n = n0 /\ at_day loc n p <= at_day loc n0 p0)))).
  { intros Hday [[-> Hn]|(n0 & p0 & Hs & Hr & Hle & -> & Ho)]%IH.
    - left. split; [done|]. intros n p Hn' Hsch. destruct (decide (n = D - offset)) as [->|]; [by apply Hday|].
      apply Hn; [lia|done].
    - right. exists n0, p0. split_and!; try done; [lia|lia|]. intros Hord n p Hsch Hn.
      destruct (decide (n = D - offset)) as [->|]; [left; by apply Hday|]. apply Ho; [done|done|lia]. }
  destruct (weekdaySet (Weekdays s) (Weekday (D - offset))) eqn:Hwd; cbn [negb].
  - unfold weekdaySet in Hwd. propb.
    pose proof (latest_on_day_spec (D - offset) lower upTo (rev (sortedTimes s))) as Hd.
    specialize (Hd (StronglySorted_rev _ _ (sortedTimes_sorted s))).
    assert (Hin : forall p, p ∈ rev (sortedTimes s) <-> p ∈ sortedTimes s).
    { intros p. by rewrite !list_elem_of_In, <-List.in_rev. }
    specialize (Hd (fun p Hp => proj1 (Hin p) Hp)).
    destruct (latest_on_day _ _ _ _ _) as [r'|].
    + intros [= ->]. right. destruct Hd as (p & Hp & Hle & -> & Ho). exists (D - offset), p.
      split_and!; try done; [by split; [|apply Hin]|]. intros Hord n q [_ Hq] Hn.
      assert (n = D - offset) as -> by lia. destruct (Ho Hord q) as [|]; [by apply Hin|by left|by right].
    + apply Hnext. intros p [_ Hp]. apply Hd. by apply Hin.
  - unfold weekdaySet in Hwd. propb. apply Hnext. by intros p [? _].
Qed.

(** [latestWeekly] is its loop: the fuel plays no part. *)
Lemma latestWeekly_spec lower upTo :
  exists r, latestWeekly s lower upTo loc = r /\
    latestWeekly_loop (weekly_fuel loc lower upTo) s loc lower upTo
      (midnight (reading loc lower / 86400)) (civil (reading loc upTo / 86400)) 0 = Some r.
Proof.
  unfold latestWeekly. pose proof (day_number_civil (reading loc lower / 86400)) as Hl.
  unfold DateOf. destruct (civil (reading loc lower / 86400)) as [[y m] d].
  rewrite <-(Z.add_0_r d), Date_midnight, Hl, Z.add_0_r.
  destruct (latestWeekly_loop_fuel (weekly_fuel loc lower upTo) lower upTo
    (reading loc lower / 86400) (reading loc upTo / 86400) 0) as [r Hr]; [unfold weekly_fuel; lia..|].
  exists r. by rewrite Hr.
Qed.

Lemma latestEveryDays_loop_sound f anchor after upTo est k t :
  latestEveryDays_loop f s anchor after upTo loc est k = Some t ->
  after < t <= upTo /\ exists j, 0 <= j /\ t = everyDaysAt s anchor j loc.
Proof.
  revert k. induction f as [|f IH]; intros k; [done|]. cbn [latestEveryDays_loop].
  destruct (Z.leb_spec 0 k); [|done]. destruct (est - 2 <=? k); [|done]. cbn [andb].
  destruct (Z.ltb_spec upTo (everyDaysAt s anchor k loc)); [by apply IH|].
  destruct (Z.ltb_spec after (everyDaysAt s anchor k loc)); [|done].
  intros [= <-]. split; [lia|]. by exists k.
Qed.

Lemma latestEveryDays_loop_complete f anchor after upTo est k k0 j :
  (forall i i', 0 <= i <= i' -> everyDaysAt s anchor i loc <= everyDaysAt s anchor i' loc) ->
  0 <= k0 <= k -> est - 2 <= k0 -> k - k0 < Z.of_nat f ->
  everyDaysAt s anchor k0 loc <= upTo ->
  (forall i, k < i -> upTo < everyDaysAt s anchor i loc) ->
  0 <= j -> after < everyDaysAt s anchor j loc <= upTo ->
  exists t, latestEveryDays_loop f s anchor after upTo loc est k = Some t /\ everyDaysAt s anchor j loc <= t.
Proof.
  intros Hmono. revert k. induction f as [|f IH]; intros k Hk0 He Hf Hle Hgt Hj Hat; [lia|].
  cbn [latestEveryDays_loop]. rewrite !(proj2 (Z.leb_le _ _)) by lia. cbn [andb].
  assert (j <= k) by (destruct (decide (j <= k)); [done|]; specialize (Hgt j); lia).
  destruct (Z.ltb_spec upTo (everyDaysAt s anchor k loc)).
  - assert (k0 <> k) by (intros ->; lia). apply IH; try done; try lia.
    intros i Hi. destruct (decide (i = k)) as [->|]; [done|apply Hgt; lia].
  - pose proof (Hmono j k ltac:(lia)).
    rewrite (proj2 (Z.ltb_lt after _)) by lia. cbn [negb]. eexists. split; [done|lia].
Qed.
End Loops.

Section Occurrences.
Context (s : Spec) (loc : Location) (base : Z) `{!LocationLaws loc base}.

Lemma tod_le_secs h mi h' mi' : 0 <= mi < 60 -> 0 <= mi' < 60 ->
  tod_le (h, mi) (h', mi') = true -> h * 3600 + mi * 60 <= h' * 3600 + mi' * 60.
Proof. unfold tod_le. simpl. zcases; intros; done || lia. Qed.

Lemma at_day_mono n n' p q : p ∈ sortedTimes s -> q ∈ sortedTimes s ->
  (n < n' \/ (n = n' /\ tod_le p q = true)) -> at_day loc n p <= at_day loc n' q.
Proof using LocationLaws0.
  destruct p as [h mi], q as [h' mi']. intros Hp%sortedTimes_range Hq%sortedTimes_range Hn.
  unfold at_day. pose proof (wall_at_day n h mi) as Hw. pose proof (wall_at_day n' h' mi') as Hw'.
  destruct (civil n) as [[y m] d], (civil n') as [[y' m'] d']. cbn [fst snd].
  apply wallClock_mono with base; try done; try lia. rewrite Hw, Hw'.
  destruct Hn as [Hn|[-> Ht]]; [lia|]. apply tod_le_secs in Ht; lia.
Qed.
Lemma at_day_ordered : ordered_day s loc.
Proof using LocationLaws0. intros n p q Hp Hq Hle. apply at_day_mono; auto. Qed.

Lemma at_day_date n p : p ∈ sortedTimes s ->
  n <= reading loc (at_day loc n p) / 86400 /\ (forall t, t < at_day loc n p -> reading loc t / 86400 <= n).
Proof using LocationLaws0.
  destruct p as [h mi]. intros Hp%sortedTimes_range. unfold at_day.
  pose proof (day_number_civil n) as Hn. destruct (civil n) as [[y m] d]. cbn [fst snd].
  rewrite <-Hn. apply wallClock_date with base; try done; lia.
Qed.
Lemma at_day_late n p from : p ∈ sortedTimes s -> reading loc from / 86400 + 2 <= n -> from < at_day loc n p.
Proof using LocationLaws0.
  destruct p as [h mi]. intros Hp%sortedTimes_range Hn. unfold at_day.
  pose proof (wall_at_day n h mi) as Hw. destruct (civil n) as [[y m] d]. cbn [fst snd].
  destruct Hp as [Hh Hm]. pose proof (wallClock_bounds loc base y m d h mi 0 Hh Hm ltac:(lia)) as Hb.
  rewrite Hw in Hb. pose proof (loc_offsets (secs from)) as Ho.
  unfold reading in Hn. unfold secs, second in *. zdiv.
Qed.
Lemma at_day_soon n p from : p ∈ sortedTimes s -> n <= reading loc from / 86400 + 8 -> at_day loc n p <= from + 11 * (24 * hour).
Proof using LocationLaws0.
  destruct p as [h mi]. intros Hp%sortedTimes_range Hn. unfold at_day.
  pose proof (wall_at_day n h mi) as Hw. destruct (civil n) as [[y m] d]. cbn [fst snd].
  destruct Hp as [Hh Hm]. pose proof (wallClock_bounds loc base y m d h mi 0 Hh Hm ltac:(lia)) as Hb.
  rewrite Hw in Hb. pose proof (loc_offsets (secs from)) as Ho. pose proof loc_base.
  unfold reading in Hn. unfold secs, hour, second in *. zdiv.
Qed.

(** *** The every-N-days form *)
Context (anchor : Time).
Definition every_wall (k : Z) : Z := reading loc anchor + k * EveryDays s * 86400.
Lemma everyDaysAt_wall k : k <> 0 -> exists y m d h mi sc,
  everyDaysAt s anchor k loc = wallClock y m d h mi sc loc /\ wall y m d h mi sc = every_wall k /\
  0 <= h < 24 /\ 0 <= mi < 60 /\ 0 <= sc < 60.
Proof using Type.
  intros Hk. unfold everyDaysAt. rewrite (proj2 (Z.eqb_neq k 0) Hk).
  pose proof (date_clock loc anchor) as Hc. destruct (DateOf loc anchor) as [[y m] d].
  do 6 eexists. split; [reflexivity|]. unfold every_wall. rewrite <-Hc. unfold wall.
  rewrite day_number_add. unfold HourOf, MinuteOf, SecondOf.
  split; [lia|]. generalize (reading loc anchor) as r. intros r. split_and!; zdiv.
Qed.
Lemma everyDaysAt_near k : 0 <= k -> 0 <= EveryDays s ->
  anchor + (k * EveryDays s) * (24 * hour) - 13 * hour <= everyDaysAt s anchor k loc
    <= anchor + (k * EveryDays s) * (24 * hour) + 12 * hour.
Proof using LocationLaws0.
  intros Hk HN. destruct (decide (k = 0)) as [->|Hne].
  - unfold everyDaysAt. simpl. unfold hour, second. lia.
  - destruct (everyDaysAt_wall k Hne) as (y & m & d & h & mi & sc & -> & Hw & Hh & Hm & Hs).
    pose proof (wallClock_bounds loc base y m d h mi sc Hh Hm Hs) as Hb. rewrite Hw in Hb.
    unfold every_wall, reading in Hb. pose proof (loc_offsets (secs anchor)).
    set (kN := k * EveryDays s) in *. unfold hour, secs, second in *. zdiv.
Qed.
Lemma everyDaysAt_mono i j : 0 <= i <= j -> 1 <= EveryDays s ->
  everyDaysAt s anchor i loc <= everyDaysAt s anchor j loc.
Proof using LocationLaws0.
  intros Hij HN. destruct (decide (i = j)) as [->|]; [done|].
  destruct (decide (i = 0)) as [->|Hi].
  - pose proof (everyDaysAt_near j ltac:(lia) ltac:(lia)).
    assert (1 <= j * EveryDays s) by nia. unfold everyDaysAt at 1. simpl. unfold hour, second in *. lia.
  - destruct (everyDaysAt_wall i Hi) as (y & m & d & h & mi & sc & -> & Hw & Hh & Hm & Hs).
    destruct (everyDaysAt_wall j ltac:(lia)) as (y' & m' & d' & h' & mi' & sc' & -> & Hw' & Hh' & Hm' & Hs').
    apply wallClock_mono with base; try done. rewrite Hw, Hw'. unfold every_wall. nia.
Qed.
End Occurrences.

(** ** The loops of [Next] *)
Section NextLoops.
Context (s : Spec) (loc : Location).

Lemma next_on_day_cons n from tod l :
  next_on_day loc (midnight n) from (tod :: l) =
  if from <? at_day loc n tod then Some (at_day loc n tod) else next_on_day loc (midnight n) from l.
Proof.
  destruct tod as [h mi]. cbn [next_on_day]. rewrite DateOf_midnight. unfold at_day.
  by destruct (civil n) as [[y m] d].
Qed.

Lemma next_on_day_spec n from l :
  StronglySorted (fun a b => tod_le a b = true) l -> (forall p, p ∈ l -> p ∈ sortedTimes s) ->
  ordered_day s loc ->
  match next_on_day loc (midnight n) from l with
  | None => forall p, p ∈ l -> at_day loc n p <= from
  | Some t => exists p, p ∈ l /\ t = at_day loc n p /\ from < t /\
      forall q, q ∈ l -> at_day loc n q <= from \/ t <= at_day loc n q
  end.
Proof.
  intros Hs Hl Hord. induction Hs as [|tod l Hs IH Hall]; [by intros p ?%not_elem_of_nil|].
  rewrite next_on_day_cons. specialize (IH (fun p Hp => Hl p (list_elem_of_further _ _ _ Hp))).
  destruct (Z.ltb_spec from (at_day loc n tod)) as [Hlt|Hge].
  - exists tod. split_and!; [by left|done|done|]. intros q [-> | Hq]%elem_of_cons; right; [done|].
    rewrite Forall_forall in Hall. apply Hord; [apply Hl; by left|apply Hl; by right|by apply Hall].
  - destruct (next_on_day loc (midnight n) from l) as [t|].
    + destruct IH as (p & Hp & -> & Hf & Hq). exists p. split_and!; [by right|done|done|].
      intros q [-> | Hq']%elem_of_cons; [left; lia|by apply Hq].
    + intros p [-> | Hp]%elem_of_cons; [lia|by apply IH].
Qed.

Lemma nextWeekly_loop_step f from D offset :
  nextWeekly_loop (S f) s loc from (civil D) offset =
  if offset <=? 8 then
    if negb (weekdaySet (Weekdays s) (Weekday (D + offset))) then
      nextWeekly_loop f s loc from (civil D) (offset + 1)
    else match next_on_day loc (midnight (D + offset)) from (sortedTimes s) with
         | Some t => Some t
         | None => nextWeekly_loop f s loc from (civil D) (offset + 1)
         end
  else None.
Proof.
  cbn [nextWeekly_loop]. pose proof (day_number_civil D) as HD. destruct (civil D) as [[y m] d].
  cbv zeta. by rewrite Date_midnight, HD, reading_midnight, Z.div_mul by done.
Qed.

(** Whatever the loop answers is the least scheduled instant after [from] on
    the days it looked at, and it answers when one of them has one. *)
Lemma nextWeekly_loop_spec f from D offset :
  ordered_day s loc -> 9 - offset < Z.of_nat f -> 0 <= offset <= 9 ->
  match nextWeekly_loop f s loc from (civil D) offset with
  | Some t => exists n0 p0, scheduled s n0 p0 /\ t = at_day loc n0 p0 /\ from < t /\ n0 <= D + 8 /\
      forall n p, scheduled s n p -> D + offset <= n <= n0 ->
        at_day loc n p <= from \/ (n = n0 /\ t <= at_day loc n p)
  | None => forall n p, scheduled s n p -> D + offset <= n <= D + 8 -> at_day loc n p <= from
  end.
Proof.
  intros Hord. revert offset. induction f as [|f IH]; intros offset Hf Ho; [lia|].
  rewrite nextWeekly_loop_step. destruct (Z.leb_spec offset 8) as [Hle|]; [|intros; lia].
  specialize (IH (offset + 1) ltac:(lia) ltac:(lia)).
  assert (Hnext : (forall p, scheduled s (D + offset) p -> at_day loc (D + offset) p <= from) ->
    match nextWeekly_loop f s loc from (civil D) (offset + 1) with
    | Some t => exists n0 p0, scheduled s n0 p0 /\ t = at_day loc n0 p0 /\ from < t /\ n0 <= D + 8 /\
        forall n p, scheduled s n p -> D + offset <= n <= n0 ->
          at_day loc n p <= from \/ (n = n0 /\ t <= at_day loc n p)
    | None => forall n p, scheduled s n p -> D + offset <= n <= D + 8 -> at_day loc n p <= from
    end).
  { intros Hday. destruct (nextWeekly_loop f s loc from (civil D) (offset + 1)) as [t|].
    - destruct IH as (n0 & p0 & Hs & Ht & Hft & Hn0 & Hall). exists n0, p0. split_and!; try done.
      intros n p Hsch Hn. destruct (decide (n = D + offset)) as [->|]; [left; by apply Hday|].
      apply Hall; [done|lia].
    - intros n p Hsch Hn. destruct (decide (n = D + offset)) as [->|]; [by apply Hday|].
      apply IH; [done|lia]. }
  unfold weekdaySet. destruct (bool_decide (Weekday (D + offset) ∈ Weekdays s)) eqn:Hwd; cbn [negb].
  - propb. pose proof (next_on_day_spec (D + offset) from (sortedTimes s) (sortedTimes_sorted s)
      (fun p Hp => Hp) Hord) as Hd.
    destruct (next_on_day _ _ _ _) as [t|].
    + destruct Hd as (p & Hp & Ht & Hft & Hq). exists (D + offset), p. split_and!; try done; [lia|].
      intros n q [_ Hq'] Hn. assert (n = D + offset) as -> by lia.
      destruct (Hq q Hq') as [|]; [by left|by right].
    + apply Hnext. intros p [_ Hp]. by apply Hd.
  - propb. apply Hnext. by intros p [? _].
Qed.

Lemma nextEveryDays_loop_spec f anchor after est k k1 :
  (forall i j, 0 <= i <= j -> everyDaysAt s anchor i loc <= everyDaysAt s anchor j loc) ->
  0 <= k <= k1 -> k1 <= est + 3 -> k1 - k < Z.of_nat f ->
  after < everyDaysAt s anchor k1 loc ->
  (forall i, 0 <= i < k -> everyDaysAt s anchor i loc <= after) ->
  exists t, nextEveryDays_loop f s anchor after loc est k = Some t /\ after < t /\
    (exists j, 0 <= j /\ t = everyDaysAt s anchor j loc) /\
    forall j, 0 <= j -> after < everyDaysAt s anchor j loc -> t <= everyDaysAt s anchor j loc.
Proof.
  intros Hmono. revert k. induction f as [|f IH]; intros k Hk Hk1 Hf Hlast Hprev; [lia|].
  cbn [nextEveryDays_loop]. rewrite (proj2 (Z.leb_le _ _)) by lia.
  destruct (Z.ltb_spec after (everyDaysAt s anchor k loc)).
  - eexists. split_and!; [done|done|exists k; split; [lia|done]|].
    intros j Hj Hlt. destruct (decide (j < k)) as [Hjk|]; [specialize (Hprev j); lia|].
    apply Hmono. lia.
  - assert (k <> k1) by (intros ->; lia). apply IH; try done; try lia.
    intros i Hi. destruct (decide (i = k)) as [->|]; [done|apply Hprev; lia].
Qed.
End NextLoops.

(** ** Properties *)
Section Properties.
Context (s : Spec) (anchor : Time) (loc : Location).

Lemma valid_weekly : SpecKind s = KindWeekly -> valid s = true -> Weekdays s <> [] /\ Times s <> [] /\
  Forall (fun d => 0 <= d <= 6) (Weekdays s) /\ Forall (fun t => is_Some (parseTimeOfDay t)) (Times s).
Proof.
  unfold valid, Validate. intros ->. destruct (negb (EveryDays s =? 0)); [done|].
  assert (Hd : forall seen l, validate_days seen l = None -> Forall (fun d => 0 <= d <= 6) l).
  { intros seen l. revert seen. induction l as [|d l IH]; intros seen; [constructor|]. simpl.
    destruct ((d <? 0) || (d >? 6)) eqn:E; [done|]. case_bool_decide; [done|].
    intros ?%IH. apply orb_false_iff in E as [E1 E2]. constructor; [|done].
    rewrite Z.gtb_ltb in E2. propb. lia. }
  assert (Ht : forall seen l, validate_times seen l = None -> Forall (fun t => is_Some (parseTimeOfDay t)) l).
  { intros seen l. revert seen. induction l as [|t l IH]; intros seen; [constructor|]. simpl.
    destruct (parseTimeOfDay t) eqn:E; [|done]. case_bool_decide; [done|].
    intros ?%IH. constructor; [by rewrite E|done]. }
  destruct (Weekdays s) as [|d ds]; [done|]. cbn [length Nat.eqb].
  destruct (validate_days [] (d :: ds)) eqn:E; [done|].
  destruct (Times s) as [|t ts]; [done|]. cbn [length Nat.eqb].
  destruct (_ >? _); [done|]. destruct (validate_times [] (t :: ts)) eqn:E'; [done|].
  intros _. split_and!; [done|done|by eapply Hd|by eapply Ht].
Qed.
Lemma valid_every_days : SpecKind s = KindEveryDays -> valid s = true -> 1 <= EveryDays s <= 365.
Proof.
  unfold valid, Validate, MaxEveryDays. intros ->. destruct (_ || _); [done|].
  rewrite Z.gtb_ltb. zcases; done || lia.
Qed.
Lemma valid_kind : valid s = true -> SpecKind s = KindWeekly \/ SpecKind s = KindEveryDays.
Proof. unfold valid, Validate. destruct (SpecKind s); auto. done. Qed.

Lemma scheduled_occurs n p : SpecKind s = KindWeekly -> scheduled s n p -> anchor < at_day loc n p ->
  occurs s anchor loc (at_day loc n p).
Proof.
  intros Hk [Hd (str & Hs & Hp)%elem_of_sortedTimes] Ha. by eapply occurs_weekly.
Qed.

Lemma Latest_bounds after upTo loc' t : Latest s anchor after upTo loc' = Some t -> after < t <= upTo.
Proof.
  unfold Latest. destruct (Validate s), loc' as [loc0|]; try done. destruct (anchor =? 0); [done|].
  intros HL. assert (Hw : forall lower, latestWeekly s lower upTo loc0 = Some t -> lower < t <= upTo).
  { intros lower Ht. edestruct latestWeekly_spec as (r & Hr & Hloop). rewrite Hr in Ht. subst r.
    apply latestWeekly_loop_spec in Hloop as [[? _]|(n & p & _ & _ & Hup & Hif & _)]; [done|].
    destruct (Z.ltb_spec lower (at_day loc0 n p)); [|done]. injection Hif as ->. lia. }
  assert (He : latestEveryDays s anchor after upTo loc0 = Some t -> after < t <= upTo).
  { unfold latestEveryDays. destruct (upTo <? anchor); [done|]. intros Hl.
    by apply latestEveryDays_loop_sound in Hl as [Hb _]. }
  destruct (SpecKind s); [|auto..]. apply Hw in HL. destruct (Z.ltb_spec after anchor); lia.
Qed.

(** What [Latest] returns is a real occurrence of the schedule, after the
    last run and due by now, for any zone whatever; an invalid schedule has
    none. *)
Theorem Latest_sound after upTo t :
  Latest s anchor after upTo (Some loc) = Some t ->
  valid s = true /\ after < t <= upTo /\ occurs s anchor loc t.
Proof.
  unfold Latest. destruct (Validate s) eqn:Hv; [done|].
  assert (Hvalid : valid s = true) by (unfold valid; by rewrite Hv).
  destruct (anchor =? 0); [done|]. intros HL. split; [done|].
  destruct (valid_kind Hvalid) as [Hk|Hk]; rewrite Hk in HL.
  - edestruct latestWeekly_spec as (r & Hr & Hloop). rewrite Hr in HL. subst r.
    apply latestWeekly_loop_spec in Hloop as [[? _]|(n & p & Hs & _ & Hup & Ht & _)]; [done|].
    destruct (Z.ltb_spec after anchor);
      match type of Ht with context [?a <? ?b] => destruct (Z.ltb_spec a b) end; try done;
      injection Ht as ->; (split; [lia|]); apply scheduled_occurs; done || lia.
  - unfold latestEveryDays in HL. destruct (upTo <? anchor); [done|].
    apply latestEveryDays_loop_sound in HL as [Hb (j & Hj & ->)]. split; [done|].
    by apply occurs_every_days.
Qed.

Context (base : Z) `{!LocationLaws loc base}.

Lemma Sub_near t : anchor <= t -> t - anchor < 2 ^ 63 -> Sub t anchor = t - anchor.
Proof using Type. intros. unfold Sub. lia. Qed.
Lemma estimate_near t : 1 <= EveryDays s -> anchor <= t -> t - anchor < 2 ^ 63 ->
  let est := Sub t anchor ÷ (EveryDays s * 24 * hour) in
  0 <= est /\ (est * EveryDays s) * (24 * hour) <= t - anchor < ((est + 1) * EveryDays s) * (24 * hour).
Proof using Type.
  intros HN Ha Hs. cbv zeta. rewrite Sub_near by done.
  assert (0 < EveryDays s * 24 * hour) by (unfold hour, second; lia).
  rewrite Z.quot_div_nonneg by lia.
  pose proof (Z.div_mod (t - anchor) (EveryDays s * 24 * hour) ltac:(lia)).
  pose proof (Z.mod_pos_bound (t - anchor) (EveryDays s * 24 * hour) ltac:(lia)).
  assert (0 <= (t - anchor) / (EveryDays s * 24 * hour)) by (apply Z.div_pos; lia).
  split; [done|]. split; nia.
Qed.

(** Nothing is missed: when an occurrence fell due after the last run,
    [Latest] returns one at least as late, so one call reports the most
    recent. *)
Theorem Latest_complete after upTo t :
  valid s = true -> anchor <> 0 -> upTo - anchor < 2 ^ 63 ->
  occurs s anchor loc t -> after < t <= upTo ->
  exists t', Latest s anchor after upTo (Some loc) = Some t' /\ t <= t'.
Proof using LocationLaws0.
  intros Hv Ha Hfar Hocc Ht. unfold Latest. pose proof Hv as Hv'. unfold valid in Hv'.
  destruct (Validate s); [done|]. rewrite (proj2 (Z.eqb_neq anchor 0) Ha).
  destruct Hocc as [n str p Hk Hd Hstr Hp Hanc|k Hk Hj]; rewrite Hk.
  - set (lower := if after <? anchor then anchor else after).
    assert (Hlow : lower < at_day loc n p) by (unfold lower; destruct (after <? anchor); lia).
    assert (Hs : scheduled s n p) by (split; [done|]; apply elem_of_sortedTimes; eauto).
    edestruct (latestWeekly_spec s loc lower upTo) as (r & -> & Hloop).
    destruct (at_day_date s loc base n p) as [Hge Hle]; [apply Hs|].
    pose proof (reading_date_mono loc base (at_day loc n p) upTo ltac:(lia)) as Hup.
    specialize (Hle lower Hlow).
    apply latestWeekly_loop_spec in Hloop as [[_ Hno]|(n0 & p0 & Hs0 & Hn0 & Hup0 & -> & Hbest)].
    + specialize (Hno n p ltac:(lia) Hs). lia.
    + specialize (Hbest (at_day_ordered s loc base)).
      assert (at_day loc n p <= at_day loc n0 p0).
      { destruct (decide (n < n0)) as [Hlt|].
        - apply (at_day_mono s loc base); [apply Hs|apply Hs0|by left].
        - destruct (Hbest n p Hs ltac:(lia)); lia. }
      rewrite (proj2 (Z.ltb_lt lower _)) by lia. by eexists.
  - pose proof (valid_every_days Hk Hv) as HN.
    pose proof (fun i j Hij => everyDaysAt_mono s loc base anchor i j Hij ltac:(lia)) as Hmono.
    assert (Hle : anchor <= upTo).
    { pose proof (Hmono 0 k ltac:(lia)) as H0. unfold everyDaysAt at 1 in H0. simpl in H0. lia. }
    unfold latestEveryDays. rewrite (proj2 (Z.ltb_ge upTo anchor)) by lia. cbv zeta.
    destruct (estimate_near upTo ltac:(lia) Hle Hfar) as [Hest Hb].
    set (est := Sub upTo anchor ÷ (EveryDays s * 24 * hour)) in *.
    apply (latestEveryDays_loop_complete s loc 5 anchor after upTo est (est + 1) (Z.max (est - 2) 0) k);
      try done; try lia.
    + destruct (decide (est - 2 <= 0)); [rewrite Z.max_r by lia; unfold everyDaysAt; simpl; lia|].
      rewrite Z.max_l by lia.
      pose proof (everyDaysAt_near s loc base anchor (est - 2) ltac:(lia) ltac:(lia)).
      unfold hour, second in *. nia.
    + intros i Hi. pose proof (everyDaysAt_near s loc base anchor i ltac:(lia) ltac:(lia)).
      assert ((est + 2) * EveryDays s <= i * EveryDays s) by nia. unfold hour, second in *. nia.
Qed.
Lemma weekday_within D wd : 0 <= wd <= 6 -> exists n, D + 2 <= n <= D + 8 /\ Weekday n = wd.
Proof using Type.
  intros Hwd. exists (D + 2 + (wd - Weekday (D + 2)) mod 7). unfold Weekday. split; zdiv.
Qed.

(** Where the laws hold at all times, a valid schedule has a next run, which is
    the first occurrence after the given moment, and not far away
    (ScheduleZone.v lifts this to zones that keep the laws for a while). *)
Lemma Next_first after :
  valid s = true -> anchor <> 0 -> after - anchor < 2 ^ 63 ->
  exists t, Next s anchor after (Some loc) = Some t /\ after < t /\ occurs s anchor loc t /\
    t <= Z.max after anchor + (4 * EveryDays s + 11) * (24 * hour) /\
    forall t', occurs s anchor loc t' -> after < t' -> t <= t'.
Proof using LocationLaws0.
  intros Hv Ha Hfar. unfold Next. pose proof Hv as Hv'. unfold valid in Hv'.
  destruct (Validate s); [done|]. rewrite (proj2 (Z.eqb_neq anchor 0) Ha).
  destruct (valid_kind Hv) as [Hk|Hk]; rewrite Hk.
  - set (from := if after <? anchor then anchor else after).
    assert (Hfrom : after <= from /\ anchor <= from /\ (from = after \/ from = anchor))
      by (unfold from; zcases; lia).
    pose proof (at_day_ordered s loc base) as Hord.
    unfold nextWeekly, DateOf.
    pose proof (nextWeekly_loop_spec s loc 10 from (reading loc from / 86400) 0 Hord ltac:(lia) ltac:(lia)) as Hl.
    destruct (nextWeekly_loop 10 s loc from (civil (reading loc from / 86400)) 0) as [t|].
    + destruct Hl as (n0 & p0 & Hs0 & -> & Hft & Hn0 & Hall). eexists. split; [done|].
      assert (HN : 0 <= EveryDays s) by (unfold valid, Validate in Hv; rewrite Hk in Hv; destruct (Z.eqb_spec (EveryDays s) 0); [lia|done]).
      pose proof (at_day_soon s loc base n0 p0 from ltac:(apply Hs0) Hn0) as Hsoon.
      split_and!; [lia|by apply scheduled_occurs; [done..|lia]|unfold hour, second in *; nia|].
      intros t' [n str p _ Hd Hstr Hp Hanc|? Hk' _] Ht'; [|congruence].
      assert (Hs : scheduled s n p) by (split; [done|]; apply elem_of_sortedTimes; eauto).
      destruct (at_day_date s loc base n p) as [_ Hge]; [apply Hs|]. specialize (Hge from ltac:(lia)).
      destruct (decide (n <= n0)).
      * destruct (Hall n p Hs ltac:(lia)); lia.
      * apply (at_day_mono s loc base); [apply Hs0|apply Hs|left; lia].
    + exfalso. destruct (valid_weekly Hk Hv) as (Hwd & Htm & Hwr & Hpr).
      destruct (Weekdays s) as [|wd wds] eqn:Ew; [done|]. destruct (Times s) as [|str strs] eqn:Et; [done|].
      apply Forall_cons in Hwr as [Hwr _], Hpr as [[p Hp] _].
      destruct (weekday_within (reading loc from / 86400) wd Hwr) as (n & Hn & Hwn).
      assert (Hs : scheduled s n p).
      { split; [rewrite Hwn, Ew; by left|]. apply elem_of_sortedTimes. exists str. rewrite Et. split; [by left|done]. }
      pose proof (Hl n p Hs ltac:(lia)). pose proof (at_day_late s loc base n p from ltac:(apply Hs) ltac:(lia)). lia.
  - pose proof (valid_every_days Hk Hv) as HN.
    pose proof (fun i j Hij => everyDaysAt_mono s loc base anchor i j Hij ltac:(lia)) as Hmono.
    assert (H0 : everyDaysAt s anchor 0 loc = anchor) by done.
    unfold nextEveryDays. destruct (Z.ltb_spec after anchor).
    { eexists. split_and!; [done|done|rewrite <-H0; by apply occurs_every_days|unfold hour, second; lia|].
      intros t' [? ? ? Hk' _ _ _ _|k _ Hk0] _; [congruence|]. rewrite <-H0. apply Hmono. lia. }
    cbv zeta. destruct (estimate_near after ltac:(lia) ltac:(lia) Hfar) as [Hest Hb].
    set (est := Sub after anchor ÷ (EveryDays s * 24 * hour)) in *.
    destruct (nextEveryDays_loop_spec s loc 7 anchor after est (Z.max (est - 2) 0) (est + 3)) as
      (t & -> & Hlt & (j & Hj & ->) & Hmin); try done; try lia.
    + pose proof (everyDaysAt_near s loc base anchor (est + 3) ltac:(lia) ltac:(lia)).
      unfold hour, second in *. nia.
    + intros i Hi. pose proof (everyDaysAt_near s loc base anchor i ltac:(lia) ltac:(lia)).
      assert ((i + 1) * EveryDays s <= est * EveryDays s) by nia. unfold hour, second in *. nia.
    + pose proof (everyDaysAt_near s loc base anchor (est + 3) ltac:(lia) ltac:(lia)) as Hnear.
      pose proof (Hmin (est + 3) ltac:(lia) ltac:(unfold hour, second in *; nia)) as Hsoon.
      eexists. split_and!; [done|done|by apply occurs_every_days|unfold hour, second in *; nia|].
      intros t' [? ? ? Hk' _ _ _ _|k _ Hk0]; [congruence|by apply Hmin].
Qed.

(** [wallClock] returns an instant at which the zone's clock reads what
    was asked for; when no instant does, because the hour is skipped, it
    returns the first instant at which the clock reads more. *)
Theorem wallClock_spec y m d h mi sc :
  0 <= h < 24 -> 0 <= mi < 60 -> 0 <= sc < 60 ->
  let t := wallClock y m d h mi sc loc in
  let w := wall y m d h mi sc in
  reading loc t = w \/
  (w < reading loc t /\ (forall u, u < t -> reading loc u < w) /\ (forall u, t <= u -> w < reading loc u)).
Proof using LocationLaws0.
  intros Hh Hm Hs. cbv zeta. set (w := wall y m d h mi sc).
  destruct (around_ex loc base w) as (T & a & b & Har).
  rewrite (wallClock_pick loc base w T a b) by (try done; fold w; lia). fold w.
  destruct Har as (HT & Hab & Hd & Hoff & Hin & Hbase & Hpa & Hpb).
  assert (Hpick : offset_at loc (pick T a b w) = if pick T a b w <? T then a else b).
  { apply Hoff. pose proof (pick_bounds T a b w). unfold window. lia. }
  assert (Hcase : w = pick T a b w + (if pick T a b w <? T then a else b) \/
            (pick T a b w = T /\ T + a <= w < T + b)) by (unfold pick; zcases; lia).
  destruct Hcase as [Hw|[-> Hw]]; [left; rewrite reading_mul, Hpick; lia|right].
  assert (Hread : forall u, reading loc u = secs u + offset_at loc (secs u)) by done.
  split_and!.
  - rewrite reading_mul, Hoff, (proj2 (Z.ltb_ge _ _)) by (unfold window in *; lia). lia.
  - intros u Hu. rewrite Hread. assert (secs u < T) by (unfold secs, second in *; zdiv).
    pose proof (loc_offsets (secs u)). destruct (decide (w - window <= secs u)); [|unfold window in *; lia].
    rewrite Hoff, (proj2 (Z.ltb_lt _ _)) by (unfold window in *; lia). lia.
  - intros u Hu. rewrite Hread. assert (T <= secs u) by (unfold secs, second in *; zdiv).
    pose proof (loc_offsets (secs u)). destruct (decide (secs u <= w + window)); [|unfold window in *; lia].
    rewrite Hoff, (proj2 (Z.ltb_ge _ _)) by (unfold window in *; lia). lia.
Qed.

(** A reading that happens twice: east of Greenwich [wallClock] returns
    the later of the two instants, west of it the earlier. *)
Theorem wallClock_repeated y m d h mi sc e l :
  0 <= h < 24 -> 0 <= mi < 60 -> 0 <= sc < 60 -> e < l ->
  reading loc (e * second) = wall y m d h mi sc -> reading loc (l * second) = wall y m d h mi sc ->
  (0 <= offset_at loc l -> wallClock y m d h mi sc loc = l * second) /\
  (offset_at loc e <= 0 -> wallClock y m d h mi sc loc = e * second).
Proof using LocationLaws0.
  intros Hh Hm Hs Hel He Hl. rewrite reading_mul in He, Hl. set (w := wall y m d h mi sc) in *.
  destruct (around_ex loc base w) as (T & a & b & Har).
  rewrite (wallClock_pick loc base w T a b) by (try done; fold w; lia). fold w.
  destruct Har as (HT & Hab & Hd & Hoff & Hin & Hbase & Hpa & Hpb).
  pose proof (loc_offsets e). pose proof (loc_offsets l).
  assert (Hoe : offset_at loc e = if e <? T then a else b) by (apply Hoff; unfold window; lia).
  assert (Hol : offset_at loc l = if l <? T then a else b) by (apply Hoff; unfold window; lia).
  destruct (Z.ltb_spec e T), (Z.ltb_spec l T); try lia.
  unfold pick. split; intros; f_equal; zcases; lia.
Qed.
End Properties.

(** ** The order a form lists days and times in plays no part *)
Section Order.
Lemma validate_days_iff seen l : validate_days seen l = None <->
  NoDup l /\ (forall x, x ∈ l -> x ∉ seen) /\ (forall x, x ∈ l -> 0 <= x <= 6).
Proof.
  revert seen. induction l as [|d l IH]; intros seen; simpl.
  - split; [intros _|done]. split_and!; [constructor|by intros ? ?%not_elem_of_nil..].
  - rewrite Z.gtb_ltb. destruct ((d <? 0) || (6 <? d)) eqn:E.
    + split; [done|]. intros (_ & _ & Hr). specialize (Hr d (list_elem_of_here _ _)).
      apply orb_true_iff in E as [E|E]; propb; lia.
    + propb. case_bool_decide as Hd.
      * split; [done|]. intros (_ & Hs & _). by destruct (Hs d (list_elem_of_here _ _)).
      * rewrite IH, NoDup_cons. setoid_rewrite elem_of_cons. split.
        -- intros (Hn & Hs & Hr). split_and!; [intros Hin; by destruct (Hs d Hin); left|done| |].
           ++ intros x [-> | Hx]; [done|]. intros Hx'. destruct (Hs x Hx). by right.
           ++ intros x [-> | Hx]; [lia|auto].
        -- intros ((Hn & Hnd) & Hs & Hr). split_and!; [done| |auto].
           intros x Hx [-> | Hx']; [done|]. destruct (Hs x); auto.
Qed.
Lemma validate_times_iff seen l : validate_times seen l = None <->
  NoDup l /\ (forall x, x ∈ l -> x ∉ seen) /\ (forall x, x ∈ l -> is_Some (parseTimeOfDay x)).
Proof.
  revert seen. induction l as [|d l IH]; intros seen; simpl.
  - split; [intros _|done]. split_and!; [constructor|by intros ? ?%not_elem_of_nil..].
  - destruct (parseTimeOfDay d) as [p|] eqn:E.
    + case_bool_decide as Hd.
      * split; [done|]. intros (_ & Hs & _). by destruct (Hs d (list_elem_of_here _ _)).
      * rewrite IH, NoDup_cons. setoid_rewrite elem_of_cons. split.
        -- intros (Hn & Hs & Hr). split_and!; [intros Hin; by destruct (Hs d Hin); left|done| |].
           ++ intros x [-> | Hx]; [done|]. intros Hx'. destruct (Hs x Hx). by right.
           ++ intros x [-> | Hx]; [by rewrite E|auto].
        -- intros ((Hn & Hnd) & Hs & Hr). split_and!; [done| |auto].
           intros x Hx [-> | Hx']; [done|]. destruct (Hs x); auto.
    + split; [done|]. intros (_ & _ & Hr). specialize (Hr d (list_elem_of_here _ _)).
      rewrite E in Hr. by destruct Hr.
Qed.

(** Two schedules that differ only in the order of their lists. *)
Definition same_schedule (s s' : Spec) : Prop :=
  SpecKind s = SpecKind s' /\ EveryDays s = EveryDays s' /\
  Weekdays s ≡ₚ Weekdays s' /\ Times s ≡ₚ Times s'.

Lemma Normalized_same s : same_schedule (Normalized s) s.
Proof. unfold same_schedule, Normalized. simpl. by rewrite !sort_by_perm. Qed.

Lemma valid_same s s' : same_schedule s s' -> valid s = valid s'.
Proof.
  intros (Hk & He & Hd & Ht). unfold valid, Validate. rewrite Hk, He.
  rewrite (Permutation_length Hd), (Permutation_length Ht).
  destruct (SpecKind s'); [|done..].
  assert (Hdays : validate_days [] (Weekdays s) = None <-> validate_days [] (Weekdays s') = None)
    by (rewrite !validate_days_iff; by setoid_rewrite Hd).
  assert (Htimes : validate_times [] (Times s) = None <-> validate_times [] (Times s') = None)
    by (rewrite !validate_times_iff; by setoid_rewrite Ht).
  repeat match goal with |- context [if ?b then _ else _] => destruct b; [done|] end.
  destruct (validate_days [] (Weekdays s)), (validate_days [] (Weekdays s')); try done;
    try (exfalso; clear -Hdays; by intuition).
  repeat match goal with |- context [if ?b then _ else _] => destruct b; [done|] end.
  destruct (validate_times [] (Times s)), (validate_times [] (Times s')); try done;
    exfalso; clear -Htimes; by intuition.
Qed.

Lemma tod_le_anti x y : tod_le x y = true -> tod_le y x = true -> x = y.
Proof. destruct x, y. unfold tod_le. simpl. zcases; intros; subst; done || lia || (f_equal; lia). Qed.
Lemma sortedTimes_same s s' : same_schedule s s' -> sortedTimes s = sortedTimes s'.
Proof.
  intros (_ & _ & _ & Ht). apply sort_by_canonical;
    [apply tod_le_total|apply tod_le_trans|apply tod_le_anti|by rewrite Ht].
Qed.
Lemma weekdaySet_same s s' d : same_schedule s s' -> weekdaySet (Weekdays s) d = weekdaySet (Weekdays s') d.
Proof. intros (_ & _ & Hd & _). unfold weekdaySet. apply bool_decide_ext. by rewrite Hd. Qed.

Lemma latestWeekly_same s s' lower upTo loc : same_schedule s s' ->
  latestWeekly s lower upTo loc = latestWeekly s' lower upTo loc.
Proof.
  intros Hs. unfold latestWeekly. destruct (DateOf loc lower) as [[? ?] ?].
  enough (Hl : forall f off floor, latestWeekly_loop f s loc lower upTo floor (DateOf loc upTo) off =
    latestWeekly_loop f s' loc lower upTo floor (DateOf loc upTo) off) by by rewrite Hl.
  intros f. induction f as [|f IH]; intros off floor; [done|]. cbn [latestWeekly_loop].
  destruct (DateOf loc upTo) as [[? ?] ?]. by rewrite (weekdaySet_same s s'), (sortedTimes_same s s'), IH.
Qed.
Lemma nextWeekly_same s s' from loc : same_schedule s s' -> nextWeekly s from loc = nextWeekly s' from loc.
Proof.
  intros Hs. unfold nextWeekly. generalize 10%nat as f, 0 as off. intros f.
  induction f as [|f IH]; intros off; [done|]. cbn [nextWeekly_loop].
  destruct (DateOf loc from) as [[? ?] ?]. by rewrite (weekdaySet_same s s'), (sortedTimes_same s s'), IH.
Qed.

Lemma everyDaysAt_same s s' anchor k loc : same_schedule s s' ->
  everyDaysAt s anchor k loc = everyDaysAt s' anchor k loc.
Proof. intros (_ & He & _). unfold everyDaysAt. by rewrite He. Qed.
Lemma latestEveryDays_same s s' anchor after upTo loc : same_schedule s s' ->
  latestEveryDays s anchor after upTo loc = latestEveryDays s' anchor after upTo loc.
Proof.
  intros Hs. unfold latestEveryDays. destruct (upTo <? anchor); [reflexivity|]. cbv zeta.
  rewrite (proj1 (proj2 Hs)). generalize (Sub upTo anchor ÷ (EveryDays s' * 24 * hour)) as e. intros e.
  generalize 5%nat as f, (e + 1) as k. intros f. induction f as [|f IH]; intros k; [reflexivity|].
  cbn [latestEveryDays_loop]. by rewrite (everyDaysAt_same s s'), IH.
Qed.
Lemma nextEveryDays_same s s' anchor after loc : same_schedule s s' ->
  nextEveryDays s anchor after loc = nextEveryDays s' anchor after loc.
Proof.
  intros Hs. unfold nextEveryDays. destruct (after <? anchor); [reflexivity|]. cbv zeta.
  rewrite (proj1 (proj2 Hs)). generalize (Sub after anchor ÷ (EveryDays s' * 24 * hour)) as e. intros e.
  generalize 7%nat as f, (Z.max (e - 2) 0) as k. intros f. induction f as [|f IH]; intros k; [reflexivity|].
  cbn [nextEveryDays_loop]. by rewrite (everyDaysAt_same s s'), IH.
Qed.

(** Two schedules that list the same days and times, in whatever order,
    are both valid or both not, are stored and described identically and fall
    due at the same instants; [Normalized] gives such a schedule. *)
Theorem order_irrelevant s s' : same_schedule s s' ->
  valid s = valid s' /\ Normalized s = Normalized s' /\ Describe s = Describe s' /\
  (forall anchor after upTo loc, Latest s anchor after upTo loc = Latest s' anchor after upTo loc) /\
  (forall anchor after loc, Next s anchor after loc = Next s' anchor after loc).
Proof.
  intros Hs. pose proof (valid_same s s' Hs) as Hv.
  assert (HN : Normalized s = Normalized s').
  { destruct Hs as (Hk & He & Hd & Ht). unfold Normalized. rewrite Hk, He. f_equal.
    - apply sort_by_canonical; [| | |done].
      + intros x y. rewrite Z.leb_gt, Z.leb_le. lia.
      + intros x y z. rewrite !Z.leb_le. lia.
      + intros x y. rewrite !Z.leb_le. lia.
    - apply sort_by_canonical; [apply string_le_total|apply string_le_trans|apply String.leb_antisym|done]. }
  split_and!; [done|done| | |].
  - unfold Describe. by rewrite Hv, HN.
  - intros anchor after upTo loc. unfold Latest. unfold valid in Hv.
    destruct (Validate s), (Validate s'); [reflexivity|discriminate..|]. destruct loc as [loc|]; [|reflexivity].
    rewrite (proj1 Hs). destruct (anchor =? 0); [done|]. destruct (SpecKind s') eqn:Hk; [by apply latestWeekly_same|by apply latestEveryDays_same..].
  - intros anchor after loc. unfold Next. unfold valid in Hv.
    destruct (Validate s), (Validate s'); [reflexivity|discriminate..|]. destruct loc as [loc|]; [|reflexivity].
    rewrite (proj1 Hs). destruct (anchor =? 0); [done|]. destruct (SpecKind s') eqn:Hk; [by apply nextWeekly_same|by apply nextEveryDays_same..].
Qed.
End Order.

(** ** Witnesses: Europe/Berlin from 2024 to 2026 *)
Definition unix (s : Z) : Z := 62135596800 + s.
Definition berlin_tx : list (Z * Z) :=
  [(unix 1711846800, 7200); (unix 1729990800, 3600); (unix 1743296400, 7200); (unix 1761440400, 3600)].
Definition berlin : Location := zone "Europe/Berlin" 3600 berlin_tx.
Lemma berlin_laws : LocationLaws berlin 0.
Proof. apply zone_laws; [lia|vm_compute; reflexivity]. Qed.

(** Sundays at 02:30, saved on 2024-03-01. *)
Definition sundays : Spec := MkSpec KindWeekly [0] ["02:30"] 0.
Definition saved : Time := unix 1709290800 * second.
Definition every2 : Spec := MkSpec KindEveryDays [] [] 2.
(** 2024-03-31: 02:30 is skipped, so 03:00 local, 01:00 UTC. *)
Definition spring : Time := unix 1711846800 * second.

Lemma sundays_occur : occurs sundays saved berlin spring.
Proof.
  replace spring with (at_day berlin 738975 (2, 30)) by (vm_compute; reflexivity).
  by eapply (occurs_weekly sundays saved berlin 738975 "02:30" (2, 30)); [done|left|left|vm_compute..].
Qed.

Lemma Latest_sound_witness :
  Latest sundays saved saved (spring + hour) (Some berlin) = Some spring /\
  valid sundays = true /\ saved < spring <= spring + hour /\ occurs sundays saved berlin spring.
Proof.
  split; [vm_compute; reflexivity|].
  apply (Latest_sound sundays saved berlin saved (spring + hour) spring). vm_compute. reflexivity.
Defined.

Lemma Latest_complete_witness :
  exists t', Latest sundays saved saved (spring + hour) (Some berlin) = Some t' /\ spring <= t'.
Proof.
  apply (Latest_complete sundays saved berlin 0 (LocationLaws0 := berlin_laws) saved (spring + hour) spring).
  - vm_compute. reflexivity.
  - vm_compute. discriminate.
  - vm_compute. reflexivity.
  - exact sundays_occur.
  - vm_compute. split; discriminate || reflexivity.
Defined.

Lemma wallClock_spec_witness :
  wallClock 2024 3 31 2 30 0 berlin = spring /\
  (reading berlin (wallClock 2024 3 31 2 30 0 berlin) = wall 2024 3 31 2 30 0 \/
   (wall 2024 3 31 2 30 0 < reading berlin (wallClock 2024 3 31 2 30 0 berlin) /\
    (forall u, u < wallClock 2024 3 31 2 30 0 berlin -> reading berlin u < wall 2024 3 31 2 30 0) /\
    (forall u, wallClock 2024 3 31 2 30 0 berlin <= u -> wall 2024 3 31 2 30 0 < reading berlin u))).
Proof.
  split; [vm_compute; reflexivity|].
  apply (wallClock_spec berlin 0 (LocationLaws0 := berlin_laws) 2024 3 31 2 30 0); lia.
Defined.

Lemma order_irrelevant_witness :
  let s := MkSpec KindWeekly [5; 1] ["14:30"; "02:00"] 0 in
  let s' := MkSpec KindWeekly [1; 5] ["02:00"; "14:30"] 0 in
  Describe s = "Mondays and Fridays at 02:00 and 14:30" /\
  valid s = valid s' /\ Normalized s = Normalized s' /\ Describe s = Describe s' /\
  (forall anchor after upTo loc, Latest s anchor after upTo loc = Latest s' anchor after upTo loc) /\
  (forall anchor after loc, Next s anchor after loc = Next s' anchor after loc).
Proof.
  cbv zeta. split; [vm_compute; reflexivity|]. apply order_irrelevant.
  split_and!; [done|done|apply Permutation_swap|apply Permutation_swap].
Defined.

(** The comment on [wallClock] says that a local time which happens twice is
    the earlier of the two; in Berlin it is the later: on 2024-10-27 02:30
    happens at 00:30 and at 01:30 UTC, and [wallClock] returns the second. *)
Lemma wallClock_repeated_witness :
  0 <= offset_at berlin (unix 1729992600) /\
  wallClock 2024 10 27 2 30 0 berlin = unix 1729992600 * second.
Proof.
  split; [vm_compute; discriminate|].
  apply (wallClock_repeated berlin 0 (LocationLaws0 := berlin_laws) 2024 10 27 2 30 0 (unix 1729989000) (unix 1729992600));
    vm_compute; split_and?; discriminate || reflexivity.
Defined.
