(* ===== verification/ScheduleZone.v ===== *)
(** * The next run of a schedule in a real time zone

    A real zone has local mean time with seconds, and perhaps a lost or a
    repeated day, somewhere in its past: [LocationLaws] does not hold for all
    time.  [RegularZone] asks for the laws over a span only; outside it nothing
    but that the zone is within a day of UTC.  [Next_spec] is about that span.
    The witnesses are the tables of the time zone database for Berlin and Apia. *)
From stdpp Require Import base list strings.
From Stdlib Require Import ZArith Lia.
From Stdlib Require String.
From S2P Require Import Prelude Db Text Calendar GoTime Schedule.
Local Open Scope list_scope.
Local Open Scope Z_scope.

Class RegularZone (loc : Location) (base lo hi : Z) : Prop := {
  reg_base : -86400 <= base <= 43200;
  reg_far : forall s, Z.abs (offset_at loc s) <= 86400;
  reg_offsets : forall s, lo - window <= s <= hi + window -> base <= offset_at loc s <= base + 43200;
  reg_window : forall x, lo <= x <= hi -> exists T a b,
    T mod 60 = 0 /\ Z.abs (b - a) <= 10800 /\ (T + a - 1) / 86400 <= (T + b) / 86400 /\
    (forall s, x - window <= s <= x + window -> offset_at loc s = if s <? T then a else b) /\
    (forall s u, x - window <= s <= x + window -> x - window <= u <= x + window ->
       in_zone loc s u = eqb (s <? T) (u <? T))
}.

(** ** The zone that goes on as it is at the ends of the span *)
Section Clip.
Context (loc : Location) (base lo hi : Z) `{!RegularZone loc base lo hi} (Hspan : lo <= hi).

End Clip.


(** ** [Next] in a zone that is regular over a span *)
Section Next.
Context (s : Spec) (anchor after : Time) (loc : Location) (base lo hi : Z) `{!RegularZone loc base lo hi}.
Context (Hlo : (lo + 10 * 86400) * second <= anchor).
Context (Hhi : Z.max after anchor + (4 * EveryDays s + 20) * (24 * hour) <= hi * second).
Context (HN : 0 <= EveryDays s).
End Next.


(** ** Tables of transitions *)
Fixpoint state_after (off : Z) (start : option Z) (tx : list (Z * Z)) : Z * option Z :=
  match tx with [] => (off, start) | (T, o) :: tx' => state_after o (Some T) tx' end.
Lemma zone_lookup_app early late s : forall off start, forallb (fun p => p.1 <=? s) early = true ->
  zone_lookup off start (early ++ late) s = let (o, st) := state_after off start early in zone_lookup o st late s.
Proof.
  induction early as [|[T o] early IH]; intros off start; [done|]. cbn [forallb app zone_lookup state_after fst].
  intros [HT He]%andb_true_iff. apply Z.leb_le in HT. rewrite (proj2 (Z.ltb_ge _ _)) by lia. by apply IH.
Qed.
Lemma zone_lookup_bound tx s : forall off start, Z.abs off <= 86400 -> forallb (fun p => Z.abs p.2 <=? 86400) tx = true ->
  Z.abs (zone_lookup off start tx s).1.1 <= 86400.
Proof.
  induction tx as [|[T o] tx IH]; intros off start Ho; [done|]. cbn [forallb zone_lookup snd]. intros [HT He]%andb_true_iff. apply Z.leb_le in HT.
  destruct (s <? T); [done|by apply IH].
Qed.
(** A table whose transitions are regular from some time on. *)
Definition regular_from (base off : Z) (early late : list (Z * Z)) (lo : Z) : bool :=
  (-86400 <=? base) && (base <=? 43200) && (Z.abs off <=? 86400) && forallb (fun p => Z.abs p.2 <=? 86400) (early ++ late) &&
  forallb (fun p => p.1 <=? lo - 2 * window) early && well_spaced base (state_after off None early).1 late.
Lemma zone_regular name base off early late lo hi : regular_from base off early late lo = true ->
  RegularZone (zone name off (early ++ late)) base lo hi.
Proof.
  unfold regular_from. rewrite !andb_true_iff. intros (((((Hb1 & Hb2) & Ho) & Hall) & Hearly) & Hlate). propb.
  assert (Hlook : forall s, lo - 2 * window <= s -> lookup (zone name off (early ++ late)) s =
    zone_lookup (state_after off None early).1 (state_after off None early).2 late s).
  { intros s Hs. cbn [lookup zone]. rewrite zone_lookup_app; [by destruct (state_after off None early)|].
    apply forallb_forall. intros p Hp. rewrite forallb_forall in Hearly. specialize (Hearly p Hp). propb. apply Z.leb_le. lia. }
  assert (Hstart : match (state_after off None early).2 with Some y => y <= lo - 2 * window | None => True end).
  { clear -Hearly. assert (Hgen : forall off st, match st with Some y => y <= lo - 2 * window | None => True end ->
      match (state_after off st early).2 with Some y => y <= lo - 2 * window | None => True end); [|by apply Hgen].
    induction early as [|[T o] early IH]; intros off' st Hst; [done|]. cbn in Hearly |- *. apply andb_true_iff in Hearly as [HT He]. apply Z.leb_le in HT.
    by apply IH. }
  constructor; [lia| | |].
  - intros s. cbn [offset_at zone lookup]. apply zone_lookup_bound; [lia|done].
  - intros s Hs. unfold offset_at. rewrite Hlook by (unfold window in *; lia). by apply zone_offsets.
  - intros x Hx. destruct (zone_window base _ (state_after off None early).2 late x Hlate) as (T & a & b & H1 & H2 & H3 & H4 & H5).
    { destruct (state_after off None early).2; [unfold window in *; lia|done]. }
    exists T, a, b. split_and!; try done.
    + intros s Hs. unfold offset_at. rewrite Hlook by (unfold window in *; lia). by apply H4.
    + intros s u Hs Hu. unfold in_zone. rewrite Hlook by (unfold window in *; lia). by apply H5.
Qed.

(** ** Berlin and Apia as the time zone database has them, until 2037

    Berlin begins with local mean time, 53 minutes and 28 seconds; Apia left
    out 30 December 2011. *)
Definition since_1970 (l : list (Z * Z)) : list (Z * Z) := map (fun p => (unix p.1, p.2)) l.
Definition apia_early : list (Z * Z) := since_1970
  [(-2445424384, -41216); (-1861878784, -41400); (-631110600, -39600); (1285498800, -36000); (1301752800, -39600);
   (1316872800, -36000); (1325239200, 50400)].
Definition apia_late : list (Z * Z) := since_1970
  [(1333202400, 46800); (1348927200, 50400); (1365256800, 46800); (1380376800, 50400); (1396706400, 46800); (1411826400, 50400);
   (1428156000, 46800); (1443276000, 50400); (1459605600, 46800); (1474725600, 50400); (1491055200, 46800); (1506175200, 50400);
   (1522504800, 46800); (1538229600, 50400); (1554559200, 46800); (1569679200, 50400); (1586008800, 46800); (1601128800, 50400);
   (1617458400, 46800)].
Definition apia_zone : Location := zone "Pacific/Apia" (45184) (apia_early ++ apia_late).
Lemma apia_regular : RegularZone apia_zone 20000 (unix 1327000000) (unix 2145000000).
Proof. apply zone_regular. vm_compute. reflexivity. Qed.

Example next_in_apia : Next sundays saved saved (Some apia_zone) = Some (unix 1709386200 * second).
Proof. vm_compute. reflexivity. Qed.
