(* ===== verification/Rbac.v ===== *)
(** * Roles and permissions ([internal/rbac])

    The tier rules of [rbac.go] as boolean functions of an [Actor], the users
    table of [internal/db/users.go] and the service of [service.go] that checks
    a rule, persists the decision, audits it and reverts an unaudited change.
    [theme.go]'s validation of a personal theme is here too.  The
    hashing of passwords is the interface [PasswordHasher], which Passwords.v
    implements. *)
From stdpp Require Import base list strings gmap.
From Stdlib Require Import ZArith Lia.
From Stdlib Require Import Ascii.
From Stdlib Require String.
From S2P Require Import Prelude Db Text.
Local Open Scope string_scope.
Local Open Scope list_scope.
Local Open Scope Z_scope.

(** ** [rbac.go]: the decision functions *)
Record Actor := MkActor { IsSuperAdmin : bool; ActorUserID : string; ActorTier : Tier }.

Definition adminRange : list Tier := [TierReadOnly; TierDeveloper; TierPowerDev].

(** [rangeIndex]: the position of a tier in [adminRange], -1 when absent. *)
Fixpoint index_from (i : Z) (l : list Tier) (t : Tier) : Z :=
  match l with
  | [] => -1
  | x :: l' => if bool_decide (x = t) then i else index_from (i + 1) l' t
  end.
Definition rangeIndex (tier : Tier) : Z := index_from 0 adminRange tier.

Definition is_tier (a : Actor) (t : Tier) : bool := bool_decide (ActorTier a = t).

Definition CanElevate (actor : Actor) (fromTier toTier : Tier) : bool :=
  if IsSuperAdmin actor then true
  else if negb (is_tier actor TierAdmin) then false
  else
    let fromIdx := rangeIndex fromTier in
    let toIdx := rangeIndex toTier in
    if (fromIdx =? -1) || (toIdx =? -1) then false
    else let step := toIdx - fromIdx in (step =? 1) || (step =? -1).

Definition CanManageNodes (actor : Actor) : bool :=
  if IsSuperAdmin actor then true else is_tier actor TierAdmin.
Definition CanImportModels (actor : Actor) : bool :=
  if IsSuperAdmin actor then true else is_tier actor TierAdmin.
Definition CanEditNodeComment (actor : Actor) : bool :=
  if IsSuperAdmin actor then true
  else match ActorTier actor with TierPowerDev | TierAdmin => true | _ => false end.
Definition CanViewAuditLog (actor : Actor) : bool :=
  if IsSuperAdmin actor then true else is_tier actor TierAdmin.
Definition CanViewUsers (actor : Actor) : bool :=
  if IsSuperAdmin actor then true else is_tier actor TierAdmin.
Definition CanManageStaleContainers (actor : Actor) : bool :=
  if IsSuperAdmin actor then true else is_tier actor TierAdmin.
Definition CanManageEmail (actor : Actor) : bool :=
  if IsSuperAdmin actor then true else is_tier actor TierAdmin.
Definition CanViewSettings (actor : Actor) : bool :=
  if IsSuperAdmin actor then true else is_tier actor TierAdmin.
Definition CanCreateLocalAccount (actor : Actor) : bool :=
  if IsSuperAdmin actor then true else is_tier actor TierAdmin.
Definition CanResetLocalAccountPassword (actor : Actor) : bool :=
  if IsSuperAdmin actor then true else is_tier actor TierAdmin.
Definition CanSetUserEmail (actor : Actor) : bool :=
  if IsSuperAdmin actor then true else is_tier actor TierAdmin.
Definition CanManageModelStore (actor : Actor) (hasOverride : bool) : bool :=
  if IsSuperAdmin actor then true
  else if is_tier actor TierAdmin then true
  else is_tier actor TierPowerDev && hasOverride.
Definition CanManageProfiles (actor : Actor) : bool :=
  if IsSuperAdmin actor then true
  else if is_tier actor TierAdmin then true
  else is_tier actor TierPowerDev.
Definition CanViewInstanceLogs (actor : Actor) : bool :=
  if IsSuperAdmin actor then true
  else match ActorTier actor with TierDeveloper | TierPowerDev | TierAdmin => true | _ => false end.
Definition CanLaunchInstances (actor : Actor) : bool :=
  if IsSuperAdmin actor then true
  else match ActorTier actor with TierDeveloper | TierPowerDev | TierAdmin => true | _ => false end.
Definition CanResolveAnyAlert (actor : Actor) : bool :=
  if IsSuperAdmin actor then true else is_tier actor TierAdmin.
Definition CanManageGroups (actor : Actor) : bool :=
  if IsSuperAdmin actor then true
  else match ActorTier actor with TierPowerDev | TierAdmin => true | _ => false end.
Definition CanManageGroupLocalMembers (actor : Actor) : bool :=
  if IsSuperAdmin actor then true else is_tier actor TierAdmin.

Definition ErrNotPermitted : error := Sentinel "rbac.ErrNotPermitted" "not permitted".
Definition ErrNotLocalAccount : error := Sentinel "rbac.ErrNotLocalAccount" "not a local account".
Definition ErrWrongPassword : error := Sentinel "rbac.ErrWrongPassword" "wrong current password".
Definition ErrInvalidTheme : error := Sentinel "rbac.ErrInvalidTheme" "invalid theme".
Definition ErrUserNotFound : error := Sentinel "db.ErrUserNotFound" "user not found".
Definition ErrLocalUsernameTaken : error := Sentinel "db.ErrLocalUsernameTaken" "local username already taken".

(** [var elevatedBy *string; if !actor.IsSuperAdmin { elevatedBy = &actor.UserID }] *)
Definition actor_id (actor : Actor) : option string :=
  if IsSuperAdmin actor then None else Some (ActorUserID actor).

(** ** [theme.go]: the validation of a personal theme *)
Section Theme.
Definition ThemeColorKeys : list (string * string) :=
  [("--color-bg", "bg"); ("--color-surface", "surface"); ("--color-border", "border");
   ("--color-text", "text"); ("--color-text-muted", "text_muted"); ("--color-primary", "primary");
   ("--color-primary-contrast", "primary_contrast"); ("--color-sidebar-bg", "sidebar_bg");
   ("--color-sidebar-text", "sidebar_text"); ("--color-sidebar-text-active", "sidebar_text_active");
   ("--color-sidebar-brand", "sidebar_brand"); ("--color-sidebar-hover-bg", "sidebar_hover_bg");
   ("--color-sidebar-active-bg", "sidebar_active_bg"); ("--color-form-error-bg", "form_error_bg");
   ("--color-form-success-bg", "form_success_bg")].
Definition AllowedThemeColorKey (key : string) : bool := bool_decide (key ∈ ThemeColorKeys.*1).
Definition CSSVarForThemeColorSlug (slug : string) : option string :=
  fst <$> List.find (fun k => bool_decide (k.2 = slug)) ThemeColorKeys.
Definition ValidHexColor (v : string) : bool :=
  match_shape (is_char 35 :: repeat is_hex 6) (bytes v).
Definition ThemePresets : list string :=
  ["slate-light"; "linen-light"; "arctic-light"; "sand-light";
   "carbon-dark"; "matrix-dark"; "tron-dark"; "amethyst-dark"].
Definition ValidThemePreset (p : string) : bool := existsb (fun v => bool_decide (p = v)) ThemePresets.
Definition ValidThemeStatusPalette (p : string) : bool :=
  bool_decide (p = "light") || bool_decide (p = "dark").

(** [json.Marshal] of a validated map: keys in order, nothing to escape. *)
Definition quoted (s : string) : string := chr 34 +:+ s +:+ chr 34.
Definition json_colors (m : list (string * string)) : string :=
  "{" +:+ join "," (map (fun kv => quoted kv.1 +:+ ":" +:+ quoted kv.2)
    (sort_by (fun a b => string_le a.1 b.1) m)) +:+ "}".

Fixpoint ValidateThemeCustomColors_loop (l : list (string * string)) : result unit :=
  match l with
  | [] => Ok tt
  | (k, v) :: l' =>
      if negb (AllowedThemeColorKey k) then Err (Errorf "" ErrInvalidTheme (": " +:+ k +:+ " is not a customizable color"))
      else if negb (ValidHexColor v) then Err (Errorf "" ErrInvalidTheme (": " +:+ k +:+ " must be a #RRGGBB hex color"))
      else ValidateThemeCustomColors_loop l'
  end.
Definition ValidateThemeCustomColors (raw : gmap string string) : result string :=
  match ValidateThemeCustomColors_loop (map_to_list raw) with
  | Ok _ => Ok (json_colors (map_to_list raw))
  | Err e => Err e
  end.
End Theme.

(** What is asked of [internal/auth]'s [HashPassword] and [VerifyPassword]
    (Passwords.v); the number is that of the call, on which the salt depends. *)
Class PasswordHasher := {
  HashPassword : N -> string -> result string;
  VerifyPassword : string -> string -> result bool
}.
Class PasswordHasherLaws `{PasswordHasher} : Prop := {
  verify_hash n p h : HashPassword n p = Ok h -> VerifyPassword p h = Ok true
}.

Section Service.
Context `{Env} `{PasswordHasher}.

Definition lift {A} (r : result A) : M A := match r with Ok a => mret a | Err e => throw e end.
Definition hash_password (p : string) : M string := fun w => (HashPassword (w_calls w) p, bump w).

(** ** [internal/db/users.go] *)
Definition upd_user (id : string) (f : User -> User) (w : World) : World :=
  set_w_users (alter f id (w_users w)) w.

(** [scanUser] on the row of a lookup. *)
Definition scanUser (r : option User) : M User :=
  match r with Some u => mret u | None => throw ErrUserNotFound end.
Definition FindByID (id : string) : M User :=
  r ← wrap "scan user: " (query (fun w => w_users w !! id)); scanUser r.
Definition by_local_username (username : string) (w : World) : option User :=
  snd <$> List.find (fun kv => bool_decide (LocalUsername kv.2 = Some username)) (map_to_list (w_users w)).
Definition FindByLocalUsername (username : string) : M (User * string) :=
  r ← wrap "scan user: " (query (by_local_username username));
  match r with
  | Some u => mret (u, default "" (LocalPasswordHash u))
  | None => throw ErrUserNotFound
  end.
Definition List_users : M (list User) :=
  wrap "list users: " (query (fun w =>
    sort_by (fun a b => string_le (DisplayName a) (DisplayName b)) (map snd (map_to_list (w_users w))))).

(** An [UPDATE users ... WHERE id = $n]: [ErrUserNotFound] when no row matched. *)
Definition update_user (ctx id : string) (f : User -> User) : M unit :=
  found ← wrap ctx (sql (fun w => inr (bool_decide (is_Some (w_users w !! id)), upd_user id f w)));
  guard_err found ErrUserNotFound.
Definition UpdateTier (id : string) (tier : Tier) (by_ : option string) (at_ : option Time) : M unit :=
  update_user "update user tier: " id (fun u => set_ElevatedAt at_ (set_ElevatedBy by_ (set_UTier tier u))).
Definition UpdateDisplayName_db (id displayName : string) : M unit :=
  update_user "update display name: " id (set_DisplayName displayName).
Definition UpdateLocalPassword (id hash : string) : M unit :=
  update_user "update local password: " id (set_LocalPasswordHash (Some hash)).
Definition UpdateTheme (id : string) (preset : option string) (colors : string) (palette : option string) : M unit :=
  update_user "update user theme: " id
    (fun u => set_UThemeStatusPalette palette (set_UThemeCustomColors colors (set_UThemePreset preset u))).

(** The unique columns of [users] an insert of a local account can violate. *)
Definition CreateLocal (username hash displayName : string) (tier : Tier) : M User :=
  map_err (fun e => if is_pg_code e "23505" then ErrLocalUsernameTaken else Errorf "create local user: " e "")
    (wrap "scan user: " (sql (fun w =>
      let id := gen_random_uuid (w_calls w) in
      let u := MkUser id None displayName tier (w_clock w) None None None None (Some username) None "{}" None (Some hash) in
      if bool_decide (is_Some (w_users w !! id)) || bool_decide (is_Some (by_local_username username w))
      then inl (PgError "23505")
      else inr (u, set_w_users (<[id:=u]> (w_users w)) w)))).

(** ** [service.go] *)
Definition tier_detail (fromTier toTier : Tier) : gmap string DVal :=
  <["from_tier":=DStr (Tier_string fromTier)]> {[ "to_tier" := DStr (Tier_string toTier) ]}.

(** The body after the rule check: persist, audit, revert an unaudited change. *)
Definition revert_log_tier : string := "rbac: revert tier for user %s after audit failure: %v".
Definition ElevateTier (actor : Actor) (targetUserID : string) (toTier : Tier) : M unit :=
  target ← wrap "find target user: " (FindByID targetUserID);
  guard_err (CanElevate actor (UTier target) toTier) ErrNotPermitted;;
  let fromTier := UTier target in
  let fromElevatedBy := ElevatedBy target in
  let fromElevatedAt := ElevatedAt target in
  let elevatedBy := actor_id actor in
  now ← time_now;
  wrap "update tier: " (UpdateTier targetUserID toTier elevatedBy (Some now));;
  r ← attempt (Record_ elevatedBy (IsSuperAdmin actor) "elevated_user" "user" targetUserID
                 (Some (tier_detail fromTier toTier)));
  match r with
  | Ok _ => mret tt
  | Err e =>
      log_on_error revert_log_tier (UpdateTier targetUserID fromTier fromElevatedBy fromElevatedAt);;
      throw (Errorf "record audit: " e "")
  end.

Definition ListUsers (actor : Actor) : M (list User) :=
  guard_err (CanViewUsers actor) ErrNotPermitted;;
  wrap "list users: " List_users.

Definition CreateLocalAccount (actor : Actor) (username password displayName : string) (tier : Tier) : M User :=
  guard_err (CanCreateLocalAccount actor) ErrNotPermitted;;
  hash ← wrap "hash password: " (hash_password password);
  user ← map_err (fun e => if errors_Is e "db.ErrLocalUsernameTaken" then ErrLocalUsernameTaken
                           else Errorf "create local account: " e "")
           (CreateLocal username hash displayName tier);
  wrap "record audit: "
    (Record_ (actor_id actor) (IsSuperAdmin actor) "created_local_account" "user" (UserID user)
      (Some (<["local_username":=DStr username]> {[ "tier" := DStr (Tier_string tier) ]})));;
  mret user.

Definition ResetLocalAccountPassword (actor : Actor) (targetUserID newPassword : string) : M unit :=
  guard_err (CanResetLocalAccountPassword actor) ErrNotPermitted;;
  target ← wrap "find target user: " (FindByID targetUserID);
  guard_err (bool_decide (is_Some (LocalUsername target))) ErrNotLocalAccount;;
  hash ← wrap "hash password: " (hash_password newPassword);
  wrap "update local password: " (UpdateLocalPassword targetUserID hash);;
  wrap "record audit: "
    (Record_ (actor_id actor) (IsSuperAdmin actor) "reset_local_account_password" "user" targetUserID None).

Definition UpdateDisplayName (actor : Actor) (displayName : string) : M unit :=
  target ← wrap "find actor user: " (FindByID (ActorUserID actor));
  guard_err (bool_decide (is_Some (LocalUsername target))) ErrNotLocalAccount;;
  wrap "update display name: " (UpdateDisplayName_db (ActorUserID actor) displayName);;
  wrap "record audit: "
    (Record_ (Some (ActorUserID actor)) false "updated_display_name" "user" (ActorUserID actor) None).

Definition ChangeOwnPassword (actor : Actor) (currentPassword newPassword : string) : M unit :=
  target ← wrap "find actor user: " (FindByID (ActorUserID actor));
  match LocalUsername target with
  | None => throw ErrNotLocalAccount
  | Some username =>
      uh ← wrap "find actor local credentials: " (FindByLocalUsername username);
      ok ← wrap "verify current password: " (lift (VerifyPassword currentPassword uh.2));
      guard_err ok ErrWrongPassword;;
      newHash ← wrap "hash new password: " (hash_password newPassword);
      wrap "update local password: " (UpdateLocalPassword (ActorUserID actor) newHash);;
      wrap "record audit: "
        (Record_ (Some (ActorUserID actor)) false "changed_own_password" "user" (ActorUserID actor) None)
  end.

Definition revert_log_theme : string := "rbac: revert theme for user %s after audit failure: %v".
Definition theme_detail (n : Z) (preset palette : option string) : gmap string DVal :=
  let d0 : gmap string DVal := {[ "custom_color_count" := DInt n ]} in
  let d1 := match preset with Some p => <["preset":=DStr p]> d0 | None => d0 end in
  match palette with Some p => <["status_palette":=DStr p]> d1 | None => d1 end.
Definition UpdateOwnTheme (actor : Actor) (preset : option string)
    (customColors : gmap string string) (statusPalette : option string) : M unit :=
  guard_err (negb (IsSuperAdmin actor)) ErrNotPermitted;;
  guard_err (match preset with Some p => ValidThemePreset p | None => true end)
    (Errorf "" ErrInvalidTheme ": unknown preset");;
  guard_err (match statusPalette with Some p => ValidThemeStatusPalette p | None => true end)
    (Errorf "" ErrInvalidTheme ": unknown status palette");;
  colorsJSON ← lift (ValidateThemeCustomColors customColors);
  target ← wrap "find actor user: " (FindByID (ActorUserID actor));
  wrap "update theme: " (UpdateTheme (ActorUserID actor) preset colorsJSON statusPalette);;
  r ← attempt (Record_ (Some (ActorUserID actor)) false "updated_own_theme" "user" (ActorUserID actor)
                 (Some (theme_detail (Z.of_nat (size customColors)) preset statusPalette)));
  match r with
  | Ok _ => mret tt
  | Err e =>
      log_on_error revert_log_theme
        (UpdateTheme (ActorUserID actor) (UThemePreset target) (UThemeCustomColors target) (UThemeStatusPalette target));;
      throw (Errorf "record audit: " e "")
  end.
End Service.

(** ** The rules *)

Lemma rangeIndex_spec t : rangeIndex t = if bool_decide (t = TierAdmin) then -1 else tier_rank t.
Proof. by destruct t. Qed.

(** The capabilities decided by tier alone, with the lowest tier each admits. *)
Definition tier_floors : list ((Actor -> bool) * Tier) :=
  [(CanManageNodes, TierAdmin); (CanImportModels, TierAdmin); (CanEditNodeComment, TierPowerDev);
   (CanViewAuditLog, TierAdmin); (CanViewUsers, TierAdmin); (CanManageStaleContainers, TierAdmin);
   (CanManageEmail, TierAdmin); (CanViewSettings, TierAdmin); (CanCreateLocalAccount, TierAdmin);
   (CanResetLocalAccountPassword, TierAdmin); (CanSetUserEmail, TierAdmin);
   (CanManageProfiles, TierPowerDev); (CanViewInstanceLogs, TierDeveloper);
   (CanLaunchInstances, TierDeveloper); (CanResolveAnyAlert, TierAdmin);
   (CanManageGroups, TierPowerDev); (CanManageGroupLocalMembers, TierAdmin)].

Lemma user_eta_tier u :
  set_ElevatedAt (ElevatedAt u) (set_ElevatedBy (ElevatedBy u) (set_UTier (UTier u) u)) = u.
Proof. by destruct u. Qed.
Lemma user_eta_theme u :
  set_UThemeStatusPalette (UThemeStatusPalette u)
    (set_UThemeCustomColors (UThemeCustomColors u) (set_UThemePreset (UThemePreset u) u)) = u.
Proof. by destruct u. Qed.

(** ** The users table *)
Section Users.
Context `{Env} `{PasswordHasher}.

Lemma w_users_upd id f w : w_users (upd_user id f w) = alter f id (w_users w).
Proof. done. Qed.

Lemma upd_user_missing id f w : w_users w !! id = None -> upd_user id f w = w.
Proof.
  intros Hn. unfold upd_user. replace (alter f id (w_users w)) with (w_users w); [by destruct w|].
  apply map_eq. intros i. rewrite lookup_alter. case_decide; subst; [by rewrite Hn|done].
Qed.

Lemma wp_FindByID id w (Q : result User -> World -> Prop) :
  (forall e, Q (Err e) (bump w)) ->
  (forall u, w_users w !! id = Some u -> Q (Ok u) (bump w)) -> wp (FindByID id) w Q.
Proof.
  intros He Hu. unfold FindByID, scanUser. io_auto; eauto.
Qed.

Lemma wp_update_user ctx id f w (Q : result unit -> World -> Prop) :
  (forall e, Q (Err e) (bump w)) ->
  (forall u, w_users w !! id = Some u -> Q (Ok tt) (upd_user id f (bump w))) ->
  wp (update_user ctx id f) w Q.
Proof.
  intros He Hu. unfold update_user. apply wp_bind, wp_wrap, wp_sql; intros; [apply He|].
  apply wp_guard; intros Hb; propb.
  - destruct Hb as [u Hb]. by eapply Hu.
  - rewrite upd_user_missing; [apply He|]. by apply eq_None_not_Some.
Qed.

Lemma wp_FindByLocalUsername n w (Q : result (User * string) -> World -> Prop) :
  (forall e, Q (Err e) (bump w)) ->
  (forall u, by_local_username n w = Some u -> Q (Ok (u, default "" (LocalPasswordHash u))) (bump w)) ->
  wp (FindByLocalUsername n) w Q.
Proof. intros He Hu. unfold FindByLocalUsername. io_auto; eauto. Qed.

Lemma by_local_username_Some n w u :
  by_local_username n w = Some u -> exists id, w_users w !! id = Some u /\ LocalUsername u = Some n.
Proof.
  unfold by_local_username. rewrite fmap_Some. intros ([id u'] & Hf & ->). simpl.
  apply List.find_some in Hf as [Hin Hb]. exists id. split.
  - apply elem_of_map_to_list, list_elem_of_In. done.
  - by apply bool_decide_eq_true in Hb.
Qed.
End Users.

Ltac rbac_step :=
  lazymatch goal with
  | |- wp (FindByID _) _ _ => apply wp_FindByID; [intros ?|intros ? ?]
  | |- wp (FindByLocalUsername _) _ _ => apply wp_FindByLocalUsername; [intros ?|intros ? ?]
  | |- wp (UpdateTier _ _ _ _) _ _ => apply wp_update_user; [intros ?|intros ? _]
  | |- wp (UpdateTheme _ _ _ _) _ _ => apply wp_update_user; [intros ?|intros ? _]
  | |- wp (UpdateLocalPassword _ _) _ _ => apply wp_update_user; [intros ?|intros ? _]
  | |- wp (UpdateDisplayName_db _ _) _ _ => apply wp_update_user; [intros ?|intros ? _]
  | |- wp (hash_password _) _ _ => eapply wp_run; [reflexivity|]
  | |- wp (lift ?r) _ _ => let E := fresh "Hlift" in destruct r eqn:E; simpl lift
  | |- match HashPassword ?n ?p with _ => _ end => let E := fresh "Hhash" in destruct (HashPassword n p) eqn:E
  | |- _ => io_step
  end.
Ltac rbac_auto := repeat (cbv beta zeta; rbac_step).

(** ** Invariants the lookups leave alone *)
Section Lookups.
Context `{Env}.
#[global] Instance keeps_lift {A} (I : World -> Prop) (r : result A) : Keeps I (lift r).
Proof. unfold lift. apply _. Qed.
#[global] Instance keeps_FindByID (I : World -> Prop) id `{!Stable I} : Keeps I (FindByID id).
Proof. unfold FindByID, scanUser. apply _. Qed.
#[global] Instance keeps_List_users (I : World -> Prop) `{!Stable I} : Keeps I List_users.
Proof. unfold List_users. apply _. Qed.
End Lookups.

(** ** Properties *)
Section Properties.
Context `{Env} `{PasswordHasher}.

(** Who may elevate whom: the SuperAdmin anyone; an Admin one step up or down
    among the three lower tiers; nobody else. *)
Lemma CanElevate_iff actor f t :
  CanElevate actor f t = true <->
  IsSuperAdmin actor = true \/
  (ActorTier actor = TierAdmin /\ f <> TierAdmin /\ t <> TierAdmin /\ Z.abs (tier_rank f - tier_rank t) = 1).
Proof.
  destruct actor as [[] i ta]; simpl; [by intuition|].
  unfold CanElevate; simpl. destruct ta, f, t; simpl; intuition (try done; try congruence).
Qed.

(** What an elevation that reached the database did to the row. *)
Definition elevated (actor : Actor) (toTier : Tier) (now : Time) (u : User) : User :=
  set_ElevatedAt (Some now) (set_ElevatedBy (actor_id actor) (set_UTier toTier u)).

Lemma alter_elevated_back actor to now u id (m : gmap string User) :
  m !! id = Some u ->
  alter (fun x => set_ElevatedAt (ElevatedAt u) (set_ElevatedBy (ElevatedBy u) (set_UTier (UTier u) x))) id
    (alter (elevated actor to now) id m) = m.
Proof.
  intros Hu. apply map_eq. intros i. destruct (decide (id = i)) as [->|Hn].
  - rewrite !lookup_alter_eq, Hu. simpl. by destruct u.
  - by rewrite !lookup_alter_ne.
Qed.

(** C1: an elevation that succeeds changed exactly the target's row, was
    permitted for the tier the row really had, and left exactly one audit
    record naming both tiers and the actor; one that fails left no record
    and, unless the log says a revert failed, every user as it was. *)
Theorem ElevateTier_spec actor id to w :
  wp (ElevateTier actor id to) w (fun r w' =>
    match r with
    | Ok _ => exists u now t,
        w_users w !! id = Some u /\ CanElevate actor (UTier u) to = true /\
        w_users w' = alter (elevated actor to now) id (w_users w) /\
        w_audit w' = w_audit w ++ [MkAudit (actor_id actor) (IsSuperAdmin actor) "elevated_user" "user" id
                                     (Some (tier_detail (UTier u) to)) t]
    | Err _ => w_audit w' = w_audit w /\
        (w_users w' = w_users w \/ w_logs w' = w_logs w ++ [revert_log_tier])
    end).
Proof.
  unfold ElevateTier. rbac_auto; try (split; [done|by left]); try (split; [done|by right]).
  - split; [done|left]. by apply alter_elevated_back.
  - do 3 eexists. repeat split; eassumption || reflexivity.
Qed.

(** Runs of elevations by anyone but the SuperAdmin. *)
Definition is_admin (w : World) (id : string) : Prop :=
  exists u, w_users w !! id = Some u /\ UTier u = TierAdmin.
Inductive elevation_step : World -> World -> Prop :=
| elevation_step_intro actor id to w :
    IsSuperAdmin actor = false -> elevation_step w (snd (ElevateTier actor id to w)).

Lemma is_admin_alter_tier f id w w' u uid :
  w_users w !! id = Some u -> UTier u <> TierAdmin ->
  (forall x, UTier (f x) <> TierAdmin) ->
  w_users w' = alter f id (w_users w) -> is_admin w' uid <-> is_admin w uid.
Proof.
  intros Hu Hn Hf Hw'. unfold is_admin. rewrite Hw'. setoid_rewrite lookup_alter.
  case_decide; [|done]; subst. rewrite Hu. simpl. split.
  - intros (x & [= <-] & Hx). by destruct (Hf u).
  - by intros (x & [= <-] & Hx).
Qed.

Lemma ElevateTier_users actor id to w :
  wp (ElevateTier actor id to) w (fun _ w' =>
    w_users w' = w_users w \/
    exists u now, w_users w !! id = Some u /\ CanElevate actor (UTier u) to = true /\
      w_users w' = alter (elevated actor to now) id (w_users w)).
Proof.
  unfold ElevateTier. rbac_auto; try by left.
  - right. do 2 eexists. repeat split; eassumption || reflexivity.
  - left. by apply alter_elevated_back.
  - right. do 2 eexists. repeat split; eassumption || reflexivity.
Qed.

(** Whatever Admins (and everyone below) do with elevations, in any
    order, with any failures of the database in between, nobody becomes an
    Admin and no Admin stops being one: only the SuperAdmin can do that. *)
Theorem elevation_never_touches_admin w w' uid :
  rtc elevation_step w w' -> is_admin w uid <-> is_admin w' uid.
Proof.
  induction 1 as [w|w w1 w2 Hstep _ IH]; [done|]. rewrite <-IH. clear IH.
  destruct Hstep as [actor id to w Hsa].
  destruct (ElevateTier_users actor id to w) as [Heq|(u & now & Hu & Hc & Heq)].
  - unfold is_admin. by rewrite Heq.
  - apply CanElevate_iff in Hc as [Hc|(_ & Hf & Ht & _)]; [congruence|].
    symmetry. by eapply (is_admin_alter_tier (elevated actor to now)).
Qed.

(** A password change that succeeds knew the current password and leaves
    a hash the new password verifies against; one that fails before the
    update leaves every user as it was. *)
Theorem ChangeOwnPassword_spec `{!PasswordHasherLaws} actor cur new w :
  wp (ChangeOwnPassword actor cur new) w (fun r w' =>
    match r with
    | Ok _ => exists u v h, w_users w !! ActorUserID actor = Some u /\
        VerifyPassword cur (default "" (LocalPasswordHash v)) = Ok true /\
        LocalUsername u <> None /\ LocalUsername v = LocalUsername u /\
        w_users w' = alter (set_LocalPasswordHash (Some h)) (ActorUserID actor) (w_users w) /\
        VerifyPassword new h = Ok true
    | Err e => w_users w' = w_users w \/
        exists i, e = Errorf "record audit: " i ""
    end).
Proof.
  unfold ChangeOwnPassword. rbac_auto; try (by left); try (right; by eexists); simpl in *.
  match goal with Hn : by_local_username _ _ = Some _ |- _ =>
    apply by_local_username_Some in Hn; destruct Hn as (? & _ & ?) end.
  subst. do 3 eexists. split_and!; try eassumption || reflexivity.
  - congruence.
  - congruence.
  - by eapply verify_hash.
Qed.

Lemma alter_theme_back p c sp u id (m : gmap string User) :
  m !! id = Some u ->
  alter (fun x => set_UThemeStatusPalette (UThemeStatusPalette u)
           (set_UThemeCustomColors (UThemeCustomColors u) (set_UThemePreset (UThemePreset u) x))) id
    (alter (fun x => set_UThemeStatusPalette sp (set_UThemeCustomColors c (set_UThemePreset p x))) id m) = m.
Proof.
  intros Hu. apply map_eq. intros i. destruct (decide (id = i)) as [->|Hn].
  - rewrite !lookup_alter_eq, Hu. simpl. by destruct u.
  - by rewrite !lookup_alter_ne.
Qed.

Lemma ValidateThemeCustomColors_loop_ok l :
  ValidateThemeCustomColors_loop l = Ok tt ->
  Forall (fun kv => AllowedThemeColorKey kv.1 = true /\ ValidHexColor kv.2 = true) l.
Proof.
  induction l as [|[k v] l IH]; simpl; [constructor|].
  destruct (AllowedThemeColorKey k) eqn:Hk; simpl; [|done].
  destruct (ValidHexColor v) eqn:Hv; simpl; [|done]. intros. constructor; auto.
Qed.

Lemma ValidateThemeCustomColors_ok raw s :
  ValidateThemeCustomColors raw = Ok s ->
  s = json_colors (map_to_list raw) /\
  forall k v, raw !! k = Some v -> AllowedThemeColorKey k = true /\ ValidHexColor v = true.
Proof.
  unfold ValidateThemeCustomColors.
  destruct (ValidateThemeCustomColors_loop (map_to_list raw)) as [[]|] eqn:E; [|done].
  intros [= <-]. split; [done|]. intros k v Hkv.
  apply ValidateThemeCustomColors_loop_ok in E. rewrite Forall_forall in E.
  apply (E (k, v)). by apply elem_of_map_to_list.
Qed.

(** A theme that is saved names a known preset and palette, only
    whitelisted CSS variables and only #RRGGBB values, belongs to a users row
    and is audited once; a refused or unaudited one leaves every user as it
    was, unless the log says the revert failed. *)
Theorem UpdateOwnTheme_spec actor preset colors palette w :
  wp (UpdateOwnTheme actor preset colors palette) w (fun r w' =>
    match r with
    | Ok _ => exists u json,
        IsSuperAdmin actor = false /\ w_users w !! ActorUserID actor = Some u /\
        (forall p, preset = Some p -> p ∈ ThemePresets) /\
        (forall k v, colors !! k = Some v -> k ∈ ThemeColorKeys.*1 /\ ValidHexColor v = true) /\
        w_users w' = alter (fun x => set_UThemeStatusPalette palette
          (set_UThemeCustomColors json (set_UThemePreset preset x))) (ActorUserID actor) (w_users w) /\
        audited "updated_own_theme" w w'
    | Err _ => w_audit w' = w_audit w /\
        (w_users w' = w_users w \/ w_logs w' = w_logs w ++ [revert_log_theme])
    end).
Proof.
  unfold UpdateOwnTheme. rbac_auto; try (split; [done|by left]); try (split; [done|by right]).
  - split; [done|left]. by apply alter_theme_back.
  - propb. do 2 eexists. split_and!; try eassumption || reflexivity.
    + intros p ->. unfold ValidThemePreset in *.
      match goal with Hq : existsb _ _ = true |- _ =>
        apply List.existsb_exists in Hq; destruct Hq as (x & Hx & Heq) end.
      apply bool_decide_eq_true in Heq as ->. by apply list_elem_of_In.
    + match goal with Hl : ValidateThemeCustomColors _ = _ |- _ =>
        apply ValidateThemeCustomColors_ok in Hl; destruct Hl as [_ Hall] end.
      intros k v Hkv. destruct (Hall k v Hkv) as [Hk Hv]. split; [|done].
      by apply bool_decide_eq_true in Hk.
    + by eexists.
Qed.

(** Every capability that is decided by tier admits the SuperAdmin and
    exactly the tiers from its floor up; in particular no capability is lost
    by being promoted. *)
Theorem capability_floors actor :
  Forall (fun '(cap, floor) =>
    cap actor = (IsSuperAdmin actor || (tier_rank floor <=? tier_rank (ActorTier actor)))) tier_floors.
Proof.
  destruct actor as [[] i t]; unfold tier_floors; repeat constructor; by destruct t.
Qed.

(** The account a permitted creation inserts. *)
Lemma CreateLocalAccount_ok actor n p d t w :
  wp (CreateLocalAccount actor n p d t) w (fun r w' =>
    match r with
    | Ok u => CanCreateLocalAccount actor = true /\ UTier u = t /\ LocalUsername u = Some n /\
        w_users w !! UserID u = None /\ w_users w' = <[UserID u := u]> (w_users w) /\
        audited "created_local_account" w w'
    | Err _ => True
    end).
Proof.
  unfold CreateLocalAccount, CreateLocal. rbac_auto; try done.
  match goal with Hb : (_ || _) = false |- _ => apply orb_false_iff in Hb as [Hb _] end.
  propb. split_and!; try done; [by apply eq_None_not_Some|by eexists].
Qed.
End Properties.

(** ** Witnesses *)
Definition user_row (id : string) (t : Tier) : User :=
  MkUser id None id t 0 None None None None (Some id) None "{}" None (Some "old").
Definition rbac_world : World :=
  set_w_users (<["dev":=user_row "dev" TierDeveloper]> {[ "boss" := user_row "boss" TierAdmin ]}) empty_world.
Definition boss : Actor := MkActor false "boss" TierAdmin.

Lemma elevation_never_touches_admin_witness :
  let w' := snd (@ElevateTier quiet_env boss "dev" TierPowerDev rbac_world) in
  (UTier <$> w_users w' !! "dev") = Some TierPowerDev /\
  (is_admin rbac_world "dev" <-> is_admin w' "dev").
Proof.
  split; [vm_compute; reflexivity|].
  apply (@elevation_never_touches_admin quiet_env rbac_world), rtc_once.
  exact (@elevation_step_intro quiet_env boss "dev" TierPowerDev rbac_world eq_refl).
Defined.

Definition plain_hasher : PasswordHasher := {|
  HashPassword := fun _ p => Ok p;
  VerifyPassword := fun p h => Ok (bool_decide (p = h))
|}.
Lemma plain_hasher_laws : @PasswordHasherLaws plain_hasher.
Proof. constructor. intros n p h [= <-]. simpl. by rewrite bool_decide_true. Qed.

Lemma ChangeOwnPassword_spec_witness :
  let m := @ChangeOwnPassword quiet_env plain_hasher (MkActor false "dev" TierDeveloper) "old" "new" in
  fst (m rbac_world) = Ok tt /\
  exists u v h, w_users rbac_world !! "dev" = Some u /\
    @VerifyPassword plain_hasher "old" (default "" (LocalPasswordHash v)) = Ok true /\
    LocalUsername u <> None /\ LocalUsername v = LocalUsername u /\
    w_users (snd (m rbac_world)) = alter (set_LocalPasswordHash (Some h)) "dev" (w_users rbac_world) /\
    @VerifyPassword plain_hasher "new" h = Ok true.
Proof.
  cbv zeta. split; [vm_compute; reflexivity|].
  pose proof (@ChangeOwnPassword_spec quiet_env plain_hasher plain_hasher_laws
    (MkActor false "dev" TierDeveloper) "old" "new" rbac_world) as Hs.
  unfold wp in Hs.
  assert (Hok : fst (@ChangeOwnPassword quiet_env plain_hasher (MkActor false "dev" TierDeveloper) "old" "new" rbac_world)
                = Ok tt) by (vm_compute; reflexivity).
  rewrite Hok in Hs. exact Hs.
Defined.

(** An Admin cannot promote anyone to Admin, but can create an account that is
    one: [CreateLocalAccount] checks who creates, not the tier created. *)
Example admin_creates_admin :
  let '(r, w') := @CreateLocalAccount quiet_env plain_hasher boss "eve" "pw" "Eve" TierAdmin rbac_world in
  match r with Ok u => UTier u = TierAdmin /\ w_users w' !! UserID u = Some u | Err _ => False end.
Proof. vm_compute. split; reflexivity. Qed.
