(* ===== verification/Passwords.v ===== *)
(** * The stored form of a password ([internal/auth/breakglass.go])

    [HashPassword] writes the parameters, the salt and the key of argon2 as one
    text; [VerifyPassword] reads it back with [fmt.Sscanf] and derives the key
    again.  argon2 itself is a library, the parameter [Argon2]; what the
    services of Rbac.v, Login.v and LoginMain.v ask of a hasher is proved of
    this one. *)
From stdpp Require Import base list sets strings.
From Stdlib Require Import ZArith Lia.
From Stdlib Require Import Ascii.
From Stdlib Require String.
From S2P Require Import Prelude Text Runes Db NodeToken Calendar JsonText JsonFacts Session Rbac.
Local Open Scope string_scope.
Local Open Scope list_scope.
Local Open Scope Z_scope.

#[local] Notation "'let?' x := a 'in' b" := (match a with Some x => b | None => None end) (at level 200, x name, a at level 100, b at level 200).
Definition argon2Time : Z := 3.
Definition argon2Memory : Z := 64 * 1024.
Definition argon2Threads : Z := 4.
Definition argon2KeyLen : Z := 32.
Definition argon2SaltLen : nat := 16.
Definition ErrMalformedHash : error := Sentinel "auth.ErrMalformedHash" "malformed password hash".

(** [golang.org/x/crypto/argon2]: its version, and its key of a password and a
    salt under a number of rounds, a memory, a number of threads and a length;
    [None] when it panics, which it does without a round or a thread. *)
Class Argon2 := {
  argon2_Version : Z;
  IDKey : list Z -> list Z -> Z -> Z -> Z -> Z -> option (list Z)
}.
Class Argon2Laws `{Argon2} : Prop := {
  version_octet : octet argon2_Version;
  IDKey_length p salt t m n len : 1 <= t -> 1 <= n -> 0 <= len ->
    exists key, IDKey p salt t m n len = Some key /\ Z.of_nat (length key) = len /\ Forall octet key
}.
Class RandomLaws `{RandomSource} : Prop := {
  random_octets n k : Forall octet (random_bytes n k)
}.

(** ** [base64.RawStdEncoding]: the alphabet of the URL encoding but for its
    last two characters. *)
Definition std_char (c : ascii) : ascii := if is_char 45 c then byte_of 43 else if is_char 95 c then byte_of 47 else c.
Definition url_char (c : ascii) : ascii := if is_char 43 c then byte_of 45 else if is_char 47 c then byte_of 95 else c.
Definition std_encode (bs : list Z) : list ascii := map std_char (base64_raw bs).
Definition std_decode (l : list ascii) : option (list Z) :=
  if existsb (fun c => is_char 45 c || is_char 95 c) l then None else base64_decode (map url_char l).

(** ** [fmt.Sscanf], of formats of literal text and numbers in decimal: what
    follows the last number is not looked at. *)
Fixpoint scan_space (l : list Z) : option (list Z) :=
  match l with
  | r :: l' => if r =? 10 then None else if is_space r then scan_space l' else Some l
  | [] => Some l
  end.
Definition digit_rune (r : Z) : bool := (48 <=? r) && (r <=? 57).
Fixpoint scan_digits (acc : Z) (l : list Z) : Z * list Z :=
  match l with
  | r :: l' => if digit_rune r then scan_digits (acc * 10 + (r - 48)) l' else (acc, l)
  | [] => (acc, l)
  end.
Definition scan_number (l : list Z) : option (Z * list Z) :=
  match l with
  | r :: _ => if digit_rune r then Some (scan_digits 0 l) else None
  | [] => None
  end.
Definition scan_uint (bits : Z) (l : list Z) : option (Z * list Z) :=
  let? l1 := scan_space l in
  let? v := scan_number l1 in
  if v.1 <? 2 ^ bits then Some v else None.
Definition scan_int (l : list Z) : option (Z * list Z) :=
  let? l1 := scan_space l in
  match l1 with
  | r :: l2 =>
      let? v := scan_number (if (r =? 43) || (r =? 45) then l2 else l1) in
      let n := if r =? 45 then - v.1 else v.1 in
      if (- 2 ^ 63 <=? n) && (n <? 2 ^ 63) then Some (n, v.2) else None
  | [] => None
  end.
Fixpoint scan_text (t : list ascii) (l : list Z) : option (list Z) :=
  match t, l with
  | c :: t', r :: l' => if r =? code c then scan_text t' l' else None
  | [], _ => Some l
  | _ :: _, [] => None
  end.
Definition scan_version (s : string) : option Z :=
  let? l := scan_text (bytes "v=") (runes s) in
  let? v := scan_int l in Some v.1.
Definition scan_parameters (s : string) : option (Z * Z * Z) :=
  let? l := scan_text (bytes "m=") (runes s) in
  let? m := scan_uint 32 l in
  let? l := scan_text (bytes ",t=") m.2 in
  let? t := scan_uint 32 l in
  let? l := scan_text (bytes ",p=") t.2 in
  let? p := scan_uint 8 l in Some (m.1, t.1, p.1).

Section Passwords.
Context `{Argon2} `{RandomSource}.

(** The text of a hash. *)
Definition encoded (salt hash : list Z) : string :=
  "$argon2id$v=" +:+ itoa argon2_Version +:+ "$m=" +:+ itoa argon2Memory +:+ ",t=" +:+ itoa argon2Time +:+ ",p=" +:+ itoa argon2Threads
  +:+ "$" +:+ of_bytes (std_encode salt) +:+ "$" +:+ of_bytes (std_encode hash).
Definition panic : error := Opaque "panic: argon2".
Definition HashPassword (n : N) (password : string) : result string :=
  let salt := random_bytes n argon2SaltLen in
  match IDKey (byte_codes password) salt argon2Time argon2Memory argon2Threads argon2KeyLen with
  | Some hash => Ok (encoded salt hash)
  | None => Err panic
  end.
Definition VerifyPassword (password encodedHash : string) : result bool :=
  match split_text 36 encodedHash with
  | [p0; p1; p2; p3; p4; p5] =>
      if negb (bool_decide (p0 = "")) || negb (bool_decide (p1 = "argon2id")) then Err ErrMalformedHash
      else match scan_version p2 with
      | None => Err ErrMalformedHash
      | Some version =>
      if negb (version =? argon2_Version) then Err ErrMalformedHash
      else match scan_parameters p3 with
      | None => Err ErrMalformedHash
      | Some (memory, timeCost, threads) =>
      match std_decode (bytes p4), std_decode (bytes p5) with
      | Some salt, Some wantHash =>
          match IDKey (byte_codes password) salt timeCost memory threads (Z.of_nat (length wantHash)) with
          | Some gotHash => Ok (bool_decide (gotHash = wantHash))
          | None => Err panic
          end
      | _, _ => Err ErrMalformedHash
      end end end
  | _ => Err ErrMalformedHash
  end.
End Passwords.

(** ** The round trip *)
Lemma std_char_url v : 0 <= v < 64 ->
  url_char (std_char (base64_char v)) = base64_char v /\
  forallb (fun k => negb (is_char k (std_char (base64_char v)))) [36; 45; 95] = true.
Proof.
  intros Hv. assert (Hall : forallb (fun v => bool_decide (url_char (std_char (base64_char v)) = base64_char v)
    && forallb (fun k => negb (is_char k (std_char (base64_char v)))) [36; 45; 95]) (map Z.of_nat (seq 0 64)) = true) by (vm_compute; reflexivity).
  rewrite forallb_forall in Hall. specialize (Hall v). apply andb_true_iff in Hall as [H1%bool_decide_eq_true H2]; [done|].
  apply in_map_iff. exists (Z.to_nat v). rewrite in_seq. lia.
Qed.
(** Every character of the encoding is one of the alphabet. *)
Lemma base64_raw_chars n : forall bs, (length bs <= n)%nat -> Forall octet bs -> Forall (fun c => exists v, 0 <= v < 64 /\ c = base64_char v) (base64_raw bs).
Proof.
  induction n as [|n IH]; intros bs Hn Hbs; [by destruct bs; [constructor|cbn in Hn; lia]|].
  destruct bs as [|a [|b [|c bs]]]; cbn [base64_raw]; [constructor|..]; unfold octet in *;
    repeat match goal with H : Forall _ (_ :: _) |- _ => apply Forall_cons in H as [? ?] end;
    repeat (constructor; [eexists; split; [|reflexivity]; zdiv|]); [constructor..|].
  apply IH; [cbn in Hn; lia|done].
Qed.
Lemma std_chars bs : Forall octet bs ->
  map url_char (std_encode bs) = base64_raw bs /\ forall k, k ∈ [36; 45; 95] -> existsb (is_char k) (std_encode bs) = false.
Proof.
  intros Hbs. pose proof (base64_raw_chars (length bs) bs (Nat.le_refl _) Hbs) as Hc. unfold std_encode. rewrite map_map.
  induction Hc as [|c l (v & Hv & ->) _ [IH1 IH2]]; [done|]. destruct (std_char_url v Hv) as [H1 H2]. split; [cbn [map]; by rewrite H1, IH1|].
  intros k Hk. cbn [map existsb]. rewrite (IH2 k Hk), orb_false_r. rewrite forallb_forall in H2. apply negb_true_iff, H2. by apply list_elem_of_In.
Qed.
Lemma existsb_or {A} (f g : A -> bool) l : existsb (fun x => f x || g x) l = existsb f l || existsb g l.
Proof. induction l as [|x l IH]; [done|]. cbn [existsb]. rewrite IH. by destruct (f x), (g x), (existsb f l). Qed.
Lemma std_roundtrip bs : Forall octet bs -> std_decode (std_encode bs) = Some bs.
Proof.
  intros Hbs. destruct (std_chars bs Hbs) as [H1 H2]. unfold std_decode. rewrite existsb_or, (H2 45), (H2 95) by set_solver. cbn [orb].
  rewrite H1. by apply base64_roundtrip.
Qed.

Section RoundTrip.
Context `{Argon2} `{!Argon2Laws} `{RandomSource} `{!RandomLaws}.
Lemma version_scanned : scan_version ("v=" +:+ itoa argon2_Version) = Some argon2_Version.
Proof.
  pose proof version_octet as Hv. unfold octet in Hv. generalize dependent argon2_Version. intros v Hv.
  assert (Hall : forallb (fun v => bool_decide (scan_version ("v=" +:+ itoa v) = Some v)) (map Z.of_nat (seq 0 256)) = true) by (vm_compute; reflexivity).
  rewrite forallb_forall in Hall. apply (bool_decide_eq_true_1 _), Hall, in_map_iff. exists (Z.to_nat v). rewrite in_seq. lia.
Qed.
Lemma version_plain : existsb (is_char 36) (bytes (itoa argon2_Version)) = false.
Proof.
  pose proof version_octet as Hv. unfold octet in Hv. generalize dependent argon2_Version. intros v Hv.
  assert (Hall : forallb (fun v => negb (existsb (is_char 36) (bytes (itoa v)))) (map Z.of_nat (seq 0 256)) = true) by (vm_compute; reflexivity).
  rewrite forallb_forall in Hall. apply negb_true_iff, Hall, in_map_iff. exists (Z.to_nat v). rewrite in_seq. lia.
Qed.
Definition parameters_text : string := "m=65536,t=3,p=4".
Lemma encoded_parts salt hash : encoded salt hash =
  join "$" [""; "argon2id"; "v=" +:+ itoa argon2_Version; parameters_text; of_bytes (std_encode salt); of_bytes (std_encode hash)].
Proof. apply text_eq. unfold encoded, parameters_text. cbn [join]. rewrite !bytes_app. by rewrite <-!(assoc_L (++)). Qed.
Lemma split_dollars l : l <> [] -> Forall (free_of (byte_of 36)) l -> split_text 36 (join "$" l) = l.
Proof. intros Hl Hf. pose proof (split_text_join (byte_of 36) l Hl Hf) as E. vm_compute (one_char _) in E. vm_compute (code _) in E. exact E. Qed.
Lemma split_encoded salt hash : Forall octet salt -> Forall octet hash -> split_text 36 (encoded salt hash) =
  [""; "argon2id"; "v=" +:+ itoa argon2_Version; parameters_text; of_bytes (std_encode salt); of_bytes (std_encode hash)].
Proof.
  intros Hs Hh. rewrite encoded_parts. apply split_dollars; [done|].
  assert (Hstd : forall bs, Forall octet bs -> free_of (byte_of 36) (of_bytes (std_encode bs))).
  { intros bs Hbs. unfold free_of. rewrite bytes_of_bytes. apply std_chars; [done|set_solver]. }
  assert (Hver : free_of (byte_of 36) ("v=" +:+ itoa argon2_Version)).
  { unfold free_of. rewrite bytes_app, existsb_app. change (code (byte_of 36)) with 36. by rewrite version_plain. }
  apply Forall_cons. split; [vm_compute; reflexivity|]. apply Forall_cons. split; [vm_compute; reflexivity|].
  apply Forall_cons. split; [exact Hver|]. apply Forall_cons. split; [vm_compute; reflexivity|].
  apply Forall_cons. split; [by apply Hstd|]. apply Forall_cons. split; [by apply Hstd|]. apply Forall_nil_2.
Qed.
(** A password is checked against a hash by deriving the key again with the
    salt in it: it verifies exactly when argon2 gives the same key, so always
    when it is the password that was hashed. *)
Lemma Verify_of_Hash n p p' h : HashPassword n p = Ok h ->
  exists key key', IDKey (byte_codes p) (random_bytes n argon2SaltLen) argon2Time argon2Memory argon2Threads argon2KeyLen = Some key /\
    IDKey (byte_codes p') (random_bytes n argon2SaltLen) argon2Time argon2Memory argon2Threads argon2KeyLen = Some key' /\
    VerifyPassword p' h = Ok (bool_decide (key' = key)).
Proof.
  unfold HashPassword. set (salt := random_bytes n argon2SaltLen).
  destruct (IDKey_length (byte_codes p) salt argon2Time argon2Memory argon2Threads argon2KeyLen) as (key & Hk & Hl & Ho); [done..|].
  destruct (IDKey_length (byte_codes p') salt argon2Time argon2Memory argon2Threads argon2KeyLen) as (key' & Hk' & _ & _); [done..|].
  rewrite Hk. intros [= <-]. exists key, key'. split; [done|]. split; [done|]. pose proof (random_octets n argon2SaltLen) as Hs. fold salt in Hs.
  unfold VerifyPassword. rewrite split_encoded by done. cbn [negb orb]. rewrite !bool_decide_eq_true_2 by done. cbn [negb orb].
  rewrite version_scanned, Z.eqb_refl. cbn [negb].
  assert (scan_parameters parameters_text = Some (argon2Memory, argon2Time, argon2Threads)) as -> by (vm_compute; reflexivity).
  rewrite !bytes_of_bytes, !std_roundtrip, Hl by done. by rewrite Hk'.
Qed.
Definition breakglass_hasher : PasswordHasher := {| Rbac.HashPassword := HashPassword; Rbac.VerifyPassword := VerifyPassword |}.
(** The hasher of the program keeps what its callers rely on. *)
Lemma breakglass_hasher_laws : @PasswordHasherLaws breakglass_hasher.
Proof.
  split. intros n p h Hh. change (VerifyPassword p h = Ok true). destruct (Verify_of_Hash n p p h Hh) as (key & key' & Hk & Hk' & ->).
  rewrite bool_decide_eq_true_2; [done|]. congruence.
Qed.
End RoundTrip.

(** ** A toy key *)
Definition toy_argon2 : Argon2 := {|
  argon2_Version := 19;
  IDKey := fun p salt t m n len => if (t <? 1) || (n <? 1) then None else
    Some (take (Z.to_nat len) (map (fun c => c mod 256) (p ++ salt) ++ repeat 0 (Z.to_nat len)))
|}.
Definition fixed_salt : RandomSource := fun _ n => repeat 251 n.
Lemma toy_argon2_laws : @Argon2Laws toy_argon2.
Proof.
  split; [vm_compute; split; congruence|]. intros p salt t m n len Ht Hn Hl. cbn.
  rewrite (proj2 (Z.ltb_ge t 1)), (proj2 (Z.ltb_ge n 1)) by done. cbn [orb]. eexists. split; [reflexivity|]. split.
  - rewrite length_take, length_app, repeat_length. lia.
  - apply Forall_take, Forall_app. split; [|apply Forall_forall; intros c ->%list_elem_of_In%repeat_spec; unfold octet; lia].
    apply Forall_map, Forall_forall. intros c _. unfold octet. apply Z.mod_pos_bound. lia.
Qed.
Lemma fixed_salt_laws : @RandomLaws fixed_salt.
Proof. split. intros n k. apply Forall_forall. intros c ->%list_elem_of_In%repeat_spec. unfold octet. lia. Qed.
Definition toy_hasher : PasswordHasher := @breakglass_hasher toy_argon2 fixed_salt.
Lemma toy_hasher_laws : @PasswordHasherLaws toy_hasher.
Proof. exact (@breakglass_hasher_laws toy_argon2 toy_argon2_laws fixed_salt fixed_salt_laws). Qed.
Example hashes :
  @HashPassword toy_argon2 fixed_salt 0 "pw" =
    Ok "$argon2id$v=19$m=65536,t=3,p=4$+/v7+/v7+/v7+/v7+/v7+w$cHf7+/v7+/v7+/v7+/v7+/v7AAAAAAAAAAAAAAAAAAA" /\
  map (fun h => @VerifyPassword toy_argon2 "pw" h)
    ["$argon2id$v=19$m=65536,t=3,p=4$+/v7+/v7+/v7+/v7+/v7+w$cHf7+/v7+/v7+/v7+/v7+/v7AAAAAAAAAAAAAAAAAAA";
     "$argon2id$v= +19 x$m=8,t=1,p=1 $+/v7+/v7+/v7+/v7+/v7+w$cHf7"; "$argon2id$v=19$m=8,t=1,p=256$AAAA$AAAA"; "$argon2id$v=18$m=8,t=1,p=1$AAAA$AAAA";
     "$argon2id$v=19$m=8,t=1$AAAA$AAAA"; "$argon2id$v=19$m=8,t=1,p=1$A-AA$AAAA"; "$argon2id$v=19$m=8,t=0,p=1$AAAA$AAAA"; ""] =
    [Ok true; Ok true; Err ErrMalformedHash; Err ErrMalformedHash; Err ErrMalformedHash; Err ErrMalformedHash; Err panic; Err ErrMalformedHash].
Proof. vm_compute. by split. Qed.
