(* ===== verification/Ldap.v ===== *)
(** * Passwords checked by the directory ([internal/auth/ldap.go], [sid.go])

    The server of the directory is a parameter: what it answers to each call,
    and the escaping of the client library.  A call that fails is an answer. *)
From stdpp Require Import base list strings gmap.
From Stdlib Require Import ZArith Lia.
From Stdlib Require Import Ascii.
From Stdlib Require String.
From S2P Require Import Prelude Text Json Db.
Local Open Scope string_scope.
Local Open Scope list_scope.
Local Open Scope Z_scope.

(** ** [sid.go] *)
Definition headerLen : nat := 8.
Definition authority_of (raw : list Z) : Z := fold_left (fun acc b => Z.lor (Z.shiftl acc 8) b) (take 6 (drop 2 raw)) 0.
Definition le32 (bs : list Z) : Z := match bs with [a; b; c; d] => a + b * 256 + c * 65536 + d * 16777216 | _ => 0 end.
Fixpoint sub_authorities (n : nat) (raw : list Z) : list Z :=
  match n with O => [] | S n' => le32 (take 4 raw) :: sub_authorities n' (drop 4 raw) end.
Definition decodeObjectSID (raw : list Z) : result string :=
  let n := Z.of_nat (length raw) in
  if Nat.ltb (length raw) headerLen then
    Err (Opaque ("objectSid too short: got " +:+ itoa n +:+ " bytes, want at least 8"))
  else
    let count := Z.to_nat (nth 1 raw 0) in
    let wantLen := (headerLen + count * 4)%nat in
    if negb (Nat.eqb (length raw) wantLen) then
      Err (Opaque ("objectSid length mismatch: got " +:+ itoa n +:+ " bytes, want " +:+ itoa (Z.of_nat wantLen)
        +:+ " for " +:+ itoa (Z.of_nat count) +:+ " sub-authorities"))
    else
      Ok (fold_left (fun sid sub => sid +:+ "-" +:+ itoa sub) (sub_authorities count (drop headerLen raw))
            ("S-" +:+ itoa (nth 0 raw 0) +:+ "-" +:+ itoa (authority_of raw))).

(** ** [ldap.go] *)
Definition ErrInvalidCredentials : error := Sentinel "auth.ErrInvalidCredentials" "invalid credentials".
Record AuthenticatedUser := MkAuthenticatedUser {
  au_ADSID : string; au_DisplayName : string; au_Email : string; au_InAccessGroup : bool; au_DN : string
}.
Record Entry := MkEntry { e_DN : string; e_attribute : string -> string; e_raw : string -> list Z }.
Record SearchRequest := MkSearch { sr_base : string; sr_sizeLimit : Z; sr_filter : string; sr_attributes : list string }.
Class LdapServer := {
  ldap_dial : N -> result unit;
  ldap_bind : N -> string -> string -> result unit;
  ldap_search : N -> SearchRequest -> result (list Entry);
  EscapeFilter : string -> string
}.
Record LDAPProvider := MkLDAPProvider { lp_bindDN : string; lp_bindPassword : string; lp_baseDN : string; lp_accessGroupDN : string }.
Definition matchingRuleInChain : string := "1.2.840.113556.1.4.1941".

Section Provider.
Context `{Env} `{LdapServer} (p : LDAPProvider).
(** One call of the server. *)
Definition answer {A} (f : N -> result A) : M A := fun w => (f (w_calls w), bump w).
Definition dial : M unit := answer ldap_dial.
Definition bind_as (dn password : string) : M unit := answer (fun n => ldap_bind n dn password).
Definition search (r : SearchRequest) : M (list Entry) := answer (fun n => ldap_search n r).
Definition user_search (username : string) : SearchRequest :=
  MkSearch (lp_baseDN p) 2 ("(sAMAccountName=" +:+ EscapeFilter username +:+ ")") ["displayName"; "objectSid"; "mail"].
Definition member_search (userDN groupDN : string) : SearchRequest :=
  MkSearch (lp_baseDN p) 1
    ("(&(distinguishedName=" +:+ EscapeFilter userDN +:+ ")(memberOf:" +:+ matchingRuleInChain +:+ ":=" +:+ EscapeFilter groupDN +:+ "))") ["dn"].
Definition findUser (username : string) : M Entry :=
  es ← wrap "search for user: " (search (user_search username));
  match es with [e] => mret e | _ => throw ErrInvalidCredentials end.
Definition verifyPassword (userDN password : string) : M unit :=
  wrap "connect to LDAP server: " dial;;
  map_err (fun _ => ErrInvalidCredentials) (bind_as userDN password).
Definition isMemberOf (userDN groupDN : string) : M bool :=
  es ← wrap "check group membership: " (search (member_search userDN groupDN));
  mret (Nat.eqb (length es) 1).
Definition connect : M unit :=
  wrap "connect to LDAP server: " dial;;
  wrap "bind as service account: " (bind_as (lp_bindDN p) (lp_bindPassword p)).
Definition Authenticate (username password : string) : M AuthenticatedUser :=
  if bool_decide (password = "") then throw ErrInvalidCredentials
  else
    connect;;
    entry ← findUser username;
    verifyPassword (e_DN entry) password;;
    inAccessGroup ← wrap "resolve access group membership: " (isMemberOf (e_DN entry) (lp_accessGroupDN p));
    sid ← (match decodeObjectSID (e_raw entry "objectSid") with
           | Ok s => mret s
           | Err e => throw (Errorf "decode objectSid: " e "")
           end);
    mret (MkAuthenticatedUser sid (e_attribute entry "displayName") (e_attribute entry "mail") inAccessGroup (e_DN entry)).
Definition IsInAccessGroup (dn : string) : M bool :=
  connect;;
  wrap "resolve access group membership: " (isMemberOf dn (lp_accessGroupDN p)).
End Provider.

Example sid_text :
  decodeObjectSID [1; 5; 0; 0; 0; 0; 0; 5; 21; 0; 0; 0; 199; 217; 252; 215; 60; 96; 87; 200; 180; 87; 206; 1; 245; 3; 0; 0] = Ok "S-1-5-21-3623672263-3361169468-30300084-1013" /\
  is_ok (decodeObjectSID [1; 1; 0; 0; 0; 0; 0; 5]) = false.
Proof. vm_compute. split; reflexivity. Qed.

(** ** The text of a SID tells which SID it is *)
Definition value (l : list ascii) : Z := fold_left (fun acc c => acc * 10 + (code c - 48)) l 0.
Lemma value_snoc l c : value (l ++ [c]) = value l * 10 + (code c - 48).
Proof. unfold value. by rewrite fold_left_app. Qed.
Lemma value_app l m : value (l ++ m) = value l * 10 ^ Z.of_nat (length m) + value m.
Proof.
  induction m as [|c m IH] using rev_ind; [rewrite app_nil_r; cbn; lia|]. rewrite (assoc_L (++)), !value_snoc.
  rewrite IH, length_app. cbn [length]. rewrite Nat2Z.inj_add, Z.pow_add_r by lia. lia.
Qed.
Lemma dec_digits_value f : forall n acc, 0 <= n < 10 ^ Z.of_nat f ->
  value (bytes (dec_digits f n acc)) = n * 10 ^ Z.of_nat (String.length acc) + value (bytes acc).
Proof.
  induction f as [|f IH]; intros n acc Hn; [assert (n = 0) as -> by (cbn in Hn; lia); cbn [dec_digits]; lia|]. cbn [dec_digits].
  set (acc' := String.String (ascii_of_N (Z.to_N (48 + n mod 10))) acc).
  assert (Hacc : value (bytes acc') = (n mod 10) * 10 ^ Z.of_nat (String.length acc) + value (bytes acc)).
  { change (bytes acc') with ([ascii_of_N (Z.to_N (48 + n mod 10))] ++ bytes acc). rewrite value_app, length_bytes. f_equal. f_equal.
    unfold value, code. cbn [fold_left]. pose proof (Z.mod_pos_bound n 10 ltac:(lia)). rewrite N_ascii_embedding by lia. lia. }
  pose proof (Z.div_mod n 10 ltac:(lia)) as Hd. destruct (Z.eqb_spec (n / 10) 0) as [E|E].
  - rewrite Hacc. rewrite E in Hd. f_equal. f_equal. lia.
  - rewrite IH.
    + rewrite Hacc. change (String.length acc') with (S (String.length acc)). rewrite Nat2Z.inj_succ, Z.pow_succ_r by lia. rewrite Hd at 3. ring.
    + rewrite Nat2Z.inj_succ, Z.pow_succ_r in Hn by lia. split; [apply Z.div_pos; lia|apply Z.div_lt_upper_bound; lia].
Qed.
Lemma itoa_value n : 0 <= n < 10 ^ 20 -> value (bytes (itoa n)) = n.
Proof.
  intros Hn. unfold itoa. rewrite (proj2 (Z.ltb_ge n 0)) by lia. rewrite dec_digits_value by (change (Z.of_nat 20) with 20; lia). cbn. lia.
Qed.
Lemma dec_digits_free f : forall n acc, free_of "-"%char acc -> free_of "-"%char (dec_digits f n acc).
Proof.
  induction f as [|f IH]; intros n acc Hacc; [done|]. cbn [dec_digits].
  set (acc' := String.String (ascii_of_N (Z.to_N (48 + n mod 10))) acc). assert (Hacc' : free_of "-"%char acc').
  { unfold free_of in *. change (bytes acc') with (ascii_of_N (Z.to_N (48 + n mod 10)) :: bytes acc). cbn [existsb]. apply orb_false_iff. split; [|done].
    unfold is_char, code. pose proof (Z.mod_pos_bound n 10 ltac:(lia)). rewrite N_ascii_embedding by lia. change (Z.of_N (N_of_ascii "-"%char)) with 45.
    apply Z.eqb_neq. lia. }
  destruct (_ =? 0); [exact Hacc'|by apply IH].
Qed.
Lemma itoa_free n : 0 <= n -> free_of "-"%char (itoa n).
Proof. intros Hn. unfold itoa. rewrite (proj2 (Z.ltb_ge n 0)) by lia. by apply dec_digits_free. Qed.
Lemma join_last p x : p <> [] -> join "-" (p ++ [x]) = join "-" p +:+ "-" +:+ x.
Proof.
  induction p as [|y p IH]; [done|]. intros _. destruct p as [|z p]; [done|].
  change (join "-" ((y :: z :: p) ++ [x])) with (y +:+ "-" +:+ join "-" ((z :: p) ++ [x])). rewrite IH by done.
  change (join "-" (y :: z :: p)) with (y +:+ "-" +:+ join "-" (z :: p)). by rewrite !text_assoc.
Qed.
Lemma sid_join subs : forall p, p <> [] -> fold_left (fun sid sub => sid +:+ "-" +:+ itoa sub) subs (join "-" p) = join "-" (p ++ map itoa subs).
Proof.
  induction subs as [|s subs IH]; intros p Hp; [by rewrite app_nil_r|]. cbn [fold_left map]. rewrite <-join_last by done. rewrite IH by (by destruct p).
  by rewrite <-(assoc_L (++)).
Qed.
Definition octets (l : list Z) : Prop := Forall (fun b => 0 <= b < 256) l.
Lemma lor_byte x b : 0 <= b < 256 -> Z.lor (Z.shiftl x 8) b = x * 256 + b.
Proof.
  intros Hb. assert (Hl : Z.land (Z.shiftl x 8) b = 0).
  { apply Z.bits_inj'. intros n Hn. rewrite Z.land_spec, Z.bits_0, Z.shiftl_spec by done. destruct (Z.lt_ge_cases n 8) as [H8|H8].
    - by rewrite (Z.testbit_neg_r x (n - 8)) by lia.
    - rewrite andb_comm. destruct (Z.eq_dec b 0) as [->|Hne]; [by rewrite Z.bits_0|]. rewrite Z.bits_above_log2; [done|lia|].
      apply Z.lt_le_trans with 8; [|done]. apply Z.log2_lt_pow2; lia. }
  rewrite <-Z.lxor_lor, <-Z.add_nocarry_lxor by done. rewrite Z.shiftl_mul_pow2 by lia. lia.
Qed.
Lemma authority_value a b c d e f : octets [a; b; c; d; e; f] -> forall r n,
  authority_of (r :: n :: [a; b; c; d; e; f]) = ((((a * 256 + b) * 256 + c) * 256 + d) * 256 + e) * 256 + f.
Proof.
  unfold octets. rewrite !Forall_cons. intros (Ha & Hb & Hc & Hd & He & Hf & _) r n. unfold authority_of. cbn [drop take fold_left].
  rewrite !lor_byte by done. lia.
Qed.
Lemma sub_authorities_inj n : forall l l', length l = (n * 4)%nat -> length l' = (n * 4)%nat -> octets l -> octets l' ->
  sub_authorities n l = sub_authorities n l' -> l = l'.
Proof.
  induction n as [|n IH]; intros l l' Hl Hl' Ho Ho' He; [by destruct l, l'|].
  destruct l as [|a [|b [|c [|d l]]]]; try (cbn in Hl; lia). destruct l' as [|a' [|b' [|c' [|d' l']]]]; try (cbn in Hl'; lia).
  unfold octets in *. rewrite !Forall_cons in Ho, Ho'. destruct Ho as (Ha & Hb & Hc & Hd & Ho), Ho' as (Ha' & Hb' & Hc' & Hd' & Ho').
  cbn [sub_authorities take drop le32] in He. rewrite !take_0 in He. injection He as E1 E2. cbn in Hl, Hl'. rewrite (IH l l') by (done || lia).
  assert (d = d') by lia. assert (c = c') by lia. assert (b = b') by lia. assert (a = a') by lia. congruence.
Qed.
Lemma sub_authorities_range n : forall l, octets l -> Forall (fun s => 0 <= s < 10 ^ 20) (sub_authorities n l).
Proof.
  induction n as [|n IH]; intros l Ho; [constructor|]. cbn [sub_authorities]. constructor; [|apply IH; by apply Forall_drop].
  destruct l as [|a [|b [|c [|d l]]]]; cbn [take le32]; try (split; [lia|reflexivity]).
  unfold octets in Ho. rewrite !Forall_cons in Ho. destruct Ho as (?&?&?&?&_). change (10 ^ 20) with 100000000000000000000. rewrite take_0. lia.
Qed.
Lemma decode_text raw s : octets raw -> decodeObjectSID raw = Ok s ->
  exists r n a b c d e f rest, raw = r :: n :: a :: b :: c :: d :: e :: f :: rest /\ length rest = (Z.to_nat n * 4)%nat /\
    s = join "-" ("S" :: itoa r :: itoa (((((a * 256 + b) * 256 + c) * 256 + d) * 256 + e) * 256 + f) :: map itoa (sub_authorities (Z.to_nat n) rest)).
Proof.
  intros Ho. unfold decodeObjectSID, headerLen. destruct (Nat.ltb_spec (length raw) 8) as [|Hlen]; [done|].
  destruct raw as [|r [|n [|a [|b [|c [|d [|e [|f rest]]]]]]]]; try (cbn in Hlen; lia). cbn [nth drop].
  destruct (Nat.eqb_spec (length (r :: n :: a :: b :: c :: d :: e :: f :: rest)) (8 + Z.to_nat n * 4)) as [Hl|]; [|done]. cbn [negb]. intros [= <-].
  exists r, n, a, b, c, d, e, f, rest. split; [done|]. split; [cbn in Hl; lia|].
  assert (Ho6 : octets [a; b; c; d; e; f]) by (unfold octets in *; rewrite !Forall_cons in Ho; destruct Ho as (_&_&?&?&?&?&?&?&_); repeat (apply Forall_cons; split; [done|]); constructor).
  pose proof (authority_value a b c d e f Ho6 r n) as Ea. unfold authority_of in *. cbn [drop take] in *. rewrite take_0. rewrite ?take_0 in Ea. rewrite Ea.
  change ("S-" +:+ itoa r +:+ "-" +:+ itoa (((((a * 256 + b) * 256 + c) * 256 + d) * 256 + e) * 256 + f)) with (join "-" ["S"; itoa r; itoa (((((a * 256 + b) * 256 + c) * 256 + d) * 256 + e) * 256 + f)]).
  by rewrite sid_join.
Qed.
Lemma itoa_inj x y : 0 <= x < 10 ^ 20 -> 0 <= y < 10 ^ 20 -> itoa x = itoa y -> x = y.
Proof. intros Hx Hy E. rewrite <-(itoa_value x Hx), <-(itoa_value y Hy). by rewrite E. Qed.

(** The text of a SID tells which SID it is: two binary SIDs with the same
    text are the same bytes, so no two accounts of the directory can share the
    row that is looked up by it. *)
Theorem decodeObjectSID_inj raw raw' s : octets raw -> octets raw' -> decodeObjectSID raw = Ok s -> decodeObjectSID raw' = Ok s -> raw = raw'.
Proof.
  intros Ho Ho' (r & n & a & b & c & d & e & f & rest & -> & Hl & ->)%decode_text (r' & n' & a' & b' & c' & d' & e' & f' & rest' & -> & Hl' & Es)%decode_text; [|done..].
  unfold octets in *. rewrite !Forall_cons in Ho, Ho'. destruct Ho as (?&?&?&?&?&?&?&?&Ho), Ho' as (?&?&?&?&?&?&?&?&Ho').
  assert (Hfree : forall x l, 0 <= x -> Forall (fun s => 0 <= s < 10 ^ 20) l -> Forall (free_of "-"%char) (itoa x :: map itoa l)).
  { intros x l Hx Hs. constructor; [by apply itoa_free|]. apply List.Forall_map. eapply Forall_impl; [exact Hs|]. intros y [Hy _]. by apply itoa_free. }
  pose proof (sub_authorities_range (Z.to_nat n) rest Ho) as Hs. pose proof (sub_authorities_range (Z.to_nat n') rest' Ho') as Hs'.
  apply (f_equal (split_text 45)) in Es. change "-" with (one_char "-"%char) in Es. change 45 with (code "-"%char) in Es.
  rewrite !split_text_join in Es by first [discriminate | constructor; [done|]; constructor; [apply itoa_free; lia|]; apply Hfree; [lia|done]].
  injection Es as E1 E2 E3. apply itoa_inj in E1; [|lia..]. apply itoa_inj in E2; [|lia..].
  assert (Esub : sub_authorities (Z.to_nat n) rest = sub_authorities (Z.to_nat n') rest').
  { revert E3 Hs Hs'. generalize (sub_authorities (Z.to_nat n) rest) (sub_authorities (Z.to_nat n') rest'). intros l l'. revert l'.
    induction l as [|x l IH]; intros [|y l']; try done. cbn [map]. intros [= Exy Ell] [Hx Hxs]%Forall_cons [Hy Hys]%Forall_cons.
    f_equal; [by apply itoa_inj|by apply IH]. }
  assert (Elen : forall k l, length (sub_authorities k l) = k) by (clear; induction k as [|k IH]; intros l; cbn; [done|by rewrite IH]).
  assert (En : Z.to_nat n = Z.to_nat n') by (rewrite <-(Elen (Z.to_nat n) rest), <-(Elen (Z.to_nat n') rest'), Esub; done).
  assert (n = n') by lia. subst n'. rewrite (sub_authorities_inj (Z.to_nat n) rest rest') by done.
  assert (f = f') by lia. assert (e = e') by lia. assert (d = d') by lia. assert (c = c') by lia. assert (b = b') by lia. assert (a = a') by lia. congruence.
Qed.
Lemma decodeObjectSID_inj_witness :
  let header := [1; 2; 0; 0; 0; 0; 0; 5] in
  let sid := [1; 2; 0; 0; 0; 0; 0; 5; 32; 0; 0; 0; 32; 2; 0; 0] in
  decodeObjectSID sid = Ok "S-1-5-32-544" /\ header ++ repeat 32 1 ++ repeat 0 3 ++ [32; 2; 0; 0] = sid.
Proof.
  cbv zeta. split; [vm_compute; reflexivity|].
  assert (Ho : octets [1; 2; 0; 0; 0; 0; 0; 5; 32; 0; 0; 0; 32; 2; 0; 0]) by (unfold octets; repeat (apply Forall_cons; split; [lia|]); by apply Forall_nil).
  exact (decodeObjectSID_inj ([1; 2; 0; 0; 0; 0; 0; 5] ++ repeat 32 1 ++ repeat 0 3 ++ [32; 2; 0; 0]) _ "S-1-5-32-544" Ho Ho ltac:(vm_compute; reflexivity) ltac:(vm_compute; reflexivity)).
Defined.
