(* ===== verification/Nodes.v ===== *)
(** * The node registry ([internal/nodes])

    Registration and the credential an agent connects with, the interfaces an
    agent reports, and which of them a peer transfer pulls from. *)
From stdpp Require Import base list strings gmap.
From Stdlib Require Import ZArith Lia.
From Stdlib Require Import Ascii.
From Stdlib Require String.
From S2P Require Import Prelude Text Json Db Rbac InstanceStore Wire NodeStore NodeToken NetIP.
Local Open Scope string_scope.
Local Open Scope list_scope.
Local Open Scope Z_scope.

(** ** [nodes.go] *)
Definition ErrInvalidNode : error := Sentinel "nodes.ErrInvalidNode" "invalid node".
Definition maxCommentLen : Z := 500.
Definition ErrCommentTooLong : error := Errorf "" ErrInvalidNode (": comment exceeds " +:+ itoa maxCommentLen +:+ " characters").
Record RegisterNodeParams := MkRegister {
  rp_Name : string; rp_Hostname : string; rp_IPAddress : string; rp_RuntimeBackend : string;
  rp_GPUMemoryGB : float64; rp_CPUMemoryGB : float64
}.
Definition runtime_backend (s : string) : option RuntimeBackend :=
  if bool_decide (s = "docker") then Some Docker else if bool_decide (s = "podman") then Some Podman
  else if bool_decide (s = "bare-metal") then Some BareMetal else None.
Definition invalid_node (reason : string) : error := Errorf "" ErrInvalidNode (": " +:+ reason).
(** The backend is returned as the enum value its text names. *)
Definition validate (p : RegisterNodeParams) : result RuntimeBackend :=
  if bool_decide (rp_Name p = "") then Err (invalid_node "name is required")
  else if bool_decide (rp_Hostname p = "") then Err (invalid_node "hostname is required")
  else if bool_decide (rp_IPAddress p = "") then Err (invalid_node "ip_address is required")
  else match runtime_backend (rp_RuntimeBackend p) with
  | None => Err (invalid_node ("unknown runtime_backend " +:+ quote (rp_RuntimeBackend p)))
  | Some b =>
      if fle_zero (rp_GPUMemoryGB p) then Err (invalid_node "gpu_memory_gb must be positive")
      else if fle_zero (rp_CPUMemoryGB p) then Err (invalid_node "cpu_memory_gb must be positive")
      else Ok b
  end.

(** ** [auth.go] and [service.go] *)
Definition ErrInvalidCredentials : error := Sentinel "nodes.ErrInvalidCredentials" "invalid node credentials".
Definition ErrNodeNotConnected : error := Sentinel "nodes.ErrNodeNotConnected" "node is not connected".
Definition ErrUnknownInterface : error := Sentinel "nodes.ErrUnknownInterface" "node does not report that interface".
Definition ErrNoInterfaces : error := Sentinel "nodes.ErrNoInterfaces" "node has reported no network interfaces".
Definition maxReportedInterfaces : nat := 64.
Definition maxInterfaceNameLen : Z := 64.
Definition interfaceNamePattern (s : string) : bool :=
  negb (bool_decide (s = "")) &&
  all_chars (fun c => is_alnum c || is_char 46 c || is_char 95 c || is_char 58 c || is_char 64 c || is_char 45 c) s.
Record TransferSource := MkSource { src_Name : string; src_IPAddress : string }.

Definition log_too_many : string := "nodes: node %s reported more than %d interfaces - ignoring the rest".
Definition log_bad_name : string := "nodes: node %s reported an interface with an invalid name - skipping it".
Definition log_bad_ip : string := "nodes: node %s reported interface %q with an invalid IP - skipping it".
Definition log_store : string := "nodes: store interfaces for node %s: %v".
Definition name_ok (name : string) : bool :=
  negb (bool_decide (name = "") || (maxInterfaceNameLen <? len name) || negb (interfaceNamePattern name)).
(** [i.LinkSpeedMbps != nil && *i.LinkSpeedMbps <= 0] makes it nil. *)
Definition positive_speed (s : option Z) : option Z :=
  match s with Some v => if v <=? 0 then None else s | None => None end.
Definition backend_string (b : RuntimeBackend) : string :=
  match b with Docker => "docker" | Podman => "podman" | BareMetal => "bare-metal" end.

Section Service.
Context `{Env} `{RandomSource}.

(** [AuthService.Authenticate] *)
Definition Authenticate (name token : string) : M Node :=
  cred ← map_err (fun e => if errors_Is e "db.ErrNodeNotFound" then ErrInvalidCredentials
                           else Errorf "find node credential: " e "") (FindCredentialByName name);
  guard_err (VerifyNodeToken token cred.2) ErrInvalidCredentials;;
  mret cred.1.

Definition RegisterNode (actor : Actor) (params : RegisterNodeParams) : M (Node * string) :=
  guard_err (CanManageNodes actor) ErrNotPermitted;;
  backend ← lift (validate params);
  let registeredBy := actor_id actor in
  token ← wrap "generate bearer token: " GenerateNodeToken;
  n ← wrap "create node: " (Create_node (rp_Name params) (rp_Hostname params) (rp_IPAddress params) backend
        (rp_GPUMemoryGB params) (rp_CPUMemoryGB params) registeredBy (HashNodeToken token));
  wrap "record audit: " (Record_ registeredBy (IsSuperAdmin actor) "registered_node" "node" (NodeID n)
    (Some (<["name" := DStr (NodeName n)]> {[ "runtime_backend" := DStr (backend_string (NodeRuntimeBackend n)) ]})));;
  mret (n, token).
Definition ListNodes : M (list Node) := wrap "list nodes: " List_nodes_db.
Definition GetNode (id : string) : M Node := FindByID_node id.
Definition ListInterfaces (nodeID : string) : M (list NodeNetworkInterface) :=
  wrap ("list interfaces for node " +:+ nodeID +:+ ": ") (ListByNode_interfaces nodeID).

(** The loop of [HandleReportInterfaces]: the rows to store, the names seen
    being theirs. *)
Fixpoint screen (nodeID : string) (valid : list NodeNetworkInterface) (l : list NetworkInterface)
    : M (list NodeNetworkInterface) :=
  match l with
  | [] => mret valid
  | i :: l' =>
      if Nat.leb maxReportedInterfaces (length valid) then logf log_too_many;; mret valid
      else if negb (name_ok (ni_Name i)) then logf log_bad_name;; screen nodeID valid l'
      else match ParseIP (ni_IPAddress i) with
      | None => logf log_bad_ip;; screen nodeID valid l'
      | Some ip =>
          if existsb (fun r => bool_decide (InterfaceName r = ni_Name i)) valid then screen nodeID valid l'
          else screen nodeID
            (valid ++ [MkInterface nodeID (ni_Name i) (IP_String ip) (positive_speed (ni_LinkSpeedMbps i)) 0]) l'
      end
  end.
Definition HandleReportInterfaces (nodeID : string) (env : Envelope) : M unit :=
  match env with
  | EReportInterfaces (Err _) => logf "nodes: node %s sent a malformed report_interfaces: %v"
  | EReportInterfaces (Ok report) =>
      valid ← screen nodeID [] report;
      log_on_error log_store (ReplaceForNode nodeID valid)
  | _ => mret tt
  end.
Definition RescanInterfaces (actor : Actor) (nodeID : string) : M unit :=
  guard_err (CanManageNodes actor) ErrNotPermitted;;
  connected ← Connected nodeID;
  guard_err connected ErrNodeNotConnected;;
  env ← wrap "build rescan_interfaces envelope: " (NewEnvelope MRescanInterfaces);
  wrap ("dispatch rescan_interfaces to node " +:+ nodeID +:+ ": ") (Send nodeID env).
Definition reports (ifaces : list NodeNetworkInterface) (name : string) : bool :=
  existsb (fun i => bool_decide (InterfaceName i = name)) ifaces.
Definition SetDefaultTransferInterface (actor : Actor) (nodeID interfaceName : string) : M unit :=
  guard_err (CanManageNodes actor) ErrNotPermitted;;
  _ ← FindByID_node nodeID;
  name ← (if bool_decide (interfaceName = "") then mret None
          else ifaces ← wrap ("list interfaces for node " +:+ nodeID +:+ ": ") (ListByNode_interfaces nodeID);
               guard_err (reports ifaces interfaceName) ErrUnknownInterface;; mret (Some interfaceName));
  wrap "set default transfer interface: " (SetDefaultTransferInterface_db nodeID name);;
  wrap "record audit: " (Record_ (actor_id actor) (IsSuperAdmin actor) "set_default_transfer_interface" "node" nodeID
    (Some {[ "default_transfer_interface" := DStr interfaceName ]})).
Definition SetComment (actor : Actor) (nodeID comment : string) : M unit :=
  guard_err (CanEditNodeComment actor) ErrNotPermitted;;
  _ ← FindByID_node nodeID;
  let comment := trim_space comment in
  guard_err (negb (maxCommentLen <? len comment)) ErrCommentTooLong;;
  now ← time_now;
  wrap ("set comment for node " +:+ nodeID +:+ ": ")
    (SetComment_db nodeID (if bool_decide (comment = "") then None else Some comment) (actor_id actor) now);;
  wrap "record audit: " (Record_ (actor_id actor) (IsSuperAdmin actor) "set_node_comment" "node" nodeID
    (Some {[ "comment" := DStr comment ]})).

(** ** [ResolveTransferSource] *)
Definition find_iface (sorted : list NodeNetworkInterface) (name : string) : option NodeNetworkInterface :=
  List.find (fun i => bool_decide (InterfaceName i = name)) sorted.
Definition pick (i : NodeNetworkInterface) : TransferSource := MkSource (InterfaceName i) (IfIPAddress i).
(** The loop that keeps the fastest so far. *)
Fixpoint fastest_of (sorted : list NodeNetworkInterface) (fastest : option NodeNetworkInterface) : option NodeNetworkInterface :=
  match sorted with
  | [] => fastest
  | i :: l =>
      match LinkSpeedMbps i with
      | None => fastest_of l fastest
      | Some s =>
          if match fastest with None => true | Some f => match LinkSpeedMbps f with Some t => t <? s | None => true end end
          then fastest_of l (Some i) else fastest_of l fastest
      end
  end.
Definition ResolveTransferSource (nodeID override : string) : M TransferSource :=
  node ← FindByID_node nodeID;
  ifaces ← wrap ("list interfaces for node " +:+ nodeID +:+ ": ") (ListByNode_interfaces nodeID);
  match sort_by by_name ifaces with
  | [] => throw ErrNoInterfaces
  | (first :: _) as sorted =>
      if negb (bool_decide (override = "")) then
        match find_iface sorted override with Some i => mret (pick i) | None => throw ErrUnknownInterface end
      else match NodeDefaultTransferInterface node ≫= find_iface sorted with
      | Some i => mret (pick i)
      | None => mret (pick (default first (fastest_of sorted None)))
      end
  end.
End Service.
