(* ===== verification/NodesSpec.v ===== *)
(** * What the node registry promises

    The interfaces a report leaves behind, against a reference definition; the
    round trip of a report through the table; the choice of the interface a
    transfer pulls from; and the credential registration hands out. *)
From stdpp Require Import base list strings gmap sorting.
From Stdlib Require Import ZArith Lia.
From Stdlib Require Import Ascii.
From Stdlib Require String.
From S2P Require Import Prelude Text Json Db Rbac InstanceStore Wire NodeStore NodeToken NetIP Nodes.
Local Open Scope string_scope.
Local Open Scope list_scope.
Local Open Scope Z_scope.

(** ** The reference definition

    The row an entry of a report becomes, if it is acceptable; of the
    acceptable rows the first of each name; of those the first 64. *)
Definition acceptable (nodeID : string) (i : NetworkInterface) : option NodeNetworkInterface :=
  if name_ok (ni_Name i) then
    (fun ip => MkInterface nodeID (ni_Name i) (IP_String ip) (positive_speed (ni_LinkSpeedMbps i)) 0) <$> ParseIP (ni_IPAddress i)
  else None.
Fixpoint firsts (seen : list string) (l : list NodeNetworkInterface) : list NodeNetworkInterface :=
  match l with
  | [] => []
  | r :: l' => if bool_decide (InterfaceName r ∈ seen) then firsts seen l' else r :: firsts (InterfaceName r :: seen) l'
  end.
Definition kept (nodeID : string) (report : list NetworkInterface) : list NodeNetworkInterface :=
  take maxReportedInterfaces (firsts [] (omap (acceptable nodeID) report)).
(** A row as [ReplaceForNode] stores it. *)
Definition stored_at (now : Time) (i : NodeNetworkInterface) : NodeNetworkInterface :=
  MkInterface (IfNodeID i) (InterfaceName i) (IfIPAddress i) (LinkSpeedMbps i) now.
(** A row as the agent would report it. *)
Definition reported (i : NodeNetworkInterface) : NetworkInterface :=
  MkNetworkInterface (InterfaceName i) (IfIPAddress i) (LinkSpeedMbps i).
Definition speed_fits (i : NodeNetworkInterface) : bool :=
  match LinkSpeedMbps i with Some s => in_int4 s | None => true end.
Definition good_row (nodeID : string) (i : NodeNetworkInterface) : Prop :=
  IfNodeID i = nodeID /\ name_ok (InterfaceName i) = true /\
  (exists ip, ParseIP (IfIPAddress i) = Some ip /\ IfIPAddress i = IP_String ip) /\
  match LinkSpeedMbps i with Some s => 0 < s | None => True end.

Lemma firsts_seen seen seen' l : (forall x, x ∈ seen <-> x ∈ seen') -> firsts seen l = firsts seen' l.
Proof.
  revert seen seen'. induction l as [|r l IH]; intros seen seen' Hs; [done|]. cbn [firsts].
  rewrite (bool_decide_ext _ _ (Hs (InterfaceName r))). case_bool_decide; [by apply IH|].
  f_equal. apply IH. intros x. rewrite !elem_of_cons, Hs. done.
Qed.
Lemma elem_of_firsts seen l r : r ∈ firsts seen l -> r ∈ l /\ InterfaceName r ∉ seen.
Proof.
  revert seen. induction l as [|r' l IH]; intros seen; cbn [firsts]; [by intros ?%elem_of_nil|].
  case_bool_decide as Hs.
  - intros [Hin Hn]%IH. split; [by right|done].
  - intros [->|[Hin Hn]%IH]%elem_of_cons; [split; [left|done]|]. split; [by right|]. set_solver.
Qed.
Lemma NoDup_firsts seen l : NoDup (map InterfaceName (firsts seen l)).
Proof.
  revert seen. induction l as [|r l IH]; intros seen; cbn [firsts]; [constructor|].
  case_bool_decide; [apply IH|]. cbn [map]. constructor; [|apply IH].
  intros (r' & Hr' & Hin%elem_of_firsts)%list_elem_of_fmap. set_solver.
Qed.
(** Rows of distinct names are their own firsts. *)
Lemma firsts_id seen l : NoDup (map InterfaceName l) -> (forall r, r ∈ l -> InterfaceName r ∉ seen) -> firsts seen l = l.
Proof.
  revert seen. induction l as [|r l IH]; intros seen Hnd Hs; [done|]. cbn [firsts map] in *.
  apply NoDup_cons in Hnd as [Hr Hnd]. rewrite bool_decide_false by (apply Hs; left). f_equal. apply IH; [done|].
  intros r' Hr'. apply not_elem_of_cons. split; [|apply Hs; by right].
  intros E. apply Hr. apply list_elem_of_fmap. by exists r'.
Qed.
Lemma acceptable_good nodeID i r : acceptable nodeID i = Some r -> good_row nodeID r.
Proof.
  unfold acceptable. destruct (name_ok _) eqn:En; [|done]. destruct (ParseIP _) as [ip|] eqn:Eip; [|done].
  intros Hr. injection Hr as <-. split_and!; [done|done|by exists ip; split; [apply (canonical_ip _ _ Eip)|]|].
  cbn [LinkSpeedMbps]. unfold positive_speed. destruct (ni_LinkSpeedMbps i) as [s|]; [|done]. destruct (s <=? 0) eqn:E; propb; done.
Qed.
Lemma Forall_good nodeID report : Forall (good_row nodeID) (kept nodeID report).
Proof.
  apply Forall_take, Forall_forall. intros r [Hin _]%elem_of_firsts.
  apply list_elem_of_omap in Hin as (i & _ & Hi). by eapply acceptable_good.
Qed.
Lemma NoDup_kept nodeID report : NoDup (map InterfaceName (kept nodeID report)).
Proof. unfold kept. rewrite <-firstn_map. eapply sublist_NoDup; [apply (NoDup_firsts [])|apply sublist_take]. Qed.

(** A stored row, reported back, is accepted as it is. *)
Lemma acceptable_reported nodeID now r : good_row nodeID r -> acceptable nodeID (reported (stored_at now r)) = Some (stored_at 0 r).
Proof.
  intros (Hid & Hn & (ip & Hip & Hs) & Hsp). unfold acceptable, reported, stored_at. cbn. rewrite Hn, Hip. cbn.
  do 2 f_equal; [done|done|]. unfold positive_speed. destruct (LinkSpeedMbps r) as [s|]; [|done].
  destruct (s <=? 0) eqn:E; propb; [lia|done].
Qed.
Lemma kept_reported nodeID now l : Forall (good_row nodeID) l -> NoDup (map InterfaceName l) ->
  (length l <= maxReportedInterfaces)%nat ->
  kept nodeID (map (fun r => reported (stored_at now r)) l) = map (stored_at 0) l.
Proof.
  intros Hg Hnd Hl. unfold kept.
  assert (Ho : omap (acceptable nodeID) (map (fun r => reported (stored_at now r)) l) = map (stored_at 0) l).
  { clear Hnd Hl. induction Hg as [|r l Hr Hg IH]; [done|]. cbn [map omap list_omap].
    rewrite (acceptable_reported _ _ _ Hr). f_equal. exact IH. }
  rewrite Ho, firsts_id; [|by rewrite map_map|by intros r _ ?%elem_of_nil].
  apply take_ge. by rewrite length_map.
Qed.

(** ** The loop keeps what the reference keeps *)
Section Report.
Context `{Env}.

Lemma wp_screen nodeID report : forall valid w (Q : result (list NodeNetworkInterface) -> World -> Prop),
  (length valid <= maxReportedInterfaces)%nat ->
  (forall l, Q (Ok (take maxReportedInterfaces (valid ++ firsts (map InterfaceName valid) (omap (acceptable nodeID) report))))
    (set_w_logs (w_logs w ++ l) w)) ->
  wp (screen nodeID valid report) w Q.
Proof.
  induction report as [|i report IH]; intros valid w Q Hlen HQ.
  - cbn [screen]. apply wp_ret. specialize (HQ []). cbn [omap list_omap firsts] in HQ.
    rewrite app_nil_r, take_ge in HQ by done. rewrite app_nil_r in HQ. by destruct w.
  - cbn [screen]. destruct (Nat.leb_spec maxReportedInterfaces (length valid)) as [Hge|Hlt].
    { apply wp_bind, wp_logf, wp_ret. specialize (HQ [log_too_many]).
      rewrite take_app_le, take_ge in HQ by lia. exact HQ. }
    cbn [omap list_omap] in HQ. unfold acceptable in HQ at 1. destruct (name_ok (ni_Name i)) eqn:En; cbn [negb].
    2: { apply wp_bind, wp_logf. apply IH; [done|]. intros l. specialize (HQ ([log_bad_name] ++ l)). by rewrite app_assoc in HQ. }
    destruct (ParseIP (ni_IPAddress i)) as [ip|] eqn:Eip; cbn [fmap option_fmap option_map] in HQ.
    2: { apply wp_bind, wp_logf. apply IH; [done|]. intros l. specialize (HQ ([log_bad_ip] ++ l)). by rewrite app_assoc in HQ. }
    set (row := MkInterface nodeID _ _ _ _) in *. cbn [firsts] in HQ.
    assert (Hex : existsb (fun r => bool_decide (InterfaceName r = ni_Name i)) valid
                  = bool_decide (InterfaceName row ∈ map InterfaceName valid)).
    { apply eq_bool_prop_intro. rewrite !Is_true_true, existsb_elem, bool_decide_eq_true, list_elem_of_fmap.
      change (InterfaceName row) with (ni_Name i). split; intros (r & H1 & H2); exists r.
      - split; [symmetry; by apply bool_decide_eq_true in H2|done].
      - split; [done|]. by apply bool_decide_eq_true. }
    rewrite Hex. case_bool_decide as Hs; [by apply IH|].
    apply IH; [rewrite length_app; cbn [length]; lia|]. intros l.
    rewrite map_app, <-app_assoc. cbn [map]. rewrite (firsts_seen _ (InterfaceName row :: map InterfaceName valid)); [apply HQ|].
    clear. set_solver.
Qed.

(** Why storing a report can fail. *)
Definition store_fails (nodeID : string) (rows : list NodeNetworkInterface) (w : World) : Prop :=
  (exists n e, fault n = Some e) \/ w_nodes w !! nodeID = None \/ existsb (fun i => negb (speed_fits i)) rows = true.
Definition with_interfaces (nodeID : string) (rows : list NodeNetworkInterface) (w w' : World) : Prop :=
  interfaces_of nodeID w' = rows /\ (forall n, n <> nodeID -> w_interfaces w' !! n = w_interfaces w !! n) /\
  w_nodes w' = w_nodes w /\ w_logs w' = w_logs w.
Lemma wp_insert_interfaces pre nodeID now l : forall rows w0 w (Q : result unit -> World -> Prop),
  NoDup (map InterfaceName (rows ++ l)) -> with_interfaces nodeID rows w0 w ->
  (forall e w', store_fails nodeID l w0 -> Q (Err e) w') ->
  (forall w', with_interfaces nodeID (rows ++ map (stored_at now) l) w0 w' -> Q (Ok tt) w') ->
  Forall (fun i => IfNodeID i = nodeID) l ->
  wp (insert_interfaces pre nodeID now l) w Q.
Proof.
  induction l as [|i l IH]; intros rows w0 w Q Hnd Hw He Hok Hid.
  - cbn [insert_interfaces]. apply wp_ret, Hok. by rewrite app_nil_r.
  - cbn [insert_interfaces]. unfold insert_interface. apply wp_bind, wp_wrap, wp_sql.
    { intros e Hf. apply He. left. by exists (w_calls w), e. }
    intros _. destruct Hw as (Hrows & Hoth & Hno & Hlog). apply Forall_cons in Hid as [Hid Hids].
    change (interfaces_of nodeID (bump w)) with (interfaces_of nodeID w). rewrite Hrows.
    assert (Hfresh : existsb (fun r => bool_decide (InterfaceName r = InterfaceName i)) rows = false).
    { apply not_true_iff_false. rewrite existsb_elem. intros (r & Hr & E%bool_decide_eq_true).
      rewrite map_app in Hnd. cbn [map] in Hnd. apply NoDup_app in Hnd as (_ & Hd & _).
      apply (Hd (InterfaceName i)); [apply list_elem_of_fmap; by exists r|left]. }
    rewrite Hfresh. change (w_nodes (bump w)) with (w_nodes w). rewrite Hno.
    destruct (w_nodes w0 !! nodeID) as [n|] eqn:En.
    2: { rewrite bool_decide_false by (by intros []). apply He. right. by left. }
    rewrite bool_decide_true by done. cbn [negb].
    change (match LinkSpeedMbps i with Some s => in_int4 s | None => true end) with (speed_fits i).
    destruct (speed_fits i) eqn:Esp; cbn [negb].
    2: { apply He. right; right. cbn [existsb]. by rewrite Esp. }
    apply (IH (rows ++ [stored_at now i]) w0).
    + rewrite !map_app in *. cbn [map] in *. by rewrite <-app_assoc.
    + split_and!.
      * unfold interfaces_of. cbn. rewrite lookup_insert_eq. cbn [default]. unfold stored_at. by rewrite Hid.
      * intros n' Hn'. cbn. rewrite lookup_insert_ne by done. by apply Hoth.
      * done.
      * exact Hlog.
    + intros e w' [Hf|[Hf|Hf]]; apply He; [by left|by right; left|]. right; right. cbn [existsb]. by rewrite Hf, orb_true_r.
    + intros w' Hw'. rewrite <-app_assoc in Hw'. by apply Hok.
    + done.
Qed.
Lemma wp_ReplaceForNode nodeID rows w (Q : result unit -> World -> Prop) :
  NoDup (map InterfaceName rows) -> Forall (fun i => IfNodeID i = nodeID) rows ->
  (forall e w', store_fails nodeID rows w -> w_interfaces w' = w_interfaces w -> w_logs w' = w_logs w -> Q (Err e) w') ->
  (forall now w', with_interfaces nodeID (map (stored_at now) rows) w w' -> Q (Ok tt) w') ->
  wp (ReplaceForNode nodeID rows) w Q.
Proof.
  intros Hnd Hid He Hok. unfold ReplaceForNode. set (pre := (_ +:+ _)). clearbody pre.
  assert (Hcause : forall n e, fault n = Some e -> store_fails nodeID rows w) by (intros n e Hf; left; by exists n, e).
  apply wp_transaction_cause; [intros n e e' Hf; by apply He; [eapply Hcause|..]|].
  apply wp_bind, wp_wrap, wp_exec; [intros e Hf; by apply He; [eapply Hcause|..]|intros _].
  apply (wp_insert_interfaces _ _ _ _ [] w); [done| | | |done].
  - split_and!; [|intros n Hn; cbn; by rewrite lookup_delete_ne|done|done].
    unfold interfaces_of. cbn. by rewrite lookup_delete_eq.
  - intros e w' Hf. by apply He.
  - intros w' Hw'. split; [by eapply Hok|]. intros n e e' Hf. by apply He; [eapply Hcause|..].
Qed.
End Report.

(** ** What a report leaves behind *)

(** Everything but the interfaces, the log and the bookkeeping. *)
Definition beyond_interfaces (w : World) : World := set_w_interfaces ∅ (set_w_logs [] (set_w_clock 0 (set_w_calls 0%N w))).
Section Frame.
Context `{Env}.
#[global] Instance screen_preserves nodeID valid l : Preserves beyond_interfaces (screen nodeID valid l).
Proof.
  revert valid. induction l as [|i l IH]; intros valid; cbn [screen]; [apply _|].
  destruct (Nat.leb _ _); [apply _|]. destruct (negb _); [apply _|]. destruct (ParseIP _); [|apply _].
  destruct (existsb _ _); apply IH.
Qed.
#[global] Instance insert_interface_preserves nodeID now i : Preserves beyond_interfaces (insert_interface nodeID now i).
Proof. apply preserves_sql; [intros w; reflexivity|]. intros w. cbv zeta.
  destruct (existsb _ _); [done|]. destruct (negb (bool_decide _)); [done|]. destruct (negb _); done.
Qed.
#[global] Instance insert_interfaces_preserves pre nodeID now l : Preserves beyond_interfaces (insert_interfaces pre nodeID now l).
Proof. induction l as [|i l IH]; cbn [insert_interfaces]; apply _. Qed.
#[global] Instance ReplaceForNode_preserves nodeID l : Preserves beyond_interfaces (ReplaceForNode nodeID l).
Proof. unfold ReplaceForNode. apply _. Qed.
#[global] Instance HandleReportInterfaces_preserves nodeID e : Preserves beyond_interfaces (HandleReportInterfaces nodeID e).
Proof. unfold HandleReportInterfaces. apply _. Qed.

Definition refused_report (nodeID : string) (rows : list NodeNetworkInterface) (w w' : World) : Prop :=
  w_interfaces w' = w_interfaces w /\ last (w_logs w') = Some log_store /\ store_fails nodeID rows w.
Lemma wp_HandleReport nodeID report w (Q : result unit -> World -> Prop) :
  (forall w', (forall n, n <> nodeID -> w_interfaces w' !! n = w_interfaces w !! n) ->
    ((exists now, interfaces_of nodeID w' = map (stored_at now) (kept nodeID report)) \/
     refused_report nodeID (kept nodeID report) w w') -> Q (Ok tt) w') ->
  wp (HandleReportInterfaces nodeID (EReportInterfaces (Ok report))) w Q.
Proof.
  intros HQ. unfold HandleReportInterfaces. apply wp_bind, wp_screen; [cbn [length]; lia|]. intros l.
  change (take maxReportedInterfaces _) with (kept nodeID report). apply wp_log_on_error, wp_ReplaceForNode.
  - apply NoDup_kept.
  - eapply Forall_impl; [apply Forall_good|]. by intros r [Hr _].
  - intros e w' Hf Hi Hl. apply HQ; [intros n _; cbn; by rewrite Hi|]. right. split_and!; [exact Hi|apply last_snoc|exact Hf].
  - intros now w' (Hr & Ho & _ & _). apply HQ; [exact Ho|]. left. by exists now.
Qed.

(** A report of an agent replaces the interfaces of that node, and of no
    other, by what the reference keeps: the first 64 acceptable entries of
    distinct names, with an address in the form it parses back from and a
    positive link speed or none.  When the rows could not be stored the old
    ones stay and a line is logged; that takes a failed call, an unregistered
    node or a speed that is no 32-bit integer.  Nothing else changes. *)
Theorem HandleReportInterfaces_spec nodeID report w :
  let rows := kept nodeID report in
  wp (HandleReportInterfaces nodeID (EReportInterfaces (Ok report))) w (fun r w' =>
    r = Ok tt /\ beyond_interfaces w' = beyond_interfaces w /\
    (forall n, n <> nodeID -> w_interfaces w' !! n = w_interfaces w !! n) /\
    ((exists now, interfaces_of nodeID w' = map (stored_at now) rows) \/ refused_report nodeID rows w w')) /\
  (length rows <= 64)%nat /\ NoDup (map InterfaceName rows) /\ Forall (good_row nodeID) rows.
Proof.
  cbv zeta. split; [|split_and!; [unfold kept; rewrite length_take; unfold maxReportedInterfaces; lia|apply NoDup_kept|apply Forall_good]].
  pose proof (wp_preserves beyond_interfaces (HandleReportInterfaces nodeID (EReportInterfaces (Ok report))) w) as Hb.
  refine (wp_mono _ _ _ _ (wp_and _ _ _ _ Hb (wp_HandleReport nodeID report w (fun r w' => r = Ok tt /\
      (forall n, n <> nodeID -> w_interfaces w' !! n = w_interfaces w !! n) /\
      ((exists now, interfaces_of nodeID w' = map (stored_at now) (kept nodeID report)) \/
       refused_report nodeID (kept nodeID report) w w')) _)) _).
  - done.
  - intros r w' (Hb' & Hr & Ho & Hs). done.
Qed.

(** The interfaces of a node as reports leave them. *)
Definition interfaces_wf (w : World) : Prop := forall nodeID,
  (length (interfaces_of nodeID w) <= maxReportedInterfaces)%nat /\
  NoDup (map InterfaceName (interfaces_of nodeID w)) /\ Forall (good_row nodeID) (interfaces_of nodeID w).
Lemma good_stored nodeID now r : good_row nodeID r -> good_row nodeID (stored_at now r).
Proof. done. Qed.
Lemma stored_names now l : map InterfaceName (map (stored_at now) l) = map InterfaceName l.
Proof. by rewrite map_map. Qed.

(** The table of interfaces stays well-formed under any report, and a
    report of what a node's rows say, as an agent whose interfaces did not
    change sends on every connect, leaves the rows as they were but for the
    time: the addresses are stored in a form that is read back. *)
Theorem report_roundtrip nodeID report w : interfaces_wf w ->
  wp (HandleReportInterfaces nodeID (EReportInterfaces (Ok report))) w (fun _ w' =>
    interfaces_wf w' /\
    (report = map reported (interfaces_of nodeID w) ->
     exists now, interfaces_of nodeID w' = map (stored_at now) (interfaces_of nodeID w) \/
                 refused_report nodeID (map (stored_at 0) (interfaces_of nodeID w)) w w')).
Proof.
  intros Hwf. apply wp_HandleReport. intros w' Ho Hs. split.
  - intros n. destruct (decide (n = nodeID)) as [->|Hn]; [|unfold interfaces_of; rewrite Ho by done; apply Hwf].
    destruct Hs as [[now ->]|[Hi _]]; [|unfold interfaces_of; rewrite Hi; apply Hwf].
    rewrite length_map, stored_names. split_and!; [unfold kept; rewrite length_take; lia|apply NoDup_kept|].
    apply List.Forall_map. eapply Forall_impl; [apply Forall_good|]. intros r. apply good_stored.
  - intros ->. destruct (Hwf nodeID) as (Hl & Hnd & Hg).
    assert (Hk : kept nodeID (map reported (interfaces_of nodeID w)) = map (stored_at 0) (interfaces_of nodeID w)).
    { pose proof (kept_reported nodeID 0 _ Hg Hnd Hl) as Hk. rewrite <-Hk at 1. done. }
    rewrite Hk in Hs. destruct Hs as [[now Hs]|Hs]; [|exists 0; by right].
    exists now. left. rewrite Hs, map_map. by apply map_ext.
Qed.
End Frame.

(** A node that reports two interfaces, twice. *)
Definition spark : Node :=
  MkNode "n1" "spark-1" "spark-1.lab" "10.0.0.7" Docker (FDec 128 0) (FDec 128 0) AgentOnline None None 0 None None None None None None "".
Definition one_node (w : World) : World := set_w_nodes {[ "n1" := spark ]} w.
Definition two_nics : list NetworkInterface :=
  [MkNetworkInterface "eth0" "10.0.0.7" (Some 1000); MkNetworkInterface "ib0" "FE80::0:1" None;
   MkNetworkInterface "eth0" "10.0.0.8" None; MkNetworkInterface "bad name" "10.0.0.9" None].
Definition after_report : World :=
  snd (@HandleReportInterfaces quiet_env "n1" (EReportInterfaces (Ok two_nics)) (one_node empty_world)).
Example after_report_rows : map (fun i => (InterfaceName i, IfIPAddress i)) (interfaces_of "n1" after_report)
  = [("eth0", "10.0.0.7"); ("ib0", "fe80::1")].
Proof. vm_compute. reflexivity. Qed.
Lemma after_report_others n : n <> "n1" -> interfaces_of n after_report = [].
Proof.
  intros Hn. unfold interfaces_of. assert (Ho : forall m, m <> "n1" -> w_interfaces after_report !! m = None); [|by rewrite Ho].
  refine (@wp_HandleReport quiet_env "n1" two_nics (one_node empty_world)
    (fun _ w' => forall m, m <> "n1" -> w_interfaces w' !! m = None) _).
  intros w' Ho _ m Hm. by rewrite Ho.
Qed.
Lemma after_report_wf : interfaces_wf after_report.
Proof.
  intros n. destruct (decide (n = "n1")) as [->|Hn].
  - vm_compute (interfaces_of "n1" after_report). split_and!; [cbn; unfold maxReportedInterfaces; lia| |].
    + repeat (constructor; [set_solver|]). constructor.
    + repeat constructor; eexists; split; vm_compute; reflexivity.
  - rewrite (after_report_others n Hn). split_and!; [cbn; lia|constructor|constructor].
Qed.
Lemma report_roundtrip_witness :
  wp (@HandleReportInterfaces quiet_env "n1" (EReportInterfaces (Ok (map reported (interfaces_of "n1" after_report))))) after_report
    (fun _ w' => interfaces_wf w' /\
    (map reported (interfaces_of "n1" after_report) = map reported (interfaces_of "n1" after_report) ->
     exists now, interfaces_of "n1" w' = map (stored_at now) (interfaces_of "n1" after_report) \/
                 refused_report (H := quiet_env) "n1" (map (stored_at 0) (interfaces_of "n1" after_report)) after_report w')).
Proof. apply (@report_roundtrip quiet_env). exact after_report_wf. Defined.

(** ** Which interface a transfer pulls from *)

(** The first of [l] by name among the fastest whose speed is known. *)
Definition fastest_in (l : list NodeNetworkInterface) (i : NodeNetworkInterface) : Prop :=
  i ∈ l /\ exists t, LinkSpeedMbps i = Some t /\
  forall j s, j ∈ l -> LinkSpeedMbps j = Some s -> s <= t /\ (s = t -> by_name i j = true).
Definition no_speed (l : list NodeNetworkInterface) : Prop := forall j, j ∈ l -> LinkSpeedMbps j = None.
Lemma by_name_total x y : by_name x y = false -> by_name y x = true.
Proof. apply string_le_total. Qed.
Lemma by_name_trans x y z : by_name x y = true -> by_name y z = true -> by_name x z = true.
Proof. apply string_le_trans. Qed.
Lemma by_name_refl x : by_name x x = true.
Proof. destruct (by_name x x) eqn:E; [done|]. by apply by_name_total in E as E'; rewrite E in E'. Qed.
Lemma fastest_of_spec l : forall p acc,
  StronglySorted (fun a b => by_name a b = true) (p ++ l) ->
  match acc with Some i => fastest_in p i | None => no_speed p end ->
  match fastest_of l acc with Some i => fastest_in (p ++ l) i | None => no_speed (p ++ l) end.
Proof.
  induction l as [|i l IH]; intros p acc Hs Hacc; [by rewrite app_nil_r|]. cbn [fastest_of].
  replace (p ++ i :: l) with ((p ++ [i]) ++ l) in * by by rewrite <-app_assoc.
  assert (Hle : forall j, j ∈ p -> by_name j i = true).
  { intros j Hj. rewrite <-app_assoc in Hs. apply StronglySorted_app in Hs as (Hs & _ & _). apply (Hs j i Hj). by left. }
  destruct (LinkSpeedMbps i) as [s|] eqn:Es.
  - destruct acc as [f|].
    + destruct Hacc as (Hf & t & Ht & Hbest). rewrite Ht. destruct (t <? s) eqn:Ets; propb; apply IH; [done| |done|].
      * split; [set_solver|]. exists s. split; [done|]. intros j u [Hj| ->%list_elem_of_singleton]%elem_of_app Hu.
        -- destruct (Hbest j u Hj Hu). lia.
        -- rewrite Es in Hu. simplify_eq. split; [lia|intros _; apply by_name_refl].
      * split; [set_solver|]. exists t. split; [done|]. intros j u [Hj| ->%list_elem_of_singleton]%elem_of_app Hu; [by apply Hbest|].
        rewrite Es in Hu. simplify_eq. split; [lia|]. intros _. by apply Hle.
    + apply IH; [done|]. split; [set_solver|]. exists s. split; [done|].
      intros j u [Hj| ->%list_elem_of_singleton]%elem_of_app Hu; [by rewrite (Hacc j Hj) in Hu|].
      rewrite Es in Hu. simplify_eq. split; [lia|intros _; apply by_name_refl].
  - apply IH; [done|]. destruct acc as [f|].
    + destruct Hacc as (Hf & t & Ht & Hbest). split; [set_solver|]. exists t. split; [done|].
      intros j u [Hj| ->%list_elem_of_singleton]%elem_of_app Hu; [by apply Hbest|congruence].
    + intros j [Hj| ->%list_elem_of_singleton]%elem_of_app; [by apply Hacc|done].
Qed.
Lemma find_iface_spec l name :
  match find_iface l name with
  | Some i => i ∈ l /\ InterfaceName i = name
  | None => forall i, i ∈ l -> InterfaceName i <> name
  end.
Proof.
  unfold find_iface. destruct (List.find _ l) as [i|] eqn:E.
  - apply List.find_some in E as [Hin Hb]. by rewrite list_elem_of_In, <-(bool_decide_eq_true (InterfaceName i = name)).
  - intros i Hi Hn. apply list_elem_of_In in Hi. pose proof (List.find_none _ _ E i Hi) as Hb. cbv beta in Hb. by rewrite bool_decide_true in Hb.
Qed.

(** What [ResolveTransferSource] is to return, for an interface of the node. *)
Definition right_choice (l : list NodeNetworkInterface) (node : Node) (override : string) (i : NodeNetworkInterface) : Prop :=
  if bool_decide (override = "") then
    (exists d, NodeDefaultTransferInterface node = Some d /\ InterfaceName i = d) \/
    (forall d, NodeDefaultTransferInterface node = Some d -> forall j, j ∈ l -> InterfaceName j <> d) /\
    (fastest_in l i \/ no_speed l /\ forall j, j ∈ l -> by_name i j = true)
  else InterfaceName i = override.
Lemma fastest_choice l first rest : sort_by by_name l = first :: rest ->
  let i := default first (fastest_of (first :: rest) None) in
  i ∈ l /\ (fastest_in l i \/ no_speed l /\ forall j, j ∈ l -> by_name i j = true).
Proof.
  intros Hs. cbv zeta. assert (Hin : forall i, i ∈ first :: rest <-> i ∈ l) by (intros i; by rewrite <-Hs, elem_of_sort_by).
  pose proof (sort_by_sorted by_name by_name_total by_name_trans l) as Hsort. rewrite Hs in Hsort.
  pose proof (fastest_of_spec (first :: rest) [] None Hsort) as Hfast. cbn [app] in Hfast.
  destruct (fastest_of (first :: rest) None) as [i|]; cbn [default].
  - destruct Hfast as (Hi & t & Ht & Hb); [by intros j ?%elem_of_nil|]. split; [by apply Hin|]. left.
    split; [by apply Hin|]. exists t. split; [done|]. intros j s Hj. apply Hb. by apply Hin.
  - split; [apply Hin; left|]. right. split; [intros j Hj; apply Hfast; [by intros k ?%elem_of_nil|by apply Hin]|].
    intros j Hj. apply Hin, elem_of_cons in Hj as [->|Hj]; [apply by_name_refl|].
    apply StronglySorted_inv in Hsort as [_ Hall]. rewrite Forall_forall in Hall. by apply Hall.
Qed.
Section Resolve.
Context `{Env}.
Definition a_call_failed : Prop := exists n e, fault n = Some e.
Lemma wp_ListByNode nodeID w (Q : result (list NodeNetworkInterface) -> World -> Prop) :
  (forall e, a_call_failed -> Q (Err e) (bump w)) ->
  Q (Ok (sort_by by_name (interfaces_of nodeID w))) (bump w) -> wp (ListByNode_interfaces nodeID) w Q.
Proof.
  intros He Hok. unfold ListByNode_interfaces. apply wp_wrap, wp_query; [|intros _; exact Hok].
  intros e Hf. apply He. by exists (w_calls w), e.
Qed.

(** The source of a peer transfer is an interface the node reports now:
    the one asked for, or else the node's default while it is reported, or
    else the fastest (the first by name of the fastest; the first by name of
    all when no speed is known).  An interface asked for but not reported is
    refused, never replaced, and looking changes nothing. *)
Theorem ResolveTransferSource_spec nodeID override w :
  wp (ResolveTransferSource nodeID override) w (fun r w' =>
    set_w_clock (w_clock w) (set_w_calls (w_calls w) w') = w /\
    match r with
    | Ok src => exists node i, w_nodes w !! nodeID = Some node /\ i ∈ interfaces_of nodeID w /\ src = pick i /\
                  right_choice (interfaces_of nodeID w) node override i
    | Err e => a_call_failed \/
        (e = ErrNodeNotFound /\ w_nodes w !! nodeID = None) \/
        (e = ErrNoInterfaces /\ interfaces_of nodeID w = []) \/
        (e = ErrUnknownInterface /\ override <> "" /\ forall i, i ∈ interfaces_of nodeID w -> InterfaceName i <> override)
    end).
Proof.
  assert (Hself : forall w', w' = bump w \/ w' = bump (bump w) -> set_w_clock (w_clock w) (set_w_calls (w_calls w) w') = w).
  { intros w' [->| ->]; by destruct w. }
  unfold ResolveTransferSource. apply wp_bind, wp_FindByID_node.
  { intros e He. split; [auto|]. left. by exists (w_calls w), e. }
  { intros Hn. split; [auto|]. right; left. done. }
  intros node Hnode. apply wp_bind, wp_wrap, wp_ListByNode; [intros e He; split; [auto|by left]|].
  change (interfaces_of nodeID (bump w)) with (interfaces_of nodeID w). set (l := interfaces_of nodeID w).
  assert (Hin2 : forall i, i ∈ sort_by by_name (sort_by by_name l) <-> i ∈ l) by (intros i; by rewrite !elem_of_sort_by).
  destruct (sort_by by_name (sort_by by_name l)) as [|first rest] eqn:Es.
  { apply wp_throw. split; [auto|]. right; right; left. split; [done|].
    destruct l as [|i l']; [done|]. exfalso. by apply (not_elem_of_nil i), Hin2; left. }
  pose proof (fastest_choice _ _ _ Es) as [Hf Hbest]. set (sorted := first :: rest) in *.
  assert (Hchoice : forall i r, r = right_choice l node override i -> i ∈ sorted -> r -> 
     exists node' i', w_nodes w !! nodeID = Some node' /\ i' ∈ l /\ pick i = pick i' /\ right_choice l node' override i').
  { intros i r -> Hi Hr. exists node, i. split_and!; [done|by apply Hin2|done|done]. }
  case_bool_decide as Ho; cbn [negb].
  - destruct (NodeDefaultTransferInterface node ≫= find_iface sorted) as [i|] eqn:Ed.
    + apply bind_Some in Ed as (d & Hd & Hi). pose proof (find_iface_spec sorted d) as Hs. rewrite Hi in Hs. destruct Hs as [Hs Hn].
      apply wp_ret. split; [auto|]. eapply Hchoice; [done|done|]. unfold right_choice. rewrite bool_decide_true by done. left. by exists d.
    + apply wp_ret. split; [auto|]. eapply Hchoice; [done|apply Hin2; by rewrite elem_of_sort_by in Hf|].
      unfold right_choice. rewrite bool_decide_true by done. right. split.
      * intros d Hd j Hj. rewrite Hd in Ed. cbn [mbind option_bind] in Ed. pose proof (find_iface_spec sorted d) as Hs. rewrite Ed in Hs.
        by apply Hs, Hin2.
      * unfold fastest_in, no_speed in *. setoid_rewrite elem_of_sort_by in Hbest. exact Hbest.
  - pose proof (find_iface_spec sorted override) as Hs. destruct (find_iface sorted override) as [i|].
    + apply wp_ret. split; [auto|]. destruct Hs as [Hi Hn]. eapply Hchoice; [done|done|]. unfold right_choice. by rewrite bool_decide_false.
    + apply wp_throw. split; [auto|]. right; right; right. split_and!; [done|done|]. intros i Hi. by apply Hs, Hin2.
Qed.
End Resolve.

(** ** The credential of a node *)
Lemma node_named_spec name w :
  match node_named name w with
  | Some n => (exists k, w_nodes w !! k = Some n) /\ NodeName n = name
  | None => forall k n, w_nodes w !! k = Some n -> NodeName n <> name
  end.
Proof.
  unfold node_named. destruct (List.find _ _) as [[k n]|] eqn:E; cbn [fmap option_fmap option_map snd].
  - apply List.find_some in E as [Hin Hb%bool_decide_eq_true]. split; [|done]. exists k.
    by apply elem_of_map_to_list, list_elem_of_In.
  - intros k n Hk Hn. apply elem_of_map_to_list, list_elem_of_In in Hk.
    pose proof (List.find_none _ _ E (k, n) Hk) as Hb. cbv beta in Hb. cbn [snd] in Hb. by rewrite bool_decide_true in Hb.
Qed.
Lemma node_named_insert n w w' : w_nodes w' = <[NodeID n := n]> (w_nodes w) ->
  node_named (NodeName n) w = None -> node_named (NodeName n) w' = Some n.
Proof.
  intros Hw Hnone. pose proof (node_named_spec (NodeName n) w) as Hn. rewrite Hnone in Hn.
  pose proof (node_named_spec (NodeName n) w') as Hs. destruct (node_named (NodeName n) w') as [m|].
  - destruct Hs as [[k Hk] Hm]. rewrite Hw, lookup_insert in Hk. case_decide; [done|]. by destruct (Hn k m Hk).
  - exfalso. apply (Hs (NodeID n) n); [|done]. by rewrite Hw, lookup_insert_eq.
Qed.
Section Credential.
Context `{Env} `{RandomSource}.
Lemma wp_Authenticate name n presented w :
  node_named name w = Some n ->
  wp (Authenticate name presented) w (fun r _ =>
    match r with
    | Ok n' => n' = n /\ HashNodeToken presented = NodeBearerTokenHash n
    | Err e => a_call_failed \/ (e = ErrInvalidCredentials /\ HashNodeToken presented <> NodeBearerTokenHash n)
    end).
Proof.
  intros Hn. unfold Authenticate, FindCredentialByName. apply wp_bind, wp_map_err, wp_bind, wp_wrap, wp_query.
  { intros e Hf. left. by exists (w_calls w), e. }
  intros _. change (node_named name (bump w)) with (node_named name w). rewrite Hn. apply wp_ret.
  apply wp_bind, wp_guard; [|intros Hv]; cbn [fst snd].
  - intros Hv%VerifyNodeToken_iff. by apply wp_ret.
  - right. split; [done|]. intros E%VerifyNodeToken_iff. cbn [snd] in Hv. by rewrite E in Hv.
Qed.
Lemma wp_Create_node name host ip b gpu cpu by_ hash w (Q : result Node -> World -> Prop) :
  (forall e, Q (Err e) (bump w)) ->
  (forall n, NodeName n = name -> NodeBearerTokenHash n = hash -> NodeRegisteredBy n = by_ -> w_nodes w !! NodeID n = None ->
    node_named name w = None -> Q (Ok n) (set_w_nodes (<[NodeID n := n]> (w_nodes w)) (bump w))) ->
  wp (Create_node name host ip b gpu cpu by_ hash) w Q.
Proof.
  intros He Hok. unfold Create_node. apply wp_wrap, wp_wrap, wp_sql; [intros; apply He|intros _].
  cbv zeta. set (n := MkNode _ _ _ _ _ _ _ _ _ _ _ _ _ _ _ _ _ _).
  change (w_nodes (bump w)) with (w_nodes w). change (node_named name (bump w)) with (node_named name w).
  destruct (bool_decide (is_Some (w_nodes w !! NodeID n)) || bool_decide (is_Some (node_named name w))) eqn:Ex; [apply He|].
  apply orb_false_iff in Ex as [E1%bool_decide_eq_false E2%bool_decide_eq_false].
  destruct (user_ref_ok by_ (bump w)); [|apply He]. apply Hok; [done|done|done|by apply eq_None_not_Some..].
Qed.

(** A registration that succeeds was permitted, adds one node under a name
    no node had, is audited, and the token it hands out is the credential: the
    server lets in under that name exactly who presents a token with the same
    hash, as the node registered, and nothing it forgets between changes
    that.  One that fails adds no node and no record, unless it is the audit
    record that could not be written: then the node stays, and its token has
    been shown to nobody. *)
Theorem RegisterNode_then_Authenticate actor params w :
  wp (RegisterNode actor params) w (fun r w1 =>
    match r with
    | Ok (n, token) =>
        CanManageNodes actor = true /\ is_ok (validate params) = true /\ NodeName n = rp_Name params /\
        node_named (rp_Name params) w = None /\ w_nodes w1 = <[NodeID n := n]> (w_nodes w) /\
        audited "registered_node" w w1 /\
        (forall presented w2, w_nodes w2 = w_nodes w1 ->
          wp (Authenticate (rp_Name params) presented) w2 (fun r _ =>
            match r with
            | Ok n' => n' = n /\ HashNodeToken presented = HashNodeToken token
            | Err e => a_call_failed \/ (e = ErrInvalidCredentials /\ HashNodeToken presented <> HashNodeToken token)
            end))
    | Err e => w_audit w1 = w_audit w /\
        (w_nodes w1 = w_nodes w \/
         exists n e', a_call_failed /\ w_nodes w1 = <[NodeID n := n]> (w_nodes w) /\ e = Errorf "record audit: " e' "")
    end).
Proof.
  unfold RegisterNode. apply wp_bind, wp_guard; intros Hperm; [|by split; [|left]].
  apply wp_bind. unfold lift. destruct (validate params) as [b|e] eqn:Ev; [apply wp_ret|by apply wp_throw; split; [|left]].
  apply wp_bind, wp_wrap. unfold GenerateNodeToken. apply wp_bind, wp_wrap, wp_query; [by intros e _; split; [|left]|intros _].
  apply wp_ret. set (token := (_ +:+ _)). clearbody token.
  apply wp_bind, wp_wrap, wp_Create_node; [by intros e; split; [|left]|]. intros n Hname Hhash Hby Hfresh Hnone.
  apply wp_bind, wp_wrap, wp_Record.
  - intros e Hf. split; [done|]. right. exists n. eexists. split_and!; [by eexists _, e|done|done].
  - intros _. apply wp_ret. split_and!; try done; [by eexists|].
    intros presented w2 Hw2. rewrite <-Hname. eapply wp_mono; [apply (wp_Authenticate _ n)|by rewrite Hhash].
    apply (node_named_insert n w); [by rewrite Hw2|by rewrite Hname].
Qed.
End Credential.
