(* ===== verification/Inventory.v ===== *)
(** * The model inventory ([internal/inventory/service.go])

    What each node holds, the deletes sent to nodes and their answers.  The
    deletes in flight are kept in memory, under the key [deleteKey]. *)
From stdpp Require Import base list strings gmap.
From Stdlib Require Import ZArith Lia.
From Stdlib Require Import Ascii.
From Stdlib Require String.
From S2P Require Import Prelude Text Json Db Rbac InstanceStore ProfileStore Wire NodeStore.
Local Open Scope string_scope.
Local Open Scope list_scope.
Local Open Scope Z_scope.

Definition ErrModelInUse : error := Sentinel "inventory.ErrModelInUse" "model is still referenced by a profile".
Definition ErrDeleteInProgress : error :=
  Sentinel "inventory.ErrDeleteInProgress" "a delete of this model is already in progress".
Definition ErrNodeOffline : error := Sentinel "inventory.ErrNodeOffline" "node is not connected".
Definition ErrPermissionOverrideNotFound : error :=
  Sentinel "db.ErrPermissionOverrideNotFound" "permission override not found".
Definition DeleteNone : string := "".
Definition DeleteRemoving : string := "removing".
Definition DeleteFailed : string := "failed".
(** [deleteStateTTL], 15 minutes in nanoseconds. *)
Definition deleteStateTTL : Z := 15 * 60 * 1000000000.
Definition maxFailureLen : nat := 200.
Definition format_string (f : ModelFormat) : string :=
  match f with FormatSafetensors => "safetensors" | FormatGGUF => "gguf" end.
Definition format_of (s : string) : option ModelFormat :=
  if bool_decide (s = "safetensors") then Some FormatSafetensors
  else if bool_decide (s = "gguf") then Some FormatGGUF else None.
Definition sep : string := chr 0.
(** The format is the text it has on the wire. *)
Definition deleteKey (nodeID modelRef quantization format : string) : string :=
  nodeID +:+ sep +:+ modelRef +:+ sep +:+ quantization +:+ sep +:+ format.

(** [PermissionOverrideRepository]; the table keeps who granted a capability. *)
Definition CapabilityManageModelStore : string := "manage_model_store".
Section Overrides.
Context `{Env}.
Definition Get_override (userID capability : string) : M string :=
  r ← wrap "scan permission override: " (query (fun w => w_overrides w !! (userID, capability)));
  match r with Some g => mret g | None => throw ErrPermissionOverrideNotFound end.
Definition Grant_override (userID capability grantedBy : string) : M string :=
  wrap "grant permission override: " (wrap "scan permission override: " (sql (fun w =>
    if bool_decide (is_Some (w_users w !! userID)) && bool_decide (is_Some (w_users w !! grantedBy))
    then inr (grantedBy, set_w_overrides (<[(userID, capability) := grantedBy]> (w_overrides w)) w)
    else inl (PgError "23503")))).
Definition Revoke_override (userID capability : string) : M unit :=
  wrap "revoke permission override: "
    (exec (fun w => set_w_overrides (delete (userID, capability) (w_overrides w)) w)).

(** [canManageModelStore], which [internal/inventory] and [internal/transfers]
    each have a copy of. *)
Definition canManageModelStore (actor : Actor) : M bool :=
  hasOverride ← (if negb (IsSuperAdmin actor) && bool_decide (ActorTier actor = TierPowerDev) then
      r ← attempt (Get_override (ActorUserID actor) CapabilityManageModelStore);
      match r with
      | Ok _ => mret true
      | Err e => if errors_Is e "db.ErrPermissionOverrideNotFound" then mret false
                 else throw (Errorf "check manage_model_store override: " e "")
      end
    else mret false);
  mret (CanManageModelStore actor hasOverride).
End Overrides.

(** ** The states a delete is shown in *)
Section Deletes.
Context `{Env}.
Definition setDeleteState (key : string) (d : deleteState) : M unit :=
  modify (fun w => set_w_deletes (<[key := d]> (w_deletes w)) w).
Definition clearDeleteState (key : string) : M unit :=
  modify (fun w => set_w_deletes (delete key (w_deletes w)) w).
Definition DeleteState (nodeID modelRef quantization format : string) : M (string * string) :=
  let key := deleteKey nodeID modelRef quantization format in
  d ← gets (fun w => w_deletes w !! key);
  match d with
  | None => mret (DeleteNone, "")
  | Some d =>
      now ← time_now;
      if deleteStateTTL <? now - ds_at d then clearDeleteState key;; mret (DeleteNone, "")
      else if ds_failed d then mret (DeleteFailed, ds_reason d) else mret (DeleteRemoving, "")
  end.
End Deletes.

(** ** The read views *)
Record Group := MkInvGroup { g_ModelRef : string; g_Quantization : string; g_Format : ModelFormat; g_Entries : list NodeModelInventory }.
Definition same_group (e : NodeModelInventory) (g : Group) : bool :=
  bool_decide (g_ModelRef g = InvModelRef e) && bool_decide (g_Quantization g = InvQuantization e)
  && bool_decide (g_Format g = InvFormat e).
(** [index] and [order] are one list of the groups in the order they are first
    seen. *)
Fixpoint add_entry (e : NodeModelInventory) (gs : list Group) : list Group :=
  match gs with
  | [] => [MkInvGroup (InvModelRef e) (InvQuantization e) (InvFormat e) [e]]
  | g :: gs' =>
      if same_group e g then MkInvGroup (g_ModelRef g) (g_Quantization g) (g_Format g) (g_Entries g ++ [e]) :: gs'
      else g :: add_entry e gs'
  end.
Definition group_entries (entries : list NodeModelInventory) : list Group :=
  fold_left (fun gs e => if bool_decide (InvStatus e = InvRemoved) then gs else add_entry e gs) entries [].

Record SimpleRow := MkSimple { s_ModelRef : string; s_Quantizations : list string; s_TotalSizeBytes : Z; s_IncompleteCount : Z }.
(** One entry of a group into the row of its model; sizes add up as [int64]. *)
Definition simple_entry (quantization : string) (row : SimpleRow) (e : NodeModelInventory) : SimpleRow :=
  if bool_decide (InvStatus e = InvIncomplete) then
    MkSimple (s_ModelRef row) (s_Quantizations row) (s_TotalSizeBytes row) (s_IncompleteCount row + 1)
  else
    MkSimple (s_ModelRef row)
      (if bool_decide (quantization ∈ s_Quantizations row) then s_Quantizations row else s_Quantizations row ++ [quantization])
      (int64 (s_TotalSizeBytes row + InvSizeBytes e)) (s_IncompleteCount row).
Fixpoint add_group (g : Group) (rows : list SimpleRow) : list SimpleRow :=
  match rows with
  | [] => [fold_left (simple_entry (g_Quantization g)) (g_Entries g) (MkSimple (g_ModelRef g) [] 0 0)]
  | r :: rows' =>
      if bool_decide (s_ModelRef r = g_ModelRef g) then fold_left (simple_entry (g_Quantization g)) (g_Entries g) r :: rows'
      else r :: add_group g rows'
  end.
Definition simple_rows (gs : list Group) : list SimpleRow := fold_left (fun rows g => add_group g rows) gs [].

(** [s[:n]] of a string longer than [n]. *)
Definition cut (n : nat) (s : string) : string := if Nat.ltb n (String.length s) then of_bytes (take n (bytes s)) else s.
Definition targets (nodeID modelRef quantization : string) (format : ModelFormat) (p : Profile) : bool :=
  bool_decide (TargetNodeID p = Some nodeID) && bool_decide (ProfModelRef p = modelRef)
  && bool_decide (ProfFormat p = format) && bool_decide (ProfQuantization p = quantization).

Section Service.
Context `{Env}.
Definition ListGrouped : M (list Group) :=
  entries ← wrap "list inventory: " List_inventory; mret (group_entries entries).
Definition ListGroupedSimple : M (list SimpleRow) := gs ← ListGrouped; mret (simple_rows gs).
Definition ListByNode (nodeID : string) : M (list NodeModelInventory) :=
  entries ← wrap ("list inventory for node " +:+ nodeID +:+ ": ") (ListByNode_inventory nodeID);
  mret (List.filter (fun e => negb (bool_decide (InvStatus e = InvRemoved)) && negb (bool_decide (InvStatus e = InvIncomplete))) entries).
Definition Get (nodeID modelRef quantization : string) (format : ModelFormat) : M NodeModelInventory :=
  Get_inventory nodeID modelRef quantization format.
Definition CanDelete (actor : Actor) : M bool := canManageModelStore actor.

Definition Delete (actor : Actor) (nodeID modelRef quantization : string) (format : ModelFormat) : M unit :=
  permitted ← canManageModelStore actor;
  guard_err permitted ErrNotPermitted;;
  entry ← Get_inventory nodeID modelRef quantization format;
  guard_err (negb (bool_decide (InvStatus entry = InvRemoved))) ErrNodeModelInventoryNotFound;;
  let key := deleteKey nodeID modelRef quantization (format_string format) in
  st ← DeleteState nodeID modelRef quantization (format_string format);
  guard_err (negb (bool_decide (st.1 = DeleteRemoving))) ErrDeleteInProgress;;
  profiles ← wrap "list profiles for delete check: " List_profiles_db;
  match List.find (targets nodeID modelRef quantization format) profiles with
  | Some p => throw (Errorf "" ErrModelInUse (": profile " +:+ quote (ProfName p)))
  | None =>
      connected ← Connected nodeID;
      guard_err connected ErrNodeOffline;;
      env ← wrap "build delete_model envelope: " (NewEnvelope (MDeleteModel modelRef quantization (format_string format)));
      wrap ("dispatch delete_model to node " +:+ nodeID +:+ ": ") (Send nodeID env);;
      now ← time_now;
      setDeleteState key (MkDelete now false "");;
      wrap "record audit: " (Record_ (actor_id actor) (IsSuperAdmin actor) "deleted_model_copy" "node" nodeID
        (Some (<["model_ref" := DStr modelRef]> (<["quantization" := DStr quantization]>
           {[ "format" := DStr (format_string format) ]}))))
  end.

(** [SetStatus] with the format as its text: one the enum does not have is
    refused by Postgres. *)
Definition set_removed (nodeID modelRef quantization format : string) : M unit :=
  match format_of format with
  | Some f => SetStatus_inventory nodeID modelRef quantization f InvRemoved
  | None => wrap "set node model inventory status: " (sql (fun w => inl (PgError "22P02")))
  end.
Definition HandleDeleteModelResult (nodeID : string) (env : Envelope) : M unit :=
  match env with
  | EDeleteModelResult (Err _) => logf "inventory: node %s sent a malformed delete_model_result: %v"
  | EDeleteModelResult (Ok res) =>
      let key := deleteKey nodeID (dm_ModelRef res) (dm_Quantization res) (dm_Format res) in
      if negb (dm_Success res) then
        logf "inventory: node %s failed to delete %s (%s, %s): %s";;
        let reason := cut maxFailureLen (dm_Reason res) in
        now ← time_now;
        setDeleteState key (MkDelete now true (if bool_decide (reason = "") then "the node reported a failure" else reason))
      else
        clearDeleteState key;;
        log_on_error "inventory: mark %s removed on node %s: %v"
          (set_removed nodeID (dm_ModelRef res) (dm_Quantization res) (dm_Format res))
  | _ => mret tt
  end.
End Service.
