(* ===== verification/ScheduleRun.v ===== *)
(** * The schedule runner and the global time zone
    ([internal/schedule/runner.go], [internal/schedule/timezone.go])

    [check] decides whether a job is owed and runs it; [Job] is the interface
    the job's owner implements and [JobLaws] what the runner relies on.  The
    time zone service reads and writes the settings row of
    [internal/db/schedule_settings.go].  The zone database is the parameter
    [LoadLocation]. *)
From stdpp Require Import base list strings gmap sorting.
From Stdlib Require Import ZArith Lia.
From Stdlib Require Import Ascii.
From Stdlib Require String.
From S2P Require Import Prelude Db Text GoTime Schedule Rbac.
Local Open Scope string_scope.
Local Open Scope list_scope.
Local Open Scope Z_scope.

(** ** [runner.go] *)
Record State := MkState { Enabled : bool; StateSpec : Spec; Anchor : Time; LastRun : Time }.

(** [Job]: the closures of a recurring task. *)
Record Job (S : Type) := MkJob {
  Load : ST S State;
  Begin : Time -> ST S unit;
  RunJob : Time -> ST S unit
}.
Arguments Load {S}. Arguments Begin {S}. Arguments RunJob {S}. Arguments MkJob {S}.

Section Runner.
Context {S : Type}.

(** [Runner.check], over the zone source and the clock of the runner. *)
Definition check (zone : ST S Location) (now : ST S Time) (job : Job S) : ST S string :=
  r ← attempt (Load job);
  match r with
  | Err e => mret ("load schedule: " +:+ error_text e)
  | Ok state =>
      if negb (Enabled state) then mret ""
      else
        rz ← attempt zone;
        match rz with
        | Err e => mret ("time zone: " +:+ error_text e)
        | Ok loc =>
            t ← now;
            match Latest (StateSpec state) (Anchor state) (LastRun state) t (Some loc) with
            | None => mret ""
            | Some occurrence =>
                rb ← attempt (Begin job t);
                match rb with
                | Err e => mret ("record run start (run skipped): " +:+ error_text e)
                | Ok _ =>
                    rr ← attempt (RunJob job occurrence);
                    match rr with
                    | Err e => mret ("run: " +:+ error_text e)
                    | Ok _ => mret ""
                    end
                end
            end
        end
  end.

(** One round of [Runner.Run]'s loop after its timer: the check, and the last
    problem logged when it changes. *)
Definition run_round (zone : ST S Location) (now : ST S Time) (log : string -> ST S unit) (job : Job S)
    (lastProblem : string) : ST S string :=
  problem ← check zone now job;
  if negb (bool_decide (problem = "")) then
    when (negb (bool_decide (problem = lastProblem))) (log problem) ;; mret problem
  else mret "".

(** What the runner relies on: the job remembers the time its last run began,
    and only [Begin] moves it; [ran] is the sequence of occurrences the job
    was run for, which only [RunJob] extends. *)
Class JobLaws (job : Job S) (zone : ST S Location) (now : ST S Time)
    (last : S -> Time) (ran : S -> list Time) : Prop := {
  Load_last : forall s, wp (Load job) s (fun r s' => last s' = last s /\ ran s' = ran s /\
    match r with Ok st => LastRun st = last s | Err _ => True end);
  Begin_last : forall t s, wp (Begin job t) s (fun r s' => ran s' = ran s /\
    match r with Ok _ => last s' = t | Err _ => last s' = last s end);
  Run_last : forall t s, wp (RunJob job t) s (fun _ s' => last s' = last s /\ ran s' = ran s ++ [t]);
  zone_frame : forall s, wp zone s (fun _ s' => last s' = last s /\ ran s' = ran s);
  now_frame : forall s, wp now s (fun r s' => last s' = last s /\ ran s' = ran s /\ is_ok r = true)
}.

(** A life of the runner: checks, and anything else that leaves the record of
    the last run alone (settings edits, zone changes, the clock set back). *)
Inductive runner_step (job : Job S) zone now (last : S -> Time) (ran : S -> list Time) : S -> S -> Prop :=
| step_check s : runner_step job zone now last ran s (snd (check zone now job s))
| step_other s s' : last s' = last s -> ran s' = ran s -> runner_step job zone now last ran s s'.

Section Laws.
Context (job : Job S) (zone : ST S Location) (now : ST S Time) (last : S -> Time) (ran : S -> list Time).
Context `{!JobLaws job zone now last ran}.

(** Every occurrence run so far was due no later than the last run began. *)
Definition in_order (s : S) : Prop :=
  StronglySorted Z.lt (ran s) /\ Forall (fun t => t <= last s) (ran s).

Lemma check_ran s : wp (check zone now job) s (fun _ s' =>
  (ran s' = ran s /\ (last s' = last s \/ last s <= last s')) \/
  (exists t, last s < t <= last s' /\ ran s' = ran s ++ [t])).
Proof using JobLaws0.
  unfold check. apply wp_bind, wp_attempt. eapply wp_mono; [apply Load_last|].
  intros r s1 (Hl1 & Hr1 & Hst). destruct r as [st|e]; [|wp_auto; left; auto].
  destruct (negb (Enabled st)); [wp_auto; left; auto|].
  apply wp_bind, wp_attempt. eapply wp_mono; [apply zone_frame|].
  intros rz s2 (Hl2 & Hr2). destruct rz as [loc|e]; [|wp_auto; left; split; [|left]; congruence].
  apply wp_bind. eapply wp_mono; [apply now_frame|]. intros rn s3 (Hl3 & Hr3 & Hok).
  destruct rn as [t|]; [|done]. simpl.
  destruct (Latest (StateSpec st) (Anchor st) (LastRun st) t (Some loc)) as [occ|] eqn:HL;
    [|wp_auto; left; split; [|left]; congruence].
  apply Latest_bounds in HL. apply wp_bind, wp_attempt. eapply wp_mono; [apply Begin_last|].
  intros rb s4 (Hr4 & Hl4). destruct rb as [[]|e]; [|wp_auto; left; split; [|left]; congruence].
  apply wp_bind, wp_attempt. eapply wp_mono; [apply Run_last|]. intros rr s5 (Hl5 & Hr5).
  assert (Hgoal : exists t0, last s < t0 <= last s5 /\ ran s5 = ran s ++ [t0]).
  { exists occ. split; [lia|congruence]. }
  destruct rr as [[]|e]; wp_auto; by right.
Qed.

Lemma check_in_order s : in_order s -> in_order (snd (check zone now job s)).
Proof using JobLaws0.
  intros [Hs Hf]. pose proof (check_ran s) as Hc. unfold wp in Hc. unfold in_order.
  destruct Hc as [[-> Hl]|(t & Ht & ->)].
  - split; [done|]. eapply Forall_impl; [exact Hf|]. simpl. lia.
  - rewrite Forall_forall in Hf. split.
    + apply StronglySorted_app. split_and!; [|done|by repeat constructor].
      intros x y Hx ->%list_elem_of_singleton. specialize (Hf x Hx). lia.
    + apply Forall_app. split; [|constructor; [lia|constructor]].
      apply Forall_forall. intros x Hx. specialize (Hf x Hx). lia.
Qed.
End Laws.

(** C3: however often and whenever a job is checked, whatever becomes of its
    schedule, the time zone and the clock in between, and whatever fails, the
    occurrences it is run for are strictly increasing: none is run twice, and
    none older than one already run. *)
Theorem Runner_never_twice job zone now last ran `{!JobLaws job zone now last ran} s s' :
  in_order last ran s -> rtc (runner_step job zone now last ran) s s' -> StronglySorted Z.lt (ran s').
Proof.
  intros Hin Hsteps. enough (in_order last ran s') by (by destruct H).
  induction Hsteps as [|s s1 s2 Hstep _ IH]; [done|]. apply IH.
  destruct Hstep as [s|s s1 Hl Hr]; [by apply check_in_order|].
  unfold in_order in *. by rewrite Hl, Hr.
Qed.
End Runner.

(** ** [timezone.go] and its settings row *)
Definition ErrInvalidTimezone : error := Sentinel "schedule.ErrInvalidTimezone" "invalid time zone".
Definition settingsAuditObjectID : string := "00000000-0000-0000-0000-000000000000".

(** The pattern [[A-Za-z0-9_+\-]+(/[A-Za-z0-9_+\-]+){0,2}]: one to three
    non-empty segments of zone characters. *)
Definition zone_char (c : ascii) : bool := is_alnum c || is_char 95 c || is_char 43 c || is_char 45 c.
Fixpoint zone_segments (l : list ascii) (seg_empty : bool) (slashes : nat) : bool :=
  match l with
  | [] => negb seg_empty
  | c :: l' =>
      if is_char 47 c then
        negb seg_empty && match slashes with O => false | S k => zone_segments l' true k end
      else zone_char c && zone_segments l' false slashes
  end.
Definition zoneNamePattern (name : string) : bool := zone_segments (bytes name) true 2.

(** [time.LoadLocation]: the zone database of the host. *)
Class ZoneDatabase := { LoadLocation : string -> result Location }.

Section Service.
Context `{Env} `{ZoneDatabase}.

Definition ParseTimezone (name : string) : result Location :=
  if bool_decide (name = "") || bool_decide (name = "Local") || (len name >? 64) || negb (zoneNamePattern name) then
    Err (Errorf "" ErrInvalidTimezone
      (": " +:+ quote name +:+ " is not an IANA time zone name such as America/New_York or UTC"))
  else match LoadLocation name with
  | Err _ => Err (Errorf "" ErrInvalidTimezone (": " +:+ quote name +:+ " is not a time zone this server knows"))
  | Ok loc => Ok loc
  end.

(** [ScheduleSettingsRepository.Get] and [Update]; the columns are the zone
    name and who set it. *)
Definition GetSettings : M (string * option string) :=
  wrap "get schedule settings: " (query w_timezone).
Definition UpdateSettings (timezone : string) (updatedBy : option string) : M unit :=
  wrap "update schedule settings: " (exec (set_w_timezone (timezone, updatedBy))).

Definition Settings (actor : Actor) : M (string * option string) :=
  if negb (CanViewSettings actor) then throw ErrNotPermitted
  else wrap "get schedule settings: " GetSettings.

Definition LocationOf : M Location :=
  cfg ← wrap "get schedule settings: " GetSettings;
  wrap "stored time zone: " (fun w => (ParseTimezone cfg.1, w)).

Definition UpdateTimezone (actor : Actor) (name : string) : M unit :=
  if negb (CanViewSettings actor) then throw ErrNotPermitted
  else match ParseTimezone name with
  | Err e => throw e
  | Ok _ =>
      current ← wrap "get current schedule settings: " GetSettings;
      let actorID := actor_id actor in
      wrap "update schedule settings: " (UpdateSettings name actorID) ;;
      r ← attempt (Record_ actorID (IsSuperAdmin actor) "updated_schedule_timezone" "schedule_settings"
             settingsAuditObjectID
             (Some {[ "timezone" := DStr name; "previous_timezone" := DStr current.1 ]}));
      match r with
      | Ok _ => mret tt
      | Err e =>
          let auditErr := Errorf "record audit: " e "" in
          rr ← attempt (UpdateSettings current.1 current.2);
          match rr with
          | Err e2 => throw (revert_failed auditErr e2)
          | Ok _ => throw auditErr
          end
      end
  end.

Lemma ParseTimezone_ok name loc : ParseTimezone name = Ok loc ->
  zoneNamePattern name = true /\ name <> "Local" /\ LoadLocation name = Ok loc.
Proof.
  unfold ParseTimezone. destruct (_ || _) eqn:E; [done|].
  repeat (apply orb_false_iff in E as [E ?]). propb.
  destruct (LoadLocation name) eqn:HL; [|done]. by intros [= ->].
Qed.

Lemma zone_segments_chars l e k : zone_segments l e k = true ->
  Forall (fun c => zone_char c = true \/ is_char 47 c = true) l.
Proof.
  revert e k. induction l as [|c l IH]; intros e k; simpl; [constructor|].
  destruct (is_char 47 c) eqn:E.
  - intros [_ Hr]%andb_true_iff. destruct k; [done|]. constructor; [by right|by eapply IH].
  - intros [Hc Hr]%andb_true_iff. constructor; [by left|by eapply IH].
Qed.

(** A time zone that is set is one this server can load, whose name has
    no dot and does not begin with a slash, was set by someone allowed to, is
    audited once, and is from then on what every schedule is read in; any
    error leaves it as it was with no audit record, unless the error says the
    revert failed too. *)
Theorem UpdateTimezone_spec actor name w :
  wp (UpdateTimezone actor name) w (fun r w' =>
    match r with
    | Ok _ => CanViewSettings actor = true /\ w_timezone w' = (name, actor_id actor) /\
        audited "updated_schedule_timezone" w w' /\
        Forall (fun c => is_char 46 c = false) (bytes name) /\ has_prefix name "/" = false /\
        exists loc, LoadLocation name = Ok loc /\
          wp LocationOf w' (fun r _ => r = Ok loc \/ exists e, fault (w_calls w') = Some e)
    | Err e => w_audit w' = w_audit w /\
        (w_timezone w' = w_timezone w \/ exists a b, e = revert_failed a b)
    end).
Proof.
  unfold UpdateTimezone, GetSettings, UpdateSettings.
  io_auto; try (split; [done|by left]); try (split; [done|right; by do 2 eexists]).
  - split; [done|left]. simpl. by destruct (w_timezone w).
  - match goal with HP : ParseTimezone name = Ok ?l |- _ => rename l into loc; rename HP into Hpz end.
    pose proof (ParseTimezone_ok _ _ Hpz) as (Hpat & _ & Hload).
    propb. split_and!; try done; [by eexists| | |].
    + apply zone_segments_chars in Hpat. eapply Forall_impl; [exact Hpat|].
      intros c. unfold zone_char, is_alnum, is_digit, is_lower, is_upper, in_range, is_char.
      simpl. rewrite Z.eqb_neq. intros Hc Heq. rewrite Heq in Hc. by destruct Hc.
    + destruct name as [|c n]; [done|]. unfold has_prefix. cbn [String.prefix].
      match goal with |- context [ascii_dec ?a ?b] => destruct (ascii_dec a b) as [<-|]; [|done] end.
      vm_compute in Hpat. discriminate.
    + exists loc. split; [done|]. unfold LocationOf, GetSettings. io_auto; eauto.
      unfold wp. simpl. rewrite Hpz. by left.
Qed.
End Service.

(** ** Witnesses *)

(** A job kept in memory: enabled or not, its schedule, when it last ran and
    what it ran for, with the clock. *)
Record MemJob := MkMem { mem_state : State; mem_clock : Time; mem_ran : list Time }.
Definition mem_job : Job MemJob := MkJob
  (gets mem_state)
  (fun t => modify (fun m => MkMem (MkState (Enabled (mem_state m)) (StateSpec (mem_state m))
     (Anchor (mem_state m)) t) (mem_clock m) (mem_ran m)))
  (fun t => modify (fun m => MkMem (mem_state m) (mem_clock m) (mem_ran m ++ [t]))).
Definition mem_zone : ST MemJob Location := mret berlin.
Definition mem_now : ST MemJob Time :=
  modify (fun m => MkMem (mem_state m) (mem_clock m + hour) (mem_ran m)) ;; gets mem_clock.
Definition mem_last (m : MemJob) : Time := LastRun (mem_state m).

#[export] Instance mem_laws : JobLaws mem_job mem_zone mem_now mem_last mem_ran.
Proof. by constructor; unfold wp; simpl. Qed.

(** Checked twice in a row after the clocks went forward: it runs once. *)
Lemma Runner_never_twice_witness :
  let m := MkMem (MkState true sundays saved saved) spring [] in
  let m1 := snd (check mem_zone mem_now mem_job m) in
  let m2 := snd (check mem_zone mem_now mem_job m1) in
  mem_ran m2 = [spring] /\ StronglySorted Z.lt (mem_ran m2).
Proof.
  cbv zeta. split; [vm_compute; reflexivity|].
  eapply (Runner_never_twice mem_job mem_zone mem_now mem_last mem_ran
    (MkMem (MkState true sundays saved saved) spring [])).
  - split; constructor.
  - eapply rtc_l; [apply step_check|]. eapply rtc_l; [apply step_check|]. apply rtc_refl.
Defined.
