(* ===== verification/AlertRaiser.v ===== *)
(** * What the alert inbox promises its producers

    [RaiseParams] and the interface the producers ([internal/lifecycle],
    [internal/stalecontainers]) see of [internal/alerts]: raise, resolve, and
    that nothing but the alert tables moves.  [Alerts.v] discharges it. *)
From stdpp Require Import base list strings gmap.
From Stdlib Require Import ZArith Lia.
From Stdlib Require String.
From S2P Require Import Prelude Db.
Local Open Scope Z_scope.

Record RaiseParams := MkRaise {
  RKind : string; RSeverity : AlertSeverity; RTitle : string; RBody : string;
  RObjectType : string; RObjectID : string; RDedupeKey : string; RAudiences : list AlertAudience
}.
Record RaiseResult := MkRaiseResult { RAlert : Alert; Created : bool; Escalated : bool }.

(** Everything in the world but the alert tables, the events, the log and the
    bookkeeping of external calls. *)
Definition beyond_alerts (w : World) :=
  (w_users w, w_overrides w, w_audit w, w_sent w, w_groups w, w_admaps w, w_locals w, w_member w,
   w_instances w, w_profiles w, w_transfers w, w_inventory w, w_nodes w, w_interfaces w, w_alert_retention w, w_timezone w, w_stale w,
   w_deletes w, w_checks w, w_lists w, w_removes w, w_engines w, w_scans w, w_archive w).

Class AlertRaiser := {
  Raise : RaiseParams -> M RaiseResult;
  ResolveCondition : string -> M Z;
  ResolveConditionsExcept : string -> list string -> M Z;
  Raise_frame : forall p, Preserves beyond_alerts (Raise p);
  ResolveCondition_frame : forall k, Preserves beyond_alerts (ResolveCondition k);
  ResolveConditionsExcept_frame : forall p k, Preserves beyond_alerts (ResolveConditionsExcept p k)
}.
#[export] Existing Instance Raise_frame.
#[export] Existing Instance ResolveCondition_frame.
#[export] Existing Instance ResolveConditionsExcept_frame.

(** A part of the world that is beyond the alerts is untouched too. *)
Lemma beyond_part {A B} (f : World -> B) (m : M A) : Preserves beyond_alerts m ->
  (forall w w', beyond_alerts w = beyond_alerts w' -> f w = f w') -> Preserves f m.
Proof. intros Hm Hf w. apply Hf, Hm. Qed.
#[export] Hint Extern 3 (Preserves _ (Raise _)) =>
  (eapply beyond_part; [apply Raise_frame | by intros ? ? [=]]) : typeclass_instances.
#[export] Hint Extern 3 (Preserves _ (ResolveCondition _)) =>
  (eapply beyond_part; [apply ResolveCondition_frame | by intros ? ? [=]]) : typeclass_instances.
#[export] Hint Extern 3 (Preserves _ (ResolveConditionsExcept _ _)) =>
  (eapply beyond_part; [apply ResolveConditionsExcept_frame | by intros ? ? [=]]) : typeclass_instances.

(** ** What a raise and a close do, to the eyes of a producer *)

(** An alert with the dedupe key is open. *)
Definition key_open (w : World) (k : string) : Prop :=
  exists id a, w_alerts w !! id = Some a /\ ADedupeKey a = Some k /\ ResolvedAt a = None.

(** The open alert a raise stands for: its severity, title and body, and at
    least its audiences. *)
Definition alert_raised (p : RaiseParams) (w : World) : Prop :=
  exists id a, w_alerts w !! id = Some a /\ ADedupeKey a = Some (RDedupeKey p) /\ ResolvedAt a = None /\
    ASeverity a = RSeverity p /\ ATitle a = RTitle p /\ ABody a = RBody p /\
    forall au, au ∈ RAudiences p -> au ∈ default [] (w_audiences w !! id).

Definition alert_tables (w : World) := (w_alerts w, w_audiences w, w_ustate w).

(** The laws a producer's theorems are proved from: there is an invariant of
    the alert tables that nothing else disturbs; a raise that succeeds leaves
    its alert open and opens no other key; a close that succeeds leaves no open
    alert with the key and closes no other; what fails changes no key; the log
    only grows. *)
Class AlertRaiserLaws `{Env} `{AlertRaiser} := {
  Raise_logs : forall p w, w_logs w `prefix_of` w_logs (snd (Raise p w));
  ResolveCondition_logs : forall k w, w_logs w `prefix_of` w_logs (snd (ResolveCondition k w));
  ResolveConditionsExcept_logs : forall p k w, w_logs w `prefix_of` w_logs (snd (ResolveConditionsExcept p k w));
  raiser_inv : World -> Prop;
  raiser_inv_frame : forall w w', w_clock w <= w_clock w' -> alert_tables w' = alert_tables w ->
    raiser_inv w -> raiser_inv w';
  Raise_law : forall p w, raiser_inv w -> wp (Raise p) w (fun r w' => raiser_inv w' /\
    match r with
    | Ok _ => (RDedupeKey p <> "" -> alert_raised p w') /\
        forall k, key_open w' k <-> key_open w k \/ (k = RDedupeKey p /\ k <> "")
    | Err _ => alert_tables w' = alert_tables w
    end)%string;
  ResolveCondition_law : forall key w, raiser_inv w -> wp (ResolveCondition key) w (fun r w' =>
    raiser_inv w' /\
    match r with
    | Ok _ => forall k, key_open w' k <-> key_open w k /\ k <> key
    | Err _ => alert_tables w' = alert_tables w
    end);
  ResolveConditionsExcept_law : forall prefix keep w, raiser_inv w ->
    wp (ResolveConditionsExcept prefix keep) w (fun r w' => raiser_inv w' /\
    match r with
    | Ok _ => forall k, key_open w' k <-> key_open w k /\ ~ (String.prefix prefix k = true /\ k ∉ keep)
    | Err _ => alert_tables w' = alert_tables w
    end)
}.

Lemma key_open_tables w w' k : alert_tables w' = alert_tables w -> key_open w' k <-> key_open w k.
Proof. intros [= Ha _ _]. unfold key_open. by rewrite Ha. Qed.
