(* ===== verification/AlertStore.v ===== *)
(** * The alert tables ([internal/db/alerts.go], [internal/db/alert_settings.go])

    The rows of [alerts], [alert_audiences] and [alert_user_state], who sees an
    alert, and the statements of [AlertRepository]. *)
From stdpp Require Import base list strings gmap.
From Stdlib Require Import ZArith Lia.
From Stdlib Require Import Ascii.
From Stdlib Require String.
From S2P Require Import Prelude Db Text AlertRaiser.
Local Open Scope string_scope.
Local Open Scope list_scope.
Local Open Scope Z_scope.

(** [AlertSeverity.Rank] *)
Definition Rank (s : AlertSeverity) : Z :=
  match s with AlertSeverityInfo => 1 | AlertSeverityWarning => 2 | AlertSeverityCritical => 3 end.

Inductive AlertListView := AlertViewUnread | AlertViewAll | AlertViewResolved.
Definition ErrAlertNotFound : error := Sentinel "db.ErrAlertNotFound" "alert not found".

Record AlertViewer := MkViewer { ViewerUserID : string; ViewerTier : Tier }.
Record AlertView := MkView { VAlert : Alert; VReadAt : option Time }.
Record NewAlert := MkNewAlert {
  NKind : string; NSeverity : AlertSeverity; NTitle : string; NBody : string;
  NObjectType : option string; NObjectID : option string; NDedupeKey : option string;
  NAudiences : list AlertAudience
}.

(** ** Who sees an alert: [visibleAlerts] *)

(** [viewerUserArg]: NULL for the SuperAdmin. *)
Definition viewerUserArg (v : AlertViewer) : option string :=
  if bool_decide (ViewerUserID v = "") then None else Some (ViewerUserID v).

(** The two ways of being a member of an application group: a local account
    added by hand, or the membership cache has the person in a mapped AD group,
    whatever the case of its name. *)
Definition group_member (w : World) (group user : string) : bool :=
  bool_decide (is_Some (w_locals w !! (group, user))) ||
  existsb (fun kd : (string * string) * AppGroupADMapping =>
    bool_decide (kd.1.1 = group) &&
    existsb (fun c : string * string => bool_decide (c.1 = user) && equal_fold c.2 kd.1.2) (elements (w_member w)))
    (map_to_list (w_admaps w)).

Definition audience_matches (w : World) (user : option string) (tier : Tier) (au : AlertAudience) : bool :=
  match au with
  | AudienceUser u => bool_decide (user = Some u)
  | AudienceTier t => tier_rank t <=? tier_rank tier
  | AudienceGroup g => match user with Some u => group_member w g u | None => false end
  end.

Definition audiences_of (w : World) (id : string) : list AlertAudience := default [] (w_audiences w !! id).

(** The viewer's row of [alert_user_state], all NULL when there is none. *)
Definition user_state (w : World) (user : option string) (id : string) : UserState :=
  match user with
  | Some u => default (MkUserState None None) (w_ustate w !! (id, u))
  | None => MkUserState None None
  end.

(** [FROM visibleAlerts]: the alerts a viewer sees, each with its read time. *)
Definition visibleAlerts (v : AlertViewer) (w : World) : gmap string AlertView :=
  map_imap (fun id a =>
    let st := user_state w (viewerUserArg v) id in
    if bool_decide (DismissedAt st = None)
       && existsb (audience_matches w (viewerUserArg v) (ViewerTier v)) (audiences_of w id)
    then Some (MkView a (ReadAt st)) else None) (w_alerts w).

(** ** LIKE *)
Definition escape_char (c : ascii) : list ascii :=
  if is_char 92 c || is_char 37 c || is_char 95 c then [ascii_of_N 92; c] else [c].
Definition escapeLike (s : string) : string := of_bytes (concat (map escape_char (bytes s))).

(** [text LIKE pattern ESCAPE '\']: a percent sign is any sequence, an
    underscore any one character, an escaped character itself. *)
Fixpoint like (pat s : list ascii) {struct pat} : bool :=
  match pat with
  | [] => match s with [] => true | _ => false end
  | c :: pat' =>
      if is_char 37 c then
        (fix any (s : list ascii) : bool :=
           like pat' s || match s with [] => false | _ :: s' => any s' end) s
      else if is_char 95 c then match s with [] => false | _ :: s' => like pat' s' end
      else if is_char 92 c then
        match pat', s with
        | e :: pat'', x :: s' => bool_decide (e = x) && like pat'' s'
        | _, _ => false
        end
      else match s with x :: s' => bool_decide (c = x) && like pat' s' | [] => false end
  end.

(** ** The statements of [AlertRepository] *)
Section Repository.
Context `{Env}.

Definition is_open (a : Alert) : bool := bool_decide (ResolvedAt a = None).
Definition open_with_key (k : string) (a : Alert) : bool := bool_decide (ADedupeKey a = Some k) && is_open a.

(** The open alert a dedupe key finds; the partial unique index allows one. *)
Definition find_open (k : string) (w : World) : option Alert :=
  snd <$> List.find (fun ia : string * Alert => open_with_key k ia.2) (map_to_list (w_alerts w)).

Definition upd_alert (id : string) (f : Alert -> Alert) (w : World) : World :=
  set_w_alerts (alter f id (w_alerts w)) w.

Definition repeat_alert (now : Time) (in_ : NewAlert) (a : Alert) : Alert :=
  set_ABody (NBody in_) (set_ATitle (NTitle in_) (set_ASeverity (NSeverity in_)
    (set_Occurrences (Occurrences a + 1) (set_LastRaisedAt now a)))).
Definition fresh_alert (id : string) (now : Time) (in_ : NewAlert) : Alert :=
  MkAlert id (NKind in_) (NSeverity in_) (NTitle in_) (NBody in_) (NObjectType in_) (NObjectID in_)
    (NDedupeKey in_) now now 1 None None None.
(** [read_at = NULL] in every viewer's row of the alert. *)
Definition unread_all (id : string) (w : World) : World :=
  set_w_ustate (map_imap (fun k st =>
    Some (if bool_decide (k.1 = id) then MkUserState None (DismissedAt st) else st)) (w_ustate w)) w.

(** The insert of a new row; the primary key and the partial unique index of
    open keys refuse a clash. *)
Definition insert_alert (now : Time) (in_ : NewAlert) : M Alert :=
  sql (fun w =>
    let id := gen_random_uuid (w_calls w) in
    let a := fresh_alert id now in_ in
    if bool_decide (is_Some (w_alerts w !! id))
       || match NDedupeKey in_ with Some k => bool_decide (is_Some (find_open k w)) | None => false end
    then inl (PgError "23505")
    else inr (a, set_w_audiences (<[id := []]> (w_audiences w)) (set_w_alerts (<[id := a]> (w_alerts w)) w))).

(** [INSERT INTO alert_audiences ... ON CONFLICT DO NOTHING]; that the user or
    group exists, which the table's references ask, is not looked at: like any
    failure of a statement theirs is one of [fault]. *)
Definition add_audience (id : string) (au : AlertAudience) (w : World) : World :=
  if bool_decide (au ∈ audiences_of w id) then w
  else set_w_audiences (<[id := audiences_of w id ++ [au]]> (w_audiences w)) w.
Fixpoint insert_audiences (id : string) (auds : list AlertAudience) : M unit :=
  match auds with
  | [] => mret tt
  | au :: auds' => wrap "insert alert audience: " (exec (add_audience id au)) ;; insert_audiences id auds'
  end.

Definition raiseOnce (in_ : NewAlert) : M RaiseResult :=
  transaction "begin raise alert: " "commit raise alert: " (fun now =>
    existing ← match NDedupeKey in_ with
               | None => mret None
               | Some k => wrap "look up open alert by dedupe key: " (query (find_open k))
               end;
    match existing with
    | Some old =>
        let escalated := Rank (NSeverity in_) >? Rank (ASeverity old) in
        let alert := repeat_alert now in_ old in
        wrap "update open alert: " (exec (upd_alert (AlertID old) (repeat_alert now in_))) ;;
        when escalated (wrap "mark escalated alert unread: " (exec (unread_all (AlertID old)))) ;;
        insert_audiences (AlertID old) (NAudiences in_) ;;
        mret (MkRaiseResult alert false escalated)
    | None =>
        alert ← wrap "insert alert: " (insert_alert now in_);
        insert_audiences (AlertID alert) (NAudiences in_) ;;
        mret (MkRaiseResult alert true false)
    end).

(** Whether [Raise]'s loop goes round again: a lost race on the key. *)
Definition lost_race (in_ : NewAlert) (r : result RaiseResult) : bool :=
  match r with
  | Err e => bool_decide (is_Some (NDedupeKey in_)) && is_pg_code e "23505"
  | Ok _ => false
  end.
Fixpoint raise_attempts (n : nat) (in_ : NewAlert) : M RaiseResult :=
  match n with
  | O => throw (Opaque ("raise alert " +:+ quote (default "" (NDedupeKey in_)) +:+ ": lost the dedupe race twice"))
  | S n' =>
      r ← attempt (raiseOnce in_);
      if lost_race in_ r then raise_attempts n' in_
      else match r with Ok res => mret res | Err e => throw e end
  end.
Definition Raise_db (in_ : NewAlert) : M RaiseResult := raise_attempts 2 in_.

(** [UPDATE alerts SET resolved_at = now(), resolution = 'cleared' WHERE p RETURNING id] *)
Definition cleared (now : Time) (a : Alert) : Alert :=
  set_Resolution (Some AlertResolutionCleared) (set_ResolvedAt (Some now) a).
Definition clear_where (p : Alert -> bool) : M (list string) :=
  sql (fun w => inr (map fst (map_to_list (filter (fun ia : string * Alert => p ia.2 = true) (w_alerts w))),
    set_w_alerts ((fun a => if p a then cleared (w_clock w) a else a) <$> w_alerts w) w)).

Definition ResolveByDedupeKey (dedupeKey : string) : M (list string) :=
  wrap "resolve alert by dedupe key: " (clear_where (open_with_key dedupeKey)).

Definition has_key_prefix (prefix : string) (keep : list string) (a : Alert) : bool :=
  match ADedupeKey a with
  | Some k => like (bytes (escapeLike prefix +:+ "%")) (bytes k) && is_open a && negb (bool_decide (k ∈ keep))
  | None => false
  end.
Definition ResolveByKeyPrefixExcept (prefix : string) (keep : list string) : M (list string) :=
  wrap "resolve alerts by key prefix: " (clear_where (has_key_prefix prefix keep)).

Definition user_resolved (now : Time) (by_ : option string) (a : Alert) : Alert :=
  set_Resolution (Some AlertResolutionUser) (set_ResolvedBy by_ (set_ResolvedAt (Some now) a)).
Definition ResolveByUser (id : string) (resolvedBy : option string) : M bool :=
  wrap "resolve alert: " (sql (fun w =>
    match w_alerts w !! id with
    | Some a => if is_open a then inr (true, upd_alert id (user_resolved (w_clock w) resolvedBy) w) else inr (false, w)
    | None => inr (false, w)
    end)).

Definition reopened (a : Alert) : Alert := set_Resolution None (set_ResolvedBy None (set_ResolvedAt None a)).
(** [Reopen]: the partial unique index refuses to reopen an alert whose key
    another open alert has taken meanwhile. *)
Definition Reopen (id : string) : M unit :=
  wrap "reopen alert: " (sql (fun w =>
    match w_alerts w !! id with
    | Some a =>
        if match ADedupeKey a with
           | Some k => existsb (fun ia : string * Alert => open_with_key k ia.2 && negb (bool_decide (ia.1 = id)))
                         (map_to_list (w_alerts w))
           | None => false
           end
        then inl (PgError "23505")
        else inr (tt, upd_alert id reopened w)
    | None => inr (tt, w)
    end)).

Definition FindVisible (viewer : AlertViewer) (id : string) : M AlertView :=
  r ← wrap "find alert: " (query (fun w => visibleAlerts viewer w !! id));
  match r with Some v => mret v | None => throw ErrAlertNotFound end.

Definition view_filter (view : AlertListView) (v : AlertView) : bool :=
  match view with
  | AlertViewUnread => is_open (VAlert v) && bool_decide (VReadAt v = None)
  | AlertViewResolved => negb (is_open (VAlert v))
  | AlertViewAll => true
  end.
(** [ORDER BY last_raised_at DESC, id] *)
Definition newest_first (x y : string * AlertView) : bool :=
  if LastRaisedAt (VAlert x.2) =? LastRaisedAt (VAlert y.2) then string_le x.1 y.1
  else LastRaisedAt (VAlert y.2) <? LastRaisedAt (VAlert x.2).
Definition listed (view : AlertListView) (limit : Z) (views : gmap string AlertView) : list AlertView :=
  take (Z.to_nat limit) (map snd (sort_by newest_first
    (List.filter (fun iv => view_filter view iv.2) (map_to_list views)))).
Definition ListVisible (viewer : AlertViewer) (view : AlertListView) (limit : Z) : M (list AlertView) :=
  wrap "list alerts: " (query (fun w => listed view limit (visibleAlerts viewer w))).

Definition unread_views (views : gmap string AlertView) : list string :=
  map fst (List.filter (fun iv => view_filter AlertViewUnread iv.2) (map_to_list views)).
Definition CountUnread (viewer : AlertViewer) : M Z :=
  if bool_decide (ViewerUserID viewer = "") then mret 0
  else wrap "count unread alerts: " (query (fun w => Z.of_nat (length (unread_views (visibleAlerts viewer w))))).

Definition Audiences (alertID : string) : M (list AlertAudience) :=
  wrap "list alert audiences: " (query (fun w => audiences_of w alertID)).

(** The upserts of [alert_user_state]: whether a row was written.  The foreign
    key refuses a row for an alert that is not there. *)
Definition set_state (userID alertID : string) (st : UserState) (w : World) : World :=
  set_w_ustate (<[(alertID, userID) := st]> (w_ustate w)) w.
Definition MarkRead_db (userID alertID : string) : M bool :=
  wrap "mark alert read: " (sql (fun w =>
    let st := user_state w (Some userID) alertID in
    match ReadAt st with
    | Some _ => inr (false, w)
    | None =>
        if bool_decide (w_alerts w !! alertID = None) then inl (PgError "23503")
        else inr (true, set_state userID alertID (MkUserState (Some (w_clock w)) (DismissedAt st)) w)
    end)).
Definition MarkUnread_db (userID alertID : string) : M bool :=
  wrap "mark alert unread: " (sql (fun w =>
    let st := user_state w (Some userID) alertID in
    match ReadAt st with
    | Some _ => inr (true, set_state userID alertID (MkUserState None (DismissedAt st)) w)
    | None => inr (false, w)
    end)).
Definition Dismiss_db (userID alertID : string) : M bool :=
  wrap "dismiss alert: " (sql (fun w =>
    let st := user_state w (Some userID) alertID in
    match DismissedAt st with
    | Some _ => inr (false, w)
    | None =>
        if bool_decide (w_alerts w !! alertID = None) then inl (PgError "23503")
        else inr (true, set_state userID alertID (MkUserState (ReadAt st) (Some (w_clock w))) w)
    end)).
Definition RestoreDismissed (userID alertID : string) : M unit :=
  wrap "restore dismissed alert: " (exec (fun w =>
    match w_ustate w !! (alertID, userID) with
    | Some st => set_state userID alertID (MkUserState (ReadAt st) None) w
    | None => w
    end)).

(** One statement marks every open unread alert the viewer sees. *)
Definition mark_ids (userID : string) (now : Time) (ids : list string) (w : World) : World :=
  fold_right (fun id w => set_state userID id
    (MkUserState (Some now) (DismissedAt (user_state w (Some userID) id))) w) w ids.
Definition MarkAllRead_db (viewer : AlertViewer) : M (list string) :=
  if bool_decide (ViewerUserID viewer = "") then mret []
  else wrap "mark all alerts read: " (sql (fun w =>
    let ids := unread_views (visibleAlerts viewer w) in
    inr (ids, mark_ids (ViewerUserID viewer) (w_clock w) ids w))).

(** [DELETE FROM alerts WHERE last_raised_at < cutoff]; the audiences, the
    per-user state and the alerts that wait for a digest go with the rows. *)
Definition expired (cutoff : Time) (a : Alert) : bool := LastRaisedAt a <? cutoff.
Definition DeleteOlderThan (cutoff : Time) : M Z :=
  wrap "delete expired alerts: " (sql (fun w =>
    let gone := filter (fun ia : string * Alert => expired cutoff ia.2 = true) (w_alerts w) in
    inr (Z.of_nat (size gone),
      set_w_email (set_em_digest (filter (fun kd : (string * string) * DigestRow => gone !! kd.1.2 = None) (em_digest (w_email w))) (w_email w))
      (set_w_ustate (filter (fun ks : (string * string) * UserState => gone !! ks.1.1 = None) (w_ustate w))
      (set_w_audiences (filter (fun ia : string * list AlertAudience => gone !! ia.1 = None) (w_audiences w))
      (set_w_alerts (filter (fun ia : string * Alert => expired cutoff ia.2 = false) (w_alerts w)) w)))))).

(** [AlertSettingsRepository] *)
Definition GetAlertSettings : M (Z * option string) := wrap "get alert settings: " (query w_alert_retention).
Definition UpdateAlertSettings (retentionMonths : Z) (updatedBy : option string) : M unit :=
  wrap "update alert settings: " (exec (set_w_alert_retention (retentionMonths, updatedBy))).
End Repository.
