(* ===== verification/AlertFacts.v ===== *)
(** * Facts about the alert tables

    The well-formedness of the tables and that every statement of
    [AlertStore.v] keeps it, the audiences and states a statement leaves, and
    what a LIKE pattern made by [escapeLike] matches. *)
From stdpp Require Import base list strings gmap.
From Stdlib Require Import ZArith Lia.
From Stdlib Require Import Ascii.
From Stdlib Require String.
From S2P Require Import Prelude Db Text AlertRaiser AlertStore.
Local Open Scope string_scope.
Local Open Scope list_scope.
Local Open Scope Z_scope.

(** ** Well-formed alert tables *)
Record alert_ok (now : Time) (id : string) (a : Alert) : Prop := {
  ok_id : AlertID a = id;
  ok_resolution : ResolvedAt a = None <-> Resolution a = None;
  ok_unresolved : ResolvedAt a = None -> ResolvedBy a = None;
  ok_resolver : ResolvedBy a <> None -> Resolution a = Some AlertResolutionUser;
  ok_occurrences : 1 <= Occurrences a;
  ok_raised : FirstRaisedAt a <= LastRaisedAt a <= now
}.

Record alerts_wf (w : World) : Prop := {
  wf_rows : map_Forall (alert_ok (w_clock w)) (w_alerts w);
  wf_open : forall id1 id2 a1 a2 k, w_alerts w !! id1 = Some a1 -> w_alerts w !! id2 = Some a2 ->
    open_with_key k a1 = true -> open_with_key k a2 = true -> id1 = id2;
  wf_audiences : forall id, is_Some (w_audiences w !! id) -> is_Some (w_alerts w !! id);
  wf_audience_set : map_Forall (fun _ l => NoDup l) (w_audiences w);
  wf_state : forall id u, is_Some (w_ustate w !! (id, u)) -> is_Some (w_alerts w !! id)
}.

Lemma alert_ok_later now now' id a : now <= now' -> alert_ok now id a -> alert_ok now' id a.
Proof. intros ? []. constructor; auto. lia. Qed.

(** Well-formedness only reads the alert tables and needs the clock not to go
    back. *)
Lemma alerts_wf_frame w w' : w_clock w <= w_clock w' -> w_alerts w' = w_alerts w ->
  w_audiences w' = w_audiences w -> w_ustate w' = w_ustate w -> alerts_wf w -> alerts_wf w'.
Proof.
  intros Hc Ha Hd Hs [H1 H2 H3 H5 H4]. constructor; rewrite ?Ha, ?Hd, ?Hs; auto.
  intros id a Hl. eapply alert_ok_later; [exact Hc|]. by apply H1.
Qed.

Lemma open_with_key_iff k a : open_with_key k a = true <-> ADedupeKey a = Some k /\ ResolvedAt a = None.
Proof. unfold open_with_key, is_open. by rewrite andb_true_iff, !bool_decide_eq_true. Qed.

Lemma find_open_Some k w a : alerts_wf w -> find_open k w = Some a ->
  w_alerts w !! AlertID a = Some a /\ open_with_key k a = true.
Proof.
  intros Hwf. unfold find_open. rewrite fmap_Some. intros ([id a'] & Hf & ->).
  apply List.find_some in Hf as [Hin Ho]. apply list_elem_of_In, elem_of_map_to_list in Hin. simpl in *.
  split; [|done]. by rewrite (ok_id _ _ _ (wf_rows w Hwf id a' Hin)).
Qed.
Lemma find_open_None k w id a : find_open k w = None -> w_alerts w !! id = Some a -> open_with_key k a = false.
Proof.
  unfold find_open. rewrite fmap_None. intros Hf Hl.
  apply (List.find_none _ _ Hf (id, a)), list_elem_of_In, elem_of_map_to_list, Hl.
Qed.

(** Changing one row. *)
Lemma alerts_wf_alter id f w : alerts_wf w ->
  (forall a, w_alerts w !! id = Some a -> alert_ok (w_clock w) id (f a)) ->
  (forall a k id2 a2, w_alerts w !! id = Some a -> open_with_key k (f a) = true ->
     w_alerts w !! id2 = Some a2 -> open_with_key k a2 = true -> id2 = id) ->
  alerts_wf (upd_alert id f w).
Proof.
  intros [H1 H2 H3 H5 H4] Hok Hkey. constructor; simpl.
  - intros i a. rewrite lookup_alter. case_decide; subst; [|apply H1].
    rewrite fmap_Some. intros (a0 & Ha0 & ->). by apply Hok.
  - intros id1 id2 a1 a2 k. rewrite !lookup_alter.
    case_decide as E1; case_decide as E2; subst; try done; [| |by apply H2]; rewrite ?fmap_Some.
    + intros (a0 & Ha0 & ->) Hl2 Ho1 Ho2. symmetry. by apply (Hkey a0 k id2 a2).
    + intros Hl1 (a0 & Ha0 & ->) Ho1 Ho2. by apply (Hkey a0 k id1 a1).
  - intros i Hi. rewrite lookup_alter. case_decide; subst; [|by apply H3]. rewrite fmap_is_Some. by apply H3.
  - done.
  - intros i u Hi. rewrite lookup_alter. case_decide; subst; [|by eapply H4]. rewrite fmap_is_Some. by eapply H4.
Qed.

Section Keeps.
Context `{Env}.

#[global] Instance alerts_wf_stable : Stable alerts_wf.
Proof.
  constructor; intros; match goal with Hw : alerts_wf ?w |- _ =>
    apply (alerts_wf_frame w); [simpl; lia|reflexivity..|exact Hw] end.
Qed.

Lemma cleared_ok now id a : alert_ok now id a -> is_open a = true -> alert_ok now id (cleared now a).
Proof.
  intros [] Ho. unfold is_open in Ho. propb. constructor; simpl; auto; try done.
  intros Hr. by destruct Hr, ok_unresolved0.
Qed.
Lemma keeps_clear_where p : (forall a, p a = true -> is_open a = true) -> Keeps alerts_wf (clear_where p).
Proof.
  intros Hp. apply keeps_sql; [apply _|]. intros w [H1 H2 H3 H5 H4].
  assert (Hop : forall k a, open_with_key k (if p a then cleared (w_clock w) a else a) = true -> open_with_key k a = true).
  { intros k a. destruct (p a); [|done]. unfold open_with_key, is_open. simpl. by rewrite andb_false_r. }
  constructor; simpl.
  - intros id a. rewrite lookup_fmap, fmap_Some. intros (a0 & Ha0 & ->).
    destruct (p a0) eqn:E; [|by apply H1]. apply cleared_ok; [by apply H1|by apply Hp].
  - intros id1 id2 a1 a2 k. rewrite !lookup_fmap, !fmap_Some.
    intros (b1 & Hb1 & ->) (b2 & Hb2 & ->) Ho1%Hop Ho2%Hop. by eapply H2.
  - intros id Hi. rewrite lookup_fmap, fmap_is_Some. by apply H3.
  - done.
  - intros id u Hi. rewrite lookup_fmap, fmap_is_Some. by eapply H4.
Qed.
#[global] Instance keeps_ResolveByDedupeKey k : Keeps alerts_wf (ResolveByDedupeKey k).
Proof.
  apply keeps_wrap, keeps_clear_where. intros a. unfold open_with_key. by intros [_ ?]%andb_true_iff.
Qed.
#[global] Instance keeps_ResolveByKeyPrefixExcept p l : Keeps alerts_wf (ResolveByKeyPrefixExcept p l).
Proof.
  apply keeps_wrap, keeps_clear_where. intros a. unfold has_key_prefix.
  destruct (ADedupeKey a); [|done]. intros Hb. propb. done.
Qed.

#[global] Instance keeps_ResolveByUser id by_ : Keeps alerts_wf (ResolveByUser id by_).
Proof.
  apply keeps_wrap, keeps_sql; [apply _|]. intros w Hw. destruct (w_alerts w !! id) as [a|] eqn:Ha; [|done].
  destruct (is_open a) eqn:Ho; [|done]. apply alerts_wf_alter; [done| |].
  - intros a0 Ha0. destruct (wf_rows w Hw id a0 Ha0). by constructor.
  - intros a0 k id2 a2 _ [_ Hr]%open_with_key_iff. done.
Qed.

#[global] Instance keeps_Reopen id : Keeps alerts_wf (Reopen id).
Proof.
  apply keeps_wrap, keeps_sql; [apply _|]. intros w Hw. destruct (w_alerts w !! id) as [a|] eqn:Ha; [|done].
  match goal with |- context [if ?b then _ else _] => destruct b eqn:Hcl end; [done|].
  apply alerts_wf_alter; [done| |].
  - intros a0 Ha0. destruct (wf_rows w Hw id a0 Ha0). by constructor.
  - intros a0 k id2 a2 Ha0 [Hk _]%open_with_key_iff Hl2 Ho2. rewrite Ha in Ha0. injection Ha0 as <-.
    simpl in Hk. rewrite Hk in Hcl. destruct (decide (id2 = id)) as [|Hne]; [done|]. exfalso.
    rewrite <-not_true_iff_false in Hcl. apply Hcl, List.existsb_exists. exists (id2, a2).
    split; [by apply list_elem_of_In, elem_of_map_to_list|]. simpl. rewrite Ho2. simpl. by rewrite bool_decide_false.
Qed.

Lemma alerts_wf_set_state u id st w : alerts_wf w -> is_Some (w_alerts w !! id) -> alerts_wf (set_state u id st w).
Proof.
  intros [H1 H2 H3 H5 H4] Hid. constructor; simpl; auto.
  intros i v. rewrite lookup_insert. case_decide as E; [injection E as <- <-; done|]. apply H4.
Qed.
Lemma user_state_row w u id : user_state w (Some u) id <> MkUserState None None -> is_Some (w_ustate w !! (id, u)).
Proof. unfold user_state. destruct (w_ustate w !! (id, u)); [by eexists|done]. Qed.

#[global] Instance keeps_MarkRead_db u id : Keeps alerts_wf (MarkRead_db u id).
Proof.
  apply keeps_wrap, keeps_sql; [apply _|]. intros w Hw. cbv zeta. destruct (ReadAt (user_state w (Some u) id)); [done|].
  case_bool_decide as Hn; [done|]. apply alerts_wf_set_state; [done|]. by apply not_eq_None_Some.
Qed.
#[global] Instance keeps_MarkUnread_db u id : Keeps alerts_wf (MarkUnread_db u id).
Proof.
  apply keeps_wrap, keeps_sql; [apply _|]. intros w Hw. cbv zeta.
  destruct (ReadAt (user_state w (Some u) id)) eqn:E; [|done].
  apply alerts_wf_set_state; [done|]. apply (wf_state w Hw id u), user_state_row. intros Hs. by rewrite Hs in E.
Qed.
#[global] Instance keeps_Dismiss_db u id : Keeps alerts_wf (Dismiss_db u id).
Proof.
  apply keeps_wrap, keeps_sql; [apply _|]. intros w Hw. cbv zeta. destruct (DismissedAt (user_state w (Some u) id)); [done|].
  case_bool_decide as Hn; [done|]. apply alerts_wf_set_state; [done|]. by apply not_eq_None_Some.
Qed.
#[global] Instance keeps_RestoreDismissed u id : Keeps alerts_wf (RestoreDismissed u id).
Proof.
  apply keeps_wrap, keeps_exec; [apply _|]. intros w Hw. destruct (w_ustate w !! (id, u)) eqn:E; [|done].
  apply alerts_wf_set_state; [done|]. apply (wf_state w Hw id u). by eexists.
Qed.

Lemma visibleAlerts_row v w id x : visibleAlerts v w !! id = Some x -> w_alerts w !! id = Some (VAlert x).
Proof.
  unfold visibleAlerts. rewrite map_lookup_imap, bind_Some. intros (a & Ha & Hx).
  destruct (_ && _); [|done]. by injection Hx as <-.
Qed.
Lemma elem_of_unread_views id views : id ∈ unread_views views <->
  exists v, views !! id = Some v /\ is_open (VAlert v) = true /\ VReadAt v = None.
Proof.
  unfold unread_views. rewrite list_elem_of_fmap. split.
  - intros ([i v] & -> & Hin). apply list_elem_of_In, List.filter_In in Hin as [Hin Hf].
    apply list_elem_of_In, elem_of_map_to_list in Hin. simpl in *. propb. eauto.
  - intros (v & Hv & Ho & Hr). exists (id, v). split; [done|]. apply list_elem_of_In, List.filter_In.
    split; [by apply list_elem_of_In, elem_of_map_to_list|]. simpl. rewrite Ho. simpl. by rewrite bool_decide_true.
Qed.

Lemma mark_ids_alerts u now ids w : w_alerts (mark_ids u now ids w) = w_alerts w /\ w_clock (mark_ids u now ids w) = w_clock w
  /\ w_audiences (mark_ids u now ids w) = w_audiences w.
Proof. induction ids as [|id ids (IH1 & IH2 & IH3)]; done. Qed.
Lemma alerts_wf_mark_ids u now ids w : alerts_wf w -> (forall id, id ∈ ids -> is_Some (w_alerts w !! id)) ->
  alerts_wf (mark_ids u now ids w).
Proof.
  intros Hw. induction ids as [|id ids IH]; intros Hids; [done|]. simpl.
  apply alerts_wf_set_state; [apply IH; set_solver|].
  rewrite (proj1 (mark_ids_alerts u now ids w)). apply Hids. by left.
Qed.
#[global] Instance keeps_MarkAllRead_db v : Keeps alerts_wf (MarkAllRead_db v).
Proof.
  unfold MarkAllRead_db. destruct (bool_decide _); [apply _|]. apply keeps_wrap, keeps_sql; [apply _|].
  intros w Hw. apply alerts_wf_mark_ids; [done|]. intros id (x & Hx & _)%elem_of_unread_views.
  exists (VAlert x). by eapply visibleAlerts_row.
Qed.

#[global] Instance keeps_DeleteOlderThan t : Keeps alerts_wf (DeleteOlderThan t).
Proof.
  apply keeps_wrap, keeps_sql; [apply _|]. intros w [H1 H2 H3 H5 H4].
  set (gone := filter (fun ia : string * Alert => expired t ia.2 = true) (w_alerts w)).
  assert (Hkept : forall id, is_Some (w_alerts w !! id) -> gone !! id = None ->
    is_Some (filter (fun ia : string * Alert => expired t ia.2 = false) (w_alerts w) !! id)).
  { intros id [a Ha] Hg. exists a. apply map_lookup_filter_Some. split; [done|]. simpl.
    destruct (expired t a) eqn:E; [|done]. exfalso. unfold gone in Hg.
    apply (map_lookup_filter_None _ (w_alerts w)) in Hg as [Hg|Hg]; [congruence|]. by apply (Hg a Ha). }
  constructor; simpl.
  - intros id a [Ha _]%map_lookup_filter_Some. by apply H1.
  - intros id1 id2 a1 a2 k [Ha1 _]%map_lookup_filter_Some [Ha2 _]%map_lookup_filter_Some. by eapply H2.
  - intros id [l [Hl Hg]%map_lookup_filter_Some]. apply Hkept; [|done]. apply H3. by eexists.
  - intros id l [Hl _]%map_lookup_filter_Some. by apply (H5 id).
  - intros id u [l [Hl Hg]%map_lookup_filter_Some]. apply Hkept; [|done]. apply (H4 id u). by eexists.
Qed.
#[global] Instance keeps_UpdateAlertSettings n u : Keeps alerts_wf (UpdateAlertSettings n u).
Proof.
  apply keeps_wrap, keeps_exec; [apply _|]. intros w Hw.
  by apply (alerts_wf_frame w).
Qed.
End Keeps.

(** ** What a raise leaves *)
Section RaiseFacts.
Context `{Env}.

(** The other rows of a table. *)
Definition elsewhere {V} (id : string) (m m' : gmap string V) : Prop := forall i, i <> id -> m' !! i = m !! i.

Lemma audiences_of_add id au w :
  audiences_of (add_audience id au w) id = audiences_of w id ++ (if bool_decide (au ∈ audiences_of w id) then [] else [au]).
Proof.
  unfold add_audience. case_bool_decide; [by rewrite app_nil_r|].
  unfold audiences_of at 1. simpl. by rewrite lookup_insert_eq.
Qed.

(** What an insert of audiences changes: the audiences of one alert. *)
Definition only_audiences (id : string) (w w' : World) : Prop :=
  w_alerts w' = w_alerts w /\ w_ustate w' = w_ustate w /\ w_clock w <= w_clock w' /\
  elsewhere id (w_audiences w) (w_audiences w') /\
  (is_Some (w_alerts w !! id) -> alerts_wf w -> alerts_wf w').

Lemma add_audience_wf id au w : is_Some (w_alerts w !! id) -> alerts_wf w -> alerts_wf (add_audience id au w).
Proof.
  intros Hid [H1 H2 H3 H5 H4]. unfold add_audience. case_bool_decide as Hn; [done|]. constructor; simpl; auto.
  - intros i. rewrite lookup_insert. case_decide; subst; auto.
  - intros i l. rewrite lookup_insert. case_decide; subst; [|apply H5]. intros [= <-].
    unfold audiences_of in *. apply NoDup_app. split_and!; [|by intros x Hx ->%list_elem_of_singleton|apply NoDup_singleton].
    destruct (w_audiences w !! i) eqn:E; [by apply (H5 i)|constructor].
Qed.

Lemma insert_audiences_spec id auds w :
  wp (insert_audiences id auds) w (fun r w' => only_audiences id w w' /\
    (r = Ok tt -> forall au, au ∈ audiences_of w' id <-> au ∈ audiences_of w id \/ au ∈ auds)).
Proof.
  revert w. induction auds as [|au auds IH]; intros w.
  - apply wp_ret. split; [split_and!; try done; by intros|].
    intros _ au. rewrite elem_of_nil. tauto.
  - cbn [insert_audiences]. apply wp_bind, wp_wrap, wp_exec.
    + intros e He. split; [|done]. split_and!; try done; [simpl; lia|].
      intros _. apply (stable_bump w).
    + intros Hf. eapply wp_mono; [apply IH|]. intros r w' ((Ha & Hs & Hc & He & Hw) & Hau).
      assert (Hsame : w_alerts (add_audience id au (bump w)) = w_alerts w /\
        w_ustate (add_audience id au (bump w)) = w_ustate w /\
        w_clock (add_audience id au (bump w)) = w_clock (bump w))
        by (unfold add_audience; by case_bool_decide).
      destruct Hsame as (Ha' & Hs' & Hc'). split.
      * split_and!; [congruence|congruence|rewrite Hc' in Hc; simpl in *; lia| |].
        -- intros i Hi. rewrite He by done. unfold add_audience. case_bool_decide; [done|].
           simpl. by rewrite lookup_insert_ne.
        -- intros Hid Hwf. apply Hw; [by rewrite Ha'|]. apply add_audience_wf; [done|]. by apply (stable_bump w).
      * intros Hr au'. rewrite (Hau Hr), audiences_of_add. change (audiences_of (bump w) id) with (audiences_of w id).
        rewrite elem_of_app, elem_of_cons.
        case_bool_decide; rewrite ?elem_of_nil, ?list_elem_of_singleton; intuition (subst; auto).
Qed.

(** The outcome of a raise that committed. *)
Definition raised (in_ : NewAlert) (w : World) (res : RaiseResult) (w' : World) : Prop :=
  let id := AlertID (RAlert res) in
  elsewhere id (w_alerts w) (w_alerts w') /\ w_alerts w' !! id = Some (RAlert res) /\
  elsewhere id (w_audiences w) (w_audiences w') /\
  (forall au, au ∈ audiences_of w' id <-> au ∈ audiences_of w id \/ au ∈ NAudiences in_) /\
  ((Created res = true /\ Escalated res = false /\ w_alerts w !! id = None /\
    (forall k, NDedupeKey in_ = Some k -> find_open k w = None) /\
    (exists now, RAlert res = fresh_alert id now in_) /\ w_ustate w' = w_ustate w) \/
   (Created res = false /\ exists k old now,
    NDedupeKey in_ = Some k /\ w_alerts w !! id = Some old /\ open_with_key k old = true /\
    RAlert res = repeat_alert now in_ old /\ Escalated res = (Rank (NSeverity in_) >? Rank (ASeverity old)) /\
    w_ustate w' = if Escalated res then w_ustate (unread_all id w) else w_ustate w)).

Definition tables_same (w w' : World) : Prop :=
  w_alerts w' = w_alerts w /\ w_audiences w' = w_audiences w /\ w_ustate w' = w_ustate w.

Lemma rollback_wf w w' : w_clock w <= w_clock w' -> alerts_wf w -> alerts_wf (rollback w w').
Proof. intros Hc. by apply alerts_wf_frame. Qed.

Lemma repeat_alert_wf id now in_ old k w : alerts_wf w -> w_alerts w !! id = Some old ->
  open_with_key k old = true -> FirstRaisedAt old <= now -> now <= w_clock w -> alerts_wf (upd_alert id (repeat_alert now in_) w).
Proof.
  intros Hw Hid Ho Hn Hc. apply alerts_wf_alter; [done| |].
  - intros a Ha. destruct (wf_rows w Hw id a Ha). rewrite Hid in Ha. injection Ha as <-.
    constructor; simpl; auto; lia.
  - intros a k2 id2 a2 Ha [Hk _]%open_with_key_iff Ha2 Ho2. rewrite Hid in Ha. injection Ha as <-.
    apply open_with_key_iff in Ho as [Hk' Hr]. simpl in Hk. rewrite Hk' in Hk. injection Hk as <-.
    eapply (wf_open w Hw); [exact Ha2|exact Hid|exact Ho2|]. by apply open_with_key_iff.
Qed.
Lemma unread_all_wf id w : alerts_wf w -> alerts_wf (unread_all id w).
Proof.
  intros [H1 H2 H3 H5 H4]. constructor; simpl; auto.
  intros i u [st Hst]. rewrite map_lookup_imap, bind_Some in Hst. destruct Hst as (st0 & Hst0 & _).
  apply (H4 i u). by eexists.
Qed.

Lemma insert_alert_spec now in_ w :
  wp (insert_alert now in_) w (fun r w' =>
    match r with
    | Ok a => let id := AlertID a in a = fresh_alert id now in_ /\ w_alerts w !! id = None /\
        (forall k, NDedupeKey in_ = Some k -> find_open k w = None) /\
        w_alerts w' = <[id := a]> (w_alerts w) /\ w_audiences w' = <[id := []]> (w_audiences w) /\
        w_ustate w' = w_ustate w /\ w_clock w <= w_clock w' /\
        (now <= w_clock w -> alerts_wf w -> alerts_wf w')
    | Err _ => w_clock w <= w_clock w'
    end).
Proof.
  unfold insert_alert. apply wp_sql; [intros; simpl; lia|]. intros Hf. cbv zeta.
  set (id := gen_random_uuid (w_calls (bump w))). set (a := fresh_alert id now in_).
  match goal with |- context [if ?b then _ else _] => destruct b eqn:Hb end; [simpl; lia|].
  apply orb_false_iff in Hb as [Hid Hk]. propb. apply eq_None_not_Some in Hid.
  change (w_alerts (bump w)) with (w_alerts w) in *. change (w_audiences (bump w)) with (w_audiences w).
  assert (Hkey : forall k, NDedupeKey in_ = Some k -> find_open k w = None).
  { intros k Hk'. rewrite Hk' in Hk. propb. by apply eq_None_not_Some. }
  split_and!; try done; [simpl; lia|]. intros Hnow [H1 H2 H3 H5 H4]. constructor; simpl; auto.
  - intros i b. rewrite lookup_insert. case_decide; subst.
    + intros [= <-]. constructor; simpl; auto; done || lia.
    + intros Hb. eapply alert_ok_later; [|by apply H1]. lia.
  - intros id1 id2 a1 a2 k. rewrite !lookup_insert.
    case_decide as E1; case_decide as E2; subst; try done; [| |by apply H2].
    + intros [= <-] Hl2 [Ho _]%open_with_key_iff Ho2.
      pose proof (find_open_None k w id2 a2 (Hkey k Ho) Hl2). congruence.
    + intros Hl1 [= <-] Ho1 [Ho _]%open_with_key_iff.
      pose proof (find_open_None k w id1 a1 (Hkey k Ho) Hl1). congruence.
  - intros i. rewrite !lookup_insert. case_decide; [by eexists|apply H3].
  - intros i l. rewrite lookup_insert. case_decide; subst; [intros [= <-]; constructor|apply H5].
  - intros i u Hi. rewrite lookup_insert. case_decide; [by eexists|by eapply H4].
Qed.
End RaiseFacts.

Section RaiseSpec.
Context `{Env}.

Lemma audiences_wf_None w id : alerts_wf w -> w_alerts w !! id = None -> audiences_of w id = [].
Proof.
  intros Hw Hid. unfold audiences_of. destruct (w_audiences w !! id) eqn:E; [|done].
  destruct (wf_audiences w Hw id) as [a Ha]; [by eexists|congruence].
Qed.

Lemma tables_bump_rollback w w2 : tables_same w (rollback (bump w) w2).
Proof. done. Qed.

Lemma raiseOnce_spec in_ w : alerts_wf w ->
  wp (raiseOnce in_) w (fun r w' => alerts_wf w' /\
    match r with Ok res => raised in_ w res w' | Err _ => tables_same w w' end).
Proof.
  intros Hw. unfold raiseOnce.
  assert (Hback : forall w2, w_clock (bump w) <= w_clock w2 -> alerts_wf (rollback (bump w) w2) /\
    tables_same w (rollback (bump w) w2)).
  { intros w2 Hc. split; [apply rollback_wf; [done|by apply (stable_bump w)]|done]. }
  apply wp_transaction; [intros e; split; [by apply (stable_bump w)|done]|].
  set (now := w_clock (bump w)). set (w1 := bump w).
  assert (Hw1 : alerts_wf w1) by by apply (stable_bump w).
  (* the tail both branches share: the audiences *)
  assert (Htail : forall id (res : RaiseResult) w2, w_clock w1 <= w_clock w2 ->
    is_Some (w_alerts w2 !! id) -> alerts_wf w2 ->
    (forall w3, only_audiences id w2 w3 ->
       (forall au, au ∈ audiences_of w3 id <-> au ∈ audiences_of w2 id \/ au ∈ NAudiences in_) ->
       raised in_ w res (bump w3)) ->
    wp (insert_audiences id (NAudiences in_) ;; mret res) w2 (fun r w3 =>
      match r with
      | Ok a => (alerts_wf (bump w3) /\ raised in_ w a (bump w3)) /\
          (forall e : error, alerts_wf (rollback w1 (bump w3)) /\ tables_same w (rollback w1 (bump w3)))
      | Err _ => alerts_wf (rollback w1 w3) /\ tables_same w (rollback w1 w3)
      end)).
  { intros id res w2 Hc Hid Hw2 Hraised. apply wp_bind. eapply wp_mono; [apply insert_audiences_spec|].
    intros r w3 (Ho & Hau). pose proof Ho as (Ha & Hs & Hc3 & He & Hwf). destruct r as [[]|e].
    - apply wp_ret. split; [split; [apply (stable_bump w3); auto|by apply Hraised; auto]|].
      intros e. apply Hback. unfold w1 in *. simpl in *. lia.
    - apply Hback. unfold w1 in *. lia. }
  assert (Hinsert : forall w2, w_alerts w2 = w_alerts w -> w_audiences w2 = w_audiences w ->
    w_ustate w2 = w_ustate w -> w_clock w1 <= w_clock w2 -> alerts_wf w2 ->
    wp (alert ← wrap "insert alert: " (insert_alert now in_);
        insert_audiences (AlertID alert) (NAudiences in_) ;; mret (MkRaiseResult alert true false)) w2 (fun r w3 =>
      match r with
      | Ok a => (alerts_wf (bump w3) /\ raised in_ w a (bump w3)) /\
          (forall e : error, alerts_wf (rollback w1 (bump w3)) /\ tables_same w (rollback w1 (bump w3)))
      | Err _ => alerts_wf (rollback w1 w3) /\ tables_same w (rollback w1 w3)
      end)).
  { intros w2 Ha2 Hd2 Hs2 Hc2 Hw2. apply wp_bind, wp_wrap. eapply wp_mono; [apply insert_alert_spec|].
    intros r w3 Hr. destruct r as [a|e]; [|apply Hback; unfold w1 in *; lia].
    destruct Hr as (Hfa & Hn & Hk & Ha3 & Hd3 & Hs3 & Hc3 & Hwf3).
    apply Htail; [lia|rewrite Ha3, lookup_insert_eq; by eexists|apply Hwf3; [unfold now, w1 in *; lia|done]|].
    intros w4 (Ha4 & Hs4 & _ & Hd4 & _) Hau.
    assert (Hnone : w_alerts w !! AlertID a = None) by by rewrite <-Ha2.
    unfold raised, elsewhere in *. cbn [RAlert Created Escalated].
    change (w_alerts (bump w4)) with (w_alerts w4). change (w_audiences (bump w4)) with (w_audiences w4).
    change (audiences_of (bump w4)) with (audiences_of w4). change (w_ustate (bump w4)) with (w_ustate w4).
    rewrite Ha4, Ha3, Ha2. split_and!.
    - intros i Hi. by rewrite lookup_insert_ne.
    - by rewrite lookup_insert_eq.
    - intros i Hi. rewrite Hd4, Hd3, Hd2 by done. by rewrite lookup_insert_ne.
    - intros au. rewrite Hau. unfold audiences_of at 1. rewrite Hd3, lookup_insert_eq. simpl.
      by rewrite (audiences_wf_None w).
    - left. split_and!; try done; [|by eexists|congruence].
      intros k Hk'. rewrite <-(Hk k Hk'). unfold find_open. by rewrite Ha2. }
  apply wp_bind. destruct (NDedupeKey in_) as [k|] eqn:HK; [|by apply wp_ret, Hinsert].
  apply wp_wrap, wp_query; [intros e _; apply Hback; unfold w1; simpl; lia|]. intros _. cbv beta iota.
  destruct (find_open k (bump w1)) as [old|] eqn:Hfo;
    [|apply Hinsert; try done; [simpl; lia|by apply (stable_bump w1)]].
  assert (Hw1b : alerts_wf (bump w1)) by by apply (stable_bump w1).
  apply find_open_Some in Hfo as [Hold Hopen]; [|done].
  change (w_alerts (bump w1)) with (w_alerts w) in Hold.
  apply wp_bind, wp_wrap, wp_exec; [intros e _; apply Hback; unfold w1; simpl; lia|]. intros _.
  set (w2 := upd_alert (AlertID old) (repeat_alert now in_) (bump (bump w1))).
  assert (Hw2 : alerts_wf w2).
  { pose proof (wf_rows w Hw _ _ Hold) as [_ _ _ _ _ Hr].
    eapply (repeat_alert_wf _ _ _ old k); [by apply (stable_bump (bump w1))|exact Hold|exact Hopen| |];
      unfold now, w1; simpl in *; lia. }
  assert (Hl2 : w_alerts w2 !! AlertID old = Some (repeat_alert now in_ old)).
  { unfold w2. simpl. rewrite lookup_alter_eq. change (w_alerts (bump (bump w1))) with (w_alerts w). by rewrite Hold. }
  (* the rows once the unread marks are settled *)
  assert (Hdone : forall esc w3, esc = (Rank (NSeverity in_) >? Rank (ASeverity old)) ->
    w_alerts w3 = w_alerts w2 -> w_audiences w3 = w_audiences w -> w_clock w1 <= w_clock w3 -> alerts_wf w3 ->
    w_ustate w3 = (if esc : bool then w_ustate (unread_all (AlertID old) w) else w_ustate w) ->
    wp (insert_audiences (AlertID old) (NAudiences in_) ;; mret (MkRaiseResult (repeat_alert now in_ old) false esc)) w3
      (fun r w4 => match r with
      | Ok a => (alerts_wf (bump w4) /\ raised in_ w a (bump w4)) /\
          (forall e : error, alerts_wf (rollback w1 (bump w4)) /\ tables_same w (rollback w1 (bump w4)))
      | Err _ => alerts_wf (rollback w1 w4) /\ tables_same w (rollback w1 w4)
      end)).
  { intros esc w3 Hesc Ha3 Hd3 Hc3 Hw3 Hs3. apply Htail; [done|rewrite Ha3, Hl2; by eexists|done|].
    intros w4 (Ha4 & Hs4 & _ & Hd4 & _) Hau.
    unfold raised, elsewhere in *. cbn [RAlert Created Escalated].
    change (AlertID (repeat_alert now in_ old)) with (AlertID old).
    change (w_alerts (bump w4)) with (w_alerts w4). change (w_audiences (bump w4)) with (w_audiences w4).
    change (audiences_of (bump w4)) with (audiences_of w4). change (w_ustate (bump w4)) with (w_ustate w4).
    rewrite Ha4, Ha3. split_and!.
    - intros i Hi. unfold w2. simpl. by rewrite lookup_alter_ne.
    - done.
    - intros i Hi. by rewrite Hd4, Hd3.
    - intros au. rewrite Hau. unfold audiences_of. by rewrite Hd3.
    - right. split; [done|]. exists k, old, now. split_and!; try done. congruence. }
  apply wp_bind, wp_when; intros Hesc.
  - apply wp_wrap, wp_exec; [intros e _; apply Hback; unfold w1; simpl; lia|]. intros _. rewrite Hesc.
    apply Hdone; try done; [simpl; lia|]. apply unread_all_wf. by apply (stable_bump w2).
  - rewrite Hesc. apply Hdone; try done. simpl. lia.
Qed.

Lemma raised_from in_ w w1 res w2 : tables_same w w1 -> raised in_ w1 res w2 -> raised in_ w res w2.
Proof.
  intros (Ha & Hd & Hs). unfold raised, audiences_of, find_open, unread_all. simpl. by rewrite Ha, Hd, Hs.
Qed.

Lemma raise_attempts_spec n in_ w : alerts_wf w ->
  wp (raise_attempts n in_) w (fun r w' => alerts_wf w' /\
    match r with Ok res => raised in_ w res w' | Err _ => tables_same w w' end).
Proof.
  revert w. induction n as [|n IH]; intros w Hw; [by apply wp_throw|]. cbn [raise_attempts].
  apply wp_bind, wp_attempt. eapply wp_mono; [by apply raiseOnce_spec|]. intros r w1 [Hw1 Hr].
  destruct (lost_race in_ r) eqn:Hl.
  - destruct r as [res|e]; [done|]. eapply wp_mono; [by apply IH|]. intros r2 w2 [Hw2 Hr2]. split; [done|].
    destruct r2; [by eapply raised_from|]. destruct Hr as (? & ? & ?), Hr2 as (? & ? & ?).
    split_and!; congruence.
  - destruct r; [by apply wp_ret|by apply wp_throw].
Qed.
End RaiseSpec.

(** ** LIKE *)
Lemma is_char_eq n c : is_char n c = true <-> code c = n.
Proof. apply Z.eqb_eq. Qed.
Lemma code_inj c d : code c = code d -> c = d.
Proof. unfold code. intros H. apply N2Z.inj in H. by rewrite <-(ascii_N_embedding c), H, ascii_N_embedding. Qed.

(** A bare percent sign at the end matches whatever is left. *)
Lemma like_percent s : like [ascii_of_N 37] s = true.
Proof. induction s as [|x s IH]; [reflexivity|]. cbn in *. exact IH. Qed.

Lemma like_escape_char c pat s :
  like (escape_char c ++ pat) s = match s with x :: s' => bool_decide (c = x) && like pat s' | [] => false end.
Proof.
  unfold escape_char. destruct (is_char 92 c || is_char 37 c || is_char 95 c) eqn:E; cbn [app].
  - by cbn.
  - apply orb_false_iff in E as [[E1 E2]%orb_false_iff E3]. cbn [like]. rewrite E1, E2, E3. done.
Qed.

Lemma has_prefix_bytes p s : has_prefix s p = bool_decide (bytes p `prefix_of` bytes s).
Proof.
  unfold has_prefix. revert s. induction p as [|c p IH]; intros [|d s]; cbn [String.prefix bytes String.list_ascii_of_string].
  - symmetry. apply bool_decide_eq_true. apply prefix_nil.
  - symmetry. apply bool_decide_eq_true. apply prefix_nil.
  - symmetry. apply bool_decide_eq_false. by intros ?%prefix_nil_inv.
  - destruct (ascii_dec c d) as [<-|Hne].
    + rewrite IH. apply bool_decide_ext. split; [apply prefix_cons|apply prefix_cons_inv_2].
    + symmetry. apply bool_decide_eq_false. intros Hp. by apply prefix_cons_inv_1 in Hp.
Qed.

(** The pattern [ResolveByKeyPrefixExcept] builds matches its prefix
    literally, whatever wildcards and backslashes it contains. *)
Lemma escapeLike_prefix prefix s :
  like (bytes (escapeLike prefix +:+ "%")) (bytes s) = has_prefix s prefix.
Proof.
  rewrite has_prefix_bytes, bytes_app. unfold escapeLike. rewrite bytes_of_bytes.
  change (bytes "%") with [ascii_of_N 37].
  generalize (bytes prefix) as p, (bytes s) as l. intros p.
  induction p as [|c p IH]; intros l; cbn [map concat app].
  - rewrite like_percent. symmetry. apply bool_decide_eq_true, prefix_nil.
  - rewrite <-(assoc_L (++)), like_escape_char. destruct l as [|x l].
    + symmetry. apply bool_decide_eq_false. by intros ?%prefix_nil_inv.
    + rewrite IH. case_bool_decide as Hc; simpl.
      * subst. apply bool_decide_ext. split; [apply prefix_cons|apply prefix_cons_inv_2].
      * symmetry. apply bool_decide_eq_false. intros Hp. by apply prefix_cons_inv_1 in Hp.
Qed.
