(* ===== verification/Alerts.v ===== *)
(** * The alert inbox ([internal/alerts])

    The service over [AlertStore]: what producers call ([Raise],
    [ResolveCondition], [ResolveConditionsExcept]; [alert_raiser] is the
    interface of [AlertRaiser.v]), what people do with an alert, and its
    retention.  The email service is the parameter [Notifier]. *)
From stdpp Require Import base list strings gmap.
From Stdlib Require Import ZArith Lia.
From Stdlib Require Import Ascii.
From Stdlib Require String.
From S2P Require Import Prelude Db Text GoTime Rbac AlertRaiser AlertStore AlertFacts.
Local Open Scope string_scope.
Local Open Scope list_scope.
Local Open Scope Z_scope.

Definition EventAlertsChanged : string := "alerts_changed".
Definition MaxTitleLen : Z := 200.
Definition MaxBodyLen : Z := 2000.
Definition DefaultListLimit : Z := 100.
Definition MaxListLimit : Z := 200.
Definition zeroUUID : string := "00000000-0000-0000-0000-000000000000".
Definition ErrNotFound : error := Sentinel "alerts.ErrNotFound" "alert not found".
Definition ErrInvalidAlert : error := Sentinel "alerts.ErrInvalidAlert" "invalid alert".
Definition ErrInvalidRetention : error := Sentinel "alerts.ErrInvalidRetention" "invalid retention period".

(** [[a-z][a-z0-9_]{0,n}] *)
Definition slug_char (c : ascii) : bool := is_lower c || is_digit c || is_char 95 c.
Definition slug (n : Z) (s : string) : bool :=
  match bytes s with
  | [] => false
  | c :: l => is_lower c && forallb slug_char l && (Z.of_nat (length l) <=? n)
  end.
Definition kindPattern : string -> bool := slug 63.
Definition objectTypePattern : string -> bool := slug 31.
Definition uuidPattern : string -> bool := uuid_match.

Definition invalid_alert (msg : string) : option error := Some (Errorf "" ErrInvalidAlert (": " +:+ msg)).
Definition is_empty (s : string) : bool := bool_decide (s = "").

Fixpoint validate_audiences (auds : list AlertAudience) : option error :=
  match auds with
  | [] => None
  | AudienceUser u :: auds' =>
      if negb (uuidPattern u) then invalid_alert "user audience needs a user id" else validate_audiences auds'
  | AudienceGroup g :: auds' =>
      if negb (uuidPattern g) then invalid_alert "group audience needs a group id" else validate_audiences auds'
  | AudienceTier _ :: auds' => validate_audiences auds'
  end.

(** [RaiseParams.Validate].  Severities, tiers and audience types are
    enumerations here, so the three refusals of an unknown one cannot fire. *)
Definition Validate (p : RaiseParams) : option error :=
  if negb (kindPattern (RKind p)) then invalid_alert "kind must be a lowercase slug"
  else if Rank (RSeverity p) =? 0 then invalid_alert "unknown severity"
  else if is_empty (trim_space (RTitle p)) || (rune_count (RTitle p) >? MaxTitleLen) then
    invalid_alert ("title must be 1 to " +:+ itoa MaxTitleLen +:+ " characters")
  else if rune_count (RBody p) >? MaxBodyLen then
    invalid_alert ("body must be at most " +:+ itoa MaxBodyLen +:+ " characters")
  else if xorb (is_empty (RObjectType p)) (is_empty (RObjectID p)) then
    invalid_alert "object type and id go together"
  else if negb (is_empty (RObjectType p)) && (negb (objectTypePattern (RObjectType p)) || (len (RObjectID p) >? 64)) then
    invalid_alert "malformed object reference"
  else if len (RDedupeKey p) >? 200 then invalid_alert "dedupe key is too long"
  else if Nat.eqb (length (RAudiences p)) 0 then invalid_alert "an alert needs at least one audience"
  else validate_audiences (RAudiences p).

Definition optional (s : string) : option string := if is_empty s then None else Some s.

Definition new_alert (p : RaiseParams) : NewAlert :=
  MkNewAlert (RKind p) (RSeverity p) (RTitle p) (RBody p) (optional (RObjectType p)) (optional (RObjectID p))
    (optional (RDedupeKey p)) (RAudiences p).

(** [Notifier]: told of each alert as it is raised or escalates.  It returns no
    error and touches nothing of this world but the e-mail tables, the log, which it only
    adds to, the clock and the count of external calls. *)
Class Notifier := {
  AlertRaised : Alert -> bool -> M unit;
  AlertRaised_quiet : forall a e w, exists n c l em,
    AlertRaised a e w = (Ok tt, set_w_email em (set_w_logs (w_logs w ++ l) (set_w_clock c (set_w_calls n w)))) /\ w_clock w <= c
}.

Definition viewerOf (actor : Actor) : AlertViewer :=
  if IsSuperAdmin actor then MkViewer "" TierAdmin else MkViewer (ActorUserID actor) (ActorTier actor).

Record Item := MkItem { ItemAlert : Alert; ItemRead : bool }.
Record Detail := MkDetail { DetailItem : Item; CanResolve : bool }.
Definition itemOf (actor : Actor) (v : AlertView) : Item :=
  MkItem (VAlert v) (IsSuperAdmin actor || bool_decide (is_Some (VReadAt v))).

Section Service.
Context `{Env} `{Notifier}.

Definition changed : M unit := Publish EventAlertsChanged.

Definition Raise_alert (p : RaiseParams) : M RaiseResult :=
  match Validate p with
  | Some e => throw e
  | None =>
      res ← wrap "raise alert: " (Raise_db (new_alert p));
      when (Created res || Escalated res) (changed ;; AlertRaised (RAlert res) (Escalated res)) ;;
      mret res
  end.

Definition count_closed (ids : list string) : M Z :=
  when (negb (Nat.eqb (length ids) 0)) changed ;; mret (Z.of_nat (length ids)).
Definition ResolveCondition_alert (dedupeKey : string) : M Z :=
  ids ← wrap "resolve alert condition: " (ResolveByDedupeKey dedupeKey);
  count_closed ids.
Definition ResolveConditionsExcept_alert (prefix : string) (keep : list string) : M Z :=
  if is_empty prefix then throw (Errorf "" ErrInvalidAlert ": a key prefix is required")
  else
    ids ← wrap "resolve alert conditions: " (ResolveByKeyPrefixExcept prefix keep);
    count_closed ids.

Definition effective_view (view : option AlertListView) : AlertListView := default AlertViewUnread view.
Definition effective_limit (limit : Z) : Z :=
  let limit := if limit <=? 0 then DefaultListLimit else limit in
  if limit >? MaxListLimit then MaxListLimit else limit.

(** [List]; the view is [None] for an empty or unknown name. *)
Definition List_alerts (actor : Actor) (view : option AlertListView) (limit : Z) : M (list Item) :=
  let view := effective_view view in
  let limit := effective_limit limit in
  if IsSuperAdmin actor && match view with AlertViewUnread => true | _ => false end then mret []
  else
    views ← wrap "list alerts: " (ListVisible (viewerOf actor) view limit);
    mret (map (itemOf actor) views).

Definition UnreadCount (actor : Actor) : M Z :=
  wrap "count unread alerts: " (CountUnread (viewerOf actor)).

Definition visible (actor : Actor) (id : string) : M AlertView :=
  if negb (uuidPattern id) then throw ErrNotFound
  else
    r ← attempt (FindVisible (viewerOf actor) id);
    match r with
    | Ok v => mret v
    | Err e => if errors_Is e "db.ErrAlertNotFound" then throw ErrNotFound else throw (Errorf "find alert: " e "")
    end.

Definition mayResolve (actor : Actor) (alertID : string) : M bool :=
  if CanResolveAnyAlert actor then mret true
  else if IsSuperAdmin actor then mret false
  else
    auds ← wrap "look up alert audiences: " (Audiences alertID);
    mret (match auds with [AudienceUser u] => bool_decide (u = ActorUserID actor) | _ => false end).

Definition Get (actor : Actor) (id : string) : M Detail :=
  v ← visible actor id;
  if is_open (VAlert v) then
    c ← mayResolve actor (AlertID (VAlert v));
    mret (MkDetail (itemOf actor v) c)
  else mret (MkDetail (itemOf actor v) false).

Definition record (actor : Actor) (action objectType objectID : string) (detail : gmap string DVal) : M unit :=
  Record_ (actor_id actor) (IsSuperAdmin actor) action objectType objectID (Some detail).

Definition kind_detail (a : Alert) : gmap string DVal := {[ "kind" := DStr (AKind a) ]}.

Definition userStateChange (actor : Actor) (id action : string)
    (apply : string -> string -> M bool) (revert : string -> string -> M unit) : M bool :=
  v ← visible actor id;
  if IsSuperAdmin actor then mret false
  else
    c ← apply (ActorUserID actor) (AlertID (VAlert v));
    if negb c then mret false
    else audited_or_reverted
      (record actor action "alert" (AlertID (VAlert v)) (kind_detail (VAlert v)))
      (revert (ActorUserID actor) (AlertID (VAlert v)))
      (changed ;; mret true).

Definition MarkRead (actor : Actor) (id : string) : M bool :=
  userStateChange actor id "read_alert" MarkRead_db (fun u a => discard (MarkUnread_db u a)).
Definition MarkUnread (actor : Actor) (id : string) : M bool :=
  userStateChange actor id "marked_alert_unread" MarkUnread_db (fun u a => discard (MarkRead_db u a)).
Definition Dismiss (actor : Actor) (id : string) : M bool :=
  userStateChange actor id "dismissed_alert" Dismiss_db RestoreDismissed.

(** The loop that marks each id unread again, keeping the last error. *)
Fixpoint unmark_all (userID : string) (ids : list string) (revertErr : option error) : M (option error) :=
  match ids with
  | [] => mret revertErr
  | id :: ids' =>
      r ← attempt (MarkUnread_db userID id);
      unmark_all userID ids' (match r with Err e => Some e | Ok _ => revertErr end)
  end.

Definition MarkAllRead (actor : Actor) : M Z :=
  if IsSuperAdmin actor then mret 0
  else
    ids ← wrap "mark all alerts read: " (MarkAllRead_db (viewerOf actor));
    if Nat.eqb (length ids) 0 then mret 0
    else audited_or_reverted
      (record actor "marked_all_alerts_read" "alert" zeroUUID {[ "count" := DInt (Z.of_nat (length ids)) ]})
      (re ← unmark_all (ActorUserID actor) ids None;
       match re with Some e => throw e | None => mret tt end)
      (changed ;; mret (Z.of_nat (length ids))).

Definition ResolveAlert (actor : Actor) (id : string) : M bool :=
  v ← visible actor id;
  ok ← mayResolve actor (AlertID (VAlert v));
  if negb ok then throw ErrNotPermitted
  else
    c ← ResolveByUser (AlertID (VAlert v)) (actor_id actor);
    if negb c then mret false
    else audited_or_reverted
      (record actor "resolved_alert" "alert" (AlertID (VAlert v)) (kind_detail (VAlert v)))
      (Reopen (AlertID (VAlert v)))
      (changed ;; mret true).

(** ** [retention.go] *)
Definition MinRetentionMonths : Z := 1.
Definition MaxRetentionMonths : Z := 24.

Definition Settings (actor : Actor) : M (Z * option string) :=
  if negb (CanViewSettings actor) then throw ErrNotPermitted
  else wrap "get alert settings: " GetAlertSettings.

Definition UpdateRetention (actor : Actor) (months : Z) : M unit :=
  if negb (CanViewSettings actor) then throw ErrNotPermitted
  else if (months <? MinRetentionMonths) || (months >? MaxRetentionMonths) then
    throw (Errorf "" ErrInvalidRetention (": keep alerts between " +:+ itoa MinRetentionMonths +:+ " and "
      +:+ itoa MaxRetentionMonths +:+ " months"))
  else
    current ← wrap "get current alert settings: " GetAlertSettings;
    wrap "update alert settings: " (UpdateAlertSettings months (actor_id actor)) ;;
    audited_or_reverted
      (Record_ (actor_id actor) (IsSuperAdmin actor) "updated_alert_retention" "alert_settings" zeroUUID
        (Some {[ "retention_months" := DInt months; "previous_retention_months" := DInt current.1 ]}))
      (UpdateAlertSettings current.1 current.2)
      (mret tt).

(** [ExpireOnce], given the server's own zone. *)
Definition ExpireOnce (local : Location) : M Z :=
  cfg ← wrap "get alert settings: " GetAlertSettings;
  now ← time_now;
  let cutoff := AddMonths local now (- cfg.1) in
  n ← DeleteOlderThan cutoff;
  if n =? 0 then mret 0
  else
    changed ;;
    wrap ("record audit for " +:+ itoa n +:+ " expired alerts: ")
      (Record_ None false "expired_alerts" "alert" zeroUUID
        (Some {[ "deleted" := DInt n; "retention_months" := DInt cfg.1; "older_than" := DStr (RFC3339 cutoff) ]})) ;;
    mret n.
End Service.

(** ** The promise to producers *)
Section Frames.
Context `{Env} `{Notifier}.

#[global] Instance AlertRaised_frame {B} (f : World -> B) a e :
  (forall w n c l em, f (set_w_email em (set_w_logs l (set_w_clock c (set_w_calls n w)))) = f w) -> Preserves f (AlertRaised a e).
Proof. intros Hf w. destruct (AlertRaised_quiet a e w) as (n & c & l & em & -> & _). apply Hf. Qed.

(** Whatever part of the world is not an alert table, a raise leaves it. *)
Lemma Raise_db_frame {B} (f : World -> B) in_ `{!BumpFree f} :
  (forall a w, f (set_w_alerts a w) = f w) -> (forall d w, f (set_w_audiences d w) = f w) ->
  (forall s w, f (set_w_ustate s w) = f w) -> (forall w w', f (rollback w w') = f w) ->
  Preserves f (Raise_db in_).
Proof.
  intros Ha Hd Hs Hr. unfold Raise_db. generalize 2%nat as n. intros n.
  induction n as [|n IH]; cbn [raise_attempts]; [apply _|].
  apply preserves_bind; [|intros r; destruct (lost_race _ r); [apply IH|destruct r; apply _]].
  apply preserves_attempt, preserves_transaction; [done|done|]. intros now.
  assert (Haud : forall id auds, Preserves f (insert_audiences id auds)).
  { intros id auds. induction auds as [|au auds IHa]; cbn [insert_audiences]; [apply _|].
    apply preserves_bind; [|intros; apply IHa]. apply preserves_wrap, preserves_exec; [done|].
    intros w. unfold add_audience. by case_bool_decide. }
  apply preserves_bind; [apply _|]. intros [old|].
  - apply preserves_bind; [apply preserves_wrap, preserves_exec; [done|intros; apply Ha]|]. intros _.
    apply preserves_bind; [apply preserves_when, preserves_wrap, preserves_exec; [done|intros; apply Hs]|]. intros _.
    apply preserves_bind; [apply Haud|apply _].
  - apply preserves_bind; [|intros a; apply preserves_bind; [apply Haud|apply _]].
    apply preserves_wrap, preserves_sql; [done|]. intros w. cbv zeta.
    match goal with |- context [if ?b then _ else _] => destruct b end; [done|]. by rewrite Hd, Ha.
Qed.

Lemma Raise_alert_frame p : Preserves beyond_alerts (Raise_alert p).
Proof.
  unfold Raise_alert. destruct (Validate p); [apply _|].
  apply preserves_bind; [by apply preserves_wrap, Raise_db_frame; try done; apply _|].
  intros res. apply preserves_bind; [|apply _]. apply preserves_when.
  apply preserves_bind; [unfold changed; apply _|]. intros _. by apply AlertRaised_frame.
Qed.
Lemma clear_where_frame p : Preserves beyond_alerts (clear_where p).
Proof. apply preserves_sql; [apply _|]. done. Qed.
Lemma count_closed_frame ids : Preserves beyond_alerts (count_closed ids).
Proof. unfold count_closed, changed. apply _. Qed.

(** The inbox keeps the promise of [AlertRaiser.v]. *)
#[global] Program Instance alert_raiser : AlertRaiser := {|
  Raise := Raise_alert;
  ResolveCondition := ResolveCondition_alert;
  ResolveConditionsExcept := ResolveConditionsExcept_alert
|}.
Next Obligation. apply Raise_alert_frame. Qed.
Next Obligation.
  intros k. apply preserves_bind; [do 2 apply preserves_wrap; apply clear_where_frame|apply count_closed_frame].
Qed.
Next Obligation.
  intros p k. unfold ResolveConditionsExcept_alert. destruct (is_empty p); [apply _|].
  apply preserves_bind; [do 2 apply preserves_wrap; apply clear_where_frame|apply count_closed_frame].
Qed.
End Frames.

(** ** Well-formedness is an invariant *)
Section Invariant.
Context `{Env} `{Notifier}.

#[global] Instance keeps_changed : Keeps alerts_wf changed.
Proof. unfold changed. apply _. Qed.
#[global] Instance keeps_AlertRaised a e : Keeps alerts_wf (AlertRaised a e).
Proof.
  intros w Hw. destruct (AlertRaised_quiet a e w) as (n & c & l & em & -> & Hc). by apply (alerts_wf_frame w).
Qed.
#[global] Instance keeps_Raise p : Keeps alerts_wf (Raise_alert p).
Proof.
  unfold Raise_alert. destruct (Validate p); [apply _|]. apply keeps_bind; [|intros; apply _].
  apply keeps_wrap. intros w Hw. by apply (raise_attempts_spec 2 (new_alert p) w Hw).
Qed.
#[global] Instance keeps_count_closed ids : Keeps alerts_wf (count_closed ids).
Proof. unfold count_closed. apply _. Qed.
#[global] Instance keeps_visible actor id : Keeps alerts_wf (visible actor id).
Proof. unfold visible, FindVisible. destruct (negb _); apply _. Qed.
#[global] Instance keeps_mayResolve actor id : Keeps alerts_wf (mayResolve actor id).
Proof. unfold mayResolve, Audiences. apply _. Qed.
#[global] Instance keeps_record actor a b c d : Keeps alerts_wf (record actor a b c d).
Proof. unfold record. apply _. Qed.
#[global] Instance keeps_userStateChange actor id action ap rv :
  (forall u a, Keeps alerts_wf (ap u a)) -> (forall u a, Keeps alerts_wf (rv u a)) ->
  Keeps alerts_wf (userStateChange actor id action ap rv).
Proof. intros. unfold userStateChange. apply _. Qed.
#[global] Instance keeps_unmark_all u ids re : Keeps alerts_wf (unmark_all u ids re).
Proof. revert re. induction ids as [|id ids IH]; intros re; cbn [unmark_all]; apply _. Qed.

(** Every operation of the inbox, and anything that leaves its tables alone. *)
Inductive alert_step : World -> World -> Prop :=
| step_raise p w : alert_step w (snd (Raise_alert p w))
| step_resolve_condition k w : alert_step w (snd (ResolveCondition_alert k w))
| step_resolve_except p k w : alert_step w (snd (ResolveConditionsExcept_alert p k w))
| step_mark_read actor id w : alert_step w (snd (MarkRead actor id w))
| step_mark_unread actor id w : alert_step w (snd (MarkUnread actor id w))
| step_dismiss actor id w : alert_step w (snd (Dismiss actor id w))
| step_mark_all actor w : alert_step w (snd (MarkAllRead actor w))
| step_resolve actor id w : alert_step w (snd (ResolveAlert actor id w))
| step_retention actor n w : alert_step w (snd (UpdateRetention actor n w))
| step_expire local w : alert_step w (snd (ExpireOnce local w))
| step_elsewhere w w' : tables_same w w' -> w_clock w <= w_clock w' -> alert_step w w'.

(** C4: from well-formed tables, whatever the operations, their order and
    the failures among them, the tables stay well-formed: one open alert per
    dedupe key, a resolution exactly on the resolved ones, audiences and
    per-user states of existing alerts only, no audience twice. *)
Theorem alerts_always_wf w w' : alerts_wf w -> rtc alert_step w w' -> alerts_wf w'.
Proof.
  intros Hw Hsteps. induction Hsteps as [|w w1 w2 Hstep _ IH]; [done|]. apply IH. clear IH.
  destruct Hstep as [p w|k w|p k w|a id w|a id w|a id w|a w|a id w|a n w|l w|w w' (Ha & Hd & Hs) Hc].
  - by apply keeps_Raise.
  - assert (Hk : Keeps alerts_wf (ResolveCondition_alert k)) by (unfold ResolveCondition_alert; apply _). by apply Hk.
  - assert (Hk : Keeps alerts_wf (ResolveConditionsExcept_alert p k)) by (unfold ResolveConditionsExcept_alert; apply _). by apply Hk.
  - assert (Hk : Keeps alerts_wf (MarkRead a id)) by (unfold MarkRead; apply _). by apply Hk.
  - assert (Hk : Keeps alerts_wf (MarkUnread a id)) by (unfold MarkUnread; apply _). by apply Hk.
  - assert (Hk : Keeps alerts_wf (Dismiss a id)) by (unfold Dismiss; apply _). by apply Hk.
  - assert (Hk : Keeps alerts_wf (MarkAllRead a)) by (unfold MarkAllRead; apply _). by apply Hk.
  - assert (Hk : Keeps alerts_wf (ResolveAlert a id)) by (unfold ResolveAlert; apply _). by apply Hk.
  - assert (Hk : Keeps alerts_wf (UpdateRetention a n)) by (unfold UpdateRetention, GetAlertSettings; apply _). by apply Hk.
  - assert (Hk : Keeps alerts_wf (ExpireOnce l)) by (unfold ExpireOnce, GetAlertSettings; apply _). by apply Hk.
  - by apply (alerts_wf_frame w).
Qed.
End Invariant.

(** ** What the operations do *)
Section Functional.
Context `{Env} `{Notifier}.

Lemma wp_AlertRaised a e w (Q : result unit -> World -> Prop) :
  (forall n c l em, w_clock w <= c -> Q (Ok tt) (set_w_email em (set_w_logs l (set_w_clock c (set_w_calls n w))))) ->
  wp (AlertRaised a e) w Q.
Proof. intros HQ. destruct (AlertRaised_quiet a e w) as (n & c & l & em & He & Hc). eapply wp_run; [exact He|auto]. Qed.

(** What a raise does, on every branch. *)
Lemma Raise_alert_ok p w : alerts_wf w ->
  wp (Raise_alert p) w (fun r w' =>
    match r with
    | Ok res => Validate p = None /\ raised (new_alert p) w res w' /\
        w_events w' = w_events w ++ (if Created res || Escalated res then [EventAlertsChanged] else [])
    | Err _ => tables_same w w' /\ w_events w' = w_events w
    end).
Proof.
  intros Hw. unfold Raise_alert. destruct (Validate p) as [e|]; [by apply wp_throw|].
  assert (Hev : Preserves w_events (Raise_db (new_alert p))) by (apply Raise_db_frame; try done; apply _).
  apply wp_bind, wp_wrap. eapply wp_mono;
    [apply wp_and; [apply (raise_attempts_spec 2 (new_alert p) w Hw)|apply (wp_preserves w_events); exact Hev]|].
  intros r w1 [[_ Hr] He]. destruct r as [res|e]; [|done].
  apply wp_bind, wp_when; intros Hb; rewrite ?Hb.
  - apply wp_bind, wp_Publish, wp_AlertRaised. intros n c l em _. apply wp_ret. split; [done|]. split; [exact Hr|]. rewrite <-He. by rewrite Hb.
  - apply wp_ret. split; [done|]. split; [exact Hr|]. by rewrite Hb, app_nil_r.
Qed.

(** C5: an accepted alert is stored for exactly its audiences: a repeat of
    an open one with its dedupe key counts one more occurrence of that very
    alert, takes its severity, title and body and, when it got more severe,
    is unread again for everyone; otherwise a new open alert appears.  No
    other alert changes; browsers are told exactly when one was created or
    escalated; a refused or failed raise leaves the tables as they were. *)
Theorem Raise_spec p w : alerts_wf w ->
  wp (Raise_alert p) w (fun r w' =>
    match r with
    | Ok res => Validate p = None /\ raised (new_alert p) w res w' /\
        w_events w' = w_events w ++ (if Created res || Escalated res then [EventAlertsChanged] else [])
    | Err _ => tables_same w w' /\ w_events w' = w_events w
    end).
Proof. apply Raise_alert_ok. Qed.

(** *** Who sees what *)
Lemma user_state_set u id st w v id' :
  user_state (set_state u id st w) (Some v) id' = if bool_decide (v = u /\ id' = id) then st else user_state w (Some v) id'.
Proof.
  unfold user_state. simpl. rewrite lookup_insert. case_decide as E.
  - injection E as <- <-. by rewrite bool_decide_true.
  - rewrite bool_decide_false; [done|]. intros [-> ->]. done.
Qed.

(** Two worlds a viewer cannot tell apart: the same alerts visible, with the
    same addressees. *)
Definition same_for (v : AlertViewer) (w w' : World) : Prop :=
  visibleAlerts v w = visibleAlerts v w' /\ w_calls w = w_calls w' /\
  (forall id, is_Some (visibleAlerts v w !! id) -> audiences_of w id = audiences_of w' id).
Lemma same_for_bump v w w' : same_for v w w' -> same_for v (bump w) (bump w').
Proof. intros (Hv & Hc & Ha). split_and!; [done|simpl; by rewrite Hc|done]. Qed.

Lemma query_same {A} v (f : World -> A) w w' : same_for v w w' -> f (bump w) = f (bump w') ->
  fst (query f w) = fst (query f w').
Proof. intros (_ & Hc & _) Hf. unfold query, sql. rewrite Hc. destruct (fault _); [done|]. by rewrite Hf. Qed.
Lemma query_state {A} (f : World -> A) w : snd (query f w) = bump w.
Proof. unfold query, sql. by destruct (fault _). Qed.

(** [visible] in one equation: its answer and where it ends. *)
Lemma visible_run actor id w :
  visible actor id w =
  if negb (uuidPattern id) then (Err ErrNotFound, w)
  else match fault (w_calls w) with
       | Some e => (if errors_Is e "db.ErrAlertNotFound" then Err ErrNotFound
                    else Err (Errorf "find alert: " (Errorf "find alert: " e "") ""), bump w)
       | None => match visibleAlerts (viewerOf actor) w !! id with
                 | Some v => (Ok v, bump w)
                 | None => (Err ErrNotFound, bump w)
                 end
       end.
Proof.
  unfold visible. destruct (negb _); [done|].
  unfold mbind, ST_bind, attempt, FindVisible, mbind, ST_bind, wrap, query, sql.
  destruct (fault (w_calls w)) as [e|]; cbn [errors_Is]; [by destruct (errors_Is e _)|].
  change (visibleAlerts (viewerOf actor) (bump w)) with (visibleAlerts (viewerOf actor) w).
  by destruct (visibleAlerts (viewerOf actor) w !! id).
Qed.

Lemma mayResolve_same actor id v w w' : same_for (viewerOf actor) w w' ->
  visibleAlerts (viewerOf actor) w !! id = Some v -> fst (mayResolve actor id w) = fst (mayResolve actor id w').
Proof.
  intros Hs Hv. unfold mayResolve. destruct (CanResolveAnyAlert actor); [done|].
  destruct (IsSuperAdmin actor); [done|].
  unfold mbind, ST_bind, Audiences, wrap. pose proof (query_same _ (fun w => audiences_of w id) w w' Hs) as Hq.
  destruct (query (fun w => audiences_of w id) w) as [[a|e] w1], (query (fun w => audiences_of w id) w') as [[a'|e'] w1'];
    cbn [fst] in *; (specialize (Hq (proj2 (proj2 Hs) id ltac:(by eexists))); congruence) || idtac.
  all: specialize (Hq (proj2 (proj2 Hs) id ltac:(by eexists))); by injection Hq as ->.
Qed.

(** C6: what a viewer is told - the list, the unread count, an alert's
    detail, and that an alert is not there - depends only on the alerts they
    may see: an alert they may not see cannot be told from one that does not
    exist. *)
Theorem viewer_noninterference actor w w' :
  alerts_wf w -> same_for (viewerOf actor) w w' ->
  (forall view limit, fst (List_alerts actor view limit w) = fst (List_alerts actor view limit w')) /\
  fst (UnreadCount actor w) = fst (UnreadCount actor w') /\
  (forall id, fst (Get actor id w) = fst (Get actor id w')).
Proof.
  intros Hwf Hs. pose proof Hs as (Hv & Hc & Ha). split_and!.
  - intros view limit. unfold List_alerts. destruct (_ && _); [done|].
    unfold mbind, ST_bind, ListVisible, wrap.
    set (f := fun w => listed _ _ _).
    pose proof (query_same _ f w w' Hs) as Hq. assert (Hf : f (bump w) = f (bump w')).
    { unfold f. change (visibleAlerts (viewerOf actor) (bump w)) with (visibleAlerts (viewerOf actor) w). by rewrite Hv. }
    specialize (Hq Hf). destruct (query f w) as [[a|e] ?], (query f w') as [[a'|e'] ?]; cbn in *; congruence.
  - unfold UnreadCount, CountUnread. destruct (bool_decide _); [done|]. unfold wrap.
    set (f := fun w => Z.of_nat _).
    pose proof (query_same _ f w w' Hs) as Hq. assert (Hf : f (bump w) = f (bump w')).
    { unfold f. change (visibleAlerts (viewerOf actor) (bump w)) with (visibleAlerts (viewerOf actor) w). by rewrite Hv. }
    specialize (Hq Hf). destruct (query f w) as [[a|e] ?], (query f w') as [[a'|e'] ?]; cbn in *; congruence.
  - intros id. unfold Get. unfold mbind, ST_bind. rewrite !visible_run, <-Hv, <-Hc.
    destruct (negb (uuidPattern id)); [done|]. destruct (fault (w_calls w)) as [e|]; [by destruct (errors_Is e _)|].
    destruct (visibleAlerts (viewerOf actor) w !! id) as [v|] eqn:Ev; [|done].
    destruct (is_open (VAlert v)); [|done].
    pose proof (visibleAlerts_row _ _ _ _ Ev) as Hrow.
    pose proof (ok_id _ _ _ (wf_rows w Hwf id _ Hrow)) as Hid. rewrite Hid.
    pose proof (mayResolve_same actor id v (bump w) (bump w') (same_for_bump _ _ _ Hs) Ev) as Hm.
    destruct (mayResolve actor id (bump w)) as [[b|e] ?], (mayResolve actor id (bump w')) as [[b'|e'] ?];
      cbn in *; congruence.
Qed.

(** *** What a change of one viewer's state shows to whom *)
Definition same_rows (w w' : World) : Prop :=
  w_alerts w' = w_alerts w /\ w_audiences w' = w_audiences w /\ w_locals w' = w_locals w /\
  w_admaps w' = w_admaps w /\ w_member w' = w_member w.

Lemma audience_matches_ext w w' u t au : same_rows w w' -> audience_matches w' u t au = audience_matches w u t au.
Proof.
  intros (_ & _ & Hl & Hm & Hc). unfold audience_matches, group_member. by rewrite Hl, Hm, Hc.
Qed.
Lemma visible_lookup_ext v w w' id : same_rows w w' ->
  user_state w' (viewerUserArg v) id = user_state w (viewerUserArg v) id ->
  visibleAlerts v w' !! id = visibleAlerts v w !! id.
Proof.
  intros Hr Hu. unfold visibleAlerts. rewrite !map_lookup_imap, (proj1 Hr).
  destruct (w_alerts w !! id) as [a|]; [|done]. cbn [mbind option_bind].
  rewrite Hu. unfold audiences_of. rewrite (proj1 (proj2 Hr)).
  erewrite existsb_same; [done|]. intros au. by apply audience_matches_ext.
Qed.
Lemma visible_ext v w w' : same_rows w w' ->
  (forall id, user_state w' (viewerUserArg v) id = user_state w (viewerUserArg v) id) ->
  visibleAlerts v w' = visibleAlerts v w.
Proof. intros Hr Hu. apply map_eq. intros id. by apply visible_lookup_ext. Qed.

Lemma viewerUserArg_Some v u : viewerUserArg v = Some u <-> ViewerUserID v = u /\ u <> "".
Proof.
  unfold viewerUserArg. case_bool_decide as E; (split; [intros [=]; subst; done|intros [<- Hn]; done]).
Qed.
Lemma viewerUserArg_actor actor : IsSuperAdmin actor = false -> ActorUserID actor <> "" ->
  viewerUserArg (viewerOf actor) = Some (ActorUserID actor).
Proof. intros Hs Hn. apply viewerUserArg_Some. unfold viewerOf. by rewrite Hs. Qed.

(** After a change of [u]'s own state of one alert: every other viewer, and
    every other alert, looks as before. *)
Definition only_own_view (u id : string) (w w' : World) : Prop :=
  (forall v, ViewerUserID v <> u -> visibleAlerts v w' = visibleAlerts v w) /\
  (forall v id', id' <> id -> visibleAlerts v w' !! id' = visibleAlerts v w !! id').
Lemma set_state_own u id st w w' : same_rows w w' -> w_ustate w' = <[(id, u) := st]> (w_ustate w) ->
  only_own_view u id w w'.
Proof.
  intros Hr Hs.
  assert (Hu : forall a id', user_state w' a id' = user_state (set_state u id st w) a id')
    by (intros [a|] id'; unfold user_state; [by rewrite Hs|done]).
  split.
  - intros v Hv. apply visible_ext; [done|]. intros i. rewrite Hu. destruct (viewerUserArg v) as [a|] eqn:E; [|done].
    rewrite user_state_set, bool_decide_false; [done|]. intros [-> _]. by apply viewerUserArg_Some in E as [? _].
  - intros v i Hi. apply visible_lookup_ext; [done|]. rewrite Hu. destruct (viewerUserArg v) as [a|]; [|done].
    rewrite user_state_set, bool_decide_false; [done|]. by intros [_ ?].
Qed.

Lemma wp_visible actor id w (Q : result AlertView -> World -> Prop) : alerts_wf w ->
  (forall e, Q (Err e) w /\ Q (Err e) (bump w)) ->
  (forall v, visibleAlerts (viewerOf actor) w !! id = Some v -> AlertID (VAlert v) = id -> Q (Ok v) (bump w)) ->
  wp (visible actor id) w Q.
Proof.
  intros Hw He Hv. unfold wp. rewrite visible_run. destruct (negb _); [apply He|].
  destruct (fault _) as [e|]; [destruct (errors_Is e _); apply He|].
  destruct (visibleAlerts _ w !! id) as [v|] eqn:E; [|apply He]. apply Hv; [done|].
  apply visibleAlerts_row in E. by apply (ok_id _ _ _ (wf_rows w Hw id _ E)).
Qed.
Definition unchanged_view (w w' : World) : Prop := forall v, visibleAlerts v w' = visibleAlerts v w.

(** What a view says of the viewer's own state. *)
Lemma visible_state v u w id x : viewerUserArg v = Some u -> visibleAlerts v w !! id = Some x ->
  w_alerts w !! id = Some (VAlert x) /\ VReadAt x = ReadAt (user_state w (Some u) id) /\
  DismissedAt (user_state w (Some u) id) = None /\
  existsb (audience_matches w (Some u) (ViewerTier v)) (audiences_of w id) = true.
Proof.
  intros Harg Hv. pose proof (visibleAlerts_row _ _ _ _ Hv) as Hrow.
  unfold visibleAlerts in Hv. rewrite map_lookup_imap, Hrow, Harg in Hv. cbn [mbind option_bind] in Hv.
  match type of Hv with (if ?b then _ else _) = _ => destruct b eqn:Eb; [|done] end.
  apply andb_true_iff in Eb as [Ed Ex]. propb. by injection Hv as <-.
Qed.
Lemma state_visible v u w id a : viewerUserArg v = Some u -> w_alerts w !! id = Some a ->
  DismissedAt (user_state w (Some u) id) = None ->
  existsb (audience_matches w (Some u) (ViewerTier v)) (audiences_of w id) = true ->
  visibleAlerts v w !! id = Some (MkView a (ReadAt (user_state w (Some u) id))).
Proof.
  intros Harg Hrow Hd Hx. unfold visibleAlerts. rewrite map_lookup_imap, Hrow, Harg. cbn [mbind option_bind].
  by rewrite Hd, Hx.
Qed.

(** Putting a viewer's state back to what it was shows everybody what they
    saw. *)
Lemma restored_view w w' u id st : same_rows w w' -> w_ustate w' = <[(id, u) := st]> (w_ustate w) ->
  st = user_state w (Some u) id -> unchanged_view w w'.
Proof.
  intros Hr Hs Hst v. apply visible_ext; [done|]. intros i. destruct (viewerUserArg v) as [a|]; [|done].
  transitivity (user_state (set_state u id st w) (Some a) i); [unfold user_state; by rewrite Hs|].
  rewrite user_state_set. case_bool_decide as E; [|done]. destruct E as [-> ->]. done.
Qed.
Lemma wp_MarkUnread_db u id w (Q : result bool -> World -> Prop) :
  (forall e, Q (Err e) (bump w)) ->
  (ReadAt (user_state w (Some u) id) = None -> Q (Ok false) (bump w)) ->
  (forall t, ReadAt (user_state w (Some u) id) = Some t ->
     Q (Ok true) (set_state u id (MkUserState None (DismissedAt (user_state w (Some u) id))) (bump w))) ->
  wp (MarkUnread_db u id) w Q.
Proof.
  intros He Hn Hs. apply wp_wrap, wp_sql; [intros; apply He|]. intros _. cbv zeta.
  change (user_state (bump w)) with (user_state w).
  destruct (ReadAt (user_state w (Some u) id)) eqn:E; [by eapply Hs|by apply Hn].
Qed.

Lemma wp_MarkRead_db u id w (Q : result bool -> World -> Prop) :
  (forall e, Q (Err e) (bump w)) ->
  (forall t, ReadAt (user_state w (Some u) id) = Some t -> Q (Ok false) (bump w)) ->
  (ReadAt (user_state w (Some u) id) = None ->
     Q (Ok true) (set_state u id
       (MkUserState (Some (w_clock (bump w))) (DismissedAt (user_state w (Some u) id))) (bump w))) ->
  wp (MarkRead_db u id) w Q.
Proof.
  intros He Hn Hs. apply wp_wrap, wp_sql; [intros; apply He|]. intros _. cbv zeta.
  change (user_state (bump w)) with (user_state w).
  destruct (ReadAt (user_state w (Some u) id)) eqn:E; [by eapply Hn|].
  case_bool_decide; [apply He|by apply Hs].
Qed.
Lemma wp_Dismiss_db u id w (Q : result bool -> World -> Prop) :
  (forall e, Q (Err e) (bump w)) ->
  (forall t, DismissedAt (user_state w (Some u) id) = Some t -> Q (Ok false) (bump w)) ->
  (DismissedAt (user_state w (Some u) id) = None ->
     Q (Ok true) (set_state u id
       (MkUserState (ReadAt (user_state w (Some u) id)) (Some (w_clock (bump w)))) (bump w))) ->
  wp (Dismiss_db u id) w Q.
Proof.
  intros He Hn Hs. apply wp_wrap, wp_sql; [intros; apply He|]. intros _. cbv zeta.
  change (user_state (bump w)) with (user_state w).
  destruct (DismissedAt (user_state w (Some u) id)) eqn:E; [by eapply Hn|].
  case_bool_decide; [apply He|by apply Hs].
Qed.
Lemma wp_RestoreDismissed u id w (Q : result unit -> World -> Prop) :
  (forall e, Q (Err e) (bump w)) -> is_Some (w_ustate w !! (id, u)) ->
  Q (Ok tt) (set_state u id (MkUserState (ReadAt (user_state w (Some u) id)) None) (bump w)) ->
  wp (RestoreDismissed u id) w Q.
Proof.
  intros He [st Hst] Hs. apply wp_wrap, wp_exec; [intros; apply He|]. intros _.
  change (w_ustate (bump w)) with (w_ustate w). unfold user_state in Hs. rewrite Hst in *. exact Hs.
Qed.

(** Dismissing an alert takes it out of the dismisser's own views and of
    nobody else's, and is audited; it takes seeing the alert.  A refused or
    unaudited one changes what nobody sees, unless the error says the revert
    failed. *)
Theorem Dismiss_spec actor id w : alerts_wf w -> ActorUserID actor <> "" ->
  wp (Dismiss actor id) w (fun r w' => w_alerts w' = w_alerts w /\
    match r with
    | Ok true => IsSuperAdmin actor = false /\ is_Some (visibleAlerts (viewerOf actor) w !! id) /\
        visibleAlerts (viewerOf actor) w' !! id = None /\ only_own_view (ActorUserID actor) id w w' /\
        audited "dismissed_alert" w w'
    | Ok false => unchanged_view w w' /\ w_audit w' = w_audit w
    | Err e => w_audit w' = w_audit w /\ (unchanged_view w w' \/ exists a b, e = revert_failed a b)
    end).
Proof.
  intros Hw Hn. unfold Dismiss, userStateChange. apply wp_bind, wp_visible; [done|by intros e; split_and!; try done; left|].
  intros v Hv Hid. rewrite Hid. destruct (IsSuperAdmin actor) eqn:Hsa; [by apply wp_ret|].
  pose proof (viewerUserArg_actor actor Hsa Hn) as Harg. pose proof (visibleAlerts_row _ _ _ _ Hv) as Hrow.
  apply wp_bind, wp_Dismiss_db; [by intros e; split_and!; try done; left|by intros; apply wp_ret|].
  change (user_state (bump w)) with (user_state w). intros Hdis. set (st := MkUserState _ _).
  cbn [negb]. apply wp_audited_or_reverted. unfold record. apply wp_Record.
  - intros e _. apply wp_RestoreDismissed.
    + intros e2. split; [done|]. split; [done|]. right. by do 2 eexists.
    + simpl. rewrite lookup_insert_eq. by eexists.
    + split; [done|]. split; [done|]. left.
      apply (restored_view w _ (ActorUserID actor) id (user_state w (Some (ActorUserID actor)) id)); [done| |done].
      cbn [w_ustate set_state set_w_ustate bump set_w_clock set_w_calls]. rewrite insert_insert_eq. f_equal.
      change (user_state (bump (set_state (ActorUserID actor) id st (bump (bump w)))))
        with (user_state (set_state (ActorUserID actor) id st w)).
      rewrite user_state_set, bool_decide_true by done. unfold st. cbn [ReadAt].
      destruct (user_state w (Some (ActorUserID actor)) id) as [rd ds]. cbn in *. by subst.
  - intros _. apply wp_bind, wp_Publish, wp_ret. split; [done|].
    split_and!; [done|rewrite Hv; by eexists| |by apply (set_state_own _ _ st)|by eexists].
    unfold visibleAlerts. rewrite map_lookup_imap. cbn. rewrite Hrow, Harg. cbn.
    rewrite lookup_insert_eq. done.
Qed.

(** Reading an alert marks it read for the reader alone, once, and is
    audited; the same guarantees on failure. *)
Theorem MarkRead_spec actor id w : alerts_wf w -> ActorUserID actor <> "" ->
  wp (MarkRead actor id) w (fun r w' => w_alerts w' = w_alerts w /\
    match r with
    | Ok true => exists v t, visibleAlerts (viewerOf actor) w !! id = Some v /\ VReadAt v = None /\
        visibleAlerts (viewerOf actor) w' !! id = Some (MkView (VAlert v) (Some t)) /\
        only_own_view (ActorUserID actor) id w w' /\ audited "read_alert" w w'
    | Ok false => unchanged_view w w' /\ w_audit w' = w_audit w
    | Err e => w_audit w' = w_audit w /\ (unchanged_view w w' \/ exists a b, e = revert_failed a b)
    end).
Proof.
  intros Hw Hn. unfold MarkRead, userStateChange. apply wp_bind, wp_visible; [done|by intros e; split_and!; try done; left|].
  intros v Hv Hid. rewrite Hid. destruct (IsSuperAdmin actor) eqn:Hsa; [by apply wp_ret|].
  pose proof (viewerUserArg_actor actor Hsa Hn) as Harg.
  destruct (visible_state _ _ _ _ _ Harg Hv) as (Hrow & Hread & Hdis & Haud).
  apply wp_bind, wp_MarkRead_db; [by intros e; split_and!; try done; left|by intros; apply wp_ret|].
  change (user_state (bump w)) with (user_state w). intros Hrd. set (st := MkUserState _ _).
  cbn [negb]. apply wp_audited_or_reverted. unfold record. apply wp_Record.
  - intros e _. unfold discard. apply wp_bind, wp_MarkUnread_db.
    + intros e2. split; [done|]. split; [done|]. right. by do 2 eexists.
    + intros Hnone. exfalso. change (ReadAt (user_state (set_state (ActorUserID actor) id st w)
        (Some (ActorUserID actor)) id) = None) in Hnone. by rewrite user_state_set, bool_decide_true in Hnone.
    + intros t _. apply wp_ret. split; [done|]. split; [done|]. left.
      apply (restored_view w _ (ActorUserID actor) id (user_state w (Some (ActorUserID actor)) id)); [done| |done].
      cbn [w_ustate set_state set_w_ustate bump set_w_clock set_w_calls]. rewrite insert_insert_eq. f_equal.
      change (user_state (bump (set_state (ActorUserID actor) id st (bump (bump w)))))
        with (user_state (set_state (ActorUserID actor) id st w)).
      rewrite user_state_set, bool_decide_true by done. unfold st. cbn [DismissedAt]. rewrite Hdis.
      clear -Hrd Hdis; destruct (user_state w (Some (ActorUserID actor)) id) as [rd ds]. cbn in *. by subst.
  - intros _. apply wp_bind, wp_Publish, wp_ret. split; [done|]. exists v, (w_clock (bump (bump w))).
    split_and!; [done|congruence| |by apply (set_state_own _ _ st)|by eexists].
    change (visibleAlerts (viewerOf actor) (set_state (ActorUserID actor) id st w) !! id = Some (MkView (VAlert v)
      (Some (w_clock (bump (bump w)))))).
    rewrite (state_visible _ _ _ _ (VAlert v) Harg); rewrite ?user_state_set, ?bool_decide_true by done; done.
Qed.

(** *** Marking everything read *)
Lemma mark_ids_state u now ids w v id :
  user_state (mark_ids u now ids w) (Some v) id =
  if bool_decide (v = u /\ id ∈ ids) then MkUserState (Some now) (DismissedAt (user_state w (Some v) id))
  else user_state w (Some v) id.
Proof.
  induction ids as [|i ids IH]; cbn [mark_ids fold_right].
  - rewrite bool_decide_false; [done|]. by intros [_ ?%not_elem_of_nil].
  - fold (mark_ids u now ids w). rewrite user_state_set.
    destruct (bool_decide_reflect (v = u /\ id = i)) as [[-> ->]|E1].
    + rewrite bool_decide_true by (split; [done|by left]). rewrite IH. by case_bool_decide.
    + rewrite IH. repeat case_bool_decide; rewrite ?elem_of_cons in *; naive_solver.
Qed.
Lemma mark_ids_rows u now ids w : same_rows w (mark_ids u now ids w) /\ w_audit (mark_ids u now ids w) = w_audit w.
Proof. induction ids as [|i ids IH]; [done|]. exact IH. Qed.

(** The revert loop: it puts every mark back, or remembers an error. *)
Lemma unmark_all_spec u ids re w :
  wp (unmark_all u ids re) w (fun r w' => same_rows w w' /\ w_audit w' = w_audit w /\
    exists o, r = Ok o /\ (o = None -> re = None /\ forall v id, user_state w' (Some v) id =
      if bool_decide (v = u /\ id ∈ ids) then MkUserState None (DismissedAt (user_state w (Some v) id))
      else user_state w (Some v) id)).
Proof.
  revert re w. induction ids as [|i ids IH]; intros re w; cbn [unmark_all].
  - apply wp_ret. split_and!; try done. exists re. split; [done|]. intros ->. split; [done|].
    intros v id. rewrite bool_decide_false; [done|]. by intros [_ ?%not_elem_of_nil].
  - assert (Hgo : forall re' w1, same_rows w w1 -> w_audit w1 = w_audit w ->
      (re' = None -> re = None /\ forall v id, user_state w1 (Some v) id =
        if bool_decide (v = u /\ id = i) then MkUserState None (DismissedAt (user_state w (Some v) id))
        else user_state w (Some v) id) ->
      wp (unmark_all u ids re') w1 (fun r w' => same_rows w w' /\ w_audit w' = w_audit w /\
        exists o, r = Ok o /\ (o = None -> re = None /\ forall v id, user_state w' (Some v) id =
          if bool_decide (v = u /\ id ∈ i :: ids) then MkUserState None (DismissedAt (user_state w (Some v) id))
          else user_state w (Some v) id))).
    { intros re' w1 Hr1 Ha1 Hs1. eapply wp_mono; [apply IH|]. intros r w2 (Hr2 & Ha2 & o & -> & Ho).
      split; [|split; [congruence|]].
      - destruct Hr1 as (?&?&?&?&?), Hr2 as (?&?&?&?&?). split_and!; congruence.
      - exists o. split; [done|]. intros Hn. destruct (Ho Hn) as [Hre Hst]. destruct (Hs1 Hre) as [Hre' Hst1].
        split; [done|]. intros v id. rewrite Hst, Hst1. clear -i. repeat case_bool_decide; rewrite ?elem_of_cons in *; naive_solver. }
    apply wp_bind, wp_attempt, wp_MarkUnread_db.
    + intros e. by apply Hgo.
    + intros Hn. apply Hgo; [done|done|]. intros ->. split; [done|]. intros v id.
      change (user_state (bump w)) with (user_state w). case_bool_decide as E; [|done]. destruct E as [-> ->].
      destruct (user_state w (Some u) i) as [rd ds]. cbn in *. by subst.
    + intros t Ht. apply Hgo; [done|done|]. intros ->. split; [done|]. intros v id.
      rewrite user_state_set. case_bool_decide as E; [|done]. by destruct E as [-> ->].
Qed.

(** After "mark all read" the actor has nothing unread and nobody else's
    views changed; the number returned is what was unread, and one record is
    written for the lot.  When that record cannot be written every mark is
    taken back, unless the error says the revert failed. *)
Theorem MarkAllRead_spec actor w : alerts_wf w -> ActorUserID actor <> "" -> IsSuperAdmin actor = false ->
  wp (MarkAllRead actor) w (fun r w' => w_alerts w' = w_alerts w /\
    match r with
    | Ok n => n = Z.of_nat (length (unread_views (visibleAlerts (viewerOf actor) w))) /\
        unread_views (visibleAlerts (viewerOf actor) w') = [] /\
        (forall v, ViewerUserID v <> ActorUserID actor -> visibleAlerts v w' = visibleAlerts v w) /\
        (if n =? 0 then w_audit w' = w_audit w else audited "marked_all_alerts_read" w w')
    | Err e => w_audit w' = w_audit w /\ (unchanged_view w w' \/ exists a b, e = revert_failed a b)
    end).
Proof.
  intros Hw Hn Hsa. unfold MarkAllRead. rewrite Hsa.
  pose proof (viewerUserArg_actor actor Hsa Hn) as Harg.
  assert (Hvu : ViewerUserID (viewerOf actor) = ActorUserID actor) by (unfold viewerOf; by rewrite Hsa).
  unfold MarkAllRead_db. rewrite Hvu, bool_decide_false by done.
  apply wp_bind, wp_wrap, wp_wrap, wp_sql; [by intros e _; split_and!; try done; left|]. intros _. cbv zeta.
  change (visibleAlerts (viewerOf actor) (bump w)) with (visibleAlerts (viewerOf actor) w).
  set (ids := unread_views (visibleAlerts (viewerOf actor) w)).
  destruct (Nat.eqb_spec (length ids) 0) as [Hz|Hz].
  { apply nil_length_inv in Hz. rewrite Hz. apply wp_ret. split; [done|]. split_and!; try done. }
  set (now := w_clock (bump w)).
  destruct (mark_ids_rows (ActorUserID actor) now ids (bump w)) as [Hrows Haudit].
  set (w1 := mark_ids (ActorUserID actor) now ids (bump w)) in *.
  change (same_rows w w1) in Hrows. change (w_audit w1 = w_audit w) in Haudit.
  assert (Hst : forall v id, user_state w1 (Some v) id =
    if bool_decide (v = ActorUserID actor /\ id ∈ ids) then MkUserState (Some now) (DismissedAt (user_state w (Some v) id))
    else user_state w (Some v) id) by (intros v id; unfold w1; rewrite mark_ids_state; reflexivity).
  assert (Hal : w_alerts w1 = w_alerts w) by apply Hrows.
  apply wp_audited_or_reverted. unfold record. apply wp_Record.
  - intros e _. apply wp_bind. eapply wp_mono; [apply unmark_all_spec|].
    intros r w2 (Hr2 & Ha2 & o & -> & Ho). change (same_rows w1 w2) in Hr2. assert (Hal2 : w_alerts w2 = w_alerts w) by (rewrite <-Hal; apply Hr2).
    assert (Hau2 : w_audit w2 = w_audit w) by (rewrite Ha2; exact Haudit).
    destruct o as [e2|]; [apply wp_throw; split; [done|]; split; [done|]; right; by do 2 eexists|].
    apply wp_ret. split; [done|]. split; [done|]. left. destruct (Ho eq_refl) as [_ Hback].
    intros v. apply visible_ext; [destruct Hrows as (?&?&?&?&?), Hr2 as (?&?&?&?&?); split_and!; congruence|].
    intros id. destruct (viewerUserArg v) as [u|]; [|done]. rewrite Hback.
    change (user_state (bump w1)) with (user_state w1). rewrite Hst. case_bool_decide as E; [|done].
    destruct E as [-> (x & Hx & _ & Hrd)%elem_of_unread_views].
    destruct (visible_state _ _ _ _ _ Harg Hx) as (_ & Hrd' & _ & _). rewrite Hrd in Hrd'.
    destruct (user_state w (Some (ActorUserID actor)) id) as [rd ds]. cbn in *. by subst.
  - intros _. apply wp_bind, wp_Publish, wp_ret. split; [exact Hal|]. split_and!; [done| | |].
    + apply elem_of_nil_inv. intros id (x & Hx & Ho & Hrd)%elem_of_unread_views.
      change (visibleAlerts (viewerOf actor) w1 !! id = Some x) in Hx.
      destruct (visible_state _ _ _ _ _ Harg Hx) as (Hrow & Hrd' & Hds & Hex). rewrite Hst in Hrd', Hds.
      case_bool_decide as E; [cbn in Hrd'; congruence|]. apply E. split; [done|].
      apply elem_of_unread_views. exists (MkView (VAlert x) (ReadAt (user_state w (Some (ActorUserID actor)) id))).
      split_and!; [|done|cbn [VReadAt]; congruence]. rewrite Hal in Hrow.
      apply (state_visible _ _ _ _ _ Harg Hrow Hds). rewrite <-Hex. unfold audiences_of.
      rewrite (proj1 (proj2 Hrows)). apply existsb_same. intros au. symmetry. by apply audience_matches_ext.
    + intros v Hv. apply visible_ext; [exact Hrows|]. intros id. destruct (viewerUserArg v) as [u|] eqn:E; [|done].
      change (user_state w1 (Some u) id = user_state w (Some u) id). rewrite Hst, bool_decide_false; [done|].
      intros [-> _]. by apply viewerUserArg_Some in E as [? _].
    + rewrite (proj2 (Z.eqb_neq _ _)) by lia. refine (ex_intro _ _ (conj _ _)); [cbn; f_equal; exact Haudit|reflexivity].
Qed.

(** *** Closing alerts *)
Lemma wp_mayResolve actor id w (Q : result bool -> World -> Prop) :
  (forall e, Q (Err e) (bump w)) ->
  (forall b, (b = true -> CanResolveAnyAlert actor = true \/ audiences_of w id = [AudienceUser (ActorUserID actor)]) ->
     Q (Ok b) w /\ Q (Ok b) (bump w)) ->
  wp (mayResolve actor id) w Q.
Proof.
  intros He Hb. unfold mayResolve. destruct (CanResolveAnyAlert actor) eqn:Hany; [by apply wp_ret, Hb; left|].
  destruct (IsSuperAdmin actor); [by apply wp_ret, Hb|]. unfold Audiences.
  apply wp_bind, wp_wrap, wp_wrap, wp_query; [intros; apply He|]. intros _. apply wp_ret, Hb.
  change (audiences_of (bump w) id) with (audiences_of w id).
  destruct (audiences_of w id) as [|[u|t|g] [|]]; try done. intros Hd. propb. right. by subst.
Qed.

Lemma alter_reopened id now by_ a w : alert_ok now id a -> is_open a = true -> w_alerts w !! id = Some a ->
  forall t, alter reopened id (alter (user_resolved t by_) id (w_alerts w)) = w_alerts w.
Proof.
  intros Hok Ho Ha t. unfold is_open in Ho. propb.
  pose proof (ok_unresolved _ _ _ Hok Ho) as Hby. pose proof (proj1 (ok_resolution _ _ _ Hok) Ho) as Hres.
  apply map_eq. intros i.
  destruct (decide (id = i)) as [<-|]; [|by rewrite !lookup_alter_ne].
  rewrite !lookup_alter_eq, Ha. cbn [fmap option_fmap option_map]. f_equal.
  unfold reopened, user_resolved. clear Hok Ha. destruct a; cbn in *. by subst.
Qed.

(** An alert is closed for everyone only by someone who sees it and who
    is an Admin or its sole addressee, only while it is open, with one audit
    record; an unaudited closing is undone, unless the error says the revert
    failed.  No other alert and nobody's read state changes. *)
Theorem ResolveAlert_spec actor id w : alerts_wf w ->
  wp (ResolveAlert actor id) w (fun r w' => w_ustate w' = w_ustate w /\ w_audiences w' = w_audiences w /\
    match r with
    | Ok true => exists v t, visibleAlerts (viewerOf actor) w !! id = Some v /\ is_open (VAlert v) = true /\
        (CanResolveAnyAlert actor = true \/ audiences_of w id = [AudienceUser (ActorUserID actor)]) /\
        w_alerts w' = <[id := user_resolved t (actor_id actor) (VAlert v)]> (w_alerts w) /\
        audited "resolved_alert" w w'
    | Ok false => w_alerts w' = w_alerts w /\ w_audit w' = w_audit w
    | Err e => w_audit w' = w_audit w /\ (w_alerts w' = w_alerts w \/ exists a b, e = revert_failed a b)
    end).
Proof.
  intros Hw. unfold ResolveAlert. apply wp_bind, wp_visible; [done|by intros e; split_and!; try done; left|].
  intros v Hv Hid. rewrite Hid. pose proof (visibleAlerts_row _ _ _ _ Hv) as Hrow.
  apply wp_bind, wp_mayResolve; [by intros e; split_and!; try done; left|].
  intros b Hb. change (audiences_of (bump w) id) with (audiences_of w id) in Hb.
  (* the rest, from wherever the permission check ended *)
  enough (Hrest : forall w1, w_alerts w1 = w_alerts w -> w_ustate w1 = w_ustate w -> w_audiences w1 = w_audiences w ->
    w_audit w1 = w_audit w -> wp (if negb b then throw ErrNotPermitted else
      (c ← ResolveByUser id (actor_id actor);
       if negb c then mret false
       else audited_or_reverted (record actor "resolved_alert" "alert" id (kind_detail (VAlert v))) (Reopen id)
              (changed ;; mret true))) w1
      (fun r w' => w_ustate w' = w_ustate w /\ w_audiences w' = w_audiences w /\
        match r with
        | Ok true => exists v t, visibleAlerts (viewerOf actor) w !! id = Some v /\ is_open (VAlert v) = true /\
            (CanResolveAnyAlert actor = true \/ audiences_of w id = [AudienceUser (ActorUserID actor)]) /\
            w_alerts w' = <[id := user_resolved t (actor_id actor) (VAlert v)]> (w_alerts w) /\
            audited "resolved_alert" w w'
        | Ok false => w_alerts w' = w_alerts w /\ w_audit w' = w_audit w
        | Err e => w_audit w' = w_audit w /\ (w_alerts w' = w_alerts w \/ exists a b, e = revert_failed a b)
        end)) by by split; apply Hrest.
  intros w1 Ha1 Hs1 Hd1 Hau1. destruct b; cbn [negb]; [|apply wp_throw; split_and!; try done; by left].
  specialize (Hb eq_refl). apply wp_bind. unfold ResolveByUser. apply wp_wrap, wp_sql.
  { intros e _. split_and!; try done. by left. }
  intros _. change (w_alerts (bump w1)) with (w_alerts w1). rewrite Ha1, Hrow.
  destruct (is_open (VAlert v)) eqn:Hopen; [|by apply wp_ret].
  set (t := w_clock (bump w1)). cbn [negb]. apply wp_audited_or_reverted. unfold record. apply wp_Record.
  - intros e _. unfold Reopen. apply wp_wrap, wp_sql.
    { intros e2 _. split_and!; try done. right. by do 2 eexists. }
    intros _. cbn [w_alerts upd_alert set_w_alerts bump set_w_clock set_w_calls].
    rewrite Ha1, lookup_alter_eq, Hrow. cbn [fmap option_fmap option_map].
    match goal with |- context [if ?b then inl _ else _] => destruct b end.
    { split_and!; try done. right. by do 2 eexists. }
    split_and!; try done. left. cbn. rewrite Ha1.
    by apply (alter_reopened id (w_clock w) (actor_id actor) (VAlert v) w); [apply (wf_rows w Hw)|..].
  - intros _. apply wp_bind, wp_Publish, wp_ret. split_and!; [done|done|]. exists v, t. split_and!; try done.
    + cbn. rewrite Ha1. apply map_eq. intros i. destruct (decide (i = id)) as [->|].
      * by rewrite lookup_alter_eq, lookup_insert_eq, Hrow.
      * by rewrite lookup_alter_ne, lookup_insert_ne.
    + refine (ex_intro _ _ (conj _ _)); [cbn; f_equal; exact Hau1|reflexivity].
Qed.

(** Whether closing "every key with this prefix but these" closes an alert. *)
Definition closes (prefix : string) (keep : list string) (a : Alert) : Prop :=
  is_open a = true /\ exists k, ADedupeKey a = Some k /\ has_prefix k prefix = true /\ k ∉ keep.
Lemma closes_iff prefix keep a : has_key_prefix prefix keep a = true <-> closes prefix keep a.
Proof.
  unfold has_key_prefix, closes. destruct (ADedupeKey a) as [k|].
  - rewrite escapeLike_prefix, !andb_true_iff, negb_true_iff, bool_decide_eq_false. split.
    + intros [[Hp Ho] Hk]. split; [done|]. by exists k.
    + by intros (Ho & k' & [= <-] & Hp & Hk).
  - split; [done|]. by intros (_ & k & [=] & _).
Qed.
#[global] Instance closes_dec prefix keep a : Decision (closes prefix keep a).
Proof.
  destruct (has_key_prefix prefix keep a) eqn:E; [left; by apply closes_iff|right].
  rewrite <-closes_iff. congruence.
Defined.

(** Closing by prefix closes exactly the open alerts whose key begins
    with the prefix, taken literally, and is not kept; it returns how many,
    tells browsers when there were any, and an empty prefix closes nothing. *)
Theorem ResolveConditionsExcept_spec prefix keep w :
  wp (ResolveConditionsExcept_alert prefix keep) w (fun r w' =>
    w_ustate w' = w_ustate w /\ w_audiences w' = w_audiences w /\ w_audit w' = w_audit w /\
    match r with
    | Ok n => prefix <> "" /\ exists t,
        (forall id a, w_alerts w !! id = Some a -> closes prefix keep a -> w_alerts w' !! id = Some (cleared t a)) /\
        (forall id a, w_alerts w !! id = Some a -> ~ closes prefix keep a -> w_alerts w' !! id = Some a) /\
        (forall id, w_alerts w !! id = None -> w_alerts w' !! id = None) /\
        n = Z.of_nat (length (map fst (map_to_list (filter (fun ia : string * Alert => closes prefix keep ia.2) (w_alerts w))))) /\
        w_events w' = w_events w ++ (if n =? 0 then [] else [EventAlertsChanged])
    | Err _ => w_alerts w' = w_alerts w
    end).
Proof.
  unfold ResolveConditionsExcept_alert. unfold is_empty. destruct (bool_decide_reflect (prefix = "")) as [|Hp];
    [by apply wp_throw|].
  apply wp_bind, wp_wrap. unfold ResolveByKeyPrefixExcept, clear_where. apply wp_wrap, wp_sql; [done|]. intros _.
  change (w_alerts (bump w)) with (w_alerts w).
  set (ids := map fst _). set (t := w_clock (bump w)).
  assert (Hids : ids = map fst (map_to_list (filter (fun ia : string * Alert => closes prefix keep ia.2) (w_alerts w)))).
  { unfold ids. do 2 f_equal. apply map_filter_ext. intros i x _. apply closes_iff. }
  assert (Hall : forall w', w_alerts w' = ((fun a => if has_key_prefix prefix keep a then cleared t a else a) <$> w_alerts w) ->
    (forall id a, w_alerts w !! id = Some a -> closes prefix keep a -> w_alerts w' !! id = Some (cleared t a)) /\
    (forall id a, w_alerts w !! id = Some a -> ~ closes prefix keep a -> w_alerts w' !! id = Some a) /\
    (forall id, w_alerts w !! id = None -> w_alerts w' !! id = None)).
  { intros w' ->. split_and!; intros id.
    - intros a Ha Hc. rewrite lookup_fmap, Ha. simpl. by rewrite (proj2 (closes_iff _ _ _) Hc).
    - intros a Ha Hc. rewrite lookup_fmap, Ha. simpl.
      destruct (has_key_prefix prefix keep a) eqn:E; [|done]. by apply closes_iff in E.
    - intros Ha. by rewrite lookup_fmap, Ha. }
  unfold count_closed. apply wp_bind, wp_when; rewrite negb_true_iff || rewrite negb_false_iff; intros Hz.
  - apply wp_Publish, wp_ret. split_and!; try done. exists t. apply Nat.eqb_neq in Hz.
    destruct (Hall (set_w_events (w_events (bump w) ++ [EventAlertsChanged])
      (set_w_alerts ((fun a => if has_key_prefix prefix keep a then cleared t a else a) <$> w_alerts w) (bump w))) eq_refl)
      as (H1 & H2 & H3). split_and!; [exact H1|exact H2|exact H3|by rewrite Hids|].
    by rewrite (proj2 (Z.eqb_neq _ _)) by lia.
  - apply wp_ret. split_and!; try done. exists t. apply Nat.eqb_eq in Hz.
    destruct (Hall (set_w_alerts ((fun a => if has_key_prefix prefix keep a then cleared t a else a) <$> w_alerts w) (bump w))
      eq_refl) as (H1 & H2 & H3). split_and!; [exact H1|exact H2|exact H3|by rewrite Hids|].
    rewrite (proj2 (Z.eqb_eq _ _)) by lia. by rewrite app_nil_r.
Qed.

(** An expiry run removes exactly the alerts last raised before the
    cutoff, the retention period before now, with their audiences and
    everybody's state of them, keeps all others as they were, and records how
    many it removed when it removed any. *)
Theorem ExpireOnce_spec local w :
  wp (ExpireOnce local) w (fun r w' =>
    match r with
    | Ok n => exists now, w_clock w <= now <= w_clock w' /\
        let cutoff := AddMonths local now (- (w_alert_retention w).1) in
        (forall id, w_alerts w' !! id =
           match w_alerts w !! id with Some a => if LastRaisedAt a <? cutoff then None else Some a | None => None end) /\
        (forall id, is_Some (w_alerts w' !! id) -> w_audiences w' !! id = w_audiences w !! id /\
           forall u, w_ustate w' !! (id, u) = w_ustate w !! (id, u)) /\
        n = Z.of_nat (size (w_alerts w)) - Z.of_nat (size (w_alerts w')) /\
        (if n =? 0 then w_audit w' = w_audit w else audited "expired_alerts" w w')
    | Err _ => w_audit w' = w_audit w
    end).
Proof.
  unfold ExpireOnce, GetAlertSettings. apply wp_bind, wp_wrap, wp_wrap, wp_query; [done|]. intros _.
  apply wp_bind, wp_time_now. set (now := w_clock (bump (bump w))). cbv zeta.
  change (w_alert_retention (bump w)) with (w_alert_retention w). set (cutoff := AddMonths _ _ _).
  apply wp_bind. unfold DeleteOlderThan. apply wp_wrap, wp_sql; [done|]. intros _. cbv zeta.
  set (w0 := bump (bump (bump w))). change (w_alerts w0) with (w_alerts w).
  change (w_audiences w0) with (w_audiences w). change (w_ustate w0) with (w_ustate w).
  set (gone := filter (fun ia : string * Alert => expired cutoff ia.2 = true) (w_alerts w)).
  set (kept := filter (fun ia : string * Alert => expired cutoff ia.2 = false) (w_alerts w)).
  set (w1 := set_w_ustate _ _).
  assert (Hsize : Z.of_nat (size gone) = Z.of_nat (size (w_alerts w)) - Z.of_nat (size kept)).
  { rewrite <-(map_filter_union_complement (fun ia : string * Alert => expired cutoff ia.2 = true) (w_alerts w)).
    rewrite map_size_disj_union by apply map_disjoint_filter_complement. fold gone.
    replace kept with (filter (fun ia : string * Alert => ~ expired cutoff ia.2 = true) (w_alerts w)); [lia|].
    apply map_filter_ext. intros i x _. by rewrite not_true_iff_false. }
  assert (Hkept : forall id, kept !! id =
    match w_alerts w !! id with Some a => if LastRaisedAt a <? cutoff then None else Some a | None => None end).
  { intros id. unfold kept. rewrite map_lookup_filter. destruct (w_alerts w !! id) as [a|]; [|done].
    simpl. case_guard as Hg; simpl; unfold expired in Hg; by destruct (LastRaisedAt a <? cutoff). }
  assert (Hrest : forall id, is_Some (kept !! id) -> w_audiences w1 !! id = w_audiences w !! id /\
    forall u, w_ustate w1 !! (id, u) = w_ustate w !! (id, u)).
  { intros id [a [Ha He]%map_lookup_filter_Some]. cbn in He.
    assert (Hg : gone !! id = None).
    { apply map_lookup_filter_None. right. intros b Hb. cbn. rewrite Ha in Hb. injection Hb as <-. by rewrite He. }
    split; [|intros u]; cbn.
    - rewrite map_lookup_filter. destruct (w_audiences w !! id); [|done]. simpl. by case_guard.
    - rewrite map_lookup_filter. destruct (w_ustate w !! (id, u)); [|done]. simpl. by case_guard. }
  assert (Hclock : w_clock w <= now) by (unfold now; cbn; lia).
  destruct (Z.eqb_spec (Z.of_nat (size gone)) 0) as [Hz|Hz].
  - apply wp_ret. exists now. split; [split; [done|unfold now; cbn; lia]|].
    split_and!; [exact Hkept|exact Hrest|transitivity (Z.of_nat (size gone)); [lia|exact Hsize]|done].
  - apply wp_bind, wp_Publish, wp_bind, wp_wrap, wp_Record; [done|]. intros _. apply wp_ret.
    exists now. split; [split; [done|unfold now; cbn; lia]|].
    split_and!; [exact Hkept|exact Hrest|exact Hsize|]. rewrite (proj2 (Z.eqb_neq _ _)) by done.
    refine (ex_intro _ _ (conj _ _)); [cbn; reflexivity|reflexivity].
Qed.
End Functional.

(** ** Witnesses *)
#[export] Instance no_notifier : Notifier.
Proof. refine {| AlertRaised := fun _ _ => mret tt |}. intros a e w. exists (w_calls w), (w_clock w), [], (w_email w). rewrite app_nil_r. split; [by destruct w|done]. Defined.

Definition alice : Actor := MkActor false "alice" TierDeveloper.
Definition dead_alert : RaiseParams :=
  MkRaise "instance_dead" AlertSeverityWarning "Instance died" "It stopped." "running_instance" "i1" "instance:i1"
    [AudienceTier TierDeveloper].
Lemma empty_wf : alerts_wf empty_world.
Proof.
  constructor; simpl; [done|done|by intros ? [? ?]|done|by intros ? ? [? ?]].
Qed.

(** One alert, raised into an empty inbox. *)
Definition inbox : World := snd (@Raise_alert quiet_env no_notifier dead_alert empty_world).
Definition inbox_id : string := "00000000-0000-0000-0000-00000000000d".
Lemma inbox_wf : alerts_wf inbox.
Proof. apply (@keeps_Raise quiet_env no_notifier dead_alert empty_world empty_wf). Qed.

Lemma alerts_always_wf_witness :
  size (w_alerts inbox) = 1%nat /\ alerts_wf (snd (@Dismiss quiet_env alice inbox_id inbox)).
Proof.
  split; [vm_compute; reflexivity|]. apply (@alerts_always_wf quiet_env no_notifier inbox); [exact inbox_wf|].
  apply rtc_once. exact (@step_dismiss quiet_env no_notifier alice inbox_id inbox).
Defined.

(** Raised again as critical: the same alert, a second occurrence, escalated. *)
Definition worse_alert : RaiseParams :=
  MkRaise "instance_dead" AlertSeverityCritical "Instance died" "Again." "running_instance" "i1" "instance:i1"
    [AudienceTier TierReadOnly].
Lemma Raise_spec_witness :
  let r := @Raise_alert quiet_env no_notifier worse_alert inbox in
  match fst r with
  | Ok res => Created res = false /\ Escalated res = true /\ Occurrences (RAlert res) = 2 /\
      raised (new_alert worse_alert) inbox res (snd r)
  | Err _ => False
  end.
Proof.
  pose proof (@Raise_spec quiet_env no_notifier worse_alert inbox inbox_wf) as Hs. unfold wp in Hs.
  assert (Hok : exists res, fst (@Raise_alert quiet_env no_notifier worse_alert inbox) = Ok res /\
    Created res = false /\ Escalated res = true /\ Occurrences (RAlert res) = 2)
    by (eexists; vm_compute; split_and!; reflexivity).
  destruct Hok as (res & Hr & Hc & He & Ho). cbv zeta. rewrite Hr in *. destruct Hs as (_ & Hs & _). auto.
Defined.

Lemma viewer_noninterference_witness :
  let w' := set_w_alerts (<["hidden" := fresh_alert "hidden" 0 (new_alert dead_alert)]> (w_alerts inbox)) inbox in
  fst (@UnreadCount quiet_env alice inbox) = Ok 1 /\
  (forall view limit, fst (@List_alerts quiet_env alice view limit inbox) = fst (@List_alerts quiet_env alice view limit w')) /\
  fst (@UnreadCount quiet_env alice inbox) = fst (@UnreadCount quiet_env alice w') /\
  (forall id, fst (@Get quiet_env alice id inbox) = fst (@Get quiet_env alice id w')).
Proof.
  cbv zeta. split; [vm_compute; reflexivity|].
  apply (@viewer_noninterference quiet_env alice); [exact inbox_wf|].
  split_and!; [|reflexivity|reflexivity]. apply map_eq. intros id. unfold visibleAlerts.
  rewrite !map_lookup_imap. simpl. destruct (decide (id = "hidden")) as [->|Hn].
  - rewrite lookup_insert_eq. vm_compute. reflexivity.
  - by rewrite lookup_insert_ne.
Defined.

Lemma Dismiss_spec_witness :
  let w' := snd (@Dismiss quiet_env alice inbox_id inbox) in
  is_Some (visibleAlerts (viewerOf alice) inbox !! inbox_id) /\ visibleAlerts (viewerOf alice) w' !! inbox_id = None /\
  only_own_view "alice" inbox_id inbox w'.
Proof.
  pose proof (@Dismiss_spec quiet_env alice inbox_id inbox inbox_wf ltac:(done)) as [_ Hs].
  assert (Hr : fst (@Dismiss quiet_env alice inbox_id inbox) = Ok true) by (vm_compute; reflexivity).
  rewrite Hr in Hs. destruct Hs as (_ & H1 & H2 & H3 & _). auto.
Defined.

Lemma MarkRead_spec_witness :
  let w' := snd (@MarkRead quiet_env alice inbox_id inbox) in
  exists v t, visibleAlerts (viewerOf alice) inbox !! inbox_id = Some v /\ VReadAt v = None /\
    visibleAlerts (viewerOf alice) w' !! inbox_id = Some (MkView (VAlert v) (Some t)).
Proof.
  pose proof (@MarkRead_spec quiet_env alice inbox_id inbox inbox_wf ltac:(done)) as [_ Hs].
  assert (Hr : fst (@MarkRead quiet_env alice inbox_id inbox) = Ok true) by (vm_compute; reflexivity).
  rewrite Hr in Hs. destruct Hs as (v & t & H1 & H2 & H3 & _). eauto.
Defined.

Lemma MarkAllRead_spec_witness :
  let w' := snd (@MarkAllRead quiet_env alice inbox) in
  fst (@MarkAllRead quiet_env alice inbox) = Ok 1 /\ unread_views (visibleAlerts (viewerOf alice) w') = [].
Proof.
  pose proof (@MarkAllRead_spec quiet_env alice inbox inbox_wf ltac:(done) eq_refl) as [_ Hs].
  assert (Hr : fst (@MarkAllRead quiet_env alice inbox) = Ok 1) by (vm_compute; reflexivity).
  rewrite Hr in Hs. destruct Hs as (_ & H1 & _). split; [exact Hr|exact H1].
Defined.

Lemma ResolveAlert_spec_witness :
  let root := MkActor false "root" TierAdmin in
  let w' := snd (@ResolveAlert quiet_env root inbox_id inbox) in
  exists v t, visibleAlerts (viewerOf root) inbox !! inbox_id = Some v /\ is_open (VAlert v) = true /\
    w_alerts w' = <[inbox_id := user_resolved t (Some "root") (VAlert v)]> (w_alerts inbox).
Proof.
  cbv zeta. pose proof (@ResolveAlert_spec quiet_env (MkActor false "root" TierAdmin) inbox_id inbox inbox_wf) as (_ & _ & Hs).
  assert (Hr : fst (@ResolveAlert quiet_env (MkActor false "root" TierAdmin) inbox_id inbox) = Ok true) by (vm_compute; reflexivity).
  rewrite Hr in Hs. destruct Hs as (v & t & H1 & H2 & _ & H3 & _). eauto.
Defined.
