(* ===== verification/AlertContract.v ===== *)
(** * The inbox keeps its promise to the producers

    [Alerts.v]'s raise and close satisfy the laws of [AlertRaiser.v], with the
    well-formedness of the alert tables as the invariant. *)
From stdpp Require Import base list strings gmap.
From Stdlib Require Import ZArith Lia.
From Stdlib Require Import Ascii.
From Stdlib Require String.
From S2P Require Import Prelude Text Db Rbac AlertRaiser AlertStore AlertFacts Alerts.
Local Open Scope string_scope.
Local Open Scope list_scope.
Local Open Scope Z_scope.

Section Contract.
Context `{Env} `{Notifier}.

Lemma optional_Some s k : optional s = Some k <-> k = s /\ k <> "".
Proof. unfold optional, is_empty. case_bool_decide; naive_solver. Qed.

Lemma key_open_with w k : key_open w k <-> exists id a, w_alerts w !! id = Some a /\ open_with_key k a = true.
Proof. unfold key_open. setoid_rewrite open_with_key_iff. done. Qed.

(** The keys open after a raise: those open before, and its own. *)
Lemma raised_keys p w res w' : raised (new_alert p) w res w' ->
  forall k, key_open w' k <-> key_open w k \/ (k = RDedupeKey p /\ k <> "").
Proof.
  intros (Hel & Hid & _ & _ & Hcase) k. rewrite !key_open_with.
  assert (Hres : open_with_key k (RAlert res) = true <-> optional (RDedupeKey p) = Some k).
  { rewrite open_with_key_iff. destruct Hcase as [(_ & _ & _ & _ & (now & ->) & _)|(_ & k0 & old & now & Hk & _ & Ho & -> & _)].
    - simpl. naive_solver.
    - simpl in *. apply open_with_key_iff in Ho as [Hko Hro]. rewrite Hk, Hko, Hro. naive_solver. }
  rewrite <-optional_Some, <-Hres. split.
  - intros (id & a & Ha & Ho). destruct (decide (id = AlertID (RAlert res))) as [->|Hne].
    + right. rewrite Hid in Ha. by injection Ha as ->.
    + left. exists id, a. split; [|done]. by rewrite <-(Hel id Hne).
  - intros [(id & a & Ha & Ho)|Ho]; [|by exists (AlertID (RAlert res)), (RAlert res)].
    destruct (decide (id = AlertID (RAlert res))) as [->|Hne]; [|by exists id, a; rewrite (Hel id Hne)].
    exists (AlertID (RAlert res)), (RAlert res). split; [done|]. apply Hres.
    destruct Hcase as [(_ & _ & Hnone & _)|(_ & k0 & old & now & Hk & Hold & Ho' & _)]; [congruence|].
    rewrite Hold in Ha. injection Ha as <-. apply open_with_key_iff in Ho as [Ho _], Ho' as [Ho' _].
    simpl in Hk. congruence.
Qed.
Lemma raised_alert p w res w' : RDedupeKey p <> "" -> raised (new_alert p) w res w' -> alert_raised p w'.
Proof.
  intros Hne (_ & Hid & _ & Haud & Hcase). assert (Hopt : optional (RDedupeKey p) = Some (RDedupeKey p)) by by apply optional_Some.
  exists (AlertID (RAlert res)), (RAlert res). split; [done|].
  assert (Hau : forall au, au ∈ RAudiences p -> au ∈ default [] (w_audiences w' !! AlertID (RAlert res)))
    by (intros au Hin; apply Haud; by right).
  destruct Hcase as [(_ & _ & _ & _ & (now & Heq) & _)|(_ & k0 & old & now & Hk & _ & Ho & Heq & _)].
  - rewrite Heq at 1 2 3 4 5. simpl. by split_and!.
  - rewrite Heq at 1 2 3 4 5. simpl in *. apply open_with_key_iff in Ho as [Hko Hro]. split_and!; try done. congruence.
Qed.

Definition close_where (p : Alert -> bool) (t : Time) (alerts : gmap string Alert) : gmap string Alert :=
  fmap (M := gmap string) (fun a : Alert => if p a then cleared t a else a) alerts.

(** The keys open after every alert that satisfies [p] was closed. *)
Lemma cleared_keys (p : Alert -> bool) t w w' : w_alerts w' = (close_where p t (w_alerts w)) ->
  forall k, key_open w' k <-> exists id a, w_alerts w !! id = Some a /\ open_with_key k a = true /\ p a = false.
Proof.
  intros Hw k. rewrite key_open_with, Hw. setoid_rewrite lookup_fmap. split.
  - intros (id & a & (a0 & Ha0 & ->)%fmap_Some & Ho). exists id, a0. destruct (p a0) eqn:Hp; [|done].
    apply open_with_key_iff in Ho as [_ Ho]. done.
  - intros (id & a & Ha & Ho & Hp). exists id, a. rewrite Ha. simpl. by rewrite Hp.
Qed.
Lemma wp_clear_where (p : Alert -> bool) w (Q : result (list string) -> World -> Prop) :
  (forall e, Q (Err e) (bump w)) ->
  (forall ids (t : Time), Q (Ok ids) (set_w_alerts (close_where p t (w_alerts w)) (bump w))) ->
  wp (clear_where p) w Q.
Proof. intros He Hok. unfold clear_where. apply wp_sql; [intros; apply He|intros _; apply Hok]. Qed.

Lemma close_law (p : Alert -> bool) pre1 pre2 w : (forall a, p a = true -> is_open a = true) -> alerts_wf w ->
  wp (ids ← wrap pre1 (wrap pre2 (clear_where p)); count_closed ids) w (fun (r : result Z) w' => alerts_wf w' /\
    match r with
    | Ok _ => forall k, key_open w' k <-> exists id a, w_alerts w !! id = Some a /\ open_with_key k a = true /\ p a = false
    | Err _ => alert_tables w' = alert_tables w
    end).
Proof.
  intros Hp Hw. apply wp_and.
  { apply (wp_keeps alerts_wf); [|exact Hw].
    apply keeps_bind; [by do 2 apply keeps_wrap; apply keeps_clear_where|]. intros ids. unfold count_closed. apply _. }
  apply wp_bind, wp_wrap, wp_wrap, wp_clear_where; [done|]. intros ids t. unfold count_closed, changed.
  apply wp_bind, wp_when; intros _; [apply wp_Publish|]; apply wp_ret; by eapply cleared_keys.
Qed.

(** The log only grows. *)
Lemma grows_preserves {A} (m : M A) `{!Preserves w_logs m} w : w_logs w `prefix_of` w_logs (snd (m w)).
Proof. by rewrite (preserves (m := m) (f := w_logs) w). Qed.
Lemma grows_bind {A B} (m : M A) (k : A -> M B) w : w_logs w `prefix_of` w_logs (snd (m w)) ->
  (forall a w, w_logs w `prefix_of` w_logs (snd (k a w))) -> w_logs w `prefix_of` w_logs (snd ((m ≫= k) w)).
Proof.
  intros Hm Hk. unfold mbind, ST_bind. destruct (m w) as [[a|e] w']; [|exact Hm].
  etransitivity; [exact Hm|apply Hk].
Qed.
Lemma grows_close {A} (m : M (list string)) (k : list string -> M A) w `{!Preserves w_logs m} :
  (forall ids, Preserves w_logs (k ids)) -> w_logs w `prefix_of` w_logs (snd ((m ≫= k) w)).
Proof. intros. apply grows_preserves. apply _. Qed.
Lemma count_closed_logs ids : Preserves w_logs (count_closed ids).
Proof. unfold count_closed, changed. apply _. Qed.
Lemma clear_where_logs p : Preserves w_logs (clear_where p).
Proof. by apply preserves_sql; [apply _|]. Qed.

#[global] Program Instance alert_raiser_laws : AlertRaiserLaws := {| raiser_inv := alerts_wf |}.
Next Obligation.
  intros p w. simpl. unfold Raise_alert. destruct (Validate p); [done|]. apply grows_bind.
  - apply grows_preserves. by apply preserves_wrap, Raise_db_frame.
  - intros res w1. apply grows_bind; [|done]. destruct (Created res || Escalated res); [|done]. cbn [when].
    apply grows_bind; [done|]. intros _ w2. destruct (AlertRaised_quiet (RAlert res) (Escalated res) w2) as (n & c & l & em & -> & _).
    by apply prefix_app_r.
Qed.
Next Obligation.
  intros k w. apply grows_close; [|apply count_closed_logs]. do 2 apply preserves_wrap. apply clear_where_logs.
Qed.
Next Obligation.
  intros p k w. simpl. unfold ResolveConditionsExcept_alert. destruct (is_empty p); [done|].
  apply grows_close; [|apply count_closed_logs]. do 2 apply preserves_wrap. apply clear_where_logs.
Qed.
Next Obligation. intros w w' Hc [= Ha Hd Hs]. by apply alerts_wf_frame. Qed.
Next Obligation.
  intros p w Hw. apply wp_and; [by apply (wp_keeps alerts_wf); [apply _|]|].
  eapply wp_mono; [by apply Raise_alert_ok|]. intros [res|e] w'.
  - intros (_ & Hr & _). split; [intros Hne; by eapply raised_alert|by apply (raised_keys p w res)].
  - intros [(Ha & Hd & Hs) _]. unfold alert_tables. congruence.
Qed.
Next Obligation.
  intros key w Hw. eapply wp_mono; [apply (close_law (open_with_key key)); [|done]|].
  { by intros a [_ Ho]%andb_true_iff. }
  intros [n|e] w' [Hwf Hk]; split; try done. intros k. rewrite Hk, key_open_with. split.
  - intros (id & a & Ha & Ho & Hne). split; [eauto|]. intros ->. congruence.
  - intros [(id & a & Ha & Ho) Hne]. exists id, a. split_and!; try done. apply not_true_iff_false. intros Ho'.
    apply open_with_key_iff in Ho as [? _], Ho' as [? _]. congruence.
Qed.
Next Obligation.
  intros prefix keep w Hw. simpl. unfold ResolveConditionsExcept_alert. destruct (is_empty prefix) eqn:He.
  { by apply wp_throw. }
  eapply wp_mono; [apply (close_law (has_key_prefix prefix keep)); [|done]|].
  { by intros a [Ho _]%closes_iff. }
  intros [n|e] w' [Hwf Hk]; split; try done. intros k. rewrite Hk, key_open_with. split.
  - intros (id & a & Ha & Ho & Hp). split; [eauto|]. intros [Hpre Hkeep].
    apply not_true_iff_false in Hp. apply Hp, closes_iff. apply open_with_key_iff in Ho as [Hko Hro].
    split; [by apply bool_decide_eq_true|]. by exists k.
  - intros [(id & a & Ha & Ho) Hn]. exists id, a. split_and!; try done. apply not_true_iff_false.
    intros (_ & k' & Hk' & Hpre & Hkeep)%closes_iff. apply open_with_key_iff in Ho as [Hko _].
    apply Hn. rewrite Hko in Hk'. injection Hk' as <-. done.
Qed.
End Contract.
