(* ===== verification/Lifecycle.v ===== *)
(** * Loading and unloading models ([internal/lifecycle])

    [containername.go] and the service of [service.go]: load, unload, the
    reports of an agent and the sweep on reconnect.  The alert inbox is seen
    only through [AlertRaiser] and its laws. *)
From stdpp Require Import base list strings gmap.
From Stdlib Require Import ZArith Lia.
From Stdlib Require Import Ascii.
From Stdlib Require String.
From S2P Require Import Prelude Text Json Engines Db GoTime Rbac AlertRaiser InstanceStore ProfileStore Wire.
Local Open Scope string_scope.
Local Open Scope list_scope.
Local Open Scope Z_scope.

Definition ErrInvalidLoad : error := Sentinel "lifecycle.ErrInvalidLoad" "invalid load request".
Definition ErrAlreadyRunning : error :=
  Sentinel "lifecycle.ErrAlreadyRunning" "profile already has an active running instance".
Definition ErrTargetNodeOffline : error := Sentinel "lifecycle.ErrTargetNodeOffline" "target node is not connected".
Definition ErrInstanceNotRunning : error :=
  Sentinel "lifecycle.ErrInstanceNotRunning" "running instance is not in a running state".

(** ** [containername.go] *)
Definition containerNamePrefix : string := "sparky-".
Definition maxContainerNameProfileLen : nat := 40.

(** [startedAt.UTC().Format("20060102-150405")] *)
Definition format_ref (t : Time) : string :=
  let '(y, m, d) := DateOf UTC t in
  padded 4 y +:+ padded 2 m +:+ padded 2 d +:+ "-"
  +:+ padded 2 (HourOf UTC t) +:+ padded 2 (MinuteOf UTC t) +:+ padded 2 (SecondOf UTC t).

Definition name_char (c : ascii) : bool := is_alnum c || is_char 95 c || is_char 46 c.
(** The loop over the runes: a kept character is itself, a run of others one
    dash.  A rune beyond ASCII is never kept, so the loop may go by its
    decoded chunks. *)
Definition kept_rune (c : Z * list ascii) : option ascii :=
  match c.2 with
  | [a] => if name_char a then Some a else None
  | _ => None
  end.
Fixpoint sanitize_loop (lastDash : bool) (l : list (Z * list ascii)) : list ascii :=
  match l with
  | [] => []
  | r :: l' =>
      match kept_rune r with
      | Some a => a :: sanitize_loop false l'
      | None => if lastDash then sanitize_loop true l' else ascii_of_N 45 :: sanitize_loop true l'
      end
  end.
(** [strings.Trim(s, "-_.")] *)
Definition trimmed (c : ascii) : bool := is_char 45 c || is_char 95 c || is_char 46 c.
Fixpoint trim_left (l : list ascii) : list ascii :=
  match l with
  | c :: l' => if trimmed c then trim_left l' else l
  | [] => []
  end.
Definition trim (l : list ascii) : list ascii := rev (trim_left (rev (trim_left l))).
Definition sanitizeContainerNamePart (s : string) : string :=
  let out := trim (sanitize_loop false (chunks s)) in
  let out := if Nat.ltb maxContainerNameProfileLen (length out) then trim (take maxContainerNameProfileLen out) else out in
  match out with [] => "profile" | _ => of_bytes out end.
Definition containerName (profileName : string) (startedAt : Time) : string :=
  containerNamePrefix +:+ sanitizeContainerNamePart profileName +:+ "-" +:+ format_ref startedAt.

(** ** The service *)

Definition mapInstanceStatus (status : string) : result RunningInstanceStatus :=
  if bool_decide (status = InstanceStatusRunning) then Ok Running
  else if bool_decide (status = InstanceStatusFailed) then Ok Failed
  else if bool_decide (status = InstanceStatusStopped) then Ok Stopped
  else Err (Opaque ("unknown instance status " +:+ quote status)).
Definition mapHealthStatus (status : string) : result InstanceHealthStatus :=
  if bool_decide (status = InstanceHealthStatusHealthy) then Ok HealthHealthy
  else if bool_decide (status = InstanceHealthStatusUnhealthy) then Ok HealthUnhealthy
  else if bool_decide (status = InstanceHealthStatusDead) then Ok HealthDead
  else Err (Opaque ("unknown instance health status " +:+ quote status)).

(** [paramsHaveKey]: a JSON object with that key, read as a map. *)
Definition paramsHaveKey (params : RawMessage) (key : string) : bool :=
  match Unmarshal params with
  | Some (JObj l) => existsb (fun kv : string * json => bool_decide (kv.1 = key)) l
  | _ => false
  end.
Definition instanceDeadAlertKey (instanceID : string) : string := "instance_dead:" +:+ instanceID.

(** [spec.Image = *profile.Image] when an override is set. *)
Definition override_image (image : option string) (spec : LaunchSpec) : LaunchSpec :=
  match image with
  | Some i => if bool_decide (i = "") then spec else set_Image i spec
  | None => spec
  end.
Definition load_message (profile : Profile) (spec : LaunchSpec) (inst : RunningInstance) (launched : Time) : Message :=
  MLoadInstance (MkLoadInstance (InstID inst) (ProfModelRef profile) (EngineType profile)
    (default "" (EngineVersion profile)) (ProfQuantization profile) (Image spec) (Args spec) (ProfPort profile)
    (Db.RequiresFullGPUResidency profile) (ShmSizeBytes spec) (IPCMode spec)
    (containerName (ProfName profile) launched) (ProfID profile)).
Definition load_detail (profile : Profile) : gmap string DVal :=
  <["profile_id" := DStr (ProfID profile)]> {[ "model_ref" := DStr (ProfModelRef profile) ]}.
Definition invalid_name (e : error) : error :=
  Errorf "" ErrInvalidLoad (": the profile's name is the model id the engine serves, and it is not valid: "
    +:+ error_text e +:+ "; rename the profile").
Definition no_target (id : string) : error :=
  Errorf "" ErrInvalidLoad (": profile " +:+ id +:+ " has no target_node_id (clustered profiles are not supported yet)").
Definition dead_title (name : string) : string := name +:+ " is no longer running".
Definition dead_body : string :=
  "Its container or process exited or was removed while Sparky still expects it to be running. The Dashboard and the Profiles page show it as dead. Unload it to clear it; the saved log (Container logs, Developer and above) then shows why it stopped.".
Definition dead_alert (name instanceID : string) (startedBy : option string) : RaiseParams :=
  MkRaise "instance_dead" AlertSeverityCritical (dead_title name) dead_body "running_instance" instanceID
    (instanceDeadAlertKey instanceID)
    (AudienceTier TierAdmin :: match startedBy with Some u => [AudienceUser u] | None => [] end).
(** [json.Marshal] of the health detail, which refuses NaN and infinities. *)
Definition marshal_detail (d : gmap string float64) : option (gmap string float64) :=
  if forallb (fun kv : string * float64 => match kv.2 with FDec _ _ => true | _ => false end) (map_to_list d)
  then Some d else None.

Section Service.
Context `{Env} `{AlertRaiser}.

(** [launchTime] *)
Definition launchTime (inst : RunningInstance) : M Time :=
  if StartedAt inst =? 0 then time_now else mret (StartedAt inst).

Definition mark_failed (id : string) (e : error) : M unit :=
  log_on_error "lifecycle: mark running instance %s failed after dispatch error: %v"
    (SetStatus id Failed None (Some (error_text e))).
Definition dispatch_error (what node : string) (e : error) : error :=
  Errorf ("dispatch " +:+ what +:+ " to node " +:+ node +:+ ": ") e "".

(** From the new row on: the envelope, the dispatch, the audit record. *)
Definition launch (actor : Actor) (profile : Profile) (targetNodeID : string) (spec : LaunchSpec) : M RunningInstance :=
  inst ← wrap "create running instance: " (Create_instance (ProfID profile) targetNodeID (actor_id actor));
  launched ← launchTime inst;
  env ← wrap "build load_instance envelope: " (NewEnvelope (load_message profile spec inst launched));
  r ← attempt (Send targetNodeID env);
  match r with
  | Err e =>
      let dispatchErr := dispatch_error "load_instance" targetNodeID e in
      mark_failed (InstID inst) dispatchErr;;
      throw dispatchErr
  | Ok _ =>
      wrap "record audit: " (Record_ (actor_id actor) (IsSuperAdmin actor) "loaded_model" "running_instance"
        (InstID inst) (Some (load_detail profile)));;
      mret inst
  end.
(** [LoadInstance] up to the new row: every check, the one for an active instance
    of the profile included, and what is launched, where.  Nothing keeps another
    request from being served between it and [launch]. *)
Definition prepare_launch (actor : Actor) (profileID : string) : M (Profile * string * LaunchSpec) :=
  guard_err (CanLaunchInstances actor) ErrNotPermitted;;
  guard_err (negb (bool_decide (profileID = ""))) (Errorf "" ErrInvalidLoad ": profile_id is required");;
  profile ← map_err (fun e => if errors_Is e "db.ErrProfileNotFound" then e else Errorf "look up profile: " e "")
              (FindByID_profile profileID);
  match TargetNodeID profile with
  | None => throw (no_target (ProfID profile))
  | Some targetNodeID =>
      active ← attempt (FindActiveByProfileID (ProfID profile));
      match active with
      | Ok _ => throw ErrAlreadyRunning
      | Err e =>
          guard_err (errors_Is e "db.ErrRunningInstanceNotFound") (Errorf "check for an active running instance: " e "");;
          connected ← Connected targetNodeID;
          guard_err connected ErrTargetNodeOffline;;
          adapter ← wrap "look up engine adapter: " (lift (Registry_Adapter (EngineType profile)));
          match CheckModelID (ProfName profile) with
          | Err e => throw (invalid_name e)
          | Ok _ =>
              spec ← wrap "build launch spec: " (lift (BuildLaunchSpec adapter (EngineParams profile) (ProfName profile)));
              when (paramsHaveKey (EngineParams profile) "served_model_name")
                (logf "lifecycle: profile %q sets served_model_name in engine_params; ignored - the engine serves the model under the profile name");;
              mret (profile, targetNodeID, override_image (ProfImage profile) spec)
          end
      end
  end.
Definition LoadInstance (actor : Actor) (profileID : string) : M RunningInstance :=
  p ← prepare_launch actor profileID;
  let '(profile, targetNodeID, spec) := p in launch actor profile targetNodeID spec.

Definition revert_running (id : string) (e : error) : M unit :=
  log_on_error "lifecycle: revert running instance %s to running after dispatch error: %v"
    (SetStatus id Running None (Some (error_text e))).
Definition UnloadInstance (actor : Actor) (instanceID : string) : M RunningInstance :=
  guard_err (CanLaunchInstances actor) ErrNotPermitted;;
  inst ← map_err (fun e => if errors_Is e "db.ErrRunningInstanceNotFound" then e else Errorf "look up running instance: " e "")
           (FindByID_instance instanceID);
  guard_err (bool_decide (InstStatus inst = Running)) ErrInstanceNotRunning;;
  connected ← Connected (PrimaryNodeID inst);
  guard_err connected ErrTargetNodeOffline;;
  wrap ("set status for running instance " +:+ InstID inst +:+ ": ") (SetStatus (InstID inst) Stopping None None);;
  env ← wrap "build unload_instance envelope: " (NewEnvelope (MUnloadInstance (InstID inst)));
  r ← attempt (Send (PrimaryNodeID inst) env);
  match r with
  | Err e =>
      let dispatchErr := dispatch_error "unload_instance" (PrimaryNodeID inst) e in
      revert_running (InstID inst) dispatchErr;;
      throw dispatchErr
  | Ok _ =>
      wrap "record audit: " (Record_ (actor_id actor) (IsSuperAdmin actor) "unloaded_model" "running_instance"
        (InstID inst) None);;
      mret (set_InstStatus Stopping inst)
  end.

Definition resolveInstanceDeadAlert (instanceID : string) : M unit :=
  log_on_error "lifecycle: close dead alert for running instance %s: %v"
    (ResolveCondition (instanceDeadAlertKey instanceID)).
Definition dead_name (profileID : string) : M string :=
  r ← attempt (FindByID_profile profileID);
  match r with
  | Ok p => mret (ProfName p)
  | Err _ => logf "lifecycle: look up profile %s for the dead alert of instance %s: %v";; mret "An instance"
  end.
Definition raiseInstanceDeadAlert (instanceID : string) : M unit :=
  r ← attempt (FindByID_instance instanceID);
  match r with
  | Err _ => logf "lifecycle: look up running instance %s for its dead alert: %v"
  | Ok inst =>
      name ← dead_name (InstProfileID inst);
      log_on_error "lifecycle: raise dead alert for running instance %s: %v"
        (Raise (dead_alert name instanceID (StartedBy inst)))
  end.

(** Whether the instance was dead before this report. *)
Definition already_dead (status : InstanceHealthStatus) (id : string) : M bool :=
  if bool_decide (status = HealthDead) then
    r ← attempt (FindByID_instance id);
    match r with
    | Err _ => logf "lifecycle: look up running instance %s before its dead report: %v";; mret false
    | Ok inst => mret (bool_decide (HealthStatus inst = HealthDead))
    end
  else mret false.
Definition health_detail (d : gmap string float64) : M (option (gmap string float64)) :=
  if bool_decide (d = ∅) then mret None
  else match marshal_detail d with
       | Some d => mret (Some d)
       | None => logf "lifecycle: marshal health detail for instance %s: %v";; mret None
       end.
Definition HandleInstanceHealth (nodeID : string) (env : Envelope) : M unit :=
  match env with
  | EInstanceHealth (Err _) => logf "lifecycle: node %s sent a malformed instance_health: %v"
  | EInstanceHealth (Ok health) =>
      match mapHealthStatus (ih_Status health) with
      | Err _ => logf "lifecycle: node %s reported health for instance %s: %v"
      | Ok status =>
          detail ← health_detail (ih_Detail health);
          alreadyDead ← already_dead status (ih_InstanceID health);
          r ← attempt (UpdateHealth (ih_InstanceID health) status (ih_CheckedAt health) detail);
          match r with
          | Err _ => logf "lifecycle: update health for running instance %s: %v"
          | Ok _ =>
              if negb (bool_decide (status = HealthDead)) then resolveInstanceDeadAlert (ih_InstanceID health)
              else when (negb alreadyDead) (raiseInstanceDeadAlert (ih_InstanceID health))
          end
      end
  | _ => mret tt
  end.

Definition nonempty (s : string) : option string := if bool_decide (s = "") then None else Some s.
Definition HandleInstanceResult (nodeID : string) (env : Envelope) : M unit :=
  match env with
  | EInstanceResult (Err _) => logf "lifecycle: node %s sent a malformed instance_result: %v"
  | EInstanceResult (Ok res) =>
      match mapInstanceStatus (ir_Status res) with
      | Err _ => logf "lifecycle: node %s reported instance %s: %v"
      | Ok status =>
          let actualPort := if bool_decide (status = Running) && negb (ir_ActualPort res =? 0)
                            then Some (ir_ActualPort res) else None in
          r ← attempt (SetStatus (ir_InstanceID res) status actualPort (nonempty (ir_ErrorMessage res)));
          match r with
          | Err _ => logf "lifecycle: set status for running instance %s: %v"
          | Ok _ =>
              when (bool_decide (status = Stopped) || bool_decide (status = Failed))
                (resolveInstanceDeadAlert (ir_InstanceID res))
          end
      end
  | _ => mret tt
  end.

(** One turn of the sweep. *)
Definition check_engine (profileID : string) : M string :=
  r ← attempt (FindByID_profile profileID);
  match r with
  | Ok p => mret (EngineType p)
  | Err _ => logf "lifecycle: look up profile %s for instance %s: %v";; mret ""
  end.
Definition reconcile_one (nodeID : string) (inst : RunningInstance) : M unit :=
  engine ← check_engine (InstProfileID inst);
  r ← attempt (NewEnvelope (MCheckInstance (InstID inst) (default 0 (ActualPort inst)) engine));
  match r with
  | Err _ => logf "lifecycle: build check_instance envelope for instance %s: %v"
  | Ok env => log_on_error "lifecycle: dispatch check_instance for instance %s to node %s: %v" (Send nodeID env)
  end.
Definition ReconcileNode (nodeID : string) : M unit :=
  r ← attempt (ListRunningByNode nodeID);
  match r with
  | Err _ => logf "lifecycle: list running instances for node %s: %v"
  | Ok instances => forM_ instances (reconcile_one nodeID)
  end.
Definition ListInstances : M (list RunningInstance) := wrap "list running instances: " List_db.
End Service.
