(* ===== verification/LifecycleSpec.v ===== *)
(** * What loading and unloading guarantee

    The theorems about [Lifecycle.v]. *)
From stdpp Require Import base list strings gmap.
From Stdlib Require Import ZArith Lia.
From Stdlib Require Import Ascii.
From Stdlib Require String.
From S2P Require Import Prelude Text Json Engines Db Calendar GoTime Rbac AlertRaiser InstanceStore ProfileStore Wire Lifecycle.
Local Open Scope string_scope.
Local Open Scope list_scope.
Local Open Scope Z_scope.

(** ** Loading *)
Section Load.
Context `{Env}.

(** What has been checked before a row is created. *)
Definition loadable (actor : Actor) (profileID : string) (w : World) (profile : Profile) (node : string) (spec : LaunchSpec) : Prop :=
  CanLaunchInstances actor = true /\ w_profiles w !! profileID = Some profile /\ TargetNodeID profile = Some node /\
  (forall k i, w_instances w !! k = Some i -> InstProfileID i = ProfID profile -> inst_active i = false) /\
  ValidModelID (ProfName profile) = true /\
  exists adapter built, Registry_Adapter (EngineType profile) = Ok adapter /\
    BuildLaunchSpec adapter (EngineParams profile) (ProfName profile) = Ok built /\
    spec = override_image (ProfImage profile) built.
(** The new row, of the profile, on its node, starting. *)
Definition fresh_instance (actor : Actor) (profile : Profile) (node : string) (w : World) (inst : RunningInstance) : Prop :=
  w_instances w !! InstID inst = None /\
  inst = new_instance (InstID inst) (ProfID profile) node (actor_id actor) (StartedAt inst).
Definition load_record (actor : Actor) (profile : Profile) (inst : RunningInstance) (r : AuditRecord) : Prop :=
  r = MkAudit (actor_id actor) (IsSuperAdmin actor) "loaded_model" "running_instance" (InstID inst)
        (Some (load_detail profile)) (AuditCreatedAt r).

(** How a launch ends, from the new row on. *)
Definition launched_as (actor : Actor) (profile : Profile) (node : string) (spec : LaunchSpec) (w : World)
    (r : result RunningInstance) (w' : World) : Prop :=
  w_profiles w' = w_profiles w /\
  match r with
  | Ok inst => fresh_instance actor profile node w inst /\ w_instances w' = <[InstID inst := inst]> (w_instances w) /\
      (exists t, w_sent w' = w_sent w ++ [(node, load_message profile spec inst t)]) /\
      exists a, w_audit w' = w_audit w ++ [a] /\ load_record actor profile inst a
  | Err e => w_audit w' = w_audit w /\
      ((w_instances w' = w_instances w /\ w_sent w' = w_sent w) \/
       exists inst, fresh_instance actor profile node w inst /\
         ((w_sent w' = w_sent w /\ (w_instances w' = <[InstID inst := inst]> (w_instances w) \/
            exists now, w_instances w' =
              <[InstID inst := status_row now Failed None (Some (error_text e)) inst]> (w_instances w))) \/
          (w_instances w' = <[InstID inst := inst]> (w_instances w) /\
           exists t, w_sent w' = w_sent w ++ [(node, load_message profile spec inst t)])))
  end.

Lemma launch_spec actor profile node spec w : wp (launch actor profile node spec) w (launched_as actor profile node spec w).
Proof.
  unfold launch. apply wp_bind, wp_wrap, wp_Create_instance.
  { intros e. split; [done|]. split; [done|]. by left. }
  intros inst Hn Hi _ _. assert (Hf : fresh_instance actor profile node w inst).
  { split; [exact Hn|]. rewrite Hi. done. }
  clear Hi. apply (wp_observe observed (w_profiles w, <[InstID inst := inst]> (w_instances w), w_sent w, w_audit w)); [done|].
  intros w1 Hw1. apply wp_bind.
  assert (Hl : wp (launchTime inst) w1 (fun r w' => is_ok r = true /\ observed w' = observed w1)).
  { unfold launchTime. destruct (StartedAt inst =? 0); [by apply wp_time_now|by apply wp_ret]. }
  eapply wp_mono; [exact Hl|]. clear Hl. intros [t|e] w2 [Hok Hw2]; [|done]. rewrite Hw1 in Hw2. clear w1 Hw1 Hok.
  apply wp_bind, wp_wrap, wp_NewEnvelope; intros.
  { injection Hw2 as H1 H2 H3 H4. split; [done|]. split; [done|]. right. exists inst. split; [done|]. left. split; [done|]. by left. }
  apply wp_bind, wp_attempt, wp_Send; intros.
  - apply (wp_observe observed (w_profiles w, <[InstID inst := inst]> (w_instances w), w_sent w, w_audit w)); [done|].
    intros w3 Hw3. apply wp_bind. unfold mark_failed. apply wp_log_on_error, wp_SetStatus.
    + intros e'. apply wp_throw. injection Hw3 as E1 E2 E3 E4. split; [done|]. split; [done|]. right. exists inst.
      split; [done|]. left. split; [done|]. by left.
    + intros _. apply wp_throw. injection Hw3 as E1 E2 E3 E4. split; [exact E1|]. split; [exact E4|]. right. exists inst.
      split; [done|]. left. split; [exact E3|]. right. eexists. cbn [upd_instance w_instances set_w_instances].
      change (w_instances (bump w3)) with (w_instances w3). rewrite E2. by rewrite alter_insert_eq.
  - apply (wp_observe observed (w_profiles w, <[InstID inst := inst]> (w_instances w),
      w_sent w ++ [(node, load_message profile spec inst t)], w_audit w)).
    { injection Hw2 as E1 E2 E3 E4. unfold observed. cbn. by rewrite E1, E2, E3, E4. }
    intros w3 Hw3. injection Hw3 as E1 E2 E3 E4. apply wp_bind, wp_wrap, wp_Record; intros.
    + split; [done|]. split; [done|]. right. exists inst. split; [done|]. right. split; [exact E2|]. by exists t.
    + apply wp_ret. split; [exact E1|]. split; [done|]. split; [exact E2|]. split; [by exists t|].
      eexists. split; [cbn; by rewrite E4|]. done.
Qed.

Definition load_outcome (actor : Actor) (profileID : string) (w : World) (r : result RunningInstance) (w' : World) : Prop :=
  match r with
  | Ok _ => exists profile node spec, loadable actor profileID w profile node spec /\
      launched_as actor profile node spec w r w'
  | Err _ =>
      (w_audit w' = w_audit w /\ w_instances w' = w_instances w /\ w_sent w' = w_sent w /\ w_profiles w' = w_profiles w) \/
      exists profile node spec, loadable actor profileID w profile node spec /\
        launched_as actor profile node spec w r w'
  end.
Lemma prepare_ok `{!ForeignFaults} actor profileID w : wp (prepare_launch actor profileID) w (fun r w' =>
  observed w' = observed w /\ match r with Ok (profile, node, spec) => loadable actor profileID w profile node spec | Err _ => True end).
Proof.
  unfold prepare_launch. apply wp_bind, wp_guard; intros Hperm; [|done].
  apply wp_bind, wp_guard; intros Hne; [|done].
  apply wp_bind, wp_map_err, wp_FindByID_profile; [done|done|]. intros profile Hp.
  destruct (TargetNodeID profile) as [node|] eqn:Hnode; [|by apply wp_throw].
  apply (wp_observe observed (observed w)); [done|]. intros w1 Hw1.
  apply wp_bind, wp_attempt, wp_FindActiveByProfileID; [| |intros i; by apply wp_throw].
  { intros e Hf. apply wp_bind, wp_guard; [congruence|]. by intros _. }
  intros Hact. apply wp_bind, wp_guard; [intros _|done]. apply wp_bind, wp_Connected. intros b _.
  apply wp_bind, wp_guard; [intros _|by intros _]. apply wp_bind, wp_wrap.
  destruct (Registry_Adapter (EngineType profile)) as [adapter|e] eqn:Ha; [apply wp_ret|by apply wp_throw].
  pose proof (proj2 (checked_model_id (ProfName profile))) as Hid.
  destruct (CheckModelID (ProfName profile)) as [[]|e]; [|by apply wp_throw].
  apply wp_bind, wp_wrap.
  destruct (BuildLaunchSpec adapter (EngineParams profile) (ProfName profile)) as [built|e] eqn:Hb;
    [apply wp_ret|by apply wp_throw].
  apply (wp_observe observed (observed w1)); [done|]. intros w2 Hw2. rewrite Hw1 in Hw2.
  apply wp_bind. assert (Hlog : forall b s, wp (when b (logf s)) w2 (fun r w' => is_ok r = true /\ observed w' = observed w2)).
  { intros [] s; [by apply wp_logf|by apply wp_ret]. }
  eapply wp_mono; [apply Hlog|]. intros [[]|e] w3 [Hok Hw3]; [|done]. rewrite Hw2 in Hw3. apply wp_ret. split; [done|].
  injection Hw1 as F1 F2 F3 F4. unfold loadable. rewrite <-F2. split_and!; try done. by exists adapter, built.
Qed.
Lemma load_ok `{!ForeignFaults} actor profileID w : wp (LoadInstance actor profileID) w (load_outcome actor profileID w).
Proof.
  unfold LoadInstance. apply wp_bind. eapply wp_mono; [apply prepare_ok|]. intros [[[profile node] spec]|e] w1 [Hw1 Hl].
  2: { left. injection Hw1 as E1 E2 E3 E4. done. }
  injection Hw1 as E1 E2 E3 E4. eapply wp_mono; [apply launch_spec|]. intros r w' Hr.
  assert (Hr' : launched_as actor profile node spec w r w') by (unfold launched_as, fresh_instance in *; by rewrite E1, E2, E3, E4 in Hr).
  destruct r; [|right]; by exists profile, node, spec.
Qed.

(** C8: a load that succeeds was permitted; its profile exists, names its target
    node, has a valid model id and parameters its engine's adapter builds into
    a launch, and no instance of it was starting, running or stopping; exactly
    one new row was created, starting, one message with that launch was sent to
    the node and one audit record written.  A load that fails writes no audit
    record, and either changed nothing, or left its new row failed with the
    reason, or starting (when the envelope or that mark failed, or when the
    message went out and only the audit record did not). *)
Theorem LoadInstance_spec `{!ForeignFaults} actor profileID w :
  wp (LoadInstance actor profileID) w (load_outcome actor profileID w).
Proof. apply load_ok. Qed.
End Load.

(** ** Unloading *)
Lemma alter_some {A} (f : A -> A) k a (m : gmap string A) : m !! k = Some a -> alter f k m = <[k := f a]> m.
Proof.
  intros Hk. apply map_eq. intros j. destruct (decide (j = k)) as [->|Hne].
  - by rewrite lookup_insert_eq, lookup_alter_eq, Hk.
  - by rewrite lookup_insert_ne, lookup_alter_ne.
Qed.
Section Unload.
Context `{Env}.

Definition stopping (i : RunningInstance) : RunningInstance := set_InstErrorMessage None (set_InstStatus Stopping i).

Lemma status_row_revert now msg i : InstStatus i = Running ->
  status_row now Running None msg (stopping i) = set_InstErrorMessage msg i.
Proof. destruct i. simpl. by intros ->. Qed.

Definition unload_outcome (actor : Actor) (id : string) (w : World) (r : result RunningInstance) (w' : World) : Prop :=
  match r with
  | Ok inst => exists i, CanLaunchInstances actor = true /\ w_instances w !! id = Some i /\ InstStatus i = Running /\
      inst = set_InstStatus Stopping i /\ w_instances w' = <[id := stopping i]> (w_instances w) /\
      w_sent w' = w_sent w ++ [(PrimaryNodeID i, MUnloadInstance id)] /\
      exists t, w_audit w' = w_audit w ++
        [MkAudit (actor_id actor) (IsSuperAdmin actor) "unloaded_model" "running_instance" id None t]
  | Err e => w_audit w' = w_audit w /\
      ((w_instances w' = w_instances w /\ w_sent w' = w_sent w) \/
       exists i, w_instances w !! id = Some i /\ InstStatus i = Running /\
         ((w_sent w' = w_sent w /\ (w_instances w' = <[id := stopping i]> (w_instances w) \/
            w_instances w' = <[id := set_InstErrorMessage (Some (error_text e)) i]> (w_instances w))) \/
          (w_instances w' = <[id := stopping i]> (w_instances w) /\
           w_sent w' = w_sent w ++ [(PrimaryNodeID i, MUnloadInstance id)])))
  end.
Lemma unload_ok actor id w : (forall k i, w_instances w !! k = Some i -> InstID i = k) ->
  wp (UnloadInstance actor id) w (unload_outcome actor id w).
Proof.
  intros Hkeys. unfold UnloadInstance. apply wp_bind, wp_guard; intros Hperm; [|by split; [|left]].
  apply wp_bind, wp_map_err, wp_FindByID_instance; [by split; [|left]|by split; [|left]|]. intros i Hi.
  assert (Hid : InstID i = id) by by apply Hkeys.
  apply wp_bind, wp_guard; intros Hrun; [|by split; [|left]]. propb.
  apply wp_bind, wp_Connected. intros b _. apply wp_bind, wp_guard; [intros _|by split; [|left]].
  apply wp_bind, wp_wrap, wp_SetStatus; [by split; [|left]|intros _]. rewrite Hid.
  apply (wp_observe observed (w_profiles w, <[id := stopping i]> (w_instances w), w_sent w, w_audit w)).
  { unfold observed, upd_instance. cbn [w_instances set_w_instances w_profiles w_sent w_audit]. erewrite alter_some; [reflexivity|exact Hi]. }
  intros w1 Hw1. apply wp_bind, wp_wrap, wp_NewEnvelope; intros.
  { injection Hw1 as E1 E2 E3 E4. split; [done|]. right. exists i. split_and!; try done. left. split; [done|]. by left. }
  apply wp_bind, wp_attempt, wp_Send; intros.
  - apply (wp_observe observed (observed w1)); [done|]. rewrite Hw1. intros w2 Hw2. injection Hw2 as E1 E2 E3 E4.
    unfold revert_running. apply wp_bind, wp_log_on_error, wp_SetStatus.
    + intros e'. apply wp_throw. split; [done|]. right. exists i. split_and!; try done. left. split; [done|]. by left.
    + intros _. apply wp_throw. split; [exact E4|]. right. exists i. split_and!; try done. left. split; [exact E3|]. right.
      cbn [upd_instance w_instances set_w_instances]. change (w_instances (bump w2)) with (w_instances w2). rewrite E2.
      rewrite alter_insert_eq. f_equal. by apply status_row_revert.
  - apply (wp_observe observed (w_profiles w, <[id := stopping i]> (w_instances w),
      w_sent w ++ [(PrimaryNodeID i, MUnloadInstance id)], w_audit w)).
    { injection Hw1 as E1 E2 E3 E4. unfold observed. cbn. by rewrite E1, E2, E3, E4. }
    intros w2 Hw2. injection Hw2 as E1 E2 E3 E4. apply wp_bind, wp_wrap, wp_Record; intros.
    + split; [done|]. right. exists i. split_and!; try done. by right.
    + apply wp_ret. exists i. split_and!; try done. eexists. cbn. by rewrite E4.
Qed.

(** An unload that succeeds was permitted and found the instance running; the
    row is now stopping, its message cleared and nothing else of it changed, one
    unload message went to its node, one audit record was written.  An unload
    that fails writes no audit record; unless nothing happened at all, either
    the message was not sent and the row is running again with the reason (or
    stopping, if that write failed too), or it was sent and the row is
    stopping. *)
Theorem UnloadInstance_spec actor id w : (forall k i, w_instances w !! k = Some i -> InstID i = k) ->
  wp (UnloadInstance actor id) w (unload_outcome actor id w).
Proof. apply unload_ok. Qed.
End Unload.

(** ** The alert of a dead instance *)
Section Alert.
Context `{AlertRaiserLaws}.

(** [P] holds unless something was logged on the way; the log only grows. *)
Definition silently (w w' : World) (P : Prop) : Prop :=
  w_logs w `prefix_of` w_logs w' /\ (w_logs w' = w_logs w -> P).

Lemma silently_ret w w' (P : Prop) : w_logs w' = w_logs w -> P -> silently w w' P.
Proof. intros Hl HP. split; [by rewrite Hl|done]. Qed.
Lemma silently_log w fmt P : silently w (set_w_logs (w_logs w ++ [fmt]) w) P.
Proof.
  split; [by apply prefix_app_r|]. simpl. intros Hl. exfalso. apply (f_equal length) in Hl. rewrite length_app in Hl. simpl in Hl. lia.
Qed.
Lemma silently_trans w w1 w2 (P Q : Prop) : silently w w1 P -> silently w1 w2 (P -> Q) -> silently w w2 Q.
Proof.
  intros [Hp1 HP] [Hp2 HQ]. split; [by etransitivity|]. intros Hl. rewrite Hl in Hp2.
  assert (Hl1 : w_logs w1 = w_logs w) by (by apply prefix_length_eq; [|apply prefix_length]).
  apply HQ; [congruence|by apply HP].
Qed.

(** The alerts after something that concerns one key only. *)
Definition only_key (k : string) (w w' : World) : Prop := forall k', k' <> k -> key_open w' k' <-> key_open w k'.
Definition same_beyond (w w' : World) : Prop := beyond_alerts w' = beyond_alerts w.

Lemma inv_bump_log l w : raiser_inv w -> raiser_inv (set_w_logs l (bump w)).
Proof. apply raiser_inv_frame; [simpl; lia|done]. Qed.

Lemma resolve_dead_spec id w : raiser_inv w ->
  wp (resolveInstanceDeadAlert id) w (fun r w' => r = Ok tt /\ raiser_inv w' /\ same_beyond w w' /\
    only_key (instanceDeadAlertKey id) w w' /\ silently w w' (~ key_open w' (instanceDeadAlertKey id))).
Proof.
  intros Hw. unfold resolveInstanceDeadAlert. apply wp_log_on_error.
  set (k := instanceDeadAlertKey id).
  refine (wp_mono _ _ _ _ (wp_and _ _ _ _ (ResolveCondition_law k w Hw) (wp_and _ _ _ _
    (wp_preserves beyond_alerts (ResolveCondition k) w)
    (ResolveCondition_logs k w : wp (ResolveCondition k) w (fun _ w' => w_logs w `prefix_of` w_logs w')))) _).
  intros [n|e] w' ((Hinv & Hk) & Hb & Hl).
  - split_and!; try done.
    + intros k' Hne. rewrite Hk. naive_solver.
    + split; [done|]. intros _. rewrite Hk. naive_solver.
  - split_and!; try done.
    + eapply raiser_inv_frame; [| |exact Hinv]; done.
    + intros k' _. by rewrite (key_open_tables w).
    + eapply (silently_trans w w' _ True); [by split|apply silently_log].
Qed.

Lemma raise_dead_spec id i w : raiser_inv w -> w_instances w !! id = Some i ->
  wp (raiseInstanceDeadAlert id) w (fun r w' => r = Ok tt /\ raiser_inv w' /\ same_beyond w w' /\
    only_key (instanceDeadAlertKey id) w w' /\
    silently w w' (exists name, alert_raised (dead_alert name id (StartedBy i)) w' /\
      (forall p, w_profiles w !! InstProfileID i = Some p -> name = ProfName p))).
Proof.
  intros Hw Hi. unfold raiseInstanceDeadAlert. apply wp_bind, wp_attempt, wp_FindByID_instance; [|congruence|].
  { intros e. apply wp_logf. split_and!; try done; [by apply inv_bump_log|].
    eapply (silently_trans w (bump w) _ True); [by split|apply silently_log]. }
  intros i' Hi'. rewrite Hi in Hi'. injection Hi' as <-. apply wp_bind.
  assert (Hname : wp (dead_name (InstProfileID i)) (bump w) (fun r w' =>
    same_beyond w w' /\ alert_tables w' = alert_tables w /\ w_clock w <= w_clock w' /\
    exists name, r = Ok name /\ silently w w' (forall p, w_profiles w !! InstProfileID i = Some p -> name = ProfName p))).
  { unfold dead_name. assert (Hc : w_clock w <= w_clock (bump (bump w))) by (simpl; lia).
    apply wp_bind, wp_attempt, wp_FindByID_profile.
    1,2: intros; apply wp_bind, wp_logf, wp_ret; split_and!; try done; eexists; split; [done|];
      apply (silently_trans w (bump (bump w)) _ True); [by split|apply silently_log].
    intros p Hp. apply wp_ret. split_and!; try done. eexists. split; [done|]. apply silently_ret; [done|]. intros p' Hp'.
    change (w_profiles (bump w)) with (w_profiles w) in Hp. congruence. }
  eapply wp_mono; [exact Hname|]. clear Hname. intros r w1 (Hb1 & Ht1 & Hc1 & name & -> & Hs1).
  assert (Hw1 : raiser_inv w1) by by apply (raiser_inv_frame w).
  apply wp_log_on_error. set (p := dead_alert _ _ _).
  refine (wp_mono _ _ _ _ (wp_and _ _ _ _ (Raise_law p w1 Hw1) (wp_and _ _ _ _
    (wp_preserves beyond_alerts (Raise p) w1) (Raise_logs p w1 : wp (Raise p) w1 (fun _ w' => w_logs w1 `prefix_of` w_logs w')))) _).
  intros [res|e] w' ((Hinv & Hk) & Hb & Hl).
  - split_and!; try done.
    + by unfold same_beyond; rewrite Hb.
    + intros k Hne. rewrite (proj2 Hk), (key_open_tables w w1) by done. simpl. naive_solver.
    + eapply silently_trans; [exact Hs1|]. split; [done|]. intros _ Hn. exists name. split; [|done].
      by apply (proj1 Hk).
  - split_and!; try done.
    + eapply raiser_inv_frame; [| |exact Hinv]; done.
    + by unfold same_beyond; rewrite <-Hb1, <-Hb.
    + intros k _. rewrite (key_open_tables w); [done|]. by rewrite <-Ht1, <-Hk.
    + eapply (silently_trans w w1 _ True); [by destruct Hs1|].
      eapply (silently_trans w1 w' _ True); [by split|apply silently_log].
Qed.

Lemma raise_dead_spec_none id w : raiser_inv w -> w_instances w !! id = None ->
  wp (raiseInstanceDeadAlert id) w (fun r w' => r = Ok tt /\ raiser_inv w' /\
    only_key (instanceDeadAlertKey id) w w' /\ silently w w' False).
Proof.
  intros Hw Hi. unfold raiseInstanceDeadAlert. apply wp_bind, wp_attempt, wp_FindByID_instance; [| |congruence].
  1,2: intros; apply wp_logf; split_and!; try done; [by apply inv_bump_log|];
    apply (silently_trans w (bump w) _ True); [by split|apply silently_log].
Qed.

(** The row after a health report. *)
Definition reported (health : InstanceHealth) (status : InstanceHealthStatus) (w : World) : gmap string RunningInstance :=
  alter (health_row status (ih_CheckedAt health) (if bool_decide (ih_Detail health = ∅) then None else Some (ih_Detail health)))
    (ih_InstanceID health) (w_instances w).

Lemma health_detail_spec d w : wp (health_detail d) w (fun r w' =>
  same_beyond w w' /\ alert_tables w' = alert_tables w /\ w_clock w' = w_clock w /\
  exists x, r = Ok x /\ silently w w' (x = if bool_decide (d = ∅) then None else Some d)).
Proof.
  unfold health_detail. case_bool_decide.
  - apply wp_ret. split_and!; try done. eexists. split; [done|]. by apply silently_ret.
  - unfold marshal_detail. destruct (forallb _ _); [apply wp_ret|apply wp_bind, wp_logf, wp_ret];
      (split_and!; try done; eexists; split; [done|]); [by apply silently_ret|apply silently_log].
Qed.
Lemma already_dead_spec status id w : wp (already_dead status id) w (fun r w' =>
  same_beyond w w' /\ alert_tables w' = alert_tables w /\ w_clock w <= w_clock w' /\
  exists b, r = Ok b /\ silently w w' (status = HealthDead ->
    exists i, w_instances w !! id = Some i /\ b = bool_decide (HealthStatus i = HealthDead))).
Proof.
  unfold already_dead. assert (Hc : w_clock w <= w_clock (bump w)) by (simpl; lia). case_bool_decide as Hs.
  - apply wp_bind, wp_attempt, wp_FindByID_instance.
    1,2: intros; apply wp_bind, wp_logf, wp_ret; split_and!; try done; eexists; split; [done|];
      apply (silently_trans w (bump w) _ True); [by split|apply silently_log].
    intros i Hi. apply wp_ret. split_and!; try done. eexists. split; [done|]. apply silently_ret; [done|]. intros _. by exists i.
  - apply wp_ret. split_and!; try done. eexists. split; [done|]. by apply silently_ret.
Qed.

(** What a health report ends with, once its row is written. *)
Definition dead_alert_state (health : InstanceHealth) (status : InstanceHealthStatus) (w w' : World) : Prop :=
  let id := ih_InstanceID health in
  match status with
  | HealthDead => exists i, w_instances w !! id = Some i /\
      if bool_decide (HealthStatus i = HealthDead)
      then key_open w' (instanceDeadAlertKey id) <-> key_open w (instanceDeadAlertKey id)
      else exists name, alert_raised (dead_alert name id (StartedBy i)) w' /\
        forall p, w_profiles w !! InstProfileID i = Some p -> name = ProfName p
  | _ => ~ key_open w' (instanceDeadAlertKey id)
  end.

Lemma handle_health_spec nodeID health status w : raiser_inv w -> mapHealthStatus (ih_Status health) = Ok status ->
  wp (HandleInstanceHealth nodeID (EInstanceHealth (Ok health))) w (fun r w' =>
    r = Ok tt /\ raiser_inv w' /\ only_key (instanceDeadAlertKey (ih_InstanceID health)) w w' /\
    silently w w' (w_instances w' = reported health status w /\ dead_alert_state health status w w')).
Proof.
  intros Hw Hst. simpl. rewrite Hst. set (id := ih_InstanceID health). apply wp_bind.
  eapply wp_mono; [apply health_detail_spec|]. intros r w1 (Hb1 & Ht1 & Hc1 & d & -> & Hs1).
  apply wp_bind. eapply wp_mono; [apply already_dead_spec|]. intros r w2 (Hb2 & Ht2 & Hc2 & b & -> & Hs2).
  assert (Hw2 : raiser_inv w2) by (apply (raiser_inv_frame w); [lia|congruence|done]).
  assert (Hbw : beyond_alerts w2 = beyond_alerts w) by (by unfold same_beyond in *; congruence).
  assert (Ht : alert_tables w2 = alert_tables w) by congruence.
  assert (Hs : silently w w2 (d = (if bool_decide (ih_Detail health = ∅) then None else Some (ih_Detail health)) /\
    (status = HealthDead -> exists i, w_instances w !! id = Some i /\ b = bool_decide (HealthStatus i = HealthDead)))).
  { eapply silently_trans; [exact Hs1|]. injection Hb1 as _ _ _ _ _ _ _ _ Hi1. destruct Hs2 as [Hp2 Hs2].
    split; [done|]. intros Hl Hd. split; [done|]. intros Hdead. destruct (Hs2 Hl Hdead) as (i & Hi & Hbi).
    exists i. split; [|done]. congruence. }
  clear Hs1 Hs2 Hb1 Hb2 Ht1 Ht2 Hc1 Hc2 w1. apply wp_bind, wp_attempt, wp_UpdateHealth.
  { intros e. apply wp_logf. split_and!; [done|by apply inv_bump_log| |].
    - intros k _. by apply (key_open_tables w).
    - eapply (silently_trans w (bump w2) _ True); [destruct Hs as [Hs _]; by split|apply silently_log]. }
  set (w3 := upd_instance _ _ _).
  assert (Hw3 : raiser_inv w3) by (apply (raiser_inv_frame w2); [simpl; lia|done|done]).
  assert (Ht3 : alert_tables w3 = alert_tables w) by exact Ht.
  assert (Hi3 : w_instances w3 = alter (health_row status (ih_CheckedAt health) d) id (w_instances w)).
  { injection Hbw as _ _ _ _ _ _ _ _ Hi2. unfold w3, upd_instance. cbn. by rewrite Hi2. }
  assert (Hp3 : w_profiles w3 = w_profiles w) by (by injection Hbw).
  assert (Hl3 : w_logs w3 = w_logs w2) by done. clearbody w3.
  assert (Hs3 : silently w w3 (w_instances w3 = reported health status w /\
    (status = HealthDead -> exists i, w_instances w !! id = Some i /\ b = bool_decide (HealthStatus i = HealthDead)))).
  { eapply silently_trans; [exact Hs|]. apply silently_ret; [exact Hl3|]. intros [-> Hd]. by split. }
  clear Hs Hl3 Hbw Ht Hw2.
  destruct (decide (status = HealthDead)) as [Hdead|Hdead].
  - rewrite bool_decide_true by done. cbn [negb]. apply wp_when; intros Hb; propb.
    + destruct (w_instances w !! id) as [i|] eqn:Hi.
      * assert (Hi' : w_instances w3 !! id = Some (health_row status (ih_CheckedAt health) d i)).
        { rewrite Hi3, lookup_alter_eq, Hi. done. }
        eapply wp_mono; [apply (raise_dead_spec id _ w3 Hw3 Hi')|]. intros r w' (-> & Hinv & Hb' & Hk & Hsil).
        split_and!; [done|done| |].
        { intros k Hne. etransitivity; [by apply Hk|by apply key_open_tables]. }
        eapply silently_trans; [exact Hs3|]. split; [exact (proj1 Hsil)|]. intros Hl [Hrep Hd]. split.
        { rewrite <-Hrep. by injection Hb'. }
        destruct (Hd Hdead) as (i0 & Hi0 & Hb0). injection Hi0 as <-. unfold dead_alert_state. rewrite Hdead. exists i. split; [exact Hi|].
        rewrite <-Hb0, Hb. destruct (proj2 Hsil Hl) as (name & Hr & Hn). exists name. split; [exact Hr|].
        intros p Hp. apply Hn. by rewrite Hp3.
      * eapply wp_mono; [apply (raise_dead_spec_none id w3 Hw3); by rewrite Hi3, lookup_alter_eq, Hi|].
        intros r w' (-> & Hinv & Hk & Hsil). split_and!; [done|done| |].
        { intros k Hne. etransitivity; [by apply Hk|by apply key_open_tables]. }
        eapply silently_trans; [exact Hs3|]. destruct Hsil as [Hl1 Hl2]. split; [done|]. intros Hl. by destruct (Hl2 Hl).
    + split_and!; [done|done|by intros k _; apply key_open_tables|].
      eapply silently_trans; [exact Hs3|]. apply silently_ret; [done|]. intros [Hrep Hd]. split; [done|].
      destruct (Hd Hdead) as (i0 & Hi0 & Hb0). unfold dead_alert_state. rewrite Hdead. exists i0. split; [done|].
      rewrite <-Hb0, Hb. by apply key_open_tables.
  - rewrite bool_decide_false by done. cbn [negb]. eapply wp_mono; [apply (resolve_dead_spec id w3 Hw3)|].
    intros r w' (-> & Hinv & Hb' & Hk & Hsil). split_and!; [done|done| |].
    { intros k Hne. etransitivity; [by apply Hk|by apply key_open_tables]. }
    eapply silently_trans; [exact Hs3|]. split; [exact (proj1 Hsil)|]. intros Hl [Hrep _]. split.
    { rewrite <-Hrep. by injection Hb'. }
    unfold dead_alert_state. destruct status; try done; by apply Hsil.
Qed.

(** C9: whatever an agent reports of an instance's health, only that instance's
    alert is concerned; and unless something went wrong and was logged, the row
    has the reported health, and its alert is closed after any report but a dead
    one, is open after the first dead one, naming the profile and reaching the
    Admins and whoever started it, and is left as it is while the instance stays
    dead. *)
Theorem HandleInstanceHealth_spec nodeID health status w :
  raiser_inv w -> mapHealthStatus (ih_Status health) = Ok status ->
  wp (HandleInstanceHealth nodeID (EInstanceHealth (Ok health))) w (fun r w' =>
    r = Ok tt /\ raiser_inv w' /\ only_key (instanceDeadAlertKey (ih_InstanceID health)) w w' /\
    silently w w' (w_instances w' = reported health status w /\ dead_alert_state health status w w')).
Proof. apply handle_health_spec. Qed.

(** A result report sets the status of the row it names and its port and
    message, and unless something was logged an instance that is stopped or
    failed has no open dead alert any more; no other alert is concerned. *)
Theorem HandleInstanceResult_spec nodeID res status w :
  raiser_inv w -> mapInstanceStatus (ir_Status res) = Ok status ->
  wp (HandleInstanceResult nodeID (EInstanceResult (Ok res))) w (fun r w' =>
    r = Ok tt /\ raiser_inv w' /\ only_key (instanceDeadAlertKey (ir_InstanceID res)) w w' /\
    silently w w' ((exists now port, w_instances w' =
        alter (status_row now status port (nonempty (ir_ErrorMessage res))) (ir_InstanceID res) (w_instances w) /\
        (port = if bool_decide (status = Running) && negb (ir_ActualPort res =? 0) then Some (ir_ActualPort res) else None)) /\
      (isTerminalRunningInstanceStatus status = true -> ~ key_open w' (instanceDeadAlertKey (ir_InstanceID res))))).
Proof.
  intros Hw Hst. simpl. rewrite Hst. set (id := ir_InstanceID res). set (port := if _ && _ then _ else _).
  apply wp_bind, wp_attempt, wp_SetStatus.
  { intros e. apply wp_logf. split_and!; [done|by apply inv_bump_log|by intros k _; apply (key_open_tables w)|].
    eapply (silently_trans w (bump w) _ True); [by split|apply silently_log]. }
  intros _. set (w1 := upd_instance _ _ _). assert (Hw1 : raiser_inv w1) by (apply (raiser_inv_frame w); [simpl; lia|done|done]).
  assert (Hs1 : silently w w1 (exists now, w_instances w1 =
    alter (status_row now status port (nonempty (ir_ErrorMessage res))) id (w_instances w))) by (apply silently_ret; [done|eauto]).
  assert (Ht1 : alert_tables w1 = alert_tables w) by done. clearbody w1.
  apply wp_when; intros Ht.
  - eapply wp_mono; [apply (resolve_dead_spec id w1 Hw1)|]. intros r w' (-> & Hinv & Hb & Hk & Hs).
    split_and!; [done|done| |].
    { intros k Hne. etransitivity; [by apply Hk|by apply key_open_tables]. }
    eapply silently_trans; [exact Hs1|]. split; [exact (proj1 Hs)|]. intros Hl (now & Hi). split.
    + exists now, port. split; [|done]. rewrite <-Hi. by injection Hb.
    + intros _. by apply Hs.
  - split_and!; [done|done|by intros k _; apply key_open_tables|].
    eapply silently_trans; [exact Hs1|]. apply silently_ret; [done|]. intros (now & Hi). split; [by exists now, port|].
    by destruct status.
Qed.
End Alert.

(** ** At most one active instance of a profile *)
Section OneActive.
Context `{Env} `{AlertRaiser}.

(** Nothing of the profiles [ps] is active, and no other profile has two. *)
Record instances_fit (ps : list string) (w : World) : Prop := {
  inst_key : forall k i, w_instances w !! k = Some i -> InstID i = k;
  one_active : forall k1 k2 i1 i2, w_instances w !! k1 = Some i1 -> w_instances w !! k2 = Some i2 ->
    inst_active i1 = true -> inst_active i2 = true -> InstProfileID i1 = InstProfileID i2 -> k1 = k2;
  none_active : forall k i, w_instances w !! k = Some i -> InstProfileID i ∈ ps -> inst_active i = false
}.
Section Fit.
Context (ps : list string).
Abbreviation instances_ok := (instances_fit ps).
Lemma instances_ok_frame w w' : w_instances w' = w_instances w -> instances_ok w -> instances_ok w'.
Proof. intros Hi [H1 H2 H3]. constructor; rewrite Hi; eauto. Qed.
#[global] Instance instances_ok_stable : Stable instances_ok.
Proof. split; intros *; by apply instances_ok_frame. Qed.
Lemma keeps_others {A} (m : M A) : Preserves w_instances m -> Keeps instances_ok m.
Proof. intros Hm w. apply instances_ok_frame, Hm. Qed.

(** A change of one row that wakes no finished instance. *)
Lemma upd_instance_ok id f w : (forall i, InstID (f i) = InstID i) -> (forall i, InstProfileID (f i) = InstProfileID i) ->
  (forall i, w_instances w !! id = Some i -> inst_active (f i) = true -> inst_active i = true) ->
  instances_ok w -> instances_ok (upd_instance id f w).
Proof.
  intros Hid Hp Ha [Hk H1 H3].
  assert (Hrow : forall k i, w_instances (upd_instance id f w) !! k = Some i ->
    exists j, w_instances w !! k = Some j /\ InstID i = InstID j /\ InstProfileID i = InstProfileID j /\
      (inst_active i = true -> inst_active j = true)).
  { intros k i. unfold upd_instance. cbn. destruct (decide (k = id)) as [->|Hne].
    - rewrite lookup_alter_eq. intros (j & Hj & ->)%fmap_Some. exists j. split_and!; [done|apply Hid|apply Hp|by apply Ha].
    - rewrite lookup_alter_ne by done. intros Hi. by exists i. }
  constructor.
  - intros k i (j & Hj & -> & _)%Hrow. by apply Hk.
  - intros k1 k2 i1 i2 (j1 & Hj1 & _ & Hp1 & A1)%Hrow (j2 & Hj2 & _ & Hp2 & A2)%Hrow Ha1 Ha2 Hpp.
    apply (H1 k1 k2 j1 j2); auto. congruence.
  - intros k i (j & Hj & _ & Hp' & A)%Hrow Hin. apply not_true_iff_false. intros Hi. rewrite (H3 k j Hj) in A; [by specialize (A Hi)|by rewrite <-Hp'].
Qed.
Lemma status_row_fields now st port msg i :
  InstID (status_row now st port msg i) = InstID i /\ InstProfileID (status_row now st port msg i) = InstProfileID i /\
  InstStatus (status_row now st port msg i) = st.
Proof. unfold status_row. by destruct (isTerminalRunningInstanceStatus st). Qed.
Lemma insert_instance_ok inst w : w_instances w !! InstID inst = None ->
  (inst_active inst = true -> forall k i, w_instances w !! k = Some i -> InstProfileID i = InstProfileID inst -> inst_active i = false) ->
  InstProfileID inst ∉ ps -> instances_ok w -> forall w', w_instances w' = <[InstID inst := inst]> (w_instances w) -> instances_ok w'.
Proof.
  intros Hn Ha Hps [Hk H1 H3] w' Hw'. constructor; rewrite Hw'.
  - intros k i [[<- <-]|[? ?]]%lookup_insert_Some; [done|by apply Hk].
  - intros k1 k2 i1 i2 [[<- <-]|[Hne1 Hi1]]%lookup_insert_Some [[<- <-]|[Hne2 Hi2]]%lookup_insert_Some A1 A2 Hp; try done.
    + rewrite (Ha A1 k2 i2 Hi2) in A2; done.
    + rewrite (Ha A2 k1 i1 Hi1) in A1; done.
    + by eapply H1.
  - intros k i [[<- <-]|[? Hi]]%lookup_insert_Some Hin; [done|by eapply H3].
Qed.
Lemma instance_row_ok id i j w : instances_ok w -> w_instances w !! id = Some i -> InstID j = InstID i ->
  InstProfileID j = InstProfileID i -> (inst_active j = true -> inst_active i = true) ->
  forall w', w_instances w' = <[id := j]> (w_instances w) -> instances_ok w'.
Proof.
  intros Hok Hi Hid Hp Ha w' Hw'. eapply (instances_ok_frame (upd_instance id (fun _ => j) w)).
  { rewrite Hw'. unfold upd_instance. cbn. by rewrite (alter_some _ _ i). }
  destruct Hok as [Hk H1 H3]. constructor.
  - intros k x. unfold upd_instance. cbn. rewrite (alter_some _ _ i) by done.
    intros [[<- <-]|[? ?]]%lookup_insert_Some; [rewrite Hid|]; by apply Hk.
  - unfold upd_instance. cbn. rewrite (alter_some _ _ i) by done.
    intros k1 k2 i1 i2 [[<- <-]|[Hne1 Hi1]]%lookup_insert_Some [[<- <-]|[Hne2 Hi2]]%lookup_insert_Some A1 A2 Hpp; try done.
    + apply (H1 id k2 i i2); auto; congruence.
    + apply (H1 k1 id i1 i); auto; congruence.
    + by eapply H1.
  - unfold upd_instance. cbn. rewrite (alter_some _ _ i) by done. intros k x [[<- <-]|[_ Hx]]%lookup_insert_Some Hin; [|by eapply H3].
    apply not_true_iff_false. intros A. rewrite (H3 id i Hi) in Ha; [by specialize (Ha A)|by rewrite <-Hp].
Qed.

Context `{!ForeignFaults}.

(** The end of a load: the one step that makes an instance active. *)
Lemma launch_keeps actor profile node spec w : ProfID profile ∉ ps ->
  (forall k i, w_instances w !! k = Some i -> InstProfileID i = ProfID profile -> inst_active i = false) ->
  instances_ok w -> instances_ok (snd (launch actor profile node spec w)).
Proof.
  intros Hps Hnone Hw. change (wp (launch actor profile node spec) w (fun _ w' => instances_ok w')).
  eapply wp_mono; [apply launch_spec|]. intros r w' (_ & Hr).
  assert (Hins : forall inst j, fresh_instance actor profile node w inst -> InstID j = InstID inst ->
    InstProfileID j = ProfID profile -> w_instances w' = <[InstID inst := j]> (w_instances w) -> instances_ok w').
  { intros inst j [Hn _] Hj Hp. rewrite <-Hj. apply insert_instance_ok; [by rewrite Hj|intros _; rewrite Hp; exact Hnone|by rewrite Hp|done]. }
  assert (Hprof : forall inst, fresh_instance actor profile node w inst -> InstProfileID inst = ProfID profile).
  { intros inst [_ ->]. done. }
  destruct r as [inst|e].
  - destruct Hr as (Hf & Hi & _). by eapply (Hins inst inst); auto.
  - destruct Hr as (_ & [[Hi _]|(inst & Hf & [(_ & [Hi|(now & Hi)])|[Hi _]])]);
      [by apply (instances_ok_frame w)|by eapply (Hins inst inst); auto| |by eapply (Hins inst inst); auto].
    destruct (status_row_fields now Failed None (Some (error_text e)) inst) as (R1 & R2 & _).
    eapply Hins; [exact Hf|exact R1| |exact Hi]. rewrite R2. auto.
Qed.
#[global] Instance keeps_Unload actor id : Keeps instances_ok (UnloadInstance actor id).
Proof.
  apply keeps_wp. intros w Hw. eapply wp_mono; [apply unload_ok, Hw|]. intros r w' Hr.
  assert (Hrow : forall i j, w_instances w !! id = Some i -> InstID j = InstID i -> InstProfileID j = InstProfileID i ->
    InstStatus i = Running -> w_instances w' = <[id := j]> (w_instances w) -> instances_ok w').
  { intros i j Hi Hid Hp Hrun Hi'. eapply instance_row_ok; eauto. intros _. unfold inst_active. by rewrite Hrun. }
  destruct r as [inst|e]; simpl in Hr.
  - destruct Hr as (i & _ & Hi & Hrun & _ & Hi' & _). by eapply (Hrow i (stopping i)).
  - destruct Hr as (_ & [[Hi _]|(i & Hi & Hrun & Hr)]); [by apply (instances_ok_frame w)|].
    destruct Hr as [(_ & [Hi'|Hi'])|[Hi' _]]; [by eapply (Hrow i (stopping i))| |by eapply (Hrow i (stopping i))].
    by eapply (Hrow i (set_InstErrorMessage (Some (error_text e)) i)).
Qed.

#[local] Hint Extern 4 (Keeps instances_ok (Raise _)) => (apply keeps_others; apply _) : typeclass_instances.
#[local] Hint Extern 4 (Keeps instances_ok (ResolveCondition _)) => (apply keeps_others; apply _) : typeclass_instances.
#[global] Instance keeps_FindByID_profile I id `{!Stable I} : Keeps I (FindByID_profile id).
Proof. unfold FindByID_profile, scan_profile, scanProfile. apply _. Qed.
#[global] Instance keeps_FindByID_instance I id `{!Stable I} : Keeps I (FindByID_instance id).
Proof. unfold FindByID_instance, scan_instance, scanRunningInstance. apply _. Qed.
#[global] Instance keeps_resolve_dead id : Keeps instances_ok (resolveInstanceDeadAlert id).
Proof. unfold resolveInstanceDeadAlert. apply _. Qed.
#[global] Instance keeps_raise_dead id : Keeps instances_ok (raiseInstanceDeadAlert id).
Proof. unfold raiseInstanceDeadAlert, dead_name. apply _. Qed.
#[global] Instance keeps_UpdateHealth id st t d : Keeps instances_ok (UpdateHealth id st t d).
Proof. unfold UpdateHealth. apply keeps_wrap, keeps_exec; [apply _|]. intros w. by apply upd_instance_ok. Qed.
#[global] Instance keeps_HandleInstanceHealth n env : Keeps instances_ok (HandleInstanceHealth n env).
Proof. unfold HandleInstanceHealth, health_detail, already_dead. destruct env; apply _. Qed.
#[global] Instance keeps_ReconcileNode n : Keeps instances_ok (ReconcileNode n).
Proof. unfold ReconcileNode, reconcile_one, check_engine, ListRunningByNode. apply _. Qed.

(** A result that says [running] of an instance the server holds finished. *)
Definition wakes (env : Envelope) (w : World) : Prop :=
  exists res i, env = EInstanceResult (Ok res) /\ ir_Status res = InstanceStatusRunning /\
    w_instances w !! ir_InstanceID res = Some i /\ inst_active i = false.

Lemma result_keeps n env w : instances_ok w -> ~ wakes env w -> instances_ok (snd (HandleInstanceResult n env w)).
Proof.
  intros Hw Hnot. change (wp (HandleInstanceResult n env) w (fun _ w' => instances_ok w')).
  unfold HandleInstanceResult. destruct env as [[res|e]|?|?|?|?|?|?|?|?|?|?|?|?]; try (by apply wp_ret); [|by apply wp_logf, (stable_logs [_])].
  destruct (mapInstanceStatus (ir_Status res)) as [status|e] eqn:Hst; [|by apply wp_logf, (stable_logs [_])].
  apply wp_bind, wp_attempt, wp_SetStatus; [intros; by apply wp_logf, (stable_logs [_]), stable_bump|intros _].
  eapply wp_inv; [apply _| |done].
  assert (Hb : instances_ok (bump w)) by by apply stable_bump.
  apply upd_instance_ok; [intros; apply status_row_fields|intros; apply status_row_fields| |exact Hb].
  intros i Hi Ha. apply not_false_iff_true. intros Hf. apply Hnot. exists res, i. split_and!; try done.
  unfold inst_active in Ha. destruct (status_row_fields (w_clock (bump w)) status
    (if bool_decide (status = Running) && negb (ir_ActualPort res =? 0) then Some (ir_ActualPort res) else None)
    (nonempty (ir_ErrorMessage res)) i) as (_ & _ & Hs). rewrite Hs in Ha.
  clear Hs. unfold mapInstanceStatus in Hst. case_bool_decide; [done|]. case_bool_decide; [by simplify_eq|].
  case_bool_decide; by simplify_eq.
Qed.

End Fit.
Context `{!ForeignFaults}.
Abbreviation instances_ok := (instances_fit []).
Lemma fit_more p ps w : (forall k i, w_instances w !! k = Some i -> InstProfileID i = p -> inst_active i = false) ->
  instances_fit ps w -> instances_fit (p :: ps) w.
Proof. intros Hp [F1 F2 F3]. constructor; [done|done|]. intros k i Hi [E|?]%elem_of_cons; [by eapply Hp|by eapply F3]. Qed.
Lemma fit_fewer ps ps' w : ps' ⊆ ps -> instances_fit ps w -> instances_fit ps' w.
Proof. intros Hs [F1 F2 F3]. constructor; [done|done|]. intros k i Hi Hin. eapply F3; [done|by apply Hs]. Qed.

(** ** Requests that are served at the same time

    A load runs in two steps: its checks, and the launch; between them anything
    else may happen.  The loads in between are kept with the server's state. *)
Record Checked := MkChecked { ck_Actor : Actor; ck_Profile : Profile; ck_Node : string; ck_Spec : LaunchSpec }.
Definition loading (l : list Checked) : list string := map (fun c => ProfID (ck_Profile c)) l.
Inductive event := LoadChecked (profileID : string) | ResultReported (env : Envelope) | AnythingElse.
Inductive lifecycle_step : event -> World * list Checked -> World * list Checked -> Prop :=
| step_check actor id w l profile node spec : fst (prepare_launch actor id w) = Ok (profile, node, spec) ->
    lifecycle_step (LoadChecked (ProfID profile)) (w, l) (snd (prepare_launch actor id w), MkChecked actor profile node spec :: l)
| step_refuse actor id w l e : fst (prepare_launch actor id w) = Err e ->
    lifecycle_step AnythingElse (w, l) (snd (prepare_launch actor id w), l)
| step_launch w l1 c l2 : lifecycle_step AnythingElse (w, l1 ++ c :: l2)
    (snd (launch (ck_Actor c) (ck_Profile c) (ck_Node c) (ck_Spec c) w), l1 ++ l2)
| step_unload actor id w l : lifecycle_step AnythingElse (w, l) (snd (UnloadInstance actor id w), l)
| step_health n env w l : lifecycle_step AnythingElse (w, l) (snd (HandleInstanceHealth n env w), l)
| step_result n env w l : lifecycle_step (ResultReported env) (w, l) (snd (HandleInstanceResult n env w), l)
| step_reconcile n w l : lifecycle_step AnythingElse (w, l) (snd (ReconcileNode n w), l)
| step_other w w' l : w_instances w' = w_instances w -> lifecycle_step AnythingElse (w, l) (w', l).
(** The two things that make a second active instance are left out: a load that
    passes its checks while another load of its profile is between its checks
    and its launch, and an agent that reports as running an instance the server
    holds finished. *)
Definition undisturbed (e : event) (x : World * list Checked) : Prop :=
  match e with LoadChecked p => p ∉ loading x.2 | ResultReported env => ~ wakes env x.1 | AnythingElse => True end.
Definition quiet_step (x y : World * list Checked) : Prop := exists e, lifecycle_step e x y /\ undisturbed e x.
Definition fit (x : World * list Checked) : Prop := NoDup (loading x.2) /\ instances_fit (loading x.2) x.1.

Lemma prepare_frame actor id w : w_instances (snd (prepare_launch actor id w)) = w_instances w /\
  forall profile node spec, fst (prepare_launch actor id w) = Ok (profile, node, spec) ->
    forall k i, w_instances w !! k = Some i -> InstProfileID i = ProfID profile -> inst_active i = false.
Proof.
  pose proof (prepare_ok actor id w) as Hp. unfold wp in Hp. destruct (prepare_launch actor id w) as [r w']. cbn [fst snd] in *.
  destruct Hp as [Ho Hr]. split; [by injection Ho|]. intros profile node spec ->. apply Hr.
Qed.
Lemma quiet_step_fit x y : quiet_step x y -> fit x -> fit y.
Proof.
  intros (ev & Hs & Hq) [Hnd Hw].
  destruct Hs as [actor id w l profile node spec E|actor id w l e E|w l1 c l2|actor id w l|n env w l|n env w l|n w l|w w' l E]; cbn [fst snd undisturbed] in *.
  - destruct (prepare_frame actor id w) as [Hi Hn]. split; [by apply NoDup_cons|].
    apply fit_more; [|by apply (instances_ok_frame _ w)]. intros k i Hk. cbn [fst] in Hk. rewrite Hi in Hk. by eapply Hn.
  - destruct (prepare_frame actor id w) as [Hi _]. split; [done|by apply (instances_ok_frame _ w)].
  - assert (Hperm : loading (l1 ++ c :: l2) ≡ₚ ProfID (ck_Profile c) :: loading (l1 ++ l2)).
    { unfold loading. rewrite !map_app. cbn [map]. symmetry. apply Permutation_middle. }
    pose proof Hnd as Hnd'. rewrite Hperm in Hnd'. apply NoDup_cons in Hnd' as [Hout Hnd']. split; [done|].
    apply launch_keeps; [done| |eapply fit_fewer; [|exact Hw]; rewrite Hperm; set_solver].
    intros k i Hi Hp. eapply none_active; [exact Hw|exact Hi|]. rewrite Hperm, Hp. by left.
  - split; [done|by apply keeps_Unload].
  - split; [done|by apply keeps_HandleInstanceHealth].
  - split; [done|by apply result_keeps].
  - split; [done|by apply keeps_ReconcileNode].
  - split; [done|by apply (instances_ok_frame _ w)].
Qed.

(** C10: however loads, unloads, agents' reports and reconnects follow one
    another and overlap - a load's checks and its launch are two steps, with
    anything in between, other profiles' loads included -, whatever fails, no
    profile ever has two instances that are starting, running or stopping, as
    long as no two loads of one profile overlap, which nothing in the service
    prevents, and no agent reports as running an instance the server already
    holds stopped or failed. *)
Theorem one_active_per_profile w w' l : instances_ok w -> rtc quiet_step (w, []) (w', l) ->
  forall k1 k2 i1 i2, w_instances w' !! k1 = Some i1 -> w_instances w' !! k2 = Some i2 ->
    inst_active i1 = true -> inst_active i2 = true -> InstProfileID i1 = InstProfileID i2 -> k1 = k2.
Proof.
  intros Hw Hs. assert (Hgen : forall x y, rtc quiet_step x y -> fit x -> fit y).
  { induction 1 as [|x y z Hxy _ IH]; [done|]. intros Hx. apply IH. by eapply quiet_step_fit. }
  apply (Hgen _ _ Hs). split; [constructor|exact Hw].
Qed.
End OneActive.

(** ** The sweep on reconnect *)
Section Sweep.
Context `{Env}.

(** The question about an instance: its port, and its profile's engine when the
    profile could be read. *)
Definition question (nodeID : string) (ie : RunningInstance * string) : string * Message :=
  (nodeID, MCheckInstance (InstID ie.1) (default 0 (ActualPort ie.1)) ie.2).
Definition with_engine (w : World) (i : RunningInstance) : RunningInstance * string :=
  (i, match w_profiles w !! InstProfileID i with Some p => EngineType p | None => "" end).
Definition tables (w : World) := (w_profiles w, w_instances w, w_audit w).

(** Questions about some of the instances of [l], in order, with nothing else
    changed; unless something was logged, about all of them. *)
Definition asks (nodeID : string) (l : list RunningInstance) (w w' : World) : Prop :=
  tables w' = tables w /\ exists asked, w_sent w' = w_sent w ++ map (question nodeID) asked /\
    asked.*1 `sublist_of` l /\ silently w w' (asked = map (with_engine w) l).

Lemma check_engine_spec i w : wp (check_engine (InstProfileID i)) w (fun r w' =>
  tables w' = tables w /\ w_sent w' = w_sent w /\
  exists e, r = Ok e /\ silently w w' ((i, e) = with_engine w i)).
Proof.
  unfold check_engine. apply wp_bind, wp_attempt, wp_FindByID_profile.
  1,2: intros; apply wp_bind, wp_logf, wp_ret; split_and!; try done; eexists; split; [done|];
    apply (silently_trans w (bump w) _ True); [by split|apply silently_log].
  intros p Hp. apply wp_ret. split_and!; try done. eexists. split; [done|]. apply silently_ret; [done|].
  unfold with_engine. by rewrite Hp.
Qed.
Lemma reconcile_one_spec nodeID i w :
  wp (reconcile_one nodeID i) w (fun r w' => r = Ok tt /\ asks nodeID [i] w w').
Proof.
  unfold reconcile_one. apply wp_bind. eapply wp_mono; [apply check_engine_spec|].
  intros r w1 (Ht & Hs & e & -> & Hsil). apply wp_bind, wp_attempt, wp_NewEnvelope; intros.
  { apply wp_logf. split; [done|]. split; [done|]. exists []. rewrite app_nil_r. split_and!; [done|apply sublist_nil_l|].
    eapply (silently_trans w w1 _ True); [split; [exact (proj1 Hsil)|done]|]. apply (silently_trans w1 (bump w1) _ True); [by split|apply silently_log]. }
  apply wp_log_on_error, wp_Send; intros.
  - split; [done|]. split; [done|]. exists []. rewrite app_nil_r. split_and!; [done|apply sublist_nil_l|].
    eapply (silently_trans w w1 _ True); [split; [exact (proj1 Hsil)|done]|].
    apply (silently_trans w1 (bump (bump w1)) _ True); [by split|apply silently_log].
  - split; [done|]. split; [done|]. exists [(i, e)]. split_and!; [by cbn; rewrite Hs|done|].
    eapply silently_trans; [exact Hsil|]. apply silently_ret; [done|]. cbn [map]. by intros <-.
Qed.
Lemma forM_asks nodeID l w : wp (forM_ l (reconcile_one nodeID)) w (fun r w' => r = Ok tt /\ asks nodeID l w w').
Proof.
  revert w. induction l as [|i l IH]; intros w; simpl.
  { apply wp_ret. split; [done|]. split; [done|]. exists []. rewrite app_nil_r. split_and!; try done. }
  apply wp_bind. eapply wp_mono; [apply reconcile_one_spec|]. intros r w1 (-> & Ht1 & a1 & Hs1 & Hsub1 & Hsil1).
  eapply wp_mono; [apply IH|]. intros r w2 (-> & Ht2 & a2 & Hs2 & Hsub2 & Hsil2). split; [done|].
  split; [by rewrite Ht2|]. exists (a1 ++ a2). split_and!.
  - by rewrite Hs2, Hs1, map_app, app_assoc.
  - rewrite fmap_app. by apply (sublist_app _ [i]).
  - eapply silently_trans; [exact Hsil1|]. destruct Hsil2 as [Hp2 Hq2]. split; [done|]. intros Hl ->. rewrite (Hq2 Hl).
    unfold with_engine. by injection Ht1 as -> _ _.
Qed.

(** C11: when a node's agent connects, the server changes no row and writes no
    audit record; it sends that node nothing but questions about the instances
    it holds running there, oldest first, each at most once, and unless a
    failure was logged it asks about every one of them, with its port and
    engine. *)
Theorem ReconcileNode_spec nodeID w : (forall k i, w_instances w !! k = Some i -> InstID i = k) ->
  wp (ReconcileNode nodeID) w (fun r w' => r = Ok tt /\ asks nodeID (instances_where (running_on nodeID) w) w w') /\
  forall i, i ∈ instances_where (running_on nodeID) w <->
    w_instances w !! InstID i = Some i /\ PrimaryNodeID i = nodeID /\ InstStatus i = Running.
Proof.
  intros Hk. split.
  - unfold ReconcileNode, ListRunningByNode. apply wp_bind, wp_attempt, wp_wrap, wp_query; intros.
    + apply wp_logf. split; [done|]. split; [done|]. exists []. rewrite app_nil_r. split_and!; [done|apply sublist_nil_l|].
      apply (silently_trans w (bump w) _ True); [by split|apply silently_log].
    + change (instances_where (running_on nodeID) (bump w)) with (instances_where (running_on nodeID) w).
      generalize (instances_where (running_on nodeID) w) as l. intros l. eapply wp_mono; [apply forM_asks|].
      intros r w' [-> (Ht & asked & Ha)]. split; [done|]. split; [exact Ht|by exists asked].
  - intros i. rewrite elem_of_instances_where by done. unfold running_on. by rewrite andb_true_iff, !bool_decide_eq_true.
Qed.
End Sweep.

(** ** Witnesses: a node, a profile, the real inbox *)
From S2P Require Import Alerts AlertContract AlertFacts.

Definition bob_id : string := "00000000-0000-0000-0000-0000000000b0".
Definition bob : Actor := MkActor false bob_id TierDeveloper.
Definition lab_node (id : string) : Node :=
  MkNode id "lab" "lab.example" "10.0.0.7" Docker (FDec 80 0) (FDec 256 0) AgentOnline None None 0 None None None None None None "".
Definition llama : Profile :=
  MkProfile "p1" "llama-8b" "meta/llama" "llamacpp" (Raw (JObj [("ctx_size", JInt 4096)]) false) false None None "Q4_K_M"
    FormatGGUF None TopologySingleNode (Some "n1") 8080 None 0 None 0.
Definition lab : World :=
  set_w_profiles {[ "p1" := llama ]} (set_w_nodes {[ "n1" := lab_node "n1" ]}
    (set_w_users {[ bob_id := MkUser bob_id None "Bob" TierDeveloper 0 None None None None (Some "bob") None "{}" None None ]} empty_world)).
Definition inst1 (st : RunningInstanceStatus) (h : InstanceHealthStatus) : RunningInstance :=
  MkInstance "i1" "p1" st "n1" (Some 8080) (Some bob_id) 63900000000000000000 None h None None None.
Definition lab_with (i : RunningInstance) : World := set_w_instances {[ "i1" := i ]} lab.

Lemma lab_alerts_ok i : alerts_wf (lab_with i).
Proof. split; cbn; intros; rewrite ?lookup_empty in *; done. Qed.
Lemma lab_keys i k j : InstID i = "i1" -> w_instances (lab_with i) !! k = Some j -> InstID j = k.
Proof. intros Hi. cbn. intros [<- <-]%lookup_singleton_Some. done. Qed.
Lemma LoadInstance_spec_witness :
  load_outcome bob "p1" lab (fst (@LoadInstance quiet_env bob "p1" lab)) (snd (@LoadInstance quiet_env bob "p1" lab)) /\
  map (fun nm => match nm.2 with MLoadInstance m => (nm.1, li_Args m, li_ContainerName m) | _ => ("", [], "") end)
    (w_sent (snd (@LoadInstance quiet_env bob "p1" lab)))
  = [("n1", ["--ctx-size"; "4096"; "--alias"; "llama-8b"], "sparky-llama-8b-20251129-080000")].
Proof. split; [exact (@LoadInstance_spec quiet_env quiet_foreign bob "p1" lab)|vm_compute; reflexivity]. Defined.

Lemma UnloadInstance_spec_witness : let w := lab_with (inst1 Running HealthHealthy) in
  unload_outcome bob "i1" w (fst (@UnloadInstance quiet_env bob "i1" w)) (snd (@UnloadInstance quiet_env bob "i1" w)) /\
  w_sent (snd (@UnloadInstance quiet_env bob "i1" w)) = [("n1", MUnloadInstance "i1")].
Proof.
  split; [|vm_compute; reflexivity].
  apply (@UnloadInstance_spec quiet_env bob "i1" (lab_with (inst1 Running HealthHealthy))). intros k j. by apply lab_keys.
Defined.

(** The inbox itself, told that a running instance died: an alert opens, and a
    stop closes it. *)
Definition dead_report : InstanceHealth := MkInstanceHealth "i1" "dead" 63900000000000000000 ∅.
Definition dead_world : World :=
  snd (@HandleInstanceHealth quiet_env (@alert_raiser quiet_env no_notifier) "n1" (EInstanceHealth (Ok dead_report))
    (lab_with (inst1 Running HealthHealthy))).
Lemma HandleInstanceHealth_spec_witness :
  dead_alert_state dead_report HealthDead (lab_with (inst1 Running HealthHealthy)) dead_world /\
  map (fun ka => (ATitle ka.2, w_audiences dead_world !! ka.1)) (map_to_list (w_alerts dead_world)) =
    [("llama-8b is no longer running", Some [AudienceTier TierAdmin; AudienceUser bob_id])].
Proof.
  split; [|vm_compute; reflexivity].
  apply (@HandleInstanceHealth_spec quiet_env (@alert_raiser quiet_env no_notifier)
    (@alert_raiser_laws quiet_env no_notifier) "n1" dead_report HealthDead (lab_with (inst1 Running HealthHealthy))
    (lab_alerts_ok _) eq_refl). vm_compute. reflexivity.
Defined.
Lemma HandleInstanceResult_spec_witness : let w := lab_with (inst1 Running HealthDead) in
  let res := MkInstanceResult "i1" "stopped" 0 "" in
  ~ key_open (snd (@HandleInstanceResult quiet_env (@alert_raiser quiet_env no_notifier) "n1" (EInstanceResult (Ok res)) w))
      (instanceDeadAlertKey "i1").
Proof.
  refine (proj2 (proj2 (proj2 (proj2 (proj2 (@HandleInstanceResult_spec quiet_env (@alert_raiser quiet_env no_notifier)
    (@alert_raiser_laws quiet_env no_notifier) "n1" (MkInstanceResult "i1" "stopped" 0 "") Stopped
    (lab_with (inst1 Running HealthDead)) (lab_alerts_ok _) eq_refl)))) _) eq_refl). vm_compute. reflexivity.
Defined.

(** Loading twice, with a report in between. *)
Definition lab_launch : Profile * string * LaunchSpec :=
  match fst (@prepare_launch quiet_env bob "p1" lab) with Ok x => x | Err _ => (llama, "", MkLaunchSpec "" [] 0 "") end.
Definition lab_checked : Checked := MkChecked bob lab_launch.1.1 lab_launch.1.2 lab_launch.2.
Lemma lab_check : fst (@prepare_launch quiet_env bob "p1" lab) = Ok (lab_launch.1.1, lab_launch.1.2, lab_launch.2).
Proof. vm_compute. reflexivity. Qed.
Lemma one_active_per_profile_witness :
  let w1 := snd (@prepare_launch quiet_env bob "p1" lab) in
  let nobody := EInstanceResult (Ok (MkInstanceResult "nobody" "running" 8080 "")) in
  let w2 := snd (@HandleInstanceResult quiet_env (@alert_raiser quiet_env no_notifier) "n1" nobody w1) in
  let w3 := snd (@launch quiet_env (ck_Actor lab_checked) (ck_Profile lab_checked) (ck_Node lab_checked) (ck_Spec lab_checked) w2) in
  size (w_instances w3) = 1%nat /\ fst (@LoadInstance quiet_env bob "p1" w3) = Err ErrAlreadyRunning /\
  forall k1 k2 i1 i2, w_instances w3 !! k1 = Some i1 -> w_instances w3 !! k2 = Some i2 ->
    inst_active i1 = true -> inst_active i2 = true -> InstProfileID i1 = InstProfileID i2 -> k1 = k2.
Proof.
  intros w1 nobody w2 w3. split; [vm_compute; reflexivity|]. split; [vm_compute; reflexivity|].
  apply (@one_active_per_profile quiet_env (@alert_raiser quiet_env no_notifier) quiet_foreign lab w3 []).
  - split; intros *; cbn; rewrite lookup_empty; done.
  - eapply rtc_l; [exists (LoadChecked (ProfID lab_launch.1.1)); split; [exact (step_check bob "p1" lab [] _ _ _ lab_check)|by apply not_elem_of_nil]|].
    eapply rtc_l; [exists (ResultReported nobody); split; [exact (step_result "n1" nobody w1 [lab_checked])|]|].
    { intros (res & i & [= <-] & _ & Hi & _). vm_compute in Hi. done. }
    eapply rtc_l; [exists AnythingElse; split; [exact (step_launch w2 [] lab_checked [])|done]|]. apply rtc_refl.
Defined.
(** Two loads of one profile that overlap: both pass the check, and two
    instances of it start. *)
Definition raced : World :=
  let w1 := snd (@prepare_launch quiet_env bob "p1" lab) in
  let again := @prepare_launch quiet_env bob "p1" w1 in
  let load c := @launch quiet_env (ck_Actor c) (ck_Profile c) (ck_Node c) (ck_Spec c) in
  match fst again with
  | Ok (profile, node, spec) => snd (load (MkChecked bob profile node spec) (snd (load lab_checked (snd again))))
  | Err _ => lab
  end.
Example overlapping_loads_both_start :
  map (fun ki : string * RunningInstance => (InstProfileID ki.2, inst_active ki.2)) (map_to_list (w_instances raced)) = [("p1", true); ("p1", true)].
Proof. vm_compute. reflexivity. Qed.

(** Without its hypothesis: a late report that an instance already stopped is
    running makes a second active instance of its profile. *)
Definition woken : World :=
  snd (@HandleInstanceResult quiet_env (@alert_raiser quiet_env no_notifier) "n1"
    (EInstanceResult (Ok (MkInstanceResult "i1" "running" 8080 "")))
    (snd (@LoadInstance quiet_env bob "p1" (lab_with (inst1 Stopped HealthUnknown))))).
Example late_report_wakes_a_stopped_instance :
  length (List.filter (fun ki : string * RunningInstance => inst_active ki.2 && bool_decide (InstProfileID ki.2 = "p1"))
    (map_to_list (w_instances woken))) = 2%nat.
Proof. vm_compute. reflexivity. Qed.

Lemma ReconcileNode_spec_witness : let w := lab_with (inst1 Running HealthHealthy) in
  w_sent (snd (@ReconcileNode quiet_env "n1" w)) = [("n1", MCheckInstance "i1" 8080 "llamacpp")] /\
  asks "n1" [inst1 Running HealthHealthy] w (snd (@ReconcileNode quiet_env "n1" w)).
Proof.
  split; [vm_compute; reflexivity|].
  apply (proj1 (@ReconcileNode_spec quiet_env "n1" (lab_with (inst1 Running HealthHealthy))
    ltac:(intros k j; by apply lab_keys))).
Defined.
