(* ===== verification/LaunchNames.v ===== *)
(** * The names of containers ([internal/lifecycle/containername.go])

    What a container name is made of, whatever the profile is called. *)
From stdpp Require Import base list strings.
From Stdlib Require Import ZArith Lia.
From Stdlib Require Import Ascii.
From Stdlib Require String.
From S2P Require Import Prelude Text Json Calendar GoTime Lifecycle.
Local Open Scope string_scope.
Local Open Scope list_scope.
Local Open Scope Z_scope.

(** ** Decimal digits *)
Lemma digit_is_digit n : is_digit (ascii_of_N (Z.to_N (48 + n mod 10))) = true.
Proof.
  unfold is_digit, in_range, code. pose proof (Z.mod_pos_bound n 10 ltac:(lia)).
  rewrite N_ascii_embedding by lia. apply andb_true_iff. split; apply Z.leb_le; lia.
Qed.
Lemma dec_digits_spec fuel n acc : forallb is_digit (bytes acc) = true ->
  forallb is_digit (bytes (dec_digits fuel n acc)) = true.
Proof.
  revert n acc. induction fuel as [|f IH]; intros n acc Ha; simpl; [done|].
  assert (Hd : forallb is_digit (bytes (String.String (ascii_of_N (Z.to_N (48 + n mod 10))) acc)) = true).
  { cbn [bytes String.list_ascii_of_string forallb]. by rewrite digit_is_digit. }
  destruct (n / 10 =? 0); [exact Hd|by apply IH].
Qed.
Lemma dec_digits_length fuel n acc k : (1 <= k <= fuel)%nat -> 0 <= n < 10 ^ Z.of_nat k ->
  (1 + String.length acc <= String.length (dec_digits fuel n acc) <= k + String.length acc)%nat.
Proof.
  revert n acc k. induction fuel as [|f IH]; intros n acc k Hk Hn; [lia|]. cbn [dec_digits].
  destruct (Z.eqb_spec (n / 10) 0) as [E|E]; [simpl; lia|].
  destruct k as [|[|k]]; [lia| |].
  - exfalso. apply E. apply Z.div_small. simpl in Hn. lia.
  - assert (Hn' : 0 <= n / 10 < 10 ^ Z.of_nat (S k)).
    { rewrite (Nat2Z.inj_succ (S k)), Z.pow_succ_r in Hn by lia. split; [apply Z.div_pos; lia|apply Z.div_lt_upper_bound; lia]. }
    specialize (IH (n / 10) (String.String (ascii_of_N (Z.to_N (48 + n mod 10))) acc) (S k) ltac:(lia) Hn').
    cbn [String.length] in IH. lia.
Qed.
Lemma itoa_digits n : 0 <= n -> forallb is_digit (bytes (itoa n)) = true.
Proof. intros Hn. unfold itoa. rewrite (proj2 (Z.ltb_ge n 0)) by lia. by apply dec_digits_spec. Qed.
Lemma itoa_length n k : (1 <= k <= 20)%nat -> 0 <= n < 10 ^ Z.of_nat k -> (1 <= String.length (itoa n) <= k)%nat.
Proof.
  intros Hk Hn. unfold itoa. rewrite (proj2 (Z.ltb_ge n 0)) by lia.
  pose proof (dec_digits_length 20 n "" k Hk Hn) as Hl. cbn [String.length] in Hl. lia.
Qed.
Lemma pad_zeros_spec n s : forallb is_digit (bytes s) = true ->
  forallb is_digit (bytes (GoTime.pad_zeros n s)) = true /\
  String.length (GoTime.pad_zeros n s) = (n + String.length s)%nat.
Proof.
  revert s. induction n as [|n IH]; intros s Hs; simpl; [done|].
  destruct (IH ("0" +:+ s)) as [H1 H2]; [by rewrite bytes_app, forallb_app|]. split; [done|]. rewrite H2.
  change (String.length ("0" +:+ s)) with (S (String.length s)). lia.
Qed.
Lemma padded_spec k n : (1 <= k <= 20)%nat -> 0 <= n < 10 ^ Z.of_nat k ->
  forallb is_digit (bytes (padded k n)) = true /\ String.length (padded k n) = k.
Proof.
  intros Hk Hn. unfold padded. pose proof (itoa_length n k Hk Hn).
  destruct (pad_zeros_spec (k - String.length (itoa n)) (itoa n) (itoa_digits n ltac:(lia))) as [-> ->]. lia.
Qed.

(** ** The date *)
Lemma civil_range n : 0 <= n < 2921940 ->
  let '(y, m, d) := civil n in 0 <= y < 10000 /\ 1 <= m <= 12 /\ 0 <= d <= 31.
Proof.
  intros Hn. unfold civil. assert (He : 0 <= (n + 306) / 146097 <= 20) by zdiv.
  pose proof (Z.mod_pos_bound (n + 306) 146097 ltac:(lia)) as Hd. set (doe := (n + 306) mod 146097) in *.
  destruct (year_of_spec doe Hd) as [Hy Hdoy]. unfold civil_in_era. fold (year_of doe). unfold year_start in Hdoy.
  set (yoe := year_of doe) in *. set (doy := doe - (365 * yoe + yoe / 4 - yoe / 100)) in *.
  assert (Hmp : 0 <= (5 * doy + 2) / 153 <= 11) by zdiv.
  assert (Hday : 0 <= doy - (153 * ((5 * doy + 2) / 153) + 2) / 5 + 1 <= 31) by zdiv.
  set (mp := (5 * doy + 2) / 153) in *. cbv zeta.
  destruct (Z.ltb_spec mp 10); [destruct (Z.leb_spec (mp + 3) 2)|destruct (Z.leb_spec (mp - 9) 2)]; lia.
Qed.

Lemma date_range t : 0 <= t < 2921940 * 86400 * second ->
  let '(y, m, d) := DateOf UTC t in 0 <= y < 10000 /\ 1 <= m <= 12 /\ 0 <= d <= 31.
Proof.
  intros Ht. unfold DateOf. apply civil_range. unfold reading, secs.
  change (offset_at UTC _) with 0. rewrite Z.add_0_r, Z.div_div by (unfold second; lia).
  split; [apply Z.div_pos; unfold second in *; lia|]. apply Z.div_lt_upper_bound; unfold second in *; lia.
Qed.
Lemma clock_range t : 0 <= HourOf UTC t < 24 /\ 0 <= MinuteOf UTC t < 60 /\ 0 <= SecondOf UTC t < 60.
Proof. unfold HourOf, MinuteOf, SecondOf. generalize (reading UTC t). intros r. split_and!; zdiv. Qed.

Definition ref_char (c : ascii) : bool := is_digit c || is_char 45 c.
Lemma digits_ref l : forallb is_digit l = true -> forallb ref_char l = true.
Proof. rewrite !forallb_forall. intros Hl c Hc. unfold ref_char. by rewrite Hl. Qed.
Lemma format_ref_spec t : 0 <= t < 2921940 * 86400 * second ->
  forallb ref_char (bytes (format_ref t)) = true /\ String.length (format_ref t) = 15%nat.
Proof.
  intros Ht. pose proof (date_range t Ht) as Hd. pose proof (clock_range t) as (Hh & Hm & Hs). unfold format_ref.
  destruct (DateOf UTC t) as [[y mo] d]. destruct Hd as (Hy & Hmo & Hd).
  destruct (padded_spec 4 y ltac:(lia) ltac:(simpl; lia)) as [P1 L1].
  destruct (padded_spec 2 mo ltac:(lia) ltac:(simpl; lia)) as [P2 L2].
  destruct (padded_spec 2 d ltac:(lia) ltac:(simpl; lia)) as [P3 L3].
  destruct (padded_spec 2 (HourOf UTC t) ltac:(lia) ltac:(simpl; lia)) as [P4 L4].
  destruct (padded_spec 2 (MinuteOf UTC t) ltac:(lia) ltac:(simpl; lia)) as [P5 L5].
  destruct (padded_spec 2 (SecondOf UTC t) ltac:(lia) ltac:(simpl; lia)) as [P6 L6].
  split.
  - rewrite !bytes_app, !forallb_app. by rewrite (digits_ref _ P1), (digits_ref _ P2), (digits_ref _ P3), (digits_ref _ P4), (digits_ref _ P5), (digits_ref _ P6).
  - rewrite <-length_bytes, !bytes_app, !length_app, !length_bytes, L1, L2, L3, L4, L5, L6. done.
Qed.

(** ** The profile part *)
Definition container_char (c : ascii) : bool := is_alnum c || is_char 95 c || is_char 46 c || is_char 45 c.

Lemma kept_rune_char r a : kept_rune r = Some a -> container_char a = true.
Proof.
  unfold kept_rune. destruct r.2 as [|x [|]]; try done. destruct (name_char x) eqn:E; [|done]. intros [= <-].
  unfold container_char. unfold name_char in E. by rewrite E.
Qed.
Lemma sanitize_chars b l : forallb container_char (sanitize_loop b l) = true.
Proof.
  revert b. induction l as [|r l IH]; intros b; simpl; [done|].
  destruct (kept_rune r) as [a|] eqn:E; simpl; [by rewrite (kept_rune_char r a E), IH|]. destruct b; simpl; by rewrite IH.
Qed.
Lemma forallb_rev {A} (p : A -> bool) l : forallb p (rev l) = forallb p l.
Proof. induction l as [|x l IH]; simpl; [done|]. rewrite forallb_app, IH. simpl. by rewrite andb_true_r, andb_comm. Qed.
Lemma trim_left_forallb p l : forallb p l = true -> forallb p (trim_left l) = true.
Proof. induction l as [|c l IH]; simpl; [done|]. intros [Hc Hl]%andb_true_iff. destruct (trimmed c); [auto|]. simpl. by rewrite Hc, Hl. Qed.
Lemma trim_forallb p l : forallb p l = true -> forallb p (trim l) = true.
Proof. intros Hl. unfold trim. rewrite forallb_rev. apply trim_left_forallb. rewrite forallb_rev. by apply trim_left_forallb. Qed.
Lemma trim_left_length l : (length (trim_left l) <= length l)%nat.
Proof. induction l as [|c l IH]; simpl; [lia|]. destruct (trimmed c); simpl; lia. Qed.
Lemma trim_length l : (length (trim l) <= length l)%nat.
Proof.
  unfold trim. rewrite length_rev. pose proof (trim_left_length (rev (trim_left l))). rewrite length_rev in *.
  pose proof (trim_left_length l). lia.
Qed.
Lemma trim_left_head l c l' : trim_left l = c :: l' -> trimmed c = false.
Proof. induction l as [|x l IH]; simpl; [done|]. destruct (trimmed x) eqn:E; [done|]. by intros [= <- <-]. Qed.
Lemma trim_left_suffix l : exists p, l = p ++ trim_left l.
Proof.
  induction l as [|c l [p IH]]; simpl; [by exists []|]. destruct (trimmed c); [exists (c :: p); simpl; congruence|by exists []].
Qed.
(** What is left after trimming begins and ends with a character that is not
    trimmed. *)
Lemma trim_ends l : (forall c l', trim l = c :: l' -> trimmed c = false) /\ (forall c l', trim l = l' ++ [c] -> trimmed c = false).
Proof.
  unfold trim. destruct (trim_left_suffix (rev (trim_left l))) as [p Hp]. set (u := trim_left (rev (trim_left l))) in *. split.
  - intros c l' Hu. assert (Hl : trim_left l = c :: (l' ++ rev p)).
    { rewrite <-(rev_involutive (trim_left l)), Hp, rev_app_distr, Hu. done. }
    by eapply trim_left_head.
  - intros c l' Hu. assert (Hl : u = c :: rev l').
    { rewrite <-(rev_involutive u), Hu, rev_app_distr. done. }
    by eapply trim_left_head.
Qed.

Lemma container_alnum c : container_char c = true -> trimmed c = false -> is_alnum c = true.
Proof.
  unfold container_char, trimmed. destruct (is_alnum c); [done|]. simpl. intros Hc Ht. propb.
  destruct (is_char 95 c), (is_char 46 c), (is_char 45 c); done.
Qed.

(** A name Docker and Podman accept, [[a-zA-Z0-9][a-zA-Z0-9_.-]*]. *)
Definition valid_container_name (s : string) : bool :=
  match bytes s with [] => false | c :: l => is_alnum c && forallb container_char l end.
(** A profile part: not empty, at most 40 characters, letters and digits at
    both ends. *)
Definition good_part (l : list ascii) : Prop :=
  l <> [] /\ (length l <= 40)%nat /\ forallb container_char l = true /\
  (forall c l', l = c :: l' -> is_alnum c = true) /\ (forall c l', l = l' ++ [c] -> is_alnum c = true).

Lemma trim_good l : forallb container_char l = true -> (length l <= 40)%nat -> trim l <> [] -> good_part (trim l).
Proof.
  intros Hc Hl Hne. pose proof (trim_forallb _ _ Hc) as Hc'. pose proof (trim_length l).
  destruct (trim_ends l) as [He1 He2]. split_and!; [done|lia|done| |].
  - intros c l' E. apply container_alnum; [|by eapply He1]. rewrite E in Hc'. simpl in Hc'. by propb.
  - intros c l' E. apply container_alnum; [|by eapply He2]. rewrite E, forallb_app in Hc'. simpl in Hc'. by propb.
Qed.
Lemma sanitized_good s : good_part (bytes (sanitizeContainerNamePart s)).
Proof.
  unfold sanitizeContainerNamePart. set (l := sanitize_loop false (chunks s)).
  assert (Hl : forallb container_char l = true) by apply sanitize_chars.
  assert (Hp : good_part (bytes "profile")).
  { split_and!; try done; [vm_compute; lia| |].
    - by intros c l' [= <- _].
    - intros c l' E. apply (f_equal (@rev ascii)) in E. rewrite rev_app_distr in E. by injection E as <- _. }
  assert (Hcase : forall x, (x <> [] -> good_part x) ->
    good_part (bytes match x with [] => "profile" | _ => of_bytes x end)).
  { intros [|c x] Hx; [exact Hp|]. rewrite bytes_of_bytes. by apply Hx. }
  apply Hcase. clear Hcase Hp. cbv zeta. destruct (Nat.ltb_spec maxContainerNameProfileLen (length (trim l))) as [Hlt|Hge].
  - intros Hne. apply trim_good; [|rewrite length_take; unfold maxContainerNameProfileLen; lia|done].
    pose proof (trim_forallb _ _ Hl) as Ht. rewrite <-(take_drop maxContainerNameProfileLen (trim l)), forallb_app in Ht.
    by apply andb_true_iff in Ht as [? _].
  - intros Hne. destruct (trim_ends l) as [He1 He2]. pose proof (trim_forallb _ _ Hl) as Ht.
    split_and!; [done|exact Hge|done| |].
    + intros c l' E. apply container_alnum; [|by eapply He1]. rewrite E in Ht. simpl in Ht. by propb.
    + intros c l' E. apply container_alnum; [|by eapply He2]. rewrite E, forallb_app in Ht. simpl in Ht. by propb.
Qed.

(** Whatever text a profile's name is, up to the year 8000 a container is
    given a name that Docker and Podman accept, of at most 63 bytes: sparky-, a
    part of the profile's name of at most 40 characters with a letter or digit
    at either end, and the start time as 15 characters of digits and a dash. *)
Theorem containerName_valid name t : 0 <= t < 2921940 * 86400 * second ->
  valid_container_name (containerName name t) = true /\ (String.length (containerName name t) <= 63)%nat /\
  exists part, containerName name t = ("sparky-" +:+ part +:+ "-" +:+ format_ref t)%string /\ good_part (bytes part).
Proof.
  intros Ht. destruct (format_ref_spec t Ht) as [Href Hlen]. destruct (sanitized_good name) as (Hne & Hl & Hc & Hends).
  split_and!.
  - unfold valid_container_name, containerName, containerNamePrefix. rewrite !bytes_app.
    change (bytes "sparky-") with (ascii_of_N 115 :: bytes "parky-"). cbn [app]. rewrite !forallb_app, Hc.
    assert (Hr : forallb container_char (bytes (format_ref t)) = true).
    { rewrite forallb_forall in *. intros c Hin. apply Href in Hin. unfold ref_char, container_char, is_alnum in *.
      destruct (is_digit c); [done|]. simpl in Hin. rewrite Hin. by rewrite orb_true_r. }
    by rewrite Hr.
  - unfold containerName. rewrite <-length_bytes, !bytes_app, !length_app, !length_bytes, Hlen.
    rewrite length_bytes in Hl. change (String.length containerNamePrefix) with 7%nat. change (String.length "-") with 1%nat.
    lia.
  - by exists (sanitizeContainerNamePart name).
Qed.
Lemma containerName_valid_witness :
  valid_container_name (containerName "Qwen/Qwen3-8B: fast" (63900000000 * second)) = true /\
  containerName "Qwen/Qwen3-8B: fast" (63900000000 * second) = "sparky-Qwen-Qwen3-8B-fast-20251129-080000".
Proof.
  split; [|vm_compute; reflexivity].
  apply (containerName_valid "Qwen/Qwen3-8B: fast" (63900000000 * second)). unfold second. lia.
Defined.
