(* ===== verification/StaleStore.v ===== *)
(** * Stale container settings ([internal/db/stale_container_settings.go])

    The singleton row, with its [CHECK]s, and the JSON of a schedule
    ([internal/schedule] Spec) as the [jsonb] column keeps it. *)
From stdpp Require Import base list strings gmap.
From Stdlib Require Import ZArith Lia.
From Stdlib Require Import Ascii.
From Stdlib Require String.
From S2P Require Import Prelude Text Json Db InstanceStore ProfileStore Schedule.
Local Open Scope string_scope.
Local Open Scope list_scope.
Local Open Scope Z_scope.

(** ** The JSON of a schedule *)

(** [json.Marshal(spec)]: the empty lists and the zero interval are omitted. *)
Definition omit {A} (empty : bool) (x : A) : list A := if empty then [] else [x].
Definition marshal_spec (s : Spec) : json :=
  JObj (("kind", JStr (Kind_string (SpecKind s)))
    :: omit (bool_decide (Weekdays s = [])) ("weekdays", JArr (map JInt (Weekdays s)))
    ++ omit (bool_decide (Times s = [])) ("times", JArr (map JStr (Times s)))
    ++ omit (EveryDays s =? 0) ("every_days", JInt (EveryDays s))).
Definition kind_of (s : string) : Kind :=
  if bool_decide (s = "weekly") then KindWeekly else if bool_decide (s = "every_days") then KindEveryDays else KindOther s.
(** [json.Unmarshal(raw, &spec)] into a zero [Spec]: keys are matched exactly
    or else ignoring case, unknown ones are skipped. *)
Fixpoint decode_all {A} (zero : A) (f : json -> result (option A)) (l : list json) : result (list A) :=
  match l with
  | [] => Ok []
  | v :: l' =>
      match f v, decode_all zero f l' with
      | Ok x, Ok xs => Ok (default zero x :: xs)
      | Err e, _ | _, Err e => Err e
      end
  end.
Definition decode_list {A} (zero : A) (f : json -> result (option A)) (v : json) : result (list A) :=
  match v with
  | JNull => Ok []
  | JArr l => decode_all zero f l
  | _ => Err (Opaque "json: cannot unmarshal into Go struct field of type slice")
  end.
Definition result_map {A B} (f : A -> B) (r : result A) : result B := match r with Ok a => Ok (f a) | Err e => Err e end.
Definition spec_names : list string := ["kind"; "weekdays"; "times"; "every_days"].
Definition spec_field (name : string) : option (json -> Spec -> result Spec) :=
  if bool_decide (name = "kind") then Some (fun v s => result_map (fun k =>
    match k with Some k => MkSpec (kind_of k) (Weekdays s) (Times s) (EveryDays s) | None => s end) (decode_string v))
  else if bool_decide (name = "weekdays") then Some (fun v s => result_map (fun d =>
    MkSpec (SpecKind s) d (Times s) (EveryDays s)) (decode_list 0 decode_int v))
  else if bool_decide (name = "times") then Some (fun v s => result_map (fun t =>
    MkSpec (SpecKind s) (Weekdays s) t (EveryDays s)) (decode_list "" decode_string v))
  else if bool_decide (name = "every_days") then Some (fun v s => result_map (fun n =>
    match n with Some n => MkSpec (SpecKind s) (Weekdays s) (Times s) n | None => s end) (decode_int v))
  else None.
Fixpoint unmarshal_fields (l : list (string * json)) (s : Spec) : result Spec :=
  match l with
  | [] => Ok s
  | (k, v) :: l' =>
      match match_field spec_field spec_names k with
      | None => unmarshal_fields l' s
      | Some f => match f v s with Ok s' => unmarshal_fields l' s' | Err e => Err e end
      end
  end.
Definition zero_spec : Spec := MkSpec (KindOther "") [] [] 0.
Definition unmarshal_spec (v : json) : result Spec :=
  match v with
  | JObj l => unmarshal_fields l zero_spec
  | JNull => Ok zero_spec
  | _ => Err (Opaque "json: cannot unmarshal into Go value of type schedule.Spec")
  end.

(** ** The row *)

(** [StaleContainerMode.Valid], with the mode it is. *)
Definition mode_text (m : StaleContainerMode) : string :=
  match m with ModeNone => "none" | ModeReport => "report" | ModePrune => "prune" end.
Definition mode_of (s : string) : option StaleContainerMode :=
  List.find (fun m => bool_decide (mode_text m = s)) [ModeNone; ModeReport; ModePrune].
Record StaleContainerSettingsUpdate := MkStaleUpdate {
  SU_Mode : StaleContainerMode; SU_Schedule : option json; SU_MinAgeHours : Z; SU_ArchiveLines : Z; SU_UpdatedBy : option string
}.
(** [nullableJSON] of a value, into a [jsonb] column. *)
Definition nullableJSON (v : option json) : error + option json :=
  match v with
  | None => inr None
  | Some v => if has_nul v then inl (PgError "22P05") else inr (Some (jsonb v))
  end.
(** The row, unless a [CHECK] or the reference to a user refuses it. *)
Definition put_stale (s : StaleContainerSettings) (w : World) : error + (unit * World) :=
  if (bool_decide (SCMode s = ModeNone) || bool_decide (is_Some (SCSchedule s)))
     && (0 <=? MinAgeHours s) && (MinAgeHours s <=? 720) && (0 <=? ArchiveLines s) && (ArchiveLines s <=? 100000)
  then if user_ref_ok (SCUpdatedBy s) w then inr (tt, set_w_stale s w) else inl (PgError "23503")
  else inl (PgError "23514").
(** What an update makes of the row: a new schedule, or a monitoring switched
    on, starts over. *)
Definition updated_row (now : Time) (u : StaleContainerSettingsUpdate) (schedule : option json) (old : StaleContainerSettings) :
    StaleContainerSettings :=
  let restarts := negb (bool_decide (SCSchedule old = schedule)) || bool_decide (SCMode old = ModeNone) in
  MkStale (SU_Mode u) schedule (if restarts then now else ScheduleSetAt old) (if restarts then None else LastRunAt old)
    (LastRunSummary old) (SU_MinAgeHours u) (SU_ArchiveLines u) (SU_UpdatedBy u) now.
(** What a restore makes of it: the summary of the last run stays. *)
Definition restored_row (prev : StaleContainerSettings) (schedule : option json) (old : StaleContainerSettings) : StaleContainerSettings :=
  MkStale (SCMode prev) schedule (ScheduleSetAt prev) (LastRunAt prev) (LastRunSummary old)
    (MinAgeHours prev) (ArchiveLines prev) (SCUpdatedBy prev) (SCUpdatedAt prev).

Section Repository.
Context `{Env}.
Definition Get_stale : M StaleContainerSettings := wrap "get stale container settings: " (query w_stale).
Definition Update_stale (u : StaleContainerSettingsUpdate) : M unit :=
  wrap "update stale container settings: " (sql (fun w =>
    match nullableJSON (SU_Schedule u) with
    | inl e => inl e
    | inr schedule => put_stale (updated_row (w_clock w) u schedule (w_stale w)) w
    end)).
Definition Restore (prev : StaleContainerSettings) : M unit :=
  wrap "restore stale container settings: " (sql (fun w =>
    match nullableJSON (SCSchedule prev) with
    | inl e => inl e
    | inr schedule => put_stale (restored_row prev schedule (w_stale w)) w
    end)).
Definition MarkRun (startedAt : Time) : M unit :=
  wrap "mark stale container run: " (exec (fun w => set_w_stale (set_LastRunAt (Some startedAt) (w_stale w)) w)).
Definition SetLastRunSummary (summary : RunSummary) : M unit :=
  wrap "set stale container run summary: "
    (exec (fun w => set_w_stale (set_LastRunSummary (Some summary) (w_stale w)) w)).
End Repository.
