(* ===== verification/StaleClassify.v ===== *)
(** * What makes a container stale ([internal/stalecontainers/classify.go])

    [Classify] is the safety boundary of the feature: what it calls stale is
    what may be removed.  [stale_now] says which containers those are. *)
From stdpp Require Import base list strings gmap.
From Stdlib Require Import ZArith Lia.
From Stdlib Require Import Ascii.
From Stdlib Require String.
From S2P Require Import Prelude Text Json Db GoTime.
Local Open Scope string_scope.
Local Open Scope list_scope.
Local Open Scope Z_scope.

Inductive Verdict := VerdictStale | VerdictRecent | VerdictLive | VerdictOrphanLive | VerdictOther.
#[export] Instance Verdict_eq_dec : EqDecision Verdict.
Proof. solve_decision. Defined.
(** The unknown times are zero, as in the source. *)
Record Container := MkContainer {
  c_InstanceID : string; c_ProfileID : string; c_ContainerID : string; c_ContainerName : string; c_State : string;
  c_Labelled : bool; c_ExitCode : option Z; c_OOMKilled : bool; c_CreatedAt : Time; c_FinishedAt : Time
}.
Record Evaluation := MkEvaluation { EvVerdict : Verdict; EvReason : string; EvStoppedAt : Time }.

Definition containerRunning (state : string) : bool :=
  bool_decide (state = "running") || bool_decide (state = "paused") || bool_decide (state = "restarting").
Definition instance_status_text (s : RunningInstanceStatus) : string :=
  match s with
  | Starting => "starting" | Running => "running" | Stopping => "stopping" | Stopped => "stopped" | Failed => "failed"
  end.
(** [humanDuration]; [d / (24 * time.Hour)] truncates. *)
Definition day : Z := 24 * hour.
Definition humanDuration (d : Z) : string :=
  let d := if d <? 0 then 0 else d in
  if 48 * hour <=? d then itoa (d ÷ day) +:+ " days"
  else if 2 * hour <=? d then itoa (d ÷ hour) +:+ " hours"
  else if hour <=? d then "1 hour"
  else if 2 * minute <=? d then itoa (d ÷ minute) +:+ " minutes"
  else if minute <=? d then "1 minute" else "less than a minute".

(** Rule 2: the instance is starting, running or stopping. *)
Definition instance_live (i : RunningInstance) : bool :=
  match InstStatus i with Starting | Running | Stopping => true | Stopped | Failed => false end.
(** Rule 5: the time a container is aged from. *)
Definition stopped_at (c : Container) (inst : option RunningInstance) : Time :=
  let t := c_FinishedAt c in
  let t := if t =? 0 then default t (inst ≫= StoppedAt) else t in
  if t =? 0 then c_CreatedAt c else t.
(** Rules 4 and 5, once the instance is known to be over. *)
Definition evaluate_age (c : Container) (inst : option RunningInstance) (now : Time) (minAge : Z) : Evaluation :=
  let stoppedAt := stopped_at c inst in
  if stoppedAt =? 0 then MkEvaluation VerdictRecent "when it stopped is not known" 0
  else
    let age := Sub now stoppedAt in
    if age <? minAge then
      MkEvaluation VerdictRecent ("stopped " +:+ humanDuration age +:+ " ago, less than the " +:+ humanDuration minAge +:+ " minimum") stoppedAt
    else MkEvaluation VerdictStale "its instance is over and it has been stopped long enough" stoppedAt.
Definition evaluate_state (c : Container) (inst : option RunningInstance) (now : Time) (minAge : Z) : Evaluation :=
  if bool_decide (c_State c = "exited") then evaluate_age c inst now minAge
  else if bool_decide (c_State c = "dead") || bool_decide (c_State c = "created") then
    if negb (c_Labelled c) then
      MkEvaluation VerdictOther
        ("an unlabelled container is removed only once it has exited, and this one is " +:+ c_State c) 0
    else evaluate_age c inst now minAge
  else MkEvaluation VerdictOther ("the container is " +:+ c_State c) 0.
Definition Classify (nodeID : string) (c : Container) (inst : option RunningInstance) (now : Time) (minAge : Z) : Evaluation :=
  if containerRunning (c_State c) then
    match inst with
    | None => MkEvaluation VerdictOrphanLive ("the container is " +:+ c_State c +:+ " and Sparky has no record of its instance") 0
    | Some _ => MkEvaluation VerdictLive ("the container is " +:+ c_State c) 0
    end
  else match inst with
  | Some i =>
      if instance_live i then
        MkEvaluation VerdictLive
          ("its instance is " +:+ instance_status_text (InstStatus i) +:+ "; Unload it from the Dashboard to clear it") 0
      else if negb (bool_decide (PrimaryNodeID i = nodeID)) then
        MkEvaluation VerdictOther "its instance record belongs to a different node" 0
      else evaluate_state c inst now minAge
  | None => evaluate_state c inst now minAge
  end.

(** ** Which containers are stale *)

(** The container has ended, for good if it is not labelled. *)
Definition ended (c : Container) : Prop :=
  c_State c = "exited" \/ (c_State c = "dead" \/ c_State c = "created") /\ c_Labelled c = true.
(** The instance record, if there is one, is of an instance of this node that
    is over. *)
Definition over_on (nodeID : string) (inst : option RunningInstance) : Prop :=
  forall i, inst = Some i -> (InstStatus i = Stopped \/ InstStatus i = Failed) /\ PrimaryNodeID i = nodeID.
(** When it stopped, from the best source there is. *)
Definition stopped_since (c : Container) (inst : option RunningInstance) (t : Time) : Prop :=
  t <> 0 /\
  ((t = c_FinishedAt c) \/
   (c_FinishedAt c = 0 /\ exists i, inst = Some i /\ StoppedAt i = Some t) \/
   (c_FinishedAt c = 0 /\ (forall i u, inst = Some i -> StoppedAt i = Some u -> u = 0) /\ t = c_CreatedAt c)).
Definition stale_now (nodeID : string) (c : Container) (inst : option RunningInstance) (now : Time) (minAge : Z) (t : Time) : Prop :=
  ended c /\ over_on nodeID inst /\ stopped_since c inst t /\ minAge <= Sub now t.

Lemma stopped_at_since c inst t : stopped_since c inst t <-> t <> 0 /\ t = stopped_at c inst.
Proof.
  unfold stopped_since, stopped_at. destruct (Z.eqb_spec (c_FinishedAt c) 0) as [E|E].
  2: { rewrite (proj2 (Z.eqb_neq _ _) E). naive_solver. }
  destruct inst as [i|]; simpl; [destruct (StoppedAt i) as [u|] eqn:Eu; simpl|].
  - destruct (Z.eqb_spec u 0); naive_solver.
  - rewrite E, Z.eqb_refl. naive_solver.
  - rewrite E, Z.eqb_refl. naive_solver.
Qed.
(** Why a container that has ended, and whose instance has, is left for now. *)
Definition too_recent (c : Container) (inst : option RunningInstance) (now : Time) (minAge : Z) (t : Time) : Prop :=
  (t = 0 /\ forall u, ~ stopped_since c inst u) \/ (stopped_since c inst t /\ Sub now t < minAge).
Lemma evaluate_age_spec c inst now minAge : let e := evaluate_age c inst now minAge in
  (EvVerdict e = VerdictStale /\ stopped_since c inst (EvStoppedAt e) /\ minAge <= Sub now (EvStoppedAt e)) \/
  (EvVerdict e = VerdictRecent /\ too_recent c inst now minAge (EvStoppedAt e)).
Proof.
  cbv zeta. unfold evaluate_age, too_recent. setoid_rewrite stopped_at_since. destruct (Z.eqb_spec (stopped_at c inst) 0) as [E|E].
  - right. split; [done|]. left. naive_solver.
  - destruct (Z.ltb_spec (Sub now (stopped_at c inst)) minAge) as [L|L]; [right|left]; split; try done. by right.
Qed.
Lemma evaluate_state_spec c inst now minAge : let e := evaluate_state c inst now minAge in
  (ended c /\ e = evaluate_age c inst now minAge) \/ (~ ended c /\ EvVerdict e = VerdictOther).
Proof.
  cbv zeta. unfold evaluate_state, ended. repeat case_bool_decide; simpl; try (left; naive_solver); try (right; naive_solver).
  all: destruct (c_Labelled c); simpl; [left|right]; naive_solver.
Qed.

Lemma ended_quiet c : ended c -> containerRunning (c_State c) = false.
Proof. unfold ended, containerRunning. by intros [-> | [[-> | ->] _]]. Qed.
Lemma instance_live_over i : instance_live i = false <-> InstStatus i = Stopped \/ InstStatus i = Failed.
Proof. unfold instance_live. destruct (InstStatus i); naive_solver. Qed.
(** What is not running and has no live instance is decided by its state, its
    age and whose it is. *)
Lemma Classify_over nodeID c inst now minAge : ended c -> over_on nodeID inst ->
  Classify nodeID c inst now minAge = evaluate_age c inst now minAge.
Proof.
  intros He Ho. assert (Hs : evaluate_state c inst now minAge = evaluate_age c inst now minAge).
  { destruct (evaluate_state_spec c inst now minAge) as [[_ ?]|[? _]]; done. }
  unfold Classify. rewrite (ended_quiet c He). destruct inst as [i|]; [|exact Hs].
  destruct (Ho i eq_refl) as [Hi Hn]. by rewrite (proj2 (instance_live_over i) Hi), bool_decide_eq_true_2.
Qed.
Lemma stopped_since_unique c inst t u : stopped_since c inst t -> stopped_since c inst u -> t = u.
Proof. rewrite !stopped_at_since. naive_solver. Qed.

(** What each verdict says. *)
Definition verdict_says (nodeID : string) (c : Container) (inst : option RunningInstance) (now : Time) (minAge : Z) (e : Evaluation) : Prop :=
  match EvVerdict e with
  | VerdictStale => stale_now nodeID c inst now minAge (EvStoppedAt e)
  | VerdictRecent => ended c /\ over_on nodeID inst /\ too_recent c inst now minAge (EvStoppedAt e)
  | VerdictLive => exists i, inst = Some i /\ (containerRunning (c_State c) = true \/ instance_live i = true)
  | VerdictOrphanLive => inst = None /\ containerRunning (c_State c) = true
  | VerdictOther => containerRunning (c_State c) = false /\ (forall i, inst = Some i -> instance_live i = false) /\
      ~ (ended c /\ over_on nodeID inst)
  end.
Lemma Classify_verdict nodeID c inst now minAge : verdict_says nodeID c inst now minAge (Classify nodeID c inst now minAge).
Proof.
  unfold verdict_says.
  assert (Hend : over_on nodeID inst -> let e := evaluate_state c inst now minAge in
    (EvVerdict e = VerdictStale /\ stale_now nodeID c inst now minAge (EvStoppedAt e)) \/
    (EvVerdict e = VerdictRecent /\ ended c /\ over_on nodeID inst /\ too_recent c inst now minAge (EvStoppedAt e)) \/
    (EvVerdict e = VerdictOther /\ ~ (ended c /\ over_on nodeID inst))).
  { intros Ho. destruct (evaluate_state_spec c inst now minAge) as [[He ->]|[Hn Hv]]; [|naive_solver].
    unfold stale_now. destruct (evaluate_age_spec c inst now minAge) as [(Hv & Hs & Hl)|[Hv Hr]]; [left|right; left]; done. }
  unfold Classify. destruct (containerRunning (c_State c)) eqn:Er; [destruct inst; naive_solver|].
  destruct inst as [i|]; [destruct (instance_live i) eqn:El; [naive_solver|case_bool_decide as Hn; cbn [negb]]|].
  + assert (Ho : over_on nodeID (Some i)) by (intros j [= <-]; by rewrite <-instance_live_over).
    destruct (Hend Ho) as [[-> ?]|[[-> ?]|[-> ?]]]; naive_solver.
  + cbn. split; [done|]. split; [naive_solver|]. intros [_ Ho]. by destruct (Ho i eq_refl).
  + destruct (Hend ltac:(done)) as [[-> ?]|[[-> ?]|[-> ?]]]; naive_solver.
Qed.
(** C14: a container is stale exactly when it is not running, has ended (an
    unlabelled one has exited), its instance record, if there is one, is of an
    instance of the very node that reports it and is stopped or failed, and it
    is known to have stopped at least the minimum age ago, by the container's
    finish time, else the record's, else the container's creation.  Of the
    rest, what runs is live or an orphan, what belongs to a live instance is
    live, and what would be stale but is too young, or of unknown age, is
    recent. *)
Theorem Classify_spec nodeID c inst now minAge :
  let e := Classify nodeID c inst now minAge in
  verdict_says nodeID c inst now minAge e /\
  forall t, stale_now nodeID c inst now minAge t -> EvVerdict e = VerdictStale /\ EvStoppedAt e = t.
Proof.
  cbv zeta. split; [apply Classify_verdict|].
  intros t (He & Ho & Hs & Hl). rewrite (Classify_over _ _ _ _ _ He Ho).
  destruct (evaluate_age_spec c inst now minAge) as [(Hv & Hs' & _)|[Hv [[_ Hn]|[Hs' Hlt]]]].
  + split; [done|by eapply stopped_since_unique].
  + by destruct (Hn t).
  + rewrite <-(stopped_since_unique _ _ _ _ Hs Hs') in Hlt. lia.
Qed.
(** What is stale stays stale as time passes. *)
Lemma stale_later nodeID c inst now later minAge t : now <= later -> stale_now nodeID c inst now minAge t ->
  stale_now nodeID c inst later minAge t.
Proof. intros Hle (He & Ho & Hs & Hl). split_and!; try done. unfold Sub in *. lia. Qed.
