(* ===== verification/StaleScan.v ===== *)
(** * Scanning the nodes ([internal/stalecontainers/scan.go])

    The requests that wait for an agent, the parts of a container list, what
    of it is believed, and the evaluation of what a scan found.  While a
    request waits, the messages that arrive are handled: [arriving] says which
    they are. *)
From stdpp Require Import base list strings gmap.
From Stdlib Require Import ZArith Lia.
From Stdlib Require Import Ascii.
From Stdlib Require String.
From S2P Require Import Prelude Text Json Db GoTime Rbac InstanceStore ProfileStore Wire NodeStore NodeToken StaleStore StaleClassify.
Local Open Scope string_scope.
Local Open Scope list_scope.
Local Open Scope Z_scope.

Definition maxContainersPerNode : Z := 600.
Definition maxListParts : Z := 40.
Definition MaxContainerNameLen : nat := 128.
Definition MaxContainerIDLen : nat := 64.

Inductive NodeStatus := ScanDone | ScanOffline | ScanFailed.
#[export] Instance NodeStatus_eq_dec : EqDecision NodeStatus.
Proof. solve_decision. Defined.
Record Item := MkItem { it_Container : Container; it_Evaluation : Evaluation; it_ProfileName : string; it_InstanceStatus : string }.
Record NodeScan := MkScan {
  ns_NodeID : string; ns_NodeName : string; ns_Status : NodeStatus; ns_Error : string; ns_Truncated : bool; ns_Items : list Item
}.
Definition it_Verdict (it : Item) : Verdict := EvVerdict (it_Evaluation it).
Definition it_InstanceID (it : Item) : string := c_InstanceID (it_Container it).
(** [NodeScan.With] *)
Definition With (n : NodeScan) (v : Verdict) : list Item := List.filter (fun it => bool_decide (it_Verdict it = v)) (ns_Items n).

(** ** The parts of a container list *)
Definition finish (w : listWait) : listWait :=
  MkListWait (lw_nodeID w) (lw_next w) (lw_containers w) (lw_truncated w) (lw_errMsg w) true.
Definition fail (msg : string) (w : listWait) : listWait :=
  finish (MkListWait (lw_nodeID w) (lw_next w) [] (lw_truncated w) msg (lw_finished w)).
Definition out_of_order (part next : Z) : string :=
  "the agent's answer arrived out of order (part " +:+ itoa part +:+ ", expected " +:+ itoa next +:+ ")".
Definition could_not_list (why : string) : string := "the agent could not list its containers: " +:+ why.
(** A part of the answer from the node that was asked. *)
Definition add_part (part : ListContainersResult) (w : listWait) : listWait :=
  if negb (lc_Part part =? lw_next w) then fail (out_of_order (lc_Part part) (lw_next w)) w
  else if maxListParts <=? lc_Part part then fail "the agent's answer was longer than expected" w
  else if maxContainersPerNode <? Z.of_nat (length (lw_containers w) + length (lc_Containers part)) then
    fail "the agent reported more containers than expected" w
  else
    let w := MkListWait (lw_nodeID w) (lw_next w + 1) (lw_containers w ++ lc_Containers part) (lw_truncated w) (lw_errMsg w) (lw_finished w) in
    if negb (lc_Final part) then w
    else if bool_decide (lc_Error part = "") then
      finish (MkListWait (lw_nodeID w) (lw_next w) (lw_containers w) (lc_Truncated part) (lw_errMsg w) (lw_finished w))
    else finish (MkListWait (lw_nodeID w) (lw_next w) [] (lc_Truncated part) (could_not_list (lc_Error part)) (lw_finished w)).
(** The waits after a part of any node arrived. *)
Definition take_part (nodeID : string) (part : ListContainersResult) (waits : gmap string listWait) : gmap string listWait :=
  match waits !! lc_ScanID part with
  | Some w =>
      if negb (bool_decide (lw_nodeID w = nodeID)) || lw_finished w then waits
      else <[lc_ScanID part := add_part part w]> waits
  | None => waits
  end.
(** A removal that was answered is not in the map any more, as far as another
    answer is concerned. *)
Definition take_removal (nodeID : string) (res : RemoveContainerResult) (waits : gmap string removeWait) : gmap string removeWait :=
  match waits !! rc_RemoveID res with
  | Some w =>
      if negb (bool_decide (rw_nodeID w = nodeID)) || negb (bool_decide (rw_instanceID w = rc_InstanceID res))
         || bool_decide (is_Some (rw_ch w)) then waits
      else <[rc_RemoveID res := MkRemoveWait (rw_nodeID w) (rw_instanceID w) (Some res)]> waits
  | None => waits
  end.

(** ** What of an answer is believed *)

(** [printable]: the first [n] runes, each one byte. *)
Definition printable_rune (r : Z) : ascii := if (32 <=? r) && (r <? 127) then ascii_of_N (Z.to_N r) else "?"%char.
Definition printable (s : string) (n : nat) : string := of_bytes (map printable_rune (take n (runes s))).
Definition validContainer (m : ManagedContainer) : option Container :=
  if negb (uuid_match (mc_InstanceID m)) then None
  else Some (MkContainer (to_lower (mc_InstanceID m))
    (if uuid_match (mc_ProfileID m) then to_lower (mc_ProfileID m) else "")
    (printable (mc_ContainerID m) MaxContainerIDLen) (printable (mc_ContainerName m) MaxContainerNameLen)
    (to_lower (printable (mc_State m) 32)) (mc_Labelled m) (mc_ExitCode m) (mc_OOMKilled m)
    (default 0 (mc_CreatedAt m)) (default 0 (mc_FinishedAt m))).
Definition containerNodes (all : list Node) : list Node :=
  List.filter (fun n => bool_decide (NodeRuntimeBackend n = Docker) || bool_decide (NodeRuntimeBackend n = Podman)) all.
(** The order of the items of a node: oldest first, then by instance. *)
Definition item_le (a b : Item) : bool :=
  let ta := EvStoppedAt (it_Evaluation a) in let tb := EvStoppedAt (it_Evaluation b) in
  if negb (ta =? tb) then ta <? tb else string_le (it_InstanceID a) (it_InstanceID b).
(** The profile of a container: its instance's, or the one it is labelled
    with. *)
Definition profile_of (c : Container) (inst : option RunningInstance) : string :=
  match inst with Some i => InstProfileID i | None => c_ProfileID c end.
Definition status_of_instance (inst : option RunningInstance) : string :=
  match inst with Some i => instance_status_text (InstStatus i) | None => "" end.
Definition timed_out (after hint : string) : error :=
  Opaque ("the agent did not answer within " +:+ after +:+ hint).

(** ** The agents, to a request that waits: what arrives during the call *)
Class Agents := { arriving : N -> list (string * Envelope) }.

Section Scan.
Context `{Env} `{RandomSource} `{Agents}.

Definition HandleListContainersResult (nodeID : string) (env : Envelope) : M unit :=
  match env with
  | EListContainersResult (Err _) => logf "stalecontainers: node %s sent a malformed list_containers_result: %v"
  | EListContainersResult (Ok part) => modify (fun w => set_w_lists (take_part nodeID part (w_lists w)) w)
  | _ => mret tt
  end.
Definition HandleRemoveContainerResult (nodeID : string) (env : Envelope) : M unit :=
  match env with
  | ERemoveContainerResult (Err _) => logf "stalecontainers: node %s sent a malformed remove_container_result: %v"
  | ERemoveContainerResult (Ok res) => modify (fun w => set_w_removes (take_removal nodeID res (w_removes w)) w)
  | _ => mret tt
  end.
Definition deliver (msg : string * Envelope) : M unit :=
  HandleListContainersResult msg.1 msg.2;; HandleRemoveContainerResult msg.1 msg.2.
(** The [select] of a request: the messages that arrive are handled, and the
    call ends with what it waited for, or with an error of the context or the
    timer, which may win even when the answer is there. *)
Definition await {A} (get : World -> A) : M A :=
  n ← gets w_calls; forM_ (arriving n) deliver;; query get.

Definition newRequestID : M string :=
  raw ← wrap "generate request id: " (query (fun w => random_bytes (w_calls w) 16)); mret (of_bytes (hex_encode raw)).
Definition set_list (id : string) (lw : option listWait) (w : World) : World :=
  set_w_lists (partial_alter (fun _ => lw) id (w_lists w)) w.
Definition set_remove (id : string) (rw : option removeWait) (w : World) : World :=
  set_w_removes (partial_alter (fun _ => rw) id (w_removes w)) w.
Definition listNode (nodeID : string) : M (list ManagedContainer * bool) :=
  id ← newRequestID;
  modify (set_list id (Some (MkListWait nodeID 0 [] false "" false)));;
  r ← attempt (
    env ← wrap "build list_containers: " (NewEnvelope (MListContainers id));
    wrap "send list_containers: " (Send nodeID env);;
    await (fun w => w_lists w !! id));
  modify (set_list id None);;
  match r with
  | Err e => throw e
  | Ok (Some w) =>
      if negb (lw_finished w) then
        throw (timed_out "30s" " (an agent older than this server ignores the request: upgrade agents before the server)")
      else if negb (bool_decide (lw_errMsg w = "")) then throw (Opaque (lw_errMsg w))
      else mret (lw_containers w, lw_truncated w)
  | Ok None => throw (timed_out "30s" "")
  end.

Definition RemoveOutcomeRemoved : string := "removed".
Definition RemoveOutcomeGone : string := "gone".
Definition RemoveOutcomeRefused : string := "refused".
Definition RemoveOutcomeKept : string := "kept".
Definition RemoveOutcomeFailed : string := "failed".
Definition known_outcome (res : RemoveContainerResult) : RemoveContainerResult :=
  if bool_decide (rc_Outcome res ∈ [RemoveOutcomeRemoved; RemoveOutcomeGone; RemoveOutcomeRefused; RemoveOutcomeKept; RemoveOutcomeFailed])
  then res
  else MkRemoveContainerResult (rc_RemoveID res) (rc_InstanceID res) RemoveOutcomeFailed
         "the agent gave an answer this server does not understand".
Definition requestRemove (nodeID instanceID : string) (lines : Z) : M RemoveContainerResult :=
  id ← newRequestID;
  modify (set_remove id (Some (MkRemoveWait nodeID instanceID None)));;
  r ← attempt (
    env ← wrap "build remove_container: " (NewEnvelope (MRemoveContainer id instanceID lines));
    wrap "send remove_container: " (Send nodeID env);;
    await (fun w => w_removes w !! id ≫= rw_ch));
  modify (set_remove id None);;
  match r with
  | Err e => throw e
  | Ok (Some res) => mret (known_outcome res)
  | Ok None => throw (timed_out "1m30s" "")
  end.

(** One node's part of the first loop, one node after another: each request
    waits under an id of its own. *)
Definition ask_node (n : Node) : M (NodeScan * list ManagedContainer) :=
  let scanned st e t := MkScan (NodeID n) (NodeName n) st e t [] in
  connected ← Connected (NodeID n);
  if negb connected then mret (scanned ScanOffline "the node's agent is not connected" false, [])
  else
    r ← attempt (listNode (NodeID n));
    match r with
    | Err e => mret (scanned ScanFailed (error_text e) false, [])
    | Ok (containers, truncated) => mret (scanned ScanDone "" truncated, containers)
    end.
Fixpoint mapM_ {A B} (f : A -> M B) (l : list A) : M (list B) :=
  match l with
  | [] => mret []
  | x :: l' => y ← f x; ys ← mapM_ f l'; mret (y :: ys)
  end.
(** [nameOf], with the names looked up so far. *)
Definition nameOf (names : gmap string string) (profileID : string) : M (string * gmap string string) :=
  if bool_decide (profileID = "") then mret ("", names)
  else match names !! profileID with
  | Some name => mret (name, names)
  | None =>
      r ← attempt (FindByID_profile profileID);
      let name := match r with Ok p => ProfName p | Err _ => "" end in
      mret (name, <[profileID := name]> names)
  end.
Fixpoint evaluate (nodeID : string) (now : Time) (minAge : Z) (instances : gmap string RunningInstance)
    (cs : list Container) (names : gmap string string) : M (list Item * gmap string string) :=
  match cs with
  | [] => mret ([], names)
  | c :: cs' =>
      let inst := instances !! c_InstanceID c in
      named ← nameOf names (profile_of c inst);
      rest ← evaluate nodeID now minAge instances cs' named.2;
      mret (MkItem c (Classify nodeID c inst now minAge) named.1 (status_of_instance inst) :: rest.1, rest.2)
  end.
Fixpoint evaluate_nodes (now : Time) (minAge : Z) (instances : gmap string RunningInstance)
    (l : list (NodeScan * list Container)) (names : gmap string string) : M (list NodeScan) :=
  match l with
  | [] => mret []
  | (s, cs) :: l' =>
      items ← evaluate (ns_NodeID s) now minAge instances cs names;
      rest ← evaluate_nodes now minAge instances l' items.2;
      mret (MkScan (ns_NodeID s) (ns_NodeName s) (ns_Status s) (ns_Error s) (ns_Truncated s) (sort_by item_le items.1) :: rest)
  end.
Definition lookup_failed (s : NodeScan) : NodeScan :=
  if bool_decide (ns_Status s = ScanDone) then
    MkScan (ns_NodeID s) (ns_NodeName s) ScanFailed "could not look up the instances these containers belong to" (ns_Truncated s) (ns_Items s)
  else s.
Definition scan (nodes : list Node) (minAge : Z) : M (list NodeScan) :=
  raw ← mapM_ ask_node nodes;
  let valid := map (fun sr : NodeScan * list ManagedContainer => (sr.1, omap validContainer sr.2)) raw in
  r ← attempt (FindByIDs (concat (map (fun sc : NodeScan * list Container => map c_InstanceID sc.2) valid)));
  match r with
  | Err _ => logf "stalecontainers: look up instances for a scan: %v";; mret (map (fun sc => lookup_failed sc.1) valid)
  | Ok instances => now ← time_now; evaluate_nodes now minAge instances valid ∅
  end.

(** [time.Duration(cfg.MinAgeHours) * time.Hour] *)
Definition min_age (cfg : StaleContainerSettings) : Z := int64 (MinAgeHours cfg * hour).
Record PreviewResult := MkPreview { pv_MinAge : Z; pv_ArchiveLines : Z; pv_Nodes : list NodeScan }.
Definition Preview (actor : Actor) : M PreviewResult :=
  guard_err (CanManageStaleContainers actor) ErrNotPermitted;;
  cfg ← wrap "get stale container settings: " Get_stale;
  all ← wrap "list nodes: " List_nodes_db;
  scans ← scan (containerNodes all) (min_age cfg);
  mret (MkPreview (min_age cfg) (ArchiveLines cfg) scans).
End Scan.
