(* ===== verification/StaleRun.v ===== *)
(** * Stale container monitoring ([internal/stalecontainers/run.go],
    [service.go])

    Removing what is stale, by schedule and by hand, the alerts that follow a
    scan, the settings and the job the schedule runner runs. *)
From stdpp Require Import base list strings gmap.
From Stdlib Require Import ZArith Lia.
From Stdlib Require Import Ascii.
From Stdlib Require String.
From S2P Require Import Prelude Text Json Db GoTime Schedule Rbac ScheduleRun InstanceStore AlertRaiser Wire NodeStore NodeToken Alerts StaleStore StaleClassify StaleScan.
Local Open Scope string_scope.
Local Open Scope list_scope.
Local Open Scope Z_scope.

Definition ErrInvalidSettings : error := Sentinel "stalecontainers.ErrInvalidSettings" "invalid stale container settings".
Definition ErrPruneNotConfirmed : error :=
  Sentinel "stalecontainers.ErrPruneNotConfirmed" "confirm that Prune removes containers automatically before turning it on".
Definition ErrNotStale : error := Sentinel "stalecontainers.ErrNotStale" "this container is not stale".
Definition ErrNodeUnavailable : error := Sentinel "stalecontainers.ErrNodeUnavailable" "node is not available".
Definition ErrInvalidRequest : error := Sentinel "stalecontainers.ErrInvalidRequest" "invalid request".
Definition ErrAuditAfterRemoval : error :=
  Sentinel "stalecontainers.ErrAuditAfterRemoval" "the container was removed but recording it in the audit log failed".
Definition MaxMinAgeHours : Z := 720.
Definition MaxArchiveLines : Z := 100000.
Definition maxListedInAlert : nat := 10.
Definition alertObjectType : string := "stale_containers".

(** ** The texts of the alerts *)
Definition plural (n : nat) (one many : string) : string := if Nat.eqb n 1 then one else many.
Definition count (n : nat) : string := itoa (Z.of_nat n).
(** [clipRunes] *)
Definition clipRunes (s : string) (n : nat) : string :=
  if Nat.leb (length (runes s)) n then s else unchunk (take (n - 3) (chunks s)) +:+ "...".
Definition clipped (s : string) : string := clipRunes s (Z.to_nat MaxBodyLen).
Definition newline : string := chr 10.
Definition audiences : list AlertAudience := [AudienceTier TierAdmin].
Definition keptKeyPrefix (nodeID : string) : string := "stale_container_kept:" +:+ nodeID +:+ ":".
Definition staleKey (nodeID : string) : string := "stale_containers:" +:+ nodeID.
Definition orphanKey (nodeID : string) : string := "orphan_containers:" +:+ nodeID.
Definition and_more (total listed : nat) : string := "... and " +:+ count (total - listed) +:+ " more." +:+ newline.
(** The lines of at most [maxListedInAlert] items, and how many more there
    are. *)
Definition listed (line : Item -> string) (items : list Item) : string :=
  join "" (map line (take maxListedInAlert items))
  +:+ (if Nat.ltb maxListedInAlert (length items) then and_more (length items) maxListedInAlert else "").
Definition it_name (it : Item) : string := c_ContainerName (it_Container it).
Definition stale_line (now : Time) (it : Item) : string :=
  "- " +:+ it_name it
  +:+ (if bool_decide (it_ProfileName it = "") then "" else " (profile " +:+ it_ProfileName it +:+ ")")
  +:+ ": " +:+ c_State (it_Container it)
  +:+ match c_ExitCode (it_Container it) with Some n => ", exit code " +:+ itoa n | None => "" end
  +:+ (if c_OOMKilled (it_Container it) then ", out of memory" else "")
  +:+ (let t := EvStoppedAt (it_Evaluation it) in
       if t =? 0 then "" else ", stopped " +:+ humanDuration (Sub now t) +:+ " ago")
  +:+ newline.
Definition warning (kind title body nodeID key : string) : RaiseParams :=
  MkRaise kind AlertSeverityWarning title (clipped body) alertObjectType nodeID key audiences.
Definition staleAlert (ns : NodeScan) (now : Time) (stale : list Item) : RaiseParams :=
  let n := length stale in
  warning "stale_containers" (count n +:+ " stale " +:+ plural n "container" "containers" +:+ " on " +:+ ns_NodeName ns)
    (ns_NodeName ns +:+ " holds " +:+ count n +:+ " " +:+ plural n "container" "containers"
     +:+ " for instances that have ended, left behind after the instance stopped or failed to launch. "
     +:+ "Open Container cleanup to review them and remove the ones you no longer need; each one's log is saved first." +:+ newline
     +:+ listed (stale_line now) stale) (ns_NodeID ns) (staleKey (ns_NodeID ns)).
Definition orphan_line (it : Item) : string :=
  "- " +:+ it_name it +:+ " (instance " +:+ it_InstanceID it +:+ "): " +:+ c_State (it_Container it) +:+ newline.
Definition orphanAlert (ns : NodeScan) (orphans : list Item) : RaiseParams :=
  let n := length orphans in
  warning "orphan_containers"
    (count n +:+ " running " +:+ plural n "container" "containers" +:+ " on " +:+ ns_NodeName ns +:+ " with no matching instance")
    (ns_NodeName ns +:+ " has " +:+ count n +:+ " running " +:+ plural n "container" "containers"
     +:+ " that Sparky started but has no record of (for example after the database was restored from a backup). "
     +:+ "They are running, so Sparky never removes them. Check them on the node and stop them yourself if they are not needed." +:+ newline
     +:+ listed orphan_line orphans) (ns_NodeID ns) (orphanKey (ns_NodeID ns)).
Definition kept_alert (ns : NodeScan) (it : Item) (reason : string) : RaiseParams :=
  let who := it_name it +:+ (if bool_decide (it_ProfileName it = "") then "" else " (profile " +:+ it_ProfileName it +:+ ")") in
  warning "stale_container_kept"
    ("A stale container on " +:+ ns_NodeName ns +:+ " was kept because its log could not be saved")
    ("The container " +:+ who +:+ " on " +:+ ns_NodeName ns +:+ " is stale, but its log could not be saved, so it was kept "
     +:+ "rather than lose the log that explains how it ended."
     +:+ (if bool_decide (reason = "") then "" else " The agent reported: " +:+ reason +:+ ".")
     +:+ " Open Container cleanup to try again, or inspect the container on the node.")
    (ns_NodeID ns) (keptKeyPrefix (ns_NodeID ns) +:+ it_InstanceID it).
(** The names by node, in the order the map gives its keys. *)
Definition removed_summary (byNode : list (string * list string)) (total : nat) : RaiseParams :=
  let lines := concat (map (fun nl : string * list string => map (fun name => "- " +:+ name +:+ " on " +:+ nl.1 +:+ newline) nl.2) byNode) in
  let shown := take (maxListedInAlert * 2) lines in
  MkRaise "stale_containers_removed" AlertSeverityInfo
    ("Stale container cleanup removed " +:+ count total +:+ " " +:+ plural total "container" "containers")
    (clipped ("Scheduled Prune archived each container's log and then removed these stale containers:" +:+ newline
      +:+ join "" shown +:+ (if Nat.ltb (length shown) total then and_more total (length shown) else "")
      +:+ "Their logs are under Container logs (Developer and above)."))
    "" "" "" audiences.

(** The order in which a Go map gives its keys, at a call. *)
Class MapOrder := { range_order : N -> list (string * list string) -> list (string * list string) }.

Record RemoveResult := MkRemoveResult { rr_Outcome : string; rr_Detail : string; rr_ContainerName : string; rr_ProfileName : string }.
(** What a run tallies: the summary, the instances gone, the names removed by
    node. *)
Record Tally := MkTally { t_sum : RunSummary; t_gone : list string; t_removed : gmap string (list string) }.

Definition sum_removed (s : RunSummary) : RunSummary :=
  MkSummary (SumMode s) (SumStartedAt s) (SumFinishedAt s) (NodesScanned s) (NodesSkipped s) (SumStale s) (SumRecent s) (SumOrphans s)
    (SumRemoved s + 1) (SumGone s) (SumKept s) (SumFailed s).
Definition sum_gone (s : RunSummary) : RunSummary :=
  MkSummary (SumMode s) (SumStartedAt s) (SumFinishedAt s) (NodesScanned s) (NodesSkipped s) (SumStale s) (SumRecent s) (SumOrphans s)
    (SumRemoved s) (SumGone s + 1) (SumKept s) (SumFailed s).
Definition sum_kept (s : RunSummary) : RunSummary :=
  MkSummary (SumMode s) (SumStartedAt s) (SumFinishedAt s) (NodesScanned s) (NodesSkipped s) (SumStale s) (SumRecent s) (SumOrphans s)
    (SumRemoved s) (SumGone s) (SumKept s + 1) (SumFailed s).
Definition sum_failed (s : RunSummary) : RunSummary :=
  MkSummary (SumMode s) (SumStartedAt s) (SumFinishedAt s) (NodesScanned s) (NodesSkipped s) (SumStale s) (SumRecent s) (SumOrphans s)
    (SumRemoved s) (SumGone s) (SumKept s) (SumFailed s + 1).
Definition sum_skipped (s : RunSummary) : RunSummary :=
  MkSummary (SumMode s) (SumStartedAt s) (SumFinishedAt s) (NodesScanned s) (NodesSkipped s + 1) (SumStale s) (SumRecent s) (SumOrphans s)
    (SumRemoved s) (SumGone s) (SumKept s) (SumFailed s).
Definition sum_scanned (stale recent orphans : nat) (s : RunSummary) : RunSummary :=
  MkSummary (SumMode s) (SumStartedAt s) (SumFinishedAt s) (NodesScanned s + 1) (NodesSkipped s) (SumStale s + Z.of_nat stale)
    (SumRecent s + Z.of_nat recent) (SumOrphans s + Z.of_nat orphans) (SumRemoved s) (SumGone s) (SumKept s) (SumFailed s).
Definition sum_finished (t : Time) (s : RunSummary) : RunSummary :=
  MkSummary (SumMode s) (SumStartedAt s) t (NodesScanned s) (NodesSkipped s) (SumStale s) (SumRecent s) (SumOrphans s)
    (SumRemoved s) (SumGone s) (SumKept s) (SumFailed s).
Definition new_summary (mode : StaleContainerMode) (startedAt : Time) : RunSummary :=
  MkSummary mode startedAt 0 0 0 0 0 0 0 0 0 0.
(** How an outcome is tallied. *)
Definition tally_outcome (node : string) (it : Item) (outcome : string) (t : Tally) : Tally :=
  if bool_decide (outcome = RemoveOutcomeRemoved) then
    MkTally (sum_removed (t_sum t)) (it_InstanceID it :: t_gone t)
      (partial_alter (fun names => Some (default [] names ++ [it_name it])) node (t_removed t))
  else if bool_decide (outcome = RemoveOutcomeGone) then MkTally (sum_gone (t_sum t)) (it_InstanceID it :: t_gone t) (t_removed t)
  else if bool_decide (outcome = RemoveOutcomeKept) then MkTally (sum_kept (t_sum t)) (t_gone t) (t_removed t)
  else MkTally (sum_failed (t_sum t)) (t_gone t) (t_removed t).
(** The stale containers of the nodes that answered, in order. *)
Definition stale_items (scans : list NodeScan) : list (NodeScan * Item) :=
  concat (map (fun ns => if bool_decide (ns_Status ns = ScanDone) then map (pair ns) (With ns VerdictStale) else []) scans).

Section Service.
Context `{Env} `{RandomSource} `{Agents} `{AlertRaiser} `{MapOrder} `{ZoneDatabase}.

(** ** Removing *)
Definition raiseKept (ns : NodeScan) (it : Item) (reason : string) : M unit :=
  log_on_error "stalecontainers: raise kept alert for %s on %s: %v" (Raise (kept_alert ns it reason)).
Definition raiseRemovedSummary (byNode : gmap string (list string)) (total : nat) : M unit :=
  n ← gets w_calls;
  log_on_error "stalecontainers: raise cleanup summary alert: %v"
    (Raise (removed_summary (range_order n (map_to_list byNode)) total)).
Definition removal_detail (ns : NodeScan) (it : Item) (lines : Z) (trigger : string) : gmap string DVal :=
  let c := it_Container it in
  let d := list_to_map [("node_id", DStr (ns_NodeID ns)); ("node_name", DStr (ns_NodeName ns)); ("trigger", DStr trigger);
    ("container_name", DStr (c_ContainerName c)); ("container_id", DStr (c_ContainerID c)); ("state", DStr (c_State c));
    ("profile_id", DStr (c_ProfileID c)); ("profile_name", DStr (it_ProfileName it)); ("lines_archived", DInt lines)] in
  match c_ExitCode c with Some n => <["exit_code" := DInt n]> d | None => d end.
Definition audit_failed (ns : NodeScan) (it : Item) (e : error) : error :=
  Errorf "" ErrAuditAfterRemoval (": container " +:+ it_name it +:+ " on " +:+ ns_NodeName ns +:+ ": " +:+ error_text e).
(** [removeItem]: the result, and the error that comes beside it. *)
Definition removeItem (ns : NodeScan) (it : Item) (lines : Z) (trigger : string) (actorID : option string) (superAdmin : bool) :
    M (RemoveResult * option error) :=
  let out outcome detail := MkRemoveResult outcome detail (it_name it) (it_ProfileName it) in
  r ← attempt (requestRemove (ns_NodeID ns) (it_InstanceID it) lines);
  match r with
  | Err e => mret (out RemoveOutcomeFailed (error_text e), None)
  | Ok res =>
      let result := out (rc_Outcome res) (printable (rc_Detail res) 1000) in
      if bool_decide (rc_Outcome res = RemoveOutcomeRemoved) then
        ra ← attempt (Record_ actorID superAdmin "removed_stale_container" "container" (it_InstanceID it)
               (Some (removal_detail ns it lines trigger)));
        mret (result, match ra with Ok _ => None | Err e => Some (audit_failed ns it e) end)
      else if bool_decide (rc_Outcome res = RemoveOutcomeKept) then raiseKept ns it (rr_Detail result);; mret (result, None)
      else mret (result, None)
  end.
(** The loop of [prune]; [false] when the context ended it. *)
Fixpoint prune_loop (items : list (NodeScan * Item)) (lines : Z) (t : Tally) : M (Tally * bool) :=
  match items with
  | [] => mret (t, true)
  | (ns, it) :: items' =>
      alive ← attempt (query (fun _ => tt));
      match alive with
      | Err _ => mret (t, false)
      | Ok _ =>
          res ← removeItem ns it lines "scheduled_prune" None false;
          when (bool_decide (is_Some res.2)) (logf "stalecontainers: %v");;
          prune_loop items' lines (tally_outcome (ns_NodeName ns) it (rr_Outcome res.1) t)
      end
  end.
Definition prune (scans : list NodeScan) (lines : Z) (sum : RunSummary) : M (RunSummary * list string) :=
  r ← prune_loop (stale_items scans) lines (MkTally sum [] ∅);
  when (r.2 && (0 <? SumRemoved (t_sum r.1))) (raiseRemovedSummary (t_removed r.1) (Z.to_nat (SumRemoved (t_sum r.1))));;
  mret (t_sum r.1, t_gone r.1).

(** ** The alerts that follow a scan *)
Definition syncCondition (key : string) (holds : bool) (build : M RaiseParams) : M unit :=
  if negb holds then log_on_error "stalecontainers: close alert %s: %v" (ResolveCondition key)
  else p ← build; log_on_error "stalecontainers: raise alert %s: %v" (Raise p).
Definition sync_node (ns : NodeScan) (gone : list string) (sum : RunSummary) : M RunSummary :=
  if negb (bool_decide (ns_Status ns = ScanDone)) then mret (sum_skipped sum)
  else
    let here := List.filter (fun it => negb (bool_decide (it_InstanceID it ∈ gone))) (ns_Items ns) in
    let with_verdict v := List.filter (fun it => bool_decide (it_Verdict it = v)) here in
    let stale := with_verdict VerdictStale in
    let orphans := with_verdict VerdictOrphanLive in
    syncCondition (staleKey (ns_NodeID ns)) (negb (bool_decide (stale = [])))
      (now ← time_now; mret (staleAlert ns now stale));;
    syncCondition (orphanKey (ns_NodeID ns)) (negb (bool_decide (orphans = []))) (mret (orphanAlert ns orphans));;
    log_on_error "stalecontainers: close kept alerts on %s: %v"
      (ResolveConditionsExcept (keptKeyPrefix (ns_NodeID ns)) (map (fun it => keptKeyPrefix (ns_NodeID ns) +:+ it_InstanceID it) here));;
    mret (sum_scanned (length (With ns VerdictStale)) (length (with_verdict VerdictRecent)) (length orphans) sum).
Fixpoint syncAlerts (scans : list NodeScan) (gone : list string) (sum : RunSummary) : M RunSummary :=
  match scans with
  | [] => mret sum
  | ns :: scans' => sum ← sync_node ns gone sum; syncAlerts scans' gone sum
  end.

(** ** The scheduled run *)
Definition runScheduled : M unit :=
  cfg ← wrap "get stale container settings: " Get_stale;
  if bool_decide (SCMode cfg = ModeNone) then mret tt
  else
    all ← wrap "list nodes: " List_nodes_db;
    started ← time_now;
    scans ← scan (containerNodes all) (min_age cfg);
    pruned ← (if bool_decide (SCMode cfg = ModePrune) then prune scans (ArchiveLines cfg) (new_summary (SCMode cfg) started)
              else mret (new_summary (SCMode cfg) started, []));
    sum ← syncAlerts scans pruned.2 pruned.1;
    finished ← time_now;
    SetLastRunSummary (sum_finished finished sum);;
    logf "stalecontainers: %s run: %d stale, %d recent, %d removed, %d kept, %d failed, %d of %d nodes scanned".
(** The schedule the row holds; [json.Unmarshal] of no bytes is an error. *)
Definition saved_schedule (cfg : StaleContainerSettings) : result Spec :=
  match SCSchedule cfg with
  | Some v => unmarshal_spec v
  | None => Err (Opaque "unexpected end of JSON input")
  end.
Definition load_state : M State :=
  cfg ← Get_stale;
  let enabled := negb (bool_decide (SCMode cfg = ModeNone)) in
  let state spec := MkState enabled spec (ScheduleSetAt cfg) (default 0 (LastRunAt cfg)) in
  if negb enabled then mret (state zero_spec)
  else match saved_schedule cfg with
  | Err e => throw (Errorf "the saved schedule cannot be read: " e "")
  | Ok spec => match Schedule.Validate spec with Some e => throw e | None => mret (state spec) end
  end.
Definition Job_stale : Job World := MkJob load_state MarkRun (fun _ => runScheduled).

(** ** Removing by hand *)
Definition index_out_of_range : error := Sentinel "runtime.panic" "index out of range [0] with length 0".
Definition unavailable (why : string) : error := Errorf "" ErrNodeUnavailable (": " +:+ why).
Definition invalid_request (why : string) : error := Errorf "" ErrInvalidRequest (": " +:+ why).
Definition RemoveOne (actor : Actor) (nodeID instanceID : string) (lines : Z) : M (RemoveResult * option error) :=
  guard_err (CanManageStaleContainers actor) ErrNotPermitted;;
  guard_err (uuid_match nodeID && uuid_match instanceID) (invalid_request "malformed id");;
  guard_err ((0 <=? lines) && (lines <=? MaxArchiveLines))
    (invalid_request ("log lines must be between 0 (all) and " +:+ itoa MaxArchiveLines));;
  let instanceID := to_lower instanceID in
  cfg ← wrap "get stale container settings: " Get_stale;
  node ← map_err (fun _ => unavailable "no such node") (FindByID_node (to_lower nodeID));
  guard_err (negb (bool_decide (containerNodes [node] = []))) (unavailable (NodeName node +:+ " does not run containers"));;
  scans ← scan [node] (min_age cfg);
  match scans with
  | [] => throw index_out_of_range
  | ns :: _ =>
      guard_err (bool_decide (ns_Status ns = ScanDone)) (unavailable (NodeName node +:+ ": " +:+ ns_Error ns));;
      match List.find (fun it => bool_decide (it_InstanceID it = instanceID)) (ns_Items ns) with
      | None => mret (MkRemoveResult RemoveOutcomeGone "that container is already gone" "" "", None)
      | Some found =>
          guard_err (bool_decide (it_Verdict found = VerdictStale))
            (Errorf "" ErrNotStale (": " +:+ EvReason (it_Evaluation found)));;
          res ← removeItem ns found lines "manual" (actor_id actor) (IsSuperAdmin actor);
          let gone := if bool_decide (rr_Outcome res.1 = RemoveOutcomeRemoved) || bool_decide (rr_Outcome res.1 = RemoveOutcomeGone)
                      then [instanceID] else [] in
          syncAlerts scans gone (new_summary ModeNone 0);;
          mret res
      end
  end.

(** ** The settings *)
Record SettingsView := MkSettingsView {
  sv_Settings : StaleContainerSettings; sv_Spec : option Spec; sv_Timezone : string; sv_NextRun : option Time; sv_LastRun : option RunSummary
}.
Definition next_run (cfg : StaleContainerSettings) (spec : option Spec) (loc : Location) : M (option Time) :=
  match spec with
  | Some spec =>
      if bool_decide (SCMode cfg = ModeNone) then mret None
      else
        now ← time_now;
        mret (match Latest spec (ScheduleSetAt cfg) (default 0 (LastRunAt cfg)) now (Some loc) with
              | Some _ => Some now
              | None => Next spec (ScheduleSetAt cfg) now (Some loc)
              end)
  | None => mret None
  end.
Definition saved_spec (cfg : StaleContainerSettings) : M (option Spec) :=
  match SCSchedule cfg with
  | None => mret None
  | Some v =>
      match unmarshal_spec v with
      | Err _ => logf "stalecontainers: the saved schedule cannot be read: %v";; mret None
      | Ok spec => mret (if valid spec then Some spec else None)
      end
  end.
Definition Settings_stale (actor : Actor) : M SettingsView :=
  guard_err (CanManageStaleContainers actor) ErrNotPermitted;;
  cfg ← wrap "get stale container settings: " Get_stale;
  spec ← saved_spec cfg;
  loc ← attempt LocationOf;
  match loc with
  | Err _ =>
      logf "stalecontainers: time zone for the next run: %v";;
      mret (MkSettingsView cfg spec "" None (LastRunSummary cfg))
  | Ok loc => next ← next_run cfg spec loc; mret (MkSettingsView cfg spec (LocName loc) next (LastRunSummary cfg))
  end.

(** The mode is the text of the form. *)
Record SettingsInput := MkSettingsInput {
  si_Mode : string; si_Schedule : Spec; si_HasSchedule : bool; si_MinAgeHours : Z; si_ArchiveLines : Z; si_ConfirmPrune : bool
}.
Definition invalid_settings (why : string) : error := Errorf "" ErrInvalidSettings (": " +:+ why).
(** [trimInvalidSpec] *)
Definition invalid_spec_prefix : string := "invalid schedule: ".
Definition trimInvalidSpec (e : error) : string :=
  let s := error_text e in
  if has_prefix s invalid_spec_prefix then of_bytes (drop (length (bytes invalid_spec_prefix)) (bytes s)) else s.
Definition schedule_json (mode : StaleContainerMode) (input : SettingsInput) (prev : StaleContainerSettings) : result (option json) :=
  if negb (bool_decide (mode = ModeNone)) || si_HasSchedule input then
    match Schedule.Validate (si_Schedule input) with
    | Some e => Err (invalid_settings (trimInvalidSpec e))
    | None => Ok (Some (marshal_spec (Normalized (si_Schedule input))))
    end
  else Ok (SCSchedule prev).
Definition stale_settings_detail (mode : StaleContainerMode) (input : SettingsInput) (prev : StaleContainerSettings)
    (schedule : option json) : gmap string DVal :=
  let d := list_to_map [("mode", DStr (mode_text mode)); ("previous_mode", DStr (mode_text (SCMode prev)));
    ("min_age_hours", DInt (si_MinAgeHours input)); ("archive_lines", DInt (si_ArchiveLines input));
    ("confirmed_prune", DBool (si_ConfirmPrune input && bool_decide (mode = ModePrune)))] in
  match schedule with Some v => <["schedule" := DRaw v]> d | None => d end.
Definition UpdateSettings_stale (actor : Actor) (input : SettingsInput) : M unit :=
  guard_err (CanManageStaleContainers actor) ErrNotPermitted;;
  match mode_of (si_Mode input) with
  | None => throw (invalid_settings "choose None, Report or Prune")
  | Some mode =>
      guard_err ((0 <=? si_MinAgeHours input) && (si_MinAgeHours input <=? MaxMinAgeHours))
        (invalid_settings ("the minimum age must be between 0 and " +:+ itoa MaxMinAgeHours +:+ " hours"));;
      guard_err ((0 <=? si_ArchiveLines input) && (si_ArchiveLines input <=? MaxArchiveLines))
        (invalid_settings ("log lines to keep must be between 0 (all) and " +:+ itoa MaxArchiveLines));;
      prev ← wrap "get current stale container settings: " Get_stale;
      schedule ← lift (schedule_json mode input prev);
      guard_err (negb (bool_decide (mode = ModePrune) && negb (bool_decide (SCMode prev = ModePrune)) && negb (si_ConfirmPrune input)))
        ErrPruneNotConfirmed;;
      wrap "update stale container settings: " (Update_stale (MkStaleUpdate mode schedule (si_MinAgeHours input) (si_ArchiveLines input) (actor_id actor)));;
      audited_or_reverted
        (Record_ (actor_id actor) (IsSuperAdmin actor) "updated_stale_container_settings" "stale_container_settings"
           ScheduleRun.settingsAuditObjectID (Some (stale_settings_detail mode input prev schedule)))
        (Restore prev) (mret tt)
  end.
End Service.
