(* ===== verification/AgentStale.v ===== *)
(** * The agent's side of stale container monitoring
    ([agent/connection/stalecontainers.go], [agent/runtime/containers/list.go])

    Which containers of the host are Sparky's, the answer to a list request in
    numbered parts, and the rules an agent checks again before it removes one.
    The container daemon is a parameter: what it lists and what inspecting a
    container says. *)
From stdpp Require Import base list strings gmap.
From Stdlib Require Import ZArith Lia.
From Stdlib Require Import Ascii.
From Stdlib Require String.
From S2P Require Import Prelude Text Json Db GoTime Wire StaleClassify StaleScan.
Local Open Scope string_scope.
Local Open Scope list_scope.
Local Open Scope Z_scope.

(** [runtime.ManagedContainer]; the unknown times are zero. *)
Record Managed := MkManaged {
  rm_InstanceID : string; rm_ProfileID : string; rm_ContainerID : string; rm_ContainerName : string; rm_State : string;
  rm_Labelled : bool; rm_ExitCode : option Z; rm_OOMKilled : bool; rm_CreatedAt : Time; rm_FinishedAt : Time
}.
Definition MaxManaged : nat := 500.
Definition ListContainersChunkSize : nat := 30.
Definition maxDetailLen : nat := 1000.

(** ** [list.go]: which containers are Sparky's *)

(** [container.Summary], and what an inspection says of a stopped one. *)
Record Summary := MkDockerSummary {
  ds_ID : string; ds_Names : list string; ds_State : string; ds_Created : Z; ds_Labels : gmap string string
}.
Record Capture := MkCapture { cap_ExitCode : option Z; cap_OOMKilled : bool; cap_FinishedAt : Time }.
Inductive Inspected := InspectedOk (c : Capture) | InspectedNotFound | InspectedError (e : error).
Definition labelManaged : string := "sparky.managed".
Definition labelProbe : string := "sparky.probe".
Definition labelInstanceID : string := "sparky.instance_id".
Definition labelProfileID : string := "sparky.profile_id".
(** The pattern [[A-Za-z0-9-]{8,64}]. *)
Definition validProfileID (s : string) : bool :=
  (8 <=? len s) && (len s <=? 64) && all_chars (fun c => is_alnum c || is_char 45 c) s.
(** The pattern [/?sparky-instance-(uuid)] over a whole name, and the id. *)
Definition legacy_prefix : string := "sparky-instance-".
Definition strip_prefix (p s : string) : option string :=
  if has_prefix s p then Some (of_bytes (drop (length (bytes p)) (bytes s))) else None.
Definition legacyContainerName (name : string) : option string :=
  let name := default name (strip_prefix "/" name) in
  match strip_prefix legacy_prefix name with
  | Some id => if uuid_match id then Some id else None
  | None => None
  end.
Fixpoint first_legacy (names : list string) : option string :=
  match names with
  | [] => None
  | n :: names' => match legacyContainerName n with Some id => Some id | None => first_legacy names' end
  end.
(** [time.Unix(s, 0)]; the zero time is 62135596800 seconds before the epoch. *)
Definition unix_seconds (s : Z) : Time := (s + 62135596800) * second.
Definition managedFromSummary (s : Summary) : option Managed :=
  let label k := default "" (ds_Labels s !! k) in
  let mc id profile labelled :=
    MkManaged id profile (ds_ID s)
      (match ds_Names s with [] => "" | n :: _ => default n (strip_prefix "/" n) end)
      (ds_State s) labelled None false (unix_seconds (ds_Created s)) 0 in
  if bool_decide (is_Some (ds_Labels s !! labelProbe)) then None
  else if bool_decide (label labelManaged = "true") then
    if uuid_match (label labelInstanceID) then
      Some (mc (label labelInstanceID) (if validProfileID (label labelProfileID) then label labelProfileID else "") true)
    else None
  else match first_legacy (ds_Names s) with Some id => Some (mc id "" false) | None => None end.
Definition stillLive : string -> bool := containerRunning.

(** One of the containers found; [None] for one that is not reported. *)
Definition describe (inspect : string -> Inspected) (s : Summary) : result (option Managed) :=
  match managedFromSummary s with
  | None => Ok None
  | Some mc =>
      if stillLive (rm_State mc) then Ok (Some mc)
      else match inspect (ds_ID s) with
      | InspectedNotFound => Ok None
      | InspectedError e => Err (Errorf ("inspect container " +:+ ds_ID s +:+ ": ") e "")
      | InspectedOk c =>
          Ok (Some (MkManaged (rm_InstanceID mc) (rm_ProfileID mc) (rm_ContainerID mc) (rm_ContainerName mc) (rm_State mc)
            (rm_Labelled mc) (cap_ExitCode c) (cap_OOMKilled c) (rm_CreatedAt mc) (cap_FinishedAt c)))
      end
  end.
Fixpoint describe_all (inspect : string -> Inspected) (l : list Summary) : result (list Managed) :=
  match l with
  | [] => Ok []
  | s :: l' =>
      match describe inspect s with
      | Err e => Err e
      | Ok mc => match describe_all inspect l' with Ok rest => Ok (option_list mc ++ rest) | Err e => Err e end
      end
  end.
(** The containers of both queries, each once. *)
Fixpoint unseen (seen : list string) (l : list Summary) : list Summary :=
  match l with
  | [] => []
  | s :: l' => if bool_decide (ds_ID s ∈ seen) then unseen seen l' else s :: unseen (ds_ID s :: seen) l'
  end.
Definition managed_le (a b : Managed) : bool :=
  if negb (rm_CreatedAt a =? rm_CreatedAt b) then rm_CreatedAt a <? rm_CreatedAt b
  else string_le (rm_InstanceID a) (rm_InstanceID b).
Definition ListManaged (by_label by_name : result (list Summary)) (inspect : string -> Inspected) : result (list Managed * bool) :=
  match by_label with
  | Err e => Err (Errorf "list containers: " e "")
  | Ok l1 =>
      match by_name with
      | Err e => Err (Errorf "list containers: " e "")
      | Ok l2 =>
          match describe_all inspect (unseen [] (l1 ++ l2)) with
          | Err e => Err e
          | Ok out =>
              let out := sort_by managed_le out in
              Ok (take MaxManaged out, Nat.ltb MaxManaged (length out))
          end
      end
  end.

(** ** The answer to a list request *)

(** [clip]: back to the start of a character. *)
Fixpoint clip_at (l : list ascii) (n : nat) : nat :=
  match n with
  | O => O
  | S k => match l !! n with Some c => if cont c then clip_at l k else n | None => n end
  end.
Definition clip (s : string) (n : nat) : string :=
  if Nat.leb (String.length s) n then s else of_bytes (take (clip_at (bytes s) n) (bytes s)).
Definition wireText (s : string) (n : nat) : string := clip (of_bytes (map printable_rune (runes s))) n.
Definition known_time (t : Time) : option Time := if t =? 0 then None else Some t.
Definition wireContainer (mc : Managed) : ManagedContainer :=
  MkManagedContainer (rm_InstanceID mc) (rm_ProfileID mc) (wireText (rm_ContainerID mc) MaxContainerIDLen)
    (wireText (rm_ContainerName mc) MaxContainerNameLen) (wireText (rm_State mc) 32) (rm_Labelled mc)
    (rm_ExitCode mc) (rm_OOMKilled mc) (known_time (rm_CreatedAt mc)) (known_time (rm_FinishedAt mc)).
(** The loop over the parts, from an offset on. *)
Fixpoint send_parts (fuel : nat) (scanID : string) (containers : list Managed) (truncated : bool) (part : Z) (off : nat) :
    list ListContainersResult :=
  match fuel with
  | O => []
  | S f =>
      let end_ := Nat.min (off + ListContainersChunkSize) (length containers) in
      let final := Nat.eqb end_ (length containers) in
      let res := MkListContainersResult scanID part final (map wireContainer (take (end_ - off) (drop off containers)))
                   (if final then truncated else false) "" in
      if final then [res] else res :: send_parts f scanID containers truncated (part + 1) end_
  end.
(** The messages sent; the fuel is the number of containers and one. *)
Definition runListContainers (scanID : string) (listed : result (list Managed * bool)) : list ListContainersResult :=
  match listed with
  | Err e => [MkListContainersResult scanID 0 true [] false (clip (error_text e) maxDetailLen)]
  | Ok (containers, truncated) => send_parts (S (length containers)) scanID containers truncated 0 0
  end.

(** ** Removing one container *)
Inductive archiveOutcome := ArchiveStored | ArchiveNothing | ArchiveFailed | ArchiveBusy.
(** What the agent does to a container while it answers. *)
Inductive Action := Archive (instanceID : string) (lines : Z) | Remove (instanceID : string).
Definition refused (detail : string) : string * string * list Action := (RemoveOutcomeRefused, detail, []).
Section Remove.
(** What the agent is running, what the daemon lists, how the archive of a log
    ends and what the daemon says to a removal. *)
Variables (isActiveInstance : string -> bool) (listed : result (list Managed * bool))
  (archiveInstanceLines : string -> Z -> archiveOutcome) (runtime_Remove : string -> option error).
Definition archive_and_remove (instanceID : string) (lines : Z) : string * string * list Action :=
  match archiveInstanceLines instanceID lines with
  | ArchiveStored =>
      match runtime_Remove instanceID with
      | Some e => (RemoveOutcomeFailed, "the log was saved but removing the container failed: " +:+ error_text e,
                   [Archive instanceID lines; Remove instanceID])
      | None => (RemoveOutcomeRemoved, "", [Archive instanceID lines; Remove instanceID])
      end
  | ArchiveNothing => (RemoveOutcomeGone, "the container disappeared before its log could be read", [Archive instanceID lines])
  | ArchiveBusy => (RemoveOutcomeFailed, "another archive of this instance is in progress", [Archive instanceID lines])
  | ArchiveFailed => (RemoveOutcomeKept, "the log could not be archived, so the container was left in place", [Archive instanceID lines])
  end.
Definition removeStale (instanceID : string) (lines : Z) : string * string * list Action :=
  if negb (uuid_match instanceID) then refused "not a valid instance id"
  else if lines <? 0 then refused "the number of log lines cannot be negative"
  else if isActiveInstance instanceID then refused "this agent is running that instance"
  else match listed with
  | Err e => (RemoveOutcomeFailed, "could not list containers: " +:+ error_text e, [])
  | Ok (containers, _) =>
      match List.find (fun mc => bool_decide (rm_InstanceID mc = instanceID)) containers with
      | None => (RemoveOutcomeGone, "no such container", [])
      | Some found =>
          if bool_decide (rm_State found = "exited") then archive_and_remove instanceID lines
          else if bool_decide (rm_State found = "dead") || bool_decide (rm_State found = "created") then
            if negb (rm_Labelled found) then
              refused ("an unlabelled container is removed only once it has exited, and this one is " +:+ rm_State found)
            else archive_and_remove instanceID lines
          else refused ("the container is " +:+ rm_State found +:+ "; only stopped containers are removed")
      end
  end.
Definition runRemoveContainer (removeID instanceID : string) (lines : Z) : RemoveContainerResult * list Action :=
  let '(outcome, detail, acts) := removeStale instanceID lines in
  (MkRemoveContainerResult removeID instanceID outcome (clip detail maxDetailLen), acts).
End Remove.

(** ** A list crosses the wire *)

(** The messages that arrive at the server, in order, of any node. *)
Definition arrive (msgs : list (string * ListContainersResult)) (waits : gmap string listWait) : gmap string listWait :=
  fold_left (fun ws m => take_part m.1 m.2 ws) msgs waits.
Definition answers (nodeID scanID : string) (m : string * ListContainersResult) : bool :=
  bool_decide (m.1 = nodeID) && bool_decide (lc_ScanID m.2 = scanID).
(** Of all that arrives, a wait takes the parts of its own node's answer to
    its own request, until it is finished. *)
Definition add_live (w : listWait) (part : ListContainersResult) : listWait := if lw_finished w then w else add_part part w.
Lemma add_part_nodeID part w : lw_nodeID (add_part part w) = lw_nodeID w.
Proof. unfold add_part. repeat (case_match; try done). Qed.
Lemma arrive_own nodeID scanID msgs waits w : waits !! scanID = Some w -> lw_nodeID w = nodeID ->
  arrive msgs waits !! scanID = Some (fold_left add_live (map snd (List.filter (answers nodeID scanID) msgs)) w).
Proof.
  unfold arrive. revert waits w. induction msgs as [|[n part] msgs IH]; intros waits w Hw Hn; [done|]. cbn [fold_left fst snd].
  unfold answers at 1. cbn [List.filter fst snd]. unfold take_part at 2. destruct (decide (lc_ScanID part = scanID)) as [Hid|Hid].
  - rewrite Hid, Hw. rewrite (bool_decide_eq_true_2 (scanID = scanID)) by done. rewrite andb_true_r.
    destruct (decide (n = nodeID)) as [->|Hne].
    + rewrite (bool_decide_eq_true_2 (nodeID = nodeID)), (bool_decide_eq_true_2 (lw_nodeID w = nodeID)) by done.
      cbn [negb orb map fold_left]. unfold add_live at 2. destruct (lw_finished w) eqn:Hf; [by apply IH|].
      apply IH; [by rewrite lookup_insert_eq|by rewrite add_part_nodeID].
    + rewrite (bool_decide_eq_false_2 (n = nodeID)), (bool_decide_eq_false_2 (lw_nodeID w = n)) by congruence. by apply IH.
  - rewrite (bool_decide_eq_false_2 (lc_ScanID part = scanID)), andb_false_r by done.
    apply IH; [|done]. destruct (waits !! lc_ScanID part) as [v|]; [|done].
    destruct (_ || _); [done|]. by rewrite lookup_insert_ne.
Qed.

(** Parts numbered from 0 on, the last and only the last of them final. *)
Fixpoint numbered (part : Z) (l : list ListContainersResult) : Prop :=
  match l with
  | [] => False
  | [p] => lc_Part p = part /\ lc_Final p = true
  | p :: l' => lc_Part p = part /\ lc_Final p = false /\ numbered (part + 1) l'
  end.
Lemma send_parts_add fuel nodeID scanID cs truncated part off :
  (length cs - off < fuel)%nat -> (off <= length cs)%nat -> Z.of_nat off = 30 * part -> (length cs <= 600)%nat ->
  numbered part (send_parts fuel scanID cs truncated part off) /\
  Forall (fun p => lc_ScanID p = scanID /\ (length (lc_Containers p) <= ListContainersChunkSize)%nat) (send_parts fuel scanID cs truncated part off) /\
  exists next, fold_left add_live (send_parts fuel scanID cs truncated part off)
      (MkListWait nodeID part (map wireContainer (take off cs)) false "" false)
    = MkListWait nodeID next (map wireContainer cs) truncated "" true.
Proof.
  revert part off. induction fuel as [|f IH]; intros part off Hf Hoff Hpart Hmax; [lia|].
  cbn [send_parts]. set (e := Nat.min (off + ListContainersChunkSize) (length cs)).
  assert (He : (off <= e <= length cs)%nat) by (unfold e, ListContainersChunkSize; lia).
  set (chunk := map wireContainer (take (e - off) (drop off cs))).
  assert (Hlen : length chunk = (e - off)%nat) by (unfold chunk; rewrite length_map, length_take, length_drop; lia).
  assert (Hall : map wireContainer (take off cs) ++ chunk = map wireContainer (take e cs)).
  { unfold chunk. rewrite <-map_app, take_take_drop. do 2 f_equal. lia. }
  assert (Hadd : forall final, add_part (MkListContainersResult scanID part final chunk (if final then truncated else false) "")
      (MkListWait nodeID part (map wireContainer (take off cs)) false "" false)
    = MkListWait nodeID (part + 1) (map wireContainer (take e cs)) (final && truncated) "" final).
  { intros final. unfold add_part. cbn [lc_Part lw_next lc_Containers lw_containers lc_Final lc_Error lc_Truncated]. rewrite Z.eqb_refl. cbn [negb].
    rewrite (proj2 (Z.leb_gt _ _)) by (unfold maxListParts; lia).
    rewrite (proj2 (Z.ltb_ge _ _)) by (unfold maxContainersPerNode; rewrite Hlen, length_map, length_take; lia).
    rewrite Hall. by destruct final. }
  destruct (Nat.eqb_spec e (length cs)) as [Hend|Hend].
  - split; [done|]. split.
    { constructor; [|done]. cbn [lc_ScanID lc_Containers]. rewrite Hlen. unfold e, ListContainersChunkSize. split; [done|lia]. }
    exists (part + 1). cbn [fold_left]. unfold add_live. cbn [lw_finished]. rewrite (Hadd true), Hend, firstn_all. done.
  - assert (He30 : e = (off + 30)%nat) by (unfold e, ListContainersChunkSize in *; lia).
    destruct (IH (part + 1) e) as (Hn & Hp & next & Hnext); try lia. split.
    { destruct (send_parts f scanID cs truncated (part + 1) e) eqn:Es; [done|]. by split_and!. }
    split.
    { constructor; [|done]. cbn [lc_ScanID lc_Containers]. rewrite Hlen. unfold ListContainersChunkSize. split; [done|lia]. }
    exists next. cbn [fold_left]. unfold add_live at 2. cbn [lw_finished]. rewrite (Hadd false). exact Hnext.
Qed.

(** A container as the daemon of a real host describes it: Sparky's own ids,
    printable texts no longer than the runtime's. *)
Definition plain (n : nat) (s : string) : bool := (Nat.leb (String.length s) n) && all_chars (in_range 32 126) s.
Definition well_described (mc : Managed) : bool :=
  uuid_match (rm_InstanceID mc) && bool_decide (to_lower (rm_InstanceID mc) = rm_InstanceID mc)
  && (bool_decide (rm_ProfileID mc = "") || uuid_match (rm_ProfileID mc) && bool_decide (to_lower (rm_ProfileID mc) = rm_ProfileID mc))
  && plain MaxContainerIDLen (rm_ContainerID mc) && plain MaxContainerNameLen (rm_ContainerName mc)
  && plain 32 (rm_State mc) && bool_decide (to_lower (rm_State mc) = rm_State mc).
(** The same container to the server. *)
Definition as_described (mc : Managed) : Container :=
  MkContainer (rm_InstanceID mc) (rm_ProfileID mc) (rm_ContainerID mc) (rm_ContainerName mc) (rm_State mc) (rm_Labelled mc)
    (rm_ExitCode mc) (rm_OOMKilled mc) (rm_CreatedAt mc) (rm_FinishedAt mc).

Lemma decode_ascii l fuel : Forall (fun c => code c < 128) l -> (length l <= fuel)%nat -> map fst (decode fuel l) = map code l.
Proof.
  revert fuel. induction l as [|c l IH]; intros [|f] Hl Hf; simpl in *; try done; [lia|].
  inversion Hl as [|? ? Hc Hl']; subst. rewrite (proj2 (Z.ltb_lt _ _) Hc). simpl. f_equal. rewrite drop_0. apply IH; [done|lia].
Qed.
Lemma plain_chars n s : plain n s = true -> (length (bytes s) <= n)%nat /\ Forall (fun c => 32 <= code c < 127) (bytes s).
Proof.
  unfold plain. intros [Hn Hc]%andb_true_iff. apply Nat.leb_le in Hn. split; [by rewrite length_bytes|].
  unfold all_chars in Hc. rewrite List.forallb_forall in Hc. apply Forall_forall. intros c Hin%list_elem_of_In.
  specialize (Hc c Hin). unfold in_range in Hc. propb. lia.
Qed.
Lemma plain_runes n s : plain n s = true -> map printable_rune (runes s) = bytes s.
Proof.
  intros [_ Hc]%plain_chars. unfold runes, chunks. rewrite decode_ascii; [|eapply Forall_impl; [exact Hc|simpl; lia]|done].
  rewrite map_map. induction Hc as [|c l Hc _ IH]; [done|]. cbn [map]. rewrite IH. f_equal. unfold printable_rune.
  rewrite (proj2 (Z.leb_le _ _)), (proj2 (Z.ltb_lt _ _)) by lia. cbn [andb]. unfold code. rewrite N2Z.id. apply ascii_N_embedding.
Qed.
Lemma plain_wireText n s : plain n s = true -> wireText s n = s.
Proof.
  intros Hp. unfold wireText. rewrite (plain_runes n s Hp), of_bytes_bytes. unfold clip.
  unfold plain in Hp. apply andb_true_iff in Hp as [Hn _]. by rewrite Hn.
Qed.
Lemma plain_printable n s : plain n s = true -> printable s n = s.
Proof.
  intros Hp. unfold printable. pose proof (plain_runes n s Hp) as Hr. destruct (plain_chars n s Hp) as [Hl _].
  assert (Hlen : length (runes s) = length (bytes s)) by by rewrite <-(length_map printable_rune), Hr.
  rewrite firstn_all2 by lia. by rewrite Hr, of_bytes_bytes.
Qed.
Lemma known_time_back t : default 0 (known_time t) = t.
Proof. unfold known_time. by destruct (Z.eqb_spec t 0). Qed.
Lemma wire_valid mc : well_described mc = true -> validContainer (wireContainer mc) = Some (as_described mc).
Proof.
  unfold well_described. rewrite !andb_true_iff. intros [[[[[[Hid Hidl] Hprof] Hcid] Hname] Hst] Hstl].
  unfold validContainer, wireContainer, as_described. cbn [mc_InstanceID mc_ProfileID mc_ContainerID mc_ContainerName mc_State
    mc_Labelled mc_ExitCode mc_OOMKilled mc_CreatedAt mc_FinishedAt].
  rewrite Hid. cbn [negb]. rewrite !plain_wireText, !plain_printable by done. rewrite !known_time_back. propb.
  rewrite Hidl, Hstl. do 2 f_equal. destruct (uuid_match (rm_ProfileID mc)) eqn:Eu.
  - apply orb_true_iff in Hprof as [Hp|Hp]; propb; [by rewrite Hp in Eu|done].
  - rewrite orb_false_r in Hprof. by propb.
Qed.

Lemma wires_valid cs : Forall (fun mc => well_described mc = true) cs ->
  omap validContainer (map wireContainer cs) = map as_described cs.
Proof. induction 1 as [|mc l Hmc _ IH]; [done|]. cbn. rewrite (wire_valid mc Hmc). cbn. by rewrite <-IH. Qed.

(** A list of at most 500 containers crosses the wire as it is: the agent
    sends it in parts of at most 30, numbered from 0, the last one final, and
    once they have all arrived, in order, the server holds the whole list and
    the mark that it was cut, whatever parts of other nodes, of other requests
    or forged for this one arrive in between; of containers whose texts are
    printable, each is believed as the runtime described it. *)
Theorem list_roundtrip nodeID scanID cs truncated msgs waits :
  (length cs <= MaxManaged)%nat -> waits !! scanID = Some (MkListWait nodeID 0 [] false "" false) ->
  map snd (List.filter (answers nodeID scanID) msgs) = runListContainers scanID (Ok (cs, truncated)) ->
  numbered 0 (runListContainers scanID (Ok (cs, truncated))) /\
  Forall (fun p => (length (lc_Containers p) <= ListContainersChunkSize)%nat) (runListContainers scanID (Ok (cs, truncated))) /\
  exists next, arrive msgs waits !! scanID = Some (MkListWait nodeID next (map wireContainer cs) truncated "" true) /\
    (Forall (fun mc => well_described mc = true) cs -> omap validContainer (map wireContainer cs) = map as_described cs).
Proof.
  intros Hlen Hw Hmsgs. unfold MaxManaged in Hlen.
  destruct (send_parts_add (S (length cs)) nodeID scanID cs truncated 0 0) as (Hn & Hp & next & Hnext); try lia.
  split; [exact Hn|]. split; [eapply Forall_impl; [exact Hp|]; by intros p [_ ?]|]. exists next. split.
  - rewrite (arrive_own nodeID scanID msgs waits _ Hw eq_refl), Hmsgs. f_equal. exact Hnext.
  - apply wires_valid.
Qed.

(** ** What an agent removes *)

Definition removable (active : string -> bool) (listed : result (list Managed * bool)) (instanceID : string) (lines : Z) : Prop :=
  uuid_match instanceID = true /\ 0 <= lines /\ active instanceID = false /\
  exists cs truncated mc, listed = Ok (cs, truncated) /\ mc ∈ cs /\ rm_InstanceID mc = instanceID /\ ended (as_described mc).
Lemma removeStale_cases active listed archive remove instanceID lines :
  (removable active listed instanceID lines /\
   removeStale active listed archive remove instanceID lines = archive_and_remove archive remove instanceID lines) \/
  exists outcome detail, removeStale active listed archive remove instanceID lines = (outcome, detail, []) /\
    outcome ∈ [RemoveOutcomeGone; RemoveOutcomeRefused; RemoveOutcomeFailed].
Proof.
  unfold removeStale, refused, removable, ended. destruct (uuid_match instanceID); [|right; do 2 eexists; split; [done|set_solver]].
  destruct (Z.ltb_spec lines 0); [right; do 2 eexists; split; [done|set_solver]|].
  destruct (active instanceID); [right; do 2 eexists; split; [done|set_solver]|].
  destruct listed as [[cs tr]|e]; [|right; do 2 eexists; split; [done|set_solver]]. cbn [negb].
  destruct (List.find _ cs) as [mc|] eqn:Ef; [|right; do 2 eexists; split; [done|set_solver]].
  apply List.find_some in Ef as [Hin Hid]. apply list_elem_of_In in Hin. propb.
  repeat case_bool_decide; cbn [orb]; try (right; do 2 eexists; split; [done|set_solver]).
  { left. split; [|done]. split_and!; try done. exists cs, tr, mc. split_and!; try done. by left. }
  all: destruct (rm_Labelled mc) eqn:El; cbn [negb]; [|right; do 2 eexists; split; [done|set_solver]].
  all: left; split; [|done]; split_and!; try done; exists cs, tr, mc; split_and!; try done; right; naive_solver.
Qed.

(** An agent removes a container only when it was asked to by a
    well-formed id, is not running that instance, lists a container of it that
    has exited (or is dead or created and labelled as its own), and the log
    has been archived and confirmed stored first; it says removed only then.
    In every other case it touches nothing but the log, and says which. *)
Theorem removeStale_spec active listed archive remove instanceID lines :
  let '(outcome, _, acts) := removeStale active listed archive remove instanceID lines in
  (outcome = RemoveOutcomeRemoved <-> Remove instanceID ∈ acts /\ remove instanceID = None) /\
  (forall id, Remove id ∈ acts -> id = instanceID /\ acts = [Archive instanceID lines; Remove instanceID] /\
     archive instanceID lines = ArchiveStored /\ removable active listed instanceID lines) /\
  (forall a, a ∈ acts -> a = Archive instanceID lines \/ a = Remove instanceID) /\
  outcome ∈ [RemoveOutcomeRemoved; RemoveOutcomeGone; RemoveOutcomeRefused; RemoveOutcomeKept; RemoveOutcomeFailed].
Proof.
  destruct (removeStale_cases active listed archive remove instanceID lines) as [[Hr ->]|(o & d & -> & Ho)].
  - unfold archive_and_remove. destruct (archive instanceID lines) eqn:Ea; [destruct (remove instanceID) eqn:Er|..].
    all: split; [|split; [|split]]; try set_solver.
  - split; [|split; [|split]]; set_solver.
Qed.

(** ** Witness *)
Definition lab_container (i : Z) : Managed :=
  MkManaged ("0000000" +:+ itoa i +:+ "-0000-0000-0000-000000000000") "" "cafe" ("sparky-" +:+ itoa i) "exited" true (Some 1) false
    63900000000000000000 63900000000000000001.
Definition lab_list : list Managed := map lab_container [1; 2; 3].
Definition lab_wait : gmap string listWait := {[ "s1" := MkListWait "n1" 0 [] false "" false ]}.
(** Another node's part for the same request arrives first. *)
Definition lab_msgs : list (string * ListContainersResult) :=
  ("n2", MkListContainersResult "s1" 0 true [] false "") :: map (pair "n1") (runListContainers "s1" (Ok (lab_list, false))).
Lemma list_roundtrip_witness :
  (exists next, arrive lab_msgs lab_wait !! "s1" = Some (MkListWait "n1" next (map wireContainer lab_list) false "" true)) /\
  omap validContainer (map wireContainer lab_list) = map as_described lab_list.
Proof.
  destruct (list_roundtrip "n1" "s1" lab_list false lab_msgs lab_wait) as (_ & _ & next & Hn & Hv).
  - unfold MaxManaged. simpl. lia.
  - reflexivity.
  - vm_compute. reflexivity.
  - split; [by exists next|]. apply Hv. repeat constructor.
Defined.
