(* ===== verification/StaleSpec.v ===== *)
(** * What stale container monitoring promises

    Nothing but what is stale is ever asked to be removed, and only where that
    was asked for. *)
From stdpp Require Import base list strings gmap relations.
From Stdlib Require Import ZArith Lia.
From Stdlib Require Import Ascii.
From Stdlib Require String.
From S2P Require Import Prelude Text Json Db GoTime Schedule Rbac ScheduleRun InstanceStore ProfileStore AlertRaiser Wire NodeStore NodeToken Alerts StaleStore StaleClassify StaleScan StaleRun.
Local Open Scope string_scope.
Local Open Scope list_scope.
Local Open Scope Z_scope.

(** ** What is sent, and what is left alone *)
Definition kept (w : World) := (w_instances w, w_nodes w, w_profiles w).
Definition sends (P : string * Message -> Prop) (w w' : World) : Prop :=
  (exists l, w_sent w' = w_sent w ++ l /\ Forall P l) /\ kept w' = kept w.
#[export] Instance sends_preorder P : PreOrder (sends P).
Proof.
  split.
  - intros w. split; [|done]. exists []. by rewrite app_nil_r.
  - intros w1 w2 w3 [(l & Hl & HP) Hk] [(l' & Hl' & HP') Hk']. split; [|congruence].
    exists (l ++ l'). rewrite Hl', Hl, app_assoc. split; [done|]. by apply Forall_app.
Qed.
Definition later (w w' : World) : Prop := w_clock w <= w_clock w'.
#[export] Instance later_preorder : PreOrder later.
Proof. unfold later. split; [intros w; lia|intros w1 w2 w3; lia]. Qed.
Definition unsent (w : World) := (w_sent w, kept w).
Lemma sends_unsent P w w' : unsent w' = unsent w -> sends P w w'.
Proof.
  unfold unsent. intros E. split; [|exact (f_equal snd E)].
  exists []. rewrite app_nil_r. split; [exact (f_equal fst E)|done].
Qed.
Lemma sends_mono (P Q : string * Message -> Prop) w w' : (forall m, P m -> Q m) -> sends P w w' -> sends Q w w'.
Proof. intros HPQ [(l & Hl & HP) Hk]. split; [|done]. exists l. split; [done|]. eapply Forall_impl; eauto. Qed.
Lemma sends_instances P w w' : sends P w w' -> w_instances w' = w_instances w.
Proof. intros [_ Hk]. exact (f_equal (fun k : _ * _ * _ => k.1.1) Hk). Qed.
#[local] Hint Extern 5 (Evolves (sends _) _) => (eapply evolves_preserves; [apply sends_unsent | apply _]) : typeclass_instances.

Section Scanning.
Context `{Env} `{RandomSource} `{Agents}.

Lemma evolves_and {A} (R R' : World -> World -> Prop) (m : M A) : Evolves R m -> Evolves R' m ->
  Evolves (fun w w' => R w w' /\ R' w w') m.
Proof. intros Ha Hb w. split; [apply Ha|apply Hb]. Qed.
#[local] Instance query_later {A} (g : World -> A) : Evolves later (query g).
Proof. intros w. unfold query, sql, later. destruct (fault (w_calls w)); cbn; lia. Qed.
#[local] Instance Send_later n m : Evolves later (Send n m).
Proof. intros w. unfold Send, exec, sql, later. destruct (fault (w_calls w)); cbn; lia. Qed.
#[local] Instance Connected_later n : Evolves later (Connected n).
Proof. intros w. unfold later. cbn. lia. Qed.
#[local] Instance now_later : Evolves later time_now.
Proof. intros w. unfold later. cbn. lia. Qed.
#[local] Instance envelope_later m : Evolves later (NewEnvelope m).
Proof. unfold NewEnvelope. apply _. Qed.
Lemma clock_later {A} (m : M A) : Preserves w_clock m -> Evolves later m.
Proof. intros Hm w. unfold later. rewrite (Hm w). lia. Qed.
#[local] Hint Extern 4 (Evolves later (modify _)) => (apply clock_later; apply _) : typeclass_instances.
#[local] Hint Extern 4 (Evolves later (logf _)) => (apply clock_later; apply _) : typeclass_instances.
#[local] Hint Extern 4 (Evolves later (gets _)) => (apply clock_later; apply _) : typeclass_instances.
#[local] Instance deliver_clock msg : Preserves w_clock (deliver msg).
Proof. unfold deliver, HandleListContainersResult, HandleRemoveContainerResult. apply _. Qed.
#[local] Instance deliver_unsent msg : Preserves unsent (deliver msg).
Proof. unfold deliver, HandleListContainersResult, HandleRemoveContainerResult. apply _. Qed.
#[local] Instance await_later {A} (get : World -> A) : Evolves later (await get).
Proof.
  unfold await. apply evolves_bind; [apply _|by apply clock_later; apply _|]. intros n.
  apply evolves_bind; [apply _|by apply clock_later; apply _|apply _].
Qed.
#[local] Instance await_unsent {A} (get : World -> A) : Preserves unsent (await get).
Proof. unfold await. apply _. Qed.
#[local] Instance newRequestID_later : Evolves later newRequestID.
Proof. unfold newRequestID. apply _. Qed.
#[local] Instance newRequestID_unsent : Preserves unsent newRequestID.
Proof. unfold newRequestID. apply _. Qed.
Lemma evolves_wp {A} (R : World -> World -> Prop) (m : M A) : (forall w, wp m w (fun _ w' => R w w')) -> Evolves R m.
Proof. done. Qed.
Lemma Send_sends (P : string * Message -> Prop) n m : P (n, m) -> Evolves (sends P) (Send n m).
Proof.
  intros HP w. unfold Send, exec, sql. destruct (fault (w_calls w)); [by apply sends_unsent|].
  split; [|done]. exists [(n, m)]. split; [done|by constructor].
Qed.

(** A request of either kind sends its one message, to the node it is for. *)
Lemma request_sends {A} (P : string * Message -> Prop) n msg pre1 pre2 (k : M A) :
  P (n, msg) -> Evolves (sends P) k ->
  Evolves (sends P) (env ← wrap pre1 (NewEnvelope msg); wrap pre2 (Send n env);; k).
Proof.
  intros HP Hk. apply evolves_wp. intros w. apply wp_bind, wp_wrap, wp_NewEnvelope; intros; [by apply sends_unsent|].
  enough (Hb : Evolves (sends P) (wrap pre2 (Send n msg);; k)).
  { intros. unfold wp. etransitivity; [|apply Hb]. by apply sends_unsent. }
  apply evolves_bind; [apply _|by apply evolves_wrap, Send_sends|intros _; exact Hk].
Qed.
#[local] Hint Extern 4 (Evolves (sends _) (modify _)) => (eapply evolves_preserves; [apply sends_unsent | apply _]) : typeclass_instances.
Lemma listNode_sends (P : string * Message -> Prop) n : (forall id, P (n, MListContainers id)) -> Evolves (sends P) (listNode n).
Proof.
  intros HP. unfold listNode. apply evolves_bind; [apply _|apply _|]. intros id. apply evolves_bind; [apply _|apply _|]. intros _.
  apply evolves_bind; [apply _|apply evolves_attempt, request_sends; [by apply HP|apply _]|]. intros r.
  apply evolves_bind; [apply _|apply _|]. intros _. apply _.
Qed.
#[local] Instance listNode_later n : Evolves later (listNode n).
Proof. unfold listNode. apply _. Qed.
Lemma requestRemove_sends (P : string * Message -> Prop) n i lines : (forall id, P (n, MRemoveContainer id i lines)) ->
  Evolves (sends P) (requestRemove n i lines).
Proof.
  intros HP. unfold requestRemove. apply evolves_bind; [apply _|apply _|]. intros id. apply evolves_bind; [apply _|apply _|]. intros _.
  apply evolves_bind; [apply _|apply evolves_attempt, request_sends; [by apply HP|apply _]|]. intros r.
  apply evolves_bind; [apply _|apply _|]. intros _. apply _.
Qed.

(** ** What a scan believes *)

(** The node has said so, in a message of its own. *)
Definition told (n : string) (mc : ManagedContainer) : Prop :=
  exists t part, (n, EListContainersResult (Ok part)) ∈ arriving t /\ mc ∈ lc_Containers part.
Definition reported (n : string) (c : Container) : Prop := exists mc, told n mc /\ validContainer mc = Some c.
Definition own (id n : string) (w : World) : Prop :=
  forall lw, w_lists w !! id = Some lw -> lw_nodeID lw = n /\ forall mc, mc ∈ lw_containers lw -> told n mc.
#[local] Instance own_stable id n : Stable (own id n).
Proof. split; done. Qed.
Lemma add_part_own part lw n : lw_nodeID lw = n -> (forall mc, mc ∈ lw_containers lw -> told n mc) ->
  (forall mc, mc ∈ lc_Containers part -> told n mc) ->
  lw_nodeID (add_part part lw) = n /\ forall mc, mc ∈ lw_containers (add_part part lw) -> told n mc.
Proof. intros Hn Hl Hp. unfold add_part. repeat case_match; simpl; split; try done; set_solver. Qed.
Lemma deliver_own id n msg t : msg ∈ arriving t -> Keeps (own id n) (deliver msg).
Proof.
  intros Hin. unfold deliver. apply keeps_bind; [|intros _; unfold HandleRemoveContainerResult; repeat case_match; first [apply _|by intros w Hw]].
  destruct msg as [m env]. unfold HandleListContainersResult. simpl. repeat case_match; try apply _. subst env.
  intros w Hw. unfold own in *. simpl. unfold take_part. intros lw.
  destruct (w_lists w !! lc_ScanID a) as [lw0|] eqn:El; [|apply Hw].
  destruct (negb _ || _) eqn:Eb; [apply Hw|]. destruct (decide (lc_ScanID a = id)) as [<-|Hne]; [|rewrite lookup_insert_ne by done; apply Hw].
  rewrite lookup_insert_eq. intros [= <-]. destruct (Hw lw0 El) as [Hn Hl].
  apply orb_false_iff in Eb as [Eb _]. apply negb_false_iff in Eb. propb. apply add_part_own; try done.
  intros mc Hmc. exists t, a. split; [|done]. congruence.
Qed.
Lemma await_list id n w : own id n w -> wp (await (fun w => w_lists w !! id)) w (fun r w' => own id n w' /\
  match r with Ok lw => lw = w_lists w' !! id | Err _ => True end).
Proof.
  intros Hw. unfold await. apply wp_bind, wp_gets, wp_bind. apply (wp_forM (own id n)); [done| |].
  - intros msg w1 Hm Hw1. apply wp_and; [|by apply (deliver_own id n msg (w_calls w))].
    unfold wp. unfold deliver, HandleListContainersResult, HandleRemoveContainerResult. by repeat case_match.
  - intros w1 Hw1. apply wp_query; intros; (split; [by apply (stable_bump (I := own id n))|done]).
Qed.
Lemma listNode_told n w : wp (listNode n) w (fun r _ =>
  match r with Ok ct => forall mc, mc ∈ ct.1 -> told n mc | Err _ => True end).
Proof.
  unfold listNode. apply wp_bind. eapply wp_mono; [apply (wp_evolves (fun _ _ => True)); [done|]; intros; exact I|].
  intros [id|e] w1 _; [|done]. apply wp_bind, wp_modify, wp_bind, wp_attempt.
  assert (Hown : own id n (set_list id (Some (MkListWait n 0 [] false "" false)) w1)).
  { intros lw. unfold set_list. simpl. rewrite lookup_partial_alter_eq. intros [= <-]. simpl. split; [done|]. by intros mc ?%elem_of_nil. }
  revert Hown. generalize (set_list id (Some (MkListWait n 0 [] false "" false)) w1) as w2. intros w2 Hown.
  assert (Herr : forall e w3, wp (modify (set_list id None);; throw (A := list ManagedContainer * bool) e) w3 (fun r _ =>
    match r with Ok ct => forall mc, mc ∈ ct.1 -> told n mc | Err _ => True end)) by (intros; by wp_auto).
  apply wp_bind, wp_wrap, wp_NewEnvelope; [intros e _; apply Herr|intros _].
  apply wp_bind, wp_wrap, wp_Send; [intros e _; apply Herr|intros _].
  eapply wp_mono; [apply (await_list id n); exact Hown|].
  intros [lw|e] w3 [Hw3 Hlw]; [|apply Herr]. subst lw. apply wp_bind, wp_modify.
  destruct (w_lists w3 !! id) as [lw|] eqn:El; [|done]. destruct (Hw3 lw El) as [_ Hl].
  wp_auto; try done. 
Qed.
Lemma omap_reported n (l : list ManagedContainer) : (forall mc, mc ∈ l -> told n mc) ->
  forall c, c ∈ omap (M := list) validContainer l -> reported n c.
Proof. intros Hl c (mc & Hin & Hc)%list_elem_of_omap. exists mc. eauto. Qed.

(** What asking the nodes gives: each answer is of its node. *)
Definition answered (nodes : list Node) (sr : NodeScan * list ManagedContainer) : Prop :=
  exists n, n ∈ nodes /\ ns_NodeID sr.1 = NodeID n /\ ns_Items sr.1 = [] /\ forall mc, mc ∈ sr.2 -> told (NodeID n) mc.
Lemma ask_node_answered nodes n w : n ∈ nodes -> wp (ask_node n) w (fun r _ =>
  match r with Ok sr => answered nodes sr | Err _ => False end).
Proof.
  intros Hn. assert (Hnone : forall mc, mc ∈ @nil ManagedContainer -> told (NodeID n) mc) by by intros mc ?%elem_of_nil.
  unfold ask_node. apply wp_bind, wp_Connected. intros b _. destruct b; simpl; [|by exists n].
  apply wp_bind, wp_attempt. eapply wp_mono; [apply listNode_told|]. intros [[cs tr]|e] w1 Ht; by exists n.
Qed.
Lemma mapM_all {A B} (f : A -> M B) (P : B -> Prop) l w : (forall x w, x ∈ l -> wp (f x) w (fun r _ => match r with Ok y => P y | Err _ => False end)) ->
  wp (mapM_ f l) w (fun r _ => match r with Ok ys => Forall P ys | Err _ => False end).
Proof.
  revert w. induction l as [|x l IH]; intros w Hf; [by apply wp_ret|]. cbn [mapM_]. apply wp_bind.
  eapply wp_mono; [apply Hf; by left|]. intros [y|e] w1 Hy; [|done]. apply wp_bind.
  eapply wp_mono; [apply IH; intros; apply Hf; by right|]. intros [ys|e] w2 Hys; [|done]. by constructor.
Qed.

(** What the evaluation makes of it, at a moment, against the instances. *)
Definition evaluated (nodeID : string) (instances : gmap string RunningInstance) (now : Time) (minAge : Z) (it : Item) : Prop :=
  reported nodeID (it_Container it) /\
  it_Evaluation it = Classify nodeID (it_Container it) (instances !! it_InstanceID it) now minAge.
Definition scanned (nodes : list Node) (instances : gmap string RunningInstance) (now : Time) (minAge : Z) (ns : NodeScan) : Prop :=
  exists n, n ∈ nodes /\ ns_NodeID ns = NodeID n /\ forall it, it ∈ ns_Items ns -> evaluated (NodeID n) instances now minAge it.
Lemma nameOf_ok names p w : wp (nameOf names p) w (fun r _ => exists a, r = Ok a).
Proof. unfold nameOf. repeat (case_bool_decide || case_match); wp_auto; eauto. unfold wp. simpl. eauto. Qed.
Lemma evaluate_ok nid now minAge found instances cs names w : (forall c, c ∈ cs -> reported nid c) ->
  (forall c, c ∈ cs -> found !! c_InstanceID c = instances !! c_InstanceID c) ->
  wp (evaluate nid now minAge found cs names) w (fun r _ => match r with
    | Ok items => forall it, it ∈ items.1 -> evaluated nid instances now minAge it
    | Err _ => False
    end).
Proof.
  revert names w. induction cs as [|c cs IH]; intros names w Hcs Hf; [apply wp_ret; by intros it ?%elem_of_nil|].
  cbn [evaluate]. apply wp_bind. eapply wp_mono; [apply nameOf_ok|]. intros r w1 [[name names'] ->].
  apply wp_bind. eapply wp_mono; [apply IH; intros; [apply Hcs|apply Hf]; by right|]. intros [items|e] w2 Hi; [|done].
  apply wp_ret. intros it [->|Hit]%elem_of_cons; [|by apply Hi]. split; [apply Hcs; by left|].
  unfold it_InstanceID. cbn. by rewrite Hf by (by left).
Qed.
Lemma reported_looks n c : reported n c -> looksLikeUUID (c_InstanceID c) = true.
Proof.
  intros (mc & _ & Hv). unfold validContainer in Hv. destruct (uuid_match (mc_InstanceID mc)) eqn:E; [|done].
  simpl in Hv. injection Hv as <-. by apply uuid_match_looks.
Qed.
Definition believed (nodes : list Node) (sc : NodeScan * list Container) : Prop :=
  exists n, n ∈ nodes /\ ns_NodeID sc.1 = NodeID n /\ ns_Items sc.1 = [] /\ forall c, c ∈ sc.2 -> reported (NodeID n) c.
Lemma evaluate_nodes_ok nodes now minAge found instances l names w : Forall (believed nodes) l ->
  (forall id, id ∈ concat (map (fun sc : NodeScan * list Container => map c_InstanceID sc.2) l) -> looksLikeUUID id = true ->
     found !! id = instances !! id) ->
  wp (evaluate_nodes now minAge found l names) w (fun r _ => match r with
    | Ok scans => Forall (scanned nodes instances now minAge) scans
    | Err _ => False
    end).
Proof.
  intros Hl. revert names w. induction Hl as [|[s cs] l (n & Hn & Hid & _ & Hcs) _ IH]; intros names w Hf; [by apply wp_ret|].
  cbn [evaluate_nodes map concat fst snd] in *. rewrite Hid. apply wp_bind. eapply wp_mono; [apply (evaluate_ok _ _ _ _ instances)|].
  { done. }
  { intros c Hc. apply Hf; [|by eapply reported_looks, Hcs]. apply elem_of_app. left. by apply list_elem_of_fmap_2. }
  intros [items|e] w1 Hi; [|done]. apply wp_bind. eapply wp_mono; [apply IH; intros; apply Hf; [by apply elem_of_app; right|done]|]. intros [scans|e] w2 Hs; [|done].
  apply wp_ret. constructor; [|done]. exists n. split_and!; try done. intros it. cbn. rewrite elem_of_sort_by. apply Hi.
Qed.
Lemma FindByIDs_lookup ids w : wp (FindByIDs ids) w (fun r _ => match r with
  | Ok instances => forall id, id ∈ ids -> looksLikeUUID id = true -> instances !! id = w_instances w !! id
  | Err _ => True
  end).
Proof.
  assert (Hv : forall id, id ∈ ids -> looksLikeUUID id = true -> id ∈ List.filter looksLikeUUID ids).
  { intros id Hin Hl. rewrite list_elem_of_In in *. by apply filter_In. }
  unfold FindByIDs. destruct (List.filter looksLikeUUID ids) as [|v vs] eqn:Ef.
  - apply wp_ret. intros id Hin Hl. specialize (Hv id Hin Hl). by apply elem_of_nil in Hv.
  - apply wp_wrap, wp_query; [done|]. intros _ id Hin Hl. specialize (Hv id Hin Hl). simpl.
    destruct (w_instances w !! id) as [i|] eqn:Ei.
    + by apply map_lookup_filter_Some.
    + apply map_lookup_filter_None. by left.
Qed.
Lemma answered_believed nodes (raw : list (NodeScan * list ManagedContainer)) : Forall (answered nodes) raw ->
  Forall (believed nodes) (map (fun sr : NodeScan * list ManagedContainer => (sr.1, omap validContainer sr.2)) raw).
Proof.
  rewrite !Forall_forall. intros Hr sc (sr & -> & Hin)%list_elem_of_fmap. destruct (Hr sr Hin) as (n & Hn & Hid & Hit & Ht).
  exists n. split_and!; try done. by apply omap_reported.
Qed.
Lemma lookup_failed_scanned nodes now minAge instances l : Forall (believed nodes) l ->
  Forall (scanned nodes instances now minAge) (map (fun sc : NodeScan * list Container => lookup_failed sc.1) l).
Proof.
  rewrite !Forall_forall. intros Hr ns (sc & -> & Hin)%list_elem_of_fmap. destruct (Hr sc Hin) as (n & Hn & Hid & Hit & _).
  exists n. unfold lookup_failed. split; [done|]. destruct (bool_decide _); cbn; rewrite Hit; (split; [done|]); by intros it ?%elem_of_nil.
Qed.
Lemma mapM_evolves {A B} R `{!PreOrder R} (f : A -> M B) l : (forall x, x ∈ l -> Evolves R (f x)) -> Evolves R (mapM_ f l).
Proof.
  induction l as [|x l IH]; intros Hf; cbn [mapM_]; [apply _|]. apply evolves_bind; [apply _|apply Hf; by left|]. intros y.
  apply evolves_bind; [apply _|apply IH; intros; apply Hf; by right|]. intros ys. apply _.
Qed.
#[local] Instance ask_node_later n : Evolves later (ask_node n).
Proof. unfold ask_node. apply _. Qed.
Lemma ask_node_sends (P : string * Message -> Prop) n : (forall id, P (NodeID n, MListContainers id)) -> Evolves (sends P) (ask_node n).
Proof.
  intros HP. unfold ask_node. apply evolves_bind; [apply _|apply _|]. intros [|]; cbn; [|apply _].
  apply evolves_bind; [apply _|by apply evolves_attempt, listNode_sends|]. intros r. apply _.
Qed.
#[local] Instance FindByIDs_later ids : Evolves later (FindByIDs ids).
Proof. unfold FindByIDs. apply _. Qed.
#[local] Instance FindByIDs_unsent ids : Preserves unsent (FindByIDs ids).
Proof. unfold FindByIDs. apply _. Qed.
#[local] Instance profile_later id : Evolves later (FindByID_profile id).
Proof. unfold FindByID_profile, scanProfile. apply _. Qed.
#[local] Instance profile_unsent id : Preserves unsent (FindByID_profile id).
Proof. unfold FindByID_profile, scanProfile. apply _. Qed.
#[local] Instance nameOf_later names p : Evolves later (nameOf names p).
Proof. unfold nameOf. apply _. Qed.
#[local] Instance nameOf_unsent names p : Preserves unsent (nameOf names p).
Proof. unfold nameOf. apply _. Qed.
#[local] Instance evaluate_later nid now minAge is_ cs names : Evolves later (evaluate nid now minAge is_ cs names).
Proof. revert names. induction cs; intros names; cbn [evaluate]; apply _. Qed.
#[local] Instance evaluate_unsent nid now minAge is_ cs names : Preserves unsent (evaluate nid now minAge is_ cs names).
Proof. revert names. induction cs; intros names; cbn [evaluate]; apply _. Qed.
#[local] Instance evaluate_nodes_later now minAge is_ l names : Evolves later (evaluate_nodes now minAge is_ l names).
Proof. revert names. induction l as [|[s cs] l IH]; intros names; cbn [evaluate_nodes]; apply _. Qed.
#[local] Instance evaluate_nodes_unsent now minAge is_ l names : Preserves unsent (evaluate_nodes now minAge is_ l names).
Proof. revert names. induction l as [|[s cs] l IH]; intros names; cbn [evaluate_nodes]; apply _. Qed.
#[local] Instance scan_later nodes minAge : Evolves later (scan nodes minAge).
Proof. unfold scan. apply evolves_bind; [apply _|apply mapM_evolves; [apply _|intros; apply _]|]. intros raw. apply _. Qed.
Lemma scan_sends (P : string * Message -> Prop) nodes minAge : (forall n id, n ∈ nodes -> P (NodeID n, MListContainers id)) ->
  Evolves (sends P) (scan nodes minAge).
Proof.
  intros HP. unfold scan. apply evolves_bind; [apply _|apply mapM_evolves; [apply _|intros; by apply ask_node_sends; auto]|].
  intros raw. apply _.
Qed.

(** A scan: each node's containers are what that node told, classified against
    the instances as they are. *)
Lemma scan_ok nodes minAge w : wp (scan nodes minAge) w (fun r w' => match r with
  | Ok scans => exists now, now <= w_clock w' /\ Forall (scanned nodes (w_instances w) now minAge) scans
  | Err _ => False
  end).
Proof.
  unfold scan. apply wp_bind.
  eapply wp_mono; [apply wp_and; [apply (mapM_all ask_node (answered nodes)); intros; by apply ask_node_answered|]|].
  { apply (wp_evolves (sends (fun _ => True)) (mapM_ ask_node nodes)); [|intros r w' Hw'; exact Hw'].
    apply mapM_evolves; [apply _|]. intros. by apply ask_node_sends. }
  intros [raw|e] w1 [Hraw Hi%sends_instances]; [|done]. apply answered_believed in Hraw. rewrite <-Hi. clear Hi.
  cbv zeta. revert Hraw. generalize (map (fun sr : NodeScan * list ManagedContainer => (sr.1, omap validContainer sr.2)) raw) as valid.
  intros valid Hv. apply wp_bind, wp_attempt.
  set (ids := concat (map (fun sc : NodeScan * list Container => map c_InstanceID sc.2) valid)).
  eapply wp_mono; [apply FindByIDs_lookup|]. intros [instances|e] w2 Hf.
  - apply wp_bind, wp_time_now. set (now := w_clock (bump w2)).
    eapply wp_mono; [apply wp_and; [by apply (evaluate_nodes_ok nodes now minAge instances (w_instances w1) valid ∅)|]|].
    { apply (wp_evolves later); [apply _|]. intros r w' Hw'. exact Hw'. }
    intros [scans|e] w3 [Hs Hl]; [|done]. by exists now.
  - apply wp_bind, wp_logf, wp_ret. exists (w_clock w2). split; [simpl; lia|]. by apply lookup_failed_scanned.
Qed.
End Scanning.

Section Monitoring.
Context `{Env} `{RandomSource} `{Agents} `{AlertRaiser} `{MapOrder} `{ZoneDatabase}.

#[local] Instance Raise_unsent p : Preserves unsent (Raise p).
Proof. apply (beyond_part unsent); [apply _|]. unfold unsent, kept. intros w w' [=]. congruence. Qed.
#[local] Instance ResolveCondition_unsent k : Preserves unsent (ResolveCondition k).
Proof. apply (beyond_part unsent); [apply _|]. unfold unsent, kept. intros w w' [=]. congruence. Qed.
#[local] Instance ResolveConditionsExcept_unsent p k : Preserves unsent (ResolveConditionsExcept p k).
Proof. apply (beyond_part unsent); [apply _|]. unfold unsent, kept. intros w w' [=]. congruence. Qed.
#[local] Instance syncAlerts_unsent scans gone sum : Preserves unsent (syncAlerts scans gone sum).
Proof.
  revert sum. induction scans as [|ns scans IH]; intros sum; cbn [syncAlerts]; [apply _|].
  unfold sync_node, syncCondition. apply _.
Qed.
Lemma removeItem_sends (P : string * Message -> Prop) ns it lines trigger actorID sa :
  (forall id, P (ns_NodeID ns, MRemoveContainer id (it_InstanceID it) lines)) ->
  Evolves (sends P) (removeItem ns it lines trigger actorID sa).
Proof.
  intros HP. unfold removeItem. apply evolves_bind; [apply _|by apply evolves_attempt, requestRemove_sends|].
  intros r. unfold raiseKept. apply _.
Qed.
Lemma prune_loop_sends (P : string * Message -> Prop) items lines t :
  (forall ni id, ni ∈ items -> P (ns_NodeID ni.1, MRemoveContainer id (it_InstanceID ni.2) lines)) ->
  Evolves (sends P) (prune_loop items lines t).
Proof.
  revert t. induction items as [|[ns it] items IH]; intros t HP; cbn [prune_loop]; [apply _|].
  apply evolves_bind; [apply _|apply _|]. intros [u|e]; [|apply _]. apply evolves_bind; [apply _| |].
  { apply removeItem_sends. intros id. apply (HP (ns, it)). by left. }
  intros res. apply evolves_bind; [apply _|apply _|]. intros _. apply IH. intros. apply HP. by right.
Qed.
Lemma prune_sends (P : string * Message -> Prop) scans lines sum :
  (forall ni id, ni ∈ stale_items scans -> P (ns_NodeID ni.1, MRemoveContainer id (it_InstanceID ni.2) lines)) ->
  Evolves (sends P) (prune scans lines sum).
Proof.
  intros HP. unfold prune. apply evolves_bind; [apply _|by apply prune_loop_sends|]. intros r. unfold raiseRemovedSummary. apply _.
Qed.
Lemma elem_of_stale_items ns it scans : (ns, it) ∈ stale_items scans ->
  ns ∈ scans /\ it ∈ ns_Items ns /\ it_Verdict it = VerdictStale.
Proof.
  unfold stale_items. rewrite list_elem_of_In, in_concat. intros (l & Hl & Hin).
  apply in_map_iff in Hl as (ns' & <- & Hns). destruct (bool_decide _); [|done].
  apply in_map_iff in Hin as (it' & [= -> ->] & Hit). unfold With in Hit. apply filter_In in Hit as [Hit Hv].
  propb. by rewrite !list_elem_of_In.
Qed.

(** ** The operations *)
Inductive Operation :=
| OpRun
| OpRemoveOne (actor : Actor) (nodeID instanceID : string) (lines : Z)
| OpPreview (actor : Actor)
| OpSettings (actor : Actor)
| OpUpdateSettings (actor : Actor) (input : SettingsInput)
| OpLoad
| OpBegin (startedAt : Time).
Definition perform (op : Operation) : M unit :=
  match op with
  | OpRun => runScheduled
  | OpRemoveOne actor nodeID instanceID lines => discard (RemoveOne actor nodeID instanceID lines)
  | OpPreview actor => discard (Preview actor)
  | OpSettings actor => discard (Settings_stale actor)
  | OpUpdateSettings actor input => UpdateSettings_stale actor input
  | OpLoad => discard load_state
  | OpBegin t => MarkRun t
  end.
(** Who may have a container of which instance, on which node, removed, and
    how much of its log kept: the schedule, where the mode is Prune; by hand,
    an Admin, the one they named. *)
Definition may_remove (op : Operation) (w : World) (nodeID instanceID : string) (lines : Z) : Prop :=
  match op with
  | OpRun => SCMode (w_stale w) = ModePrune /\ lines = ArchiveLines (w_stale w)
  | OpRemoveOne actor n i l => CanManageStaleContainers actor = true /\ 0 <= l <= MaxArchiveLines /\
      (exists node, w_nodes w !! to_lower n = Some node /\ nodeID = NodeID node) /\ instanceID = to_lower i /\ lines = l
  | _ => False
  end.
(** A node of the table that runs containers. *)
Definition container_node (w : World) (nodeID : string) : Prop :=
  exists key n, w_nodes w !! key = Some n /\ NodeID n = nodeID /\ (NodeRuntimeBackend n = Docker \/ NodeRuntimeBackend n = Podman).
Definition list_request (w : World) (m : string * Message) : Prop :=
  container_node w m.1 /\ exists id, m.2 = MListContainers id.
(** A removal asked for at the moment [now], of a container its node itself
    reported and that is stale there and then. *)
Definition rightful_removal (op : Operation) (w : World) (now : Time) (m : string * Message) : Prop :=
  container_node w m.1 /\ exists id c lines t, m.2 = MRemoveContainer id (c_InstanceID c) lines /\
    may_remove op w m.1 (c_InstanceID c) lines /\ reported m.1 c /\
    stale_now m.1 c (w_instances w !! c_InstanceID c) now (min_age (w_stale w)) t.
(** First the nodes are asked what they hold, then what is stale at that very
    moment may be removed. *)
Definition safely (op : Operation) (w w' : World) : Prop :=
  exists w1, later w w1 /\ sends (list_request w) w w1 /\ sends (rightful_removal op w (w_clock w1)) w1 w'.
Lemma quiet_safely op w w' : unsent w' = unsent w -> safely op w w'.
Proof. intros Hu. exists w. split_and!; [reflexivity|reflexivity|by apply sends_unsent]. Qed.
Lemma quiet_op {A} op (m : M A) w : Preserves unsent m -> wp m w (fun _ w' => safely op w w').
Proof. intros Hm. unfold wp. apply quiet_safely, Hm. Qed.

(** Of what a scan calls stale. *)
Definition stale_in (w w1 : World) (minAge : Z) (ns : NodeScan) (it : Item) : Prop :=
  reported (ns_NodeID ns) (it_Container it) /\
  exists t, stale_now (ns_NodeID ns) (it_Container it) (w_instances w !! it_InstanceID it) (w_clock w1) minAge t.
Lemma wp_scan w w0 nodes minAge (Q : result (list NodeScan) -> World -> Prop) : later w w0 -> unsent w0 = unsent w ->
  (forall n, n ∈ nodes -> container_node w (NodeID n)) ->
  (forall scans w1, later w w1 -> sends (list_request w) w w1 ->
    (forall ns it, ns ∈ scans -> it ∈ ns_Items ns -> it_Verdict it = VerdictStale ->
       (exists n, n ∈ nodes /\ ns_NodeID ns = NodeID n) /\ stale_in w w1 minAge ns it) -> Q (Ok scans) w1) ->
  wp (scan nodes minAge) w0 Q.
Proof.
  intros Hl Hu Hn HQ. eapply wp_mono; [apply wp_and; [apply scan_ok|apply wp_and]|].
  { apply (wp_evolves later (scan nodes minAge)); [apply scan_later|]. intros r w' Hw'. exact Hw'. }
  { apply (wp_evolves (sends (list_request w)) (scan nodes minAge)); [|intros r w' Hw'; exact Hw'].
    apply scan_sends. intros n id Hin. split; [by apply Hn|by exists id]. }
  intros [scans|e] w1 [Hs [Hl1 Hs1]]; [|done]. destruct Hs as (now & Hnow & Hs). rewrite Forall_forall in Hs.
  apply HQ; [by transitivity w0|transitivity w0; [by apply sends_unsent|done]|]. intros ns it Hns Hit Hv.
  destruct (Hs ns Hns) as (n & Hin & Hid & Hits). destruct (Hits it Hit) as [Hr He].
  split; [by exists n|]. unfold stale_in. rewrite Hid. split; [done|].
  assert (Hi : w_instances w0 = w_instances w) by exact (f_equal (fun u : _ * (_ * _ * _) => u.2.1.1) Hu).
  rewrite Hi in He. pose proof (Classify_verdict (NodeID n) (it_Container it) (w_instances w !! it_InstanceID it) now minAge) as Hc.
  unfold it_Verdict in Hv. rewrite He in Hv. unfold verdict_says in Hc. rewrite Hv in Hc. eexists. eapply stale_later; [exact Hnow|exact Hc].
Qed.
Lemma elem_of_containerNodes n l : n ∈ containerNodes l -> n ∈ l /\ (NodeRuntimeBackend n = Docker \/ NodeRuntimeBackend n = Podman).
Proof. unfold containerNodes. rewrite !list_elem_of_In, filter_In, orb_true_iff, !bool_decide_eq_true. done. Qed.
Lemma wp_List_nodes w (Q : result (list Node) -> World -> Prop) : (forall e, Q (Err e) (bump w)) ->
  (forall all, (forall n, n ∈ all -> exists key, w_nodes w !! key = Some n) -> Q (Ok all) (bump w)) -> wp List_nodes_db w Q.
Proof.
  intros He Hok. unfold List_nodes_db. apply wp_wrap, wp_query; [intros; apply He|intros _]. apply Hok. intros n.
  rewrite elem_of_sort_by, list_elem_of_fmap. intros ([key n'] & -> & Hin%elem_of_map_to_list). by exists key.
Qed.
Lemma wp_Get_stale w (Q : result StaleContainerSettings -> World -> Prop) : (forall e, Q (Err e) (bump w)) ->
  Q (Ok (w_stale w)) (bump w) -> wp Get_stale w Q.
Proof. intros He Hok. unfold Get_stale. apply wp_wrap, wp_query; [intros; apply He|intros _; exact Hok]. Qed.
Lemma later_bump w w0 : later w w0 -> later w (bump w0).
Proof. unfold later. cbn. lia. Qed.
Lemma asked_safely op w w1 : later w w1 -> sends (list_request w) w w1 -> safely op w w1.
Proof. intros Hl Hs. by exists w1. Qed.

Lemma runScheduled_safely w : wp runScheduled w (fun _ w' => safely OpRun w w').
Proof.
  unfold runScheduled. apply wp_bind, wp_wrap, wp_Get_stale; [intros e; by apply quiet_safely|].
  set (cfg := w_stale w). destruct (bool_decide (SCMode cfg = ModeNone)); [apply wp_ret; by apply quiet_safely|].
  apply wp_bind, wp_wrap, wp_List_nodes; [intros e; by apply quiet_safely|]. intros all Hall.
  apply wp_bind, wp_time_now, wp_bind. apply (wp_scan w).
  { do 3 apply later_bump. reflexivity. }
  { done. }
  { intros n [Hn Hb]%elem_of_containerNodes. destruct (Hall n Hn) as [key Hk]. by exists key, n. }
  intros scans w1 Hl Hs Hst. cbn beta iota.
  apply (wp_evolves (sends (rightful_removal OpRun w (w_clock w1)))); [|intros r w' Hw'; by exists w1].
  apply evolves_bind; [apply _| |].
  { destruct (bool_decide (SCMode cfg = ModePrune)) eqn:Em; [|apply _]. propb.
    apply prune_sends. intros [ns it] id (Hns & Hit & Hv)%elem_of_stale_items. cbn [fst snd].
    destruct (Hst ns it Hns Hit Hv) as [(n & [Hn Hb]%elem_of_containerNodes & Hid) [Hr [t Ht]]].
    destruct (Hall n Hn) as [key Hk]. split; [by exists key, n|].
    by exists id, (it_Container it), (ArchiveLines cfg), t. }
  intros pruned. apply _.
Qed.
Lemma RemoveOne_safely actor nodeID instanceID lines w :
  wp (RemoveOne actor nodeID instanceID lines) w (fun _ w' => safely (OpRemoveOne actor nodeID instanceID lines) w w').
Proof.
  unfold RemoveOne. apply wp_bind, wp_guard; intros Hact; [|by apply quiet_safely].
  apply wp_bind, wp_guard; intros Hids; [|by apply quiet_safely].
  apply wp_bind, wp_guard; intros Hlines; [|by apply quiet_safely]. cbv zeta.
  apply wp_bind, wp_wrap, wp_Get_stale; [intros e; by apply quiet_safely|].
  set (cfg := w_stale w). apply wp_bind, wp_map_err. apply wp_FindByID_node; [intros e _|intros _|intros node Hnode]; [by apply quiet_safely..|].
  change (w_nodes (bump w)) with (w_nodes w) in Hnode.
  apply wp_bind, wp_guard; intros Hc; [|by apply quiet_safely]. propb.
  assert (Hbk : NodeRuntimeBackend node = Docker \/ NodeRuntimeBackend node = Podman).
  { destruct (containerNodes [node]) as [|n l] eqn:E; [done|]. assert (Hin : n ∈ containerNodes [node]) by (rewrite E; by left).
    apply elem_of_containerNodes in Hin as [->%list_elem_of_singleton Hb]. exact Hb. }
  apply wp_bind. apply (wp_scan w).
  { do 2 apply later_bump. reflexivity. }
  { done. }
  { intros n ->%list_elem_of_singleton. by exists (to_lower nodeID), node. }
  intros scans w1 Hl Hs Hst. destruct scans as [|ns scans]; [by apply asked_safely|].
  apply wp_bind, wp_guard; intros Hdone; [|by apply asked_safely].
  destruct (List.find _ (ns_Items ns)) as [it|] eqn:Ef; [|by apply asked_safely].
  apply List.find_some in Ef as [Hit Hin]. apply list_elem_of_In in Hit. propb.
  apply wp_bind, wp_guard; intros Hv; [|by apply asked_safely]. propb.
  destruct (Hst ns it (list_elem_of_here _ _) Hit Hv) as [(n & ->%list_elem_of_singleton & Hid) [Hr [t Ht]]].
  apply (wp_evolves (sends (rightful_removal (OpRemoveOne actor nodeID instanceID lines) w (w_clock w1)))); [|intros r w' Hw'; by exists w1].
  apply evolves_bind; [apply _| |].
  { apply removeItem_sends. intros id. split; [by exists (to_lower nodeID), node|].
    exists id, (it_Container it), lines, t. cbn [may_remove fst snd]. split_and!; try done. by exists node. }
  intros res. apply _.
Qed.
Lemma Preview_safely actor w : wp (Preview actor) w (fun _ w' => safely (OpPreview actor) w w').
Proof.
  unfold Preview. apply wp_bind, wp_guard; intros _; [|by apply quiet_safely].
  apply wp_bind, wp_wrap, wp_Get_stale; [intros e; by apply quiet_safely|].
  apply wp_bind, wp_wrap, wp_List_nodes; [intros e; by apply quiet_safely|]. intros all Hall.
  apply wp_bind, (wp_scan w).
  { do 2 apply later_bump. reflexivity. }
  { done. }
  { intros n [Hn Hb]%elem_of_containerNodes. destruct (Hall n Hn) as [key Hk]. by exists key, n. }
  intros scans w1 Hl Hs _. by apply asked_safely.
Qed.

#[local] Instance Get_stale_unsent : Preserves unsent Get_stale.
Proof. unfold Get_stale. apply _. Qed.
#[local] Instance saved_spec_unsent cfg : Preserves unsent (saved_spec cfg).
Proof. unfold saved_spec. apply _. Qed.
#[local] Instance LocationOf_unsent : Preserves unsent LocationOf.
Proof. unfold LocationOf, GetSettings. apply preserves_bind; [apply _|]. intros cfg. by apply preserves_wrap. Qed.
#[local] Instance next_run_unsent cfg spec loc : Preserves unsent (next_run cfg spec loc).
Proof. unfold next_run. apply _. Qed.
#[local] Instance put_unsent u : Preserves unsent (Update_stale u).
Proof.
  unfold Update_stale. apply preserves_wrap, preserves_sql; [apply _|]. intros w. destruct (nullableJSON _); [done|].
  unfold put_stale. by repeat case_match; simplify_eq.
Qed.
#[local] Instance restore_unsent prev : Preserves unsent (Restore prev).
Proof.
  unfold Restore. apply preserves_wrap, preserves_sql; [apply _|]. intros w. destruct (nullableJSON _); [done|].
  unfold put_stale. by repeat case_match; simplify_eq.
Qed.
Lemma discard_state {A} (m : M A) w : snd (discard m w) = snd (m w).
Proof. unfold discard, mbind, ST_bind. by destruct (m w) as [[]]. Qed.

(** C15: whatever fails on the way, and whatever the agents answer, no
    operation of the monitoring sends anything but requests for lists, to
    nodes of the table that run containers, and then removals; and a removal
    is sent only of a container which its node itself reported, which the
    rules call stale at that moment against the instance records as they are,
    and only by the schedule while the mode is Prune, or by hand, for a
    permitted actor, of the very instance they named. *)
Theorem removals_safe op w : safely op w (snd (perform op w)).
Proof.
  destruct op as [|actor n i l|actor|actor|actor input| |t]; simpl.
  - apply runScheduled_safely.
  - rewrite discard_state. apply RemoveOne_safely.
  - rewrite discard_state. apply Preview_safely.
  - apply quiet_safely. rewrite discard_state. apply preserves.
  - apply quiet_safely. assert (Hp : Preserves unsent (UpdateSettings_stale actor input)) by (unfold UpdateSettings_stale, lift; apply _). apply Hp.
  - apply quiet_safely. rewrite discard_state. assert (Hp : Preserves unsent load_state) by (unfold load_state; apply _). apply Hp.
  - apply quiet_safely. assert (Hp : Preserves unsent (MarkRun t)) by (unfold MarkRun; apply _). apply Hp.
Qed.
End Monitoring.
