(* ===== verification/Profiles.v ===== *)
(** * Model profiles ([internal/profiles])

    Creating, changing and deleting profiles, and what a stored profile is
    good for: it can be launched. *)
From stdpp Require Import base list strings gmap.
From Stdlib Require Import ZArith Lia.
From Stdlib Require Import Ascii.
From Stdlib Require String.
From S2P Require Import Prelude Text Json Engines Db GoTime Rbac AlertRaiser InstanceStore ProfileStore Wire NodeStore Inventory Lifecycle.
Local Open Scope string_scope.
Local Open Scope list_scope.
Local Open Scope Z_scope.

Definition ErrInvalidProfile : error := Sentinel "profiles.ErrInvalidProfile" "invalid model profile".
(** [Fields]; the format is the text of the form. *)
Record Fields := MkFields {
  f_Name : string; f_ModelRef : string; f_EngineType : string; f_EngineParams : RawMessage;
  f_RequiredMemoryGB : option float64; f_EngineVersion : option string; f_Quantization : string; f_Format : string;
  f_Image : option string; f_TargetNodeID : string; f_Port : Z
}.
Definition with_name (name : string) (f : Fields) : Fields :=
  MkFields name (f_ModelRef f) (f_EngineType f) (f_EngineParams f) (f_RequiredMemoryGB f) (f_EngineVersion f)
    (f_Quantization f) (f_Format f) (f_Image f) (f_TargetNodeID f) (f_Port f).
Definition invalid (reason : string) : error := Errorf "" ErrInvalidProfile (": " +:+ reason).
(** The format is returned as the enum value its text names. *)
Definition validate (f : Fields) : result ModelFormat :=
  match CheckModelID (f_Name f) with
  | Err e => Err (invalid (error_text e))
  | Ok _ =>
      if bool_decide (f_ModelRef f = "") then Err (invalid "model_ref is required")
      else if bool_decide (f_TargetNodeID f = "") then Err (invalid "target_node_id is required")
      else match format_of (f_Format f) with
      | None => Err (invalid "format must be a model selected from that node's inventory")
      | Some fmt =>
          if (f_Port f <=? 0) || (65535 <? f_Port f) then Err (invalid "port must be between 1 and 65535")
          else if match f_RequiredMemoryGB f with Some m => fle_zero m | None => false end
          then Err (invalid "required_memory_gb must be positive")
          else Ok fmt
      end
  end.

Definition not_in_inventory : error := invalid "that model is not present in the target node's inventory".
Definition nameTakenError (name : string) : error :=
  invalid ("another profile is already named " +:+ quote name +:+ "; each profile's name is the model id clients use, so give this one a name that tells it apart (for example by adding its engine or the parameter that differs)").
Definition columns (f : Fields) (fmt : ModelFormat) (full : bool) : ProfileColumns :=
  MkColumns (f_Name f) (f_ModelRef f) (f_EngineType f) (f_EngineParams f) full (f_RequiredMemoryGB f) (f_EngineVersion f)
    (f_Quantization f) fmt (f_Image f) (f_TargetNodeID f) (f_Port f).
Definition profile_detail (p : Profile) : gmap string DVal :=
  <["name" := DStr (ProfName p)]> {[ "engine_type" := DStr (EngineType p) ]}.

Section Service.
Context `{Env}.

(** [resolve]: the format and whether the engine needs the whole model in GPU
    memory. *)
Definition resolve (f : Fields) : M (ModelFormat * bool) :=
  fmt ← lift (validate f);
  adapter ← map_err (fun e => invalid (error_text e)) (lift (Registry_Adapter (f_EngineType f)));
  map_err (fun e => invalid (error_text e)) (lift (ValidateParams adapter (f_EngineParams f)));;
  map_err (fun e => if errors_Is e "db.ErrNodeNotFound" then invalid "target_node_id does not refer to a registered node"
                    else Errorf "look up target node: " e "") (discard (FindByID_node (f_TargetNodeID f)));;
  entry ← map_err (fun e => if errors_Is e "db.ErrNodeModelInventoryNotFound" then not_in_inventory
                            else Errorf "look up target inventory entry: " e "")
            (Get (f_TargetNodeID f) (f_ModelRef f) (f_Quantization f) fmt);
  guard_err (bool_decide (InvStatus entry = InvPresent)) not_in_inventory;;
  mret (fmt, Engines.RequiresFullGPUResidency adapter).

Definition CreateProfile (actor : Actor) (params : Fields) : M Profile :=
  guard_err (CanManageProfiles actor) ErrNotPermitted;;
  let params := with_name (trim_space (f_Name params)) params in
  r ← resolve params;
  p ← map_err (fun e => if errors_Is e "db.ErrProfileNameTaken" then nameTakenError (f_Name params)
                        else Errorf "create model profile: " e "")
        (Create_profile (columns params r.1 r.2) (actor_id actor));
  wrap "record audit: " (Record_ (actor_id actor) (IsSuperAdmin actor) "created_profile" "model_profile" (ProfID p)
    (Some (profile_detail p)));;
  mret p.
Definition UpdateProfile (actor : Actor) (id : string) (params : Fields) : M Profile :=
  guard_err (CanManageProfiles actor) ErrNotPermitted;;
  let params := with_name (trim_space (f_Name params)) params in
  r ← resolve params;
  p ← map_err (fun e => if errors_Is e "db.ErrProfileNotFound" then e
                        else if errors_Is e "db.ErrProfileNameTaken" then nameTakenError (f_Name params)
                        else Errorf "update model profile: " e "")
        (Update_profile id (columns params r.1 r.2) (actor_id actor));
  wrap "record audit: " (Record_ (actor_id actor) (IsSuperAdmin actor) "updated_profile" "model_profile" (ProfID p)
    (Some (profile_detail p)));;
  mret p.
Definition DeleteProfile (actor : Actor) (id : string) : M unit :=
  guard_err (CanManageProfiles actor) ErrNotPermitted;;
  map_err (fun e => if errors_Is e "db.ErrProfileNotFound" then e else Errorf "delete model profile: " e "")
    (Delete_profile id);;
  wrap "record audit: " (Record_ (actor_id actor) (IsSuperAdmin actor) "deleted_profile" "model_profile" id None).
Definition ListProfiles : M (list Profile) := wrap "list model profiles: " List_profiles_db.
Definition GetProfile (id : string) : M Profile :=
  map_err (fun e => if errors_Is e "db.ErrProfileNotFound" then e else Errorf "get model profile: " e "")
    (FindByID_profile id).
End Service.
