(* ===== verification/ProfilesSpec.v ===== *)
(** * A stored profile can be launched

    What [internal/profiles] checks before a profile is stored is enough for
    [internal/lifecycle] to launch it later, through the [jsonb] column its
    parameters went through. *)
From stdpp Require Import base list strings gmap relations.
From Stdlib Require Import ZArith Lia.
From Stdlib Require Import Ascii.
From Stdlib Require String.
From S2P Require Import Prelude Text Json Engines Db GoTime Rbac AlertRaiser InstanceStore ProfileStore Wire NodeStore Inventory Lifecycle Profiles.
Local Open Scope string_scope.
Local Open Scope list_scope.
Local Open Scope Z_scope.

(** ** Decoding what [jsonb] gives back *)

(** A field decoder whose success depends on the value alone and survives the
    trip through [jsonb]. *)
Definition stable {S} (f : json -> S -> result S) : Prop :=
  forall v dst dst', is_ok (f v dst) = true -> is_ok (f (jsonb v) dst') = true.
Lemma stable_into {A S} (dec : json -> result (option A)) (put : option A -> S -> S) :
  (forall v, is_ok (dec v) = true -> is_ok (dec (jsonb v)) = true) -> stable (into dec put).
Proof.
  intros Hd v dst dst'. unfold into. specialize (Hd v). destruct (dec v); [|done]. intros _.
  specialize (Hd eq_refl). by destruct (dec (jsonb v)).
Qed.
Lemma jsonb_decimal m e : jsonb (JDec m e) = JInt (m * 10 ^ e) \/ jsonb (JDec m e) = JDec m e.
Proof. cbn [jsonb]. destruct (0 <=? e); auto. Qed.
Lemma decode_int_jsonb v : is_ok (decode_int v) = true -> is_ok (decode_int (jsonb v)) = true.
Proof. by destruct v. Qed.
Lemma decode_string_jsonb v : is_ok (decode_string v) = true -> is_ok (decode_string (jsonb v)) = true.
Proof. by destruct v. Qed.
Lemma decode_bool_jsonb v : is_ok (decode_bool v) = true -> is_ok (decode_bool (jsonb v)) = true.
Proof. by destruct v. Qed.
Lemma decode_float_jsonb v : is_ok (decode_float v) = true -> is_ok (decode_float (jsonb v)) = true.
Proof. destruct v; try done. intros _. by destruct (jsonb_decimal m e) as [-> | ->]. Qed.

Section Decode.
Context {S : Type} (field : string -> option (json -> S -> result S)) (names : list string).
Context (field_stable : forall k f, field k = Some f -> stable f).

Lemma match_field_stable k f : match_field field names k = Some f -> stable f.
Proof using field_stable.
  unfold match_field. case_bool_decide; [apply field_stable|]. destruct (List.find _ _); [apply field_stable|done].
Qed.
Lemma decode_fields_ok l dst : is_ok (decode_fields field names l dst) = true ->
  forall k v, (k, v) ∈ l -> exists f dst', match_field field names k = Some f /\ is_ok (f v dst') = true.
Proof.
  revert dst. induction l as [|[k0 v0] l IH]; intros dst; [by intros _ k v ?%elem_of_nil|]. cbn [decode_fields].
  destruct (match_field field names k0) as [f|] eqn:Ef; [|done]. destruct (f v0 dst) as [dst1|] eqn:Ev; [|done].
  intros Hl k v [[= -> ->]|Hin]%elem_of_cons; [|by eapply IH]. exists f, dst. by rewrite Ev.
Qed.
Lemma decode_fields_all l dst :
  (forall k v, (k, v) ∈ l -> exists f, match_field field names k = Some f /\ forall d, is_ok (f v d) = true) ->
  is_ok (decode_fields field names l dst) = true.
Proof.
  revert dst. induction l as [|[k v] l IH]; intros dst Hl; [done|]. cbn [decode_fields].
  destruct (Hl k v) as (f & -> & Hf); [left|]. specialize (Hf dst). destruct (f v dst); [|done].
  apply IH. intros k' v' Hin. apply Hl. by right.
Qed.
Lemma decode_jsonb v trailing zero : is_ok (decode_struct field names (Raw v trailing) zero) = true ->
  is_ok (decode_struct field names (Raw (jsonb v) false) zero) = true.
Proof using field_stable.
  destruct v as [|b|z|m e|s|l|l]; try done. cbn [decode_struct jsonb]. intros Hok.
  apply decode_fields_all. intros k v Hin%put_keys_elem.
  apply list_elem_of_fmap in Hin as ([k0 v0] & [= -> ->] & Hin).
  destruct (decode_fields_ok _ _ Hok _ _ Hin) as (f & dst & Hf & Hv). exists f. split; [done|].
  intros d. by eapply match_field_stable.
Qed.
Lemma unmarshal_jsonb zero r r' : is_ok (unmarshalParamsObject field names zero r) = true -> jsonb_param r = inr r' ->
  is_ok (unmarshalParamsObject field names zero r') = true.
Proof using field_stable.
  unfold unmarshalParamsObject, jsonb_param, Unmarshal. destruct r as [| |v []]; try done.
  intros Hok. destruct (has_nul v); [done|]. intros [= <-].
  pose proof (decode_jsonb v false zero) as Hj. destruct (decode_struct field names (Raw v false) zero); [|done].
  specialize (Hj eq_refl). by destruct (decode_struct field names (Raw (jsonb v) false) zero).
Qed.
End Decode.

Lemma llamacpp_stable k f : LlamaCPP.field k = Some f -> stable f.
Proof. unfold LlamaCPP.field. repeat case_bool_decide; intros [= <-]; apply stable_into, decode_int_jsonb. Qed.
Lemma vllm_stable k f : VLLM.field k = Some f -> stable f.
Proof.
  unfold VLLM.field. repeat case_bool_decide; intros [= <-]; apply stable_into;
    [apply decode_int_jsonb|apply decode_string_jsonb|apply decode_bool_jsonb|apply decode_float_jsonb].
Qed.
(** Parameters an adapter accepts still build a launch specification after
    they were stored. *)
Lemma stored_params_build a r r' : a ∈ NewRegistry.*2 -> is_ok (ValidateParams a r) = true -> jsonb_param r = inr r' ->
  forall name, is_ok (BuildLaunchSpec a r' name) = true.
Proof.
  intros Ha Hv Hj name. unfold NewRegistry in Ha. simpl in Ha. rewrite !elem_of_cons, elem_of_nil in Ha.
  destruct Ha as [->|[->|[]]]; simpl in *.
  - unfold VLLM.ValidateParams, VLLM.BuildLaunchSpec, VLLM.params_of in *.
    pose proof (unmarshal_jsonb VLLM.field VLLM.names vllm_stable VLLM.zero r r') as Hu.
    destruct (unmarshalParamsObject VLLM.field VLLM.names VLLM.zero r); [|done]. specialize (Hu eq_refl Hj).
    by destruct (unmarshalParamsObject VLLM.field VLLM.names VLLM.zero r').
  - unfold LlamaCPP.ValidateParams, LlamaCPP.BuildLaunchSpec, LlamaCPP.params_of in *.
    pose proof (unmarshal_jsonb LlamaCPP.field LlamaCPP.names llamacpp_stable LlamaCPP.zero r r') as Hu.
    destruct (unmarshalParamsObject LlamaCPP.field LlamaCPP.names LlamaCPP.zero r); [|done]. specialize (Hu eq_refl Hj).
    by destruct (unmarshalParamsObject LlamaCPP.field LlamaCPP.names LlamaCPP.zero r').
Qed.

(** ** Well-typed profiles *)
Definition launchable (p : Profile) : Prop :=
  is_ok (CheckModelID (ProfName p)) = true /\ is_Some (TargetNodeID p) /\ 1 <= ProfPort p <= 65535 /\
  exists a, Registry_Adapter (EngineType p) = Ok a /\ RequiresFullGPUResidency p = Engines.RequiresFullGPUResidency a /\
    is_ok (BuildLaunchSpec a (EngineParams p) (ProfName p)) = true.
Definition profiles_ok (w : World) : Prop := forall k p, w_profiles w !! k = Some p -> ProfID p = k /\ launchable p.
(** What [resolve] has checked when it succeeds. *)
Definition resolved (f : Fields) (fmt : ModelFormat) (full : bool) (w : World) : Prop :=
  is_ok (CheckModelID (f_Name f)) = true /\ 1 <= f_Port f <= 65535 /\ format_of (f_Format f) = Some fmt /\
  is_Some (w_nodes w !! f_TargetNodeID f) /\
  (exists e, w_inventory w !! (f_TargetNodeID f, f_ModelRef f, f_Quantization f, fmt) = Some e /\ InvStatus e = InvPresent) /\
  exists a, Registry_Adapter (f_EngineType f) = Ok a /\ full = Engines.RequiresFullGPUResidency a /\
    is_ok (ValidateParams a (f_EngineParams f)) = true.
Lemma Registry_in e a : Registry_Adapter e = Ok a -> a ∈ NewRegistry.*2.
Proof.
  unfold Registry_Adapter. destruct (List.find _ NewRegistry) as [[n b]|] eqn:E; [|done]. intros [= <-].
  apply List.find_some in E as [Hin _]. apply list_elem_of_fmap. exists (n, b). by rewrite list_elem_of_In.
Qed.
Lemma resolved_launchable f fmt full w id topo by_ at_ by2 at2 params : resolved f fmt full w ->
  jsonb_param (f_EngineParams f) = inr params ->
  launchable (profile_row id (columns f fmt full) params topo by_ at_ by2 at2).
Proof.
  intros (Hn & Hp & _ & _ & _ & a & Ha & Hf & Hv) Hj. split_and!; [exact Hn|by eexists|exact (proj1 Hp)|exact (proj2 Hp)|].
  exists a. split_and!; [exact Ha|exact Hf|]. eapply stored_params_build; [by eapply Registry_in|exact Hv|exact Hj].
Qed.

Section Service.
Context `{Env}.
Lemma wp_lift {A} (r : result A) w (Q : result A -> World -> Prop) : Q r w -> wp (lift r) w Q.
Proof. by destruct r. Qed.
Lemma wp_resolve f w (Q : result (ModelFormat * bool) -> World -> Prop) :
  (forall e w', w_profiles w' = w_profiles w -> w_audit w' = w_audit w -> w_sent w' = w_sent w -> Q (Err e) w') ->
  (forall fmt full, resolved f fmt full w -> Q (Ok (fmt, full)) (bump (bump w))) -> wp (resolve f) w Q.
Proof.
  intros He Hok. unfold resolve. apply wp_bind, wp_lift. unfold validate.
  destruct (CheckModelID (f_Name f)) as [u|e] eqn:Ename; [|by apply He].
  case_bool_decide; [by apply He|]. case_bool_decide; [by apply He|].
  destruct (format_of (f_Format f)) as [fmt|] eqn:Efmt; [|by apply He].
  destruct (_ || _) eqn:Eport; [by apply He|]. apply orb_false_iff in Eport as [Ep1 Ep2]. propb.
  destruct (match f_RequiredMemoryGB f with Some m => _ | None => _ end); [by apply He|].
  apply wp_bind, wp_map_err, wp_lift. destruct (Registry_Adapter (f_EngineType f)) as [a|e] eqn:Ea; [|by apply He].
  apply wp_bind, wp_map_err, wp_lift. destruct (ValidateParams a (f_EngineParams f)) as [u'|e] eqn:Ev; [|by apply He].
  apply wp_bind, wp_map_err, wp_discard, wp_FindByID_node; [intros; by apply He|intros; by apply He|intros n Hn].
  apply wp_bind, wp_map_err. unfold Get. apply wp_Get_inventory; [intros; by apply He|intros; by apply He|intros i Hi].
  apply wp_bind, wp_guard; [intros Hst|intros; by apply He]. propb. apply wp_ret, Hok.
  split_and!; [by rewrite Ename|lia|lia|done|by exists n|by exists i|exists a; by rewrite Ev].
Qed.

(** What a create or an update that reached the row did. *)
Definition stored_ok (f : Fields) (w : World) (p : Profile) (w' : World) : Prop :=
  w_profiles w' = <[ProfID p := p]> (w_profiles w) /\ launchable p /\
  is_Some (w_nodes w !! f_TargetNodeID f) /\
  exists fmt e, w_inventory w !! (f_TargetNodeID f, f_ModelRef f, f_Quantization f, fmt) = Some e /\ InvStatus e = InvPresent /\
    ProfName p = trim_space (f_Name f) /\ TargetNodeID p = Some (f_TargetNodeID f) /\ ProfModelRef p = f_ModelRef f /\
    ProfQuantization p = f_Quantization f /\ ProfFormat p = fmt.
Definition profile_outcome (action : string) (f : Fields) (ok_row : Profile -> Prop) (w : World) (r : result Profile) (w' : World) : Prop :=
  match r with
  | Ok p => stored_ok f w p w' /\ ok_row p /\ audited action w w'
  | Err e => w_audit w' = w_audit w /\
      (w_profiles w' = w_profiles w \/ exists p e', stored_ok f w p w' /\ ok_row p /\ e = Errorf "record audit: " e' "")
  end.
Lemma put_profile_ok by_ p w : match put_profile by_ p w with
  | inl _ => True | inr (q, w') => q = p /\ w' = set_w_profiles (<[ProfID p := p]> (w_profiles w)) w end.
Proof. unfold put_profile. by destruct (profile_fault by_ p w). Qed.
Lemma create_ok actor f w : wp (CreateProfile actor f) w (fun r w' =>
  profile_outcome "created_profile" f (fun p => w_profiles w !! ProfID p = None) w r w').
Proof.
  unfold CreateProfile. apply wp_bind, wp_guard; intros Hperm; [|by split; [|left]].
  apply wp_bind, wp_resolve; [by intros e w' Hp Ha _; split; [|left]|]. intros fmt full Hres.
  apply wp_bind, wp_map_err. unfold Create_profile. apply wp_map_err. unfold scan_profile. apply wp_wrap, wp_sql; [by intros e _; split; [|left]|intros _].
  cbn [PCEngineParams columns fst snd].
  destruct (jsonb_param _) as [e|params] eqn:Ej; [by split; [|left]|].
  case_bool_decide as Hfresh; [by split; [|left]|]. apply eq_None_not_Some in Hfresh.
  set (p := profile_row _ _ _ _ _ _ _ _). match goal with |- context [put_profile ?b p ?v] => pose proof (put_profile_ok b p v) as Hput;
    destruct (put_profile b p v) as [e|[q w1]]; [by split; [|left]|] end. destruct Hput as [-> ->].
  assert (Hst : forall w', w_profiles w' = <[ProfID p := p]> (w_profiles w) -> stored_ok f w p w').
  { intros w' Hw'. pose proof Hres as (_ & _ & _ & Hn & (e & He & Hpres) & _).
    split_and!; [exact Hw'|by eapply resolved_launchable|exact Hn|]. exists fmt, e. done. }
  apply wp_bind, wp_wrap, wp_Record.
  - intros e _. split; [done|]. right. exists p. eexists. split_and!; [by apply Hst|exact Hfresh|done].
  - intros _. apply wp_ret. split_and!; [by apply Hst|exact Hfresh|by eexists].
Qed.
Lemma update_ok actor id f w : wp (UpdateProfile actor id f) w (fun r w' =>
  profile_outcome "updated_profile" f (fun p => ProfID p = id /\ is_Some (w_profiles w !! id)) w r w').
Proof.
  unfold UpdateProfile. apply wp_bind, wp_guard; intros Hperm; [|by split; [|left]].
  apply wp_bind, wp_resolve; [by intros e w' Hp Ha _; split; [|left]|]. intros fmt full Hres.
  apply wp_bind, wp_map_err. unfold Update_profile. apply wp_map_err, wp_bind. unfold scan_profile. apply wp_wrap, wp_sql; [by intros e _; split; [|left]|intros _].
  cbn [PCEngineParams columns fst snd].
  destruct (jsonb_param _) as [e|params] eqn:Ej; [by split; [|left]|].
  destruct (w_profiles _ !! id) as [old|] eqn:Eold; [|by split; [|left]].
  set (p := profile_row _ _ _ _ _ _ _ _). match goal with |- context [put_profile ?b p ?v] => pose proof (put_profile_ok b p v) as Hput;
    destruct (put_profile b p v) as [e|[q w1]]; [by split; [|left]|] end. destruct Hput as [-> ->].
  assert (Hst : forall w', w_profiles w' = <[ProfID p := p]> (w_profiles w) -> stored_ok f w p w').
  { intros w' Hw'. pose proof Hres as (_ & _ & _ & Hn & (e & He & Hpres) & _).
    split_and!; [exact Hw'|by eapply resolved_launchable|exact Hn|]. exists fmt, e. done. }
  cbn [scanProfile]. apply wp_ret. apply wp_bind, wp_wrap, wp_Record.
  - intros e _. split; [done|]. right. exists p. eexists. split_and!; [by apply Hst|done|by exists old|done].
  - intros _. apply wp_ret. split_and!; [by apply Hst|done|by exists old|by eexists].
Qed.
Lemma delete_ok actor id w : wp (DeleteProfile actor id) w (fun _ w' =>
  w_profiles w' = w_profiles w \/ w_profiles w' = delete id (w_profiles w)).
Proof.
  unfold DeleteProfile. apply wp_bind, wp_guard; intros _; [|by left].
  apply wp_bind, wp_map_err. unfold Delete_profile. apply wp_bind, wp_wrap, wp_sql; [by left|intros _].
  destruct (_ && _); [by left|]. apply wp_guard; intros _; [|by right].
  apply wp_wrap, wp_Record; [by right|by right].
Qed.

(** What can happen between two looks at the table: the operations of the
    service, and whatever else leaves the rows alone. *)
Inductive profiles_step (w : World) : World -> Prop :=
| step_create actor f : profiles_step w (snd (CreateProfile actor f w))
| step_update actor id f : profiles_step w (snd (UpdateProfile actor id f w))
| step_delete actor id : profiles_step w (snd (DeleteProfile actor id w))
| step_elsewhere w' : w_profiles w' = w_profiles w -> profiles_step w w'.
Lemma profiles_ok_insert w w' p : profiles_ok w -> launchable p -> w_profiles w' = <[ProfID p := p]> (w_profiles w) -> profiles_ok w'.
Proof.
  intros Hok Hp Hw k q. rewrite Hw, lookup_insert. case_decide as E; [by intros [= <-]|apply Hok].
Qed.
Lemma profiles_step_ok w w' : profiles_step w w' -> profiles_ok w -> profiles_ok w'.
Proof.
  intros Hs Hok. assert (Hsame : forall w1, w_profiles w1 = w_profiles w -> profiles_ok w1) by (intros w1 E k p; rewrite E; apply Hok).
  assert (Hout : forall action f row r w1, profile_outcome action f row w r w1 -> profiles_ok w1).
  { intros action f row [p|e] w1; cbn [profile_outcome].
    - intros [(Hw & Hl & _) _]. by eapply profiles_ok_insert.
    - intros [_ [Hw|(p & e' & (Hw & Hl & _) & _)]]; [by apply Hsame|by eapply profiles_ok_insert]. }
  destruct Hs as [actor f|actor id f|actor id|w' Hw].
  - refine (wp_mono _ _ _ _ (create_ok actor f w) (fun r w1 => Hout _ _ _ r w1)).
  - refine (wp_mono _ _ _ _ (update_ok actor id f w) (fun r w1 => Hout _ _ _ r w1)).
  - refine (wp_mono _ _ _ (fun _ w1 => profiles_ok w1) (delete_ok actor id w) _). intros r w1 [Hw|Hw]; [by apply Hsame|].
    intros k p. rewrite Hw. intros [_ Hk]%lookup_delete_Some. by apply Hok.
  - by apply Hsame.
Qed.
End Service.

(** ** Progress: a well-typed profile does not go wrong *)
Definition bad_profile (e : error) : bool :=
  errors_Is e "lifecycle.ErrInvalidLoad" || errors_Is e "engines.ErrUnknownEngineType" || errors_Is e "engines.ErrInvalidParams".
Definition blameless (e : error) : Prop := bad_profile e = false.
#[export] Instance blameless_wrap : WrapClosed blameless.
Proof. by intros p e q. Qed.
Section Progress.
Context `{Env} `{!ForeignFaults}.
Lemma foreign_blameless : Foreign blameless.
Proof. intros n e Hf. unfold blameless, bad_profile. by rewrite !(fault_foreign n e). Qed.
#[local] Instance raises_Send n m : Raises blameless (Send n m).
Proof. apply raises_exec, foreign_blameless. Qed.
#[local] Instance raises_Create_instance p n by_ : Raises blameless (Create_instance p n by_).
Proof.
  unfold Create_instance. apply raises_wrap, raises_wrap, raises_sql; [apply _..|apply foreign_blameless|].
  intros w e. cbv zeta. case_bool_decide; [by intros [= <-]|]. destruct (_ && _); [done|by intros [= <-]].
Qed.
#[local] Instance raises_launch actor p n spec : Raises blameless (launch actor p n spec).
Proof.
  unfold launch. apply raises_bind; [apply raises_wrap, raises_Create_instance; apply _|]. intros inst.
  apply raises_bind; [unfold launchTime; apply _|]. intros t.
  apply raises_bind; [apply raises_wrap; [apply _|]; apply raises_query, foreign_blameless|]. intros env.
  apply raises_try; [apply raises_Send|intros _|intros e He].
  - apply raises_bind; [apply raises_wrap; [apply _|]; apply raises_Record; [apply _|apply foreign_blameless]|apply _].
  - apply raises_bind; [unfold mark_failed; apply _|]. intros _. apply raises_throw. exact He.
Qed.
#[local] Instance raises_FindActive id : Raises blameless (FindActiveByProfileID id).
Proof.
  unfold FindActiveByProfileID, scan_instance. apply raises_bind; [apply raises_wrap; [apply _|]; apply raises_query, foreign_blameless|].
  intros [i|]; [apply _|by apply raises_throw].
Qed.
Lemma load_blameless actor id p w : w_profiles w !! id = Some p -> id <> "" -> launchable p ->
  wp (LoadInstance actor id) w (fun r _ => match r with Ok _ => True | Err e => blameless e end).
Proof.
  intros Hp Hid (Hname & [node Hnode] & _ & a & Ha & _ & Hb). unfold LoadInstance. apply wp_bind. unfold prepare_launch.
  apply wp_bind, wp_guard; intros _; [|done]. apply wp_bind, wp_guard; intros Hne; [|by rewrite bool_decide_false in Hne].
  apply wp_bind, wp_map_err. unfold FindByID_profile, scan_profile. apply wp_bind, wp_wrap, wp_query.
  { intros e Hf. pose proof (foreign_blameless _ _ Hf) as He. destruct (errors_Is _ _); exact He. }
  intros _. change (w_profiles (bump w)) with (w_profiles w). rewrite Hp. apply wp_ret. rewrite Hnode.
  apply wp_bind, wp_attempt. apply (wp_raises blameless _); [by intros i w1|].
  intros e w1 He. apply wp_bind, wp_guard; [intros _|intros _; exact He].
  apply wp_bind, wp_Connected. intros b _. apply wp_bind, wp_guard; [intros _|done].
  apply wp_bind, wp_wrap, wp_lift. rewrite Ha. destruct (CheckModelID (ProfName p)) as [u|e']; [|done].
  apply wp_bind, wp_wrap, wp_lift. destruct (BuildLaunchSpec a (EngineParams p) (ProfName p)) as [spec|e']; [|done].
  assert (Hr : Raises blameless (when (paramsHaveKey (EngineParams p) "served_model_name")
    (logf "lifecycle: profile %q sets served_model_name in engine_params; ignored - the engine serves the model under the profile name"))) by apply _.
  apply wp_bind, (wp_raises blameless _); [|done]. intros [] w2. apply wp_ret.
  pose proof (raises_launch actor p node (override_image (ProfImage p) spec)) as Hk. by apply (wp_raises blameless _).
Qed.

(** C12: whatever profiles are created, changed and deleted in whatever order,
    by whomever and with whatever failures, every stored profile stays
    well-typed: its name is a model id, it has a target and a port, its engine
    is known and the engine builds a launch specification from its parameters
    as the [jsonb] column gives them back.  Loading it therefore never fails
    on the profile's account. *)
Theorem stored_profiles_load w0 w actor id p :
  rtc profiles_step w0 w -> profiles_ok w0 -> w_profiles w !! id = Some p -> id <> "" ->
  launchable p /\ wp (LoadInstance actor id) w (fun r _ => match r with Ok _ => True | Err e => bad_profile e = false end).
Proof.
  intros Hs Hok Hp Hid. assert (Hw : profiles_ok w).
  { clear Hp. induction Hs as [|w1 w2 w3 H1 H2 IH]; [done|]. by apply IH, (profiles_step_ok w1). }
  destruct (Hw id p Hp) as [_ Hl]. split; [done|]. by apply (load_blameless actor id p).
Qed.
End Progress.

(** ** Concrete profiles *)
Definition lab_node : Node :=
  MkNode "n1" "spark-1" "spark-1.lab" "10.0.0.7" Docker (FDec 128 0) (FDec 128 0) AgentOnline None None 0 None None None None None None "".
Definition lab_model : NodeModelInventory := MkInventory "n1" "org/model" "Q4_K_M" FormatGGUF InvPresent 1000 0 "".
Definition lab_store : World :=
  set_w_nodes {[ "n1" := lab_node ]} (set_w_inventory {[ ("n1", "org/model", "Q4_K_M", FormatGGUF) := lab_model ]} empty_world).
Definition root : Actor := MkActor true "" TierAdmin.
Definition form (params : list (string * json)) : Fields :=
  MkFields " my-model " "org/model" "llamacpp" (Raw (JObj params) false) None None "Q4_K_M" "gguf" None "n1" 8080.
Definition created (params : list (string * json)) : World := snd (@CreateProfile quiet_env root (form params) lab_store).
Definition row_of (w : World) : option (string * Profile) := head (map_to_list (w_profiles w)).

Definition made : World := created [("ctx_size", JInt 4096)].
Definition made_id : string := default "" (fst <$> row_of made).
Definition made_row : Profile := default
  (profile_row "" (columns (form []) FormatGGUF false) RawEmpty TopologySingleNode None 0 None 0) (snd <$> row_of made).
Lemma stored_profiles_load_witness :
  launchable made_row /\
  wp (@LoadInstance quiet_env root made_id) made (fun r _ => match r with Ok _ => True | Err e => bad_profile e = false end).
Proof.
  apply (@stored_profiles_load quiet_env _ lab_store made root made_id made_row).
  - apply rtc_once, (@step_create quiet_env lab_store root (form [("ctx_size", JInt 4096)])).
  - intros k p Hp. exfalso. vm_compute in Hp. discriminate.
  - vm_compute. reflexivity.
  - vm_compute. discriminate.
Defined.
(** The column reorders the keys of the object, and a decoder that ignores
    case lets the last one win: what was validated is not what is launched. *)
Example jsonb_reorders_params :
  let params := [("ctx_size", JInt (-5)); ("CTX_size", JInt 4096)] in
  is_ok (ValidateParams LlamaCPP.adapter (Raw (JObj params) false)) = true /\
  (fun ip => match BuildLaunchSpec LlamaCPP.adapter (EngineParams ip.2) "m" with Ok s => Args s | Err _ => [] end) <$> row_of (created params)
    = Some ["--ctx-size"; "-5"; "--alias"; "m"].
Proof. vm_compute. split; reflexivity. Qed.
