(* ===== verification/InventorySpec.v ===== *)
(** * What the model inventory promises

    Deleting a model copy, the node's answer, and the grouping of the read
    views. *)
From stdpp Require Import base list strings gmap.
From Stdlib Require Import ZArith Lia.
From Stdlib Require Import Ascii.
From Stdlib Require String.
From S2P Require Import Prelude Text Json Engines Db Rbac InstanceStore ProfileStore Wire NodeStore Inventory Profiles ProfilesSpec.
Local Open Scope string_scope.
Local Open Scope list_scope.
Local Open Scope Z_scope.

(** Who may manage the model store: the rule, with the override the table
    holds. *)
Definition store_manager (actor : Actor) (w : World) : bool :=
  CanManageModelStore actor (bool_decide (is_Some (w_overrides w !! (ActorUserID actor, CapabilityManageModelStore)))).

(** Everything but the log, the envelopes, the audit log and the deletes. *)
Definition beyond_deletes (w : World) : World :=
  set_w_deletes ∅ (set_w_audit [] (set_w_sent [] (set_w_logs [] (set_w_clock 0 (set_w_calls 0%N w))))).

Section Spec.
Context `{Env}.
Lemma wp_canManage `{!ForeignFaults} actor w (Q : result bool -> World -> Prop) :
  (forall e w', w_overrides w' = w_overrides w -> beyond_deletes w' = beyond_deletes w -> w_sent w' = w_sent w ->
     w_audit w' = w_audit w -> w_deletes w' = w_deletes w -> Q (Err e) w') ->
  (forall w', w_clock w <= w_clock w' -> beyond_deletes w' = beyond_deletes w -> w_sent w' = w_sent w ->
     w_audit w' = w_audit w -> w_deletes w' = w_deletes w -> Q (Ok (store_manager actor w)) w') ->
  wp (canManageModelStore actor) w Q.
Proof.
  intros He Hok. unfold store_manager in Hok. unfold canManageModelStore. apply wp_bind.
  destruct (negb (IsSuperAdmin actor) && bool_decide (ActorTier actor = TierPowerDev)) eqn:Et.
  - apply wp_bind, wp_attempt. unfold Get_override. apply wp_bind, wp_wrap, wp_query.
    + intros e Hf. cbn [errors_Is]. rewrite (fault_foreign _ _ _ Hf). apply wp_throw. by apply He.
    + intros _. change (w_overrides (bump w)) with (w_overrides w).
      assert (Hclk : w_clock w <= w_clock (bump w)) by (cbn; lia).
      destruct (w_overrides w !! _) as [g|]; [apply wp_ret, wp_ret, wp_ret|apply wp_throw; cbn; apply wp_ret, wp_ret]; by apply Hok.
  - apply wp_ret, wp_ret. match type of Hok with context [Ok ?b] => assert (Hc : CanManageModelStore actor false = b); [|rewrite Hc; apply Hok; done || lia] end.
    unfold CanManageModelStore. destruct (IsSuperAdmin actor); [done|]. cbn [negb andb] in Et.
    unfold is_tier. rewrite Et. by destruct (bool_decide _).
Qed.
Lemma wp_List_profiles w (Q : result (list Profile) -> World -> Prop) :
  (forall e, Q (Err e) (bump w)) -> Q (Ok (profiles_by_name w)) (bump w) -> wp List_profiles_db w Q.
Proof. intros He Hok. unfold List_profiles_db. apply wp_wrap, wp_query; [intros; apply He|intros _; exact Hok]. Qed.
Lemma wp_DeleteState n m q f w (Q : result (string * string) -> World -> Prop) :
  (forall st w', w_clock w <= w_clock w' -> beyond_deletes w' = beyond_deletes w -> w_sent w' = w_sent w -> w_audit w' = w_audit w ->
     (st.1 = DeleteRemoving -> exists d, w_deletes w !! deleteKey n m q f = Some d /\ ds_failed d = false) ->
     (forall d, w_deletes w !! deleteKey n m q f = Some d -> ds_failed d = false ->
        st.1 = DeleteRemoving \/ deleteStateTTL < w_clock w' - ds_at d) ->
     (w_deletes w' = w_deletes w \/ w_deletes w' = delete (deleteKey n m q f) (w_deletes w)) -> Q (Ok st) w') ->
  wp (DeleteState n m q f) w Q.
Proof.
  intros HQ. unfold DeleteState. apply wp_bind, wp_gets. destruct (w_deletes w !! _) as [d|] eqn:Ed.
  2: { apply wp_ret, HQ; try done. by left. }
  apply wp_bind, wp_time_now. assert (Hclk : w_clock w <= w_clock (bump w)) by (cbn; lia).
  destruct (deleteStateTTL <? _) eqn:Et; propb.
  - unfold clearDeleteState. apply wp_bind, wp_modify, wp_ret, HQ; try done; [|by right].
    intros d' [= <-] Hf. right. exact Et.
  - destruct (ds_failed d) eqn:Ef; apply wp_ret, HQ; try done.
    + intros d' Hd Hf. simplify_eq. congruence.
    + by left.
    + intros _. by exists d.
    + intros d' _ _. by left.
    + by left.
Qed.

(** Why a profile stands in the way of a delete. *)
Definition in_use (w : World) (n m q : string) (f : ModelFormat) : Prop :=
  exists k p, w_profiles w !! k = Some p /\ targets n m q f p = true.
Lemma find_target w n m q f :
  match List.find (targets n m q f) (profiles_by_name w) with
  | Some _ => in_use w n m q f | None => ~ in_use w n m q f end.
Proof.
  assert (Hin : forall p, p ∈ profiles_by_name w <-> exists k, w_profiles w !! k = Some p).
  { intros p. unfold profiles_by_name. rewrite elem_of_sort_by, list_elem_of_fmap. split.
    - intros ([k q'] & -> & Hk). exists k. by apply elem_of_map_to_list.
    - intros [k Hk]. exists (k, p). by rewrite elem_of_map_to_list. }
  destruct (List.find _ _) as [p|] eqn:E.
  - apply List.find_some in E as [Hp Ht]. apply list_elem_of_In, Hin in Hp as [k Hk]. by exists k, p.
  - intros (k & p & Hk & Ht). assert (Hp : p ∈ profiles_by_name w) by (apply Hin; by exists k).
    apply list_elem_of_In in Hp. pose proof (List.find_none _ _ E p Hp). congruence.
Qed.

(** A delete of the entry was sent no longer than 15 minutes ago and has not
    been answered. *)
Definition in_flight (w : World) (n m q : string) (f : ModelFormat) (now : Time) : Prop :=
  exists d, w_deletes w !! deleteKey n m q (format_string f) = Some d /\ ds_failed d = false /\ now - ds_at d <= deleteStateTTL.
Definition delete_message (m q : string) (f : ModelFormat) : Message := MDeleteModel m q (format_string f).
(** The delete message went out: to an actor who may, for an entry that is
    there, that no profile targets and no delete of which is in flight. *)
Definition dispatched (actor : Actor) (n m q : string) (f : ModelFormat) (w w' : World) : Prop :=
  store_manager actor w = true /\ (exists e, w_inventory w !! (n, m, q, f) = Some e /\ InvStatus e <> InvRemoved) /\
  ~ in_use w n m q f /\ ~ in_flight w n m q f (w_clock w') /\ w_sent w' = w_sent w ++ [(n, delete_message m q f)] /\
  exists t, w_clock w <= t <= w_clock w' /\ w_deletes w' !! deleteKey n m q (format_string f) = Some (MkDelete t false "").
Definition delete_outcome (actor : Actor) (n m q : string) (f : ModelFormat) (w : World) (r : result unit) (w' : World) : Prop :=
  beyond_deletes w' = beyond_deletes w /\
  match r with
  | Ok _ => dispatched actor n m q f w w' /\ audited "deleted_model_copy" w w'
  | Err e => w_audit w' = w_audit w /\
      (w_sent w' = w_sent w \/ dispatched actor n m q f w w' /\ exists e', e = Errorf "record audit: " e' "")
  end.
Lemma delete_model_ok `{!ForeignFaults} actor n m q f w : wp (Delete actor n m q f) w (delete_outcome actor n m q f w).
Proof.
  unfold Delete, delete_outcome. apply wp_bind, wp_canManage; [by intros e w1 _ Hb Hs Ha _; split_and!; [..|left]|].
  intros w1 Hclk1 Hb1 Hs1 Ha1 Hd1.
  assert (Hp1 : w_profiles w1 = w_profiles w) by exact (f_equal w_profiles Hb1).
  assert (Hi1 : w_inventory w1 = w_inventory w) by exact (f_equal w_inventory Hb1).
  apply wp_bind, wp_guard; intros Hperm; [|by split_and!; [..|left]].
  apply wp_bind, wp_Get_inventory; [by intros e _; split_and!; [..|left]|by intros _; split_and!; [..|left]|].
  intros entry He. rewrite Hi1 in He. apply wp_bind, wp_guard; intros Hrem; [|by split_and!; [..|left]]. propb.
  apply wp_bind, wp_DeleteState. intros st w2 Hclk2 Hb2 Hs2 Ha2 Hst Hfly Hd2.
  assert (Hb2' : beyond_deletes w2 = beyond_deletes w) by (rewrite Hb2; exact Hb1).
  assert (Hs2' : w_sent w2 = w_sent w) by (rewrite Hs2; exact Hs1).
  assert (Ha2' : w_audit w2 = w_audit w) by (rewrite Ha2; exact Ha1).
  assert (Hp2 : w_profiles w2 = w_profiles w) by exact (f_equal w_profiles Hb2').
  apply wp_bind, wp_guard; intros Hnot; [|by split_and!; [..|left]]. propb.
  assert (Hnofly : forall t, w_clock w2 <= t -> ~ in_flight w n m q f t).
  { intros t Ht (d & Hd & Hf & Hle). destruct (Hfly d) as [?|?]; [by change (w_deletes (bump w1)) with (w_deletes w1); rewrite Hd1|done|done|lia]. }
  clear Hfly Hst Hd2. apply wp_bind, wp_wrap, wp_List_profiles; [by intros e; split_and!; [..|left]|].
  pose proof (find_target w n m q f) as Htar.
  assert (Hpl : profiles_by_name w2 = profiles_by_name w) by (unfold profiles_by_name; by rewrite Hp2). rewrite Hpl.
  destruct (List.find _ _) as [p|]; [by apply wp_throw; split_and!; [..|left]|].
  apply wp_bind, wp_Connected. intros b _. apply wp_bind, wp_guard; intros _; [|by split_and!; [..|left]].
  apply wp_bind, wp_wrap, wp_NewEnvelope; intros; [by split_and!; [..|left]|].
  apply wp_bind, wp_wrap, wp_Send; intros; [by split_and!; [..|left]|].
  apply wp_bind, wp_time_now. unfold setDeleteState. apply wp_bind, wp_modify. set (now := w_clock _).
  assert (Hdisp : forall w', w_sent w' = w_sent w ++ [(n, delete_message m q f)] -> now <= w_clock w' ->
    w_deletes w' !! deleteKey n m q (format_string f) = Some (MkDelete now false "") -> dispatched actor n m q f w w').
  { assert (Hnow : w_clock w2 <= now) by (unfold now; cbn; lia). assert (Hw1 : w_clock w1 <= w_clock w2) by (cbn in Hclk2; lia).
    intros w' Hs' Hc' Hd'. split_and!; [done|by exists entry|done|apply Hnofly; lia|done|]. exists now. split; [lia|done]. }
  apply wp_wrap, wp_Record; [intros e _|intros _].
  - split; [exact Hb2'|]. split; [exact Ha2'|]. right. split; [|by eexists]. apply Hdisp; [cbn; by rewrite Hs2'|cbn; lia|cbn; by rewrite lookup_insert_eq].
  - split; [exact Hb2'|]. split; [|eexists; split; [cbn; by rewrite Ha2'|done]].
    apply Hdisp; [cbn; by rewrite Hs2'|cbn; lia|cbn; by rewrite lookup_insert_eq].
Qed.

(** A delete request that gets as far as the node was permitted (by tier,
    or by the override the table holds), names an entry that is there, that
    no profile targets and that is not already being deleted, and is one
    message to that node; it is audited and from then on shown as in flight,
    which refuses another.  One that fails is not audited and sends nothing,
    unless only its audit record could not be written.  The inventory itself
    waits for the node's answer. *)
Theorem Delete_spec `{!ForeignFaults} actor n m q f w :
  wp (Delete actor n m q f) w (delete_outcome actor n m q f w).
Proof. apply delete_model_ok. Qed.

(** ** The node's answer *)
Lemma length_cut n s : (String.length (cut n s) <= n)%nat.
Proof.
  unfold cut. destruct (Nat.ltb_spec n (String.length s)) as [_|?]; [|done]. rewrite length_of_bytes, length_take. lia.
Qed.
(** Everything but the inventory, the deletes, the log. *)
Definition beyond_answer (w : World) : World :=
  set_w_deletes ∅ (set_w_inventory ∅ (set_w_logs [] (set_w_clock 0 (set_w_calls 0%N w)))).
Definition removed_entry (n m q format : string) (w w' : World) : Prop :=
  exists f i, format_of format = Some f /\ w_inventory w !! (n, m, q, f) = Some i /\
    w_inventory w' = <[(n, m, q, f) := set_InvStatus InvRemoved i]> (w_inventory w).
Lemma wp_set_removed n m q format w (Q : result unit -> World -> Prop) :
  (forall e w', w_inventory w' = w_inventory w -> beyond_answer w' = beyond_answer w -> w_deletes w' = w_deletes w ->
     w_logs w' = w_logs w -> Q (Err e) w') ->
  (forall w', removed_entry n m q format w w' -> beyond_answer w' = beyond_answer w -> w_deletes w' = w_deletes w ->
     w_logs w' = w_logs w -> Q (Ok tt) w') ->
  wp (set_removed n m q format) w Q.
Proof.
  intros He Hok. unfold set_removed, removed_entry in *.
  destruct (format_of format) as [f|]; [|apply wp_wrap, wp_sql; intros; by apply He].
  unfold SetStatus_inventory. apply wp_bind, wp_wrap, wp_sql; [by intros; apply He|intros _].
  change (w_inventory (bump w)) with (w_inventory w). apply wp_guard; intros Hf.
  - apply bool_decide_eq_true in Hf as [i Hi]. apply Hok; try done. exists f, i. split_and!; [done|done|].
    cbn. apply map_eq. intros k. destruct (decide (k = (n, m, q, f))) as [->|Hk].
    + by rewrite lookup_alter_eq, Hi, lookup_insert_eq.
    + by rewrite lookup_alter_ne, lookup_insert_ne by done.
  - apply bool_decide_eq_false in Hf. apply He; try done. cbn. apply map_eq. intros k.
    destruct (decide (k = (n, m, q, f))) as [->|Hk]; [|by rewrite lookup_alter_ne by done].
    rewrite lookup_alter_eq. by destruct (w_inventory w !! _); [destruct Hf|].
Qed.

(** An answer settles the delete it names: a confirmed removal takes the
    delete off the page and marks the node's own entry removed, or a line is
    logged; a failure leaves the entry and is remembered with a reason of at
    most 200 bytes that is never empty.  An answer reaches no other entry and
    nothing else. *)
Theorem HandleDeleteModelResult_spec nodeID res w :
  let key := deleteKey nodeID (dm_ModelRef res) (dm_Quantization res) (dm_Format res) in
  wp (HandleDeleteModelResult nodeID (EDeleteModelResult (Ok res))) w (fun r w' =>
    r = Ok tt /\ beyond_answer w' = beyond_answer w /\ w_logs w `prefix_of` w_logs w' /\
    (forall k, k <> key -> w_deletes w' !! k = w_deletes w !! k) /\
    if dm_Success res then
      w_deletes w' !! key = None /\
      (removed_entry nodeID (dm_ModelRef res) (dm_Quantization res) (dm_Format res) w w' \/
       w_inventory w' = w_inventory w /\ w_logs w' <> w_logs w)
    else w_inventory w' = w_inventory w /\
      exists t reason, w_deletes w' !! key = Some (MkDelete t true reason) /\ reason <> "" /\ len reason <= 200).
Proof.
  cbv zeta. set (key := deleteKey _ _ _ _). unfold HandleDeleteModelResult. destruct (dm_Success res); cbn [negb]; fold key.
  - unfold clearDeleteState. apply wp_bind, wp_modify, wp_log_on_error, wp_set_removed.
    + intros e w' Hi Hb Hd Hl. cbn in Hl. split_and!; [done|exact Hb|cbn; rewrite Hl; by apply prefix_app_r| | |].
      * intros k Hk. cbn. rewrite Hd. cbn. by rewrite lookup_delete_ne by done.
      * cbn. rewrite Hd. cbn. apply lookup_delete_eq.
      * right. split; [exact Hi|]. cbn. rewrite Hl. intros E%(f_equal length). rewrite length_app in E. cbn in E. lia.
    + intros w' Hr Hb Hd Hl. split_and!; [done|exact Hb|by rewrite Hl| | |].
      * intros k Hk. rewrite Hd. cbn. by rewrite lookup_delete_ne by done.
      * rewrite Hd. cbn. apply lookup_delete_eq.
      * left. exact Hr.
  - apply wp_bind, wp_logf, wp_bind, wp_time_now. unfold setDeleteState. apply wp_modify.
    split_and!; [done|done|cbn; by apply prefix_app_r|intros k Hk; cbn; by rewrite lookup_insert_ne by done|done|].
    eexists _, _. split_and!; [cbn; by rewrite lookup_insert_eq|by case_bool_decide|].
    case_bool_decide; [by vm_compute|]. pose proof (length_cut maxFailureLen (dm_Reason res)). unfold len, maxFailureLen in *. lia.
Qed.
End Spec.

(** A delete in flight does not keep a profile from being made of the entry it
    removes: the check of [Delete] and the check of [CreateProfile] both pass,
    and the answer leaves the profile pointing at a removed entry. *)
Example delete_races_create :
  let w1 := snd (@Delete quiet_env root "n1" "org/model" "Q4_K_M" FormatGGUF lab_store) in
  let w2 := snd (@CreateProfile quiet_env root (form []) w1) in
  let w3 := snd (@HandleDeleteModelResult quiet_env "n1"
    (EDeleteModelResult (Ok (MkDeleteModelResult "org/model" "Q4_K_M" "gguf" true ""))) w2) in
  (InvStatus <$> w_inventory w3 !! ("n1", "org/model", "Q4_K_M", FormatGGUF),
   (fun ip => targets "n1" "org/model" "Q4_K_M" FormatGGUF ip.2) <$> row_of w3) = (Some InvRemoved, Some true).
Proof. vm_compute. reflexivity. Qed.

Lemma Delete_spec_witness : wp (@Delete quiet_env root "n1" "org/model" "Q4_K_M" FormatGGUF) lab_store
  (delete_outcome root "n1" "org/model" "Q4_K_M" FormatGGUF lab_store).
Proof. apply (@Delete_spec quiet_env _ root "n1" "org/model" "Q4_K_M" FormatGGUF lab_store). Defined.
