(* ===== verification/TransferStore.v ===== *)
(** * The model_transfers table ([internal/db/transfers.go]) *)
From stdpp Require Import base list strings gmap.
From Stdlib Require Import ZArith Lia.
From Stdlib Require Import Ascii.
From Stdlib Require String.
From S2P Require Import Prelude Text Json Db InstanceStore NodeStore.
Local Open Scope string_scope.
Local Open Scope list_scope.
Local Open Scope Z_scope.

Definition ErrModelTransferNotFound : error := Sentinel "db.ErrModelTransferNotFound" "model transfer not found".

(** The statuses as the text of the enum; an agent reports them as text. *)
Definition status_text (s : TransferStatus) : string :=
  match s with
  | TQueued => "queued" | TTransferring => "transferring" | TCompleted => "completed"
  | TFailed => "failed" | TCancelled => "cancelled"
  end.
Definition status_of (s : string) : option TransferStatus :=
  List.find (fun st => bool_decide (status_text st = s)) [TQueued; TTransferring; TCompleted; TFailed; TCancelled].
Definition isTerminalTransferStatus (s : TransferStatus) : bool :=
  match s with TCompleted | TFailed | TCancelled => true | _ => false end.

(** What Postgres takes as a [text] value: UTF-8 without NUL. *)
Definition text_ok (s : string) : bool :=
  forallb (fun c : Z * list ascii => negb (c.1 =? 0) && negb ((c.1 =? 65533) && Nat.eqb (length c.2) 1)) (chunks s).

Definition upd_transfer (id : string) (f : ModelTransfer -> ModelTransfer) (w : World) : World :=
  set_w_transfers (alter f id (w_transfers w)) w.
Definition progress_row (bytesTransferred bytesTotal : Z) (t : ModelTransfer) : ModelTransfer :=
  set_BytesTotal bytesTotal (set_BytesTransferred bytesTransferred t).
Definition transfer_status_row (now : Time) (status : TransferStatus) (msg : option string) (t : ModelTransfer) : ModelTransfer :=
  let t := set_TErrorMessage msg (set_TStatus status t) in
  if isTerminalTransferStatus status then set_CompletedAt (Some now) t else t.
Definition new_transfer (id destNodeID modelRef : string) (sourceType : TransferSourceType)
    (sourceNodeID quantization requestedBy : option string) (now : Time) : ModelTransfer :=
  MkTransfer id destNodeID modelRef sourceType sourceNodeID TQueued 0 0 quantization requestedBy now None None None None.

Section Repository.
Context `{Env}.
Definition scanModelTransfer (r : option ModelTransfer) : M ModelTransfer :=
  match r with Some t => mret t | None => throw ErrModelTransferNotFound end.
(** The [CHECK] on the source, then the references. *)
Definition source_matches (sourceType : TransferSourceType) (sourceNodeID : option string) : bool :=
  match sourceType, sourceNodeID with
  | SourcePeerNode, Some _ | SourceInternet, None => true
  | _, _ => false
  end.
Definition node_ref_ok (id : option string) (w : World) : bool :=
  match id with Some n => bool_decide (is_Some (w_nodes w !! n)) | None => true end.
Definition Create_transfer (destNodeID modelRef : string) (sourceType : TransferSourceType)
    (sourceNodeID quantization requestedBy : option string) : M ModelTransfer :=
  wrap "create model transfer: " (wrap "scan model transfer: " (sql (fun w =>
    let t := new_transfer (gen_random_uuid (w_calls w)) destNodeID modelRef sourceType sourceNodeID quantization requestedBy (w_clock w) in
    if negb (source_matches sourceType sourceNodeID) then inl (PgError "23514")
    else if bool_decide (is_Some (w_transfers w !! TransferID t)) then inl (PgError "23505")
    else if node_ref_ok (Some destNodeID) w && node_ref_ok sourceNodeID w && user_ref_ok requestedBy w
    then inr (t, set_w_transfers (<[TransferID t := t]> (w_transfers w)) w)
    else inl (PgError "23503")))).
Definition FindByID_transfer (id : string) : M ModelTransfer :=
  r ← wrap "scan model transfer: " (query (fun w => w_transfers w !! id)); scanModelTransfer r.
Definition UpdateProgress (id : string) (bytesTransferred bytesTotal : Z) : M unit :=
  wrap ("update model transfer progress for " +:+ id +:+ ": ") (exec (upd_transfer id (progress_row bytesTransferred bytesTotal))).
Definition SetSourceInterface (id : string) (interfaceName : option string) : M unit :=
  wrap ("set source interface for model transfer " +:+ id +:+ ": ") (exec (upd_transfer id (set_TSourceInterface interfaceName))).
Definition SetFormat (id : string) (format : option ModelFormat) : M unit :=
  wrap ("set format for model transfer " +:+ id +:+ ": ") (exec (upd_transfer id (set_TFormat format))).
(** The status is the text it is written with: one the enum does not have, or
    a message that is no text, is refused. *)
Definition SetStatus_transfer (id status : string) (errorMessage : option string) : M unit :=
  wrap ("set status for model transfer " +:+ id +:+ ": ") (sql (fun w =>
    match status_of status with
    | None => inl (PgError "22P02")
    | Some st =>
        if match errorMessage with Some m => text_ok m | None => true end
        then inr (tt, upd_transfer id (transfer_status_row (w_clock w) st errorMessage) w)
        else inl (PgError "22021")
    end)).
Definition newest_first (a b : ModelTransfer) : bool := RequestedAt b <=? RequestedAt a.
Definition List_transfers_db : M (list ModelTransfer) :=
  wrap "list model transfers: " (query (fun w => sort_by newest_first (map snd (map_to_list (w_transfers w))))).
Definition ListByDestNode (destNodeID : string) : M (list ModelTransfer) :=
  wrap ("list model transfers for node " +:+ destNodeID +:+ ": ") (query (fun w =>
    sort_by newest_first (List.filter (fun t => bool_decide (DestNodeID t = destNodeID)) (map snd (map_to_list (w_transfers w)))))).
End Repository.

Lemma status_of_text s : status_of (status_text s) = Some s.
Proof. by destruct s. Qed.

Section Wp.
Context `{Env}.
Lemma wp_FindByID_transfer id w (Q : result ModelTransfer -> World -> Prop) :
  (forall e, Q (Err e) (bump w)) -> (forall t, w_transfers w !! id = Some t -> Q (Ok t) (bump w)) -> wp (FindByID_transfer id) w Q.
Proof.
  intros He Hok. unfold FindByID_transfer. apply wp_bind, wp_wrap, wp_query; [intros; apply He|intros _].
  change (w_transfers (bump w)) with (w_transfers w). unfold scanModelTransfer.
  destruct (w_transfers w !! id); [apply wp_ret; auto|apply wp_throw; auto].
Qed.
Lemma wp_SetStatus_transfer id status msg w (Q : result unit -> World -> Prop) :
  (forall e, Q (Err e) (bump w)) ->
  (forall st, status_of status = Some st ->
    Q (Ok tt) (upd_transfer id (transfer_status_row (w_clock (bump w)) st msg) (bump w))) ->
  wp (SetStatus_transfer id status msg) w Q.
Proof.
  intros He Hok. unfold SetStatus_transfer. apply wp_wrap, wp_sql; [intros; apply He|intros _].
  destruct (status_of status) as [st|]; [|apply He]. destruct (match msg with Some m => _ | None => _ end); [by apply Hok|apply He].
Qed.
Lemma wp_upd_transfer pre id f w (Q : result unit -> World -> Prop) :
  (forall e, Q (Err e) (bump w)) -> Q (Ok tt) (upd_transfer id f (bump w)) -> wp (wrap pre (exec (upd_transfer id f))) w Q.
Proof. intros He Hok. apply wp_wrap, wp_exec; [intros; apply He|intros _; exact Hok]. Qed.
Lemma wp_Create_transfer d m st src q by_ w (Q : result ModelTransfer -> World -> Prop) :
  (forall e, Q (Err e) (bump w)) ->
  (forall t, t = new_transfer (TransferID t) d m st src q by_ (w_clock (bump w)) -> w_transfers w !! TransferID t = None ->
     is_Some (w_nodes w !! d) ->
     Q (Ok t) (set_w_transfers (<[TransferID t := t]> (w_transfers w)) (bump w))) ->
  wp (Create_transfer d m st src q by_) w Q.
Proof.
  intros He Hok. unfold Create_transfer. apply wp_wrap, wp_wrap, wp_sql; [intros; apply He|intros _].
  cbv zeta. set (t := new_transfer _ _ _ _ _ _ _ _). destruct (negb _); [apply He|].
  change (w_transfers (bump w)) with (w_transfers w). case_bool_decide as Hn; [apply He|].
  destruct (node_ref_ok (Some d) (bump w) && _ && _) eqn:E; [|apply He]. propb.
  apply Hok; [done|by apply eq_None_not_Some|]. unfold node_ref_ok in *. by propb.
Qed.
End Wp.
