(* ===== verification/Transfers.v ===== *)
(** * Model transfers ([internal/transfers])

    Downloads and copies between nodes: starting, cancelling and retrying
    them, the progress agents report, the authorization a peer copy needs and
    the reachability check before it. *)
From stdpp Require Import base list strings gmap.
From Stdlib Require Import ZArith Lia.
From Stdlib Require Import Ascii.
From Stdlib Require String.
From S2P Require Import Prelude Text Json Db Rbac InstanceStore Wire NodeStore NodeToken NetIP Nodes Inventory TransferStore.
Local Open Scope string_scope.
Local Open Scope list_scope.
Local Open Scope Z_scope.

(** ** [transfers.go] *)
Definition ErrInvalidTransfer : error := Sentinel "transfers.ErrInvalidTransfer" "invalid model transfer".
Definition ErrDestNodeOffline : error := Sentinel "transfers.ErrDestNodeOffline" "destination node is not connected".
Definition ErrNotRetryable : error := Sentinel "transfers.ErrNotRetryable" "only a failed transfer can be retried".
Definition ErrNotCancelable : error := Sentinel "transfers.ErrNotCancelable" "this transfer has already finished".
Definition ErrSourceNodeOffline : error := Sentinel "transfers.ErrSourceNodeOffline" "source node is not connected".
Definition ErrSourceNotPresent : error := Sentinel "transfers.ErrSourceNotPresent" "source node does not have that model".
Definition ErrPeerNotReady : error := Sentinel "transfers.ErrPeerNotReady" "peer transfer prerequisites not met".
(** The source type and the format are the texts of the form. *)
Record InitiateTransferParams := MkInitiate {
  it_DestNodeID : string; it_ModelRef : string; it_SourceType : string; it_SourceNodeID : string; it_Format : string;
  it_SourceInterface : string; it_RetryOf : string; it_Quantization : string
}.
Definition source_internet : string := "internet".
Definition source_peer_node : string := "peer_node".
Definition source_text (s : TransferSourceType) : string :=
  match s with SourceInternet => source_internet | SourcePeerNode => source_peer_node end.
Definition invalid_transfer (reason : string) : error := Errorf "" ErrInvalidTransfer (": " +:+ reason).
(** What the request asks for: a download, or a copy in a format. *)
Inductive request := Download | Copy (format : ModelFormat).
Definition validate (p : InitiateTransferParams) : result request :=
  if bool_decide (it_DestNodeID p = "") then Err (invalid_transfer "dest_node_id is required")
  else if bool_decide (it_ModelRef p = "") then Err (invalid_transfer "model_ref is required")
  else if bool_decide (it_SourceType p = "") || bool_decide (it_SourceType p = source_internet) then Ok Download
  else if bool_decide (it_SourceType p = source_peer_node) then
    if bool_decide (it_SourceNodeID p = "") then Err (invalid_transfer "source_node_id is required for a peer transfer")
    else if bool_decide (it_SourceNodeID p = it_DestNodeID p) then Err (invalid_transfer "source and destination must be different nodes")
    else match format_of (it_Format p) with
    | Some f => Ok (Copy f)
    | None => Err (invalid_transfer "format must be safetensors or gguf for a peer transfer")
    end
  else Err (invalid_transfer ("unknown source_type " +:+ quote (it_SourceType p))).

(** ** [service.go] *)
Definition nonempty (s : string) : option string := if bool_decide (s = "") then None else Some s.
Definition isTerminal : TransferStatus -> bool := isTerminalTransferStatus.
(** [inventoryKey] *)
Definition inventoryKey (t : ModelTransfer) : string * ModelFormat :=
  let quantization := default "" (TQuantization t) in
  let format := if bool_decide (quantization = "") then FormatSafetensors else FormatGGUF in
  (quantization, default format (TFormat t)).
Definition retry_detail (retryOf : string) (d : gmap string DVal) : gmap string DVal :=
  if bool_decide (retryOf = "") then d else <["retry_of" := DStr retryOf]> d.
Definition boundedReason (s : string) : string := cut 200 s.
(** The text a Go panic on a nil pointer carries. *)
Definition nil_dereference : error :=
  Sentinel "runtime.panic" "runtime error: invalid memory address or nil pointer dereference".

(** ** [peer.go] *)
Definition peerSSHPort : Z := 22.
Definition maxDestIPs : nat := 16.
Record peerPlan := MkPlan { plan_dest : Node; plan_source : Node; plan_src : TransferSource; plan_destIPs : string }.
(** The closure [add], over the addresses in turn. *)
Definition add_ip (ips : list string) (raw : string) : list string :=
  match ParseIP raw with
  | None => ips
  | Some ip => if bool_decide (IP_String ip ∈ ips) || Nat.leb maxDestIPs (length ips) then ips else ips ++ [IP_String ip]
  end.
Definition dest_ips (ifaces : list NodeNetworkInterface) (dest : Node) : list string :=
  fold_left add_ip (map IfIPAddress ifaces ++ [NodeIPAddress dest]) [].
Definition set_key (k : option string) : option string := k ≫= nonempty.
Definition no_identity (dest : Node) : error :=
  Errorf "" ErrPeerNotReady (": destination node " +:+ quote (NodeName dest)
    +:+ " has not reported an SSH identity (run sparky-agent setup and restart the agent)").
Definition no_host_key (source : Node) : error :=
  Errorf "" ErrPeerNotReady (": source node " +:+ quote (NodeName source) +:+ " has not reported an sshd host key").
Definition no_address (dest : Node) : error :=
  Errorf "" ErrPeerNotReady (": destination node " +:+ quote (NodeName dest) +:+ " has no known IP address").
Definition interface_error (e : error) : bool :=
  errors_Is e "nodes.ErrNoInterfaces" || errors_Is e "nodes.ErrUnknownInterface".

Section Service.
Context `{Env} `{RandomSource}.

Definition CanInitiateTransfer (actor : Actor) : M bool := canManageModelStore actor.

(** [planPeer], with the destination's key and the source's host key it has
    checked to be there. *)
Definition planPeer (destNodeID sourceNodeID override : string) : M (peerPlan * string * string) :=
  dest ← wrap "look up destination node: " (GetNode destNodeID);
  source ← wrap "look up source node: " (GetNode sourceNodeID);
  match set_key (NodeSSHPublicKey dest) with
  | None => throw (no_identity dest)
  | Some destKey =>
      match set_key (NodeSSHHostPublicKey source) with
      | None => throw (no_host_key source)
      | Some hostKey =>
          src ← map_err (fun e => if interface_error e
                  then Errorf "" ErrPeerNotReady (": source node " +:+ quote (NodeName source) +:+ ": " +:+ error_text e)
                  else Errorf "resolve source interface: " e "") (ResolveTransferSource sourceNodeID override);
          ifaces ← wrap "list destination interfaces: " (ListInterfaces destNodeID);
          let ips := dest_ips ifaces dest in
          guard_err (negb (bool_decide (ips = []))) (no_address dest);;
          mret (MkPlan dest source src (join "," ips), destKey, hostKey)
      end
  end.

Definition sendCancel (nodeID transferID : string) : M unit :=
  connected ← Connected nodeID;
  if negb connected then logf "transfers: node %s is offline - cancelled transfer %s will be stopped if it reports activity"
  else
    r ← attempt (NewEnvelope (MCancelTransfer transferID));
    match r with
    | Err _ => logf "transfers: build cancel_transfer for %s: %v"
    | Ok env => log_on_error "transfers: dispatch cancel_transfer for %s to node %s: %v" (Send nodeID env)
    end.
(** The source a transfer is authorized at. *)
Definition peer_source (t : ModelTransfer) : option string :=
  match TSourceType t with SourcePeerNode => TSourceNodeID t | SourceInternet => None end.
Definition revokePeer (t : ModelTransfer) : M unit :=
  match peer_source t with
  | None => mret tt
  | Some source =>
      connected ← Connected source;
      if negb connected then mret tt
      else
        r ← attempt (NewEnvelope (MRevokePeerPull (TransferID t)));
        match r with
        | Err _ => logf "transfers: build revoke_peer_pull for %s: %v"
        | Ok env => log_on_error "transfers: dispatch revoke_peer_pull for %s: %v" (Send source env)
        end
  end.
Definition failPeer (t : ModelTransfer) (message : string) : M unit :=
  log_on_error "transfers: mark transfer %s failed: %v" (SetStatus_transfer (TransferID t) (status_text TFailed) (Some message));;
  revokePeer t.
(** [recordIncomplete] *)
Definition recordIncomplete (t : ModelTransfer) (bytes : Z) : M unit :=
  let '(quantization, format) := inventoryKey t in
  r ← attempt (Get_inventory (DestNodeID t) (TModelRef t) quantization format);
  let file := log_on_error "transfers: record incomplete %s on node %s: %v"
    (Upsert_inventory (DestNodeID t) (TModelRef t) quantization format InvIncomplete bytes (TransferID t)) in
  match r with
  | Ok existing =>
      if bool_decide (InvStatus existing = InvPresent) || bool_decide (InvStatus existing = InvStale) then mret tt else file
  | Err e => if errors_Is e "db.ErrNodeModelInventoryNotFound" then file
             else logf "transfers: look up inventory for incomplete %s on node %s: %v"
  end.

(** An error handler that fails the transfer and returns the error wrapped. *)
Definition or_fail {A} (t : ModelTransfer) (message pre : string) (m : M A) : M A :=
  r ← attempt m;
  match r with
  | Ok a => mret a
  | Err e => failPeer t message;; throw (Errorf pre e "")
  end.
Definition peer_detail (t : ModelTransfer) (source : string) (quantization format : string) : gmap string DVal :=
  <["dest_node_id" := DStr (DestNodeID t)]> (<["model_ref" := DStr (TModelRef t)]>
    (<["source_type" := DStr source_peer_node]> (<["source_node_id" := DStr source]>
      (<["quantization" := DStr quantization]> {[ "format" := DStr format ]})))).
Definition initiatePeer (actor : Actor) (params : InitiateTransferParams) (format : ModelFormat) : M ModelTransfer :=
  dest_up ← Connected (it_DestNodeID params);
  guard_err dest_up ErrDestNodeOffline;;
  source_up ← Connected (it_SourceNodeID params);
  guard_err source_up ErrSourceNodeOffline;;
  entry ← map_err (fun e => if errors_Is e "db.ErrNodeModelInventoryNotFound" then ErrSourceNotPresent
                            else Errorf "check source inventory: " e "")
            (Get (it_SourceNodeID params) (it_ModelRef params) (it_Quantization params) format);
  guard_err (bool_decide (InvStatus entry = InvPresent)) ErrSourceNotPresent;;
  plan ← planPeer (it_DestNodeID params) (it_SourceNodeID params) (it_SourceInterface params);
  t ← wrap "create model transfer: " (Create_transfer (it_DestNodeID params) (it_ModelRef params) SourcePeerNode
        (Some (it_SourceNodeID params)) (nonempty (it_Quantization params)) (actor_id actor));
  or_fail t "could not record transfer format" "record transfer format: " (SetFormat (TransferID t) (Some format));;
  let t := set_TFormat (Some format) t in
  (if bool_decide (it_SourceInterface params = "") then mret tt
   else or_fail t "could not record source interface" "record source interface: "
     (SetSourceInterface (TransferID t) (Some (it_SourceInterface params))));;
  let t := set_TSourceInterface (nonempty (it_SourceInterface params)) t in
  env ← or_fail t "could not build authorization request" "build authorize_peer_pull envelope: "
    (NewEnvelope (MAuthorizePeerPull (MkAuthorizePeerPull (TransferID t) plan.1.2 (plan_destIPs plan.1.1) (TModelRef t)
       (it_Quantization params) (format_string format))));
  or_fail t "could not reach the source node" ("dispatch authorize_peer_pull to node " +:+ it_SourceNodeID params +:+ ": ")
    (Send (it_SourceNodeID params) env);;
  wrap "record audit: " (Record_ (actor_id actor) (IsSuperAdmin actor) "initiated_transfer" "model_transfer" (TransferID t)
    (Some (retry_detail (it_RetryOf params)
      (peer_detail t (it_SourceNodeID params) (it_Quantization params) (format_string format)))));;
  mret t.
Definition download (actor : Actor) (params : InitiateTransferParams) : M ModelTransfer :=
  connected ← Connected (it_DestNodeID params);
  guard_err connected ErrDestNodeOffline;;
  t ← wrap "create model transfer: " (Create_transfer (it_DestNodeID params) (it_ModelRef params) SourceInternet None
        (nonempty (it_Quantization params)) (actor_id actor));
  env ← wrap "build start_transfer envelope: "
    (NewEnvelope (MStartTransfer (TransferID t) (TModelRef t) (default "" (TQuantization t))));
  wrap ("dispatch start_transfer to node " +:+ it_DestNodeID params +:+ ": ") (Send (it_DestNodeID params) env);;
  wrap "record audit: " (Record_ (actor_id actor) (IsSuperAdmin actor) "initiated_transfer" "model_transfer" (TransferID t)
    (Some (retry_detail (it_RetryOf params)
      (<["dest_node_id" := DStr (DestNodeID t)]> {[ "model_ref" := DStr (TModelRef t) ]}))));;
  mret t.
Definition InitiateTransfer (actor : Actor) (params : InitiateTransferParams) : M ModelTransfer :=
  permitted ← canManageModelStore actor;
  guard_err permitted ErrNotPermitted;;
  req ← lift (validate params);
  match req with Copy format => initiatePeer actor params format | Download => download actor params end.

Definition cancel_detail (t : ModelTransfer) : gmap string DVal :=
  <["dest_node_id" := DStr (DestNodeID t)]> (<["model_ref" := DStr (TModelRef t)]>
    {[ "previous_status" := DStr (status_text (TStatus t)) ]}).
Definition CancelTransfer (actor : Actor) (transferID : string) : M unit :=
  permitted ← canManageModelStore actor;
  guard_err permitted ErrNotPermitted;;
  t ← FindByID_transfer transferID;
  guard_err (negb (isTerminal (TStatus t))) ErrNotCancelable;;
  wrap "mark transfer cancelled: " (SetStatus_transfer (TransferID t) (status_text TCancelled) None);;
  sendCancel (DestNodeID t) (TransferID t);;
  revokePeer t;;
  when (bool_decide (TStatus t = TTransferring)) (recordIncomplete t (BytesTransferred t));;
  wrap "record audit: " (Record_ (actor_id actor) (IsSuperAdmin actor) "cancelled_transfer" "model_transfer" (TransferID t)
    (Some (cancel_detail t))).
(** The parameters a failed transfer is run with again. *)
Definition retry_params (t : ModelTransfer) : result InitiateTransferParams :=
  let quantization := default "" (TQuantization t) in
  match TSourceType t with
  | SourceInternet => Ok (MkInitiate (DestNodeID t) (TModelRef t) source_internet "" "" "" (TransferID t) quantization)
  | SourcePeerNode =>
      match TSourceNodeID t, TFormat t with
      | Some source, Some format =>
          Ok (MkInitiate (DestNodeID t) (TModelRef t) source_peer_node source (format_string format)
            (default "" (TSourceInterface t)) (TransferID t) quantization)
      | _, _ => Err (invalid_transfer "the failed transfer has no recorded source or format")
      end
  end.
Definition RetryTransfer (actor : Actor) (transferID : string) : M ModelTransfer :=
  permitted ← canManageModelStore actor;
  guard_err permitted ErrNotPermitted;;
  t ← FindByID_transfer transferID;
  guard_err (bool_decide (TStatus t = TFailed)) ErrNotRetryable;;
  params ← lift (retry_params t);
  InitiateTransfer actor params.
Definition ListTransfers : M (list ModelTransfer) := wrap "list transfers: " List_transfers_db.

(** ** What agents report *)
Definition log_store_inventory : string := "transfers: upsert inventory for node %s model %s: %v".
(** What a reported status that is stored sets off. *)
Definition settle (nodeID : string) (t : ModelTransfer) (p : TransferProgress) : M unit :=
  let said s := bool_decide (tp_Status p = status_text s) in
  when (said TCompleted || said TFailed || said TCancelled) (revokePeer t);;
  when (said TFailed && (0 <? tp_BytesTransferred p)) (recordIncomplete t (tp_BytesTransferred p));;
  if negb (said TCompleted) then mret tt
  else
    let '(quantization, format) := inventoryKey t in
    log_on_error log_store_inventory
      (Upsert_inventory nodeID (TModelRef t) quantization format InvPresent (tp_BytesTotal p) (TransferID t)).
(** From a progress report of a running transfer's destination on. *)
Definition apply_progress (nodeID : string) (t : ModelTransfer) (p : TransferProgress) : M unit :=
  log_on_error "transfers: update progress for transfer %s: %v"
    (UpdateProgress (tp_TransferID p) (tp_BytesTransferred p) (tp_BytesTotal p));;
  r ← attempt (SetStatus_transfer (tp_TransferID p) (tp_Status p) (nonempty (tp_ErrorMessage p)));
  match r with
  | Err _ => logf "transfers: set status for transfer %s: %v"
  | Ok _ => settle nodeID t p
  end.
Definition HandleTransferProgress (nodeID : string) (env : Envelope) : M unit :=
  match env with
  | ETransferProgress (Err _) => logf "transfers: node %s sent a malformed transfer_progress: %v"
  | ETransferProgress (Ok p) =>
      r ← attempt (FindByID_transfer (tp_TransferID p));
      match r with
      | Err _ => logf "transfers: progress for unknown transfer %s from node %s: %v"
      | Ok t =>
          if negb (bool_decide (DestNodeID t = nodeID)) then
            logf "transfers: ignoring progress for transfer %s from node %s - not its destination"
          else if isTerminal (TStatus t) then
            when (bool_decide (TStatus t = TCancelled) && bool_decide (tp_Status p = status_text TTransferring))
              (sendCancel nodeID (TransferID t))
          else apply_progress nodeID t p
      end
  | _ => mret tt
  end.

(** Once the source has accepted: the start request to the destination. *)
Definition start_pull (nodeID : string) (t : ModelTransfer) : M unit :=
  r ← attempt (planPeer (DestNodeID t) nodeID (default "" (TSourceInterface t)));
  match r with
  | Err e => failPeer t (error_text e)
  | Ok (plan, _, hostKey) =>
      connected ← Connected (DestNodeID t);
      if negb connected then failPeer t "destination node disconnected before the transfer could start"
      else match TFormat t with
      | None => throw nil_dereference
      | Some format =>
          let start := MkStartPeerTransfer (TransferID t) nodeID (src_IPAddress (plan_src plan)) peerSSHPort hostKey
            (TModelRef t) (default "" (TQuantization t)) (format_string format) in
          r ← attempt (NewEnvelope (MStartPeerTransfer start));
          match r with
          | Err _ => failPeer t "could not build the start request"
          | Ok env =>
              r ← attempt (Send (DestNodeID t) env);
              match r with
              | Ok _ => mret tt
              | Err _ => logf "transfers: dispatch start_peer_transfer for %s: %v";; failPeer t "could not reach the destination node"
              end
          end
      end
  end.
Definition awaits (nodeID : string) (t : ModelTransfer) : bool :=
  bool_decide (peer_source t = Some nodeID) && bool_decide (TStatus t = TQueued).
Definition HandlePeerAuthorizeResult (nodeID : string) (env : Envelope) : M unit :=
  match env with
  | EPeerAuthorizeResult (Err _) => logf "transfers: node %s sent a malformed peer_authorize_result: %v"
  | EPeerAuthorizeResult (Ok res) =>
      r ← attempt (FindByID_transfer (pa_TransferID res));
      match r with
      | Err _ => logf "transfers: peer_authorize_result from node %s for unknown transfer %s: %v"
      | Ok t =>
          if negb (awaits nodeID t) then
            logf "transfers: ignoring peer_authorize_result from node %s for transfer %s (not its queued source)"
          else if negb (pa_Accepted res) then failPeer t ("source node declined the pull: " +:+ boundedReason (pa_Reason res))
          else start_pull nodeID t
      end
  | _ => mret tt
  end.

(** ** Reachability checks *)

(** [checkRetention], ten minutes in nanoseconds. *)
Definition checkRetention : Z := 10 * 60 * 1000000000.
Definition check_add (id destNodeID : string) : M unit :=
  now ← time_now;
  modify (fun w => set_w_checks (<[id := MkCheck destNodeID now None]>
    (filter (fun kc : string * pendingCheck => ¬ (checkRetention < now - ck_created kc.2)) (w_checks w))) w).
Definition check_complete (id fromNodeID : string) (res : ConnectivityResult) : M bool :=
  c ← gets (fun w => w_checks w !! id);
  match c with
  | None => mret false
  | Some c =>
      if negb (bool_decide (ck_destNodeID c = fromNodeID)) || bool_decide (is_Some (ck_result c)) then mret false
      else modify (fun w => set_w_checks (<[id := MkCheck (ck_destNodeID c) (ck_created c) (Some res)]> (w_checks w)) w);; mret true
  end.
Definition GetConnectivityResult (checkID : string) : M (option (option ConnectivityResult)) :=
  gets (fun w => ck_result <$> w_checks w !! checkID).
Definition CheckConnectivity (actor : Actor) (destNodeID sourceNodeID sourceInterface : string) : M string :=
  permitted ← canManageModelStore actor;
  guard_err permitted ErrNotPermitted;;
  guard_err (negb (bool_decide (destNodeID = "") || bool_decide (sourceNodeID = "") || bool_decide (destNodeID = sourceNodeID)))
    (invalid_transfer "a destination and a different source node are required");;
  connected ← Connected destNodeID;
  guard_err connected ErrDestNodeOffline;;
  src ← map_err (fun e => if interface_error e then Errorf "" ErrPeerNotReady (": " +:+ error_text e)
                          else Errorf "resolve source interface: " e "") (ResolveTransferSource sourceNodeID sourceInterface);
  raw ← wrap "generate check id: " (query (fun w => random_bytes (w_calls w) 16));
  let checkID := of_bytes (hex_encode raw) in
  check_add checkID destNodeID;;
  env ← wrap "build check_peer_connectivity envelope: "
    (NewEnvelope (MCheckPeerConnectivity checkID (src_IPAddress src) peerSSHPort));
  wrap ("dispatch check_peer_connectivity to node " +:+ destNodeID +:+ ": ") (Send destNodeID env);;
  mret checkID.
Definition HandleConnectivityCheckResult (nodeID : string) (env : Envelope) : M unit :=
  match env with
  | EConnectivityCheckResult (Err _) => logf "transfers: node %s sent a malformed connectivity_check_result: %v"
  | EConnectivityCheckResult (Ok r) =>
      done_ ← check_complete (cc_CheckID r) nodeID (MkConnectivity (cc_Reachable r) (cc_LatencyMs r) (boundedReason (cc_Reason r)));
      when (negb done_)
        (logf "transfers: ignoring connectivity_check_result %q from node %s (unknown, foreign, or already answered)")
  | _ => mret tt
  end.
End Service.
