(* ===== verification/TransfersSpec.v ===== *)
(** * What model transfers promise

    A finished transfer never changes again, a usable inventory entry is never
    lost to a failed one, and only the destination of a running transfer can
    move it on. *)
From stdpp Require Import base list strings gmap relations.
From Stdlib Require Import ZArith Lia.
From Stdlib Require Import Ascii.
From Stdlib Require String.
From S2P Require Import Prelude Text Json Db Rbac InstanceStore ProfileStore Wire NodeStore NodeToken NetIP Nodes Inventory Profiles ProfilesSpec InventorySpec TransferStore Transfers.
Local Open Scope string_scope.
Local Open Scope list_scope.
Local Open Scope Z_scope.

(** ** One operation touches one transfer *)
Definition moved (w : World) := (w_transfers w, w_inventory w).
Definition keys_ok (w : World) : Prop := forall k t, w_transfers w !! k = Some t -> TransferID t = k.
(** An entry a profile can run or another node can copy. *)
Definition usable (i : NodeModelInventory) : bool := bool_decide (InvStatus i = InvPresent) || bool_decide (InvStatus i = InvStale).
Definition usable_kept (w w' : World) : Prop :=
  forall k i, w_inventory w !! k = Some i -> usable i = true -> exists i', w_inventory w' !! k = Some i' /\ usable i' = true.
Definition step_at (id : string) (w w' : World) : Prop :=
  (forall k, k <> id -> w_transfers w' !! k = w_transfers w !! k) /\ usable_kept w w' /\ (keys_ok w -> keys_ok w').
#[export] Instance step_at_preorder id : PreOrder (step_at id).
Proof.
  split.
  - intros w. split_and!; [done|by intros k i Hk Hu; exists i|done].
  - intros w1 w2 w3 (H1 & H2 & H3) (G1 & G2 & G3). split_and!; [|intros k i Hk Hu|auto].
    + intros k Hk. by rewrite G1, H1.
    + destruct (H2 k i Hk Hu) as (j & Hj & Hju). by apply (G2 k j).
Qed.
Lemma step_moved id w w' : moved w' = moved w -> step_at id w w'.
Proof.
  intros [= Ht Hi]. split_and!; [by rewrite Ht| |].
  - intros k i Hk Hu. exists i. by rewrite Hi.
  - intros Hok k t. rewrite Ht. apply Hok.
Qed.
Lemma step_upd id f w : (forall t, TransferID (f t) = TransferID t) -> step_at id w (upd_transfer id f w).
Proof.
  intros Hf. split_and!; [intros k Hk; cbn; by rewrite lookup_alter_ne|by intros k i Hk Hu; exists i|].
  intros Hok k t. cbn. destruct (decide (k = id)) as [->|Hk]; [|rewrite lookup_alter_ne by done; apply Hok].
  rewrite lookup_alter_eq. destruct (w_transfers w !! id) as [t0|] eqn:E; [|done]. intros [= <-]. rewrite Hf. by apply Hok.
Qed.

#[local] Hint Extern 5 (Evolves (step_at _) _) => (eapply evolves_preserves; [apply step_moved | apply _]) : typeclass_instances.
Section Steps.
Context `{Env} `{RandomSource} `{!ForeignFaults}.
#[local] Instance sendCancel_moved n id : Preserves moved (sendCancel n id).
Proof. unfold sendCancel. apply _. Qed.
#[local] Instance revokePeer_moved t : Preserves moved (revokePeer t).
Proof. unfold revokePeer. apply _. Qed.
#[local] Instance Get_inventory_moved n m q f : Preserves moved (Get_inventory n m q f).
Proof. unfold Get_inventory, scan_inventory. apply _. Qed.
#[local] Instance FindByID_node_moved id : Preserves moved (FindByID_node id).
Proof. unfold FindByID_node, scanNode. apply _. Qed.
#[local] Instance ListByNode_moved id : Preserves moved (ListByNode_interfaces id).
Proof. unfold ListByNode_interfaces. apply _. Qed.
#[local] Instance Resolve_moved n o : Preserves moved (ResolveTransferSource n o).
Proof. unfold ResolveTransferSource. apply _. Qed.
#[local] Instance planPeer_moved d s o : Preserves moved (planPeer d s o).
Proof. unfold planPeer, GetNode, ListInterfaces. apply _. Qed.
#[local] Instance canManage_moved a : Preserves moved (canManageModelStore a).
Proof. unfold canManageModelStore, Get_override. apply _. Qed.
#[local] Instance FindByID_transfer_moved id : Preserves moved (FindByID_transfer id).
Proof. unfold FindByID_transfer, scanModelTransfer. apply _. Qed.

Lemma evolves_sql {A} id (g : World -> error + (A * World)) :
  (forall w, match g w with inl _ => True | inr (_, w2) => step_at id w w2 end) -> Evolves (step_at id) (sql g).
Proof.
  intros Hg w. unfold sql. assert (Hb : step_at id w (bump w)) by by apply step_moved.
  destruct (fault (w_calls w)); [exact Hb|]. specialize (Hg (bump w)).
  destruct (g (bump w)) as [e|[a w2]]; simpl; [exact Hb|]. by etransitivity.
Qed.
#[local] Instance UpdateProgress_step id a b : Evolves (step_at id) (UpdateProgress id a b).
Proof. unfold UpdateProgress. apply evolves_wrap, evolves_sql. intros w. by apply step_upd. Qed.
#[local] Instance SetFormat_step id f : Evolves (step_at id) (SetFormat id f).
Proof. unfold SetFormat. apply evolves_wrap, evolves_sql. intros w. by apply step_upd. Qed.
#[local] Instance SetSourceInterface_step id n : Evolves (step_at id) (SetSourceInterface id n).
Proof. unfold SetSourceInterface. apply evolves_wrap, evolves_sql. intros w. by apply step_upd. Qed.
Lemma transfer_status_row_id now st msg t : TransferID (transfer_status_row now st msg t) = TransferID t.
Proof. unfold transfer_status_row. by destruct (isTerminalTransferStatus st). Qed.
#[local] Instance SetStatus_step id st msg : Evolves (step_at id) (SetStatus_transfer id st msg).
Proof.
  unfold SetStatus_transfer. apply evolves_wrap, evolves_sql. intros w. destruct (status_of st) as [s|]; [|done].
  destruct (match msg with Some m => _ | None => _ end); [|done]. apply step_upd. intros t. apply transfer_status_row_id.
Qed.
#[local] Instance log_on_error_step {A} id fmt (m : M A) : Evolves (step_at id) m -> Evolves (step_at id) (log_on_error fmt m).
Proof. intros Hm. unfold log_on_error. apply _. Qed.
#[local] Instance failPeer_step t msg : Evolves (step_at (TransferID t)) (failPeer t msg).
Proof. unfold failPeer. apply _. Qed.
(** Filing an entry keeps what is usable when it is usable itself, or when
    what it replaces is not. *)
Lemma upsert_kept n m q f st b via w : (st = InvPresent \/ st = InvStale \/
    forall i, w_inventory w !! (n, m, q, f) = Some i -> usable i = false) ->
  wp (Upsert_inventory n m q f st b via) w (fun _ w' => forall id, step_at id w w').
Proof.
  intros Hst. unfold Upsert_inventory, scan_inventory. apply wp_wrap, wp_wrap, wp_sql; [intros e _ id; by apply step_moved|intros _].
  cbv zeta. destruct (_ && _); [|intros id; by apply step_moved].
  intros id. split_and!; [done| |done]. intros k i Hk Hu. cbn. destruct (decide (k = (n, m, q, f))) as [->|Hne].
  - rewrite lookup_insert_eq. eexists. split; [done|]. unfold usable. cbn.
    destruct Hst as [->|[->|Hst]]; [done|done|]. specialize (Hst i Hk). congruence.
  - rewrite lookup_insert_ne by done. by exists i.
Qed.
#[local] Instance recordIncomplete_step id t b : Evolves (step_at id) (recordIncomplete t b).
Proof.
  intros w. change (wp (recordIncomplete t b) w (fun _ w' => step_at id w w')). unfold recordIncomplete.
  destruct (inventoryKey t) as [q f].
  assert (Hfile : forall fmt, (forall i, w_inventory w !! (DestNodeID t, TModelRef t, q, f) = Some i -> usable i = false) ->
    wp (log_on_error fmt (Upsert_inventory (DestNodeID t) (TModelRef t) q f InvIncomplete b (TransferID t))) (bump w)
      (fun _ w' => step_at id w w')).
  { intros fmt Hu. apply wp_log_on_error. eapply wp_mono; [apply upsert_kept; right; right; exact Hu|].
    intros r w' Hs. specialize (Hs id). assert (Hb : step_at id w w') by (etransitivity; [|exact Hs]; by apply step_moved).
    destruct r; [done|]. etransitivity; [exact Hb|]. by apply step_moved. }
  apply wp_bind, wp_attempt, wp_Get_inventory; [|intros Hn|intros i Hi]; cbn beta iota.
  - intros e Hf. cbn [errors_Is]. rewrite (fault_foreign _ _ _ Hf). apply wp_logf. by apply step_moved.
  - change (errors_Is ErrNodeModelInventoryNotFound _) with true. cbv iota. apply Hfile. intros i. by rewrite Hn.
  - destruct (_ || _) eqn:Eu; [apply wp_ret; by apply step_moved|]. apply Hfile. intros j Hj. rewrite Hi in Hj. by simplify_eq.
Qed.
#[local] Instance settle_step n t p : Evolves (step_at (tp_TransferID p)) (settle n t p).
Proof.
  unfold settle. cbv zeta. apply evolves_bind; [apply _|apply _|]. intros _.
  apply evolves_bind; [apply _|apply _|]. intros _. destruct (negb _); [apply _|]. destruct (inventoryKey t) as [q f].
  apply log_on_error_step. intros w. exact (wp_mono _ _ _ (fun _ w' => step_at (tp_TransferID p) w w')
    (upsert_kept _ _ _ _ InvPresent _ _ w (or_introl eq_refl)) (fun r w' Hs => Hs _)).
Qed.
#[local] Instance apply_progress_step n t p : Evolves (step_at (tp_TransferID p)) (apply_progress n t p).
Proof. unfold apply_progress. apply _. Qed.
#[local] Instance start_pull_step n t : Evolves (step_at (TransferID t)) (start_pull n t).
Proof. unfold start_pull. apply _. Qed.

(** ** Every operation is a step of one running transfer *)
Definition op_ok (w w' : World) : Prop :=
  exists id, step_at id w w' /\ forall t, w_transfers w !! id = Some t -> isTerminal (TStatus t) = false.
Lemma op_ok_moved w w' : moved w' = moved w -> op_ok w w'.
Proof.
  intros Hm. exists (fresh (dom (w_transfers w))). split; [by apply step_moved|]. intros t Ht. exfalso.
  apply (is_fresh (dom (w_transfers w))). apply elem_of_dom. by exists t.
Qed.
Lemma op_ok_at id w w1 w' : moved w1 = moved w -> step_at id w1 w' ->
  (forall t, w_transfers w !! id = Some t -> isTerminal (TStatus t) = false) -> op_ok w w'.
Proof. intros Hm Hs Ht. exists id. split; [|done]. etransitivity; [by apply step_moved|exact Hs]. Qed.
Lemma wp_moved {A} (m : M A) w (Q : result A -> World -> Prop) :
  Preserves moved m -> (forall r w', moved w' = moved w -> Q r w') -> wp m w Q.
Proof. intros Hm HQ. unfold wp. apply HQ, Hm. Qed.
Lemma step_insert w t : w_transfers w !! TransferID t = None -> step_at (TransferID t) w (set_w_transfers (<[TransferID t := t]> (w_transfers w)) w).
Proof.
  intros Hn. split_and!; [intros k Hk; cbn; by rewrite lookup_insert_ne|by intros k i Hk Hu; exists i|].
  intros Hok k t'. cbn. rewrite lookup_insert. case_decide as E; [by intros [= <-]|apply Hok].
Qed.
(** After a new row is made, what follows touches that row. *)
Lemma wp_new_row d m st src q by_ {A} (k : ModelTransfer -> M A) w0 w pre :
  moved w = moved w0 -> (forall t, Evolves (step_at (TransferID t)) (k t)) ->
  wp (t ← wrap pre (Create_transfer d m st src q by_); k t) w (fun _ w' => op_ok w0 w').
Proof.
  intros Hm Hk. apply wp_bind, wp_wrap, wp_Create_transfer; [intros e; by apply op_ok_moved|]. intros t _ Hn _.
  assert (Hn0 : w_transfers w0 !! TransferID t = None) by (injection Hm as Ht _; by rewrite <-Ht).
  apply (wp_evolves (step_at (TransferID t)) _ _ _ (Hk t)). intros r w' Hs. apply (op_ok_at (TransferID t) w0 (bump w)); [exact Hm| |].
  - etransitivity; [apply (step_insert (bump w) t Hn)|exact Hs].
  - intros t' Ht'. by rewrite Hn0 in Ht'.
Qed.
#[local] Instance or_fail_step {A} t msg pre (m : M A) : Evolves (step_at (TransferID t)) m -> Evolves (step_at (TransferID t)) (or_fail t msg pre m).
Proof. intros Hm. unfold or_fail. apply _. Qed.
Lemma initiate_step actor params w0 w : moved w = moved w0 -> wp (InitiateTransfer actor params) w (fun _ w' => op_ok w0 w').
Proof.
  intros Hm. assert (Hend : forall w', moved w' = moved w -> op_ok w0 w') by (intros w' E; apply op_ok_moved; congruence).
  unfold InitiateTransfer. apply wp_bind, wp_moved; [apply _|]. intros [b|e] w1 Hw1; [|by apply Hend].
  apply wp_bind, wp_guard; intros _; [|by apply Hend]. apply wp_bind. destruct (validate params) as [[|f]|e]; [| |by apply wp_throw, Hend].
  - apply wp_ret. unfold download. apply wp_bind, wp_Connected. intros c _. apply wp_bind, wp_guard; intros _; [|by apply Hend].
    apply wp_new_row; [by rewrite <-Hm, <-Hw1|]. intros t. apply _.
  - apply wp_ret. unfold initiatePeer. apply wp_bind, wp_Connected. intros c _. apply wp_bind, wp_guard; intros _; [|by apply Hend].
    apply wp_bind, wp_Connected. intros c' _. apply wp_bind, wp_guard; intros _; [|by apply Hend].
    apply wp_bind, wp_map_err. unfold Get. apply wp_Get_inventory; [by intros e _; apply Hend|by intros _; apply Hend|]. intros i _.
    apply wp_bind, wp_guard; intros _; [|by apply Hend].
    apply wp_bind, wp_moved; [apply _|]. intros [[[plan dk] hk]|e] w2 Hw2; [|apply Hend; by rewrite Hw2].
    apply wp_new_row; [rewrite <-Hm, <-Hw1; exact Hw2|]. intros t. cbv zeta.
    apply evolves_bind; [apply _|apply _|]. intros _.
    apply evolves_bind; [apply _|case_bool_decide; apply _|]. intros _.
    apply evolves_bind; [apply _|apply (or_fail_step (set_TSourceInterface _ (set_TFormat _ t))); apply _|]. intros env.
    apply evolves_bind; [apply _|apply (or_fail_step (set_TSourceInterface _ (set_TFormat _ t))); apply _|]. intros _.
    apply _.
Qed.
Inductive transfers_op (w : World) : World -> Prop :=
| op_initiate actor params : transfers_op w (snd (InitiateTransfer actor params w))
| op_cancel actor id : transfers_op w (snd (CancelTransfer actor id w))
| op_retry actor id : transfers_op w (snd (RetryTransfer actor id w))
| op_progress nodeID env : transfers_op w (snd (HandleTransferProgress nodeID env w))
| op_authorize nodeID env : transfers_op w (snd (HandlePeerAuthorizeResult nodeID env w)).
(** What was found is the row under its own id. *)
Lemma found_at w id t : keys_ok w -> w_transfers w !! id = Some t -> isTerminal (TStatus t) = false ->
  TransferID t = id /\ forall t', w_transfers w !! TransferID t = Some t' -> isTerminal (TStatus t') = false.
Proof. intros Hok Ht Hn. pose proof (Hok _ _ Ht) as <-. split; [done|]. intros t' Ht'. congruence. Qed.
Lemma transfers_op_ok w w' : transfers_op w w' -> keys_ok w -> op_ok w w'.
Proof.
  intros Hop Hok.
  assert (Hat : forall id t w1 w2, w_transfers w !! id = Some t -> isTerminal (TStatus t) = false -> moved w1 = moved w ->
    step_at (TransferID t) w1 w2 -> op_ok w w2).
  { intros id t w1 w2 Ht Hn Hm Hs. destruct (found_at w id t Hok Ht Hn) as [_ Hrun]. by apply (op_ok_at (TransferID t) w w1). }
  destruct Hop as [actor params|actor id|actor id|n env|n env].
  - by apply (initiate_step actor params w w).
  - refine (_ : wp (CancelTransfer actor id) w (fun _ w' => op_ok w w')). unfold CancelTransfer.
    apply wp_bind, wp_moved; [apply _|]. intros [b|e] w1 Hw1; [|by apply op_ok_moved].
    apply wp_bind, wp_guard; intros _; [|by apply op_ok_moved].
    apply wp_bind, wp_FindByID_transfer; [intros e; by apply op_ok_moved|]. intros t Ht.
    apply wp_bind, wp_guard; intros Hn; [|by apply op_ok_moved]. apply negb_true_iff in Hn.
    assert (Ht0 : w_transfers w !! id = Some t) by (injection Hw1 as E _; by rewrite <-E).
    apply (wp_evolves (step_at (TransferID t))); [apply _|]. intros r w2. by eapply Hat.
  - refine (_ : wp (RetryTransfer actor id) w (fun _ w' => op_ok w w')). unfold RetryTransfer.
    apply wp_bind, wp_moved; [apply _|]. intros [b|e] w1 Hw1; [|by apply op_ok_moved].
    apply wp_bind, wp_guard; intros _; [|by apply op_ok_moved].
    apply wp_bind, wp_FindByID_transfer; [intros e; by apply op_ok_moved|]. intros t Ht.
    apply wp_bind, wp_guard; intros _; [|by apply op_ok_moved].
    apply wp_bind. destruct (retry_params t) as [ps|e]; [apply wp_ret|by apply wp_throw, op_ok_moved]. by apply initiate_step.
  - refine (_ : wp (HandleTransferProgress n env) w (fun _ w' => op_ok w w')). unfold HandleTransferProgress.
    destruct env as [| | |[p|e]| | | | | | | | |]; try (by apply op_ok_moved).
    apply wp_bind, wp_attempt, wp_FindByID_transfer; [intros e; apply wp_logf; by apply op_ok_moved|]. intros t Ht.
    destruct (negb _); [apply wp_logf; by apply op_ok_moved|]. destruct (isTerminal (TStatus t)) eqn:Hn.
    + apply wp_moved; [apply _|]. intros r w1 Hw1. by apply op_ok_moved.
    + apply (wp_evolves (step_at (tp_TransferID p))); [apply _|]. intros r w2 Hs.
      destruct (found_at w _ t Hok Ht Hn) as [Hid _]. rewrite <-Hid in Hs. by apply (Hat _ t (bump w) w2 Ht Hn eq_refl).
  - refine (_ : wp (HandlePeerAuthorizeResult n env) w (fun _ w' => op_ok w w')). unfold HandlePeerAuthorizeResult.
    destruct env as [| | | |[p|e]| | | | | | | |]; try (by apply op_ok_moved).
    apply wp_bind, wp_attempt, wp_FindByID_transfer; [intros e; apply wp_logf; by apply op_ok_moved|]. intros t Ht.
    destruct (negb (awaits n t)) eqn:Haw; [apply wp_logf; by apply op_ok_moved|].
    apply negb_false_iff, andb_true_iff in Haw as [_ Hq%bool_decide_eq_true].
    assert (Hn : isTerminal (TStatus t) = false) by by rewrite Hq.
    destruct (negb _); (apply (wp_evolves (step_at (TransferID t))); [apply _|]; intros r w2 Hs;
      by apply (Hat _ t (bump w) w2 Ht Hn eq_refl)).
Qed.
(** Anything else the server does leaves the transfers alone. *)
Inductive transfers_step (w : World) : World -> Prop :=
| step_op w' : transfers_op w w' -> transfers_step w w'
| step_elsewhere w' : w_transfers w' = w_transfers w -> transfers_step w w'.
Lemma transfers_step_final w w' id t : transfers_step w w' -> keys_ok w -> w_transfers w !! id = Some t ->
  isTerminal (TStatus t) = true -> keys_ok w' /\ w_transfers w' !! id = Some t.
Proof.
  intros [w1 Hop|w1 Hw] Hok Ht Hterm.
  - destruct (transfers_op_ok w w1 Hop Hok) as (id' & (Hoth & _ & Hk) & Hrun). split; [auto|].
    rewrite Hoth; [done|]. intros ->. rewrite (Hrun t Ht) in Hterm. done.
  - split; [intros k t'; rewrite Hw; apply Hok|by rewrite Hw].
Qed.

(** C13: once a transfer is completed, failed or cancelled its row never
    changes again, over any sequence of requests, reports and replies of any
    node and anything else the server does; and no request, report or reply
    about transfers takes a usable copy of a model out of the inventory: what
    a cancelled or failed transfer leaves is filed as incomplete only where
    there is no usable entry. *)
Theorem finished_transfers_final w w' : rtc transfers_step w w' -> keys_ok w ->
  (forall id t, w_transfers w !! id = Some t -> isTerminal (TStatus t) = true -> w_transfers w' !! id = Some t) /\
  (forall w2, transfers_op w' w2 -> keys_ok w' -> usable_kept w' w2).
Proof.
  intros Hs Hok. split.
  - intros id t. revert Hok. induction Hs as [w|w w1 w2 H12 Hs IH]; [done|]. intros Hok Ht Hterm.
    destruct (transfers_step_final _ _ _ _ H12 Hok Ht Hterm) as [Hok1 Ht1]. by apply IH.
  - intros w2 Hop Hok'. by destruct (transfers_op_ok _ _ Hop Hok') as (id & (_ & Hu & _) & _).
Qed.

(** ** What a progress report does

    The log only grows. *)
Definition logged (w w' : World) : Prop := w_logs w `prefix_of` w_logs w'.
#[local] Instance logged_preorder : PreOrder logged.
Proof. split; unfold logged; [by intros w|intros w1 w2 w3; by etransitivity]. Qed.
#[local] Instance evolves_logf fmt : Evolves logged (logf fmt).
Proof. intros w. by apply prefix_app_r. Qed.
#[local] Hint Extern 5 (Evolves logged _) => (eapply (evolves_preserves _ w_logs); [intros ? ? E; unfold logged; by rewrite E | apply _]) : typeclass_instances.
#[local] Instance log_on_error_logged {A} fmt (m : M A) : Evolves logged m -> Evolves logged (log_on_error fmt m).
Proof. intros Hm. unfold log_on_error. apply _. Qed.
#[local] Instance sendCancel_logged n id : Evolves logged (sendCancel n id).
Proof. unfold sendCancel. apply _. Qed.
#[local] Instance revokePeer_logged t : Evolves logged (revokePeer t).
Proof. unfold revokePeer. apply _. Qed.
#[local] Instance Upsert_logged n m q f st b via : Evolves logged (Upsert_inventory n m q f st b via).
Proof.
  eapply (evolves_preserves _ w_logs); [intros ? ? E; unfold logged; by rewrite E|]. unfold Upsert_inventory, scan_inventory.
  do 2 apply preserves_wrap. apply preserves_sql; [apply _|]. intros w. cbv zeta. by destruct (_ && _).
Qed.
#[local] Instance Get_inventory_logged n m q f : Preserves w_logs (Get_inventory n m q f).
Proof. unfold Get_inventory, scan_inventory. apply _. Qed.
#[local] Instance recordIncomplete_logged t b : Evolves logged (recordIncomplete t b).
Proof.
  unfold recordIncomplete. destruct (inventoryKey t). apply evolves_bind; [apply _|apply _|]. intros []; cbv zeta; apply _.
Qed.
#[local] Instance Upsert_transfers n m q f st c via : Preserves w_transfers (Upsert_inventory n m q f st c via).
Proof.
  unfold Upsert_inventory, scan_inventory. do 2 apply preserves_wrap. apply preserves_sql; [apply _|].
  intros w. cbv zeta. by destruct (_ && _).
Qed.
#[local] Instance recordIncomplete_transfers t b : Preserves w_transfers (recordIncomplete t b).
Proof.
  unfold recordIncomplete, Get_inventory, scan_inventory. destruct (inventoryKey t). apply preserves_bind; [apply _|].
  intros []; cbv zeta; apply _.
Qed.

#[local] Instance settle_logged n t p : Evolves logged (settle n t p).
Proof.
  unfold settle. cbv zeta. apply evolves_bind; [apply _|apply _|]. intros _.
  apply evolves_bind; [apply _|apply _|]. intros _. destruct (negb _); [apply _|]. destruct (inventoryKey t). apply _.
Qed.
#[local] Instance SetStatus_logged id st msg : Evolves logged (SetStatus_transfer id st msg).
Proof.
  eapply (evolves_preserves _ w_logs); [intros ? ? E; unfold logged; by rewrite E|]. apply preserves_wrap, preserves_sql; [apply _|].
  intros w. destruct (status_of _); [|done]. by destruct (match msg with Some m => _ | None => _ end).
Qed.
#[local] Instance apply_progress_logged n t p : Evolves logged (apply_progress n t p).
Proof. unfold apply_progress, UpdateProgress. apply _. Qed.
(** Nothing about a report is an error of the handler. *)
Definition never (e : error) : Prop := False.
#[local] Instance sendCancel_never n id : Raises never (sendCancel n id).
Proof. unfold sendCancel. apply _. Qed.
#[local] Instance revokePeer_never t : Raises never (revokePeer t).
Proof. unfold revokePeer. apply _. Qed.
#[local] Instance recordIncomplete_never t b : Raises never (recordIncomplete t b).
Proof. unfold recordIncomplete. destruct (inventoryKey t). apply raises_bind; [apply _|]. intros []; cbv zeta; apply _. Qed.
#[local] Instance apply_progress_never n t p : Raises never (apply_progress n t p).
Proof. unfold apply_progress, settle. cbv zeta. destruct (inventoryKey t). apply _. Qed.

(** The row a report leaves. *)
Definition reported_row (now : Time) (st : TransferStatus) (p : TransferProgress) (t : ModelTransfer) : ModelTransfer :=
  transfer_status_row now st (nonempty (tp_ErrorMessage p)) (progress_row (tp_BytesTransferred p) (tp_BytesTotal p) t).
(** The entry a completed transfer is filed as. *)
Definition filed (n : string) (t : ModelTransfer) (p : TransferProgress) (w : World) : Prop :=
  exists i, w_inventory w !! (n, TModelRef t, (inventoryKey t).1, (inventoryKey t).2) = Some i /\
    InvStatus i = InvPresent /\ InvSizeBytes i = tp_BytesTotal p /\ InvPlacedVia i = TransferID t.
Definition progress_applied (n : string) (t : ModelTransfer) (p : TransferProgress) (w w' : World) : Prop :=
  exists st now, status_of (tp_Status p) = Some st /\ w_clock w <= now /\
    w_transfers w' !! tp_TransferID p = Some (reported_row now st p t) /\ (st = TCompleted -> filed n t p w').
Lemma wp_total {A} (m : M A) w (Q : result A -> World -> Prop) : Raises never m -> Evolves logged m ->
  (forall a w', logged w w' -> Q (Ok a) w') -> wp m w Q.
Proof.
  intros Hr Hl HQ. unfold wp. specialize (Hl w). destruct (fst (m w)) as [a|e] eqn:E; [by apply HQ|by destruct (Hr w e E)].
Qed.
Lemma never_ok (m : M unit) w : Raises never m -> fst (m w) = Ok tt.
Proof. intros Hr. destruct (fst (m w)) as [[]|e] eqn:E; [done|by destruct (Hr w e E)]. Qed.
(** A line that is in the log stays there. *)
Lemma logged_more w w1 w' l : w_logs w1 = w_logs w ++ [l] -> logged w1 w' -> w_logs w' <> w_logs w.
Proof. intros E [k Hk] Heq. rewrite Heq, E in Hk. apply (f_equal length) in Hk. rewrite !length_app in Hk. cbn in Hk. lia. Qed.
Lemma wp_after_log {A} (m : M A) w w1 l (P : World -> Prop) : Evolves logged m -> w_logs w1 = w_logs w ++ [l] ->
  wp m w1 (fun _ w' => w_logs w' = w_logs w -> P w').
Proof. intros Hm Hl. apply (wp_evolves logged); [done|]. intros r w' Hg E. by destruct (logged_more w w1 w' l). Qed.
Lemma logged_same w0 w l : logged w0 w -> w_logs w ++ [l] <> w_logs w0.
Proof. intros [k ->] E%(f_equal length). rewrite !length_app in E. cbn in E. lia. Qed.
Lemma wp_upsert_present n m q f b via w w0 (P : World -> Prop) : logged w0 w ->
  (forall now, P (set_w_inventory (<[(n, m, q, f) := MkInventory n m q f InvPresent b now via]> (w_inventory w)) (bump w))) ->
  wp (log_on_error log_store_inventory (Upsert_inventory n m q f InvPresent b via)) w (fun _ w' => w_logs w' = w_logs w0 -> P w').
Proof.
  intros Hl HP. unfold Upsert_inventory, scan_inventory.
  apply wp_log_on_error, wp_wrap, wp_wrap, wp_sql; [by intros e _ E; apply logged_same in E|intros _].
  cbv zeta. destruct (_ && _); [intros _; apply HP|by intros E; apply logged_same in E].
Qed.
#[local] Instance settle_transfers n t p : Preserves w_transfers (settle n t p).
Proof.
  unfold settle, revokePeer. cbv zeta. destruct (inventoryKey t). repeat (apply preserves_bind; [apply _|intros]).
  destruct (negb _); [apply _|]. apply preserves_log_on_error; [apply Upsert_transfers|apply _].
Qed.
(** Settling a report files a completed transfer. *)
Lemma settle_ok n t p w0 w : logged w0 w -> status_of (tp_Status p) = Some TCompleted ->
  wp (settle n t p) w (fun _ w' => w_logs w' = w_logs w0 -> filed n t p w').
Proof.
  intros H0w Hst. assert (Hs : tp_Status p = status_text TCompleted).
  { apply List.find_some in Hst as [_ Hst]. by apply bool_decide_eq_true in Hst. }
  unfold settle. rewrite Hs. cbv zeta. apply wp_bind, wp_total; [apply _|apply _|]. intros _ w1 Hl.
  apply (transitivity H0w) in Hl. assert (Hend : wp (let '(q, f) := inventoryKey t in log_on_error log_store_inventory
    (Upsert_inventory n (TModelRef t) q f InvPresent (tp_BytesTotal p) (TransferID t))) w1
    (fun _ w' => w_logs w' = w_logs w0 -> filed n t p w')); [|exact Hend].
  unfold filed. destruct (inventoryKey t) as [q f]. apply wp_upsert_present; [done|]. intros now. eexists. cbn.
  by rewrite lookup_insert_eq.
Qed.
Lemma apply_progress_ok n t p w : w_transfers w !! tp_TransferID p = Some t ->
  wp (apply_progress n t p) w (fun _ w' => w_logs w' = w_logs w -> progress_applied n t p w w').
Proof.
  intros Ht. unfold apply_progress.
  apply wp_bind, wp_log_on_error, wp_upd_transfer; [intros e; eapply (wp_after_log _ w); [apply _|reflexivity]|].
  apply wp_bind, wp_attempt, wp_SetStatus_transfer.
  { intros e. apply wp_logf. intros E. by apply (logged_same w w) in E; [|unfold logged]. }
  intros st Hst. set (w1 := upd_transfer _ _ (bump _)). 
  assert (Hrow : w_transfers w1 !! tp_TransferID p = Some (reported_row (w_clock w1) st p t)).
  { cbn. by rewrite !lookup_alter_eq, Ht. }
  assert (Hend : st = TCompleted -> wp (settle n t p) w1 (fun _ w' => w_logs w' = w_logs w -> filed n t p w')).
  { intros ->. by apply settle_ok; [unfold logged|]. }
  pose proof (settle_transfers n t p w1) as Hrows. unfold wp. intros E. exists st, (w_clock w1).
  split_and!; [done|cbn; lia|by rewrite Hrows|]. intros ->. by apply Hend.
Qed.

Lemma sendCancel_ok n id w : wp (sendCancel n id) w (fun r w' => r = Ok tt /\ logged w w' /\ moved w' = moved w /\
  (w_sent w' = w_sent w \/ w_sent w' = w_sent w ++ [(n, MCancelTransfer id)])).
Proof.
  assert (Hg : forall fmt, logged w (set_w_logs (w_logs w ++ [fmt]) w)) by (intros fmt; by apply prefix_app_r).
  unfold sendCancel. io_auto; split_and!; try done; try apply Hg; try (by unfold logged); auto.
Qed.
(** A report moves nothing but its sender's own running transfer: it is
    ignored, and at most answered with another cancel request, when its
    sender is not the destination or the transfer has ended. *)
Definition ignored (n : string) (p : TransferProgress) (t : option ModelTransfer) (w w' : World) : Prop :=
  moved w' = moved w /\
  (w_sent w' = w_sent w \/ exists row, t = Some row /\ TStatus row = TCancelled /\ DestNodeID row = n /\
     tp_Status p = status_text TTransferring /\ w_sent w' = w_sent w ++ [(n, MCancelTransfer (TransferID row))]).
(** A progress report never fails.  One from the destination of a running
    transfer stores the status, the byte counts, the message and, at the end,
    the time it reports, and files a completed download as present in the
    destination's inventory under the transfer, unless a failure was logged;
    it touches no other transfer and no usable entry is lost.  Any other
    report changes nothing, and a node still at work on a cancelled transfer
    is told again to stop. *)
Theorem HandleTransferProgress_spec n p w :
  wp (HandleTransferProgress n (ETransferProgress (Ok p))) w (fun r w' =>
    r = Ok tt /\ logged w w' /\
    match w_transfers w !! tp_TransferID p with
    | Some t =>
        if bool_decide (DestNodeID t = n) && negb (isTerminal (TStatus t))
        then step_at (tp_TransferID p) w w' /\ (w_logs w' = w_logs w -> progress_applied n t p w w')
        else ignored n p (Some t) w w'
    | None => ignored n p None w w'
    end).
Proof.
  unfold HandleTransferProgress.
  assert (Hg : forall fmt, logged w (set_w_logs (w_logs (bump w) ++ [fmt]) (bump w))) by (intros fmt; by apply prefix_app_r).
  assert (Hign : forall o w', moved w' = moved w -> w_sent w' = w_sent w -> ignored n p o w w') by (intros; split; [done|by left]).
  apply wp_bind, wp_attempt, wp_FindByID_transfer; cbn beta iota.
  - intros e. apply wp_logf. split; [done|]. split; [apply Hg|]. destruct (w_transfers w !! _) as [t|]; [|by apply Hign].
    destruct (_ && _); [|by apply Hign]. split; [by apply step_moved|]. intros E. by apply (logged_same w w) in E; [|unfold logged].
  - intros t Ht. rewrite Ht. destruct (bool_decide (DestNodeID t = n)) eqn:Ed; cbn [negb andb].
    2: { apply wp_logf. split; [done|]. split; [apply Hg|]. by apply Hign. }
    destruct (isTerminal (TStatus t)) eqn:Et; cbn [negb].
    + apply wp_when; intros Hc; [|split; [done|split; [by unfold logged|by apply Hign]]]. propb.
      eapply wp_mono; [apply sendCancel_ok|]. intros r w' (-> & Hl & Hm & Hs). split; [done|]. split; [exact Hl|].
      split; [exact Hm|]. destruct Hs as [Hs|Hs]; [by left|]. right. by exists t.
    + unfold wp. split; [apply never_ok, _|]. split; [apply (apply_progress_logged n t p (bump w))|].
      split; [apply (apply_progress_step n t p (bump w))|]. intros E.
      destruct (apply_progress_ok n t p (bump w) Ht E) as (st & now & Hst & Hnow & Hrow). exists st, now.
      split; [done|]. split; [cbn in Hnow; lia|exact Hrow].
Qed.
End Steps.

(** ** Witnesses, and what goes wrong *)

Definition lab_transfer : ModelTransfer :=
  set_TStatus TTransferring (new_transfer "t1" "n1" "org/model" SourceInternet None (Some "Q4_K_M") None 63900000000000000000).
Definition lab_transfers : World := set_w_transfers {[ "t1" := lab_transfer ]} lab_store.
Definition lab_report (status msg : string) (bytes : Z) : TransferProgress := MkTransferProgress "t1" bytes 1000 status msg.
Lemma HandleTransferProgress_spec_witness :
  progress_applied "n1" lab_transfer (lab_report "completed" "" 1000) lab_transfers
    (snd (@HandleTransferProgress quiet_env "n1" (ETransferProgress (Ok (lab_report "completed" "" 1000))) lab_transfers)).
Proof.
  destruct (@HandleTransferProgress_spec quiet_env _ "n1" (lab_report "completed" "" 1000) lab_transfers) as (_ & _ & _ & Ha).
  apply Ha. vm_compute. reflexivity.
Defined.
(** A cancelled transfer stays cancelled, whatever its node reports next. *)
Definition lab_cancelled : World := snd (@CancelTransfer quiet_env root "t1" lab_transfers).
Definition lab_late : World :=
  snd (@HandleTransferProgress quiet_env "n1" (ETransferProgress (Ok (lab_report "completed" "" 1000))) lab_cancelled).
Lemma finished_transfers_final_witness :
  w_transfers lab_late !! "t1" = w_transfers lab_cancelled !! "t1" /\ is_Some (w_transfers lab_cancelled !! "t1").
Proof.
  assert (Hs : rtc (@transfers_step quiet_env) lab_cancelled lab_late).
  { apply rtc_once, step_op, (op_progress lab_cancelled "n1"). }
  assert (Hok : keys_ok lab_cancelled).
  { intros k t Hk. destruct (decide (k = "t1")) as [->|Hne].
    - vm_compute in Hk. injection Hk as <-. reflexivity.
    - assert (E : w_transfers lab_cancelled = {[ "t1" := default lab_transfer (w_transfers lab_cancelled !! "t1") ]}) by (vm_compute; reflexivity).
      rewrite E, lookup_singleton_ne in Hk by done. discriminate. }
  destruct (@finished_transfers_final quiet_env _ lab_cancelled lab_late Hs Hok) as [Hf _].
  destruct (w_transfers lab_cancelled !! "t1") as [t|] eqn:Ht; [|vm_compute in Ht; discriminate].
  split; [|by eexists]. apply Hf; [done|]. vm_compute in Ht. injection Ht as <-. reflexivity.
Defined.

(** A download whose start message cannot be sent stays queued: nothing will
    ever start it, and only cancelling it by hand ends it. *)
Definition lab_download : InitiateTransferParams := MkInitiate "n1" "org/model" "internet" "" "" "" "" "".
Definition statuses (w : World) : list TransferStatus := map (fun it => TStatus it.2) (map_to_list (w_transfers w)).
Example unreachable_download_stays_queued :
  let r := @InitiateTransfer (failing_env [3%N]) root lab_download lab_store in
  is_ok (fst r) = false /\ statuses (snd r) = [TQueued] /\ w_sent (snd r) = [].
Proof. vm_compute. repeat split. Qed.
(** A reason cut inside a character is no text: the row of the declined
    transfer cannot be marked failed and stays queued. *)
Definition lab_reason : string := of_bytes (List.repeat "a"%char 199 ++ bytes "é").
Definition lab_peer : World := set_w_transfers
  {[ "t1" := new_transfer "t1" "n2" "org/model" SourcePeerNode (Some "n1") (Some "Q4_K_M") None 63900000000000000000 ]} lab_store.
Example declined_transfer_stays_queued :
  let w := snd (@HandlePeerAuthorizeResult quiet_env "n1" (EPeerAuthorizeResult (Ok (MkPeerAuthorizeResult "t1" false lab_reason))) lab_peer) in
  statuses w = [TQueued] /\ w_logs w = ["transfers: mark transfer %s failed: %v"].
Proof. vm_compute. repeat split. Qed.
