(* ===== verification/EngineStore.v ===== *)
(** * The engine_transfers and node_engine_inventory tables
    ([internal/db/engine_transfers.go], [internal/db/node_engine_inventory.go]) *)
From stdpp Require Import base list strings gmap.
From Stdlib Require Import ZArith Lia.
From Stdlib Require Import Ascii.
From Stdlib Require String.
From S2P Require Import Prelude Text Json Engines Db InstanceStore NodeStore TransferStore.
Local Open Scope string_scope.
Local Open Scope list_scope.
Local Open Scope Z_scope.

Definition ErrEngineTransferNotFound : error := Sentinel "db.ErrEngineTransferNotFound" "engine transfer not found".
Definition ErrNodeEngineInventoryNotFound : error :=
  Sentinel "db.ErrNodeEngineInventoryNotFound" "node engine inventory entry not found".

Definition engine_status_text (s : EngineTransferStatus) : string :=
  match s with
  | EQueued => "queued" | ETransferring => "transferring" | ECompleted => "completed"
  | EFailed => "failed" | ECancelled => "cancelled"
  end.
Definition engine_status_of (s : string) : option EngineTransferStatus :=
  List.find (fun st => bool_decide (engine_status_text st = s)) [EQueued; ETransferring; ECompleted; EFailed; ECancelled].
Definition isTerminalEngineTransferStatus (s : EngineTransferStatus) : bool :=
  match s with ECompleted | EFailed | ECancelled => true | _ => false end.
(** The enum [profile_engine_type] of the migrations. *)
Definition engine_type_ok (s : string) : bool :=
  existsb (fun e => bool_decide (e = s)) [ProfileEngineVLLM; ProfileEngineAphrodite; ProfileEngineLlamaCPP].

Definition upd_engines (f : EngineTables -> EngineTables) (w : World) : World := set_w_engines (f (w_engines w)) w.
Definition engine_transfers (w : World) : gmap string EngineTransfer := eng_transfers (w_engines w).
Definition engine_inventory (w : World) : gmap (string * string * string) NodeEngineInventory := eng_inventory (w_engines w).
Definition put_engine_transfer (t : EngineTransfer) (w : World) : World :=
  upd_engines (fun e => set_eng_transfers (<[EngTransferID t := t]> (eng_transfers e)) e) w.
Definition upd_engine_transfer (id : string) (f : EngineTransfer -> EngineTransfer) (w : World) : World :=
  upd_engines (fun e => set_eng_transfers (alter f id (eng_transfers e)) e) w.
Definition engine_key (i : NodeEngineInventory) : string * string * string := (EinvNodeID i, EinvEngineType i, EinvVersion i).
Definition put_engine_inventory (i : NodeEngineInventory) (w : World) : World :=
  upd_engines (fun e => set_eng_inventory (<[engine_key i := i]> (eng_inventory e)) e) w.

Definition new_engine_transfer (id destNodeID engineType version : string) (requestedBy : option string) (now : Time) : EngineTransfer :=
  MkEngineTransfer id destNodeID engineType version EQueued 0 0 requestedBy now None None.
Definition engine_progress_row (bytesTransferred bytesTotal : Z) (t : EngineTransfer) : EngineTransfer :=
  MkEngineTransfer (EngTransferID t) (EngDestNodeID t) (EngType t) (EngVersion t) (EngStatus t) bytesTransferred bytesTotal
    (EngRequestedBy t) (EngRequestedAt t) (EngCompletedAt t) (EngErrorMessage t).
Definition engine_status_row (now : Time) (status : EngineTransferStatus) (msg : option string) (t : EngineTransfer) : EngineTransfer :=
  MkEngineTransfer (EngTransferID t) (EngDestNodeID t) (EngType t) (EngVersion t) status (EngBytesTransferred t) (EngBytesTotal t)
    (EngRequestedBy t) (EngRequestedAt t)
    (if isTerminalEngineTransferStatus status then Some now else EngCompletedAt t) msg.
(** What never changes about a transfer. *)
Definition engine_identity (t : EngineTransfer) := (EngTransferID t, EngDestNodeID t, EngType t, EngVersion t, EngRequestedBy t).

Definition opt_text_ok (m : option string) : bool := match m with Some m => text_ok m | None => true end.
Definition newest_engine_first (a b : EngineTransfer) : bool := EngRequestedAt b <=? EngRequestedAt a.
Definition newest_placed_first (a b : NodeEngineInventory) : bool := EinvPlacedAt b <=? EinvPlacedAt a.

Section Repository.
Context `{Env}.
Definition scanEngineTransfer (r : option EngineTransfer) : M EngineTransfer :=
  match r with Some t => mret t | None => throw ErrEngineTransferNotFound end.
(** The parameters are parsed first, then the keys are checked. *)
Definition Create_engine (destNodeID engineType version : string) (requestedBy : option string) : M EngineTransfer :=
  wrap "create engine transfer: " (wrap "scan engine transfer: " (sql (fun w =>
    let t := new_engine_transfer (gen_random_uuid (w_calls w)) destNodeID engineType version requestedBy (w_clock w) in
    if negb (engine_type_ok engineType) then inl (PgError "22P02")
    else if negb (text_ok version) then inl (PgError "22021")
    else if bool_decide (is_Some (engine_transfers w !! EngTransferID t)) then inl (PgError "23505")
    else if node_ref_ok (Some destNodeID) w && user_ref_ok requestedBy w
    then inr (t, put_engine_transfer t w)
    else inl (PgError "23503")))).
Definition FindByID_engine (id : string) : M EngineTransfer :=
  r ← wrap "scan engine transfer: " (query (fun w => engine_transfers w !! id)); scanEngineTransfer r.
Definition UpdateProgress_engine (id : string) (bytesTransferred bytesTotal : Z) : M unit :=
  wrap ("update engine transfer progress for " +:+ id +:+ ": ")
    (exec (upd_engine_transfer id (engine_progress_row bytesTransferred bytesTotal))).
Definition SetStatus_engine (id status : string) (errorMessage : option string) : M unit :=
  wrap ("set status for engine transfer " +:+ id +:+ ": ") (sql (fun w =>
    match engine_status_of status with
    | None => inl (PgError "22P02")
    | Some st =>
        if opt_text_ok errorMessage
        then inr (tt, upd_engine_transfer id (engine_status_row (w_clock w) st errorMessage) w)
        else inl (PgError "22021")
    end)).
Definition List_engines_db : M (list EngineTransfer) :=
  wrap "list engine transfers: " (query (fun w => sort_by newest_engine_first (map snd (map_to_list (engine_transfers w))))).
Definition ListByDestNode_engine (destNodeID : string) : M (list EngineTransfer) :=
  wrap ("list engine transfers for node " +:+ destNodeID +:+ ": ") (query (fun w =>
    sort_by newest_engine_first
      (List.filter (fun t => bool_decide (EngDestNodeID t = destNodeID)) (map snd (map_to_list (engine_transfers w)))))).

Definition scanNodeEngineInventory (r : option NodeEngineInventory) : M NodeEngineInventory :=
  match r with Some i => mret i | None => throw ErrNodeEngineInventoryNotFound end.
Definition Upsert_engine (nodeID engineType version : string) (status : InventoryStatus) (installPath : string)
    (sizeBytes : Z) (placedVia : string) : M NodeEngineInventory :=
  wrap "upsert node engine inventory: " (wrap "scan node engine inventory: " (sql (fun w =>
    let i := MkEngineInventory nodeID engineType version status installPath sizeBytes (w_clock w) placedVia in
    if negb (engine_type_ok engineType) then inl (PgError "22P02")
    else if negb (text_ok version && text_ok installPath) then inl (PgError "22021")
    else if node_ref_ok (Some nodeID) w && bool_decide (is_Some (engine_transfers w !! placedVia))
    then inr (i, put_engine_inventory i w)
    else inl (PgError "23503")))).
Definition Get_engine (nodeID engineType version : string) : M NodeEngineInventory :=
  r ← wrap "scan node engine inventory: " (query (fun w => engine_inventory w !! (nodeID, engineType, version)));
  scanNodeEngineInventory r.
Definition List_engine_inventory_db : M (list NodeEngineInventory) :=
  wrap "list node engine inventory: " (query (fun w => sort_by newest_placed_first (map snd (map_to_list (engine_inventory w))))).
Definition ListByNode_engine (nodeID : string) : M (list NodeEngineInventory) :=
  wrap ("list node engine inventory for node " +:+ nodeID +:+ ": ") (query (fun w =>
    sort_by newest_placed_first
      (List.filter (fun i => bool_decide (EinvNodeID i = nodeID)) (map snd (map_to_list (engine_inventory w)))))).
End Repository.

Section Wp.
Context `{Env}.
Lemma wp_Create_engine d et v by_ w (Q : result EngineTransfer -> World -> Prop) :
  (forall e, Q (Err e) (bump w)) ->
  (forall t, t = new_engine_transfer (EngTransferID t) d et v by_ (w_clock (bump w)) -> engine_transfers w !! EngTransferID t = None ->
     engine_type_ok et = true -> is_Some (w_nodes w !! d) -> Q (Ok t) (put_engine_transfer t (bump w))) ->
  wp (Create_engine d et v by_) w Q.
Proof.
  intros He Hok. unfold Create_engine. apply wp_wrap, wp_wrap, wp_sql; [intros; apply He|intros _].
  cbv zeta. set (t := new_engine_transfer _ _ _ _ _ _). destruct (engine_type_ok et) eqn:Et; [|apply He].
  destruct (text_ok v); [|apply He]. cbn [negb]. change (engine_transfers (bump w)) with (engine_transfers w).
  case_bool_decide as Hn; [apply He|]. destruct (node_ref_ok _ _ && _) eqn:E; [|apply He]. propb.
  apply Hok; [done|by apply eq_None_not_Some|done|]. unfold node_ref_ok in *. by propb.
Qed.
Lemma wp_FindByID_engine id w (Q : result EngineTransfer -> World -> Prop) :
  (forall e, Q (Err e) (bump w)) -> (forall t, engine_transfers w !! id = Some t -> Q (Ok t) (bump w)) -> wp (FindByID_engine id) w Q.
Proof.
  intros He Hok. unfold FindByID_engine. apply wp_bind, wp_wrap, wp_query; [intros; apply He|intros _].
  change (engine_transfers (bump w)) with (engine_transfers w). unfold scanEngineTransfer.
  destruct (engine_transfers w !! id); [apply wp_ret; auto|apply wp_throw; auto].
Qed.
Lemma wp_SetStatus_engine id status msg w (Q : result unit -> World -> Prop) :
  (forall e, Q (Err e) (bump w)) ->
  (forall st, engine_status_of status = Some st -> opt_text_ok msg = true ->
    Q (Ok tt) (upd_engine_transfer id (engine_status_row (w_clock (bump w)) st msg) (bump w))) ->
  wp (SetStatus_engine id status msg) w Q.
Proof.
  intros He Hok. unfold SetStatus_engine. apply wp_wrap, wp_sql; [intros; apply He|intros _].
  destruct (engine_status_of status) as [st|]; [|apply He]. destruct (opt_text_ok msg) eqn:Em; [by apply Hok|apply He].
Qed.
Lemma wp_Upsert_engine n et v st path size via w (Q : result NodeEngineInventory -> World -> Prop) :
  (forall e, Q (Err e) (bump w)) ->
  (forall i, i = MkEngineInventory n et v st path size (w_clock (bump w)) via -> is_Some (engine_transfers w !! via) ->
    Q (Ok i) (put_engine_inventory i (bump w))) ->
  wp (Upsert_engine n et v st path size via) w Q.
Proof.
  intros He Hok. unfold Upsert_engine. apply wp_wrap, wp_wrap, wp_sql; [intros; apply He|intros _].
  cbv zeta. destruct (negb _); [apply He|]. destruct (negb _); [apply He|].
  change (engine_transfers (bump w)) with (engine_transfers w).
  destruct (_ && bool_decide (is_Some (engine_transfers w !! via))) eqn:E; [|apply He]. propb. by apply Hok.
Qed.
End Wp.

Lemma engine_status_of_text s : engine_status_of (engine_status_text s) = Some s.
Proof. by destruct s. Qed.
Lemma engine_status_of_some s st : engine_status_of s = Some st -> s = engine_status_text st.
Proof. intros [_ Hs]%List.find_some. by apply bool_decide_eq_true in Hs. Qed.
