(* ===== verification/EmailStore.v ===== *)
(** * The e-mail tables ([internal/db/user_email.go], [email_delivery.go],
    [email_queue.go], [email_settings.go])

    The e-mail columns of [users] have defaults, so a user without a row in
    [em_columns] has the columns as the migration left them; the constraints of
    migrations 000046 to 000048 refuse what they refuse. *)
From stdpp Require Import base list strings gmap.
From Stdlib Require Import ZArith Lia.
From Stdlib Require Import Ascii.
From Stdlib Require String.
From S2P Require Import Prelude Text Json Db GoTime Rbac InstanceStore AlertStore TransferStore EngineStore.
Local Open Scope string_scope.
Local Open Scope list_scope.
Local Open Scope Z_scope.

Definition ErrEmailConfirmationNotFound : error :=
  Sentinel "db.ErrEmailConfirmationNotFound" "email confirmation not found".

(** ** The enumerations as text *)
Definition EmailSource_string (s : EmailSource) : string :=
  match s with EmailSourceDirectory => "directory" | EmailSourceSelf => "self" | EmailSourceAdmin => "admin" end.
Definition EmailDelivery_string (d : EmailDelivery) : string :=
  match d with
  | EmailDeliveryOff => "off" | EmailDeliveryImmediate => "immediate" | EmailDeliveryHourly => "hourly" | EmailDeliveryDaily => "daily"
  end.
Definition AlertSeverity_string (s : AlertSeverity) : string :=
  match s with AlertSeverityInfo => "info" | AlertSeverityWarning => "warning" | AlertSeverityCritical => "critical" end.
Definition EmailTLSMode_string (m : EmailTLSMode) : string :=
  match m with EmailTLSNone => "none" | EmailTLSStartTLS => "starttls" | EmailTLSImplicit => "tls" end.
(** [EmailDelivery.Valid], [AlertSeverity.Rank] and [EmailTLSMode.Valid] on
    the text a form submits: [None] is what they refuse. *)
Definition EmailDelivery_of (s : string) : option EmailDelivery :=
  List.find (fun d => bool_decide (EmailDelivery_string d = s))
    [EmailDeliveryOff; EmailDeliveryImmediate; EmailDeliveryHourly; EmailDeliveryDaily].
Definition AlertSeverity_of (s : string) : option AlertSeverity :=
  List.find (fun d => bool_decide (AlertSeverity_string d = s)) [AlertSeverityInfo; AlertSeverityWarning; AlertSeverityCritical].
Definition EmailTLSMode_of (s : string) : option EmailTLSMode :=
  List.find (fun d => bool_decide (EmailTLSMode_string d = s)) [EmailTLSNone; EmailTLSStartTLS; EmailTLSImplicit].

(** ** Rows *)
Record UserEmail := MkUserEmail {
  ue_UserID : string; ue_Directory : bool; ue_Email : option string; ue_Source : option EmailSource;
  ue_Delivery : EmailDelivery; ue_MinSeverity : AlertSeverity
}.
Record EmailRecipient := MkRecipient { rec_UserID : string; rec_Email : string; rec_Delivery : EmailDelivery }.
Record DigestItem := MkDigestItem {
  it_AlertID : string; it_Severity : AlertSeverity; it_Title : string; it_QueuedAt : Time; it_Open : bool
}.
Record NewEmail := MkNewEmail {
  ne_Kind : EmailKind; ne_ToAddress : string; ne_UserID : option string; ne_Subject : string; ne_Body : string
}.
Record EmailQueueStats := MkQueueStats {
  st_Pending : Z; st_SentLastDay : Z; st_FailedLastWeek : Z; st_LastError : string; st_LastErrorAt : Time
}.
Inductive DigestKind := DigestHourly | DigestDaily.

Definition upd_email (f : EmailTables -> EmailTables) (w : World) : World := set_w_email (f (w_email w)) w.
Definition default_columns : EmailColumns := MkEmailColumns None None EmailDeliveryImmediate AlertSeverityWarning.
Definition columns_of (w : World) (userID : string) : EmailColumns := default default_columns (em_columns (w_email w) !! userID).
Definition is_directory (u : User) : bool := bool_decide (is_Some (ADSID u)).
Definition user_email (w : World) (u : User) : UserEmail :=
  let c := columns_of w (UserID u) in
  MkUserEmail (UserID u) (is_directory u) (ColEmail c) (ColSource c) (ColDelivery c) (ColMinSeverity c).
Definition put_columns (userID : string) (c : EmailColumns) : World -> World :=
  upd_email (fun t => set_em_columns (<[userID := c]> (em_columns t)) t).
Definition put_confirmation (c : EmailConfirmation) : World -> World :=
  upd_email (fun t => set_em_confirmations (<[ConfUserID c := c]> (em_confirmations t)) t).
Definition put_email (e : Email) : World -> World :=
  upd_email (fun t => set_em_queue (<[EmailID e := e]> (em_queue t)) t).
Definition queue_of (w : World) : gmap string Email := em_queue (w_email w).
Definition queue_rows (w : World) : list Email := map snd (map_to_list (queue_of w)).
Definition upd_queue (f : gmap string Email -> gmap string Email) : World -> World :=
  upd_email (fun t => set_em_queue (f (em_queue t)) t).
Definition upd_digest (f : gmap (string * string) DigestRow -> gmap (string * string) DigestRow) : World -> World :=
  upd_email (fun t => set_em_digest (f (em_digest t)) t).

Section UserEmailRepository.
Context `{Env}.

Definition Get_user_email (userID : string) : M UserEmail :=
  r ← wrap "get user email: " (query (fun w => user_email w <$> w_users w !! userID));
  match r with Some u => mret u | None => throw ErrUserNotFound end.
Definition ListAll_user_email : M (gmap string UserEmail) :=
  wrap "list user emails: " (query (fun w => user_email w <$> w_users w)).

(** The two statements that write an address: they apply to one kind of
    account, and only when something changes. *)
Definition set_address (directory : bool) (userID : string) (email : option string) (source : option EmailSource) : M bool :=
  sql (fun w =>
    match w_users w !! userID with
    | Some u =>
        let c := columns_of w userID in
        if bool_decide (is_directory u = directory)
           && negb (bool_decide (ColEmail c = email) && bool_decide (ColSource c = source)) then
          if negb (opt_text_ok email) then inl (PgError "22021")
          else if negb directory && bool_decide (source = Some EmailSourceDirectory) then inl (PgError "23514")
          else inr (true, put_columns userID (MkEmailColumns email source (ColDelivery c) (ColMinSeverity c)) w)
        else inr (false, w)
    | None => inr (false, w)
    end).
Definition SetDirectory (userID : string) (email : option string) : M bool :=
  wrap "set directory email: "
    (set_address true userID email (match email with Some _ => Some EmailSourceDirectory | None => None end)).
Definition SetLocal (userID : string) (email : option string) (source : EmailSource) : M bool :=
  wrap "set local email: "
    (set_address false userID email (match email with Some _ => Some source | None => None end)).

Definition PutConfirmation (c : EmailConfirmation) : M unit :=
  wrap "put email confirmation: " (sql (fun w =>
    if negb (text_ok (ConfEmail c) && text_ok (ConfTokenHash c)) then inl (PgError "22021")
    else if bool_decide (ConfSource c = EmailSourceDirectory) then inl (PgError "23514")
    else if negb (user_ref_ok (Some (ConfUserID c)) w && user_ref_ok (ConfRequestedBy c) w) then inl (PgError "23503")
    else if existsb (fun kc : string * EmailConfirmation =>
              bool_decide (ConfTokenHash kc.2 = ConfTokenHash c) && negb (bool_decide (kc.1 = ConfUserID c)))
              (map_to_list (em_confirmations (w_email w))) then inl (PgError "23505")
    else inr (tt, put_confirmation c w))).
Definition scanConfirmation (f : World -> option EmailConfirmation) : M EmailConfirmation :=
  r ← wrap "scan email confirmation: " (query f);
  match r with Some c => mret c | None => throw ErrEmailConfirmationNotFound end.
Definition PendingConfirmation (userID : string) : M EmailConfirmation :=
  scanConfirmation (fun w => em_confirmations (w_email w) !! userID).
Definition with_hash (hash : string) (w : World) : option EmailConfirmation :=
  snd <$> List.find (fun kc : string * EmailConfirmation => bool_decide (ConfTokenHash kc.2 = hash))
    (map_to_list (em_confirmations (w_email w))).
Definition ConfirmationByTokenHash (hash : string) : M EmailConfirmation := scanConfirmation (with_hash hash).
Definition drop_confirmation (userID : string) : World -> World :=
  upd_email (fun t => set_em_confirmations (delete userID (em_confirmations t)) t).
Definition DeleteConfirmation (userID : string) : M bool :=
  wrap "delete email confirmation: " (sql (fun w =>
    inr (bool_decide (is_Some (em_confirmations (w_email w) !! userID)), drop_confirmation userID w))).
Definition DeleteExpiredConfirmations (now : Time) : M Z :=
  wrap "delete expired email confirmations: " (sql (fun w =>
    let cs := em_confirmations (w_email w) in
    inr (Z.of_nat (size (filter (fun kc : string * EmailConfirmation => ConfExpiresAt kc.2 < now) cs)),
      upd_email (set_em_confirmations (filter (fun kc : string * EmailConfirmation => ¬ (ConfExpiresAt kc.2 < now)) cs)) w))).

(** ** Preferences, recipients and digests *)
Definition drops_digest (d : EmailDelivery) : bool :=
  match d with EmailDeliveryOff | EmailDeliveryImmediate => true | _ => false end.
Definition SetPreferences (userID : string) (delivery : EmailDelivery) (minSeverity : AlertSeverity) : M unit :=
  transaction "set email preferences: " "set email preferences: " (fun _ =>
    known ← wrap "set email preferences: " (sql (fun w =>
      match w_users w !! userID with
      | Some _ =>
          let c := columns_of w userID in
          inr (true, put_columns userID (MkEmailColumns (ColEmail c) (ColSource c) delivery minSeverity) w)
      | None => inr (false, w)
      end));
    guard_err known ErrUserNotFound ;;
    when (drops_digest delivery) (wrap "drop waiting digest items: "
      (exec (upd_digest (filter (fun kd : (string * string) * DigestRow => kd.1.1 ≠ userID)))))).

(** Whether an alert is addressed to a user: the [EXISTS] of this query, which
    is a text of its own beside that of the inbox. *)
Definition audience_mails (w : World) (u : User) (au : AlertAudience) : bool :=
  match au with
  | AudienceUser id => bool_decide (id = UserID u)
  | AudienceTier min_tier => tier_rank min_tier <=? tier_rank (UTier u)
  | AudienceGroup group =>
      existsb (fun m : (string * string) * option string => bool_decide (m.1 = (group, UserID u))) (map_to_list (w_locals w))
      || existsb (fun g : (string * string) * AppGroupADMapping =>
           existsb (fun c : string * string =>
             bool_decide (to_lower c.2 = to_lower g.1.2) && (bool_decide (g.1.1 = group) && bool_decide (c.1 = UserID u)))
             (elements (w_member w))) (map_to_list (w_admaps w))
  end.
Definition addressed_to (w : World) (alertID : string) (u : User) : bool :=
  existsb (audience_mails w u) (audiences_of w alertID).
Definition recipient (w : World) (alertID : string) (severity : AlertSeverity) (u : User) : option EmailRecipient :=
  let c := columns_of w (UserID u) in
  match ColEmail c with
  | Some email =>
      if negb (bool_decide (ColDelivery c = EmailDeliveryOff)) && (Rank (ColMinSeverity c) <=? Rank severity)
         && addressed_to w alertID u
      then Some (MkRecipient (UserID u) email (ColDelivery c)) else None
  | None => None
  end.
Definition by_user_id (u v : User) : bool := string_le (UserID u) (UserID v).
Definition recipients (alertID : string) (severity : AlertSeverity) (w : World) : list EmailRecipient :=
  omap (recipient w alertID severity) (sort_by by_user_id (map snd (map_to_list (w_users w)))).
Definition RecipientsForAlert (alertID : string) (severity : AlertSeverity) : M (list EmailRecipient) :=
  wrap "find email recipients: " (query (recipients alertID severity)).

Definition greatest (a b : AlertSeverity) : AlertSeverity := if Rank a <? Rank b then b else a.
Definition AddDigestItem (userID alertID : string) (severity : AlertSeverity) (title : string) : M unit :=
  wrap "add digest item: " (sql (fun w =>
    if negb (text_ok title) then inl (PgError "22021")
    else if negb (user_ref_ok (Some userID) w && bool_decide (is_Some (w_alerts w !! alertID))) then inl (PgError "23503")
    else
      let row := match em_digest (w_email w) !! (userID, alertID) with
                 | Some old => MkDigestRow (greatest (DigSeverity old) severity) title (DigQueuedAt old)
                 | None => MkDigestRow severity title (w_clock w)
                 end in
      inr (tt, upd_digest (<[(userID, alertID) := row]>) w))).
Definition waiting_users (mode : EmailDelivery) (w : World) : list string :=
  sort_by string_le (List.filter (fun u => bool_decide (is_Some (w_users w !! u)) && bool_decide (ColDelivery (columns_of w u) = mode))
    (elements (set_map fst (dom (em_digest (w_email w))) : gset string))).
Definition UsersWithDigestItems (mode : EmailDelivery) : M (list string) :=
  wrap "find users with digest items: " (query (waiting_users mode)).
(** [ORDER BY d.queued_at, d.alert_id] *)
Definition oldest_item (a b : DigestItem) : bool :=
  if it_QueuedAt a =? it_QueuedAt b then string_le (it_AlertID a) (it_AlertID b) else it_QueuedAt a <? it_QueuedAt b.
Definition digest_item (w : World) (userID : string) (kd : (string * string) * DigestRow) : option DigestItem :=
  let '((u, alertID), d) := kd in
  if bool_decide (u = userID) then
    a ← w_alerts w !! alertID;
    Some (MkDigestItem alertID (DigSeverity d) (DigTitle d) (DigQueuedAt d)
      (is_open a && bool_decide (DismissedAt (user_state w (Some userID) alertID) = None)))
  else None.
Definition waiting_items (userID : string) (w : World) : list DigestItem :=
  sort_by oldest_item (omap (digest_item w userID) (map_to_list (em_digest (w_email w)))).
Definition PendingDigest (userID : string) : M (list DigestItem) :=
  wrap "get pending digest: " (query (waiting_items userID)).
Definition DeleteDigestItems (userID : string) (alertIDs : list string) : M unit :=
  if bool_decide (alertIDs = []) then mret tt
  else wrap "delete digest items: " (exec (upd_digest (filter (fun kd : (string * string) * DigestRow =>
    ¬ (kd.1.1 = userID /\ kd.1.2 ∈ alertIDs))))).
Definition DeleteDigestItemsOlderThan (cutoff : Time) : M Z :=
  wrap "delete old digest items: " (sql (fun w =>
    inr (Z.of_nat (size (filter (fun kd : (string * string) * DigestRow => DigQueuedAt kd.2 < cutoff) (em_digest (w_email w)))),
      upd_digest (filter (fun kd : (string * string) * DigestRow => ¬ (DigQueuedAt kd.2 < cutoff))) w))).
End UserEmailRepository.

(** ** The queue *)
Definition new_email (id : string) (now : Time) (n : NewEmail) : Email :=
  MkEmail id (ne_Kind n) (ne_ToAddress n) (ne_UserID n) (ne_Subject n) (ne_Body n) EmailPending 0 now None now None.
Definition with_outcome (st : EmailStatus) (err : option string) (sent : option Time) (e : Email) : Email :=
  MkEmail (EmailID e) (EKind e) (ToAddress e) (EUserID e) (ESubject e) (EBody e) st (Attempts e) (NextAttemptAt e) err (ECreatedAt e) sent.
Definition with_attempt (n : Z) (next : Time) (err : option string) (e : Email) : Email :=
  MkEmail (EmailID e) (EKind e) (ToAddress e) (EUserID e) (ESubject e) (EBody e) (EStatus e) n next err (ECreatedAt e) (SentAt e).
Definition is_pending (e : Email) : bool := bool_decide (EStatus e = EmailPending).
Definition sent_email (now : Time) (e : Email) : Email := with_outcome EmailSent None (Some now) e.
Definition failed_email (reason : string) (e : Email) : Email :=
  if is_pending e then with_outcome EmailFailed (Some reason) (SentAt e) e else e.
Definition retried_email (next : Time) (reason : string) (e : Email) : Email :=
  if is_pending e then with_attempt (Attempts e) next (Some reason) e else e.
Definition claimed_email (until : Time) (e : Email) : Email := with_attempt (Attempts e + 1) until (LastError e) e.
Definition is_due (now : Time) (e : Email) : bool := is_pending e && (NextAttemptAt e <=? now).
(** [ORDER BY created_at], ties by id. *)
Definition oldest_email (a b : Email) : bool :=
  if ECreatedAt a =? ECreatedAt b then string_le (EmailID a) (EmailID b) else ECreatedAt a <? ECreatedAt b.
Definition due (limit : nat) (w : World) : list Email :=
  take limit (sort_by oldest_email (List.filter (is_due (w_clock w)) (queue_rows w))).
Definition put_emails (es : list Email) (w : World) : World := fold_right put_email w es.

Section EmailQueueRepository.
Context `{Env}.
Definition Enqueue_db (n : NewEmail) : M Email :=
  wrap "enqueue email: " (wrap "scan email: " (sql (fun w =>
    let e := new_email (gen_random_uuid (w_calls w)) (w_clock w) n in
    if negb (forallb text_ok [ne_ToAddress n; ne_Subject n; ne_Body n]) then inl (PgError "22021")
    else if bool_decide (is_Some (queue_of w !! EmailID e)) then inl (PgError "23505")
    else if negb (user_ref_ok (ne_UserID n) w) then inl (PgError "23503")
    else inr (e, put_email e w)))).
(** The lease is a whole number of seconds. *)
Definition Claim (limit : nat) (lease : Z) : M (list Email) :=
  wrap "claim emails: " (sql (fun w =>
    let claimed := map (claimed_email (w_clock w + lease / second * second)) (due limit w) in
    inr (claimed, put_emails claimed w))).
Definition MarkSent (id : string) : M unit :=
  wrap "mark email sent: " (exec (fun w => upd_queue (alter (sent_email (w_clock w)) id) w)).
Definition reason_ok (reason : string) (f : World -> World) (w : World) : error + (unit * World) :=
  if text_ok reason then inr (tt, f w) else inl (PgError "22021").
Definition MarkRetry (id : string) (next : Time) (reason : string) : M unit :=
  wrap "mark email for retry: " (sql (reason_ok reason (upd_queue (alter (retried_email next reason) id)))).
Definition MarkFailed (id reason : string) : M unit :=
  wrap "mark email failed: " (sql (reason_ok reason (upd_queue (alter (failed_email reason) id)))).
Definition FailOlderThan (cutoff : Time) (reason : string) : M Z :=
  wrap "fail old emails: " (sql (fun w =>
    inr (Z.of_nat (length (List.filter (fun e => is_pending e && (ECreatedAt e <? cutoff)) (queue_rows w))),
      upd_queue (fmap (fun e => if ECreatedAt e <? cutoff then failed_email reason e else e)) w))).
Definition DeleteOlderThan_emails (cutoff : Time) : M Z :=
  wrap "delete old emails: " (sql (fun w =>
    inr (Z.of_nat (length (List.filter (fun e => negb (is_pending e) && (ECreatedAt e <? cutoff)) (queue_rows w))),
      upd_queue (filter (fun ke : string * Email => ¬ (EStatus ke.2 ≠ EmailPending /\ ECreatedAt ke.2 < cutoff))) w))).
Definition newest_email (a b : Email) : bool :=
  if ECreatedAt a =? ECreatedAt b then string_le (EmailID a) (EmailID b) else ECreatedAt b <? ECreatedAt a.
Definition count_rows (p : Email -> bool) (w : World) : Z := Z.of_nat (length (List.filter p (queue_rows w))).
Definition Stats : M EmailQueueStats :=
  n ← wrap "email queue stats: " (query (fun w =>
    (count_rows is_pending w,
     count_rows (fun e => bool_decide (EStatus e = EmailSent)
        && match SentAt e with Some t => w_clock w - 24 * hour <? t | None => false end) w,
     count_rows (fun e => bool_decide (EStatus e = EmailFailed) && (w_clock w - 7 * 24 * hour <? ECreatedAt e)) w)));
  last ← wrap "email queue last error: " (query (fun w =>
    head (sort_by newest_email (List.filter (fun e =>
      bool_decide (is_Some (LastError e)) && negb (bool_decide (EStatus e = EmailSent))) (queue_rows w)))));
  let '(p, s, f) := n in
  mret (match last with
        | Some e => MkQueueStats p s f (default "" (LastError e)) (ECreatedAt e)
        | None => MkQueueStats p s f "" 0
        end).
Definition Recent (limit : nat) : M (list Email) :=
  wrap "recent emails: " (query (fun w => take limit (sort_by newest_email (queue_rows w)))).

(** ** The settings row *)
(** The time-of-day pattern of the CHECK and of [digestTimePattern]. *)
Definition digestTimePattern (s : string) : bool :=
  match bytes s with
  | [a; b; c; d; e] =>
      ((in_range 48 49 a && is_digit b) || (is_char 50 a && in_range 48 51 b)) && is_char 58 c && in_range 48 53 d && is_digit e
  | _ => false
  end.
Definition settings_ok (s : EmailSettings) : bool :=
  (1 <=? EmPort s) && (EmPort s <=? 65535)
  && (negb (EmEnabled s) || (negb (bool_decide (EmHost s = "")) && negb (bool_decide (EmFromAddress s = ""))))
  && digestTimePattern (DailyDigestTime s).
Definition settings_text (s : EmailSettings) : bool :=
  forallb text_ok [EmHost s; EmUsername s; EmFromAddress s; EmFromName s; DailyDigestTime s].
Definition write_settings (s : EmailSettings) (w : World) : error + (unit * World) :=
  if negb (settings_text s) then inl (PgError "22021")
  else if negb (settings_ok s) then inl (PgError "23514")
  else if negb (user_ref_ok (EmUpdatedBy s) w) then inl (PgError "23503")
  else inr (tt, upd_email (set_em_settings s) w).
Definition Get_email_settings : M EmailSettings :=
  wrap "get email settings: " (query (fun w => em_settings (w_email w))).
(** What an Admin can change; the digest schedule restarts when the time does. *)
Definition updated_settings (now : Time) (prev s : EmailSettings) : EmailSettings :=
  MkEmailSettings (EmEnabled s) (EmHost s) (EmPort s) (EmTLSMode s) (EmUsername s) (EmFromAddress s) (EmFromName s)
    (DailyDigestTime s)
    (if bool_decide (DailyDigestTime prev = DailyDigestTime s) then DigestScheduleSetAt prev else now)
    (LastHourlyDigestAt prev) (LastDailyDigestAt prev) (EmUpdatedBy s) now.
Definition Update_email_settings (s : EmailSettings) : M unit :=
  wrap "update email settings: " (sql (fun w => write_settings (updated_settings (w_clock w) (em_settings (w_email w)) s) w)).
Definition Restore_email_settings (prev : EmailSettings) : M unit :=
  wrap "restore email settings: " (sql (write_settings prev)).
Definition mark_run (kind : DigestKind) (t : Time) (s : EmailSettings) : EmailSettings :=
  MkEmailSettings (EmEnabled s) (EmHost s) (EmPort s) (EmTLSMode s) (EmUsername s) (EmFromAddress s) (EmFromName s)
    (DailyDigestTime s) (DigestScheduleSetAt s)
    (match kind with DigestHourly => Some t | DigestDaily => LastHourlyDigestAt s end)
    (match kind with DigestDaily => Some t | DigestHourly => LastDailyDigestAt s end) (EmUpdatedBy s) (EmUpdatedAt s).
Definition DigestKind_string (k : DigestKind) : string := match k with DigestHourly => "hourly" | DigestDaily => "daily" end.
Definition MarkDigestRun (kind : DigestKind) (startedAt : Time) : M unit :=
  wrap ("mark " +:+ DigestKind_string kind +:+ " digest run: ")
    (exec (upd_email (fun t => set_em_settings (mark_run kind startedAt (em_settings t)) t))).
End EmailQueueRepository.
