(* ===== verification/Mailer.v ===== *)
(** * Sending one e-mail through a relay ([internal/mailer/mailer.go])

    [Send] speaks SMTP to a relay.  The relay and the network are a record of
    what they answer at each step ([Relay]); what the server says, and whether
    the connection was encrypted when it said it, is the trace in [Conn].  The
    MIME text of the message ([build] past its check of the subject) is left
    out: the trace carries what it is made of. *)
From stdpp Require Import base list strings.
From Stdlib Require Import ZArith Lia.
From Stdlib Require Import Ascii.
From Stdlib Require String.
From S2P Require Import Prelude Text Runes Db NetIP EmailStore.
Local Open Scope string_scope.
Local Open Scope list_scope.
Local Open Scope Z_scope.

(** ** Checks *)
Definition control (r : Z) : bool := (r <? 32) || (r =? 127).
Definition hasControl (s : string) : bool := existsb control (runes s).
(** [strings.ContainsAny] of ASCII characters. *)
Definition contains_any (codes : list Z) (s : string) : bool :=
  existsb (fun c => bool_decide (code c ∈ codes)) (bytes s).
Definition host_breaks : list Z := [32; 9; 13; 10; 47].

(** *** [mail.ParseAddress] on text without angle brackets, commas, semicolons
    and quotes

    A display name or a group needs one of those, so the address is an
    addr-spec, a dot-atom or an IP address in brackets after the at sign.  What
    follows it (a comment) makes the address differ from the text. *)
Definition specials : list Z := [40; 41; 60; 62; 91; 93; 58; 59; 64; 92; 44; 34].
Definition is_atext (r : Z) : bool :=
  negb (bool_decide (r ∈ specials)) && (((33 <=? r) && (r <=? 126)) || (128 <=? r)).
(** The longest run of atext and dots; [None] when a byte of it is not UTF-8. *)
Fixpoint take_atext (l : list (Z * list ascii)) : option (list (Z * list ascii) * list (Z * list ascii)) :=
  match l with
  | [] => Some ([], [])
  | c :: l' =>
      if bad_chunk c then None
      else if is_atext c.1 then
        match take_atext l' with Some (a, rest) => Some (c :: a, rest) | None => None end
      else Some ([], l)
  end.
Definition consumeAtom (l : list (Z * list ascii)) : option (string * list (Z * list ascii)) :=
  match take_atext l with
  | Some ((_ :: _) as a, rest) =>
      let atom := unchunk a in
      if has_prefix atom "." || contains atom ".." || has_suffix atom "." then None else Some (atom, rest)
  | _ => None
  end.
Definition skip_spaces (l : list (Z * list ascii)) : list (Z * list ascii) :=
  (fix go l := match l with c :: l' => if (c.1 =? 32) || (c.1 =? 9) then go l' else l | [] => [] end) l.
Fixpoint until_bracket (l : list (Z * list ascii)) : option (string * list (Z * list ascii)) :=
  match l with
  | [] => None
  | c :: l' =>
      if c.1 =? 93 then Some ("", l')
      else if (33 <=? c.1) && (c.1 <=? 126) && negb (c.1 =? 91) && negb (c.1 =? 92) then
        match until_bracket l' with Some (d, rest) => Some (of_bytes c.2 +:+ d, rest) | None => None end
      else None
  end.
Definition consumeDomain (l : list (Z * list ascii)) : option (string * list (Z * list ascii)) :=
  match skip_spaces l with
  | (91, _) :: l' =>
      match until_bracket l' with
      | Some (d, rest) => match ParseIP d with Some _ => Some ("[" +:+ d +:+ "]", rest) | None => None end
      | None => None
      end
  | l' => consumeAtom l'
  end.
Definition mail_ParseAddress (s : string) : option string :=
  match consumeAtom (chunks s) with
  | Some (local_part, (64, _) :: rest) =>
      match consumeDomain rest with
      | Some (domain, _) => Some (local_part +:+ "@" +:+ domain)
      | None => None
      end
  | _ => None
  end.

Definition last_index (n : Z) (s : string) : option nat :=
  (fix go l i := match l with
   | [] => None
   | c :: l' => match go l' (S i) with Some j => Some j | None => if is_char n c then Some i else None end
   end) (bytes s) 0%nat.
Definition address_breaks : list Z := [60; 62; 44; 59; 34].
Definition ParseAddress (s0 : string) : result string :=
  let s := trim_space s0 in
  if bool_decide (s = "") then Err (Sentinel "" "the address is empty")
  else if (254 <? len s) || hasControl s || contains_any address_breaks s then Err (Sentinel "" "the address is not valid")
  else if negb (bool_decide (mail_ParseAddress s = Some s)) then Err (Sentinel "" "the address is not valid")
  else
    let dotted := match last_index 64 s with
                  | Some (S _ as at_) => existsb (is_char 46) (drop (S at_) (bytes s))
                  | _ => false
                  end in
    if negb dotted || has_suffix s "." then Err (Sentinel "" "the address needs a domain such as example.com")
    else Ok s.

(** A parsed address is parsed as it is. *)
Lemma ParseAddress_ok s a : ParseAddress s = Ok a -> ParseAddress a = Ok a.
Proof.
  unfold ParseAddress. cbv zeta. intros He. assert (Ha : trim_space s = a).
  { repeat match type of He with context [if ?b then _ else _] => destruct b; [done|] end. by injection He. }
  rewrite Ha in He. assert (Ht : trim_space a = a) by (rewrite <-Ha; apply trim_space_idemp). by rewrite Ht.
Qed.
Lemma ParseAddress_nonempty s a : ParseAddress s = Ok a -> a <> "".
Proof. intros Hp%ParseAddress_ok ->. by vm_compute in Hp. Qed.

(** ** The configuration *)
Record Config := MkConfig {
  mc_Host : string; mc_Port : Z; mc_TLSMode : EmailTLSMode; mc_Username : string; mc_Password : string; mc_CAFile : string;
  mc_FromAddress : string; mc_FromName : string; mc_HelloName : string; mc_Timeout : Z
}.
Definition ErrNotConfigured : error := Sentinel "mailer.ErrNotConfigured" "email is not configured".
Definition ErrPermanent : error := Sentinel "mailer.ErrPermanent" "the relay refused this message".
Definition IsPermanent (e : error) : bool := errors_Is e "mailer.ErrPermanent".
Definition not_configured (msg : string) : option error := Some (Errorf "" ErrNotConfigured (": " +:+ msg)).
(** The TLS mode is an enumeration, so its refusal cannot fire. *)
Definition Validate_config (c : Config) : option error :=
  if bool_decide (trim_space (mc_Host c) = "") || contains_any host_breaks (mc_Host c)
  then not_configured "the relay host is missing or malformed"
  else if (mc_Port c <? 1) || (65535 <? mc_Port c) then not_configured "the port must be between 1 and 65535"
  else match ParseAddress (mc_FromAddress c) with
       | Err e => not_configured ("the from address: " +:+ error_text e)
       | Ok _ => if hasControl (mc_FromName c) then not_configured "the from name has control characters" else None
       end.

(** ** The relay *)

(** An answer of the relay, or the connection failing. *)
Inductive reply := Reply (code : Z) (msg : string) | Broken (text : string).
(** One step of a login: a challenge (a text, or what is not base64), the
    end, or anything else. *)
Inductive auth_reply := Challenge (text : option string) | LoggedIn (msg : string) | AuthRefused (code : Z) (msg : string) | AuthBroken (text : string).
Record Relay := MkRelay {
  rl_tls_config : option string;
  rl_dial : option string;
  rl_handshake : option string;
  rl_greeting : option string;
  rl_hello : option string;
  rl_extensions : list (string * string);
  rl_starttls : option string;
  rl_tls_extensions : list (string * string);
  rl_auth : list auth_reply;
  rl_mail : reply; rl_rcpt : reply; rl_data : reply; rl_write : option string; rl_end : reply
}.

(** What the server says. *)
Inductive Command :=
| CHello (name : string) | CStartTLS | CAuth (mech : string) (initial : option string) | CAuthResponse (text : string)
| CAuthCancel | CMail (from : string) | CRcpt (to_ : string) | CData | CBody (from_name from : string) (m : MailMessage) | CQuit.
Record Conn := MkConn { encrypted : bool; trace : list (bool * Command) }.
Definition conn0 : Conn := MkConn false [].

Definition say (c : Command) : ST Conn unit := modify (fun k => MkConn (encrypted k) (trace k ++ [(encrypted k, c)])).
Definition encrypt : ST Conn unit := modify (fun k => MkConn true (trace k)).
Definition fails (pre : string) (o : option string) : ST Conn unit :=
  match o with Some t => throw (Opaque (pre +:+ t)) | None => mret tt end.

(** *** Replies and their classes *)
Definition reply_text (r : reply) : string := match r with Reply code msg => itoa code +:+ " " +:+ msg | Broken t => t end.
(** [classify]: a 5xx reply is permanent. *)
Definition classify (pre : string) (r : reply) : error :=
  match r with
  | Reply code _ => if (500 <=? code) && (code <? 600) then Errorf "" ErrPermanent (": " +:+ pre +:+ reply_text r) else Opaque (pre +:+ reply_text r)
  | Broken t => Opaque (pre +:+ t)
  end.
Definition is_code (lo hi : Z) (r : reply) : bool := match r with Reply c _ => (lo <=? c) && (c <=? hi) | Broken _ => false end.
Definition ask (c : Command) (r : reply) (lo hi : Z) (f : reply -> error) : ST Conn unit :=
  say c ;; if is_code lo hi r then mret tt else throw (f r).

(** *** Logging in *)
Definition Extension (exts : list (string * string)) (name : string) : option string :=
  snd <$> List.find (fun e => bool_decide (e.1 = name)) exts.
Definition words (s : string) : list string := map of_runes (fields (runes s)).
Definition hasMech (list_ want : string) : bool := existsb (fun m => equal_fold m want) (words list_).
(** [net.IP.IsLoopback] on the sixteen bytes. *)
Definition IsLoopback (ip : IP) : bool :=
  match ip with
  | [0; 0; 0; 0; 0; 0; 0; 0; 0; 0; 255; 255; a; _; _; _] => a =? 127
  | _ => bool_decide (ip = repeat 0 15 ++ [1])
  end.
Definition authAllowed (host : string) (enc : bool) : bool :=
  if enc then true
  else if bool_decide (host = "localhost") then true
  else match ParseIP host with Some ip => IsLoopback ip | None => false end.

Inductive Auth := PlainAuth (user pass : string) | LoginAuth (user pass : string).
Definition auth_Start (a : Auth) : string * option string :=
  match a with
  | PlainAuth user pass => ("PLAIN", Some (chr 0 +:+ user +:+ chr 0 +:+ pass))
  | LoginAuth _ _ => ("LOGIN", None)
  end.
(** [Next] at a challenge. *)
Definition auth_Next (a : Auth) (challenge : string) : error + string :=
  match a with
  | PlainAuth _ _ => inl (Opaque "unexpected challenge")
  | LoginAuth user pass =>
      let c := to_lower (trim_space challenge) in
      if bool_decide (c = "username:") then inr user
      else if bool_decide (c = "password:") then inr pass
      else inl (Opaque ("unexpected LOGIN challenge " +:+ quote challenge))
  end.
(** [smtp.Client.Auth]: answer challenges until the relay is done. *)
Definition auth_stop (e : error) : ST Conn unit := say CAuthCancel ;; say CQuit ;; throw e.
Fixpoint auth_loop (a : Auth) (rs : list auth_reply) : ST Conn unit :=
  match rs with
  | [] => throw (Opaque "EOF")
  | AuthBroken t :: _ => throw (Opaque t)
  | LoggedIn _ :: _ => mret tt
  | AuthRefused code msg :: _ => auth_stop (Opaque (itoa code +:+ " " +:+ msg))
  | Challenge None :: _ => auth_stop (Opaque "illegal base64 data")
  | Challenge (Some t) :: rs' =>
      match auth_Next a t with
      | inl e => auth_stop e
      | inr resp => say (CAuthResponse resp) ;; auth_loop a rs'
      end
  end.
Definition client_Auth (a : Auth) (rs : list auth_reply) : ST Conn unit :=
  say (CAuth (auth_Start a).1 (auth_Start a).2) ;; auth_loop a rs.
Definition authenticate (c : Config) (exts : list (string * string)) (rs : list auth_reply) : ST Conn unit :=
  enc ← gets encrypted;
  guard_err (authAllowed (mc_Host c) enc)
    (Opaque ("refusing to send the relay password in the clear to " +:+ mc_Host c +:+ ": use STARTTLS or TLS")) ;;
  match Extension exts "AUTH" with
  | None => throw (Opaque ("a user name is set but " +:+ mc_Host c +:+ " does not offer authentication"))
  | Some mechs =>
      if hasMech mechs "PLAIN" then wrap "log in to the relay: " (client_Auth (PlainAuth (mc_Username c) (mc_Password c)) rs)
      else if hasMech mechs "LOGIN" then wrap "log in to the relay: " (client_Auth (LoginAuth (mc_Username c) (mc_Password c)) rs)
      else throw (Opaque (mc_Host c +:+ " offers no login method this server supports (it offers: " +:+ mechs +:+ ")"))
  end.

(** The check of [build]: tabs are let through. *)
Definition build_check (m : MailMessage) : option error :=
  if existsb (fun r => control r && negb (r =? 9)) (runes (MailSubject m)) then Some (Opaque "the subject has control characters") else None.

(** ** [Config.Send] *)
Definition addr_text (c : Config) : string :=
  (if existsb (is_char 58) (bytes (mc_Host c)) then "[" +:+ mc_Host c +:+ "]" else mc_Host c) +:+ ":" +:+ itoa (mc_Port c).
Definition starttls_step (c : Config) (r : Relay) : ST Conn (list (string * string)) :=
  match mc_TLSMode c with
  | EmailTLSStartTLS =>
      match Extension (rl_extensions r) "STARTTLS" with
      | None => throw (Opaque (addr_text c +:+ " does not offer STARTTLS, so nothing was sent (use a relay that does, or set the TLS mode to none for a relay on a trusted network)"))
      | Some _ =>
          say CStartTLS ;;
          fails ("STARTTLS with " +:+ addr_text c +:+ ": ") (rl_starttls r) ;;
          encrypt ;; mret (rl_tls_extensions r)
      end
  | _ => mret (rl_extensions r)
  end.
Definition transfer_mail (c : Config) (r : Relay) (to_ : string) (m : MailMessage) : ST Conn unit :=
  ask (CMail (mc_FromAddress c)) (rl_mail r) 250 250 (fun e => Opaque ("MAIL FROM: " +:+ reply_text e)) ;;
  ask (CRcpt to_) (rl_rcpt r) 250 259 (classify "RCPT TO: ") ;;
  ask CData (rl_data r) 354 354 (classify "DATA: ") ;;
  fails "send the message: " (rl_write r) ;;
  ask (CBody (mc_FromName c) (mc_FromAddress c) (MkMail to_ (MailSubject m) (MailBody m))) (rl_end r) 250 250
    (classify "end of message: ") ;;
  say CQuit.
Definition Send_mail (c : Config) (r : Relay) (m : MailMessage) : ST Conn unit :=
  match Validate_config c with Some e => throw e | None => mret tt end ;;
  to_ ← match ParseAddress (MailTo m) with Err e => throw (Errorf "the recipient: " e "") | Ok a => mret a end;
  match build_check m with Some e => throw e | None => mret tt end ;;
  fails "" (rl_tls_config r) ;;
  fails ("connect to " +:+ addr_text c +:+ ": ") (rl_dial r) ;;
  when (bool_decide (mc_TLSMode c = EmailTLSImplicit))
    (fails ("TLS handshake with " +:+ addr_text c +:+ ": ") (rl_handshake r) ;; encrypt) ;;
  fails ("start the conversation with " +:+ addr_text c +:+ ": ") (rl_greeting r) ;;
  say (CHello (if bool_decide (mc_HelloName c = "") then "localhost" else mc_HelloName c)) ;;
  fails "EHLO: " (rl_hello r) ;;
  exts ← starttls_step c r;
  when (negb (bool_decide (mc_Username c = ""))) (authenticate c exts (rl_auth r)) ;;
  transfer_mail c r to_ m.

Example parse_bare : ParseAddress " ann@example.com " = Ok "ann@example.com".
Proof. vm_compute. reflexivity. Qed.
Example parse_refused :
  forallb (fun s => negb (is_ok (ParseAddress s))) ["ann"; "ann@localhost"; "Ann <ann@example.com>"; "a..b@example.com"; "ann@example.com (x)";
    ".a@example.com"; "a@b@c.com"; "ann@example.com."; "@example.com"] = true.
Proof. vm_compute. reflexivity. Qed.
Example parse_literal : ParseAddress "ann@[10.0.0.1]" = Ok "ann@[10.0.0.1]".
Proof. vm_compute. reflexivity. Qed.

(** ** What is said in the clear *)
Definition is_login (cmd : Command) : bool := match cmd with CAuth _ _ | CAuthResponse _ => true | _ => false end.
(** The mail and the login, as against the greeting and the end. *)
Definition confidential (cmd : Command) : bool :=
  is_login cmd || match cmd with CMail _ | CRcpt _ | CData | CBody _ _ _ => true | _ => false end.
Definition guarded (c : Config) (said : bool * Command) : Prop :=
  (confidential said.2 = true -> said.1 = true \/ mc_TLSMode c = EmailTLSNone) /\
  (is_login said.2 = true -> authAllowed (mc_Host c) said.1 = true).
Definition discreet (c : Config) (k : Conn) : Prop := Forall (guarded c) (trace k).
Definition ready (c : Config) (k : Conn) : Prop := encrypted k = true \/ mc_TLSMode c = EmailTLSNone.
Definition may_login (c : Config) (k : Conn) : Prop := authAllowed (mc_Host c) (encrypted k) = true.

Section Discreet.
Context (c : Config).
Lemma keeps_say_mail cmd : is_login cmd = false -> Keeps (fun k => discreet c k /\ ready c k) (say cmd).
Proof.
  intros Hl k [Hd Hr]. split; [|exact Hr]. apply Forall_app. split; [exact Hd|]. apply Forall_singleton.
  split; simpl; [by intros _|]. by rewrite Hl.
Qed.
Lemma keeps_say_login cmd : Keeps (fun k => (discreet c k /\ ready c k) /\ may_login c k) (say cmd).
Proof.
  intros k [[Hd Hr] Hm]. split; [split; [|exact Hr]|exact Hm]. apply Forall_app. split; [exact Hd|]. apply Forall_singleton.
  by split; simpl; intros _.
Qed.
Lemma keeps_say_open cmd : confidential cmd = false -> Keeps (discreet c) (say cmd).
Proof.
  intros Hc k Hd. apply Forall_app. split; [exact Hd|]. apply Forall_singleton. split; simpl; [by rewrite Hc|].
  apply orb_false_iff in Hc as [Hc _]. by rewrite Hc.
Qed.
Lemma keeps_fails I pre o : Keeps I (fails pre o).
Proof. unfold fails. destruct o; apply _. Qed.
Lemma keeps_ask cmd r lo hi f : is_login cmd = false -> Keeps (fun k => discreet c k /\ ready c k) (ask cmd r lo hi f).
Proof. intros Hl. unfold ask. apply keeps_bind; [by apply keeps_say_mail|]. intros _. destruct (is_code _ _ _); apply _. Qed.
Lemma keeps_transfer r to_ m : Keeps (fun k => discreet c k /\ ready c k) (transfer_mail c r to_ m).
Proof.
  unfold transfer_mail. repeat (apply keeps_bind; [first [by apply keeps_ask|apply keeps_fails]|intros _]). by apply keeps_say_mail.
Qed.
Lemma keeps_client_Auth a rs : Keeps (fun k => (discreet c k /\ ready c k) /\ may_login c k) (client_Auth a rs).
Proof.
  assert (Hs : forall e, Keeps (fun k => (discreet c k /\ ready c k) /\ may_login c k) (auth_stop e)).
  { intros e. unfold auth_stop. repeat (apply keeps_bind; [apply keeps_say_login|intros _]). apply _. }
  unfold client_Auth. apply keeps_bind; [apply keeps_say_login|intros _].
  induction rs as [|[[t|]|msg|code msg|t] rs IH]; cbn [auth_loop]; try apply _; try apply Hs.
  destruct (auth_Next a t); [apply Hs|]. apply keeps_bind; [apply keeps_say_login|intros _; exact IH].
Qed.
Lemma keeps_authenticate exts rs : Keeps (fun k => discreet c k /\ ready c k) (authenticate c exts rs).
Proof.
  apply keeps_wp. intros k Hk. unfold authenticate. apply wp_bind, wp_gets, wp_bind, wp_guard; intros Ha; [|done].
  assert (Hkm : (discreet c k /\ ready c k) /\ may_login c k) by done.
  assert (Hc : forall a, wp (wrap "log in to the relay: " (client_Auth a rs)) k (fun _ k' => discreet c k' /\ ready c k')).
  { intros a. eapply (wp_inv (fun k => (discreet c k /\ ready c k) /\ may_login c k)); [|exact Hkm|by intros _ k' [Hk' _]].
    apply keeps_wrap, keeps_client_Auth. }
  destruct (Extension exts "AUTH") as [mechs|]; [|done].
  destruct (hasMech mechs "PLAIN"); [apply Hc|]. destruct (hasMech mechs "LOGIN"); [apply Hc|done].
Qed.

Lemma wp_fails pre o k (Q : result unit -> Conn -> Prop) : (forall e, Q (Err e) k) -> Q (Ok tt) k -> wp (fails pre o) k Q.
Proof. intros He Hok. unfold fails. destruct o; [apply wp_throw, He|apply wp_ret, Hok]. Qed.
Lemma wp_option o k (Q : result unit -> Conn -> Prop) :
  (forall e, o = Some e -> Q (Err e) k) -> (o = None -> Q (Ok tt) k) ->
  wp (match o with Some e => throw e | None => mret tt end) k Q.
Proof. intros He Hok. destruct o; [by apply wp_throw, He|by apply wp_ret, Hok]. Qed.
Lemma wp_starttls r k (Q : result (list (string * string)) -> Conn -> Prop) :
  discreet c k -> (mc_TLSMode c = EmailTLSImplicit -> encrypted k = true) ->
  (forall e k', discreet c k' -> Q (Err e) k') ->
  (forall exts k', discreet c k' -> ready c k' -> Q (Ok exts) k') -> wp (starttls_step c r) k Q.
Proof.
  intros Hd Hi He Hok. unfold starttls_step. destruct (mc_TLSMode c) eqn:Em.
  - apply wp_ret, Hok; [exact Hd|by right].
  - destruct (Extension (rl_extensions r) "STARTTLS"); [|by apply wp_throw, He].
    apply wp_bind. eapply (wp_inv (discreet c)); [by apply keeps_say_open|exact Hd|]. intros [[]|e] k1 Hk1; [|by apply He].
    apply wp_bind, wp_fails; [intros e; by apply He|]. apply wp_bind, wp_modify, wp_ret, Hok; [exact Hk1|by left].
  - apply wp_ret, Hok; [exact Hd|left; by apply Hi].
Qed.
End Discreet.

(** C28: what a delivery says to the relay, whatever the relay answers: with
    STARTTLS or TLS configured the addresses, the mail and the login go over
    an encrypted connection only (a relay that does not offer STARTTLS gets
    nothing), and without it a login goes to this machine only. *)
Theorem Send_discreet c r m : discreet c (snd (Send_mail c r m conn0)).
Proof.
  change (wp (Send_mail c r m) conn0 (fun _ k => discreet c k)).
  assert (Hd : discreet c conn0) by constructor. unfold Send_mail.
  apply wp_bind, wp_option; [done|intros _]. apply wp_bind. destruct (ParseAddress (MailTo m)) as [to_|e]; [|done]. apply wp_ret.
  apply wp_bind, wp_option; [done|intros _]. apply wp_bind, wp_fails; [done|].
  apply wp_bind, wp_fails; [done|]. apply wp_bind.
  eapply (wp_mono _ _ (fun r k => discreet c k /\ (is_ok r = true -> mc_TLSMode c = EmailTLSImplicit -> encrypted k = true))).
  { apply wp_when; intros Hb; propb; [|by split]. apply wp_bind, wp_fails; [done|]. apply wp_modify. by split. }
  intros [[]|e] k1 [Hk1 Hi]; [|done]. specialize (Hi eq_refl).
  apply wp_bind, wp_fails; [done|]. apply wp_bind, wp_modify.
  set (k2 := MkConn _ _). assert (Hk2 : discreet c k2) by by apply (keeps_say_open c (CHello _)).
  apply wp_bind, wp_fails; [done|]. apply wp_bind, wp_starttls; [done|exact Hi|done|]. intros exts k3 Hk3 Hr3.
  eapply (wp_inv (fun k => discreet c k /\ ready c k)); [|by split|by intros _ k [Hk _]].
  apply keeps_bind; [|intros _; apply keeps_transfer]. apply keeps_when, keeps_authenticate.
Qed.

(** ** How a delivery ends *)
Definition refused (r : reply) : bool := is_code 500 599 r.
Definition final_refusal (r : Relay) : Prop := refused (rl_rcpt r) = true \/ refused (rl_data r) = true \/ refused (rl_end r) = true.
Section Outcome.
Context (c : Config) (r : Relay).

Lemma classify_permanent pre a : IsPermanent (classify pre a) = refused a.
Proof.
  unfold classify, refused, is_code, IsPermanent. destruct a as [code msg|t]; [|done].
  assert ((code <=? 599) = (code <? 600)) as -> by lia. by destruct ((500 <=? code) && (code <? 600)).
Qed.
Lemma wp_ask cmd a lo hi f k (Q : result unit -> Conn -> Prop) :
  (is_code lo hi a = false -> Q (Err (f a)) (MkConn (encrypted k) (trace k ++ [(encrypted k, cmd)]))) ->
  (is_code lo hi a = true -> Q (Ok tt) (MkConn (encrypted k) (trace k ++ [(encrypted k, cmd)]))) -> wp (ask cmd a lo hi f) k Q.
Proof.
  intros He Hok. unfold ask. apply wp_bind, wp_modify. destruct (is_code lo hi a); [by apply wp_ret, Hok|by apply wp_throw, He].
Qed.
(** An error that is not a refusal of the recipient or the message is not
    permanent, and a permanent one is such a refusal. *)
Definition soft (e : error) : Prop := IsPermanent e = true -> final_refusal r.
#[local] Instance soft_wrap : WrapClosed soft.
Proof. intros p e q He. exact He. Qed.
Lemma raises_fails pre o : Raises soft (fails pre o).
Proof. unfold fails. destruct o; [by apply raises_throw|apply _]. Qed.
Lemma raises_say cmd : Raises soft (say cmd).
Proof. by intros k e. Qed.
Lemma raises_encrypt : Raises soft encrypt.
Proof. by intros k e. Qed.
Lemma raises_auth_stop e : soft e -> Raises soft (auth_stop e).
Proof. intros He. unfold auth_stop. repeat (apply raises_bind; [apply raises_say|intros _]). by apply raises_throw. Qed.
Lemma raises_authenticate exts rs : Raises soft (authenticate c exts rs).
Proof.
  unfold authenticate. apply raises_bind; [by intros k e|intros enc]. apply raises_bind; [by apply raises_guard|intros _].
  destruct (Extension exts "AUTH") as [mechs|]; [|by apply raises_throw].
  assert (Hl : forall a, Raises soft (auth_loop a rs)).
  { intros a. induction rs as [|[[t|]|msg|code msg|t] rs' IH]; cbn [auth_loop]; try (by apply raises_throw); try (by apply raises_auth_stop).
    - destruct a as [u p|u p]; unfold auth_Next; [by apply raises_auth_stop|]. cbv zeta. repeat case_bool_decide;
        first [by apply raises_auth_stop|apply raises_bind; [apply raises_say|intros _; exact IH]].
    - apply _. }
  assert (Hc : forall a, Raises soft (wrap "log in to the relay: " (client_Auth a rs))).
  { intros a. apply raises_wrap; [apply _|]. unfold client_Auth. apply raises_bind; [apply raises_say|intros _; apply Hl]. }
  destruct (hasMech mechs "PLAIN"); [apply Hc|]. destruct (hasMech mechs "LOGIN"); [apply Hc|by apply raises_throw].
Qed.
Lemma raises_starttls : Raises soft (starttls_step c r).
Proof.
  unfold starttls_step. destruct (mc_TLSMode c); [apply _| |apply _].
  destruct (Extension (rl_extensions r) "STARTTLS"); [|by apply raises_throw].
  apply raises_bind; [apply raises_say|intros _]. apply raises_bind; [apply raises_fails|intros _].
  apply raises_bind; [apply raises_encrypt|intros _; apply _].
Qed.

(** The relay confirmed the message, which was the one asked for, to the one
    recipient. *)
Definition confirmed (m : MailMessage) (k : Conn) : Prop :=
  is_code 250 250 (rl_end r) = true /\ exists enc to_, ParseAddress (MailTo m) = Ok to_ /\
    (enc, CBody (mc_FromName c) (mc_FromAddress c) (MkMail to_ (MailSubject m) (MailBody m))) ∈ trace k.
Lemma wp_soft {A} (m : ST Conn A) k (Q : result A -> Conn -> Prop) : Raises soft m ->
  (forall e k', soft e -> Q (Err e) k') -> (forall a k', Q (Ok a) k') -> wp m k Q.
Proof. intros Hr He Hok. apply (wp_raises soft); auto. Qed.
Lemma wp_transfer to_ m k : ParseAddress (MailTo m) = Ok to_ ->
  wp (transfer_mail c r to_ m) k (fun res k' => match res with Ok _ => confirmed m k' | Err e => soft e end).
Proof.
  intros Hp. unfold transfer_mail. apply wp_bind, wp_ask; [done|intros _].
  apply wp_bind, wp_ask; [intros _; unfold soft; rewrite classify_permanent; by left|intros _].
  apply wp_bind, wp_ask; [intros _; unfold soft; rewrite classify_permanent; by right; left|intros _].
  apply wp_bind, wp_soft; [apply raises_fails|done|intros _ k1].
  apply wp_bind, wp_ask; [intros _; unfold soft; rewrite classify_permanent; by right; right|intros He].
  apply wp_modify. split; [exact He|]. eexists _, to_. split; [done|]. apply elem_of_app. left. apply elem_of_app. right. apply list_elem_of_singleton. reflexivity.
Qed.
End Outcome.

(** C29: how a delivery ends: without an error only when the relay confirmed
    the very message, for its recipient; and with an error that retrying
    cannot fix only when the relay refused the recipient or the message. *)
Theorem Send_outcome c r m :
  wp (Send_mail c r m) conn0 (fun res k =>
    match res with Ok _ => confirmed c r m k | Err e => IsPermanent e = true -> final_refusal r end).
Proof.
  unfold Send_mail. apply wp_bind. unfold Validate_config.
  destruct (_ || _); [done|]. destruct (_ || _); [done|]. destruct (ParseAddress (mc_FromAddress c)) as [a|e]; [|done].
  destruct (hasControl _); [done|]. apply wp_ret, wp_bind. destruct (ParseAddress (MailTo m)) as [to_|e] eqn:Ep.
  2: { apply wp_throw. unfold ParseAddress in Ep. cbv zeta in Ep. repeat case_match; simplify_eq; done. }
  apply wp_ret, wp_bind. unfold build_check. destruct (existsb _ _); [done|]. apply wp_ret.
  assert (Hf : forall pre o, Raises (soft r) (fails pre o)) by apply raises_fails.
  do 2 (apply wp_bind, (wp_soft r); [apply Hf|done|intros _ ? ]).
  apply wp_bind, (wp_soft r); [apply raises_when, raises_bind; [apply Hf|intros _; apply (raises_encrypt r)]|done|intros _ k1].
  apply wp_bind, (wp_soft r); [apply Hf|done|intros _ k2]. apply wp_bind, (wp_soft r); [apply raises_say|done|intros _ k3].
  apply wp_bind, (wp_soft r); [apply Hf|done|intros _ k4]. apply wp_bind, (wp_soft r); [apply raises_starttls|done|intros exts k5].
  apply wp_bind, (wp_soft r); [apply raises_when, raises_authenticate|done|intros _ k6].
  eapply wp_mono; [by apply wp_transfer|]. done.
Qed.
