(* ===== verification/Email.v ===== *)
(** * E-mail ([internal/email])

    The Admin settings and the queue (service.go), people's addresses and their
    confirmation (addresses.go), who is told of an alert and the digests
    (notify.go), the text of a message (compose.go) and the worker that delivers
    (worker.go).  The relay is behind the interface [EmailDeps];
    [relay_deps] is [internal/mailer] behind it. *)
From stdpp Require Import base list strings gmap.
From Stdlib Require Import ZArith Lia.
From Stdlib Require Import Ascii.
From Stdlib Require String.
From S2P Require Import Prelude Text Runes Json Db NodeToken GoTime Schedule Rbac ScheduleRun AlertStore TransferStore EmailStore Mailer.
Local Open Scope string_scope.
Local Open Scope list_scope.
Local Open Scope Z_scope.

(** ** Constants and errors *)
Definition settingsAuditObjectID : string := "00000000-0000-0000-0000-000000000000".
Definition maxSubjectLen : Z := 300.
Definition maxBodyLen : Z := 50000.
Definition confirmationTTL : Z := 24 * hour.
Definition confirmationCooldown : Z := minute.
Definition digestMaxAge : Z := 48 * hour.
Definition ErrInvalidSettings : error := Sentinel "email.ErrInvalidSettings" "invalid email settings".
Definition ErrDisabled : error := Sentinel "email.ErrDisabled" "email is turned off".
Definition ErrSendFailed : error := Sentinel "email.ErrSendFailed" "the test email could not be sent".
Definition ErrDirectoryManaged : error := Sentinel "email.ErrDirectoryManaged" "this account's address comes from the directory".
Definition ErrNoPublicURL : error := Sentinel "email.ErrNoPublicURL" "SPARKY_PUBLIC_URL is not set, so a confirmation link cannot be sent".
Definition ErrTooSoon : error :=
  Sentinel "email.ErrTooSoon" "a confirmation email was sent a moment ago; wait a minute before asking again".
Definition ErrUnchanged : error := Sentinel "email.ErrUnchanged" "that is already the address in use".
Definition ErrConfirmationNotFound : error := Sentinel "email.ErrConfirmationNotFound" "this confirmation link is not valid".
Definition ErrConfirmationExpired : error :=
  Sentinel "email.ErrConfirmationExpired" "this confirmation link has expired; ask for a new one".
Definition invalid_settings (msg : string) : error := Errorf "" ErrInvalidSettings (": " +:+ msg).

(** [Env]: what the environment of the process provides; the name in EHLO. *)
Record ServerEnv := MkServerEnv { SMTPPassword : string; SMTPCAFile : string; PublicURL : string; HelloName : string }.

(** What the service is built on: the environment, the global time zone (and
    the abbreviation a zone has at an instant, from the zone database), the
    cancellation of the context, and the delivery of one message, which tells
    the relay and nothing else. *)
Class EmailDeps := {
  server_env : ServerEnv;
  zone_source : option (M Location);
  zone_abbrev : Location -> Time -> string;
  ctx_Err : N -> option error;
  send : Config -> MailMessage -> M unit;
  zone_quiet : forall z w, zone_source = Some z -> exists n c, w_clock w <= c /\ snd (z w) = set_w_clock c (set_w_calls n w);
  send_quiet : forall cfg m w, exists n c, w_clock w <= c /\
    send cfg m w = match fst (send cfg m w) with
                   | Ok _ => (Ok tt, upd_email (fun t => set_em_relayed (em_relayed t ++ [m]) t) (set_w_clock c (set_w_calls n w)))
                   | Err e => (Err e, set_w_clock c (set_w_calls n w))
                   end
}.

(** ** Writing a message ([compose.go]) *)
Definition maxTitleInMail : Z := 200.
Definition maxBodyInMail : Z := 1500.
Definition maxDigestItems : nat := 50.
Definition newline : string := chr 10.
(** [if utf8.RuneCountInString(s) > max { s = string(r[:max-3]) + "..." }] *)
Definition clipped (rs : list Z) (max : Z) : list Z :=
  if max <? Z.of_nat (length rs) then take (Z.to_nat (max - 3)) rs ++ [46; 46; 46] else rs.
Definition oneLine (s : string) (max : Z) : string :=
  of_runes (clipped (join_fields (fields (map (fun r => if is_control r then 32 else r) (runes s)))) max).
(** CR LF and CR become LF. *)
Fixpoint unix_lines (l : list Z) : list Z :=
  match l with
  | [] => []
  | 13 :: l' => match l' with 10 :: l'' => 10 :: unix_lines l'' | _ => 10 :: unix_lines l' end
  | r :: l' => r :: unix_lines l'
  end.
Definition multiLine (s : string) (max : Z) : string :=
  of_runes (clipped (trim_runes (map (fun r => if r =? 10 then r else if is_control r then 32 else r) (unix_lines (runes s)))) max).
Definition alertLink (publicURL alertID : string) : string :=
  if bool_decide (publicURL = "") then "" else publicURL +:+ "/alerts?selected=" +:+ alertID.
Definition footer (publicURL how : string) : string :=
  newline +:+ "--" +:+ newline +:+ "You get this because an alert was addressed to you and your alert email setting is " +:+ chr 34 +:+ how +:+ chr 34
  +:+ ". You can change that, or turn alert email off, "
  +:+ (if bool_decide (publicURL = "") then "on the My account page in Sparky" else publicURL +:+ "/account") +:+ "." +:+ newline.

Section Compose.
Context `{EmailDeps}.
(** [t.In(loc).Format("2006-01-02 15:04 MST")] *)
Definition format_minute (loc : Location) (t : Time) : string :=
  let '(y, m, d) := DateOf loc t in
  padded 4 y +:+ "-" +:+ padded 2 m +:+ "-" +:+ padded 2 d +:+ " " +:+ padded 2 (HourOf loc t) +:+ ":" +:+ padded 2 (MinuteOf loc t)
  +:+ " " +:+ zone_abbrev loc t.
Definition alertSubject (a : Alert) (escalated : bool) : string :=
  "[Sparky] " +:+ AlertSeverity_string (ASeverity a) +:+ (if escalated then " (escalated)" else "") +:+ ": "
  +:+ oneLine (ATitle a) maxTitleInMail.
Definition alertBody (a : Alert) (escalated : bool) (loc : Location) (publicURL : string) : string :=
  oneLine (ATitle a) maxTitleInMail +:+ newline +:+ newline
  +:+ "Severity: " +:+ AlertSeverity_string (ASeverity a) +:+ newline
  +:+ "When:     " +:+ format_minute loc (LastRaisedAt a) +:+ newline
  +:+ (if escalated then "This alert was already open and has become more severe." +:+ newline
       else if 1 <? Occurrences a then "Seen:     " +:+ itoa (Occurrences a) +:+ " times" +:+ newline else "")
  +:+ (let body := multiLine (ABody a) maxBodyInMail in
       if bool_decide (body = "") then "" else newline +:+ body +:+ newline)
  +:+ (let link := alertLink publicURL (AlertID a) in
       if bool_decide (link = "") then newline +:+ "Open the Alerts inbox in Sparky to see it." +:+ newline
       else newline +:+ "Open this alert: " +:+ link +:+ newline)
  +:+ footer publicURL "immediately".
Definition alertMessage (a : Alert) (escalated : bool) (loc : Location) (publicURL : string) : string * string :=
  (alertSubject a escalated, alertBody a escalated loc publicURL).

(** Worst first, then the oldest; the sort is stable. *)
Definition worse_entry (a b : DigestItem) : bool :=
  if Rank (it_Severity a) =? Rank (it_Severity b) then it_QueuedAt a <=? it_QueuedAt b else Rank (it_Severity b) <? Rank (it_Severity a).
Definition digest_line (loc : Location) (publicURL : string) (e : DigestItem) : string :=
  "[" +:+ AlertSeverity_string (it_Severity e) +:+ "] " +:+ oneLine (it_Title e) maxTitleInMail +:+ "  (" +:+ format_minute loc (it_QueuedAt e)
  +:+ ")" +:+ newline
  +:+ (let link := alertLink publicURL (it_AlertID e) in if bool_decide (link = "") then "" else "    " +:+ link +:+ newline).
Definition digestMessage (entries : list DigestItem) (how : string) (loc : Location) (publicURL : string) : string * string :=
  let sorted := sort_by worse_entry entries in
  let n := Z.of_nat (length sorted) in
  ("[Sparky] " +:+ itoa n +:+ " new " +:+ (if n =? 1 then "alert" else "alerts") +:+ " (" +:+ how +:+ " digest)",
   "These alerts arrived since your last " +:+ how +:+ " digest and are still open:" +:+ newline +:+ newline
   +:+ String.concat "" (map (digest_line loc publicURL) (take maxDigestItems sorted))
   +:+ (if Z.of_nat maxDigestItems <? n then
          "... and " +:+ itoa (n - Z.of_nat maxDigestItems) +:+ " more. Open the Alerts inbox in Sparky to see them all." +:+ newline
        else "")
   +:+ footer publicURL (how +:+ " digest")).
End Compose.

Definition confirmationBody (link : string) (byAdmin : bool) : string :=
  (if byAdmin then "A Sparky Admin asked" else "You asked") +:+ " to use this address for Sparky alert emails." +:+ newline +:+ newline
  +:+ "To confirm it, sign in to Sparky as yourself and open this link:" +:+ newline +:+ newline +:+ link +:+ newline +:+ newline
  +:+ "The link works for 24 hours, and only while you are signed in as the account it was meant for. "
  +:+ "Until you confirm, alert email keeps going to your current address, if you have one." +:+ newline +:+ newline
  +:+ "If you did not expect this, ignore this email and nothing will change." +:+ newline.

(** Ignoring an error: [_, _ = m()]. *)
Definition ignore {S A} (m : ST S A) : ST S unit := discard (attempt m).

(** ** The settings and the queue ([service.go]) *)
Record SettingsInput := MkSettingsInput {
  in_Enabled : bool; in_Host : string; in_Port : Z; in_TLSMode : string; in_Username : string; in_FromAddress : string;
  in_FromName : string; in_DailyDigestTime : string
}.
Record SettingsView := MkSettingsView {
  sv_Settings : EmailSettings; sv_PasswordSet : bool; sv_CAFileSet : bool; sv_PublicURL : string; sv_Zone : string;
  sv_Stats : EmailQueueStats; sv_Recent : list Email
}.
Record OutMessage := MkOut { om_Kind : EmailKind; om_To : string; om_UserID : option string; om_Subject : string; om_Body : string }.

Definition isLocalHost (h : string) : bool :=
  let h := to_lower h in bool_decide (h = "localhost") || bool_decide (h = "::1") || has_prefix h "127.".
(** The checks of [UpdateSettings], in order; the settings to store. *)
Definition checked_settings (password : string) (updatedBy : option string) (in_ : SettingsInput) : error + EmailSettings :=
  let host := trim_space (in_Host in_) in
  let username := trim_space (in_Username in_) in
  let from := trim_space (in_FromAddress in_) in
  let fromName := trim_space (in_FromName in_) in
  let digestTime := trim_space (in_DailyDigestTime in_) in
  if (in_Port in_ <? 1) || (65535 <? in_Port in_) then inl (invalid_settings "the port must be between 1 and 65535")
  else match EmailTLSMode_of (in_TLSMode in_) with
  | None => inl (invalid_settings "choose a connection security option")
  | Some mode =>
  if contains_any host_breaks host then
    inl (invalid_settings "the relay host should be a name or address with no spaces or slashes")
  else if hasControl username || hasControl fromName || (255 <? len username) || (100 <? len fromName) then
    inl (invalid_settings "the user name or from name is too long or has control characters")
  else if negb (digestTimePattern digestTime) then
    inl (invalid_settings "the daily digest time must be written HH:MM, 24-hour (for example 08:00)")
  else match (if bool_decide (from = "") then Ok "" else ParseAddress from) with
  | Err e => inl (invalid_settings ("the from address: " +:+ error_text e))
  | Ok from =>
  if in_Enabled in_ && bool_decide (host = "") then inl (invalid_settings "a relay host is needed to turn email on")
  else if in_Enabled in_ && bool_decide (from = "") then inl (invalid_settings "a from address is needed to turn email on")
  else if negb (bool_decide (username = "")) && bool_decide (password = "") then
    inl (invalid_settings "a user name is set but SMTP_PASSWORD is not; set the password in the server's environment, or clear the user name for an anonymous relay")
  else if negb (bool_decide (username = "")) && bool_decide (mode = EmailTLSNone) && negb (isLocalHost host) then
    inl (invalid_settings "a user name and password are never sent without encryption to another machine; choose STARTTLS or TLS")
  else inr (MkEmailSettings (in_Enabled in_) host (in_Port in_) mode username from fromName digestTime 0 None None updatedBy 0)
  end end.

Section Service.
Context `{Env} `{RandomSource} `{EmailDeps}.

Definition location : M Location :=
  match zone_source with
  | Some z => r ← attempt z; match r with Ok loc => mret loc | Err _ => mret UTC end
  | None => mret UTC
  end.
Definition sendTimeout : Z := 30 * second.
Definition mailerConfig (cfg : EmailSettings) : Config :=
  MkConfig (EmHost cfg) (EmPort cfg) (EmTLSMode cfg) (EmUsername cfg) (SMTPPassword server_env) (SMTPCAFile server_env)
    (EmFromAddress cfg) (EmFromName cfg) (HelloName server_env) sendTimeout.
Definition get_settings : M EmailSettings := wrap "get email settings: " Get_email_settings.

Definition Settings_email (actor : Actor) : M SettingsView :=
  guard_err (CanManageEmail actor) ErrNotPermitted;;
  cfg ← get_settings;
  stats ← wrap "get email queue stats: " Stats;
  recent ← wrap "list recent email: " (Recent 10);
  loc ← location;
  mret (MkSettingsView cfg (negb (bool_decide (SMTPPassword server_env = ""))) (negb (bool_decide (SMTPCAFile server_env = "")))
    (PublicURL server_env) (LocName loc) stats recent).
Definition UpdateSettings_email (actor : Actor) (in_ : SettingsInput) : M unit :=
  guard_err (CanManageEmail actor) ErrNotPermitted;;
  next ← match checked_settings (SMTPPassword server_env) (actor_id actor) in_ with inl e => throw e | inr s => mret s end;
  prev ← wrap "get current email settings: " Get_email_settings;
  wrap "update email settings: " (Update_email_settings next);;
  audited_or_reverted
    (Record_ (actor_id actor) (IsSuperAdmin actor) "updated_email_settings" "email_settings" settingsAuditObjectID
      (Some {[ "enabled" := DBool (EmEnabled next); "host" := DStr (EmHost next); "port" := DInt (EmPort next);
               "tls_mode" := DStr (EmailTLSMode_string (EmTLSMode next)); "username" := DStr (EmUsername next);
               "from_address" := DStr (EmFromAddress next); "previous_enabled" := DBool (EmEnabled prev);
               "daily_digest_time" := DStr (DailyDigestTime next) ]}))
    (Restore_email_settings prev)
    (mret tt).
Definition test_mail (to_ : string) : MailMessage :=
  MkMail to_ "[Sparky] Test email"
    ("This is a test email from Sparky, sent because an Admin asked for one." +:+ newline +:+ newline
     +:+ "If you are reading it, the relay settings work. Nothing more is needed." +:+ newline).
Definition SendTest (actor : Actor) (to_ : string) : M unit :=
  guard_err (CanManageEmail actor) ErrNotPermitted;;
  addr ← match ParseAddress to_ with Err e => throw (invalid_settings ("the address: " +:+ error_text e)) | Ok a => mret a end;
  cfg ← get_settings;
  match Validate_config (mailerConfig cfg) with
  | Some e => throw (invalid_settings (error_text e +:+ "; save a relay host and from address first"))
  | None => mret tt
  end;;
  r ← attempt (send (mailerConfig cfg) (test_mail addr));
  log_on_error "email: record the test email in the audit log: %v"
    (Record_ (actor_id actor) (IsSuperAdmin actor) "sent_test_email" "email_settings" settingsAuditObjectID
      (Some {[ "to" := DStr addr; "sent" := DBool (is_ok r) ]}));;
  match r with Ok _ => mret tt | Err e => throw (Errorf "" ErrSendFailed (": " +:+ error_text e)) end.

Definition subject_ok (s : string) : bool :=
  negb (bool_decide (trim_space s = "")) && (len s <=? maxSubjectLen) && negb (hasControl s).
Definition queueChecked (m : OutMessage) : M unit :=
  addr ← match ParseAddress (om_To m) with Err e => throw (Errorf "the recipient: " e "") | Ok a => mret a end;
  guard_err (subject_ok (om_Subject m)) (Sentinel "" "the subject is empty, too long or has control characters");;
  guard_err (len (om_Body m) <=? maxBodyLen) (Sentinel "" "the body is too long");;
  discard (wrap "queue the email: " (Enqueue_db (MkNewEmail (om_Kind m) addr (om_UserID m) (om_Subject m) (om_Body m)))).
Definition Enqueue (m : OutMessage) : M unit :=
  cfg ← get_settings;
  guard_err (EmEnabled cfg) ErrDisabled;;
  queueChecked m.

(** ** Addresses ([addresses.go]) *)
Record PendingView := MkPendingView { pv_Email : string; pv_ExpiresAt : Time; pv_ByAdmin : bool }.
Record AddressView := MkAddressView {
  adv_Email : option (string * EmailSource); adv_Directory : bool; adv_Pending : option PendingView; adv_EmailOn : bool;
  adv_CanConfirm : bool; adv_Delivery : EmailDelivery; adv_MinSeverity : AlertSeverity; adv_DailyDigestTime : string; adv_Zone : string
}.
Definition pending_view (c : EmailConfirmation) : PendingView :=
  MkPendingView (ConfEmail c) (ConfExpiresAt c) (bool_decide (ConfSource c = EmailSourceAdmin)).

Definition RecordDirectoryEmail (userID raw : string) : M unit :=
  addr ← (if bool_decide (raw = "") then mret None
          else match ParseAddress raw with
               | Ok a => mret (Some a)
               | Err _ => logf "email: the directory's mail attribute for user %s is not an email address, ignoring it";; mret None
               end);
  log_on_error "email: record the directory address for user %s: %v" (SetDirectory userID addr).
Definition MyAddress (userID : string) : M AddressView :=
  u ← Get_user_email userID;
  cfg ← get_settings;
  loc ← location;
  p ← attempt (PendingConfirmation userID);
  pending ← match p with
            | Ok p => now ← time_now; mret (if now <? ConfExpiresAt p then Some (pending_view p) else None)
            | Err e => if errors_Is e "db.ErrEmailConfirmationNotFound" then mret None
                       else throw (Errorf "get pending address: " e "")
            end;
  mret (MkAddressView (match ue_Email u, ue_Source u with Some a, Some s => Some (a, s) | _, _ => None end)
    (ue_Directory u) pending (EmEnabled cfg) (EmEnabled cfg && negb (bool_decide (PublicURL server_env = "")))
    (ue_Delivery u) (ue_MinSeverity u) (DailyDigestTime cfg) (LocName loc)).

Definition hashToken (token : string) : string := of_bytes (hex_encode (SHA256.Sum256 (byte_codes token))).
Definition newToken : M (string * string) :=
  b ← wrap "generate a confirmation token: " (query (fun w => random_bytes (w_calls w) 32));
  let token := of_bytes (base64_raw b) in mret (token, hashToken token).
Definition startConfirmation (userID address : string) (source : EmailSource) (requestedBy : option string) : M unit :=
  cfg ← get_settings;
  guard_err (EmEnabled cfg) ErrDisabled;;
  guard_err (negb (bool_decide (PublicURL server_env = ""))) ErrNoPublicURL;;
  p ← attempt (PendingConfirmation userID);
  match p with
  | Ok p => t ← time_now; guard_err (negb (Sub t (ConfCreatedAt p) <? confirmationCooldown)) ErrTooSoon
  | Err _ => mret tt
  end;;
  th ← newToken;
  now ← time_now;
  wrap "record the pending change: "
    (PutConfirmation (MkConfirmation userID address th.2 source requestedBy now (now + confirmationTTL)));;
  let link := PublicURL server_env +:+ "/account/email/confirm?token=" +:+ th.1 in
  r ← attempt (Enqueue (MkOut EmailKindConfirmation address (Some userID) "[Sparky] Confirm your email address"
    (confirmationBody link (bool_decide (source = EmailSourceAdmin)))));
  match r with
  | Ok _ => mret tt
  | Err e => ignore (DeleteConfirmation userID);; throw (Errorf "queue the confirmation email: " e "")
  end.

(** An audited request, withdrawn when the audit record cannot be written. *)
Definition audited_request (userID : string) (audit : M unit) : M unit :=
  r ← attempt audit;
  match r with
  | Ok _ => mret tt
  | Err e => ignore (DeleteConfirmation userID);; throw (Errorf "record audit: " e "")
  end.
Definition RequestMyAddress (userID address : string) : M unit :=
  u ← Get_user_email userID;
  guard_err (negb (ue_Directory u)) ErrDirectoryManaged;;
  addr ← match ParseAddress address with Err e => throw (invalid_settings (error_text e)) | Ok a => mret a end;
  guard_err (negb (bool_decide (ue_Email u = Some addr))) ErrUnchanged;;
  startConfirmation userID addr EmailSourceSelf None;;
  audited_request userID
    (Record_ (Some userID) false "requested_email_confirmation" "user" userID (Some {[ "email" := DStr addr ]})).

Definition with_opt (k : string) (v : option string) (d : gmap string DVal) : gmap string DVal :=
  match v with Some s => <[k := DStr s]> d | None => d end.
Definition setLocalAudited (before : UserEmail) (next : option string) (source : EmailSource) (actorID : option string)
    (superAdmin : bool) (action : string) (detail : gmap string DVal) : M unit :=
  changed ← wrap "update the address: " (SetLocal (ue_UserID before) next source);
  if negb changed then mret tt
  else audited_or_reverted
    (Record_ actorID superAdmin action "user" (ue_UserID before)
      (Some (with_opt "email" next (with_opt "previous_email" (ue_Email before) detail))))
    (discard (SetLocal (ue_UserID before) (ue_Email before) (default source (ue_Source before))))
    (mret tt).
Definition ClearMyAddress (userID : string) : M unit :=
  u ← Get_user_email userID;
  guard_err (negb (ue_Directory u)) ErrDirectoryManaged;;
  setLocalAudited u None EmailSourceSelf (Some userID) false "cleared_email_address" ∅;;
  ignore (DeleteConfirmation userID).

Definition lookup_confirmation (userID token : string) : M EmailConfirmation :=
  guard_err (negb (bool_decide (token = "")) && (len token <=? 200)) ErrConfirmationNotFound;;
  c ← map_err (fun e => if errors_Is e "db.ErrEmailConfirmationNotFound" then ErrConfirmationNotFound
                        else Errorf "look up the confirmation: " e "") (ConfirmationByTokenHash (hashToken token));
  guard_err (bool_decide (ConfUserID c = userID)) ErrConfirmationNotFound;;
  now ← time_now;
  guard_err (now <? ConfExpiresAt c) ErrConfirmationExpired;;
  mret c.
Definition PreviewConfirmation (userID token : string) : M PendingView :=
  c ← lookup_confirmation userID token; mret (pending_view c).
Definition ConfirmAddress (userID token : string) : M string :=
  c ← lookup_confirmation userID token;
  u ← Get_user_email userID;
  guard_err (negb (ue_Directory u)) ErrDirectoryManaged;;
  setLocalAudited u (Some (ConfEmail c)) (ConfSource c) (Some userID) false "confirmed_email_address"
    {[ "source" := DStr (EmailSource_string (ConfSource c)) ]};;
  ignore (DeleteConfirmation userID);;
  mret (ConfEmail c).

Inductive SetUserResult := SetApplied | SetPending | SetCleared.
Definition SetUserAddress (actor : Actor) (targetUserID address : string) (requireConfirmation : bool) : M SetUserResult :=
  guard_err (CanSetUserEmail actor) ErrNotPermitted;;
  u ← Get_user_email targetUserID;
  guard_err (negb (ue_Directory u)) ErrDirectoryManaged;;
  if bool_decide (address = "") then
    setLocalAudited u None EmailSourceAdmin (actor_id actor) (IsSuperAdmin actor) "set_user_email" {[ "cleared" := DBool true ]};;
    ignore (DeleteConfirmation targetUserID);;
    mret SetCleared
  else
    addr ← match ParseAddress address with Err e => throw (invalid_settings (error_text e)) | Ok a => mret a end;
    if requireConfirmation then
      guard_err (negb (bool_decide (ue_Email u = Some addr))) ErrUnchanged;;
      startConfirmation targetUserID addr EmailSourceAdmin (actor_id actor);;
      audited_request targetUserID
        (Record_ (actor_id actor) (IsSuperAdmin actor) "set_user_email" "user" targetUserID
          (Some {[ "email" := DStr addr; "require_confirmation" := DBool true ]}));;
      mret SetPending
    else
      guard_err (negb (bool_decide (ue_Email u = Some addr) && bool_decide (ue_Source u = Some EmailSourceAdmin))) ErrUnchanged;;
      setLocalAudited u (Some addr) EmailSourceAdmin (actor_id actor) (IsSuperAdmin actor) "set_user_email"
        {[ "require_confirmation" := DBool false ]};;
      ignore (DeleteConfirmation targetUserID);;
      mret SetApplied.
Definition Addresses (actor : Actor) : M (gmap string UserEmail) :=
  guard_err (CanSetUserEmail actor) ErrNotPermitted;; ListAll_user_email.

(** ** Who is told of what ([notify.go]) *)
Definition notify_one (a : Alert) (subject body : string) (r : EmailRecipient) : M unit :=
  match rec_Delivery r with
  | EmailDeliveryImmediate =>
      log_on_error "email: queue the email about alert %s for user %s: %v"
        (queueChecked (MkOut EmailKindAlert (rec_Email r) (Some (rec_UserID r)) subject body))
  | EmailDeliveryHourly | EmailDeliveryDaily =>
      log_on_error "email: add alert %s to the digest of user %s: %v" (AddDigestItem (rec_UserID r) (AlertID a) (ASeverity a) (ATitle a))
  | EmailDeliveryOff => mret tt
  end.
Definition AlertRaised_email (a : Alert) (escalated : bool) : M unit :=
  c ← attempt get_settings;
  match c with
  | Err _ => logf "email: read settings to email about alert %s: %v"
  | Ok cfg =>
      if negb (EmEnabled cfg) then mret tt
      else
        rs ← attempt (RecipientsForAlert (AlertID a) (ASeverity a));
        match rs with
        | Err _ => logf "email: find who to email about alert %s: %v"
        | Ok [] => mret tt
        | Ok rs =>
            loc ← location;
            let m := alertMessage a escalated loc (PublicURL server_env) in
            forM_ rs (notify_one a m.1 m.2)
        end
  end.

Definition SetMyPreferences (userID delivery minSeverity : string) : M unit :=
  match EmailDelivery_of delivery with
  | None => throw (invalid_settings "choose how you want alert email delivered")
  | Some d =>
  match AlertSeverity_of minSeverity with
  | None => throw (invalid_settings "choose the lowest severity you want by email")
  | Some s =>
      before ← Get_user_email userID;
      if bool_decide (ue_Delivery before = d) && bool_decide (ue_MinSeverity before = s) then mret tt
      else
        wrap "save the preferences: " (SetPreferences userID d s);;
        audited_or_reverted
          (Record_ (Some userID) false "updated_email_preferences" "user" userID
            (Some {[ "delivery" := DStr delivery; "min_severity" := DStr minSeverity;
                     "previous_delivery" := DStr (EmailDelivery_string (ue_Delivery before));
                     "previous_min_severity" := DStr (AlertSeverity_string (ue_MinSeverity before)) ]}))
          (SetPreferences userID (ue_Delivery before) (ue_MinSeverity before))
          (mret tt)
  end end.

Definition listed_entry (u : UserEmail) (it : DigestItem) : bool := it_Open it && (Rank (ue_MinSeverity u) <=? Rank (it_Severity it)).
Definition digest_how (mode : EmailDelivery) : string := if bool_decide (mode = EmailDeliveryDaily) then "daily" else "hourly".
Definition digestFor (userID : string) (mode : EmailDelivery) (loc : Location) : M unit :=
  ru ← attempt (Get_user_email userID);
  match ru with
  | Err _ => logf "email: read user %s for their digest: %v"
  | Ok u =>
      ri ← attempt (PendingDigest userID);
      match ri with
      | Err _ => logf "email: read the digest of user %s: %v"
      | Ok items =>
          let all := map it_AlertID items in
          let entries := List.filter (listed_entry u) items in
          match ue_Email u with
          | Some addr =>
              if negb (bool_decide (ue_Delivery u = mode)) || bool_decide (entries = []) then
                log_on_error "email: clear the digest of user %s: %v" (DeleteDigestItems userID all)
              else
                let m := digestMessage entries (digest_how mode) loc (PublicURL server_env) in
                q ← attempt (queueChecked (MkOut EmailKindDigest addr (Some userID) m.1 m.2));
                match q with
                | Err _ => logf "email: queue the digest for user %s (it stays waiting): %v"
                | Ok _ => log_on_error "email: clear the digest of user %s after queueing it (it may be sent again): %v" (DeleteDigestItems userID all)
                end
          | None => log_on_error "email: clear the digest of user %s: %v" (DeleteDigestItems userID all)
          end
      end
  end.
Definition is_digest (mode : EmailDelivery) : bool :=
  match mode with EmailDeliveryHourly | EmailDeliveryDaily => true | _ => false end.
(** The loops stop when the context ends: with its error here, without one in
    [ProcessOnce]. *)
Fixpoint digest_all (mode : EmailDelivery) (loc : Location) (users : list string) : M unit :=
  match users with
  | [] => mret tt
  | u :: users' =>
      n ← gets w_calls;
      match ctx_Err n with
      | Some e => throw e
      | None => digestFor u mode loc;; digest_all mode loc users'
      end
  end.
Definition RunDigest (mode : EmailDelivery) : M unit :=
  guard_err (is_digest mode) (Opaque ("not a digest: " +:+ quote (EmailDelivery_string mode)));;
  cfg ← get_settings;
  if negb (EmEnabled cfg) then mret tt
  else
    now ← time_now;
    rd ← attempt (DeleteDigestItemsOlderThan (now - digestMaxAge));
    match rd with
    | Err _ => logf "email: drop old digest items: %v"
    | Ok n => when (0 <? n) (logf "email: dropped %d digest items older than %s")
    end;;
    users ← UsersWithDigestItems mode;
    loc ← location;
    digest_all mode loc users.

(** [hourlySpec], [dailySpec] and the two jobs of the scheduler. *)
Definition every_day : list Z := [0; 1; 2; 3; 4; 5; 6].
Definition hourlySpec : Spec := MkSpec KindWeekly every_day (map (fun h => padded 2 (Z.of_nat h) +:+ ":00") (seq 0 24)) 0.
Definition dailySpec (at_ : string) : Spec := MkSpec KindWeekly every_day [at_] 0.
Definition digest_job (kind : DigestKind) (mode : EmailDelivery) : Job World := MkJob
  (cfg ← Get_email_settings;
   mret (MkState (EmEnabled cfg)
     (match kind with DigestHourly => hourlySpec | DigestDaily => dailySpec (DailyDigestTime cfg) end)
     (DigestScheduleSetAt cfg)
     (default 0 (match kind with DigestHourly => LastHourlyDigestAt cfg | DigestDaily => LastDailyDigestAt cfg end))))
  (MarkDigestRun kind)
  (fun _ => RunDigest mode).
Definition DigestJobs : list (Job World) :=
  [digest_job DigestHourly EmailDeliveryHourly; digest_job DigestDaily EmailDeliveryDaily].

(** ** The worker ([worker.go]) *)
Definition batchSize : nat := 5.
Definition leaseDuration : Z := 5 * minute.
Definition maxAttempts : Z := 6.
Definition maxAge : Z := 24 * hour.
Definition retention : Z := 30 * 24 * hour.
Definition purgeEvery : Z := hour.
Definition backoff : list Z := [minute; 5 * minute; 30 * minute; 2 * hour; 6 * hour].
(** [backoff[min(attempts, len(backoff))-1]]: [None] is out of range. *)
Definition backoff_at (attempts : Z) : option Z :=
  let i := Z.min attempts (Z.of_nat (length backoff)) - 1 in
  if i <? 0 then None else backoff !! Z.to_nat i.
Definition clip (msg : string) : string :=
  let msg := replace_byte (ascii_of_N 0) (ascii_of_N 63) (ToValidUTF8 msg "?") in
  if len msg <=? 500 then msg else of_bytes (take (rune_cut (bytes msg) 500) (bytes msg)).

Definition record (m : M unit) : M unit := log_on_error "email: record the outcome for %s: %v" m.
Definition deliver (mc : Config) (e : Email) : M unit :=
  r ← attempt (send mc (MkMail (ToAddress e) (ESubject e) (EBody e)));
  match r with
  | Ok _ => log_on_error "email: %s was delivered but recording it failed (it may be sent twice): %v" (MarkSent (EmailID e))
  | Err err =>
      if IsPermanent err then
        logf "email: %s to %s refused by the relay: %v";;
        record (MarkFailed (EmailID e) (clip (error_text err)))
      else if maxAttempts <=? Attempts e then
        logf "email: %s to %s given up on after %d attempts: %v";;
        record (MarkFailed (EmailID e) (clip ("gave up after " +:+ itoa (Attempts e) +:+ " attempts: " +:+ error_text err)))
      else
        match backoff_at (Attempts e) with
        | None => throw (Opaque "runtime error: index out of range")
        | Some wait =>
            logf "email: %s to %s not delivered (attempt %d), trying again in %s: %v";;
            now ← time_now;
            record (MarkRetry (EmailID e) (now + wait) (clip (error_text err)))
        end
  end.
Fixpoint deliver_all (mc : Config) (batch : list Email) : M unit :=
  match batch with
  | [] => mret tt
  | e :: batch' =>
      n ← gets w_calls;
      match ctx_Err n with
      | Some _ => mret tt
      | None => deliver mc e;; deliver_all mc batch'
      end
  end.
Definition ProcessOnce : M unit :=
  cfg ← get_settings;
  now ← time_now;
  n ← wrap "give up on old mail: " (FailOlderThan (now - maxAge) "not delivered within 24 hours");
  when (0 <? n) (logf "email: gave up on %d emails older than 24 hours");;
  if negb (EmEnabled cfg) then mret tt
  else
    batch ← Claim batchSize leaseDuration;
    deliver_all (mailerConfig cfg) batch.
Definition purge : M unit :=
  now ← time_now;
  r ← attempt (DeleteOlderThan_emails (now - retention));
  match r with
  | Err _ => logf "email: remove old records: %v"
  | Ok n => when (0 <? n) (logf "email: removed %d delivery records older than %d days")
  end;;
  now ← time_now;
  log_on_error "email: remove expired confirmations: %v" (DeleteExpiredConfirmations now).
(** One turn of [Run]'s loop after its ticker, with the time of the last
    purge. *)
Definition run_turn (lastPurge : Time) : M Time :=
  log_on_error "email: delivery pass: %v" ProcessOnce;;
  now ← time_now;
  if purgeEvery <=? Sub now lastPurge then
    last ← time_now; purge;; mret last
  else mret lastPurge.
End Service.

(** ** [internal/mailer] behind the interface *)
Section Relayed.
Context `{Env} (relay : N -> Relay).
Definition relay_send (cfg : Config) (m : MailMessage) : M unit := fun w =>
  match fst (Send_mail cfg (relay (w_calls w)) m conn0) with
  | Ok _ => (Ok tt, upd_email (fun t => set_em_relayed (em_relayed t ++ [m]) t) (bump w))
  | Err e => (Err e, bump w)
  end.
Lemma relay_quiet cfg m w : exists n c, w_clock w <= c /\
  relay_send cfg m w = match fst (relay_send cfg m w) with
                       | Ok _ => (Ok tt, upd_email (fun t => set_em_relayed (em_relayed t ++ [m]) t) (set_w_clock c (set_w_calls n w)))
                       | Err e => (Err e, set_w_clock c (set_w_calls n w))
                       end.
Proof.
  exists (w_calls (bump w)), (w_clock (bump w)). split; [cbn; lia|]. unfold relay_send.
  by destruct (fst (Send_mail _ _ _ _)).
Qed.

(** The service as the server builds it: its relay, the zone of the schedule
    settings. *)
Context `{ZoneDatabase}.
Lemma LocationOf_quiet w : exists n c, w_clock w <= c /\ snd (LocationOf w) = set_w_clock c (set_w_calls n w).
Proof.
  exists (w_calls (bump w)), (w_clock (bump w)). split; [cbn; lia|]. unfold LocationOf, GetSettings, wrap, query, sql, mbind, ST_bind.
  destruct (fault (w_calls w)); simpl; [done|]. by destruct (ParseTimezone _).
Qed.
Definition relay_deps (e : ServerEnv) (abbrev : Location -> Time -> string) (ctx : N -> option error) : EmailDeps.
Proof.
  refine {| server_env := e; zone_source := Some LocationOf; zone_abbrev := abbrev; ctx_Err := ctx; send := relay_send |}.
  - intros z w [= <-]. apply LocationOf_quiet.
  - apply relay_quiet.
Defined.
End Relayed.
