(* ===== verification/EmailSpec.v ===== *)
(** * What e-mail keeps to

    The tables of e-mail stay well-formed under every operation of the service
    and the worker, and so over every run of them. *)
From stdpp Require Import base list strings gmap sorting.
From Stdlib Require Import ZArith Lia.
From Stdlib Require Import Ascii.
From Stdlib Require String.
From S2P Require Import Prelude Text Runes Json Db NodeToken GoTime Schedule Rbac ScheduleRun InstanceStore AlertStore AlertRaiser Alerts TransferStore EngineStore EmailStore Mailer Email.
Local Open Scope string_scope.
Local Open Scope list_scope.
Local Open Scope Z_scope.

(** ** Well-formed tables *)
Definition address (a : string) : Prop := ParseAddress a = Ok a.
Record mail_ok (e : Email) : Prop := {
  mo_to : address (ToAddress e);
  mo_subject : subject_ok (ESubject e) = true;
  mo_body : len (EBody e) <= maxBodyLen;
  mo_attempts : 0 <= Attempts e;
  mo_sent : EStatus e = EmailSent <-> is_Some (SentAt e)
}.
Definition columns_ok (row : User) (c : EmailColumns) : Prop :=
  match ColEmail c, ColSource c with
  | None, None => True
  | Some a, Some s => address a /\ (s = EmailSourceDirectory <-> is_directory row = true)
  | _, _ => False
  end.
Record confirmation_ok (userID : string) (c : EmailConfirmation) : Prop := {
  co_user : ConfUserID c = userID;
  co_email : address (ConfEmail c);
  co_source : ConfSource c <> EmailSourceDirectory;
  co_expires : ConfExpiresAt c = ConfCreatedAt c + confirmationTTL
}.

Section Wf.
Context `{Env} `{EmailDeps}.
(** The constraints of the table, that [on] means a relay configuration that
    can be tried, and that a password goes in the clear to this machine only. *)
Definition settings_wf (s : EmailSettings) : Prop :=
  settings_ok s = true /\ (EmEnabled s = true -> Validate_config (mailerConfig s) = None) /\
  (EmUsername s <> "" -> EmTLSMode s = EmailTLSNone -> isLocalHost (EmHost s) = true).
Record email_wf (w : World) : Prop := {
  ew_queue : forall k e, queue_of w !! k = Some e -> EmailID e = k /\ mail_ok e;
  ew_columns : forall u c, em_columns (w_email w) !! u = Some c -> exists row, w_users w !! u = Some row /\ columns_ok row c;
  ew_confirmations : forall u c, em_confirmations (w_email w) !! u = Some c -> confirmation_ok u c;
  ew_hashes : forall u u' c c', em_confirmations (w_email w) !! u = Some c -> em_confirmations (w_email w) !! u' = Some c' ->
    ConfTokenHash c = ConfTokenHash c' -> u = u';
  ew_settings : settings_wf (em_settings (w_email w))
}.
(** What the invariant looks at. *)
Definition wf_view (w : World) :=
  (queue_of w, em_columns (w_email w), em_confirmations (w_email w), em_settings (w_email w), w_users w).
Lemma email_wf_view w w' : wf_view w' = wf_view w -> email_wf w -> email_wf w'.
Proof. intros [= Hq Hc Hf Hs Hu] []. constructor; unfold queue_of in *; by rewrite ?Hq, ?Hc, ?Hf, ?Hs, ?Hu. Qed.
#[export] Instance stable_email_wf : Stable email_wf.
Proof. constructor; intros; (eapply email_wf_view; [|eassumption]); reflexivity. Qed.
Lemma preserved_email_wf {A} (m : M A) : Preserves wf_view m -> Keeps email_wf m.
Proof. intros Hm w. apply email_wf_view, Hm. Qed.

(** Writing one table. *)
Lemma wf_upd_queue f w : (forall k e, f (queue_of w) !! k = Some e -> EmailID e = k /\ mail_ok e) -> email_wf w -> email_wf (upd_queue f w).
Proof. intros Hf []. by constructor. Qed.
Lemma wf_put_columns u row c w : w_users w !! u = Some row -> columns_ok row c -> email_wf w -> email_wf (put_columns u c w).
Proof.
  intros Hu Hc []. constructor; try done. intros u' c'. cbn. rewrite lookup_insert. case_decide as E; [|auto].
  intros [= <-]. subst. eauto.
Qed.
Lemma wf_confirmations f w :
  (forall u c, f (em_confirmations (w_email w)) !! u = Some c -> confirmation_ok u c) ->
  (forall u u' c c', f (em_confirmations (w_email w)) !! u = Some c -> f (em_confirmations (w_email w)) !! u' = Some c' ->
    ConfTokenHash c = ConfTokenHash c' -> u = u') ->
  email_wf w -> email_wf (upd_email (fun t => set_em_confirmations (f (em_confirmations t)) t) w).
Proof. intros Hc Hh []. by constructor. Qed.
Lemma wf_settings s w : settings_wf s -> email_wf w -> email_wf (upd_email (set_em_settings s) w).
Proof. intros Hs []. by constructor. Qed.
Lemma wf_digest f w : email_wf w -> email_wf (upd_digest f w).
Proof. by apply email_wf_view. Qed.
End Wf.

(** Split on the first test of the goal. *)
Ltac case_test E := match goal with |- context [if ?b then _ else _] => destruct b eqn:E end.

(** ** The stores keep them *)
Section Stores.
Context `{Env} `{EmailDeps}.

Lemma default_columns_ok row : columns_ok row default_columns.
Proof. done. Qed.
Lemma columns_of_ok w u row : email_wf w -> w_users w !! u = Some row -> columns_ok row (columns_of w u).
Proof.
  intros Hw Hu. unfold columns_of. destruct (em_columns (w_email w) !! u) as [c|] eqn:E; [|done].
  destruct (ew_columns _ Hw _ _ E) as (row' & Hu' & Hc). cbn. by simplify_eq.
Qed.
Lemma keeps_set_address dir u email source :
  match email, source with
  | None, None => True
  | Some a, Some s => address a /\ (dir = true -> s = EmailSourceDirectory)
  | _, _ => False
  end -> Keeps email_wf (set_address dir u email source).
Proof.
  intros Ha. apply keeps_sql; [apply _|]. intros w Hw. destruct (w_users w !! u) as [row|] eqn:Eu; [|done].
  cbv zeta. case_test Eb; [|exact Hw]. case_test Et; [done|].
  case_test Ed; [done|]. apply (wf_put_columns _ row); [done| |done]. propb.
  unfold columns_ok. cbn. destruct email as [a|], source as [s|]; try done. destruct Ha as [Ha Hs]. split; [done|].
  destruct dir; cbn in Ed; [by rewrite Hs|]. propb. split; [by intros ->|congruence].
Qed.
#[local] Instance keeps_SetDirectory u email : (forall a, email = Some a -> address a) -> Keeps email_wf (SetDirectory u email).
Proof. intros Ha. unfold SetDirectory. apply keeps_wrap, keeps_set_address. destruct email; [|done]. split; [by apply Ha|done]. Qed.
#[local] Instance keeps_SetLocal u email source : (forall a, email = Some a -> address a) -> Keeps email_wf (SetLocal u email source).
Proof. intros Ha. unfold SetLocal. apply keeps_wrap, keeps_set_address. destruct email; [|done]. split; [by apply Ha|done]. Qed.
Lemma keeps_PutConfirmation c : address (ConfEmail c) -> ConfExpiresAt c = ConfCreatedAt c + confirmationTTL ->
  Keeps email_wf (PutConfirmation c).
Proof.
  intros Ha Ht. unfold PutConfirmation. apply keeps_wrap, keeps_sql; [apply _|]. intros w Hw.
  case_test Et; [done|]. case_test Hs; [done|]. apply bool_decide_eq_false in Hs. case_test Er; [done|].
  case_test Ee; [done|].
  assert (Hother : forall u c', em_confirmations (w_email w) !! u = Some c' -> ConfTokenHash c' = ConfTokenHash c -> u = ConfUserID c).
  { intros u c' Hu Hh. destruct (decide (u = ConfUserID c)) as [|Hne]; [done|exfalso].
    apply not_true_iff_false in Ee. apply Ee, existsb_map. exists u, c'. split; [done|].
    apply andb_true_iff. split; [by apply bool_decide_eq_true|]. by apply negb_true_iff, bool_decide_eq_false. }
  apply (wf_confirmations (insert (ConfUserID c) c)); [| |done].
  - intros u c'. rewrite lookup_insert. case_decide as E; [|by apply (ew_confirmations _ Hw)]. intros [= <-]. by constructor.
  - intros u u' c1 c2. rewrite !lookup_insert. repeat case_decide; subst; try done.
    + intros [= <-] Hc2 Hh. symmetry. by eapply Hother.
    + intros Hc1 [= <-] Hh. by eapply Hother.
    + by apply (ew_hashes _ Hw).
Qed.
Lemma keeps_delete_confirmations (f : gmap string EmailConfirmation -> gmap string EmailConfirmation) :
  (forall m, f m ⊆ m) -> forall w, email_wf w -> email_wf (upd_email (fun t => set_em_confirmations (f (em_confirmations t)) t) w).
Proof.
  intros Hf w Hw. assert (Hin : forall u c, f (em_confirmations (w_email w)) !! u = Some c -> em_confirmations (w_email w) !! u = Some c).
  { intros u c Hu. by eapply lookup_weaken. }
  apply wf_confirmations; [| |done].
  - intros u c Hu. by apply (ew_confirmations _ Hw), Hin.
  - intros u u' c c' Hu Hu'. apply (ew_hashes _ Hw); by apply Hin.
Qed.
#[export] Instance keeps_DeleteConfirmation u : Keeps email_wf (DeleteConfirmation u).
Proof.
  unfold DeleteConfirmation. apply keeps_wrap, keeps_sql; [apply _|]. intros w Hw.
  apply (keeps_delete_confirmations (delete u)); [|done]. intros m. apply delete_subseteq.
Qed.
#[export] Instance keeps_DeleteExpired t : Keeps email_wf (DeleteExpiredConfirmations t).
Proof.
  unfold DeleteExpiredConfirmations. apply keeps_wrap, keeps_sql; [apply _|]. intros w Hw.
  apply (keeps_delete_confirmations (fun m => filter _ m)); [|done]. intros m. apply map_filter_subseteq.
Qed.
#[export] Instance keeps_SetPreferences u d s : Keeps email_wf (SetPreferences u d s).
Proof.
  unfold SetPreferences. apply keeps_transaction; [apply _| |].
  - intros w w'. by apply (email_wf_view w).
  - intros now. apply keeps_bind; [|intros known; apply keeps_bind; [apply _|intros _; apply keeps_when, keeps_wrap, keeps_exec; [apply _|]]].
    + apply keeps_wrap, keeps_sql; [apply _|]. intros w Hw. destruct (w_users w !! u) as [row|] eqn:Eu; [|exact Hw].
      apply (wf_put_columns _ row); [done| |done]. exact (columns_of_ok _ _ _ Hw Eu).
    + intros w. apply wf_digest.
Qed.
Lemma keeps_Enqueue_db n : address (ne_ToAddress n) -> subject_ok (ne_Subject n) = true -> len (ne_Body n) <= maxBodyLen ->
  Keeps email_wf (Enqueue_db n).
Proof.
  intros Ha Hs Hb. unfold Enqueue_db. do 2 apply keeps_wrap. apply keeps_sql; [apply _|]. intros w Hw. cbv zeta.
  case_test Et; [done|]. case_test Ei; [done|]. case_test Er; [done|]. apply (wf_upd_queue (insert _ _)); [|done].
  intros k e. rewrite lookup_insert. case_decide as E; [|by apply (ew_queue _ Hw)]. intros [= <-]. split; [done|].
  constructor; cbn; try done; try lia; by split; [|intros []].
Qed.
(** Statements that rewrite the rows of the queue. *)
Lemma wf_rows (f : gmap string Email -> gmap string Email) w :
  (forall m k e, f m !! k = Some e -> exists e0, m !! k = Some e0 /\ EmailID e = EmailID e0 /\ (mail_ok e0 -> mail_ok e)) ->
  email_wf w -> email_wf (upd_queue f w).
Proof.
  intros Hf Hw. apply wf_upd_queue; [|done]. intros k e Hk. destruct (Hf _ _ _ Hk) as (e0 & Hk0 & Hid & Hok).
  destruct (ew_queue _ Hw _ _ Hk0) as [Hi Hm]. split; [congruence|auto].
Qed.
Lemma sent_email_ok now e : mail_ok e -> mail_ok (sent_email now e).
Proof. intros []. constructor; cbn; naive_solver. Qed.
Lemma failed_email_ok r e : mail_ok e -> mail_ok (failed_email r e).
Proof.
  unfold failed_email, is_pending. intros [Ha Hs Hb Hn Ht]. case_bool_decide as Hp; [|done]. rewrite Hp in Ht.
  constructor; cbn; naive_solver.
Qed.
Lemma with_attempt_ok n t err e : 0 <= n -> mail_ok e -> mail_ok (with_attempt n t err e).
Proof. intros Hn []. by constructor. Qed.
Lemma retried_email_ok t r e : mail_ok e -> mail_ok (retried_email t r e).
Proof. unfold retried_email. intros Ho. destruct (is_pending e); [|done]. apply with_attempt_ok; [apply Ho|done]. Qed.
Lemma alter_rows (g : Email -> Email) (id : string) (m : gmap string Email) k e : (forall x, EmailID (g x) = EmailID x) -> (forall x, mail_ok x -> mail_ok (g x)) ->
  alter g id m !! k = Some e -> exists e0, m !! k = Some e0 /\ EmailID e = EmailID e0 /\ (mail_ok e0 -> mail_ok e).
Proof.
  intros Hi Ho. rewrite lookup_alter. case_decide as E; [subst|intros Hk; by exists e].
  destruct (m !! k) as [e0|]; [|done]. intros [= <-]. exists e0. auto.
Qed.
Lemma EmailID_failed r e : EmailID (failed_email r e) = EmailID e.
Proof. unfold failed_email. by destruct (is_pending e). Qed.
Lemma EmailID_retried t r e : EmailID (retried_email t r e) = EmailID e.
Proof. unfold retried_email. by destruct (is_pending e). Qed.
#[export] Instance keeps_MarkSent id : Keeps email_wf (MarkSent id).
Proof.
  unfold MarkSent. apply keeps_wrap, keeps_exec; [apply _|]. intros w. apply wf_rows. intros m k e.
  apply alter_rows; [done|apply sent_email_ok].
Qed.
#[export] Instance keeps_MarkFailed id r : Keeps email_wf (MarkFailed id r).
Proof.
  unfold MarkFailed, reason_ok. apply keeps_wrap, keeps_sql; [apply _|]. intros w Hw. destruct (text_ok r); [|done].
  revert Hw. apply wf_rows. intros m k e. apply alter_rows; [apply EmailID_failed|apply failed_email_ok].
Qed.
#[export] Instance keeps_MarkRetry id t r : Keeps email_wf (MarkRetry id t r).
Proof.
  unfold MarkRetry, reason_ok. apply keeps_wrap, keeps_sql; [apply _|]. intros w Hw. destruct (text_ok r); [|done].
  revert Hw. apply wf_rows. intros m k e. apply alter_rows; [apply EmailID_retried|apply retried_email_ok].
Qed.
#[export] Instance keeps_FailOlderThan t r : Keeps email_wf (FailOlderThan t r).
Proof.
  unfold FailOlderThan. apply keeps_wrap, keeps_sql; [apply _|]. intros w. apply wf_rows. intros m k e.
  rewrite lookup_fmap. destruct (m !! k) as [e0|]; [|done]. intros [= <-]. exists e0.
  destruct (ECreatedAt e0 <? t); [|done]. rewrite EmailID_failed. auto using failed_email_ok.
Qed.
#[export] Instance keeps_DeleteOlderThan t : Keeps email_wf (DeleteOlderThan_emails t).
Proof.
  unfold DeleteOlderThan_emails. apply keeps_wrap, keeps_sql; [apply _|]. intros w. apply wf_rows. intros m k e.
  intros [Hk _]%map_lookup_filter_Some. by exists e.
Qed.
Lemma put_emails_queue es w : w_email (put_emails es w) = set_em_queue (fold_right (fun e => insert (EmailID e) e) (queue_of w) es) (w_email w).
Proof.
  induction es as [|e es IH]; simpl; [unfold queue_of; by destruct (w_email w)|].
  unfold put_email, upd_email. simpl. by rewrite IH.
Qed.
Lemma elem_of_due limit w e : email_wf w -> e ∈ due limit w -> queue_of w !! EmailID e = Some e /\ is_due (w_clock w) e = true.
Proof.
  intros Hw He. unfold due in He. apply elem_of_take in He as (i & Hi%list_elem_of_lookup_2 & _).
  apply elem_of_sort_by, elem_of_List_filter in Hi as [Hd Hi]. unfold queue_rows in Hi.
  apply list_elem_of_fmap in Hi as ([k e'] & -> & Hin%elem_of_map_to_list). split; [|done].
  destruct (ew_queue _ Hw _ _ Hin) as [Hid _]. simpl in *. by rewrite Hid.
Qed.
#[export] Instance keeps_Claim n t : Keeps email_wf (Claim n t).
Proof.
  unfold Claim. apply keeps_wrap, keeps_sql; [apply _|]. intros w Hw. cbv zeta.
  set (until := w_clock w + _).
  assert (Hc : forall e, e ∈ map (claimed_email until) (due n w) -> mail_ok e).
  { intros e (e0 & -> & Hin)%list_elem_of_fmap. apply (elem_of_due n w _ Hw) in Hin as [Hk _].
    destruct (ew_queue _ Hw _ _ Hk) as [_ Hm]. apply with_attempt_ok; [|done]. destruct Hm. lia. }
  revert Hc. generalize (map (claimed_email until) (due n w)). clear until. intros es Hc.
  induction es as [|e es IH]; simpl; [done|]. apply (wf_upd_queue (insert (EmailID e) e)).
  - intros k e'. rewrite lookup_insert. case_decide as E.
    + intros [= <-]. split; [done|]. apply Hc. set_solver.
    + apply (ew_queue _ (IH (fun e'' Hin => Hc e'' (list_elem_of_further _ _ _ Hin)))).
  - apply IH. intros e'' Hin. apply Hc. set_solver.
Qed.
End Stores.

(** ** The service keeps them *)
Section Service.
Context `{Env} `{RandomSource} `{EmailDeps}.

#[export] Instance keeps_get_settings : Keeps email_wf get_settings.
Proof. unfold get_settings, Get_email_settings. apply _. Qed.
#[export] Instance keeps_Get_user_email u : Keeps email_wf (Get_user_email u).
Proof. unfold Get_user_email. apply keeps_bind; [apply _|]. intros []; apply _. Qed.
#[export] Instance keeps_scanConfirmation f : Keeps email_wf (scanConfirmation f).
Proof. unfold scanConfirmation. apply keeps_bind; [apply _|]. intros []; apply _. Qed.
Lemma keeps_quiet {A} (m : M A) : (forall w, exists n c, snd (m w) = set_w_clock c (set_w_calls n w)) -> Keeps email_wf m.
Proof. intros Hm w Hw. destruct (Hm w) as (n & c & ->). by apply (email_wf_view w). Qed.
#[export] Instance keeps_location : Keeps email_wf location.
Proof.
  unfold location. destruct zone_source as [z|] eqn:Ez; [|apply _]. apply keeps_bind; [|intros []; apply _]. apply keeps_attempt, keeps_quiet.
  intros w. destruct (zone_quiet z w Ez) as (n & c & _ & Hz). by exists n, c.
Qed.
#[export] Instance keeps_send cfg m : Keeps email_wf (send cfg m).
Proof.
  intros w Hw. destruct (send_quiet cfg m w) as (n & c & _ & ->). destruct (fst (send cfg m w)); by apply (email_wf_view w).
Qed.
#[export] Instance keeps_reading {A} I (f : World -> A) : Keeps I (gets f).
Proof. by intros w Hw. Qed.
#[export] Instance keeps_ignore {A} (m : M A) : Keeps email_wf m -> Keeps email_wf (ignore m).
Proof. intros. unfold ignore. apply _. Qed.

Lemma keeps_throw_bind {A B} I e (k : A -> M B) : Keeps I (throw e ≫= k).
Proof. intros w Hw. exact Hw. Qed.

(** *** Settings *)
Lemma settings_wf_same s s' :
  EmEnabled s' = EmEnabled s -> EmHost s' = EmHost s -> EmPort s' = EmPort s -> EmTLSMode s' = EmTLSMode s -> EmUsername s' = EmUsername s ->
  EmFromAddress s' = EmFromAddress s -> EmFromName s' = EmFromName s -> DailyDigestTime s' = DailyDigestTime s ->
  settings_wf s -> settings_wf s'.
Proof.
  intros He Hh Hp Ht Hu Ha Hn Hd. unfold settings_wf, settings_ok, mailerConfig, Validate_config. cbn.
  by rewrite He, Hh, Hp, Ht, Hu, Ha, Hn, Hd.
Qed.
Lemma checked_settings_wf by_ in_ s : checked_settings (SMTPPassword server_env) by_ in_ = inr s -> settings_wf s.
Proof.
  unfold checked_settings. cbv zeta. case_test Ep; [done|]. destruct (EmailTLSMode_of _) as [mode|]; [|done].
  case_test Eh; [done|]. case_test Ec; [done|]. case_test Ed; [done|].
  set (host := trim_space (in_Host in_)) in *. set (from := trim_space (in_FromAddress in_)) in *.
  assert (Hf : forall a, (if bool_decide (from = "") then Ok "" else ParseAddress from) = Ok a -> a = "" \/ ParseAddress a = Ok a).
  { intros a. case_bool_decide; [intros [= <-]; by left|]. intros Ha%ParseAddress_ok. by right. }
  destruct (if bool_decide (from = "") then _ else _) as [a|e]; [|done]. specialize (Hf a eq_refl).
  case_test E1; [done|]. case_test E2; [done|]. case_test E3; [done|]. case_test E4; [done|]. intros [= <-].
  apply orb_false_iff in Ep as [Ep1 Ep2]. repeat (apply orb_false_iff in Ec as [Ec ?]). apply negb_false_iff in Ed.
  assert (Hon : in_Enabled in_ = true -> host <> "" /\ a <> "").
  { intros He. rewrite He in E1, E2. cbn in E1, E2. apply bool_decide_eq_false in E1, E2. done. }
  assert (Ht : trim_space host = host) by apply trim_space_idemp.
  unfold settings_wf, settings_ok, mailerConfig, Validate_config.
  cbn [mc_Host mc_Port mc_FromAddress mc_FromName EmEnabled EmHost EmPort EmTLSMode EmUsername EmFromAddress EmFromName DailyDigestTime].
  split; [|split].
  - rewrite Ed, andb_true_r. apply andb_true_iff. split; [apply andb_true_iff; split; lia|].
    destruct (in_Enabled in_) eqn:He; [|done]. destruct Hon as [Hn1 Hn2]; [done|]. by rewrite !bool_decide_eq_false_2.
  - intros He. destruct (Hon He) as [Hn1 Hn2]. rewrite bool_decide_eq_false_2 by by rewrite Ht.
    rewrite Eh, Ep1, Ep2. cbn [orb]. destruct Hf as [->| ->]; [done|]. by match goal with Hc : hasControl (trim_space (in_FromName in_)) = false |- _ => rewrite Hc end.
  - intros Hu ->. apply negb_false_iff. rewrite bool_decide_eq_false_2 in E4 by done. exact E4.
Qed.
Lemma keeps_write_settings f : (forall w, email_wf w -> settings_wf (f w)) -> Keeps email_wf (sql (fun w => write_settings (f w) w)).
Proof.
  intros Hs. apply keeps_sql; [apply _|]. intros w Hw. unfold write_settings.
  case_test Et; [done|]. case_test Eo; [done|]. case_test Er; [done|]. by apply wf_settings; [apply Hs|].
Qed.
Lemma wp_get_settings w (Q : result EmailSettings -> World -> Prop) :
  (forall e, Q (Err e) (bump w)) -> Q (Ok (em_settings (w_email w))) (bump w) -> wp get_settings w Q.
Proof. intros He Hok. unfold get_settings, Get_email_settings. do 2 apply wp_wrap. apply wp_query; intros; [apply He|exact Hok]. Qed.
#[export] Instance keeps_UpdateSettings actor in_ : Keeps email_wf (UpdateSettings_email actor in_).
Proof.
  unfold UpdateSettings_email. apply keeps_bind; [apply _|intros _].
  destruct (checked_settings _ _ _) as [e|next] eqn:En; [apply keeps_throw_bind|]. apply checked_settings_wf in En.
  apply keeps_wp. intros w Hw. apply wp_bind, wp_ret, wp_bind, wp_wrap. unfold Get_email_settings. apply wp_wrap, wp_query; [intros e _; by apply (stable_bump w)|intros _].
  eapply (wp_inv email_wf); [|by apply (stable_bump w)|done]. apply keeps_bind.
  - unfold Update_email_settings. do 2 apply keeps_wrap. apply (keeps_write_settings (fun w => updated_settings (w_clock w) (em_settings (w_email w)) next)).
    intros w' _. by apply (settings_wf_same next).
  - intros _. apply keeps_audited_or_reverted; [apply _| |apply _]. unfold Restore_email_settings.
    apply keeps_wrap, (keeps_write_settings (fun _ => em_settings (w_email (bump w)))). intros _ _. apply (ew_settings _ Hw).
Qed.
#[export] Instance keeps_SendTest actor to_ : Keeps email_wf (SendTest actor to_).
Proof.
  unfold SendTest. apply keeps_bind; [apply _|intros _]. destruct (ParseAddress to_) as [a|e]; [|apply keeps_throw_bind].
  apply keeps_bind; [apply _|intros ?]. apply keeps_bind; [apply _|intros cfg]. destruct (Validate_config _); [apply keeps_throw_bind|].
  do 3 (apply keeps_bind; [apply _|intros ?]). apply _.
Qed.

(** *** Queueing *)
#[export] Instance keeps_queueChecked m : Keeps email_wf (queueChecked m).
Proof.
  unfold queueChecked. destruct (ParseAddress (om_To m)) as [a|e] eqn:Ea; [|apply keeps_throw_bind].
  apply keeps_wp. intros w Hw. apply wp_bind, wp_ret, wp_bind, wp_guard; intros Hs; [|exact Hw].
  apply wp_bind, wp_guard; intros Hb; [|exact Hw]. eapply (wp_inv email_wf); [|exact Hw|done].
  apply keeps_discard, keeps_wrap, keeps_Enqueue_db; cbn; [by apply (ParseAddress_ok _ _ Ea)|done|lia].
Qed.
#[export] Instance keeps_Enqueue m : Keeps email_wf (Enqueue m).
Proof. unfold Enqueue. apply _. Qed.

(** *** Addresses *)
(** A user as it was read: its address is one. *)
Definition read_ok (u : UserEmail) : Prop := forall a, ue_Email u = Some a -> address a.
Lemma read_row w u row : email_wf w -> w_users w !! u = Some row -> UserID row = u -> read_ok (user_email w row).
Proof.
  intros Hw Hu Hid a. unfold user_email. cbn. rewrite Hid. intros Ha. pose proof (columns_of_ok _ _ _ Hw Hu) as Hc.
  unfold columns_ok in Hc. rewrite Ha in Hc. destruct (ColSource _); [apply Hc|done].
Qed.
Lemma read_any w row : email_wf w -> read_ok (user_email w row).
Proof.
  intros Hw a. unfold user_email, columns_of. cbn. destruct (em_columns (w_email w) !! UserID row) as [c|] eqn:E; [|done]. cbn.
  destruct (ew_columns _ Hw _ _ E) as (r & _ & Hc). unfold columns_ok in Hc. intros Ha. rewrite Ha in Hc. destruct (ColSource c); [apply Hc|done].
Qed.
Lemma wp_Get_user_email u w (Q : result UserEmail -> World -> Prop) :
  (forall e, Q (Err e) (bump w)) -> (forall row, w_users w !! u = Some row -> Q (Ok (user_email w row)) (bump w)) ->
  wp (Get_user_email u) w Q.
Proof.
  intros He Hok. unfold Get_user_email. apply wp_bind, wp_wrap, wp_query; intros; [apply He|]. change (w_users (bump w)) with (w_users w).
  destruct (w_users w !! u) as [row|] eqn:E; [by apply wp_ret, Hok|apply wp_throw, He].
Qed.
(** A program that starts by reading a user. *)
Lemma keeps_with_user {A} u (k : UserEmail -> M A) : (forall v, read_ok v -> Keeps email_wf (k v)) -> Keeps email_wf (Get_user_email u ≫= k).
Proof.
  intros Hk. apply keeps_wp. intros w Hw. apply wp_bind, wp_Get_user_email; [intros e; by apply (stable_bump w)|]. intros row _.
  eapply (wp_inv email_wf); [apply Hk, read_any, Hw|by apply (stable_bump w)|done].
Qed.
#[export] Instance keeps_RecordDirectoryEmail u raw : Keeps email_wf (RecordDirectoryEmail u raw).
Proof.
  apply keeps_wp. intros w Hw. unfold RecordDirectoryEmail. apply wp_bind.
  eapply (wp_mono _ _ (fun r w' => email_wf w' /\ forall a, r = Ok (Some a) -> address a)).
  - case_bool_decide; [by apply wp_ret|]. destruct (ParseAddress raw) as [a|e] eqn:Ea.
    + apply wp_ret. split; [done|]. intros a' [= <-]. by apply (ParseAddress_ok _ _ Ea).
    + apply wp_bind, wp_logf, wp_ret. split; [|done]. by apply (stable_logs [_] w).
  - intros [addr|e] w1 [Hw1 Ha]; [|done]. eapply (wp_inv email_wf); [|exact Hw1|done]. apply keeps_log_on_error; [apply _|].
    apply keeps_SetDirectory. intros a ->. by apply Ha.
Qed.
#[export] Instance keeps_MyAddress u : Keeps email_wf (MyAddress u).
Proof. unfold MyAddress, PendingConfirmation. repeat (apply keeps_bind; [apply _|intros ?]). apply _. Qed.
Lemma keeps_newToken I `{!Stable I} : Keeps I newToken.
Proof. unfold newToken. apply _. Qed.
#[export] Instance keeps_startConfirmation u a src by_ : address a -> Keeps email_wf (startConfirmation u a src by_).
Proof.
  intros Ha. unfold startConfirmation, PendingConfirmation. do 4 (apply keeps_bind; [apply _|intros ?]). apply keeps_bind; [apply _|intros ?].
  apply keeps_bind; [apply keeps_newToken; apply _|intros th]. apply keeps_bind; [apply _|intros now].
  apply keeps_bind; [|intros ?; cbv zeta; apply keeps_bind; [apply _|intros []; apply _]].
  by apply keeps_wrap, keeps_PutConfirmation.
Qed.
#[export] Instance keeps_audited_request u m : Keeps email_wf m -> Keeps email_wf (audited_request u m).
Proof. intros Hm. unfold audited_request. apply keeps_bind; [apply _|intros []; apply _]. Qed.
Lemma keeps_parse {A} s (f : error -> error) (k : string -> M A) : (forall a, address a -> Keeps email_wf (k a)) ->
  Keeps email_wf (match ParseAddress s with Err e => throw (f e) | Ok a => mret a end ≫= k).
Proof.
  intros Hk. destruct (ParseAddress s) as [a|e] eqn:E; [|apply keeps_throw_bind]. intros w Hw. apply (Hk a (ParseAddress_ok _ _ E) w Hw).
Qed.
#[export] Instance keeps_RequestMyAddress u a : Keeps email_wf (RequestMyAddress u a).
Proof.
  unfold RequestMyAddress. apply keeps_bind; [apply _|intros v]. apply keeps_bind; [apply _|intros ?].
  apply (keeps_parse a (fun e => invalid_settings (error_text e))). intros b Hb.
  apply keeps_bind; [apply _|intros ?]. apply keeps_bind; [by apply keeps_startConfirmation|intros ?]. apply _.
Qed.
Lemma keeps_setLocalAudited v next src actorID sa action d : read_ok v -> (forall a, next = Some a -> address a) ->
  Keeps email_wf (setLocalAudited v next src actorID sa action d).
Proof.
  intros Hv Hn. unfold setLocalAudited. apply keeps_bind; [by apply keeps_wrap, keeps_SetLocal|intros changed].
  destruct (negb changed); [apply _|]. apply keeps_audited_or_reverted; [apply _| |apply _].
  apply keeps_discard, keeps_SetLocal. exact Hv.
Qed.
#[export] Instance keeps_ClearMyAddress u : Keeps email_wf (ClearMyAddress u).
Proof.
  unfold ClearMyAddress. apply keeps_with_user. intros v Hv. apply keeps_bind; [apply _|intros ?].
  apply keeps_bind; [by apply keeps_setLocalAudited|intros ?]. apply _.
Qed.
#[export] Instance keeps_lookup_confirmation u t : Keeps email_wf (lookup_confirmation u t).
Proof. unfold lookup_confirmation, ConfirmationByTokenHash. apply _. Qed.
#[export] Instance keeps_PreviewConfirmation u t : Keeps email_wf (PreviewConfirmation u t).
Proof. unfold PreviewConfirmation. apply _. Qed.
Lemma with_hash_some hash w c : with_hash hash w = Some c -> exists u, em_confirmations (w_email w) !! u = Some c /\ ConfTokenHash c = hash.
Proof.
  unfold with_hash. destruct (List.find _ _) as [[u c']|] eqn:E; [|done]. intros [= <-].
  apply List.find_some in E as [Hin%list_elem_of_In%elem_of_map_to_list Hh%bool_decide_eq_true]. by exists u.
Qed.
(** What a link leads to: a change of that very user, not expired. *)
Lemma wp_lookup u t w (Q : result EmailConfirmation -> World -> Prop) :
  (forall e w', w_email w' = w_email w -> w_users w' = w_users w -> w_audit w' = w_audit w -> Q (Err e) w') ->
  (forall c w', w_email w' = w_email w -> w_users w' = w_users w -> w_audit w' = w_audit w ->
     with_hash (hashToken t) w = Some c -> ConfUserID c = u -> t <> "" -> w_clock w <= w_clock w' < ConfExpiresAt c -> Q (Ok c) w') ->
  wp (lookup_confirmation u t) w Q.
Proof.
  intros He Hok. unfold lookup_confirmation, ConfirmationByTokenHash, scanConfirmation.
  apply wp_bind, wp_guard; intros Ht; [|by apply He]. apply andb_true_iff in Ht as [Ht _]. propb.
  apply wp_bind, wp_map_err, wp_bind, wp_wrap, wp_query; [intros e _; by apply He|intros _].
  change (with_hash (hashToken t) (bump w)) with (with_hash (hashToken t) w). destruct (with_hash (hashToken t) w) as [c|] eqn:Ec; [|by apply wp_throw, He].
  apply wp_ret, wp_bind, wp_guard; intros Hu; [|by apply He]. apply wp_bind, wp_time_now, wp_bind, wp_guard; intros Hx; [|by apply He].
  apply wp_ret. propb. apply Hok; try done. split; [cbn; lia|exact Hx].
Qed.
(** A program that starts from a link. *)
Lemma keeps_with_link {A} u t (k : EmailConfirmation -> M A) :
  (forall c, address (ConfEmail c) -> Keeps email_wf (k c)) -> Keeps email_wf (lookup_confirmation u t ≫= k).
Proof.
  intros Hk. apply keeps_wp. intros w Hw.
  assert (Hsame : forall w', w_email w' = w_email w -> w_users w' = w_users w -> email_wf w').
  { intros w' He Hu. apply (email_wf_view w); [|done]. unfold wf_view, queue_of. by rewrite He, Hu. }
  apply wp_bind, wp_lookup; [intros; by apply Hsame|]. intros c w' He Hu _ Hc _ _ _. apply with_hash_some in Hc as (v & Hv & _).
  eapply (wp_inv email_wf); [apply Hk|by apply Hsame|done]. apply (ew_confirmations _ Hw _ _ Hv).
Qed.
#[export] Instance keeps_ConfirmAddress u t : Keeps email_wf (ConfirmAddress u t).
Proof.
  unfold ConfirmAddress. apply keeps_with_link. intros c Hc. apply keeps_with_user. intros v Hv.
  apply keeps_bind; [apply _|intros ?]. apply keeps_bind; [apply keeps_setLocalAudited; [done|by intros a' [= <-]]|intros ?]. apply _.
Qed.
#[export] Instance keeps_SetUserAddress actor u a conf : Keeps email_wf (SetUserAddress actor u a conf).
Proof.
  unfold SetUserAddress. apply keeps_bind; [apply _|intros ?]. apply keeps_with_user. intros v Hv.
  apply keeps_bind; [apply _|intros ?]. case_bool_decide.
  { apply keeps_bind; [by apply keeps_setLocalAudited|intros ?]. apply _. }
  apply (keeps_parse a (fun e => invalid_settings (error_text e))). intros b Hb. destruct conf; (apply keeps_bind; [apply _|intros ?]).
  - apply keeps_bind; [by apply keeps_startConfirmation|intros ?]. apply _.
  - apply keeps_bind; [apply keeps_setLocalAudited; [done|by intros x [= <-]]|intros ?]. apply _.
Qed.

(** *** Alerts and digests *)
Lemma keeps_upd_digest f : Keeps email_wf (exec (upd_digest f)).
Proof. apply keeps_exec; [apply _|]. intros w. apply wf_digest. Qed.
#[export] Instance keeps_AddDigestItem u a s t : Keeps email_wf (AddDigestItem u a s t).
Proof.
  unfold AddDigestItem. apply keeps_wrap, keeps_sql; [apply _|]. intros w Hw. case_test Et; [done|]. case_test Er; [done|]. by apply wf_digest.
Qed.
#[export] Instance keeps_DeleteDigestItems u l : Keeps email_wf (DeleteDigestItems u l).
Proof. unfold DeleteDigestItems. case_bool_decide; [apply _|]. apply keeps_wrap, keeps_upd_digest. Qed.
#[export] Instance keeps_DeleteOldDigest t : Keeps email_wf (DeleteDigestItemsOlderThan t).
Proof. unfold DeleteDigestItemsOlderThan. apply keeps_wrap, keeps_sql; [apply _|]. intros w Hw. by apply wf_digest. Qed.
#[export] Instance keeps_AlertRaised a e : Keeps email_wf (AlertRaised_email a e).
Proof.
  unfold AlertRaised_email, RecipientsForAlert. apply keeps_bind; [apply _|]. intros [cfg|?]; [|apply _].
  destruct (negb _); [apply _|]. apply keeps_bind; [apply _|]. intros [[|r rs]|?]; [apply _| |apply _].
  apply keeps_bind; [apply _|intros loc]. apply keeps_forM. intros r'. unfold notify_one. apply _.
Qed.
#[export] Instance keeps_SetMyPreferences u d s : Keeps email_wf (SetMyPreferences u d s).
Proof.
  unfold SetMyPreferences. destruct (EmailDelivery_of d); [|apply _]. destruct (AlertSeverity_of s); [|apply _].
  apply keeps_bind; [apply _|intros v]. destruct (_ && _); apply _.
Qed.
#[export] Instance keeps_digestFor u mode loc : Keeps email_wf (digestFor u mode loc).
Proof.
  unfold digestFor, PendingDigest. apply keeps_bind; [apply _|]. intros [v|]; [|apply _]. apply keeps_bind; [apply _|]. intros [items|]; [|apply _].
  cbv zeta. destruct (ue_Email v); [|apply _]. destruct (_ || _); [apply _|]. apply keeps_bind; [apply _|]. intros []; apply _.
Qed.
#[export] Instance keeps_RunDigest mode : Keeps email_wf (RunDigest mode).
Proof.
  unfold RunDigest, UsersWithDigestItems. apply keeps_bind; [apply _|intros ?]. apply keeps_bind; [apply _|intros cfg].
  destruct (negb _); [apply _|]. apply keeps_bind; [apply _|intros now]. apply keeps_bind; [apply _|intros rd].
  apply keeps_bind; [destruct rd; apply _|intros ?]. apply keeps_bind; [apply _|intros users]. apply keeps_bind; [apply _|intros loc].
  induction users as [|v users IH]; cbn [digest_all]; [apply _|]. apply keeps_bind; [apply _|intros n]. destruct (ctx_Err n); apply _.
Qed.
#[export] Instance keeps_MarkDigestRun k t : Keeps email_wf (MarkDigestRun k t).
Proof.
  unfold MarkDigestRun. apply keeps_wrap, keeps_exec; [apply _|]. intros w Hw. apply (wf_settings (mark_run k t (em_settings (w_email w)))); [|done].
  by apply (settings_wf_same (em_settings (w_email w))), (ew_settings _ Hw).
Qed.

(** *** The worker *)
#[export] Instance keeps_deliver mc e : Keeps email_wf (deliver mc e).
Proof. unfold deliver, record. apply _. Qed.
#[export] Instance keeps_deliver_all mc es : Keeps email_wf (deliver_all mc es).
Proof.
  induction es as [|e es IH]; cbn [deliver_all]; [apply _|]. apply keeps_bind; [apply _|intros n]. destruct (ctx_Err n); apply _.
Qed.
#[export] Instance keeps_ProcessOnce : Keeps email_wf ProcessOnce.
Proof. unfold ProcessOnce. apply _. Qed.
#[export] Instance keeps_run_turn t : Keeps email_wf (run_turn t).
Proof. unfold run_turn, purge. apply _. Qed.
End Service.

(** ** Every reachable state *)
Section Reachable.
Context `{Env} `{RandomSource} `{EmailDeps}.

(** Every operation of the service, and what the rest of the server does: users
    are added and change but stay the kind of account they are, alerts take
    their digest items along. *)
Inductive email_step : World -> World -> Prop :=
| es_settings actor in_ w : email_step w (snd (UpdateSettings_email actor in_ w))
| es_test actor to_ w : email_step w (snd (SendTest actor to_ w))
| es_enqueue m w : email_step w (snd (Enqueue m w))
| es_directory u raw w : email_step w (snd (RecordDirectoryEmail u raw w))
| es_request u a w : email_step w (snd (RequestMyAddress u a w))
| es_clear u w : email_step w (snd (ClearMyAddress u w))
| es_preview u t w : email_step w (snd (PreviewConfirmation u t w))
| es_confirm u t w : email_step w (snd (ConfirmAddress u t w))
| es_set_user actor u a conf w : email_step w (snd (SetUserAddress actor u a conf w))
| es_alert a e w : email_step w (snd (AlertRaised_email a e w))
| es_preferences u d s w : email_step w (snd (SetMyPreferences u d s w))
| es_mark_run k t w : email_step w (snd (MarkDigestRun k t w))
| es_digest mode w : email_step w (snd (RunDigest mode w))
| es_worker t w : email_step w (snd (run_turn t w))
| es_elsewhere w w' :
    (exists d, w_email w' = set_em_digest d (w_email w)) ->
    (forall u row, w_users w !! u = Some row -> exists row', w_users w' !! u = Some row' /\ is_directory row' = is_directory row) ->
    email_step w w'.

Lemma email_step_wf w w' : email_step w w' -> email_wf w -> email_wf w'.
Proof.
  destruct 1; try (intros Hw; apply (keeps (I := email_wf)); exact Hw).
  destruct H2 as [d Hd]. intros Hw. constructor; unfold queue_of; rewrite ?Hd.
  - apply (ew_queue _ Hw).
  - intros u c Hc. destruct (ew_columns _ Hw u c Hc) as (row & Hu & Hok). destruct (H3 _ _ Hu) as (row' & Hu' & Hdir).
    exists row'. split; [done|]. unfold columns_ok in *. by rewrite Hdir.
  - apply (ew_confirmations _ Hw).
  - apply (ew_hashes _ Hw).
  - apply (ew_settings _ Hw).
Qed.

(** C23: in every state the server reaches, a queued mail has an address the
    relay will be given as it is, a subject of one bounded line and a bounded
    body, and is marked sent exactly when it has a time of delivery; a user's
    address is valid, and comes from the directory exactly for the accounts of
    the directory; a waiting change of address belongs to one user and one
    token, which ends a day after it was asked for; and e-mail that is on has a
    relay configuration the mailer accepts. *)
Theorem email_always_wf w w' : rtc email_step w w' -> email_wf w -> email_wf w'.
Proof. induction 1 as [|w w1 w2 Hs _ IH]; [done|]. intros Hw. by apply IH, (email_step_wf w). Qed.
End Reachable.

(** ** A server with one local account *)
Definition counting_bytes : RandomSource := fun n k => map (fun i => (Z.of_N n * 7 + Z.of_nat i) mod 256) (seq 0 k).
Definition good_relay : Relay :=
  MkRelay None None None None None [("STARTTLS", ""); ("AUTH", "PLAIN LOGIN")] None [("AUTH", "PLAIN LOGIN")]
    [LoggedIn "ok"] (Reply 250 "ok") (Reply 250 "ok") (Reply 354 "go") None (Reply 250 "queued").
Definition utc_only : ZoneDatabase := {| LoadLocation := fun n => if bool_decide (n = "UTC") then Ok UTC else Err (Opaque "unknown zone") |}.
Definition lab_deps (relay : Relay) : EmailDeps :=
  @relay_deps quiet_env (fun _ => relay) utc_only (MkServerEnv "secret" "" "https://sparky.example.com" "") (fun _ _ => "UTC") (fun _ => None).
Definition ann : User := MkUser "ann" None "Ann" TierDeveloper 0 None None None None (Some "ann") None "{}" None None.
Definition relay_settings : EmailSettings :=
  MkEmailSettings true "relay.example.com" 587 EmailTLSStartTLS "sparky" "sparky@example.com" "Sparky" "08:00" 0 None None None 0.
Definition lab : World :=
  upd_email (set_em_settings relay_settings) (set_w_users {[ "ann" := ann ]} empty_world).
Lemma lab_wf relay : @email_wf (lab_deps relay) lab.
Proof.
  constructor; [done|done|done|done|]. split; [vm_compute; reflexivity|]. split; [intros _; vm_compute; reflexivity|]. done.
Qed.

(** Ann asks for an address: the mail that waits has the link. *)
Lemma email_always_wf_witness :
  let d := lab_deps good_relay in
  let w' := snd (@RequestMyAddress quiet_env counting_bytes d "ann" "ann@example.com" lab) in
  size (queue_of w') = 1%nat /\ size (em_confirmations (w_email w')) = 1%nat /\ @email_wf d w'.
Proof.
  cbv zeta. split; [vm_compute; reflexivity|]. split; [vm_compute; reflexivity|].
  apply (@email_always_wf quiet_env counting_bytes (lab_deps good_relay) lab); [|apply lab_wf].
  apply rtc_once. apply es_request.
Defined.
