(* ===== verification/EmailEffects.v ===== *)
(** * What the e-mail operations do: addresses, alerts, digests

    A link changes the address of the one account it was made for; an alert
    reaches exactly the people who would see it in their inbox and want it; a
    digest takes nothing it did not send. *)
From stdpp Require Import base list strings gmap sorting.
From Stdlib Require Import ZArith Lia.
From Stdlib Require Import Ascii.
From Stdlib Require String.
From S2P Require Import Prelude Text Runes Json Db NodeToken GoTime Schedule Rbac ScheduleRun InstanceStore AlertStore AlertRaiser Alerts TransferStore EngineStore EmailStore Mailer Email EmailSpec.
Local Open Scope string_scope.
Local Open Scope list_scope.
Local Open Scope Z_scope.

(** ** A change of address *)
Section Address.
Context `{Env} `{RandomSource} `{EmailDeps}.

Lemma columns_put u c w v : columns_of (put_columns u c w) v = if decide (v = u) then c else columns_of w v.
Proof.
  unfold columns_of, put_columns, upd_email. cbn. rewrite lookup_insert. repeat case_decide; try done; congruence.
Qed.
(** What a change of address leaves alone: the accounts, and the rest of the
    e-mail tables. *)
Definition beyond_columns (w : World) := (w_users w, em_confirmations (w_email w), queue_of w, em_digest (w_email w), em_settings (w_email w)).
Lemma wp_set_address dir u email src w (Q : result bool -> World -> Prop) :
  (forall e, Q (Err e) (bump w)) ->
  (forall row, w_users w !! u = Some row -> is_directory row = dir ->
     Q (Ok true) (put_columns u (MkEmailColumns email src (ColDelivery (columns_of w u)) (ColMinSeverity (columns_of w u))) (bump w))) ->
  ((forall row, w_users w !! u = Some row -> is_directory row = dir -> ColEmail (columns_of w u) = email /\ ColSource (columns_of w u) = src) ->
     Q (Ok false) (bump w)) ->
  wp (set_address dir u email src) w Q.
Proof.
  intros He Hy Hn. unfold set_address. apply wp_sql; [intros e _; apply He|intros _].
  change (w_users (bump w)) with (w_users w). change (columns_of (bump w) u) with (columns_of w u).
  destruct (w_users w !! u) as [row|] eqn:Eu; [|apply Hn; by intros ? [=]]. cbv zeta. case_test Eb.
  - apply andb_true_iff in Eb as [Ed _]. apply bool_decide_eq_true in Ed. case_test Et; [apply He|]. case_test Es; [apply He|]. by apply (Hy row).
  - apply Hn. intros row' [= <-] Hd. rewrite bool_decide_eq_true_2 in Eb by done. cbn in Eb.
    apply negb_false_iff, andb_true_iff in Eb as [E1 E2]. by apply bool_decide_eq_true in E1, E2.
Qed.

(** An audited change of a local account's address: done and on record, or
    undone. *)
Definition address_changed (u : string) (next : option string) (src : EmailSource) (w w' : World) : Prop :=
  ColEmail (columns_of w' u) = next /\ ColSource (columns_of w' u) = (match next with Some _ => Some src | None => None end) /\
  ColDelivery (columns_of w' u) = ColDelivery (columns_of w u) /\ ColMinSeverity (columns_of w' u) = ColMinSeverity (columns_of w u) /\
  forall v, v <> u -> columns_of w' v = columns_of w v.
Definition failed_revert (e : error) : Prop := exists e1 e2, e = revert_failed (Errorf "record audit: " e1 "") e2.
Lemma wp_setLocalAudited w0 row u next src actorID sa action d w (Q : result unit -> World -> Prop) :
  w_users w !! u = Some row -> UserID row = u -> is_directory row = false -> email_wf w -> columns_of w u = columns_of w0 u ->
  (forall w', beyond_columns w' = beyond_columns w -> address_changed u next src w w' ->
     (w_audit w' = w_audit w /\ em_columns (w_email w') = em_columns (w_email w) \/ audited action w w') -> Q (Ok tt) w') ->
  (forall e w', beyond_columns w' = beyond_columns w -> (forall v, columns_of w' v = columns_of w v) \/ failed_revert e -> Q (Err e) w') ->
  wp (setLocalAudited (user_email w0 row) next src actorID sa action d) w Q.
Proof.
  intros Hu Hid Hdir Hw H0c Hok He. unfold setLocalAudited, SetLocal. cbn [ue_UserID ue_Email ue_Source user_email]. rewrite Hid.
  apply wp_bind, wp_wrap, wp_wrap, wp_set_address.
  { intros e. apply He; [done|left; done]. }
  2: { intros Hsame. apply wp_ret. destruct (Hsame row Hu Hdir) as [H1e H1s]. apply Hok; [done| |by left].
       repeat split; try done. }
  intros row' Hu' _. assert (row' = row) as -> by congruence. cbn [negb]. set (c1 := MkEmailColumns _ _ _ _). set (w1 := put_columns u c1 (bump w)).
  assert (Hc1 : columns_of w1 u = c1) by by unfold w1; rewrite columns_put, decide_True.
  assert (Hv1 : forall v, v <> u -> columns_of w1 v = columns_of w v) by by intros v Hv; unfold w1; rewrite columns_put, decide_False.
  assert (Hch : address_changed u next src w w1) by by unfold address_changed; rewrite Hc1; destruct next.
  pose proof (columns_of_ok _ _ _ Hw Hu) as Hcok. unfold columns_ok in Hcok. rewrite <-H0c in *.
  apply wp_audited_or_reverted, wp_Record.
  - intros e _. apply wp_discard, wp_wrap, wp_set_address.
    + intros e2. apply He; [done|right; by eexists _, _].
    + intros row2 _ _. apply He; [done|]. left. intros v. rewrite columns_put. case_decide as Ev; [subst v|by apply Hv1].
      change (columns_of (bump w1) u) with (columns_of w1 u). rewrite Hc1. unfold c1. cbn [ColDelivery ColMinSeverity].
      destruct (columns_of w u) as [[a|] [s|] dl ms]; cbn in *; done.
    + intros Hsame. apply He; [done|]. left. intros v. destruct (decide (v = u)) as [->|Hv]; [|by apply Hv1].
      change (columns_of w1 u = columns_of w u). destruct (Hsame row Hu Hdir) as [H1e H1s].
      change (columns_of (bump w1) u) with (columns_of w1 u) in *. rewrite Hc1 in *. unfold c1 in *. cbn in H1e, H1s.
      destruct (columns_of w u) as [[a|] [s|] dl ms]; cbn in *; first [done|congruence].
  - intros _. apply wp_ret, Hok; [done|exact Hch|]. right. by eexists.
Qed.
Lemma wp_ignore_delete u w (Q : result unit -> World -> Prop) :
  (forall w', w_users w' = w_users w -> w_audit w' = w_audit w -> queue_of w' = queue_of w -> em_columns (w_email w') = em_columns (w_email w) ->
     (em_confirmations (w_email w') = em_confirmations (w_email w) \/ em_confirmations (w_email w') = delete u (em_confirmations (w_email w))) ->
     Q (Ok tt) w') ->
  wp (ignore (DeleteConfirmation u)) w Q.
Proof.
  intros HQ. unfold ignore, DeleteConfirmation. apply wp_discard, wp_attempt, wp_wrap, wp_sql; [intros e _|intros _]; apply HQ; try done; [by left|by right].
Qed.

(** C27: opening a confirmation link, by the page's button: it takes effect
    only for the account it was made for, a local one, while its day has not
    passed; then exactly that account's address is the one the link was sent
    to, with who asked for it as its source, and the change is on record.
    Otherwise no address changes, unless the change could not be recorded nor
    undone, which the error says, and the link is as usable as before. *)
Theorem ConfirmAddress_spec u t w : email_wf w -> (forall k row, w_users w !! k = Some row -> UserID row = k) ->
  wp (ConfirmAddress u t) w (fun r w' =>
    match r with
    | Ok a => exists c row, em_confirmations (w_email w) !! u = Some c /\ ConfTokenHash c = hashToken t /\ t <> "" /\ a = ConfEmail c /\
        w_clock w < ConfExpiresAt c /\ w_users w !! u = Some row /\ is_directory row = false /\
        address_changed u (Some a) (ConfSource c) w w' /\
        (em_columns (w_email w') = em_columns (w_email w) \/ audited "confirmed_email_address" w w')
    | Err e => ((forall v, columns_of w' v = columns_of w v) \/ failed_revert e) /\
        em_confirmations (w_email w') = em_confirmations (w_email w)
    end).
Proof.
  intros Hw Hkeys. unfold ConfirmAddress. apply wp_bind, wp_lookup.
  { intros e w' He _ _. unfold columns_of. rewrite He. by split; [left|]. }
  intros c w1 He1 Hu1 Ha1 Hc Hcu Ht Hx. apply with_hash_some in Hc as (u' & Hcu' & Hh).
  assert (u' = u) as -> by by destruct (ew_confirmations _ Hw _ _ Hcu') as [<- _ _ _].
  assert (Hcols : forall v, columns_of w1 v = columns_of w v) by by intros v; unfold columns_of; rewrite He1.
  apply wp_bind, wp_Get_user_email; [intros e; split; [left; apply Hcols|by cbn; rewrite He1]|]. intros row Hrow.
  apply wp_bind, wp_guard; intros Hd; [|split; [left; apply Hcols|by cbn; rewrite He1]]. cbn in Hd. apply negb_true_iff in Hd.
  assert (Hw1 : email_wf (bump w1)). { apply (email_wf_view w); [|done]. unfold wf_view, queue_of. cbn. by rewrite He1, Hu1. }
  assert (Hid : UserID row = u) by (apply Hkeys; by rewrite <-Hu1).
  apply wp_bind, (wp_setLocalAudited w1 row u); try done.
  - intros w2 [= Hu2 Hf2 _ _ _] Hch Haud. apply wp_bind, wp_ignore_delete. intros w3 Hu3 Ha3 _ Hc3 _. apply wp_ret.
    assert (Hcols3 : forall v, columns_of w3 v = columns_of w2 v) by by intros v; unfold columns_of; rewrite Hc3.
    exists c, row. rewrite Hu1 in Hrow. repeat (split; [done || lia|]). split.
    + destruct Hch as (Ha & Hs & Hdl & Hms & Hv). unfold address_changed. rewrite Hcols3, <-Hcols.
      repeat (split; [done|]). intros v Hne. rewrite Hcols3, <-Hcols. by apply Hv.
    + destruct Haud as [[_ Hsame]|(rec & Hr & Hact)]; [left|right].
      * rewrite Hc3, Hsame. cbn. by rewrite He1.
      * exists rec. split; [|done]. rewrite Ha3, Hr. cbn. by rewrite Ha1.
  - intros e w2 [= _ Hf2 _ _ _] Hor. split; [|rewrite Hf2; cbn; by rewrite He1].
    destruct Hor as [Hsame|Hf]; [left|by right]. intros v. rewrite Hsame. apply Hcols.
Qed.
End Address.

(** ** Who is told of an alert *)
Section Recipients.

(** The columns of someone who wants e-mail of a severity. *)
Definition wants (c : EmailColumns) (s : AlertSeverity) : Prop :=
  is_Some (ColEmail c) /\ ColDelivery c <> EmailDeliveryOff /\ Rank (ColMinSeverity c) <= Rank s.
Lemma recipient_some w id s u r : recipient w id s u = Some r <->
  rec_UserID r = UserID u /\ ColEmail (columns_of w (UserID u)) = Some (rec_Email r) /\ rec_Delivery r = ColDelivery (columns_of w (UserID u)) /\
  wants (columns_of w (UserID u)) s /\ addressed_to w id u = true.
Proof.
  unfold recipient, wants. cbv zeta. destruct (ColEmail (columns_of w (UserID u))) as [a|]; [|split; [done|by intros (_ & ? & _)]]. split.
  - case_test Eb; [|done]. intros [= <-]. apply andb_true_iff in Eb as [[Ed%negb_true_iff El]%andb_true_iff Ea]. propb. cbn. eauto 10.
  - intros (Hi & [= Ha] & Hd & (_ & Hoff & Hr) & Hadr). rewrite bool_decide_eq_false_2, Hadr by done.
    rewrite (proj2 (Z.leb_le _ _) Hr). cbn. destruct r; cbn in *. congruence.
Qed.
Lemma elem_of_users w u : u ∈ sort_by by_user_id (map snd (map_to_list (w_users w))) <-> exists k, w_users w !! k = Some u.
Proof.
  rewrite elem_of_sort_by, list_elem_of_fmap. split.
  - intros ([k v] & -> & Hin%elem_of_map_to_list). by exists k.
  - intros [k Hk]. exists (k, u). by rewrite elem_of_map_to_list.
Qed.
Lemma elem_of_recipients w id s r : (forall k row, w_users w !! k = Some row -> UserID row = k) ->
  r ∈ recipients id s w <-> exists row, w_users w !! rec_UserID r = Some row /\ recipient w id s row = Some r.
Proof.
  intros Hkeys. unfold recipients. rewrite list_elem_of_omap. setoid_rewrite elem_of_users. split.
  - intros (u & [k Hk] & Hr). pose proof (proj1 (recipient_some _ _ _ _ _) Hr) as (Hi & _). rewrite Hi, (Hkeys _ _ Hk). eauto.
  - intros (row & Hrow & Hr). eauto.
Qed.
Lemma NoDup_omap_proj {A B C} (f : A -> option B) (g : A -> C) (h : B -> C) l :
  (forall a b, f a = Some b -> h b = g a) -> NoDup (map g l) -> NoDup (map h (omap f l)).
Proof.
  intros Hf. induction l as [|a l IH]; simpl; [done|]. intros [Ha Hl]%NoDup_cons. destruct (f a) as [b|] eqn:E; simpl; [|by apply IH].
  constructor; [|by apply IH]. intros (b' & Hb & (a' & Ha' & Hfa)%list_elem_of_omap)%list_elem_of_fmap.
  apply Ha. rewrite <-(Hf _ _ E), Hb, (Hf _ _ Hfa). apply list_elem_of_fmap. eauto.
Qed.
Lemma recipients_once w id s : (forall k row, w_users w !! k = Some row -> UserID row = k) -> NoDup (map rec_UserID (recipients id s w)).
Proof.
  intros Hkeys. unfold recipients. apply (NoDup_omap_proj _ UserID).
  { intros u r Hr. by apply recipient_some in Hr as (-> & _). }
  rewrite sort_by_perm, map_map. assert (map (fun x : string * User => UserID x.2) (map_to_list (w_users w)) = (map_to_list (w_users w)).*1) as ->.
  { apply List.map_ext_in. intros [k row] Hin%list_elem_of_In%elem_of_map_to_list. by apply Hkeys. }
  apply NoDup_fst_map_to_list.
Qed.

(** The two queries agree on an audience. *)
Lemma existsb_ext {A} (f g : A -> bool) l : (forall x, f x = g x) -> existsb f l = existsb g l.
Proof. intros Hfg. induction l as [|x l IH]; [done|]. cbn [existsb]. by rewrite Hfg, IH. Qed.
Lemma existsb_andb {A} (b : bool) (f : A -> bool) l : b && existsb f l = existsb (fun x => b && f x) l.
Proof. destruct b; cbn [andb]; [by apply existsb_ext|]. induction l as [|x l IH]; [done|exact IH]. Qed.
Lemma existsb_key {K V} `{Countable K} (k : K) (m : gmap K V) :
  existsb (fun e : K * V => bool_decide (e.1 = k)) (map_to_list m) = bool_decide (is_Some (m !! k)).
Proof.
  apply eq_true_iff_eq. rewrite existsb_exists, bool_decide_eq_true. split.
  - intros ([k' v] & Hin%list_elem_of_In%elem_of_map_to_list & Hk%bool_decide_eq_true). cbn in Hk. subst. by exists v.
  - intros [v Hv]. exists (k, v). split; [by apply list_elem_of_In, elem_of_map_to_list|by apply bool_decide_eq_true].
Qed.
Lemma audience_agrees w u au : audience_mails w u au = audience_matches w (Some (UserID u)) (UTier u) au.
Proof.
  destruct au as [id|t|g]; cbn [audience_mails audience_matches]; [apply bool_decide_ext; split; [by intros ->|by intros [= ->]]|done|].
  unfold group_member. f_equal; [apply existsb_key|]. apply existsb_ext. intros [k v]. rewrite existsb_andb. apply existsb_ext. intros c.
  cbn [fst snd]. unfold equal_fold. by destruct (bool_decide (to_lower _ = _)), (bool_decide (k.1 = g)), (bool_decide (c.1 = _)).
Qed.
(** The alert as it is to someone who did not dismiss it. *)
Definition undismissed (id u : string) (w : World) : World := set_w_ustate (delete (id, u) (w_ustate w)) w.

(** C26: who is e-mailed about an alert, which a query of its own finds,
    agrees with the inbox but for dismissals: someone is found exactly when
    they have an address, want e-mail of its severity, and the inbox shows the
    alert to them or would if they had not dismissed it.  Nobody is found
    twice, and each with the address and the delivery they have. *)
Theorem recipients_are_viewers w id s a : (forall k row, w_users w !! k = Some row -> UserID row = k) -> w_alerts w !! id = Some a ->
  (forall u row, w_users w !! u = Some row -> u <> "" ->
     (exists r, r ∈ recipients id s w /\ rec_UserID r = u) <->
     wants (columns_of w u) s /\
       is_Some (visibleAlerts (MkViewer u (UTier row)) (if bool_decide (DismissedAt (user_state w (Some u) id) = None) then w
                                                        else undismissed id u w) !! id)) /\
  NoDup (map rec_UserID (recipients id s w)) /\
  forall r, r ∈ recipients id s w ->
    ColEmail (columns_of w (rec_UserID r)) = Some (rec_Email r) /\ ColDelivery (columns_of w (rec_UserID r)) = rec_Delivery r.
Proof.
  intros Hkeys Ha. split; [|split; [by apply recipients_once|]].
  - intros u row Hu Hne. pose proof (Hkeys _ _ Hu) as Hid. set (w1 := if bool_decide _ then w else _).
    assert (Hvis : is_Some (visibleAlerts (MkViewer u (UTier row)) w1 !! id) <-> addressed_to w id row = true).
    { assert (H1 : w_alerts w1 !! id = Some a /\ DismissedAt (user_state w1 (Some u) id) = None /\
        existsb (audience_matches w1 (Some u) (UTier row)) (audiences_of w1 id) = addressed_to w id row).
      { unfold addressed_to. rewrite (existsb_ext _ _ _ (audience_agrees w row)), Hid. unfold w1. case_bool_decide; [done|].
        split; [done|]. split; [|done]. cbn. by rewrite lookup_delete_eq. }
      destruct H1 as (Ha1 & Hd1 & <-). unfold visibleAlerts, viewerUserArg. rewrite map_lookup_imap, Ha1. cbn [ViewerUserID ViewerTier mbind option_bind].
      rewrite (bool_decide_eq_false_2 (u = "")) by done. cbv zeta. rewrite bool_decide_eq_true_2 by done. cbn [andb].
      destruct (existsb _ _); split; done || eauto || by intros [? [=]]. }
    rewrite Hvis. split.
    + intros (r & Hr & Hru). apply elem_of_recipients in Hr as (row' & Hrow' & Hr); [|done]. rewrite Hru in Hrow'. assert (row' = row) as -> by congruence.
      apply recipient_some in Hr as (_ & _ & _ & Hw & Hadr). by rewrite Hid in Hw.
    + intros [Hw Hadr]. destruct (proj1 Hw) as [email Hemail]. exists (MkRecipient u email (ColDelivery (columns_of w u))). split; [|done].
      apply elem_of_recipients; [done|]. exists row. split; [done|]. apply recipient_some. rewrite Hid. done.
  - intros r Hr. apply elem_of_recipients in Hr as (row & Hrow & Hr); [|done]. apply recipient_some in Hr as (Hi & He & Hd & _).
    rewrite Hi. done.
Qed.
End Recipients.

(** ** Telling them *)
Section Telling.
Context `{Env} `{RandomSource} `{EmailDeps}.

(** A queue attempt: refused with nothing changed, or one new pending mail. *)
Definition queued_as (m : OutMessage) (addr : string) (now : Time) (e : Email) : Prop :=
  ParseAddress (om_To m) = Ok addr /\
  e = new_email (EmailID e) now (MkNewEmail (om_Kind m) addr (om_UserID m) (om_Subject m) (om_Body m)).
Lemma wp_queueChecked m w (Q : result unit -> World -> Prop) :
  (forall e, Q (Err e) w) -> (forall e, Q (Err e) (bump w)) ->
  (forall e addr, queued_as m addr (w_clock (bump w)) e -> queue_of w !! EmailID e = None ->
     subject_ok (om_Subject m) = true -> len (om_Body m) <= maxBodyLen -> Q (Ok tt) (put_email e (bump w))) ->
  wp (queueChecked m) w Q.
Proof.
  intros He He' Hok. unfold queueChecked. apply wp_bind. destruct (ParseAddress (om_To m)) as [addr|e] eqn:Ea; [|by apply wp_throw].
  apply wp_ret, wp_bind, wp_guard; intros Hs; [|apply He]. apply wp_bind, wp_guard; intros Hb; [|apply He].
  unfold Enqueue_db. apply wp_discard, wp_wrap, wp_wrap, wp_wrap, wp_sql; [intros; apply He'|intros _]. cbv zeta.
  case_test Et; [apply He'|]. case_test Ei; [apply He'|]. case_test Er; [apply He'|].
  apply (Hok _ addr); [by split| |done|lia]. apply bool_decide_eq_false in Ei. by apply eq_None_not_Some.
Qed.

(** The parts of the world e-mail does not own stay as they are. *)
Definition quietly (w w' : World) : Prop :=
  exists n c l em, w' = set_w_email em (set_w_logs (w_logs w ++ l) (set_w_clock c (set_w_calls n w))) /\ w_clock w <= c.
#[export] Instance quietly_preorder : PreOrder quietly.
Proof.
  split.
  - intros w. exists (w_calls w), (w_clock w), [], (w_email w). rewrite app_nil_r. split; [by destruct w|lia].
  - intros w1 w2 w3 (n & c & l & em & -> & Hc) (n' & c' & l' & em' & -> & Hc'). exists n', c', (l ++ l'), em'.
    cbn in *. rewrite (assoc_L (++)). split; [done|lia].
Qed.
Lemma quietly_bump w : quietly w (bump w).
Proof. exists (w_calls (bump w)), (w_clock (bump w)), [], (w_email w). rewrite app_nil_r. split; [by destruct w|cbn; lia]. Qed.
Lemma quietly_upd f w : quietly w (upd_email f w).
Proof. exists (w_calls w), (w_clock w), [], (f (w_email w)). rewrite app_nil_r. split; [by destruct w|lia]. Qed.
Lemma quietly_sql {A} (g : World -> error + (A * World)) :
  (forall w, match g w with inl _ => True | inr (_, w2) => quietly w w2 end) -> Evolves quietly (sql g).
Proof.
  intros Hg w. unfold sql. destruct (fault _); simpl; [apply quietly_bump|]. specialize (Hg (bump w)).
  destruct (g (bump w)) as [e|[a w2]]; simpl; [apply quietly_bump|]. etransitivity; [apply quietly_bump|exact Hg].
Qed.
#[export] Instance quietly_query {A} (f : World -> A) : Evolves quietly (query f).
Proof. apply quietly_sql. intros w. reflexivity. Qed.
#[export] Instance quietly_logf fmt : Evolves quietly (logf fmt).
Proof. intros w. exists (w_calls w), (w_clock w), [fmt], (w_email w). split; [by destruct w|lia]. Qed.
#[export] Instance quietly_log_on_error {A} fmt (m : M A) : Evolves quietly m -> Evolves quietly (log_on_error fmt m).
Proof. intros Hm. unfold log_on_error. apply evolves_bind; [apply _|by apply evolves_attempt|]. intros []; apply _. Qed.
#[export] Instance quietly_location : Evolves quietly location.
Proof.
  unfold location. destruct zone_source as [z|] eqn:Ez; [|apply _]. apply evolves_bind; [apply _| |intros []; apply _].
  apply evolves_attempt. intros w. destruct (zone_quiet z w Ez) as (n & c & Hc & ->). exists n, c, [], (w_email w).
  rewrite app_nil_r. split; [by destruct w|done].
Qed.
#[export] Instance quietly_queueChecked m : Evolves quietly (queueChecked m).
Proof.
  intros w. change (wp (queueChecked m) w (fun _ w' => quietly w w')).
  apply wp_queueChecked; [reflexivity|intros e; apply quietly_bump|]. intros e addr _ _ _ _.
  etransitivity; [apply quietly_bump|apply quietly_upd].
Qed.
#[export] Instance quietly_AddDigestItem u a s t : Evolves quietly (AddDigestItem u a s t).
Proof.
  unfold AddDigestItem. apply evolves_wrap, quietly_sql. intros w. case_test Et; [done|]. case_test Er; [done|]. apply quietly_upd.
Qed.
#[export] Instance quietly_notify a s b r : Evolves quietly (notify_one a s b r).
Proof. unfold notify_one. destruct (rec_Delivery r); apply _. Qed.
Lemma quietly_forM {A} (l : list A) f : (forall x, Evolves quietly (f x)) -> Evolves quietly (forM_ l f).
Proof. intros Hf. induction l as [|x l IH]; cbn [forM_]; apply _. Qed.
#[export] Instance quietly_get_settings : Evolves quietly get_settings.
Proof. unfold get_settings, Get_email_settings. apply evolves_wrap, evolves_wrap, quietly_query. Qed.
#[export] Instance quietly_RecipientsForAlert id s : Evolves quietly (RecipientsForAlert id s).
Proof. unfold RecipientsForAlert. apply evolves_wrap, quietly_query. Qed.
#[export] Instance quietly_AlertRaised a e : Evolves quietly (AlertRaised_email a e).
Proof.
  unfold AlertRaised_email. apply evolves_bind; [apply _..|]. intros [cfg|?]; [|apply _].
  destruct (negb _); [apply _|]. apply evolves_bind; [apply _..|]. intros [[|r rs]|?]; [apply _| |apply _].
  apply evolves_bind; [apply _..|intros loc]. destruct (alertMessage _ _ _ _) as [s b]. apply quietly_forM. intros r'. apply _.
Qed.

(** Nothing here ends with an error. *)
Definition always_ok (m : M unit) : Prop := forall w, fst (m w) = Ok tt.
Lemma ok_log_on_error {A} fmt (m : M A) : always_ok (log_on_error fmt m).
Proof. intros w. unfold log_on_error, attempt, mbind, ST_bind. by destruct (m w) as [[]]. Qed.
Lemma ok_forM {A} (l : list A) f : (forall x, always_ok (f x)) -> always_ok (forM_ l f).
Proof.
  intros Hf. induction l as [|x l IH]; intros w; [done|]. cbn [forM_]. unfold mbind, ST_bind. specialize (Hf x w).
  destruct (f x w) as [r w1]. cbn in Hf. subst. apply IH.
Qed.
Lemma ok_notify a s b r : always_ok (notify_one a s b r).
Proof. unfold notify_one. destruct (rec_Delivery r); [done|apply ok_log_on_error..]. Qed.
Lemma ok_AlertRaised a e : always_ok (AlertRaised_email a e).
Proof.
  intros w. unfold AlertRaised_email, attempt, mbind at 1, ST_bind at 1. destruct (get_settings w) as [[cfg|e1] w1]; [|done].
  destruct (negb _); [done|]. unfold mbind at 1, ST_bind at 1. destruct (RecipientsForAlert _ _ w1) as [[[|r rs]|e2] w2]; [done| |done].
  unfold mbind, ST_bind. destruct (location w2) as [[loc|e3] w3] eqn:El; [apply ok_forM; intros; apply ok_notify|].
  exfalso. unfold location in El. destruct zone_source as [z|]; [|done]. unfold attempt, mbind, ST_bind in El. by destruct (z w2) as [[] ?].
Qed.

(** The e-mail service is what the alert inbox tells of its alerts: with this
    instance every theorem of Alerts.v is about the two together. *)
#[export] Instance email_notifier : Notifier.
Proof.
  refine {| AlertRaised := AlertRaised_email |}. intros a e w. destruct (quietly_AlertRaised a e w) as (n & c & l & em & Hw & Hc).
  exists n, c, l, em. split; [|done]. rewrite <-Hw, <-(ok_AlertRaised a e w). by destruct (AlertRaised_email a e w).
Defined.

(** What telling a list of recipients leaves: each of them is mailed, or has
    the alert in their digest, or is a line in the log, once; the queue and the
    digests are the old ones and these. *)
Definition digest_of (w : World) := em_digest (w_email w).
Definition mail_for (m : string * string) (r : EmailRecipient) (e : Email) : Prop :=
  rec_Delivery r = EmailDeliveryImmediate /\ ParseAddress (rec_Email r) = Ok (ToAddress e) /\ EUserID e = Some (rec_UserID r) /\
  EKind e = EmailKindAlert /\ ESubject e = m.1 /\ EBody e = m.2 /\ EStatus e = EmailPending.
Definition digest_key (a : Alert) (r : EmailRecipient) : string * string := (rec_UserID r, AlertID a).
Definition row_for (a : Alert) (old : option DigestRow) (r : EmailRecipient) (d : DigestRow) : Prop :=
  is_digest (rec_Delivery r) = true /\ DigTitle d = ATitle a /\
  match old with
  | Some d0 => DigSeverity d = greatest (DigSeverity d0) (ASeverity a) /\ DigQueuedAt d = DigQueuedAt d0
  | None => DigSeverity d = ASeverity a
  end.
Definition mail_row (x : EmailRecipient * Email) : string * Email := (EmailID x.2, x.2).
Definition digest_row (a : Alert) (x : EmailRecipient * DigestRow) : (string * string) * DigestRow := (digest_key a x.1, x.2).
Record told_as (a : Alert) (m : string * string) (rs : list EmailRecipient) (w w' : World)
    (mails : list (EmailRecipient * Email)) (rows : list (EmailRecipient * DigestRow)) (missed : list (EmailRecipient * string)) : Prop := {
  told_everyone : map fst mails ++ map fst rows ++ map fst missed ≡ₚ rs;
  told_mails : Forall (fun x => mail_for m x.1 x.2 /\ queue_of w !! EmailID x.2 = None) mails;
  told_ids : NoDup (map (fun x => EmailID x.2) mails);
  told_queue : queue_of w' = list_to_map (map mail_row mails) ∪ queue_of w;
  told_rows : Forall (fun x => row_for a (digest_of w !! digest_key a x.1) x.1 x.2) rows;
  told_digest : digest_of w' = list_to_map (map (digest_row a) rows) ∪ digest_of w;
  told_log : w_logs w' = w_logs w ++ map snd missed
}.
Definition told (a : Alert) (m : string * string) (rs : list EmailRecipient) (w w' : World) : Prop :=
  exists mails rows missed, told_as a m rs w w' mails rows missed.
Definition same_mail (w w' : World) : Prop := queue_of w' = queue_of w /\ digest_of w' = digest_of w /\ w_logs w' = w_logs w.
Lemma told_nobody a m w w' : same_mail w w' -> told a m [] w w'.
Proof.
  intros (Hq & Hd & Hl). exists [], [], []. split; cbn; rewrite ?app_nil_r, ?(left_id_L ∅ (∪)); done || constructor.
Qed.
Lemma told_from a m rs w w1 w' : same_mail w w1 -> told a m rs w1 w' -> told a m rs w w'.
Proof.
  intros (Hq & Hd & Hl) (ms & ds & fs & [T1 T2 T3 T4 T5 T6 T7]). rewrite Hq in *. rewrite Hd in *. rewrite Hl in *.
  exists ms, ds, fs. by split.
Qed.
(** What telling one does: a mail, a row or a line. *)
Lemma told_mail a m r rs w w1 w' e : mail_for m r e -> queue_of w !! EmailID e = None -> queue_of w1 = <[EmailID e := e]> (queue_of w) ->
  digest_of w1 = digest_of w -> w_logs w1 = w_logs w -> told a m rs w1 w' -> told a m (r :: rs) w w'.
Proof.
  intros Hm Hf Hq Hd Hl (ms & ds & fs & [T1 T2 T3 T4 T5 T6 T7]). rewrite Hd in *. rewrite Hl in *. rewrite Hq in T4.
  rewrite Forall_forall in T2.
  assert (Hfresh : forall x, x ∈ ms -> queue_of w !! EmailID x.2 = None /\ EmailID e <> EmailID x.2).
  { intros x Hx. destruct (T2 x Hx) as [_ Hn]. rewrite Hq in Hn. by apply lookup_insert_None in Hn. }
  exists ((r, e) :: ms), ds, fs. split; cbn [map app fst snd]; try done.
  - by rewrite T1.
  - apply Forall_cons. split; [done|]. apply Forall_forall. intros x Hx. split; [by apply T2|by apply Hfresh].
  - constructor; [|done]. intros (x & Hx & Hin)%list_elem_of_fmap. by apply (Hfresh x Hin).
  - unfold mail_row at 1. cbn [map fst snd list_to_map foldr]. rewrite T4. symmetry. rewrite <-insert_union_l. apply insert_union_r.
    apply not_elem_of_list_to_map. rewrite map_map. intros (x & Hx & Hin)%list_elem_of_fmap. by apply (Hfresh x Hin).
Qed.
Lemma told_row a m r rs w w1 w' d : row_for a (digest_of w !! digest_key a r) r d -> ~ rec_UserID r ∈ map rec_UserID rs ->
  digest_of w1 = <[digest_key a r := d]> (digest_of w) -> queue_of w1 = queue_of w -> w_logs w1 = w_logs w ->
  told a m rs w1 w' -> told a m (r :: rs) w w'.
Proof.
  intros Hr Hnew Hd Hq Hl (ms & ds & fs & [T1 T2 T3 T4 T5 T6 T7]). rewrite Hq in *. rewrite Hl in *. rewrite Hd in T5, T6.
  assert (Hkey : forall x, x ∈ ds -> digest_key a r <> digest_key a x.1).
  { intros x Hx [= E]. apply Hnew. rewrite E. apply list_elem_of_fmap. exists x.1. split; [done|]. rewrite <-T1.
    rewrite !elem_of_app. right. left. apply list_elem_of_fmap. by exists x. }
  exists ms, ((r, d) :: ds), fs. split; cbn [map app fst snd]; try done.
  - by rewrite <-T1, <-Permutation_middle.
  - apply Forall_cons. split; [done|]. rewrite Forall_forall in *. intros x Hx. specialize (T5 x Hx).
    rewrite lookup_insert_ne in T5 by (by apply Hkey). exact T5.
  - unfold digest_row at 1. cbn [map fst snd list_to_map foldr]. rewrite T6. symmetry. rewrite <-insert_union_l. apply insert_union_r.
    apply not_elem_of_list_to_map. rewrite map_map. intros (x & Hx & Hin)%list_elem_of_fmap. by apply (Hkey x Hin).
Qed.
Lemma told_miss a m r rs w w1 w' fmt : queue_of w1 = queue_of w -> digest_of w1 = digest_of w -> w_logs w1 = w_logs w ++ [fmt] ->
  told a m rs w1 w' -> told a m (r :: rs) w w'.
Proof.
  intros Hq Hd Hl (ms & ds & fs & [T1 T2 T3 T4 T5 T6 T7]). rewrite Hq in *. rewrite Hd in *. rewrite Hl in *.
  exists ms, ds, ((r, fmt) :: fs). split; cbn [map app fst snd]; try done.
  - rewrite <-T1. symmetry. by rewrite !Permutation_middle.
  - by rewrite T7, <-app_assoc.
Qed.
Lemma wp_AddDigestItem u id s t w (Q : result unit -> World -> Prop) :
  (forall e, Q (Err e) (bump w)) ->
  (forall d, DigTitle d = t ->
     match digest_of w !! (u, id) with
     | Some d0 => DigSeverity d = greatest (DigSeverity d0) s /\ DigQueuedAt d = DigQueuedAt d0
     | None => DigSeverity d = s
     end -> Q (Ok tt) (upd_digest (<[(u, id) := d]>) (bump w))) ->
  wp (AddDigestItem u id s t) w Q.
Proof.
  intros He Hok. unfold AddDigestItem. apply wp_wrap, wp_sql; [intros e _; apply He|intros _].
  case_test Et; [apply He|]. case_test Er; [apply He|]. cbv zeta. change (em_digest (w_email (bump w))) with (digest_of w).
  apply Hok; by destruct (digest_of w !! (u, id)).
Qed.
(** Telling one, and then the others. *)
Lemma wp_note_one a m r rs w : is_digest (rec_Delivery r) = true -> ~ rec_UserID r ∈ map rec_UserID rs ->
  wp (log_on_error "email: add alert %s to the digest of user %s: %v" (AddDigestItem (rec_UserID r) (AlertID a) (ASeverity a) (ATitle a))) w
    (fun _ w1 => forall w', told a m rs w1 w' -> told a m (r :: rs) w w').
Proof.
  intros Hdig Hnew. apply wp_log_on_error, wp_AddDigestItem; [intros e w'; by eapply (told_miss a m r rs w)|].
  intros d Ht Hd w'. by apply (told_row a m r rs w _ w' d).
Qed.
Lemma wp_notify_one a m r rs w : rec_Delivery r <> EmailDeliveryOff -> ~ rec_UserID r ∈ map rec_UserID rs ->
  wp (notify_one a m.1 m.2 r) w (fun _ w1 => forall w', told a m rs w1 w' -> told a m (r :: rs) w w').
Proof.
  intros Hoff Hnew. unfold notify_one. destruct (rec_Delivery r) eqn:Ed; [done| |apply wp_note_one; by rewrite ?Ed..].
  apply wp_log_on_error, wp_queueChecked; [intros e w'; by eapply (told_miss a m r rs w)|intros e w'; by eapply (told_miss a m r rs w)|].
  intros e addr [Haddr He] Hfree _ _ w'. cbn in Haddr. apply (told_mail a m r rs w _ w' e); try done. unfold mail_for. rewrite He. by split_and!.
Qed.
Lemma wp_notify_all a m rs w : Forall (fun r => rec_Delivery r <> EmailDeliveryOff) rs -> NoDup (map rec_UserID rs) ->
  wp (forM_ rs (notify_one a m.1 m.2)) w (fun _ w' => told a m rs w w').
Proof.
  revert w. induction rs as [|r rs IH]; intros w; cbn [forM_ map]; [intros _ _; by apply wp_ret, told_nobody|].
  intros [Hoff Hoffs]%Forall_cons [Hnew Hnd]%NoDup_cons.
  apply wp_bind. pose proof (ok_notify a m.1 m.2 r w) as Hok. pose proof (wp_notify_one a m r rs w Hoff Hnew) as Ht. unfold wp in *.
  destruct (notify_one a m.1 m.2 r w) as [[]  w1]; simpl in *; [|done]. apply Ht. by apply IH.
Qed.
Lemma wp_location w (Q : result Location -> World -> Prop) :
  (forall loc n c, w_clock w <= c -> Q (Ok loc) (set_w_clock c (set_w_calls n w))) -> wp location w Q.
Proof.
  intros HQ. unfold location. destruct zone_source as [z|] eqn:Ez.
  - destruct (zone_quiet z w Ez) as (n & c & Hc & Hw). unfold wp, attempt, mbind, ST_bind. destruct (z w) as [[loc|e] w1]; simpl in *; subst w1; by apply HQ.
  - apply wp_ret. specialize (HQ UTC (w_calls w) (w_clock w) ltac:(lia)). by destruct w.
Qed.

Lemma recipients_want w id s : Forall (fun r => rec_Delivery r <> EmailDeliveryOff) (recipients id s w).
Proof.
  apply Forall_forall. intros r (u & _ & Hr)%list_elem_of_omap. apply recipient_some in Hr as (_ & _ & -> & (_ & Hoff & _) & _). done.
Qed.

(** C25: an alert that was raised or became more severe, told by e-mail: while
    e-mail is off nobody gets anything.  Otherwise each of the alert's
    recipients is told, or is accounted for by a line in the log, exactly
    once: those who want it at once have one new mail to their address with
    the alert's message, those with a digest the alert's row in it, at the
    higher of its severity and that of the row they had, and the log has one
    line for each of the others.  Nothing else is added to the queue, the digests or
    the log, and nothing is taken away.  When the settings or the recipients
    cannot be read there is one line and nobody is told.  It always ends well:
    raising an alert never fails because of e-mail. *)
Theorem AlertRaised_told a escalated w : (forall k row, w_users w !! k = Some row -> UserID row = k) ->
  wp (AlertRaised_email a escalated) w (fun r w' => r = Ok tt /\
    if EmEnabled (em_settings (w_email w)) then
      (queue_of w' = queue_of w /\ digest_of w' = digest_of w /\ exists fmt, w_logs w' = w_logs w ++ [fmt]) \/
      exists loc, told a (alertMessage a escalated loc (PublicURL server_env)) (recipients (AlertID a) (ASeverity a) w) w w'
    else queue_of w' = queue_of w /\ digest_of w' = digest_of w /\ exists l, w_logs w' = w_logs w ++ l).
Proof.
  intros Hkeys. apply wp_and; [apply (ok_AlertRaised a escalated w)|]. unfold AlertRaised_email.
  assert (Hfail : forall fmt w1, same_mail w w1 -> wp (logf fmt) w1 (fun _ w' =>
    if EmEnabled (em_settings (w_email w)) then
      (queue_of w' = queue_of w /\ digest_of w' = digest_of w /\ exists fmt, w_logs w' = w_logs w ++ [fmt]) \/
      exists loc, told a (alertMessage a escalated loc (PublicURL server_env)) (recipients (AlertID a) (ASeverity a) w) w w'
    else queue_of w' = queue_of w /\ digest_of w' = digest_of w /\ exists l, w_logs w' = w_logs w ++ l)).
  { intros fmt w1 (Hq & Hd & Hl). apply wp_logf. cbn. rewrite Hl. destruct (EmEnabled _); [left|]; split_and!; eauto. }
  apply wp_bind, wp_attempt, wp_get_settings; [intros e; by apply Hfail|].
  destruct (EmEnabled (em_settings (w_email w))) eqn:Een; cbn [negb].
  2: { apply wp_ret. split_and!; [done|done|]. exists []. by rewrite app_nil_r. }
  apply wp_bind, wp_attempt. unfold RecipientsForAlert. apply wp_wrap, wp_query; [intros e _; by apply Hfail|intros _].
  change (recipients (AlertID a) (ASeverity a) (bump (bump w))) with (recipients (AlertID a) (ASeverity a) w).
  pose proof (recipients_want w (AlertID a) (ASeverity a)) as Hwant. pose proof (recipients_once w (AlertID a) (ASeverity a) Hkeys) as Honce.
  destruct (recipients (AlertID a) (ASeverity a) w) as [|r0 rs0] eqn:Ers.
  { apply wp_ret. right. exists UTC. by apply told_nobody. }
  apply wp_bind, wp_location. intros loc n c Hc. set (w3 := set_w_clock c _). cbv zeta.
  set (m := alertMessage _ _ _ _). eapply wp_mono; [by apply (wp_notify_all a m)|]. intros ? w4 Ht. right. exists loc.
  by apply (told_from a m _ w w3 w4).
Qed.
End Telling.

(** ** Ann, in the laboratory *)
Definition asked : World := snd (@RequestMyAddress quiet_env counting_bytes (lab_deps good_relay) "ann" "ann@example.com" lab).
(** The token of the link in the mail she gets. *)
Definition ann_token : string := "HB0eHyAhIiMkJSYnKCkqKywtLi8wMTIzNDU2Nzg5Ojs".
Lemma ann_keyed w : w_users w = {[ "ann" := ann ]} -> forall k row, w_users w !! k = Some row -> UserID row = k.
Proof. by intros -> k row [<- <-]%lookup_singleton_Some. Qed.
Lemma asked_wf : @email_wf (lab_deps good_relay) asked.
Proof. apply (@keeps_RequestMyAddress quiet_env counting_bytes (lab_deps good_relay) "ann" "ann@example.com" lab (lab_wf good_relay)). Qed.
Lemma ConfirmAddress_spec_witness :
  let r := @ConfirmAddress quiet_env "ann" ann_token asked in
  fst r = Ok "ann@example.com" /\ @ConfirmAddress quiet_env "bob" ann_token asked = (Err ErrConfirmationNotFound, @bump quiet_env asked) /\
  address_changed "ann" (Some "ann@example.com") EmailSourceSelf asked (snd r).
Proof.
  cbv zeta. split; [vm_compute; reflexivity|]. split; [vm_compute; reflexivity|].
  pose proof (@ConfirmAddress_spec quiet_env (lab_deps good_relay) "ann" ann_token asked asked_wf (ann_keyed asked eq_refl)) as Hspec.
  unfold wp in Hspec.
  assert (fst (@ConfirmAddress quiet_env "ann" ann_token asked) = Ok "ann@example.com") as Hok by (vm_compute; reflexivity).
  rewrite Hok in Hspec. destruct Hspec as (c & row & Hc & _ & _ & Ha & _ & _ & _ & Hch & _).
  assert (em_confirmations (w_email asked) !! "ann" = Some c -> ConfSource c = EmailSourceSelf) as Hs by (intros E; vm_compute in E; by injection E as <-).
  rewrite (Hs Hc) in Hch. exact Hch.
Defined.

(** An alert for developers while ann, one of them, wants mail at once. *)
Definition alerted : World :=
  put_columns "ann" (MkEmailColumns (Some "ann@example.com") (Some EmailSourceSelf) EmailDeliveryImmediate AlertSeverityInfo)
    (upd_email (set_em_settings relay_settings) (set_w_users {[ "ann" := ann ]} inbox)).
(** The alert of the inbox, told: one mail, to ann, and no line in the log. *)
Definition told_run (a : Alert) : World := snd (@AlertRaised_email quiet_env (lab_deps good_relay) a false alerted).
Definition inbox_alerts : list Alert := map snd (map_to_list (w_alerts alerted)).
Lemma AlertRaised_told_witness : exists a loc, inbox_alerts = [a] /\ size (queue_of (told_run a)) = 1%nat /\
  told a (@alertMessage (lab_deps good_relay) a false loc (PublicURL (@server_env (lab_deps good_relay)))) (recipients (AlertID a) (ASeverity a) alerted) alerted (told_run a).
Proof.
  assert (Hi : exists a, inbox_alerts = [a]) by (vm_compute; eexists; reflexivity). destruct Hi as [a Ha]. exists a.
  pose proof (@AlertRaised_told quiet_env (lab_deps good_relay) a false alerted (ann_keyed alerted eq_refl)) as [_ Ht].
  fold (told_run a) in Ht. change (EmEnabled (em_settings (w_email alerted))) with true in Ht. cbv iota in Ht.
  assert (Hl : w_logs (told_run a) = w_logs alerted /\ size (queue_of (told_run a)) = 1%nat).
  { vm_compute in Ha. injection Ha as <-. split; vm_compute; reflexivity. }
  destruct Ht as [(_ & _ & fmt & Hf)|[loc Ht]]; [|exists loc; split; [exact Ha|split; [apply Hl|exact Ht]]].
  rewrite (proj1 Hl) in Hf. apply (f_equal (@length _)) in Hf. rewrite length_app in Hf. cbn [length] in Hf. lia.
Defined.
Lemma recipients_are_viewers_witness :
  recipients inbox_id AlertSeverityWarning alerted = [MkRecipient "ann" "ann@example.com" EmailDeliveryImmediate] /\
  NoDup (map rec_UserID (recipients inbox_id AlertSeverityWarning alerted)).
Proof.
  split; [vm_compute; reflexivity|].
  assert (is_Some (w_alerts alerted !! inbox_id)) as Hin by (vm_compute; by eexists).
  destruct (w_alerts alerted !! inbox_id) as [a|] eqn:Ha; [|by destruct Hin].
  apply (recipients_are_viewers alerted inbox_id AlertSeverityWarning a (ann_keyed alerted eq_refl) Ha).
Defined.
(** Dismissing an alert hides it from the inbox, not from the mail. *)
Definition dismissed : World := set_w_ustate {[ (inbox_id, "ann") := MkUserState None (Some 1) ]} alerted.
Example dismissed_is_mailed :
  bool_decide (is_Some (visibleAlerts (MkViewer "ann" (UTier ann)) dismissed !! inbox_id)) = false /\
  map rec_UserID (recipients inbox_id AlertSeverityWarning dismissed) = ["ann"].
Proof. vm_compute. by split. Qed.
