(* ===== verification/EmailWork.v ===== *)
(** * What the digests and the delivery worker of e-mail do

    A digest takes nothing off the list that it did not send or find there was
    nothing to send for; a delivery pass sends each claimed mail at most once,
    records what became of it and leaves finished mail alone. *)
From stdpp Require Import base list strings gmap sorting.
From Stdlib Require Import ZArith Lia.
From Stdlib Require Import Ascii.
From Stdlib Require String.
From S2P Require Import Prelude Text Runes Json Db NodeToken GoTime Schedule Rbac ScheduleRun InstanceStore AlertStore AlertRaiser Alerts TransferStore EngineStore EmailStore Mailer Email EmailSpec EmailEffects.
Local Open Scope string_scope.
Local Open Scope list_scope.
Local Open Scope Z_scope.

Definition logged (w w' : World) : Prop := exists fmt l, w_logs w' = w_logs w ++ fmt :: l.
Lemma logged_one w w' fmt : w_logs w' = w_logs w ++ [fmt] -> logged w w'.
Proof. intros E. by exists fmt, []. Qed.

(** ** Digests *)
Section Digests.
Context `{Env} `{RandomSource} `{EmailDeps}.

(** What a user's digest has to send now, and where. *)
Definition digest_due (u : string) (mode : EmailDelivery) (w : World) : option (string * list DigestItem) :=
  row ← w_users w !! u;
  let v := user_email w row in
  addr ← ue_Email v;
  let entries := List.filter (listed_entry v) (waiting_items u w) in
  if bool_decide (ue_Delivery v = mode) && negb (bool_decide (entries = [])) then Some (addr, entries) else None.
Definition without (u : string) (ids : list string) (m : gmap (string * string) DigestRow) : gmap (string * string) DigestRow :=
  filter (fun kd : (string * string) * DigestRow => ¬ (kd.1.1 = u /\ kd.1.2 ∈ ids)) m.
Lemma without_nobody u m : without u [] m = m.
Proof. apply map_filter_id. intros k d _ [_ Hin]. by apply elem_of_nil in Hin. Qed.
Definition digest_mail (u addr : string) (m : string * string) (e : Email) : Prop :=
  ParseAddress addr = Ok (ToAddress e) /\ EUserID e = Some u /\ EKind e = EmailKindDigest /\ ESubject e = m.1 /\ EBody e = m.2 /\ EStatus e = EmailPending.
(** One new mail. *)
Definition queues (P : Email -> Prop) (w w' : World) : Prop :=
  exists e, P e /\ queue_of w !! EmailID e = None /\ queue_of w' = <[EmailID e := e]> (queue_of w).
(** The waiting items are off the list, or a line of the log says that they are
    not. *)
Definition cleared (u : string) (w w' : World) : Prop :=
  digest_of w' = without u (map it_AlertID (waiting_items u w)) (digest_of w) \/ digest_of w' = digest_of w /\ logged w w'.

Lemma wp_clear_digest fmt u w0 w (Q : result unit -> World -> Prop) :
  digest_of w = digest_of w0 -> w_logs w = w_logs w0 ->
  (forall w', queue_of w' = queue_of w -> cleared u w0 w' -> Q (Ok tt) w') ->
  wp (log_on_error fmt (DeleteDigestItems u (map it_AlertID (waiting_items u w0)))) w Q.
Proof.
  intros Hd Hl HQ. apply wp_log_on_error. unfold DeleteDigestItems. case_bool_decide as Eb.
  - apply wp_ret. cbn. apply HQ; [done|]. left. by rewrite Eb, without_nobody.
  - apply wp_wrap, wp_exec; [intros e _|intros _]; apply HQ; try done.
    + right. split; [done|]. apply (logged_one _ _ fmt). cbn. by rewrite Hl.
    + left. unfold digest_of in *. cbn. by rewrite Hd.
Qed.

(** A user's digest: an item leaves the list only when the one mail that
    lists it is queued for the user's address, or when there is nothing to send
    (no address, another delivery by now, or every item dealt with or below the
    severity wanted); when anything fails the list is as it was, and the log
    says so. Without a line in the log the mail, if due, is queued and the
    list is cleared. *)
Theorem digestFor_spec u mode loc w :
  wp (digestFor u mode loc) w (fun r w' => r = Ok tt /\
    (queue_of w' = queue_of w /\ digest_of w' = digest_of w /\ logged w w' \/
     cleared u w w' /\
     match digest_due u mode w with
     | None => queue_of w' = queue_of w
     | Some (addr, entries) => queues (digest_mail u addr (digestMessage entries (digest_how mode) loc (PublicURL server_env))) w w'
     end)).
Proof.
  unfold digestFor. apply wp_bind, wp_attempt, wp_Get_user_email.
  { intros e. apply wp_logf. split; [done|left]. by repeat split; eapply logged_one. }
  intros row Hrow. apply wp_bind, wp_attempt. unfold PendingDigest. apply wp_wrap, wp_query; intros.
  { apply wp_logf. split; [done|left]. by repeat split; eapply logged_one. }
  change (waiting_items u (bump (bump w))) with (waiting_items u w). unfold digest_due. rewrite Hrow. cbn [mbind option_bind]. cbv zeta.
  destruct (ue_Email (user_email w row)) as [addr|].
  2: { apply wp_clear_digest; [done..|]. intros w' Hq Hc. split; [done|]. by right. }
  cbn [mbind option_bind]. set (entries := List.filter _ _).
  destruct (bool_decide (ue_Delivery (user_email w row) = mode)), (bool_decide (entries = [])); cbn [negb orb andb];
    try (apply wp_clear_digest; [done..|]; intros w' Hq Hc; split; [done|]; by right).
  apply wp_bind, wp_attempt, wp_queueChecked; [intros e; apply wp_logf; split; [done|left]; by repeat split; eapply logged_one..|].
  intros e addr' [Ha He] Hnew _ _. apply wp_clear_digest; [done..|]. intros w' Hq Hc. split; [done|]. right. split; [done|].
  exists e. split; [|by rewrite Hq]. cbn in Ha. by rewrite He.
Qed.
End Digests.

(** ** The worker *)
Definition mail_of (e : Email) : MailMessage := MkMail (ToAddress e) (ESubject e) (EBody e).
(** The same mail, whatever became of it. *)
Definition same_mail (e e' : Email) : Prop :=
  EmailID e' = EmailID e /\ EKind e' = EKind e /\ mail_of e' = mail_of e /\ EUserID e' = EUserID e /\ ECreatedAt e' = ECreatedAt e.
#[export] Instance same_mail_preorder : PreOrder same_mail.
Proof.
  split; [by intros e|]. intros e1 e2 e3 (?&?&?&?&?) (?&?&?&?&?). repeat split; congruence.
Qed.
Lemma same_mail_sent t e : same_mail e (sent_email t e).
Proof. done. Qed.
Lemma same_mail_failed r e : same_mail e (failed_email r e).
Proof. unfold failed_email. by destruct (is_pending e). Qed.
Lemma same_mail_retried t r e : same_mail e (retried_email t r e).
Proof. unfold retried_email. by destruct (is_pending e). Qed.
Lemma same_mail_claimed t e : same_mail e (claimed_email t e).
Proof. done. Qed.

(** What a step of the worker does to a row: the same mail; a finished row stays
    as it is; it becomes sent only when it was just handed over. *)
Definition row_step (handed : Prop) (e e' : Email) : Prop :=
  same_mail e e' /\ (is_pending e = false -> e' = e) /\ (is_pending e = true -> EStatus e' = EmailSent -> handed).
Lemma row_step_refl P e : row_step P e e.
Proof. split; [done|]. split; [done|]. unfold is_pending. intros Hp%bool_decide_eq_true. congruence. Qed.
Lemma row_step_trans P Q e1 e2 e3 : row_step P e1 e2 -> row_step Q e2 e3 -> row_step (P \/ Q) e1 e3.
Proof.
  intros (S1 & F1 & N1) (S2 & F2 & N2). split; [by etransitivity|]. split.
  - intros Hf. rewrite (F1 Hf) in *. by apply F2.
  - intros Hp Hs. destruct (is_pending e2) eqn:E2; [right; by apply N2|]. left. rewrite (F2 eq_refl) in Hs. by apply N1.
Qed.
Definition rows_step (handed : string -> Prop) (q q' : gmap string Email) : Prop :=
  forall id, match q !! id, q' !! id with Some e, Some e' => row_step (handed id) e e' | None, None => True | _, _ => False end.
Lemma rows_step_refl P q : rows_step P q q.
Proof. intros id. destruct (q !! id); [apply row_step_refl|done]. Qed.
Lemma row_step_weaken (P Q : Prop) e e' : (P -> Q) -> row_step P e e' -> row_step Q e e'.
Proof. intros HPQ (Hs & Hf & Hn). split; [done|]. split; [done|]. auto. Qed.
Lemma rows_step_trans P Q R q1 q2 q3 : (forall id, P id \/ Q id -> R id) -> rows_step P q1 q2 -> rows_step Q q2 q3 -> rows_step R q1 q3.
Proof.
  intros HR S1 S2 id. specialize (S1 id). specialize (S2 id).
  destruct (q1 !! id), (q2 !! id), (q3 !! id); try done. eapply row_step_weaken; [apply HR|]. by eapply row_step_trans.
Qed.
Lemma rows_step_alter (P : string -> Prop) (g : Email -> Email) (id : string) q :
  (forall e, q !! id = Some e -> row_step (P id) e (g e)) -> rows_step P q (alter g id q).
Proof.
  intros Hg k. rewrite lookup_alter. case_decide as E; [subst|by apply rows_step_refl].
  specialize (Hg). destruct (q !! k) as [e|]; cbn; [by apply Hg|done].
Qed.
Lemma rows_step_fmap (P : string -> Prop) (g : Email -> Email) q : (forall id e, q !! id = Some e -> row_step (P id) e (g e)) -> rows_step P q (g <$> q).
Proof. intros Hg k. rewrite lookup_fmap. specialize (Hg k). destruct (q !! k); cbn; [by apply Hg|done]. Qed.
Lemma row_step_failed P r e : row_step P e (failed_email r e).
Proof.
  split; [apply same_mail_failed|]. unfold failed_email. destruct (is_pending e) eqn:Ep; [|done]. split; [done|]. by intros _ [=].
Qed.
Lemma row_step_retried P t r e : row_step P e (retried_email t r e).
Proof.
  split; [apply same_mail_retried|]. unfold retried_email. destruct (is_pending e) eqn:Ep; [|done]. split; [done|].
  unfold is_pending in Ep. apply bool_decide_eq_true in Ep. cbn. intros _ Hs. congruence.
Qed.
Lemma row_step_sent (P : Prop) t e : is_pending e = true -> P -> row_step P e (sent_email t e).
Proof. intros Hp HP. split; [apply same_mail_sent|]. rewrite Hp. by split. Qed.

Section Worker.
Context `{Env} `{RandomSource} `{EmailDeps}.
Definition relayed (w : World) : list MailMessage := em_relayed (w_email w).

(** Part of a pass, over a batch: what was handed to the relay, and the rows;
    those outside the batch are as they were. *)
Record pass (batch sent : list Email) (w w' : World) : Prop := {
  ps_relayed : relayed w' = relayed w ++ map mail_of sent;
  ps_sub : sent `sublist_of` batch;
  ps_rows : rows_step (fun id => id ∈ map EmailID sent) (queue_of w) (queue_of w');
  ps_others : forall id, id ∉ map EmailID batch -> queue_of w' !! id = queue_of w !! id;
  ps_next : forall t id e e', t <= w_clock w -> queue_of w !! id = Some e -> queue_of w' !! id = Some e' -> is_pending e' = true ->
    t + minute <= NextAttemptAt e -> t + minute <= NextAttemptAt e';
  ps_clock : w_clock w <= w_clock w'
}.
Lemma pass_nothing w w' : relayed w' = relayed w -> queue_of w' = queue_of w -> w_clock w <= w_clock w' -> pass [] [] w w'.
Proof. intros Hr Hq Hc. split; [by rewrite Hr, app_nil_r|done|rewrite Hq; apply rows_step_refl|by intros; rewrite Hq| |done]. rewrite Hq. intros; by simplify_eq. Qed.
Lemma pass_app b1 s1 b2 s2 w w1 w2 : pass b1 s1 w w1 -> pass b2 s2 w1 w2 -> pass (b1 ++ b2) (s1 ++ s2) w w2.
Proof.
  intros [] []. split.
  - by rewrite ps_relayed1, ps_relayed0, map_app, (assoc_L (++)).
  - by apply sublist_app.
  - eapply rows_step_trans; [|done..]. intros id. cbn. rewrite map_app. set_solver.
  - intros id. rewrite map_app, not_elem_of_app. intros [Hb1 Hb2]. by rewrite ps_others1, ps_others0.
  - intros t id e e2 Ht He He2 Hp Hn. pose proof (ps_rows1 id) as H1r. rewrite He2 in H1r.
    destruct (queue_of w1 !! id) as [e1|] eqn:E1; [|done]. apply (ps_next1 t id e1 e2); try done; [lia|].
    apply (ps_next0 t id e e1); try done. destruct (is_pending e1) eqn:Ep; [done|]. destruct H1r as (_ & Hf & _).
    rewrite (Hf Ep) in Hp. congruence.
  - lia.
Qed.
Lemma pass_idle batch w : pass batch [] w w.
Proof.
  split; [by rewrite app_nil_r|apply sublist_nil_l|apply rows_step_refl|done| |lia]. intros; by simplify_eq.
Qed.
Lemma pass_weaken e w w' : pass [] [] w w' -> pass [e] [] w w'.
Proof. intros []. split; [done|apply sublist_nil_l|done|intros; apply ps_others0; set_solver|done|done]. Qed.
Lemma pass_one e sent w w' : relayed w' = relayed w ++ map mail_of sent -> sent = [] \/ sent = [e] -> w_clock w <= w_clock w' ->
  (forall e0, queue_of w !! EmailID e = Some e0 -> is_pending e0 = true) ->
  (exists g, queue_of w' = alter g (EmailID e) (queue_of w) /\
     forall e0, is_pending e0 = true -> row_step (EmailID e ∈ map EmailID sent) e0 (g e0) /\
       forall t, t <= w_clock w -> t + minute <= NextAttemptAt e0 -> t + minute <= NextAttemptAt (g e0)) ->
  pass [e] sent w w'.
Proof.
  intros Hr Hs Hc Hp (g & Hq & Hg). split; [done| | | | |done].
  - destruct Hs as [-> | ->]; [apply sublist_nil_l|done].
  - rewrite Hq. apply rows_step_alter. intros e0 He0. by apply Hg, Hp.
  - intros id Hid. rewrite Hq, lookup_alter_ne; [done|]. intros E. apply Hid. cbn. rewrite <-E. set_solver.
  - intros t id e0 e1 Ht He0 He1 _ Hn. rewrite Hq, lookup_alter in He1. case_decide as E; [subst id|by simplify_eq].
    rewrite He0 in He1. injection He1 as <-. by apply Hg; [apply Hp| |].
Qed.
Lemma alter_id_map (id : string) (q : gmap string Email) : alter (fun e => e) id q = q.
Proof. apply alter_id. done. Qed.

Lemma backoff_in_range n : 1 <= n -> exists wait, backoff_at n = Some wait /\ minute <= wait.
Proof.
  intros Hn. unfold backoff_at. change (Z.of_nat (length backoff)) with 5. destruct (Z.min n 5 - 1 <? 0) eqn:E; [lia|].
  assert (Hi : Z.min n 5 - 1 = 0 \/ Z.min n 5 - 1 = 1 \/ Z.min n 5 - 1 = 2 \/ Z.min n 5 - 1 = 3 \/ Z.min n 5 - 1 = 4) by lia.
  destruct Hi as [-> |[-> |[-> |[-> | ->]]]]; (eexists; split; [reflexivity|vm_compute; by intros [=]]).
Qed.
(** Recording an outcome. *)
Lemma wp_record (m : M unit) g id w (Q : result unit -> World -> Prop) :
  (forall Q', (forall e, Q' (Err e) (bump w)) -> Q' (Ok tt) (upd_queue (alter g id) (bump w)) -> wp m w Q') ->
  (forall w', relayed w' = relayed w -> w_clock w <= w_clock w' -> queue_of w' = queue_of w \/ queue_of w' = alter g id (queue_of w) -> Q (Ok tt) w') ->
  wp (record m) w Q.
Proof.
  intros Hm HQ. unfold record. apply wp_log_on_error, Hm; [intros e|]; (apply HQ; [done|cbn; lia|by auto]).
Qed.
Lemma wp_MarkFailed id r w (Q : result unit -> World -> Prop) :
  (forall e, Q (Err e) (bump w)) -> Q (Ok tt) (upd_queue (alter (failed_email r) id) (bump w)) -> wp (MarkFailed id r) w Q.
Proof.
  intros He Hok. unfold MarkFailed. apply wp_wrap, wp_sql; [intros; apply He|intros _]. unfold reason_ok. case_test E; [exact Hok|apply He].
Qed.
Lemma wp_MarkRetry id t r w (Q : result unit -> World -> Prop) :
  (forall e, Q (Err e) (bump w)) -> Q (Ok tt) (upd_queue (alter (retried_email t r) id) (bump w)) -> wp (MarkRetry id t r) w Q.
Proof.
  intros He Hok. unfold MarkRetry. apply wp_wrap, wp_sql; [intros; apply He|intros _]. unfold reason_ok. case_test E; [exact Hok|apply He].
Qed.
Lemma wp_send cfg m w (Q : result unit -> World -> Prop) :
  (forall n c, w_clock w <= c -> Q (Ok tt) (upd_email (fun t => set_em_relayed (em_relayed t ++ [m]) t) (set_w_clock c (set_w_calls n w)))) ->
  (forall e n c, w_clock w <= c -> Q (Err e) (set_w_clock c (set_w_calls n w))) ->
  wp (send cfg m) w Q.
Proof.
  intros Hok He. destruct (send_quiet cfg m w) as (n & c & Hc & Hs). unfold wp. rewrite Hs. destruct (fst (send cfg m w)); simpl; auto.
Qed.

Lemma NextAttemptAt_failed r e : NextAttemptAt (failed_email r e) = NextAttemptAt e.
Proof. unfold failed_email. by destruct (is_pending e). Qed.
Lemma NextAttemptAt_retried t n r e : t + minute <= n -> t + minute <= NextAttemptAt e -> t + minute <= NextAttemptAt (retried_email n r e).
Proof. unfold retried_email. by destruct (is_pending e). Qed.

(** A failed attempt: the row is as it was or has the outcome [g]. *)
Lemma pass_unsent e g w w' :
  relayed w' = relayed w -> w_clock w <= w_clock w' ->
  (forall e0, queue_of w !! EmailID e = Some e0 -> is_pending e0 = true) ->
  (forall e0, is_pending e0 = true -> row_step (EmailID e ∈ []) e0 (g e0) /\
     forall t, t <= w_clock w -> t + minute <= NextAttemptAt e0 -> t + minute <= NextAttemptAt (g e0)) ->
  queue_of w' = queue_of w \/ queue_of w' = alter g (EmailID e) (queue_of w) -> pass [e] [] w w'.
Proof.
  intros Hr Hc Hp Hg [Hq|Hq].
  - by apply pass_weaken, pass_nothing.
  - apply pass_one; [by rewrite Hr, app_nil_r|by left|done|done|]. by exists g.
Qed.

(** One mail of the batch: it ends well, and the mail is handed over at most
    once. *)
Lemma wp_deliver mc e w : 1 <= Attempts e -> (forall e0, queue_of w !! EmailID e = Some e0 -> is_pending e0 = true) ->
  wp (deliver mc e) w (fun r w' => r = Ok tt /\ exists sent, pass [e] sent w w').
Proof.
  intros Ha Hp. unfold deliver. apply wp_bind, wp_attempt, wp_send.
  - intros n c Hc. set (w1 := upd_email _ _). apply wp_log_on_error. unfold MarkSent.
    assert (Hr : relayed w1 = relayed w ++ map mail_of [e]) by done.
    apply wp_wrap, wp_exec; [intros e1 _|intros _]; (split; [done|]; exists [e]; apply pass_one; [done|by right|cbn; lia|done|]).
    + exists (fun e0 => e0). rewrite alter_id_map. split; [done|]. intros e0 _. split; [apply row_step_refl|done].
    + eexists. split; [reflexivity|]. intros e0 He0. split; [apply row_step_sent; [done|set_solver]|done].
  - intros err n c Hc. set (w1 := set_w_clock c _). assert (Hp1 : forall e0, queue_of w1 !! EmailID e = Some e0 -> is_pending e0 = true) by exact Hp.
    assert (Hfail : forall r w2, relayed w2 = relayed w1 -> queue_of w2 = queue_of w1 -> w_clock w1 <= w_clock w2 ->
      wp (record (MarkFailed (EmailID e) r)) w2 (fun r w' => r = Ok tt /\ exists sent, pass [e] sent w w')).
    { intros r w2 Hr2 Hq2 Hc2. apply (wp_record _ (failed_email r) (EmailID e)); [intros; by apply wp_MarkFailed|].
      intros w3 Hr3 Hc3 Hq3. split; [done|]. exists []. apply (pass_unsent e (failed_email r)); [by rewrite Hr3|cbn in *; lia|done| |by rewrite Hq2 in Hq3].
      intros e0 _. split; [apply row_step_failed|]. by rewrite NextAttemptAt_failed. }
    case_test Eperm; [by apply wp_bind, wp_logf, Hfail|]. case_test Emax; [by apply wp_bind, wp_logf, Hfail|].
    destruct (backoff_in_range _ Ha) as (wait & -> & Hwait). apply wp_bind, wp_logf, wp_bind, wp_time_now. set (w2 := bump _).
    apply (wp_record _ (retried_email (w_clock w2 + wait) (clip (error_text err))) (EmailID e)); [intros; by apply wp_MarkRetry|].
    intros w3 Hr3 Hc3 Hq3. split; [done|]. exists []. eapply (pass_unsent e); [by rewrite Hr3|cbn in *; lia|done| |exact Hq3].
    intros e0 _. split; [apply row_step_retried|]. intros t Ht Hn. apply NextAttemptAt_retried; [cbn; lia|done].
Qed.

(** The whole batch. *)
Definition claimed_in (w : World) (batch : list Email) : Prop :=
  NoDup (map EmailID batch) /\ forall e, e ∈ batch -> 1 <= Attempts e /\ exists e0, queue_of w !! EmailID e = Some e0 /\ is_pending e0 = true.
Lemma wp_deliver_all mc batch w : claimed_in w batch ->
  wp (deliver_all mc batch) w (fun r w' => r = Ok tt /\ exists sent, pass batch sent w w').
Proof.
  revert w. induction batch as [|e batch IH]; intros w [Hnd Hin]; cbn [deliver_all].
  { apply wp_ret. split; [done|]. exists []. by apply pass_nothing. }
  apply wp_bind, wp_gets. destruct (ctx_Err (w_calls w)).
  { apply wp_ret. split; [done|]. exists []. apply pass_idle. }
  cbn in Hnd. apply NoDup_cons in Hnd as [Hne Hnd]. destruct (Hin e) as (Ha & e0 & He0 & Hp0); [set_solver|].
  apply wp_bind. eapply wp_mono; [apply wp_deliver; [done|intros e1 He1; by simplify_eq]|].
  intros r w1 [-> (s1 & P1)]. eapply wp_mono; [apply IH; split; [done|]|].
  - intros e1 He1. destruct (Hin e1) as (Ha1 & e2 & He2 & Hp2); [set_solver|]. split; [done|]. exists e2. split; [|done].
    rewrite (ps_others _ _ _ _ P1); [done|]. cbn. intros Heq%list_elem_of_singleton. apply Hne. rewrite <-Heq.
    apply list_elem_of_fmap. by exists e1.
  - intros r w2 [-> (s2 & P2)]. split; [done|]. exists (s1 ++ s2). by apply (pass_app [e] s1 batch s2 w w1 w2).
Qed.

(** With an invariant the program keeps. *)
Lemma wp_kept {A} (I : World -> Prop) (m : M A) w (Q : result A -> World -> Prop) :
  Keeps I m -> I w -> wp m w (fun r w' => I w' -> Q r w') -> wp m w Q.
Proof. unfold wp. intros Hm Hw HQ. apply HQ, Hm, Hw. Qed.
(** Claiming. *)
Lemma put_emails_lookup es w : NoDup (map EmailID es) ->
  (forall e, e ∈ es -> queue_of (put_emails es w) !! EmailID e = Some e) /\
  forall id, id ∉ map EmailID es -> queue_of (put_emails es w) !! id = queue_of w !! id.
Proof.
  induction es as [|e es IH]; cbn [map put_emails fold_right]; [intros _; split; [by intros e ?%elem_of_nil|done]|].
  intros [Hne Hnd]%NoDup_cons. destruct (IH Hnd) as [Hin Hout]. fold (put_emails es w).
  change (queue_of (put_email e (put_emails es w))) with (<[EmailID e := e]> (queue_of (put_emails es w))). split.
  - intros e1 [-> |He1]%elem_of_cons; [by rewrite lookup_insert_eq|]. rewrite lookup_insert_ne; [by apply Hin|].
    intros E. apply Hne. rewrite E. apply list_elem_of_fmap. by exists e1.
  - intros id [Hid1 Hid2]%not_elem_of_cons. rewrite lookup_insert_ne; [by apply Hout|congruence].
Qed.
Lemma clock_put_emails es w : w_clock (put_emails es w) = w_clock w.
Proof. by induction es. Qed.
Lemma relayed_put_emails es w : relayed (put_emails es w) = relayed w.
Proof. by induction es. Qed.
Lemma due_once limit w : email_wf w -> NoDup (map EmailID (due limit w)).
Proof.
  intros Hw. unfold due. rewrite <-(firstn_map EmailID). eapply sublist_NoDup; [|apply sublist_take].
  rewrite sort_by_perm. apply (sublist_NoDup _ (map EmailID (queue_rows w))).
  - unfold queue_rows. rewrite map_map. assert (map (fun x : string * Email => EmailID x.2) (map_to_list (queue_of w)) = (map_to_list (queue_of w)).*1) as ->.
    { apply List.map_ext_in. intros [k e] Hin%list_elem_of_In%elem_of_map_to_list. by apply (ew_queue _ Hw). }
    apply NoDup_fst_map_to_list.
  - generalize (queue_rows w). intros l. induction l as [|e l IH]; cbn; [done|]. destruct (is_due _ e); cbn; by constructor.
Qed.
Lemma wp_Claim limit lease w (Q : result (list Email) -> World -> Prop) : email_wf w ->
  (forall e, Q (Err e) (bump w)) ->
  (forall batch w', (length batch <= limit)%nat -> NoDup (map EmailID batch) -> relayed w' = relayed w -> w_clock w <= w_clock w' ->
     (forall e, e ∈ batch -> exists e0, queue_of w !! EmailID e = Some e0 /\ is_due (w_clock w') e0 = true /\
        e = claimed_email (w_clock w' + lease / second * second) e0 /\ queue_of w' !! EmailID e = Some e) ->
     (forall id, id ∉ map EmailID batch -> queue_of w' !! id = queue_of w !! id) ->
     Q (Ok batch) w') ->
  wp (Claim limit lease) w Q.
Proof.
  intros Hw He Hok. unfold Claim. apply wp_wrap, wp_sql; [intros; apply He|intros _]. cbv zeta. set (w1 := bump w). set (until := w_clock w1 + _).
  assert (Hw1 : email_wf w1) by by apply (email_wf_view w).
  assert (Hids : map EmailID (map (claimed_email until) (due limit w1)) = map EmailID (due limit w1)) by by rewrite map_map.
  assert (Hnd : NoDup (map EmailID (map (claimed_email until) (due limit w1)))) by by rewrite Hids; apply due_once.
  destruct (put_emails_lookup _ w1 Hnd) as [Hin Hout]. apply Hok; try done.
  - unfold due. rewrite length_map, length_take. lia.
  - by rewrite relayed_put_emails.
  - rewrite clock_put_emails. cbn. lia.
  - intros e He1. pose proof (Hin _ He1) as Hrow. apply list_elem_of_fmap in He1 as (e0 & -> & Hdue).
    apply (elem_of_due _ _ _ Hw1) in Hdue as [Hq Hd]. exists e0. rewrite clock_put_emails. done.
Qed.

Definition old (cutoff : Time) (e : Email) : bool := is_pending e && (ECreatedAt e <? cutoff).
Lemma fail_old cutoff r (q : gmap string Email) :
  let q' := (fun e => if ECreatedAt e <? cutoff then failed_email r e else e) <$> q in
  rows_step (fun _ => False) q q' /\
  forall id e, q' !! id = Some e -> is_pending e = true -> q !! id = Some e /\ cutoff <= ECreatedAt e.
Proof.
  cbv zeta. split.
  - apply rows_step_fmap. intros id e _. destruct (_ <? _); [apply row_step_failed|apply row_step_refl].
  - intros id e (e0 & <- & Hq)%lookup_fmap_Some Hp. destruct (ECreatedAt e0 <? cutoff) eqn:Ec; [|by split; [|lia]].
    unfold failed_email in Hp. by destruct (is_pending e0) eqn:E0; [|congruence].
Qed.
Lemma rows_step_back P q q' id e' : rows_step P q q' -> q' !! id = Some e' -> is_pending e' = true ->
  exists e, q !! id = Some e /\ is_pending e = true /\ same_mail e e'.
Proof.
  intros Hs He' Hp. specialize (Hs id). rewrite He' in Hs. destruct (q !! id) as [e|]; [|done]. destruct Hs as (Hm & Hf & _).
  exists e. split; [done|]. split; [|done]. destruct (is_pending e) eqn:E; [done|]. rewrite (Hf eq_refl) in Hp. congruence.
Qed.


(** What a pass does, with the mails it took and those it sent. *)
Record once (w : World) (batch sent : list Email) (r : result unit) (w' : World) : Prop := {
  on_batch : (length batch <= batchSize)%nat /\ NoDup (map EmailID batch);
  on_taken : forall e, e ∈ batch -> exists e0, queue_of w !! EmailID e = Some e0 /\ is_pending e0 = true /\ NextAttemptAt e0 <= w_clock w' /\
    w_clock w - maxAge <= ECreatedAt e0 /\ same_mail e0 e /\ Attempts e = Attempts e0 + 1;
  on_sent : sent `sublist_of` batch /\ relayed w' = relayed w ++ map mail_of sent;
  on_rows : rows_step (fun id => id ∈ map EmailID sent) (queue_of w) (queue_of w');
  on_off : EmEnabled (em_settings (w_email w)) = false -> batch = [];
  on_error : forall e, r = Err e -> batch = [];
  on_young : r = Ok tt -> forall id e, queue_of w' !! id = Some e -> is_pending e = true ->
    w_clock w - maxAge <= ECreatedAt e /\ (id ∈ map EmailID batch -> w_clock w + minute <= NextAttemptAt e)
}.
Lemma once_nothing w r w' : relayed w' = relayed w -> rows_step (fun _ => False) (queue_of w) (queue_of w') ->
  (r = Ok tt -> forall id e, queue_of w' !! id = Some e -> is_pending e = true -> w_clock w - maxAge <= ECreatedAt e) ->
  once w [] [] r w'.
Proof.
  intros Hr Hs Hy. split; try done.
  - split; [cbn; lia|constructor].
  - by intros e ?%elem_of_nil.
  - by rewrite app_nil_r.
  - intros id. specialize (Hs id). destruct (queue_of w !! id), (queue_of w' !! id); try done. by eapply row_step_weaken; [|exact Hs].
  - intros Hok id e He Hp. split; [by eapply Hy|]. by intros ?%elem_of_nil.
Qed.
(** After the old mail was given up on and a batch was claimed. *)
Lemma once_batch w w1 w2 batch sent w3 :
  email_wf w1 -> w_clock w <= w_clock w1 -> relayed w1 = relayed w -> rows_step (fun _ => False) (queue_of w) (queue_of w1) ->
  (forall id e, queue_of w1 !! id = Some e -> is_pending e = true -> queue_of w !! id = Some e /\ w_clock w - maxAge <= ECreatedAt e) ->
  EmEnabled (em_settings (w_email w)) = true ->
  (length batch <= batchSize)%nat -> NoDup (map EmailID batch) -> relayed w2 = relayed w1 -> w_clock w1 <= w_clock w2 ->
  (forall e, e ∈ batch -> exists e0, queue_of w1 !! EmailID e = Some e0 /\ is_due (w_clock w2) e0 = true /\
     e = claimed_email (w_clock w2 + leaseDuration / second * second) e0 /\ queue_of w2 !! EmailID e = Some e) ->
  (forall id, id ∉ map EmailID batch -> queue_of w2 !! id = queue_of w1 !! id) ->
  pass batch sent w2 w3 -> once w batch sent (Ok tt) w3.
Proof.
  intros Hw1 Hc Hr1 Hs1 Hy1 Hon Hlen Hnd Hr2 Hc2 Hin Hout Hps.
  assert (Hs2 : rows_step (fun _ => False) (queue_of w1) (queue_of w2)).
  { intros id. destruct (decide (id ∈ map EmailID batch)) as [(e & -> & He)%list_elem_of_fmap|Hno].
    - destruct (Hin e He) as (e0 & Hq1 & Hd & Hce & Hq2). rewrite Hq1, Hq2. apply andb_true_iff in Hd as [Hp _].
      rewrite Hce. split; [done|]. rewrite Hp. split; [done|]. cbn. intros _ Hsent. unfold is_pending in Hp. propb. congruence.
    - rewrite (Hout _ Hno). exact (rows_step_refl (fun _ => False) (queue_of w1) id). }
  split; try done.
  - intros e He. destruct (Hin e He) as (e0 & Hq1 & [Hp Hn]%andb_true_iff & Hce & _). destruct (Hy1 _ _ Hq1 Hp) as [Hq Hcr].
    exists e0. pose proof (ps_clock _ _ _ _ Hps). rewrite Hce at 2 3. split; [done|]. split; [done|]. split; [lia|]. done.
  - split; [apply Hps|]. by rewrite (ps_relayed _ _ _ _ Hps), Hr2, Hr1.
  - assert (Hor : forall P : Prop, False \/ P -> P) by tauto.
    apply (rows_step_trans _ _ _ _ _ _ (fun id => Hor _) Hs1). exact (rows_step_trans _ _ _ _ _ _ (fun id => Hor _) Hs2 (ps_rows _ _ _ _ Hps)).
  - congruence.
  - intros _ id e He Hp. destruct (rows_step_back _ _ _ _ _ (ps_rows _ _ _ _ Hps) He Hp) as (e2 & He2 & Hp2 & Hm2).
    destruct (rows_step_back _ _ _ _ _ Hs2 He2 Hp2) as (e1 & He1 & Hp1 & Hm1). destruct (Hy1 _ _ He1 Hp1) as [_ Hcr].
    destruct Hm1 as (_ & _ & _ & _ & Hcr1), Hm2 as (_ & _ & _ & _ & Hcr2). split; [congruence|].
    intros (eb & -> & Hb)%list_elem_of_fmap. apply (ps_next _ _ _ _ Hps (w_clock w) (EmailID eb) e2 e); try done; [lia|].
    destruct (Hin eb Hb) as (e0 & _ & _ & Hce & Hq2). assert (e2 = eb) as -> by congruence. rewrite Hce. cbn [NextAttemptAt claimed_email with_attempt].
    unfold leaseDuration, minute, second in *. change (5 * (60 * 1000000000) / 1000000000 * 1000000000) with 300000000000. lia.
Qed.

(** C24: one delivery pass. At most five mails are taken, each due, pending and
    at most a day old, none twice; what goes to the relay are mails of the
    batch, in its order, each once; a row keeps its mail, a finished row stays
    as it is, and a row becomes sent only when its mail was just handed over.
    Nothing is sent while e-mail is off. When the pass ends well no pending mail
    is older than a day, and what was taken and not finished waits at least a
    minute. An error ends the pass only before anything is taken: the back-off
    table is never read outside its range. *)
Theorem ProcessOnce_spec w : email_wf w -> wp ProcessOnce w (fun r w' => exists batch sent, once w batch sent r w').
Proof.
  intros Hw. unfold ProcessOnce. apply wp_bind, wp_get_settings.
  { intros e. exists [], []. apply once_nothing; [done|apply rows_step_refl|done]. }
  apply wp_bind, wp_time_now. set (w0 := bump (bump w)). assert (Hw0 : email_wf w0) by by apply (email_wf_view w).
  apply wp_bind. apply (wp_kept email_wf); [apply keeps_wrap, keeps_FailOlderThan|exact Hw0|].
  unfold FailOlderThan. apply wp_wrap, wp_wrap, wp_sql; [intros e _ _; exists [], []; apply once_nothing; [done|apply rows_step_refl|done]|].
  intros _ Hw1. set (cutoff := w_clock w0 - maxAge). set (reason := "not delivered within 24 hours").
  destruct (fail_old cutoff reason (queue_of w)) as [Hs Hy]. set (w1 := upd_queue _ _) in *.
  assert (Hcut : w_clock w - maxAge <= cutoff) by (unfold cutoff; cbn; lia).
  assert (Hrest : forall w2, wf_view w2 = wf_view w1 -> relayed w2 = relayed w -> w_clock w1 <= w_clock w2 ->
    wp (if negb (EmEnabled (em_settings (w_email w))) then mret tt
        else batch ← Claim batchSize leaseDuration; deliver_all (mailerConfig (em_settings (w_email w))) batch) w2
      (fun r w' => exists batch sent, once w batch sent r w')).
  { intros w2 Hv Hr2 Hc2. assert (Hw2 : email_wf w2) by by apply (email_wf_view w1). assert (Hq2 : queue_of w2 = queue_of w1) by exact (f_equal (fun v => v.1.1.1.1) Hv).
    assert (Hs2 : rows_step (fun _ => False) (queue_of w) (queue_of w2)) by by rewrite Hq2.
    assert (Hy2 : forall id e, queue_of w2 !! id = Some e -> is_pending e = true -> queue_of w !! id = Some e /\ w_clock w - maxAge <= ECreatedAt e).
    { intros id e. rewrite Hq2. intros He Hp. destruct (Hy id e He Hp). split; [done|lia]. }
    assert (Hnothing : forall r w', relayed w' = relayed w2 -> queue_of w' = queue_of w2 -> exists batch sent, once w batch sent r w').
    { intros r w' Hr' Hq'. exists [], []. apply once_nothing; [congruence|by rewrite Hq'|]. intros _ id e. rewrite Hq'. apply Hy2. }
    destruct (EmEnabled (em_settings (w_email w))) eqn:Een; cbn [negb]; [|by apply wp_ret, Hnothing].
    apply wp_bind, wp_Claim; [done|intros e; by apply Hnothing|]. intros batch w3 Hlen Hnd Hr3 Hc3 Hin Hout.
    eapply wp_mono; [apply wp_deliver_all; split; [done|]|].
    - intros e He. destruct (Hin e He) as (e0 & Hq0 & [Hp _]%andb_true_iff & Hce & Hq3). split; [|exists e; split; [done|]; by rewrite Hce].
      destruct (ew_queue _ Hw2 _ _ Hq0) as [_ Hm]. destruct Hm as [_ _ _ Hat _]. rewrite Hce. cbn. lia.
    - intros r w4 [-> (sent & Hps)]. exists batch, sent. eapply (once_batch w w2 w3); try done. cbn in *. lia. }
  apply wp_bind, wp_when; intros _; [apply wp_logf|]; by apply Hrest.
Qed.
End Worker.

(** ** In the laboratory *)

(** Ann's confirmation mail is sent by the pass. *)
Lemma ProcessOnce_spec_witness :
  let d := lab_deps good_relay in
  let r := @ProcessOnce quiet_env d asked in
  fst r = Ok tt /\ map MailTo (relayed (snd r)) = ["ann@example.com"] /\
  exists batch sent, once asked batch sent (fst r) (snd r).
Proof.
  cbv zeta. split; [vm_compute; reflexivity|]. split; [vm_compute; reflexivity|].
  apply (@ProcessOnce_spec quiet_env (lab_deps good_relay) asked asked_wf).
Defined.
