(* ===== verification/EmailText.v ===== *)
(** * What the texts of an e-mail keep to

    The reason stored with a failed mail is always text the database takes and
    fits its column; the subject of an alert whose title is ASCII always passes
    the checks of the queue.  At the end, where the service does less than its
    comments say, as examples. *)
From stdpp Require Import base list strings gmap.
From Stdlib Require Import ZArith Lia.
From Stdlib Require Import Ascii.
From Stdlib Require String.
From S2P Require Import Prelude Text Runes Json Db NodeToken GoTime Schedule AlertStore TransferStore AlertRaiser Alerts EmailStore Mailer Email EmailSpec EmailEffects.
Local Open Scope string_scope.
Local Open Scope list_scope.
Local Open Scope Z_scope.

Definition all_valid (l : list Z) : Prop := Forall (fun r => valid_rune r = true) l.

(** ** Reasons *)
Lemma byte_of_nonzero n : 0 < n < 256 -> byte_of n <> ascii_of_N 0.
Proof. intros Hn E. apply (f_equal code) in E. rewrite code_byte_of in E by lia. change (code (ascii_of_N 0)) with 0 in E. lia. Qed.
Lemma encode_nonzero r : valid_rune r = true -> r <> 0 -> Forall (fun c => c <> ascii_of_N 0) (encode_rune r).
Proof.
  intros Hv Hr. rewrite encode_valid by done. unfold valid_rune in Hv. rewrite orb_true_iff, !andb_true_iff, !Z.leb_le, !Z.ltb_lt in Hv.
  unfold utf8_bytes. repeat case_match; propb; repeat constructor; apply byte_of_nonzero; zeuc.
Qed.
Definition no_nul (r : Z) : Z := if r =? 0 then 63 else r.
Lemma replace_nul_rune r : valid_rune r = true ->
  map (fun c => if bool_decide (c = ascii_of_N 0) then ascii_of_N 63 else c) (encode_rune r) = encode_rune (no_nul r).
Proof.
  intros Hv. unfold no_nul. destruct (Z.eqb_spec r 0) as [->|Hr]; [done|].
  pose proof (encode_nonzero r Hv Hr) as Hz. induction Hz as [|c l Hc Hl IH]; [done|]. cbn [map]. by rewrite bool_decide_eq_false_2, IH.
Qed.
Lemma replace_nul rs : all_valid rs -> replace_byte (ascii_of_N 0) (ascii_of_N 63) (of_runes rs) = of_runes (map no_nul rs).
Proof.
  intros Hrs. unfold replace_byte, of_runes. rewrite bytes_of_bytes. f_equal. unfold rune_bytes.
  induction Hrs as [|r rs Hr Hrs IH]; [done|]. cbn [map concat]. by rewrite map_app, IH, replace_nul_rune.
Qed.
Lemma no_nul_valid r : valid_rune r = true -> valid_rune (no_nul r) = true /\ no_nul r <> 0.
Proof. unfold no_nul. destruct (Z.eqb_spec r 0); [done|]. by split. Qed.
Lemma text_ok_runes rs : Forall (fun r => valid_rune r = true /\ r <> 0) rs -> text_ok (of_runes rs) = true.
Proof.
  intros Hrs. unfold text_ok. rewrite chunks_of_runes; [|by eapply Forall_impl; [exact Hrs|]; cbn; intros r [? ?]].
  induction Hrs as [|r rs [Hv Hr] Hrs IH]; [done|]. cbn [map forallb fst snd]. rewrite IH, andb_true_r.
  rewrite (proj2 (Z.eqb_neq r 0)) by done. destruct (Z.eqb_spec r 65533) as [->|]; done.
Qed.

(** Whatever the relay answers, the reason stored with the mail is text the
    database takes (valid UTF-8 without NUL) of at most 500 bytes: recording
    a failure never fails because of what the relay wrote. *)
Theorem clip_ok msg : text_ok (clip msg) = true /\ len (clip msg) <= 500.
Proof.
  unfold clip. change "?" with (of_runes [63]). destruct (ToValidUTF8_runes msg [63]) as (rs & Hrs & ->); [by repeat constructor|].
  rewrite replace_nul by done. set (rs' := map no_nul rs).
  assert (Hok : Forall (fun r => valid_rune r = true /\ r <> 0) rs').
  { unfold rs'. rewrite Forall_map. eapply Forall_impl; [exact Hrs|]. apply no_nul_valid. }
  destruct (len (of_runes rs') <=? 500) eqn:El; [split; [by apply text_ok_runes|lia]|].
  assert (Hb : bytes (of_runes rs') = rune_bytes rs') by apply bytes_of_bytes. rewrite Hb.
  assert (Hl : (500 <= length (rune_bytes rs'))%nat) by (unfold len in El; rewrite <-Hb, length_bytes; lia).
  destruct (rune_cut_runes rs' 500) as [k Hk]; [done|]. split.
  - rewrite Hk. apply (text_ok_runes (take k rs')), Forall_take, Hok.
  - unfold len. rewrite length_of_bytes, length_take. enough (Hc : (rune_cut (rune_bytes rs') 500 <= 500)%nat) by lia.
    generalize 500%nat, (rune_bytes rs'). intros n l. clear. induction n as [|n IH]; [done|]. cbn [rune_cut]. destruct (l !! S n); [destruct (cont a)|]; lia.
Qed.

(** ** Subjects *)

(** What one line of a message is made of. *)
Lemma fields_in l r : r ∈ concat (fields l) -> r ∈ l.
Proof.
  induction l as [|a l IH]; [done|]. cbn [fields]. destruct (is_space a); [intros Hr; right; auto|].
  destruct l as [|b l]; [done|]. destruct (is_space b).
  - cbn [concat app]. intros [-> |Hr]%elem_of_cons; [left|right; auto].
  - destruct (fields (b :: l)) as [|f fs]; cbn [concat app].
    + intros ->%list_elem_of_singleton. left.
    + intros [-> |Hr]%elem_of_cons; [left|right; auto].
Qed.
Lemma join_fields_in fs r : r ∈ join_fields fs -> r = 32 \/ r ∈ concat fs.
Proof.
  induction fs as [|f fs IH]; [by intros ?%elem_of_nil|]. destruct fs as [|g fs].
  - cbn. rewrite app_nil_r. by right.
  - change (join_fields (f :: g :: fs)) with (f ++ 32 :: join_fields (g :: fs)). change (concat (f :: g :: fs)) with (f ++ concat (g :: fs)).
    rewrite !elem_of_app, elem_of_cons. intros [?|[?|Hr]]; auto. destruct (IH Hr); auto.
Qed.
Lemma clipped_in rs max r : r ∈ clipped rs max -> r = 46 \/ r ∈ rs.
Proof.
  unfold clipped. destruct (_ <? _); [|by right]. rewrite elem_of_app. intros [Hr|Hr].
  - right. eapply sublist_subseteq; [apply sublist_take|exact Hr].
  - left. set_solver.
Qed.
Lemma clipped_length rs max : 3 <= max -> Z.of_nat (length (clipped rs max)) <= max.
Proof. intros Hm. unfold clipped. destruct (_ <? _) eqn:E; [|lia]. rewrite length_app, length_take. cbn. lia. Qed.
Definition one_line (s : string) (max : Z) : list Z :=
  clipped (join_fields (fields (map (fun r => if is_control r then 32 else r) (runes s)))) max.
Lemma one_line_all (P : Z -> Prop) s max : P 32 -> P 46 -> (forall r, r ∈ runes s -> is_control r = false -> P r) -> Forall P (one_line s max).
Proof.
  intros H32 H46 Hs. apply Forall_forall. intros r Hr. apply clipped_in in Hr as [-> |Hr]; [done|].
  apply join_fields_in in Hr as [-> |Hr]; [done|]. apply fields_in, list_elem_of_fmap in Hr as (r0 & -> & Hr0).
  destruct (is_control r0) eqn:E; [done|by apply Hs].
Qed.

(** Printable ASCII. *)
Definition printable (r : Z) : Prop := 32 <= r < 127.
Lemma printable_valid r : printable r -> valid_rune r = true.
Proof. unfold printable, valid_rune. intros Hr. apply orb_true_iff. left. apply andb_true_iff. split; [apply Z.leb_le|apply Z.ltb_lt]; lia. Qed.
Lemma printable_length l : Forall printable l -> length (rune_bytes l) = length l.
Proof.
  induction 1 as [|r l Hr Hl IH]; [done|]. change (rune_bytes (r :: l)) with (encode_rune r ++ rune_bytes l).
  rewrite length_app, IH, encode_valid by by apply printable_valid. unfold utf8_bytes. rewrite (proj2 (Z.ltb_lt r 128)) by (unfold printable in Hr; lia). done.
Qed.
Lemma trim_chunks_starts c l : is_space c.1 = false -> trim_chunks (c :: l) <> [].
Proof.
  intros Hc. unfold trim_chunks. cbn [drop_spaces]. rewrite Hc. change (rev (c :: l)) with (rev l ++ [c]).
  rewrite drop_spaces_last by done. by rewrite rev_app_distr.
Qed.
Lemma printable_subject r l : Forall printable (r :: l) -> r <> 32 -> Z.of_nat (length l) < 300 -> subject_ok (of_runes (r :: l)) = true.
Proof.
  intros Hl Hr Hlen. assert (Hv : all_valid (r :: l)) by by eapply Forall_impl; [exact Hl|apply printable_valid].
  assert (Hnc : hasControl (of_runes (r :: l)) = false).
  { unfold hasControl. rewrite runes_of_runes by done. apply not_true_iff_false. intros (x & Hx & Hc)%existsb_exists.
    apply list_elem_of_In in Hx. rewrite Forall_forall in Hl. specialize (Hl x Hx). unfold printable in Hl. unfold control in Hc.
    apply orb_true_iff in Hc as [Hc|Hc]; [apply Z.ltb_lt in Hc|apply Z.eqb_eq in Hc]; lia. }
  assert (Hln : len (of_runes (r :: l)) = Z.of_nat (S (length l))).
  { unfold len, of_runes. rewrite length_of_bytes, printable_length by done. done. }
  unfold subject_ok, maxSubjectLen. rewrite Hnc, Hln, (proj2 (Z.leb_le _ 300)) by lia. rewrite !andb_true_r, negb_true_iff.
  apply bool_decide_eq_false. unfold trim_space. rewrite chunks_of_runes by done. cbn [map].
  pose proof (trim_chunks_starts (r, encode_rune r) (map (fun r => (r, encode_rune r)) l)) as Hne. cbn [fst] in Hne.
  assert (Hsp : is_space r = false).
  { inversion Hl as [|? ? Hp _]; subst. unfold printable in Hp. unfold is_space. repeat (apply orb_false_iff; split);
      rewrite ?andb_false_iff, ?Z.leb_gt, ?Z.eqb_neq; lia. }
  specialize (Hne Hsp). set (t := trim_chunks _) in *.
  assert (Hbig : Forall (fun c => c.2 <> []) t).
  { destruct (trim_chunks_middle (map (fun r => (r, encode_rune r)) (r :: l))) as (l1 & l3 & He).
    assert (Hall : Forall (fun c : Z * list ascii => c.2 <> []) (map (fun r => (r, encode_rune r)) (r :: l))).
    { rewrite Forall_map. apply Forall_true. intros x. destruct (encode_ne x) as (c & k & Hx). cbn. by rewrite Hx. }
    rewrite He, !Forall_app in Hall. apply Hall. }
  destruct Hbig as [|[z b] t Hb _]; [done|]. destruct b as [|c b]; [done|]. done.
Qed.

Definition ascii_text (s : string) : Prop := forall r, r ∈ runes s -> r < 128.
Lemma one_line_printable s max : ascii_text s -> Forall printable (one_line s max).
Proof.
  intros Ha. apply one_line_all; [by split|by split|]. intros r Hr Hc. specialize (Ha r Hr). pose proof (runes_valid s) as Hv.
  rewrite Forall_forall in Hv. specialize (Hv r Hr). unfold printable, valid_rune, is_control in *.
  rewrite orb_true_iff, !andb_true_iff, !Z.leb_le, !Z.ltb_lt in Hv. rewrite orb_false_iff, !andb_false_iff, !Z.leb_gt in Hc. lia.
Qed.
Lemma of_runes_app l l' : of_runes (l ++ l') = of_runes l +:+ of_runes l'.
Proof.
  unfold of_runes. rewrite rune_bytes_app. unfold of_bytes. generalize (rune_bytes l) (rune_bytes l'). intros b b'.
  induction b as [|c b IH]; [done|]. cbn. by rewrite IH.
Qed.
Definition subject_start (s : AlertSeverity) (escalated : bool) : string :=
  "[Sparky] " +:+ AlertSeverity_string s +:+ (if escalated then " (escalated)" else "") +:+ ": ".
Lemma subject_start_runes s e : exists l, subject_start s e = of_runes (91 :: l) /\ Forall printable (91 :: l) /\ (length l <= 40)%nat.
Proof.
  exists (tail (runes (subject_start s e))). destruct s, e; (split; [reflexivity|]); split; try (vm_compute; lia);
    vm_compute; repeat constructor; discriminate.
Qed.

(** An alert with an ASCII title, however long, can always be e-mailed: its
    subject passes every check of the queue. *)
Theorem alertSubject_fits a escalated : ascii_text (ATitle a) -> subject_ok (alertSubject a escalated) = true.
Proof.
  intros Ha. destruct (subject_start_runes (ASeverity a) escalated) as (l & Hs & Hl & Hlen).
  assert (He : alertSubject a escalated = of_runes ((91 :: l) ++ one_line (ATitle a) maxTitleInMail)).
  { rewrite of_runes_app, <-Hs. unfold alertSubject, subject_start, oneLine. by destruct (ASeverity a), escalated. }
  rewrite He. cbn [app]. pose proof (one_line_printable (ATitle a) maxTitleInMail Ha) as Ho.
  apply printable_subject; [by rewrite app_comm_cons, Forall_app|done|].
  rewrite length_app. pose proof (clipped_length (join_fields (fields (map (fun r => if is_control r then 32 else r) (runes (ATitle a))))) maxTitleInMail) as Hc.
  unfold one_line, maxTitleInMail in *. lia.
Qed.

(** A plain title passes.  One of 200 letters outside ASCII is as valid for the
    inbox, whose limit counts letters, but its subject is over the limit of the
    queue, which counts bytes: nobody is e-mailed about it. *)
Definition titled (title : string) : RaiseParams :=
  MkRaise "instance_dead" AlertSeverityWarning title "It stopped." "running_instance" "i1" "instance:i1" [AudienceTier TierDeveloper].
Definition alert_of (p : RaiseParams) : Alert :=
  MkAlert "a1" (RKind p) (RSeverity p) (RTitle p) (RBody p) None None None 0 0 1 None None None.
Definition long_title : string := of_runes (repeat 233 200).
Lemma alertSubject_fits_witness :
  Validate (titled long_title) = None /\ subject_ok (alertSubject (alert_of (titled long_title)) false) = false /\
  subject_ok (alertSubject (alert_of (titled "Instance died")) true) = true.
Proof.
  split; [vm_compute; reflexivity|]. split; [vm_compute; reflexivity|].
  assert (Hall : Forall (fun r => r < 128) (runes (RTitle (titled "Instance died")))) by (vm_compute; repeat constructor).
  apply (alertSubject_fits (alert_of (titled "Instance died")) true). intros r. by apply (proj1 (Forall_forall _ _) Hall).
Defined.

(** ** Where the service does less than its comments say *)

(** The minute between two confirmation mails starts anew when the address is
    cleared: three operations, two mails to the same address at once. *)
Example clearing_lifts_cooldown :
  let d := lab_deps good_relay in
  let again := @RequestMyAddress quiet_env counting_bytes d "ann" "ann@example.com" asked in
  let cleared := snd (@ClearMyAddress quiet_env "ann" asked) in
  let twice := snd (@RequestMyAddress quiet_env counting_bytes d "ann" "ann@example.com" cleared) in
  fst again = Err ErrTooSoon /\ map ToAddress (queue_rows twice) = ["ann@example.com"; "ann@example.com"].
Proof. vm_compute. split; reflexivity. Qed.

(** A choice that could not be audited is put back, but the digest items it
    dropped are not. *)
Definition waiting : World :=
  put_columns "ann" (MkEmailColumns (Some "ann@example.com") (Some EmailSourceSelf) EmailDeliveryDaily AlertSeverityInfo)
    (upd_digest (<[("ann", inbox_id) := MkDigestRow AlertSeverityWarning "Instance died" 0]>) alerted).
Example revert_loses_digest :
  let r := @SetMyPreferences (failing_env [5%N]) "ann" "off" "info" (set_w_calls 0 waiting) in
  is_ok (fst r) = false /\ ColDelivery (columns_of (snd r) "ann") = EmailDeliveryDaily /\
  size (em_digest (w_email waiting)) = 1%nat /\ size (em_digest (w_email (snd r))) = 0%nat.
Proof. vm_compute. repeat split; reflexivity. Qed.

(** Hosts the settings page takes for this machine and the mailer does not. *)
Example accepted_never_sends :
  forallb (fun h => isLocalHost h && negb (authAllowed h false)) ["LOCALHOST"; "127.example.com"; "127.0.0.1.nip.io"] = true.
Proof. vm_compute. reflexivity. Qed.
