(* ===== verification/EngineProvision.v ===== *)
(** * Engine provisioning ([internal/engineprovision])

    Starting the installation of an engine version on a node, and the progress
    its agent reports. *)
From stdpp Require Import base list strings gmap relations.
From Stdlib Require Import ZArith Lia.
From Stdlib Require Import Ascii.
From Stdlib Require String.
From S2P Require Import Prelude Text Json Db Rbac InstanceStore Wire NodeStore TransferStore Transfers EngineStore.
Local Open Scope string_scope.
Local Open Scope list_scope.
Local Open Scope Z_scope.

Definition ErrInvalidProvisionRequest : error :=
  Sentinel "engineprovision.ErrInvalidProvisionRequest" "invalid engine provisioning request".
(** Its own [ErrDestNodeOffline]. *)
Definition ErrEngineNodeOffline : error := Sentinel "engineprovision.ErrDestNodeOffline" "destination node is not connected".

Record ProvisionEngineParams := MkProvision { pe_DestNodeID : string; pe_EngineType : string; pe_Version : string }.
Definition invalid_provision (reason : string) : error := Errorf "" ErrInvalidProvisionRequest (": " +:+ reason).
Definition validate_provision (p : ProvisionEngineParams) : result unit :=
  if bool_decide (pe_DestNodeID p = "") then Err (invalid_provision "dest_node_id is required")
  else if bool_decide (pe_EngineType p = "") then Err (invalid_provision "engine_type is required")
  else if bool_decide (pe_Version p = "") then Err (invalid_provision "version is required")
  else Ok tt.

Definition engine_detail (t : EngineTransfer) : gmap string DVal :=
  <["dest_node_id" := DStr (EngDestNodeID t)]> (<["engine_type" := DStr (EngType t)]> {[ "version" := DStr (EngVersion t) ]}).
Definition start_engine (t : EngineTransfer) : Message := MStartEngineTransfer (EngTransferID t) (EngType t) (EngVersion t).

Section Service.
Context `{Env}.
Definition ProvisionEngine (actor : Actor) (params : ProvisionEngineParams) : M EngineTransfer :=
  guard_err (CanManageNodes actor) ErrNotPermitted;;
  lift (validate_provision params);;
  connected ← Connected (pe_DestNodeID params);
  guard_err connected ErrEngineNodeOffline;;
  t ← wrap "create engine transfer: "
        (Create_engine (pe_DestNodeID params) (pe_EngineType params) (pe_Version params) (actor_id actor));
  env ← wrap "build start_engine_transfer envelope: " (NewEnvelope (start_engine t));
  wrap ("dispatch start_engine_transfer to node " +:+ pe_DestNodeID params +:+ ": ") (Send (pe_DestNodeID params) env);;
  wrap "record audit: " (Record_ (actor_id actor) (IsSuperAdmin actor) "initiated_engine_transfer" "engine_transfer"
    (EngTransferID t) (Some (engine_detail t)));;
  mret t.
Definition ListEngineTransfers : M (list EngineTransfer) := wrap "list engine transfers: " List_engines_db.
Definition ListNodeEngineInventory : M (list NodeEngineInventory) := wrap "list node engine inventory: " List_engine_inventory_db.

(** The end of a reported provisioning run. *)
Definition install (nodeID : string) (p : EngineTransferProgress) : M unit :=
  r ← attempt (FindByID_engine (ep_TransferID p));
  match r with
  | Err _ => logf "engineprovision: look up completed transfer %s: %v"
  | Ok t =>
      log_on_error "engineprovision: upsert inventory for node %s engine %s@%s: %v"
        (Upsert_engine nodeID (EngType t) (EngVersion t) InvPresent (ep_InstallPath p) (ep_InstalledSizeBytes p) (EngTransferID t))
  end.
Definition HandleEngineTransferProgress (nodeID : string) (env : Envelope) : M unit :=
  match env with
  | EEngineTransferProgress (Err _) => logf "engineprovision: node %s sent a malformed engine_transfer_progress: %v"
  | EEngineTransferProgress (Ok p) =>
      log_on_error "engineprovision: update progress for transfer %s: %v"
        (UpdateProgress_engine (ep_TransferID p) (ep_BytesTransferred p) (ep_BytesTotal p));;
      r ← attempt (SetStatus_engine (ep_TransferID p) (ep_Status p) (nonempty (ep_ErrorMessage p)));
      match r with
      | Err _ => logf "engineprovision: set status for transfer %s: %v"
      | Ok _ => when (bool_decide (ep_Status p = engine_status_text ECompleted)) (install nodeID p)
      end
  | _ => mret tt
  end.
End Service.

(** ** Starting one *)
Section Start.
Context `{Env}.
Definition engines_same (w w' : World) : Prop := w_engines w' = w_engines w /\ w_sent w' = w_sent w /\ w_audit w' = w_audit w.
(** What a request leaves once its row is there. *)
Definition queued_for (actor : Actor) (p : ProvisionEngineParams) (t : EngineTransfer) (w w' : World) : Prop :=
  exists now, t = new_engine_transfer (EngTransferID t) (pe_DestNodeID p) (pe_EngineType p) (pe_Version p) (actor_id actor) now /\
    engine_transfers w !! EngTransferID t = None /\
    engine_transfers w' = <[EngTransferID t := t]> (engine_transfers w) /\ engine_inventory w' = engine_inventory w.
(** Everything the code checks first. *)
Definition provisionable (actor : Actor) (p : ProvisionEngineParams) (w : World) : Prop :=
  CanManageNodes actor = true /\ pe_DestNodeID p <> "" /\ pe_Version p <> "" /\ engine_type_ok (pe_EngineType p) = true /\
  agent_connected (w_calls w) (pe_DestNodeID p) = true /\ is_Some (w_nodes w !! pe_DestNodeID p).
Lemma validate_provision_ok p : validate_provision p = Ok tt -> pe_DestNodeID p <> "" /\ pe_EngineType p <> "" /\ pe_Version p <> "".
Proof. unfold validate_provision. repeat case_bool_decide; done. Qed.

(** Provisioning an engine succeeds only for someone who may manage nodes,
    for a known engine type and a node that is connected; there is then
    exactly one more transfer, queued for that node under a fresh id, exactly
    one more message, that starts it there, and one more audit record, in the
    actor's name.  When it fails nothing was changed or sent, or the row was
    made and stays queued, with no audit record. *)
Lemma ProvisionEngine_spec actor p w :
  wp (ProvisionEngine actor p) w (fun r w' => match r with
    | Ok t => provisionable actor p w /\ queued_for actor p t w w' /\ w_sent w' = w_sent w ++ [(pe_DestNodeID p, start_engine t)] /\
        exists now, w_audit w' = w_audit w ++ [MkAudit (actor_id actor) (IsSuperAdmin actor) "initiated_engine_transfer"
          "engine_transfer" (EngTransferID t) (Some (engine_detail t)) now]
    | Err _ => engines_same w w' \/ (provisionable actor p w /\ w_audit w' = w_audit w /\ exists t, queued_for actor p t w w' /\
        (w_sent w' = w_sent w \/ w_sent w' = w_sent w ++ [(pe_DestNodeID p, start_engine t)]))
    end).
Proof.
  unfold ProvisionEngine. apply wp_bind, wp_guard; intros Hact; [|by left].
  apply wp_bind. destruct (validate_provision p) as [[]|e] eqn:Ev; [apply wp_ret|by apply wp_throw; left].
  apply validate_provision_ok in Ev as (Hd & _ & Hv). apply wp_bind, wp_Connected. intros c Hc.
  apply wp_bind, wp_guard; intros Hcon; [subst c|by left].
  apply wp_bind, wp_wrap, wp_Create_engine; [intros e; by left|]. intros t Et Hn Hty Hnode.
  assert (Hp : provisionable actor p w) by done.
  assert (Hq : forall w', w_engines w' = w_engines (put_engine_transfer t w) -> queued_for actor p t w w').
  { intros w' E. eexists. unfold engine_transfers, engine_inventory. rewrite E. split_and!; done. }
  io_auto; [right|right|right|]; split_and!; try done; try (exists t; split; [by apply Hq|by (left + right)]).
  - by apply Hq.
  - by eexists.
Qed.
End Start.

(** ** What agents report *)
Section Progress.
Context `{Env}.
Definition engine_logged (w w' : World) : Prop := w_logs w `prefix_of` w_logs w'.
(** The row a report leaves. *)
Definition reported_engine (now : Time) (st : EngineTransferStatus) (p : EngineTransferProgress) (t : EngineTransfer) : EngineTransfer :=
  engine_status_row now st (nonempty (ep_ErrorMessage p)) (engine_progress_row (ep_BytesTransferred p) (ep_BytesTotal p) t).
(** The row the transfer has afterwards: what was stored of a report. *)
Definition engine_row_after (p : EngineTransferProgress) (t t' : EngineTransfer) : Prop :=
  engine_identity t' = engine_identity t /\
  (t' = t \/ t' = engine_progress_row (ep_BytesTransferred p) (ep_BytesTotal p) t \/
   exists now st, engine_status_of (ep_Status p) = Some st /\
     (t' = reported_engine now st p t \/ t' = engine_status_row now st (nonempty (ep_ErrorMessage p)) t)).
Definition installed (n : string) (t : EngineTransfer) (p : EngineTransferProgress) (now : Time) : NodeEngineInventory :=
  MkEngineInventory n (EngType t) (EngVersion t) InvPresent (ep_InstallPath p) (ep_InstalledSizeBytes p) now (EngTransferID t).
(** What a report did to the tables, whatever failed. *)
Record report_step (n : string) (p : EngineTransferProgress) (w w' : World) : Prop := {
  rs_others : forall id, id <> ep_TransferID p -> engine_transfers w' !! id = engine_transfers w !! id;
  rs_row : forall t', engine_transfers w' !! ep_TransferID p = Some t' ->
    exists t, engine_transfers w !! ep_TransferID p = Some t /\ engine_row_after p t t';
  rs_kept : is_Some (engine_transfers w !! ep_TransferID p) -> is_Some (engine_transfers w' !! ep_TransferID p);
  rs_inventory : engine_inventory w' = engine_inventory w \/
    exists t now, engine_transfers w' !! ep_TransferID p = Some t /\ ep_Status p = engine_status_text ECompleted /\
      engine_inventory w' = <[(n, EngType t, EngVersion t) := installed n t p now]> (engine_inventory w)
}.

(** A line makes the log longer for good. *)
Lemma logged_line w w2 fmt : engine_logged w w2 ->
  engine_logged w (set_w_logs (w_logs w2 ++ [fmt]) w2) /\ w_logs (set_w_logs (w_logs w2 ++ [fmt]) w2) <> w_logs w.
Proof.
  intros [k Hk]. unfold engine_logged. cbn. rewrite Hk, <-app_assoc. split; [by apply prefix_app_r|].
  intros F%(f_equal length). rewrite !length_app in F. cbn in F. lia.
Qed.
Lemma wp_UpdateProgress_engine id a b w (Q : result unit -> World -> Prop) :
  (forall e, Q (Err e) (bump w)) -> Q (Ok tt) (upd_engine_transfer id (engine_progress_row a b) (bump w)) ->
  wp (UpdateProgress_engine id a b) w Q.
Proof. intros He Hok. apply wp_wrap, wp_exec; [intros; apply He|intros _; exact Hok]. Qed.
(** The first two statements of the handler: the row is as one of them or both
    left it. *)
Lemma report_step_rows n p w w' f : engine_inventory w' = engine_inventory w ->
  engine_transfers w' = alter f (ep_TransferID p) (engine_transfers w) -> (forall t, engine_row_after p t (f t)) ->
  report_step n p w w'.
Proof.
  intros Hi Ht Hf. split; [intros id Hid; by rewrite Ht, lookup_alter_ne| | |by left].
  - intros t'. rewrite Ht, lookup_alter_eq. destruct (engine_transfers w !! _) as [t|]; [|done]. intros [= <-]. by exists t.
  - intros [t E]. rewrite Ht, lookup_alter_eq, E. by eexists.
Qed.
Lemma report_step_same n p w w' : w_engines w' = w_engines w -> report_step n p w w'.
Proof.
  intros E. apply (report_step_rows n p w w' id); unfold engine_inventory, engine_transfers; rewrite ?E; [done| |].
  - apply map_eq. intros k. rewrite lookup_alter. case_decide as Hk; [subst k|done]. by destruct (_ !! _).
  - intros t. split; [done|by left].
Qed.
Lemma report_step_engines n p w w1 w2 : report_step n p w w1 -> w_engines w2 = w_engines w1 -> report_step n p w w2.
Proof.
  intros [H1 H2 H3 H4] E. unfold engine_transfers, engine_inventory in *.
  split; unfold engine_transfers, engine_inventory; rewrite E; assumption.
Qed.
Lemma logged_between w w1 w2 : engine_logged w w1 -> engine_logged w1 w2 -> w_logs w2 = w_logs w -> w_logs w1 = w_logs w.
Proof. unfold engine_logged. intros Hl1 Hl2 E. rewrite E in Hl2. by apply (anti_symm prefix). Qed.
Lemma install_ok n p w w1 : report_step n p w w1 -> engine_inventory w1 = engine_inventory w -> ep_Status p = engine_status_text ECompleted ->
  wp (install n p) w1 (fun r w' => r = Ok tt /\ engine_logged w1 w' /\ report_step n p w w' /\
    (w_logs w' = w_logs w1 -> engine_transfers w' = engine_transfers w1 /\ exists t now, engine_transfers w1 !! ep_TransferID p = Some t /\
      engine_inventory w' = <[(n, EngType t, EngVersion t) := installed n t p now]> (engine_inventory w))).
Proof.
  intros Hs Hi Hst.
  assert (Hend : forall w2 fmt (P : Prop), w_logs w2 = w_logs w1 -> w_engines w2 = w_engines w1 ->
    let w' := set_w_logs (w_logs w2 ++ [fmt]) w2 in
    Ok tt = Ok tt /\ engine_logged w1 w' /\ report_step n p w w' /\ (w_logs w' = w_logs w1 -> P)).
  { intros w2 fmt P Hlog He w'. assert (Hl : engine_logged w1 w2) by (unfold engine_logged; by rewrite Hlog).
    destruct (logged_line w1 w2 fmt Hl). split_and!; [done|done|by apply (report_step_engines n p w w1)|done]. }
  unfold install. apply wp_bind, wp_attempt, wp_FindByID_engine; [intros e; apply wp_logf; by apply Hend|intros t Ht].
  apply wp_log_on_error, wp_Upsert_engine; [intros e; by apply Hend|intros i -> _].
  set (now := w_clock (bump (bump w1))). split_and!; [done|by unfold engine_logged| |].
  - destruct Hs as [H1 H2 H3 _]. split; [exact H1|exact H2|exact H3|right]. exists t, now. split_and!; [done|done|].
    unfold engine_inventory in *. cbn. by rewrite <-Hi.
  - intros _. split; [done|]. exists t, now. split; [done|]. unfold engine_inventory in *. cbn. by rewrite <-Hi.
Qed.

(** Everything the report says is stored. *)
Definition stored_report (n : string) (p : EngineTransferProgress) (w w' : World) : Prop :=
  exists now st, engine_status_of (ep_Status p) = Some st /\
    engine_transfers w' = alter (reported_engine now st p) (ep_TransferID p) (engine_transfers w) /\
    if bool_decide (st = ECompleted)
    then exists t now', engine_transfers w' !! ep_TransferID p = Some t /\
      engine_inventory w' = <[(n, EngType t, EngVersion t) := installed n t p now']> (engine_inventory w)
    else engine_inventory w' = engine_inventory w.
(** A report of a provisioning run never fails and stores what it says:
    when nothing was logged the named transfer has the reported status, byte
    counts and message, and the reported version is in the inventory of the
    reporting node when the status is completed.  Whatever fails, no other
    transfer is touched, no transfer changes what it is of or for, and at most
    that one entry of the inventory changes.  Neither the transfer's
    destination nor its status is looked at. *)
Lemma HandleEngineTransferProgress_spec n p w :
  wp (HandleEngineTransferProgress n (EEngineTransferProgress (Ok p))) w (fun r w' =>
    r = Ok tt /\ engine_logged w w' /\ report_step n p w w' /\
    (w_logs w' = w_logs w -> stored_report n p w w')).
Proof.
  unfold HandleEngineTransferProgress. cbv zeta.
  set (id := ep_TransferID p). set (prog := engine_progress_row (ep_BytesTransferred p) (ep_BytesTotal p)).
  set (msg := nonempty (ep_ErrorMessage p)).
  (* From the stored progress [g] of the row on, with the log of [w1]. *)
  assert (Hrest : forall w1 g, engine_inventory w1 = engine_inventory w -> engine_transfers w1 = alter g id (engine_transfers w) ->
    engine_logged w w1 -> (w_logs w1 = w_logs w -> g = prog) -> (g = prog \/ g = (fun t => t)) ->
    wp (r ← attempt (SetStatus_engine id (ep_Status p) msg);
        match r with
        | Err _ => logf "engineprovision: set status for transfer %s: %v"
        | Ok _ => when (bool_decide (ep_Status p = engine_status_text ECompleted)) (install n p)
        end) w1 (fun r w' => r = Ok tt /\ engine_logged w w' /\ report_step n p w w' /\
      (w_logs w' = w_logs w -> stored_report n p w w'))).
  { intros w1 g Hi Ht Hl Hg Hcase.
    assert (Hrow : forall t, engine_row_after p t (g t)) by (intros t; destruct Hcase as [-> | ->]; split; auto).
    apply wp_bind, wp_attempt, wp_SetStatus_engine.
    - intros e. apply wp_logf. destruct (logged_line w (bump w1) "engineprovision: set status for transfer %s: %v" Hl).
      split_and!; [done|done|by apply (report_step_rows n p w _ g)|done].
    - intros st Hst _. set (now := w_clock (bump w1)). set (w2 := upd_engine_transfer _ _ _).
      assert (Ht2 : engine_transfers w2 = alter (engine_status_row now st msg ∘ g) id (engine_transfers w)).
      { unfold w2, engine_transfers in *. cbn. by rewrite Ht, <-alter_alter_eq. }
      assert (Hs2 : report_step n p w w2).
      { apply (report_step_rows n p w w2 _ Hi Ht2). intros t. destruct Hcase as [-> | ->]; (split; [done|right; right; exists now, st; auto]). }
      apply wp_when; intros Hc; propb.
      + eapply wp_mono; [by apply (install_ok n p w w2)|]. intros r w' (-> & Hl' & Hs' & Hok).
        split_and!; [done|unfold engine_logged in *; by etransitivity|done|].
        intros E. assert (E1 : w_logs w1 = w_logs w) by by apply (logged_between w w1 w').
        destruct Hok as (Ht' & t & now' & Hlk & Hinv); [cbn; by rewrite E1|]. exists now, st. split; [done|].
        assert (st = ECompleted) as -> by (rewrite Hc, engine_status_of_text in Hst; congruence).
        rewrite Ht', Ht2, bool_decide_true by done. rewrite (Hg E1).
        split; [done|]. exists t, now'. by rewrite Ht2, (Hg E1) in Hlk.
      + split_and!; [done..|]. intros E. exists now, st. split; [done|]. rewrite Ht2, (Hg E). split; [done|].
        rewrite bool_decide_false; [done|]. intros ->. by apply Hc, engine_status_of_some. }
  apply wp_bind, wp_log_on_error, wp_UpdateProgress_engine.
  - intros e. destruct (logged_line w (bump w) "engineprovision: update progress for transfer %s: %v" (reflexivity _)).
    apply (Hrest _ (fun t => t)); try done; [|by right].
    symmetry. by apply alter_id.
  - apply (Hrest _ prog); [done|done|by unfold engine_logged|done|by left].
Qed.
End Progress.

(** ** Over time *)
Section Runs.
Context `{Env}.
(** Rows are kept under their keys, and what is installed names a transfer of
    that engine and version. *)
Record engines_wf (w : World) : Prop := {
  ew_transfer : forall k t, engine_transfers w !! k = Some t -> EngTransferID t = k;
  ew_installed : forall k i, engine_inventory w !! k = Some i -> engine_key i = k /\ EinvStatus i = InvPresent /\
    exists t, engine_transfers w !! EinvPlacedVia i = Some t /\ EngType t = EinvEngineType i /\ EngVersion t = EinvVersion i
}.
(** The history: no transfer is forgotten or becomes another's. *)
Definition history_kept (w w' : World) : Prop :=
  forall id t, engine_transfers w !! id = Some t ->
  exists t', engine_transfers w' !! id = Some t' /\ engine_identity t' = engine_identity t.
#[local] Instance history_preorder : PreOrder history_kept.
Proof.
  split; [intros w id t Ht; by exists t|]. intros w1 w2 w3 H12 H23 id t Ht.
  destruct (H12 id t Ht) as (t2 & Ht2 & E2). destruct (H23 id t2 Ht2) as (t3 & Ht3 & E3). exists t3. split; [done|congruence].
Qed.
Definition engines_good (w w' : World) : Prop := (engines_wf w -> engines_wf w') /\ (engines_wf w -> history_kept w w').

Lemma installed_kept w w' : history_kept w w' -> (forall k t, engine_transfers w' !! k = Some t -> EngTransferID t = k) ->
  engine_inventory w' = engine_inventory w -> engines_wf w -> engines_wf w'.
Proof.
  intros Hh Hk Hi [H1 H2]. split; [done|]. intros k i. rewrite Hi. intros (Hke & Hp & t & Ht & Hty & Hv)%H2. split_and!; [done|done|].
  destruct (Hh _ _ Ht) as (t' & Ht' & [= _ _ Et Ev _]). exists t'. split_and!; [done|congruence|congruence].
Qed.
Lemma engines_same_good w w' : w_engines w' = w_engines w -> engines_good w w'.
Proof.
  intros E. split.
  - intros [H1 H2]. split; unfold engine_transfers, engine_inventory; rewrite E; [exact H1|exact H2].
  - intros _ id t. unfold engine_transfers. rewrite E. intros Ht. by exists t.
Qed.
Lemma queued_good actor p t w w' : queued_for actor p t w w' -> engines_good w w'.
Proof.
  intros (now & _ & Hn & Ht & Hi). assert (Hh : history_kept w w').
  { intros id t' Hid. exists t'. split; [|done]. rewrite Ht. rewrite lookup_insert_ne; [done|]. intros <-. congruence. }
  split; [intros Hw|done]. apply (installed_kept w); [done| |done|done]. intros k t'. rewrite Ht, lookup_insert.
  case_decide as E; [by intros [= <-]|apply Hw].
Qed.
Lemma report_good n p w w' : report_step n p w w' -> engines_good w w'.
Proof.
  intros [Ho Hr Hk Hi].
  assert (Hh : history_kept w w').
  { intros id t Ht. destruct (decide (id = ep_TransferID p)) as [->|Hne]; [|exists t; by rewrite Ho].
    destruct Hk as [t' Ht']; [by eexists|]. destruct (Hr t' Ht') as (t0 & Ht0 & Hid & _). exists t'. split; [done|congruence]. }
  split; [intros Hw|done].
  assert (Hkeys : forall k t, engine_transfers w' !! k = Some t -> EngTransferID t = k).
  { intros k t Ht. destruct (decide (k = ep_TransferID p)) as [->|Hne]; [|rewrite Ho in Ht by done; by apply Hw].
    destruct (Hr t Ht) as (t0 & Ht0 & [= E _ _ _ _] & _). rewrite E. by apply Hw. }
  destruct Hi as [Hi|(t & now & Ht & _ & Hi)]; [by apply (installed_kept w)|].
  split; [done|]. intros k i. rewrite Hi, lookup_insert. case_decide as E.
  - intros [= <-]. split_and!; [done|done|]. exists t. split_and!; [|done|done]. cbn. by rewrite (Hkeys _ _ Ht).
  - intros (Hke & Hp & t0 & Ht0 & Hty & Hv)%(ew_installed w Hw). split_and!; [done|done|].
    destruct (Hh _ _ Ht0) as (t' & Ht' & [= _ _ Et Ev _]). exists t'. split_and!; [done|congruence|congruence].
Qed.
Inductive engines_op (w : World) : World -> Prop :=
| op_provision actor params : engines_op w (snd (ProvisionEngine actor params w))
| op_engine_report nodeID env : engines_op w (snd (HandleEngineTransferProgress nodeID env w)).
Lemma engines_op_good w w' : engines_op w w' -> engines_good w w'.
Proof.
  intros [actor p|n env].
  - apply (wp_mono _ _ _ (fun _ w' => engines_good w w') (ProvisionEngine_spec actor p w)).
    intros [t|e] w1; [intros (_ & Hq & _); by apply (queued_good actor p t)|].
    intros [[E _]|(_ & _ & t & Hq & _)]; [by apply engines_same_good|by apply (queued_good actor p t)].
  - destruct env as [?|?|?|?|?|?|?|?|?|[p|e]|?|?|?]; try (by apply engines_same_good).
    apply (wp_mono _ _ _ (fun _ w' => engines_good w w') (HandleEngineTransferProgress_spec n p w)).
    intros r w1 (_ & _ & Hs & _). by apply (report_good n p).
Qed.
(** Anything else the server does leaves these tables alone. *)
Inductive engines_step (w : World) : World -> Prop :=
| estep_op w' : engines_op w w' -> engines_step w w'
| estep_elsewhere w' : w_engines w' = w_engines w -> engines_step w w'.

Lemma report_own_node n env w k : k.1.1 <> n ->
  engine_inventory (snd (HandleEngineTransferProgress n env w)) !! k = engine_inventory w !! k.
Proof.
  intros Hk. destruct env as [?|?|?|?|?|?|?|?|?|[p|e]|?|?|?]; try done.
  destruct (HandleEngineTransferProgress_spec n p w) as (_ & _ & [_ _ _ [->|(t & now & _ & _ & ->)]] & _); [done|].
  apply lookup_insert_ne. by intros <-.
Qed.

(** Over any sequence of requests and reports, from any node and in any
    order, whatever fails: every entry of the engine inventory is present and
    of the engine and the version of the transfer it names, which exists; no
    transfer is ever forgotten, and none changes its destination, engine,
    version or requester.  A report changes the inventory of the node it came
    from only. *)
Theorem engines_always_wf w w' : rtc engines_step w w' -> engines_wf w ->
  engines_wf w' /\ history_kept w w' /\
  forall n env k, k.1.1 <> n -> engine_inventory (snd (HandleEngineTransferProgress n env w')) !! k = engine_inventory w' !! k.
Proof.
  intros Hs Hw. split_and!; [| |intros n env k; apply report_own_node].
  all: revert Hw; induction Hs as [w|w w1 w2 H12 _ IH]; intros Hw; [done|].
  all: assert (Hg : engines_good w w1) by (destruct H12 as [w1 Ho|w1 E]; [by apply engines_op_good|by apply engines_same_good]).
  all: destruct Hg as [Hg1 Hg2].
  - by apply IH, Hg1.
  - etransitivity; [by apply Hg2|by apply IH, Hg1].
Qed.
End Runs.

(** ** Concrete runs *)
Definition host (id : string) : Node :=
  MkNode id id id "10.0.0.7" Docker (FDec 128 0) (FDec 128 0) AgentOnline None None 0 None None None None None None "".
Definition two_hosts : World := set_w_nodes {[ "n1" := host "n1"; "n2" := host "n2" ]} empty_world.
Definition superadmin : Actor := MkActor true "" TierAdmin.
Definition llama_on_n1 : World := snd (@ProvisionEngine quiet_env superadmin (MkProvision "n1" "llamacpp" "b9000") two_hosts).
Definition llama_id : string := "00000000-0000-0000-0000-00000000000c".
Definition llama_done (status : string) : Envelope :=
  EEngineTransferProgress (Ok (MkEngineTransferProgress llama_id 10 10 status "" "/opt/llama" 10)).
Definition engine_rows (w : World) := map (fun it => (EngDestNodeID it.2, EngStatus it.2)) (map_to_list (engine_transfers w)).
Definition installed_on (w : World) := map fst (map_to_list (engine_inventory w)).
Lemma two_hosts_wf : engines_wf two_hosts.
Proof.
  split; intros k x; [change (engine_transfers two_hosts) with (∅ : gmap string EngineTransfer)
    |change (engine_inventory two_hosts) with (∅ : gmap (string * string * string) NodeEngineInventory)]; by rewrite lookup_empty.
Qed.
Definition llama_installed : World := snd (@HandleEngineTransferProgress quiet_env "n1" (llama_done "completed") llama_on_n1).
Lemma engines_always_wf_witness : engines_wf llama_installed /\ installed_on llama_installed = [("n1", "llamacpp", "b9000")].
Proof.
  split; [|vm_compute; reflexivity].
  assert (Hs : rtc (@engines_step quiet_env) two_hosts llama_installed).
  { apply (rtc_l _ _ llama_on_n1); [apply estep_op, op_provision|]. apply rtc_once, estep_op, op_engine_report. }
  exact (proj1 (@engines_always_wf quiet_env two_hosts llama_installed Hs two_hosts_wf)).
Defined.

(** The node a transfer is for is not looked at: another one completes it, and
    the version is filed as installed on that one. *)
Example foreign_report_completes :
  let w := snd (@HandleEngineTransferProgress quiet_env "n2" (llama_done "completed") llama_on_n1) in
  engine_rows w = [("n1", ECompleted)] /\ installed_on w = [("n2", "llamacpp", "b9000")].
Proof. vm_compute. split; reflexivity. Qed.
(** Nor is its status: a finished transfer runs again. *)
Example finished_run_reopens :
  let w := snd (@HandleEngineTransferProgress quiet_env "n1" (llama_done "transferring") llama_installed) in
  engine_rows w = [("n1", ETransferring)].
Proof. vm_compute. reflexivity. Qed.
(** A start message that cannot be sent leaves the row queued. *)
Example unsent_run_stays_queued :
  let r := @ProvisionEngine (failing_env [3%N]) superadmin (MkProvision "n1" "llamacpp" "b9000") two_hosts in
  is_ok (fst r) = false /\ engine_rows (snd r) = [("n1", EQueued)] /\ w_sent (snd r) = [].
Proof. vm_compute. repeat split. Qed.
