(* ===== verification/ContainerLogStore.v ===== *)
(** * The container_log_archives and container_log_settings tables
    ([internal/db/container_log_archives.go], [container_log_settings.go]) *)
From stdpp Require Import base list strings gmap.
From Stdlib Require Import ZArith Lia.
From Stdlib Require Import Ascii.
From Stdlib Require String.
From S2P Require Import Prelude Text Json Db InstanceStore NodeStore TransferStore EngineStore.
Local Open Scope string_scope.
Local Open Scope list_scope.
Local Open Scope Z_scope.

Definition ErrContainerLogArchiveNotFound : error :=
  Sentinel "db.ErrContainerLogArchiveNotFound" "container log archive not found".

(** A row as it is read: without its body, with the name of its node and the
    size of the body. *)
Record ArchiveView := MkArchiveView { av_row : ContainerLogArchive; av_NodeName : string; av_CompressedBytes : Z }.
(** [NewContainerLogArchive]. *)
Record NewContainerLogArchive := MkNewArchive {
  nl_UploadID : string; nl_NodeID : string; nl_InstanceID : option string; nl_ProfileID : option string; nl_ProfileName : string;
  nl_ContainerName : string; nl_ContainerID : string; nl_Reason : string; nl_State : string; nl_ExitCode : option Z;
  nl_OOMKilled : bool; nl_StartedAt : option Time; nl_FinishedAt : option Time; nl_LinesRequested : option Z; nl_LinesKept : Z;
  nl_Truncated : bool; nl_SizeBytes : Z; nl_LogGz : string
}.
Definition archive_row (id : string) (now : Time) (n : NewContainerLogArchive) : ContainerLogArchive :=
  MkArchive id (nl_UploadID n) (nl_NodeID n) (nl_InstanceID n) (nl_ProfileID n) (nl_ProfileName n) (nl_ContainerName n)
    (nl_ContainerID n) (nl_Reason n) (nl_State n) (nl_ExitCode n) (nl_OOMKilled n) (nl_StartedAt n) (nl_FinishedAt n)
    (nl_LinesRequested n) (nl_LinesKept n) (nl_Truncated n) (nl_SizeBytes n) (nl_LogGz n) now.
Definition body_of (a : ContainerLogArchive) : string := LogGz a.
Definition without_body (a : ContainerLogArchive) : ContainerLogArchive :=
  MkArchive (LogID a) (LogUploadID a) (LogNodeID a) (LogInstanceID a) (LogProfileID a) (LogProfileName a) (LogContainerName a)
    (LogContainerID a) (LogReason a) (LogState a) (LogExitCode a) (LogOOMKilled a) (LogStartedAt a) (LogFinishedAt a)
    (LogLinesRequested a) (LogLinesKept a) (LogTruncated a) (LogSizeBytes a) "" (LogCreatedAt a).

Definition archives (w : World) : gmap string ContainerLogArchive := log_archives (w_archive w).
Definition upd_logs (f : LogTables -> LogTables) (w : World) : World := set_w_archive (f (w_archive w)) w.
Definition put_archive (a : ContainerLogArchive) : World -> World :=
  upd_logs (fun l => set_log_archives (<[LogID a := a]> (log_archives l)) l).
Definition archive_rows (w : World) : list ContainerLogArchive := map snd (map_to_list (archives w)).
(** The unique index on [upload_id]. *)
Definition archive_by_upload (uploadID : string) (w : World) : option ContainerLogArchive :=
  List.find (fun a => bool_decide (LogUploadID a = uploadID)) (archive_rows w).
(** The join with [nodes]. *)
Definition view_archive (w : World) (a : ContainerLogArchive) : option ArchiveView :=
  match w_nodes w !! LogNodeID a with
  | Some n => Some (MkArchiveView (without_body a) (NodeName n) (len (LogGz a)))
  | None => None
  end.
Definition opt_int4 (z : option Z) : bool := match z with Some z => in_int4 z | None => true end.
(** The values Postgres takes for the columns of a row. *)
Definition archive_values_ok (n : NewContainerLogArchive) : option error :=
  if negb (opt_int4 (nl_ExitCode n) && opt_int4 (nl_LinesRequested n) && in_int4 (nl_LinesKept n)) then Some (PgError "22003")
  else if negb (forallb text_ok [nl_UploadID n; nl_ProfileName n; nl_ContainerName n; nl_ContainerID n; nl_Reason n; nl_State n])
  then Some (PgError "22021")
  else None.
(** [ORDER BY created_at DESC, id] *)
Definition newest_archive (a b : ContainerLogArchive) : bool :=
  if LogCreatedAt a =? LogCreatedAt b then string_le (LogID a) (LogID b) else LogCreatedAt b <? LogCreatedAt a.

Section Repository.
Context `{Env}.
Definition scanContainerLogArchive {A} (m : M (option A)) : M A :=
  r ← wrap "scan container log archive: " m;
  match r with Some a => mret a | None => throw ErrContainerLogArchiveNotFound end.
Definition findMeta (id : string) : M ArchiveView :=
  scanContainerLogArchive (query (fun w => archives w !! id ≫= view_archive w)).
(** The first statement of [Create]: [None] when the upload is stored. *)
Definition insert_archive (n : NewContainerLogArchive) : M (option string) :=
  sql (fun w =>
    match archive_values_ok n with
    | Some e => inl e
    | None =>
        if bool_decide (is_Some (archive_by_upload (nl_UploadID n) w)) then inr (None, w)
        else
          let a := archive_row (gen_random_uuid (w_calls w)) (w_clock w) n in
          if bool_decide (is_Some (archives w !! LogID a)) then inl (PgError "23505")
          else if node_ref_ok (Some (nl_NodeID n)) w then inr (Some (LogID a), put_archive a w)
          else inl (PgError "23503")
    end).
Definition Create_archive (n : NewContainerLogArchive) : M ArchiveView :=
  id ← wrap "create container log archive: " (insert_archive n);
  match id with
  | Some id => findMeta id
  | None => scanContainerLogArchive (query (fun w => archive_by_upload (nl_UploadID n) w ≫= view_archive w))
  end.
Definition List_archives (limit : Z) : M (list ArchiveView) :=
  wrap "list container log archives: " (sql (fun w =>
    if limit <? 0 then inl (PgError "2201W")
    else inr (take (Z.to_nat limit) (omap (view_archive w) (sort_by newest_archive (archive_rows w))), w))).
Definition FindByID_archive (id : string) : M (ArchiveView * string) :=
  scanContainerLogArchive (query (fun w => a ← archives w !! id; v ← view_archive w a; Some (v, LogGz a))).
(** The newest row of an instance. *)
Definition latest_of (w : World) (instanceID : string) : option (string * string) :=
  match sort_by newest_archive (List.filter (fun a => bool_decide (LogInstanceID a = Some instanceID)) (archive_rows w)) with
  | a :: _ => Some (instanceID, LogID a)
  | [] => None
  end.
(** The ids are read as uuids, in either case. *)
Definition LatestByInstanceIDs (instanceIDs : list string) : M (gmap string string) :=
  if bool_decide (instanceIDs = []) then mret ∅
  else wrap "latest container log archives by instance: " (query (fun w =>
    list_to_map (omap (latest_of w) (map to_lower instanceIDs)))).
Definition DeleteOlderThan_archives (cutoff : Time) : M Z :=
  wrap "delete expired container log archives: " (sql (fun w =>
    let old := List.filter (fun a => LogCreatedAt a <? cutoff) (archive_rows w) in
    inr (Z.of_nat (length old),
      upd_logs (fun l => set_log_archives (filter (fun ka : string * ContainerLogArchive => ¬ (LogCreatedAt ka.2 < cutoff)) (log_archives l)) l) w))).

Definition Get_log_settings : M ContainerLogSettings :=
  wrap "get container log settings: " (query (fun w => log_settings (w_archive w))).
Definition Update_log_settings (retentionMonths : Z) (updatedBy : option string) : M unit :=
  wrap "update container log settings: " (sql (fun w =>
    if negb ((0 <? retentionMonths) && (retentionMonths <=? 24)) then inl (PgError "23514")
    else if negb (user_ref_ok updatedBy w) then inl (PgError "23503")
    else inr (tt, upd_logs (set_log_settings (MkLogSettings retentionMonths updatedBy (w_clock w))) w))).
End Repository.

(** ** Facts *)
Lemma archive_by_upload_some u w a : archive_by_upload u w = Some a -> LogUploadID a = u /\ a ∈ archive_rows w.
Proof.
  intros [Hin Hu]%List.find_some. apply bool_decide_eq_true in Hu. split; [done|by apply list_elem_of_In].
Qed.
Lemma elem_of_archive_rows w a : a ∈ archive_rows w <-> exists k, archives w !! k = Some a.
Proof.
  unfold archive_rows. rewrite list_elem_of_fmap. split.
  - intros ([k b] & -> & Hin). exists k. by apply elem_of_map_to_list in Hin.
  - intros [k Hk]. exists (k, a). split; [done|]. by apply elem_of_map_to_list.
Qed.
Lemma archive_by_upload_none u w : archive_by_upload u w = None -> forall k a, archives w !! k = Some a -> LogUploadID a <> u.
Proof.
  intros Hn k a Hk E. unfold archive_by_upload in Hn. eapply List.find_none in Hn; [|apply list_elem_of_In, elem_of_archive_rows; by exists k].
  by apply bool_decide_eq_false in Hn.
Qed.

Section Wp.
Context `{Env}.
Lemma wp_scan_archive {A} (f : World -> option A) w (Q : result A -> World -> Prop) :
  (forall e, Q (Err e) (bump w)) -> (forall a, f (bump w) = Some a -> Q (Ok a) (bump w)) ->
  wp (scanContainerLogArchive (query f)) w Q.
Proof.
  intros He Hok. unfold scanContainerLogArchive. apply wp_bind, wp_wrap, wp_query; [intros; apply He|intros _].
  destruct (f (bump w)) as [a|] eqn:E; [by apply wp_ret, Hok|apply wp_throw, He].
Qed.
(** What storing an upload does: its row is new, or the upload was stored
    before and nothing changes. *)
Lemma wp_Create_archive n w (Q : result ArchiveView -> World -> Prop) :
  (forall e w', w_archive w' = w_archive w -> w_sent w' = w_sent w -> w_logs w' = w_logs w -> Q (Err e) w') ->
  (forall a e w', archive_by_upload (nl_UploadID n) w = None -> archives w !! LogID a = None ->
     a = archive_row (LogID a) (w_clock (bump w)) n -> w' = bump (put_archive a (bump w)) ->
     Q (Err e) w' /\ forall v, view_archive w a = Some v -> Q (Ok v) w') ->
  (forall a v w', archive_by_upload (nl_UploadID n) w = Some a -> view_archive w a = Some v ->
     w' = bump (bump w) -> Q (Ok v) w') ->
  wp (Create_archive n) w Q.
Proof.
  intros He Hnew Hold. unfold Create_archive. apply wp_bind, wp_wrap. unfold insert_archive.
  apply wp_sql; [intros; by apply He|intros _]. destruct (archive_values_ok n); [by apply He|].
  change (archive_by_upload (nl_UploadID n) (bump w)) with (archive_by_upload (nl_UploadID n) w).
  case_bool_decide as Hb.
  - apply wp_scan_archive; [intros; by apply He|]. intros v. destruct Hb as [a Ha].
    change (archive_by_upload (nl_UploadID n) (bump (bump w))) with (archive_by_upload (nl_UploadID n) w). rewrite Ha. cbn.
    intros Hv. by apply (Hold a v).
  - cbv zeta. set (a := archive_row _ _ n). change (archives (bump w)) with (archives w). case_bool_decide as Hk; [by apply He|].
    destruct (node_ref_ok _ _); [|by apply He].
    assert (Hn := Hnew a). unfold findMeta. apply wp_scan_archive.
    + intros e. apply (Hn e); try done; by apply eq_None_not_Some.
    + intros v Hv. destruct (Hn (Opaque "") _ (proj2 (eq_None_not_Some _) Hb) (proj2 (eq_None_not_Some _) Hk) eq_refl eq_refl) as [_ Hok].
      apply Hok. unfold archives in Hv. cbn in Hv. by rewrite lookup_insert_eq in Hv.
Qed.
End Wp.
