(* ===== verification/ContainerLogs.v ===== *)
(** * Container logs ([internal/containerlogs])

    The reassembly of the logs agents upload in chunks, their verification and
    storage, the confirmation that lets an agent remove its container, live
    requests, and retention.

    A handler runs under the service's mutex and may start a goroutine, which
    it returns here as a [Task]; [run_task] is what the goroutine does.  The
    gzip library is a parameter: what opening and reading a stream gives. *)
From stdpp Require Import base list strings gmap.
From Stdlib Require Import ZArith Lia.
From Stdlib Require Import Ascii.
From Stdlib Require String.
From S2P Require Import Prelude Text Json Db Rbac GoTime InstanceStore ProfileStore Wire NodeStore NodeToken TransferStore EngineStore ContainerLogStore.
Local Open Scope string_scope.
Local Open Scope list_scope.
Local Open Scope Z_scope.

Definition MaxCompressedBytes : Z := Z.shiftl 16 20.
Definition MaxUncompressedBytes : Z := Z.shiftl 64 20.
Definition maxUploadsPerNode : Z := 4.
Definition uploadIdleTimeout : Z := 2 * 60 * 1000000000.
Definition ContainerLogChunkSize : Z := Z.shiftl 16 10.
Definition ErrLogNotFound : error := Sentinel "containerlogs.ErrNotFound" "container log not found".
Definition ErrNodeNotConnected : error := Sentinel "containerlogs.ErrNodeOffline" "the node this instance runs on is not connected".
Definition ErrBusy : error := Sentinel "containerlogs.ErrBusy" "too many log requests are in progress; try again in a moment".
Definition ErrAgentSilent : error := Sentinel "containerlogs.ErrAgentSilent" "the node did not answer in time".
Definition AgentError (message : string) : error := Sentinel "containerlogs.AgentError" message.

(** The patterns [[A-Za-z0-9_-]{8,64}] and [[a-z_]{1,32}]. *)
Definition validUploadID (s : string) : bool :=
  (8 <=? len s) && (len s <=? 64) && all_chars (fun c => is_alnum c || is_char 95 c || is_char 45 c) s.
Definition validReason (s : string) : bool :=
  (1 <=? len s) && (len s <=? 32) && all_chars (fun c => is_lower c || is_char 95 c) s.
(** [clip]: the bytes kept are cut back until they are UTF-8. *)
Fixpoint clip_valid (n : nat) (l : list ascii) : string :=
  match n with
  | O => ""
  | S k => if valid_utf8 (of_bytes (take n l)) then of_bytes (take n l) else clip_valid k l
  end.
Definition clip (s : string) (n : nat) : string :=
  if Nat.leb (String.length s) n then s else clip_valid n (bytes s).
Definition sha256_hex (s : string) : string := of_bytes (hex_encode (SHA256.Sum256 (byte_codes s))).

(** [compress/gzip]: an error of [NewReader], or what reading gives before it
    ends with [io.EOF] or an error; and what writing gives. *)
Class Gzip := {
  gzip_open : string -> option error;
  gzip_stream : string -> string * option error;
  gzipBytes : string -> result string
}.
Class GzipLaws `{Gzip} : Prop := gzip_back : forall s gz, gzipBytes s = Ok gz -> gzip_open gz = None /\ gzip_stream gz = (s, None).

Section Read.
Context `{Gzip}.
Definition gunzip (gz : string) (limit : Z) : result string :=
  match gzip_open gz with
  | Some e => Err (Errorf "open gzip: " e "")
  | None =>
      let '(raw, e) := gzip_stream gz in
      if limit <? len raw then Err (Opaque ("log expands past " +:+ itoa limit +:+ " bytes"))
      else match e with Some e => Err (Errorf "read gzip: " e "") | None => Ok raw end
  end.
Definition uncompressedSize (gz : string) (limit : Z) : result Z :=
  match gunzip gz limit with Ok raw => Ok (len raw) | Err e => Err e end.
End Read.

(** ** Chunks *)
Inductive Task :=
| TaskAck (nodeID uploadID reason : string)
| TaskFinish (u : upload) (totalBytes : Z) (sha : string)
| TaskFinishLive (u : upload) (totalBytes : Z) (sha : string).
Definition upload_key (nodeID uploadID : string) : string := nodeID +:+ "/" +:+ uploadID.
Definition uploads (w : World) : gmap string upload := log_uploads (w_archive w).
Definition live (w : World) : gmap string liveFetch := log_live (w_archive w).
Definition upd_uploads (f : gmap string upload -> gmap string upload) : World -> World :=
  upd_logs (fun l => set_log_uploads (f (log_uploads l)) l).
Definition upd_live (f : gmap string liveFetch -> gmap string liveFetch) : World -> World :=
  upd_logs (fun l => set_log_live (f (log_live l)) l).
Definition countForNodeLocked (nodeID : string) (ups : gmap string upload) : Z :=
  Z.of_nat (size (filter (fun ku : string * upload => up_nodeID ku.2 = nodeID) ups)).
Definition sweepLocked (now : Time) (ups : gmap string upload) : gmap string upload :=
  filter (fun ku : string * upload => ¬ (up_lastSeen ku.2 < now - uploadIdleTimeout)) ups.
(** The switch over the chunk's number: the upload it goes to, or why not. *)
Definition open_upload (nodeID : string) (chunk : ContainerLogChunk) (ups : gmap string upload) : string + upload :=
  let u := ups !! upload_key nodeID (ch_UploadID chunk) in
  if ch_Seq chunk =? 0 then
    match u with
    | Some _ => inl "upload restarted"
    | None =>
        match ch_Meta chunk with
        | None => inl "first chunk has no description"
        | Some meta =>
            if maxUploadsPerNode <=? countForNodeLocked nodeID ups then inl "too many uploads in progress"
            else inr (MkUpload nodeID (ch_UploadID chunk) (ch_FetchID chunk) meta 0 "" 0)
        end
    end
  else match u with
  | None => inl "unknown upload"
  | Some u => if negb (ch_Seq chunk =? up_next u) then inl "chunk out of order" else inr u
  end.
Definition accept (nodeID : string) (chunk : ContainerLogChunk) (ups : gmap string upload) : string + upload :=
  match open_upload nodeID chunk ups with
  | inl reject => inl reject
  | inr u =>
      if MaxCompressedBytes <? len (up_buf u) + len (ch_Data chunk) then inl "log too large"
      else if ContainerLogChunkSize <? len (ch_Data chunk) then inl "chunk too large"
      else inr u
  end.
Definition grown (chunk : ContainerLogChunk) (now : Time) (u : upload) : upload :=
  MkUpload (up_nodeID u) (up_uploadID u) (up_fetchID u) (up_meta u) (up_next u + 1) (up_buf u +:+ ch_Data chunk) now.

Section Chunks.
Context `{Env}.
Definition deliver_live (fetchID nodeID : string) (res : liveResult) (l : gmap string liveFetch) : gmap string liveFetch :=
  match l !! fetchID with
  | Some f =>
      if bool_decide (lf_nodeID f = nodeID) && bool_decide (lf_ch f = None)
      then <[fetchID := MkLiveFetch (lf_nodeID f) (Some res)]> l else l
  | None => l
  end.
Definition deliverLive (fetchID nodeID : string) (res : liveResult) : M unit :=
  modify (upd_live (deliver_live fetchID nodeID res)).
Definition live_error (message : string) : liveResult := MkLiveResult None "" (Some (AgentError message)).
(** A chunk that answers a live request comes from the node that was asked,
    while the request waits. *)
Definition awaited (nodeID : string) (chunk : ContainerLogChunk) (w : World) : bool :=
  match live w !! ch_FetchID chunk with
  | Some f => bool_decide (lf_nodeID f = nodeID) && bool_decide (ch_UploadID chunk = ch_FetchID chunk)
  | None => false
  end.
Definition receive (nodeID : string) (chunk : ContainerLogChunk) : M (option Task) :=
  ups ← gets uploads;
  let key := upload_key nodeID (ch_UploadID chunk) in
  match accept nodeID chunk ups with
  | inl reject =>
      modify (upd_uploads (delete key));;
      logf "containerlogs: rejecting upload %s from node %s: %s";;
      if bool_decide (ch_FetchID chunk = "") then mret (Some (TaskAck nodeID (ch_UploadID chunk) reject))
      else deliverLive (ch_FetchID chunk) nodeID (live_error ("the node's reply was not valid: " +:+ reject));; mret None
  | inr u =>
      now ← time_now;
      let u := grown chunk now u in
      if negb (ch_Final chunk) then modify (upd_uploads (insert key u));; mret None
      else
        modify (upd_uploads (delete key));;
        mret (Some (if bool_decide (up_fetchID u = "") then TaskFinish u (ch_TotalBytes chunk) (ch_SHA256 chunk)
                    else TaskFinishLive u (ch_TotalBytes chunk) (ch_SHA256 chunk)))
  end.
Definition HandleChunk (nodeID : string) (env : Envelope) : M (option Task) :=
  match env with
  | EContainerLogChunk (Err _) => logf "containerlogs: node %s sent a malformed container_log_chunk: %v";; mret None
  | EContainerLogChunk (Ok chunk) =>
      if negb (validUploadID (ch_UploadID chunk)) then
        logf "containerlogs: node %s sent a container_log_chunk with an invalid upload id";; mret None
      else
        now ← time_now;
        modify (upd_uploads (sweepLocked now));;
        expected ← gets (awaited nodeID chunk);
        if bool_decide (ch_FetchID chunk = "") then receive nodeID chunk
        else if negb expected then
          logf "containerlogs: ignoring a live log chunk from node %s that nobody is waiting for";; mret None
        else if negb (bool_decide (ch_Error chunk = "")) then
          deliverLive (ch_FetchID chunk) nodeID (live_error (clip (ch_Error chunk) 300));; mret None
        else receive nodeID chunk
  | _ => mret None
  end.
End Chunks.

(** ** What the goroutines do *)
Definition described (u : upload) (gz : string) (size : Z) : NewContainerLogArchive :=
  let m := up_meta u in
  MkNewArchive (up_uploadID u) (up_nodeID u) None None "" (clip (lm_ContainerName m) 128) (clip (lm_ContainerID m) 64)
    (if validReason (lm_Reason m) then lm_Reason m else "unknown") (clip (lm_State m) 32) (lm_ExitCode m) (lm_OOMKilled m)
    (lm_StartedAt m) (lm_FinishedAt m) (if 0 <? lm_LinesRequested m then Some (lm_LinesRequested m) else None)
    (Z.max (lm_LinesKept m) 0) (lm_Truncated m) size gz.
(** With the instance, and its profile when there is one. *)
Definition linked (inst : RunningInstance) (profile : option Profile) (n : NewContainerLogArchive) : NewContainerLogArchive :=
  MkNewArchive (nl_UploadID n) (nl_NodeID n) (Some (InstID inst)) (ProfID <$> profile) (default "" (ProfName <$> profile))
    (nl_ContainerName n) (nl_ContainerID n) (nl_Reason n) (nl_State n) (nl_ExitCode n) (nl_OOMKilled n) (nl_StartedAt n)
    (nl_FinishedAt n) (nl_LinesRequested n) (nl_LinesKept n) (nl_Truncated n) (nl_SizeBytes n) (nl_LogGz n).

Section Tasks.
Context `{Env} `{Gzip}.
Definition describe_upload (u : upload) (gz : string) (size : Z) : M NewContainerLogArchive :=
  let in_ := described u gz size in
  if negb (uuid_match (lm_InstanceID (up_meta u))) then mret in_
  else
    r ← attempt (FindByID_instance (to_lower (lm_InstanceID (up_meta u))));
    match r with
    | Err e =>
        when (negb (errors_Is e "db.ErrRunningInstanceNotFound")) (logf "containerlogs: look up instance %s: %v");; mret in_
    | Ok inst =>
        if negb (bool_decide (PrimaryNodeID inst = up_nodeID u)) then
          logf "containerlogs: node %s archived a log for instance %s, which belongs to another node; not linking it";; mret in_
        else
          r ← attempt (FindByID_profile (InstProfileID inst));
          match r with
          | Ok profile => mret (linked inst (Some profile) in_)
          | Err e =>
              when (negb (errors_Is e "db.ErrProfileNotFound")) (logf "containerlogs: look up profile %s: %v");;
              mret (linked inst None in_)
          end
    end.
Definition ack (nodeID uploadID : string) (stored : bool) (reason : string) : M unit :=
  r ← attempt (NewEnvelope (MContainerLogAck uploadID stored reason));
  match r with
  | Err _ => logf "containerlogs: build ack for upload %s: %v"
  | Ok env => log_on_error "containerlogs: send ack for upload %s to node %s: %v" (Send nodeID env)
  end.
(** The bytes are as many as announced, and hash to what was announced. *)
Definition verified (u : upload) (totalBytes : Z) (sha : string) : bool :=
  (len (up_buf u) =? totalBytes) && equal_fold (sha256_hex (up_buf u)) sha.
Definition finish (u : upload) (totalBytes : Z) (sha : string) : M unit :=
  let gz := up_buf u in
  if negb (verified u totalBytes sha) then
    logf "containerlogs: upload %s from node %s failed verification (%d bytes received, %d announced)";;
    ack (up_nodeID u) (up_uploadID u) false "the log arrived damaged"
  else match uncompressedSize gz MaxUncompressedBytes with
  | Err _ =>
      logf "containerlogs: upload %s from node %s is not a valid log: %v";;
      ack (up_nodeID u) (up_uploadID u) false "the log is not valid gzip or is too large"
  | Ok size =>
      in_ ← describe_upload u gz size;
      r ← attempt (Create_archive in_);
      match r with
      | Err _ =>
          logf "containerlogs: store upload %s from node %s: %v";;
          ack (up_nodeID u) (up_uploadID u) false "the central app could not store the log"
      | Ok _ => ack (up_nodeID u) (up_uploadID u) true ""
      end
  end.
Definition finishLive (u : upload) (totalBytes : Z) (sha : string) : M unit :=
  let gz := up_buf u in
  if negb (verified u totalBytes sha) then
    logf "containerlogs: live reply %s from node %s failed verification";;
    deliverLive (up_fetchID u) (up_nodeID u) (live_error "the node's reply arrived damaged")
  else match gunzip gz MaxUncompressedBytes with
  | Err _ =>
      logf "containerlogs: live reply %s from node %s is not a valid log: %v";;
      deliverLive (up_fetchID u) (up_nodeID u) (live_error "the node's reply was not valid")
  | Ok text => deliverLive (up_fetchID u) (up_nodeID u) (MkLiveResult (Some (up_meta u)) text None)
  end.
Definition run_task (t : Task) : M unit :=
  match t with
  | TaskAck nodeID uploadID reason => ack nodeID uploadID false reason
  | TaskFinish u totalBytes sha => finish u totalBytes sha
  | TaskFinishLive u totalBytes sha => finishLive u totalBytes sha
  end.

(** ** Reading *)
Definition List_logs (actor : Actor) (limit : Z) : M (list ArchiveView) :=
  guard_err (CanViewInstanceLogs actor) ErrNotPermitted;; List_archives limit.
Definition LatestForInstances (actor : Actor) (instanceIDs : list string) : M (gmap string string) :=
  guard_err (CanViewInstanceLogs actor) ErrNotPermitted;; LatestByInstanceIDs (List.filter uuid_match instanceIDs).
Definition Read (actor : Actor) (id : string) : M (ArchiveView * string) :=
  guard_err (CanViewInstanceLogs actor) ErrNotPermitted;;
  guard_err (uuid_match id) ErrLogNotFound;;
  found ← map_err (fun e => if errors_Is e "db.ErrContainerLogArchiveNotFound" then ErrLogNotFound
                            else Errorf "read container log: " e "") (FindByID_archive (to_lower id));
  text ← wrap ("read container log " +:+ id +:+ ": ") (lift (gunzip found.2 MaxUncompressedBytes));
  mret (found.1, text).
End Tasks.

(** ** Live requests ([live.go]) *)
Definition DefaultLiveLines : Z := 500.
Definition MaxLiveLines : Z := 5000.
Definition maxLiveFetches : Z := 8.
Definition maxLiveFetchesPerNode : Z := 2.
Definition clamp_lines (lines : Z) : Z :=
  let lines := if lines <=? 0 then DefaultLiveLines else lines in
  if MaxLiveLines <? lines then MaxLiveLines else lines.
Record LiveLog := MkLiveLog { ll_InstanceID : string; ll_ProfileName : string; ll_Meta : option ContainerLogMeta; ll_Text : string }.
Definition live_on (nodeID : string) (l : gmap string liveFetch) : Z :=
  Z.of_nat (size (filter (fun kf : string * liveFetch => lf_nodeID kf.2 = nodeID) l)).
Definition too_busy (nodeID : string) (l : gmap string liveFetch) : bool :=
  (maxLiveFetches <=? Z.of_nat (size l)) || (maxLiveFetchesPerNode <=? live_on nodeID l).
(** To a request that waits: the chunks that arrive during a call, with the
    goroutines they start. *)
Class LogTraffic := { log_arriving : N -> list (string * Envelope) }.

Section Live.
Context `{Env} `{Gzip} `{RandomSource} `{LogTraffic}.
Definition take_chunk (msg : string * Envelope) : M unit :=
  t ← HandleChunk msg.1 msg.2;
  match t with Some t => run_task t | None => mret tt end.
Definition newFetchID : M string :=
  raw ← wrap "read random bytes: " (query (fun w => random_bytes (w_calls w) 16)); mret (of_bytes (hex_encode raw)).
(** Up to the request being on its way: what it waits under, and the
    instance.  A request that cannot be sent waits no longer. *)
Definition live_begin (actor : Actor) (instanceID : string) (lines : Z) : M (string * RunningInstance) :=
  guard_err (CanViewInstanceLogs actor) ErrNotPermitted;;
  guard_err (uuid_match instanceID) ErrLogNotFound;;
  inst ← map_err (fun e => if errors_Is e "db.ErrRunningInstanceNotFound" then ErrLogNotFound
                           else Errorf ("look up instance " +:+ instanceID +:+ ": ") e "") (FindByID_instance (to_lower instanceID));
  connected ← Connected (PrimaryNodeID inst);
  guard_err connected ErrNodeNotConnected;;
  fetchID ← newFetchID;
  let f := MkLiveFetch (PrimaryNodeID inst) None in
  l ← gets live;
  guard_err (negb (too_busy (lf_nodeID f) l)) ErrBusy;;
  modify (upd_live (insert fetchID f));;
  r ← attempt (
    env ← wrap "build fetch_logs: " (NewEnvelope (MFetchLogs fetchID instanceID (clamp_lines lines)));
    wrap ("send fetch_logs to node " +:+ lf_nodeID f +:+ ": ") (Send (lf_nodeID f) env));
  match r with
  | Err e => modify (upd_live (delete fetchID));; throw e
  | Ok _ => mret (fetchID, inst)
  end.
(** The end of the wait: the answer that is there, the timer ([None]) or the
    end of the request itself. *)
Definition live_end (instanceID fetchID : string) (inst : RunningInstance) : M LiveLog :=
  out ← attempt (
    r ← query (fun w => live w !! fetchID ≫= lf_ch);
    match r with
    | None => throw ErrAgentSilent
    | Some res =>
        match lr_err res with
        | Some e => throw e
        | None =>
            p ← attempt (FindByID_profile (InstProfileID inst));
            mret (MkLiveLog instanceID (match p with Ok p => ProfName p | Err _ => "" end) (lr_meta res) (lr_text res))
        end
    end);
  modify (upd_live (delete fetchID));;
  lift out.
Definition Live (actor : Actor) (instanceID : string) (lines : Z) : M LiveLog :=
  waiting ← live_begin actor instanceID lines;
  n ← gets w_calls; forM_ (log_arriving n) take_chunk;;
  live_end instanceID waiting.1 waiting.2.
End Live.

(** ** Retention ([retention.go]) *)
Definition MinRetentionMonths : Z := 1.
Definition MaxRetentionMonths : Z := 24.
Definition ErrInvalidLogRetention : error := Sentinel "containerlogs.ErrInvalidRetention" "invalid retention period".
Definition settingsAuditObjectID : string := "00000000-0000-0000-0000-000000000000".
Section Retention.
Context `{Env}.
Definition Settings_logs (actor : Actor) : M ContainerLogSettings :=
  guard_err (CanViewSettings actor) ErrNotPermitted;;
  wrap "get container log settings: " Get_log_settings.
Definition UpdateRetention_logs (actor : Actor) (months : Z) : M unit :=
  guard_err (CanViewSettings actor) ErrNotPermitted;;
  guard_err (negb ((months <? MinRetentionMonths) || (MaxRetentionMonths <? months)))
    (Errorf "" ErrInvalidLogRetention (": keep logs between " +:+ itoa MinRetentionMonths +:+ " and " +:+ itoa MaxRetentionMonths +:+ " months"));;
  current ← wrap "get current container log settings: " Get_log_settings;
  wrap "update container log settings: " (Update_log_settings months (actor_id actor));;
  audited_or_reverted
    (Record_ (actor_id actor) (IsSuperAdmin actor) "updated_container_log_retention" "container_log_settings" settingsAuditObjectID
      (Some {[ "retention_months" := DInt months; "previous_retention_months" := DInt (LogRetentionMonths current) ]}))
    (Update_log_settings (LogRetentionMonths current) (LogUpdatedBy current))
    (mret tt).
(** The record of a run that deleted something. *)
Definition record_expired (n months : Z) (cutoff : Time) : M Z :=
  wrap ("record audit for " +:+ itoa n +:+ " expired container logs: ")
    (Record_ None false "expired_container_logs" "container_log_archive" settingsAuditObjectID
      (Some {[ "deleted" := DInt n; "retention_months" := DInt months; "older_than" := DStr (RFC3339 cutoff) ]}));;
  mret n.
(** [ExpireOnce], given the server's own zone: how many were deleted, or what
    failed, which may be only the record. *)
Definition ExpireOnce_logs (local : Location) : M Z :=
  cfg ← wrap "get container log settings: " Get_log_settings;
  now ← time_now;
  let cutoff := AddMonths local now (- LogRetentionMonths cfg) in
  n ← DeleteOlderThan_archives cutoff;
  if n =? 0 then mret 0 else record_expired n (LogRetentionMonths cfg) cutoff.
(** One turn of [RunRetention]. *)
Definition retention_turn (local : Location) : M unit :=
  r ← attempt (ExpireOnce_logs local);
  match r with
  | Err _ => logf "containerlogs: expire old container logs: %v"
  | Ok n => when (0 <? n) (logf "containerlogs: expired %d container logs past the retention period")
  end.
End Retention.
