(* ===== verification/AgentLogs.v ===== *)
(** * The agent's side of container logs ([agent/connection/logarchive.go])

    Capturing a log, sending it in chunks, waiting for the confirmation, and
    the paths that remove a container once its log is stored.  The host (its
    runtime, the connection, the clock and the random source) is a parameter:
    what each call to it answers. *)
From stdpp Require Import base list strings gmap.
From Stdlib Require Import ZArith Lia.
From Stdlib Require Import Ascii.
From Stdlib Require String.
From S2P Require Import Prelude Text Json Db Wire NodeToken ContainerLogs AgentStale.
Local Open Scope string_scope.
Local Open Scope list_scope.
Local Open Scope Z_scope.

Definition archiveLogLines : Z := 2000.
(** [runtime.Capture]; the unknown times are zero. *)
Record CapturedLog := MkCaptured {
  cl_Log : string; cl_LinesKept : Z; cl_Truncated : bool; cl_ContainerID : string; cl_ContainerName : string; cl_State : string;
  cl_ExitCode : option Z; cl_OOMKilled : bool; cl_StartedAt : Time; cl_FinishedAt : Time
}.
Inductive CaptureResult := CaptureOk (c : CapturedLog) | NothingToCapture | CaptureFailed (e : error).
(** [agentproto.ContainerLogAck] *)
Record Ack := MkAck { ack_UploadID : string; ack_Stored : bool; ack_Error : string }.

Definition logMeta (instanceID reason : string) (linesRequested : Z) (c : CapturedLog) : ContainerLogMeta :=
  MkLogMeta instanceID (cl_ContainerID c) (cl_ContainerName c) reason (cl_State c) (cl_ExitCode c) (cl_OOMKilled c)
    (known_time (cl_StartedAt c)) (known_time (cl_FinishedAt c)) linesRequested (cl_LinesKept c) (cl_Truncated c) (len (cl_Log c)).

(** The loop of [sendLogChunks] from an offset on: the messages it sends when
    none of the sends fails. *)
Definition chunk_size : nat := Z.to_nat ContainerLogChunkSize.
Fixpoint log_chunks (fuel : nat) (uploadID fetchID : string) (meta : ContainerLogMeta) (gz : list ascii) (seq : Z) (off : nat) :
    list ContainerLogChunk :=
  match fuel with
  | O => []
  | S f =>
      let end_ := Nat.min (off + chunk_size) (length gz) in
      let last := Nat.eqb end_ (length gz) in
      let chunk := MkLogChunk uploadID fetchID seq (of_bytes (take (end_ - off) (drop off gz)))
        (if seq =? 0 then Some meta else None) last
        (if last then Z.of_nat (length gz) else 0) (if last then sha256_hex (of_bytes gz) else "") "" in
      if last then [chunk] else chunk :: log_chunks f uploadID fetchID meta gz (seq + 1) end_
  end.
(** The fuel is the number of bytes and one. *)
Definition chunks_of (uploadID fetchID : string) (meta : ContainerLogMeta) (gz : string) : list ContainerLogChunk :=
  log_chunks (S (String.length gz)) uploadID fetchID meta (bytes gz) 0 0.

(** ** The agent *)
Inductive HostAction := HaltInstance (instanceID : string) | RemoveInstance (instanceID : string).
(** [activeInstance] of [readiness.go], and what an agent says of an instance. *)
Record activeInstance := MkActive { ai_Port : Z; ai_ModelPath : string; ai_EngineType : string }.
Inductive Report := RepResult (r : InstanceResult) | RepHealth (h : InstanceHealth).
Record AgentState := MkAgent {
  a_calls : N; a_clock : Time; a_sent : list ContainerLogChunk; a_archiving : gset string; a_waiters : gmap string (option Ack);
  a_logs : list string; a_done : list HostAction; a_active : gmap string activeInstance; a_reports : list Report
}.
Class Host := {
  host_tick : N -> N;
  host_capture : N -> string -> Z -> CaptureResult;
  host_random : N -> result (list Z);
  host_send : N -> option error;
  host_acks : N -> list Ack;
  host_gives_up : N -> bool;
  host_halt : N -> string -> option error;
  host_remove : N -> string -> option error;
  host_instances : N -> string -> result (list string)
}.
Abbreviation A := (ST AgentState).

Definition set_calls (v : N) (s : AgentState) : AgentState :=
  MkAgent v (a_clock s) (a_sent s) (a_archiving s) (a_waiters s) (a_logs s) (a_done s) (a_active s) (a_reports s).
Definition set_clock (v : Time) (s : AgentState) : AgentState :=
  MkAgent (a_calls s) v (a_sent s) (a_archiving s) (a_waiters s) (a_logs s) (a_done s) (a_active s) (a_reports s).
Definition set_sent (v : list ContainerLogChunk) (s : AgentState) : AgentState :=
  MkAgent (a_calls s) (a_clock s) v (a_archiving s) (a_waiters s) (a_logs s) (a_done s) (a_active s) (a_reports s).
Definition set_archiving (v : gset string) (s : AgentState) : AgentState :=
  MkAgent (a_calls s) (a_clock s) (a_sent s) v (a_waiters s) (a_logs s) (a_done s) (a_active s) (a_reports s).
Definition set_waiters (v : gmap string (option Ack)) (s : AgentState) : AgentState :=
  MkAgent (a_calls s) (a_clock s) (a_sent s) (a_archiving s) v (a_logs s) (a_done s) (a_active s) (a_reports s).
Definition set_alogs (v : list string) (s : AgentState) : AgentState :=
  MkAgent (a_calls s) (a_clock s) (a_sent s) (a_archiving s) (a_waiters s) v (a_done s) (a_active s) (a_reports s).
Definition set_done (v : list HostAction) (s : AgentState) : AgentState :=
  MkAgent (a_calls s) (a_clock s) (a_sent s) (a_archiving s) (a_waiters s) (a_logs s) v (a_active s) (a_reports s).
Definition set_active (v : gmap string activeInstance) (s : AgentState) : AgentState :=
  MkAgent (a_calls s) (a_clock s) (a_sent s) (a_archiving s) (a_waiters s) (a_logs s) (a_done s) v (a_reports s).
Definition set_reports (v : list Report) (s : AgentState) : AgentState :=
  MkAgent (a_calls s) (a_clock s) (a_sent s) (a_archiving s) (a_waiters s) (a_logs s) (a_done s) (a_active s) v.
(** A call to the host takes some time. *)
Definition after_call `{Host} (s : AgentState) : AgentState :=
  set_clock (a_clock s + Z.of_N (host_tick (a_calls s))) (set_calls (N.succ (a_calls s)) s).
Definition call `{Host} {X} (f : N -> X) : A X := fun s => (Ok (f (a_calls s)), after_call s).
Definition agent_log (fmt : string) : A unit := modify (fun s => set_alogs (a_logs s ++ [fmt]) s).
Definition act (a : HostAction) : A unit := modify (fun s => set_done (a_done s ++ [a]) s).

Definition deliver_ack (ack : Ack) (m : gmap string (option Ack)) : gmap string (option Ack) :=
  match m !! ack_UploadID ack with
  | Some None => <[ack_UploadID ack := Some ack]> m
  | _ => m
  end.
Definition deliverArchiveAck (ack : Ack) : A unit := modify (fun s => set_waiters (deliver_ack ack (a_waiters s)) s).

Definition isActiveInstance (instanceID : string) : A bool := gets (fun s => bool_decide (is_Some (a_active s !! instanceID))).

Section Agent.
Context `{Host} `{Gzip}.
Definition trySend (chunk : ContainerLogChunk) : A unit :=
  e ← call host_send;
  match e with Some e => throw e | None => modify (fun s => set_sent (a_sent s ++ [chunk]) s) end.
Definition sendLogChunks (uploadID fetchID : string) (meta : ContainerLogMeta) (gz : string) : A unit :=
  forM_ (chunks_of uploadID fetchID meta gz) trySend.
Definition newUploadID : A string :=
  r ← call host_random;
  match r with Ok b => mret (of_bytes (hex_encode b)) | Err e => throw (Errorf "read random bytes: " e "") end.
(** The [select] on the confirmation, the timer and the context; the
    confirmations that arrive meanwhile are delivered. *)
Definition await_ack (uploadID : string) : A archiveOutcome :=
  acks ← call host_acks;
  forM_ acks deliverArchiveAck;;
  gave_up ← call host_gives_up;
  ch ← gets (fun s => a_waiters s !! uploadID);
  match ch with
  | Some (Some ack) =>
      if gave_up : bool then mret ArchiveFailed
      else if negb (ack_Stored ack) then
        agent_log "agent connection: central app did not store the log for instance %s: %s";; mret ArchiveFailed
      else mret ArchiveStored
  | _ => agent_log "agent connection: no confirmation that the log for instance %s was stored within %s";; mret ArchiveFailed
  end.
(** From the upload's registration on. *)
Definition upload_and_wait (uploadID : string) (meta : ContainerLogMeta) (gz : string) : A archiveOutcome :=
  modify (fun s => set_waiters (<[uploadID := None]> (a_waiters s)) s);;
  r ← attempt (sendLogChunks uploadID "" meta gz);
  out ← match r with
        | Err _ => agent_log "agent connection: upload log for instance %s: %v";; mret ArchiveFailed
        | Ok _ => await_ack uploadID
        end;
  modify (fun s => set_waiters (delete uploadID (a_waiters s)) s);;
  mret out.
Definition capture_and_upload (instanceID reason : string) (lines : Z) : A archiveOutcome :=
  captured ← call (fun n => host_capture n instanceID lines);
  match captured with
  | NothingToCapture => mret ArchiveNothing
  | CaptureFailed _ => agent_log "agent connection: capture log for instance %s: %v";; mret ArchiveFailed
  | CaptureOk c =>
      match gzipBytes (cl_Log c) with
      | Err _ => agent_log "agent connection: compress log for instance %s: %v";; mret ArchiveFailed
      | Ok gz =>
          r ← attempt newUploadID;
          match r with
          | Err _ => agent_log "agent connection: archive upload id for instance %s: %v";; mret ArchiveFailed
          | Ok uploadID => upload_and_wait uploadID (logMeta instanceID reason lines c) gz
          end
      end
  end.
(** [beginArchive] to [endArchive]. *)
Definition archiveInstanceLines (instanceID reason : string) (lines : Z) : A archiveOutcome :=
  busy ← gets (fun s => bool_decide (instanceID ∈ a_archiving s));
  if busy : bool then mret ArchiveBusy
  else
    modify (fun s => set_archiving ({[instanceID]} ∪ a_archiving s) s);;
    out ← capture_and_upload instanceID reason lines;
    modify (fun s => set_archiving (a_archiving s ∖ {[instanceID]}) s);;
    mret out.
Definition archiveInstance (instanceID reason : string) : A archiveOutcome :=
  archiveInstanceLines instanceID reason archiveLogLines.
Definition archiveAndRemove (instanceID reason : string) : A unit :=
  out ← archiveInstance instanceID reason;
  match out with
  | ArchiveStored | ArchiveNothing =>
      e ← call (fun n => host_remove n instanceID);
      act (RemoveInstance instanceID);;
      when (bool_decide (is_Some e)) (agent_log "agent connection: remove instance %s: %v")
  | ArchiveBusy => mret tt
  | ArchiveFailed => agent_log "agent connection: keeping the stopped container for instance %s because its log was not archived"
  end.
Definition halt (instanceID : string) : A (option error) :=
  e ← call (fun n => host_halt n instanceID); act (HaltInstance instanceID);; mret e.
Definition cleanUpFailedLaunch (instanceID : string) : A unit :=
  e ← halt instanceID;
  match e with
  | Some _ => agent_log "agent connection: stop failed launch %s: %v"
  | None => archiveAndRemove instanceID "failed_launch"
  end.
Definition replaceStaleContainers (profileID currentInstanceID : string) : A unit :=
  if bool_decide (profileID = "") then mret tt
  else
    r ← call (fun n => host_instances n profileID);
    match r with
    | Err _ => agent_log "agent connection: look for stale containers of profile %s: %v"
    | Ok ids => forM_ ids (fun id =>
        active ← (if bool_decide (id = currentInstanceID) then mret true else isActiveInstance id);
        if active : bool then mret tt
        else
          e ← halt id;
          match e with
          | Some _ => agent_log "agent connection: stop stale instance %s of profile %s: %v"
          | None => archiveAndRemove id "replaced"
          end)
    end.

(** ** Live requests *)
Definition defaultLiveLogLines : Z := 500.
Definition maxLiveLogLines : Z := 5000.
Definition live_lines (lines : Z) : Z :=
  let lines := if lines <=? 0 then defaultLiveLogLines else lines in
  if maxLiveLogLines <? lines then maxLiveLogLines else lines.
Definition error_chunk (fetchID message : string) : ContainerLogChunk := MkLogChunk fetchID fetchID 0 "" None true 0 "" message.
Definition reply (fetchID message : string) : A unit :=
  r ← attempt (trySend (error_chunk fetchID message));
  match r with Ok _ => mret tt | Err _ => agent_log "agent connection: answer fetch_logs %s: %v" end.
Definition runFetchLogs (fetchID instanceID : string) (lines : Z) : A unit :=
  let lines := live_lines lines in
  captured ← call (fun n => host_capture n instanceID lines);
  match captured with
  | NothingToCapture => reply fetchID "this instance has no container or process on the node any more"
  | CaptureFailed _ =>
      agent_log "agent connection: fetch logs for instance %s: %v";; reply fetchID "the log could not be read from the node"
  | CaptureOk c =>
      match gzipBytes (cl_Log c) with
      | Err _ =>
          agent_log "agent connection: compress live log for instance %s: %v";; reply fetchID "the log could not be prepared"
      | Ok gz =>
          r ← attempt (sendLogChunks fetchID fetchID (logMeta instanceID "live" lines c) gz);
          match r with Ok _ => mret tt | Err _ => agent_log "agent connection: send live log for instance %s: %v" end
      end
  end.
End Agent.

(** ** No container is removed without a stored log *)
Section Safety.
Context `{Host} `{Gzip}.
(** The log of the instance was captured and sent whole, and the server
    confirmed it stored it. *)
Definition archived (id : string) (sent : list ContainerLogChunk) : Prop :=
  exists n lines reason c gz up m ack, host_capture n id lines = CaptureOk c /\ gzipBytes (cl_Log c) = Ok gz /\
    chunks_of up "" (logMeta id reason lines c) gz `sublist_of` sent /\
    ack ∈ host_acks m /\ ack_UploadID ack = up /\ ack_Stored ack = true.
Definition nothing_left (id : string) : Prop := exists n lines, host_capture n id lines = NothingToCapture.
Definition justified (sent : list ContainerLogChunk) (a : HostAction) : Prop :=
  match a with RemoveInstance id => archived id sent \/ nothing_left id | HaltInstance _ => True end.
Definition careful (s s' : AgentState) : Prop :=
  a_sent s `prefix_of` a_sent s' /\
  exists acts, a_done s' = a_done s ++ acts /\ Forall (justified (a_sent s')) acts.
Lemma archived_more id l l' : l `prefix_of` l' -> archived id l -> archived id l'.
Proof.
  intros [k ->] (n & lines & reason & c & gz & up & m & ack & H1 & H2 & H3 & H4). exists n, lines, reason, c, gz, up, m, ack.
  split_and!; try done; [|by apply H4..]. by apply sublist_inserts_r.
Qed.
Lemma justified_more l l' a : l `prefix_of` l' -> justified l a -> justified l' a.
Proof. intros Hl. destruct a; [done|]. intros [Ha|Hn]; [left; by eapply archived_more|by right]. Qed.
#[local] Instance careful_preorder : PreOrder careful.
Proof.
  split; [intros s; split; [done|]; exists []; by rewrite app_nil_r|].
  intros s1 s2 s3 [Hp1 (k1 & E1 & F1)] [Hp2 (k2 & E2 & F2)]. split; [by etransitivity|]. exists (k1 ++ k2).
  split; [by rewrite E2, E1, app_assoc|]. apply Forall_app. split; [|done].
  eapply Forall_impl; [exact F1|]. intros a. by apply justified_more.
Qed.
Lemma careful_sent s s' : a_done s' = a_done s -> a_sent s `prefix_of` a_sent s' -> careful s s'.
Proof. intros Hd Hs. split; [done|]. exists []. by rewrite app_nil_r. Qed.

Lemma wp_call {X} (f : N -> X) s (Q : result X -> AgentState -> Prop) :
  Q (Ok (f (a_calls s))) (after_call s) -> wp (call f) s Q.
Proof. done. Qed.
(** Calls, log lines and the waiters do not matter to it. *)
Definition traces (s : AgentState) := (a_sent s, a_done s).
Lemma careful_same s s' : traces s' = traces s -> careful s s'.
Proof. intros [= Es Ed]. apply careful_sent; [done|]. by rewrite Es. Qed.
#[local] Instance call_traces {X} (f : N -> X) : Preserves traces (call f).
Proof. by intros s. Qed.
#[local] Instance agent_log_traces fmt : Preserves traces (agent_log fmt).
Proof. by intros s. Qed.
#[local] Instance deliverArchiveAck_traces ack : Preserves traces (deliverArchiveAck ack).
Proof. by intros s. Qed.
#[local] Hint Extern 5 (Evolves careful _) => (eapply evolves_preserves; [apply careful_same | apply _]) : typeclass_instances.
#[local] Instance await_ack_traces up : Preserves traces (await_ack up).
Proof. unfold await_ack. apply _. Qed.
#[local] Instance newUploadID_traces : Preserves traces newUploadID.
Proof. unfold newUploadID. apply _. Qed.

(** Sending stops at the first failure; else everything was sent, in order. *)
Lemma send_all l s : wp (forM_ l trySend) s (fun r s' => a_done s' = a_done s /\ a_waiters s' = a_waiters s /\
  a_sent s `prefix_of` a_sent s' /\ (r = Ok tt -> a_sent s' = a_sent s ++ l)).
Proof.
  revert s. induction l as [|c l IH]; intros s; [apply wp_ret; split_and!; try done; intros _; by rewrite app_nil_r|].
  apply wp_bind. unfold trySend at 1. apply wp_bind, wp_call.
  destruct (host_send (a_calls s)) as [e|]; [apply wp_throw; by split_and!|]. apply wp_modify.
  eapply wp_mono; [apply IH|]. intros r s' (Hd & Hwt & Hp & Hok). cbn in *. split_and!; try done.
  - etransitivity; [|exact Hp]. by apply prefix_app_r.
  - intros Hr. rewrite (Hok Hr). by rewrite <-app_assoc.
Qed.
Lemma delivered_stays (acks : list Ack) s up a : a_waiters s !! up = Some (Some a) ->
  wp (forM_ acks deliverArchiveAck) s (fun r s' => r = Ok tt /\ traces s' = traces s /\ a_waiters s' !! up = Some (Some a)).
Proof.
  revert s. induction acks as [|b acks IH]; intros s Hs; [by apply wp_ret|]. apply wp_bind, wp_modify.
  refine (IH (set_waiters (deliver_ack b (a_waiters s)) s) _). cbn. unfold deliver_ack.
  destruct (a_waiters s !! ack_UploadID b) as [[?|]|] eqn:Eb; [done| |done].
  rewrite lookup_insert_ne; [done|]. intros E. rewrite E in Eb. congruence.
Qed.
Lemma deliver_acks_in (acks : list Ack) s up : a_waiters s !! up = Some None ->
  wp (forM_ acks deliverArchiveAck) s (fun r s' => r = Ok tt /\ traces s' = traces s /\
    forall ack, a_waiters s' !! up = Some (Some ack) -> ack ∈ acks /\ ack_UploadID ack = up).
Proof.
  revert s. induction acks as [|a acks IH]; intros s Hn; [apply wp_ret; split_and!; [done|done|]; by rewrite Hn|].
  apply wp_bind, wp_modify. set (s1 := set_waiters _ s). destruct (decide (ack_UploadID a = up)) as [Ea|Ea].
  - assert (Hs1 : a_waiters s1 !! up = Some (Some a)) by (cbn; unfold deliver_ack; by rewrite Ea, Hn, lookup_insert_eq).
    eapply wp_mono; [by apply (delivered_stays acks s1 up a)|]. intros r s' (-> & Ht & Hk). split_and!; [done|done|].
    intros ack. rewrite Hk. intros [= <-]. split; [by left|done].
  - eapply wp_mono; [apply (IH s1)|].
    + cbn. unfold deliver_ack. destruct (a_waiters s !! ack_UploadID a) as [[?|]|]; [done| |done]. by rewrite lookup_insert_ne.
    + intros r s' (-> & Ht & Hk). split_and!; [done|done|]. intros ack Hs. destruct (Hk ack Hs). split; [by right|done].
Qed.
(** An upload that ends as stored was sent whole and confirmed. *)
Lemma await_stored up s : a_waiters s !! up = Some None -> wp (await_ack up) s (fun r s' => exists out, r = Ok out /\ traces s' = traces s /\
  out <> ArchiveNothing /\ (out = ArchiveStored -> exists m ack, ack ∈ host_acks m /\ ack_UploadID ack = up /\ ack_Stored ack = true)).
Proof.
  intros Hn. unfold await_ack. apply wp_bind, wp_call. set (s1 := after_call s).
  apply wp_bind. eapply wp_mono; [by apply (deliver_acks_in (host_acks (a_calls s)))|]. intros r s2 (-> & Ht & Hack).
  apply wp_bind, wp_call, wp_bind, wp_gets. cbn [a_waiters after_call set_calls set_clock].
  destruct (a_waiters s2 !! up) as [[ack|]|] eqn:Ea; [|by apply wp_bind, wp_modify, wp_ret; eexists..].
  destruct (host_gives_up _); [by apply wp_ret; eexists|].
  destruct (ack_Stored ack) eqn:Es; cbn [negb]; [|by apply wp_bind, wp_modify, wp_ret; eexists].
  apply wp_ret. eexists. split_and!; [done|done|done|]. intros _. exists (a_calls s), ack. destruct (Hack ack eq_refl). by split_and!.
Qed.
Lemma upload_outcome up meta gz s : wp (upload_and_wait up meta gz) s (fun r s' => exists out, r = Ok out /\
  a_done s' = a_done s /\ a_sent s `prefix_of` a_sent s' /\ out <> ArchiveNothing /\
  (out = ArchiveStored -> chunks_of up "" meta gz `sublist_of` a_sent s' /\
     exists m ack, ack ∈ host_acks m /\ ack_UploadID ack = up /\ ack_Stored ack = true)).
Proof.
  unfold upload_and_wait, sendLogChunks. generalize (chunks_of up "" meta gz). intros chunks.
  apply wp_bind, wp_modify, wp_bind, wp_attempt. set (s1 := set_waiters _ s).
  eapply wp_mono; [apply send_all|]. intros r s2 (Hd & Hw & Hp & Hok). cbn in Hd, Hp. apply wp_bind.
  destruct r as [[]|e]; [|apply wp_bind, wp_modify, wp_ret, wp_bind, wp_modify, wp_ret; by eexists].
  eapply wp_mono; [apply await_stored|].
  - rewrite Hw. cbn. apply lookup_insert_eq.
  - intros r s3 (out & -> & Ht & Hno & Hst). injection Ht as Es Ed. apply wp_bind, wp_modify, wp_ret. exists out. cbn.
    rewrite Es, Ed. split_and!; try done. intros Ho. split; [|by apply Hst]. rewrite (Hok eq_refl). by apply sublist_inserts_l.
Qed.
Lemma archive_outcome id reason lines s : wp (archiveInstanceLines id reason lines) s (fun r s' =>
  exists out, r = Ok out /\ a_done s' = a_done s /\ a_sent s `prefix_of` a_sent s' /\
    (out = ArchiveStored -> archived id (a_sent s')) /\ (out = ArchiveNothing -> nothing_left id)).
Proof.
  unfold archiveInstanceLines. apply wp_bind, wp_gets. case_bool_decide; [by apply wp_ret; eexists|].
  apply wp_bind, wp_modify, wp_bind. unfold capture_and_upload. set (s1 := set_archiving _ s). apply wp_bind, wp_call.
  destruct (host_capture (a_calls s1) id lines) as [c| |e] eqn:Ec.
  2: { apply wp_ret, wp_bind, wp_modify, wp_ret. eexists. split_and!; try done. intros _. by eexists _, _. }
  2: { apply wp_bind, wp_modify, wp_ret, wp_bind, wp_modify, wp_ret. by eexists. }
  destruct (gzipBytes (cl_Log c)) as [gz|e] eqn:Eg; [|apply wp_bind, wp_modify, wp_ret, wp_bind, wp_modify, wp_ret; by eexists].
  set (s2 := after_call s1). apply wp_bind, wp_attempt.
  apply (wp_mono _ _ _ _ (wp_preserves traces newUploadID s2)). intros [up|e] s3 Ht3; injection Ht3 as Es3 Ed3.
  2: { apply wp_bind, wp_modify, wp_ret, wp_bind, wp_modify, wp_ret. eexists. cbn. rewrite Es3. by split_and!. }
  eapply wp_mono; [by apply (upload_outcome up)|]. intros r s4 (out & -> & Hd & Hp & Hno & Hst). apply wp_bind, wp_modify, wp_ret.
  exists out. rewrite Es3 in Hp. split_and!; [done|by cbn; rewrite Hd, Ed3|done| |done].
  intros Ho. destruct (Hst Ho) as (Hsub & m & ack & Hin & Hup & Hs). by exists (a_calls s1), lines, reason, c, gz, up, m, ack.
Qed.
#[local] Instance archiveAndRemove_careful id reason : Evolves careful (archiveAndRemove id reason).
Proof.
  intros s. change (wp (archiveAndRemove id reason) s (fun _ s' => careful s s')). unfold archiveAndRemove, archiveInstance.
  apply wp_bind. eapply wp_mono; [apply archive_outcome|]. intros r s1 (out & -> & Hd & Hp & Hst & Hno).
  assert (Hs : careful s s1) by by apply careful_sent.
  assert (Hrem : out = ArchiveStored \/ out = ArchiveNothing -> wp (e ← call (fun n => host_remove n id);
      act (RemoveInstance id);; when (bool_decide (is_Some e)) (agent_log "agent connection: remove instance %s: %v")) s1
      (fun _ s' => careful s s')).
  { intros Hout. apply wp_bind, wp_call, wp_bind, wp_modify.
    set (s2 := set_done _ _). assert (Hs2 : careful s s2).
    { split; [exact Hp|]. exists [RemoveInstance id]. split; [cbn; by rewrite Hd|]. constructor; [|done]. cbn.
      destruct Hout as [->| ->]; [left|right]; auto. }
    apply wp_when; intros _; [|done]. apply wp_modify. etransitivity; [exact Hs2|]. by apply careful_same. }
  destruct out; [apply Hrem; by left|apply Hrem; by right| |exact Hs]. apply wp_modify. etransitivity; [exact Hs|]. by apply careful_same.
Qed.
#[local] Instance halt_careful id : Evolves careful (halt id).
Proof.
  unfold halt. apply evolves_bind; [apply _..|]. intros e. apply evolves_bind; [apply _| |intros _; apply _].
  intros s. split; [done|]. exists [HaltInstance id]. split; [done|]. by constructor.
Qed.
Inductive cleanup :=
| CleanStopped (instanceID reason : string)
| CleanFailed (instanceID : string)
| CleanStale (profileID currentInstanceID : string).
Definition clean (c : cleanup) : A unit :=
  match c with
  | CleanStopped id reason => archiveAndRemove id reason
  | CleanFailed id => cleanUpFailedLaunch id
  | CleanStale profile current => replaceStaleContainers profile current
  end.
(** C18: whatever an agent cleans up, a stopped instance, a failed launch or a
    profile's old containers, and whatever the host, the connection and the
    server answer: it removes an instance's container only after it sent that
    instance's captured log whole and the server confirmed that very upload
    stored, or when the host had nothing of it left to capture. *)
Theorem removals_follow_archives c s : careful s (snd (clean c s)).
Proof.
  revert s. change (Evolves careful (clean c)). destruct c as [id reason|id|profile current]; cbn [clean]; [apply _| |].
  - unfold cleanUpFailedLaunch. apply _.
  - unfold replaceStaleContainers. case_bool_decide; [apply _|]. apply evolves_bind; [apply _..|]. intros [ids|e]; [|apply _].
    induction ids as [|i ids IH]; cbn [forM_]; [apply _|]. apply evolves_bind; [apply _| |intros _; exact IH].
    apply evolves_bind; [apply _|case_bool_decide; apply _|]. intros []; [apply _|]. apply _.
Qed.
End Safety.
