(* ===== verification/ContainerLogsSpec.v ===== *)
(** * What container logs promise

    A log an agent sends in chunks arrives whole whatever else arrives, only
    bounded uploads are held, and an agent is told its log is stored, and
    removes the container, only when it is. *)
From stdpp Require Import base list strings gmap relations.
From Stdlib Require Import ZArith Lia.
From Stdlib Require Import Ascii.
From Stdlib Require String.
From S2P Require Import Prelude Text Json Db Rbac GoTime InstanceStore ProfileStore Wire NodeStore NodeToken TransferStore EngineStore ContainerLogStore ContainerLogs AgentStale AgentLogs.
Local Open Scope string_scope.
Local Open Scope list_scope.
Local Open Scope Z_scope.

(** ** The chunks of one log *)

(** Numbered from [seq] on, of one upload, the last and only the last final,
    each of at most the chunk size. *)
Fixpoint series (uploadID fetchID : string) (seq : Z) (l : list ContainerLogChunk) : Prop :=
  match l with
  | [] => False
  | c :: l' =>
      ch_UploadID c = uploadID /\ ch_FetchID c = fetchID /\ ch_Seq c = seq /\ ch_Error c = "" /\ len (ch_Data c) <= ContainerLogChunkSize /\
      match l' with [] => ch_Final c = true | _ :: _ => ch_Final c = false /\ series uploadID fetchID (seq + 1) l' end
  end.
Definition data_of (l : list ContainerLogChunk) : list ascii := concat (map (fun c => bytes (ch_Data c)) l).
(** What the final chunk announces. *)
Definition announces (total : Z) (sha : string) (l : list ContainerLogChunk) : Prop :=
  exists c, last l = Some c /\ ch_TotalBytes c = total /\ ch_SHA256 c = sha.

Lemma chunk_size_Z : Z.of_nat chunk_size = ContainerLogChunkSize.
Proof. unfold chunk_size. rewrite Z2Nat.id; [done|]. by vm_compute. Qed.
Lemma chunk_size_pos : (0 < chunk_size)%nat.
Proof. apply Nat2Z.inj_lt. rewrite chunk_size_Z. by vm_compute. Qed.
(** How many chunks a log of [n] bytes takes: one for every full or begun
    chunk size, and one for an empty log. *)
Definition chunk_count (n : Z) : Z := Z.max 1 ((n + ContainerLogChunkSize - 1) / ContainerLogChunkSize).

Lemma log_chunks_ok fuel up fid meta gz seq off : (length gz - off < fuel)%nat -> (off <= length gz)%nat -> 0 <= seq ->
  let l := log_chunks fuel up fid meta gz seq off in
  series up fid seq l /\ data_of l = drop off gz /\ announces (Z.of_nat (length gz)) (sha256_hex (of_bytes gz)) l /\
  (exists c l', l = c :: l' /\ ch_Meta c = (if seq =? 0 then Some meta else None)) /\
  Z.of_nat (length l) = chunk_count (Z.of_nat (length gz - off)).
Proof.
  pose proof chunk_size_pos as Hpos. revert seq off. induction fuel as [|f IH]; intros seq off Hf Hoff Hseq; [lia|].
  cbn [log_chunks]. set (e := Nat.min (off + chunk_size) (length gz)). cbv zeta.
  assert (He : (off <= e <= length gz)%nat) by (unfold e; lia).
  set (c := MkLogChunk _ _ _ _ _ _ _ _ _).
  assert (Hdata : bytes (ch_Data c) = take (e - off) (drop off gz)) by (unfold c; cbn; by rewrite bytes_of_bytes).
  assert (Hlen : len (ch_Data c) <= ContainerLogChunkSize).
  { unfold len. rewrite <-length_bytes, Hdata, length_take, length_drop, <-chunk_size_Z. unfold e. lia. }
  assert (Hcount : forall k : nat, (off + chunk_size <= length gz)%nat -> k = (off + chunk_size)%nat ->
    (off + chunk_size < length gz)%nat -> chunk_count (Z.of_nat (length gz - off)) = 1 + chunk_count (Z.of_nat (length gz - k))).
  { intros k _ -> Hlt. unfold chunk_count. rewrite <-chunk_size_Z. set (C := Z.of_nat chunk_size).
    replace (Z.of_nat (length gz - off) + C - 1) with (Z.of_nat (length gz - (off + chunk_size)) + C - 1 + 1 * C) by lia.
    rewrite Z.div_add by lia. enough (1 <= (Z.of_nat (length gz - (off + chunk_size)) + C - 1) / C) by lia.
    apply Z.div_le_lower_bound; lia. }
  destruct (Nat.eqb_spec e (length gz)) as [Hend|Hend].
  - split; [cbn [series]; by split_and!|]. split_and!.
    + unfold data_of. cbn [map concat]. rewrite Hdata, app_nil_r, Hend. apply take_ge. rewrite length_drop. lia.
    + by exists c.
    + by exists c, [].
    + cbn [length]. unfold chunk_count. rewrite <-chunk_size_Z. set (C := Z.of_nat chunk_size).
      assert ((Z.of_nat (length gz - off) + C - 1) / C <= 1); [|lia].
      assert (Hd : (Z.of_nat (length gz - off) + C - 1) / C < 2) by (apply Z.div_lt_upper_bound; unfold e in Hend; lia). lia.
  - assert (He' : e = (off + chunk_size)%nat) by (unfold e in *; lia).
    destruct (IH (seq + 1) e) as (Hs & Hd & (c1 & Hl & Ht & Hsh) & (c2 & l' & El & _) & Hn); [lia|lia|lia|].
    split; [rewrite El in Hs |- *; do 5 (split; [done|]); split; [done|exact Hs]|]. split_and!.
    + unfold data_of in *. cbn [map concat]. rewrite Hdata, Hd. rewrite <-(take_drop (e - off) (drop off gz)) at 2.
      f_equal. rewrite drop_drop. f_equal. lia.
    + exists c1. rewrite El in Hl |- *. by split_and!.
    + by exists c, (log_chunks f up fid meta gz (seq + 1) e).
    + cbn [length]. rewrite (Hcount e) by (unfold e in *; lia). lia.
Qed.
Lemma chunks_of_spec_of up fid meta gz :
  let l := chunks_of up fid meta gz in
  series up fid 0 l /\ data_of l = bytes gz /\ announces (len gz) (sha256_hex gz) l /\ exists c l', l = c :: l' /\ ch_Meta c = Some meta.
Proof.
  unfold chunks_of. destruct (log_chunks_ok (S (String.length gz)) up fid meta (bytes gz) 0 0) as (Hs & Hd & Ha & Hm & _).
  - rewrite length_bytes. lia.
  - lia.
  - lia.
  - rewrite !length_bytes in *. rewrite of_bytes_bytes in Ha. by split_and!.
Qed.
(** Sending a log ends: its chunks are as many as the log has full or
    begun pieces of 16384 bytes, one for an empty log, they are numbered from
    0, each holds at most 16384 bytes, the first carries the description and
    exactly the last is final, with the size and the hash of the whole; put
    together they are the log. *)
Theorem chunks_of_spec up fid meta gz :
  let l := chunks_of up fid meta gz in
  series up fid 0 l /\ Z.of_nat (length l) = chunk_count (len gz) /\ data_of l = bytes gz /\
  announces (len gz) (sha256_hex gz) l /\ exists c l', l = c :: l' /\ ch_Meta c = Some meta.
Proof.
  intros l. destruct (chunks_of_spec_of up fid meta gz) as (Hs & Hd & Ha & Hm). split; [exact Hs|]. split_and!; [|done..].
  destruct (log_chunks_ok (S (String.length gz)) up fid meta (bytes gz) 0 0) as (_ & _ & _ & _ & Hn); [rewrite length_bytes; lia|lia|lia|].
  by rewrite Nat.sub_0_r, length_bytes in Hn.
Qed.

(** ** What is held in memory *)

(** Of each node, at most [limit] of the values of a map. *)
Section PerNode.
Context {X : Type} (node : X -> string).
Definition held (n : string) (m : gmap string X) : Z := Z.of_nat (size (filter (fun kx : string * X => node kx.2 = n) m)).
Definition per_node (limit : Z) (m : gmap string X) : Prop := forall n, held n m <= limit.
Lemma held_mono n m1 m2 : m1 ⊆ m2 -> held n m1 <= held n m2.
Proof.
  intros Hs. unfold held. apply Nat2Z.inj_le, map_subseteq_size. apply map_subseteq_spec. intros k x.
  rewrite !map_lookup_filter_Some. intros [Hk Hn]. split; [|done]. by eapply lookup_weaken.
Qed.
Lemma per_node_mono limit m1 m2 : m1 ⊆ m2 -> per_node limit m2 -> per_node limit m1.
Proof. intros Hs Hp n. pose proof (held_mono n m1 m2 Hs). specialize (Hp n). lia. Qed.
Lemma held_insert n k x m :
  held n (<[k := x]> m) <= held n m + (if decide (node x = n) then match m !! k with
                                        | Some y => if decide (node y = n) then 0 else 1 | None => 1 end else 0).
Proof.
  unfold held. rewrite map_filter_insert. cbn [snd]. destruct (decide (node x = n)) as [Hx|Hx].
  - rewrite map_size_insert, map_lookup_filter. destruct (m !! k) as [y|]; cbn; [|lia].
    destruct (decide (node y = n)); rewrite ?option_guard_True, ?option_guard_False by done; cbn; lia.
  - rewrite map_filter_delete. pose proof (map_subseteq_size _ _ (delete_subseteq (filter (fun kx : string * X => node kx.2 = n) m) k)). lia.
Qed.
Lemma per_node_update limit k x y m : m !! k = Some y -> node x = node y -> per_node limit m -> per_node limit (<[k := x]> m).
Proof.
  intros Hk Hn Hp n. pose proof (held_insert n k x m) as Hh. rewrite Hk, Hn in Hh. specialize (Hp n). destruct (decide _); lia.
Qed.
Lemma per_node_insert limit k x m : held (node x) m < limit -> per_node limit m -> per_node limit (<[k := x]> m).
Proof.
  intros Hl Hp n. pose proof (held_insert n k x m) as Hh. specialize (Hp n).
  destruct (decide (node x = n)) as [<-|]; [|lia]. destruct (m !! k); [destruct (decide _)|]; lia.
Qed.
End PerNode.

(** Upload ids hold no slash, so an upload is found under its own key only. *)
Lemma valid_no_slash s : validUploadID s = true -> "/"%char ∉ bytes s.
Proof.
  unfold validUploadID, all_chars. rewrite !andb_true_iff. intros [_ Hc] Hin.
  rewrite List.forallb_forall in Hc. apply list_elem_of_In in Hin. by specialize (Hc _ Hin).
Qed.
Lemma slash_split l1 l2 r1 r2 : "/"%char ∉ r1 -> "/"%char ∉ r2 -> l1 ++ "/"%char :: r1 = l2 ++ "/"%char :: r2 -> l1 = l2 /\ r1 = r2.
Proof.
  revert l2. induction l1 as [|c l1 IH]; intros [|d l2] H1 H2; cbn.
  - by intros [= ->].
  - intros [= _ ->]. destruct H1. apply elem_of_app. right. by left.
  - intros [= _ <-]. destruct H2. apply elem_of_app. right. by left.
  - intros [= -> E]. by destruct (IH l2 H1 H2 E) as [-> ->].
Qed.
Lemma upload_key_inj n1 u1 n2 u2 : validUploadID u1 = true -> validUploadID u2 = true ->
  upload_key n1 u1 = upload_key n2 u2 -> n1 = n2 /\ u1 = u2.
Proof.
  intros H1%valid_no_slash H2%valid_no_slash E%(f_equal bytes). unfold upload_key in E. rewrite !bytes_app in E.
  apply slash_split in E as [E1 E2]; [|done..]. split; by apply (f_equal of_bytes) in E1, E2; rewrite !of_bytes_bytes in *.
Qed.

(** ** The invariant *)
Section Invariant.
Context `{Gzip}.
Record upload_ok (k : string) (u : upload) : Prop := {
  uo_key : k = upload_key (up_nodeID u) (up_uploadID u);
  uo_id : validUploadID (up_uploadID u) = true;
  uo_size : len (up_buf u) <= MaxCompressedBytes
}.
(** An archive can be read: its body is a log, of the size recorded. *)
Definition readable (a : ContainerLogArchive) : Prop :=
  len (LogGz a) <= MaxCompressedBytes /\
  exists raw, gunzip (LogGz a) MaxUncompressedBytes = Ok raw /\ LogSizeBytes a = len raw.
Record logs_ok (l : LogTables) : Prop := {
  lo_uploads : map_Forall upload_ok (log_uploads l);
  lo_per_node : per_node up_nodeID maxUploadsPerNode (log_uploads l);
  lo_live : per_node lf_nodeID maxLiveFetchesPerNode (log_live l);
  lo_live_all : Z.of_nat (size (log_live l)) <= maxLiveFetches;
  lo_archives : map_Forall (fun k a => LogID a = k /\ readable a) (log_archives l);
  lo_unique : forall k1 k2 a1 a2, log_archives l !! k1 = Some a1 -> log_archives l !! k2 = Some a2 ->
    LogUploadID a1 = LogUploadID a2 -> k1 = k2
}.
Definition task_ok (t : Task) : Prop :=
  match t with TaskAck _ _ _ => True | TaskFinish u _ _ | TaskFinishLive u _ _ => len (up_buf u) <= MaxCompressedBytes end.

Lemma uploads_sub l ups : ups ⊆ log_uploads l -> logs_ok l -> logs_ok (set_log_uploads ups l).
Proof.
  intros Hs [H1 H2 H3 H4 H5 H6]. split; cbn; [|by eapply per_node_mono|exact H3|exact H4|exact H5|exact H6].
  intros k u Hk. apply H1. by eapply lookup_weaken.
Qed.
Lemma live_sub l lv : lv ⊆ log_live l -> logs_ok l -> logs_ok (set_log_live lv l).
Proof.
  intros Hs [H1 H2 H3 H4 H5 H6]. split; cbn; [exact H1|exact H2|by eapply per_node_mono| |exact H5|exact H6].
  pose proof (map_subseteq_size _ _ Hs). lia.
Qed.
Lemma deliver_ok l fid n res : logs_ok l -> logs_ok (set_log_live (deliver_live fid n res (log_live l)) l).
Proof.
  intros Hl. unfold deliver_live. destruct (log_live l !! fid) as [f|] eqn:Ef; [|by apply live_sub].
  destruct (_ && _); [|by apply live_sub]. destruct Hl as [H1 H2 H3 H4 H5 H6].
  split; cbn; [exact H1|exact H2|by eapply per_node_update| |exact H5|exact H6].
  by rewrite map_size_insert_Some by by eexists.
Qed.
(** What a chunk may be added to. *)
Lemma accept_ok n chunk l u : logs_ok l -> validUploadID (ch_UploadID chunk) = true -> accept n chunk (log_uploads l) = inr u ->
  up_nodeID u = n /\ up_uploadID u = ch_UploadID chunk /\ len (up_buf u) + len (ch_Data chunk) <= MaxCompressedBytes /\
  match log_uploads l !! upload_key n (ch_UploadID chunk) with
  | Some u' => u' = u
  | None => held up_nodeID n (log_uploads l) < maxUploadsPerNode
  end.
Proof.
  intros Hl Hv. unfold accept. destruct (open_upload _ _ _) as [|v] eqn:Eo; [done|].
  destruct (Z.ltb_spec MaxCompressedBytes (len (up_buf v) + len (ch_Data chunk))) as [|Hsize]; [done|].
  destruct (_ <? _); [done|]. intros [= <-]. unfold open_upload in Eo. cbv zeta in Eo.
  destruct (ch_Seq chunk =? 0); destruct (log_uploads l !! _) as [u|] eqn:Eu; try done.
  - destruct (ch_Meta chunk); [|done]. destruct (Z.leb_spec maxUploadsPerNode (countForNodeLocked n (log_uploads l))) as [|Hc]; [done|].
    injection Eo as <-. by split_and!.
  - destruct (negb _); [done|]. injection Eo as <-. destruct (lo_uploads _ Hl _ _ Eu) as [Ek Hid _].
    apply upload_key_inj in Ek as [-> ->]; [|done..]. by split_and!.
Qed.
Lemma grown_ok n chunk now l u : logs_ok l -> validUploadID (ch_UploadID chunk) = true -> accept n chunk (log_uploads l) = inr u ->
  logs_ok (set_log_uploads (<[upload_key n (ch_UploadID chunk) := grown chunk now u]> (log_uploads l)) l) /\
  len (up_buf (grown chunk now u)) <= MaxCompressedBytes.
Proof.
  intros Hl Hv Ha. destruct (accept_ok n chunk l u Hl Hv Ha) as (Hn & Hid & Hsize & Hc).
  assert (Hlen : len (up_buf (grown chunk now u)) <= MaxCompressedBytes).
  { unfold grown. cbn. unfold len in *. rewrite <-length_bytes, bytes_app, length_app, !length_bytes. lia. }
  split; [|done]. destruct Hl as [H1 H2 H3 H4 H5 H6].
  split; cbn; [apply map_Forall_insert_2; [|done]| |exact H3|exact H4|exact H5|exact H6].
  - split; cbn; [by rewrite Hn, Hid|by rewrite Hid|done].
  - destruct (log_uploads l !! _) as [u'|] eqn:Eu; [subst u'; by eapply per_node_update|].
    apply per_node_insert; [cbn; by rewrite Hn|done].
Qed.
End Invariant.

Section Handlers.
Context `{Env} `{Gzip}.
Definition good (w : World) : Prop := logs_ok (w_archive w).
Definition chunk_taken (w : World) (r : result (option Task)) (w' : World) : Prop :=
  good w' /\ archives w' = archives w /\ w_sent w' = w_sent w /\ exists t, r = Ok t /\ (forall t', t = Some t' -> task_ok t').
Lemma receive_ok n chunk w : good w -> validUploadID (ch_UploadID chunk) = true -> wp (receive n chunk) w (chunk_taken w).
Proof.
  intros Hw Hv. unfold receive. apply wp_bind, wp_gets. cbv zeta.
  destruct (accept n chunk (uploads w)) as [reject|u] eqn:Ea.
  - apply wp_bind, wp_modify, wp_bind, wp_logf. assert (Hd : good (upd_uploads (delete (upload_key n (ch_UploadID chunk))) w)).
    { apply uploads_sub; [apply delete_subseteq|done]. }
    case_bool_decide; [split_and!; [exact Hd|done|done|]; eexists; split; [done|by intros ? [= <-]]|].
    apply wp_bind, wp_modify, wp_ret. split_and!; [by apply (deliver_ok (w_archive (upd_uploads _ w)))|done|done|by eexists].
  - apply wp_bind, wp_time_now. destruct (grown_ok n chunk (w_clock (bump w)) (w_archive w) u Hw Hv Ea) as [Hg Hlen].
    destruct (negb (ch_Final chunk)).
    + apply wp_bind, wp_modify, wp_ret. split_and!; [exact Hg|done|done|by eexists].
    + apply wp_bind, wp_modify, wp_ret. split_and!; [apply (uploads_sub (w_archive w)); [apply delete_subseteq|done]|done|done|].
      eexists. split; [done|]. intros t [= <-]. by case_bool_decide.
Qed.
Lemma HandleChunk_ok n env w : good w -> wp (HandleChunk n env) w (chunk_taken w).
Proof.
  intros Hw. assert (Hnone : forall w', w_archive w' = w_archive w -> w_sent w' = w_sent w -> chunk_taken w (Ok None) w').
  { intros w' E Es. unfold chunk_taken, good, archives. rewrite E. by split_and!; [..|eexists]. }
  unfold HandleChunk. destruct env as [?|?|?|?|?|?|?|?|?|?|?|[chunk|e]|?]; try (by apply Hnone).
  destruct (validUploadID (ch_UploadID chunk)) eqn:Hv; [|by apply Hnone]. cbn [negb].
  apply wp_bind, wp_time_now, wp_bind, wp_modify. set (now := w_clock (bump w)).
  set (w1 := upd_uploads (sweepLocked now) (bump w)).
  assert (Hw1 : good w1) by (apply (uploads_sub (w_archive w)); [apply map_filter_subseteq|exact Hw]).
  assert (Hrec : wp (receive n chunk) w1 (chunk_taken w)) by exact (receive_ok n chunk w1 Hw1 Hv).
  apply wp_bind, wp_gets. case_bool_decide; [exact Hrec|].
  destruct (negb (awaited n chunk w1)); [apply wp_bind, wp_logf, wp_ret; by split_and!; [..|eexists]|].
  destruct (negb _); [|exact Hrec]. apply wp_bind, wp_modify, wp_ret.
  split_and!; [by apply (deliver_ok (w_archive w1))|done|done|by eexists].
Qed.

(** ** What becomes of a received log *)

(** An instance is linked only when it is one of the uploading node's. *)
Definition attributed (u : upload) (w : World) (inst profile : option string) (name : string) : Prop :=
  match inst with
  | None => profile = None /\ name = ""
  | Some id => exists i, w_instances w !! to_lower (lm_InstanceID (up_meta u)) = Some i /\ PrimaryNodeID i = up_nodeID u /\ id = InstID i /\
      (profile = None /\ name = "" \/ exists p, w_profiles w !! InstProfileID i = Some p /\ profile = Some (ProfID p) /\ name = ProfName p)
  end.
(** What the server itself knows of the row it stores. *)
Definition from_upload (u : upload) (w : World) (gz : string) (size : Z) (n : NewContainerLogArchive) : Prop :=
  nl_UploadID n = up_uploadID u /\ nl_NodeID n = up_nodeID u /\ nl_LogGz n = gz /\ nl_SizeBytes n = size /\
  attributed u w (nl_InstanceID n) (nl_ProfileID n) (nl_ProfileName n).
Definition same_tables (w w' : World) : Prop := w_archive w' = w_archive w /\ w_sent w' = w_sent w.
Lemma describe_ok u gz size w :
  wp (describe_upload u gz size) w (fun r w' => same_tables w w' /\ exists n, r = Ok n /\ from_upload u w gz size n).
Proof.
  assert (Hd : from_upload u w gz size (described u gz size)) by (by split_and!).
  unfold describe_upload. cbv zeta. destruct (negb _); [apply wp_ret; by split; [|eexists]|].
  apply wp_bind, wp_attempt, wp_FindByID_instance; [intros e|intros _|intros i Hi].
  - apply wp_bind, wp_when; intros _; [apply wp_logf|]; apply wp_ret; by split; [|eexists].
  - apply wp_bind, wp_when; intros _; [apply wp_logf|]; apply wp_ret; by split; [|eexists].
  - case_bool_decide as Hn; cbn [negb]; [|apply wp_bind, wp_logf, wp_ret; by split; [|eexists]].
    assert (Hl : forall o, (forall p, o = Some p -> w_profiles w !! InstProfileID i = Some p) ->
      from_upload u w gz size (linked i o (described u gz size))).
    { intros o Ho. split_and!; try done. exists i. split_and!; try done. cbn. destruct o as [p|]; [right; exists p|left]; by auto. }
    apply wp_bind, wp_attempt, wp_FindByID_profile; [intros e|intros _|intros p Hp].
    + apply wp_bind, wp_when; intros _; [apply wp_logf|]; apply wp_ret; (split; [done|]); eexists; (split; [done|]); by apply Hl.
    + apply wp_bind, wp_when; intros _; [apply wp_logf|]; apply wp_ret; (split; [done|]); eexists; (split; [done|]); by apply Hl.
    + apply wp_ret. split; [done|]. eexists. split; [done|]. apply Hl. by intros ? [= <-].
Qed.
(** The row of an upload that is stored: its own, or the one an earlier upload
    under the same id left. *)
Definition row_of (u : upload) (w : World) (a : ContainerLogArchive) : Prop :=
  LogUploadID a = up_uploadID u /\ LogNodeID a = up_nodeID u /\ LogGz a = up_buf u /\ readable a /\
  attributed u w (LogInstanceID a) (LogProfileID a) (LogProfileName a).
Definition adds_row (u : upload) (w w' : World) : Prop :=
  exists a, row_of u w a /\ archives w !! LogID a = None /\ archive_by_upload (up_uploadID u) w = None /\
    w_archive w' = w_archive (put_archive a w).
Definition told (u : upload) (stored : bool) (w w' : World) : Prop :=
  w_sent w' = w_sent w \/ exists reason, w_sent w' = w_sent w ++ [(up_nodeID u, MContainerLogAck (up_uploadID u) stored reason)].
Lemma ack_ok n up stored reason w : wp (ack n up stored reason) w (fun r w' => r = Ok tt /\ w_archive w' = w_archive w /\
  (w_sent w' = w_sent w \/ w_sent w' = w_sent w ++ [(n, MContainerLogAck up stored reason)])).
Proof. unfold ack. io_auto; split_and!; auto. Qed.
(** What handling a whole upload leaves. *)
Definition stored_now (u : upload) (w w' : World) : Prop :=
  adds_row u w w' \/ (w_archive w' = w_archive w /\ is_Some (archive_by_upload (up_uploadID u) w)).
Definition finished (u : upload) (totalBytes : Z) (sha : string) (w w' : World) : Prop :=
  (w_archive w' = w_archive w \/ adds_row u w w') /\
  exists stored, told u stored w w' /\
    (stored = true -> verified u totalBytes sha = true /\ stored_now u w w').
Lemma finish_ack u total sha stored reason w w1 : w_sent w1 = w_sent w ->
  (w_archive w1 = w_archive w \/ adds_row u w w1) ->
  (stored = true -> verified u total sha = true /\ stored_now u w w1) ->
  wp (ack (up_nodeID u) (up_uploadID u) stored reason) w1 (fun r w' => r = Ok tt /\ finished u total sha w w').
Proof.
  intros Hs Ha Hst. eapply wp_mono; [apply ack_ok|]. intros r w' (-> & E & Ht). split; [done|].
  assert (Ha' : w_archive w' = w_archive w \/ adds_row u w w').
  { destruct Ha as [Ha|(a & H1 & H2 & H3 & H4)]; [left; congruence|right; exists a; by rewrite E]. }
  split; [done|]. exists stored. split; [unfold told; rewrite <-Hs; destruct Ht as [Ht|Ht]; [by left|right; by eexists]|].
  intros Hb. destruct (Hst Hb) as [Hv Hn]. split; [done|]. destruct Hn as [(a & H1 & H2 & H3 & H4)|[E1 Hu]].
  - left. exists a. by rewrite E.
  - right. split; [congruence|done].
Qed.
Lemma finish_ok u total sha w : len (up_buf u) <= MaxCompressedBytes ->
  wp (finish u total sha) w (fun r w' => r = Ok tt /\ finished u total sha w w').
Proof.
  intros Hlen. unfold finish. cbv zeta. destruct (verified u total sha) eqn:Hv; cbn [negb].
  2: { apply wp_bind, wp_logf. apply finish_ack; [done|by left|done]. }
  destruct (uncompressedSize (up_buf u) MaxUncompressedBytes) as [size|e] eqn:Hg.
  2: { apply wp_bind, wp_logf. apply finish_ack; [done|by left|done]. }
  apply wp_bind. eapply wp_mono; [apply describe_ok|]. intros r w1 ([Ea Es] & n & -> & Hid & Hn & Hgz & Hsz & Hat).
  assert (Hread : forall a, LogGz a = nl_LogGz n -> LogSizeBytes a = nl_SizeBytes n -> readable a).
  { intros a E1 E2. unfold uncompressedSize in Hg. unfold readable. rewrite E1, E2, Hgz, Hsz.
    destruct (gunzip (up_buf u) MaxUncompressedBytes) as [raw|] eqn:Er; [|done]. injection Hg as <-. split; [done|]. by exists raw. }
  apply wp_bind, wp_attempt, wp_Create_archive.
  - intros e w2 E1 E2 _. apply wp_bind, wp_logf. apply finish_ack; [cbn; congruence|left; cbn; congruence|done].
  - intros a e w2 Hnone Hfree Ha ->. set (w2 := bump _).
    assert (Hadd : adds_row u w w2).
    { assert (Hf : forall w', w_archive w' = w_archive w -> archives w' !! LogID a = archives w !! LogID a /\
        archive_by_upload (nl_UploadID n) w' = archive_by_upload (nl_UploadID n) w).
      { intros w' E. unfold archive_by_upload, archive_rows, archives. by rewrite E. }
      destruct (Hf w1 Ea) as [F1 F2]. exists a. split_and!.
      - rewrite Ha. split_and!; [done..|by apply Hread; rewrite Ha|done].
      - by rewrite <-F1.
      - by rewrite <-Hid, <-F2.
      - unfold w2. cbn. by rewrite Ea. }
    split; [|intros v _]; [apply wp_bind, wp_logf|]; apply finish_ack; try done.
    + right. destruct Hadd as (b & H1 & H2 & H3 & H4). exists b. by split_and!.
    + by right.
    + intros _. split; [done|by left].
  - intros a v w2 Hold _ ->. apply finish_ack; [done|left; cbn; congruence|]. intros _. split; [done|]. right.
    split; [cbn; congruence|]. exists a. rewrite <-Hid, <-Hold. unfold archive_by_upload, archive_rows, archives. by rewrite Ea.
Qed.
End Handlers.

(** ** Over time *)
Section Runs.
Context `{Env} `{Gzip}.
Definition stored_ack (up : string) (m : string * Message) : bool :=
  match m.2 with MContainerLogAck u true _ => bool_decide (u = up) | _ => false end.
Definition stored_acks (up : string) (w : World) : list (string * Message) := List.filter (stored_ack up) (w_sent w).
(** An upload is confirmed: it is verified, its own node is told, once, and
    its very bytes are a readable row of that node; unless a log was stored
    under its id before, when nothing is stored. *)
Definition confirmed (u : upload) (totalBytes : Z) (sha : string) (w w' : World) : Prop :=
  verified u totalBytes sha = true /\
  (exists reason, w_sent w' = w_sent w ++ [(up_nodeID u, MContainerLogAck (up_uploadID u) true reason)]) /\
  match archive_by_upload (up_uploadID u) w with
  | None => exists a, row_of u w a /\ archives w !! LogID a = None /\ w_archive w' = w_archive (put_archive a w)
  | Some a => w_archive w' = w_archive w /\ LogUploadID a = up_uploadID u /\ readable a
  end.
(** A step keeps the invariant, and tells nobody that a log is stored. *)
Definition honest (w w' : World) : Prop :=
  good w -> good w' /\ forall up, stored_acks up w' = stored_acks up w.
Lemma honest_acks w w' : good w' -> (forall up, stored_acks up w' = stored_acks up w) -> honest w w'.
Proof. intros Hg Ha _. by split. Qed.
Lemma honest_sent w w' : good w' -> w_sent w' = w_sent w -> honest w w'.
Proof. intros Hg Hs. apply honest_acks; [done|]. intros up. unfold stored_acks. by rewrite Hs. Qed.
Lemma stored_acks_app up w m : stored_ack up m = false -> List.filter (stored_ack up) (w_sent w ++ [m]) = stored_acks up w.
Proof. intros Hm. rewrite List.filter_app. cbn. by rewrite Hm, app_nil_r. Qed.

Lemma put_good u w a : row_of u w a -> archives w !! LogID a = None -> archive_by_upload (up_uploadID u) w = None ->
  good w -> logs_ok (w_archive (put_archive a w)).
Proof.
  intros (Hu & _ & _ & Hr & _) Hk Hn [H1 H2 H3 H4 H5 H6]. pose proof (archive_by_upload_none _ _ Hn) as Hne.
  split; cbn; [exact H1|exact H2|exact H3|exact H4|by apply map_Forall_insert_2|].
  intros k1 k2 a1 a2. rewrite !lookup_insert. do 2 case_decide; subst; [done| | |apply H6].
  - intros [= <-] Ha2 E. destruct (Hne k2 a2 Ha2). congruence.
  - intros Ha1 [= <-] E. destruct (Hne k1 a1 Ha1). congruence.
Qed.
Lemma finished_honest u total sha w w' : good w -> finished u total sha w w' ->
  good w' /\ ((forall up, stored_acks up w' = stored_acks up w) \/ confirmed u total sha w w').
Proof.
  intros Hg [Ha (st & Ht & Hst)]. split.
  { destruct Ha as [Ha|(a & Hr & Hf & Hn & E)]; unfold good; [by rewrite Ha|]. rewrite E. by apply (put_good u). }
  destruct Ht as [Ht|[reason Ht]]; [left; intros up; unfold stored_acks; by rewrite Ht|].
  destruct st; [right|left; intros up; unfold stored_acks; rewrite Ht; by apply stored_acks_app].
  destruct (Hst eq_refl) as [Hv Hn]. split; [done|]. split; [by exists reason|].
  destruct Hn as [(a & Hr & Hf & -> & E)|[E [a Hu]]]; [by exists a|].
  rewrite Hu. apply archive_by_upload_some in Hu as [Hu Hin]. apply elem_of_archive_rows in Hin as [k Hk].
  split_and!; [done|done|]. by destruct (lo_archives _ Hg k a Hk).
Qed.
Lemma ack_false_honest n up reason w : wp (ack n up false reason) w (fun _ w' => honest w w').
Proof.
  eapply wp_mono; [apply ack_ok|]. intros r w' (_ & E & Hs) Hg. split; [unfold good; by rewrite E|]. intros up'.
  unfold stored_acks at 1. destruct Hs as [->| ->]; [done|]. by apply stored_acks_app.
Qed.
Lemma finishLive_honest u total sha w : wp (finishLive u total sha) w (fun _ w' => honest w w').
Proof.
  assert (Hd : forall w1 res, w_archive w1 = w_archive w -> w_sent w1 = w_sent w ->
    wp (deliverLive (up_fetchID u) (up_nodeID u) res) w1 (fun _ w' => honest w w')).
  { intros w1 res E Es. apply wp_modify. intros Hg. apply honest_sent; [|done|done].
    assert (Hg1 : good w1) by (unfold good; by rewrite E). by apply (deliver_ok (w_archive w1)). }
  unfold finishLive. cbv zeta. destruct (negb _); [apply wp_bind, wp_logf; by apply Hd|].
  destruct (gunzip _ _); [by apply Hd|apply wp_bind, wp_logf; by apply Hd].
Qed.
(** A goroutine confirms the upload it finishes, or nothing. *)
Definition confirms (t : Task) (w w' : World) : Prop :=
  exists u total sha, t = TaskFinish u total sha /\ confirmed u total sha w w'.
Lemma run_task_honest t w : task_ok t -> good w ->
  wp (run_task t) w (fun _ w' => good w' /\ ((forall up, stored_acks up w' = stored_acks up w) \/ confirms t w w')).
Proof.
  intros Ht Hg. assert (Hh : forall m : M unit, wp m w (fun _ w' => honest w w') ->
    wp m w (fun _ w' => good w' /\ ((forall up, stored_acks up w' = stored_acks up w) \/ confirms t w w'))).
  { intros m Hm. eapply wp_mono; [exact Hm|]. intros r w' [Hg' Ha]; [done|]. split; [done|by left]. }
  destruct t as [n up reason|u total sha|u total sha]; cbn [task_ok run_task] in *.
  - apply Hh, ack_false_honest.
  - eapply wp_mono; [by apply finish_ok|]. intros r w' [_ Hf].
    destruct (finished_honest u total sha w w' Hg Hf) as [Hg' Ha]. split; [done|].
    destruct Ha as [Ha|Ha]; [by left|right; by exists u, total, sha].
  - apply Hh, finishLive_honest.
Qed.
End Runs.

Section Steps.
Context `{Env} `{Gzip} `{RandomSource}.
Lemma honest_refl w w' : same_tables w w' -> honest w w'.
Proof. intros [Ea Es] Hg. apply honest_sent; [|done|done]. unfold good. by rewrite Ea. Qed.
Lemma wp_same {A} (m : M A) w (Q : result A -> World -> Prop) : Preserves (fun w => (w_archive w, w_sent w)) m ->
  (forall r w', same_tables w w' -> Q r w') -> wp m w Q.
Proof. intros Hm HQ. unfold wp. apply HQ. specialize (Hm w). cbn in Hm. by injection Hm. Qed.
Lemma FindByID_instance_same id : Preserves (fun w => (w_archive w, w_sent w)) (FindByID_instance id).
Proof. unfold FindByID_instance, scan_instance, scanRunningInstance. apply _. Qed.
Lemma FindByID_profile_same id : Preserves (fun w => (w_archive w, w_sent w)) (FindByID_profile id).
Proof. unfold FindByID_profile, scan_profile, scanProfile. apply _. Qed.
#[local] Existing Instances FindByID_instance_same FindByID_profile_same.
Lemma live_begin_honest actor id lines w : wp (live_begin actor id lines) w (fun _ w' => honest w w').
Proof.
  assert (Hsame : forall w', w_archive w' = w_archive w -> w_sent w' = w_sent w -> honest w w') by (intros; by apply honest_refl).
  unfold live_begin. apply wp_bind, wp_guard; intros _; [|by apply Hsame]. apply wp_bind, wp_guard; intros _; [|by apply Hsame].
  apply wp_bind, wp_same; [apply _|]. intros [i|e] w1 [Ea Es]; [|by apply Hsame].
  apply wp_bind, wp_Connected. intros b _. apply wp_bind, wp_guard; intros _; [|by apply Hsame].
  apply wp_bind, wp_same; [unfold newFetchID; apply _|]. intros [fid|e] w2 [Ea2 Es2]; [|apply Hsame; cbn in *; congruence].
  apply wp_bind, wp_gets, wp_bind, wp_guard; intros Hb; [|apply Hsame; cbn in *; congruence].
  apply wp_bind, wp_modify. set (f := MkLiveFetch (PrimaryNodeID i) None). set (w3 := upd_live (insert fid f) w2).
  assert (Ha : w_archive w2 = w_archive w) by (cbn in *; congruence). assert (Hs3 : w_sent w3 = w_sent w) by (cbn in *; congruence).
  assert (Hins : good w -> good w3).
  { intros Hg. apply negb_true_iff, orb_false_iff in Hb as [Hb1 Hb2]. apply Z.leb_gt in Hb1, Hb2.
    unfold good, w3. cbn. unfold live in *. rewrite Ha in *. destruct Hg as [G1 G2 G3 G4 G5 G6].
    split; cbn; [exact G1|exact G2|by apply per_node_insert| |exact G5|exact G6].
    rewrite map_size_insert. destruct (log_live (w_archive w) !! fid); cbn; lia. }
  assert (Hdel : forall w4, w_archive w4 = w_archive w3 -> w_sent w4 = w_sent w3 ->
    honest w (upd_live (delete fid) w4)).
  { intros w4 E4 Es4 Hg. apply honest_sent; [|cbn; congruence|done]. specialize (Hins Hg). unfold good in *. cbn. rewrite E4.
    by apply (live_sub (w_archive w3)); [apply delete_subseteq|]. }
  apply wp_bind, wp_attempt, wp_bind, wp_wrap, wp_NewEnvelope; [intros e _; by apply wp_bind, wp_modify, wp_throw, Hdel|intros _].
  apply wp_wrap, wp_Send; [intros e _; by apply wp_bind, wp_modify, wp_throw, Hdel|intros _]. apply wp_ret.
  intros Hg. split; [exact (Hins Hg)|]. intros up. unfold stored_acks at 1. cbn. change (w_sent w2) with (w_sent w3). rewrite Hs3.
  by apply stored_acks_app.
Qed.
Lemma live_end_honest id fid inst w : wp (live_end id fid inst) w (fun _ w' => honest w w').
Proof.
  unfold live_end. apply wp_bind, wp_attempt, wp_same; [apply _|]. intros r w1 [Ea Es]. apply wp_bind, wp_modify.
  assert (Hh : honest w (upd_live (delete fid) w1)).
  { intros Hg. apply honest_sent; [|done|done]. unfold good in *. cbn. rewrite Ea. by apply (live_sub (w_archive w)); [apply delete_subseteq|]. }
  by destruct r.
Qed.
Lemma record_expired_same n months cutoff : Preserves (fun w => (w_archive w, w_sent w)) (record_expired n months cutoff).
Proof. unfold record_expired. apply _. Qed.
Lemma delete_old_honest cutoff w : wp (DeleteOlderThan_archives cutoff) w (fun _ w' => honest w w').
Proof.
  unfold DeleteOlderThan_archives. apply wp_wrap, wp_sql; [by intros; apply honest_refl|intros _].
  cbv zeta. set (w2 := upd_logs _ _). intros Hg. apply honest_sent; [|done|done]. destruct Hg as [G1 G2 G3 G4 G5 G6].
  split; cbn; [exact G1|exact G2|exact G3|exact G4| |].
  - intros k a [Hk _]%map_lookup_filter_Some. by apply G5.
  - intros k1 k2 a1 a2 [Hk1 _]%map_lookup_filter_Some [Hk2 _]%map_lookup_filter_Some. by apply G6.
Qed.
Lemma honest_same w w1 w2 : honest w w1 -> same_tables w1 w2 -> honest w w2.
Proof.
  intros Hh [Ea Es] Hg. destruct (Hh Hg) as [Hg1 Ha]. split; [unfold good; by rewrite Ea|]. intros up.
  rewrite <-Ha. unfold stored_acks. by rewrite Es.
Qed.
Lemma same_honest w w1 w2 : same_tables w w1 -> honest w1 w2 -> honest w w2.
Proof.
  intros [Ea Es] Hh Hg. destruct Hh as [Hg1 Ha]; [unfold good; by rewrite Ea|]. split; [done|]. intros up.
  rewrite Ha. unfold stored_acks. by rewrite Es.
Qed.
Lemma expire_honest local w : wp (ExpireOnce_logs local) w (fun _ w' => honest w w').
Proof.
  unfold ExpireOnce_logs, Get_log_settings. apply wp_bind, wp_wrap, wp_wrap, wp_query; [by intros; apply honest_refl|intros _].
  apply wp_bind, wp_time_now, wp_bind. eapply wp_mono; [apply delete_old_honest|].
  intros r w3 Hh. assert (Hw : honest w w3) by (eapply same_honest; [|exact Hh]; done).
  destruct r as [n|e]; [|done]. destruct (n =? 0); [by apply wp_ret|].
  apply wp_same; [apply record_expired_same|]. intros r w4 Hs. by apply (honest_same w w3).
Qed.
Definition settings_step (w w' : World) : Prop :=
  (exists s, w_archive w' = set_log_settings s (w_archive w)) /\ w_sent w' = w_sent w.
#[local] Instance settings_preorder : PreOrder settings_step.
Proof.
  split.
  - intros w. split; [|done]. exists (log_settings (w_archive w)). by destruct (w_archive w).
  - intros w1 w2 w3 [[s1 E1] H12] [[s2 E2] H23]. split; [|congruence]. exists s2. by rewrite E2, E1.
Qed.
Lemma settings_same w w' : (w_archive w', w_sent w') = (w_archive w, w_sent w) -> settings_step w w'.
Proof. intros [= Ea Es]. split; [|done]. exists (log_settings (w_archive w)). rewrite Ea. by destruct (w_archive w). Qed.
#[local] Hint Extern 5 (Evolves settings_step _) => (eapply evolves_preserves; [apply settings_same | apply _]) : typeclass_instances.
#[local] Instance Update_log_settings_step n u : Evolves settings_step (Update_log_settings n u).
Proof.
  unfold Update_log_settings. apply evolves_wrap. intros w. unfold sql. destruct (fault (w_calls w)); [by apply settings_same|].
  destruct (negb _); [by apply settings_same|]. destruct (negb _); [by apply settings_same|]. split; [|done]. by eexists.
Qed.
Lemma UpdateRetention_step actor months : Evolves settings_step (UpdateRetention_logs actor months).
Proof. unfold UpdateRetention_logs, audited_or_reverted, Get_log_settings. apply _. Qed.
Lemma settings_honest w w' : settings_step w w' -> honest w w'.
Proof. intros [[s E] Hs] [G1 G2 G3 G4 G5 G6]. apply honest_sent; [|done|done]. unfold good. rewrite E. by split. Qed.

(** The service between two moments: its state and the goroutines that have
    started and not yet run. *)
Inductive logs_step : World * list Task -> World * list Task -> Prop :=
| logs_chunk n env t w w' ts : HandleChunk n env w = (Ok t, w') -> logs_step (w, ts) (w', ts ++ option_list t)
| logs_task t w ts1 ts2 : logs_step (w, ts1 ++ t :: ts2) (snd (run_task t w), ts1 ++ ts2)
| logs_live_begin actor id lines w ts : logs_step (w, ts) (snd (live_begin actor id lines w), ts)
| logs_live_end id fid inst w ts : logs_step (w, ts) (snd (live_end id fid inst w), ts)
| logs_expire local w ts : logs_step (w, ts) (snd (ExpireOnce_logs local w), ts)
| logs_retention actor months w ts : logs_step (w, ts) (snd (UpdateRetention_logs actor months w), ts)
| logs_elsewhere w w' ts : w_archive w' = w_archive w -> (forall up, stored_acks up w' = stored_acks up w) -> logs_step (w, ts) (w', ts).
Definition sound (s : World * list Task) : Prop := good s.1 /\ Forall task_ok s.2.
(** What agents are told by a step: nothing of a stored log, or that one
    pending goroutine's upload is stored, which it is. *)
Definition acks_true (s s' : World * list Task) : Prop :=
  (forall up, stored_acks up s'.1 = stored_acks up s.1) \/
  exists ts1 t ts2, s.2 = ts1 ++ t :: ts2 /\ s'.2 = ts1 ++ ts2 /\ confirms t s.1 s'.1.
Lemma logs_step_honest s s' : logs_step s s' -> sound s -> sound s' /\ acks_true s s'.
Proof.
  intros Hstep [Hg Ht].
  assert (Hup : forall w' ts, honest s.1 w' -> Forall task_ok ts -> sound (w', ts) /\ acks_true s (w', ts)).
  { intros w' ts Hh Hts. destruct (Hh Hg) as [Hg' Ha]. split; [by split|by left]. }
  destruct Hstep as [n env t w w' ts E|t w ts1 ts2|actor id lines w ts|id fid inst w ts|local w ts|actor months w ts|w w' ts E Ha]; cbn [fst snd] in *.
  - pose proof (HandleChunk_ok n env w Hg) as Hc. unfold wp in Hc. rewrite E in Hc. cbn [fst snd] in Hc.
    destruct Hc as (Hg' & _ & Hs & t' & [= <-] & Htask). apply Hup; [by apply honest_sent|]. apply Forall_app. split; [done|].
    destruct t as [t|]; [|done]. constructor; [by apply Htask|done].
  - apply Forall_app in Ht as [Ht1 Ht2]. inversion Ht2 as [|? ? Htt Ht3]; subst.
    destruct (run_task_honest t w Htt Hg) as [Hg' Ha]. split; [split; [done|by apply Forall_app]|].
    destruct Ha as [Ha|Ha]; [by left|right; by exists ts1, t, ts2].
  - apply Hup; [by apply live_begin_honest|done].
  - apply Hup; [by apply live_end_honest|done].
  - apply Hup; [by apply expire_honest|done].
  - apply Hup; [|done]. by apply settings_honest, UpdateRetention_step.
  - apply Hup; [|done]. intros _. split; [unfold good; by rewrite E|done].
Qed.

(** C17: over any sequence of chunks from any nodes, goroutines run in any
    order, live requests, expiries and whatever else the server does, with any
    failure: the memory uploads take is bounded, at most 16 MiB each and four
    per node; at most eight live requests wait, two per node; every stored
    archive can be read back, as a log of the size it is recorded with; no
    upload is stored twice. An agent is told that its log is stored only by
    the goroutine of a verified upload of that very node and id, once, and
    then the bytes received are the new, readable row of that node, linked
    only to that node's instance; the exception is an id a log was stored
    under before (by any node): then nothing is stored, that log is still
    there, and the agent is told that its own is. *)
Theorem stored_acks_are_true s s' : rtc logs_step s s' -> sound s ->
  sound s' /\ forall s2, logs_step s' s2 -> acks_true s' s2.
Proof.
  intros Hs Hsound. assert (Hs' : sound s').
  { induction Hs as [s|s s1 s2 H12 _ IH]; [done|]. by apply IH, (logs_step_honest s). }
  split; [done|]. intros s2 Hstep. by apply logs_step_honest.
Qed.
End Steps.

(** ** A log arrives whole *)
Section Arrival.
Context `{Env} `{Gzip}.
Definition about (t : Task) : string * string :=
  match t with
  | TaskAck n up _ => (n, up)
  | TaskFinish u _ _ | TaskFinishLive u _ _ => (up_nodeID u, up_uploadID u)
  end.
(** The messages of a sequence that are chunks of one upload. *)
Definition chunk_for (n up : string) (m : string * Envelope) : option ContainerLogChunk :=
  match m.2 with
  | EContainerLogChunk (Ok c) => if bool_decide (m.1 = n) && bool_decide (ch_UploadID c = up) then Some c else None
  | _ => None
  end.
(** Messages handled one after another, and the goroutines they start. *)
Fixpoint take_all (msgs : list (string * Envelope)) (w : World) : list Task * World :=
  match msgs with
  | [] => ([], w)
  | m :: msgs' =>
      let '(t, w1) := HandleChunk m.1 m.2 w in
      let '(ts, w2) := take_all msgs' w1 in
      (match t with Ok (Some t) => t :: ts | _ => ts end, w2)
  end.
Lemma clock_bump w : w_clock w <= w_clock (bump w).
Proof. cbn. lia. Qed.
Lemma swept_keeps now ups k u : ups !! k = Some u -> now - uploadIdleTimeout <= up_lastSeen u -> sweepLocked now ups !! k = Some u.
Proof. intros Hk Hs. apply map_lookup_filter_Some. split; [done|]. cbn. lia. Qed.
Lemma receive_other n' chunk n up w : good w -> validUploadID (ch_UploadID chunk) = true -> validUploadID up = true ->
  (n', ch_UploadID chunk) <> (n, up) ->
  wp (receive n' chunk) w (fun r w1 => uploads w1 !! upload_key n up = uploads w !! upload_key n up /\ w_clock w <= w_clock w1 /\
    forall t, r = Ok (Some t) -> about t <> (n, up)).
Proof.
  intros Hw Hv Hup Hne. assert (Hk : upload_key n' (ch_UploadID chunk) <> upload_key n up).
  { intros E. apply Hne. apply upload_key_inj in E as [-> ->]; done. }
  unfold receive. apply wp_bind, wp_gets. cbv zeta. destruct (accept n' chunk (uploads w)) as [reject|u] eqn:Ea.
  - apply wp_bind, wp_modify, wp_bind, wp_logf. case_bool_decide; [apply wp_ret|apply wp_bind, wp_modify, wp_ret];
      (split; [cbn; by rewrite lookup_delete_ne|]; split; [cbn; lia|]); by intros ? [= <-].
  - apply wp_bind, wp_time_now. destruct (accept_ok n' chunk (w_archive w) u Hw Hv Ea) as (Hn & Hid & _).
    destruct (negb _); apply wp_bind, wp_modify, wp_ret.
    + split; [cbn; by rewrite lookup_insert_ne|]. split; [apply clock_bump|done].
    + split; [cbn; by rewrite lookup_delete_ne|]. split; [apply clock_bump|]. intros t [= <-].
      case_bool_decide; cbn; by rewrite Hn, Hid.
Qed.
(** Anything else leaves an upload that is not idle alone. *)
Definition left_alone (n up : string) (w : World) (r : result (option Task)) (w1 : World) : Prop :=
  w_clock w <= w_clock w1 /\
  (forall u t0, uploads w !! upload_key n up = Some u -> t0 <= up_lastSeen u -> w_clock w1 - t0 <= uploadIdleTimeout ->
     uploads w1 !! upload_key n up = Some u) /\
  forall t, r = Ok (Some t) -> about t <> (n, up).
Lemma HandleChunk_other m n up w : good w -> validUploadID up = true -> chunk_for n up m = None ->
  wp (HandleChunk m.1 m.2) w (left_alone n up w).
Proof.
  intros Hw Hup Hother. destruct m as [n' env]. cbn [fst snd]. unfold HandleChunk.
  assert (Hnone : forall w1, w_archive w1 = w_archive w -> w_clock w <= w_clock w1 -> left_alone n up w (Ok None) w1).
  { intros w1 E Hc. split_and!; [done|intros u t0 Hu _ _; unfold uploads in *; by rewrite E|done]. }
  destruct env as [?|?|?|?|?|?|?|?|?|?|?|[chunk|e]|?]; try (by apply Hnone).
  destruct (validUploadID (ch_UploadID chunk)) eqn:Hv; [|by apply Hnone]. cbn [negb].
  apply wp_bind, wp_time_now, wp_bind, wp_modify. set (now := w_clock (bump w)). set (w1 := upd_uploads (sweepLocked now) (bump w)).
  assert (Hw1 : good w1) by (apply (uploads_sub (w_archive w)); [apply map_filter_subseteq|exact Hw]).
  assert (Hnow : w_clock w <= w_clock w1) by apply clock_bump.
  assert (Hu1 : forall u t0 w2, uploads w !! upload_key n up = Some u -> t0 <= up_lastSeen u ->
    w_clock w1 <= w_clock w2 -> w_clock w2 - t0 <= uploadIdleTimeout -> uploads w1 !! upload_key n up = Some u).
  { intros u t0 w2 Hu Hs Hc Hb. apply swept_keeps; [exact Hu|]. change (w_clock w1) with now in Hc. lia. }
  assert (Hne : (n', ch_UploadID chunk) <> (n, up)).
  { unfold chunk_for in Hother. cbn in Hother. intros [= En Eu]. by rewrite !bool_decide_true in Hother by done. }
  assert (Hrec : wp (receive n' chunk) w1 (left_alone n up w)).
  { eapply wp_mono; [by apply (receive_other n' chunk n up w1)|]. intros r w2 (E & Hc & Ht). split_and!; [lia| |done].
    intros u t0 Hu Hs Hb. rewrite E. by apply (Hu1 u t0 w2). }
  apply wp_bind, wp_gets. case_bool_decide; [exact Hrec|]. destruct (negb (awaited n' chunk w1)).
  { apply wp_bind, wp_logf, wp_ret. split_and!; [done|intros u t0 Hu Hs Hb; by apply (Hu1 u t0 w1)|done]. }
  destruct (negb _); [|exact Hrec]. apply wp_bind, wp_modify, wp_ret. split_and!; [done|intros u t0 Hu Hs Hb; by apply (Hu1 u t0 w1)|done].
Qed.
(** Time passes, and a chunk of another upload says nothing about this one. *)
Definition later (w w' : World) : Prop := w_clock w <= w_clock w'.
#[local] Instance later_preorder : PreOrder later.
Proof. split; unfold later; [by intros w|intros w1 w2 w3; lia]. Qed.
#[local] Hint Extern 5 (Evolves later _) => (eapply (evolves_preserves _ w_clock); [intros ? ? E; unfold later; rewrite E; done | apply _]) : typeclass_instances.
#[local] Instance time_now_later : Evolves later time_now.
Proof. intros w. apply clock_bump. Qed.
#[local] Instance modify_clock g : (forall w, w_clock (g w) = w_clock w) -> Preserves w_clock (modify g).
Proof. intros Hg w. apply Hg. Qed.
#[local] Hint Extern 1 (forall w, w_clock _ = w_clock w) => (intros ?; reflexivity) : typeclass_instances.
Lemma receive_later n chunk : Evolves later (receive n chunk).
Proof.
  unfold receive. apply evolves_bind; [apply _..|]. intros ups. cbv zeta. destruct (accept _ _ _).
  - apply evolves_bind; [apply _..|]. intros _. apply evolves_bind; [apply _..|]. intros _.
    case_bool_decide; [apply _|]. unfold deliverLive. apply evolves_bind; apply _.
  - apply evolves_bind; [apply _..|]. intros now. destruct (negb _); (apply evolves_bind; apply _).
Qed.
Lemma HandleChunk_later n env : Evolves later (HandleChunk n env).
Proof.
  unfold HandleChunk. destruct env as [?|?|?|?|?|?|?|?|?|?|?|[chunk|e]|?]; try apply _.
  - destruct (negb _); [apply _|]. do 3 (apply evolves_bind; [apply _..|]; intros ?).
    case_bool_decide; [apply receive_later|]. destruct (negb _); [apply _|].
    destruct (negb _); [|apply receive_later]. unfold deliverLive. apply evolves_bind; apply _.
Qed.
Lemma take_all_later msgs w : w_clock w <= w_clock (snd (take_all msgs w)).
Proof.
  revert w. induction msgs as [|m msgs IH]; intros w; [cbn; lia|]. cbn [take_all].
  pose proof (HandleChunk_later m.1 m.2 w) as Hl. destruct (HandleChunk m.1 m.2 w) as [t w1]. specialize (IH w1).
  destruct (take_all msgs w1) as [ts w2]. unfold later in Hl. cbn in *. lia.
Qed.
(** A chunk of the upload that is accepted is added to it. *)
Definition added (n : string) (c : ContainerLogChunk) (u : upload) (w : World) (r : result (option Task)) (w1 : World) : Prop :=
  exists now, w_clock w <= now <= w_clock w1 /\
    if ch_Final c then r = Ok (Some (TaskFinish (grown c now u) (ch_TotalBytes c) (ch_SHA256 c)))
    else r = Ok None /\ uploads w1 !! upload_key n (ch_UploadID c) = Some (grown c now u).
Lemma HandleChunk_added n c u w : validUploadID (ch_UploadID c) = true -> ch_FetchID c = "" -> up_fetchID u = "" ->
  (accept n c (sweepLocked (w_clock (bump w)) (uploads w)) = inr u) ->
  wp (HandleChunk n (EContainerLogChunk (Ok c))) w (added n c u w).
Proof.
  intros Hv Hf Huf Ha. unfold HandleChunk. rewrite Hv. cbn [negb]. apply wp_bind, wp_time_now, wp_bind, wp_modify, wp_bind, wp_gets.
  set (w1 := upd_uploads _ (bump w)). rewrite bool_decide_true by done. unfold receive. apply wp_bind, wp_gets. cbv zeta.
  change (uploads w1) with (sweepLocked (w_clock (bump w)) (uploads w)). rewrite Ha. apply wp_bind, wp_time_now.
  assert (Hc : w_clock w <= w_clock (bump w1) <= w_clock (bump w1)) by (pose proof (clock_bump w); pose proof (clock_bump w1); cbn in *; lia).
  destruct (ch_Final c) eqn:Efin; cbn [negb]; apply wp_bind, wp_modify, wp_ret; exists (w_clock (bump w1)); rewrite Efin; split; try done.
  - cbn. by rewrite Huf.
  - split; [done|]. cbn. by rewrite lookup_insert_eq.
Qed.
(** The state of an upload whose chunks so far are [data]. *)
Record in_progress (n up : string) (meta : ContainerLogMeta) (seq : Z) (data : list ascii) (t0 : Time) (u : upload) : Prop := {
  ip_node : up_nodeID u = n; ip_upload : up_uploadID u = up; ip_fetch : up_fetchID u = ""; ip_meta : up_meta u = meta;
  ip_next : up_next u = seq; ip_data : bytes (up_buf u) = data; ip_seen : t0 <= up_lastSeen u
}.
Lemma grown_in_progress n up meta seq data t0 u c now : in_progress n up meta seq data t0 u -> t0 <= now ->
  in_progress n up meta (seq + 1) (data ++ bytes (ch_Data c)) t0 (grown c now u).
Proof. intros [? ? ? ? ? ? ?] Hn. split; cbn; try done; [congruence|by rewrite bytes_app; congruence]. Qed.
Lemma accept_next n up meta seq data t0 u c ups : in_progress n up meta seq data t0 u -> ups !! upload_key n up = Some u ->
  ch_UploadID c = up -> ch_Seq c = seq -> seq <> 0 -> len (ch_Data c) <= ContainerLogChunkSize ->
  Z.of_nat (length data) + len (ch_Data c) <= MaxCompressedBytes -> accept n c ups = inr u.
Proof.
  intros [_ _ _ _ Hn Hd _] Hu Eu Es H0' Hs Hm. unfold accept, open_upload. cbv zeta. rewrite Eu, Hu, Es.
  rewrite (proj2 (Z.eqb_neq seq 0)) by done. rewrite Hn, Z.eqb_refl. cbn [negb].
  assert (Hlen : len (up_buf u) = Z.of_nat (length data)) by (unfold len; by rewrite <-length_bytes, Hd).
  rewrite Hlen. rewrite !(proj2 (Z.ltb_ge _ _)); [done|lia|lia].
Qed.
(** The first chunk. *)
Lemma accept_first n up meta c ups : ups !! upload_key n up = None -> countForNodeLocked n ups < maxUploadsPerNode ->
  ch_UploadID c = up -> ch_FetchID c = "" -> ch_Seq c = 0 -> ch_Meta c = Some meta -> len (ch_Data c) <= ContainerLogChunkSize ->
  accept n c ups = inr (MkUpload n up "" meta 0 "" 0).
Proof.
  intros Hu Hc Eu Ef Es Em Hs. unfold accept, open_upload. cbv zeta. rewrite Eu, Hu, Es, Em, Ef. cbn [Z.eqb].
  rewrite (proj2 (Z.leb_gt _ _)) by done. cbn [up_buf]. change (len "") with 0.
  assert (ContainerLogChunkSize <= MaxCompressedBytes) by (by vm_compute).
  rewrite !(proj2 (Z.ltb_ge _ _)); [done|lia|lia].
Qed.
Definition tasks_about (n up : string) (ts : list Task) : list Task := List.filter (fun t => bool_decide (about t = (n, up))) ts.
Lemma HandleChunk_good n env w : good w -> good (snd (HandleChunk n env w)).
Proof. intros Hw. by destruct (HandleChunk_ok n env w Hw). Qed.
Lemma none_arrive n up msgs w : good w -> validUploadID up = true -> omap (chunk_for n up) msgs = [] ->
  tasks_about n up (fst (take_all msgs w)) = [].
Proof.
  intros Hw Hup. revert w Hw. induction msgs as [|m msgs IH]; intros w Hw Hm; [done|]. cbn [take_all].
  cbn in Hm. destruct (chunk_for n up m) as [c|] eqn:Hc; [done|].
  pose proof (HandleChunk_other m n up w Hw Hup Hc) as (_ & _ & Ht). pose proof (HandleChunk_good m.1 m.2 w Hw) as Hg.
  destruct (HandleChunk m.1 m.2 w) as [t w1]. specialize (IH w1 Hg Hm). destruct (take_all msgs w1) as [ts w2]. cbn [fst snd] in *.
  destruct t as [[t|]|e]; [|done..]. cbn. rewrite bool_decide_false by by apply Ht. exact IH.
Qed.
Lemma chunk_for_some n up m c : chunk_for n up m = Some c -> m = (n, EContainerLogChunk (Ok c)) /\ ch_UploadID c = up.
Proof.
  destruct m as [n' env]. unfold chunk_for. cbn. destruct env as [?|?|?|?|?|?|?|?|?|?|?|[d|e]|?]; try done.
  destruct (_ && _) eqn:E; [|done]. intros [= ->]. propb. by subst.
Qed.
Lemma HandleChunk_bumped n c w : validUploadID (ch_UploadID c) = true ->
  w_clock (bump w) <= w_clock (snd (HandleChunk n (EContainerLogChunk (Ok c)) w)).
Proof.
  intros Hv. change (wp (HandleChunk n (EContainerLogChunk (Ok c))) w (fun _ w' => later (bump w) w')).
  unfold HandleChunk. rewrite Hv. cbn [negb]. apply wp_bind, wp_time_now.
  refine (wp_evolves later _ (bump w) _ _ (fun _ w' Hl => Hl)).
  do 2 (apply evolves_bind; [apply _..|]; intros ?). case_bool_decide; [apply receive_later|]. destruct (negb _); [apply _|].
  destruct (negb _); [|apply receive_later]. unfold deliverLive. apply evolves_bind; apply _.
Qed.
Lemma rest_arrive n up meta total sha t0 msgs w seq data u cs : validUploadID up = true -> good w ->
  uploads w !! upload_key n up = Some u -> in_progress n up meta seq data t0 u -> 0 < seq -> t0 <= w_clock w ->
  omap (chunk_for n up) msgs = cs -> series up "" seq cs -> announces total sha cs ->
  Z.of_nat (length data + length (data_of cs)) <= MaxCompressedBytes ->
  w_clock (snd (take_all msgs w)) - t0 <= uploadIdleTimeout ->
  exists u', tasks_about n up (fst (take_all msgs w)) = [TaskFinish u' total sha] /\
    in_progress n up meta (seq + Z.of_nat (length cs)) (data ++ data_of cs) t0 u'.
Proof.
  intros Hup. revert w seq data u cs.
  induction msgs as [|m msgs IH]; intros w seq data u cs Hw Hu Hp Hseq Ht0 Hm Hs Hann Hlen Hidle; [by subst cs|].
  cbn [take_all] in *. cbn in Hm. pose proof (HandleChunk_good m.1 m.2 w Hw) as Hg.
  destruct (chunk_for n up m) as [c|] eqn:Hc.
  - apply chunk_for_some in Hc as [-> Eup]. cbn [fst snd] in *. destruct cs as [|c' cs]; [done|]. injection Hm as -> Hm.
    destruct Hs as (_ & Ef & Es & _ & Hcl & Hlast).
    assert (Hdl : Z.of_nat (length data) + len (ch_Data c') + Z.of_nat (length (data_of cs)) <= MaxCompressedBytes).
    { unfold data_of in *. cbn in Hlen. rewrite length_app, length_bytes in Hlen. unfold len. lia. }
    pose proof (HandleChunk_bumped n c' w ltac:(by rewrite Eup)) as Hb.
    pose proof (HandleChunk_added n c' u w ltac:(by rewrite Eup) Ef (ip_fetch _ _ _ _ _ _ _ Hp)) as Hadd. unfold wp in Hadd.
    destruct (HandleChunk n (EContainerLogChunk (Ok c')) w) as [t w1]. pose proof (take_all_later msgs w1) as Hl.
    assert (Ha : accept n c' (sweepLocked (w_clock (bump w)) (uploads w)) = inr u).
    { apply (accept_next n up meta seq data t0); try done; [|lia|lia]. apply swept_keeps; [done|].
      pose proof (ip_seen _ _ _ _ _ _ _ Hp). destruct (take_all msgs w1). cbn [fst snd] in *. lia. }
    destruct (Hadd Ha) as (now & Hnow & Hres). cbn [fst snd] in *. rewrite Eup in Hres.
    assert (Hp' := grown_in_progress n up meta seq data t0 u c' now Hp ltac:(lia)).
    destruct cs as [|c2 cs].
    + rewrite Hlast in Hres. subst t. destruct (take_all msgs w1) as [ts w2] eqn:Eta. cbn [fst snd] in *.
      pose proof (none_arrive n up msgs w1 Hg Hup Hm) as Hn. rewrite Eta in Hn. cbn [fst] in Hn.
      destruct Hann as (cl & [= <-] & <- & <-). exists (grown c' now u). split.
      * unfold tasks_about in *. cbn. rewrite bool_decide_true; [by rewrite Hn|]. by rewrite (ip_node _ _ _ _ _ _ _ Hp), (ip_upload _ _ _ _ _ _ _ Hp).
      * cbn [length data_of map concat]. unfold data_of. cbn. by rewrite app_nil_r.
    + destruct Hlast as [Hfin Hs]. rewrite Hfin in Hres. destruct Hres as [-> Hu1].
      destruct (IH w1 (seq + 1) (data ++ bytes (ch_Data c')) (grown c' now u) (c2 :: cs)) as (u' & Hf & Hp2); try done; [lia|lia| | |].
      * rewrite length_app, length_bytes. unfold len in Hdl. lia.
      * by destruct (take_all msgs w1).
      * destruct (take_all msgs w1) as [ts w2]. exists u'. split; [exact Hf|].
        replace (seq + Z.of_nat (length (c' :: c2 :: cs))) with (seq + 1 + Z.of_nat (length (c2 :: cs))) by (cbn [length]; lia).
        unfold data_of in *. cbn [map concat] in *. by rewrite <-app_assoc in Hp2.
  - pose proof (HandleChunk_other m n up w Hw Hup Hc) as (Hcl & Hk & Ht).
    destruct (HandleChunk m.1 m.2 w) as [t w1]. pose proof (take_all_later msgs w1) as Hl.
    destruct (take_all msgs w1) as [ts w2] eqn:Eta. cbn [fst snd] in *.
    assert (Hu1 : uploads w1 !! upload_key n up = Some u) by (apply (Hk u t0); [done|by destruct Hp|lia]).
    destruct (IH w1 seq data u cs Hg Hu1 Hp Hseq ltac:(lia) Hm Hs Hann Hlen) as (u' & Hf & Hp'); [by rewrite Eta|].
    rewrite Eta in Hf. cbn in Hf. exists u'. split; [|done]. destruct t as [[t|]|e]; [|done..]. cbn.
    by rewrite bool_decide_false by by apply Ht.
Qed.
Definition as_message (n : string) (c : ContainerLogChunk) : string * Envelope := (n, EContainerLogChunk (Ok c)).
Lemma chunk_for_own n c : chunk_for n (ch_UploadID c) (as_message n c) = Some c.
Proof. unfold chunk_for. cbn. by rewrite !bool_decide_true. Qed.
Lemma gunzip_back `{!GzipLaws} log gz : gzipBytes log = Ok gz -> len log <= MaxUncompressedBytes -> gunzip gz MaxUncompressedBytes = Ok log.
Proof.
  intros Hz Hl. destruct (gzip_back log gz Hz) as [Ho Hs]. unfold gunzip. rewrite Ho, Hs. by rewrite (proj2 (Z.ltb_ge _ _)).
Qed.
Lemma held_swept n now ups : countForNodeLocked n (sweepLocked now ups) <= countForNodeLocked n ups.
Proof. apply (held_mono up_nodeID n). apply map_filter_subseteq. Qed.
Lemma verified_own u : verified u (len (up_buf u)) (sha256_hex (up_buf u)) = true.
Proof. unfold verified, equal_fold. by rewrite Z.eqb_refl, bool_decide_true. Qed.

(** C16: a log an agent captured and sends in chunks arrives as it is: when the
    first chunk finds fewer than four uploads of its node, and the last one
    comes within two minutes, the server starts exactly one goroutine about
    the upload, to store it, with the agent's description and bytes that pass
    the check of size and hash and read back as the log; whatever chunks of
    other uploads and other messages arrive in between, from any node. *)
Theorem upload_arrives `{!GzipLaws} n up meta log gz w c rest :
  let sent := chunks_of up "" meta gz in
  let run := take_all (as_message n c :: rest) w in
  gzipBytes log = Ok gz -> len log <= MaxUncompressedBytes -> len gz <= MaxCompressedBytes ->
  good w -> validUploadID up = true -> uploads w !! upload_key n up = None -> countForNodeLocked n (uploads w) < maxUploadsPerNode ->
  sent = c :: omap (chunk_for n up) rest -> w_clock (snd run) - w_clock w <= uploadIdleTimeout ->
  exists u, tasks_about n up (fst run) = [TaskFinish u (len gz) (sha256_hex gz)] /\
    up_meta u = meta /\ up_buf u = gz /\ verified u (len gz) (sha256_hex gz) = true /\ gunzip (up_buf u) MaxUncompressedBytes = Ok log.
Proof.
  intros sent run Hz Hlog Hgz Hw Hup Hnone Hcount Hsent Hidle.
  enough (exists u, tasks_about n up (fst run) = [TaskFinish u (len gz) (sha256_hex gz)] /\ up_meta u = meta /\ up_buf u = gz) as (u & Hf & Hm & Hb).
  { exists u. split_and!; [done..| |]; rewrite ?Hb; [rewrite <-Hb; apply verified_own|by apply gunzip_back]. }
  destruct (chunks_of_spec_of up "" meta gz) as (Hs & Hd & Hann & (c0 & l' & El & Hmeta)).
  fold sent in Hs, Hd, Hann, El. rewrite Hsent in Hs, Hd, Hann. assert (c0 = c) as -> by congruence.
  set (cs := omap (chunk_for n up) rest) in *. destruct Hs as (Eup & Ef & Es & _ & Hcl & Hlast).
  assert (Hdl : len (ch_Data c) + Z.of_nat (length (data_of cs)) = len gz).
  { unfold data_of in *. cbn in Hd. apply (f_equal length) in Hd. rewrite length_app, !length_bytes in Hd. unfold len. lia. }
  unfold run in *. cbn [take_all fst snd as_message] in *.
  pose proof (HandleChunk_good n (EContainerLogChunk (Ok c)) w Hw) as Hg.
  set (u0 := MkUpload n up "" meta 0 "" 0).
  assert (Ha : accept n c (sweepLocked (w_clock (bump w)) (uploads w)) = inr u0).
  { apply accept_first; try done; [|by eapply Z.le_lt_trans; [apply held_swept|]].
    apply map_lookup_filter_None. by left. }
  pose proof (HandleChunk_added n c u0 w ltac:(by rewrite Eup) Ef eq_refl Ha) as (now & Hnow & Hres). rewrite Eup in Hres.
  assert (Hp : in_progress n up meta 1 (bytes (ch_Data c)) (w_clock w) (grown c now u0)) by (split; cbn; try done; lia).
  destruct (HandleChunk n (EContainerLogChunk (Ok c)) w) as [t w1]. cbn [fst snd] in *.
  destruct cs as [|c2 cs'] eqn:Ecs.
  - rewrite Hlast in Hres. subst t. pose proof (none_arrive n up rest w1 Hg Hup Ecs) as Hn.
    destruct (take_all rest w1) as [ts w2]. cbn [fst snd] in *. destruct Hann as (cl & [= <-] & <- & <-).
    exists (grown c now u0). unfold tasks_about in *. cbn. rewrite bool_decide_true by done. rewrite Hn. split_and!; [done|done|].
    unfold data_of in Hd. cbn in Hd. rewrite app_nil_r in Hd. apply (f_equal of_bytes) in Hd. by rewrite !of_bytes_bytes in Hd.
  - destruct Hlast as [Hfin Hs]. rewrite Hfin in Hres. destruct Hres as [-> Hu1].
    destruct (rest_arrive n up meta (len gz) (sha256_hex gz) (w_clock w) rest w1 1 (bytes (ch_Data c)) (grown c now u0) (c2 :: cs'))
      as (u' & Hf & Hp'); try done; [lia| | |].
    + rewrite length_bytes. unfold len in *. lia.
    + by destruct (take_all rest w1).
    + destruct (take_all rest w1) as [ts w2]. exists u'. split; [exact Hf|]. split; [by destruct Hp'|].
      pose proof (ip_data _ _ _ _ _ _ _ Hp') as Hb. unfold data_of in *. cbn [map concat] in *. rewrite Hd in Hb.
      apply (f_equal of_bytes) in Hb. by rewrite !of_bytes_bytes in Hb.
Qed.
End Arrival.

(** ** A log crosses, is stored and read *)

(** A compressor that stores its input as it is. *)
Definition plain_gzip : Gzip := {|
  gzip_open := fun _ => None;
  gzip_stream := fun s => (s, None);
  gzipBytes := fun s => Ok s
|}.
Lemma plain_gzip_laws : @GzipLaws plain_gzip.
Proof. intros s gz [= <-]. by split. Qed.
Definition log_host : Node :=
  MkNode "n1" "n1" "n1" "10.0.0.7" Docker (FDec 128 0) (FDec 128 0) AgentOnline None None 0 None None None None None None "".
Definition log_world : World := set_w_nodes {[ "n1" := log_host ]} empty_world.
Definition lab_meta : ContainerLogMeta :=
  MkLogMeta "" "c0ffee" "sparky-lab" "replaced" "exited" (Some 137) true None None 2000 2 false 11.
Definition lab_log : string := "out of memory".
Definition lab_chunk : ContainerLogChunk := default (error_chunk "" "") (hd_error (chunks_of "upload-1" "" lab_meta lab_log)).
(** Another node's upload under the same id, in between. *)
Definition lab_noise : list (string * Envelope) :=
  [("n2", EContainerLogChunk (Ok (MkLogChunk "upload-1" "" 0 "x" (Some lab_meta) false 0 "" "")))].
Lemma per_node_empty {X} (node : X -> string) limit : 0 <= limit -> per_node node limit ∅.
Proof. intros Hl n. unfold held. by rewrite map_filter_empty, map_size_empty. Qed.
Lemma log_world_good : @good plain_gzip log_world.
Proof.
  split; [apply map_Forall_empty|by apply per_node_empty|by apply per_node_empty|by vm_compute|apply map_Forall_empty|].
  intros k1 k2 a1 a2 H1. change (log_archives (w_archive log_world)) with (∅ : gmap string ContainerLogArchive) in H1.
  by rewrite lookup_empty in H1.
Qed.
Lemma upload_arrives_witness :
  exists u, tasks_about "n1" "upload-1" (fst (@take_all quiet_env (as_message "n1" lab_chunk :: lab_noise) log_world))
    = [TaskFinish u 13 (sha256_hex lab_log)] /\ up_buf u = lab_log.
Proof.
  assert (Hsent : chunks_of "upload-1" "" lab_meta lab_log = lab_chunk :: omap (chunk_for "n1" "upload-1") lab_noise) by (vm_compute; reflexivity).
  assert (Hidle : w_clock (snd (@take_all quiet_env (as_message "n1" lab_chunk :: lab_noise) log_world)) - w_clock log_world
    <= uploadIdleTimeout) by (vm_compute; discriminate).
  assert (Hmax : len lab_log <= MaxUncompressedBytes) by (vm_compute; discriminate).
  assert (Hmax' : len lab_log <= MaxCompressedBytes) by (vm_compute; discriminate).
  assert (Hcount : countForNodeLocked "n1" (uploads log_world) < maxUploadsPerNode) by (vm_compute; reflexivity).
  destruct (@upload_arrives quiet_env plain_gzip plain_gzip_laws "n1" "upload-1" lab_meta lab_log lab_log log_world lab_chunk lab_noise
    eq_refl Hmax Hmax' log_world_good eq_refl eq_refl Hcount Hsent Hidle) as (u & Ht & _ & Hb & _).
  exists u. split; [exact Ht|exact Hb].
Defined.

(** The upload's goroutine stores it, confirms it, and it reads back. *)
Definition lab_run := @take_all quiet_env [as_message "n1" lab_chunk] log_world.
Definition lab_task : Task := default (TaskAck "" "" "") (hd_error (fst lab_run)).
Definition lab_stored : World := snd (@run_task quiet_env plain_gzip lab_task (snd lab_run)).
Example stored_log_reads_back :
  w_sent lab_stored = [("n1", MContainerLogAck "upload-1" true "")] /\
  match archive_rows lab_stored with
  | [a] => LogReason a = "replaced" /\
      match fst (@Read quiet_env plain_gzip (MkActor true "" TierAdmin) (LogID a) lab_stored) with
      | Ok (_, text) => text = lab_log | Err _ => False end
  | _ => False
  end.
Proof. vm_compute. repeat split. Qed.
Lemma stored_acks_are_true_witness : @confirms plain_gzip lab_task (snd lab_run) lab_stored.
Proof.
  set (H := quiet_env). set (G := plain_gzip). set (R := fun (_ : N) (_ : nat) => @nil Z).
  assert (Hs : rtc (@logs_step H G R) (log_world, []) (snd lab_run, [lab_task])).
  { apply rtc_once. apply (@logs_chunk H G R "n1" (EContainerLogChunk (Ok lab_chunk)) (Some lab_task) log_world (snd lab_run) []).
    vm_compute. reflexivity. }
  destruct (@stored_acks_are_true H G R _ _ Hs) as [_ Ha]; [split; [exact log_world_good|constructor]|].
  destruct (Ha (lab_stored, [])) as [E|(ts1 & t & ts2 & E1 & _ & Hc)]; [exact (@logs_task H G R lab_task (snd lab_run) [] [])| |].
  - specialize (E "upload-1"). vm_compute in E. discriminate.
  - cbn [snd] in E1. destruct ts1 as [|? [|]]; [|discriminate..]. injection E1 as <- _. exact Hc.
Defined.

(** Another log under a used id is said to be stored, though it is nowhere. *)
Definition other_log : string := "a different log".
Definition other_run := @take_all quiet_env
  (map (as_message "n1") (chunks_of "upload-1" "" lab_meta other_log)) lab_stored.
Definition other_stored : World :=
  snd (@run_task quiet_env plain_gzip (default (TaskAck "" "" "") (hd_error (fst other_run))) (snd other_run)).
Example used_id_is_confirmed :
  w_sent other_stored = w_sent lab_stored ++ [("n1", MContainerLogAck "upload-1" true "")] /\
  map LogGz (archive_rows other_stored) = [lab_log].
Proof. vm_compute. by split. Qed.
