(* ===== verification/Paths.v ===== *)
(** * Slash-separated paths ([path/filepath] on Unix, [agent/modelpath])

    [Clean], [Join], [Rel] and [Match] as the library defines them, on the list
    of a path's elements, and [modelpath.Resolve], through which every model
    reference an agent is sent becomes a directory. *)
From stdpp Require Import base list strings gmap.
From Stdlib Require Import ZArith Lia.
From Stdlib Require Import Ascii.
From Stdlib Require String.
From S2P Require Import Prelude Text.
Local Open Scope string_scope.
Local Open Scope list_scope.
Local Open Scope Z_scope.

(** ** Cleaning *)
Definition split_slash (s : string) : list string := map of_bytes (segments (bytes s)).
(** One element onto the elements so far, the last one first. *)
Definition push (rooted : bool) (stack : list string) (seg : string) : list string :=
  if bool_decide (seg = "") || bool_decide (seg = ".") then stack
  else if bool_decide (seg = "..") then
    match stack with
    | [] => if rooted then [] else [".."]
    | top :: rest => if bool_decide (top = "..") then ".." :: stack else rest
    end
  else seg :: stack.
Definition clean_parts (rooted : bool) (segs : list string) : list string := rev (fold_left (push rooted) segs []).
Record path := MkPath { rooted : bool; parts : list string }.
Definition parse (s : string) : path := let r := has_prefix s "/" in MkPath r (clean_parts r (split_slash s)).
Definition render (p : path) : string :=
  if rooted p then "/" +:+ join "/" (parts p)
  else if bool_decide (parts p = []) then "." else join "/" (parts p).
Definition Clean (s : string) : string := render (parse s).
Definition Join (a b : string) : string :=
  if negb (bool_decide (a = "")) then Clean (a +:+ "/" +:+ b) else if negb (bool_decide (b = "")) then Clean b else "".
Definition IsAbs (s : string) : bool := has_prefix s "/".

(** ** Relative paths *)
(** The elements as the text shows them: the empty path is written [.]. *)
Definition shown (p : path) : list string := if negb (rooted p) && bool_decide (parts p = []) then ["."] else parts p.
Fixpoint strip_common (b t : list string) : list string * list string :=
  match b, t with
  | x :: b', y :: t' => if bool_decide (x = y) then strip_common b' t' else (b, t)
  | _, _ => (b, t)
  end.
Definition Rel (base targ : string) : result string :=
  let b := parse base in let t := parse targ in
  if bool_decide (render t = render b) then Ok "."
  else if negb (Bool.eqb (rooted b) (rooted t)) then Err (Opaque ("Rel: can't make " +:+ targ +:+ " relative to " +:+ base))
  else match strip_common (parts b) (shown t) with
       | ([], rest) => Ok (join "/" rest)
       | (x :: up, rest) =>
           if bool_decide (x = "..") then Err (Opaque ("Rel: can't make " +:+ targ +:+ " relative to " +:+ base))
           else Ok (join "/" (repeat ".." (S (length up)) ++ rest))
       end.

(** ** [modelpath.Resolve] *)
Definition outside (modelRef : string) : error := Opaque ("model_ref " +:+ quote modelRef +:+ " resolves outside model storage").
Definition Resolve (root modelRef : string) : result string :=
  if bool_decide (modelRef = "") then Err (Opaque "empty model_ref")
  else if IsAbs modelRef || has_prefix modelRef "/" then Err (outside modelRef)
  else
    let root := Clean root in
    let dir := Join root modelRef in
    match Rel root dir with
    | Err _ => Err (outside modelRef)
    | Ok rel =>
        if bool_decide (rel = ".") || bool_decide (rel = "..") || has_prefix rel "../" then Err (outside modelRef) else Ok dir
    end.

(** ** The elements of a cleaned path *)
Definition plain (s : string) : Prop := s <> "" /\ s <> "." /\ existsb (is_char 47) (bytes s) = false.
Definition proper (s : string) : Prop := plain s /\ s <> "..".
Definition normal (r : bool) (l : list string) : Prop :=
  exists k l', l = repeat ".." k ++ l' /\ Forall proper l' /\ (r = true -> k = O).

Lemma has_prefix_iff s p : has_prefix s p = true <-> exists t, s = p +:+ t.
Proof.
  unfold has_prefix. split.
  - revert s. induction p as [|c p IH]; intros s Hp; [by exists s|]. destruct s as [|d s]; [done|]. cbn in Hp.
    destruct (Ascii.ascii_dec c d) as [->|]; [|done]. destruct (IH s Hp) as [t ->]. by exists t.
  - intros [t ->]. induction p as [|c p IH]; [by destruct t|].
    change ((if Ascii.ascii_dec c c then String.prefix p (p +:+ t) else false) = true). by destruct (Ascii.ascii_dec c c).
Qed.
Lemma segments_app l m : segments (l ++ ascii_of_N 47 :: m) = segments l ++ segments m.
Proof.
  induction l as [|c l IH]; cbn [app segments].
  - change (is_char 47 (ascii_of_N 47)) with true. cbv iota. destruct (segments_cons m) as (x & xs & ->). done.
  - rewrite IH. destruct (is_char 47 c); [done|]. destruct (segments_cons l) as (x & xs & ->). done.
Qed.
Lemma split_app a b : split_slash (a +:+ "/" +:+ b) = split_slash a ++ split_slash b.
Proof. unfold split_slash. rewrite !bytes_app.
  change (bytes "/" ++ bytes b) with (ascii_of_N 47 :: bytes b). by rewrite segments_app, map_app. Qed.
Lemma segments_plain l : existsb (is_char 47) l = false -> segments l = [l].
Proof.
  induction l as [|c l IH]; cbn; [done|]. intros [Hc Hl]%orb_false_iff. rewrite Hc, (IH Hl). done.
Qed.
Lemma split_plain s : existsb (is_char 47) (bytes s) = false -> split_slash s = [s].
Proof. intros Hs. unfold split_slash. rewrite segments_plain by done. cbn. by rewrite of_bytes_bytes. Qed.
Lemma segments_no_slash l : Forall (fun s => existsb (is_char 47) s = false) (segments l).
Proof.
  induction l as [|c l IH]; cbn; [by constructor|]. destruct (is_char 47 c) eqn:E; [by constructor|].
  destruct (segments_cons l) as (x & xs & Hx). rewrite Hx in *. inversion IH; subst. constructor; [|done]. cbn. by rewrite E.
Qed.
Lemma split_no_slash s : Forall (fun x => existsb (is_char 47) (bytes x) = false) (split_slash s).
Proof. unfold split_slash. apply Forall_fmap. eapply Forall_impl; [apply segments_no_slash|]. intros x Hx. cbn. by rewrite bytes_of_bytes. Qed.
Lemma split_join l : l <> [] -> Forall (fun x => existsb (is_char 47) (bytes x) = false) l -> split_slash (join "/" l) = l.
Proof.
  induction l as [|x l IH]; [done|]. intros _ Hl. inversion Hl as [|? ? Hx Hl']; subst.
  destruct l as [|y l]; [by apply split_plain|]. change (join "/" (x :: y :: l)) with (x +:+ "/" +:+ join "/" (y :: l)).
  rewrite split_app, IH by done. by rewrite split_plain.
Qed.

(** [push] on an element that may appear in a cleaned path. *)
Lemma push_proper r stack x : proper x -> push r stack x = x :: stack.
Proof. intros [(H1 & H2 & _) H3]. unfold push. by rewrite !bool_decide_eq_false_2. Qed.
Lemma fold_proper r l stack : Forall proper l -> fold_left (push r) l stack = rev l ++ stack.
Proof.
  revert stack. induction l as [|x l IH]; intros stack Hl; [done|]. inversion Hl; subst. cbn [fold_left rev].
  rewrite push_proper by done. rewrite IH by done. by rewrite <- app_assoc.
Qed.
Lemma fold_ups k n : fold_left (push false) (repeat ".." k) (repeat ".." n) = repeat ".." (k + n).
Proof.
  revert n. induction k as [|k IH]; intros n; [done|]. cbn [repeat fold_left].
  replace (push false (repeat ".." n) "..") with (repeat ".." (S n)) by (destruct n; reflexivity).
  rewrite (IH (S n)). f_equal. lia.
Qed.
Lemma rev_repeat {A} (x : A) n : rev (repeat x n) = repeat x n.
Proof.
  induction n as [|n IH]; [done|]. cbn. rewrite IH. clear IH. induction n as [|n IH]; [done|]. cbn. by rewrite IH.
Qed.
Lemma clean_normal r l : normal r l -> clean_parts r l = l.
Proof.
  intros (k & l' & -> & Hl & Hr). unfold clean_parts. rewrite fold_left_app. destruct r.
  - rewrite (Hr eq_refl). cbn. rewrite fold_proper, app_nil_r by done. apply rev_involutive.
  - change (@nil string) with (repeat ".." 0). rewrite (fold_ups k 0), fold_proper, Nat.add_0_r by done. by rewrite rev_app_distr, rev_involutive, rev_repeat.
Qed.
Lemma plain_of_split x : existsb (is_char 47) (bytes x) = false -> x <> "" -> x <> "." -> plain x.
Proof. done. Qed.
Lemma push_normal r stack x : existsb (is_char 47) (bytes x) = false -> normal r (rev stack) -> normal r (rev (push r stack x)).
Proof.
  intros Hx Hn. unfold push. destruct (bool_decide (x = "") || bool_decide (x = ".")) eqn:E; [done|].
  apply orb_false_iff in E as [E1 E2]. apply bool_decide_eq_false in E1, E2.
  destruct Hn as (k & l' & Hst & Hl & Hr). case_bool_decide as Hup.
  - destruct stack as [|top rest].
    + destruct r; [exists O, []; by split_and!|]. exists 1%nat, []. by split_and!.
    + case_bool_decide as Htop.
      * subst top. cbn [rev] in *. destruct l' as [|y l' _] using rev_ind.
        -- rewrite app_nil_r in Hst. exists (S k), []. rewrite app_nil_r, Hst. split_and!; [|done|].
           ++ clear. induction k as [|k IH]; [done|]. cbn. by rewrite IH.
           ++ intros ->. specialize (Hr eq_refl). subst k. cbn in Hst. by destruct (rev rest).
        -- exfalso. rewrite app_assoc in Hst. apply app_inj_tail in Hst as [_ <-].
           apply Forall_app in Hl as [_ Hl]. inversion Hl as [|? ? [_ Hbad]]. done.
      * cbn [rev] in Hst. destruct l' as [|y l' _] using rev_ind.
        -- exfalso. rewrite app_nil_r in Hst. destruct k as [|k]; [by destruct (rev rest)|].
           assert (Hk : repeat ".." (S k) = repeat ".." k ++ [".."]).
           { clear. induction k as [|k IH]; [done|]. cbn in *. by rewrite <- IH. }
           rewrite Hk in Hst. apply app_inj_tail in Hst as [_ ->]. done.
        -- rewrite app_assoc in Hst. apply app_inj_tail in Hst as [Hst _]. apply Forall_app in Hl as [Hl _].
           exists k, l'. by split_and!.
  - exists k, (l' ++ [x]). cbn [rev]. rewrite Hst, app_assoc. split_and!; [done| |done].
    apply Forall_app. split; [done|]. by constructor.
Qed.
Lemma clean_parts_normal r l : Forall (fun x => existsb (is_char 47) (bytes x) = false) l -> normal r (clean_parts r l).
Proof.
  unfold clean_parts. assert (Hn : normal r (rev [])) by (exists O, []; by split_and!). revert Hn. generalize (@nil string).
  induction l as [|x l IH]; intros stack Hn Hl; [done|]. inversion Hl; subst. cbn [fold_left]. apply IH; [by apply push_normal|done].
Qed.
Lemma parse_normal s : normal (rooted (parse s)) (parts (parse s)).
Proof. apply clean_parts_normal, split_no_slash. Qed.
Lemma normal_no_slash r l : normal r l -> Forall (fun x => existsb (is_char 47) (bytes x) = false) l.
Proof.
  intros (k & l' & -> & Hl & _). apply Forall_app. split; [|eapply Forall_impl; [exact Hl|]; by intros x [(_ & _ & Hx) _]].
  induction k; by constructor.
Qed.
Lemma normal_plain r l : normal r l -> Forall plain l.
Proof.
  intros (k & l' & -> & Hl & _). apply Forall_app. split; [|eapply Forall_impl; [exact Hl|]; by intros x [Hx _]].
  induction k; by constructor.
Qed.
Lemma split_eq_join l : l <> [] -> Forall plain l -> split_slash (join "/" l) = l.
Proof. intros Hne Hl. apply split_join; [done|]. eapply Forall_impl; [exact Hl|]. by intros x (_ & _ & Hx). Qed.
Lemma join_not_rooted l : Forall plain l -> has_prefix (join "/" l) "/" = false.
Proof.
  intros Hl. destruct l as [|x l]; [done|]. apply not_true_iff_false. intros [t Ht]%has_prefix_iff.
  assert (Hs : split_slash (join "/" (x :: l)) = "" :: split_slash t) by (rewrite Ht; apply (split_app "")).
  rewrite split_eq_join in Hs by done. simplify_eq. inversion Hl as [|? ? [Hbad _]]; done.
Qed.

(** Cleaning gives back a cleaned path. *)
Lemma parse_render p : normal (rooted p) (parts p) -> parse (render p) = p.
Proof.
  destruct p as [r l]. cbn [rooted parts]. intros Hn. pose proof (normal_plain _ _ Hn) as Hp. unfold parse, render. cbn [rooted parts].
  destruct r.
  - assert (Hpre : has_prefix ("/" +:+ join "/" l) "/" = true) by (apply has_prefix_iff; by eexists). rewrite Hpre.
    f_equal. change ("/" +:+ join "/" l) with ("" +:+ "/" +:+ join "/" l). rewrite (split_app "" (join "/" l)). change (split_slash "") with [""].
    unfold clean_parts. cbn [app fold_left]. change (push true [] "") with (@nil string).
    destruct l as [|x l]; [done|]. rewrite split_eq_join by done. by apply (clean_normal true).
  - case_bool_decide as Hl; [subst; done|]. rewrite join_not_rooted by done. f_equal.
    rewrite split_eq_join by done. by apply clean_normal.
Qed.
Lemma parse_Clean s : parse (Clean s) = parse s.
Proof. apply parse_render, parse_normal. Qed.
Lemma Clean_idempotent s : Clean (Clean s) = Clean s.
Proof. unfold Clean at 1. by rewrite parse_Clean. Qed.

(** ** What [Resolve] accepts *)
Lemma strip_common_spec b t :
  exists c, b = c ++ (strip_common b t).1 /\ t = c ++ (strip_common b t).2 /\
    match strip_common b t with (x :: _, y :: _) => x <> y | _ => True end.
Proof.
  revert t. induction b as [|x b IH]; intros t; [by exists []|]. destruct t as [|y t]; [by exists []|]. cbn [strip_common].
  case_bool_decide as Hxy; [|by exists []]. subst y. destruct (IH t) as (c & H1 & H2 & H3).
  exists (x :: c). cbn. rewrite <- H1, <- H2. by split_and!.
Qed.
Lemma strip_common_app b s : strip_common b (b ++ s) = ([], s).
Proof. induction b as [|x b IH]; cbn; [by destruct s|]. by rewrite bool_decide_eq_true_2. Qed.
Lemma normal_tail r b s : normal r (b ++ s) -> head s <> Some ".." -> Forall proper s.
Proof.
  intros (k & l' & Heq & Hl & _) Hs. destruct (decide (k <= length b)%nat) as [Hk|Hk].
  - assert (Hd : s = drop (length b - k) l').
    { apply (f_equal (drop (length b))) in Heq. rewrite drop_app_length in Heq. rewrite Heq, drop_app.
      rewrite repeat_length. rewrite (drop_ge (repeat _ k)); [done|]. rewrite repeat_length. lia. }
    rewrite Hd. by apply Forall_drop.
  - exfalso. apply (f_equal (drop (length b))) in Heq. rewrite drop_app_length in Heq.
    rewrite drop_app, repeat_length in Heq. replace (length b - k)%nat with O in Heq by lia.
    replace k with (length b + S (k - S (length b)))%nat in Heq by lia.
    assert (Hrep : drop (length b) (repeat ".." (length b + S (k - S (length b)))) = repeat ".." (S (k - S (length b)))).
    { generalize (S (k - S (length b))). clear. intros m. induction (length b) as [|n IH]; [done|]. exact IH. }
    rewrite Hrep in Heq. subst s. done.
Qed.
Lemma shown_eq p : parts p <> [] -> shown p = parts p.
Proof. intros Hp. unfold shown. rewrite (bool_decide_eq_false_2 _ Hp). by rewrite andb_false_r. Qed.
Lemma render_inj p q : normal (rooted p) (parts p) -> normal (rooted q) (parts q) -> render p = render q -> p = q.
Proof. intros Hp Hq E. rewrite <- (parse_render p Hp), <- (parse_render q Hq). by rewrite E. Qed.
Lemma up_prefix s : s <> [] -> Forall plain s -> 
  bool_decide (join "/" s = ".") || bool_decide (join "/" s = "..") || has_prefix (join "/" s) "../" = bool_decide (head s = Some "..").
Proof.
  intros Hne Hs. pose proof (split_eq_join s Hne Hs) as Hsp. destruct s as [|x s]; [done|]. cbn [head].
  assert (Hdot : bool_decide (join "/" (x :: s) = ".") = false).
  { apply bool_decide_eq_false. intros E. rewrite E in Hsp. change (split_slash ".") with ["."] in Hsp. simplify_eq.
    inversion Hs as [|? ? (_ & Hbad & _)]; done. }
  rewrite Hdot. cbn [orb]. apply Bool.eq_iff_eq_true. rewrite orb_true_iff, !bool_decide_eq_true, has_prefix_iff. split.
  - intros [E|[t E]]; rewrite E in Hsp; [change (split_slash "..") with [".."] in Hsp; by simplify_eq|].
    change ("../" +:+ t) with (".." +:+ "/" +:+ t) in Hsp. rewrite (split_app ".." t) in Hsp. change (split_slash "..") with [".."] in Hsp. cbn [app] in Hsp. by injection Hsp as -> _.
  - intros [= ->]. destruct s as [|y s]; [by left|]. right. by exists (join "/" (y :: s)).
Qed.
(** Strictly below: by elements none of which climbs. *)
Definition below (root dir : path) : Prop :=
  rooted dir = rooted root /\ exists s, s <> [] /\ Forall proper s /\ parts dir = parts root ++ s.

Lemma climbs n rest (rel := join "/" (repeat ".." (S n) ++ rest)) :
  bool_decide (rel = ".") || bool_decide (rel = "..") || has_prefix rel "../" = true.
Proof.
  subst rel. change (repeat ".." (S n) ++ rest) with (".." :: (repeat ".." n ++ rest)).
  destruct (repeat ".." n ++ rest) as [|z zs]; [by vm_compute|]. rewrite orb_true_iff. right.
  apply has_prefix_iff. by exists (join "/" (z :: zs)).
Qed.
Lemma Rel_inside pr pd : normal (rooted pr) (parts pr) -> normal (rooted pd) (parts pd) -> rooted pd = rooted pr ->
  match Rel (render pr) (render pd) with
  | Err _ => ~ below pr pd
  | Ok rel => bool_decide (rel = ".") || bool_decide (rel = "..") || has_prefix rel "../" = false <-> below pr pd
  end.
Proof.
  intros Hr Hd Heq. unfold Rel. rewrite !parse_render by done. case_bool_decide as Hsame.
  { apply render_inj in Hsame as <-; [|done..]. split; [by vm_compute|]. intros (_ & s & Hs & _ & Habs).
    apply (f_equal length) in Habs. rewrite length_app in Habs. destruct s; [done|cbn in Habs; lia]. }
  rewrite Heq, Bool.eqb_reflx. cbn [negb].
  destruct (decide (parts pd = [])) as [Hnil|Hnil].
  { destruct (parts pr) as [|x b] eqn:Eb.
    - exfalso. apply Hsame. f_equal. destruct pr, pd; cbn in *; congruence.
    - assert (Hno : ~ below pr pd) by (intros (_ & s & Hs & _ & Habs); rewrite Hnil, Eb in Habs; done).
      destruct (strip_common (x :: b) (shown pd)) as [[|y up] rest] eqn:Est.
      + exfalso. destruct (strip_common_spec (x :: b) (shown pd)) as (c & H1 & H2 & _). rewrite Est in *. cbn in H1, H2.
        rewrite app_nil_r in H1. subst c. unfold shown in H2. rewrite Hnil in H2. destruct (_ && _); [|done].
        pose proof (normal_plain _ _ Hr) as Hp. inversion Hp as [|? ? (_ & Hbad & _)]. cbn in H2. congruence.
      + case_bool_decide; [done|]. split; [|done]. intros E. by rewrite climbs in E. }
  rewrite (shown_eq pd Hnil). destruct (strip_common_spec (parts pr) (parts pd)) as (c & H1 & H2 & H3).
  destruct (strip_common (parts pr) (parts pd)) as [[|y up] rest] eqn:Est; cbn [fst snd] in *.
  - rewrite app_nil_r in H1. subst c.
    assert (Hrest : rest <> []).
    { intros ->. rewrite app_nil_r in H2. apply Hsame. f_equal. destruct pr, pd; cbn in *; congruence. }
    assert (Hplain : Forall plain rest).
    { pose proof (normal_plain _ _ Hd) as Hp. rewrite H2 in Hp. by apply Forall_app in Hp as [_ Hp]. }
    rewrite up_prefix by done. rewrite bool_decide_eq_false. split.
    + intros Hh. split; [done|]. exists rest. split_and!; [done| |done]. eapply normal_tail; [by rewrite <- H2|done].
    + intros (_ & s & Hs & Hprop & Hp). rewrite H2 in Hp. apply app_inv_head in Hp. subst s. intros Hh.
      destruct rest as [|x rest]; [done|]. simplify_eq/=. inversion Hprop as [|? ? [_ Hbad]]; done.
  - assert (Hno : ~ below pr pd).
    { intros (_ & s & Hs & _ & Hp). rewrite Hp in Est. by rewrite strip_common_app in Est. }
    case_bool_decide; [done|]. split; [|done]. intros E. by rewrite climbs in E.
Qed.

Lemma Clean_nonempty s : Clean s <> "".
Proof.
  intros E. pose proof (parse_Clean s) as Hp. unfold Clean, render in E. destruct (rooted (parse s)); [done|].
  case_bool_decide as Hn; [done|]. pose proof (split_eq_join _ Hn (normal_plain _ _ (parse_normal s))) as Hs.
  rewrite E in Hs. change (split_slash "") with [""] in Hs. pose proof (normal_plain _ _ (parse_normal s)) as Hpl.
  rewrite <- Hs in Hpl. inversion Hpl as [|? ? [Hbad _]]. done.
Qed.
Lemma Join_Clean root ref : Join (Clean root) ref = Clean (Clean root +:+ "/" +:+ ref).
Proof. unfold Join. by rewrite (bool_decide_eq_false_2 _ (Clean_nonempty root)). Qed.
Lemma rooted_app a b : a <> "" -> rooted (parse (a +:+ b)) = rooted (parse a).
Proof. 
  intros Ha. unfold parse. cbn [rooted]. destruct a as [|c a]; [done|]. apply Bool.eq_iff_eq_true. rewrite !has_prefix_iff. split.
  - intros [t E]. injection E as -> _. by exists a.
  - intros [t E]. injection E as -> _. by exists (a +:+ b).
Qed.

Lemma Resolve_iff root modelRef dir :
  Resolve root modelRef = Ok dir <->
  modelRef <> "" /\ IsAbs modelRef = false /\ dir = Join (Clean root) modelRef /\ below (parse root) (parse dir).
Proof.
  unfold Resolve. case_bool_decide as Hne; [by split; [done|intros [? _]]|]. unfold IsAbs. rewrite orb_diag.
  destruct (has_prefix modelRef "/"); [by split; [done|intros (_ & ? & _)]|].
  rewrite Join_Clean. set (joined := Clean root +:+ "/" +:+ modelRef).
  assert (Hroot : rooted (parse joined) = rooted (parse root)).
  { unfold joined. rewrite rooted_app by apply Clean_nonempty. by rewrite parse_Clean. }
  pose proof (Rel_inside (parse root) (parse joined) (parse_normal _) (parse_normal _) Hroot) as HR.
  change (render (parse root)) with (Clean root) in HR. change (render (parse joined)) with (Clean joined) in HR.
  assert (Hb : forall d, d = Clean joined -> below (parse root) (parse d) <-> below (parse root) (parse joined)).
  { intros d ->. by rewrite parse_Clean. }
  destruct (Rel (Clean root) (Clean joined)) as [rel|e].
  - destruct (_ || _); [split; [done|]|split].
    + intros (_ & _ & Hd & Hbelow). apply Hb, HR in Hbelow; done.
    + intros [= <-]. split_and!; [done..|]. apply (Hb _ eq_refl), HR. done.
    + by intros (_ & _ & -> & _).
  - split; [done|]. intros (_ & _ & Hd & Hbelow). by apply Hb in Hbelow.
Qed.
(** [Resolve] answers with a directory exactly for a reference that is
    neither empty nor absolute and that, joined to the storage root, is strictly
    below it, by elements none of which is [.] or [..]; what it then answers is
    the joined path, cleaned. *)
Theorem Resolve_inside root modelRef dir :
  Resolve root modelRef = Ok dir <->
  modelRef <> "" /\ IsAbs modelRef = false /\ dir = Join (Clean root) modelRef /\ below (parse root) (parse dir).
Proof. apply Resolve_iff. Qed.
(** The path of elements joined below a root. *)
Lemma split_parts r a p stack : Forall proper p -> fold_left (push r) (split_slash a ++ p) stack = rev p ++ fold_left (push r) (split_slash a) stack.
Proof. intros Hp. rewrite fold_left_app. by apply fold_proper. Qed.
Lemma parse_below root p : Forall proper p -> p <> [] ->
  parse (Join (Clean root) (join "/" p)) = MkPath (rooted (parse root)) (parts (parse root) ++ p).
Proof.
  intros Hp Hne. rewrite Join_Clean, parse_Clean. pose proof (rooted_app (Clean root) ("/" +:+ join "/" p) (Clean_nonempty root)) as Hr.
  rewrite parse_Clean in Hr. destruct (parse (Clean root +:+ "/" +:+ join "/" p)) as [r l] eqn:E. cbn [rooted] in Hr. subst r. f_equal.
  unfold parse in E. injection E as Er El. rewrite <- El. rewrite Er, split_app, split_join by
    (done || (eapply Forall_impl; [exact Hp|]; by intros x [(_ & _ & Hx) _])).
  unfold clean_parts. rewrite split_parts by done. rewrite rev_app_distr, rev_involutive. f_equal.
  rewrite <- (parse_Clean root). unfold parse. cbn [parts]. unfold clean_parts. f_equal. f_equal.
  pose proof (parse_Clean root) as Hc. unfold parse in Hc. injection Hc as Hc _. unfold parse. cbn [rooted]. by rewrite Hc.
Qed.
Lemma join_split s : join "/" (split_slash s) = s.
Proof.
  unfold split_slash. rewrite <- (of_bytes_bytes s) at 2. generalize (bytes s). clear s. intros l.
  induction l as [|c l IH]; [done|]. cbn [segments]. destruct (segments_cons l) as (x & xs & E). rewrite E in *.
  destruct (is_char 47 c) eqn:Ec.
  - unfold is_char, code in Ec. apply Z.eqb_eq in Ec. assert (c = ascii_of_N 47) as ->.
    { rewrite <- (ascii_N_embedding c). f_equal. lia. }
    cbn [map] in *. change (of_bytes (ascii_of_N 47 :: l)) with ("/" +:+ of_bytes l). rewrite <- IH. done.
  - cbn [map] in *. change (of_bytes (c :: l)) with (String.String c (of_bytes l)). rewrite <- IH.
    destruct xs; done.
Qed.
Example resolve_stays :
  Resolve "/srv//models/" "org/./name" = Ok "/srv/models/org/name" /\
  Resolve "/srv/models" "../models/x" = Ok "/srv/models/x" /\
  Resolve "/srv/models" "a/../../b" = Err (outside "a/../../b") /\
  Resolve "/srv/models" "a/.." = Err (outside "a/..") /\
  Resolve "../models" "../../x" = Err (outside "../../x") /\ Resolve "models" "..." = Ok "models/...".
Proof. by vm_compute. Qed.

(** ** [filepath.Match] and [filepath.Glob] *)
Definition ErrBadPattern : error := Sentinel "filepath.ErrBadPattern" "syntax error in pattern".
Definition star : Z := 42.
(** [scanChunk]: whether stars come first, the chunk up to the next star
    outside a class, and the rest. *)
Fixpoint skip_stars (l : list ascii) : bool * list ascii :=
  match l with
  | c :: l' => if is_char star c then (true, snd (skip_stars l')) else (false, l)
  | [] => (false, [])
  end.
Fixpoint scan_loop (inrange : bool) (l : list ascii) : list ascii * list ascii :=
  let keep c p : list ascii * list ascii := (c :: fst p, snd p) in
  match l with
  | [] => ([], [])
  | c :: l' =>
      if is_char 92 c then
        match l' with d :: l'' => keep c (keep d (scan_loop inrange l'')) | [] => ([c], []) end
      else if is_char 91 c then keep c (scan_loop true l')
      else if is_char 93 c then keep c (scan_loop false l')
      else if is_char star c && negb inrange then ([], l)
      else keep c (scan_loop inrange l')
  end.
Definition scanChunk (pattern : list ascii) : bool * list ascii * list ascii :=
  let (s, p) := skip_stars pattern in let (chunk, rest) := scan_loop false p in (s, chunk, rest).
(** [getEsc] *)
Definition getEsc (chunk : list ascii) : option (Z * list ascii) :=
  match chunk with
  | [] => None
  | c :: rest =>
      if is_char 45 c || is_char 93 c then None
      else
        let body := if is_char 92 c then rest else chunk in
        match body with
        | [] => None
        | _ =>
            let (r, n) := decode_rune body in
            if (r =? 65533) && Nat.eqb n 1 then None
            else match drop n body with [] => None | nchunk => Some (r, nchunk) end
        end
  end.
(** The ranges of a class, after its first bracket: whether [r] is in one of
    them, and what follows the class.  Every range takes a byte. *)
Fixpoint class_loop (fuel : nat) (r : Z) (chunk : list ascii) (nrange : nat) (found : bool) : option (bool * list ascii) :=
  match fuel with
  | O => None
  | S f =>
      match chunk, nrange with
      | c :: rest, S _ => if is_char 93 c then Some (found, rest) else class_range f r chunk nrange found
      | _, _ => class_range f r chunk nrange found
      end
  end
with class_range (fuel : nat) (r : Z) (chunk : list ascii) (nrange : nat) (found : bool) : option (bool * list ascii) :=
  match fuel with
  | O => None
  | S f =>
      match getEsc chunk with
      | None => None
      | Some (lo, c1) =>
          match c1 with
          | d :: c2 =>
              if is_char 45 d then
                match getEsc c2 with
                | None => None
                | Some (hi, c3) => class_loop f r c3 (S nrange) (found || ((lo <=? r) && (r <=? hi)))
                end
              else class_loop f r c1 (S nrange) (found || (r =? lo))
          | [] => None
          end
      end
  end.
(** [matchChunk]: [None] is a bad pattern, [Some None] no match, and otherwise
    what is left of the name.  [s] is [None] once the match has failed. *)
Fixpoint matchChunk (fuel : nat) (chunk : list ascii) (s : option (list ascii)) : option (option (list ascii)) :=
  match fuel, chunk with
  | _, [] => Some s
  | O, _ => None
  | S f, c :: rest =>
      let s := match s with Some [] => None | _ => s end in
      if is_char 91 c then
        let '(r, s1) := match s with
          | Some l => let (r, n) := decode_rune l in (r, Some (drop n l)) | None => (0, None) end in
        let '(negated, body) := match rest with
          | d :: rest' => if is_char 94 d then (true, rest') else (false, rest) | [] => (false, rest) end in
        match class_loop (S (S (2 * length body))) r body 0 false with
        | None => None
        | Some (found, chunk') => matchChunk f chunk' (if Bool.eqb found negated then None else s1)
        end
      else if is_char 63 c then
        matchChunk f rest match s with
          | Some (x :: l) => if is_char 47 x then None else Some (drop (snd (decode_rune (x :: l))) (x :: l)) | _ => None end
      else
        let lit := if is_char 92 c then rest else chunk in
        match lit with
        | [] => None
        | d :: rest' =>
            matchChunk f rest' match s with
              | Some (x :: l) => if bool_decide (x = d) then Some l else None | _ => None end
        end
  end.
Definition match_chunk (chunk name : list ascii) : option (option (list ascii)) := matchChunk (S (length chunk)) chunk (Some name).
(** The search after a star: the chunk further into the name, up to a slash. *)
Fixpoint star_loop (chunk : list ascii) (last : bool) (name : list ascii) : option (option (list ascii)) :=
  match name with
  | [] => Some None
  | c :: name' =>
      if is_char 47 c then Some None
      else match match_chunk chunk name' with
           | None => None
           | Some (Some t) => if last && negb (bool_decide (t = [])) then star_loop chunk last name' else Some (Some t)
           | Some None => star_loop chunk last name'
           end
  end.
Fixpoint rest_valid (fuel : nat) (pattern : list ascii) : bool :=
  match fuel, pattern with
  | _, [] => true
  | O, _ => false
  | S f, _ => let '(_, chunk, rest) := scanChunk pattern in
      match match_chunk chunk [] with None => false | Some _ => rest_valid f rest end
  end.
(** [Match]: [None] is [ErrBadPattern]. *)
Fixpoint match_loop (fuel : nat) (pattern name : list ascii) : option bool :=
  match fuel, pattern with
  | _, [] => Some (bool_decide (name = []))
  | O, _ => None
  | S f, _ =>
      let '(star, chunk, rest) := scanChunk pattern in
      if star && bool_decide (chunk = []) then Some (negb (existsb (is_char 47) name))
      else
        let unmatched := if rest_valid (S (length rest)) rest then Some false else None in
        let search := if star then
            match star_loop chunk (bool_decide (rest = [])) name with
            | None => None | Some (Some t) => match_loop f rest t | Some None => unmatched end
          else unmatched in
        match match_chunk chunk name with
        | Some (Some t) => if bool_decide (t = []) || negb (bool_decide (rest = [])) then match_loop f rest t else search
        | Some None => search
        | None => None
        end
  end.
Definition Match (pattern name : string) : option bool :=
  match_loop (S (String.length pattern)) (bytes pattern) (bytes name).
Definition hasMeta (s : string) : bool :=
  existsb (fun c => is_char star c || is_char 63 c || is_char 91 c || is_char 92 c) (bytes s).

(** [Split] at the last slash, and [cleanGlobPath] of its directory. *)
Definition Dir_Base (s : string) : string * string :=
  let l := split_slash s in
  let dir := join "/" (removelast l) in
  ((if bool_decide (removelast l = []) then "." else if bool_decide (dir = "") then "/" else dir), List.last l "").
Section Glob.
(** What [Stat] and [Readdirnames] say of a directory: its sorted names, if it
    can be read. *)
Variable names_of : string -> option (list string).
Fixpoint glob_names (dir pattern : string) (names : list string) (m : list string) : option (list string) :=
  match names with
  | [] => Some m
  | n :: names' =>
      match Match pattern n with
      | None => None
      | Some true => glob_names dir pattern names' (m ++ [Join dir n])
      | Some false => glob_names dir pattern names' m
      end
  end.
Definition glob (dir pattern : string) (m : list string) : option (list string) :=
  match names_of dir with None => Some m | Some names => glob_names dir pattern names m end.
(** [Glob] of a pattern whose last element has a star: [None] is its error.
    Every step up the path drops an element. *)
Fixpoint glob_loop (fuel : nat) (pattern : string) : option (list string) :=
  match fuel with
  | O => None
  | S f =>
      match Match pattern "" with
      | None => None
      | Some _ =>
          let (dir, file) := Dir_Base pattern in
          if negb (hasMeta dir) then glob dir file []
          else if bool_decide (dir = pattern) then None
          else match glob_loop f dir with
               | None => None
               | Some ds => foldl (fun acc d => match acc with None => None | Some m => glob d file m end) (Some []) ds
               end
      end
  end.
Definition Glob (pattern : string) : option (list string) := glob_loop (S (length (split_slash pattern))) pattern.
End Glob.

Example match_examples :
  Match "*.gguf" "m-Q4_K_M.gguf" = Some true /\ Match "*.gguf" ".m.gguf" = Some true /\ Match "*.gguf" "m.gguf.aB3dE5" = Some false /\
  Match "m[0-9]" "m7" = Some true /\ Match "m[1]" "m[1]" = Some false /\ Match "m[" "m[" = None /\ Match "a*b?c" "axxbyc" = Some true /\
  Match "[^a-c]x" "dx" = Some true /\ Match "*" "a/b" = Some false /\ Match "\*" "*" = Some true.
Proof. by vm_compute. Qed.

(** ** Patterns without a class: the files of a plain directory *)
Definition literal (c : ascii) : bool := negb (is_char star c || is_char 63 c || is_char 91 c || is_char 92 c).
Fixpoint strip_lit (l s : list ascii) : option (list ascii) :=
  match l, s with
  | [], _ => Some s
  | c :: l', d :: s' => if bool_decide (d = c) then strip_lit l' s' else None
  | _, [] => None
  end.
Lemma strip_lit_app l s : strip_lit l (l ++ s) = Some s.
Proof. induction l as [|c l IH]; [done|]. cbn. by rewrite bool_decide_eq_true_2. Qed.
Lemma literal_not c : literal c = true -> is_char star c = false /\ is_char 63 c = false /\ is_char 91 c = false /\ is_char 92 c = false.
Proof. unfold literal. intros Hc. apply negb_true_iff in Hc. by repeat apply orb_false_iff in Hc as [Hc ?]. Qed.
Lemma matchChunk_literal f l s : (length l <= f)%nat -> forallb literal l = true ->
  matchChunk f l s = Some (match s with Some x => strip_lit l x | None => None end).
Proof.
  revert l s. induction f as [|f IH]; intros l s Hl Hlit; (destruct l as [|c l]; [by destruct s|]); [cbn in Hl; lia|].
  cbn [forallb] in Hlit. apply andb_true_iff in Hlit as [Hc Hlit]. destruct (literal_not c Hc) as (_ & H63 & H91 & H92).
  cbn [matchChunk]. rewrite H91, H63, H92. rewrite IH by (cbn in Hl; done || lia).
  destruct s as [[|x s]|]; cbn; [done| |done]. by case_bool_decide.
Qed.
Lemma match_chunk_literal l s : forallb literal l = true -> match_chunk l s = Some (strip_lit l s).
Proof. intros Hl. unfold match_chunk. rewrite matchChunk_literal by (done || lia). done. Qed.
Lemma star_loop_total chunk last name : forallb literal chunk = true -> star_loop chunk last name <> None.
Proof.
  intros Hl. induction name as [|c name IH]; [done|]. cbn [star_loop]. destruct (is_char 47 c); [done|].
  rewrite match_chunk_literal by done. destruct (strip_lit chunk name) as [t|]; [|done]. by destruct (last && _).
Qed.
Lemma star_loop_suffix chunk pre c : forallb literal chunk = true -> existsb (is_char 47) (c :: pre) = false ->
  star_loop chunk true (c :: pre ++ chunk) = Some (Some []).
Proof.
  intros Hl. revert c. induction pre as [|d pre IH]; intros c Hs; cbn [existsb] in Hs; apply orb_false_iff in Hs as [Hc Hs].
  - cbn [app star_loop]. rewrite Hc, match_chunk_literal by done. pose proof (strip_lit_app chunk []) as E. rewrite app_nil_r in E.
    by rewrite E.
  - cbn [app]. change (star_loop chunk true (c :: d :: pre ++ chunk)) with
      (if is_char 47 c then Some None else match match_chunk chunk (d :: pre ++ chunk) with None => None
       | Some (Some t) => if true && negb (bool_decide (t = [])) then star_loop chunk true (d :: pre ++ chunk) else Some (Some t)
       | Some None => star_loop chunk true (d :: pre ++ chunk) end).
    rewrite Hc, match_chunk_literal by done. rewrite (IH d Hs). destruct (strip_lit chunk (d :: pre ++ chunk)) as [t|]; [|done].
    case_bool_decide as Ht; [by subst t|done].
Qed.
Lemma Match_gguf_total n : Match "*.gguf" n <> None.
Proof.
  unfold Match. change (String.length "*.gguf") with 6%nat. cbn [match_loop]. change (bytes "*.gguf") with (ascii_of_N 42 :: bytes ".gguf").
  change (scanChunk (ascii_of_N 42 :: bytes ".gguf")) with (true, bytes ".gguf", @nil ascii). cbv iota beta.
  rewrite match_chunk_literal by reflexivity. rewrite (bool_decide_eq_false_2 (bytes ".gguf" = [])) by done. cbn [andb].
  pose proof (star_loop_total (bytes ".gguf") true (bytes n) eq_refl) as Hs.
  change (bool_decide (@nil ascii = [])) with true. change (rest_valid 1 []) with true.
  assert (Hsearch : match star_loop (bytes ".gguf") true (bytes n) with
    | None => None | Some (Some t) => Some (bool_decide (t = [])) | Some None => Some false end <> None :> option bool)
    by (destruct (star_loop _ _ _) as [[t|]|]; done).
  destruct (strip_lit (bytes ".gguf") (bytes n)) as [t|]; [destruct (_ || _); [done|]|]; exact Hsearch.
Qed.
Lemma Match_gguf n : existsb (is_char 47) (bytes n) = false -> has_suffix n ".gguf" = true -> Match "*.gguf" n = Some true.
Proof.
  intros Hs Hsuf. unfold has_suffix in Hsuf. apply bool_decide_eq_true in Hsuf.
  assert (Hn : exists pre, bytes n = pre ++ bytes ".gguf").
  { eexists. rewrite <- Hsuf at 1. symmetry. apply take_drop. }
  clear Hsuf. destruct Hn as [pre Hn]. rewrite Hn in Hs. rewrite existsb_app in Hs. apply orb_false_iff in Hs as [Hs _].
  unfold Match. change (String.length "*.gguf") with 6%nat. rewrite Hn. cbn [match_loop].
  change (bytes "*.gguf") with (ascii_of_N 42 :: bytes ".gguf").
  change (scanChunk (ascii_of_N 42 :: bytes ".gguf")) with (true, bytes ".gguf", @nil ascii). cbv iota beta.
  rewrite match_chunk_literal by reflexivity. rewrite (bool_decide_eq_false_2 (bytes ".gguf" = [])) by done. cbn [andb].
  change (bool_decide (@nil ascii = [])) with true. change (rest_valid 1 []) with true. cbn [negb].
  destruct pre as [|c pre].
  - pose proof (strip_lit_app (bytes ".gguf") []) as E. rewrite app_nil_r in E. cbn [app]. by rewrite E.
  - change ((c :: pre) ++ bytes ".gguf") with (c :: pre ++ bytes ".gguf"). rewrite star_loop_suffix by done.
    destruct (strip_lit _ _) as [t|]; [|done]. case_bool_decide as Ht; [by subst t|done].
Qed.

Lemma scan_loop_literal l t : forallb literal l = true -> scan_loop false (l ++ ascii_of_N 42 :: t) = (l, ascii_of_N 42 :: t).
Proof.
  induction l as [|c l IH]; intros Hl; [done|]. cbn [forallb] in Hl. apply andb_true_iff in Hl as [Hc Hl].
  destruct (literal_not c Hc) as (H42 & _ & H91 & H92). cbn [app scan_loop]. rewrite H92, H91, H42, (IH Hl). cbn [andb fst snd].
  by destruct (is_char 93 c).
Qed.
Lemma skip_stars_literal c l : literal c = true -> skip_stars (c :: l) = (false, c :: l).
Proof. intros Hc. destruct (literal_not c Hc) as (H42 & _). cbn [skip_stars]. by rewrite H42. Qed.
Lemma hasMeta_literal s : hasMeta s = false -> forallb literal (bytes s) = true.
Proof.
  unfold hasMeta, literal. induction (bytes s) as [|c l IH]; [done|]. cbn. intros [Hc Hl]%orb_false_iff. by rewrite Hc, IH.
Qed.
Lemma Dir_Base_snoc d b : d <> "" -> existsb (is_char 47) (bytes b) = false -> Dir_Base (d +:+ "/" +:+ b) = (d, b).
Proof.
  intros Hd Hb. unfold Dir_Base. rewrite split_app, (split_plain b) by done. rewrite removelast_last, last_last, join_split.
  assert (Hne : split_slash d <> []) by (unfold split_slash; destruct (segments_cons (bytes d)) as (x & xs & ->); done).
  by rewrite !bool_decide_eq_false_2.
Qed.
Lemma glob_names_total dir names m : exists l, glob_names dir "*.gguf" names m = Some (m ++ l) /\
  ((exists n, n ∈ names /\ Match "*.gguf" n = Some true) -> l <> []).
Proof.
  revert m. induction names as [|n names IH]; intros m; cbn [glob_names].
  - exists []. rewrite app_nil_r. split; [done|]. intros (n & Hn & _). by apply elem_of_nil in Hn.
  - destruct (Match "*.gguf" n) as [[]|] eqn:E; [| |by apply Match_gguf_total in E].
    + destruct (IH (m ++ [Join dir n])) as (l & -> & _). exists (Join dir n :: l). split; [by rewrite <- app_assoc|done].
    + destruct (IH m) as (l & -> & Hl). exists l. split; [done|]. intros (x & [->|Hx]%elem_of_cons & Hm); [congruence|]. apply Hl. by exists x.
Qed.
(** In a directory whose path has no metacharacter, globbing for gguf files
    finds some when there is one. *)
Lemma Glob_gguf names_of d names : hasMeta d = false -> d <> "" -> names_of d = Some names ->
  exists l, Glob names_of (d +:+ "/" +:+ "*.gguf") = Some l /\
    (forall n, n ∈ names -> existsb (is_char 47) (bytes n) = false -> has_suffix n ".gguf" = true -> l <> []).
Proof.
  intros Hm Hd Hnames. pose proof (hasMeta_literal d Hm) as Hlit. unfold Glob. cbn [glob_loop].
  assert (HM : Match (d +:+ "/" +:+ "*.gguf") "" = Some false).
  { unfold Match. generalize (String.length (d +:+ "/" +:+ "*.gguf")) as k. intros k. rewrite !bytes_app.
    change (bytes "/" ++ bytes "*.gguf") with ([ascii_of_N 47] ++ ascii_of_N 42 :: bytes ".gguf"). rewrite app_assoc.
    assert (Hl : forallb literal (bytes d ++ [ascii_of_N 47]) = true) by (by rewrite forallb_app, Hlit).
    destruct (bytes d ++ [ascii_of_N 47]) as [|c l] eqn:E; [by destruct (bytes d)|].
    pose proof Hl as Hl'. cbn [forallb] in Hl'. apply andb_true_iff in Hl' as [Hc _]. cbn [app match_loop]. unfold scanChunk.
    rewrite skip_stars_literal by done. change (c :: l ++ ascii_of_N 42 :: bytes ".gguf") with ((c :: l) ++ ascii_of_N 42 :: bytes ".gguf").
    rewrite scan_loop_literal by done. cbn [andb]. rewrite match_chunk_literal by done. reflexivity. }
  rewrite HM, Dir_Base_snoc, Hm by done. cbn [negb]. unfold glob. rewrite Hnames.
  destruct (glob_names_total d names []) as (l & -> & Hl). exists l. split; [done|]. intros n Hn Hs Hsuf. apply Hl. exists n.
  split; [done|]. by apply Match_gguf.
Qed.
