(* ===== verification/RealPath.v ===== *)
(** * Paths with their symbolic links resolved ([filepath.EvalSymlinks])

    A file system by the physical paths of its nodes, a link holding the text of
    its target, and [walkSymlinks] over it: element by element, at most 255
    links.  What it returns is a path without links, in cleaned form. *)
From stdpp Require Import base list strings gmap.
From Stdlib Require Import ZArith Lia.
From Stdlib Require Import Ascii.
From Stdlib Require String.
From S2P Require Import Prelude Text Paths.
Local Open Scope string_scope.
Local Open Scope list_scope.
Local Open Scope Z_scope.

Inductive fnode := FFile | FDir | FLink (target : string) | FOther.
#[export] Instance fnode_eq_dec : EqDecision fnode.
Proof. solve_decision. Defined.
(** The nodes below the root, by the elements of their path, and the working
    directory, a path without links. *)
Record files := MkFiles { fs_nodes : gmap (list string) fnode; fs_cwd : list string }.
Definition errNotExist : error := Sentinel "fs.ErrNotExist" "no such file or directory".

Section Walk.
Variable fs : files.
(** The elements of a path (the last one first), from the root. *)
Definition physical (r : bool) (stack : list string) : list string :=
  if r then rev stack else clean_parts true (fs_cwd fs ++ rev stack).
Definition node_at (p : list string) : option fnode := if bool_decide (p = []) then Some FDir else fs_nodes fs !! p.
Definition lstat (r : bool) (stack : list string) : option fnode := node_at (physical r stack).
Definition special_seg (seg : string) : bool := bool_decide (seg = "") || bool_decide (seg = ".") || bool_decide (seg = "..").
Fixpoint walk_links (links : nat) : bool -> list string -> list string -> result (bool * list string) :=
  fix go (r : bool) (stack todo : list string) : result (bool * list string) :=
    match todo with
    | [] => Ok (r, stack)
    | seg :: rest =>
        if special_seg seg then go r (push r stack seg) rest
        else match lstat r (seg :: stack) with
             | None => Err errNotExist
             | Some (FLink target) =>
                 match links with
                 | O => Err (Opaque "EvalSymlinks: too many links")
                 | S l => if IsAbs target then walk_links l true [] (split_slash target ++ rest)
                          else walk_links l r stack (split_slash target ++ rest)
                 end
             | Some FDir => go r (seg :: stack) rest
             | Some _ => if bool_decide (rest = []) then go r (seg :: stack) rest else Err (Opaque "not a directory")
             end
    end.
Definition EvalSymlinks (s : string) : result string :=
  match walk_links 255 (IsAbs s) [] (split_slash s) with
  | Ok (r, stack) => Ok (render (MkPath r (rev stack)))
  | Err e => Err e
  end.

(** [os.Stat], and the sorted names of a directory. *)
Definition stat (s : string) : option fnode :=
  match walk_links 255 (IsAbs s) [] (split_slash s) with Ok (r, stack) => lstat r stack | Err _ => None end.
Definition child_of (p : list string) (k : list string) : option string :=
  match last k with Some n => if bool_decide (k = p ++ [n]) then Some n else None | None => None end.
Definition children (p : list string) : list string :=
  sort_by string_le (omap (child_of p) (map fst (map_to_list (fs_nodes fs)))).
Definition names_in (s : string) : option (list string) :=
  match walk_links 255 (IsAbs s) [] (split_slash s) with
  | Ok (r, stack) => match lstat r stack with Some FDir => Some (children (physical r stack)) | _ => None end
  | Err _ => None
  end.

(** ** What is returned has no link on it *)
Definition no_link (n : fnode) : Prop := match n with FLink _ => False | _ => True end.
(** Every part of the path, up to itself, is there and is not a link. *)
Definition unlinked (p : list string) : Prop :=
  forall i, (i <= length p)%nat -> exists n, node_at (take i p) = Some n /\ no_link n.
Lemma unlinked_nil : unlinked [].
Proof. intros i _. rewrite take_nil. by exists FDir. Qed.
Lemma unlinked_snoc p x n : unlinked p -> node_at (p ++ [x]) = Some n -> no_link n -> unlinked (p ++ [x]).
Proof.
  intros Hp Hn Hl i Hi. rewrite length_app in Hi. cbn in Hi. destruct (decide (i <= length p)%nat) as [Hle|Hgt].
  - rewrite take_app_le by done. by apply Hp.
  - rewrite take_ge by (rewrite length_app; cbn; lia). by exists n.
Qed.
Lemma unlinked_init p x : unlinked (p ++ [x]) -> unlinked p.
Proof. intros Hp i Hi. destruct (Hp i) as (n & Hn & Hl); [rewrite length_app; lia|]. rewrite take_app_le in Hn by done. eauto. Qed.

(** An absolute walk: the elements so far are proper and have no link. *)
Definition resolved (stack : list string) : Prop := Forall proper stack /\ unlinked (rev stack).
Lemma proper_seg seg : special_seg seg = false -> existsb (is_char 47) (bytes seg) = false -> proper seg.
Proof.
  unfold special_seg. intros Hs Hn. apply orb_false_iff in Hs as [[H1 H2]%orb_false_iff H3].
  apply bool_decide_eq_false in H1, H2, H3. by repeat split.
Qed.
Lemma resolved_push stack seg : special_seg seg = true -> resolved stack -> resolved (push true stack seg).
Proof.
  unfold push. intros Hs [Hp Hu]. destruct (bool_decide (seg = "") || bool_decide (seg = ".")) eqn:E; [done|].
  unfold special_seg in Hs. rewrite E in Hs. cbn in Hs. rewrite Hs. destruct stack as [|x stack]; [done|].
  apply Forall_cons in Hp as [Hx Hp]. rewrite bool_decide_eq_false_2 by apply Hx. split; [done|].
  cbn in Hu. by apply unlinked_init in Hu.
Qed.
Lemma resolved_cons stack seg n : proper seg -> lstat true (seg :: stack) = Some n -> no_link n -> resolved stack -> resolved (seg :: stack).
Proof. intros Hs Hn Hl [Hp Hu]. split; [by constructor|]. cbn. by eapply unlinked_snoc. Qed.
Lemma walk_resolved links : forall stack todo, resolved stack -> Forall (fun x => existsb (is_char 47) (bytes x) = false) todo ->
  match walk_links links true stack todo with Ok (r, stack') => r = true /\ resolved stack' | Err _ => True end.
Proof.
  induction links as [|links IHl]; intros stack todo; revert stack; induction todo as [|seg rest IH]; intros stack Hr Ht; cbn [walk_links]; try done;
    apply Forall_cons in Ht as [Hseg Hrest]; destruct (special_seg seg) eqn:Es;
    try (by apply IH; [apply resolved_push|]); pose proof (proper_seg _ Es Hseg) as Hpr;
    destruct (lstat true (seg :: stack)) as [[| |target|]|] eqn:El; try done;
    try (case_bool_decide; [|done]); try (by apply IH; [eapply resolved_cons|]).
  destruct (IsAbs target); (apply IHl; [try done; by split; [constructor|apply unlinked_nil]|apply Forall_app; split; [apply split_no_slash|done]]).
Qed.
End Walk.

(** What [EvalSymlinks] says of an absolute path: the cleaned text of a path
    without links. *)
Lemma EvalSymlinks_abs fs s d : IsAbs s = true -> EvalSymlinks fs s = Ok d ->
  exists p, parse d = MkPath true p /\ d = render (MkPath true p) /\ Forall proper p /\ unlinked fs p.
Proof.
  unfold EvalSymlinks. intros ->. pose proof (walk_resolved fs 255 [] (split_slash s)) as Hw. 
  destruct (walk_links fs 255 true [] (split_slash s)) as [[r stack]|e]; [|done]. intros [= <-].
  destruct Hw as (-> & Hp & Hu); [split; [constructor|apply unlinked_nil]|apply split_no_slash|].
  exists (rev stack). assert (Hp' : Forall proper (rev stack)) by by apply Forall_rev. split; [|done].
  apply parse_render. exists O, (rev stack). by repeat split.
Qed.

Example links_followed :
  let fs := MkFiles {[ ["m"] := FDir; ["m"; "org"] := FLink "/data/org"; ["data"] := FDir; ["data"; "org"] := FDir;
                       ["data"; "org"; "a"] := FLink "../x"; ["data"; "x"] := FDir; ["loop"] := FLink "loop"; ["m"; "f"] := FFile ]} [] in
  EvalSymlinks fs "/m/org/a" = Ok "/data/x" /\ EvalSymlinks fs "/m/./org/../org" = Ok "/data/org" /\
  EvalSymlinks fs "/loop" = Err (Opaque "EvalSymlinks: too many links") /\ EvalSymlinks fs "/m/f/x" = Err (Opaque "not a directory") /\
  EvalSymlinks fs "/m/nothing" = Err errNotExist /\ names_in fs "/m/org" = Some ["a"].
Proof. vm_compute. repeat split; reflexivity. Qed.
