(* ===== verification/PeerGrants.v ===== *)
(** * Grants for pulls between nodes ([agent/peertransfer])

    The source side of a copy of a model from node to node: a grant is a file
    of the grant directory (grants.go), a connection that uses it leaves a
    marker in the directory of used grants (serve.go).  Both directories are the
    state; a call to the operating system can fail at any point, and the model
    storage is a file system with links ([RealPath]).  What a grant file holds
    is a grant or something that does not decode to one. *)
From stdpp Require Import base list strings gmap sorting.
From Stdlib Require Import ZArith Lia.
From Stdlib Require Import Ascii.
From Stdlib Require String.
From S2P Require Import Prelude Text Runes Db Wire NetIP GoTime Paths RealPath.
Local Open Scope string_scope.
Local Open Scope list_scope.
Local Open Scope Z_scope.

(** ** What is checked of a text *)
Definition PeerUser : string := "sparky-peer".
Definition AgentBinary : string := "/opt/sparky/bin/sparky-agent".
Definition DefaultAuthTTL : Z := 2 * hour.
Definition maxDestIPs : nat := 16.
Definition maxSSHPublicKeyLen : Z := 1024.

Definition ValidTransferID (id : string) : bool :=
  (1 <=? len id) && (len id <=? 64) && all_chars (fun c => is_alnum c || is_char 45 c) id.
(** [strings.Cut] at the first blank. *)
Fixpoint cut_blank (l : list ascii) : option (list ascii * list ascii) :=
  match l with
  | [] => None
  | c :: l' => if is_char 32 c then Some ([], l')
               else match cut_blank l' with Some (a, b) => Some (c :: a, b) | None => None end
  end.
Definition sshKeyTypes : list string := ["ssh-ed25519"; "ssh-rsa"; "ecdsa-sha2-nistp256"; "ecdsa-sha2-nistp384"; "ecdsa-sha2-nistp521"].
(** [^[A-Za-z0-9+/]+={0,3}$] *)
Fixpoint drop_equals (l : list ascii) : list ascii := match l with c :: l' => if is_char 61 c then drop_equals l' else l | [] => [] end.
Definition sshKeyBase64 (l : list ascii) : bool :=
  let body := rev (drop_equals (rev l)) in
  negb (bool_decide (body = [])) && forallb (fun c => is_alnum c || is_char 43 c || is_char 47 c) body && Nat.leb (length l - length body) 3.
Definition ValidSSHPublicKey (s : string) : bool :=
  if bool_decide (s = "") || (maxSSHPublicKeyLen <? len s) then false
  else match cut_blank (bytes s) with
       | Some (typ, body) => bool_decide (of_bytes typ ∈ sshKeyTypes) && sshKeyBase64 body
       | None => false
       end.
Definition IsUnspecified (ip : IP) : bool := bool_decide (ip = v4_prefix ++ [0; 0; 0; 0]) || bool_decide (ip = repeat 0 16).
Definition IsMulticast (ip : IP) : bool :=
  if bool_decide (take 12 ip = v4_prefix) then Z.land (nth 12 ip 0) 240 =? 224 else nth 0 ip 0 =? 255.
Fixpoint parse_dests (parts : list string) : result (list string) :=
  match parts with
  | [] => Ok []
  | p :: parts' =>
      let bad := Err (Opaque ("invalid destination address " +:+ quote p)) in
      match ParseIP p with
      | None => bad
      | Some ip => if IsUnspecified ip || IsMulticast ip then bad
                   else match parse_dests parts' with Ok l => Ok (IP_String ip :: l) | Err e => Err e end
      end
  end.
Definition ParseDestIPs (raw : string) : result (list string) :=
  if bool_decide (raw = "") then Err (Opaque "no destination address")
  else
    let parts := split_text 44 raw in
    if Nat.ltb maxDestIPs (length parts) then Err (Opaque ("more than " +:+ itoa (Z.of_nat maxDestIPs) +:+ " destination addresses"))
    else parse_dests parts.
Definition SafeFileName (name : string) : bool :=
  negb (bool_decide (name = ".")) && negb (bool_decide (name = "..")) && (len name <=? 255) &&
  match bytes name with
  | [] => false
  | c :: l => (is_alnum c || is_char 46 c || is_char 95 c)
              && forallb (fun c => is_alnum c || existsb (fun n => is_char n c) [46; 95; 43; 61; 44; 64; 37; 45]) l
  end.

(** ** Grants *)
Record Grant := MkGrant {
  gr_TransferID : string; gr_DestPublicKey : string; gr_DestIPs : list string; gr_ModelDir : string; gr_Files : list string;
  gr_ExpiresAt : Time
}.
Definition ErrNoGrant : error := Sentinel "peertransfer.ErrNoGrant" "no such peer-transfer grant".
(** The two directories: the grant files by name, the markers with the time of
    their last change. *)
Record Grants := MkGrants { gd_files : gmap string (option Grant); gd_used : gmap string Time; gd_clock : Time; gd_calls : N }.
Definition set_files (f : gmap string (option Grant) -> gmap string (option Grant)) (s : Grants) : Grants :=
  MkGrants (f (gd_files s)) (gd_used s) (gd_clock s) (gd_calls s).
Definition set_used (f : gmap string Time -> gmap string Time) (s : Grants) : Grants :=
  MkGrants (gd_files s) (f (gd_used s)) (gd_clock s) (gd_calls s).
Definition tick (s : Grants) : Grants := MkGrants (gd_files s) (gd_used s) (gd_clock s + 1) (gd_calls s + 1).
(** The operating system: which call fails, for another reason than that what
    it names is missing, and the random part of a temporary name. *)
Class GrantHost := {
  os_fault : N -> option error;
  tmp_suffix : N -> string;
  os_fault_real : forall n e, os_fault n = Some e -> errors_Is e "fs.ErrNotExist" = false
}.
Definition json (id : string) : string := id +:+ ".json".
Definition is_tmp (name : string) : bool := has_prefix name ".tmp-".

Section Host.
Context `{GrantHost}.
Definition syscall {A} (f : Grants -> error + (A * Grants)) : ST Grants A := fun s =>
  match os_fault (gd_calls s) with
  | Some e => (Err e, tick s)
  | None => match f (tick s) with inl e => (Err e, tick s) | inr (a, s') => (Ok a, s') end
  end.
Definition os_ok : ST Grants unit := syscall (fun s => inr (tt, s)).
Definition stat_grant (name : string) : ST Grants unit :=
  syscall (fun s => match gd_files s !! name with Some _ => inr (tt, s) | None => inl errNotExist end).
Definition stat_used (id : string) : ST Grants Time :=
  syscall (fun s => match gd_used s !! id with Some t => inr (t, s) | None => inl errNotExist end).
Definition remove_grant (name : string) : ST Grants unit :=
  syscall (fun s => match gd_files s !! name with Some _ => inr (tt, set_files (delete name) s) | None => inl errNotExist end).
Definition remove_used (id : string) : ST Grants unit :=
  syscall (fun s => match gd_used s !! id with Some _ => inr (tt, set_used (delete id) s) | None => inl errNotExist end).
Definition read_file (name : string) : ST Grants (option Grant) :=
  syscall (fun s => match gd_files s !! name with Some c => inr (c, s) | None => inl errNotExist end).
Definition create_temp : ST Grants string :=
  syscall (fun s => let name := ".tmp-" +:+ tmp_suffix (gd_calls s) in
    if bool_decide (is_Some (gd_files s !! name)) then inl (Opaque "file exists") else inr (name, set_files (<[name := None]>) s)).
Definition write_temp (name : string) (g : Grant) : ST Grants unit := syscall (fun s => inr (tt, set_files (<[name := Some g]>) s)).
Definition rename (from to_ : string) : ST Grants unit :=
  syscall (fun s => match gd_files s !! from with
                    | Some c => inr (tt, set_files (fun m => <[to_ := c]> (delete from m)) s)
                    | None => inl errNotExist
                    end).
Definition names {V} (m : gmap string V) : list string := sort_by string_le (map fst (map_to_list m)).
Definition read_grants : ST Grants (list string) := syscall (fun s => inr (names (gd_files s), s)).
Definition read_used : ST Grants (list string) := syscall (fun s => inr (names (gd_used s), s)).
(** [O_CREATE|O_EXCL] *)
Definition mark_used (id : string) : ST Grants unit :=
  syscall (fun s => match gd_used s !! id with
                    | Some _ => inl (Opaque "file exists")
                    | None => inr (tt, set_used (<[id := gd_clock s]>) s)
                    end).
Definition clock_now : ST Grants Time := gets gd_clock.
Definition ignored {A} (m : ST Grants A) : ST Grants unit := discard (attempt m).

(** ** The source of a grant *)
Definition whole_model (format quantization : string) : bool :=
  negb (bool_decide (format = "gguf") && negb (bool_decide (quantization = "")) && negb (bool_decide (quantization = "UNKNOWN"))).
Definition base_of (path : string) : string := List.last (split_slash path) "".
Fixpoint pick_files (quantization : string) (matches : list string) : result (list string) :=
  match matches with
  | [] => Ok []
  | m :: ms =>
      let base := base_of m in
      if negb (contains base quantization) then pick_files quantization ms
      else if negb (SafeFileName base) then
        Err (Opaque ("model file " +:+ quote base +:+ " has a name that cannot be served safely"))
      else match pick_files quantization ms with Ok l => Ok (base :: l) | Err e => Err e end
  end.
Definition outside_root (rel : result string) : bool :=
  match rel with
  | Err _ => true
  | Ok rel => bool_decide (rel = ".") || bool_decide (rel = "..") || has_prefix rel "../"
  end.
Definition resolveSource (fs : files) (root modelRef quantization format : string) : result (string * list string) :=
  match Resolve root modelRef with
  | Err e => Err e
  | Ok dir =>
  match EvalSymlinks fs root with
  | Err e => Err (Errorf "resolve model storage: " e "")
  | Ok realRoot =>
  match EvalSymlinks fs dir with
  | Err e => Err (Errorf "model directory: " e "")
  | Ok realDir =>
      if outside_root (Rel realRoot realDir) then Err (Opaque "model directory resolves outside model storage")
      else if negb (bool_decide (stat fs realDir = Some FDir)) then Err (Opaque "model directory is not a directory")
      else if whole_model format quantization then Ok (realDir, [])
      else match Glob (names_in fs) (Join realDir "*.gguf") with
           | None => Err (Opaque "glob .gguf files: syntax error in pattern")
           | Some matches =>
               match pick_files quantization matches with
               | Err e => Err e
               | Ok [] => Err (Opaque ("no .gguf file matching quantization " +:+ quote quantization))
               | Ok l => Ok (realDir, l)
               end
           end
  end end end.

(** ** The agent's side: [Authorizer] *)
Record Authorizer := MkAuthorizer { au_root : string; au_ttl : Z }.
Definition NewAuthorizer (storageRoot : string) (ttl : Z) : Authorizer := MkAuthorizer storageRoot (if ttl <=? 0 then DefaultAuthTTL else ttl).
Definition lift {A} (r : result A) : ST Grants A := match r with Ok a => mret a | Err e => throw e end.
(** The temporary file is closed when something fails before it is. *)
Definition or_close {A} (m : ST Grants A) : ST Grants A :=
  r ← attempt m;
  match r with Ok a => mret a | Err e => ignored os_ok;; throw e end.
Definition write_grant (tmp final : string) (g : Grant) : ST Grants unit :=
  or_close os_ok;;
  or_close (write_temp tmp g);;
  os_ok;;
  rename tmp final.
Definition Authorize (a : Authorizer) (fs : files) (req : AuthorizePeerPull) : ST Grants unit :=
  guard_err (ValidTransferID (ap_TransferID req)) (Opaque "invalid transfer id");;
  guard_err (ValidSSHPublicKey (ap_DestPublicKey req)) (Opaque "invalid destination SSH public key");;
  ips ← lift (ParseDestIPs (ap_DestIPAddress req));
  guard_err (bool_decide (ap_Format req = "safetensors") || bool_decide (ap_Format req = "gguf"))
    (Opaque ("invalid format " +:+ quote (ap_Format req)));;
  src ← lift (resolveSource fs (au_root a) (ap_ModelRef req) (ap_Quantization req) (ap_Format req));
  now ← clock_now;
  let g := MkGrant (ap_TransferID req) (ap_DestPublicKey req) ips src.1 src.2 (now + au_ttl a) in
  let final := json (gr_TransferID g) in
  st ← attempt (stat_grant final);
  guard_err (negb (is_ok st)) (Opaque "a grant for this transfer already exists");;
  tmp ← wrap "write grant: " create_temp;
  r ← attempt (wrap "write grant: " (write_grant tmp final g));
  ignored (remove_grant tmp);;
  lift r.
Definition or_gone (m : ST Grants unit) : ST Grants unit :=
  r ← attempt m;
  match r with
  | Ok _ => mret tt
  | Err e => if errors_Is e "fs.ErrNotExist" then mret tt else throw (Errorf "remove grant: " e "")
  end.
Definition Revoke (transferID : string) : ST Grants unit :=
  guard_err (ValidTransferID transferID) (Opaque "invalid transfer id");;
  or_gone (remove_grant (json transferID));;
  or_gone (remove_used transferID).
Definition readGrantFile (name : string) : ST Grants Grant :=
  c ← read_file name;
  match c with Some g => mret g | None => throw (Errorf "decode grant: " (Opaque "invalid character") "") end.
Definition counted (m : ST Grants unit) (removed : Z) : ST Grants Z :=
  r ← attempt m; mret (if is_ok r then removed + 1 else removed).
Fixpoint sweep_grants (now : Time) (entries : list string) (removed : Z) : ST Grants Z :=
  match entries with
  | [] => mret removed
  | name :: entries' =>
      n ← (if is_tmp name then counted (remove_grant name) removed
           else if has_suffix name ".json" then
             g ← attempt (readGrantFile name);
             match g with
             | Ok g => if now <? gr_ExpiresAt g then mret removed else counted (remove_grant name) removed
             | Err _ => counted (remove_grant name) removed
             end
           else mret removed);
      sweep_grants now entries' n
  end.
Fixpoint sweep_used (ttl : Z) (now : Time) (entries : list string) (removed : Z) : ST Grants Z :=
  match entries with
  | [] => mret removed
  | id :: entries' =>
      t ← attempt (stat_used id);
      n ← (match t with
           | Ok m => if ttl <? Sub now m then counted (remove_used id) removed else mret removed
           | Err _ => mret removed
           end);
      sweep_used ttl now entries' n
  end.
Definition SweepStale (a : Authorizer) : ST Grants Z :=
  entries ← read_grants;
  now ← clock_now;
  removed ← sweep_grants now entries 0;
  used ← attempt read_used;
  match used with Ok l => sweep_used (au_ttl a) now l removed | Err _ => mret removed end.

(** ** The side of sshd *)
Definition ReadGrant (transferID : string) (now : Time) : ST Grants Grant :=
  guard_err (ValidTransferID transferID) (Opaque "invalid transfer id");;
  u ← attempt (stat_used transferID);
  guard_err (negb (is_ok u)) (Opaque "grant has already been used");;
  g ← map_err (fun e => if errors_Is e "fs.ErrNotExist" then ErrNoGrant else e) (readGrantFile (json transferID));
  guard_err (bool_decide (gr_TransferID g = transferID)) (Opaque "grant does not match its file name");;
  guard_err (now <? gr_ExpiresAt g) (Opaque "grant has expired");;
  mret g.
Fixpoint read_live (now : Time) (entries : list string) : ST Grants (list Grant) :=
  match entries with
  | [] => mret []
  | name :: entries' =>
      if has_suffix name ".json" then
        r ← attempt (ReadGrant (trim_suffix name ".json") now);
        gs ← read_live now entries';
        mret (match r with Ok g => g :: gs | Err _ => gs end)
      else read_live now entries'
  end.
Definition ActiveGrants (now : Time) : ST Grants (list Grant) :=
  entries ← attempt read_grants;
  match entries with Ok l => read_live now l | Err _ => mret [] end.

Definition key_line (g : Grant) (ips : list string) : string :=
  "restrict,from=" +:+ chr 34 +:+ join "," ips +:+ chr 34 +:+ ",command=" +:+ chr 34 +:+ AgentBinary +:+ " peer-serve " +:+ gr_TransferID g
  +:+ chr 34 +:+ " " +:+ gr_DestPublicKey g.
Definition authorized_line (g : Grant) : option string :=
  if negb (ValidSSHPublicKey (gr_DestPublicKey g)) || negb (ValidTransferID (gr_TransferID g)) then None
  else match ParseDestIPs (join "," (gr_DestIPs g)) with Ok ips => Some (key_line g ips) | Err _ => None end.
(** What is written, the writer taking it all. *)
Definition WriteAuthorizedKeys (user : string) (now : Time) : ST Grants string :=
  if negb (bool_decide (user = PeerUser)) then mret ""
  else gs ← ActiveGrants now; mret (String.concat "" (map (fun l => l +:+ chr 10) (omap authorized_line gs))).

(** The command of the client.  The pattern takes single blanks only, so it is
    matched word by word. *)
Definition sender_flag (c : ascii) : bool := existsb (fun n => is_char n c) [108; 111; 103; 68; 116; 112; 114; 122; 118].
Fixpoint drop_flags (l : list ascii) : list ascii := match l with c :: l' => if sender_flag c then drop_flags l' else l | [] => [] end.
Definition flag_cluster (s : string) : bool :=
  match bytes s with
  | d :: c :: l =>
      is_char 45 d && sender_flag c &&
      match drop_flags l with
      | [] => true
      | e :: p :: caps => is_char 101 e && is_char 46 p && forallb (fun c => is_lower c || is_upper c || is_char 46 c) caps
      | _ => false
      end
  | _ => false
  end.
Definition long_option (s : string) : bool :=
  bool_decide (s = "--safe-links") ||
  (has_prefix s "--timeout=" && (11 <=? len s) && (len s <=? 14) && forallb is_digit (drop 10 (bytes s))).
Definition ParseSenderCommand (cmd : string) : result (list string) :=
  let refused := Err (Opaque "command not permitted") in
  if 160 <? len cmd then refused
  else match split_text 32 cmd with
       | r :: s :: t :: flags :: rest =>
           let longs := take (length rest - 2) rest in
           if bool_decide ([r; s; t] = ["rsync"; "--server"; "--sender"]) && flag_cluster flags
              && bool_decide (drop (length rest - 2) rest = ["."; "."]) && Nat.leb (length longs) 2 && forallb long_option longs
           then Ok (flags :: longs) else refused
       | _ => refused
       end.

Record ServePlan := MkPlan { sv_Path : string; sv_Argv : list string; sv_Dir : string }.
Definition rsyncPath : string := "/usr/bin/rsync".
Definition Fields (s : string) : list string := map of_runes (fields (runes s)).
Definition covers (g : Grant) (sshConnection : string) : result unit :=
  match Fields sshConnection with
  | [] => Err (Opaque "no connection information")
  | addr :: _ => if existsb (fun ip => bool_decide (ip = addr)) (gr_DestIPs g) then Ok tt
                 else Err (Opaque "connection from an address this grant does not cover")
  end.
Definition serve_sources (g : Grant) : result (list string) :=
  if bool_decide (gr_Files g = []) then Ok ["."]
  else if forallb SafeFileName (gr_Files g) then Ok (map (fun f => "./" +:+ f) (gr_Files g))
  else Err (Opaque "grant names a file that cannot be served safely").
Definition serve_argv (options sources : list string) : list string := ["rsync"; "--server"; "--sender"] ++ options ++ ["."] ++ sources.
(** Everything [PrepareServe] decides before it consumes the grant. *)
Definition check_serve (transferID originalCommand sshConnection : string) (now : Time) : ST Grants ServePlan :=
  g ← ReadGrant transferID now;
  lift (covers g sshConnection);;
  options ← lift (ParseSenderCommand originalCommand);
  guard_err (IsAbs (gr_ModelDir g)) (Opaque "grant has a non-absolute model directory");;
  sources ← lift (serve_sources g);
  mret (MkPlan rsyncPath (serve_argv options sources) (gr_ModelDir g)).
Definition consume (transferID : string) : ST Grants unit := wrap "consume grant: " (mark_used transferID).
Definition PrepareServe (transferID originalCommand sshConnection : string) (now : Time) : ST Grants ServePlan :=
  plan ← check_serve transferID originalCommand sshConnection now;
  consume transferID;;
  mret plan.

(** [handleAuthorizePeerPull] ([agent/connection/peer.go]): there is always an
    answer. *)
Definition handleAuthorizePeerPull (a : Authorizer) (fs : files) (req : AuthorizePeerPull) : ST Grants PeerAuthorizeResult :=
  r ← attempt (Authorize a fs req);
  mret (match r with
        | Ok _ => MkPeerAuthorizeResult (ap_TransferID req) true ""
        | Err e => MkPeerAuthorizeResult (ap_TransferID req) false (error_text e)
        end).
End Host.

Example sender_commands :
  map (fun c => is_ok (ParseSenderCommand c))
    ["rsync --server --sender -logDtpre.iLsfxCIvu . ."; "rsync --server --sender -logDtprze.iLsfxCIvu --timeout=60 --safe-links . .";
     "rsync --server --sender -L . ."; "rsync --server --sender -r --files-from=x . ."; "rsync --server --sender -r . /etc";
     "rsync --server -r . ."; "rsync --server --sender  -r . ."; "rsync --server --sender -r --timeout=12345 . ."; ""] =
  [true; true; false; false; false; false; false; false; false].
Proof. vm_compute. reflexivity. Qed.
Example ssh_keys :
  map ValidSSHPublicKey ["ssh-ed25519 AAAAC3Nza+/9=="; "ssh-ed25519 AAAA comment"; "command= ssh-rsa AAAA"; "ssh-dss AAAA"; "ssh-rsa "; "ssh-rsa ===="] =
  [true; false; false; false; false; false].
Proof. vm_compute. reflexivity. Qed.
Example dest_addresses :
  ParseDestIPs "10.0.0.7,2001:DB8::1" = Ok ["10.0.0.7"; "2001:db8::1"] /\
  forallb (fun s => negb (is_ok (ParseDestIPs s))) [""; "10.0.0.7,"; "0.0.0.0"; "224.0.0.1"; "ff02::1"; "host"; "10.0.0.0/8"] = true.
Proof. vm_compute. split; reflexivity. Qed.
