(* ===== verification/PeerGrantsSpec.v ===== *)
(** * What a grant for a pull allows

    Over any run of authorizations, revocations, sweeps and connections, a grant
    is used at most once unless its marker is removed when it matters, and what
    is served was authorized: the model and the
    addresses of the request, options that follow no link, a directory strictly
    inside the storage of models. *)
From stdpp Require Import base list strings gmap sorting relations.
From Stdlib Require Import ZArith Lia.
From Stdlib Require Import Ascii.
From Stdlib Require String.
From S2P Require Import Prelude Text Runes Db Wire NetIP GoTime Paths RealPath PeerGrants.
Local Open Scope string_scope.
Local Open Scope list_scope.
Local Open Scope Z_scope.

(** ** What the calls leave alone *)
Section Frames.
Context `{GrantHost}.

Lemma wp_syscall {A} (f : Grants -> error + (A * Grants)) s (Q : result A -> Grants -> Prop) :
  (forall e, os_fault (gd_calls s) = Some e -> Q (Err e) (tick s)) ->
  (match f (tick s) with inl e => Q (Err e) (tick s) | inr (a, s') => Q (Ok a) s' end) ->
  wp (syscall f) s Q.
Proof.
  unfold wp, syscall. intros He Hok. destruct (os_fault (gd_calls s)) as [e|]; [by apply He|].
  by destruct (f (tick s)) as [|[]].
Qed.
Lemma evolves_syscall {A} (R : Grants -> Grants -> Prop) (f : Grants -> error + (A * Grants)) :
  (forall s, R s (tick s)) -> (forall s, match f (tick s) with inl _ => True | inr (_, s') => R s s' end) -> Evolves R (syscall f).
Proof.
  intros Ht Hf s. unfold syscall. specialize (Hf s). destruct (os_fault _); [apply Ht|]. by destruct (f (tick s)) as [|[]]; [apply Ht|].
Qed.

(** Reading: time passes. *)
Definition reads (s s' : Grants) : Prop := gd_files s' = gd_files s /\ gd_used s' = gd_used s /\ gd_clock s <= gd_clock s'.
#[export] Instance reads_preorder : PreOrder reads.
Proof. split; [by intros s|]. intros s1 s2 s3 (E1 & E2 & E3) (F1 & F2 & F3). split; [congruence|]. split; [congruence|lia]. Qed.
Lemma reads_tick s : reads s (tick s).
Proof. split; [done|]. split; [done|cbn; lia]. Qed.
(** Temporary files come and go. *)
Definition scratch (s s' : Grants) : Prop :=
  (forall name, is_tmp name = false -> gd_files s' !! name = gd_files s !! name) /\ gd_used s' = gd_used s /\ gd_clock s <= gd_clock s'.
#[export] Instance scratch_preorder : PreOrder scratch.
Proof.
  split; [by intros s|]. intros s1 s2 s3 (E1 & E2 & E3) (F1 & F2 & F3). split; [|split; [congruence|lia]].
  intros n Hn. by rewrite F1, E1.
Qed.
Lemma reads_scratch s s' : reads s s' -> scratch s s'.
Proof. intros (E1 & E2 & E3). split; [|done]. intros n _. by rewrite E1. Qed.

#[export] Instance reads_gets {A} (f : Grants -> A) : Evolves reads (gets f).
Proof. intros s. reflexivity. Qed.
Lemma reads_reading {A} (f : Grants -> error + A) :
  Evolves reads (syscall (fun s => match f s with inl e => inl e | inr a => inr (a, s) end)).
Proof. apply evolves_syscall; [apply reads_tick|]. intros s. destruct (f (tick s)); [done|apply reads_tick]. Qed.
Ltac reading := apply evolves_syscall; [apply reads_tick|]; intros s; repeat case_match; first [done|simplify_eq; apply reads_tick].
#[export] Instance reads_stat_grant n : Evolves reads (stat_grant n).
Proof. unfold stat_grant. reading. Qed.
#[export] Instance reads_stat_used n : Evolves reads (stat_used n).
Proof. unfold stat_used. reading. Qed.
#[export] Instance reads_read_file n : Evolves reads (read_file n).
Proof. unfold read_file. reading. Qed.
#[export] Instance reads_read_grants : Evolves reads read_grants.
Proof. unfold read_grants. reading. Qed.
#[export] Instance reads_read_used : Evolves reads read_used.
Proof. unfold read_used. reading. Qed.
#[export] Instance reads_os_ok : Evolves reads os_ok.
Proof. unfold os_ok. reading. Qed.
#[export] Instance reads_lift {A} (r : result A) : Evolves reads (lift r).
Proof. destruct r; apply _. Qed.
#[export] Instance reads_readGrantFile n : Evolves reads (readGrantFile n).
Proof. unfold readGrantFile. apply _. Qed.
#[export] Instance reads_ReadGrant id now : Evolves reads (ReadGrant id now).
Proof. unfold ReadGrant. repeat (apply evolves_bind; [apply _..|intros ?]). apply _. Qed.
#[export] Instance reads_read_live now l : Evolves reads (read_live now l).
Proof. induction l as [|n l IH]; cbn [read_live]; [apply _|]. destruct (has_suffix _ _); apply _. Qed.
#[export] Instance reads_ActiveGrants now : Evolves reads (ActiveGrants now).
Proof. unfold ActiveGrants. apply _. Qed.
#[export] Instance reads_WriteAuthorizedKeys u now : Evolves reads (WriteAuthorizedKeys u now).
Proof. unfold WriteAuthorizedKeys. destruct (negb _); apply _. Qed.
#[export] Instance reads_check_serve id cmd conn now : Evolves reads (check_serve id cmd conn now).
Proof. unfold check_serve. apply _. Qed.

(** Cleaning up: what is removed is gone, and a marker goes only after its
    grant or when it is older than the life of a grant. *)
Definition cleans (ttl : Z) (s s' : Grants) : Prop :=
  (forall n c, gd_files s' !! n = Some c -> gd_files s !! n = Some c) /\
  (forall X m, gd_used s' !! X = Some m -> gd_used s !! X = Some m) /\
  (forall X m, gd_used s !! X = Some m -> gd_used s' !! X = None -> gd_files s' !! json X = None \/ ttl < gd_clock s' - m) /\
  gd_clock s <= gd_clock s'.
#[export] Instance cleans_preorder ttl : PreOrder (cleans ttl).
Proof.
  split.
  - intros s. split; [done|]. split; [done|]. split; [|done]. congruence.
  - intros s1 s2 s3 (A1 & A2 & A3 & A4) (B1 & B2 & B3 & B4). split; [by intros n c Hc; apply A1, B1|]. split; [by intros X m Hm; apply A2, B2|].
    split; [|lia]. intros X m Hm Hno. destruct (gd_used s2 !! X) as [m2|] eqn:E2.
    + specialize (A2 _ _ E2). assert (m2 = m) as -> by congruence. by apply B3.
    + destruct (A3 X m Hm E2) as [Hgone|Hold]; [left|right; lia].
      destruct (gd_files s3 !! json X) as [c|] eqn:E3; [|done]. apply B1 in E3. congruence.
Qed.
Lemma reads_cleans ttl s s' : reads s s' -> cleans ttl s s'.
Proof. intros (E1 & E2 & E3). unfold cleans. rewrite E1, E2. split; [done|]. split; [done|]. split; [congruence|done]. Qed.
Lemma cleans_of_reads ttl {A} (m : ST Grants A) : Evolves reads m -> Evolves (cleans ttl) m.
Proof. intros Hm s. apply reads_cleans, Hm. Qed.
#[export] Instance cleans_remove_grant ttl n : Evolves (cleans ttl) (remove_grant n).
Proof.
  unfold remove_grant. apply evolves_syscall; [intros s; apply reads_cleans, reads_tick|]. intros s. destruct (gd_files (tick s) !! n) as [c|]; [|done].
  split; [|split; [done|split; [cbn; congruence|cbn; lia]]]. intros n' c' Hc. cbn in Hc. apply lookup_delete_Some in Hc as [_ Hc]. exact Hc.
Qed.

Lemma cleans_remove_used ttl s X : (gd_files s !! json X = None \/ forall m, gd_used s !! X = Some m -> ttl < gd_clock s - m) ->
  cleans ttl s (snd (remove_used X s)).
Proof.
  intros Hx. change (wp (remove_used X) s (fun _ s' => cleans ttl s s')). unfold remove_used.
  apply wp_syscall; [intros e _; apply reads_cleans, reads_tick|]. cbn [gd_used tick].
  destruct (gd_used s !! X) as [m|] eqn:E; [|apply reads_cleans, reads_tick]. split; [done|]. split; [|split; [|cbn; lia]].
  - intros X' m' Hm. cbn in Hm. by apply lookup_delete_Some in Hm as [_ Hm].
  - intros X' m' Hm Hno. cbn in *. apply lookup_delete_None in Hno as [<-|Hno]; [|congruence].
    destruct Hx as [Hx|Hx]; [by left|right]. specialize (Hx m eq_refl). assert (m' = m) as -> by congruence. lia.
Qed.
Lemma wp_or_gone (m : ST Grants unit) s (Q : result unit -> Grants -> Prop) :
  wp m s (fun r s' => match r with
                      | Ok _ => Q (Ok tt) s'
                      | Err e => (errors_Is e "fs.ErrNotExist" = true -> Q (Ok tt) s') /\ forall e', Q (Err e') s'
                      end) -> wp (or_gone m) s Q.
Proof.
  intros Hm. unfold or_gone. apply wp_bind, wp_attempt. eapply wp_mono; [exact Hm|]. intros [[]|e] s' Hq; [by apply wp_ret|].
  destruct (errors_Is e _) eqn:E; [by apply wp_ret, Hq|by apply wp_throw, Hq].
Qed.
#[export] Instance cleans_Revoke ttl X : Evolves (cleans ttl) (Revoke X).
Proof.
  unfold Revoke. apply evolves_bind; [apply _..|]. intros _ s. change (wp (or_gone (remove_grant (json X));; or_gone (remove_used X)) s (fun _ s' => cleans ttl s s')).
  assert (Hused : forall s1, cleans ttl s s1 -> gd_files s1 !! json X = None -> wp (or_gone (remove_used X)) s1 (fun _ s' => cleans ttl s s')).
  { intros s1 Hs1 Hno. apply wp_or_gone. unfold wp. assert (Hc : cleans ttl s (snd (remove_used X s1))).
    { etransitivity; [exact Hs1|]. apply cleans_remove_used. by left. }
    destruct (fst (remove_used X s1)); [exact Hc|by split]. }
  apply wp_bind, wp_or_gone. unfold remove_grant. apply wp_syscall.
  - intros e He. split; [|intros _; apply reads_cleans, reads_tick]. by rewrite (os_fault_real _ _ He).
  - cbn [gd_files tick]. destruct (gd_files s !! json X) as [c|] eqn:E.
    + apply Hused; [|apply lookup_delete_eq]. split; [|split; [done|split; [cbn; congruence|cbn; lia]]].
      intros n c' Hc. cbn in Hc. by apply lookup_delete_Some in Hc as [_ Hc].
    + split; [|intros _; apply reads_cleans, reads_tick]. intros _. apply Hused; [apply reads_cleans, reads_tick|exact E].
Qed.
#[export] Instance cleans_counted ttl m n : Evolves (cleans ttl) m -> Evolves (cleans ttl) (counted m n).
Proof. intros Hm. unfold counted. apply _. Qed.
#[export] Instance cleans_sweep_grants ttl now l n : Evolves (cleans ttl) (sweep_grants now l n).
Proof.
  revert n. induction l as [|name l IH]; intros n; cbn [sweep_grants]; [apply _|]. apply evolves_bind; [apply _| |intros; apply IH].
  destruct (is_tmp name); [apply _|]. destruct (has_suffix _ _); [|apply _]. apply evolves_bind; [apply _| |].
  - apply evolves_attempt, cleans_of_reads. apply _.
  - intros [g|e]; [destruct (_ <? _)|]; apply _.
Qed.
Lemma sweep_used_cleans ttl now l : 0 <= ttl -> forall n s0 s, cleans ttl s0 s -> now <= gd_clock s -> cleans ttl s0 (snd (sweep_used ttl now l n s)).
Proof.
  intros Httl. induction l as [|X l IH]; intros n s0 s Hs Hnow; [exact Hs|].
  change (wp (sweep_used ttl now (X :: l) n) s (fun _ s' => cleans ttl s0 s')). cbn [sweep_used]. apply wp_bind, wp_attempt. unfold stat_used.
  assert (Hskip : forall s1 n1, reads s s1 -> wp (sweep_used ttl now l n1) s1 (fun _ s' => cleans ttl s0 s')).
  { intros s1 n1 Hr. apply IH; [etransitivity; [exact Hs|by apply reads_cleans]|]. destruct Hr as (_ & _ & Hc). lia. }
  apply wp_syscall; [intros e _; apply wp_bind, wp_ret, Hskip, reads_tick|]. cbn [gd_used tick].
  destruct (gd_used s !! X) as [m|] eqn:E; apply wp_bind; [|apply wp_ret, Hskip, reads_tick].
  destruct (ttl <? Sub now m) eqn:Et; [|apply wp_ret, Hskip, reads_tick]. unfold counted. apply wp_bind, wp_attempt, (wp_evolves (fun s1 s2 => s1 = tick s -> cleans ttl (tick s) s2)).
  { intros s1 ->. apply cleans_remove_used. right. intros m' Hm'. cbn in *. assert (m' = m) as -> by congruence. unfold Sub in Et. lia. }
  intros r s1 Hs1. specialize (Hs1 eq_refl). apply wp_ret, IH.
  - etransitivity; [exact Hs|]. etransitivity; [apply reads_cleans, reads_tick|exact Hs1].
  - destruct Hs1 as (_ & _ & _ & Hc). cbn in Hc. lia.
Qed.
Lemma cleans_SweepStale a : 0 <= au_ttl a -> Evolves (cleans (au_ttl a)) (SweepStale a).
Proof.
  intros Httl s. change (wp (SweepStale a) s (fun _ s' => cleans (au_ttl a) s s')). unfold SweepStale.
  apply wp_bind, (wp_evolves reads); [apply _|]. intros [l|e] s1 H1; [|by apply reads_cleans].
  apply wp_bind, wp_gets, wp_bind, (wp_evolves (cleans (au_ttl a))); [apply _|]. intros [n|e] s2 H2;
    (assert (Hs2 : cleans (au_ttl a) s s2) by by etransitivity; [apply reads_cleans|]); [|done].
  apply wp_bind, wp_attempt, (wp_evolves reads); [apply _|]. intros [l2|e] s3 H3;
    (assert (Hs3 : cleans (au_ttl a) s s3) by by etransitivity; [|apply reads_cleans]); [|by apply wp_ret].
  apply sweep_used_cleans; [done..|]. destruct H2 as (_ & _ & _ & Hc2), H3 as (_ & _ & Hc3). lia.
Qed.
End Frames.

(** ** The source of a grant *)
Definition source_ok (fs : files) (root : string) (src : string * list string) : Prop :=
  (exists realRoot, EvalSymlinks fs root = Ok realRoot /\ below (parse realRoot) (parse src.1)) /\
  IsAbs src.1 = true /\ unlinked fs (parts (parse src.1)) /\ Forall (fun f => SafeFileName f = true) src.2.
Lemma pick_files_safe q ms l : pick_files q ms = Ok l -> Forall (fun f => SafeFileName f = true /\ contains f q = true) l.
Proof.
  revert l. induction ms as [|m ms IH]; intros l; cbn [pick_files]; [by intros [= <-]|]. cbv zeta.
  destruct (contains (base_of m) q) eqn:Ec; cbn [negb]; [|by apply IH]. destruct (SafeFileName (base_of m)) eqn:Es; cbn [negb]; [|done].
  destruct (pick_files q ms); [|done]. intros [= <-]. constructor; [done|by apply IH].
Qed.
Lemma resolveSource_ok fs root ref q f src : IsAbs root = true -> resolveSource fs root ref q f = Ok src ->
  source_ok fs root src /\ (whole_model f q = false -> src.2 <> [] /\ Forall (fun n => contains n q = true) src.2).
Proof.
  intros Habs. unfold resolveSource. destruct (Resolve root ref) as [dir|] eqn:Er; [|done]. apply Resolve_iff in Er as (_ & _ & Hdir & Hbelow & _).
  assert (Hdabs : IsAbs dir = true) by by unfold IsAbs in *; unfold parse in Hbelow; cbn in Hbelow; rewrite Hbelow.
  destruct (EvalSymlinks fs root) as [rr|] eqn:Err_; [|done]. destruct (EvalSymlinks fs dir) as [rd|] eqn:Erd; [|done].
  destruct (EvalSymlinks_abs _ _ _ Habs Err_) as (pr & Hpr & Hrr & Hprop & _).
  destruct (EvalSymlinks_abs _ _ _ Hdabs Erd) as (pd & Hpd & Hrd & Hprod & Hun).
  destruct (outside_root (Rel rr rd)) eqn:Eo; [done|]. case_bool_decide as Est; cbn [negb]; [|done].
  assert (Hbel : below (parse rr) (parse rd)).
  { assert (Hn1 : normal true pr) by by exists O, pr. assert (Hn2 : normal true pd) by by exists O, pd.
    pose proof (Rel_inside (MkPath true pr) (MkPath true pd) Hn1 Hn2 eq_refl) as HR. rewrite <-Hrr, <-Hrd in HR. rewrite Hpr, Hpd.
    unfold outside_root in Eo. destruct (Rel rr rd); [by apply HR|done]. }
  assert (Hok : forall l, Forall (fun f => SafeFileName f = true) l -> source_ok fs root (rd, l)).
  { intros l Hl. split; [by exists rr|]. cbn [fst snd]. split; [|split; [by rewrite Hpd|done]].
    assert (Hro : rooted (parse rd) = true) by by rewrite Hpd. exact Hro. }
  destruct (whole_model f q) eqn:Ew; [intros [= <-]; by split; [apply Hok|]|].
  destruct (Glob _ _) as [ms|]; [|done]. destruct (pick_files q ms) as [[|x l]|] eqn:Ep; [done| |done]. intros [= <-].
  apply pick_files_safe in Ep. split; [apply Hok|intros _; split; [done|]]; (eapply Forall_impl; [exact Ep|]); by intros n [? ?].
Qed.

(** ** Authorizing, checking, consuming *)
Section Operations.
Context `{GrantHost}.

Definition new_grant (a : Authorizer) (req : AuthorizePeerPull) (ips : list string) (src : string * list string) (now : Time) : Grant :=
  MkGrant (ap_TransferID req) (ap_DestPublicKey req) ips src.1 src.2 (now + au_ttl a).
(** A grant as a request and the storage at that time make it. *)
Definition made_from (a : Authorizer) (fs : files) (req : AuthorizePeerPull) (g : Grant) : Prop :=
  ValidTransferID (ap_TransferID req) = true /\ ValidSSHPublicKey (ap_DestPublicKey req) = true /\
  (ap_Format req = "safetensors" \/ ap_Format req = "gguf") /\
  exists ips src now, ParseDestIPs (ap_DestIPAddress req) = Ok ips /\
    resolveSource fs (au_root a) (ap_ModelRef req) (ap_Quantization req) (ap_Format req) = Ok src /\ g = new_grant a req ips src now.
Lemma json_not_tmp id : ValidTransferID id = true -> is_tmp (json id) = false.
Proof.
  intros Hv. destruct id as [|c id]; [done|]. destruct (is_tmp (json (String.String c id))) eqn:E; [exfalso|done].
  apply has_prefix_iff in E as [t Ht]. injection Ht as -> _.
  unfold ValidTransferID in Hv. apply andb_true_iff in Hv as [_ Hv]. discriminate.
Qed.
Lemma json_inj x y : json x = json y -> x = y.
Proof.
  unfold json. intros E. apply (f_equal bytes) in E. rewrite !bytes_app in E. apply app_inv_tail in E. apply (f_equal of_bytes) in E.
  by rewrite !of_bytes_bytes in E.
Qed.
Lemma scratch_syscall {A} (f : Grants -> error + (A * Grants)) :
  (forall s, match f (tick s) with inl _ => True | inr (_, s') => scratch s s' end) -> Evolves scratch (syscall f).
Proof. intros Hf. apply evolves_syscall; [|done]. intros s. apply reads_scratch, reads_tick. Qed.
#[local] Instance scratch_reads {A} (m : ST Grants A) : Evolves reads m -> Evolves scratch m.
Proof. intros Hm s. apply reads_scratch, Hm. Qed.
Lemma tmp_name n : is_tmp (".tmp-" +:+ tmp_suffix n) = true.
Proof. apply has_prefix_iff. by eexists. Qed.
Lemma scratch_insert s t c : is_tmp t = true -> scratch s (set_files (<[t := c]>) (tick s)).
Proof.
  intros Ht. split; [|split; [done|cbn; lia]]. intros n Hn. cbn. rewrite lookup_insert_ne; [done|]. intros ->. congruence.
Qed.
Lemma scratch_write t g : is_tmp t = true -> Evolves scratch (write_temp t g).
Proof. intros Ht. unfold write_temp. apply scratch_syscall. intros s. by apply scratch_insert. Qed.
Lemma scratch_remove t : is_tmp t = true -> Evolves scratch (remove_grant t).
Proof.
  intros Ht. unfold remove_grant. apply scratch_syscall. intros s. destruct (gd_files (tick s) !! t); [|done].
  split; [|split; [done|cbn; lia]]. intros n Hn. cbn. rewrite lookup_delete_ne; [done|]. intros ->. congruence.
Qed.
Lemma wp_create_temp s (Q : result string -> Grants -> Prop) :
  (forall e s', scratch s s' -> Q (Err e) s') -> (forall t s', is_tmp t = true -> scratch s s' -> gd_files s' !! t = Some None -> Q (Ok t) s') ->
  wp create_temp s Q.
Proof.
  intros He Hok. unfold create_temp. apply wp_syscall; [intros e _; apply He, reads_scratch, reads_tick|]. cbv zeta.
  case_bool_decide; [apply He, reads_scratch, reads_tick|]. apply Hok; [apply tmp_name|apply scratch_insert, tmp_name|]. apply lookup_insert_eq.
Qed.
#[local] Instance scratch_or_close {A} (m : ST Grants A) : Evolves scratch m -> Evolves scratch (or_close m).
Proof.
  intros Hm. unfold or_close. apply evolves_bind; [apply _..|]. intros [x|e]; [apply _|]. unfold ignored, discard. apply _.
Qed.
Lemma wp_or_close {A} (m : ST Grants A) s (Q : result A -> Grants -> Prop) :
  wp m s (fun r s' => match r with Ok x => Q (Ok x) s' | Err e => forall s2, scratch s' s2 -> Q (Err e) s2 end) -> wp (or_close m) s Q.
Proof.
  intros Hm. unfold or_close. apply wp_bind, wp_attempt. eapply wp_mono; [exact Hm|]. intros [x|e] s' Hq; [by apply wp_ret|].
  apply wp_bind, wp_discard, wp_attempt, (wp_evolves scratch); [apply _|]. intros r s2 H2. by apply wp_throw, Hq.
Qed.
(** A grant comes to be under its own name, and nothing else changes there. *)
Definition placed (final : string) (g : Grant) (s s' : Grants) : Prop :=
  gd_files s' !! final = Some (Some g) /\ (forall n, is_tmp n = false -> n <> final -> gd_files s' !! n = gd_files s !! n) /\
  gd_used s' = gd_used s /\ gd_clock s <= gd_clock s'.
Lemma placed_scratch final g s s1 s2 : scratch s s1 -> placed final g s1 s2 -> placed final g s s2.
Proof.
  intros (A1 & A2 & A3) (B1 & B2 & B3 & B4). split; [done|]. split; [|split; [congruence|lia]].
  intros n Hn Hne. rewrite B2 by done. by apply A1.
Qed.
Lemma scratch_placed final g s s1 s2 : is_tmp final = false -> placed final g s s1 -> scratch s1 s2 -> placed final g s s2.
Proof.
  intros Hf (B1 & B2 & B3 & B4) (A1 & A2 & A3). split; [by rewrite A1|]. split; [|split; [congruence|lia]].
  intros n Hn Hne. rewrite A1 by done. by apply B2.
Qed.
Lemma wp_write_grant t final g s (Q : result unit -> Grants -> Prop) : is_tmp t = true -> is_tmp final = false ->
  (forall e s', scratch s s' -> Q (Err e) s') -> (forall s', placed final g s s' -> Q (Ok tt) s') ->
  wp (write_grant t final g) s Q.
Proof.
  intros Ht Hf He Hok. unfold write_grant.
  apply wp_bind, wp_or_close, (wp_evolves scratch); [apply _|]. intros [[]|e] s1 H1; [|intros s2 H2; apply He; by etransitivity].
  apply wp_bind, wp_or_close. unfold write_temp. apply wp_syscall.
  { intros e _ s2 H2. apply He. etransitivity; [exact H1|]. etransitivity; [apply reads_scratch, reads_tick|exact H2]. }
  set (s2 := set_files _ _). assert (H2 : scratch s s2) by by (etransitivity; [exact H1|by apply scratch_insert]).
  assert (Hc2 : gd_files s2 !! t = Some (Some g)) by by apply lookup_insert_eq.
  apply wp_bind. unfold os_ok. apply wp_syscall.
  { intros e _. apply He. etransitivity; [exact H2|apply reads_scratch, reads_tick]. }
  unfold rename. apply wp_syscall; [intros e _; apply He; etransitivity; [exact H2|]; by split; [|split; [|cbn; lia]]|].
  cbn [gd_files tick]. rewrite Hc2. apply Hok. apply (placed_scratch _ _ _ s2); [done|].
  split; [apply lookup_insert_eq|]. split; [|split; [done|cbn; lia]].
  intros n Hn Hne. cbn. rewrite lookup_insert_ne by congruence. rewrite lookup_delete_ne; [done|]. intros ->. congruence.
Qed.
Lemma wp_Authorize a fs req s (Q : result unit -> Grants -> Prop) :
  (forall e s', scratch s s' -> Q (Err e) s') ->
  (forall g s', made_from a fs req g -> gr_ExpiresAt g - au_ttl a <= gd_clock s' -> placed (json (ap_TransferID req)) g s s' -> Q (Ok tt) s') ->
  wp (Authorize a fs req) s Q.
Proof.
  intros He Hok. unfold Authorize. apply wp_bind, wp_guard; intros Hid; [|by apply He].
  apply wp_bind, wp_guard; intros Hkey; [|by apply He]. apply wp_bind. destruct (ParseDestIPs _) as [ips|e] eqn:Eips; [|by apply wp_throw, He].
  apply wp_ret, wp_bind, wp_guard; intros Hf; [|by apply He]. apply wp_bind.
  destruct (resolveSource _ _ _ _ _) as [src|e] eqn:Esrc; [|by apply wp_throw, He]. apply wp_ret, wp_bind, wp_gets. cbv zeta.
  set (g := MkGrant _ _ _ _ _ _). assert (Hg : made_from a fs req g).
  { split; [done|]. split; [done|]. split; [apply orb_true_iff in Hf as [Hf|Hf]; apply bool_decide_eq_true in Hf; auto|].
    by exists ips, src, (gd_clock s). }
  change (gr_TransferID g) with (ap_TransferID req). set (final := json (ap_TransferID req)) in *.
  assert (Hfin : is_tmp final = false) by by apply json_not_tmp.
  apply wp_bind, wp_attempt, (wp_evolves scratch); [apply _|]. intros st s1 H1.
  apply wp_bind, wp_guard; intros _; [|by apply He]. apply wp_bind, wp_wrap, wp_create_temp; [intros e s2 H2; apply He; by etransitivity|].
  intros t s2 Ht H2 _. assert (Hs2 : scratch s s2) by by etransitivity.
  apply wp_bind, wp_attempt, wp_wrap, wp_write_grant; [done..| |].
  - intros e s3 H3. apply wp_bind, wp_discard, wp_attempt, (wp_evolves scratch); [by apply scratch_remove|]. intros r s4 H4.
    apply wp_throw, He. etransitivity; [exact Hs2|]. by etransitivity.
  - intros s3 H3. apply wp_bind, wp_discard, wp_attempt, (wp_evolves scratch); [by apply scratch_remove|]. intros r s4 H4.
    assert (H5 : placed final g s s4) by by (eapply scratch_placed; [|eapply placed_scratch|]).
    apply wp_ret, (Hok g); [done| |done]. destruct H5 as (_ & _ & _ & Hc). cbn. lia.
Qed.

(** What a connection gets of a grant: the one command, for an address of the
    grant, in its directory. *)
Definition allows (g : Grant) (cmd conn : string) (plan : ServePlan) : Prop :=
  covers g conn = Ok tt /\ IsAbs (gr_ModelDir g) = true /\
  exists options sources, ParseSenderCommand cmd = Ok options /\ serve_sources g = Ok sources /\
    plan = MkPlan rsyncPath (serve_argv options sources) (gr_ModelDir g).
Definition live_at (id : string) (now : Time) (g : Grant) (s : Grants) : Prop :=
  ValidTransferID id = true /\ gd_files s !! json id = Some (Some g) /\ gr_TransferID g = id /\ now < gr_ExpiresAt g.
Lemma wp_ReadGrant id now s (Q : result Grant -> Grants -> Prop) :
  (forall e s', reads s s' -> Q (Err e) s') ->
  (forall g s', reads s s' -> live_at id now g s -> (gd_used s !! id = None \/ exists n e, os_fault n = Some e) -> Q (Ok g) s') ->
  wp (ReadGrant id now) s Q.
Proof.
  intros He Hok. unfold ReadGrant. apply wp_bind, wp_guard; intros Hid; [|by apply He]. apply wp_bind, wp_attempt.
  assert (Hrest : forall s1, reads s s1 -> (gd_used s !! id = None \/ exists n e, os_fault n = Some e) -> 
    wp (g ← map_err (fun e => if errors_Is e "fs.ErrNotExist" then ErrNoGrant else e) (readGrantFile (json id));
        guard_err (bool_decide (gr_TransferID g = id)) (Opaque "grant does not match its file name");;
        guard_err (now <? gr_ExpiresAt g) (Opaque "grant has expired");; mret g) s1 Q).
  { intros s1 (Hf1 & Hu1 & Hc1) Hun. assert (Hr : reads s (tick s1)) by by (split; [done|split; [done|cbn; lia]]).
    apply wp_bind, wp_map_err. unfold readGrantFile. apply wp_bind. unfold read_file. apply wp_syscall; [intros e _; by apply He|].
    cbn [gd_files tick]. rewrite Hf1. destruct (gd_files s !! json id) as [[g|]|] eqn:Eg; [apply wp_ret|by apply He|by apply He].
    apply wp_bind, wp_guard; intros Hi; [|by apply He]. apply bool_decide_eq_true in Hi. apply wp_bind, wp_guard; intros Hx; [|by apply He].
    apply wp_ret, Hok; [done| |done]. split; [done|]. split; [done|]. split; [done|lia]. }
  unfold stat_used. apply wp_syscall.
  - intros e Hfault. cbn [is_ok]. apply wp_bind, wp_guard; intros _; [|by apply He, reads_tick]. apply Hrest; [apply reads_tick|right; eauto].
  - cbn [gd_used tick]. destruct (gd_used s !! id) as [m|] eqn:Eu; apply wp_bind, wp_guard; intros Hn; try done; try (by apply He, reads_tick).
    apply Hrest; [apply reads_tick|by left].
Qed.
Lemma wp_check_serve id cmd conn now s (Q : result ServePlan -> Grants -> Prop) :
  (forall e s', reads s s' -> Q (Err e) s') ->
  (forall g plan s', reads s s' -> live_at id now g s -> (gd_used s !! id = None \/ exists n e, os_fault n = Some e) -> allows g cmd conn plan -> Q (Ok plan) s') ->
  wp (check_serve id cmd conn now) s Q.
Proof.
  intros He Hok. unfold check_serve. apply wp_bind, wp_ReadGrant; [done|]. intros g s1 H1 Hl Hun.
  apply wp_bind. destruct (covers g conn) as [[]|e] eqn:Ec; [|by apply He]. apply wp_ret, wp_bind.
  destruct (ParseSenderCommand cmd) as [options|e] eqn:Eo; [|by apply He]. apply wp_ret, wp_bind, wp_guard; intros Ha; [|by apply He].
  apply wp_bind. destruct (serve_sources g) as [sources|e] eqn:Es; [|by apply He]. apply wp_ret, wp_ret, (Hok g); [done..|].
  split; [done|]. split; [done|]. by exists options, sources.
Qed.
Definition marked (id : string) (s s' : Grants) : Prop :=
  gd_used s !! id = None /\ gd_files s' = gd_files s /\ gd_used s' = <[id := gd_clock s']> (gd_used s) /\ gd_clock s <= gd_clock s'.
Lemma wp_consume id s (Q : result unit -> Grants -> Prop) :
  (forall e s', reads s s' -> Q (Err e) s') -> (forall s', marked id s s' -> Q (Ok tt) s') -> wp (consume id) s Q.
Proof.
  intros He Hok. unfold consume, mark_used. apply wp_wrap, wp_syscall; [intros e _; apply He, reads_tick|]. cbn [gd_used tick].
  destruct (gd_used s !! id) eqn:E; [apply He, reads_tick|]. apply Hok. split; [done|]. split; [done|]. split; [done|cbn; lia].
Qed.

(** What the forced command of a connection decides: it runs a command only
    for a grant that is live, whose marker was not there, for an address of
    the grant and a command of the one accepted form; what runs is that
    [rsync], in the grant's directory, of the grant's files, and the marker is
    there afterwards. Otherwise no marker is made. The grants are left alone. *)
Theorem PrepareServe_spec id cmd conn now s :
  wp (PrepareServe id cmd conn now) s (fun r s' => gd_files s' = gd_files s /\
    match r with
    | Ok plan => exists g, live_at id now g s /\ allows g cmd conn plan /\ gd_used s !! id = None /\ gd_used s' = <[id := gd_clock s']> (gd_used s)
    | Err _ => gd_used s' = gd_used s
    end).
Proof.
  unfold PrepareServe. apply wp_bind, wp_check_serve; [by intros e s' (Hf & Hu & _)|]. intros g plan s1 (Hf & Hu & _) Hl _ Ha.
  apply wp_bind, wp_consume; [intros e s2 (Hf2 & Hu2 & _); split; congruence|]. intros s2 (Hno & Hf2 & Hu2 & _). apply wp_ret.
  split; [congruence|]. exists g. rewrite Hu in *. done.
Qed.
End Operations.

(** ** Runs *)
Inductive Event :=
| EvAuthorized (fs : files) (req : AuthorizePeerPull)
| EvServed (id cmd conn : string) (plan : ServePlan)
| EvUnmarked (id : string) (racing : bool).
Definition authorizes (X : string) (e : Event) : bool := match e with EvAuthorized _ req => bool_decide (ap_TransferID req = X) | _ => false end.
Definition serves (X : string) (e : Event) : bool := match e with EvServed id _ _ _ => bool_decide (id = X) | _ => false end.
(** A marker removed while a connection was past its checks, and one removed
    while its grant is still live. *)
Definition raced (X : string) (e : Event) : bool := match e with EvUnmarked id true => bool_decide (id = X) | _ => false end.
Definition forgotten (X : string) (e : Event) : bool := match e with EvUnmarked id false => bool_decide (id = X) | _ => false end.
Definition count (p : Event -> bool) (l : list Event) : nat := length (List.filter p l).
#[global] Arguments count : simpl never.
Lemma count_app p l l' : count p (l ++ l') = (count p l + count p l')%nat.
Proof. unfold count. by rewrite List.filter_app, length_app. Qed.
Lemma count_one p e : count p [e] = if p e then 1%nat else 0%nat.
Proof. unfold count. cbn. by destruct (p e). Qed.
Lemma count_none p l : (forall e, e ∈ l -> p e = false) -> count p l = 0%nat.
Proof.
  unfold count. induction l as [|e l IH]; intros Hp; [done|]. cbn [List.filter]. rewrite Hp by set_solver. apply IH. set_solver.
Qed.
Lemma count_some p l e : e ∈ l -> p e = true -> (1 <= count p l)%nat.
Proof.
  intros He Hp. unfold count. assert (Hin : List.In e (List.filter p l)) by (apply List.filter_In; split; [by apply list_elem_of_In|done]).
  destruct (List.filter p l); [done|cbn; lia].
Qed.
(** The directories, the connections between their checks and their marker, and
    what has happened. *)
Abbreviation Pending := (list (string * string * string * ServePlan)).
Record Run := MkRun { rn_state : Grants; rn_pending : Pending; rn_events : list Event }.
Definition waiting (p : Pending) (X : string) : bool := existsb (fun x : string * string * string * ServePlan => bool_decide (x.1.1.1 = X)) p.
Definition live_grant (s : Grants) (X : string) : bool :=
  match gd_files s !! json X with Some (Some g) => gd_clock s <? gr_ExpiresAt g | _ => false end.
#[global] Arguments waiting : simpl never.
#[global] Arguments live_grant : simpl never.
(** The markers that a cleaning removed, those that still mattered. *)
Definition lost (s s' : Grants) (p : Pending) (X : string) : list Event :=
  if bool_decide (is_Some (gd_used s !! X)) && bool_decide (gd_used s' !! X = None) then
    if waiting p X then [EvUnmarked X true] else if live_grant s' X then [EvUnmarked X false] else []
  else [].
Definition unmarked (s s' : Grants) (p : Pending) : list Event := concat (map (lost s s' p) (elements (dom (gd_used s)))).
Lemma waiting_in p X : waiting p X = true <-> exists cmd conn plan, (X, cmd, conn, plan) ∈ p.
Proof.
  unfold waiting. rewrite existsb_exists. split.
  - intros ([[[Y cmd] conn] plan] & Hin%list_elem_of_In & E%bool_decide_eq_true). cbn in E. subst. eauto.
  - intros (cmd & conn & plan & Hin). eexists. split; [by apply list_elem_of_In|by apply bool_decide_eq_true].
Qed.
Lemma lost_in s s' p X e : is_Some (gd_used s !! X) -> e ∈ lost s s' p X -> e ∈ unmarked s s' p.
Proof.
  intros Hm He. unfold unmarked. apply list_elem_of_In, List.in_concat. exists (lost s s' p X). split; [|by apply list_elem_of_In].
  apply List.in_map, list_elem_of_In, elem_of_elements. by apply elem_of_dom.
Qed.
Lemma unmarked_only s s' p e : e ∈ unmarked s s' p -> exists X b, e = EvUnmarked X b.
Proof.
  unfold unmarked. intros (l & Hl & He)%list_elem_of_In%List.in_concat. apply List.in_map_iff in Hl as (X & <- & _).
  unfold lost in He. destruct (_ && _); [|done]. destruct (waiting p X); [destruct He as [<-|[]]; by eexists _, _|].
  destruct (live_grant s' X); [destruct He as [<-|[]]; by eexists _, _|done].
Qed.

(** The root is the one of this node; the life of a grant is a setting of the
    agent, any or always the same one. *)
Section Runs.
Context `{GrantHost} (root : string) (T : option Z).
Definition same_life (ttl : Z) : Prop := match T with Some t => ttl = t | None => True end.
Definition life (ttl : Z) : Prop := 0 <= ttl /\ same_life ttl.
Definition agent (ttl : Z) : Authorizer := MkAuthorizer root ttl.

(** Connections come at any time and are served at the same time; the agent
    authorizes, revokes and sweeps at any time, each of these and a
    connection's checks taken as one step. *)
Inductive peer_step : Run -> Run -> Prop :=
| ps_authorize ttl fs req s p l : life ttl ->
    peer_step (MkRun s p l)
      (let (r, s') := Authorize (agent ttl) fs req s in MkRun s' p (if is_ok r then l ++ [EvAuthorized fs req] else l))
| ps_revoke id s p l : peer_step (MkRun s p l) (let s' := snd (Revoke id s) in MkRun s' p (l ++ unmarked s s' p))
| ps_sweep ttl s p l : life ttl -> peer_step (MkRun s p l) (let s' := snd (SweepStale (agent ttl) s) in MkRun s' p (l ++ unmarked s s' p))
| ps_keys user now s p l : peer_step (MkRun s p l) (MkRun (snd (WriteAuthorizedKeys user now s)) p l)
| ps_check id cmd conn s p l :
    peer_step (MkRun s p l)
      (let (r, s') := check_serve id cmd conn (gd_clock s) s in
       MkRun s' (match r with Ok plan => (id, cmd, conn, plan) :: p | Err _ => p end) l)
| ps_consume id cmd conn plan p1 p2 s l :
    peer_step (MkRun s (p1 ++ (id, cmd, conn, plan) :: p2) l)
      (let (r, s') := consume id s in MkRun s' (p1 ++ p2) (if is_ok r then l ++ [EvServed id cmd conn plan] else l))
| ps_dies x p1 p2 s l : peer_step (MkRun s (p1 ++ x :: p2) l) (MkRun s (p1 ++ p2) l)
| ps_time c s p l : gd_clock s <= c -> peer_step (MkRun s p l) (MkRun (MkGrants (gd_files s) (gd_used s) c (gd_calls s)) p l).

(** What a transfer may be served: once for each authorization, and for each
    time its marker went when it mattered. *)
Definition allowed (X : string) (l : list Event) : nat :=
  (count (authorizes X) l + count (raced X) l + match T with Some _ => 0 | None => count (forgotten X) l end)%nat.
Definition young (g : Grant) (t : Time) : Prop := match T with Some ttl => gr_ExpiresAt g - ttl <= t | None => True end.
Definition served_from (l : list Event) (id cmd conn : string) (plan : ServePlan) : Prop :=
  exists ttl fs req g, EvAuthorized fs req ∈ l /\ made_from (agent ttl) fs req g /\ gr_TransferID g = id /\ allows g cmd conn plan.
Record run_inv (r : Run) : Prop := {
  ri_grants : forall X g, ValidTransferID X = true -> gd_files (rn_state r) !! json X = Some (Some g) ->
    young g (gd_clock (rn_state r)) /\ exists ttl fs req, EvAuthorized fs req ∈ rn_events r /\ made_from (agent ttl) fs req g;
  ri_pending : forall id cmd conn plan, (id, cmd, conn, plan) ∈ rn_pending r ->
    ValidTransferID id = true /\ served_from (rn_events r) id cmd conn plan;
  ri_served : forall id cmd conn plan, EvServed id cmd conn plan ∈ rn_events r -> served_from (rn_events r) id cmd conn plan;
  ri_once : forall X, ValidTransferID X = true -> waiting (rn_pending r) X = true \/ live_grant (rn_state r) X = true ->
    (count (serves X) (rn_events r) < allowed X (rn_events r))%nat \/
    exists m, gd_used (rn_state r) !! X = Some m /\ forall g, gd_files (rn_state r) !! json X = Some (Some g) -> young g m;
  ri_count : forall X, (count (serves X) (rn_events r) <= allowed X (rn_events r))%nat
}.
Lemma served_from_mono l l' id cmd conn plan : (forall e, e ∈ l -> e ∈ l') -> served_from l id cmd conn plan -> served_from l' id cmd conn plan.
Proof. intros Hl (ttl & fs & req & g & Hin & Hrest). exists ttl, fs, req, g. split; [by apply Hl|done]. Qed.
Lemma young_mono g t t' : t <= t' -> young g t -> young g t'.
Proof. unfold young. destruct T; [lia|done]. Qed.
Lemma live_mono s s' X : (forall n c, gd_files s' !! n = Some c -> gd_files s !! n = Some c) -> gd_clock s <= gd_clock s' ->
  live_grant s' X = true -> live_grant s X = true.
Proof. unfold live_grant. intros Hf Hc. destruct (gd_files s' !! json X) as [[g|]|] eqn:E; try done. rewrite (Hf _ _ E). lia. Qed.
Lemma run_inv_reads s s' p l : reads s s' -> run_inv (MkRun s p l) -> run_inv (MkRun s' p l).
Proof.
  intros (Hf & Hu & Hc) [Ig Ip Is Io Ic]. split; cbn in *; [|done|done| |done].
  - intros X g Hx. rewrite Hf. intros Hg. destruct (Ig X g Hx Hg) as [Hy Hm]. split; [by eapply young_mono|done].
  - intros X Hx Hpre. rewrite Hf, Hu. apply Io; [done|]. destruct Hpre as [|Hl]; [by left|right]. eapply live_mono; [|done|exact Hl]. by rewrite Hf.
Qed.
Lemma count_unmarked s s' p l X :
  count (serves X) (l ++ unmarked s s' p) = count (serves X) l /\ (allowed X l <= allowed X (l ++ unmarked s s' p))%nat.
Proof.
  rewrite count_app. unfold allowed. rewrite !count_app. split; [|destruct T; lia].
  rewrite (count_none (serves X) (unmarked s s' p)); [lia|]. by intros e (Y & b & ->)%unmarked_only.
Qed.
(** A cleaning: whatever it removes is counted, or did not matter. *)
Lemma run_inv_cleans ttl s s' p l : same_life ttl -> cleans ttl s s' -> run_inv (MkRun s p l) -> run_inv (MkRun s' p (l ++ unmarked s s' p)).
Proof.
  intros Hlife (C1 & C2 & C3 & C4) [Ig Ip Is Io Ic]. cbn in *.
  assert (Hl : forall e, e ∈ l -> e ∈ l ++ unmarked s s' p) by by intros e He; apply elem_of_app; left.
  split; cbn.
  - intros X g Hx Hg. destruct (Ig X g Hx (C1 _ _ Hg)) as [Hy (t & fs & req & Hin & Hm)]. split; [by eapply young_mono|].
    exists t, fs, req. split; [by apply Hl|done].
  - intros id cmd conn plan Hin. destruct (Ip _ _ _ _ Hin) as [Hv Hs]. split; [done|]. by eapply served_from_mono.
  - intros id cmd conn plan [Hin|(Y & b & Hbad)%unmarked_only]%elem_of_app; [|done]. eapply served_from_mono; [exact Hl|by apply Is].
  - intros X Hx Hpre. destruct (count_unmarked s s' p l X) as [-> Hle].
    assert (Hpre0 : waiting p X = true \/ live_grant s X = true).
    { destruct Hpre as [|Hlv]; [by left|right]. by eapply live_mono. }
    destruct (Io X Hx Hpre0) as [Ho|(m & Hm & Hy)]; [left; lia|].
    destruct (gd_used s' !! X) as [m'|] eqn:E.
    { right. exists m'. split; [done|]. specialize (C2 _ _ E). assert (m' = m) as -> by congruence. intros g Hg. by apply Hy, C1. }
    left. specialize (Ic X).
    assert (Hlost : forall e, e ∈ lost s s' p X -> e ∈ unmarked s s' p) by (intros e; apply lost_in; by exists m).
    unfold lost in Hlost. rewrite bool_decide_eq_true_2, bool_decide_eq_true_2 in Hlost by (done || by exists m). cbn [andb] in Hlost.
    unfold allowed in *. rewrite !count_app. destruct (waiting p X) eqn:Ew.
    + assert (Hr : (1 <= count (raced X) (unmarked s s' p))%nat).
      { apply (count_some _ _ (EvUnmarked X true)); [apply Hlost; by left|]. by apply bool_decide_eq_true. }
      destruct T; lia.
    + destruct Hpre as [|Hlv]; [congruence|]. rewrite Hlv in Hlost. unfold young in Hy. unfold same_life in Hlife. destruct T as [t|]; [exfalso|].
      * subst t. unfold live_grant in Hlv. destruct (gd_files s' !! json X) as [[g|]|] eqn:Eg; try done. specialize (Hy g (C1 _ _ Eg)).
        destruct (C3 X m Hm E) as [Hgone|Hold]; [congruence|lia].
      * assert (Hr : (1 <= count (forgotten X) (unmarked s s' p))%nat).
        { apply (count_some _ _ (EvUnmarked X false)); [apply Hlost; by left|]. by apply bool_decide_eq_true. }
        lia.
  - intros X. destruct (count_unmarked s s' p l X) as [-> Hle]. specialize (Ic X). lia.
Qed.
Lemma run_inv_authorize ttl fs req s p l : life ttl -> run_inv (MkRun s p l) ->
  run_inv (let (r, s') := Authorize (agent ttl) fs req s in MkRun s' p (if is_ok r then l ++ [EvAuthorized fs req] else l)).
Proof.
  intros [_ Hlife] [Ig Ip Is Io Ic]. unfold same_life in Hlife. cbn in *.
  enough (Hwp : wp (Authorize (agent ttl) fs req) s (fun r s' => run_inv (MkRun s' p (if is_ok r then l ++ [EvAuthorized fs req] else l)))).
  { unfold wp in Hwp. by destruct (Authorize (agent ttl) fs req s). }
  apply wp_Authorize.
  - intros e s' (Hf & Hu & Hc). cbn [is_ok].
    assert (Hsame : forall X, ValidTransferID X = true -> gd_files s' !! json X = gd_files s !! json X) by (intros X Hx; by apply Hf, json_not_tmp).
    split; cbn; [|done|done| |done].
    + intros X g Hx. rewrite Hsame by done. intros Hg. destruct (Ig X g Hx Hg) as [Hy Hm]. split; [by eapply young_mono|done].
    + intros X Hx Hpre. rewrite Hsame, Hu by done. apply Io; [done|]. destruct Hpre as [|Hlv]; [by left|right].
      unfold live_grant in *. rewrite Hsame in Hlv by done. destruct (gd_files s !! json X) as [[g|]|]; try done. lia.
  - intros g s' Hm Hage (Hnew & Hf & Hu & Hc). cbn [is_ok]. set (X0 := ap_TransferID req) in *. set (l' := l ++ [EvAuthorized fs req]).
    assert (Hl : forall e, e ∈ l -> e ∈ l') by by intros e He; apply elem_of_app; left.
    assert (Hserve : forall X, count (serves X) l' = count (serves X) l) by by intros X; unfold l'; rewrite count_app, count_one; cbn; lia.
    assert (Hauth : forall X, allowed X l' = (allowed X l + (if bool_decide (X0 = X) then 1 else 0))%nat).
    { intros X. unfold allowed, l'. rewrite !count_app, !count_one. cbn [authorizes raced forgotten]. fold X0. destruct T; lia. }
    assert (Hother : forall X, ValidTransferID X = true -> X <> X0 -> gd_files s' !! json X = gd_files s !! json X).
    { intros X Hx Hne. apply Hf; [by apply json_not_tmp|]. by intros ?%json_inj. }
    split; cbn.
    + intros X g' Hx Hg'. destruct (decide (X = X0)) as [->|Hne].
      * assert (g' = g) as -> by congruence. split.
        -- unfold young. destruct T; [subst ttl; cbn in Hage; lia|done].
        -- exists ttl, fs, req. split; [|done]. apply elem_of_app. right. by apply list_elem_of_singleton.
      * rewrite Hother in Hg' by done. destruct (Ig X g' Hx Hg') as [Hy (t & fs' & req' & Hin & Hm')].
        split; [by eapply young_mono|]. exists t, fs', req'. split; [by apply Hl|done].
    + intros id cmd conn plan Hin. destruct (Ip _ _ _ _ Hin) as [Hv Hs]. split; [done|by eapply served_from_mono].
    + intros id cmd conn plan [Hin|Hin%list_elem_of_singleton]%elem_of_app; [|done]. eapply served_from_mono; [exact Hl|by apply Is].
    + intros X Hx Hpre. rewrite Hserve, Hauth. specialize (Ic X). destruct (decide (X0 = X)) as [->|Hne].
      * left. rewrite bool_decide_eq_true_2 by done. lia.
      * rewrite bool_decide_eq_false_2 by done. rewrite Hother, Hu by congruence. destruct (Io X Hx) as [Ho|Ho]; [|left; lia|by right].
        destruct Hpre as [|Hlv]; [by left|right]. unfold live_grant in *. rewrite Hother in Hlv by congruence.
        destruct (gd_files s !! json X) as [[g'|]|]; try done. lia.
    + intros X. rewrite Hserve, Hauth. specialize (Ic X). lia.
Qed.
Lemma run_inv_check id cmd conn s p l : run_inv (MkRun s p l) ->
  run_inv (let (r, s') := check_serve id cmd conn (gd_clock s) s in
           MkRun s' (match r with Ok plan => (id, cmd, conn, plan) :: p | Err _ => p end) l).
Proof.
  intros Hinv. enough (Hwp : wp (check_serve id cmd conn (gd_clock s)) s
    (fun r s' => run_inv (MkRun s' (match r with Ok plan => (id, cmd, conn, plan) :: p | Err _ => p end) l))).
  { unfold wp in Hwp. by destruct (check_serve _ _ _ _ s). }
  apply wp_check_serve; [intros e s' Hr; by eapply run_inv_reads|].
  intros g plan s' Hr (Hv & Hg & Hid & Hlt) _ Hal. pose proof (run_inv_reads _ _ _ _ Hr Hinv) as [Ig Ip Is Io Ic]. cbn in *.
  destruct Hinv as [Ig0 _ _ Io0 _]. cbn in *. destruct (Ig0 id g Hv Hg) as [_ (ttl & fs & req & Hin & Hm)]. destruct Hr as (Hf & Hu & Hc).
  split; cbn; [done| |done| |done].
  - intros id' cmd' conn' plan' [[= -> -> -> ->]|Hold]%elem_of_cons; [|by apply Ip]. split; [done|]. by exists ttl, fs, req, g.
  - intros X Hx [Hw|Hlv]; [|apply Io; auto]. apply orb_true_iff in Hw as [Hw%bool_decide_eq_true|Hw]; [|apply Io; auto].
    cbn in Hw. subst X. rewrite Hf, Hu. apply Io0; [done|]. right. unfold live_grant. rewrite Hg. lia.
Qed.
Lemma run_inv_fewer s p p' l : (forall x, x ∈ p' -> x ∈ p) -> run_inv (MkRun s p l) -> run_inv (MkRun s p' l).
Proof.
  intros Hp [Ig Ip Is Io Ic]. split; cbn in *; [done|intros; by eapply Ip, Hp|done| |done]. intros X Hx Hpre. apply Io; [done|].
  destruct Hpre as [(cmd & conn & plan & Hin)%waiting_in|]; [left|by right]. apply waiting_in. exists cmd, conn, plan. by apply Hp.
Qed.
Lemma run_inv_consume id cmd conn plan p1 p2 s l : run_inv (MkRun s (p1 ++ (id, cmd, conn, plan) :: p2) l) ->
  run_inv (let (r, s') := consume id s in MkRun s' (p1 ++ p2) (if is_ok r then l ++ [EvServed id cmd conn plan] else l)).
Proof.
  intros Hinv. set (p := p1 ++ _) in *. assert (Hmem : (id, cmd, conn, plan) ∈ p) by (unfold p; set_solver).
  assert (Hfew : run_inv (MkRun s (p1 ++ p2) l)) by (eapply run_inv_fewer; [|exact Hinv]; unfold p; set_solver).
  destruct Hinv as [_ Ip _ Io _]. cbn in *. destruct (Ip _ _ _ _ Hmem) as [Hv Hfrom].
  assert (Hw : waiting p id = true) by (apply waiting_in; eauto). specialize (Io id Hv (or_introl Hw)).
  destruct Hfew as [Ig' Ip' Is Io' Ic]. cbn in *.
  enough (Hwp : wp (consume id) s (fun r s' => run_inv (MkRun s' (p1 ++ p2) (if is_ok r then l ++ [EvServed id cmd conn plan] else l)))).
  { unfold wp in Hwp. by destruct (consume id s). }
  apply wp_consume; [intros e s' Hr; eapply run_inv_reads; [exact Hr|by split]|].
  intros s' (Hno & Hf & Hu & Hc). cbn [is_ok]. set (l' := l ++ _).
  assert (Hl : forall e, e ∈ l -> e ∈ l') by by intros e He; apply elem_of_app; left.
  assert (Hauth : forall X, allowed X l' = allowed X l).
  { intros X. unfold allowed, l'. rewrite !count_app, !count_one. cbn [authorizes raced forgotten]. destruct T; lia. }
  assert (Hserve : forall X, count (serves X) l' = (count (serves X) l + (if bool_decide (id = X) then 1 else 0))%nat).
  { intros X. unfold l'. by rewrite count_app, count_one. }
  assert (Hless : (count (serves id) l < allowed id l)%nat) by (destruct Io as [?|(m & Hm & _)]; [done|congruence]).
  split; cbn.
  - intros X g Hx. rewrite Hf. intros Hg. destruct (Ig' X g Hx Hg) as [Hy (ttl & fs & req & Hin & Hm)]. split; [by eapply young_mono|].
    exists ttl, fs, req. split; [by apply Hl|done].
  - intros id' cmd' conn' plan' Hin. destruct (Ip' _ _ _ _ Hin) as [Hv' Hs]. split; [done|by eapply served_from_mono].
  - intros id' cmd' conn' plan' [Hin|Hin%list_elem_of_singleton]%elem_of_app; [eapply served_from_mono; [exact Hl|by apply Is]|].
    injection Hin as -> -> -> ->. by eapply served_from_mono.
  - intros X Hx Hpre. rewrite Hauth, Hserve, Hf, Hu. destruct (decide (id = X)) as [->|Hne].
    + right. rewrite lookup_insert_eq. eexists. split; [done|]. intros g Hg. destruct (Ig' X g Hx Hg) as [Hy _]. by eapply young_mono.
    + rewrite bool_decide_eq_false_2, lookup_insert_ne by done. destruct (Io' X Hx) as [Ho|Ho]; [|left; lia|by right].
      destruct Hpre as [|Hlv]; [by left|right]. eapply live_mono; [|exact Hc|exact Hlv]. by rewrite Hf.
  - intros X. rewrite Hserve, Hauth. specialize (Ic X). case_bool_decide; [subst X|]; lia.
Qed.
Lemma peer_step_inv r r' : peer_step r r' -> run_inv r -> run_inv r'.
Proof.
  intros [] Hr.
  - by apply run_inv_authorize.
  - assert (Hlife : exists ttl, cleans ttl s (snd (Revoke id s)) /\ same_life ttl).
    { unfold same_life. destruct T as [t|]; [exists t|exists 0]; (split; [apply cleans_Revoke|done]). }
    destruct Hlife as (ttl & Hc & Ht). by apply (run_inv_cleans ttl).
  - destruct H0 as [H1 H2]. by apply (run_inv_cleans ttl); [|apply (cleans_SweepStale (agent ttl))|].
  - eapply run_inv_reads; [|exact Hr]. apply reads_WriteAuthorizedKeys.
  - by apply run_inv_check.
  - by apply run_inv_consume.
  - eapply run_inv_fewer; [|exact Hr]. set_solver.
  - eapply run_inv_reads; [|exact Hr]. by split.
Qed.
(** A node where nothing was granted yet. *)
Definition fresh (r : Run) : Prop := (forall X, gd_files (rn_state r) !! json X = None) /\ rn_pending r = [] /\ rn_events r = [].
Lemma fresh_inv r : fresh r -> run_inv r.
Proof.
  intros (Hf & Hp & He). split; rewrite ?Hp, ?He.
  - intros X g _. by rewrite Hf.
  - by intros ? ? ? ? ?%elem_of_nil.
  - by intros ? ? ? ? ?%elem_of_nil.
  - intros X _ [Hw|Hlv]; [done|]. unfold live_grant in Hlv. by rewrite Hf in Hlv.
  - intros X. cbn. unfold allowed, count. cbn. destruct T; lia.
Qed.
Lemma runs_inv r r' : rtc peer_step r r' -> run_inv r -> run_inv r'.
Proof. induction 1 as [|r1 r2 r3 Hs _ IH]; [done|]. intros Hr. by apply IH, (peer_step_inv r1). Qed.

(** C31: whatever is served was authorized, by a request for that transfer with
    a proper key and addresses, one of which is the connection's: what runs is
    [rsync] as a sender, with options of the accepted form, in the directory
    the model had when the grant was made, which is strictly inside the real
    storage of models with no link on its path, and of that directory as a
    whole or of files with safe names, those of the quantization asked for. *)
Theorem served_as_authorized r r' id cmd conn plan : IsAbs root = true -> fresh r -> rtc peer_step r r' ->
  EvServed id cmd conn plan ∈ rn_events r' ->
  exists fs req ips fl options, EvAuthorized fs req ∈ rn_events r' /\ ap_TransferID req = id /\
    ValidSSHPublicKey (ap_DestPublicKey req) = true /\ ParseDestIPs (ap_DestIPAddress req) = Ok ips /\
    (exists addr rest, Fields conn = addr :: rest /\ addr ∈ ips) /\
    ParseSenderCommand cmd = Ok options /\ sv_Path plan = rsyncPath /\
    sv_Argv plan = serve_argv options (if bool_decide (fl = []) then ["."] else map (fun f => "./" +:+ f) fl) /\
    source_ok fs root (sv_Dir plan, fl) /\
    (whole_model (ap_Format req) (ap_Quantization req) = false -> fl <> [] /\ Forall (fun n => contains n (ap_Quantization req) = true) fl).
Proof.
  intros Habs Hf Hs Hin. destruct (ri_served _ (runs_inv _ _ Hs (fresh_inv _ Hf)) _ _ _ _ Hin) as
    (ttl & fs & req & g & Hauth & (Hv & Hkey & _ & ips & src & now & Hips & Hsrc & ->) & Hid & Hc & _ & options & sources & Ho & Hso & ->).
  cbn in Hid, Hc, Hso. destruct (resolveSource_ok _ _ _ _ _ _ Habs Hsrc) as [Hok Hq]. exists fs, req, ips, src.2, options.
  split; [done|]. split; [done|]. split; [done|]. split; [done|]. split.
  { unfold covers in Hc. destruct (Fields conn) as [|addr rest]; [done|]. exists addr, rest. split; [done|].
    destruct (existsb _ _) eqn:E; [|done]. apply existsb_exists in E as (ip & Hip & <-%bool_decide_eq_true). by apply list_elem_of_In. }
  split; [done|]. split; [done|]. cbn [sv_Argv sv_Dir sv_Path gr_ModelDir new_grant]. split; [|split; [by destruct src|done]].
  f_equal. unfold serve_sources in Hso. cbn in Hso. case_bool_decide as E; [by injection Hso as <-|].
  destruct (forallb SafeFileName src.2); [by injection Hso as <-|done].
Qed.
End Runs.

(** C30: over any run of authorizations, revocations, sweeps, key listings and
    connections, however they interleave, a transfer is served at most as
    often as it was authorized, and as its marker was removed by a revocation
    or a sweep when that mattered: while a connection was between its checks
    and its marker, or while its grant was still live.  When the life of a
    grant is never changed the latter is not counted: then, but for
    revocations and sweeps that race with a connection, a grant is good for
    one connection. *)
Theorem grants_used_once `{GrantHost} root r r' X : fresh r ->
  (rtc (peer_step root None) r r' ->
    (count (serves X) (rn_events r') <=
      count (authorizes X) (rn_events r') + count (raced X) (rn_events r') + count (forgotten X) (rn_events r'))%nat) /\
  (forall T, rtc (peer_step root (Some T)) r r' ->
    (count (serves X) (rn_events r') <= count (authorizes X) (rn_events r') + count (raced X) (rn_events r'))%nat).
Proof.
  intros Hf. split; [intros Hs; pose proof (ri_count _ _ _ (runs_inv _ _ _ _ Hs (fresh_inv _ _ _ Hf)) X) as Hc|
    intros T Hs; pose proof (ri_count _ _ _ (runs_inv _ _ _ _ Hs (fresh_inv _ _ _ Hf)) X) as Hc];
    unfold allowed in Hc; cbv iota in Hc; lia.
Qed.

(** ** A node with one model *)
Definition quiet_host : GrantHost.
Proof. refine {| os_fault := fun _ => None; tmp_suffix := fun n => itoa (Z.of_N n) |}. done. Defined.
Definition storage : files := MkFiles
  {[ ["models"] := FDir; ["models"; "org"] := FDir; ["models"; "org"; "m"] := FDir; ["models"; "org"; "m"; "m-Q4_K_M.gguf"] := FFile;
     ["models"; "org"; "m"; "m-Q8_0.gguf"] := FFile; ["models"; "org"; "out"] := FLink "/etc"; ["etc"] := FDir ]} [].
Definition lab_agent : Authorizer := NewAuthorizer "/models" 0.
Definition lab_request : AuthorizePeerPull :=
  MkAuthorizePeerPull "t-1" "ssh-ed25519 AAAAC3NzaC1lZDI1NTE5" "10.0.0.7,2001:DB8::1" "org/m" "Q4_K_M" "gguf".
Definition empty_grants : Grants := MkGrants ∅ ∅ 0 0.
Definition lab_command : string := "rsync --server --sender -logDtprze.iLsfxCIvu --timeout=60 --safe-links . .".
Definition lab_plan : ServePlan := MkPlan rsyncPath
  ["rsync"; "--server"; "--sender"; "-logDtprze.iLsfxCIvu"; "--timeout=60"; "--safe-links"; "."; "./m-Q4_K_M.gguf"] "/models/org/m".
Definition granted : Grants := snd (@Authorize quiet_host lab_agent storage lab_request empty_grants).
Definition lab_run : Run := MkRun empty_grants [] [].
Definition lab_conn : string := "10.0.0.7 51000 10.0.0.2 22".
Definition checked : Grants := snd (@check_serve quiet_host "t-1" lab_command lab_conn (gd_clock granted) granted).
Definition lab_end : Run := MkRun (snd (@consume quiet_host "t-1" checked)) []
  [EvAuthorized storage lab_request; EvServed "t-1" lab_command lab_conn lab_plan].
Lemma lab_life : life (Some (au_ttl lab_agent)) (au_ttl lab_agent).
Proof. split; [vm_compute; discriminate|done]. Qed.
Abbreviation lab_step := (@peer_step quiet_host "/models" (Some (au_ttl lab_agent))).
Lemma step_to r r1 r2 : lab_step r r1 -> r1 = r2 -> lab_step r r2.
Proof. by intros ? <-. Qed.
Lemma lab_steps : rtc lab_step lab_run lab_end.
Proof.
  apply (rtc_l _ _ (MkRun granted [] [EvAuthorized storage lab_request])).
  { eapply step_to; [exact (@ps_authorize quiet_host "/models" (Some (au_ttl lab_agent)) _ storage lab_request empty_grants [] [] lab_life)|vm_compute; reflexivity]. }
  apply (rtc_l _ _ (MkRun checked [("t-1", lab_command, lab_conn, lab_plan)] [EvAuthorized storage lab_request])).
  { eapply step_to; [exact (@ps_check quiet_host "/models" (Some (au_ttl lab_agent)) "t-1" lab_command lab_conn granted [] [EvAuthorized storage lab_request])|vm_compute; reflexivity]. }
  apply rtc_once. eapply step_to; [exact (@ps_consume quiet_host "/models" (Some (au_ttl lab_agent)) "t-1" lab_command lab_conn lab_plan [] [] checked
    [EvAuthorized storage lab_request])|vm_compute; reflexivity].
Qed.
Lemma lab_fresh : fresh lab_run.
Proof. split; [intros X; apply lookup_empty|done]. Qed.

(** A link out of the storage, a name that climbs, a second use. *)
Example refusals :
  is_ok (resolveSource storage "/models" "org/out" "" "safetensors") = false /\ is_ok (resolveSource storage "/models" "../etc" "" "gguf") = false /\
  let w := snd (@PrepareServe quiet_host "t-1" lab_command "10.0.0.7 51000" 5 granted) in
  fst (@PrepareServe quiet_host "t-1" lab_command "10.0.0.7 51000" 5 granted) = Ok lab_plan /\
  fst (@PrepareServe quiet_host "t-1" lab_command "10.0.0.7 51000" 5 w) = Err (Opaque "grant has already been used") /\
  is_ok (fst (@PrepareServe quiet_host "t-1" lab_command "10.0.0.8 51000" 5 granted)) = false.
Proof. vm_compute. repeat split; reflexivity. Qed.

Lemma grants_used_once_witness : rtc lab_step lab_run lab_end /\
  count (serves "t-1") (rn_events lab_end) = 1%nat /\
  (count (serves "t-1") (rn_events lab_end) <= count (authorizes "t-1") (rn_events lab_end) + count (raced "t-1") (rn_events lab_end))%nat.
Proof.
  split; [exact lab_steps|]. split; [vm_compute; reflexivity|].
  destruct (@grants_used_once quiet_host "/models" lab_run lab_end "t-1" lab_fresh) as [_ Ho]. exact (Ho _ lab_steps).
Defined.
Lemma served_as_authorized_witness : exists fs req fl, EvAuthorized fs req ∈ rn_events lab_end /\ source_ok fs "/models" ("/models/org/m", fl).
Proof.
  assert (Hin : EvServed "t-1" lab_command lab_conn lab_plan ∈ rn_events lab_end) by (right; left).
  destruct (@served_as_authorized quiet_host "/models" _ lab_run lab_end _ _ _ _ eq_refl lab_fresh lab_steps Hin)
    as (fs & req & ips & fl & options & Hauth & _ & _ & _ & _ & _ & _ & _ & Hok & _).
  exists fs, req, fl. split; [exact Hauth|exact Hok].
Defined.

(** The life of a grant is a setting of the agent, and the sweep at its start
    measures the markers with the setting of that start: after a restart with a
    shorter one, a marker can go while its grant is still live, and the grant
    is good for a second connection. *)
Example shorter_life_reuses_grant :
  let later t (s : Grants) := MkGrants (gd_files s) (gd_used s) t (gd_calls s) in
  let used := snd (@PrepareServe quiet_host "t-1" lab_command "10.0.0.7 51000" 5 granted) in
  let restarted := snd (@SweepStale quiet_host (NewAuthorizer "/models" minute) (later (2 * minute) used)) in
  is_ok (fst (@PrepareServe quiet_host "t-1" lab_command "10.0.0.7 51001" (2 * minute) used)) = false /\
  fst (@PrepareServe quiet_host "t-1" lab_command "10.0.0.7 51001" (2 * minute) restarted) = Ok lab_plan.
Proof. vm_compute. split; reflexivity. Qed.

(** A revocation between two connections that were both checked: the first
    makes the marker, the revocation removes it with the grant, and the second
    makes it again and is served too. *)
Example revoked_between_connections :
  let checked2 := snd (@check_serve quiet_host "t-1" lab_command "10.0.0.7 51001" (gd_clock checked) checked) in
  let first := snd (@consume quiet_host "t-1" checked2) in
  fst (@check_serve quiet_host "t-1" lab_command "10.0.0.7 51001" (gd_clock checked) checked) = Ok lab_plan /\
  fst (@consume quiet_host "t-1" checked2) = Ok tt /\ is_ok (fst (@consume quiet_host "t-1" first)) = false /\
  fst (@consume quiet_host "t-1" (snd (@Revoke quiet_host "t-1" first))) = Ok tt.
Proof. vm_compute. repeat split; reflexivity. Qed.
