(* ===== verification/PeerText.v ===== *)
(** * The texts at the edge of a pull between nodes

    The command of the client, as a grammar; and the lines sshd is given, one to
    a grant, none of which can hold anything but what it was written with. *)
From stdpp Require Import base list strings gmap sorting.
From Stdlib Require Import ZArith Lia.
From Stdlib Require Import Ascii.
From Stdlib Require String.
From S2P Require Import Prelude Text Runes Db Wire NetIP GoTime Paths RealPath PeerGrants PeerGrantsSpec.
Local Open Scope string_scope.
Local Open Scope list_scope.
Local Open Scope Z_scope.

(** ** The command of the client *)
Definition blank_free (s : string) : Prop := free_of " "%char s.
Lemma existsb_none {A} (p : A -> bool) l : existsb p l = false <-> Forall (fun x => p x = false) l.
Proof. induction l as [|x l IH]; cbn; [by split|]. rewrite orb_false_iff, Forall_cons, IH. done. Qed.
Lemma forallb_Forall {A} (p : A -> bool) l : forallb p l = true <-> Forall (fun x => p x = true) l.
Proof. induction l as [|x l IH]; cbn; [by split|]. rewrite andb_true_iff, Forall_cons, IH. done. Qed.
Lemma chars_free (p : ascii -> bool) (n : Z) l : (forall c, p c = true -> is_char n c = false) -> Forall (fun c => p c = true) l ->
  existsb (is_char n) l = false.
Proof. intros Hp Hl. apply existsb_none. eapply Forall_impl; [exact Hl|exact Hp]. Qed.
Ltac each_char := let c := fresh in intros c; destruct c as [[] [] [] [] [] [] [] []]; vm_compute; congruence.
Lemma sender_flag_not_blank : forall c, sender_flag c = true -> is_char 32 c = false.
Proof. each_char. Qed.
Lemma digit_not_blank : forall c, is_digit c = true -> is_char 32 c = false.
Proof. each_char. Qed.
Lemma caps_not_blank : forall c, is_lower c || is_upper c || is_char 46 c = true -> is_char 32 c = false.
Proof. each_char. Qed.
Lemma dash_not_blank : forall c, is_char 45 c = true -> is_char 32 c = false.
Proof. each_char. Qed.
Lemma e_not_blank : forall c, is_char 101 c = true -> is_char 32 c = false.
Proof. each_char. Qed.
Lemma dot_not_blank : forall c, is_char 46 c = true -> is_char 32 c = false.
Proof. each_char. Qed.
Lemma drop_flags_spec l : exists fs, l = fs ++ drop_flags l /\ Forall (fun c => sender_flag c = true) fs.
Proof.
  induction l as [|c l (fs & E & Hfs)]; [by exists []|]. cbn [drop_flags]. destruct (sender_flag c) eqn:Hc; [|by exists []].
  exists (c :: fs). split; [cbn; by rewrite <-E|by constructor].
Qed.
Lemma flag_cluster_free s : flag_cluster s = true -> blank_free s.
Proof.
  unfold flag_cluster, blank_free, free_of. change (code " "%char) with 32. destruct (bytes s) as [|d [|c l]]; [done|done|].
  intros [[Hd Hc]%andb_true_iff Hl]%andb_true_iff. cbn [existsb]. rewrite (dash_not_blank _ Hd), (sender_flag_not_blank _ Hc). cbn [orb].
  destruct (drop_flags_spec l) as (fs & E & Hfs). rewrite E, existsb_app, (chars_free _ _ _ sender_flag_not_blank Hfs). cbn [orb].
  destruct (drop_flags l) as [|e [|p caps]]; [done|done|]. apply andb_true_iff in Hl as [[He Hp]%andb_true_iff Hcaps].
  cbn [existsb]. rewrite (e_not_blank _ He), (dot_not_blank _ Hp). apply (chars_free _ _ _ caps_not_blank). by apply forallb_Forall.
Qed.
Lemma long_option_free s : long_option s = true -> blank_free s.
Proof.
  unfold long_option. intros [Hs|[[[Hp _]%andb_true_iff _]%andb_true_iff Hd]%andb_true_iff]%orb_true_iff.
  - apply bool_decide_eq_true in Hs as ->. done.
  - unfold blank_free, free_of. change (code " "%char) with 32. rewrite <-(take_drop 10 (bytes s)), existsb_app.
    rewrite (chars_free _ _ (drop 10 (bytes s)) digit_not_blank) by (by apply forallb_Forall). rewrite orb_false_r.
    apply has_prefix_iff in Hp as (t & ->). rewrite bytes_app. rewrite take_app_le by (cbn; lia). done.
Qed.

Definition sender_command (options : list string) (cmd : string) : Prop :=
  exists flags longs, options = flags :: longs /\ flag_cluster flags = true /\ Forall (fun o => long_option o = true) longs /\
    (length longs <= 2)%nat /\ cmd = join " " (["rsync"; "--server"; "--sender"; flags] ++ longs ++ ["."; "."]).
Lemma words_of_command flags longs : flag_cluster flags = true -> Forall (fun o => long_option o = true) longs ->
  split_text 32 (join " " (["rsync"; "--server"; "--sender"; flags] ++ longs ++ ["."; "."])) =
  ["rsync"; "--server"; "--sender"; flags] ++ longs ++ ["."; "."].
Proof.
  intros Hf Hl. change 32 with (code " "%char). change " " with (one_char " "%char). apply split_text_join; [done|].
  cbn [app]. do 3 (constructor; [done|]). constructor; [by apply flag_cluster_free|]. apply Forall_app. split; [|by repeat constructor].
  eapply Forall_impl; [exact Hl|]. intros o. apply long_option_free.
Qed.
(** C33: the one form of command a connection may ask for: the check, written
    as a pattern over the words of the command, accepts exactly the commands of
    at most 160 bytes that are [rsync --server --sender], one cluster of flags,
    at most two of the two long options it knows, and the two dots; and what it
    gives back is the flags and the options as they were written. *)
Theorem ParseSenderCommand_iff cmd options :
  ParseSenderCommand cmd = Ok options <-> (len cmd <= 160 /\ sender_command options cmd).
Proof.
  unfold ParseSenderCommand, sender_command. destruct (Z.ltb_spec 160 (len cmd)) as [Hlen|Hlen].
  { split; [done|intros [? _]; lia]. }
  split.
  - intros Hok. split; [lia|]. pose proof (join_split_text " "%char cmd) as Hj. change (code " "%char) with 32 in Hj.
    destruct (split_text 32 cmd) as [|r [|t [|u [|flags rest]]]] eqn:Es; try done.
    set (n := (length rest - 2)%nat) in *.
    destruct (bool_decide ([r; t; u] = ["rsync"; "--server"; "--sender"])) eqn:E0; [|done].
    apply bool_decide_eq_true in E0. injection E0 as -> -> ->.
    destruct (flag_cluster flags) eqn:E1; [|done]. destruct (bool_decide (drop n rest = ["."; "."])) eqn:E2; [|done].
    apply bool_decide_eq_true in E2. destruct (Nat.leb_spec (length (take n rest)) 2) as [E3|E3]; [|done].
    destruct (forallb long_option (take n rest)) eqn:E4; [|done]. injection Hok as <-.
    exists flags, (take n rest). split; [done|]. split; [done|]. split; [by apply forallb_Forall|]. split; [done|].
    rewrite <-E2, take_drop. done.
  - intros [_ (flags & longs & -> & Hf & Hl & Hn & ->)]. rewrite words_of_command by done. cbn [app].
    rewrite length_app. cbn [length]. replace (length longs + 2 - 2)%nat with (length longs) by lia.
    rewrite take_app_length, drop_app_length, Hf. apply forallb_Forall in Hl. rewrite Hl.
    rewrite !bool_decide_eq_true_2 by done. destruct (Nat.leb_spec (length longs) 2); [done|lia].
Qed.

(** ** The lines for sshd *)
Definition ip_char (c : ascii) : bool := is_hex c || is_char 46 c || is_char 58 c.
Definition ip_text (l : list ascii) : Prop := Forall (fun c => ip_char c = true) l.
Lemma hex_char_ip d : 0 <= d < 16 -> ip_char (hex_char d) = true.
Proof. revert d. apply (NetIP.below 16). repeat constructor. Qed.
Lemma colons_ip gs : Forall is_group gs -> ip_text (colons gs).
Proof.
  assert (Hg1 : forall g, is_group g -> ip_text (hex_group g)).
  { intros g Hg. rewrite hex_group_ds. destruct (hex_ds_ok g Hg) as (Hds & _ & _). apply List.Forall_map.
    eapply Forall_impl; [exact Hds|]. apply hex_char_ip. }
  intros Hgs. induction Hgs as [|g gs Hg Hgs IH]; [constructor|].
  destruct gs as [|g' gs']; [by apply Hg1|]. rewrite colons_cons by done. apply Forall_app. split; [by apply Hg1|]. by constructor.
Qed.
Lemma dots_ip l : Forall is_byte l -> ip_text (dots l).
Proof.
  assert (Hb1 : forall b, is_byte b -> ip_text (dec_byte b)).
  { intros b Hb. eapply Forall_impl; [by apply dec_byte_digits|]. intros c Hc. unfold ip_char, is_hex. cbn beta. by rewrite Hc. }
  intros Hl. induction Hl as [|b l Hb Hl IH]; [constructor|]. destruct l as [|b' l']; [by apply Hb1|].
  apply Forall_app. split; [by apply Hb1|]. constructor; [done|exact IH].
Qed.
Lemma IP_String_ip ip : ip_ok ip -> ip_text (bytes (IP_String ip)).
Proof.
  intros [Hlen Hb]. unfold IP_String. rewrite bytes_of_bytes. case_bool_decide; [apply dots_ip; by apply Forall_drop|].
  destruct (ungroup_groups ip) as (_ & Hg & _); [by rewrite Hlen|done|]. unfold print_ipv6.
  destruct (best_run 0 (groups ip) (0%nat, 0%nat)) as [start n]. destruct (Nat.eqb n 0); [by apply colons_ip|].
  apply Forall_app. split; [by apply colons_ip, Forall_take|]. do 2 (constructor; [done|]). by apply colons_ip, Forall_drop.
Qed.
Lemma parse_dests_ip parts : forall ips, parse_dests parts = Ok ips ->
  Forall (fun x => exists ip, ip_ok ip /\ x = IP_String ip /\ IsUnspecified ip = false /\ IsMulticast ip = false) ips.
Proof.
  induction parts as [|p parts IH]; intros ips; cbn [parse_dests]; [by intros [= <-]|].
  destruct (ParseIP p) as [ip|] eqn:Ep; [|done]. destruct (IsUnspecified ip || IsMulticast ip) eqn:Eu; [done|].
  destruct (parse_dests parts) as [l|] eqn:El; [|done]. intros [= <-]. apply orb_false_iff in Eu as [??].
  constructor; [|by apply IH]. exists ip. split; [by eapply ParseIP_ok|done].
Qed.
Lemma drop_equals_app l : exists es, l = es ++ drop_equals l /\ Forall (fun c => is_char 61 c = true) es.
Proof.
  induction l as [|c l (es & E & Hes)]; [by exists []|]. cbn [drop_equals]. destruct (is_char 61 c) eqn:Hc; [|by exists []].
  exists (c :: es). split; [cbn; by rewrite <-E|by constructor].
Qed.
Lemma cut_blank_app l a b : cut_blank l = Some (a, b) -> exists c, is_char 32 c = true /\ l = a ++ c :: b.
Proof.
  revert a. induction l as [|c l IH]; intros a; cbn [cut_blank]; [done|]. destruct (is_char 32 c) eqn:Hc; [intros [= <- <-]; by exists c|].
  destruct (cut_blank l) as [[a' b']|]; [|done]. intros [= <- <-]. destruct (IH a' eq_refl) as (d & Hd & ->). by exists d.
Qed.
(** What may stand in a line between its quotes. *)
Definition inert (c : ascii) : Prop := is_char 10 c = false /\ is_char 34 c = false.
Definition inert_text (s : string) : Prop := Forall inert (bytes s).
Lemma alnum_inert : forall c, is_alnum c || is_char 45 c = true -> inert c.
Proof. intros c; destruct c as [[] [] [] [] [] [] [] []]; vm_compute; split; congruence. Qed.
Lemma base64_inert : forall c, is_alnum c || is_char 43 c || is_char 47 c = true -> inert c.
Proof. intros c; destruct c as [[] [] [] [] [] [] [] []]; vm_compute; split; congruence. Qed.
Lemma ip_inert : forall c, ip_char c = true -> inert c /\ is_char 44 c = false.
Proof. intros c; destruct c as [[] [] [] [] [] [] [] []]; vm_compute; (split; [split|]); congruence. Qed.
Lemma mark_inert : forall c, is_char 61 c || is_char 32 c = true -> inert c.
Proof. intros c; destruct c as [[] [] [] [] [] [] [] []]; vm_compute; split; congruence. Qed.
Lemma inert_test l : forallb (fun c => negb (is_char 10 c) && negb (is_char 34 c)) l = true -> Forall inert l.
Proof. intros Hl%forallb_Forall. eapply Forall_impl; [exact Hl|]. by intros c [?%negb_true_iff ?%negb_true_iff]%andb_true_iff. Qed.
Lemma ValidTransferID_inert id : ValidTransferID id = true -> inert_text id.
Proof.
  intros [_ Hc]%andb_true_iff. unfold all_chars in Hc. apply forallb_Forall in Hc. eapply Forall_impl; [exact Hc|]. apply alnum_inert.
Qed.
Lemma ValidSSHPublicKey_inert key : ValidSSHPublicKey key = true -> inert_text key.
Proof.
  unfold ValidSSHPublicKey, inert_text. destruct (_ || _); [done|]. destruct (cut_blank (bytes key)) as [[typ body]|] eqn:Ec; [|done].
  destruct (cut_blank_app _ _ _ Ec) as (c & Hc & ->). intros [Ht Hb]%andb_true_iff. apply Forall_app. split; [|constructor].
  - apply bool_decide_eq_true in Ht. rewrite <-(bytes_of_bytes typ). revert Ht. generalize (of_bytes typ). intros t Ht.
    unfold sshKeyTypes in Ht. repeat (apply elem_of_cons in Ht as [->|Ht]; [by apply inert_test; vm_compute|]). by apply elem_of_nil in Ht.
  - apply mark_inert. rewrite Hc. apply orb_true_r.
  - unfold sshKeyBase64 in Hb. apply andb_true_iff in Hb as [[_ Hb]%andb_true_iff _]. apply forallb_Forall in Hb.
    destruct (drop_equals_app (rev body)) as (es & E & Hes). rewrite <-(rev_involutive body), E, rev_app_distr. apply Forall_app. split.
    + eapply Forall_impl; [exact Hb|]. apply base64_inert.
    + apply List.Forall_rev. eapply Forall_impl; [exact Hes|]. intros d Hd. apply mark_inert. by rewrite Hd.
Qed.
Lemma inert_app a b : inert_text (a +:+ b) <-> inert_text a /\ inert_text b.
Proof. unfold inert_text. rewrite bytes_app. apply Forall_app. Qed.
Lemma inert_join sep l : inert_text sep -> Forall inert_text l -> inert_text (join sep l).
Proof.
  intros Hs Hl. induction Hl as [|x l Hx Hl IH]; [constructor|]. destruct l as [|y l]; [done|].
  change (inert_text (x +:+ sep +:+ join sep (y :: l))). by rewrite !inert_app.
Qed.
Lemma inert_free s : inert_text s -> free_of (ascii_of_N 34) s /\ free_of (ascii_of_N 10) s.
Proof.
  intros Hs. split; apply existsb_none; (eapply Forall_impl; [exact Hs|]); by intros c [].
Qed.

Lemma ip_text_free s : ip_text (bytes s) -> inert_text s /\ free_of (ascii_of_N 44) s.
Proof.
  intros Hs. split; [|apply existsb_none]; (eapply Forall_impl; [exact Hs|]); intros c Hc; by destruct (ip_inert c Hc).
Qed.
Lemma fixed_inert s : forallb (fun c => negb (is_char 10 c) && negb (is_char 34 c)) (bytes s) = true -> inert_text s.
Proof. apply inert_test. Qed.

Lemma free_app k a b : free_of k (a +:+ b) <-> free_of k a /\ free_of k b.
Proof. unfold free_of. rewrite bytes_app, existsb_app. apply orb_false_iff. Qed.
(** A line: a grant that is live, and the five parts its quotes cut it into. *)
Definition routable (x : string) : Prop := exists ip, ParseIP x = Some ip /\ IsUnspecified ip = false /\ IsMulticast ip = false.
Definition sshd_line (now : Time) (s : Grants) (l : string) : Prop :=
  exists g ips, live_at (gr_TransferID g) now g s /\ l = key_line g ips /\ Forall routable ips /\ ips <> [] /\
    split_text 34 l = ["restrict,from="; join "," ips; ",command="; AgentBinary +:+ " peer-serve " +:+ gr_TransferID g; " " +:+ gr_DestPublicKey g] /\
    split_text 44 (join "," ips) = ips.
Lemma key_line_join g ips :
  key_line g ips = join (one_char (ascii_of_N 34))
    ["restrict,from="; join "," ips; ",command="; AgentBinary +:+ " peer-serve " +:+ gr_TransferID g; " " +:+ gr_DestPublicKey g].
Proof.
  unfold key_line. generalize (join "," ips). intros j. cbn [join]. unfold one_char. change (String.String (ascii_of_N 34) "") with (chr 34).
  by rewrite !text_assoc.
Qed.
Lemma authorized_line_ok now s g l : live_at (gr_TransferID g) now g s -> authorized_line g = Some l -> sshd_line now s l /\ free_of (ascii_of_N 10) l.
Proof.
  intros Hlive. unfold authorized_line. destruct (negb _ || _) eqn:Ev; [done|]. apply orb_false_iff in Ev as [Hk%negb_false_iff Hid%negb_false_iff].
  unfold ParseDestIPs. case_bool_decide; [done|]. destruct (Nat.ltb _ _); [done|].
  destruct (parse_dests _) as [ips|] eqn:Ep; [|done]. intros [= <-].
  assert (Hne : ips <> []).
  { intros ->. destruct (split_on_cons (ascii_of_N 44) (bytes (join "," (gr_DestIPs g)))) as (w & ws & Ew). change (code (ascii_of_N 44)) with 44 in Ew.
    unfold split_text in Ep. rewrite Ew in Ep. cbn [map parse_dests] in Ep. repeat case_match; discriminate. }
  pose proof (parse_dests_ip _ _ Ep) as Hips.
  assert (Htext : Forall (fun x => inert_text x /\ free_of (ascii_of_N 44) x) ips).
  { eapply Forall_impl; [exact Hips|]. intros x (ip & Hip & -> & _). by apply ip_text_free, IP_String_ip. }
  assert (Hj : inert_text (join "," ips)).
  { apply inert_join; [by apply fixed_inert|]. eapply Forall_impl; [exact Htext|]. by intros x []. }
  pose proof (ValidTransferID_inert _ Hid) as Hid'. pose proof (ValidSSHPublicKey_inert _ Hk) as Hk'.
  assert (Hcmd : inert_text (AgentBinary +:+ " peer-serve " +:+ gr_TransferID g)) by (rewrite !inert_app; split_and!; [by apply fixed_inert..|done]).
  assert (Hkey : inert_text (" " +:+ gr_DestPublicKey g)) by (rewrite inert_app; split; [by apply fixed_inert|done]).
  split.
  - exists g, ips. split; [done|]. split; [done|]. split; [|split; [done|split]].
    + eapply Forall_impl; [exact Hips|]. intros x (ip & Hip & -> & Hu & Hm). exists ip. split; [by apply ParseIP_String|done].
    + rewrite key_line_join. change 34 with (code (ascii_of_N 34)) at 1. apply split_text_join; [done|].
      repeat constructor; by apply inert_free.
    + change "," with (one_char (ascii_of_N 44)). change 44 with (code (ascii_of_N 44)). apply split_text_join; [done|].
      eapply Forall_impl; [exact Htext|]. by intros x [].
  - unfold key_line. rewrite !free_app. split_and!; try done; [by apply inert_free..|]. by apply inert_free.
Qed.

Section Lines.
Context `{GrantHost}.
Definition read_from (s : Grants) (now : Time) (g : Grant) : Prop := live_at (gr_TransferID g) now g s.
Lemma reads_live s s' now g : reads s s' -> read_from s' now g -> read_from s now g.
Proof. intros (E & _ & _) (Hid & Hf & Hr). split; [done|]. rewrite <-E. done. Qed.
Lemma wp_read_live now l : forall s (Q : result (list Grant) -> Grants -> Prop),
  (forall gs s', reads s s' -> Forall (read_from s now) gs -> Q (Ok gs) s') -> wp (read_live now l) s Q.
Proof.
  induction l as [|n l IH]; intros s Q HQ; cbn [read_live]; [apply wp_ret, HQ; [reflexivity|constructor]|].
  destruct (has_suffix n ".json"); [|by apply IH]. apply wp_bind, wp_attempt, wp_ReadGrant.
  - intros e s1 H1. apply wp_bind, IH. intros gs s2 H2 Hgs. apply wp_ret, HQ; [by transitivity s1|].
    eapply Forall_impl; [exact Hgs|]. intros g. by apply reads_live.
  - intros g s1 H1 Hl _. apply wp_bind, IH. intros gs s2 H2 Hgs. apply wp_ret, HQ; [by transitivity s1|].
    constructor; [|eapply Forall_impl; [exact Hgs|]; intros g'; by apply reads_live].
    destruct Hl as (Hid & Hf & Hi & Hx). unfold read_from. rewrite Hi. by split.
Qed.
Lemma lines_of_grants s now gs : Forall (read_from s now) gs ->
  Forall (fun l => sshd_line now s l /\ free_of (ascii_of_N 10) l) (omap authorized_line gs).
Proof.
  intros Hgs. apply Forall_forall. intros l (g & Hg & El)%list_elem_of_omap.
  rewrite Forall_forall in Hgs. eapply authorized_line_ok; [exact (Hgs g Hg)|exact El].
Qed.
(** C32: what sshd is given: it always gets an answer; the text is a list of
    whole lines, none of them for any user but the one of the pulls; each line
    is that of a live grant of the directory, and its quotes cut it into exactly
    the list of addresses the grant was read with (every one of a host, none
    unspecified or multicast), the one command of that grant and the grant's
    key. Nothing a grant holds can close a quote or begin a line. *)
Theorem WriteAuthorizedKeys_lines user now s :
  wp (WriteAuthorizedKeys user now) s (fun r s' => gd_files s' = gd_files s /\ gd_used s' = gd_used s /\
    exists text ls, r = Ok text /\ split_text 10 text = ls ++ [""] /\ (user <> PeerUser -> ls = []) /\ Forall (sshd_line now s) ls).
Proof.
  unfold WriteAuthorizedKeys. case_bool_decide as Hu; cbn [negb].
  - apply wp_bind. unfold ActiveGrants. apply wp_bind, wp_attempt. unfold read_grants. apply wp_syscall.
    + intros e _. apply wp_ret, wp_ret. split; [done|]. split; [done|]. by exists "", [].
    + apply wp_read_live. intros gs s1 (Hf & Hm & _) Hgs. apply wp_ret. split; [done|]. split; [done|].
      assert (Hgs' : Forall (read_from s now) gs) by (eapply Forall_impl; [exact Hgs|]; intros g; apply reads_live, reads_tick).
      pose proof (lines_of_grants s now gs Hgs') as Hl. eexists _, (omap authorized_line gs). split; [reflexivity|].
      split; [|split; [done|eapply Forall_impl; [exact Hl|]; by intros l []]].
      change 10 with (code (ascii_of_N 10)). change (chr 10) with (one_char (ascii_of_N 10)). apply split_lines.
      eapply Forall_impl; [exact Hl|]. by intros l [].
  - apply wp_ret. split; [done|]. split; [done|]. by exists "", [].
Qed.
End Lines.

Example lab_lines :
  fst (@WriteAuthorizedKeys quiet_host PeerUser (gd_clock granted) granted) =
  Ok ("restrict,from=" +:+ chr 34 +:+ "10.0.0.7,2001:db8::1" +:+ chr 34 +:+ ",command=" +:+ chr 34 +:+ "/opt/sparky/bin/sparky-agent peer-serve t-1"
      +:+ chr 34 +:+ " " +:+ ap_DestPublicKey lab_request +:+ chr 10) /\
  fst (@WriteAuthorizedKeys quiet_host "root" (gd_clock granted) granted) = Ok "".
Proof. vm_compute. split; reflexivity. Qed.
