(* ===== verification/ModelScan.v ===== *)
(** * Scan and import ([internal/inventory/scan.go])

    An Admin asks nodes what models they hold on disk, sees which of them the
    inventory does not know, and adopts some.  The scans are kept in memory. *)
From stdpp Require Import base list strings gmap.
From Stdlib Require Import ZArith Lia.
From Stdlib Require Import Ascii.
From Stdlib Require String.
From S2P Require Import Prelude Text Json Db Rbac Wire NodeStore NodeToken Inventory Paths.
Local Open Scope string_scope.
Local Open Scope list_scope.
Local Open Scope Z_scope.

Definition ErrScanNotFound : error := Sentinel "inventory.ErrScanNotFound" "scan not found or expired".
Definition ErrTooManyScans : error :=
  Sentinel "inventory.ErrTooManyScans" "too many recent scans; wait a few minutes and try again".
Definition ErrNoScanNodes : error := Sentinel "inventory.ErrNoScanNodes" "select at least one node to scan".
Definition ErrInvalidScanNode : error := Sentinel "inventory.ErrInvalidScanNode" "invalid node id".
Definition ErrNotInScan : error := Sentinel "inventory.ErrNotInScan" "model was not found in this scan".
Definition ErrAlreadyKnown : error := Sentinel "inventory.ErrAlreadyKnown" "inventory already has this model".
Definition ErrInvalidQuantization : error := Sentinel "inventory.ErrInvalidQuantization" "invalid quantization".
Definition ErrSharedDirectory : error := Sentinel "inventory.ErrSharedDirectory"
  "shares a directory with other models; deleting it later would remove them too - give it a quantization that appears in its file name".
Definition ErrAmbiguousQuantization : error := Sentinel "inventory.ErrAmbiguousQuantization"
  "quantization does not match exactly this model's file in its directory".
(** [scanTTL] and [scanReplyTimeout], 15 and 2 minutes in nanoseconds. *)
Definition scanTTL : Z := 15 * 60 * 1000000000.
Definition scanReplyTimeout : Z := 2 * 60 * 1000000000.
Definition maxScanNodes : nat := 50.
Definition maxLiveScans : nat := 100.
Definition maxScanModels : nat := 500.
Definition maxRefLen : Z := 512.
Definition maxQuantLen : Z := 32.

(** ** What a node reports *)
Definition quant_shape (q : string) : bool :=
  match bytes q with c :: l => is_alnum c && forallb (fun c => is_alnum c || is_char 95 c) l | [] => false end.
Definition validQuantization (q : string) : bool := bool_decide (q = "") || ((len q <=? maxQuantLen) && quant_shape q).
Definition valid_segment (seg : string) : bool :=
  negb (bool_decide (seg = "")) && negb (bool_decide (seg = ".")) && negb (bool_decide (seg = "..")).
Definition validScannedModel (m : ScannedModel) : bool :=
  let ref := sm_ModelRef m in
  negb (bool_decide (ref = "")) && (len ref <=? maxRefLen) && valid_utf8 ref && negb (has_prefix ref "/")
  && forallb (fun r => negb (is_control r || (r =? 92))) (runes ref)
  && forallb valid_segment (split_slash ref)
  && (0 <=? sm_SizeBytes m)
  && match format_of (sm_Format m) with
     | Some FormatSafetensors => bool_decide (sm_Quantization m = "") && bool_decide (sm_FileName m = "")
     | Some FormatGGUF =>
         validQuantization (sm_Quantization m) && negb (bool_decide (sm_Quantization m = ""))
         && negb (bool_decide (sm_FileName m = ""))
         && negb (existsb (fun c => is_char 47 c || is_char 92 c) (bytes (sm_FileName m))) && valid_utf8 (sm_FileName m)
     | None => false
     end.
Definition keep_model (acc : list ScannedModel * Z) (m : ScannedModel) : list ScannedModel * Z :=
  if Nat.leb maxScanModels (length acc.1) || negb (validScannedModel m) then (acc.1, acc.2 + 1) else (acc.1 ++ [m], acc.2).
Definition validScannedModels (in_ : list ScannedModel) : list ScannedModel * Z := foldl keep_model ([], 0) in_.

Definition sibling (m o : ScannedModel) : bool :=
  bool_decide (sm_ModelRef o = sm_ModelRef m)
  && negb (bool_decide (sm_Format o = sm_Format m) && bool_decide (sm_FileName o = sm_FileName m)).
Definition label_matches (m : ScannedModel) (q : string) (o : ScannedModel) : bool :=
  bool_decide (sm_ModelRef o = sm_ModelRef m) && bool_decide (sm_Format o = "gguf") && contains (sm_FileName o) q.
Definition count (p : ScannedModel -> bool) (l : list ScannedModel) : nat := length (List.filter p l).
Definition importBlock (all : list ScannedModel) (m : ScannedModel) (q : string) : option error :=
  if bool_decide (q = "") || bool_decide (q = "UNKNOWN") then
    if Nat.ltb 0 (count (sibling m) all) then Some ErrSharedDirectory else None
  else if negb (bool_decide (sm_Format m = "gguf")) || negb (contains (sm_FileName m) q) then Some ErrAmbiguousQuantization
  else if negb (Nat.eqb (count (label_matches m q) all) 1) then Some ErrAmbiguousQuantization else None.
Definition block_text (e : option error) : string := match e with Some e => error_text e | None => "" end.

(** ** The scans in memory *)
Definition set_nss_candidates (l : list ScanCandidate) (known : Z) (n : nodeScanState) : nodeScanState :=
  MkNodeScanState (nss_status n) (nss_err n) (nss_truncated n) known (nss_models n) l.
Definition upd_scan_node (scanID nodeID : string) (f : nodeScanState -> nodeScanState) (w : World) : World :=
  set_w_scans (alter (fun sc => MkScanState (scan_at sc) (scan_order sc) (alter f nodeID (scan_nodes sc))) scanID (w_scans w)) w.
Definition scan_node (w : World) (scanID nodeID : string) : option nodeScanState :=
  match w_scans w !! scanID with Some sc => scan_nodes sc !! nodeID | None => None end.
Definition pending (n : nodeScanState) : bool := bool_decide (nss_status n = ModelScanPending).

(** [ImportItem], its format as the text of the request. *)
Record ImportItem := MkItem {
  it_NodeID : string; it_ModelRef : string; it_Quantization : string; it_Format : string; it_AsQuantization : string
}.
Definition named (it : ImportItem) (c : ScanCandidate) : bool :=
  bool_decide (cand_ModelRef c = it_ModelRef it) && bool_decide (cand_Quantization c = it_Quantization it)
  && bool_decide (format_string (cand_Format c) = it_Format it).
Definition same_candidate (a c : ScanCandidate) : bool :=
  bool_decide (cand_ModelRef c = cand_ModelRef a) && bool_decide (cand_Quantization c = cand_Quantization a)
  && bool_decide (cand_Format c = cand_Format a).
Fixpoint drop_first {A} (p : A -> bool) (l : list A) : list A :=
  match l with [] => [] | x :: l' => if p x then l' else x :: drop_first p l' end.
Definition of_candidate (c : ScanCandidate) (m : ScannedModel) : bool :=
  bool_decide (sm_ModelRef m = cand_ModelRef c) && bool_decide (sm_Format m = format_string (cand_Format c))
  && bool_decide (sm_FileName m = cand_FileName c) && bool_decide (sm_Quantization m = cand_Quantization c).
Definition no_model : ScannedModel := MkScannedModel "" "" "" 0 "" false.

(** The views, [NodeScanView] and [ScanView]. *)
Record NodeScanView := MkNodeView {
  nv_NodeID : string; nv_Status : ScanStatus; nv_Error : string; nv_KnownCount : Z; nv_Truncated : bool; nv_Candidates : list ScanCandidate
}.
Record ScanView := MkScanView { sv_ID : string; sv_Nodes : list NodeScanView; sv_Complete : bool }.

Section Scan.
Context `{Env} `{RandomSource}.
Definition CanImport (actor : Actor) : bool := CanImportModels actor.
Definition expire_scan (e : string * scanState) : M unit :=
  now ← time_now;
  when (scanTTL <? now - scan_at e.2) (modify (fun w => set_w_scans (delete e.1 (w_scans w)) w)).
Definition pruneScansLocked : M unit :=
  scans ← gets (fun w => map_to_list (w_scans w)); forM_ scans expire_scan.
Definition newScanID : M string :=
  b ← wrap "generate scan id: " (query (fun w => random_bytes (w_calls w) 16)); mret (of_bytes (hex_encode b)).
(** [finishNode], without the answer none of its callers uses. *)
Definition finishNode (scanID nodeID : string) (update : nodeScanState -> nodeScanState) : M unit :=
  n ← gets (fun w => scan_node w scanID nodeID);
  match n with
  | Some n => when (pending n) (modify (upd_scan_node scanID nodeID update))
  | None => mret tt
  end.
Definition with_status (st : ScanStatus) (err : string) (n : nodeScanState) : nodeScanState :=
  MkNodeScanState st err (nss_truncated n) (nss_known n) (nss_models n) (nss_candidates n).

(** The distinct ids in the order they are first given. *)
Fixpoint scan_ids (raw : list string) (seen ids : list string) : result (list string) :=
  match raw with
  | [] => Ok ids
  | r :: raw' =>
      let id := to_lower (trim_space r) in
      if bool_decide (id = "") then scan_ids raw' seen ids
      else if negb (uuid_match id) then Err ErrInvalidScanNode
      else if bool_decide (id ∈ seen) then scan_ids raw' seen ids
      else scan_ids raw' (id :: seen) (ids ++ [id])
  end.
Definition ask_node (scanID : string) (env : Message) (id : string) : M unit :=
  connected ← Connected id;
  if negb connected then finishNode scanID id (with_status ModelScanOffline "node is not connected")
  else
    r ← attempt (Send id env);
    match r with
    | Ok _ => mret tt
    | Err _ => logf "inventory: dispatch scan_models to node %s: %v";;
               finishNode scanID id (with_status ModelScanFailed "could not reach the node")
    end.
Definition fresh_node : nodeScanState := MkNodeScanState ModelScanPending "" false 0 [] [].
Definition fresh_scan (now : Time) (ids : list string) : scanState :=
  MkScanState now ids (list_to_map (map (fun id => (id, fresh_node)) ids)).
Definition StartScan (actor : Actor) (nodeIDs : list string) : M string :=
  guard_err (CanImportModels actor) ErrNotPermitted;;
  ids ← lift (scan_ids nodeIDs [] []);
  guard_err (negb (bool_decide (ids = []))) ErrNoScanNodes;;
  guard_err (Nat.leb (length ids) maxScanNodes) (Opaque ("scan at most " +:+ itoa (Z.of_nat maxScanNodes) +:+ " nodes at once"));;
  scanID ← newScanID;
  now ← time_now;
  pruneScansLocked;;
  live ← gets (fun w => size (w_scans w));
  guard_err (Nat.ltb live maxLiveScans) ErrTooManyScans;;
  modify (fun w => set_w_scans (<[scanID := fresh_scan now ids]> (w_scans w)) w);;
  env ← wrap "build scan_models envelope: " (NewEnvelope (MScanModels scanID));
  forM_ ids (ask_node scanID env);;
  mret scanID.

(** ** The answer of a node *)
Definition scanWaitingOn (scanID nodeID : string) : M bool :=
  sc ← gets (fun w => w_scans w !! scanID);
  match sc with
  | None => mret false
  | Some sc =>
      now ← time_now;
      if scanTTL <? now - scan_at sc then mret false
      else mret match scan_nodes sc !! nodeID with Some n => pending n | None => false end
  end.
Definition keys_of (nodeID : string) (entries : list NodeModelInventory) (removed : bool) : gset string :=
  list_to_set (map (fun e => deleteKey nodeID (InvModelRef e) (InvQuantization e) (format_string (InvFormat e)))
    (List.filter (fun e => bool_decide (InvNodeID e = nodeID) && Bool.eqb (bool_decide (InvStatus e = InvRemoved)) removed) entries)).
Definition model_key (nodeID : string) (m : ScannedModel) : string :=
  deleteKey nodeID (sm_ModelRef m) (sm_Quantization m) (sm_Format m).
(** A model that was kept has one of the two formats. *)
Definition candidate (nodeID : string) (removed : gset string) (all : list ScannedModel) (m : ScannedModel) : ScanCandidate :=
  MkCandidate (sm_ModelRef m) (sm_Quantization m) (default FormatSafetensors (format_of (sm_Format m))) (sm_SizeBytes m)
    (sm_FileName m) (sm_PossiblyIncomplete m) (bool_decide (model_key nodeID m ∈ removed))
    (block_text (importBlock all m (sm_Quantization m))).
Definition scanned_state (nodeID : string) (entries : list NodeModelInventory) (truncated : bool) (models : list ScannedModel)
    (n : nodeScanState) : nodeScanState :=
  let known m := bool_decide (model_key nodeID m ∈ keys_of nodeID entries false) in
  MkNodeScanState ModelScanDone (nss_err n) truncated (Z.of_nat (length (List.filter known models))) models
    (map (candidate nodeID (keys_of nodeID entries true) models) (List.filter (fun m => negb (known m)) models)).
Definition HandleScanModelsResult (nodeID : string) (env : Envelope) : M unit :=
  match env with
  | EScanModelsResult (Err _) => logf "inventory: node %s sent a malformed scan_models_result: %v"
  | EScanModelsResult (Ok result) =>
      waiting ← scanWaitingOn (sr_ScanID result) nodeID;
      if negb waiting then logf "inventory: ignoring scan_models_result from node %s for scan %q that is not waiting on it"
      else if negb (bool_decide (sr_Error result = "")) then
        finishNode (sr_ScanID result) nodeID (with_status ModelScanFailed (cut maxFailureLen (sr_Error result)))
      else
        let (models, dropped) := validScannedModels (sr_Models result) in
        when (0 <? dropped) (logf "inventory: dropped %d invalid model entries from node %s's scan");;
        r ← attempt List_inventory;
        match r with
        | Err _ => logf "inventory: list inventory for scan of node %s: %v";;
                   finishNode (sr_ScanID result) nodeID (with_status ModelScanFailed "could not read inventory")
        | Ok entries => finishNode (sr_ScanID result) nodeID (scanned_state nodeID entries (sr_Truncated result) models)
        end
  | _ => mret tt
  end.

(** ** The snapshot *)
Definition view_node (scan_at : Time) (id : string) (n : nodeScanState) : M NodeScanView :=
  let view st err := MkNodeView id st err (nss_known n) (nss_truncated n) (nss_candidates n) in
  if pending n then
    now ← time_now;
    mret (if scanReplyTimeout <? now - scan_at then view ModelScanFailed "no reply from the node" else view (nss_status n) (nss_err n))
  else mret (view (nss_status n) (nss_err n)).
Fixpoint view_nodes (sc : scanState) (order : list string) : M (list NodeScanView) :=
  match order with
  | [] => mret []
  | id :: order' =>
      v ← view_node (scan_at sc) id (default fresh_node (scan_nodes sc !! id));
      vs ← view_nodes sc order';
      mret (v :: vs)
  end.
Definition ScanResult (actor : Actor) (scanID : string) : M ScanView :=
  guard_err (CanImportModels actor) ErrNotPermitted;;
  pruneScansLocked;;
  sc ← gets (fun w => w_scans w !! scanID);
  match sc with
  | None => throw ErrScanNotFound
  | Some sc =>
      nodes ← view_nodes sc (scan_order sc);
      mret (MkScanView scanID nodes (forallb (fun v => negb (bool_decide (nv_Status v = ModelScanPending))) nodes))
  end.

(** ** Import *)
Definition findScanned (scanID : string) (item : ImportItem) : M (ScanCandidate * list ScannedModel) :=
  sc ← gets (fun w => w_scans w !! scanID);
  match sc with
  | None => throw ErrScanNotFound
  | Some sc =>
      now ← time_now;
      guard_err (negb (scanTTL <? now - scan_at sc)) ErrScanNotFound;;
      match scan_nodes sc !! it_NodeID item with
      | None => throw ErrNotInScan
      | Some n =>
          guard_err (bool_decide (nss_status n = ModelScanDone)) ErrNotInScan;;
          match List.find (named item) (nss_candidates n) with
          | Some c => mret (c, nss_models n)
          | None => throw ErrNotInScan
          end
      end
  end.
Definition drop_candidate (cand : ScanCandidate) (n : nodeScanState) : nodeScanState :=
  if existsb (same_candidate cand) (nss_candidates n)
  then set_nss_candidates (drop_first (same_candidate cand) (nss_candidates n)) (nss_known n + 1) n else n.
Definition dropCandidate (scanID nodeID : string) (cand : ScanCandidate) : M unit :=
  modify (upd_scan_node scanID nodeID (drop_candidate cand)).
Definition import_detail (cand : ScanCandidate) (q : string) : gmap string DVal :=
  <["model_ref" := DStr (cand_ModelRef cand)]> (<["quantization" := DStr q]>
    (<["format" := DStr (format_string (cand_Format cand))]> (<["size_bytes" := DInt (cand_SizeBytes cand)]>
      {[ "possibly_incomplete" := DBool (cand_PossiblyIncomplete cand) ]}))).
Definition import_quantization (item : ImportItem) (cand : ScanCandidate) : result string :=
  if bool_decide (it_AsQuantization item = "") then Ok (cand_Quantization cand)
  else if negb (bool_decide (cand_Format cand = FormatGGUF)) || negb (validQuantization (it_AsQuantization item))
  then Err ErrInvalidQuantization else Ok (it_AsQuantization item).
Definition check_unknown (nodeID ref q : string) (f : ModelFormat) : M unit :=
  existing ← attempt (Get_inventory nodeID ref q f);
  match existing with
  | Ok e => guard_err (bool_decide (InvStatus e = InvRemoved)) ErrAlreadyKnown
  | Err e => if errors_Is e "db.ErrNodeModelInventoryNotFound" then mret tt
             else throw (Errorf "check existing inventory entry: " e "")
  end.
Definition importOne (actor : Actor) (scanID : string) (item : ImportItem) : M unit :=
  let item := MkItem (to_lower (trim_space (it_NodeID item))) (it_ModelRef item) (it_Quantization item) (it_Format item)
                (it_AsQuantization item) in
  found ← findScanned scanID item;
  let '(cand, models) := found : ScanCandidate * list ScannedModel in
  q ← lift (import_quantization item cand);
  match importBlock models (default no_model (List.find (of_candidate cand) models)) q with
  | Some e => throw e
  | None =>
      check_unknown (it_NodeID item) (cand_ModelRef cand) q (cand_Format cand);;
      wrap "record imported model: "
        (Upsert_inventory (it_NodeID item) (cand_ModelRef cand) q (cand_Format cand) InvPresent (cand_SizeBytes cand) "");;
      dropCandidate scanID (it_NodeID item) cand;;
      wrap "record audit: " (Record_ (actor_id actor) (IsSuperAdmin actor) "imported_model" "node" (it_NodeID item)
        (Some (import_detail cand q)))
  end.
(** [Import] answers with a count, the failures and an error. *)
Definition ImportAnswer : Type := Z * list (ImportItem * error) * option error.
Fixpoint import_items (actor : Actor) (scanID : string) (items : list ImportItem) (imported : Z) (failures : list (ImportItem * error)) :
    M ImportAnswer :=
  match items with
  | [] => mret (imported, failures, None)
  | item :: items' =>
      r ← attempt (importOne actor scanID item);
      match r with
      | Ok _ => import_items actor scanID items' (imported + 1) failures
      | Err e =>
          if errors_Is e "inventory.ErrScanNotFound" then mret (imported, failures, Some e)
          else import_items actor scanID items' imported (failures ++ [(item, e)])
      end
  end.
Definition Import (actor : Actor) (scanID : string) (items : list ImportItem) : M ImportAnswer :=
  if negb (CanImportModels actor) then mret (0, [], Some ErrNotPermitted) else import_items actor scanID items 0 [].
End Scan.
