(* ===== verification/ModelScanSpec.v ===== *)
(** * What scanning and importing promise

    The invariant of the scans in memory, the answer of a node, and where the
    rows an import makes come from. *)
From stdpp Require Import base list strings gmap.
From Stdlib Require Import ZArith Lia.
From Stdlib Require Import Ascii.
From Stdlib Require String.
From S2P Require Import Prelude Text Json Db Rbac Wire NodeStore NodeToken Inventory InventorySpec Paths ModelScan InstanceStore.
Local Open Scope string_scope.
Local Open Scope list_scope.
Local Open Scope Z_scope.

(** ** The scans in memory *)
Definition node_wf (n : nodeScanState) : Prop :=
  (length (nss_models n) <= maxScanModels)%nat /\ Forall (fun m => validScannedModel m = true) (nss_models n) /\
  0 <= nss_known n /\ nss_known n + Z.of_nat (length (nss_candidates n)) = Z.of_nat (length (nss_models n)) /\
  Forall (fun c => exists m, m ∈ nss_models n /\ of_candidate c m = true) (nss_candidates n) /\
  (nss_status n <> ModelScanDone -> nss_models n = [] /\ nss_candidates n = []).
Definition scan_wf (sc : scanState) : Prop :=
  scan_order sc <> [] /\ (length (scan_order sc) <= maxScanNodes)%nat /\ NoDup (scan_order sc) /\
  (forall id, is_Some (scan_nodes sc !! id) <-> id ∈ scan_order sc) /\ map_Forall (fun _ n => node_wf n) (scan_nodes sc).
Definition scans_wf (w : World) : Prop :=
  (size (w_scans w) <= maxLiveScans)%nat /\ map_Forall (fun _ sc => scan_wf sc) (w_scans w).
#[export] Instance scans_wf_stable `{Env} : Stable scans_wf.
Proof. split; intros; done. Qed.

Lemma keep_model_inv l acc :
  Forall (fun m => validScannedModel m = true) acc.1 -> (length acc.1 <= maxScanModels)%nat ->
  Forall (fun m => validScannedModel m = true) (foldl keep_model acc l).1 /\ (length (foldl keep_model acc l).1 <= maxScanModels)%nat.
Proof.
  revert acc. induction l as [|m l IH]; intros acc Hv Hl; [done|]. cbn [foldl].
  apply IH; unfold keep_model; destruct (Nat.leb_spec maxScanModels (length acc.1)) as [?|?]; cbn [orb]; try done;
    destruct (validScannedModel m) eqn:E; cbn [negb fst]; try done.
  - apply Forall_app. by split; [|constructor].
  - rewrite length_app. cbn. lia.
Qed.
Lemma validScannedModels_ok l : let r := validScannedModels l in
  Forall (fun m => validScannedModel m = true) r.1 /\ (length r.1 <= maxScanModels)%nat.
Proof. apply keep_model_inv; [constructor|cbn; lia]. Qed.
Lemma keep_model_sub l acc : forall m, m ∈ (foldl keep_model acc l).1 -> m ∈ acc.1 \/ m ∈ l.
Proof.
  revert acc. induction l as [|x l IH]; intros acc m Hm; [by left|]. cbn [foldl] in Hm. apply IH in Hm as [Hm|Hm]; [|right; set_solver].
  unfold keep_model in Hm. destruct (_ || _); [by left|]. cbn [fst] in Hm. set_solver.
Qed.

Lemma format_of_string f : format_of (format_string f) = Some f.
Proof. by destruct f. Qed.
Lemma format_of_Some s f : format_of s = Some f -> s = format_string f.
Proof.
  unfold format_of. case_bool_decide as E1; [intros [= <-]; exact E1|].
  case_bool_decide as E2; [intros [= <-]; exact E2|done].
Qed.
Lemma valid_format m : validScannedModel m = true -> exists f, format_of (sm_Format m) = Some f.
Proof.
  unfold validScannedModel. destruct (format_of (sm_Format m)) as [f|]; [by exists f|]. by rewrite andb_false_r.
Qed.
Lemma candidate_of nodeID removed all m : validScannedModel m = true -> of_candidate (candidate nodeID removed all m) m = true.
Proof.
  intros [f Hf]%valid_format. unfold of_candidate, candidate. cbn. rewrite Hf. cbn. rewrite <- (format_of_Some _ _ Hf).
  by rewrite !bool_decide_eq_true_2.
Qed.
Lemma length_partition {A} (p : A -> bool) l :
  (length (List.filter p l) + length (List.filter (fun x => negb (p x)) l) = length l)%nat.
Proof. induction l as [|x l IH]; [done|]. simpl. destruct (p x); simpl; rewrite <- IH; [done|apply Nat.add_succ_r]. Qed.
Lemma scanned_state_wf nodeID entries tr models n :
  (length models <= maxScanModels)%nat -> Forall (fun m => validScannedModel m = true) models ->
  node_wf (scanned_state nodeID entries tr models n).
Proof.
  intros Hl Hv. unfold scanned_state, node_wf. cbn. set (known := fun m => bool_decide (model_key nodeID m ∈ keys_of nodeID entries false)).
  split; [done|]. split; [done|]. split; [lia|]. split.
  - rewrite length_map. pose proof (length_partition known models) as Hp. rewrite <- Hp, Nat2Z.inj_add. reflexivity.
  - split; [|done]. apply Forall_map, List.Forall_forall. intros m Hm. apply List.filter_In in Hm as [Hm _]. exists m.
    rewrite Forall_forall in Hv. apply list_elem_of_In in Hm. split; [done|]. by apply candidate_of, Hv.
Qed.
Lemma drop_first_sub {A} (p : A -> bool) l x : x ∈ drop_first p l -> x ∈ l.
Proof. induction l as [|y l IH]; cbn; [done|]. destruct (p y); set_solver. Qed.
Lemma length_drop_first {A} (p : A -> bool) l : existsb p l = true -> S (length (drop_first p l)) = length l.
Proof.
  induction l as [|y l IH]; cbn; [done|]. destruct (p y); [done|]. cbn. intros Hl. by rewrite IH.
Qed.
Lemma drop_candidate_wf c n : node_wf n -> node_wf (drop_candidate c n).
Proof.
  intros (H1 & H2 & H3 & H4 & H5 & H6). unfold drop_candidate. destruct (existsb _ _) eqn:E; [|done].
  unfold node_wf, set_nss_candidates. cbn. split; [done|]. split; [done|]. split; [lia|].
  split; [|split].
  - apply length_drop_first in E. lia.
  - rewrite Forall_forall in *. intros x Hx. by apply H5, (drop_first_sub (same_candidate c)).
  - intros Hst. destruct (H6 Hst) as [-> ->]. done.
Qed.
Lemma with_status_wf st err n : st <> ModelScanDone -> pending n = true -> node_wf n -> node_wf (with_status st err n).
Proof.
  intros Hst Hp (H1 & H2 & H3 & H4 & H5 & H6). unfold node_wf. cbn. unfold pending in Hp. apply bool_decide_eq_true in Hp.
  destruct H6 as [Hm Hc]; [congruence|]. by split_and!.
Qed.
Lemma alter_scan_wf f nodeID sc :
  (forall n, scan_nodes sc !! nodeID = Some n -> node_wf n -> node_wf (f n)) -> scan_wf sc ->
  scan_wf (MkScanState (scan_at sc) (scan_order sc) (alter f nodeID (scan_nodes sc))).
Proof.
  intros Hf (H1 & H2 & H3 & H4 & H5). unfold scan_wf. cbn. split; [done|]. split; [done|]. split; [done|]. split.
  - intros id. rewrite <- H4. rewrite lookup_alter. case_decide; [subst|done]. rewrite fmap_is_Some. done.
  - intros k n Hk. rewrite lookup_alter in Hk. case_decide; [subst|by apply (H5 _ _ Hk)].
    apply fmap_Some in Hk as (n0 & Hn0 & ->). apply Hf; [done|]. by apply (H5 _ _ Hn0).
Qed.
Lemma size_alter {A} (f : A -> A) k (m : gmap string A) : size (alter f k m) = size m.
Proof. rewrite <- (size_dom (D := gset string) (alter f k m)), <- (size_dom (D := gset string) m). f_equal. apply dom_alter_L. Qed.
Lemma upd_scan_node_wf scanID nodeID f w :
  (forall n, scan_node w scanID nodeID = Some n -> node_wf n -> node_wf (f n)) -> scans_wf w -> scans_wf (upd_scan_node scanID nodeID f w).
Proof.
  intros Hf [Hs Hw]. unfold upd_scan_node, scans_wf. cbn. split; [by rewrite size_alter|].
  intros k sc Hk. rewrite lookup_alter in Hk. case_decide; [subst|by apply (Hw _ _ Hk)].
  apply fmap_Some in Hk as (sc0 & Hsc & ->). apply alter_scan_wf; [|by apply (Hw _ _ Hsc)].
  intros n Hn. apply Hf. unfold scan_node. by rewrite Hsc.
Qed.

(** ** Every operation keeps them so *)
Section Invariant.
Context `{Env} `{RandomSource}.
#[local] Instance keeps_finishNode scanID nodeID f :
  (forall n, pending n = true -> node_wf n -> node_wf (f n)) -> Keeps scans_wf (finishNode scanID nodeID f).
Proof.
  intros Hf. apply keeps_wp. intros w Hw. unfold finishNode. apply wp_bind, wp_gets.
  destruct (scan_node w scanID nodeID) as [n|] eqn:En; [|by apply wp_ret].
  apply wp_when; intros Hp; [|done]. apply wp_modify. apply upd_scan_node_wf; [|done]. intros n' Hn'. simplify_eq. by apply Hf.
Qed.
#[local] Instance keeps_expire e : Keeps scans_wf (expire_scan e).
Proof.
  unfold expire_scan. apply keeps_bind; [apply _|]. intros now. apply keeps_when, keeps_wp. intros w [Hs Hw].
  apply wp_modify. unfold scans_wf. cbn. split; [|by apply map_Forall_delete].
  pose proof (map_subseteq_size _ _ (delete_subseteq (w_scans w) e.1)). lia.
Qed.
#[local] Instance keeps_prune : Keeps scans_wf pruneScansLocked.
Proof. unfold pruneScansLocked. apply keeps_bind; [intros w Hw; exact Hw|]. intros l. apply _. Qed.

Lemma scan_ids_spec raw seen ids l : (forall id, id ∈ seen <-> id ∈ ids) -> NoDup ids -> scan_ids raw seen ids = Ok l -> NoDup l.
Proof.
  revert seen ids. induction raw as [|r raw IH]; intros seen ids Hs Hn; cbn [scan_ids]; [by intros [= <-]|].
  case_bool_decide; [by apply IH|]. destruct (negb _); [done|]. case_bool_decide as Hin; [by apply IH|].
  apply IH.
  - intros id. rewrite elem_of_app, elem_of_cons, list_elem_of_singleton, Hs. tauto.
  - apply NoDup_app. split; [done|]. split; [|apply NoDup_singleton]. intros x Hx. rewrite list_elem_of_singleton. intros ->. apply Hin, Hs, Hx.
Qed.
Lemma fresh_scan_wf now ids : ids <> [] -> (length ids <= maxScanNodes)%nat -> NoDup ids -> scan_wf (fresh_scan now ids).
Proof.
  intros Hne Hl Hn. unfold scan_wf, fresh_scan. cbn. split; [done|]. split; [done|]. split; [done|].
  assert (Hlook : forall id n, (list_to_map (map (fun id => (id, fresh_node)) ids) : gmap string nodeScanState) !! id = Some n <->
    n = fresh_node /\ id ∈ ids).
  { intros id n. rewrite <- elem_of_list_to_map; [rewrite list_elem_of_fmap|].
    - split; [intros (x & [= -> ->] & Hx); by split|intros [-> Hx]; by exists id].
    - rewrite <- list_fmap_compose. by rewrite list_fmap_id. }
  split.
  - intros id. split; [intros [n Hn']; by apply Hlook in Hn' as [_ ?]|]. intros Hid. exists fresh_node. by apply Hlook.
  - intros id n Hn'. apply Hlook in Hn' as [-> _]. unfold node_wf, fresh_node. cbn. by split_and!; try lia.
Qed.
#[local] Instance keeps_StartScan actor ids : Keeps scans_wf (StartScan actor ids).
Proof.
  unfold StartScan. apply keeps_bind; [apply _|]. intros _. apply keeps_wp. intros w Hw.
  apply wp_bind. unfold lift at 1. destruct (scan_ids ids [] []) as [l|e] eqn:El; [|by apply wp_throw]. apply wp_ret.
  assert (Hn : NoDup l) by (eapply scan_ids_spec; [|constructor|exact El]; done).
  apply wp_bind, wp_guard; intros Hne; [|done]. apply wp_bind, wp_guard; intros Hl; [|done].
  unfold newScanID. apply wp_bind, wp_bind, wp_wrap, wp_query; [done|intros _]. apply wp_ret, wp_bind, wp_time_now.
  apply wp_bind, (wp_inv scans_wf); [apply _|exact Hw|]. intros [u|e] w1 Hw1; [|done].
  apply wp_bind, wp_gets, wp_bind, wp_guard; intros Hlive; [|done]. apply wp_bind, wp_modify.
  apply (wp_mono _ _ (fun _ w' => scans_wf w')); [|done]. apply wp_keeps.
  - apply keeps_bind; [apply _|]. intros m. apply keeps_bind; [|intros _; apply _]. apply keeps_forM. intros id. unfold ask_node.
    apply keeps_bind; [apply _|]. intros b. destruct (negb b); [apply keeps_finishNode; intros; by apply with_status_wf|].
    apply keeps_bind; [apply _|]. intros [u'|e]; [apply _|]. apply keeps_bind; [apply _|]. intros _.
    apply keeps_finishNode. intros; by apply with_status_wf.
  - destruct Hw1 as [Hs1 Hw1]. unfold scans_wf. cbn. split.
    + apply Nat.ltb_lt in Hlive. rewrite map_size_insert. destruct (w_scans w1 !! _); unfold id; lia.
    + apply map_Forall_insert_2; [|done]. apply fresh_scan_wf; [|by apply Nat.leb_le|done].
      by apply negb_true_iff, bool_decide_eq_false in Hne.
Qed.
#[local] Instance keeps_scanWaitingOn scanID nodeID : Keeps scans_wf (scanWaitingOn scanID nodeID).
Proof. unfold scanWaitingOn. apply keeps_bind; [intros w Hw; exact Hw|]. intros [sc|]; apply _. Qed.
#[local] Instance keeps_List_inventory : Keeps scans_wf List_inventory.
Proof. unfold List_inventory. apply _. Qed.
#[local] Instance keeps_Handle nodeID env : Keeps scans_wf (HandleScanModelsResult nodeID env).
Proof.
  unfold HandleScanModelsResult. destruct env as [| | | | | | | | | |[res|e]| |]; try apply _.
  apply keeps_bind; [apply _|]. intros b. destruct (negb b); [apply _|]. destruct (negb _).
  { apply keeps_finishNode. intros. by apply with_status_wf. }
  pose proof (validScannedModels_ok (sr_Models res)) as [Hv Hl]. destruct (validScannedModels (sr_Models res)) as [models dropped].
  apply keeps_bind; [apply _|]. intros _. apply keeps_bind; [apply _|]. intros [entries|e].
  - apply keeps_finishNode. intros n _ _. by apply scanned_state_wf.
  - apply keeps_bind; [apply _|]. intros _. apply keeps_finishNode. intros. by apply with_status_wf.
Qed.
#[local] Instance keeps_view_nodes sc order : Keeps scans_wf (view_nodes sc order).
Proof.
  induction order as [|id order IH]; [apply _|]. cbn [view_nodes]. apply keeps_bind; [|intros; apply _].
  unfold view_node. destruct (pending _); apply _.
Qed.
#[local] Instance keeps_ScanResult actor scanID : Keeps scans_wf (ScanResult actor scanID).
Proof.
  unfold ScanResult. apply keeps_bind; [apply _|]. intros _. apply keeps_bind; [apply _|]. intros _.
  apply keeps_bind; [intros w Hw; exact Hw|]. intros [sc|]; apply _.
Qed.
#[local] Instance keeps_findScanned scanID item : Keeps scans_wf (findScanned scanID item).
Proof.
  unfold findScanned. apply keeps_bind; [intros w Hw; exact Hw|]. intros [sc|]; [|apply _].
  apply keeps_bind; [apply _|]. intros now. apply keeps_bind; [apply _|]. intros _. destruct (scan_nodes sc !! _); [|apply _].
  apply keeps_bind; [apply _|]. intros _. destruct (List.find _ _); apply _.
Qed.
#[local] Instance keeps_check_unknown n r q f : Keeps scans_wf (check_unknown n r q f).
Proof.
  unfold check_unknown, Get_inventory, scan_inventory. apply keeps_bind; [apply _|]. intros [e|e]; [apply _|]. destruct (errors_Is _ _); apply _.
Qed.
#[local] Instance keeps_importOne actor scanID item : Keeps scans_wf (importOne actor scanID item).
Proof.
  unfold importOne. apply keeps_bind; [apply _|]. intros [cand models]. apply keeps_bind; [destruct (import_quantization _ _); apply _|].
  intros q. destruct (importBlock _ _ _); [apply _|]. apply keeps_bind; [apply _|]. intros _. apply keeps_bind.
  { unfold Upsert_inventory, scan_inventory. apply keeps_wrap, keeps_wrap, keeps_wrap, keeps_sql; [apply _|]. intros w Hw. by destruct (_ && _). }
  intros _. apply keeps_bind; [|intros _; apply _]. apply keeps_wp. intros w Hw. unfold dropCandidate. apply wp_modify.
  apply upd_scan_node_wf; [|done]. intros n _. apply drop_candidate_wf.
Qed.
#[local] Instance keeps_Import actor scanID items : Keeps scans_wf (Import actor scanID items).
Proof.
  unfold Import. destruct (negb _); [apply _|]. generalize 0, (@nil (ImportItem * error)).
  induction items as [|item items IH]; intros k fs; cbn [import_items]; [apply _|].
  apply keeps_bind; [apply _|]. intros [u|e]; [apply IH|]. destruct (errors_Is _ _); [apply _|apply IH].
Qed.

Inductive scan_step : World -> World -> Prop :=
| scan_start actor ids w : scan_step w (snd (StartScan actor ids w))
| scan_answer nodeID env w : scan_step w (snd (HandleScanModelsResult nodeID env w))
| scan_poll actor scanID w : scan_step w (snd (ScanResult actor scanID w))
| scan_import actor scanID items w : scan_step w (snd (Import actor scanID items w)).

Lemma scan_run_wf w w' : rtc scan_step w w' -> scans_wf w -> scans_wf w'.
Proof.
  induction 1 as [w|w w1 w2 Hstep _ IH]; [done|]. intros Hw. apply IH. clear IH.
  destruct Hstep; (apply (keeps (I := scans_wf)); exact Hw).
Qed.
(** C19: however requests, answers, polls and imports interleave, at most 100
    scans are held; each names between 1 and 50 distinct nodes and keeps the
    state of exactly these; at most 500 models are kept for a node, every one
    of which passed the checks on a reference, a size and a label; each of them
    is counted as known or offered as a candidate, every candidate is one of
    them, and a node that has not answered has neither. *)
Theorem scans_always_wf w w' : rtc scan_step w w' -> scans_wf w -> scans_wf w'.
Proof. apply scan_run_wf. Qed.
End Invariant.

(** ** The answer of a node *)
(** Everything but the scans, the log and the bookkeeping. *)
Definition beyond_scans (w : World) : World := set_w_scans ∅ (set_w_logs [] (set_w_clock 0 (set_w_calls 0%N w))).
(** The scan is live and has not heard from the node. *)
Definition waits (w : World) (scanID nodeID : string) (now : Time) : option nodeScanState :=
  match w_scans w !! scanID with
  | Some sc => if scanTTL <? now - scan_at sc then None
               else match scan_nodes sc !! nodeID with Some n => if pending n then Some n else None | None => None end
  | None => None
  end.
Definition answers (res : ScanModelsResult) (nodeID : string) (w : World) (n n' : nodeScanState) : Prop :=
  if bool_decide (sr_Error res = "") then
    n' = with_status ModelScanFailed "could not read inventory" n \/
    n' = scanned_state nodeID (sort_by inv_le (inventory_rows w)) (sr_Truncated res) (validScannedModels (sr_Models res)).1 n
  else n' = with_status ModelScanFailed (cut maxFailureLen (sr_Error res)) n.

Definition row_of (nodeID : string) (c : ScanCandidate) (e : NodeModelInventory) : Prop :=
  InvNodeID e = nodeID /\ InvModelRef e = cand_ModelRef c /\ InvQuantization e = cand_Quantization c /\ InvFormat e = cand_Format c.
Definition answer_taken (res : ScanModelsResult) (nodeID : string) (w : World) (n : nodeScanState) (w' : World) : Prop :=
  exists n', answers res nodeID w n n' /\ pending n' = false /\
    w_scans w' = w_scans (upd_scan_node (sr_ScanID res) nodeID (fun _ => n') w) /\
    (forall c, c ∈ nss_candidates n' -> nss_status n' = ModelScanDone ->
      (forall k e, w_inventory w !! k = Some e -> row_of nodeID c e -> InvStatus e = InvRemoved /\ cand_PreviouslyRemoved c = true) /\
      exists m, m ∈ nss_models n' /\ of_candidate c m = true /\
        (cand_BlockedReason c = "" <-> importBlock (nss_models n') m (cand_Quantization c) = None)).

Lemma upd_scan_node_eq scanID nodeID f w n : scan_node w scanID nodeID = Some n ->
  upd_scan_node scanID nodeID f w = upd_scan_node scanID nodeID (fun _ => f n) w.
Proof.
  unfold scan_node, upd_scan_node. destruct (w_scans w !! scanID) as [sc|] eqn:Esc; [|done]. intros Hn. f_equal.
  apply map_eq. intros k. rewrite !lookup_alter. case_decide as Hk; [subst k|done]. rewrite Esc. cbn. do 2 f_equal.
  apply map_eq. intros j. rewrite !lookup_alter. case_decide as Hj; [subst j|done]. by rewrite Hn.
Qed.

(** What a scanned node is offered: every row the inventory has of the model,
    if any, is a removed one, and then the candidate says so. *)
Lemma elem_of_keys nodeID entries e removed :
  e ∈ entries -> InvNodeID e = nodeID -> bool_decide (InvStatus e = InvRemoved) = removed ->
  deleteKey nodeID (InvModelRef e) (InvQuantization e) (format_string (InvFormat e)) ∈ keys_of nodeID entries removed.
Proof.
  intros He Hn Hr. unfold keys_of. apply elem_of_list_to_set, list_elem_of_fmap. exists e. split; [done|].
  apply list_elem_of_In, List.filter_In. split; [by apply list_elem_of_In|]. rewrite bool_decide_eq_true_2 by done. by rewrite Hr, eqb_reflx.
Qed.
Lemma block_text_nil e all m q : importBlock all m q = e -> block_text e = "" <-> e = None.
Proof.
  intros <-. unfold importBlock. destruct (_ || _); [destruct (Nat.ltb _ _); by split|]. destruct (_ || _); [by split|].
  destruct (negb _); by split.
Qed.
Lemma candidate_unknown nodeID entries tr models n c :
  Forall (fun m => validScannedModel m = true) models -> c ∈ nss_candidates (scanned_state nodeID entries tr models n) ->
  (forall e, e ∈ entries -> row_of nodeID c e -> InvStatus e = InvRemoved /\ cand_PreviouslyRemoved c = true) /\
  exists m, m ∈ models /\ of_candidate c m = true /\
    (cand_BlockedReason c = "" <-> importBlock models m (cand_Quantization c) = None).
Proof.
  intros Hv Hc. unfold scanned_state in Hc. cbn [nss_candidates] in Hc. apply list_elem_of_fmap in Hc as (m & -> & Hm).
  apply list_elem_of_In, List.filter_In in Hm as [Hm Hk]. apply list_elem_of_In in Hm. apply negb_true_iff, bool_decide_eq_false in Hk.
  rewrite Forall_forall in Hv. pose proof (Hv m Hm) as Hvm. split.
  - destruct (valid_format m Hvm) as [f Hf]. intros e He (Hn & Hr & Hq & Hfmt). cbn in Hr, Hq, Hfmt. rewrite Hf in Hfmt. cbn in Hfmt.
    assert (Hkey : model_key nodeID m = deleteKey nodeID (InvModelRef e) (InvQuantization e) (format_string (InvFormat e))).
    { unfold model_key. by rewrite Hr, Hq, Hfmt, (format_of_Some _ _ Hf). }
    destruct (bool_decide (InvStatus e = InvRemoved)) eqn:Est.
    + split; [by apply bool_decide_eq_true in Est|]. cbn. apply bool_decide_eq_true. rewrite Hkey. by apply elem_of_keys.
    + exfalso. apply Hk. rewrite Hkey. by apply elem_of_keys.
  - exists m. split; [done|]. split; [by apply candidate_of|]. cbn. by apply (block_text_nil _ models m (sm_Quantization m)).
Qed.

Section Answer.
Context `{Env} `{RandomSource}.
Lemma wp_finishNode scanID nodeID f w (Q : result unit -> World -> Prop) :
  Q (Ok tt) (match scan_node w scanID nodeID with
             | Some n => if pending n then upd_scan_node scanID nodeID (fun _ => f n) w else w
             | None => w end) -> wp (finishNode scanID nodeID f) w Q.
Proof.
  intros HQ. unfold finishNode. apply wp_bind, wp_gets. destruct (scan_node w scanID nodeID) as [n|] eqn:En; [|by apply wp_ret].
  apply wp_when; intros Hp; rewrite Hp in HQ; [|done]. apply wp_modify. by rewrite (upd_scan_node_eq _ _ _ _ n En).
Qed.
Lemma beyond_upd_scan scanID nodeID f w : beyond_scans (upd_scan_node scanID nodeID f w) = beyond_scans w.
Proof. done. Qed.

Lemma longer {A} (l : list A) x : l ++ [x] <> l.
Proof. intros E%(f_equal length). rewrite length_app in E. cbn in E. lia. Qed.
Lemma waits_Some w scanID nodeID now n : waits w scanID nodeID now = Some n -> scan_node w scanID nodeID = Some n /\ pending n = true.
Proof.
  unfold waits, scan_node. destruct (w_scans w !! scanID) as [sc|]; [|done]. destruct (scanTTL <? _); [done|].
  destruct (scan_nodes sc !! nodeID) as [n'|]; [|done]. destruct (pending n') eqn:E; [|done]. intros [= <-]. done.
Qed.
Lemma wp_scanWaitingOn scanID nodeID w (Q : result bool -> World -> Prop) :
  (forall w', w_scans w' = w_scans w -> w_logs w' = w_logs w -> beyond_scans w' = beyond_scans w -> w_inventory w' = w_inventory w ->
    Q (Ok (match waits w scanID nodeID (w_clock (bump w)) with Some _ => true | None => false end)) w') ->
  wp (scanWaitingOn scanID nodeID) w Q.
Proof.
  intros HQ. unfold scanWaitingOn. unfold waits in HQ. apply wp_bind, wp_gets. destruct (w_scans w !! scanID) as [sc|]; [|by apply wp_ret, HQ].
  apply wp_bind, wp_time_now. destruct (scanTTL <? _); [by apply wp_ret, HQ|]. apply wp_ret.
  destruct (scan_nodes sc !! nodeID) as [n|]; [destruct (pending n)|]; by apply HQ.
Qed.
(** An answer counts only for a scan no older than 15 minutes that asked
    this very node and has not heard from it; then it becomes that node's
    state, once: a failure with at most 200 bytes of its reason, or the models
    that passed the checks, sorted into those the inventory has and candidates.
    Every row the inventory has for a candidate is a removed one, and the
    candidate says so and whether it may be imported under its label.  Any
    other answer is logged and changes nothing. *)
Theorem HandleScanModelsResult_spec nodeID res w :
  wp (HandleScanModelsResult nodeID (EScanModelsResult (Ok res))) w (fun r w' =>
    r = Ok tt /\ beyond_scans w' = beyond_scans w /\ w_logs w `prefix_of` w_logs w' /\
    match waits w (sr_ScanID res) nodeID (w_clock (bump w)) with
    | Some n => answer_taken res nodeID w n w'
    | None => w_scans w' = w_scans w /\ w_logs w' <> w_logs w
    end).
Proof.
  unfold HandleScanModelsResult. apply wp_bind, wp_scanWaitingOn. intros w1 Hs1 Hl1 Hb1 Hi1.
  set (wt := waits w (sr_ScanID res) nodeID (w_clock (bump w))). destruct wt as [n|] eqn:Ewt; cbn [negb].
  2: { apply wp_logf. split_and!; [done|done|cbn; rewrite Hl1; by apply prefix_app_r|done|]. cbn. rewrite Hl1. apply longer. }
  apply waits_Some in Ewt as [Hn Hp].
  assert (Hfin : forall f w2, w_scans w2 = w_scans w -> beyond_scans w2 = beyond_scans w -> w_logs w `prefix_of` w_logs w2 ->
    answers res nodeID w n (f n) -> pending (f n) = false -> (nss_status (f n) = ModelScanDone ->
      exists tr models, f n = scanned_state nodeID (sort_by inv_le (inventory_rows w)) tr models n /\
        Forall (fun m => validScannedModel m = true) models) ->
    wp (finishNode (sr_ScanID res) nodeID f) w2 (fun r w' =>
      r = Ok tt /\ beyond_scans w' = beyond_scans w /\ w_logs w `prefix_of` w_logs w' /\ answer_taken res nodeID w n w')).
  { intros f w2 Hs2 Hb2 Hl2 Ha Hpf Hdone. apply wp_finishNode.
    assert (Hn2 : scan_node w2 (sr_ScanID res) nodeID = Some n) by (unfold scan_node in *; by rewrite Hs2).
    rewrite Hn2, Hp. split; [done|]. split; [by rewrite beyond_upd_scan|]. split; [done|]. exists (f n).
    split; [done|]. split; [done|]. split; [unfold upd_scan_node; cbn; by rewrite Hs2|].
    intros c Hc Hst. destruct (Hdone Hst) as (tr & models & Heq & Hv). rewrite Heq in Hc.
    destruct (candidate_unknown _ _ _ _ _ _ Hv Hc) as [Hrows Hm]. split; [|by rewrite Heq].
    intros k e He. apply Hrows. apply elem_of_sort_by. unfold inventory_rows. apply list_elem_of_fmap. exists (k, e).
    split; [done|]. by apply elem_of_map_to_list. }
  destruct (bool_decide (sr_Error res = "")) eqn:Eerr; cbn [negb].
  2: { apply Hfin; [done|done|by rewrite Hl1|unfold answers; by rewrite Eerr|done|done]. }
  pose proof (validScannedModels_ok (sr_Models res)) as [Hv _]. unfold answers in Hfin. rewrite Eerr in Hfin.
  destruct (validScannedModels (sr_Models res)) as [models dropped]. cbn [fst] in Hv, Hfin.
  assert (Hrest : forall w2, w_scans w2 = w_scans w -> beyond_scans w2 = beyond_scans w -> w_logs w `prefix_of` w_logs w2 ->
    wp (r ← attempt List_inventory;
        match r with
        | Err _ => logf "inventory: list inventory for scan of node %s: %v";;
                   finishNode (sr_ScanID res) nodeID (with_status ModelScanFailed "could not read inventory")
        | Ok entries => finishNode (sr_ScanID res) nodeID (scanned_state nodeID entries (sr_Truncated res) models)
        end) w2 (fun r w' =>
      r = Ok tt /\ beyond_scans w' = beyond_scans w /\ w_logs w `prefix_of` w_logs w' /\ answer_taken res nodeID w n w')).
  { intros w2 Hs2 Hb2 Hl2. apply wp_bind, wp_attempt. unfold List_inventory. apply wp_wrap, wp_query; intros.
    - apply wp_bind, wp_logf, Hfin; [done|done|cbn; by apply prefix_app_r|by left|done|done].
    - assert (Hi : inventory_rows (bump w2) = inventory_rows w).
      { change (inventory_rows (bump w2)) with (inventory_rows (beyond_scans w2)). by rewrite Hb2. }
      rewrite Hi. apply Hfin; [done|done|done|by right|done|]. intros _. by eexists _, _. }
  apply wp_bind, wp_when; intros _; [apply wp_logf, Hrest; [done|done|cbn; rewrite Hl1; by apply prefix_app_r]|].
  apply Hrest; [done|done|by rewrite Hl1].
Qed.
End Answer.

(** ** Where imported rows come from *)
(** Everything but the inventory, the scans, the audit log and the
    bookkeeping. *)
Definition beyond_import (w : World) : World :=
  set_w_inventory ∅ (set_w_scans ∅ (set_w_audit [] (set_w_clock 0 (set_w_calls 0%N w)))).
(** Importing only takes candidates out of a scan. *)
Definition shrunk (w w' : World) : Prop :=
  forall scanID nodeID n', scan_node w' scanID nodeID = Some n' -> exists n, scan_node w scanID nodeID = Some n /\
    nss_status n' = nss_status n /\ nss_models n' = nss_models n /\ (forall c, c ∈ nss_candidates n' -> c ∈ nss_candidates n).
(** The row under [key] is that of a model the scan found and offered: its size
    is the scan's, its label the scan's or the one asked for, which is not
    blocked beside the models of that node; and the inventory had no such model
    but a removed one.  [P] is what else holds of the candidate and the label. *)
Definition from_scan (w : World) (scanID : string) (item : ImportItem) (key : InvKey) (row : option NodeModelInventory)
    (P : string -> ScanCandidate -> string -> Prop) : Prop :=
  exists nodeID n c q m t, nodeID = to_lower (trim_space (it_NodeID item)) /\ scan_node w scanID nodeID = Some n /\
    nss_status n = ModelScanDone /\ c ∈ nss_candidates n /\ cand_ModelRef c = it_ModelRef item /\
    cand_Quantization c = it_Quantization item /\ format_string (cand_Format c) = it_Format item /\
    m ∈ nss_models n /\ of_candidate c m = true /\ importBlock (nss_models n) m q = None /\
    (q = cand_Quantization c \/ q = it_AsQuantization item /\ cand_Format c = FormatGGUF /\ validQuantization q = true) /\
    key = (nodeID, cand_ModelRef c, q, cand_Format c) /\
    (forall e, w_inventory w !! key = Some e -> InvStatus e = InvRemoved) /\
    row = Some (MkInventory nodeID (cand_ModelRef c) q (cand_Format c) InvPresent (cand_SizeBytes c) t "") /\ P nodeID c q.
(** The audit record of an import. *)
Definition import_record (actor : Actor) (a : AuditRecord) (nodeID : string) (c : ScanCandidate) (q : string) : Prop :=
  exists t, a = MkAudit (actor_id actor) (IsSuperAdmin actor) "imported_model" "node" nodeID (Some (import_detail c q)) t.
(** What an import leaves: the audit records [l] and the failures [fs] account
    for every row that changed, and each record for a row of its own. *)
Definition changed (w w' : World) (key : InvKey) : Prop := w_inventory w' !! key <> w_inventory w !! key.
Definition accounted (actor : Actor) (l : list AuditRecord) (fs : list (ImportItem * error)) (item : ImportItem)
    (nodeID : string) (c : ScanCandidate) (q : string) : Prop :=
  (exists a, a ∈ l /\ import_record actor a nodeID c q) \/ exists e, (item, Errorf "record audit: " e "") ∈ fs.
Definition imports (actor : Actor) (scanID : string) (items : list ImportItem) (l : list AuditRecord)
    (fs : list (ImportItem * error)) (w w' : World) : Prop :=
  shrunk w w' /\
  (forall key, changed w w' key ->
    exists item, item ∈ items /\ from_scan w scanID item key (w_inventory w' !! key) (accounted actor l fs item)) /\
  exists keys, NoDup keys /\ Forall2 (fun key a => changed w w' key /\ exists item, item ∈ items /\
    from_scan w scanID item key (w_inventory w' !! key) (import_record actor a)) keys l.

Lemma shrunk_same w w' : w_scans w' = w_scans w -> shrunk w w'.
Proof. intros Hs a b n' Hn'. exists n'. unfold scan_node in *. rewrite Hs in Hn'. by split_and!. Qed.
Lemma shrunk_trans w1 w2 w3 : shrunk w1 w2 -> shrunk w2 w3 -> shrunk w1 w3.
Proof.
  intros H1 H2 a b n3 H3. destruct (H2 a b n3 H3) as (n2 & Hn2 & Hs & Hm & Hc). destruct (H1 a b n2 Hn2) as (n1 & Hn1 & Hs' & Hm' & Hc').
  exists n1. split; [done|]. split; [congruence|]. split; [congruence|]. auto.
Qed.
Lemma shrunk_drop scanID nodeID c w : shrunk w (upd_scan_node scanID nodeID (drop_candidate c) w).
Proof.
  intros a b n'. unfold scan_node, upd_scan_node. cbn. rewrite lookup_alter. case_decide as Ha; [subst a|by exists n'].
  destruct (w_scans w !! scanID) as [sc|]; [|done]. cbn. rewrite lookup_alter. case_decide as Hb; [subst b|by exists n'].
  intros (n & Hn & ->)%fmap_Some_1. exists n. split; [done|]. unfold drop_candidate. destruct (existsb _ _); [|done]. cbn.
  split; [done|]. split; [done|]. intros x. apply drop_first_sub.
Qed.
Lemma from_scan_mono w scanID item key row (P Q : string -> ScanCandidate -> string -> Prop) :
  (forall n c q, P n c q -> Q n c q) -> from_scan w scanID item key row P -> from_scan w scanID item key row Q.
Proof.
  intros HPQ (nodeID & n & c & q & m & t & F1 & F2 & F3 & F4 & F5 & F6 & F7 & F8 & F9 & F10 & F11 & F12 & F13 & F14 & F15).
  exists nodeID, n, c, q, m, t. by split_and!; auto.
Qed.
Lemma from_scan_back w w1 scanID item key row P : shrunk w w1 -> w_inventory w1 !! key = w_inventory w !! key ->
  from_scan w1 scanID item key row P -> from_scan w scanID item key row P.
Proof.
  intros Hs Hrow (nodeID & n' & c & q & m & t & Hid & Hn' & Hst & Hc & H1 & H2 & H3 & Hm & Hof & Hb & Hq & Hkey & Hrem & Hr & HP).
  destruct (Hs scanID nodeID n' Hn') as (n & Hn & Hst' & Hm' & Hc'). exists nodeID, n, c, q, m, t. rewrite Hm' in *. rewrite Hst' in Hst.
  rewrite Hrow in Hrem. split_and!; auto.
Qed.
Lemma from_scan_was w scanID item key row P e : from_scan w scanID item key row P ->
  w_inventory w !! key = Some e -> InvStatus e = InvRemoved.
Proof. intros (?&?&?&?&?&?&_&_&_&_&_&_&_&_&_&_&_&_&Hrem&_). apply Hrem. Qed.
Lemma from_scan_is w scanID item key row P : from_scan w scanID item key row P ->
  exists e, row = Some e /\ InvStatus e = InvPresent.
Proof. intros (?&?&?&?&?&?&_&_&_&_&_&_&_&_&_&_&_&_&_&Hr&_). by eexists. Qed.
#[local] Instance inventory_row_eq_dec : EqDecision NodeModelInventory.
Proof. solve_decision. Defined.
Lemma Forall2_in_l {A B} (P : A -> B -> Prop) l k x : Forall2 P l k -> x ∈ l -> exists y, y ∈ k /\ P x y.
Proof.
  intros HP [i Hi]%list_elem_of_lookup. destruct (Forall2_lookup_l _ _ _ _ _ HP Hi) as (y & Hy & Hp). exists y.
  split; [by eapply list_elem_of_lookup_2|done].
Qed.
Section Imported.
Variable actor : Actor.
Variable scanID : string.
Variable items : list ImportItem.
Lemma imports_once l1 l2 fs1 fs2 w w1 w2 key : imports actor scanID items l1 fs1 w w1 -> imports actor scanID items l2 fs2 w1 w2 ->
  changed w w1 key -> ~ changed w1 w2 key.
Proof.
  intros (_ & H1 & _) (_ & H2 & _) E1 E2. destruct (H1 key E1) as (i1 & _ & F1). destruct (H2 key E2) as (i2 & _ & F2).
  destruct (from_scan_is _ _ _ _ _ _ F1) as (e & He & Hp). pose proof (from_scan_was _ _ _ _ _ _ e F2 He). congruence.
Qed.
Lemma same_or_changed w w' key : w_inventory w' !! key = w_inventory w !! key \/ changed w w' key.
Proof. unfold changed. destruct (decide (w_inventory w' !! key = w_inventory w !! key)); [by left|by right]. Qed.
(** A row of the first part stays as it is through the second, and a row of
    the second was as before the first. *)
Lemma imports_first l1 l2 fs1 fs2 w w1 w2 key : imports actor scanID items l1 fs1 w w1 -> imports actor scanID items l2 fs2 w1 w2 ->
  changed w w1 key -> w_inventory w2 !! key = w_inventory w1 !! key /\ changed w w2 key.
Proof.
  intros H1 H2 E. destruct (same_or_changed w1 w2 key) as [E2|E2]; [|by destruct (imports_once _ _ _ _ _ _ _ key H1 H2 E)].
  split; [done|]. unfold changed in *. by rewrite E2.
Qed.
Lemma imports_second l1 l2 fs1 fs2 w w1 w2 key : imports actor scanID items l1 fs1 w w1 -> imports actor scanID items l2 fs2 w1 w2 ->
  changed w1 w2 key -> w_inventory w1 !! key = w_inventory w !! key /\ changed w w2 key.
Proof.
  intros H1 H2 E. destruct (same_or_changed w w1 key) as [E1|E1]; [|by destruct (imports_once _ _ _ _ _ _ _ key H1 H2 E1)].
  split; [done|]. unfold changed in *. by rewrite <-E1.
Qed.
Lemma imports_trans l1 l2 fs1 fs2 w w1 w2 : imports actor scanID items l1 fs1 w w1 -> imports actor scanID items l2 fs2 w1 w2 ->
  imports actor scanID items (l1 ++ l2) (fs1 ++ fs2) w w2.
Proof.
  intros I1 I2. pose proof I1 as (S1 & C1 & k1 & N1 & R1). pose proof I2 as (S2 & C2 & k2 & N2 & R2).
  split; [by eapply shrunk_trans|]. split.
  - intros key Hne. destruct (same_or_changed w w1 key) as [E1|E1].
    + assert (E2 : changed w1 w2 key) by (unfold changed in *; by rewrite E1).
      destruct (C2 key E2) as (item & Hi & Hf). exists item. split; [done|]. eapply from_scan_back; [done..|].
      eapply from_scan_mono; [|exact Hf]. intros n c q [(a & Ha & Hr)|[e He]]; [left; exists a|right; exists e]; set_solver.
    + destruct (imports_first _ _ _ _ _ _ _ key I1 I2 E1) as [E2 _]. rewrite E2.
      destruct (C1 key E1) as (item & Hi & Hf). exists item. split; [done|].
      eapply from_scan_mono; [|exact Hf]. intros n c q [(a & Ha & Hr)|[e He]]; [left; exists a|right; exists e]; set_solver.
  - exists (k1 ++ k2). split.
    + apply NoDup_app. split_and!; [done| |done]. intros key Hk1 Hk2.
      destruct (Forall2_in_l _ _ _ _ R1 Hk1) as (a1 & _ & E1 & _). destruct (Forall2_in_l _ _ _ _ R2 Hk2) as (a2 & _ & E2 & _).
      by apply (imports_once _ _ _ _ _ _ _ key I1 I2 E1).
    + apply Forall2_app; (eapply Forall2_impl; [eassumption|]); intros key a (E & item & Hi & Hf).
      * destruct (imports_first _ _ _ _ _ _ _ key I1 I2 E) as [E2 E3]. split; [done|]. exists item. by rewrite E2.
      * destruct (imports_second _ _ _ _ _ _ _ key I1 I2 E) as [E2 E3]. split; [done|]. exists item. split; [done|].
        by eapply from_scan_back.
Qed.
End Imported.

Section Imports.
Context `{Env} `{RandomSource}.
Lemma wp_findScanned scanID item w (Q : result (ScanCandidate * list ScannedModel) -> World -> Prop) :
  (forall e w', w_scans w' = w_scans w -> w_inventory w' = w_inventory w -> w_audit w' = w_audit w -> beyond_import w' = beyond_import w -> Q (Err e) w') ->
  (forall n c w', w_scans w' = w_scans w -> w_inventory w' = w_inventory w -> w_audit w' = w_audit w -> beyond_import w' = beyond_import w ->
    scan_node w scanID (it_NodeID item) = Some n -> nss_status n = ModelScanDone -> c ∈ nss_candidates n -> named item c = true ->
    Q (Ok (c, nss_models n)) w') ->
  wp (findScanned scanID item) w Q.
Proof.
  intros He Hok. unfold findScanned. apply wp_bind, wp_gets. unfold scan_node in Hok. destruct (w_scans w !! scanID) as [sc|]; [|by apply wp_throw, He].
  apply wp_bind, wp_time_now, wp_bind, wp_guard; intros _; [|by apply He].
  destruct (scan_nodes sc !! it_NodeID item) as [n|]; [|by apply wp_throw, He].
  apply wp_bind, wp_guard; intros Hst; [|by apply He]. apply bool_decide_eq_true in Hst.
  destruct (List.find (named item) (nss_candidates n)) as [c|] eqn:Ef; [|by apply wp_throw, He].
  apply List.find_some in Ef as [Hin Hnm]. apply wp_ret, Hok; try done. by apply list_elem_of_In.
Qed.
Lemma wp_check_unknown n r q f w (Q : result unit -> World -> Prop) :
  (forall e, Q (Err e) (bump w)) ->
  ((forall e, w_inventory w !! (n, r, q, f) = Some e -> InvStatus e = InvRemoved) -> Q (Ok tt) (bump w)) ->
  ForeignFaults -> wp (check_unknown n r q f) w Q.
Proof.
  intros He Hok HF. unfold check_unknown. apply wp_bind, wp_attempt, wp_Get_inventory.
  - intros e Hf. cbn [errors_Is]. rewrite (fault_foreign _ _ _ Hf). by apply wp_throw, He.
  - intros Hn. apply wp_ret, Hok. rewrite Hn. done.
  - intros i Hi. apply wp_guard; intros Hst; [|apply He]. apply Hok. rewrite Hi. intros e [= <-]. by apply bool_decide_eq_true in Hst.
Qed.
Lemma import_quantization_ok item c q : import_quantization item c = Ok q ->
  q = cand_Quantization c \/ q = it_AsQuantization item /\ cand_Format c = FormatGGUF /\ validQuantization q = true.
Proof.
  unfold import_quantization. case_bool_decide; [intros [= <-]; by left|]. destruct (negb (bool_decide _) || negb _) eqn:E; [done|].
  apply orb_false_iff in E as [E1 E2]. intros [= <-]. right. split; [done|]. apply negb_false_iff in E1, E2.
  by apply bool_decide_eq_true in E1.
Qed.
Lemma scan_node_wf w scanID nodeID n : scans_wf w -> scan_node w scanID nodeID = Some n -> node_wf n.
Proof.
  intros [_ Hw] Hn. unfold scan_node in Hn. destruct (w_scans w !! scanID) as [sc|] eqn:E; [|done].
  destruct (Hw _ _ E) as (_ & _ & _ & _ & Hsc). by apply (Hsc _ _ Hn).
Qed.
Definition import_outcome (actor : Actor) (scanID : string) (items : list ImportItem) (fs : list (ImportItem * error))
    (w : World) (recs : nat) (w' : World) : Prop :=
  beyond_import w' = beyond_import w /\ scans_wf w' /\
  exists l, w_audit w' = w_audit w ++ l /\ length l = recs /\ imports actor scanID items l fs w w'.
Lemma imports_same actor scanID items fs w w' : w_scans w' = w_scans w -> w_inventory w' = w_inventory w ->
  imports actor scanID items [] fs w w'.
Proof.
  intros Hs Hi. split; [by apply shrunk_same|]. split; [intros key Hk; unfold changed in Hk; by rewrite Hi in Hk|].
  exists []. split; constructor.
Qed.
Lemma outcome_same actor scanID items fs w w' : scans_wf w ->
  w_scans w' = w_scans w -> w_inventory w' = w_inventory w -> w_audit w' = w_audit w -> beyond_import w' = beyond_import w ->
  import_outcome actor scanID items fs w 0 w'.
Proof.
  intros Hw Hs Hi Ha Hb. split; [done|]. split; [unfold scans_wf; by rewrite Hs|]. exists []. rewrite app_nil_r.
  split_and!; [done..|by apply imports_same].
Qed.
(** The failure an item adds to the answer. *)
Definition failure (item : ImportItem) (r : result unit) : list (ImportItem * error) :=
  match r with
  | Err e => if errors_Is e "inventory.ErrScanNotFound" then [] else [(item, e)]
  | Ok _ => []
  end.
Lemma importOne_ok `{!ForeignFaults} actor scanID item items w : item ∈ items -> scans_wf w ->
  wp (importOne actor scanID item) w (fun r w' =>
    import_outcome actor scanID items (failure item r) w (match r with Ok _ => 1 | Err _ => 0 end) w').
Proof.
  intros Hitem Hw. unfold importOne. set (id := to_lower _). apply wp_bind, wp_findScanned.
  { intros e w1 Hs Hi Ha Hb. by apply outcome_same. }
  intros n c w1 Hs1 Hi1 Ha1 Hb1 Hn Hst Hc Hnamed. cbn [it_NodeID] in Hn.
  set (item' := MkItem _ _ _ _ _) in *. apply wp_bind. unfold lift at 1. destruct (import_quantization item' c) as [q|e] eqn:Eq.
  2: { apply wp_throw. by apply outcome_same. }
  apply import_quantization_ok in Eq. apply wp_ret. pose proof (scan_node_wf _ _ _ _ Hw Hn) as (_ & _ & _ & _ & Hcm & _).
  rewrite Forall_forall in Hcm. destruct (Hcm c Hc) as (m0 & Hm0 & Hof0).
  destruct (List.find (of_candidate c) (nss_models n)) as [m|] eqn:Ef.
  2: { exfalso. apply list_elem_of_In in Hm0. pose proof (List.find_none _ _ Ef m0 Hm0). congruence. }
  apply List.find_some in Ef as [Hm Hof]. apply list_elem_of_In in Hm. change (default no_model (Some m)) with m.
  destruct (importBlock (nss_models n) m q) as [e|] eqn:Eb; [apply wp_throw; by apply outcome_same|].
  apply wp_bind, wp_check_unknown; [intros e; by apply outcome_same| |done].
  rewrite Hi1. intros Hrem. unfold Upsert_inventory, scan_inventory. apply wp_bind, wp_wrap, wp_wrap, wp_wrap, wp_sql.
  { intros e _. by apply outcome_same. }
  intros _. destruct (_ && _); [|by apply outcome_same]. unfold dropCandidate. apply wp_bind, wp_modify.
  set (t := w_clock (bump (bump w1))). set (key := (id, cand_ModelRef c, q, cand_Format c)).
  set (row := MkInventory id (cand_ModelRef c) q (cand_Format c) InvPresent (cand_SizeBytes c) t "").
  assert (Hin : forall w' l fs, w_scans w' = w_scans (upd_scan_node scanID id (drop_candidate c) w) ->
    w_inventory w' = <[key := row]> (w_inventory w) -> (l = [] \/ exists a, l = [a] /\ import_record actor a id c q) ->
    accounted actor l fs item id c q -> scans_wf w' /\ imports actor scanID items l fs w w').
  { intros w' l fs Hs' Hi' Hl Hacc.
    assert (Hrow : w_inventory w' !! key = Some row) by (by rewrite Hi', lookup_insert_eq).
    assert (Hf : forall P : _ -> _ -> _ -> Prop, P id c q -> from_scan w scanID item key (w_inventory w' !! key) P).
    { intros P HP. rewrite Hrow. unfold named in Hnamed. cbn in Hnamed. apply andb_true_iff in Hnamed as [Hnamed E3%bool_decide_eq_true].
      apply andb_true_iff in Hnamed as [E1%bool_decide_eq_true E2%bool_decide_eq_true]. exists id, n, c, q, m, t. by split_and!. }
    assert (Hch : changed w w' key).
    { unfold changed. rewrite Hrow. intros E. symmetry in E. by specialize (Hrem row E). }
    split; [unfold scans_wf; rewrite Hs'; apply upd_scan_node_wf; [|done]; intros n0 _; apply drop_candidate_wf|].
    split; [eapply shrunk_trans; [apply (shrunk_drop scanID id c)|by apply shrunk_same]|]. split.
    - intros key' Hne. assert (key' = key) as ->.
      { unfold changed in Hne. rewrite Hi', lookup_insert in Hne. by case_decide. }
      exists item. split; [done|]. by apply Hf.
    - destruct Hl as [->|(a & -> & Ha)]; [exists []; split; constructor|exists [key]]. split; [apply NoDup_singleton|].
      constructor; [|constructor]. split; [done|]. exists item. split; [done|]. by apply Hf. }
  apply wp_wrap, wp_Record; [intros e He|intros _].
  - set (w' := bump _). destruct (Hin w' [] (failure item (Err (Errorf "record audit: "
      (Errorf "write audit record: " (Errorf "write audit record: " e "") "") "")))) as [Hwf Him].
    { cbn. by rewrite Hs1. } { cbn. by rewrite Hi1. } { by left. }
    { right. eexists. unfold failure. cbn [errors_Is]. rewrite (fault_foreign _ _ _ He). by apply list_elem_of_singleton. }
    split; [exact Hb1|]. split; [exact Hwf|]. exists []. cbn. rewrite app_nil_r. by split_and!.
  - set (a := MkAudit _ _ _ _ _ _ _). set (w' := set_w_audit _ _).
    assert (Ha : import_record actor a id c q) by (by eexists).
    destruct (Hin w' [a] []) as [Hwf Him].
    { cbn. by rewrite Hs1. } { cbn. by rewrite Hi1. } { right. by exists a. } { left. exists a. split; [by apply list_elem_of_singleton|done]. }
    split; [exact Hb1|]. split; [exact Hwf|]. exists [a]. split; [cbn; by rewrite Ha1|]. by split.
Qed.

Lemma outcome_trans actor scanID items fs1 fs2 w w1 w2 k1 k2 :
  import_outcome actor scanID items fs1 w k1 w1 -> import_outcome actor scanID items fs2 w1 k2 w2 ->
  import_outcome actor scanID items (fs1 ++ fs2) w (k1 + k2) w2.
Proof.
  intros (Hb1 & _ & l1 & Ha1 & Hl1 & Hi1) (Hb2 & Hw2 & l2 & Ha2 & Hl2 & Hi2).
  split; [by rewrite Hb2|]. split; [done|]. exists (l1 ++ l2). rewrite Ha2, Ha1, app_assoc, length_app.
  split_and!; [done|lia|by eapply imports_trans].
Qed.
Lemma outcome_refl actor scanID items w : scans_wf w -> import_outcome actor scanID items [] w 0 w.
Proof. intros Hw. by apply outcome_same. Qed.
Lemma import_items_ok `{!ForeignFaults} actor scanID all items w k fs : (forall i, i ∈ items -> i ∈ all) -> scans_wf w ->
  wp (import_items actor scanID items k fs) w (fun r w' => exists n l err, r = Ok (k + Z.of_nat n, fs ++ l, err) /\
    import_outcome actor scanID all l w n w' /\ (n + length l <= length items)%nat /\ (err = None -> n + length l = length items)%nat /\
    (forall e, err = Some e -> errors_Is e "inventory.ErrScanNotFound" = true)).
Proof.
  revert w k fs. induction items as [|item items IH]; intros w k fs Hall Hw; cbn [import_items].
  - apply wp_ret. exists O, [], None. rewrite Z.add_0_r, app_nil_r. split; [done|]. split; [by apply outcome_refl|]. by split_and!.
  - apply wp_bind, wp_attempt. eapply wp_mono; [apply (importOne_ok actor scanID item all); [apply Hall; set_solver|done]|].
    intros [u|e] w1 Ho; pose proof Ho as (_ & Hw1 & _).
    + eapply wp_mono; [apply IH; [set_solver|exact Hw1]|]. intros r w2 (n & l & err & -> & Ho2 & Hlen & Hall2 & Herr).
      exists (S n), l, err. split; [do 3 f_equal; lia|]. split; [exact (outcome_trans _ _ _ _ _ _ _ _ 1 n Ho Ho2)|].
      split; [cbn; lia|]. split; [intros He; specialize (Hall2 He); cbn; lia|done].
    + cbn [failure] in Ho. destruct (errors_Is e "inventory.ErrScanNotFound") eqn:Ee.
      * apply wp_ret. exists O, [], (Some e). rewrite Z.add_0_r, app_nil_r. split; [done|]. split; [done|]. split; [cbn; lia|].
        split; [done|]. by intros e' [= <-].
      * eapply wp_mono; [apply IH; [set_solver|exact Hw1]|]. intros r w2 (n & l & err & -> & Ho2 & Hlen & Hall2 & Herr).
        exists n, ((item, e) :: l), err. split; [by rewrite <- app_assoc|]. split; [exact (outcome_trans _ _ _ _ _ _ _ _ 0 n Ho Ho2)|].
        split; [cbn; lia|]. split; [intros He; specialize (Hall2 He); cbn; lia|done].
Qed.

(** C20: an import changes only inventory rows, the scan it draws on and the
    audit log.  Every row it changes is that of a model the scan found on that
    node and offered, under the node, reference, format and size of the scan
    and a label that is not blocked beside the node's other models, and was
    absent or removed before.  Each changed row has its audit record, with the
    actor, the node and the model, or its item is among the failures because
    the record could not be written (the row stays then).  It writes as many
    records as it says it imported, each for a changed row of its own, and
    answers with a failure for each other item unless the scan expired on the
    way.  Without the permission it does nothing. *)
Theorem Import_takes_from_scan `{!ForeignFaults} actor scanID items w : scans_wf w ->
  wp (Import actor scanID items) w (fun r w' => exists n fs err, r = Ok (Z.of_nat n, fs, err) /\
    import_outcome actor scanID items fs w n w' /\
    if CanImportModels actor then
      (n + length fs <= length items)%nat /\ (err = None -> n + length fs = length items)%nat /\
      (forall e, err = Some e -> errors_Is e "inventory.ErrScanNotFound" = true)
    else w' = w /\ n = O /\ fs = [] /\ err = Some ErrNotPermitted).
Proof.
  intros Hw. unfold Import. destruct (CanImportModels actor); cbn [negb].
  - eapply wp_mono; [apply (import_items_ok actor scanID items items w 0 []); [done|done]|].
    intros r w' (n & l & err & -> & Ho & Hrest). exists n, l, err. by split; [|split].
  - apply wp_ret. exists O, [], (Some ErrNotPermitted). split; [done|]. split; [by apply outcome_refl|]. by split_and!.
Qed.
End Imports.

(** ** A run *)
Definition sevens : RandomSource := fun _ n => repeat 7 n.
Definition labID : string := "0123abcd-0000-4000-8000-000000000001".
Definition scan_world : World :=
  set_w_nodes {[ labID := MkNode labID "lab" "lab.example" "10.0.0.7" Docker (FDec 24 0) (FDec 64 0) AgentOnline None None 0 None None None None None None "" ]} empty_world.
Definition scan_admin : Actor := MkActor false "boss" TierAdmin.
Definition found_models : list ScannedModel :=
  [MkScannedModel "org/m" "Q4_K_M" "gguf" 10 "m-Q4_K_M.gguf" false; MkScannedModel "org/../m" "Q8_0" "gguf" 20 "m-Q8_0.gguf" false].
Definition started : World := snd (@StartScan quiet_env sevens scan_admin [labID] scan_world).
Definition scanID : string := "07070707070707070707070707070707".
Definition answered : World :=
  snd (@HandleScanModelsResult quiet_env labID (EScanModelsResult (Ok (MkScanModelsResult scanID found_models false ""))) started).
Definition wanted : list ImportItem :=
  [MkItem labID "org/m" "Q4_K_M" "gguf" ""; MkItem labID "org/m" "Q4_K_M" "gguf" ""].
(** The first item is imported; the second finds no candidate any more. *)
Example import_run :
  fst (@Import quiet_env scan_admin scanID wanted answered) = Ok (1, [(MkItem labID "org/m" "Q4_K_M" "gguf" "", ErrNotInScan)], None) /\
  InvSizeBytes <$> w_inventory (snd (@Import quiet_env scan_admin scanID wanted answered)) !! (labID, "org/m", "Q4_K_M", FormatGGUF) = Some 10.
Proof. by vm_compute. Qed.
Lemma scan_world_wf : scans_wf scan_world.
Proof. split; [vm_compute; lia|]. intros k sc Hk. vm_compute in Hk. done. Qed.
Lemma answered_steps : rtc (@scan_step quiet_env sevens) scan_world answered.
Proof. eapply rtc_l; [apply (scan_start scan_admin [labID])|]. eapply rtc_l; [apply scan_answer|]. apply rtc_refl. Qed.
Lemma scans_always_wf_witness : scans_wf scan_world /\ scans_wf answered.
Proof.
  split; [exact scan_world_wf|].
  apply (@scans_always_wf quiet_env sevens scan_world answered); [exact answered_steps|exact scan_world_wf].
Defined.
Lemma answered_wf : scans_wf answered.
Proof. exact (scan_run_wf _ _ answered_steps scan_world_wf). Qed.
Lemma Import_takes_from_scan_witness : scans_wf answered /\
  wp (@Import quiet_env scan_admin scanID wanted) answered (fun r w' => exists n fs err, r = Ok (Z.of_nat n, fs, err) /\
    import_outcome scan_admin scanID wanted fs answered n w' /\
    if CanImportModels scan_admin then
      (n + length fs <= length wanted)%nat /\ (err = None -> n + length fs = length wanted)%nat /\
      (forall e, err = Some e -> errors_Is e "inventory.ErrScanNotFound" = true)
    else w' = answered /\ n = O /\ fs = [] /\ err = Some ErrNotPermitted).
Proof.
  split; [exact answered_wf|]. apply (@Import_takes_from_scan quiet_env quiet_foreign scan_admin scanID wanted answered). exact answered_wf.
Defined.
