(* ===== verification/AgentModels.v ===== *)
(** * The models on a node's disk ([agent/modelscan],
    [agent/connection/scanmodels.go], [agent/connection/deletemodel.go])

    What an agent reports of its storage, and what it removes from it.  The
    file system is a tree from the root directory (where relative paths start
    too); a symbolic link holds what it leads to.  Which calls fail although
    the files are there, and what a failing [RemoveAll] leaves, is a parameter. *)
From stdpp Require Import base list strings gmap.
From Stdlib Require Import ZArith Lia.
From Stdlib Require Import Ascii.
From Stdlib Require String.
From S2P Require Import Prelude Text Json Db Wire Paths.
Local Open Scope string_scope.
Local Open Scope list_scope.
Local Open Scope Z_scope.

(** ** The file system *)
Inductive tree :=
| Regular (size : option Z)
| Directory (readable : bool) (entries : list (string * tree))
| Symlink (target : option tree)
| Special.
Class DiskFaults := {
  stat_fault : string -> option error;
  remove_fault : string -> option error;
  wreck : string -> tree -> option tree
}.
Definition ErrNotExist : error := Sentinel "fs.ErrNotExist" "file does not exist".
Definition is_regular (t : tree) : bool := match t with Regular _ => true | _ => false end.
Definition is_dir (t : tree) : bool := match t with Directory _ _ => true | _ => false end.
Fixpoint follow (t : tree) : option tree :=
  match t with Symlink (Some t') => follow t' | Symlink None => None | _ => Some t end.
Fixpoint entry (name : string) (l : list (string * tree)) : option tree :=
  match l with
  | [] => None
  | (n, t) :: l' => if bool_decide (n = name) then Some t else entry name l'
  end.
(** What is at a path, links on the way followed; the last element is followed
    by [Stat] only. *)
Fixpoint lstat_at (p : list string) (t : tree) : result tree :=
  match p with
  | [] => Ok t
  | x :: p' =>
      match follow t with
      | None => Err ErrNotExist
      | Some (Directory _ es) => match entry x es with Some c => lstat_at p' c | None => Err ErrNotExist end
      | Some _ => Err (Opaque "not a directory")
      end
  end.
Definition elements (name : string) : list string := parts (parse name).
Definition stat_at (p : list string) (t : tree) : result tree :=
  match lstat_at p t with
  | Err e => Err e
  | Ok t' => match follow t' with Some t'' => Ok t'' | None => Err ErrNotExist end
  end.
Definition by_entry (a b : string * tree) : bool := string_le a.1 b.1.
(** [os.ReadDir]: the entries by name. *)
Definition ReadDir (t : tree) : result (list (string * tree)) :=
  match t with
  | Directory true es => Ok (sort_by by_entry es)
  | Directory false _ => Err (Opaque "permission denied")
  | _ => Err (Opaque "not a directory")
  end.
Definition read_at (p : list string) (t : tree) : result (list (string * tree)) :=
  match stat_at p t with Err e => Err e | Ok d => ReadDir d end.

(** ** The scan *)
Definition UnknownQuantization : string := "UNKNOWN".
Definition MaxCandidates : nat := 500.
Definition maxDepth : nat := 6.
Definition no_newline (l : list ascii) : bool := negb (existsb (is_char 10) l).
(** [rsyncTempRe]: a dot, a weight file's name, a dot and six letters or
    digits. *)
Definition weight_name (l : list ascii) : bool :=
  let s := of_bytes l in
  existsb (fun suffix => has_suffix s suffix && Nat.ltb (String.length suffix) (length l)
             && no_newline (take (length l - String.length suffix) l)) [".gguf"; ".safetensors"].
Definition rsyncTempRe (name : string) : bool :=
  match bytes name with
  | d :: l =>
      is_char 46 d && Nat.leb 7 (length l)
      && match_shape (is_char 46 :: repeat is_alnum 6) (drop (length l - 7) l) && weight_name (take (length l - 7) l)
  | [] => false
  end.
(** [shardRe]: the base and the first number of [<base>-ddddd-of-ddddd.gguf]. *)
Definition shard_tail : list (ascii -> bool) :=
  is_char 45 :: repeat is_digit 5 ++ map (fun c d => bool_decide (c = d)) (bytes "-of-") ++ repeat is_digit 5
    ++ map (fun c d => bool_decide (c = d)) (bytes ".gguf").
Definition shardRe (name : string) : option (string * string) :=
  let l := bytes name in
  let n := (length l - 20)%nat in
  if Nat.ltb 20 (length l) && match_shape shard_tail (drop n l) && no_newline (take n l)
  then Some (of_bytes (take n l), of_bytes (take 5 (drop (S n) l))) else None.

(** [quantRe] with the case of ASCII folded.  [seg_tails l] is the list of what
    may follow the repeated [_[A-Z0-9]+], the longest repetition first: it can
    only give up whole repetitions, since after part of one a letter or digit
    follows. *)
Definition is_sep (c : ascii) : bool := is_char 45 c || is_char 95 c || is_char 46 c.
Fixpoint span (p : ascii -> bool) (l : list ascii) : list ascii * list ascii :=
  match l with
  | c :: l' => if p c then let (a, b) := span p l' in (c :: a, b) else ([], l)
  | [] => ([], [])
  end.
Fixpoint seg_tails (fuel : nat) (acc l : list ascii) : list (list ascii * list ascii) :=
  match fuel, l with
  | S f, c :: l' =>
      if is_char 95 c then
        let (a, b) := span is_alnum l' in
        if bool_decide (a = []) then [(acc, l)] else seg_tails f (acc ++ c :: a) b ++ [(acc, l)]
      else [(acc, l)]
  | _, _ => [(acc, l)]
  end.
Definition ends (l : list ascii) : bool := match l with [] => true | c :: _ => is_sep c end.
Definition fold_prefix (word : string) (l : list ascii) : bool :=
  equal_fold (of_bytes (take (String.length word) l)) word.
Definition quant_words : list string := ["BF16"; "FP16"; "F16"; "F32"; "MXFP4"; "NVFP4"; "FP8"].
Definition q_label (word : string) (l : list ascii) : option (list ascii) :=
  let n := String.length word in
  match drop n l with
  | d :: rest =>
      if fold_prefix word l && is_digit d then
        match List.find (fun t : list ascii * list ascii => ends t.2) (seg_tails (length rest) (take (S n) l) rest) with
        | Some t => Some t.1
        | None => None
        end
      else None
  | [] => None
  end.
Definition word_label (l : list ascii) (word : string) : option (list ascii) :=
  if fold_prefix word l && ends (drop (String.length word) l) then Some (take (String.length word) l) else None.
Fixpoint first_some {X Y} (f : X -> option Y) (l : list X) : option Y :=
  match l with [] => None | x :: l' => match f x with Some y => Some y | None => first_some f l' end end.
Definition label_at (l : list ascii) : option (list ascii) :=
  first_some (fun o : option (list ascii) => o) (q_label "IQ" l :: q_label "Q" l :: map (word_label l) quant_words).
Fixpoint label_after_sep (l : list ascii) : option (list ascii) :=
  match l with
  | [] => None
  | c :: l' =>
      match (if is_sep c then label_at l' else None) with Some x => Some x | None => label_after_sep l' end
  end.
Definition quantRe (l : list ascii) : option (list ascii) :=
  match label_at l with Some x => Some x | None => label_after_sep l end.
Definition quantizationFromName (base : string) : string :=
  match quantRe (bytes base) with Some x => of_bytes x | None => UnknownQuantization end.
Example labels :
  quantizationFromName "Llama-3-8B-Instruct-Q4_K_M" = "Q4_K_M" /\ quantizationFromName "model.iq2_xxs" = "iq2_xxs" /\
  quantizationFromName "m-Q4_K_M extra" = "Q4_K" /\ quantizationFromName "bf16-q8_0" = "bf16" /\
  quantizationFromName "Qwen3-32B" = "UNKNOWN" /\ quantizationFromName "x-F16x-fp8" = "fp8" /\
  shardRe "m-Q8_0-00001-of-00003.gguf" = Some ("m-Q8_0", "00001") /\ rsyncTempRe ".m-Q8_0.gguf.aZ09bc" = true /\
  rsyncTempRe ".gitattributes" = false.
Proof. by vm_compute. Qed.

Definition weights (e : string * tree) : bool :=
  is_regular e.2 && negb (has_prefix e.1 ".") && (has_suffix e.1 ".gguf" || has_suffix e.1 ".safetensors").
Definition hasWeights (entries : list (string * tree)) : bool := existsb weights entries.
Definition sized (t : tree) : option Z := match t with Regular s => s | _ => None end.
(** [WalkDir] of a model directory: the sizes of its regular files at any depth
    but gguf files and temporary ones; links are not followed and a directory
    that cannot be read adds nothing.  The sum is an [int64]. *)
Fixpoint repo_size (total : Z) (name : string) (t : tree) : Z :=
  match t with
  | Regular (Some size) => if has_suffix name ".gguf" || rsyncTempRe name then total else int64 (total + size)
  | Directory true es =>
      (fix go (total : Z) (es : list (string * tree)) : Z :=
         match es with [] => total | (n, c) :: es' => go (repo_size total n c) es' end) total es
  | _ => total
  end.
Definition wholeRepoSize (rel : string) (t : tree) : Z := repo_size 0 rel t.

(** The gguf files of a directory by key: [ggufSizes], [ggufFirst] and
    [ggufNames] as one list in the order the keys are first seen. *)
Record gguf := MkGguf { gg_key : string; gg_size : Z; gg_first : string }.
Fixpoint add_gguf (key name : string) (size : Z) (first : bool) (l : list gguf) : list gguf :=
  match l with
  | [] => [MkGguf key size name]
  | g :: l' =>
      if bool_decide (gg_key g = key) then MkGguf key (int64 (gg_size g + size)) (if first then name else gg_first g) :: l'
      else g :: add_gguf key name size first l'
  end.
Record dir_facts := MkFacts { hasSafetensors : bool; incomplete : bool; ggufs : list gguf }.
Definition note_entry (f : dir_facts) (e : string * tree) : dir_facts :=
  let name := e.1 in
  if negb (is_regular e.2) then f
  else if rsyncTempRe name then MkFacts (hasSafetensors f) true (ggufs f)
  else if has_prefix name "." then f
  else if has_suffix name ".safetensors" then MkFacts true (incomplete f) (ggufs f)
  else if has_suffix name ".gguf" then
    match sized e.2 with
    | None => f
    | Some size =>
        let key := match shardRe name with Some s => s.1 | None => trim_suffix name ".gguf" end in
        let first := match shardRe name with Some s => bool_decide (s.2 = "00001") | None => false end in
        MkFacts (hasSafetensors f) (incomplete f) (add_gguf key name (int64 size) first (ggufs f))
    end
  else f.

Definition validRef (root rel : string) : bool :=
  valid_utf8 rel && negb (existsb is_control (runes rel))
  && match Resolve root rel with Err _ => false | Ok dir => bool_decide (dir = Join root rel) end.
Definition by_key (a b : gguf) : bool := string_le (gg_key a) (gg_key b).
Definition gguf_model (rel : string) (incomplete : bool) (g : gguf) : ScannedModel :=
  MkScannedModel rel (quantizationFromName (gg_key g)) "gguf" (gg_size g) (gg_first g) incomplete.

(** [modelscan.Candidate] has the fields of [agentproto.ScannedModel], in the
    same order. *)
Record scanner := MkScanner { sc_out : list ScannedModel; sc_truncated : bool }.
Definition full (s : scanner) : bool * scanner :=
  if Nat.leb MaxCandidates (length (sc_out s)) then (true, MkScanner (sc_out s) true) else (false, s).
Definition put (m : ScannedModel) (s : scanner) : scanner := MkScanner (sc_out s ++ [m]) (sc_truncated s).
Fixpoint put_ggufs (rel : string) (incomplete : bool) (gs : list gguf) (s : scanner) : scanner :=
  match gs with
  | [] => s
  | g :: gs' => let (f, s1) := full s in if f then s1 else put_ggufs rel incomplete gs' (put (gguf_model rel incomplete g) s1)
  end.
Definition addModelDir (root rel : string) (dir : tree) (entries : list (string * tree)) (s : scanner) : scanner :=
  if negb (validRef root rel) then s
  else
    let f := foldl note_entry (MkFacts false false []) entries in
    let s1 := if hasSafetensors f then
        let (is_full, s1) := full s in
        if is_full then s1 else put (MkScannedModel rel "" "safetensors" (wholeRepoSize rel dir) "" (incomplete f)) s1
      else s in
    put_ggufs rel (incomplete f) (sort_by by_key (ggufs f)) s1.

(** [walk]: [n] is [maxDepth] less the depth. *)
Fixpoint walk (root : string) (n : nat) (rel : string) (dir : tree) (s : scanner) : result scanner :=
  match ReadDir dir with
  | Err e => if bool_decide (rel = "") then Err (Errorf ("read model storage " +:+ quote root +:+ ": ") e "") else Ok s
  | Ok entries =>
      if negb (bool_decide (rel = "")) && hasWeights entries then Ok (addModelDir root rel dir entries s)
      else match n with
           | O => Ok s
           | S n' =>
               (fix visit (es : list (string * tree)) (s : scanner) : result scanner :=
                  match es with
                  | [] => Ok s
                  | (name, c) :: es' =>
                      let (f, s1) := full s in
                      if f then Ok s1
                      else if negb (is_dir c) || has_prefix name "." then visit es' s1
                      else
                        let child := if bool_decide (rel = "") then name else rel +:+ "/" +:+ name in
                        match walk root n' child c s1 with Err e => Err e | Ok s2 => visit es' s2 end
                  end) entries s
           end
  end.
(** [sort.Slice]: by reference, format, quantization. *)
Definition scan_le (a b : ScannedModel) : bool :=
  if negb (bool_decide (sm_ModelRef a = sm_ModelRef b)) then string_le (sm_ModelRef a) (sm_ModelRef b)
  else if negb (bool_decide (sm_Format a = sm_Format b)) then string_le (sm_Format a) (sm_Format b)
  else string_le (sm_Quantization a) (sm_Quantization b).

Section Disk.
Context `{DiskFaults}.
Definition Stat (fs : tree) (name : string) : result tree :=
  match stat_fault name with Some e => Err e | None => stat_at (elements name) fs end.
Definition Scan (fs : tree) (root : string) : result (list ScannedModel * bool) :=
  let root := Clean root in
  match Stat fs root with
  | Err e => Err (Errorf ("model storage " +:+ quote root +:+ ": ") e "")
  | Ok dir =>
      if negb (is_dir dir) then Err (Opaque ("model storage " +:+ quote root +:+ " is not a directory"))
      else match walk root maxDepth "" dir (MkScanner [] false) with
           | Err e => Err e
           | Ok s => Ok (sort_by scan_le (sc_out s), sc_truncated s)
           end
  end.
(** [Conn.scanModels] and the answer of [runScanModels]. *)
Definition scanModels (fs : tree) (root : string) : result ScanModelsResult :=
  if bool_decide (root = "") then
    Err (Opaque "model storage path is not configured on this node (SPARKY_MODEL_STORAGE_PATH)")
  else match Scan fs root with
       | Err e => Err e
       | Ok (models, truncated) => Ok (MkScanModelsResult "" models truncated "")
       end.
Definition runScanModels (fs : tree) (root scanID : string) : ScanModelsResult :=
  match scanModels fs root with
  | Err e => MkScanModelsResult scanID [] false (error_text e)
  | Ok r => MkScanModelsResult scanID (sr_Models r) (sr_Truncated r) (sr_Error r)
  end.

(** ** Removing files *)
Abbreviation D := (ST tree).
(** The entries of the directory at a path, links followed, replaced. *)
Fixpoint edit_dir (p : list string) (f : list (string * tree) -> list (string * tree)) (t : tree) : tree :=
  match t with
  | Symlink (Some t') => Symlink (Some (edit_dir p f t'))
  | Directory r es =>
      match p with
      | [] => Directory r (f es)
      | x :: p' => Directory r (map (fun e => (e.1, if bool_decide (e.1 = x) then edit_dir p' f e.2 else e.2)) es)
      end
  | _ => t
  end.
Definition without (name : string) (es : list (string * tree)) : list (string * tree) :=
  List.filter (fun e => negb (bool_decide (e.1 = name))) es.
Definition wrecked (path name : string) (es : list (string * tree)) : list (string * tree) :=
  match entry name es with
  | None => es
  | Some t => match wreck path t with
              | Some t' => map (fun e => if bool_decide (e.1 = name) then (name, t') else e) es
              | None => without name es
              end
  end.
(** [os.Remove] of something that is not a directory, and [os.RemoveAll]. *)
Definition at_path (path : string) (f : string -> list (string * tree) -> list (string * tree)) (fs : tree) : tree :=
  edit_dir (removelast (elements path)) (f (List.last (elements path) "")) fs.
Definition Remove (path : string) : D unit :=
  match remove_fault path with Some e => throw e | None => modify (at_path path without) end.
Definition RemoveAll (path : string) : D unit :=
  match remove_fault path with
  | Some e => modify (at_path path (wrecked path));; throw e
  | None => modify (at_path path without)
  end.
Definition names_at (fs : tree) (dir : string) : option (list string) :=
  match Stat fs dir with
  | Ok d => match ReadDir d with Ok es => Some (map fst es) | Err _ => None end
  | Err _ => None
  end.

(** The loop of [removeModel]: how many it removed. *)
Fixpoint remove_matching (dir quantization : string) (entries : list (string * tree)) (removed : Z) : D Z :=
  match entries with
  | [] => mret removed
  | (name, c) :: entries' =>
      if is_dir c || negb (contains name quantization) then remove_matching dir quantization entries' removed
      else wrap ("remove " +:+ name +:+ ": ") (Remove (Join dir name));;
           remove_matching dir quantization entries' (removed + 1)
  end.
Definition whole_repo (format quantization : string) : bool :=
  negb (bool_decide (format = "gguf")) || bool_decide (quantization = "") || bool_decide (quantization = "UNKNOWN").
Definition remove_quantization (dir quantization : string) : D unit :=
  entries ← gets (fun fs => read_at (elements dir) fs);
  match entries with
  | Err e => throw (Errorf ("read " +:+ dir +:+ ": ") e "")
  | Ok entries =>
      removed ← remove_matching dir quantization entries 0;
      if removed =? 0 then mret tt
      else
        left ← gets (fun fs => default [] (Glob (names_at fs) (Join dir "*.gguf")));
        when (bool_decide (left = [])) (wrap ("remove " +:+ dir +:+ ": ") (RemoveAll dir))
  end.
Definition removeModel (root modelRef quantization format : string) : D unit :=
  match Resolve root modelRef with
  | Err e => throw e
  | Ok dir =>
      st ← gets (fun fs => Stat fs dir);
      match st with
      | Err e => if errors_Is e "fs.ErrNotExist" then mret tt else throw (Errorf "model directory: " e "")
      | Ok _ =>
          if whole_repo format quantization then wrap ("remove " +:+ dir +:+ ": ") (RemoveAll dir)
          else remove_quantization dir quantization
      end
  end.
Definition runDeleteModel (root modelRef quantization format : string) : D DeleteModelResult :=
  r ← attempt (removeModel root modelRef quantization format);
  mret match r with
       | Ok _ => MkDeleteModelResult modelRef quantization format true ""
       | Err e => MkDeleteModelResult modelRef quantization format false (error_text e)
       end.
End Disk.
