(* ===== verification/AgentModelsSpec.v ===== *)
(** * What a scan finds, and what a delete leaves

    A scan lists exactly the models of the storage directory, up to its limit;
    and deleting a model that an import let through leaves the others where
    they are. *)
From stdpp Require Import base list strings gmap sorting.
From Stdlib Require Import ZArith Lia.
From Stdlib Require Import Ascii.
From Stdlib Require String.
From S2P Require Import Prelude Text Json Db Rbac Wire NodeStore NodeToken Inventory InventorySpec Paths ModelScan ModelScanSpec AgentModels.
Local Open Scope string_scope.
Local Open Scope list_scope.
Local Open Scope Z_scope.

(** Names as a file system has them: distinct in a directory, not empty, with
    no slash, not [.] or [..]. *)
Fixpoint tree_ok (t : tree) : Prop :=
  match t with
  | Directory _ es =>
      NoDup (map fst es) /\
      (fix go (es : list (string * tree)) : Prop :=
         match es with [] => True | (n, c) :: es' => proper n /\ tree_ok c /\ go es' end) es
  | Symlink (Some t') => tree_ok t'
  | _ => True
  end.
Lemma tree_ok_entries r es : tree_ok (Directory r es) ->
  NoDup (map fst es) /\ forall n c, (n, c) ∈ es -> proper n /\ tree_ok c.
Proof.
  intros [Hn Hgo]. split; [exact Hn|]. clear Hn. induction es as [|[n c] es IH]; [intros ? ? Hbad; by apply elem_of_nil in Hbad|].
  destruct Hgo as (Hp & Hc & Hgo). intros n' c' [[= -> ->]|Hin]%elem_of_cons; [done|]. by apply IH.
Qed.
Fixpoint follow_ok (t : tree) : forall t', tree_ok t -> follow t = Some t' -> tree_ok t'.
Proof.
  destruct t as [s|r es|[t|]|]; intros t'; cbn [follow]; [by intros _ [= <-]|by intros ? [= <-]| |done|by intros _ [= <-]].
  intros Hok. apply follow_ok, Hok.
Qed.
Lemma ReadDir_Ok d es : ReadDir d = Ok es -> exists es0, d = Directory true es0 /\ es = sort_by by_entry es0.
Proof. destruct d as [|[] es0| |]; try done. intros [= <-]. by exists es0. Qed.
Lemma tree_ok_read d es : tree_ok d -> ReadDir d = Ok es -> NoDup (map fst es) /\ forall n c, (n, c) ∈ es -> proper n /\ tree_ok c.
Proof.
  intros Hok (es0 & -> & ->)%ReadDir_Ok. apply tree_ok_entries in Hok as [Hn Hc]. split.
  - change (map fst (sort_by by_entry es0)) with (fst <$> sort_by by_entry es0). by rewrite (sort_by_perm by_entry es0).
  - intros n c Hin. apply Hc. by apply elem_of_sort_by in Hin.
Qed.

(** ** The models below a directory, whatever the limit *)
Definition child (rel name : string) : string := if bool_decide (rel = "") then name else rel +:+ "/" +:+ name.
Definition facts_of (entries : list (string * tree)) : dir_facts := foldl note_entry (MkFacts false false []) entries.
Definition dir_models (root rel : string) (dir : tree) (entries : list (string * tree)) : list ScannedModel :=
  if negb (validRef root rel) then []
  else
    let f := facts_of entries in
    (if hasSafetensors f then [MkScannedModel rel "" "safetensors" (wholeRepoSize rel dir) "" (incomplete f)] else [])
    ++ map (gguf_model rel (incomplete f)) (sort_by by_key (ggufs f)).
Fixpoint models_below (root : string) (n : nat) (rel : string) (dir : tree) : list ScannedModel :=
  match ReadDir dir with
  | Err _ => []
  | Ok entries =>
      if negb (bool_decide (rel = "")) && hasWeights entries then dir_models root rel dir entries
      else match n with
           | O => []
           | S n' => flat_map (fun e => if negb (is_dir e.2) || has_prefix e.1 "." then [] else models_below root n' (child rel e.1) e.2) entries
           end
  end.

(** [adds l s s']: the scanner took [l] up to its limit. *)
Definition room (s : scanner) : Prop := (length (sc_out s) <= MaxCandidates)%nat.
Definition adds (l : list ScannedModel) (s s' : scanner) : Prop :=
  sc_out s' = take MaxCandidates (sc_out s ++ l) /\
  (sc_truncated s' = false -> sc_truncated s = false /\ (length (sc_out s ++ l) <= MaxCandidates)%nat) /\
  (sc_truncated s' = true -> sc_truncated s = true \/ length (sc_out s') = MaxCandidates).
Lemma adds_room l s s' : adds l s s' -> room s'.
Proof. intros (H & _ & _). unfold room. rewrite H, length_take. lia. Qed.
Lemma adds_nil s : room s -> adds [] s s.
Proof. intros Hr. unfold adds. rewrite app_nil_r, take_ge by done. split_and!; auto. Qed.
Lemma adds_trans l1 l2 s s1 s2 : adds l1 s s1 -> adds l2 s1 s2 -> adds (l1 ++ l2) s s2.
Proof.
  intros (Ho1 & Hf1 & Ht1) (Ho2 & Hf2 & Ht2). split; [|split].
  - rewrite Ho2, Ho1, app_assoc. destruct (decide (length (sc_out s ++ l1) <= MaxCandidates)%nat) as [Hle|Hgt].
    + by rewrite (take_ge (sc_out s ++ l1)).
    + rewrite (take_app_le (sc_out s ++ l1)) by lia. rewrite take_app_le by (rewrite length_take; lia). by rewrite take_take, Nat.min_id.
  - intros Hf. destruct (Hf2 Hf) as [Hf1' Hl2]. destruct (Hf1 Hf1') as [Hs Hl1]. split; [done|].
    rewrite Ho1, (take_ge _ _ Hl1) in Hl2. by rewrite app_assoc.
  - intros Ht. destruct (Ht2 Ht) as [Ht'|?]; [|by right]. destruct (Ht1 Ht') as [?|Hl1]; [by left|]. right.
    rewrite Ho2, length_take, length_app. lia.
Qed.
Lemma full_adds s l : room s -> (full s).1 = true -> adds l s (full s).2.
Proof.
  unfold room, full. intros Hr. destruct (Nat.leb_spec MaxCandidates (length (sc_out s))) as [Hle|]; [|done]. intros _.
  assert (Hl : length (sc_out s) = MaxCandidates) by lia. unfold adds. cbn [sc_out sc_truncated snd].
  rewrite take_app_le, take_ge by lia. split; [done|]. split; [done|]. intros _. by right.
Qed.
Lemma full_false s : (full s).1 = false -> (full s).2 = s /\ (length (sc_out s) < MaxCandidates)%nat.
Proof. unfold full. by destruct (Nat.leb_spec MaxCandidates (length (sc_out s))). Qed.
Lemma put_adds m s : (length (sc_out s) < MaxCandidates)%nat -> adds [m] s (put m s).
Proof.
  intros Hl. unfold adds, put. cbn [sc_out sc_truncated]. assert (Hl' : (length (sc_out s ++ [m]) <= MaxCandidates)%nat) by (rewrite length_app; cbn; lia).
  rewrite take_ge by done. split; [done|]. split; [done|]. by left.
Qed.
Lemma put_ggufs_adds rel inc gs s : room s -> adds (map (gguf_model rel inc) gs) s (put_ggufs rel inc gs s).
Proof.
  revert s. induction gs as [|g gs IH]; intros s Hr; cbn [put_ggufs]; [by apply adds_nil|].
  pose proof (full_adds s (map (gguf_model rel inc) (g :: gs)) Hr) as Hf. pose proof (full_false s) as Hn.
  destruct (full s) as [[] s1]; cbn [fst snd] in *; [by apply Hf|]. destruct (Hn eq_refl) as [-> Hl].
  apply (adds_trans [_] _ _ (put (gguf_model rel inc g) s)); [by apply put_adds|]. apply IH. eapply adds_room. by apply put_adds.
Qed.
Lemma addModelDir_adds root rel dir es s : room s -> adds (dir_models root rel dir es) s (addModelDir root rel dir es s).
Proof.
  intros Hr. unfold addModelDir, dir_models. destruct (negb _); [by apply adds_nil|]. fold (facts_of es). cbv zeta.
  set (f := facts_of es). set (m := MkScannedModel _ _ _ _ _ _). eapply adds_trans.
  2: { apply put_ggufs_adds. destruct (hasSafetensors f); [|done]. pose proof (full_adds s [m] Hr) as Hf. pose proof (full_false s) as Hn.
       destruct (full s) as [[] s1]; cbn [fst snd] in *; [by eapply adds_room, Hf|]. destruct (Hn eq_refl) as [-> Hl]. eapply adds_room. by apply put_adds. }
  destruct (hasSafetensors f); [|by apply adds_nil]. pose proof (full_adds s [m] Hr) as Hf. pose proof (full_false s) as Hn.
  destruct (full s) as [[] s1]; cbn [fst snd] in *; [by apply Hf|]. destruct (Hn eq_refl) as [-> Hl]. by apply put_adds.
Qed.
Lemma proper_nonempty n : proper n -> n <> "".
Proof. by intros [[H _] _]. Qed.
Lemma child_nonempty rel n : proper n -> child rel n <> "".
Proof. intros Hn. unfold child. case_bool_decide; [by apply proper_nonempty|]. by destruct rel. Qed.
Lemma walk_adds root n rel dir s : tree_ok dir -> room s -> (rel = "" -> exists es, ReadDir dir = Ok es) ->
  exists s', walk root n rel dir s = Ok s' /\ adds (models_below root n rel dir) s s'.
Proof.
  revert rel dir s. induction n as [|n IH]; intros rel dir s Hok Hr Hread; cbn [walk models_below]; fold child;
    (destruct (ReadDir dir) as [es|e] eqn:E;
     [|rewrite bool_decide_eq_false_2 by (intros Hrel; destruct (Hread Hrel); congruence); exists s; split; [done|by apply adds_nil]]);
    (destruct (negb (bool_decide (rel = "")) && hasWeights es); [eexists; split; [done|by apply addModelDir_adds]|]);
    [exists s; split; [done|by apply adds_nil]|].
  apply (tree_ok_read _ _ Hok) in E as [_ Hes]. clear Hread Hok. revert s Hr. induction es as [|[name c] es IHes]; intros s Hr.
  { exists s. split; [done|by apply adds_nil]. }
  assert (Hes' : forall n c, (n, c) ∈ es -> proper n /\ tree_ok c) by (intros ? ? ?; apply Hes; set_solver).
  specialize (IHes Hes'). destruct (Hes name c) as [Hname Hc]; [set_solver|]. cbn [flat_map fst snd].
  set (l := flat_map _ es) in *. set (l0 := if negb (is_dir c) || has_prefix name "." then [] else models_below root n (child rel name) c).
  pose proof (full_adds s (l0 ++ l) Hr) as Hf. pose proof (full_false s) as Hn.
  destruct (full s) as [[] s1]; cbn [fst snd] in *; [eexists; split; [done|by apply Hf]|]. destruct (Hn eq_refl) as [-> _].
  subst l0. destruct (negb (is_dir c) || has_prefix name "."); [by apply IHes|].
  destruct (IH (child rel name) c s Hc Hr) as (s2 & Hw & Ha); [intros Hbad; by apply child_nonempty in Hbad|].
  change (if bool_decide (rel = "") then name else rel +:+ "/" +:+ name) with (child rel name). rewrite Hw.
  destruct (IHes s2 (adds_room _ _ _ Ha)) as (s3 & Hv & Ha3). exists s3. split; [exact Hv|]. by eapply adds_trans.
Qed.

(** ** Which directories are model directories *)
Definition rel_of (p : list string) : string := join "/" p.
(** From the directory [d] at [p], at most [n] levels down, through readable
    directories that are not hidden and not models themselves. *)
Inductive reach : nat -> list string -> tree -> list string -> tree -> Prop :=
| reach_here n p d : reach n p d p d
| reach_in n p d es name c p' d' :
    ReadDir d = Ok es -> p = [] \/ hasWeights es = false -> (name, c) ∈ es -> is_dir c = true -> has_prefix name "." = false ->
    reach n (p ++ [name]) c p' d' -> reach (S n) p d p' d'.
Definition model_in (root : string) (n : nat) (p : list string) (d : tree) (p' : list string) (m : ScannedModel) : Prop :=
  exists d' es, reach n p d p' d' /\ p' <> [] /\ ReadDir d' = Ok es /\ hasWeights es = true /\ m ∈ dir_models root (rel_of p') d' es.

Lemma append_assoc (a b c : string) : (a +:+ b) +:+ c = a +:+ (b +:+ c).
Proof. induction a as [|ch a IH]; [done|]. change (String.String ch ((a +:+ b) +:+ c) = String.String ch (a +:+ (b +:+ c))). by rewrite IH. Qed.
Lemma join_snoc p x : p <> [] -> join "/" (p ++ [x]) = join "/" p +:+ "/" +:+ x.
Proof.
  intros Hp. induction p as [|y p IH]; [done|]. destruct p as [|z p]; [done|]. cbn [app].
  change (join "/" (y :: z :: p)) with (y +:+ "/" +:+ join "/" (z :: p)).
  change (join "/" (y :: z :: p ++ [x])) with (y +:+ "/" +:+ join "/" ((z :: p) ++ [x])). rewrite IH by done.
  by rewrite !append_assoc.
Qed.
Lemma rel_of_nil p : Forall proper p -> rel_of p = "" <-> p = [].
Proof.
  intros Hp. split; [|by intros ->]. intros E. destruct p as [|x p]; [done|]. exfalso.
  assert (Hnil : x :: p <> []) by done. pose proof (split_join (x :: p) Hnil) as Hs. clear Hnil. unfold rel_of in E. rewrite E in Hs. change (split_slash "") with [""] in Hs.
  inversion Hp as [|? ? Hx Hp']; subst. assert (Hno : Forall (fun x => existsb (is_char 47) (bytes x) = false) (x :: p)).
  { constructor; [by destruct Hx as [(_ & _ & ?) _]|]. eapply Forall_impl; [exact Hp'|]. by intros ? [(_ & _ & ?) _]. }
  specialize (Hs Hno). injection Hs as <- _. by apply proper_nonempty in Hx.
Qed.
Lemma child_rel p x : Forall proper p -> child (rel_of p) x = rel_of (p ++ [x]).
Proof.
  intros Hp. unfold child. case_bool_decide as E; [apply (rel_of_nil p Hp) in E; by subst p|].
  symmetry. apply join_snoc. intros ->. by apply E.
Qed.
Lemma models_below_iff root n p d m : Forall proper p -> tree_ok d ->
  m ∈ models_below root n (rel_of p) d <-> exists p', model_in root n p d p' m.
Proof.
  revert p d. induction n as [|n IH]; intros p d Hp Hok; cbn [models_below].
  - destruct (ReadDir d) as [es|e] eqn:E.
    + destruct (negb (bool_decide (rel_of p = "")) && hasWeights es) eqn:Ew.
      * apply andb_true_iff in Ew as [Hne Hw]. apply negb_true_iff, bool_decide_eq_false in Hne. rewrite rel_of_nil in Hne by done. split.
        -- intros Hm. exists p, d, es. split; [constructor|done].
        -- intros (p' & d' & es' & Hr & _ & E' & _ & Hm). inversion Hr; subst. by assert (es' = es) as -> by congruence.
      * split; [intros Hbad; by apply elem_of_nil in Hbad|]. intros (p' & d' & es' & Hr & Hne & E' & Hw & _). inversion Hr; subst.
        assert (es' = es) as -> by congruence. rewrite Hw, andb_true_r in Ew. apply negb_false_iff, bool_decide_eq_true in Ew. by apply rel_of_nil in Ew.
    + split; [intros Hbad; by apply elem_of_nil in Hbad|]. intros (p' & d' & es' & Hr & _ & E' & _). inversion Hr; subst. congruence.
  - destruct (ReadDir d) as [es|e] eqn:E.
    2: { split; [intros Hbad; by apply elem_of_nil in Hbad|]. intros (p' & d' & es' & Hr & _ & E' & _). inversion Hr; subst; congruence. }
    destruct (negb (bool_decide (rel_of p = "")) && hasWeights es) eqn:Ew.
    + apply andb_true_iff in Ew as [Hne Hw]. apply negb_true_iff, bool_decide_eq_false in Hne. rewrite rel_of_nil in Hne by done. split.
      * intros Hm. exists p, d, es. split; [constructor|done].
      * intros (p' & d' & es' & Hr & _ & E' & _ & Hm). inversion Hr as [|? ? ? es0 name c ? ? E0 [?|Hw0]]; subst; [by assert (es' = es) as -> by congruence|done|].
        assert (es0 = es) as -> by congruence. congruence.
    + assert (Hstop : p = [] \/ hasWeights es = false).
      { apply andb_false_iff in Ew as [Hne|Hw]; [left|by right]. apply negb_false_iff, bool_decide_eq_true in Hne. by apply rel_of_nil in Hne. }
      destruct (tree_ok_read _ _ Hok E) as [_ Hes]. rewrite list_elem_of_In, in_flat_map. split.
      * intros ([name c] & Hin & Hm). cbn [fst snd] in Hm. apply list_elem_of_In in Hin.
        destruct (negb (is_dir c) || has_prefix name ".") eqn:Eh; [done|]. apply orb_false_iff in Eh as [Hd%negb_false_iff Hh].
        destruct (Hes name c Hin) as [Hname Hc]. rewrite child_rel in Hm by done. apply list_elem_of_In in Hm.
        apply IH in Hm as (p' & d' & es' & Hr & Hrest); [|apply Forall_app; by split; [|constructor]|done].
        exists p', d', es'. split; [by eapply reach_in|done].
      * intros (p' & d' & es' & Hr & Hne & E' & Hw & Hm). inversion Hr as [|? ? ? es0 name c ? ? E0 _ Hin Hd Hh Hr']; subst.
        -- assert (es' = es) as -> by congruence. destruct Hstop as [?|?]; [done|congruence].
        -- assert (es0 = es) as -> by congruence. exists (name, c). split; [by apply list_elem_of_In|]. cbn [fst snd]. rewrite Hd, Hh. cbn [negb orb].
           destruct (Hes name c Hin) as [Hname Hc]. rewrite child_rel by done. apply list_elem_of_In, IH; [apply Forall_app; by split; [|constructor]|done|].
           by exists p', d', es'.
Qed.

Section Scan.
Context `{DiskFaults}.
Lemma lstat_ok p t t' : tree_ok t -> lstat_at p t = Ok t' -> tree_ok t'.
Proof.
  revert t. induction p as [|x p IH]; intros t Hok; cbn [lstat_at]; [by intros [= <-]|].
  destruct (follow t) as [d|] eqn:Ef; [|done]. pose proof (follow_ok _ _ Hok Ef) as Hd. destruct d as [|r es| |]; try done.
  destruct (entry x es) as [c|] eqn:Ee; [|done]. apply IH. apply tree_ok_entries in Hd as [_ Hc].
  assert (Hin : (x, c) ∈ es).
  { clear -Ee. induction es as [|[n t] es IH]; [done|]. cbn in Ee. case_bool_decide; [simplify_eq; set_solver|]. set_solver. }
  by apply (Hc x).
Qed.
Lemma stat_ok p t t' : tree_ok t -> stat_at p t = Ok t' -> tree_ok t'.
Proof.
  unfold stat_at. intros Hok. destruct (lstat_at p t) as [d|] eqn:E; [|done]. apply lstat_ok in E; [|done].
  destruct (follow d) as [d'|] eqn:Ef; [|done]. intros [= <-]. by eapply follow_ok.
Qed.
Definition storage_model (fs : tree) (root : string) (p : list string) (m : ScannedModel) : Prop :=
  exists d, Stat fs (Clean root) = Ok d /\ model_in (Clean root) maxDepth [] d p m.

Lemma string_le_antisym a b : string_le a b = true -> string_le b a = true -> a = b.
Proof. apply String.leb_antisym. Qed.
Lemma scan_le_trans a b c : scan_le a b = true -> scan_le b c = true -> scan_le a c = true.
Proof.
  unfold scan_le. destruct (decide (sm_ModelRef a = sm_ModelRef b)) as [E|E]; destruct (decide (sm_ModelRef b = sm_ModelRef c)) as [F|F].
  - rewrite E, F, !(bool_decide_eq_true_2 (sm_ModelRef c = sm_ModelRef c)) by done. cbn [negb].
    destruct (decide (sm_Format a = sm_Format b)) as [E'|E']; destruct (decide (sm_Format b = sm_Format c)) as [F'|F'].
    + rewrite E', F', !(bool_decide_eq_true_2 (sm_Format c = sm_Format c)) by done. apply string_le_trans.
    + rewrite E', (bool_decide_eq_true_2 (sm_Format b = sm_Format b)), (bool_decide_eq_false_2 _ F') by done. by cbn [negb].
    + rewrite <- F', (bool_decide_eq_true_2 (sm_Format b = sm_Format b)), (bool_decide_eq_false_2 _ E') by done. by cbn [negb].
    + rewrite (bool_decide_eq_false_2 _ E'), (bool_decide_eq_false_2 _ F'). cbn [negb]. intros H1 H2.
      rewrite bool_decide_eq_false_2; [by eapply string_le_trans|]. intros G. rewrite G in H1. by apply F', string_le_antisym.
  - rewrite E, (bool_decide_eq_true_2 (sm_ModelRef b = sm_ModelRef b)), (bool_decide_eq_false_2 _ F) by done. by cbn [negb].
  - rewrite <- F, (bool_decide_eq_true_2 (sm_ModelRef b = sm_ModelRef b)), (bool_decide_eq_false_2 _ E) by done. by cbn [negb].
  - rewrite (bool_decide_eq_false_2 _ E), (bool_decide_eq_false_2 _ F). cbn [negb]. intros H1 H2.
    rewrite bool_decide_eq_false_2; [by eapply string_le_trans|]. intros G. rewrite G in H1. by apply F, string_le_antisym.
Qed.
Lemma scan_le_total a b : scan_le a b = false -> scan_le b a = true.
Proof.
  unfold scan_le. destruct (bool_decide (sm_ModelRef a = sm_ModelRef b)) eqn:E1; cbn [negb].
  - apply bool_decide_eq_true in E1. rewrite (bool_decide_eq_true_2 _ (eq_sym E1)). cbn [negb].
    destruct (bool_decide (sm_Format a = sm_Format b)) eqn:E2; cbn [negb].
    + apply bool_decide_eq_true in E2. rewrite (bool_decide_eq_true_2 _ (eq_sym E2)). apply string_le_total.
    + apply bool_decide_eq_false in E2. rewrite bool_decide_eq_false_2 by congruence. apply string_le_total.
  - apply bool_decide_eq_false in E1. rewrite bool_decide_eq_false_2 by congruence. apply string_le_total.
Qed.
Lemma Scan_lists fs root : tree_ok fs ->
  match Scan fs root with
  | Err _ => (forall d es, Stat fs (Clean root) = Ok d -> ReadDir d <> Ok es)
  | Ok (out, truncated) =>
      StronglySorted (fun a b => scan_le a b = true) out /\ (length out <= MaxCandidates)%nat /\
      (forall m, m ∈ out -> exists p, storage_model fs root p m) /\
      if truncated then length out = MaxCandidates else forall m p, storage_model fs root p m -> m ∈ out
  end.
Proof.
  intros Hfs. unfold Scan. destruct (Stat fs (Clean root)) as [d|e] eqn:Es; [|by intros d es [= ]].
  assert (Hd : tree_ok d).
  { unfold Stat in Es. destruct (stat_fault _); [done|]. by eapply stat_ok. }
  destruct (is_dir d) eqn:Edir; cbn [negb].
  2: { intros d' es [= <-] (es0 & -> & _)%ReadDir_Ok. done. }
  destruct (ReadDir d) as [es|e] eqn:Er.
  2: { change maxDepth with (S 5). cbn [walk]. rewrite Er. cbn. intros d' es [= <-]. congruence. }
  destruct (walk_adds (Clean root) maxDepth "" d (MkScanner [] false) Hd) as (s' & -> & Ho & Hf & Ht); [unfold room; cbn; lia|by exists es|].
  cbn [sc_out sc_truncated app] in *. assert (Hin : forall m, m ∈ models_below (Clean root) maxDepth "" d <-> exists p, storage_model fs root p m).
  { intros m. rewrite (models_below_iff (Clean root) maxDepth [] d m); [|done..]. unfold storage_model. split.
    - intros [p Hp]. exists p, d. done.
    - intros (p & d' & Hd' & Hp). assert (d' = d) as -> by congruence. by exists p. }
  split; [apply sort_by_sorted; [apply scan_le_total|apply scan_le_trans]|]. split; [rewrite length_sort_by, Ho, length_take; lia|]. split.
  - intros m Hm. apply elem_of_sort_by in Hm. apply Hin. rewrite Ho in Hm. eapply elem_of_take in Hm as (i & Hi & _). by eapply list_elem_of_lookup_2.
  - destruct (sc_truncated s') eqn:Et.
    + destruct (Ht eq_refl) as [?|?]; [done|]. by rewrite length_sort_by.
    + destruct (Hf eq_refl) as [_ Hl]. intros m p Hp. apply elem_of_sort_by. rewrite Ho, take_ge by done. apply Hin. by exists p.
Qed.
(** C21: a scan fails only for a storage root that cannot be looked at, is not
    a directory or cannot be read.  Otherwise it answers with models of model
    directories only - those that hold a weight file and are reached within six
    levels through directories that do not -, with all of them unless it says
    that it stopped, and with at most 500, in order; and it says that it
    stopped only with 500. *)
Theorem Scan_complete fs root : tree_ok fs ->
  match Scan fs root with
  | Err _ => (forall d es, Stat fs (Clean root) = Ok d -> ReadDir d <> Ok es)
  | Ok (out, truncated) =>
      StronglySorted (fun a b => scan_le a b = true) out /\ (length out <= MaxCandidates)%nat /\
      (forall m, m ∈ out -> exists p, storage_model fs root p m) /\
      if truncated then length out = MaxCandidates else forall m p, storage_model fs root p m -> m ∈ out
  end.
Proof. apply Scan_lists. Qed.
End Scan.

Section Edits.
Context `{DiskFaults}.

End Edits.


Section Storage.
Context `{DiskFaults}.

End Storage.

Section Delete.
Context `{DiskFaults}.
(** The context of a delete that got past its look at the directory. *)
Section Directory.
Variables (dir q : string) (P : list string) (es0 es : list (string * tree)) (fs : tree).
Hypothesis dir_clean : Clean dir = dir.
Hypothesis dir_at : elements dir = P.
Hypothesis dir_below : exists p x, P = p ++ [x].
Hypothesis dir_entries : stat_at P fs = Ok (Directory true es0).
Hypothesis dir_read : es = sort_by by_entry es0.
Hypothesis names_ok : forall n c, (n, c) ∈ es -> proper n.
Lemma in_entries n c : (n, c) ∈ es <-> (n, c) ∈ es0.
Proof. rewrite dir_read. apply elem_of_sort_by. Qed.
End Directory.
End Delete.

(** ** Import, then delete *)
Section Compose.
Context `{DiskFaults}.


End Compose.

(** ** Concrete disks *)
Definition sound_disk : DiskFaults := {| stat_fault := fun _ => None; remove_fault := fun _ => None; wreck := fun _ t => Some t |}.
Definition storage (models : list (string * tree)) : tree :=
  Directory true [("srv", Directory true [("models", Directory true models)])].
Definition weights_of (l : list (string * Z)) : tree := Directory true (map (fun e => (e.1, Regular (Some e.2))) l).
Definition two_labels : tree := storage
  [("org", Directory true [("m", weights_of [("m-Q4_K_M.gguf", 10); ("m-Q8_0.gguf", 20); ("README.md", 1)]);
                           ("n", weights_of [("model.safetensors", 7); ("config.json", 2)])])].
Definition model_Q4 : ScannedModel := MkScannedModel "org/m" "Q4_K_M" "gguf" 10 "m-Q4_K_M.gguf" false.
Definition model_Q8 : ScannedModel := MkScannedModel "org/m" "Q8_0" "gguf" 20 "m-Q8_0.gguf" false.
Definition model_n : ScannedModel := MkScannedModel "org/n" "" "safetensors" 9 "" false.
Lemma plain_word s : bytes s <> [] -> bytes s <> bytes "." -> bytes s <> bytes ".." -> existsb (is_char 47) (bytes s) = false -> proper s.
Proof. intros H1 H2 H3 H4. split; [split; [|split]|]; [by intros ->|by intros ->|done|by intros ->]. Qed.
Lemma two_labels_ok : tree_ok two_labels.
Proof.
  repeat (split || (apply plain_word; vm_compute; congruence)); vm_compute; try (repeat constructor; set_solver).
Qed.
Example two_labels_scan :
  @Scan sound_disk two_labels "/srv/models" = Ok ([model_Q4; model_Q8; model_n], false).
Proof. by vm_compute. Qed.
Lemma Scan_complete_witness : tree_ok two_labels /\
  match @Scan sound_disk two_labels "/srv/models" with
  | Err _ => (forall d es, @Stat sound_disk two_labels (Clean "/srv/models") = Ok d -> ReadDir d <> Ok es)
  | Ok (out, truncated) =>
      StronglySorted (fun a b => scan_le a b = true) out /\ (length out <= MaxCandidates)%nat /\
      (forall m, m ∈ out -> exists p, @storage_model sound_disk two_labels "/srv/models" p m) /\
      if truncated then length out = MaxCandidates else forall m p, @storage_model sound_disk two_labels "/srv/models" p m -> m ∈ out
  end.
Proof. split; [exact two_labels_ok|]. exact (@Scan_complete sound_disk two_labels "/srv/models" two_labels_ok). Defined.

(** What the check before an import does not see.  Removing the last gguf file
    of a directory removes the directory, with the safetensors model in it. *)
Definition mixed : tree := storage [("org", Directory true [("st", weights_of [("model.safetensors", 5); ("st-Q4_0.gguf", 3)])])].
Definition after (fs : tree) (ref q : string) : tree := snd (@removeModel sound_disk "/srv/models" ref q "gguf" fs).
Definition scanned (fs : tree) : list ScannedModel :=
  match @Scan sound_disk fs "/srv/models" with Ok (l, _) => (validScannedModels l).1 | Err _ => [] end.
Definition unblocked (fs : tree) (m : ScannedModel) (q : string) : bool :=
  match importBlock (scanned fs) m q with None => existsb (fun o => bool_decide (sm_FileName o = sm_FileName m)) (scanned fs) | Some _ => false end.
Example delete_takes_safetensors :
  unblocked mixed (MkScannedModel "org/st" "Q4_0" "gguf" 3 "st-Q4_0.gguf" false) "Q4_0" = true /\
  map sm_Format (scanned mixed) = ["gguf"; "safetensors"] /\ scanned (after mixed "org/st" "Q4_0") = [].
Proof. by vm_compute. Qed.
(** A label may occur in the number of another model's shard. *)
Definition shards : tree := storage [("org", Directory true [("s", weights_of
  [("a-00001-of-00002.gguf", 1); ("a-00002-of-00002.gguf", 1);
   ("b-00001-of-00003.gguf", 1); ("b-00002-of-00003.gguf", 1); ("b-00003-of-00003.gguf", 1)])])].
Example delete_takes_shard :
  unblocked shards (MkScannedModel "org/s" "UNKNOWN" "gguf" 2 "a-00001-of-00002.gguf" false) "00002" = true /\
  map sm_SizeBytes (scanned shards) = [2; 3] /\ map sm_SizeBytes (scanned (after shards "org/s" "00002")) = [2].
Proof. by vm_compute. Qed.
(** A bracket in the path is read as a pattern: no gguf file is found, and the
    directory goes. *)
Definition bracketed : tree := storage [("m[1]", weights_of [("m-Q4_K_M.gguf", 10); ("m-Q8_0.gguf", 20)])].
Example delete_takes_bracketed :
  unblocked bracketed (MkScannedModel "m[1]" "Q4_K_M" "gguf" 10 "m-Q4_K_M.gguf" false) "Q4_K_M" = true /\
  map sm_FileName (scanned bracketed) = ["m-Q4_K_M.gguf"; "m-Q8_0.gguf"] /\ scanned (after bracketed "m[1]" "Q4_K_M") = [].
Proof. by vm_compute. Qed.
(** A weight file beside the directories of models hides them from the scan;
    deleting what the scan saw deletes them. *)
Definition hidden : tree := storage [("org", Directory true [("stray.gguf", Regular (Some 1)); ("m", weights_of [("m-Q4_K_M.gguf", 10)])])].
Example delete_takes_hidden :
  unblocked hidden (MkScannedModel "org" "UNKNOWN" "gguf" 1 "stray.gguf" false) "UNKNOWN" = true /\
  map sm_ModelRef (scanned hidden) = ["org"] /\
  lstat_at (elements "/srv/models/org/m/m-Q4_K_M.gguf") hidden = Ok (Regular (Some 10)) /\
  lstat_at (elements "/srv/models/org/m/m-Q4_K_M.gguf") (after hidden "org" "UNKNOWN") = Err ErrNotExist.
Proof. by vm_compute. Qed.
