(* ===== verification/GroupStore.v ===== *)
(** * The application group tables ([internal/db/app_groups.go])

    [app_groups], its AD mappings, the local members added by hand and the
    membership cache, with the constraints of migration 000043 that the
    statements can run into.  DNs compare ignoring case: a mapping is keyed by
    its group and the lower-cased DN, a cache row holds the lower-cased DN, the
    columns of the unique indexes.

    Then the facts of these tables: well-formedness of the tables and of the
    cache, what the queries return in a well-formed database, and that every
    statement keeps both. *)
From stdpp Require Import base list strings gmap.
From Stdlib Require Import ZArith Lia.
From Stdlib Require Import Ascii.
From Stdlib Require String.
From S2P Require Import Prelude Db Text AlertStore.
Local Open Scope string_scope.
Local Open Scope list_scope.
Local Open Scope Z_scope.

Definition ErrAppGroupNotFound : error := Sentinel "db.ErrAppGroupNotFound" "application group not found".
Definition ErrAppGroupNameTaken : error :=
  Sentinel "db.ErrAppGroupNameTaken" "an application group with that name already exists".
Definition ErrADGroupAlreadyMapped : error :=
  Sentinel "db.ErrADGroupAlreadyMapped" "that AD group is already mapped to this application group".

Definition isUniqueViolation (e : error) : bool := is_pg_code e "23505".
Definition isForeignKeyViolation (e : error) : bool := is_pg_code e "23503".

Record AppGroupSummary := MkGroupSummary {
  SummaryGroup : AppGroup; ADGroupCount : Z; LocalMemberCount : Z; MemberCount : Z
}.
Record AppGroupMember := MkMember {
  MemberUserID : string; MemberDisplayName : string; MemberTier : Tier;
  MemberLocalUsername : option string; ViaADGroups : list string; AddedManually : bool
}.

(** ** What the queries read *)

(** The unique index on [lower(name)]: some other row has the name. *)
Definition name_taken (name id : string) (w : World) : bool :=
  existsb (fun ig : string * AppGroup => equal_fold (GroupName ig.2) name && negb (bool_decide (ig.1 = id)))
    (map_to_list (w_groups w)).
(** [app_groups_name_length] *)
Definition name_length_ok (name : string) : bool := (1 <=? rune_count name) && (rune_count name <=? 64).
(** A nullable reference to [users]. *)
Definition user_ref (u : option string) (w : World) : bool :=
  match u with Some id => bool_decide (is_Some (w_users w !! id)) | None => true end.
Definition group_ref (id : string) (w : World) : bool := bool_decide (is_Some (w_groups w !! id)).

(** The mappings of a group: lower-cased DN and row. *)
Definition mappings_of (w : World) (group : string) : list (string * AppGroupADMapping) :=
  map (fun kd : (string * string) * AppGroupADMapping => (kd.1.2, kd.2))
    (List.filter (fun kd => bool_decide (kd.1.1 = group)) (map_to_list (w_admaps w))).
(** [EXISTS (SELECT 1 FROM app_group_ad_groups m WHERE lower(m.ad_group_dn) = d)] *)
Definition is_mapped (w : World) (d : string) : bool :=
  existsb (fun kd : (string * string) * AppGroupADMapping => bool_decide (kd.1.2 = d)) (map_to_list (w_admaps w)).
Definition cached (w : World) (user d : string) : bool := bool_decide ((user, d) ∈ w_member w).
(** The mapped AD groups through which a person is in the group. *)
Definition via (w : World) (group user : string) : list AppGroupADMapping :=
  map snd (List.filter (fun dm => cached w user dm.1) (mappings_of w group)).
Definition is_local (w : World) (group user : string) : bool := bool_decide (is_Some (w_locals w !! (group, user))).

(** [lowerDistinct] *)
Fixpoint lowerDistinct_loop (seen out : list string) (dns : list string) : list string :=
  match dns with
  | [] => rev out
  | dn :: dns' =>
      let l := to_lower dn in
      if bool_decide (l ∈ seen) then lowerDistinct_loop seen out dns'
      else lowerDistinct_loop (l :: seen) (l :: out) dns'
  end.
Definition lowerDistinct (dns : list string) : list string := lowerDistinct_loop [] [] dns.

(** [array_agg(DISTINCT ad_group_name)]: once each, in order. *)
Definition distinct_names (l : list AppGroupADMapping) : list string :=
  sort_by string_le (elements (list_to_set (C := gset string) (map MapName l))).

Definition member_row (w : World) (group : string) (u : User) : AppGroupMember :=
  MkMember (UserID u) (DisplayName u) (UTier u) (LocalUsername u)
    (distinct_names (via w group (UserID u))) (is_local w group (UserID u)).
(** [ORDER BY lower(u.display_name), u.id] *)
Definition by_display (x y : AppGroupMember) : bool :=
  if bool_decide (to_lower (MemberDisplayName x) = to_lower (MemberDisplayName y))
  then string_le (MemberUserID x) (MemberUserID y)
  else string_le (to_lower (MemberDisplayName x)) (to_lower (MemberDisplayName y)).
(** [WHERE l.user_id IS NOT NULL OR m.app_group_id IS NOT NULL] *)
Definition in_group (w : World) (group user : string) : bool :=
  is_local w group user || negb (Nat.eqb (length (via w group user)) 0).
Definition members_of (w : World) (group : string) : list AppGroupMember :=
  sort_by by_display (map (member_row w group)
    (List.filter (fun u => in_group w group (UserID u)) (map snd (map_to_list (w_users w))))).

(** The distinct people of a group: the UNION of the manual members and of the
    cache rows of a mapped group. *)
Definition member_ids (w : World) (group : string) : gset string :=
  list_to_set (map (fun kv : (string * string) * option string => kv.1.2)
    (List.filter (fun kv => bool_decide (kv.1.1 = group)) (map_to_list (w_locals w))))
  ∪ list_to_set (map fst (List.filter (fun c : string * string =>
      existsb (fun dm : string * AppGroupADMapping => bool_decide (dm.1 = c.2)) (mappings_of w group)) (elements (w_member w)))).
Definition summary (w : World) (ig : string * AppGroup) : AppGroupSummary :=
  MkGroupSummary ig.2 (Z.of_nat (length (mappings_of w ig.1)))
    (Z.of_nat (length (List.filter (fun kv : (string * string) * option string => bool_decide (kv.1.1 = ig.1))
      (map_to_list (w_locals w)))))
    (Z.of_nat (size (member_ids w ig.1))).

(** ** The statements of [AppGroupRepository] *)
Section Repository.
Context `{Env}.

Definition Create_db (name : string) (createdBy : option string) : M AppGroup :=
  map_err (fun e => if isUniqueViolation e then ErrAppGroupNameTaken else Errorf "create application group: " e "")
    (sql (fun w =>
      let id := gen_random_uuid (w_calls w) in
      let g := MkGroup id name createdBy (w_clock w) createdBy (w_clock w) in
      if negb (name_length_ok name) then inl (PgError "23514")
      else if group_ref id w || name_taken name id w then inl (PgError "23505")
      else if negb (user_ref createdBy w) then inl (PgError "23503")
      else inr (g, set_w_groups (<[id := g]> (w_groups w)) w))).

Definition FindByID_group (id : string) : M AppGroup :=
  r ← wrap "find application group: " (query (fun w => w_groups w !! id));
  match r with Some g => mret g | None => throw ErrAppGroupNotFound end.

Definition renamed (name : string) (by_ : option string) (now : Time) (g : AppGroup) : AppGroup :=
  set_GroupUpdatedAt now (set_GroupUpdatedBy by_ (set_GroupName name g)).
Definition Rename_db (id name : string) (updatedBy : option string) : M unit :=
  found ← map_err (fun e => if isUniqueViolation e then ErrAppGroupNameTaken else Errorf "rename application group: " e "")
    (sql (fun w =>
      if negb (group_ref id w) then inr (false, w)
      else if negb (name_length_ok name) then inl (PgError "23514")
      else if name_taken name id w then inl (PgError "23505")
      else if negb (user_ref updatedBy w) then inl (PgError "23503")
      else inr (true, set_w_groups (alter (renamed name updatedBy (w_clock w)) id (w_groups w)) w)));
  guard_err found ErrAppGroupNotFound.

(** The rows that go with a group: [ON DELETE CASCADE]. *)
Definition drop_group (id : string) (w : World) : World :=
  set_w_audiences ((fun l => List.filter (fun au => negb (bool_decide (au = AudienceGroup id))) l) <$> w_audiences w)
  (set_w_locals (filter (fun kv : (string * string) * option string => kv.1.1 <> id) (w_locals w))
  (set_w_admaps (filter (fun kd : (string * string) * AppGroupADMapping => kd.1.1 <> id) (w_admaps w))
  (set_w_groups (delete id (w_groups w)) w))).
Definition Delete_db (id : string) : M unit :=
  found ← wrap "delete application group: " (sql (fun w =>
    inr (group_ref id w, if group_ref id w then drop_group id w else w)));
  guard_err found ErrAppGroupNotFound.

(** [ORDER BY lower(g.name)] *)
Definition ListWithCounts : M (list AppGroupSummary) :=
  wrap "list application groups: " (query (fun w =>
    sort_by (fun x y => string_le (to_lower (GroupName (SummaryGroup x))) (to_lower (GroupName (SummaryGroup y))))
      (map (summary w) (map_to_list (w_groups w))))).

Definition AddADMapping (groupID dn name : string) (addedBy : option string) : M unit :=
  map_err (fun e => if isUniqueViolation e then ErrADGroupAlreadyMapped
                    else if isForeignKeyViolation e then ErrAppGroupNotFound else Errorf "map AD group: " e "")
    (sql (fun w =>
      let k := (groupID, to_lower dn) in
      if bool_decide (is_Some (w_admaps w !! k)) then inl (PgError "23505")
      else if negb (group_ref groupID w && user_ref addedBy w) then inl (PgError "23503")
      else inr (tt, set_w_admaps (<[k := MkADMapping dn name addedBy (w_clock w)]> (w_admaps w)) w))).

Definition RemoveADMapping (groupID dn : string) : M bool :=
  wrap "unmap AD group: " (sql (fun w =>
    let k := (groupID, to_lower dn) in
    inr (bool_decide (is_Some (w_admaps w !! k)), set_w_admaps (delete k (w_admaps w)) w))).

(** [ORDER BY lower(ad_group_name)] *)
Definition ListADMappings (groupID : string) : M (list AppGroupADMapping) :=
  wrap "list AD group mappings: " (query (fun w =>
    sort_by (fun x y => string_le (to_lower (MapName x)) (to_lower (MapName y))) (map snd (mappings_of w groupID)))).

(** [SELECT DISTINCT ON (lower(ad_group_dn))]: one spelling of each DN. *)
Fixpoint distinct_on (seen : list string) (l : list (string * string)) : list string :=
  match l with
  | [] => []
  | (k, dn) :: l' => if bool_decide (k ∈ seen) then distinct_on seen l' else dn :: distinct_on (k :: seen) l'
  end.
Definition mapped_dns (w : World) : list string :=
  distinct_on [] (sort_by (fun x y => string_le x.1 y.1)
    (map (fun kd : (string * string) * AppGroupADMapping => (kd.1.2, MapDN kd.2)) (map_to_list (w_admaps w)))).
Definition MappedDNs : M (list string) := wrap "list mapped AD groups: " (query mapped_dns).

Definition AddLocalMember_db (groupID userID : string) (addedBy : option string) : M bool :=
  map_err (fun e => if isForeignKeyViolation e then ErrAppGroupNotFound else Errorf "add local group member: " e "")
    (sql (fun w =>
      if is_local w groupID userID then inr (false, w)
      else if negb (group_ref groupID w && user_ref (Some userID) w && user_ref addedBy w) then inl (PgError "23503")
      else inr (true, set_w_locals (<[(groupID, userID) := addedBy]> (w_locals w)) w))).

Definition RemoveLocalMember_db (groupID userID : string) : M bool :=
  wrap "remove local group member: " (sql (fun w =>
    inr (is_local w groupID userID, set_w_locals (delete (groupID, userID) (w_locals w)) w))).

Definition Members (groupID : string) : M (list AppGroupMember) :=
  wrap "list group members: " (query (fun w => members_of w groupID)).

Definition user_rows (user : string) (dns : list string) : gset (string * string) :=
  list_to_set (map (fun d => (user, d)) dns).
Definition ReplaceUserMemberships (userID : string) (dns : list string) : M unit :=
  let lowered := lowerDistinct dns in
  transaction "begin replace user memberships: " "commit replace user memberships: " (fun _ =>
    wrap "remove stale memberships: " (exec (fun w =>
      set_w_member (filter (fun c : string * string => ~ (c.1 = userID /\ c.2 ∉ lowered)) (w_member w)) w)) ;;
    when (negb (Nat.eqb (length lowered) 0))
      (wrap "record memberships: " (sql (fun w =>
        if negb (user_ref (Some userID) w) then inl (PgError "23503")
        else inr (tt, set_w_member (w_member w ∪ user_rows userID lowered) w))))).

(** An upsert that would touch one row twice is refused (SQLSTATE 21000). *)
Definition dn_rows (dn : string) (userIDs : list string) : gset (string * string) :=
  list_to_set (map (fun u => (u, to_lower dn)) userIDs).
Definition ReplaceMembersOfDN (dn : string) (userIDs : list string) : M unit :=
  transaction "begin replace group members: " "commit replace group members: " (fun _ =>
    wrap "remove stale members: " (exec (fun w =>
      set_w_member (filter (fun c : string * string => ~ (c.2 = to_lower dn /\ c.1 ∉ userIDs)) (w_member w)) w)) ;;
    when (negb (Nat.eqb (length userIDs) 0))
      (wrap "record members: " (sql (fun w =>
        if negb (bool_decide (NoDup userIDs)) then inl (PgError "21000")
        else if negb (forallb (fun u => user_ref (Some u) w) userIDs) then inl (PgError "23503")
        else inr (tt, set_w_member (w_member w ∪ dn_rows dn userIDs) w))))).

Definition pruned (w : World) : gset (string * string) :=
  filter (fun c : string * string => is_mapped w c.2 = true) (w_member w).
Definition PruneUnmappedMemberships : M Z :=
  wrap "prune unmapped memberships: " (sql (fun w =>
    inr (Z.of_nat (size (w_member w) - size (pruned w)), set_w_member (pruned w) w))).

(** [UserRepository.FindIDsByLDAPDNs] *)
Definition ids_by_dns (lowered : list string) (w : World) : list string :=
  map fst (List.filter (fun iu : string * User =>
    match LDAPDN iu.2 with Some d => bool_decide (to_lower d ∈ lowered) | None => false end) (map_to_list (w_users w))).
Definition FindIDsByLDAPDNs (dns : list string) : M (list string) :=
  let lowered := lowerDistinct dns in
  if Nat.eqb (length lowered) 0 then mret []
  else wrap "find users by LDAP DN: " (query (ids_by_dns lowered)).
End Repository.

(** ** Folding *)
Lemma lower_char_idemp c : lower_char (lower_char c) = lower_char c.
Proof. destruct c as [[] [] [] [] [] [] [] []]; reflexivity. Qed.
Lemma to_lower_idemp s : to_lower (to_lower s) = to_lower s.
Proof.
  unfold to_lower. rewrite bytes_of_bytes. f_equal. rewrite map_map. apply map_ext, lower_char_idemp.
Qed.
Lemma equal_fold_iff s t : equal_fold s t = true <-> to_lower s = to_lower t.
Proof. apply bool_decide_eq_true. Qed.
Lemma equal_fold_sym s t : equal_fold s t = equal_fold t s.
Proof. apply bool_decide_ext. naive_solver. Qed.

(** ** Membership of the queries' lists *)
Lemma name_taken_iff name id w : name_taken name id w = true <->
  exists i g, w_groups w !! i = Some g /\ i <> id /\ to_lower (GroupName g) = to_lower name.
Proof.
  unfold name_taken. rewrite existsb_map. setoid_rewrite andb_true_iff. setoid_rewrite equal_fold_iff.
  setoid_rewrite negb_true_iff. setoid_rewrite bool_decide_eq_false. naive_solver.
Qed.
Lemma is_mapped_iff w d : is_mapped w d = true <-> exists g, is_Some (w_admaps w !! (g, d)).
Proof.
  unfold is_mapped. rewrite existsb_map. setoid_rewrite bool_decide_eq_true. split.
  - intros ([g d'] & m & Hm & <-). by exists g, m.
  - intros (g & m & Hm). by exists (g, d), m.
Qed.
Lemma elem_of_mappings w g d m : (d, m) ∈ mappings_of w g <-> w_admaps w !! (g, d) = Some m.
Proof.
  unfold mappings_of. rewrite list_elem_of_fmap. setoid_rewrite elem_of_List_filter.
  setoid_rewrite bool_decide_eq_true. split.
  - intros ([[g' d'] m'] & [= -> ->] & <- & Hin). by apply elem_of_map_to_list in Hin.
  - intros Hm. exists ((g, d), m). by rewrite elem_of_map_to_list.
Qed.
Lemma via_nonempty w g u : via w g u <> [] <->
  exists d, is_Some (w_admaps w !! (g, d)) /\ (u, d) ∈ w_member w.
Proof.
  unfold via. split.
  - intros Hne. destruct (List.filter _ _) as [|[d m] l] eqn:E; [done|].
    assert (Hin : (d, m) ∈ List.filter (fun dm => cached w u dm.1) (mappings_of w g)) by (rewrite E; left).
    apply elem_of_List_filter in Hin as [Hc Hin]. apply elem_of_mappings in Hin.
    exists d. split; [by eexists|]. by apply bool_decide_eq_true in Hc.
  - intros (d & [m Hm] & Hc) Hnil.
    assert (Hin : (d, m) ∈ List.filter (fun dm => cached w u dm.1) (mappings_of w g)).
    { apply elem_of_List_filter. split; [by apply bool_decide_eq_true|by apply elem_of_mappings]. }
    destruct (List.filter _ _); [by apply elem_of_nil in Hin|done].
Qed.

(** [lowerDistinct] keeps what was asked for, lower-cased, once each. *)
Lemma lowerDistinct_loop_spec dns : forall seen out, NoDup out -> (forall x, x ∈ seen <-> x ∈ out) ->
  NoDup (lowerDistinct_loop seen out dns) /\
  forall d, d ∈ lowerDistinct_loop seen out dns <-> d ∈ out \/ d ∈ map to_lower dns.
Proof.
  induction dns as [|dn dns IH]; intros seen out Hnd Hso; simpl.
  - rewrite <-Permutation_rev. split; [done|]. intros d. rewrite <-Permutation_rev, elem_of_nil. naive_solver.
  - case_bool_decide as Hs.
    + destruct (IH seen out) as [Hn He]; [done..|]. split; [done|]. intros d. rewrite He, elem_of_cons.
      apply Hso in Hs. naive_solver.
    + destruct (IH (to_lower dn :: seen) (to_lower dn :: out)) as [Hn He].
      * constructor; [by rewrite <-Hso|done].
      * intros x. rewrite !elem_of_cons. naive_solver.
      * split; [done|]. intros d. rewrite He, !elem_of_cons. naive_solver.
Qed.
Lemma elem_of_lowerDistinct dns d : d ∈ lowerDistinct dns <-> exists x, x ∈ dns /\ d = to_lower x.
Proof.
  unfold lowerDistinct. destruct (lowerDistinct_loop_spec dns [] []) as [_ ->]; [constructor|done|].
  rewrite elem_of_nil, list_elem_of_fmap. naive_solver.
Qed.
Lemma NoDup_lowerDistinct dns : NoDup (lowerDistinct dns).
Proof. by destruct (lowerDistinct_loop_spec dns [] []) as [? _]; [constructor|done|]. Qed.

(** ** Well-formedness

    A users row and a group row carry their own key; no two groups have the
    same name ignoring case and every name is 1 to 64 characters; a mapping
    belongs to a group and is keyed by its lower-cased DN; a local member is a
    local account in an existing group; a cache row is about a known person
    and holds a lower-cased DN. *)
Record groups_wf (w : World) : Prop := MkGroupsWf {
  gw_users : forall id u, w_users w !! id = Some u -> UserID u = id;
  gw_groups : forall id g, w_groups w !! id = Some g -> GroupID g = id /\ name_length_ok (GroupName g) = true;
  gw_names : forall id id' g g', w_groups w !! id = Some g -> w_groups w !! id' = Some g' ->
    to_lower (GroupName g) = to_lower (GroupName g') -> id = id';
  gw_maps : forall g d m, w_admaps w !! (g, d) = Some m -> is_Some (w_groups w !! g) /\ d = to_lower (MapDN m);
  gw_locals : forall g u by_, w_locals w !! (g, u) = Some by_ ->
    is_Some (w_groups w !! g) /\ exists row, w_users w !! u = Some row /\ LocalUsername row <> None;
  gw_member : forall u d, (u, d) ∈ w_member w -> is_Some (w_users w !! u) /\ to_lower d = d
}.

(** The tables the invariant is about. *)
Definition group_tables (w : World) := (w_users w, w_groups w, w_admaps w, w_locals w, w_member w).
Lemma groups_wf_tables w w' : group_tables w = group_tables w' -> groups_wf w -> groups_wf w'.
Proof.
  unfold group_tables. intros [= Hu Hg Hm Hl Hc] Hw.
  constructor; rewrite <-?Hu, <-?Hg, <-?Hm, <-?Hl, <-?Hc; apply Hw.
Qed.

Lemma group_ref_iff id w : group_ref id w = true <-> is_Some (w_groups w !! id).
Proof. apply bool_decide_eq_true. Qed.
Lemma user_ref_iff id w : user_ref (Some id) w = true <-> is_Some (w_users w !! id).
Proof. apply bool_decide_eq_true. Qed.

Lemma insert_group_wf w g : groups_wf w ->
  w_groups w !! GroupID g = None -> name_length_ok (GroupName g) = true ->
  name_taken (GroupName g) (GroupID g) w = false ->
  groups_wf (set_w_groups (<[GroupID g := g]> (w_groups w)) w).
Proof.
  intros Hw Hnew Hlen Hname.
  assert (Hfree : forall i g', w_groups w !! i = Some g' -> to_lower (GroupName g') <> to_lower (GroupName g)).
  { intros i g' Hi Heq. apply not_true_iff_false in Hname. apply Hname, name_taken_iff.
    exists i, g'. split_and!; [done|congruence|done]. }
  assert (Hkeep : forall i, is_Some (w_groups w !! i) -> is_Some (<[GroupID g := g]> (w_groups w) !! i)).
  { intros i Hi. apply lookup_insert_is_Some. destruct (decide (GroupID g = i)); auto. }
  constructor; simpl; try apply Hw.
  - intros id g' [[<- <-]|[Hn Hg]]%lookup_insert_Some; [done|]. by apply (gw_groups _ Hw).
  - intros id id' g1 g2 [[<- <-]|[Hn Hg]]%lookup_insert_Some [[<- <-]|[Hn' Hg']]%lookup_insert_Some Heq.
    + done.
    + by destruct (Hfree _ _ Hg').
    + by destruct (Hfree _ _ Hg).
    + by eapply (gw_names _ Hw).
  - intros gid d m Hm. destruct (gw_maps _ Hw _ _ _ Hm) as [Hs ->]. split; auto.
  - intros gid u by_ Hl. destruct (gw_locals _ Hw _ _ _ Hl) as [Hs Hr]. split; auto.
Qed.

Lemma rename_group_wf w id name by_ now : groups_wf w ->
  name_length_ok name = true -> name_taken name id w = false ->
  groups_wf (set_w_groups (alter (renamed name by_ now) id (w_groups w)) w).
Proof.
  intros Hw Hlen Hname.
  assert (Hfree : forall i g', w_groups w !! i = Some g' -> i <> id -> to_lower (GroupName g') <> to_lower name).
  { intros i g' Hi Hn Heq. apply not_true_iff_false in Hname. apply Hname, name_taken_iff. eauto. }
  assert (Hkeep : forall i, is_Some (w_groups w !! i) -> is_Some (alter (renamed name by_ now) id (w_groups w) !! i)).
  { intros i. by rewrite lookup_alter_is_Some. }
  constructor; simpl; try apply Hw.
  - intros i g [(<- & g0 & Hg & ->)|[Hn Hg]]%lookup_alter_Some; simpl.
    + destruct (gw_groups _ Hw _ _ Hg) as [<- _]. done.
    + by apply (gw_groups _ Hw).
  - intros i i' g g' [(<- & g0 & Hg & ->)|[Hn Hg]]%lookup_alter_Some [(<- & g0' & Hg' & ->)|[Hn' Hg']]%lookup_alter_Some;
      simpl; intros Heq; [done| | |by eapply (gw_names _ Hw)].
    + by destruct (Hfree _ _ Hg').
    + by destruct (Hfree _ _ Hg).
  - intros gid d m Hm. destruct (gw_maps _ Hw _ _ _ Hm) as [Hs ->]. split; auto.
  - intros gid u b Hl. destruct (gw_locals _ Hw _ _ _ Hl) as [Hs Hr]. split; auto.
Qed.

Lemma drop_group_wf w id : groups_wf w -> groups_wf (drop_group id w).
Proof.
  intros Hw. constructor; simpl; try apply Hw.
  - intros i g [_ Hg]%lookup_delete_Some. by apply (gw_groups _ Hw).
  - intros i i' g g' [_ Hg]%lookup_delete_Some [_ Hg']%lookup_delete_Some. by eapply (gw_names _ Hw).
  - intros g d m [Hm Hne]%map_lookup_filter_Some. simpl in Hne.
    rewrite lookup_delete_ne by congruence. by apply (gw_maps _ Hw).
  - intros g u by_ [Hl Hne]%map_lookup_filter_Some. simpl in Hne.
    rewrite lookup_delete_ne by congruence. by apply (gw_locals _ Hw) in Hl.
Qed.

Lemma insert_mapping_wf w g dn name by_ now : groups_wf w -> is_Some (w_groups w !! g) ->
  groups_wf (set_w_admaps (<[(g, to_lower dn) := MkADMapping dn name by_ now]> (w_admaps w)) w).
Proof.
  intros Hw Hg. constructor; simpl; try apply Hw.
  intros g' d m [[[= <- <-] <-]|[_ Hm]]%lookup_insert_Some; [done|]. by apply (gw_maps _ Hw).
Qed.
Lemma delete_mapping_wf w k : groups_wf w -> groups_wf (set_w_admaps (delete k (w_admaps w)) w).
Proof.
  intros Hw. constructor; simpl; try apply Hw.
  intros g d m [_ Hm]%lookup_delete_Some. by apply (gw_maps _ Hw).
Qed.
Lemma insert_local_wf w g u row by_ : groups_wf w -> is_Some (w_groups w !! g) ->
  w_users w !! u = Some row -> LocalUsername row <> None ->
  groups_wf (set_w_locals (<[(g, u) := by_]> (w_locals w)) w).
Proof.
  intros Hw Hg Hu Hl. constructor; simpl; try apply Hw.
  intros g' u' b [[[= <- <-] <-]|[_ Hm]]%lookup_insert_Some; [eauto|]. by apply (gw_locals _ Hw) in Hm.
Qed.
Lemma delete_local_wf w k : groups_wf w -> groups_wf (set_w_locals (delete k (w_locals w)) w).
Proof.
  intros Hw. constructor; simpl; try apply Hw.
  intros g u b [_ Hm]%lookup_delete_Some. by apply (gw_locals _ Hw) in Hm.
Qed.
Lemma member_sub_wf w m : groups_wf w -> m ⊆ w_member w -> groups_wf (set_w_member m w).
Proof. intros Hw Hm. constructor; simpl; try apply Hw. intros u d Hin. by apply (gw_member _ Hw), Hm. Qed.
Lemma member_union_wf w m : groups_wf w ->
  (forall u d, (u, d) ∈ m -> is_Some (w_users w !! u) /\ to_lower d = d) ->
  groups_wf (set_w_member (w_member w ∪ m) w).
Proof.
  intros Hw Hm. constructor; simpl; try apply Hw. intros u d [Hin|Hin]%elem_of_union; [by apply (gw_member _ Hw)|by apply Hm].
Qed.

Lemma elem_of_user_rows u dns v d : (v, d) ∈ user_rows u dns <-> v = u /\ d ∈ dns.
Proof. unfold user_rows. rewrite elem_of_list_to_set, list_elem_of_fmap. naive_solver. Qed.
Lemma elem_of_dn_rows dn us v d : (v, d) ∈ dn_rows dn us <-> d = to_lower dn /\ v ∈ us.
Proof. unfold dn_rows. rewrite elem_of_list_to_set, list_elem_of_fmap. naive_solver. Qed.

(** ** The statements keep the tables well-formed *)
Section Keep.
Context `{Env}.

#[global] Instance groups_wf_stable : Stable groups_wf.
Proof.
  split; intros; match goal with Hw : groups_wf _ |- _ => eapply groups_wf_tables; [|exact Hw]; reflexivity end.
Qed.
Lemma groups_wf_rollback w w' : groups_wf w -> groups_wf (rollback w w').
Proof. exact (groups_wf_tables w (rollback w w') eq_refl). Qed.

#[global] Instance keeps_Create_db name by_ : Keeps groups_wf (Create_db name by_).
Proof.
  unfold Create_db. apply keeps_map_err, keeps_sql; [apply _|]. intros w Hw.
  destruct (name_length_ok name) eqn:Hl; [|done]. simpl.
  destruct (_ || _) eqn:Hc; [done|]. apply orb_false_iff in Hc as [Hr Hn].
  destruct (user_ref _ _); [|done]. simpl. unfold group_ref in Hr.
  apply bool_decide_eq_false, eq_None_not_Some in Hr.
  by apply (insert_group_wf w (MkGroup (gen_random_uuid (w_calls w)) name by_ (w_clock w) by_ (w_clock w))).
Qed.
#[global] Instance keeps_FindByID_group id : Keeps groups_wf (FindByID_group id).
Proof. unfold FindByID_group. apply _. Qed.
#[global] Instance keeps_Rename_db id name by_ : Keeps groups_wf (Rename_db id name by_).
Proof.
  unfold Rename_db. apply keeps_bind; [|apply _]. apply keeps_map_err, keeps_sql; [apply _|]. intros w Hw.
  destruct (group_ref id w); [|done]. simpl. destruct (name_length_ok name) eqn:Hl; [|done]. simpl.
  destruct (name_taken name id w) eqn:Hn; [done|]. destruct (user_ref by_ w); [|done].
  by apply rename_group_wf.
Qed.
#[global] Instance keeps_Delete_db id : Keeps groups_wf (Delete_db id).
Proof.
  unfold Delete_db. apply keeps_bind; [|apply _]. apply keeps_wrap, keeps_sql; [apply _|]. intros w Hw.
  destruct (group_ref id w); [by apply drop_group_wf|done].
Qed.
#[global] Instance keeps_AddADMapping g dn name by_ : Keeps groups_wf (AddADMapping g dn name by_).
Proof.
  unfold AddADMapping. apply keeps_map_err, keeps_sql; [apply _|]. intros w Hw. cbv zeta.
  case_bool_decide; [done|]. destruct (_ && _) eqn:Hc; [|done].
  apply andb_true_iff in Hc as [Hg _]. apply group_ref_iff in Hg. by apply insert_mapping_wf.
Qed.
#[global] Instance keeps_RemoveADMapping g dn : Keeps groups_wf (RemoveADMapping g dn).
Proof. unfold RemoveADMapping. apply keeps_wrap, keeps_sql; [apply _|]. intros. by apply delete_mapping_wf. Qed.
#[global] Instance keeps_RemoveLocalMember_db g u : Keeps groups_wf (RemoveLocalMember_db g u).
Proof. unfold RemoveLocalMember_db. apply keeps_wrap, keeps_sql; [apply _|]. intros. by apply delete_local_wf. Qed.
#[global] Instance keeps_ListADMappings g : Keeps groups_wf (ListADMappings g).
Proof. unfold ListADMappings. apply _. Qed.
#[global] Instance keeps_ListWithCounts : Keeps groups_wf ListWithCounts.
Proof. unfold ListWithCounts. apply _. Qed.
#[global] Instance keeps_MappedDNs : Keeps groups_wf MappedDNs.
Proof. unfold MappedDNs. apply _. Qed.
#[global] Instance keeps_Members g : Keeps groups_wf (Members g).
Proof. unfold Members. apply _. Qed.
#[global] Instance keeps_FindIDsByLDAPDNs dns : Keeps groups_wf (FindIDsByLDAPDNs dns).
Proof. unfold FindIDsByLDAPDNs. apply _. Qed.

(** An account may be added by hand only when it is a local one; that is the
    service's check, here a premise. *)
Lemma AddLocalMember_db_wf g u by_ w : groups_wf w ->
  (forall row, w_users w !! u = Some row -> LocalUsername row <> None) ->
  groups_wf (snd (AddLocalMember_db g u by_ w)).
Proof.
  intros Hw Hu. change (wp (AddLocalMember_db g u by_) w (fun _ w' => groups_wf w')).
  pose proof (stable_bump w Hw) as Hb.
  apply wp_map_err, wp_sql; [intros; done|intros _].
  destruct (is_local (bump w) g u); [done|].
  destruct (_ && _) eqn:Hc; [|done]. simpl.
  apply andb_true_iff in Hc as [[Hg Hr]%andb_true_iff _].
  apply group_ref_iff in Hg. apply user_ref_iff in Hr as [row Hr].
  apply (insert_local_wf (bump w) g u row by_ Hb Hg Hr), (Hu row Hr).
Qed.

#[global] Instance keeps_ReplaceUserMemberships u dns : Keeps groups_wf (ReplaceUserMemberships u dns).
Proof.
  unfold ReplaceUserMemberships. apply keeps_transaction; [apply _|apply groups_wf_rollback|]. intros _.
  apply keeps_bind; [apply keeps_wrap, keeps_exec; [apply _|]|intros _; apply keeps_when, keeps_wrap, keeps_sql; [apply _|]].
  - intros w Hw. apply member_sub_wf; [done|]. intros x. by rewrite elem_of_filter; intros [_ ?].
  - intros w Hw. destruct (user_ref (Some u) w) eqn:Hu; [|done]. simpl. apply member_union_wf; [done|].
    intros v d [-> Hd]%elem_of_user_rows. apply user_ref_iff in Hu.
    apply elem_of_lowerDistinct in Hd as (x & _ & ->). split; [done|apply to_lower_idemp].
Qed.
#[global] Instance keeps_ReplaceMembersOfDN dn us : Keeps groups_wf (ReplaceMembersOfDN dn us).
Proof.
  unfold ReplaceMembersOfDN. apply keeps_transaction; [apply _|apply groups_wf_rollback|]. intros _.
  apply keeps_bind; [apply keeps_wrap, keeps_exec; [apply _|]|intros _; apply keeps_when, keeps_wrap, keeps_sql; [apply _|]].
  - intros w Hw. apply member_sub_wf; [done|]. intros x. by rewrite elem_of_filter; intros [_ ?].
  - intros w Hw. destruct (bool_decide (NoDup us)); [|done]. simpl.
    destruct (forallb _ us) eqn:Hu; [|done]. simpl. apply member_union_wf; [done|].
    intros v d [-> Hd]%elem_of_dn_rows. rewrite forallb_forall in Hu.
    split; [by apply user_ref_iff, Hu, list_elem_of_In|apply to_lower_idemp].
Qed.
#[global] Instance keeps_Prune : Keeps groups_wf PruneUnmappedMemberships.
Proof.
  unfold PruneUnmappedMemberships. apply keeps_wrap, keeps_sql; [apply _|]. intros w Hw.
  apply member_sub_wf; [done|]. unfold pruned. intros x. by rewrite elem_of_filter; intros [_ ?].
Qed.
End Keep.

(** ** Rules of the statements *)
Section Rules.
Context `{Env}.

Lemma wp_FindByID_group id w (Q : result AppGroup -> World -> Prop) :
  (forall e, Q (Err e) (bump w)) ->
  (forall g, w_groups w !! id = Some g -> Q (Ok g) (bump w)) -> wp (FindByID_group id) w Q.
Proof. intros He Hg. unfold FindByID_group. io_auto; eauto. Qed.
Lemma wp_ListADMappings id w (Q : result (list AppGroupADMapping) -> World -> Prop) :
  (forall e, Q (Err e) (bump w)) ->
  (forall l, (forall m, m ∈ l <-> exists d, w_admaps w !! (id, d) = Some m) -> Q (Ok l) (bump w)) ->
  wp (ListADMappings id) w Q.
Proof.
  intros He Hl. unfold ListADMappings. io_auto; [apply He|]. apply Hl. intros m.
  rewrite elem_of_sort_by, list_elem_of_fmap. split.
  - intros ([d m'] & -> & Hin%elem_of_mappings). by exists d.
  - intros (d & Hm). exists (d, m). by rewrite elem_of_mappings.
Qed.
Lemma wp_Members id w (Q : result (list AppGroupMember) -> World -> Prop) :
  (forall e, Q (Err e) (bump w)) -> Q (Ok (members_of (bump w) id)) (bump w) -> wp (Members id) w Q.
Proof. intros He Hl. unfold Members. io_auto; [apply He|apply Hl]. Qed.
Lemma wp_Create_db name by_ w (Q : result AppGroup -> World -> Prop) :
  (forall e, Q (Err e) (bump w)) ->
  (forall g, w_groups w !! GroupID g = None -> GroupName g = name -> GroupCreatedBy g = by_ ->
    name_length_ok name = true -> name_taken name (GroupID g) w = false ->
    Q (Ok g) (set_w_groups (<[GroupID g := g]> (w_groups w)) (bump w))) -> wp (Create_db name by_) w Q.
Proof.
  intros He Hg. unfold Create_db. apply wp_map_err, wp_sql; [intros; apply He|intros _].
  destruct (negb (name_length_ok name)) eqn:Hl; [apply He|]. propb.
  destruct (_ || _) eqn:Hc; [apply He|]. apply orb_false_iff in Hc as [Hr Hn].
  destruct (negb (user_ref by_ _)); [apply He|]. apply bool_decide_eq_false, eq_None_not_Some in Hr. by apply Hg.
Qed.
Lemma wp_Rename_db id name by_ w (Q : result unit -> World -> Prop) :
  (forall e, Q (Err e) (bump w)) ->
  (forall now, name_taken name id w = false ->
    Q (Ok tt) (set_w_groups (alter (renamed name by_ now) id (w_groups w)) (bump w))) ->
  wp (Rename_db id name by_) w Q.
Proof.
  intros He Hg. unfold Rename_db. apply wp_bind, wp_map_err, wp_sql; [intros; apply He|intros _].
  destruct (negb (group_ref id _)) eqn:Hr; [apply wp_guard; intros ?; done || apply He|].
  destruct (negb (name_length_ok name)); [apply He|].
  destruct (name_taken _ _ _) eqn:Hn; [apply He|]. destruct (negb (user_ref by_ _)); [apply He|].
  apply wp_guard; intros ?; [by apply Hg|done].
Qed.
Lemma wp_Delete_db id w (Q : result unit -> World -> Prop) :
  (forall e, Q (Err e) (bump w)) -> Q (Ok tt) (drop_group id (bump w)) -> wp (Delete_db id) w Q.
Proof.
  intros He Hg. unfold Delete_db. apply wp_bind, wp_wrap, wp_sql; [intros; apply He|intros _].
  destruct (group_ref id (bump w)); apply wp_guard; intros ?; done || apply He.
Qed.
Lemma wp_AddADMapping g dn name by_ w (Q : result unit -> World -> Prop) :
  (forall e, Q (Err e) (bump w)) ->
  (forall now, w_admaps w !! (g, to_lower dn) = None -> is_Some (w_groups w !! g) ->
    Q (Ok tt) (set_w_admaps (<[(g, to_lower dn) := MkADMapping dn name by_ now]> (w_admaps w)) (bump w))) ->
  wp (AddADMapping g dn name by_) w Q.
Proof.
  intros He Hg. unfold AddADMapping. apply wp_map_err, wp_sql; [intros; apply He|intros _]. cbv zeta.
  destruct (bool_decide_reflect (is_Some (w_admaps (bump w) !! (g, to_lower dn)))) as [|Hn]; [apply He|].
  destruct (_ && _) eqn:Hc; [|apply He]. apply andb_true_iff in Hc as [Hr%group_ref_iff _].
  apply Hg; [by apply eq_None_not_Some|done].
Qed.
Lemma wp_RemoveADMapping g dn w (Q : result bool -> World -> Prop) :
  (forall e, Q (Err e) (bump w)) ->
  (forall b, b = bool_decide (is_Some (w_admaps w !! (g, to_lower dn))) ->
    Q (Ok b) (set_w_admaps (delete (g, to_lower dn) (w_admaps w)) (bump w))) ->
  wp (RemoveADMapping g dn) w Q.
Proof. intros He Hg. unfold RemoveADMapping. apply wp_wrap, wp_sql; [intros; apply He|intros _]. by apply Hg. Qed.
Lemma wp_AddLocalMember_db g u by_ w (Q : result bool -> World -> Prop) :
  (forall e, Q (Err e) (bump w)) ->
  (is_Some (w_locals w !! (g, u)) -> Q (Ok false) (bump w)) ->
  (w_locals w !! (g, u) = None -> is_Some (w_groups w !! g) -> is_Some (w_users w !! u) ->
    Q (Ok true) (set_w_locals (<[(g, u) := by_]> (w_locals w)) (bump w))) ->
  wp (AddLocalMember_db g u by_) w Q.
Proof.
  intros He Hf Ht. unfold AddLocalMember_db. apply wp_map_err, wp_sql; [intros; apply He|intros _]. unfold is_local.
  destruct (bool_decide_reflect (is_Some (w_locals (bump w) !! (g, u)))) as [|Hn]; [by apply Hf|].
  destruct (_ && _) eqn:Hc; [|apply He].
  apply andb_true_iff in Hc as [[Hg%group_ref_iff Hu%user_ref_iff]%andb_true_iff _].
  apply Ht; [by apply eq_None_not_Some|done..].
Qed.
Lemma wp_RemoveLocalMember_db g u w (Q : result bool -> World -> Prop) :
  (forall e, Q (Err e) (bump w)) ->
  (forall b, b = bool_decide (is_Some (w_locals w !! (g, u))) ->
    Q (Ok b) (set_w_locals (delete (g, u) (w_locals w)) (bump w))) ->
  wp (RemoveLocalMember_db g u) w Q.
Proof. intros He Hg. unfold RemoveLocalMember_db. apply wp_wrap, wp_sql; [intros; apply He|intros _]. by apply Hg. Qed.
Lemma wp_Prune w (Q : result Z -> World -> Prop) :
  (forall e, Q (Err e) (bump w)) -> (forall n, Q (Ok n) (set_w_member (pruned w) (bump w))) ->
  wp PruneUnmappedMemberships w Q.
Proof. intros He Hg. unfold PruneUnmappedMemberships. apply wp_wrap, wp_sql; [intros; apply He|intros _]. by apply Hg. Qed.
End Rules.

Ltac group_rule :=
  lazymatch goal with
  | |- wp (FindByID_group _) _ _ => apply wp_FindByID_group; [intros ?|intros ? ?]
  | |- wp (ListADMappings _) _ _ => apply wp_ListADMappings; [intros ?|intros ? ?]
  | |- wp (Members _) _ _ => apply wp_Members; [intros ?|]
  | |- wp (Create_db _ _) _ _ => apply wp_Create_db; [intros ?|intros ? ? ? ? ? ?]
  | |- wp (Rename_db _ _ _) _ _ => apply wp_Rename_db; [intros ?|intros ? ?]
  | |- wp (Delete_db _) _ _ => apply wp_Delete_db; [intros ?|]
  | |- wp (AddADMapping _ _ _ _) _ _ => apply wp_AddADMapping; [intros ?|intros ? ? ?]
  | |- wp (RemoveADMapping _ _) _ _ => apply wp_RemoveADMapping; [intros ?|intros ? ?]
  | |- wp (AddLocalMember_db _ _ _) _ _ => apply wp_AddLocalMember_db; [intros ?|intros ?|intros ? ? ?]
  | |- wp (RemoveLocalMember_db _ _) _ _ => apply wp_RemoveLocalMember_db; [intros ?|intros ? ?]
  | |- wp PruneUnmappedMemberships _ _ => apply wp_Prune; [intros ?|intros ?]
  | |- wp (audited_or_reverted _ _ _) _ _ => apply wp_audited_or_reverted
  | |- wp (discard _) _ _ => apply wp_discard
  | |- _ => io_step
  end.
Ltac group_auto := repeat (cbv beta zeta; group_rule).
