(* ===== verification/Groups.v ===== *)
(** * Application groups ([internal/groups])

    The service of [groups.go] over the tables of [GroupStore.v]: names,
    searches, mappings of AD groups with the backfill of their members, local
    members added by hand and the refresh of the membership cache.  The
    directory, [auth.GroupDirectory], is an LDAP server: the record
    [GroupDirectory], absent when no AD is configured. *)
From stdpp Require Import base list strings gmap.
From Stdlib Require Import ZArith Lia.
From Stdlib Require Import Ascii.
From Stdlib Require String.
From S2P Require Import Prelude Db Text AlertStore Rbac GroupStore.
Local Open Scope string_scope.
Local Open Scope list_scope.
Local Open Scope Z_scope.

(** ** The directory *)
Record DirectoryGroup := MkDirGroup { DirDN : string; DirName : string; DirDescription : string }.
Record GroupSearchResult := MkSearch { FoundGroups : list DirectoryGroup; FoundTruncated : bool }.

(** [auth.GroupDirectory]: the answers of the directory, which may differ from
    one call to the next. *)
Record GroupDirectory := MkDirectory {
  SearchGroups : N -> string -> Z -> result GroupSearchResult;
  FindGroup : N -> string -> result DirectoryGroup;
  GroupMemberDNs : N -> string -> result (list string);
  MemberOf : N -> string -> list string -> result (list string)
}.
(** [MemberOf] answers with groups it was asked about. *)
Definition MemberOf_law (d : GroupDirectory) : Prop :=
  forall n u asked l, MemberOf d n u asked = Ok l -> Forall (fun g => exists a, a ∈ asked /\ equal_fold g a = true) l.

Definition MaxNameLen : Z := 64.
Definition MinSearchLen : Z := 3.
Definition MaxSearchLen : Z := 64.
Definition SearchLimit : Z := 25.

Definition ErrNotFound : error := Sentinel "groups.ErrNotFound" "application group not found".
Definition ErrNameTaken : error := Sentinel "groups.ErrNameTaken" "an application group with that name already exists".
Definition ErrInvalidName : error := Sentinel "groups.ErrInvalidName" "invalid group name".
Definition ErrInvalidSearch : error := Sentinel "groups.ErrInvalidSearch" "invalid search".
Definition ErrDirectoryUnavailable : error := Sentinel "groups.ErrDirectoryUnavailable" "no directory is configured".
Definition ErrADGroupNotFound : error :=
  Sentinel "groups.ErrADGroupNotFound" "that group was not found in the directory".
Definition ErrDirectory : error :=
  Sentinel "groups.ErrDirectory" "the directory could not be reached or did not answer".
Definition ErrAlreadyMapped : error :=
  Sentinel "groups.ErrAlreadyMapped" "that AD group is already mapped to this group".
Definition ErrNotLocalAccount : error :=
  Sentinel "groups.ErrNotLocalAccount"
    "only local accounts can be added by hand; an AD account is a member through its AD groups".

(** ** Names and search terms *)
Definition validateName (raw : string) : result string :=
  let name := trim_space raw in
  if bool_decide (name = "") then Err (Errorf "" ErrInvalidName ": a name is required")
  else if rune_count name >? MaxNameLen then Err (Errorf "" ErrInvalidName (": at most " +:+ itoa MaxNameLen +:+ " characters"))
  else if existsb is_control (runes name) then Err (Errorf "" ErrInvalidName ": no control characters")
  else Ok name.

Definition validateSearch (raw : string) : result string :=
  let term := trim_space raw in
  let n := rune_count term in
  if n <? MinSearchLen then
    Err (Errorf "" ErrInvalidSearch (": type at least " +:+ itoa MinSearchLen +:+ " characters of the group's name"))
  else if n >? MaxSearchLen then Err (Errorf "" ErrInvalidSearch (": at most " +:+ itoa MaxSearchLen +:+ " characters"))
  else if existsb is_control (runes term) then Err (Errorf "" ErrInvalidSearch ": no control characters")
  else Ok term.

Definition mapStoreErr (e : error) : error :=
  if errors_Is e "db.ErrAppGroupNotFound" then ErrNotFound
  else if errors_Is e "db.ErrAppGroupNameTaken" then ErrNameTaken
  else if errors_Is e "db.ErrADGroupAlreadyMapped" then ErrAlreadyMapped
  else e.

Record Detail := MkDetail {
  DetailGroup : AppGroup; Mappings : list AppGroupADMapping; DetailMembers : list AppGroupMember;
  DetailDirectoryAvailable : bool; CanManageLocalMembers : bool; AddableLocalUsers : list User
}.
Record Candidate := MkCandidate { CandGroup : DirectoryGroup; Mapped : bool }.
Record SearchResult := MkSearchResult { Candidates : list Candidate; Truncated : bool }.
Record MapResult := MkMapResult { MapGroup : DirectoryGroup; MatchedMembers : Z; BackfillFailed : bool }.

Definition count_manual (l : list AppGroupMember) : Z := Z.of_nat (length (List.filter AddedManually l)).
Definition manual_ids (l : list AppGroupMember) : list string := map MemberUserID (List.filter AddedManually l).
(** [for i := range mappings { if strings.EqualFold(mappings[i].DN, dn) { ...; break } }] *)
Definition find_mapping (mappings : list AppGroupADMapping) (dn : string) : option AppGroupADMapping :=
  List.find (fun m => equal_fold (MapDN m) dn) mappings.

(** The format strings of the service's log lines. *)
Definition log_prune_delete : string := "groups: prune memberships after deleting group %s: %v".
Definition log_prune_unmap : string := "groups: prune memberships after unmapping %q: %v".
Definition log_prune_revert : string := "groups: prune after reverting a mapping: %v".
Definition prune_logs : list string := [log_prune_delete; log_prune_unmap; log_prune_revert].

Section Service.
Context `{Env} (directory : option GroupDirectory).

Definition DirectoryAvailable : bool := match directory with Some _ => true | None => false end.

(** One call of the directory. *)
Definition ask {A} (f : N -> result A) : M A := fun w => (f (w_calls w), bump w).

Definition record (actor : Actor) (action groupID : string) (detail : gmap string DVal) : M unit :=
  Record_ (actor_id actor) (IsSuperAdmin actor) action "app_group" groupID (Some detail).

Definition List_groups (actor : Actor) : M (list AppGroupSummary) :=
  if negb (CanManageGroups actor) then throw ErrNotPermitted else ListWithCounts.

Definition Get (actor : Actor) (id : string) : M Detail :=
  if negb (CanManageGroups actor) then throw ErrNotPermitted
  else
    g ← map_err mapStoreErr (FindByID_group id);
    mappings ← ListADMappings id;
    members ← Members id;
    let d := MkDetail g mappings members DirectoryAvailable (CanManageGroupLocalMembers actor) in
    if CanManageGroupLocalMembers actor then
      all ← wrap "list users: " List_users;
      mret (d (List.filter (fun u => bool_decide (is_Some (LocalUsername u))
                                     && negb (bool_decide (UserID u ∈ manual_ids members))) all))
    else mret (d []).

Definition Create (actor : Actor) (rawName : string) : M AppGroup :=
  if negb (CanManageGroups actor) then throw ErrNotPermitted
  else
    name ← lift (validateName rawName);
    g ← map_err mapStoreErr (Create_db name (actor_id actor));
    audited_or_reverted
      (record actor "created_app_group" (GroupID g) {[ "name" := DStr (GroupName g) ]})
      (Delete_db (GroupID g)) (mret g).

Definition Rename (actor : Actor) (id rawName : string) : M unit :=
  if negb (CanManageGroups actor) then throw ErrNotPermitted
  else
    name ← lift (validateName rawName);
    old ← map_err mapStoreErr (FindByID_group id);
    if bool_decide (GroupName old = name) then mret tt
    else
      map_err mapStoreErr (Rename_db id name (actor_id actor)) ;;
      audited_or_reverted
        (record actor "renamed_app_group" id (<["old_name" := DStr (GroupName old)]> {[ "new_name" := DStr name ]}))
        (Rename_db id (GroupName old) (GroupUpdatedBy old)) (mret tt).

Definition Delete (actor : Actor) (id : string) : M unit :=
  if negb (CanManageGroups actor) then throw ErrNotPermitted
  else
    g ← map_err mapStoreErr (FindByID_group id);
    mappings ← ListADMappings id;
    members ← Members id;
    let manual := count_manual members in
    map_err mapStoreErr (Delete_db id) ;;
    log_on_error log_prune_delete PruneUnmappedMemberships ;;
    wrap "record audit: "
      (record actor "deleted_app_group" id
        (<["name" := DStr (GroupName g)]> (<["ad_groups" := DInt (Z.of_nat (length mappings))]>
           {[ "manual_members" := DInt manual ]}))).

Definition SearchDirectory (actor : Actor) (groupID rawTerm : string) : M SearchResult :=
  if negb (CanManageGroups actor) then throw ErrNotPermitted
  else match directory with
  | None => throw ErrDirectoryUnavailable
  | Some dir =>
      term ← lift (validateSearch rawTerm);
      map_err mapStoreErr (FindByID_group groupID) ;;
      mappings ← ListADMappings groupID;
      let mapped := map (fun m => to_lower (MapDN m)) mappings in
      found ← map_err (fun e => Errorf "" ErrDirectory (": search the directory: " +:+ error_text e))
                (ask (fun n => SearchGroups dir n term SearchLimit));
      mret (MkSearchResult
        (map (fun g => MkCandidate g (bool_decide (to_lower (DirDN g) ∈ mapped))) (FoundGroups found))
        (FoundTruncated found))
  end.

(** The backfill: how many known people were cached, or [None] when one of its
    three steps failed, which is logged. *)
Definition backfill (dir : GroupDirectory) (dn : string) : M (option Z) :=
  r1 ← attempt (ask (fun n => GroupMemberDNs dir n dn));
  match r1 with
  | Err _ => logf "groups: list members of %q to backfill: %v" ;; mret None
  | Ok memberDNs =>
      r2 ← attempt (FindIDsByLDAPDNs memberDNs);
      match r2 with
      | Err _ => logf "groups: match members of %q to known users: %v" ;; mret None
      | Ok ids =>
          r3 ← attempt (ReplaceMembersOfDN dn ids);
          match r3 with
          | Err _ => logf "groups: cache members of %q: %v" ;; mret None
          | Ok _ => mret (Some (Z.of_nat (length ids)))
          end
      end
  end.

Definition map_detail (g : AppGroup) (found : DirectoryGroup) (res : MapResult) : gmap string DVal :=
  <["group_name" := DStr (GroupName g)]> (<["ad_group_dn" := DStr (DirDN found)]>
  (<["ad_group_name" := DStr (DirName found)]> (<["matched_members" := DInt (MatchedMembers res)]>
  {[ "backfill_failed" := DBool (BackfillFailed res) ]}))).

(** A revert whose removal fails leaves the cache alone; otherwise the cache
    is pruned too, a failure of which is only logged. *)
Definition MapADGroup (actor : Actor) (groupID dn : string) : M MapResult :=
  if negb (CanManageGroups actor) then throw ErrNotPermitted
  else match directory with
  | None => throw ErrDirectoryUnavailable
  | Some dir =>
      g ← map_err mapStoreErr (FindByID_group groupID);
      found ← map_err (fun e => if errors_Is e "auth.ErrGroupNotFound" then ErrADGroupNotFound
                                else Errorf "" ErrDirectory (": look up the group: " +:+ error_text e))
                (ask (fun n => FindGroup dir n dn));
      map_err mapStoreErr (AddADMapping groupID (DirDN found) (DirName found) (actor_id actor)) ;;
      filled ← backfill dir (DirDN found);
      let res := MkMapResult found (default 0 filled) (bool_decide (filled = None)) in
      audited_or_reverted
        (record actor "mapped_ad_group" groupID (map_detail g found res))
        (discard (RemoveADMapping groupID (DirDN found)) ;;
         log_on_error log_prune_revert PruneUnmappedMemberships)
        (mret res)
  end.

Definition UnmapADGroup (actor : Actor) (groupID dn : string) : M unit :=
  if negb (CanManageGroups actor) then throw ErrNotPermitted
  else
    g ← map_err mapStoreErr (FindByID_group groupID);
    mappings ← ListADMappings groupID;
    match find_mapping mappings dn with
    | None => throw ErrNotFound
    | Some existing =>
        removed ← RemoveADMapping groupID (MapDN existing);
        if negb removed then throw ErrNotFound
        else
          log_on_error log_prune_unmap PruneUnmappedMemberships ;;
          audited_or_reverted
            (record actor "unmapped_ad_group" groupID
              (<["group_name" := DStr (GroupName g)]> (<["ad_group_dn" := DStr (MapDN existing)]>
                 {[ "ad_group_name" := DStr (MapName existing) ]})))
            (AddADMapping groupID (MapDN existing) (MapName existing) (actor_id actor))
            (mret tt)
    end.

Definition member_detail (g : AppGroup) (userID user : string) : gmap string DVal :=
  <["group_name" := DStr (GroupName g)]> (<["user_id" := DStr userID]> {[ "user" := DStr user ]}).

Definition AddLocalMember (actor : Actor) (groupID userID : string) : M unit :=
  if negb (CanManageGroupLocalMembers actor) then throw ErrNotPermitted
  else
    g ← map_err mapStoreErr (FindByID_group groupID);
    u ← map_err (fun e => if errors_Is e "db.ErrUserNotFound" then ErrNotFound else Errorf "look up user: " e "")
          (FindByID userID);
    if bool_decide (LocalUsername u = None) then throw ErrNotLocalAccount
    else
      added ← map_err mapStoreErr (AddLocalMember_db groupID (UserID u) (actor_id actor));
      if negb added then mret tt
      else audited_or_reverted
        (record actor "added_group_member" groupID (member_detail g (UserID u) (DisplayName u)))
        (discard (RemoveLocalMember_db groupID (UserID u))) (mret tt).

Definition RemoveLocalMember (actor : Actor) (groupID userID : string) : M unit :=
  if negb (CanManageGroupLocalMembers actor) then throw ErrNotPermitted
  else
    g ← map_err mapStoreErr (FindByID_group groupID);
    r ← attempt (FindByID userID);
    let display := match r with Ok u => DisplayName u | Err _ => userID end in
    removed ← RemoveLocalMember_db groupID userID;
    if negb removed then mret tt
    else audited_or_reverted
      (record actor "removed_group_member" groupID (member_detail g userID display))
      (discard (AddLocalMember_db groupID userID (actor_id actor))) (mret tt).

(** [RefreshUser] returns nothing: every failure is logged. *)
Definition RefreshUser (userID dn : string) : M unit :=
  match directory with
  | None => mret tt
  | Some dir =>
      if bool_decide (dn = "") then mret tt
      else
        r ← attempt MappedDNs;
        match r with
        | Err _ => logf "groups: list mapped AD groups for user %s: %v"
        | Ok mapped =>
            r2 ← (if (0 <? Z.of_nat (length mapped))
                  then attempt (ask (fun n => MemberOf dir n dn mapped)) else mret (Ok []));
            match r2 with
            | Err _ => logf "groups: refresh memberships for user %s: %v"
            | Ok in_ => log_on_error "groups: cache memberships for user %s: %v" (ReplaceUserMemberships userID in_)
            end
        end
  end.
End Service.

(** ** Invariants *)
Section Invariants.
Context `{Env} (directory : option GroupDirectory).

#[global] Instance keeps_ask {A} (I : World -> Prop) (f : N -> result A) `{!Stable I} : Keeps I (ask f).
Proof. intros w. apply stable_bump. Qed.
#[global] Instance keeps_group_record (I : World -> Prop) actor a g d `{!Stable I} : Keeps I (record actor a g d).
Proof. unfold record. apply _. Qed.
#[global] Instance keeps_backfill dir dn : Keeps groups_wf (backfill dir dn).
Proof. unfold backfill. apply _. Qed.

(** Every operation of the service that writes. *)
Inductive groups_step : World -> World -> Prop :=
| step_create actor name w : groups_step w (snd (Create actor name w))
| step_rename actor id name w : groups_step w (snd (Rename actor id name w))
| step_delete actor id w : groups_step w (snd (Delete actor id w))
| step_map actor id dn w : groups_step w (snd (MapADGroup directory actor id dn w))
| step_unmap actor id dn w : groups_step w (snd (UnmapADGroup actor id dn w))
| step_add_member actor id u w : groups_step w (snd (AddLocalMember actor id u w))
| step_remove_member actor id u w : groups_step w (snd (RemoveLocalMember actor id u w))
| step_refresh u dn w : groups_step w (snd (RefreshUser directory u dn w)).

Ltac groups_rule :=
  lazymatch goal with
  | |- wp (lift ?r) _ _ => let E := fresh "Hlift" in destruct r eqn:E; simpl lift
  | |- wp (FindByID _) _ _ => apply wp_FindByID; [intros ?|intros ? ?]
  | |- wp (ask _) _ _ => eapply wp_run; [reflexivity|]
  | |- wp (record _ _ _ _) _ _ => unfold record
  | |- wp (if negb (?c ?a) then _ else _) _ _ => let H := fresh "Hperm" in destruct (c a) eqn:H; simpl negb; cbv iota
  | |- match (match ?x with _ => _ end) with _ => _ end => let H := fresh "Hm" in destruct x eqn:H
  | |- _ => group_rule
  end.
Ltac groups_auto := repeat (cbv beta zeta; groups_rule).

Ltac wf_leaf :=
  repeat lazymatch goal with
  | Hw : groups_wf ?w |- groups_wf ?w => exact Hw
  | |- groups_wf (bump ?w) => apply (stable_bump (I := groups_wf) w)
  | |- groups_wf (set_w_audit _ ?w) => apply (groups_wf_tables w); [reflexivity|]
  | |- groups_wf (set_w_logs _ ?w) => apply (groups_wf_tables w); [reflexivity|]
  | |- groups_wf (set_w_locals (delete ?k _) ?w) => apply (delete_local_wf w k)
  end.

(** Adding by hand is the one write that is well-formed only because of what
    the service checked before: the account is local. *)
Lemma AddLocalMember_wf actor id u w : groups_wf w -> groups_wf (snd (AddLocalMember actor id u w)).
Proof.
  intros Hw. change (wp (AddLocalMember actor id u) w (fun _ w' => groups_wf w')). unfold AddLocalMember.
  assert (Hadd : forall w1 row, group_tables w1 = group_tables w -> w_users w !! u = Some row ->
    LocalUsername row <> None -> is_Some (w_groups w1 !! id) ->
    groups_wf (set_w_locals (<[(id, UserID row) := actor_id actor]> (w_locals w1)) w1)).
  { intros w1 row Ht Hr Hl Hg. pose proof (gw_users _ Hw _ _ Hr) as ->.
    eapply (insert_local_wf w1); [by eapply groups_wf_tables|done| |exact Hl]. by injection Ht as -> _. }
  groups_auto; wf_leaf; propb; try done;
    match goal with Hr : w_users _ !! u = Some ?row |- _ => by apply (Hadd (bump (bump (bump w))) row) end.
Qed.
Lemma RemoveLocalMember_wf actor id u w : groups_wf w -> groups_wf (snd (RemoveLocalMember actor id u w)).
Proof.
  intros Hw. change (wp (RemoveLocalMember actor id u) w (fun _ w' => groups_wf w')). unfold RemoveLocalMember.
  assert (Hadd : forall w1 k, w_users w1 = w_users w -> groups_wf w1 -> is_Some (w_groups w1 !! id) ->
    is_Some (w_locals w !! (id, u)) ->
    groups_wf (set_w_locals (<[(id, u) := k]> (w_locals w1)) w1)).
  { intros w1 k Hus Hw1 Hg [by_ Hl]. destruct (gw_locals _ Hw _ _ _ Hl) as (_ & row & Hr & Hloc).
    apply (insert_local_wf w1 id u row); try done. by rewrite Hus. }
  groups_auto; wf_leaf; propb; subst; propb; try done;
    match goal with |- groups_wf (set_w_locals _ ?w1) => apply (Hadd w1); wf_leaf; done end.
Qed.

#[global] Instance keeps_Create actor n : Keeps groups_wf (Create actor n).
Proof. unfold Create. apply _. Qed.
#[global] Instance keeps_Rename actor id n : Keeps groups_wf (Rename actor id n).
Proof. unfold Rename. apply _. Qed.
#[global] Instance keeps_Delete actor id : Keeps groups_wf (Delete actor id).
Proof. unfold Delete. apply _. Qed.
#[global] Instance keeps_MapADGroup actor id dn : Keeps groups_wf (MapADGroup directory actor id dn).
Proof. unfold MapADGroup. apply _. Qed.
#[global] Instance keeps_UnmapADGroup actor id dn : Keeps groups_wf (UnmapADGroup actor id dn).
Proof. unfold UnmapADGroup. apply _. Qed.
#[global] Instance keeps_RefreshUser u dn : Keeps groups_wf (RefreshUser directory u dn).
Proof. unfold RefreshUser. apply _. Qed.
Lemma groups_step_wf w w' : groups_step w w' -> groups_wf w -> groups_wf w'.
Proof.
  intros [actor n w0|actor id n w0|actor id w0|actor id dn w0|actor id dn w0|actor id u w0|actor id u w0|u dn w0] Hw;
    [..|by apply AddLocalMember_wf|by apply RemoveLocalMember_wf|]; by apply keeps.
Qed.

(** C7: whatever is done to the groups, in any order and with any failure of
    the database, the directory or the audit log in between: no two groups
    have the same name ignoring case, every mapping and every manual member
    belongs to a group that exists, every manual member is a local account,
    and every cached membership is of a known person. *)
Theorem groups_always_wf w w' : rtc groups_step w w' -> groups_wf w -> groups_wf w'.
Proof. induction 1 as [|w w1 w2 Hs _ IH]; [done|]. intros Hw. by apply IH, (groups_step_wf w). Qed.

(** *** The cache holds mapped AD groups only *)
Definition cache_ok (w : World) : Prop := forall u d, (u, d) ∈ w_member w -> is_mapped w d = true.
Definition prune_logged (w : World) : Prop := exists p, p ∈ prune_logs /\ p ∈ w_logs w.
Definition cache_or_logged (w : World) : Prop := cache_ok w \/ prune_logged w.

Lemma cache_mono w w' : cache_or_logged w ->
  (forall d, is_mapped w d = true -> is_mapped w' d = true) -> w_member w' = w_member w ->
  (exists l, w_logs w' = w_logs w ++ l) -> cache_or_logged w'.
Proof.
  intros [Hc|(p & Hp & Hl)] Hm Hme [l Hlogs].
  - left. intros u d. rewrite Hme. intros Hin. by apply Hm, (Hc u).
  - right. exists p. split; [done|]. rewrite Hlogs, elem_of_app. by left.
Qed.
Lemma is_mapped_admaps w w' d : w_admaps w' = w_admaps w -> is_mapped w' d = is_mapped w d.
Proof. intros Hm. unfold is_mapped. by rewrite Hm. Qed.
Lemma cache_frame w w' : cache_or_logged w -> w_admaps w' = w_admaps w -> w_member w' = w_member w ->
  (exists l, w_logs w' = w_logs w ++ l) -> cache_or_logged w'.
Proof. intros Hc Hm Hme Hl. eapply cache_mono; try done. intros d. by rewrite (is_mapped_admaps w w'). Qed.
Lemma cache_pruned w w' : w_admaps w' = w_admaps w -> w_member w' = pruned w -> cache_or_logged w'.
Proof.
  intros Hm Hme. left. intros u d. rewrite Hme. unfold pruned. rewrite elem_of_filter.
  intros [Hd _]. by rewrite (is_mapped_admaps w).
Qed.
Lemma cache_logged w p : p ∈ prune_logs -> p ∈ w_logs w -> cache_or_logged w.
Proof. intros. right. by exists p. Qed.

#[global] Instance cache_stable : Stable cache_or_logged.
Proof.
  split; intros; match goal with Hw : cache_or_logged ?w0 |- _ => apply (cache_frame w0 _ Hw) end;
    try reflexivity; first [by eexists|exists []; by rewrite app_nil_r].
Qed.

Lemma cache_set_audit l w : cache_or_logged w -> cache_or_logged (set_w_audit l w).
Proof. intros Hc. apply (cache_frame w); try done. exists []. by rewrite app_nil_r. Qed.
Lemma cache_set_groups m w : cache_or_logged w -> cache_or_logged (set_w_groups m w).
Proof. intros Hc. apply (cache_frame w); try done. exists []. by rewrite app_nil_r. Qed.
Lemma cache_set_locals m w : cache_or_logged w -> cache_or_logged (set_w_locals m w).
Proof. intros Hc. apply (cache_frame w); try done. exists []. by rewrite app_nil_r. Qed.
Lemma cache_set_logs l p w : p ∈ prune_logs -> cache_or_logged (set_w_logs (l ++ [p]) w).
Proof. intros Hp. apply (cache_logged _ p Hp). simpl. apply elem_of_app. right. by left. Qed.
Lemma cache_set_pruned w : cache_or_logged (set_w_member (pruned w) (bump w)).
Proof. by apply (cache_pruned w). Qed.
Lemma cache_set_admaps k v w : cache_or_logged w ->
  cache_or_logged (set_w_admaps (<[k := v]> (w_admaps w)) (bump w)).
Proof.
  intros Hc. apply (cache_mono w); try done; [|by exists []; rewrite app_nil_r]. intros d Hd.
  apply is_mapped_iff in Hd as [g Hg]. apply is_mapped_iff. exists g. simpl. apply lookup_insert_is_Some.
  destruct (decide (k = (g, d))); auto.
Qed.
Lemma cache_delete_absent k w : w_admaps w !! k = None -> cache_or_logged w ->
  cache_or_logged (set_w_admaps (delete k (w_admaps w)) (bump w)).
Proof.
  intros Hk Hc. apply (cache_frame w); try done; [|by exists []; rewrite app_nil_r].
  simpl. by apply delete_id.
Qed.
Lemma prune_logs_in p : existsb (fun q => bool_decide (p = q)) prune_logs = true -> p ∈ prune_logs.
Proof. intros (q & Hq & Hp)%existsb_elem. by apply bool_decide_eq_true in Hp as ->. Qed.

Ltac cache_leaf :=
  repeat lazymatch goal with
  | Hw : cache_or_logged ?w |- cache_or_logged ?w => exact Hw
  | |- cache_or_logged (bump ?w) => apply (stable_bump (I := cache_or_logged) w)
  | |- cache_or_logged (set_w_audit _ _) => apply cache_set_audit
  | |- cache_or_logged (set_w_groups _ _) => apply cache_set_groups
  | |- cache_or_logged (set_w_locals _ _) => apply cache_set_locals
  | |- cache_or_logged (set_w_member (pruned _) _) => apply cache_set_pruned
  | |- cache_or_logged (set_w_logs _ _) => apply cache_set_logs, prune_logs_in; reflexivity
  | |- cache_or_logged (set_w_admaps (<[?k := ?v]> _) (bump ?w)) => apply (cache_set_admaps k v w)
  end.

(** A group that was not there has no mapping to lose. *)
Lemma drop_fresh w id : groups_wf w -> w_groups w !! id = None ->
  filter (fun kd : (string * string) * AppGroupADMapping => kd.1.1 <> id) (w_admaps w) = w_admaps w.
Proof.
  intros Hw Hn. apply map_filter_id. intros [g d] m Hm. simpl. intros ->.
  destruct (gw_maps _ Hw _ _ _ Hm) as [[x Hx] _]. congruence.
Qed.
Lemma Create_cache actor n w : groups_wf w -> cache_or_logged w -> cache_or_logged (snd (Create actor n w)).
Proof.
  intros Hw Hc. change (wp (Create actor n) w (fun _ w' => cache_or_logged w')). unfold Create.
  groups_auto; cache_leaf.
  apply (cache_frame w); [done|refine (drop_fresh w (GroupID g) Hw _); assumption|reflexivity|by exists []; rewrite app_nil_r].
Qed.
Lemma Rename_cache actor id n w : cache_or_logged w -> cache_or_logged (snd (Rename actor id n w)).
Proof.
  intros Hc. change (wp (Rename actor id n) w (fun _ w' => cache_or_logged w')). unfold Rename.
  groups_auto; cache_leaf.
Qed.
Lemma Delete_cache actor id w : cache_or_logged w -> cache_or_logged (snd (Delete actor id w)).
Proof.
  intros Hc. change (wp (Delete actor id) w (fun _ w' => cache_or_logged w')). unfold Delete.
  groups_auto; cache_leaf.
Qed.
Lemma AddLocalMember_cache actor id u w : cache_or_logged w -> cache_or_logged (snd (AddLocalMember actor id u w)).
Proof.
  intros Hc. change (wp (AddLocalMember actor id u) w (fun _ w' => cache_or_logged w')). unfold AddLocalMember.
  groups_auto; cache_leaf.
Qed.
Lemma RemoveLocalMember_cache actor id u w :
  cache_or_logged w -> cache_or_logged (snd (RemoveLocalMember actor id u w)).
Proof.
  intros Hc. change (wp (RemoveLocalMember actor id u) w (fun _ w' => cache_or_logged w')). unfold RemoveLocalMember.
  groups_auto; cache_leaf.
Qed.

(** While the backfill runs, its DN is mapped. *)
Definition cache_and_mapped (d : string) (w : World) : Prop := cache_or_logged w /\ is_mapped w d = true.
#[global] Instance cache_and_mapped_stable d : Stable (cache_and_mapped d).
Proof.
  split; intros; match goal with Hw : cache_and_mapped _ _ |- _ => destruct Hw as [Hc Hd] end; split; try exact Hd.
  - by apply stable_bump.
  - by apply stable_logs.
  - by apply stable_events.
  - by apply stable_sent.
  - by apply stable_audit.
Qed.
Lemma cache_sub w m d : cache_and_mapped d w -> (forall u d', (u, d') ∈ m -> (u, d') ∈ w_member w \/ d' = d) ->
  cache_and_mapped d (set_w_member m w).
Proof.
  intros [[Hc|Hl] Hd] Hm; (split; [|exact Hd]); [left|by right].
  intros u d' Hin. destruct (Hm _ _ Hin) as [Hin'| ->]; [by apply (Hc u)|exact Hd].
Qed.
#[global] Instance cache_ReplaceMembersOfDN dn us : Keeps (cache_and_mapped (to_lower dn)) (ReplaceMembersOfDN dn us).
Proof.
  unfold ReplaceMembersOfDN. apply keeps_transaction; [apply _| |intros _].
  - intros w w' [Hc Hd]. split; [|exact Hd]. apply (cache_frame w); try done. by exists []; rewrite app_nil_r.
  - apply keeps_bind; [apply keeps_wrap, keeps_exec; [apply _|]|intros _; apply keeps_when, keeps_wrap, keeps_sql; [apply _|]].
    + intros w Hw. apply cache_sub; [done|]. intros u d. rewrite elem_of_filter. naive_solver.
    + intros w Hw. destruct (negb _); [done|]. destruct (negb _); [done|]. apply cache_sub; [done|].
      intros u d [Hin|[-> _]%elem_of_dn_rows]%elem_of_union; auto.
Qed.
#[global] Instance cache_FindIDs d dns : Keeps (cache_and_mapped d) (FindIDsByLDAPDNs dns).
Proof. unfold FindIDsByLDAPDNs. apply _. Qed.
#[global] Instance cache_backfill dir dn : Keeps (cache_and_mapped (to_lower dn)) (backfill dir dn).
Proof. unfold backfill. apply _. Qed.

Lemma MapADGroup_cache actor id dn w : cache_or_logged w -> cache_or_logged (snd (MapADGroup directory actor id dn w)).
Proof.
  intros Hc. change (wp (MapADGroup directory actor id dn) w (fun _ w' => cache_or_logged w')). unfold MapADGroup.
  destruct (negb _); [done|]. destruct directory as [dir|]; [|done].
  apply wp_bind, wp_map_err, wp_FindByID_group; intros; [by apply stable_bump|].
  apply wp_bind, wp_map_err. eapply wp_run; [reflexivity|]. destruct (FindGroup _ _ _) as [found|]; [|by do 2 apply stable_bump].
  apply wp_bind, wp_map_err, wp_AddADMapping; intros; [by do 3 apply stable_bump|].
  apply wp_bind. eapply wp_mono; [apply (wp_keeps (cache_and_mapped (to_lower (DirDN found)))); [apply _|]|].
  - split; [by apply (cache_set_admaps _ _ (bump (bump w))); do 2 apply stable_bump|].
    apply is_mapped_iff. exists id. simpl. rewrite lookup_insert_eq. by eexists.
  - intros [filled|e] w2 [Hw2 _]; [|done]. groups_auto; cache_leaf.
Qed.
Lemma UnmapADGroup_cache actor id dn w : cache_or_logged w -> cache_or_logged (snd (UnmapADGroup actor id dn w)).
Proof.
  intros Hc. change (wp (UnmapADGroup actor id dn) w (fun _ w' => cache_or_logged w')). unfold UnmapADGroup.
  groups_auto; cache_leaf.
  apply (cache_delete_absent _ (bump (bump w))); [|by do 2 apply stable_bump].
  subst. propb. by apply eq_None_not_Some.
Qed.

Lemma elem_of_distinct_on seen l dn : dn ∈ distinct_on seen l -> exists k, (k, dn) ∈ l.
Proof.
  revert seen. induction l as [|[k d] l IH]; intros seen; simpl; [by rewrite elem_of_nil|].
  assert (Hrec : forall seen', dn ∈ distinct_on seen' l -> exists k', (k', dn) ∈ (k, d) :: l)
    by (intros seen' [k' Hk']%IH; exists k'; by right).
  case_bool_decide; [apply Hrec|]. rewrite elem_of_cons. intros [->|Hin]; [exists k; by left|by eapply Hrec].
Qed.
Lemma mapped_dns_mapped w dn : groups_wf w -> dn ∈ mapped_dns w -> is_mapped w (to_lower dn) = true.
Proof.
  intros Hw (k & Hk)%elem_of_distinct_on. rewrite elem_of_sort_by, list_elem_of_fmap in Hk.
  destruct Hk as ([[g d] m] & [= -> ->] & Hin). apply elem_of_map_to_list in Hin.
  apply is_mapped_iff. exists g. destruct (gw_maps _ Hw _ _ _ Hin) as [_ <-]. by eexists.
Qed.

Lemma ReplaceUserMemberships_cache u dns w : cache_or_logged w ->
  (forall dn, dn ∈ dns -> is_mapped w (to_lower dn) = true) ->
  wp (ReplaceUserMemberships u dns) w (fun _ w' => cache_or_logged w' /\ w_logs w' = w_logs w).
Proof.
  intros Hc Hd.
  assert (Hr : forall w2, cache_or_logged (rollback (bump w) w2)).
  { intros w2. apply (cache_frame w); try done. by exists []; rewrite app_nil_r. }
  unfold ReplaceUserMemberships. apply wp_transaction; [intros; split; [by apply stable_bump|done]|].
  assert (Hsub : forall m w2, w_admaps w2 = w_admaps w -> w_logs w2 = w_logs w ->
    (forall v d, (v, d) ∈ m -> (v, d) ∈ w_member w \/ d ∈ lowerDistinct dns) -> cache_or_logged (set_w_member m w2)).
  { intros m w2 Ha Hl Hm. destruct Hc as [Hc|(p & Hp & Hin)]; [left|right; exists p; split; [done|by simpl; rewrite Hl]].
    intros v d [Hin|(x & Hx & ->)%elem_of_lowerDistinct]%Hm; rewrite (is_mapped_admaps w) by done;
      [by apply (Hc v)|by apply Hd]. }
  assert (Hcut : forall v d, (v, d) ∈ filter (fun c : string * string => ~ (c.1 = u /\ c.2 ∉ lowerDistinct dns)) (w_member w) ->
    (v, d) ∈ w_member w) by (intros v d [_ ?]%elem_of_filter; done).
  group_auto; try (split; [apply Hr|done]);
    (split; [split; [|done]|intros; split; [apply Hr|done]]); apply stable_bump, Hsub; try done.
  - intros v d [Hin|Hin]%elem_of_union; [left; by apply Hcut|right; by apply elem_of_user_rows in Hin as [_ ?]].
  - intros v d Hin. left. by apply Hcut.
Qed.
Lemma RefreshUser_cache u dn w : (forall dir, directory = Some dir -> MemberOf_law dir) ->
  groups_wf w -> cache_or_logged w -> cache_or_logged (snd (RefreshUser directory u dn w)).
Proof.
  intros Hlaw Hw Hc. change (wp (RefreshUser directory u dn) w (fun _ w' => cache_or_logged w')). unfold RefreshUser.
  assert (Hlog : forall p w', cache_or_logged w' -> cache_or_logged (set_w_logs (w_logs w' ++ [p]) w'))
    by (intros; by apply stable_logs).
  destruct directory as [dir|]; [|done]. destruct (bool_decide _); [done|].
  apply wp_bind, wp_attempt. unfold MappedDNs. apply wp_wrap, wp_query; intros; [by apply Hlog, stable_bump|].
  assert (Hdone : forall w1 l, w_admaps w1 = w_admaps w -> cache_or_logged w1 ->
    (forall x, x ∈ l -> is_mapped w (to_lower x) = true) ->
    wp (log_on_error "groups: cache memberships for user %s: %v" (ReplaceUserMemberships u l)) w1
      (fun _ w' => cache_or_logged w')).
  { intros w1 l Ha Hc1 Hl. apply wp_log_on_error. eapply wp_mono; [apply ReplaceUserMemberships_cache; [done|]|].
    - intros x Hx. rewrite (is_mapped_admaps w) by done. by apply Hl.
    - intros [[]|e] w2 [Hw2 _]; [done|by apply Hlog]. }
  destruct (0 <? _).
  - apply wp_bind, wp_attempt. eapply wp_run; [reflexivity|]. cbv beta iota.
    destruct (MemberOf _ _ _ _) as [l|e] eqn:Hm; [|by apply Hlog; do 2 apply stable_bump].
    apply Hdone; [done|by do 2 apply stable_bump|]. intros x Hx.
    pose proof (Hlaw dir eq_refl _ _ _ _ Hm) as Hall. rewrite Forall_forall in Hall.
    destruct (Hall x Hx) as (a & Ha & Hf). apply equal_fold_iff in Hf as ->.
    change (is_mapped (bump w) (to_lower a) = true). apply mapped_dns_mapped; [by apply stable_bump|done].
  - apply wp_bind, wp_ret. apply Hdone; [done|by apply stable_bump|]. intros x []%elem_of_nil.
Qed.

(** The membership cache never outlives the mappings that justify it: over
    any sequence of operations, with any failures, it holds only memberships
    of AD groups that some group is mapped to, or the log has a line saying
    that a prune failed. *)
Theorem cache_within_mappings w w' : (forall dir, directory = Some dir -> MemberOf_law dir) ->
  rtc groups_step w w' -> groups_wf w -> cache_ok w -> cache_ok w' \/ prune_logged w'.
Proof.
  intros Hlaw Hs Hw Hc. assert (Hcl : cache_or_logged w) by by left. clear Hc. revert Hw Hcl.
  induction Hs as [|w w1 w2 Hstep _ IH]; [done|]. intros Hw Hcl.
  apply IH; [by apply (groups_step_wf w)|]. clear IH.
  destruct Hstep; [by apply Create_cache|by apply Rename_cache|by apply Delete_cache|by apply MapADGroup_cache
    |by apply UnmapADGroup_cache|by apply AddLocalMember_cache|by apply RemoveLocalMember_cache|by apply RefreshUser_cache].
Qed.
End Invariants.

(** ** Who is in a group *)
Section Membership.

(** The two ways of being a member, said of the tables. *)
Definition belongs (w : World) (g u : string) : Prop :=
  is_Some (w_locals w !! (g, u)) \/ exists d, is_Some (w_admaps w !! (g, d)) /\ (u, d) ∈ w_member w.

Lemma group_member_iff w g u : groups_wf w -> group_member w g u = true <-> belongs w g u.
Proof.
  intros Hw. unfold group_member, belongs. rewrite orb_true_iff, bool_decide_eq_true, existsb_map. f_equiv.
  split.
  - intros ([g' d] & m & Hm & [Hg He]%andb_true_iff). apply existsb_elem in He as ([u' d'] & Hin & [Hu Hd]%andb_true_iff).
    apply elem_of_elements in Hin. apply equal_fold_iff in Hd. apply bool_decide_eq_true in Hg, Hu. simpl in *. subst.
    destruct (gw_maps _ Hw _ _ _ Hm) as [_ Hk]. destruct (gw_member _ Hw _ _ Hin) as [_ Hl].
    rewrite Hl, Hk, to_lower_idemp in Hd. subst. exists (to_lower (MapDN m)). split; [by eexists|done].
  - intros (d & [m Hm] & Hin). exists (g, d), m. split; [done|]. apply andb_true_iff.
    split; [by apply bool_decide_eq_true|]. apply existsb_elem. exists (u, d).
    split; [by apply elem_of_elements|]. apply andb_true_iff. split; [by apply bool_decide_eq_true|by apply equal_fold_iff].
Qed.
Lemma in_group_iff w g u : in_group w g u = true <-> belongs w g u.
Proof.
  unfold in_group, is_local, belongs. rewrite orb_true_iff, bool_decide_eq_true, <-via_nonempty. f_equiv.
  destruct (via w g u); simpl; naive_solver.
Qed.
Lemma belongs_known w g u : groups_wf w -> belongs w g u -> is_Some (w_users w !! u).
Proof.
  intros Hw [[b Hl]|(d & _ & Hin)].
  - destruct (gw_locals _ Hw _ _ _ Hl) as (_ & row & Hr & _). by eexists.
  - by apply (gw_member _ Hw) in Hin as [? _].
Qed.
Lemma elem_of_members w g m : groups_wf w ->
  m ∈ members_of w g <-> exists u row, w_users w !! u = Some row /\ belongs w g u /\ m = member_row w g row.
Proof.
  intros Hw. unfold members_of. rewrite elem_of_sort_by, list_elem_of_fmap. setoid_rewrite elem_of_List_filter.
  setoid_rewrite in_group_iff. setoid_rewrite list_elem_of_fmap. split.
  - intros (row & -> & Hb & ([u row'] & -> & Hin)). apply elem_of_map_to_list in Hin.
    exists u, row'. pose proof (gw_users _ Hw _ _ Hin) as Hid. simpl in *. by rewrite Hid in Hb.
  - intros (u & row & Hr & Hb & ->). exists row. pose proof (gw_users _ Hw _ _ Hr) as Hid. rewrite Hid.
    split_and!; [done..|]. exists (u, row). by rewrite elem_of_map_to_list.
Qed.
Lemma NoDup_filter_map {A B} (p : A -> bool) (f : A -> B) l : NoDup (map f l) -> NoDup (map f (List.filter p l)).
Proof.
  induction l as [|x l IH]; simpl; [done|]. intros [Hx Hl]%NoDup_cons. destruct (p x); simpl; [|by apply IH].
  constructor; [|by apply IH]. intros (y & Heq & [_ Hy]%elem_of_List_filter)%list_elem_of_fmap.
  apply Hx, list_elem_of_fmap. by exists y.
Qed.
Lemma NoDup_member_ids w g : groups_wf w -> NoDup (map MemberUserID (members_of w g)).
Proof.
  intros Hw. unfold members_of. rewrite sort_by_perm, map_map. simpl.
  apply (NoDup_filter_map (fun u => in_group w g (UserID u)) UserID). rewrite map_map.
  assert (map (fun x : string * User => UserID x.2) (map_to_list (w_users w)) = (map_to_list (w_users w)).*1) as ->;
    [|apply NoDup_fst_map_to_list].
  apply List.map_ext_in. intros [u row] Hin%list_elem_of_In%elem_of_map_to_list. by apply (gw_users _ Hw).
Qed.
Lemma elem_of_member_ids w g u : u ∈ member_ids w g <-> belongs w g u.
Proof.
  unfold member_ids, belongs. rewrite elem_of_union, !elem_of_list_to_set, !list_elem_of_fmap.
  setoid_rewrite elem_of_List_filter. setoid_rewrite bool_decide_eq_true. setoid_rewrite existsb_elem.
  setoid_rewrite bool_decide_eq_true. setoid_rewrite elem_of_elements. f_equiv.
  - split.
    + intros ([[g' u'] b] & -> & <- & Hin). apply elem_of_map_to_list in Hin. by eexists.
    + intros [b Hb]. exists ((g, u), b). by rewrite elem_of_map_to_list.
  - split.
    + intros ([u' d] & -> & ([d' m] & Hin & Hd) & Hc). simpl in *. subst d'. apply elem_of_mappings in Hin.
      exists d. split; [by eexists|done].
    + intros (d & [m Hm] & Hin). exists (u, d). split_and!; [done| |done]. exists (d, m). by rewrite elem_of_mappings.
Qed.

(** The three queries that say who is in a group agree: the Members page
    lists, once each, exactly the people an alert addressed to the group
    reaches, and the Groups list counts exactly those. *)
Theorem members_agree w g row : groups_wf w ->
  (forall u, u ∈ map MemberUserID (members_of w g) <-> belongs w g u) /\
  (forall u t, audience_matches w (Some u) t (AudienceGroup g) = true <-> belongs w g u) /\
  NoDup (map MemberUserID (members_of w g)) /\
  MemberCount (summary w (g, row)) = Z.of_nat (length (members_of w g)).
Proof.
  intros Hw.
  assert (Hin : forall u, u ∈ map MemberUserID (members_of w g) <-> belongs w g u).
  { intros u. rewrite list_elem_of_fmap. setoid_rewrite elem_of_members; [|done]. split.
    - intros (m & -> & (u' & r & Hr & Hb & ->)). simpl. by rewrite (gw_users _ Hw _ _ Hr).
    - intros Hb. destruct (belongs_known _ _ _ Hw Hb) as [r Hr]. exists (member_row w g r).
      split; [simpl; by rewrite (gw_users _ Hw _ _ Hr)|eauto]. }
  split_and!; [exact Hin| |by apply NoDup_member_ids|].
  - intros u t. simpl. by rewrite group_member_iff.
  - unfold summary. simpl. f_equal.
    assert (member_ids w g = list_to_set (map MemberUserID (members_of w g))) as ->.
    { apply set_eq. intros u. by rewrite elem_of_member_ids, elem_of_list_to_set, Hin. }
    rewrite size_list_to_set by by apply NoDup_member_ids. apply length_fmap.
Qed.
End Membership.

(** ** What the operations do *)
Section Operations.
Context `{Env} (directory : option GroupDirectory).

(** The tables a backfill leaves alone. *)
Definition beyond_cache (w : World) := (w_users w, w_groups w, w_admaps w, w_locals w, w_audit w).

(** The people the directory says are in a group, as far as they are known. *)
Definition known_member (w : World) (dns : list string) (u : string) : Prop :=
  exists row l x, w_users w !! u = Some row /\ LDAPDN row = Some l /\ x ∈ dns /\ equal_fold l x = true.

Lemma elem_of_ids_by_dns w dns u : u ∈ ids_by_dns (lowerDistinct dns) w <-> known_member w dns u.
Proof.
  unfold ids_by_dns, known_member. rewrite list_elem_of_fmap. setoid_rewrite elem_of_List_filter. split.
  - intros ([u' row] & -> & Hd & Hin). simpl in *. apply elem_of_map_to_list in Hin.
    destruct (LDAPDN row) as [l|] eqn:El; [|done]. apply bool_decide_eq_true in Hd.
    apply elem_of_lowerDistinct in Hd as (x & Hx & Heq). exists row, l, x. by rewrite equal_fold_iff.
  - intros (row & l & x & Hu & Hl & Hx & Hf%equal_fold_iff). exists (u, row). simpl. rewrite Hl.
    rewrite elem_of_map_to_list, bool_decide_eq_true, elem_of_lowerDistinct. eauto.
Qed.

Lemma wp_FindIDsByLDAPDNs dns w (Q : result (list string) -> World -> Prop) :
  (forall e w', beyond_cache w' = beyond_cache w -> w_member w' = w_member w -> Q (Err e) w') ->
  (forall ids w', beyond_cache w' = beyond_cache w -> w_member w' = w_member w ->
    (forall u, u ∈ ids <-> known_member w dns u) -> Q (Ok ids) w') -> wp (FindIDsByLDAPDNs dns) w Q.
Proof.
  intros He Hok. unfold FindIDsByLDAPDNs. cbv zeta. destruct (Nat.eqb _ 0) eqn:Hn.
  - apply wp_ret, Hok; try done. intros u. rewrite elem_of_nil. split; [done|].
    intros (row & l & x & _ & _ & Hx & _). apply Nat.eqb_eq, nil_length_inv in Hn.
    assert (Hin : to_lower x ∈ lowerDistinct dns) by (apply elem_of_lowerDistinct; eauto).
    rewrite Hn in Hin. by apply elem_of_nil in Hin.
  - apply wp_wrap, wp_query; intros; [by apply He|]. apply Hok; try done. intros u.
    apply (elem_of_ids_by_dns (bump w)).
Qed.
Lemma wp_ReplaceMembersOfDN dn us w (Q : result unit -> World -> Prop) :
  (forall e w', beyond_cache w' = beyond_cache w -> Q (Err e) w') ->
  (forall w', beyond_cache w' = beyond_cache w ->
    (forall u d, (u, d) ∈ w_member w' <-> if decide (d = to_lower dn) then u ∈ us else (u, d) ∈ w_member w) ->
    Q (Ok tt) w') -> wp (ReplaceMembersOfDN dn us) w Q.
Proof.
  intros He Hok. unfold ReplaceMembersOfDN.
  apply wp_transaction; [intros; by apply He|]. group_auto; try by apply He.
  - split; [|intros e; by apply He]. apply Hok; [done|]. intros u d. simpl.
    rewrite elem_of_union, elem_of_filter, elem_of_dn_rows. simpl.
    destruct (decide (d = to_lower dn)); destruct (decide (u ∈ us)); naive_solver.
  - split; [|intros e; by apply He]. apply Hok; [done|]. intros u d. simpl.
    rewrite elem_of_filter. simpl. destruct us; [|done].
    destruct (decide (d = to_lower dn)); rewrite ?elem_of_nil; naive_solver (apply not_elem_of_nil).
Qed.

(** After a backfill that did not fail the cache holds, for the group, exactly
    the known people the directory named. *)
Lemma wp_backfill dir dn w :
  wp (backfill dir dn) w (fun r w' =>
    exists filled, r = Ok filled /\ beyond_cache w' = beyond_cache w /\
    forall n, filled = Some n -> exists k dns, GroupMemberDNs dir k dn = Ok dns /\
      forall u d, (u, d) ∈ w_member w' <->
        if decide (d = to_lower dn) then known_member w dns u else (u, d) ∈ w_member w).
Proof.
  unfold backfill. apply wp_bind, wp_attempt. eapply wp_run; [reflexivity|].
  destruct (GroupMemberDNs dir (w_calls w) dn) as [dns|e] eqn:Hd; [|by exists None].
  apply wp_bind, wp_attempt, wp_FindIDsByLDAPDNs.
  { intros e w1 Hb Hm. by exists None. }
  intros ids w1 Hb Hm Hids. apply wp_bind, wp_attempt, wp_ReplaceMembersOfDN.
  { intros e w2 Hb2. exists None. split_and!; [done| |done]. etrans; [exact Hb2|exact Hb]. }
  intros w2 Hb2 Hm2. eexists. split_and!; [done|etrans; [exact Hb2|exact Hb]|].
  intros n _. exists (w_calls w), dns. split; [done|]. intros u d. rewrite Hm2.
  destruct (decide (d = to_lower dn)); [apply Hids|by rewrite Hm].
Qed.

(** Mapping an AD group stores what the directory calls it, never what the
    caller did, once per group whatever the case, and caches exactly the known
    people the directory says are in it, unless it says the backfill failed;
    it is audited, or the mapping is taken back. *)
Theorem MapADGroup_spec actor id dn w :
  wp (MapADGroup directory actor id dn) w (fun r w' =>
    match r with
    | Ok res =>
        let found := MapGroup res in
        let key := (id, to_lower (DirDN found)) in
        CanManageGroups actor = true /\ is_Some (w_groups w !! id) /\ audited "mapped_ad_group" w w' /\
        exists dir n now, directory = Some dir /\ FindGroup dir n dn = Ok found /\ w_admaps w !! key = None /\
          w_admaps w' = <[key := MkADMapping (DirDN found) (DirName found) (actor_id actor) now]> (w_admaps w) /\
          (BackfillFailed res = false -> exists k dns, GroupMemberDNs dir k (DirDN found) = Ok dns /\
            forall u d, (u, d) ∈ w_member w' <->
              if decide (d = to_lower (DirDN found)) then known_member w dns u else (u, d) ∈ w_member w)
    | Err e => w_audit w' = w_audit w /\ (w_admaps w' = w_admaps w \/ exists a b, e = revert_failed a b)
    end).
Proof.
  unfold MapADGroup. destruct (CanManageGroups actor); [|by split; [|left]].
  destruct directory as [dir|]; [|by split; [|left]]. simpl negb. cbv iota.
  apply wp_bind, wp_map_err, wp_FindByID_group; [by intros; split; [|left]|]. intros g Hg.
  apply wp_bind, wp_map_err. eapply wp_run; [reflexivity|].
  destruct (FindGroup dir _ dn) as [found|e] eqn:Hf; [|by split; [|left]].
  apply wp_bind, wp_map_err, wp_AddADMapping; [by intros; split; [|left]|]. intros now Hfree _.
  apply wp_bind. eapply wp_mono; [apply wp_backfill|].
  intros r w2 (filled & -> & Hb & Hfill). unfold beyond_cache in Hb. simpl in Hb. injection Hb as Hus Hgs Hms Hls Hau.
  assert (Hback : delete (id, to_lower (DirDN found)) (w_admaps w2) = w_admaps w)
    by (rewrite Hms; apply delete_insert_id, Hfree).
  apply wp_audited_or_reverted. unfold record.
  apply wp_Record; [intros e _|intros _].
  - apply wp_bind, wp_discard, wp_RemoveADMapping; [intros; split; [exact Hau|right; by do 2 eexists]|].
    intros b _. apply wp_log_on_error, wp_Prune; intros; (split; [exact Hau|left; exact Hback]).
  - apply wp_ret. cbv zeta. cbn [MapGroup BackfillFailed].
    split_and!; [done|by eexists| |].
    { eexists. split; [cbn; f_equal; exact Hau|done]. }
    exists dir, (w_calls (bump w)), now. split_and!; try done.
    intros Hnf. destruct filled as [n|]; [|done]. exact (Hfill n eq_refl).
Qed.

Lemma group_member_gone w g u : w_locals w !! (g, u) = None -> (forall d, w_admaps w !! (g, d) = None) ->
  group_member w g u = false.
Proof.
  intros Hl Hm. apply not_true_iff_false. unfold group_member. rewrite orb_true_iff. intros [Hb|Hb].
  - apply bool_decide_eq_true in Hb as [x Hx]. congruence.
  - apply existsb_map in Hb as ([g' d] & m & Hd & [Hg _]%andb_true_iff).
    apply bool_decide_eq_true in Hg. simpl in Hg. subst. by rewrite Hm in Hd.
Qed.

(** What is left of a group that was deleted. *)
Record group_gone (id : string) (w w' : World) : Prop := MkGone {
  gone_group : w_groups w' = delete id (w_groups w);
  gone_members : forall u, group_member w' id u = false;
  gone_audiences : forall a, AudienceGroup id ∉ audiences_of w' a;
  gone_maps : forall g d, g <> id -> w_admaps w' !! (g, d) = w_admaps w !! (g, d);
  gone_locals : forall g u, g <> id -> w_locals w' !! (g, u) = w_locals w !! (g, u)
}.
Lemma drop_group_gone id w : group_gone id w (drop_group id w).
Proof.
  constructor; simpl; [done| | | |].
  - intros u. apply group_member_gone; [|intros d]; apply map_lookup_filter_None; right; simpl; naive_solver.
  - intros a. unfold audiences_of. simpl. rewrite lookup_fmap. destruct (w_audiences w !! a) as [l|]; simpl.
    + intros [Hn _]%elem_of_List_filter. by rewrite bool_decide_true in Hn.
    + apply not_elem_of_nil.
  - intros g d Hg. rewrite map_lookup_filter. destruct (w_admaps w !! (g, d)); simpl; [|done]. by rewrite option_guard_True.
  - intros g u Hg. rewrite map_lookup_filter. destruct (w_locals w !! (g, u)); simpl; [|done]. by rewrite option_guard_True.
Qed.
Lemma group_gone_frame id w0 w w' : (w_groups w0, w_admaps w0, w_locals w0) = (w_groups w, w_admaps w, w_locals w) ->
  (w_groups w', w_admaps w', w_locals w', w_audiences w') =
  (w_groups (drop_group id w0), w_admaps (drop_group id w0), w_locals (drop_group id w0), w_audiences (drop_group id w0)) ->
  group_gone id w w'.
Proof.
  intros [= Hg0 Hm0 Hl0] [= Hg Hm Hl Ha]. destruct (drop_group_gone id w0) as [H1 H2 H3 H4 H5].
  constructor.
  - by rewrite Hg, <-Hg0.
  - intros u. apply group_member_gone; rewrite ?Hl; [|intros d; rewrite Hm]; apply map_lookup_filter_None; right; simpl; naive_solver.
  - intros a. unfold audiences_of. rewrite Ha. apply H3.
  - intros g d Hne. rewrite Hm, <-Hm0. by apply (H4 g d).
  - intros g u Hne. rewrite Hl, <-Hl0. by apply (H5 g u).
Qed.

(** Deleting a group takes its members, its mappings and its place in every
    alert's audience with it and touches no other group; the record follows
    the deletion, so a failure before it changed nothing and an unaudited
    deletion says so. *)
Theorem Delete_group_spec actor id w :
  wp (Delete actor id) w (fun r w' =>
    match r with
    | Ok _ => CanManageGroups actor = true /\ is_Some (w_groups w !! id) /\ group_gone id w w' /\
        audited "deleted_app_group" w w' /\
        ((forall u d, (u, d) ∈ w_member w' -> is_mapped w' d = true) \/ log_prune_delete ∈ w_logs w')
    | Err e => w_audit w' = w_audit w /\
        ((w_groups w', w_admaps w', w_locals w', w_audiences w', w_member w')
           = (w_groups w, w_admaps w, w_locals w, w_audiences w, w_member w)
         \/ group_gone id w w' /\ exists i, e = Errorf "record audit: " i "")
    end).
Proof.
  unfold Delete. destruct (CanManageGroups actor); [|by split; [|left]]. simpl negb. cbv iota.
  apply wp_bind, wp_map_err, wp_FindByID_group; [by intros; split; [|left]|]. intros g Hg.
  apply wp_bind, wp_ListADMappings; [by intros; split; [|left]|]. intros l _.
  apply wp_bind, wp_Members; [by intros; split; [|left]|].
  generalize (members_of (bump (bump (bump w))) id) as ms. intros ms. cbv zeta.
  apply wp_bind, wp_map_err, wp_Delete_db; [by intros; split; [|left]|].
  set (w0 := bump (bump (bump (bump w)))).
  assert (Hw0 : (w_groups w0, w_admaps w0, w_locals w0) = (w_groups w, w_admaps w, w_locals w)) by reflexivity.
  assert (Hau : w_audit w0 = w_audit w) by reflexivity. clearbody w0.
  apply wp_bind, wp_log_on_error, wp_Prune; [intros e0|intros n]; apply wp_wrap; unfold record;
    (apply wp_Record; [intros e _; split; [exact Hau|right; split; [by apply (group_gone_frame id w0)|by eexists]]|intros _]);
    (split_and!; [done|by eexists|by apply (group_gone_frame id w0)|
      eexists; split; [cbn; f_equal; exact Hau|done]|]).
  - right. simpl. apply elem_of_app. right. by left.
  - left. intros u d. simpl. unfold pruned. rewrite elem_of_filter. by intros [Hd _].
Qed.
End Operations.

(** ** Witnesses *)
Definition toy_directory : GroupDirectory := {|
  SearchGroups := fun _ _ _ => Ok (MkSearch [] false);
  FindGroup := fun _ dn => Ok (MkDirGroup dn "Ops" "");
  GroupMemberDNs := fun _ _ => Ok ["CN=Ann"];
  MemberOf := fun _ _ asked => Ok asked
|}.
Lemma toy_directory_law : MemberOf_law toy_directory.
Proof.
  intros n u asked l [= <-]. apply Forall_forall. intros x Hx. exists x. split; [done|]. by apply equal_fold_iff.
Qed.
Definition group_boss : Actor := MkActor false "boss" TierAdmin.
Definition ann_row : User := MkUser "ann" (Some "S-1") "Ann" TierDeveloper 0 None None None (Some "cn=ann") None None "{}" None None.
Definition groups_world : World :=
  set_w_users (<["ann" := ann_row]> (<["dev" := user_row "dev" TierDeveloper]> {[ "boss" := user_row "boss" TierAdmin ]}))
    empty_world.
Lemma groups_world_wf : groups_wf groups_world.
Proof.
  constructor; simpl; [|done|done|done|done|done].
  intros id u [[<- <-]|[_ [[<- <-]|[_ [<- <-]%lookup_singleton_Some]]%lookup_insert_Some]]%lookup_insert_Some; done.
Qed.
(** A group is created, an AD group mapped to it and a local account added. *)
Definition opsID : string := @gen_random_uuid quiet_env 1.
Definition w_created : World := snd (@Create quiet_env group_boss " Ops " groups_world).
Definition w_mapped : World := snd (@MapADGroup quiet_env (Some toy_directory) group_boss opsID "CN=Ops" w_created).
Definition w_added : World := snd (@AddLocalMember quiet_env group_boss opsID "dev" w_mapped).
Lemma groups_run : rtc (@groups_step quiet_env (Some toy_directory)) groups_world w_added.
Proof.
  eapply rtc_l; [exact (@step_create quiet_env (Some toy_directory) group_boss " Ops " groups_world)|].
  eapply rtc_l; [exact (@step_map quiet_env (Some toy_directory) group_boss opsID "CN=Ops" w_created)|].
  eapply rtc_l; [exact (@step_add_member quiet_env (Some toy_directory) group_boss opsID "dev" w_mapped)|apply rtc_refl].
Qed.

Lemma groups_always_wf_witness :
  map MemberDisplayName (members_of w_added opsID) = ["Ann"; "dev"] /\ groups_wf w_added.
Proof.
  split; [vm_compute; reflexivity|].
  exact (@groups_always_wf quiet_env (Some toy_directory) groups_world w_added groups_run groups_world_wf).
Defined.
Lemma cache_within_mappings_witness :
  elements (w_member w_added) = [("ann", "cn=ops")] /\ (cache_ok w_added \/ prune_logged w_added).
Proof.
  split; [vm_compute; reflexivity|].
  apply (@cache_within_mappings quiet_env (Some toy_directory) groups_world w_added); [|exact groups_run|exact groups_world_wf|].
  - intros dir [= <-]. exact toy_directory_law.
  - by intros u d ?%elem_of_empty.
Defined.
Lemma w_mapped_wf : groups_wf w_mapped.
Proof. do 2 apply keeps. exact groups_world_wf. Qed.
Lemma members_agree_witness : groups_wf w_mapped /\
  MemberCount (summary w_mapped (opsID, MkGroup opsID "Ops" None 0 None 0)) = 1 /\
  audience_matches w_mapped (Some "ann") TierReadOnly (AudienceGroup opsID) = true.
Proof.
  split; [exact w_mapped_wf|].
  destruct (members_agree w_mapped opsID (MkGroup opsID "Ops" None 0 None 0) w_mapped_wf) as (Hin & Hau & _ & Hc).
  assert (Hm : map MemberUserID (members_of w_mapped opsID) = ["ann"]) by (vm_compute; reflexivity).
  split; [rewrite Hc; apply (f_equal length) in Hm; rewrite List.length_map in Hm; by rewrite Hm|].
  apply Hau, Hin. rewrite Hm. by left.
Defined.

(** An unmapping whose audit fails is mapped back, but the memberships it
    pruned stay forgotten until the next refresh. *)
Example unmap_reverted_forgets_members :
  let w := snd (@UnmapADGroup (failing_env [w_calls w_mapped + 4]%N) group_boss opsID "cn=ops" w_mapped) in
  is_mapped w "cn=ops" = true /\ elements (w_member w_mapped) = [("ann", "cn=ops")] /\ elements (w_member w) = [].
Proof. vm_compute. split_and!; reflexivity. Qed.
