(* ===== verification/Login.v ===== *)
(** * Signing in and staying signed in ([internal/httpapi])

    The three logins ([login.go], [local_login.go], [breakglass_login.go]), what
    their handlers answer ([handlers.go], [login_page.go],
    [breakglass_login_page.go]), the check every page makes ([RequireSession] of
    [router.go]), the gate before setup ([setup_gate.go]) and setup itself
    ([cmd/sparky-server]).  The directory is the record [IdentityProvider]. *)
From stdpp Require Import base list strings gmap.
From Stdlib Require Import ZArith Lia.
From Stdlib Require Import Ascii.
From Stdlib Require String.
From S2P Require Import Prelude Text Json Db NodeToken GoTime Session LoginGuard Ldap Rbac.
Local Open Scope string_scope.
Local Open Scope list_scope.
Local Open Scope Z_scope.

(** ** [internal/db]: the columns a login reads and writes *)
Definition ErrBreakGlassNotSet : error := Sentinel "db.ErrBreakGlassNotSet" "break-glass credential not set".
Section Stores.
Context `{Env}.
Definition by_ad_sid (adSID : string) (w : World) : option User :=
  snd <$> List.find (fun kv => bool_decide (ADSID kv.2 = Some adSID)) (map_to_list (w_users w)).
Definition FindByADSID (adSID : string) : M User :=
  r ← wrap "scan user: " (query (by_ad_sid adSID)); scanUser r.
Definition Create_user (adSID displayName dn : string) (tier : Tier) : M User :=
  wrap "create user: " (wrap "scan user: " (sql (fun w =>
    let id := gen_random_uuid (w_calls w) in
    let u := MkUser id (Some adSID) displayName tier (w_clock w) None None None (Some dn) None None "{}" None None in
    if bool_decide (is_Some (w_users w !! id)) || bool_decide (is_Some (by_ad_sid adSID w)) then inl (PgError "23505")
    else inr (u, set_w_users (<[id := u]> (w_users w)) w)))).
Definition UpdateLastLogin (id dn : string) (at_ : Time) : M unit :=
  update_user "update last login: " id (fun u => set_LDAPDN (Some dn) (set_LastLoginAt (Some at_) u)).
Definition Get_breakglass : M BreakGlassCredential :=
  r ← wrap "get break-glass credential: " (query w_breakglass);
  match r with Some c => mret c | None => throw ErrBreakGlassNotSet end.
Definition Set_breakglass (passwordHash : string) : M unit :=
  wrap "set break-glass credential: " (exec (fun w => set_w_breakglass (Some (MkBreakGlassCredential passwordHash (w_clock w))) w)).
End Stores.

(** ** The interfaces a login uses *)
Record IdentityProvider := MkProvider {
  ip_Authenticate : string -> string -> M AuthenticatedUser;
  ip_IsInAccessGroup : string -> M bool
}.
Record LoginService := MkLoginService {
  ls_provider : IdentityProvider;
  ls_memberships : option (string -> string -> M unit);
  ls_directoryEmail : option (string -> string -> M unit)
}.
Definition sessionDuration : Z := 24 * hour.
Definition ErrAccessDenied : error := Sentinel "httpapi.ErrAccessDenied" "not a member of the access group".

Section Logins.
Context `{Env} `{PasswordHasher} (secret : string).
Definition signed (s : Session) : M string :=
  match Sign secret s with Ok c => mret c | Err e => throw (Errorf "sign session: " e "") end.
Definition RefreshMemberships (s : LoginService) (userID dn : string) : M unit :=
  match ls_memberships s with Some f => f userID dn | None => mret tt end.
Definition Recheck (s : LoginService) (dn : string) : M bool := ip_IsInAccessGroup (ls_provider s) dn.
Definition Login (s : LoginService) (username password : string) : M (User * string) :=
  authUser ← ip_Authenticate (ls_provider s) username password;
  guard_err (au_InAccessGroup authUser) ErrAccessDenied;;
  r ← attempt (FindByADSID (au_ADSID authUser));
  user ← (match r with
          | Err e =>
              if errors_Is e "db.ErrUserNotFound" then
                wrap "create user: " (Create_user (au_ADSID authUser) (au_DisplayName authUser) (au_DN authUser) TierReadOnly)
              else throw (Errorf "find user: " e "")
          | Ok u =>
              now ← time_now;
              wrap "update last login: " (UpdateLastLogin (UserID u) (au_DN authUser) now);;
              mret u
          end);
  RefreshMemberships s (UserID user) (au_DN authUser);;
  (match ls_directoryEmail s with Some f => f (UserID user) (au_Email authUser) | None => mret tt end);;
  now ← time_now;
  c ← signed (New (UserID user) sessionDuration now);
  mret (user, c).
Definition Login_local (username password : string) : M (User * string) :=
  r ← attempt (FindByLocalUsername username);
  match r with
  | Err e => if errors_Is e "db.ErrUserNotFound" then throw ErrInvalidCredentials else throw (Errorf "find local user: " e "")
  | Ok (user, hash) =>
      ok ← wrap "verify local password: " (lift (VerifyPassword password hash));
      guard_err ok ErrInvalidCredentials;;
      now ← time_now;
      c ← signed (NewLocal (UserID user) sessionDuration now);
      mret (user, c)
  end.
Definition Login_breakglass (password : string) : M string :=
  r ← attempt Get_breakglass;
  match r with
  | Err e => if errors_Is e "db.ErrBreakGlassNotSet" then throw ErrInvalidCredentials else throw (Errorf "get break-glass credential: " e "")
  | Ok cred =>
      ok ← wrap "verify break-glass password: " (lift (VerifyPassword password (BGPasswordHash cred)));
      guard_err ok ErrInvalidCredentials;;
      now ← time_now;
      signed (NewSuperAdmin sessionDuration now)
  end.

(** ** The handlers: a form of a page, or the JSON interface *)
Inductive reply :=
| JsonError (status : Z) (code message : string)
| ShowPage (method message : string)
| SignedIn (status : Z) (cookie : string)
| Panicked.
(** What was sent: a form or a JSON body, when it can be parsed. *)
Record Credentials := MkCredentials { cr_form : bool; cr_parsed : option (string * string) }.
Definition refusal (form : bool) (method formMessage : string) (status : Z) (code message : string) : reply :=
  if form then ShowPage method formMessage else JsonError status code message.
(** Only the login of the directory ends with [ErrAccessDenied]. *)
Definition answer_login (form : bool) (method wrong failed : string) (okStatus : Z) (r : result string) : M reply :=
  match r with
  | Ok c => mret (SignedIn (if form then 302 else okStatus) c)
  | Err e =>
      if errors_Is e "auth.ErrInvalidCredentials" then mret (refusal form method wrong 401 "INVALID_CREDENTIALS" wrong)
      else if errors_Is e "httpapi.ErrAccessDenied" then
        mret (refusal form method "not authorized to access Sparky" 403 "ACCESS_DENIED" "not authorized to access Sparky")
      else (if form then logf failed else mret tt);;
           mret (refusal form method "login failed" 500 "INTERNAL_ERROR" "login failed")
  end.
Definition on_ok {A} (f : A -> string) (m : M A) : M (result string) :=
  r ← attempt m; mret (match r with Ok a => Ok (f a) | Err e => Err e end).
Definition with_credentials (method : string) (c : Credentials) (k : string -> string -> M reply) : M reply :=
  match cr_parsed c with
  | None => mret (refusal (cr_form c) method "invalid form submission" 400 "INVALID_REQUEST" "request body must be valid JSON")
  | Some (username, password) =>
      if bool_decide (username = "") || bool_decide (password = "") then
        mret (refusal (cr_form c) method "username and password are required" 400 "INVALID_REQUEST" "username and password are required")
      else k username password
  end.
(** Without a directory there is no service: the form says so, the JSON branch
    calls a method on nothing. *)
Definition handleLogin (service : option LoginService) (c : Credentials) : M reply :=
  match service with
  | None => if cr_form c then mret (ShowPage "local" "AD authentication is not configured")
            else with_credentials "ad" c (fun _ _ => mret Panicked)
  | Some s =>
      with_credentials "ad" c (fun u p =>
        r ← on_ok snd (Login s u p); answer_login (cr_form c) "ad" "invalid username or password" "httpapi: login form submit: %v" 200 r)
  end.
Definition handleLocalLogin (c : Credentials) : M reply :=
  with_credentials "local" c (fun u p =>
    r ← on_ok snd (Login_local u p); answer_login (cr_form c) "local" "invalid username or password" "httpapi: local login form submit: %v" 200 r).
Definition handleBreakGlassLogin (form : bool) (password : option string) : M reply :=
  match password with
  | None => mret (refusal form "break-glass" "invalid form submission" 400 "INVALID_REQUEST" "request body must be valid JSON")
  | Some p =>
      if bool_decide (p = "") then mret (refusal form "break-glass" "password is required" 400 "INVALID_REQUEST" "password is required")
      else r ← on_ok id (Login_breakglass p); answer_login form "break-glass" "invalid password" "httpapi: break-glass login form submit: %v" 204 r
  end.

(** ** [RequireSession] *)
Record Identity := MkIdentity { id_UserID : string; id_IsSuperAdmin : bool; id_IsLocalAccount : bool }.
(** On what a request passes: the session as it is, a membership confirmed now
    (and the cookie renewed), or a directory, or a signature, that failed. *)
Inductive passage := AsIs | Reconfirmed (cookie : string) (maxAge : Z) | Unanswered.
Inductive access := Unauthenticated (status : Z) (message : string) (cleared : bool) | Proceed (id : Identity) (via : passage).
Record PageRequest := MkPageRequest { pr_cookie : option string; pr_htmx : bool }.
Definition respondUnauthenticated (r : PageRequest) (message : string) (cleared : bool) : access :=
  Unauthenticated (if pr_htmx r then 401 else 302) message cleared.
Definition forceLogout (r : PageRequest) (message : string) : access := respondUnauthenticated r message true.
Definition identity_of (s : Session) : Identity := MkIdentity (SUserID s) (SIsSuperAdmin s) (SIsLocalAccount s).
Definition nil_service : error := Opaque "runtime error: invalid memory address or nil pointer dereference".
Definition recheckAccessGroup (service : option LoginService) (r : PageRequest) (sess : Session) : M access :=
  u ← attempt (FindByID (SUserID sess));
  match u with
  | Err _ => logf "httpapi: recheck: look up user %s: %v";; mret (forceLogout r "session invalid")
  | Ok user =>
      match LDAPDN user with
      | None => mret (forceLogout r "session needs re-verification")
      | Some dn =>
          match service with
          | None => throw nil_service
          | Some s =>
              m ← attempt (Recheck s dn);
              match m with
              | Err _ => logf "httpapi: recheck access group for user %s: %v";; mret (Proceed (identity_of sess) Unanswered)
              | Ok false => mret (forceLogout r "no longer a member of the access group")
              | Ok true =>
                  RefreshMemberships s (UserID user) dn;;
                  now ← time_now;
                  let refreshed := MkSession (SUserID sess) (SIsSuperAdmin sess) (SExpiresAt sess) now false in
                  match Sign secret refreshed with
                  | Err _ => logf "httpapi: recheck: sign refreshed session for user %s: %v";; mret (Proceed (identity_of sess) Unanswered)
                  | Ok c => t ← time_now; mret (Proceed (identity_of refreshed) (Reconfirmed c (Z.quot (Sub (SExpiresAt sess) t) second)))
                  end
              end
          end
      end
  end.
Definition RequireSession (service : option LoginService) (interval : Z) (r : PageRequest) : M access :=
  match pr_cookie r with
  | None => mret (respondUnauthenticated r "no session" false)
  | Some c =>
      now ← time_now;
      match Verify secret c now with
      | Err _ => mret (respondUnauthenticated r "invalid or expired session" false)
      | Ok sess =>
          if negb (SIsSuperAdmin sess) && negb (SIsLocalAccount sess) then
            now2 ← time_now;
            if interval <=? Sub now2 (SLastVerifiedAt sess) then recheckAccessGroup service r sess else mret (Proceed (identity_of sess) AsIs)
          else mret (Proceed (identity_of sess) AsIs)
      end
  end.

(** ** [setup_gate.go] and setup *)
Definition setup_gate (complete : bool) : M (bool * bool) :=
  if complete then mret (true, true)
  else r ← attempt Get_breakglass; mret (if is_ok r then (true, true) else (false, false)).
Definition minSuperAdminPasswordLength : Z := 12.
(** The two prompts are the arguments. *)
Definition promptAndSetSuperAdminPassword (password confirm : string) : M unit :=
  guard_err (bool_decide (password = confirm)) (Opaque "passwords do not match");;
  guard_err (minSuperAdminPasswordLength <=? len password) (Opaque "password must be at least 12 characters");;
  hash ← wrap "hash password: " (hash_password password);
  wrap "set break-glass credential: " (Set_breakglass hash);;
  logf "SuperAdmin password set".
Definition initialPasswordRandomBytes : nat := 32.
Context `{RandomSource}.
Definition GenerateInitialPassword : M string :=
  buf ← wrap "generate initial password: " (query (fun w => random_bytes (w_calls w) initialPasswordRandomBytes));
  mret (of_bytes (base64_raw buf)).
(** The password made, when the account was not there. *)
Definition bootstrapDefaultAdminAccount : M (option string) :=
  r ← attempt (FindByLocalUsername "admin");
  match r with
  | Ok _ => mret None
  | Err e =>
      if errors_Is e "db.ErrUserNotFound" then
        password ← wrap "generate initial password: " GenerateInitialPassword;
        hash ← wrap "hash initial password: " (hash_password password);
        wrap "create default admin account: " (discard (CreateLocal "admin" hash "Admin" TierAdmin));;
        mret (Some password)
      else throw (Errorf "look up default admin account: " e "")
  end.
Definition runSetup (password confirm : string) : M (option string) :=
  r ← attempt Get_breakglass;
  (match r with
   | Ok _ => mret tt
   | Err e => guard_err (errors_Is e "db.ErrBreakGlassNotSet") (Errorf "database not ready: " e "")
   end);;
  wrap "setup: " (promptAndSetSuperAdminPassword password confirm);;
  wrap "setup: " bootstrapDefaultAdminAccount.
End Logins.
