(* ===== verification/LoginSpec.v ===== *)
(** * Who gets in, and for how long

    What a login needs and changes, and what every page that is shown to someone
    was earned with: over any run of logins, requests with any cookie that was
    not forged, and changes of everything else. *)
From stdpp Require Import base list strings gmap relations.
From Stdlib Require Import ZArith Lia.
From Stdlib Require Import Ascii.
From Stdlib Require String.
From S2P Require Import Prelude Text Json Db NodeToken GoTime JsonText Session LoginGuard LoginGuardSpec Ldap Rbac Login.
Local Open Scope string_scope.
Local Open Scope list_scope.
Local Open Scope Z_scope.

(** ** What a login asks of the services it is given

    They leave the accounts alone, and those that refresh what is kept of a
    person never fail. *)
Definition quiet (w w' : World) : Prop := w_users w' = w_users w /\ w_breakglass w' = w_breakglass w /\ w_clock w <= w_clock w'.
#[export] Instance quiet_preorder : PreOrder quiet.
Proof. split; [by intros w|]. intros w1 w2 w3 (E1 & E2 & E3) (F1 & F2 & F3). split; [congruence|split; [congruence|lia]]. Qed.
Class QuietService `{Env} (s : LoginService) : Prop := {
  quiet_authenticate : forall u p, Evolves quiet (ip_Authenticate (ls_provider s) u p);
  quiet_member : forall dn, Evolves quiet (ip_IsInAccessGroup (ls_provider s) dn);
  quiet_refresh : forall f u dn, ls_memberships s = Some f -> Evolves quiet (f u dn) /\ Raises (fun _ => False) (f u dn);
  quiet_record : forall f u a, ls_directoryEmail s = Some f -> Evolves quiet (f u a) /\ Raises (fun _ => False) (f u a)
}.

Section Calls.
Context `{Env}.
Lemma quiet_bump w : quiet w (bump w).
Proof. split; [done|]. split; [done|]. cbn. lia. Qed.
Lemma wp_quiet_call {A} (m : M A) w (Q : result A -> World -> Prop) : Evolves quiet m ->
  (forall r w1, m w = (r, w1) -> quiet w w1 -> Q r w1) -> wp m w Q.
Proof. intros Hm HQ. pose proof (Hm w) as Hw. destruct (m w) as [r w1] eqn:E. eapply wp_run; [exact E|]. by apply HQ. Qed.
Lemma by_ad_sid_same s w w' : w_users w' = w_users w -> by_ad_sid s w' = by_ad_sid s w.
Proof. unfold by_ad_sid. by intros ->. Qed.
Lemma by_ad_sid_Some s w u : by_ad_sid s w = Some u -> exists id, w_users w !! id = Some u /\ ADSID u = Some s.
Proof.
  unfold by_ad_sid. rewrite fmap_Some. intros ([id u'] & Hf & ->). simpl. apply List.find_some in Hf as [Hin Hb]. exists id. split.
  - apply elem_of_map_to_list, list_elem_of_In. done.
  - by apply bool_decide_eq_true in Hb.
Qed.
Lemma wp_FindByADSID s w (Q : result User -> World -> Prop) : (forall e, Q (Err e) (bump w)) ->
  (forall u, by_ad_sid s w = Some u -> Q (Ok u) (bump w)) -> wp (FindByADSID s) w Q.
Proof. intros He Hu. unfold FindByADSID, scanUser. io_auto; eauto. Qed.
Definition new_user (w : World) (sid name dn : string) (tier : Tier) : User :=
  MkUser (gen_random_uuid (w_calls w)) (Some sid) name tier (w_clock w) None None None (Some dn) None None "{}" None None.
Lemma wp_Create_user sid name dn tier w (Q : result User -> World -> Prop) : (forall e, Q (Err e) (bump w)) ->
  (by_ad_sid sid w = None -> w_users w !! UserID (new_user (bump w) sid name dn tier) = None ->
   Q (Ok (new_user (bump w) sid name dn tier)) (set_w_users (<[UserID (new_user (bump w) sid name dn tier) := new_user (bump w) sid name dn tier]> (w_users w)) (bump w))) ->
  wp (Create_user sid name dn tier) w Q.
Proof.
  intros He Hok. unfold Create_user. apply wp_wrap, wp_wrap, wp_sql; [intros e _; apply He|]. intros _.
  destruct (bool_decide (is_Some (w_users (bump w) !! gen_random_uuid (w_calls (bump w))))) eqn:E1; [apply He|].
  destruct (bool_decide (is_Some (by_ad_sid sid (bump w)))) eqn:E2; [apply He|]. propb.
  apply eq_None_not_Some in E1. apply eq_None_not_Some in E2. by apply Hok.
Qed.
Lemma wp_now w (Q : result Time -> World -> Prop) : Q (Ok (w_clock (bump w))) (bump w) -> wp time_now w Q.
Proof. done. Qed.
Lemma wp_never_fails (m : M unit) w (Q : result unit -> World -> Prop) : Evolves quiet m -> Raises (fun _ => False) m ->
  (forall w1, quiet w w1 -> Q (Ok tt) w1) -> wp m w Q.
Proof.
  intros Hm Hr HQ. apply wp_quiet_call; [done|]. intros [[]|e] w1 E Hq; [by apply HQ|]. exfalso. apply (Hr w e). by rewrite E.
Qed.
End Calls.

(** ** One login *)
Section Logins.
Context `{Env} `{PasswordHasher} (secret : string) (s : LoginService) `{!QuietService s}.
Definition known (au : AuthenticatedUser) (user : User) (w w' : World) : Prop :=
  by_ad_sid (au_ADSID au) w = Some user /\ exists at_, w_users w' = alter (fun v => set_LDAPDN (Some (au_DN au)) (set_LastLoginAt (Some at_) v)) (UserID user) (w_users w).
Definition newcomer (au : AuthenticatedUser) (user : User) (w w' : World) : Prop :=
  by_ad_sid (au_ADSID au) w = None /\ w_users w !! UserID user = None /\ (exists n, UserID user = gen_random_uuid n) /\
  user = MkUser (UserID user) (Some (au_ADSID au)) (au_DisplayName au) TierReadOnly (CreatedAt user) None None None (Some (au_DN au)) None None "{}" None None /\
  w_users w' = <[UserID user := user]> (w_users w).
Definition vouched (u p : string) (w : World) (au : AuthenticatedUser) : Prop :=
  fst (ip_Authenticate (ls_provider s) u p w) = Ok au /\ au_InAccessGroup au = true.
Lemma wp_refresh id dn w (Q : result unit -> World -> Prop) : (forall w1, quiet w w1 -> Q (Ok tt) w1) -> wp (RefreshMemberships s id dn) w Q.
Proof.
  intros HQ. unfold RefreshMemberships. destruct (ls_memberships s) as [f|] eqn:E; [|apply wp_ret, HQ; reflexivity].
  destruct (quiet_refresh f id dn E) as [H1' H2']. by apply wp_never_fails.
Qed.
Lemma wp_record_email id a w (Q : result unit -> World -> Prop) : (forall w1, quiet w w1 -> Q (Ok tt) w1) ->
  wp (match ls_directoryEmail s with Some f => f id a | None => mret tt end) w Q.
Proof.
  intros HQ. destruct (ls_directoryEmail s) as [f|] eqn:E; [|apply wp_ret, HQ; reflexivity].
  destruct (quiet_record f id a E) as [H1' H2']. by apply wp_never_fails.
Qed.
Lemma wp_signed ss w (Q : result string -> World -> Prop) : (forall e, Q (Err e) w) -> (forall c, Sign secret ss = Ok c -> Q (Ok c) w) -> wp (signed secret ss) w Q.
Proof. intros He Hc. unfold signed. destruct (Sign secret ss) as [c|e] eqn:E; [by apply Hc|apply He]. Qed.

Definition login_outcome (u p : string) (w : World) (r : result (User * string)) (w' : World) : Prop :=
  w_breakglass w' = w_breakglass w /\ w_clock w <= w_clock w' /\
  match r with
  | Ok (user, c) => exists au now, vouched u p w au /\ (known au user w w' \/ newcomer au user w w') /\
      w_clock w <= now <= w_clock w' /\ Sign secret (New (UserID user) sessionDuration now) = Ok c
  | Err _ => w_users w' = w_users w \/ exists au user, vouched u p w au /\ (known au user w w' \/ newcomer au user w w')
  end.
(** The end of a login, from the account on. *)
Lemma login_tail u p au user w w1 : vouched u p w au -> (known au user w w1 \/ newcomer au user w w1) ->
  w_breakglass w1 = w_breakglass w -> w_clock w <= w_clock w1 ->
  wp (RefreshMemberships s (UserID user) (au_DN au);;
      (match ls_directoryEmail s with Some f => f (UserID user) (au_Email au) | None => mret tt end);;
      now ← time_now; c ← signed secret (New (UserID user) sessionDuration now); mret (user, c)) w1 (login_outcome u p w).
Proof.
  intros Hv Hu Hb Hc. apply wp_bind, wp_refresh. intros w2 (E2 & F2 & C2). apply wp_bind, wp_record_email. intros w3 (E3 & F3 & C3).
  assert (Hu' : forall w', w_users w' = w_users w1 -> known au user w w' \/ newcomer au user w w').
  { intros w' E'. destruct Hu as [(Hs & at_ & Ha)|(Hs & Hn & Hid & He & Ha)]; [left|right]; (split; [done|]); [exists at_; congruence|].
    split; [done|]. split; [done|]. split; [done|congruence]. }
  pose proof (quiet_bump w3) as (E4 & F4 & C4).
  apply wp_bind, wp_now, wp_bind, wp_signed; [intros e|intros c Hs; apply wp_ret]; (split; [congruence|]; split; [lia|]).
  - right. exists au, user. split; [done|]. apply Hu'. congruence.
  - exists au, (w_clock (bump w3)). split; [done|]. split; [apply Hu'; congruence|]. split; [lia|done].
Qed.
Lemma Login_wp u p w : wp (Login secret s u p) w (login_outcome u p w).
Proof.
  unfold Login. apply wp_bind, wp_quiet_call; [apply quiet_authenticate|]. intros [au|e] w1 E1 (U1 & B1 & C1); [|split; [done|]; split; [done|by left]].
  apply wp_bind, wp_guard; intros Hg; [|split; [done|]; split; [done|by left]].
  assert (Hv : vouched u p w au) by (split; [by rewrite E1|done]).
  pose proof (quiet_bump w1) as (U2 & B2 & C2).
  apply wp_bind, wp_attempt, wp_FindByADSID.
  - intros e. apply wp_bind. destruct (errors_Is e _).
    + apply wp_wrap, wp_Create_user; [intros e'; split; [done|]; split; [cbn in *; lia|left; done]|]. intros Hs Hn.
      eapply login_tail; [exact Hv| |done|cbn in *; lia]. right.
      assert (Hs' : by_ad_sid (au_ADSID au) w = None) by (rewrite <-(by_ad_sid_same _ w (bump w1)) by (cbn; congruence); done).
      split; [done|]. split; [cbn in *; congruence|]. split; [by eexists|]. split; [done|]. cbn. f_equal. cbn in *. congruence.
    + split; [done|]. split; [cbn in *; lia|by left].
  - intros user Hs. apply wp_bind, wp_bind, wp_now, wp_bind, wp_wrap, wp_update_user; [intros e; split; [done|]; split; [cbn in *; lia|by left]|].
    intros v Hv'. apply wp_ret. eapply login_tail; [exact Hv| |done|cbn in *; lia]. left.
    split; [by rewrite <-(by_ad_sid_same _ w w1)|]. eexists. cbn. rewrite U1. reflexivity.
Qed.

(** C37: a login with the directory: whoever gets a session was vouched for by
    the directory with that password and is in the access group; the account is
    the one row of that SID, whose tier is left as it was, or a new one, read
    only, when there was none; nothing else of the accounts changes, whatever
    fails; the session is that account's, for a day from this moment. *)
Theorem Login_spec u p w : wp (Login secret s u p) w (login_outcome u p w).
Proof. apply Login_wp. Qed.

Definition password_is (u p : string) (w : World) (user : User) : Prop :=
  by_local_username u w = Some user /\ VerifyPassword p (default "" (LocalPasswordHash user)) = Ok true.
Lemma Login_local_wp u p w : wp (Login_local secret u p) w (fun r w' => quiet w w' /\
  match r with
  | Ok (user, c) => password_is u p w user /\ exists now, w_clock w <= now <= w_clock w' /\ Sign secret (NewLocal (UserID user) sessionDuration now) = Ok c
  | Err _ => True
  end).
Proof.
  unfold Login_local. pose proof (quiet_bump w) as Q1. pose proof (quiet_bump (bump w)) as Q2. assert (Q3 : quiet w (bump (bump w))) by (by etransitivity).
  apply wp_bind, wp_attempt, wp_FindByLocalUsername; [intros e; destruct (errors_Is e _); by split|].
  intros user Hu. apply wp_bind, wp_wrap. destruct (VerifyPassword p _) as [[]|] eqn:Ev; [|by split|by split]. apply wp_ret, wp_bind, wp_guard; intros Hb; [|done].
  apply wp_bind, wp_now, wp_bind, wp_signed; [by intros|]. intros c Hc. apply wp_ret. split; [done|]. split; [done|].
  exists (w_clock (bump (bump w))). split; [|done]. destruct Q3 as (_ & _ & ?). lia.
Qed.
Definition breakglass_is (p : string) (w : World) : Prop := exists cred, w_breakglass w = Some cred /\ VerifyPassword p (BGPasswordHash cred) = Ok true.
Lemma Login_breakglass_wp p w : wp (Login_breakglass secret p) w (fun r w' => quiet w w' /\
  match r with
  | Ok c => breakglass_is p w /\ exists now, w_clock w <= now <= w_clock w' /\ Sign secret (NewSuperAdmin sessionDuration now) = Ok c
  | Err _ => True
  end).
Proof.
  unfold Login_breakglass, Get_breakglass. pose proof (quiet_bump w) as Q1. pose proof (quiet_bump (bump w)) as Q2. assert (Q3 : quiet w (bump (bump w))) by (by etransitivity).
  apply wp_bind, wp_attempt, wp_bind, wp_wrap, wp_query; [intros e _; cbv beta iota; destruct (errors_Is _ _); by split|intros _].
  cbn [w_breakglass bump]. change (w_breakglass (bump w)) with (w_breakglass w). destruct (w_breakglass w) as [cred|] eqn:Eb; [|by split]. apply wp_ret.
  apply wp_bind, wp_wrap. destruct (VerifyPassword p _) as [[]|] eqn:Ev; [|by split|by split]. apply wp_ret, wp_bind, wp_guard; intros Hb; [|done].
  apply wp_bind, wp_now, wp_signed; [by intros|]. intros c Hc. split; [done|]. split; [by exists cred|].
  exists (w_clock (bump (bump w))). split; [|done]. destruct Q3 as (_ & _ & ?). lia.
Qed.
End Logins.

(** ** Runs *)
Inductive Method := ByDirectory (username password : string) | ByPassword (username password : string) | ByBreakGlass (password : string) | ByRecheck.
(** A cookie that was set, and a request that was let through, each with the world
    it came to. *)
Inductive AuthEvent :=
| Issued (how : Method) (uid cookie : string) (before : World) (at_ : Time)
| Entered (cookie : string) (id : Identity) (via : passage) (before : World).
Record AuthRun := MkAuthRun { ar_world : World; ar_events : list AuthEvent }.
(** Accounts are kept under their ids, which are UUIDs. *)
Definition ids_ok (w : World) : Prop := forall id u, w_users w !! id = Some u -> UserID u = id /\ valid_utf8 id = true.

Section Runs.
Context `{Env} `{PasswordHasher} (secret : string) (service : option LoginService) (interval : Z).
Definition issue (how : Method) (r : result (string * string)) (w w' : World) : list AuthEvent :=
  match r with Ok (uid, c) => [Issued how uid c w (w_clock w')] | Err _ => [] end.
Definition of_user (r : result (User * string)) : result (string * string) := match r with Ok (u, c) => Ok (UserID u, c) | Err e => Err e end.
Definition of_super (r : result string) : result (string * string) := match r with Ok c => Ok ("", c) | Err e => Err e end.
Definition entry (c : string) (a : result access) (w w' : World) : list AuthEvent :=
  match a with
  | Ok (Proceed id via) =>
      match via with Reconfirmed c' _ => [Issued ByRecheck (id_UserID id) c' w (w_clock w')] | _ => [] end ++ [Entered c id via w]
  | _ => []
  end.
(** Without the secret nobody makes a cookie that carries its own signature: one
    that does was issued. *)
Definition authentic (l : list AuthEvent) (c : string) : Prop :=
  forall p, c = p +:+ "." +:+ sign secret p -> exists how uid w t, Issued how uid c w t ∈ l.
Inductive auth_step : AuthRun -> AuthRun -> Prop :=
| step_directory s u p w l : service = Some s ->
    auth_step (MkAuthRun w l) (MkAuthRun (snd (Login secret s u p w)) (l ++ issue (ByDirectory u p) (of_user (fst (Login secret s u p w))) w (snd (Login secret s u p w))))
| step_password u p w l :
    auth_step (MkAuthRun w l) (MkAuthRun (snd (Login_local secret u p w)) (l ++ issue (ByPassword u p) (of_user (fst (Login_local secret u p w))) w (snd (Login_local secret u p w))))
| step_breakglass p w l :
    auth_step (MkAuthRun w l) (MkAuthRun (snd (Login_breakglass secret p w)) (l ++ issue (ByBreakGlass p) (of_super (fst (Login_breakglass secret p w))) w (snd (Login_breakglass secret p w))))
| step_request r c w l : pr_cookie r = Some c -> authentic l c ->
    auth_step (MkAuthRun w l) (MkAuthRun (snd (RequireSession secret service interval r w))
      (l ++ entry c (fst (RequireSession secret service interval r w)) w (snd (RequireSession secret service interval r w))))
| step_other w w' l : ids_ok w' -> w_clock w <= w_clock w' -> auth_step (MkAuthRun w l) (MkAuthRun w' l).

(** What a cookie was given for, in the world the request came to; and what a
    request was let through on. *)
Definition confirmed (uid : string) (w : World) : Prop :=
  exists s w1 user dn, service = Some s /\ w_users w !! uid = Some user /\ LDAPDN user = Some dn /\ quiet w w1 /\ fst (Recheck s dn w1) = Ok true.
Definition credentials (how : Method) (uid : string) (w : World) : Prop :=
  match how with
  | ByDirectory u p => exists s au user, service = Some s /\ vouched s u p w au /\ ADSID user = Some (au_ADSID au) /\ UserID user = uid
  | ByPassword u p => exists user, password_is u p w user /\ UserID user = uid
  | ByBreakGlass p => breakglass_is p w
  | ByRecheck => confirmed uid w
  end.
Definition unanswered (uid : string) (w : World) : Prop :=
  (exists s w1 user dn e, service = Some s /\ w_users w !! uid = Some user /\ LDAPDN user = Some dn /\ quiet w w1 /\ fst (Recheck s dn w1) = Err e) \/
  (confirmed uid w /\ exists expires now e, Sign secret (MkSession uid false expires now false) = Err e).
Definition from_directory (how : Method) : Prop := match how with ByDirectory _ _ | ByRecheck => True | _ => False end.
Definition signed_in (l : list AuthEvent) (uid : string) (by_ : Time) : Prop :=
  exists u p c w t, Issued (ByDirectory u p) uid c w t ∈ l /\ by_ <= t + sessionDuration.
Definition earned (l : list AuthEvent) (c : string) (id : Identity) (via : passage) (w : World) : Prop :=
  if id_IsSuperAdmin id then exists p uid w0 t0, Issued (ByBreakGlass p) uid c w0 t0 ∈ l /\ w_clock w <= t0 + sessionDuration
  else if id_IsLocalAccount id then exists u p w0 t0, Issued (ByPassword u p) (id_UserID id) c w0 t0 ∈ l /\ w_clock w <= t0 + sessionDuration
  else signed_in l (id_UserID id) (w_clock w) /\
    match via with
    | AsIs => exists how w1 t1, Issued how (id_UserID id) c w1 t1 ∈ l /\ from_directory how /\ w_clock w - t1 < interval
    | Reconfirmed c' _ => exists t1, Issued ByRecheck (id_UserID id) c' w t1 ∈ l /\ w_clock w <= t1
    | Unanswered => unanswered (id_UserID id) w
    end.

(** *** The invariant *)
Definition session_ok (l : list AuthEvent) (how : Method) (uid : string) (t : Time) (ss : Session) : Prop :=
  SUserID ss = uid /\ valid_utf8 uid = true /\
  match how with
  | ByDirectory _ _ => SIsSuperAdmin ss = false /\ SIsLocalAccount ss = false /\ SLastVerifiedAt ss <= t /\ SExpiresAt ss <= t + sessionDuration
  | ByPassword _ _ => SIsSuperAdmin ss = false /\ SIsLocalAccount ss = true /\ SExpiresAt ss <= t + sessionDuration
  | ByBreakGlass _ => SIsSuperAdmin ss = true /\ SExpiresAt ss <= t + sessionDuration
  | ByRecheck => SIsSuperAdmin ss = false /\ SIsLocalAccount ss = false /\ SLastVerifiedAt ss <= t /\ signed_in l uid (SExpiresAt ss)
  end.
Definition event_ok (l : list AuthEvent) (e : AuthEvent) : Prop :=
  match e with
  | Issued how uid c w t => credentials how uid w /\ exists ss, Sign secret ss = Ok c /\ session_ok l how uid t ss
  | Entered c id via w => earned l c id via w
  end.
Definition auth_inv (r : AuthRun) : Prop := ids_ok (ar_world r) /\ forall e, e ∈ ar_events r -> event_ok (ar_events r) e.
Lemma signed_in_mono l l' uid t : (forall e, e ∈ l -> e ∈ l') -> signed_in l uid t -> signed_in l' uid t.
Proof. intros Hl (u & p & c & w0 & t0 & Hin & Ht). exists u, p, c, w0, t0. auto. Qed.
Lemma event_ok_mono l l' e : (forall e, e ∈ l -> e ∈ l') -> event_ok l e -> event_ok l' e.
Proof.
  intros Hl. destruct e as [how uid c w t|c id via w]; cbn [event_ok].
  - intros (Hc & ss & Hs & Hu & Hv & Ho). split; [done|]. exists ss. split; [done|]. split; [done|]. split; [done|].
    destruct how; try done. destruct Ho as (H1' & H2' & H3' & H4'). split_and!; try done. by eapply signed_in_mono.
  - unfold earned. destruct (id_IsSuperAdmin id); [intros (p & u & w0 & t0 & Hin & Ht); exists p, u, w0, t0; auto|].
    destruct (id_IsLocalAccount id); [intros (u & p & w0 & t0 & Hin & Ht); exists u, p, w0, t0; auto|].
    intros [Hs Hv]. split; [by eapply signed_in_mono|]. destruct via; [|destruct Hv as (t1 & ? & ?); exists t1; auto|done].
    destruct Hv as (how & w1 & t1 & ? & ? & ?). exists how, w1, t1. auto.
Qed.
Lemma auth_inv_add w' l es : ids_ok w' -> (forall e, e ∈ l -> event_ok l e) -> (forall e, e ∈ es -> event_ok (l ++ es) e) -> auth_inv (MkAuthRun w' (l ++ es)).
Proof.
  intros Hids Hl Hes. split; [done|]. cbn [ar_events]. intros e [Hin|Hin]%elem_of_app; [|by apply Hes].
  eapply event_ok_mono; [|by apply Hl]. intros e' He'. apply elem_of_app. by left.
Qed.
Lemma ids_quiet w w' : quiet w w' -> ids_ok w -> ids_ok w'.
Proof. intros (E & _) Hi. unfold ids_ok. by rewrite E. Qed.

Context (Hservice : forall s, service = Some s -> QuietService s) (Huuid : forall n, valid_utf8 (gen_random_uuid n) = true) (Hinterval : window_ok interval).
Lemma inv_directory s u p w l : service = Some s -> auth_inv (MkAuthRun w l) ->
  auth_inv (MkAuthRun (snd (Login secret s u p w)) (l ++ issue (ByDirectory u p) (of_user (fst (Login secret s u p w))) w (snd (Login secret s u p w)))).
Proof.
  intros Hs [Hids Hl]. pose proof (Hservice s Hs) as Hq. pose proof (Login_wp secret s u p w) as (Hb & Hc & Ho). revert Ho. unfold wp in *.
  destruct (Login secret s u p w) as [r w']. cbn [fst snd] in *. intros Ho.
  assert (Hrow : forall au user, known au user w w' \/ newcomer au user w w' -> ids_ok w' /\ valid_utf8 (UserID user) = true /\ ADSID user = Some (au_ADSID au)).
  { intros au user [(Hk & at_ & Hw)|(Hk & Hn & [n Hid] & He & Hw)].
    - destruct (by_ad_sid_Some _ _ _ Hk) as (id & Hrow & Hsid). destruct (Hids id user Hrow) as [<- Hv]. split; [|done].
      intros id' u'. rewrite Hw, lookup_alter_Some. intros [(<- & v & Hv' & ->)|[_ Hv']]; [|by apply Hids]. destruct (Hids _ _ Hv') as [E ?]. by split.
    - split; [|split; [by rewrite Hid|by rewrite He]]. intros id' u'. rewrite Hw, lookup_insert_Some. intros [[<- <-]|[_ Hv']]; [|by apply Hids].
      split; [done|by rewrite Hid]. }
  destruct r as [[user c]|e]; cbn [of_user issue].
  - destruct Ho as (au & now & Hv & Hu & Hnow & Hsign). destruct (Hrow au user Hu) as (Hids' & Hvalid & Hsid). apply auth_inv_add; [done|done|].
    intros e ->%list_elem_of_singleton. cbn [event_ok]. split; [exists s, au, user; done|]. eexists. split; [exact Hsign|]. split; [done|]. split; [done|].
    cbn [New SIsSuperAdmin SIsLocalAccount SLastVerifiedAt SExpiresAt]. split_and!; [done|done|lia|lia].
  - apply auth_inv_add; [|done|by intros e' ?%elem_of_nil]. destruct Ho as [Hw|(au & user & _ & Hu)]; [unfold ids_ok; by rewrite Hw|by destruct (Hrow au user Hu)].
Qed.
Lemma inv_password u p w l : auth_inv (MkAuthRun w l) ->
  auth_inv (MkAuthRun (snd (Login_local secret u p w)) (l ++ issue (ByPassword u p) (of_user (fst (Login_local secret u p w))) w (snd (Login_local secret u p w)))).
Proof.
  intros [Hids Hl]. pose proof (Login_local_wp secret u p w) as Ho. unfold wp in Ho. destruct (Login_local secret u p w) as [r w']. cbn [fst snd] in *.
  destruct Ho as [Hq Ho]. apply auth_inv_add; [by eapply ids_quiet|done|]. destruct r as [[user c]|e']; cbn [of_user issue]; [|by intros e ?%elem_of_nil].
  intros e ->%list_elem_of_singleton. destruct Ho as (Hp & now & Hnow & Hsign). cbn [event_ok]. split; [by exists user|]. eexists. split; [exact Hsign|].
  destruct Hp as [Hp _]. destruct (by_local_username_Some _ _ _ Hp) as (id & Hrow & _). destruct (Hids id user Hrow) as [E Hv]. split; [done|]. split; [by rewrite E|].
  cbn [NewLocal SIsSuperAdmin SIsLocalAccount SLastVerifiedAt SExpiresAt]. split_and!; [done|done|lia].
Qed.
Lemma inv_breakglass p w l : auth_inv (MkAuthRun w l) ->
  auth_inv (MkAuthRun (snd (Login_breakglass secret p w)) (l ++ issue (ByBreakGlass p) (of_super (fst (Login_breakglass secret p w))) w (snd (Login_breakglass secret p w)))).
Proof.
  intros [Hids Hl]. pose proof (Login_breakglass_wp secret p w) as Ho. unfold wp in Ho. destruct (Login_breakglass secret p w) as [r w']. cbn [fst snd] in *.
  destruct Ho as [Hq Ho]. apply auth_inv_add; [by eapply ids_quiet|done|]. destruct r as [c|e']; cbn [of_super issue]; [|by intros e ?%elem_of_nil].
  intros e ->%list_elem_of_singleton. destruct Ho as (Hp & now & Hnow & Hsign). cbn [event_ok]. split; [done|]. eexists. split; [exact Hsign|].
  split; [done|]. split; [done|]. cbn [NewSuperAdmin SIsSuperAdmin SExpiresAt]. split_and!; [done|lia].
Qed.

(** A request, on a session that was read from its cookie. *)
Definition passes (sess : Session) (w : World) (r : result access) (w' : World) : Prop :=
  quiet w w' /\
  match r with
  | Ok (Proceed id via) => id = identity_of sess /\
      match via with
      | AsIs => SIsSuperAdmin sess = false -> SIsLocalAccount sess = false -> w_clock w - SLastVerifiedAt sess < interval
      | Reconfirmed c _ => SIsSuperAdmin sess = false /\ SIsLocalAccount sess = false /\ confirmed (SUserID sess) w /\
          exists now, w_clock w <= now <= w_clock w' /\ Sign secret (MkSession (SUserID sess) false (SExpiresAt sess) now false) = Ok c
      | Unanswered => SIsSuperAdmin sess = false /\ SIsLocalAccount sess = false /\ unanswered (SUserID sess) w
      end
  | _ => True
  end.
Lemma confirmed_before uid w w' : quiet w w' -> confirmed uid w' -> confirmed uid w.
Proof. intros Q (s & w1 & user & dn & Hs & Hu & Hd & Q1 & Hr). exists s, w1, user, dn. destruct Q as (E & ?). rewrite <-E. split_and!; try done. by transitivity w'. Qed.
Lemma unanswered_before uid w w' : quiet w w' -> unanswered uid w' -> unanswered uid w.
Proof.
  intros Q [(s & w1 & user & dn & e & Hs & Hu & Hd & Q1 & Hr)|[Hc Hx]]; [left|right; split; [by eapply confirmed_before|done]].
  exists s, w1, user, dn, e. pose proof Q as (E & ?). rewrite <-E. split_and!; try done. by transitivity w'.
Qed.
Lemma recheck_passes r sess w : SIsSuperAdmin sess = false -> SIsLocalAccount sess = false ->
  wp (recheckAccessGroup secret service r sess) w (passes sess w).
Proof.
  intros Hsu Hlo. unfold recheckAccessGroup. apply wp_bind, wp_attempt, wp_FindByID.
  { intros e. apply wp_bind, wp_logf, wp_ret. split; [apply quiet_bump|done]. }
  intros user Hu. pose proof (quiet_bump w) as Q1. destruct (LDAPDN user) as [dn|] eqn:Edn; [|by split].
  destruct service as [s|] eqn:Es; [|by split]. pose proof (Hservice s eq_refl) as Hq.
  apply wp_bind, wp_attempt, wp_quiet_call; [apply quiet_member|]. intros [[]|e] w2 E2 Q2; (assert (Q3 : quiet w w2) by (by etransitivity)).
  - apply wp_bind, wp_refresh; [done|]. intros w3 Q3'. apply wp_bind, wp_now. pose proof (quiet_bump w3) as Q4.
    assert (Q5 : quiet w (bump w3)) by (etransitivity; [exact Q3|]; by etransitivity).
    assert (Hconf : confirmed (SUserID sess) w) by (exists s, (bump w), user, dn; split_and!; [done..|]; by rewrite E2).
    assert (Hident : identity_of (MkSession (SUserID sess) (SIsSuperAdmin sess) (SExpiresAt sess) (w_clock (bump w3)) false) = identity_of sess) by (unfold identity_of; cbn; by rewrite Hlo).
    destruct (Sign secret _) as [c|e] eqn:Ec.
    + apply wp_bind, wp_now, wp_ret. pose proof (quiet_bump (bump w3)) as Q6. split; [by etransitivity|]. split; [done|]. split; [done|]. split; [done|]. split.
      * exact Hconf.
      * exists (w_clock (bump w3)). rewrite Hsu in Ec. split; [|done]. destruct Q5 as (_ & _ & ?), Q6 as (_ & _ & ?). lia.
    + apply wp_bind, wp_logf, wp_ret. split; [done|]. split; [done|]. split; [done|]. split; [done|]. right. split; [exact Hconf|]. rewrite Hsu in Ec. by eexists _, _, _.
  - by split.
  - apply wp_bind, wp_logf, wp_ret. split; [done|]. split; [done|]. split; [done|]. split; [done|]. left. exists s, (bump w), user, dn, e. split_and!; [done..|]. by rewrite E2.
Qed.
Lemma RequireSession_passes r c w : pr_cookie r = Some c ->
  wp (RequireSession secret service interval r) w (fun a w' => quiet w w' /\
    match a with
    | Ok (Proceed _ _) => exists sess now, w_clock w <= now /\ Verify secret c now = Ok sess /\ passes sess w a w'
    | _ => True
    end).
Proof.
  intros Hc. unfold RequireSession. rewrite Hc. pose proof (quiet_bump w) as Q1. pose proof (quiet_bump (bump w)) as Q2.
  assert (Q3 : quiet w (bump (bump w))) by (by etransitivity). apply wp_bind, wp_now.
  destruct (Verify secret c (w_clock (bump w))) as [sess|] eqn:Ev; [|by split].
  assert (Hsame : forall w', quiet w w' -> (SIsSuperAdmin sess = false -> SIsLocalAccount sess = false -> w_clock w - SLastVerifiedAt sess < interval) ->
    wp (mret (Proceed (identity_of sess) AsIs)) w' (fun a w' => quiet w w' /\
      match a with Ok (Proceed _ _) => exists sess now, w_clock w <= now /\ Verify secret c now = Ok sess /\ passes sess w a w' | _ => True end)).
  { intros w' Q Hs. apply wp_ret. split; [done|]. exists sess, (w_clock (bump w)). split; [by destruct Q1 as (_ & _ & ?)|]. split; [done|]. by split. }
  destruct (negb (SIsSuperAdmin sess) && negb (SIsLocalAccount sess)) eqn:Ek.
  - apply andb_true_iff in Ek as [Esu%negb_true_iff Elo%negb_true_iff]. apply wp_bind, wp_now. rewrite Sub_window by done.
    destruct (Z.leb_spec interval (w_clock (bump (bump w)) - SLastVerifiedAt sess)).
    + eapply wp_mono; [apply (recheck_passes r sess (bump (bump w)) Esu Elo)|]. intros a w' [Q Ha]. split; [by etransitivity|].
      destruct a as [[|id via]|]; [done| |done]. exists sess, (w_clock (bump w)). split; [by destruct Q1 as (_ & _ & ?)|]. split; [done|].
      split; [by etransitivity|]. destruct Ha as [Hid Ha]. split; [done|]. destruct via; [|destruct Ha as (?&?&?&now&?&?)|destruct Ha as (?&?&?)].
      * intros Esu' Elo'. specialize (Ha Esu' Elo'). destruct Q3 as (_ & _ & ?). lia.
      * split; [done|]. split; [done|]. split; [by eapply confirmed_before|]. exists now. split; [|done]. destruct Q3 as (_ & _ & ?). lia.
      * split; [done|]. split; [done|]. by eapply unanswered_before.
    + apply Hsame; [done|]. intros _ _. destruct Q3 as (_ & _ & ?). lia.
  - apply Hsame; [done|]. intros Esu Elo. by rewrite Esu, Elo in Ek.
Qed.
Lemma cookie_session l c now sess : (forall e, e ∈ l -> event_ok l e) -> authentic l c -> Verify secret c now = Ok sess ->
  exists how uid w t, Issued how uid c w t ∈ l /\ session_ok l how uid t sess /\ now <= SExpiresAt sess.
Proof.
  intros Hl Ha Hv. destruct (Verify_sound _ _ _ _ Hv) as (p & Hp & _ & _). destruct (Ha p Hp) as (how & uid & w & t & Hin).
  destruct (Hl _ Hin) as (_ & ss & Hs & Hss). assert (Hu : valid_utf8 (SUserID ss) = true) by (by destruct Hss as (-> & ? & _)).
  destruct (Verify_signed _ _ _ _ _ Hs Hu Hv) as [-> Hn]. by exists how, uid, w, t.
Qed.
Lemma inv_request r c w l : pr_cookie r = Some c -> authentic l c -> auth_inv (MkAuthRun w l) ->
  auth_inv (MkAuthRun (snd (RequireSession secret service interval r w))
    (l ++ entry c (fst (RequireSession secret service interval r w)) w (snd (RequireSession secret service interval r w)))).
Proof.
  intros Hc Ha [Hids Hl]. pose proof (RequireSession_passes r c w Hc) as Ho. unfold wp in Ho.
  destruct (RequireSession secret service interval r w) as [a w']. cbn [fst snd] in *. destruct Ho as [Hq Ho].
  apply auth_inv_add; [by eapply ids_quiet|done|]. destruct a as [[|id via]|e']; [by intros e ?%elem_of_nil| |by intros e ?%elem_of_nil].
  destruct Ho as (sess & now & Hnow & Hv & _ & -> & Hpass). destruct (cookie_session l c now sess Hl Ha Hv) as (how & uid & wi & t & Hin & Hss & Hexp).
  pose proof Hss as (Huid & Hvalid & Hk). cbn [ar_events]. set (l' := l ++ entry c _ w w').
  assert (Hmono : forall e, e ∈ l -> e ∈ l') by (intros e He; apply elem_of_app; by left).
  assert (Hsign : SIsSuperAdmin sess = false -> SIsLocalAccount sess = false -> from_directory how /\ SLastVerifiedAt sess <= t /\ signed_in l uid (SExpiresAt sess)).
  { intros Esu Elo. destruct how as [u p|u p|p|]; [|by destruct Hk as (_ & ? & _); congruence|by destruct Hk as [? _]; congruence|by destruct Hk as (_ & _ & ? & ?)].
    destruct Hk as (_ & _ & ? & ?). split; [done|]. split; [done|]. by exists u, p, c, wi, t. }
  assert (Hearlier : forall u, signed_in l u (SExpiresAt sess) -> signed_in l' u (w_clock w)).
  { intros u (u0 & p & c0 & w0 & t0 & Hin0 & Ht0). exists u0, p, c0, w0, t0. split; [by apply Hmono|lia]. }
  assert (Hentered : event_ok l' (Entered c (identity_of sess) via w)).
  { cbn [event_ok]. unfold earned, identity_of. cbn [id_IsSuperAdmin id_IsLocalAccount id_UserID]. destruct (SIsSuperAdmin sess) eqn:Esu.
    { destruct how as [u p|u p|p|]; try by destruct Hk as (? & _); congruence. destruct Hk as [_ ?]. exists p, uid, wi, t. split; [by apply Hmono|lia]. }
    destruct (SIsLocalAccount sess) eqn:Elo.
    { destruct how as [u p|u p|p|]; [by destruct Hk as (_ & ? & _)| |by destruct Hk|by destruct Hk as (_ & ? & _)].
      destruct Hk as (_ & _ & ?). exists u, p, wi, t. rewrite Huid. split; [by apply Hmono|lia]. }
    destruct (Hsign eq_refl eq_refl) as (Hfrom & Hlast & Hin2). rewrite Huid. split; [by apply Hearlier|]. destruct via as [|c' age|]; [| |rewrite <-Huid; by destruct Hpass as (_ & _ & ?)].
    - exists how, wi, t. split; [by apply Hmono|]. split; [done|]. specialize (Hpass eq_refl eq_refl). lia.
    - destruct Hpass as (_ & _ & _ & n & Hn & _). exists (w_clock w'). split; [|lia]. unfold l', entry. cbn [id_UserID identity_of]. rewrite Huid.
      apply elem_of_app. right. apply elem_of_app. left. by apply list_elem_of_singleton. }
  intros e. unfold entry. intros [Hi|Hi]%elem_of_app; [|by apply list_elem_of_singleton in Hi as ->].
  destruct via as [|c' age|]; [by apply elem_of_nil in Hi| |by apply elem_of_nil in Hi]. apply list_elem_of_singleton in Hi as ->.
  destruct Hpass as (Esu & Elo & Hconf & n & Hn & Hs). destruct (Hsign Esu Elo) as (_ & _ & Hin2). cbn [event_ok credentials identity_of id_UserID]. split; [done|].
  eexists. split; [exact Hs|]. split; [done|]. cbn [SUserID SIsSuperAdmin SIsLocalAccount SLastVerifiedAt SExpiresAt]. rewrite Huid. split; [done|].
  split_and!; [done|done|lia|]. by eapply signed_in_mono.
Qed.
Lemma auth_step_inv r r' : auth_step r r' -> auth_inv r -> auth_inv r'.
Proof.
  intros [s u p w l|u p w l|p w l|rq c w l|w w' l] Hi; [by apply inv_directory|by apply inv_password|by apply inv_breakglass|by apply inv_request|].
  destruct Hi as [_ Hl]. by split.
Qed.

Lemma auth_run_inv r r' : rtc auth_step r r' -> auth_inv r -> auth_inv r'.
Proof. induction 1 as [|x y z Hs _ IH]; [done|]. intros Hi. by apply IH, (auth_step_inv x). Qed.

(** C36: over any run of logins of the three kinds and of requests with any cookie
    nobody forged, in any order, between any changes to everything else: whoever
    is shown a page signed in less than a day before in the way the page treats
    them (the break-glass password as it was stored, a local account's password,
    or the directory's word with the access group); and someone of the directory
    was, within the recheck interval, in the access group, or is found to be now,
    unless the directory, or the renewal of the cookie, failed. *)
Theorem access_is_earned w r e : ids_ok w -> rtc auth_step (MkAuthRun w []) r -> e ∈ ar_events r ->
  match e with
  | Issued how uid c w1 t => credentials how uid w1
  | Entered c id via w1 => earned (ar_events r) c id via w1
  end.
Proof.
  intros Hids Hr He. destruct (auth_run_inv _ _ Hr) as [_ Hi]; [by split; [|intros e' ?%elem_of_nil]|].
  specialize (Hi e He). destruct e; [by destruct Hi|done].
Qed.
End Runs.
