(* ===== verification/LoginMain.v ===== *)
(** * The login service as the server puts it together ([cmd/sparky-server])

    [main] gives the login the LDAP directory, the groups service and the e-mail
    service; they keep the contract [LoginSpec] asks for.  Then the setup of a
    new installation. *)
From stdpp Require Import base list strings gmap relations.
From Stdlib Require Import ZArith Lia.
From Stdlib Require Import Ascii.
From Stdlib Require String.
From S2P Require Import Prelude Text Json Db NodeToken GoTime JsonText Session LoginGuard LoginGuardSpec Ldap Passwords Rbac GroupStore Groups EmailStore Email Login LoginSpec.
Local Open Scope string_scope.
Local Open Scope list_scope.
Local Open Scope Z_scope.

(** ** [main] *)
Section Main.
Context `{Env} `{LdapServer}.
(** [cfg.LDAPConfigured] is [Some]; the provider is the directory of the groups too. *)
Definition main_login_service (cfg : option LDAPProvider) (directory : option GroupDirectory) : option LoginService :=
  match cfg with
  | Some p => Some (MkLoginService (MkProvider (Authenticate p) (IsInAccessGroup p)) (Some (RefreshUser directory)) (Some RecordDirectoryEmail))
  | None => None
  end.
End Main.

(** ** What leaves the accounts alone *)
Section Quiet.
Context `{Env}.
#[local] Instance quiet_answer `{LdapServer} {A} (f : N -> result A) : Evolves quiet (answer f).
Proof. intros w. apply quiet_bump. Qed.
#[local] Instance quiet_ask {A} (f : N -> result A) : Evolves quiet (ask f).
Proof. intros w. apply quiet_bump. Qed.
#[local] Instance quiet_logf fmt : Evolves quiet (logf fmt).
Proof. intros w. by split_and!. Qed.
#[local] Instance quiet_log_on_error {A} fmt (m : M A) : Evolves quiet m -> Evolves quiet (log_on_error fmt m).
Proof. intros Hm. unfold log_on_error. apply _. Qed.
Lemma quiet_sql {A} (f : World -> error + (A * World)) : (forall w a w', f w = inr (a, w') -> quiet w w') -> Evolves quiet (sql f).
Proof.
  intros Hf w. unfold sql. destruct (fault _); [apply quiet_bump|]. destruct (f (bump w)) as [e|[a w']] eqn:E; [apply quiet_bump|].
  etransitivity; [apply quiet_bump|by eapply Hf].
Qed.
#[local] Instance quiet_query {A} (g : World -> A) : Evolves quiet (query g).
Proof. apply quiet_sql. by intros w a w' [= _ <-]. Qed.
Lemma quiet_transaction {A} pb pc (body : Time -> M A) : (forall t, Evolves quiet (body t)) -> Evolves quiet (transaction pb pc body).
Proof.
  intros Hb w. change (wp (transaction pb pc body) w (fun _ w' => quiet w w')). apply wp_transaction; [intros; apply quiet_bump|].
  pose proof (Hb (w_clock (bump w)) (bump w)) as Hq. unfold wp. destruct (body _ _) as [[a|e] w2]; cbn [fst snd] in *.
  - split; [etransitivity; [apply quiet_bump|]; by etransitivity; [|apply quiet_bump]|]. intros _. split_and!; [done|done|]. destruct Hq as (_ & _ & ?). cbn in *. lia.
  - split_and!; [done|done|]. destruct Hq as (_ & _ & ?). cbn in *. lia.
Qed.
#[local] Instance quiet_replace u dns : Evolves quiet (ReplaceUserMemberships u dns).
Proof.
  unfold ReplaceUserMemberships. cbv zeta. apply quiet_transaction. intros _. apply evolves_bind; [apply _|apply evolves_wrap; apply quiet_sql|intros _].
  - by intros w a w' [= _ <-].
  - apply evolves_when; [apply _|]. apply evolves_wrap, quiet_sql. intros w a w'. destruct (negb _); [done|]. by intros [= _ <-].
Qed.
Instance quiet_RefreshUser dir u dn : Evolves quiet (RefreshUser dir u dn).
Proof. unfold RefreshUser, MappedDNs. apply _. Qed.
#[local] Instance quiet_SetDirectory u a : Evolves quiet (SetDirectory u a).
Proof.
  unfold SetDirectory, set_address. apply evolves_wrap, quiet_sql. intros w x w'. cbv zeta. repeat case_match; try done; intros [= _ <-]; done.
Qed.
Instance quiet_RecordDirectoryEmail u a : Evolves quiet (RecordDirectoryEmail u a).
Proof. unfold RecordDirectoryEmail. apply _. Qed.
Context `{LdapServer}.
Instance quiet_Authenticate p u pw : Evolves quiet (Authenticate p u pw).
Proof. unfold Authenticate, connect, findUser, verifyPassword, isMemberOf, dial, bind_as, search. apply _. Qed.
Instance quiet_IsInAccessGroup p dn : Evolves quiet (IsInAccessGroup p dn).
Proof. unfold IsInAccessGroup, connect, isMemberOf, dial, bind_as, search. apply _. Qed.
End Quiet.

Section Contract.
Context `{Env} `{LdapServer}.
Instance RefreshUser_never_fails dir u dn : Raises (fun _ => False) (RefreshUser dir u dn).
Proof. unfold RefreshUser. repeat case_match; try apply _; (apply raises_bind; [apply _|]); intros; repeat case_match; try apply _; (apply raises_bind; [repeat case_match; apply _|]); intros; repeat case_match; apply _. Qed.
Instance RecordDirectoryEmail_never_fails u a : Raises (fun _ => False) (RecordDirectoryEmail u a).
Proof. unfold RecordDirectoryEmail. apply _. Qed.
#[export] Instance main_service_quiet cfg dir s : main_login_service cfg dir = Some s -> QuietService s.
Proof.
  destruct cfg as [p|]; [|done]. intros [= <-]. split; cbn.
  - intros u pw. apply quiet_Authenticate.
  - intros dn. apply quiet_IsInAccessGroup.
  - intros f u dn [= <-]. split; [apply quiet_RefreshUser|apply _].
  - intros f u a [= <-]. split; [apply quiet_RecordDirectoryEmail|apply _].
Qed.
End Contract.

(** ** Setup *)
Section Setup.
Context `{Env} `{PasswordHasher} `{!PasswordHasherLaws} `{RandomSource}.
Lemma wp_hash_password p w (Q : result string -> World -> Prop) : (forall e, Q (Err e) (bump w)) ->
  (forall h, VerifyPassword p h = Ok true -> Q (Ok h) (bump w)) -> wp (hash_password p) w Q.
Proof. intros He Hh. eapply wp_run; [reflexivity|]. destruct (HashPassword (w_calls w) p) as [h|e] eqn:E; [|apply He]. apply Hh. by eapply verify_hash. Qed.
Lemma by_local_username_insert n w id u : by_local_username n w = None -> LocalUsername u = Some n ->
  by_local_username n (set_w_users (<[id := u]> (w_users w)) w) = Some u.
Proof.
  intros Hn Hu. unfold by_local_username in *. apply fmap_None in Hn.
  destruct (List.find _ (map_to_list (w_users (set_w_users _ w)))) as [[id' u']|] eqn:Ef; cbn in Ef.
  - apply List.find_some in Ef as [Hin Hb]. apply list_elem_of_In, elem_of_map_to_list, lookup_insert_Some in Hin as [[<- <-]|[_ Hin]]; [done|].
    apply elem_of_map_to_list, list_elem_of_In in Hin. by rewrite (List.find_none _ _ Hn _ Hin) in Hb.
  - assert (Hin : (id, u) ∈ map_to_list (<[id := u]> (w_users w))) by (apply elem_of_map_to_list, lookup_insert_eq).
    apply list_elem_of_In in Hin. apply (List.find_none _ _ Ef) in Hin. cbn in Hin. by apply bool_decide_eq_false in Hin.
Qed.
Definition admin_of (p : string) (w w' : World) : Prop :=
  by_local_username "admin" w = None /\ exists user, password_is "admin" p w' user /\ UTier user = TierAdmin /\
    w_users w !! UserID user = None /\ w_users w' = <[UserID user := user]> (w_users w).
Lemma wp_bootstrap w (Q : result (option string) -> World -> Prop) :
  (forall e w', w_users w' = w_users w -> w_breakglass w' = w_breakglass w -> Q (Err e) w') ->
  (forall w', w_users w' = w_users w -> w_breakglass w' = w_breakglass w -> is_Some (by_local_username "admin" w) -> Q (Ok None) w') ->
  (forall p w', w_breakglass w' = w_breakglass w -> admin_of p w w' -> Q (Ok (Some p)) w') ->
  wp bootstrapDefaultAdminAccount w Q.
Proof.
  intros He Hs Hn. unfold bootstrapDefaultAdminAccount, GenerateInitialPassword, CreateLocal.
  apply wp_bind, wp_attempt, wp_FindByLocalUsername; [|intros u Hu; apply wp_ret, Hs; eauto].
  intros e. destruct (errors_Is e "db.ErrUserNotFound"); [|by apply He].
  apply wp_bind, wp_wrap, wp_bind, wp_wrap, wp_query; [intros; by apply He|intros _]. apply wp_ret.
  apply wp_bind, wp_wrap, wp_hash_password; [intros; by apply He|]. intros h Hh.
  apply wp_bind, wp_wrap, wp_bind, wp_map_err, wp_wrap, wp_sql; [intros; by apply He|intros _].
  match goal with |- context [if ?b then _ else _] => destruct b eqn:Eb end; [by apply He|]. apply orb_false_iff in Eb as [Eid Eb].
  apply bool_decide_eq_false, eq_None_not_Some in Eid. apply bool_decide_eq_false, eq_None_not_Some in Eb. apply wp_ret, wp_ret, Hn; [done|].
  split; [done|]. eexists. split; [split; [by apply by_local_username_insert|exact Hh]|done].
Qed.

(** C38: setup: when it ends well the two prompts agreed on at least twelve bytes
    and that password is the break-glass one, whatever it was before; there is a
    local account [admin]: the one that was there, untouched, password and all,
    or a new administrator whose password is the one printed; no other account is
    touched, even by a setup that fails. *)
Theorem runSetup_spec password confirm w : wp (runSetup password confirm) w (fun r w' =>
  match r with
  | Ok made => password = confirm /\ 12 <= len password /\ breakglass_is password w' /\
      match made with
      | None => w_users w' = w_users w /\ is_Some (by_local_username "admin" w)
      | Some p => admin_of p w w'
      end
  | Err _ => w_users w' = w_users w /\ (w_breakglass w' = w_breakglass w \/ (password = confirm /\ 12 <= len password /\ breakglass_is password w'))
  end).
Proof.
  unfold runSetup, promptAndSetSuperAdminPassword, minSuperAdminPasswordLength. apply wp_bind, wp_attempt.
  apply wp_quiet_call; [unfold Get_breakglass; apply evolves_bind; [apply _|apply evolves_wrap, quiet_query|intros []; apply _]|].
  intros r w1 _ (U1 & B1 & _). apply wp_bind. match goal with |- wp ?m w1 ?Q => enough (Hk : Q (Ok tt) w1) end.
  { destruct r; [exact Hk|]. apply wp_guard; [done|]. intros _. split; [done|by left]. }
  apply wp_bind, wp_wrap, wp_bind, wp_guard; intros Hpw; [|split; [done|by left]].
  apply wp_bind, wp_guard; intros Hlen; [|split; [done|by left]]. propb.
  apply wp_bind, wp_wrap, wp_hash_password; [intros; split; [done|by left]|]. intros h Hh.
  apply wp_bind, wp_wrap, wp_wrap, wp_exec; [intros; split; [done|by left]|intros _].
  apply wp_logf. set (w2 := set_w_logs _ _). assert (U2 : w_users w2 = w_users w) by done. assert (B2 : breakglass_is password w2) by (by eexists).
  assert (Hkeep : forall w', w_breakglass w' = w_breakglass w2 -> breakglass_is password w') by (intros w' E; unfold breakglass_is; by rewrite E).
  apply wp_wrap, wp_bootstrap; intros.
  - split; [congruence|]. right. auto.
  - split_and!; auto; try congruence. unfold by_local_username in *. by rewrite <-U2.
  - split_and!; auto. unfold admin_of, by_local_username in *. by rewrite <-U2.
Qed.
End Setup.
Definition no_random : RandomSource := fun _ n => repeat 7 n.
Lemma runSetup_spec_witness :
  let m := @runSetup quiet_env toy_hasher no_random "correct horse battery" "correct horse battery" empty_world in
  exists p, fst m = Ok (Some p) /\ @breakglass_is toy_hasher "correct horse battery" (snd m) /\ @admin_of toy_hasher p empty_world (snd m).
Proof.
  cbv zeta. pose proof (@runSetup_spec quiet_env toy_hasher toy_hasher_laws no_random "correct horse battery" "correct horse battery" empty_world) as Hs. unfold wp in Hs.
  assert (Hr : match fst (@runSetup quiet_env toy_hasher no_random "correct horse battery" "correct horse battery" empty_world) with Ok (Some _) => true | _ => false end = true) by (vm_compute; reflexivity).
  destruct (@runSetup quiet_env toy_hasher no_random _ _ _) as [[[p|]|] w']; try discriminate Hr. destruct Hs as (_ & _ & Hb & Ha). exists p. split; [reflexivity|]. by split.
Defined.

(** ** A run: ann signs in, and comes back two hours later *)
Definition one_uuid_env : Env := {|
  fault := fun _ => None;
  gen_random_uuid := fun _ => "0b9a43b6-3c1e-4a52-8f0e-6f1f8a2c7d10";
  tick := fun _ => 1%N;
  agent_connected := fun _ _ => true
|}.
Definition demo_entry : Entry :=
  MkEntry "cn=ann" (fun a => if bool_decide (a = "mail") then "ann@example.org" else "Ann")
    (fun _ => [1; 5; 0; 0; 0; 0; 0; 5; 21; 0; 0; 0; 199; 217; 252; 215; 60; 96; 87; 200; 180; 87; 206; 1; 245; 3; 0; 0]).
Definition demo_ldap : LdapServer := {|
  ldap_dial := fun _ => Ok tt;
  ldap_bind := fun _ _ _ => Ok tt;
  ldap_search := fun _ _ => Ok [demo_entry];
  EscapeFilter := fun s => s
|}.
Definition demo_cfg : LDAPProvider := MkLDAPProvider "cn=svc" "svc" "dc=example" "cn=users".
Definition demo_service : LoginService :=
  default (MkLoginService (MkProvider (fun _ _ => throw ErrInvalidCredentials) (fun _ => mret false)) None None)
    (@main_login_service one_uuid_env demo_ldap (Some demo_cfg) None).
Definition demo_login := @Login one_uuid_env "key" demo_service "ann" "pw" empty_world.
Definition demo_cookie : string := match fst demo_login with Ok (_, c) => c | Err _ => "" end.
Definition demo_page : PageRequest := MkPageRequest (Some demo_cookie) false.
Definition demo_request (w : World) := @RequireSession one_uuid_env "key" (Some demo_service) hour demo_page w.
Definition demo_before : World := set_w_clock (w_clock (snd demo_login) + 2 * hour) (snd demo_login).
Lemma demo_signed_in : exists u, fst demo_login = Ok (u, demo_cookie).
Proof. unfold demo_cookie. assert (Hok : is_ok (fst demo_login) = true) by (vm_compute; reflexivity). destruct (fst demo_login) as [[u c]|]; [by eexists|done]. Qed.
Definition demo_events : list AuthEvent := issue (ByDirectory "ann" "pw") (of_user (fst demo_login)) empty_world (snd demo_login).
Definition demo_back : AuthRun :=
  MkAuthRun (snd (demo_request demo_before)) (([] ++ demo_events) ++ entry demo_cookie (fst (demo_request demo_before)) demo_before (snd (demo_request demo_before))).
Abbreviation demo_step := (@auth_step one_uuid_env plain_hasher "key" (Some demo_service) hour).
Lemma demo_authentic : authentic "key" ([] ++ demo_events) demo_cookie.
Proof.
  intros p _. destruct demo_signed_in as [u Hu]. unfold demo_events, issue. rewrite Hu. cbn [of_user app]. do 4 eexists. apply list_elem_of_singleton. reflexivity.
Qed.
Lemma demo_service_quiet s : Some demo_service = Some s -> @QuietService one_uuid_env s.
Proof. intros E. apply (@main_service_quiet one_uuid_env demo_ldap (Some demo_cfg) None s). exact E. Qed.
Lemma demo_window : window_ok hour.
Proof. split; [vm_compute; discriminate|vm_compute; reflexivity]. Qed.
Lemma ids_clock t w : ids_ok w -> ids_ok (set_w_clock t w).
Proof. by destruct w. Qed.
Lemma demo_ids : ids_ok empty_world.
Proof. intros id u Hu. change (w_users empty_world) with (∅ : gmap string User) in Hu. by rewrite lookup_empty in Hu. Qed.
Lemma demo_run : rtc demo_step (MkAuthRun empty_world []) demo_back.
Proof.
  assert (Hin : demo_step (MkAuthRun empty_world []) (MkAuthRun (snd demo_login) ([] ++ demo_events))) by (apply step_directory; reflexivity).
  eapply rtc_l; [exact Hin|]. eapply rtc_l; [apply (step_other _ _ _ _ demo_before)|].
  - destruct (auth_step_inv "key" (Some demo_service) hour demo_service_quiet (fun _ => eq_refl) demo_window _ _ Hin) as [Hids _]; [|by apply ids_clock].
    split; [apply demo_ids|by intros e ?%elem_of_nil].
  - apply Z.leb_le. vm_compute. reflexivity.
  - eapply rtc_l; [apply (step_request "key" _ _ demo_page demo_cookie); [reflexivity|apply demo_authentic]|apply rtc_refl].
Qed.
Lemma access_is_earned_witness : exists id c age,
  Entered demo_cookie id (Reconfirmed c age) demo_before ∈ ar_events demo_back /\
  earned "key" (Some demo_service) hour (ar_events demo_back) demo_cookie id (Reconfirmed c age) demo_before.
Proof.
  assert (Hr : match fst (demo_request demo_before) with Ok (Proceed _ (Reconfirmed _ _)) => true | _ => false end = true) by (vm_compute; reflexivity).
  destruct (fst (demo_request demo_before)) as [[|id [|c age|]]|] eqn:E; try discriminate Hr. exists id, c, age.
  assert (Hin : Entered demo_cookie id (Reconfirmed c age) demo_before ∈ ar_events demo_back).
  { unfold demo_back. cbn [ar_events]. rewrite E. apply elem_of_app. right. apply elem_of_app. right. apply list_elem_of_singleton. reflexivity. }
  split; [exact Hin|].
  exact (@access_is_earned one_uuid_env plain_hasher "key" (Some demo_service) hour demo_service_quiet (fun _ => eq_refl) demo_window
    empty_world demo_back _ demo_ids demo_run Hin).
Defined.
Lemma Login_spec_witness : exists user, fst demo_login = Ok (user, demo_cookie) /\
  @login_outcome one_uuid_env "key" demo_service "ann" "pw" empty_world (fst demo_login) (snd demo_login).
Proof.
  destruct demo_signed_in as [u Hu]. exists u. split; [exact Hu|].
  exact (@Login_spec one_uuid_env "key" demo_service (demo_service_quiet demo_service eq_refl) "ann" "pw" empty_world).
Defined.
