(* ===== verification/EngineProbe.v ===== *)
(** * What an agent reads from an engine ([agent/connection/readiness.go])

    The answers of an engine's HTTP interface: the list of its models, the probe
    completion, and the two load figures of its Prometheus text.  An answer is
    a status and a body; a JSON body is given as the value that is read. *)
From stdpp Require Import base list strings gmap.
From Stdlib Require Import ZArith Lia.
From Stdlib Require Import Ascii.
From Stdlib Require String.
From S2P Require Import Prelude Text Json GoTime JsonText.
Local Open Scope string_scope.
Local Open Scope list_scope.
Local Open Scope Z_scope.

(** ** Probes *)
Record engineProbe := MkProbe { modelsPath : string; chatCompletionsPath : string; metricsPath : string }.
Definition openai_probe : engineProbe := MkProbe "/v1/models" "/v1/chat/completions" "/metrics".
Definition engineProbes (engineType : string) : option engineProbe :=
  if bool_decide (engineType ∈ ["vllm"; "aphrodite"; "llamacpp"]) then Some openai_probe else None.

(** ** Answers *)
Record Response := MkResponse { rs_Status : Z; rs_Body : string; rs_JSON : RawMessage }.
Definition ok_status (r : Response) : bool := (200 <=? rs_Status r) && (rs_Status r <? 300).
(** [dec.Decode] into a struct that ignores unknown fields: [f] handles the
    fields it has; a value of another type is an error at the end. *)
Section Lenient.
Context {S : Type} (f : string -> json -> S -> option S).
Fixpoint decode_members (l : list (string * json)) (dst : S) : option S :=
  match l with
  | [] => Some dst
  | (k, v) :: l' => match f k v dst with Some dst' => decode_members l' dst' | None => None end
  end.
Definition decode_object (zero : S) (v : json) : option S :=
  match v with JObj l => decode_members l zero | JNull => Some zero | _ => None end.
End Lenient.
Definition is_field (name key : string) : bool := equal_fold name key.
Definition text_field (v : json) (old : string) : option string :=
  match v with JStr s => Some s | JNull => Some old | _ => None end.
Fixpoint decode_list {X} (f : json -> option X) (l : list json) : option (list X) :=
  match l with
  | [] => Some []
  | v :: l' => match f v, decode_list f l' with Some x, Some xs => Some (x :: xs) | _, _ => None end
  end.
Definition list_field {X} (f : json -> option X) (v : json) (old : list X) : option (list X) :=
  match v with JArr l => decode_list f l | JNull => Some [] | _ => None end.

(** [modelsListResponse]: the ids. *)
Definition model_id (v : json) : option string :=
  decode_object (fun k v old => if is_field "id" k then text_field v old else Some old) "" v.
Definition models_list (v : json) : option (list string) :=
  decode_object (fun k v old => if is_field "data" k then list_field model_id v old else Some old) [] v.
(** [completionProbeResponse]: the three texts of each choice, and whether there
    is an [error], [null] or not. *)
Record Choice := MkChoice { ch_Content : string; ch_Reasoning : string; ch_ReasoningContent : string }.
Definition no_choice : Choice := MkChoice "" "" "".
Definition message_field (k : string) (v : json) (c : Choice) : option Choice :=
  if is_field "content" k then option_map (fun s => MkChoice s (ch_Reasoning c) (ch_ReasoningContent c)) (text_field v (ch_Content c))
  else if is_field "reasoning" k then option_map (fun s => MkChoice (ch_Content c) s (ch_ReasoningContent c)) (text_field v (ch_Reasoning c))
  else if is_field "reasoning_content" k then option_map (fun s => MkChoice (ch_Content c) (ch_Reasoning c) s) (text_field v (ch_ReasoningContent c))
  else Some c.
Definition choice (v : json) : option Choice :=
  decode_object (fun k v old => if is_field "message" k then decode_object message_field old v else Some old) no_choice v.
Record Completion := MkCompletion { cp_Choices : list Choice; cp_Error : bool }.
Definition completion (v : json) : option Completion :=
  decode_object (fun k v old =>
    if is_field "choices" k then option_map (fun l => MkCompletion l (cp_Error old)) (list_field choice v (cp_Choices old))
    else if is_field "error" k then Some (MkCompletion (cp_Choices old) true) else Some old) (MkCompletion [] false) v.
Definition decoded {X} (f : json -> option X) (r : Response) : option X :=
  match rs_JSON r with Raw v _ => f v | _ => None end.

(** [fetchServedModelID], [httpGetOK] and [completionProbeOK] of an answer, if
    there was one. *)
Definition fetchServedModelID (r : option Response) : bool * string :=
  match r with
  | None => (false, "")
  | Some r =>
      if negb (ok_status r) then (false, "")
      else match decoded models_list r with
           | Some (id :: _) => (true, trim_space id)
           | _ => (true, "")
           end
  end.
Definition httpGetOK (r : option Response) : bool := match r with Some r => ok_status r | None => false end.
Definition blank (s : string) : bool := bool_decide (trim_space s = "").
Definition says_something (c : Choice) : bool := negb (blank (ch_Content c)) || negb (blank (ch_Reasoning c)) || negb (blank (ch_ReasoningContent c)).
Definition completionProbeOK (r : option Response) : bool :=
  match r with
  | None => false
  | Some r =>
      if negb (ok_status r) then false
      else match decoded completion r with
           | None => false
           | Some c => negb (cp_Error c) && match cp_Choices c with [] => false | m :: _ => says_something m end
           end
  end.

(** ** [strconv.ParseFloat]

    The syntax of Go's floating-point numbers; the value is the decimal that is
    written, not rounded to 53 bits ([float64] of Json.v). *)
Definition digit_of (hex : bool) (c : ascii) : option Z :=
  if is_digit c then Some (code c - 48) else if hex then hex_digit c else None.
Fixpoint underscoreOK (hex digit underscore : bool) (l : list ascii) : bool :=
  match l with
  | [] => negb underscore
  | c :: l' =>
      if bool_decide (is_Some (digit_of hex c)) then underscoreOK hex true false l'
      else if is_char 95 c then digit && underscoreOK hex false true l'
      else negb underscore && underscoreOK hex false false l'
  end.
(** The digits with at most one dot: the value, the digits after the dot,
    whether there was a digit, and what follows. *)
Fixpoint mantissa (hex sawdot : bool) (m frac : Z) (digits : bool) (l : list ascii) : Z * Z * bool * list ascii :=
  match l with
  | [] => (m, frac, digits, [])
  | c :: l' =>
      if is_char 95 c then mantissa hex sawdot m frac digits l'
      else if is_char 46 c then if sawdot then (m, frac, digits, l) else mantissa hex true m frac digits l'
      else match digit_of hex c with
           | Some d => mantissa hex sawdot (m * (if hex then 16 else 10) + d) (if sawdot then frac + 1 else frac) true l'
           | None => (m, frac, digits, l)
           end
  end.
Fixpoint exponent_digits (e : Z) (l : list ascii) : Z * list ascii :=
  match l with
  | c :: l' =>
      if is_char 95 c then exponent_digits e l'
      else if is_digit c then exponent_digits (if e <? 10000 then e * 10 + (code c - 48) else e) l' else (e, l)
  | [] => (e, [])
  end.
Definition signed_exponent (l : list ascii) : option (Z * list ascii) :=
  let '(neg, l) := match l with c :: l' => if is_char 45 c then (true, l') else if is_char 43 c then (false, l') else (false, l) | [] => (false, []) end in
  match l with
  | c :: _ => if is_digit c then let (e, rest) := exponent_digits 0 l in Some (if neg : bool then - e else e, rest) else None
  | [] => None
  end.
Definition lower_is (n : Z) (c : ascii) : bool := is_char n c || is_char (n - 32) c.
Definition exponent (hex : bool) (l : list ascii) : option (Z * list ascii) :=
  match l with
  | c :: l' => if lower_is (if hex then 112 else 101) c then signed_exponent l' else if hex then None else Some (0, l)
  | [] => if hex then None else Some (0, [])
  end.
Definition scaled (hex : bool) (m frac e : Z) : float64 :=
  if hex then
    let k := e - 4 * frac in
    if 0 <=? k then FDec (m * 2 ^ k) 0 else FDec (m * 5 ^ (- k)) k
  else FDec m (e - frac).
(** [2^1024 - 2^970] is half way to the next float. *)
Definition overflows (f : float64) : bool :=
  match f with FDec m e => (if 0 <=? e then 2 ^ 1024 - 2 ^ 970 <=? Z.abs m * 10 ^ e else (2 ^ 1024 - 2 ^ 970) * 10 ^ (- e) <=? Z.abs m) | _ => false end.
Definition parse_number (s : string) : option float64 :=
  let l := bytes s in
  let '(neg, l) := match l with c :: l' => if is_char 45 c then (true, l') else if is_char 43 c then (false, l') else (false, l) | [] => (false, []) end in
  let '(hex, body) := match l with z :: x :: l' => if is_char 48 z && lower_is 120 x then (true, l') else (false, l) | _ => (false, l) end in
  let '(m, frac, digits, rest) := mantissa hex false 0 0 false body in
  if negb digits then None
  else match exponent hex rest with
       | Some (e, []) =>
           if existsb (is_char 95) l && negb (underscoreOK hex hex false body) then None
           else let f := scaled hex (if neg : bool then - m else m) frac e in if overflows f then None else Some f
       | _ => None
       end.
Definition ParseFloat (s : string) : option float64 :=
  if existsb (equal_fold s) ["inf"; "+inf"; "infinity"; "+infinity"] then Some (FInf false)
  else if existsb (equal_fold s) ["-inf"; "-infinity"] then Some (FInf true)
  else if equal_fold s "nan" then Some FNaN
  else parse_number s.
Example floats :
  map ParseFloat ["12"; "-0.25"; "1e3"; ".5"; "5."; "0x1p-2"; "1_000"; "+Inf"; "nan"] =
    [Some (FDec 12 0); Some (FDec (-25) (-2)); Some (FDec 1 3); Some (FDec 5 (-1)); Some (FDec 5 0); Some (FDec 25 (-2)); Some (FDec 1000 0); Some (FInf false); Some FNaN] /\
  map ParseFloat [""; "."; "1e"; "0x1"; "1__0"; "_1"; "1e400"; "-nan"; "12 "] = repeat None 9.
Proof. by vm_compute. Qed.

(** ** [readMetrics] *)
(** [strings.Fields] on the decoded characters. *)
Fixpoint fields_of (l : list (Z * list ascii)) (cur : list (Z * list ascii)) : list (list (Z * list ascii)) :=
  match l with
  | [] => if bool_decide (cur = []) then [] else [cur]
  | c :: l' => if is_space c.1 then (if bool_decide (cur = []) then [] else [cur]) ++ fields_of l' [] else fields_of l' (cur ++ [c])
  end.
Definition Fields (s : string) : list string := map unchunk (fields_of (chunks s) []).
(** What [bufio.Scanner] gives of a text: its lines up to one that does not fit
    its buffer. *)
Definition maxScanTokenSize : Z := 65536.
Fixpoint scanned_lines (l : list string) : list string :=
  match l with [] => [] | x :: l' => if len x <? maxScanTokenSize then x :: scanned_lines l' else [] end.
Fixpoint before_brace (l : list ascii) : list ascii :=
  match l with c :: l' => if is_char 123 c then [] else c :: before_brace l' | [] => [] end.
Definition knownMetrics (name : string) : option string :=
  if bool_decide (name = "vllm:num_requests_running") then Some "num_requests_running"
  else if bool_decide (name = "vllm:num_requests_waiting") then Some "num_requests_waiting" else None.
Definition metric_line (line : string) : option (string * float64) :=
  let line := trim_space line in
  if bool_decide (line = "") || has_prefix line "#" then None
  else match Fields line with
       | [name; value] =>
           match knownMetrics (of_bytes (before_brace (bytes name))), ParseFloat value with
           | Some key, Some v => Some (key, v)
           | _, _ => None
           end
       | _ => None
       end.
Definition read_lines (l : list string) : gmap string float64 :=
  foldl (fun acc line => match metric_line line with Some (k, v) => <[k := v]> acc | None => acc end) ∅ l.
Definition readMetrics (r : option Response) : gmap string float64 :=
  match r with
  | None => ∅
  | Some r => if ok_status r then read_lines (scanned_lines (split_text 10 (rs_Body r))) else ∅
  end.
Definition newline : string := of_bytes [ascii_of_N 10].
Example metrics_text :
  readMetrics (Some (MkResponse 200 ("# TYPE vllm:num_requests_running gauge" +:+ newline +:+ "vllm:num_requests_running{engine=0} 2.0" +:+ newline
    +:+ "vllm:num_requests_waiting 1 extra" +:+ newline +:+ "vllm:num_requests_waiting nope") RawEmpty)) = {["num_requests_running" := FDec 20 (-1)]}.
Proof. by vm_compute. Qed.

(** ** [Duration.String] *)
Fixpoint trim_zeros (l : list ascii) : list ascii :=
  match l with c :: l' => if is_char 48 c then trim_zeros l' else l | [] => [] end.
Definition frac_text (w : nat) (v : Z) : string := if v =? 0 then "" else "." +:+ of_bytes (rev (trim_zeros (rev (digits w v)))).
Definition Duration_text (d : Z) : string :=
  let u := Z.abs d in
  let sign := if d <? 0 then "-" else "" in
  if u =? 0 then "0s"
  else if u <? 1000 then sign +:+ itoa u +:+ "ns"
  else if u <? 1000000 then sign +:+ itoa (u / 1000) +:+ frac_text 3 (u mod 1000) +:+ "µs"
  else if u <? second then sign +:+ itoa (u / 1000000) +:+ frac_text 6 (u mod 1000000) +:+ "ms"
  else
    let s := u / second in
    let secs := itoa (s mod 60) +:+ frac_text 9 (u mod second) +:+ "s" in
    sign +:+ (if s <? 60 then secs
              else if s <? 3600 then itoa (s / 60) +:+ "m" +:+ secs
              else itoa (s / 3600) +:+ "h" +:+ itoa (s / 60 mod 60) +:+ "m" +:+ secs).
Example durations : map Duration_text [600 * second; 1500000000; 3661 * second; 1500000; 250; 0] = ["10m0s"; "1.5s"; "1h1m1s"; "1.5ms"; "250ns"; "0s"].
Proof. by vm_compute. Qed.
(** [truncateForErrorMessage] keeps the tail. *)
Definition errorMessageLogExcerptBytes : Z := 4096.
Definition truncateForErrorMessage (logs : string) : string :=
  if len logs <=? errorMessageLogExcerptBytes then logs
  else "..." +:+ of_bytes (drop (String.length logs - Z.to_nat errorMessageLogExcerptBytes) (bytes logs)).
