(* ===== verification/AgentInstances.v ===== *)
(** * The instances of a node ([agent/connection/connection.go], [readiness.go])

    Launching an engine and waiting until it answers, unloading it, the answer
    to a check, the periodic health reports, and the pauses between two
    connections.  The container runtime and the engines' HTTP interfaces are the
    class [EngineHost]: what each call to them answers. *)
From stdpp Require Import base list strings gmap.
From Stdlib Require Import ZArith Lia.
From Stdlib Require Import Ascii.
From Stdlib Require String.
From S2P Require Import Prelude Text Json Db GoTime Wire JsonText Paths ContainerLogs AgentStale AgentLogs EngineProbe.
Local Open Scope string_scope.
Local Open Scope list_scope.
Local Open Scope Z_scope.

Definition defaultInstanceStartupTimeout : Z := 10 * minute.
Definition readinessPollInterval : Z := 2 * second.
Definition logsTailLines : Z := 200.
Definition vllmDefaultImage : string := "vllm/vllm-openai:latest".
(** The part of [Config] that instances use. *)
Record Config := MkConfig {
  cfg_ModelStoragePath : string; cfg_EngineBinaryPaths : gmap string string; cfg_EngineInstallPath : string;
  cfg_RuntimeBackend : string; cfg_InstanceStartupTimeout : Z; cfg_InstanceHealthCheckInterval : Z
}.
(** [runtime.Spec], but for the fields only a probe uses. *)
Record Spec := MkSpec {
  rs_InstanceID : string; rs_EngineType : string; rs_Image : string; rs_ContainerName : string; rs_ProfileID : string;
  rs_BinaryPath : string; rs_Env : list string; rs_Args : list string; rs_Port : Z; rs_Mounts : list string;
  rs_GPUDeviceMechanism : string; rs_CDIDevices : list string; rs_ShmSize : Z; rs_IPCMode : string
}.
Definition ErrNoGPU : error := Sentinel "runtime.ErrNoGPU" "GPU request did not take effect".
Class EngineHost := {
  eng_names : N -> string -> option (list string);
  eng_start : N -> Spec -> option error;
  eng_verify : option (N -> string -> string -> option error);
  eng_running : N -> string -> result bool;
  eng_logs : N -> string -> Z -> result string;
  eng_get : N -> Z -> string -> option Response;
  eng_complete : N -> Z -> string -> string -> option Response;
  eng_cancelled : N -> bool
}.

(** ** What to launch *)
(** [filepath.Base] *)
Fixpoint strip_slashes (l : list ascii) : list ascii := match l with c :: l' => if is_char 47 c then strip_slashes l' else l | [] => [] end.
Definition Base (s : string) : string :=
  if bool_decide (s = "") then "."
  else let t := of_bytes (rev (strip_slashes (rev (bytes s)))) in
       if bool_decide (t = "") then "/" else List.last (split_slash t) "".
Section Launch.
Context (cfg : Config).
Definition resolveModelPath (names_of : string -> option (list string)) (modelRef quantization : string) (requiresFullGPUResidency : bool) : result string :=
  let dir := Join (cfg_ModelStoragePath cfg) modelRef in
  if requiresFullGPUResidency then Ok dir
  else match Glob names_of (Join dir "*.gguf") with
       | None => Err (Errorf ("glob for a .gguf file in " +:+ dir +:+ ": ") ErrBadPattern "")
       | Some matches =>
           if negb (bool_decide (quantization = "")) then
             match List.filter (fun m => contains (Base m) quantization) matches with
             | [m] => Ok m
             | filtered => Err (Opaque ("expected exactly one .gguf file matching quantization " +:+ quote quantization +:+ " in " +:+ dir
                                  +:+ ", found " +:+ itoa (Z.of_nat (length filtered))))
             end
           else match matches with
                | [m] => Ok m
                | _ => Err (Opaque ("expected exactly one .gguf file in " +:+ dir +:+ ", found " +:+ itoa (Z.of_nat (length matches))))
                end
       end.
Definition resolveEngineBinaryPath (engineType version : string) : string :=
  let configured := default "" (cfg_EngineBinaryPaths cfg !! engineType) in
  if bool_decide (version = "") || bool_decide (configured = "") || bool_decide (cfg_EngineInstallPath cfg = "") then configured
  else Clean (join "/" [cfg_EngineInstallPath cfg; engineType; version; Base configured]).
Definition buildEngineLaunchArgs (runtimeBackend engineType image modelPath : string) (port : Z) (extra : list string) : list string :=
  let args := ["--model"; modelPath; "--port"; itoa port; "--host"; "0.0.0.0"] in
  let args := if bool_decide (engineType = "vllm") then
                if bool_decide (runtimeBackend = "bare-metal") then "serve" :: args
                else if negb (bool_decide (image = vllmDefaultImage)) then "vllm" :: "serve" :: args else args
              else args in
  args ++ extra.
(** [runtime.GPURequest]: the mechanism, the devices, the environment. *)
Definition GPURequest (runtimeBackend : string) : string * list string * list string :=
  if bool_decide (runtimeBackend = "docker") then ("nvidia", [], ["NVIDIA_VISIBLE_DEVICES=all"])
  else if bool_decide (runtimeBackend = "podman") then ("cdi", ["nvidia.com/gpu=all"], [])
  else ("", [], []).
Definition gpuPassthrough (runtimeBackend : string) := GPURequest runtimeBackend.
Definition launch_spec (load : LoadInstance) (modelPath : string) : Spec :=
  let '(mechanism, cdi, env) := gpuPassthrough (cfg_RuntimeBackend cfg) in
  MkSpec (li_InstanceID load) (li_EngineType load) (li_Image load) (li_ContainerName load) (li_ProfileID load)
    (resolveEngineBinaryPath (li_EngineType load) (li_EngineVersion load)) env
    (buildEngineLaunchArgs (cfg_RuntimeBackend cfg) (li_EngineType load) (li_Image load) modelPath (li_Port load) (li_Args load))
    (li_Port load) [cfg_ModelStoragePath cfg +:+ ":" +:+ cfg_ModelStoragePath cfg +:+ ":ro"] mechanism cdi (li_ShmSize load) (li_IPCMode load).
End Launch.

(** ** Reports *)
Section Instances.
Context `{Host} `{Gzip} `{EngineHost}.
Definition clock : A Time := gets a_clock.
Definition send_report (broken sending : string) (sendable : bool) (r : Report) : A unit :=
  if negb sendable then agent_log broken
  else
    e ← call host_send;
    match e with Some _ => agent_log sending | None => modify (fun s => set_reports (a_reports s ++ [r]) s) end.
Definition sendInstanceResult (instanceID status : string) (actualPort : Z) (errMsg : string) : A unit :=
  send_report "agent connection: build instance_result for %s: %v" "agent connection: send instance_result for %s: %v" true
    (RepResult (MkInstanceResult instanceID status actualPort errMsg)).
(** [json.Marshal] refuses a float that is not finite. *)
Definition finite (f : float64) : bool := match f with FDec _ _ => true | _ => false end.
Definition marshals (detail : gmap string float64) : bool := forallb (fun kv => finite kv.2) (map_to_list detail).
Definition sendInstanceHealthReport (instanceID status : string) (detail : gmap string float64) : A unit :=
  now ← clock;
  send_report "agent connection: build instance_health for %s: %v" "agent connection: send instance_health for %s: %v" (marshals detail)
    (RepHealth (MkInstanceHealth instanceID status now detail)).

(** ** Which instances are watched *)
Definition trackActiveInstance (instanceID : string) (port : Z) (modelPath engineType : string) : A unit :=
  modify (fun s => set_active (<[instanceID := MkActive port modelPath engineType]> (a_active s)) s).
Definition untrackActiveInstance (instanceID : string) : A unit := modify (fun s => set_active (delete instanceID (a_active s)) s).
Definition snapshotActiveInstances : A (gmap string activeInstance) := gets a_active.
Definition checkInstanceHealth (instanceID : string) (inst : activeInstance) : A unit :=
  running ← call (fun n => eng_running n instanceID);
  match running with
  | Err _ => agent_log "agent connection: health check for instance %s could not ask the runtime: %v"
  | Ok false =>
      agent_log "agent connection: instance %s is not running, reporting it dead";;
      sendInstanceHealthReport instanceID "dead" ∅
  | Ok true =>
      match engineProbes (ai_EngineType inst) with
      | None => mret tt
      | Some probe =>
          models ← call (fun n => eng_get n (ai_Port inst) (modelsPath probe));
          if negb (httpGetOK models) then sendInstanceHealthReport instanceID "unhealthy" ∅
          else
            detail ← (if negb (bool_decide (metricsPath probe = "")) then
                        r ← call (fun n => eng_get n (ai_Port inst) (metricsPath probe)); mret (readMetrics r)
                      else mret ∅);
            sendInstanceHealthReport instanceID "healthy" detail
      end
  end.
(** One tick of [sendInstanceHealth]. *)
Definition health_tick : A unit :=
  snapshot ← snapshotActiveInstances;
  forM_ (map_to_list snapshot) (fun kv => checkInstanceHealth kv.1 kv.2).
Definition resumeHealthTracking (instanceID : string) (port : Z) (engineType : string) : A unit :=
  if port <=? 0 then mret tt
  else match engineProbes engineType with
       | None => agent_log "agent connection: cannot resume health checks for instance %s: engine type %q is not one the health check knows"
       | Some _ =>
           tracked ← isActiveInstance instanceID;
           if tracked : bool then mret tt
           else
             trackActiveInstance instanceID port "" engineType;;
             agent_log "agent connection: resumed health checks for instance %s on port %d";;
             checkInstanceHealth instanceID (MkActive port "" engineType)
       end.

(** ** Waiting for an engine *)
Definition ErrCanceled : error := Sentinel "context.Canceled" "context canceled".
Definition not_ready : error := Opaque "process/container exited before becoming ready".
Definition too_late (timeout : Z) : error := Opaque ("instance did not become ready within " +:+ Duration_text timeout).
Definition out_of_fuel : error := Opaque "".
(** The ticker made at [start] ticks every two seconds and keeps one tick that
    was not received; [seen] is how many there had been at the last receive. *)
Definition await_tick (start seen : Z) : A Z :=
  now ← clock;
  let fired := (now - start) / readinessPollInterval in
  if seen <? fired then mret fired
  else modify (set_clock (start + (seen + 1) * readinessPollInterval));; mret (seen + 1).
Definition poll_models (port : Z) (probe : engineProbe) (reachable : bool) (served : string) : A (bool * string) :=
  if negb reachable || bool_decide (served = "") then
    r ← call (fun n => eng_get n port (modelsPath probe));
    let '(ok, id) := fetchServedModelID r in
    mret (reachable || ok, if bool_decide (id = "") then served else id)
  else mret (reachable, served).
Fixpoint ready_loop (fuel : nat) (start deadline seen : Z) (timeout : Z) (instanceID : string) (probe : engineProbe) (port : Z) (modelPath : string)
    (apiReachable : bool) (servedID : string) : A unit :=
  match fuel with
  | O => throw out_of_fuel
  | S fuel' =>
      running ← call (fun n => eng_running n instanceID);
      match running with
      | Ok false => throw not_ready
      | _ =>
          polled ← poll_models port probe apiReachable servedID;
          let '(apiReachable, servedID) := polled : bool * string in
          let modelID := if bool_decide (servedID = "") then modelPath else servedID in
          ready ← (if apiReachable then
                     r ← call (fun n => eng_complete n port (chatCompletionsPath probe) modelID); mret (completionProbeOK r)
                   else mret false);
          if ready : bool then mret tt
          else
            now ← clock;
            if deadline <? now then throw (too_late timeout)
            else
              cancelled ← call eng_cancelled;
              if cancelled : bool then throw ErrCanceled
              else seen ← await_tick start seen; ready_loop fuel' start deadline seen timeout instanceID probe port modelPath apiReachable servedID
      end
  end.
Definition startup_timeout (cfg : Config) : Z :=
  if cfg_InstanceStartupTimeout cfg <=? 0 then defaultInstanceStartupTimeout else cfg_InstanceStartupTimeout cfg.
(** The fuel: one round before the first tick and one per tick until the
    deadline has passed. *)
Definition rounds (timeout : Z) : nat := S (S (Z.to_nat (timeout / readinessPollInterval))).
Definition waitForReady (cfg : Config) (instanceID engineType : string) (port : Z) (modelPath : string) : A unit :=
  let timeout := startup_timeout cfg in
  match engineProbes engineType with
  | None => throw (Opaque ("no readiness probe known for engine type " +:+ quote engineType))
  | Some probe =>
      now ← clock;
      start ← clock;
      ready_loop (rounds timeout) start (now + timeout) 0 timeout instanceID probe port modelPath false ""
  end.

(** ** Load, unload, check *)
Definition no_gpu_help (backend : string) : string :=
  ". The container was started without a GPU, so no model can run on it. Run `sparky-agent check-gpu` on this node (as the service account) to diagnose GPU passthrough for the "
  +:+ backend +:+ " runtime".
Definition verifyGPUApplied (cfg : Config) (instanceID mechanism : string) : A unit :=
  if bool_decide (mechanism = "") then mret tt
  else match eng_verify with
       | None => mret tt
       | Some verify =>
           v ← call (fun n => verify n instanceID mechanism);
           match v with
           | None => mret tt
           | Some e =>
               if errors_Is e "runtime.ErrNoGPU" then throw (Errorf "" e (no_gpu_help (cfg_RuntimeBackend cfg)))
               else agent_log "agent connection: could not verify the GPU of instance %s: %v"
           end
       end.
Definition with_logs (instanceID msg : string) : A string :=
  logs ← call (fun n => eng_logs n instanceID logsTailLines);
  mret (match logs with
        | Ok l => if bool_decide (l = "") then msg else msg +:+ newline +:+ newline +:+ truncateForErrorMessage l
        | Err _ => msg
        end).
(** A launch that failed after it began: the failure is reported, then the
    container is stopped, archived and removed. *)
Definition fail_launch (instanceID msg : string) : A unit :=
  sendInstanceResult instanceID "failed" 0 msg;; cleanUpFailedLaunch instanceID.
Definition runLoad (cfg : Config) (load : LoadInstance) : A unit :=
  let id := li_InstanceID load in
  names ← call eng_names;
  match resolveModelPath cfg names (li_ModelRef load) (li_Quantization load) (li_RequiresFullGPUResidency load) with
  | Err e =>
      agent_log "agent connection: resolve model path for instance %s: %v";;
      sendInstanceResult id "failed" 0 (error_text e)
  | Ok modelPath =>
      let spec := launch_spec cfg load modelPath in
      replaceStaleContainers (li_ProfileID load) id;;
      started ← call (fun n => eng_start n spec);
      match started with
      | Some e => agent_log "agent connection: start instance %s: %v";; fail_launch id (error_text e)
      | None =>
          gpu ← attempt (verifyGPUApplied cfg id (rs_GPUDeviceMechanism spec));
          match gpu with
          | Err e => agent_log "agent connection: instance %s has no GPU: %v";; fail_launch id (error_text e)
          | Ok _ =>
              ready ← attempt (waitForReady cfg id (li_EngineType load) (li_Port load) modelPath);
              match ready with
              | Err e =>
                  msg ← with_logs id (error_text e);
                  agent_log "agent connection: instance %s did not become ready: %v";; fail_launch id msg
              | Ok _ =>
                  trackActiveInstance id (li_Port load) modelPath (li_EngineType load);;
                  sendInstanceResult id "running" (li_Port load) ""
              end
          end
      end
  end.
(** [runUnload], in the two parts between which other work is done. *)
Definition unload_stop (instanceID : string) : A bool :=
  e ← halt instanceID;
  match e with
  | Some e =>
      agent_log "agent connection: stop instance %s: %v";;
      sendInstanceResult instanceID "failed" 0 (error_text e);; untrackActiveInstance instanceID;; mret false
  | None => sendInstanceResult instanceID "stopped" 0 "";; mret true
  end.
Definition unload_rest (instanceID : string) : A unit := archiveAndRemove instanceID "unload";; untrackActiveInstance instanceID.
Definition runUnload (instanceID : string) : A unit :=
  stopped ← unload_stop instanceID; if stopped : bool then unload_rest instanceID else mret tt.
Definition runCheckInstance (instanceID : string) (port : Z) (engineType : string) : A unit :=
  running ← call (fun n => eng_running n instanceID);
  match running with
  | Err _ => agent_log "agent connection: check instance %s: %v"
  | Ok false =>
      agent_log "agent connection: instance %s is not running, reporting it dead";;
      sendInstanceHealthReport instanceID "dead" ∅
  | Ok true => sendInstanceResult instanceID "running" 0 "";; resumeHealthTracking instanceID port engineType
  end.
End Instances.

(** ** Between two connections ([Conn.Run]) *)
Definition defaultMinBackoff : Z := second.
Definition defaultMaxBackoff : Z := 30 * second.
(** [rand] is [rand.Int63n]. *)
Definition jitter (rand : Z -> Z) (d : Z) : Z := if d <=? 1 then d else let half := d / 2 in half + rand half.
Definition after_wait (backoff : Z) : Z := if defaultMaxBackoff <? backoff * 2 then defaultMaxBackoff else backoff * 2.
(** The waits of a run: for each connection whether its handshake was
    accepted. *)
Fixpoint reconnects (rand : nat -> Z -> Z) (backoff : Z) (connected : list bool) : list Z :=
  match connected with
  | [] => []
  | c :: rest =>
      let b := if c then defaultMinBackoff else backoff in
      jitter (rand (length rest)) b :: reconnects rand (after_wait b) rest
  end.
