(* ===== verification/AgentInstancesSpec.v ===== *)
(** * What an agent reports of its instances

    A wait for an engine ends, and ends well only for an engine that completed
    a prompt; a launch reports exactly one outcome and touches no other
    instance that runs; over any run, what was reported was so. *)
From stdpp Require Import base list strings gmap relations.
From Stdlib Require Import ZArith Lia.
From Stdlib Require Import Ascii.
From Stdlib Require String.
From S2P Require Import Prelude Text Json Db GoTime Wire Paths ContainerLogs AgentStale AgentLogs EngineProbe AgentInstances.
Local Open Scope string_scope.
Local Open Scope list_scope.
Local Open Scope Z_scope.

Section Spec.
Context `{Host} `{Gzip} `{EngineHost}.
(** ** Evidence: what the host answered to calls of a stretch *)
Definition between (n1 n2 n : N) : Prop := (n1 <= n < n2)%N.
Definition answered (n1 n2 : N) (P : N -> Prop) : Prop := exists n, between n1 n2 n /\ P n.
Lemma answered_mono n1 n2 m1 m2 P : (m1 <= n1)%N -> (n2 <= m2)%N -> answered n1 n2 P -> answered m1 m2 P.
Proof. intros H1' H2' (n & [Ha Hb] & Hp). exists n. split; [split; lia|done]. Qed.
(** A completion under the id the engine reports, or under the model's path. *)
Definition completed (n1 n2 : N) (engineType : string) (port : Z) (modelPath : string) : Prop :=
  exists probe model, engineProbes engineType = Some probe /\
    answered n1 n2 (fun n => completionProbeOK (eng_complete n port (chatCompletionsPath probe) model) = true) /\
    answered n1 n2 (fun n => fst (fetchServedModelID (eng_get n port (modelsPath probe))) = true) /\
    (model = modelPath \/ answered n1 n2 (fun n => fetchServedModelID (eng_get n port (modelsPath probe)) = (true, model))).
Definition gone (n1 n2 : N) (id : string) : Prop := answered n1 n2 (fun n => eng_running n id = Ok false).
Definition up (n1 n2 : N) (id : string) : Prop := answered n1 n2 (fun n => eng_running n id = Ok true).

(** What a wait leaves alone. *)
Definition content (s : AgentState) := (a_sent s, a_archiving s, a_waiters s, a_logs s, a_done s, a_active s, a_reports s).
Definition only_time (s s' : AgentState) : Prop := content s' = content s /\ (a_calls s <= a_calls s')%N /\ a_clock s <= a_clock s'.
#[export] Instance only_time_preorder : PreOrder only_time.
Proof. split; [by intros s|]. intros s1 s2 s3 (E1 & E2 & E3) (F1 & F2 & F3). split; [congruence|split; lia]. Qed.
Lemma only_time_call s : only_time s (after_call s).
Proof. split; [done|]. cbn. split; lia. Qed.
Lemma wp_call_time {X} (f : N -> X) s (Q : result X -> AgentState -> Prop) :
  (forall s', only_time s s' -> a_calls s' = N.succ (a_calls s) -> Q (Ok (f (a_calls s))) s') -> wp (call f) s Q.
Proof. intros HQ. apply wp_call, HQ; [apply only_time_call|done]. Qed.

Section Wait.
Context (id engineType : string) (probe : engineProbe) (port : Z) (modelPath : string) (timeout start deadline : Z).
Context (Hprobe : engineProbes engineType = Some probe) (Hdeadline : deadline <= start + timeout).
Definition seen (n1 : N) (s : AgentState) (reachable : bool) (served : string) : Prop :=
  (n1 <= a_calls s)%N /\
  (reachable = true -> answered n1 (a_calls s) (fun n => fst (fetchServedModelID (eng_get n port (modelsPath probe))) = true)) /\
  (served = "" \/ answered n1 (a_calls s) (fun n => fetchServedModelID (eng_get n port (modelsPath probe)) = (true, served))).
Lemma seen_later n1 s s' r v : (a_calls s <= a_calls s')%N -> seen n1 s r v -> seen n1 s' r v.
Proof.
  intros Hle (Hn & Hr & Hv). split; [lia|]. split.
  - intros E. eapply answered_mono; [| |by apply Hr]; lia.
  - destruct Hv as [?|Hv]; [by left|right]. eapply answered_mono; [| |exact Hv]; lia.
Qed.
Lemma fetch_id r id' ok : fetchServedModelID r = (ok, id') -> id' <> "" -> ok = true.
Proof. unfold fetchServedModelID. repeat case_match; congruence. Qed.
Lemma poll_seen n1 s r v : seen n1 s r v ->
  wp (poll_models port probe r v) s (fun x s' => only_time s s' /\ exists r' v', x = Ok (r', v') /\ seen n1 s' r' v').
Proof.
  intros Hs. unfold poll_models. destruct (negb r || _) eqn:E; [|apply wp_ret; split; [done|by exists r, v]].
  apply wp_bind, wp_call_time. intros s' Ht Hc. destruct (fetchServedModelID _) as [ok id'] eqn:Ef. apply wp_ret. split; [done|].
  eexists _, _. split; [reflexivity|]. pose proof (seen_later n1 s s' r v ltac:(lia) Hs) as (Hn & Hr & Hv). split; [done|].
  destruct Hs as (Hn0 & _). assert (Hthis : between n1 (a_calls s') (a_calls s)) by (split; lia). split.
  - destruct r; [by intros _; apply Hr|]. cbn [orb]. intros ->. exists (a_calls s). split; [done|]. cbv beta. by rewrite Ef.
  - destruct (bool_decide_reflect (id' = "")) as [Eid|Eid]; [exact Hv|]. right. exists (a_calls s). split; [done|]. cbv beta. rewrite Ef. by rewrite (fetch_id _ _ _ Ef Eid).
Qed.
Definition wait_outcome (n1 : N) (s' : AgentState) (r : result unit) : Prop :=
  match r with
  | Ok _ => completed n1 (a_calls s') engineType port modelPath
  | Err e => e = not_ready /\ gone n1 (a_calls s') id \/ e = too_late timeout /\ deadline < a_clock s' \/ e = ErrCanceled
  end.
Let T := timeout / readinessPollInterval.
Lemma tick_wp k s : wp (await_tick start k) s (fun x s' => only_time s s' /\ exists k', x = Ok k' /\ k < k' /\
  start + k' * readinessPollInterval <= a_clock s').
Proof.
  assert (Hpos : readinessPollInterval = 2000000000) by reflexivity. unfold await_tick. apply wp_bind, wp_gets. cbv zeta.
  pose proof (Z.mul_div_le (a_clock s - start) readinessPollInterval ltac:(lia)). pose proof (Z.mul_succ_div_gt (a_clock s - start) readinessPollInterval ltac:(lia)).
  destruct (Z.ltb_spec k ((a_clock s - start) / readinessPollInterval)).
  - apply wp_ret. split; [done|]. eexists. split; [done|]. split; [done|]. lia.
  - apply wp_bind, wp_modify, wp_ret. split; [split; [done|]; split; cbn; nia|]. eexists. split; [done|]. split; [lia|]. cbn. lia.
Qed.
Lemma ready_loop_spec n1 : forall fuel k s r v, seen n1 s r v -> (0 < fuel)%nat -> T + 2 <= Z.of_nat fuel + k ->
  start + k * readinessPollInterval <= a_clock s ->
  wp (ready_loop fuel start deadline k timeout id probe port modelPath r v) s (fun x s' => only_time s s' /\ wait_outcome n1 s' x).
Proof.
  assert (Hpos : readinessPollInterval = 2000000000) by reflexivity.
  induction fuel as [|fuel IH]; intros k s r v Hseen Hk Hfuel Hclock; [lia|]. cbn [ready_loop].
  apply wp_bind, wp_call_time. intros s1 Q1 Hc1.
  assert (Hgone : eng_running (a_calls s) id = Ok false -> gone n1 (a_calls s1) id).
  { intros E. exists (a_calls s). split; [destruct Hseen as (? & _); split; lia|done]. }
  destruct (eng_running (a_calls s) id) as [[]|e] eqn:Er;
    [|apply wp_throw; split; [done|]; left; split; [done|by apply Hgone]|]; clear Hgone.
  all: apply wp_bind; (eapply wp_mono; [apply (poll_seen n1 s1 r v); apply (seen_later n1 s); [lia|exact Hseen]|]); intros ? s2 (Q2 & r' & v' & -> & Hs2);
    cbv iota beta; apply wp_bind.
  all: set (model := if bool_decide (v' = "") then modelPath else v').
  all: assert (Hdone : forall s3 n, only_time s2 s3 -> between n1 (a_calls s3) n -> r' = true ->
         completionProbeOK (eng_complete n port (chatCompletionsPath probe) model) = true -> completed n1 (a_calls s3) engineType port modelPath)
    by (intros s3 n Q3 Hb Hr Hok; exists probe, model; split; [done|]; split; [by exists n|];
        destruct (seen_later n1 s2 s3 r' v' ltac:(apply Q3) Hs2) as (_ & Hreach & Hserved); split; [by apply Hreach|];
        unfold model; case_bool_decide as Ev; [by left|right]; by destruct Hserved).
  all: assert (Hgo : forall s3, only_time s2 s3 -> wp (now ← clock;
        if deadline <? now then throw (too_late timeout)
        else cancelled ← call eng_cancelled;
             if cancelled : bool then throw ErrCanceled
             else seen ← await_tick start k; ready_loop fuel start deadline seen timeout id probe port modelPath r' v') s3
        (fun x s' => only_time s s' /\ wait_outcome n1 s' x)).
  1,3: intros s3 Q3; assert (Q : only_time s s3) by (etransitivity; [exact Q1|]; by etransitivity);
    apply wp_bind, wp_gets; destruct (Z.ltb_spec deadline (a_clock s3)) as [Hlate|Hearly];
    [apply wp_throw; split; [done|]; by right; left|]; apply wp_bind, wp_call_time; intros s4 Q4 _;
    destruct (eng_cancelled _); [apply wp_throw; split; [by etransitivity|]; by right; right|];
    apply wp_bind; eapply wp_mono; [apply (tick_wp k s4)|intros ? s5 (Q5 & k' & -> & Hk' & Hclock')]; cbv iota beta;
    (eapply wp_mono; [apply (IH k' s5 r' v')|intros x s6 [Q6 Ho]; split; [etransitivity; [exact Q|]; etransitivity; [exact Q4|]; by etransitivity|done]]);
    [apply (seen_later n1 s2); [destruct Q3 as (_&?&_), Q4 as (_&?&_), Q5 as (_&?&_); lia|done]| | |exact Hclock'];
    destruct Q as (_ & _ & ?); assert (k * readinessPollInterval <= timeout) by lia;
    assert (k <= T) by (apply Z.div_le_lower_bound; lia); lia.
  all: destruct r'; [|by apply wp_ret, Hgo].
  all: apply wp_bind, wp_call_time; intros s3 Q3 Hc3; apply wp_ret; destruct (completionProbeOK _) eqn:Ep; [|by apply Hgo].
  all: apply wp_ret; split; [etransitivity; [exact Q1|]; by etransitivity|]; apply (Hdone s3 (a_calls s2)); try done;
    destruct Q2 as (_ & ? & _), Hs2 as (? & _); split; lia.
Qed.
End Wait.

Lemma startup_positive cfg : 0 < startup_timeout cfg.
Proof. unfold startup_timeout. destruct (Z.leb_spec (cfg_InstanceStartupTimeout cfg) 0); [reflexivity|done]. Qed.
Definition wait_spec (cfg : Config) (id engineType : string) (port : Z) (modelPath : string) (s : AgentState) (r : result unit) (s' : AgentState) : Prop :=
  only_time s s' /\
  match r with
  | Ok _ => completed (a_calls s) (a_calls s') engineType port modelPath
  | Err e => engineProbes engineType = None \/ e = not_ready /\ gone (a_calls s) (a_calls s') id \/
             e = too_late (startup_timeout cfg) /\ a_clock s + startup_timeout cfg < a_clock s' \/ e = ErrCanceled
  end.
Lemma waitForReady_wp cfg id engineType port modelPath s :
  wp (waitForReady cfg id engineType port modelPath) s (wait_spec cfg id engineType port modelPath s).
Proof.
  unfold waitForReady. destruct (engineProbes engineType) as [probe|] eqn:Ep; [|apply wp_throw; split; [done|by left]].
  apply wp_bind, wp_gets, wp_bind, wp_gets. pose proof (startup_positive cfg) as Ht. set (timeout := startup_timeout cfg) in *.
  pose proof (Z.div_pos timeout readinessPollInterval ltac:(lia) ltac:(reflexivity)) as Hdiv.
  eapply wp_mono; [apply (ready_loop_spec id engineType probe port modelPath timeout (a_clock s) (a_clock s + timeout) Ep ltac:(lia) (a_calls s))|].
  - split; [lia|]. split; [done|by left].
  - unfold rounds. lia.
  - unfold rounds. lia.
  - lia.
  - intros r s' [Q Ho]. split; [done|]. destruct r; [done|]. by right.
Qed.

(** ** What cleaning up leaves alone

    It reports nothing, watches the same instances, and acts on those given
    only; it never fails. *)
Definition instance_of (a : HostAction) : string := match a with HaltInstance id | RemoveInstance id => id end.
Definition later (s s' : AgentState) : Prop := (a_calls s <= a_calls s')%N /\ a_clock s <= a_clock s'.
Definition acted (ok : string -> Prop) (s s' : AgentState) : Prop :=
  exists acts, a_done s' = a_done s ++ acts /\ Forall (fun a => ok (instance_of a)) acts.
Definition tidy (ok : string -> Prop) (s s' : AgentState) : Prop :=
  a_active s' = a_active s /\ a_reports s' = a_reports s /\ later s s' /\ acted ok s s'.
#[export] Instance later_preorder : PreOrder later.
Proof. split; [intros s; split; lia|]. intros s1 s2 s3 [] []. split; lia. Qed.
#[local] Instance acted_preorder ok : PreOrder (acted ok).
Proof.
  split; [intros s; exists []; by rewrite app_nil_r|]. intros s1 s2 s3 (l & E & F) (l' & E' & F'). exists (l ++ l').
  split; [by rewrite E', E, app_assoc|by apply Forall_app].
Qed.
#[local] Instance tidy_preorder ok : PreOrder (tidy ok).
Proof. split; [done|]. intros s1 s2 s3 (E1 & E2 & E3 & E4) (F1 & F2 & F3 & F4). split_and!; [congruence|congruence|by etransitivity|by etransitivity]. Qed.
Lemma acted_same ok s s' : a_done s' = a_done s -> acted ok s s'.
Proof. intros E. exists []. by rewrite app_nil_r. Qed.
Lemma acted_mono (ok ok' : string -> Prop) s s' : (forall id, ok id -> ok' id) -> acted ok s s' -> acted ok' s s'.
Proof. intros Hok (l & E & F). exists l. split; [done|]. eapply Forall_impl; [exact F|]. intros a. apply Hok. Qed.
Class Tidy (ok : string -> Prop) {X} (m : A X) : Prop := { tidy_evolves : Evolves (tidy ok) m; tidy_total : Raises (fun _ => False) m }.
Lemma wp_tidy {X} ok (m : A X) s (Q : result X -> AgentState -> Prop) : Tidy ok m -> (forall x s', tidy ok s s' -> Q (Ok x) s') -> wp m s Q.
Proof.
  intros [He Hr] HQ. specialize (He s). unfold wp. destruct (m s) as [[x|e] s'] eqn:E; [by apply HQ|]. exfalso. apply (Hr s e). by rewrite E.
Qed.
#[local] Hint Extern 2 (Tidy _ (match ?x with _ => _ end)) => destruct x : typeclass_instances.
Section Ok.
Context (ok : string -> Prop).
#[local] Instance tidy_ret {X} (x : X) : Tidy ok (mret x).
Proof. split; apply _. Qed.
#[local] Instance tidy_bind {X Y} (m : A X) (k : X -> A Y) : Tidy ok m -> (forall x, Tidy ok (k x)) -> Tidy ok (m ≫= k).
Proof. intros [] Hk. split; [apply evolves_bind; [apply _|done|intros x; apply Hk]|apply raises_bind; [done|intros x; apply Hk]]. Qed.
#[local] Instance tidy_call {X} (f : N -> X) : Tidy ok (call f).
Proof. split; [|by intros s e]. intros s. split; [done|]. split; [done|]. split; [split; cbn; lia|by apply acted_same]. Qed.
#[local] Instance tidy_gets {X} (f : AgentState -> X) : Tidy ok (gets f).
Proof. split; [by intros s|by intros s e]. Qed.
#[local] Instance tidy_log fmt : Tidy ok (agent_log fmt).
Proof. split; [|by intros s e]. intros s. split; [done|]. split; [done|]. split; [split; cbn; lia|by apply acted_same]. Qed.
#[local] Instance tidy_deliver ack : Tidy ok (deliverArchiveAck ack).
Proof. split; [|by intros s e]. intros s. split; [done|]. split; [done|]. split; [split; cbn; lia|by apply acted_same]. Qed.
#[local] Instance tidy_waiters f : Tidy ok (modify (fun s => set_waiters (f s) s)).
Proof. split; [|by intros s e]. intros s. split; [done|]. split; [done|]. split; [split; cbn; lia|by apply acted_same]. Qed.
#[local] Instance tidy_archiving f : Tidy ok (modify (fun s => set_archiving (f s) s)).
Proof. split; [|by intros s e]. intros s. split; [done|]. split; [done|]. split; [split; cbn; lia|by apply acted_same]. Qed.
#[local] Instance tidy_forM {X} (l : list X) (f : X -> A unit) : (forall x, Tidy ok (f x)) -> Tidy ok (forM_ l f).
Proof. intros Hf. induction l as [|x l IH]; cbn [forM_]; apply _. Qed.
#[local] Instance tidy_when b (m : A unit) : Tidy ok m -> Tidy ok (when b m).
Proof. destruct b; [done|intros _; apply tidy_ret]. Qed.
Lemma tidy_attempt {X} (m : A X) : Evolves (tidy ok) m -> Tidy ok (attempt m).
Proof. intros Hm. split; [by apply evolves_attempt|apply raises_attempt]. Qed.
Lemma sends_tidy l : Evolves (tidy ok) (forM_ l trySend).
Proof.
  induction l as [|c l IH]; cbn [forM_]; [apply _|]. apply evolves_bind; [apply _| |intros _; exact IH]. unfold trySend.
  apply evolves_bind; [apply _|apply tidy_call|]. intros [e|]; [apply _|]. intros s. split; [done|]. split; [done|]. split; [split; cbn; lia|by apply acted_same].
Qed.
#[local] Instance tidy_send up f meta gz : Tidy ok (attempt (sendLogChunks up f meta gz)).
Proof. apply tidy_attempt, sends_tidy. Qed.
#[local] Instance tidy_upload_id : Tidy ok (attempt newUploadID).
Proof.
  apply tidy_attempt. unfold newUploadID. apply evolves_bind; [apply _|apply tidy_call|]. intros []; apply _.
Qed.
#[local] Instance tidy_archive id reason lines : Tidy ok (archiveInstanceLines id reason lines).
Proof. unfold archiveInstanceLines, capture_and_upload, upload_and_wait, await_ack. apply _. Qed.
Lemma tidy_act a : ok (instance_of a) -> Tidy ok (act a).
Proof.
  intros Ha. split; [|by intros s e]. intros s. split; [done|]. split; [done|]. split; [split; cbn; lia|]. exists [a]. split; [done|by constructor].
Qed.
Section One.
Context (id : string) (Hid : ok id).
#[local] Instance tidy_halts : Tidy ok (act (HaltInstance id)).
Proof using Hid. by apply tidy_act. Qed.
#[local] Instance tidy_removes : Tidy ok (act (RemoveInstance id)).
Proof using Hid. by apply tidy_act. Qed.
Lemma tidy_halt : Tidy ok (halt id).
Proof using Hid. unfold halt. apply _. Qed.
Lemma tidy_archiveAndRemove reason : Tidy ok (archiveAndRemove id reason).
Proof using Hid. unfold archiveAndRemove, archiveInstance. apply _. Qed.
Lemma tidy_cleanUp : Tidy ok (cleanUpFailedLaunch id).
Proof using Hid. unfold cleanUpFailedLaunch. pose proof tidy_halt. pose proof (tidy_archiveAndRemove "failed_launch"). apply _. Qed.
End One.
End Ok.
(** Before a launch: the containers the host lists for the profile, but for the
    instance itself and those that run. *)
Definition stale (profile current : string) (s : AgentState) (id : string) : Prop :=
  id <> current /\ a_active s !! id = None /\ exists n ids, host_instances n profile = Ok ids /\ id ∈ ids.
Lemma stale_tidy profile current s ok s' id : tidy ok s s' -> stale profile current s' id -> stale profile current s id.
Proof. intros (E & _) (? & Ha & ?). by rewrite E in Ha. Qed.
Lemma wp_replace profile current s (Q : result unit -> AgentState -> Prop) :
  (forall s', tidy (stale profile current s) s s' -> Q (Ok tt) s') -> wp (replaceStaleContainers profile current) s Q.
Proof.
  intros HQ. unfold replaceStaleContainers. case_bool_decide; [by apply wp_ret, HQ|]. apply wp_bind, wp_call.
  assert (Q1 : tidy (stale profile current s) s (after_call s)) by (split_and!; [done|done|split; cbn; lia|by apply acted_same]).
  destruct (host_instances (a_calls s) profile) as [ids|e] eqn:Ei.
  2: { eapply wp_tidy; [apply tidy_log|]. intros [] s' Q2. apply HQ. by etransitivity. }
  assert (Hin : forall id, id ∈ ids -> exists n ids, host_instances n profile = Ok ids /\ id ∈ ids) by (intros id Hid; by exists (a_calls s), ids).
  clear Ei. revert Q1. generalize (after_call s) as s1. induction ids as [|i ids IH]; intros s1 Q1; cbn [forM_]; [by apply wp_ret, HQ|].
  assert (IH' : forall s2, tidy (stale profile current s) s s2 -> wp (forM_ ids (fun id =>
        active ← (if bool_decide (id = current) then mret true else isActiveInstance id);
        if active : bool then mret tt
        else e ← halt id;
             match e with
             | Some _ => agent_log "agent connection: stop stale instance %s of profile %s: %v"
             | None => archiveAndRemove id "replaced"
             end)) s2 Q) by (apply IH; intros id Hid; apply Hin; by right).
  apply wp_bind, wp_bind. case_bool_decide as Ec; [apply wp_ret; by apply IH'|]. unfold isActiveInstance at 1. apply wp_gets.
  case_bool_decide as Ea; [by apply wp_ret, IH'|].
  assert (Hstale : stale profile current s i).
  { split; [done|]. split; [destruct Q1 as (<- & _); by apply eq_None_not_Some|]. apply Hin. by left. }
  apply wp_bind. eapply wp_tidy; [by apply tidy_halt|]. intros [e|] s2 Q2.
  - eapply wp_tidy; [apply tidy_log|]. intros [] s3 Q3. apply IH'. etransitivity; [exact Q1|]. by etransitivity.
  - eapply wp_tidy; [by apply tidy_archiveAndRemove|]. intros [] s3 Q3. apply IH'. etransitivity; [exact Q1|]. by etransitivity.
Qed.

(** ** A launch *)
Definition send_failed (n1 n2 : N) : Prop := answered n1 n2 (fun n => is_Some (host_send n)).
Definition told (s s' : AgentState) (rep : Report) : Prop :=
  a_reports s' = a_reports s ++ [rep] \/ (a_reports s' = a_reports s /\ send_failed (a_calls s) (a_calls s')).
Definition quietly (s s' : AgentState) : Prop := a_active s' = a_active s /\ a_done s' = a_done s /\ later s s'.
Lemma wp_result id st port msg s (Q : result unit -> AgentState -> Prop) :
  (forall s', quietly s s' -> told s s' (RepResult (MkInstanceResult id st port msg)) -> Q (Ok tt) s') -> wp (sendInstanceResult id st port msg) s Q.
Proof.
  intros HQ. unfold sendInstanceResult, send_report. cbn [negb]. apply wp_bind, wp_call.
  assert (Hq : quietly s (after_call s)) by (split_and!; [done|done|split; cbn; lia]).
  destruct (host_send (a_calls s)) as [e|] eqn:Es; apply wp_modify, HQ; try (split_and!; [done|done|split; cbn; lia]).
  - right. split; [done|]. exists (a_calls s). split; [split; cbn; lia|by eexists].
  - by left.
Qed.
Lemma only_time_quietly s s' : only_time s s' -> quietly s s' /\ a_reports s' = a_reports s.
Proof. intros (E & Hc & Ht). unfold content in E. injection E as E1 E2 E3 E4 E5 E6 E7. split; [|done]. split_and!; [done|done|by split]. Qed.
Definition launched (cfg : Config) (load : LoadInstance) (s s' : AgentState) : Prop :=
  exists modelPath,
    answered (a_calls s) (a_calls s') (fun n =>
      resolveModelPath cfg (eng_names n) (li_ModelRef load) (li_Quantization load) (li_RequiresFullGPUResidency load) = Ok modelPath) /\
    answered (a_calls s) (a_calls s') (fun n => eng_start n (launch_spec cfg load modelPath) = None) /\
    completed (a_calls s) (a_calls s') (li_EngineType load) (li_Port load) modelPath /\
    a_active s' = <[li_InstanceID load := MkActive (li_Port load) modelPath (li_EngineType load)]> (a_active s) /\
    acted (stale (li_ProfileID load) (li_InstanceID load) s) s s'.
Definition launch_failed (load : LoadInstance) (s s' : AgentState) : Prop :=
  a_active s' = a_active s /\ acted (fun i => i = li_InstanceID load \/ stale (li_ProfileID load) (li_InstanceID load) s i) s s'.
Definition load_outcome (cfg : Config) (load : LoadInstance) (s : AgentState) (r : result unit) (s' : AgentState) : Prop :=
  r = Ok tt /\ later s s' /\ exists res, told s s' (RepResult res) /\ ir_InstanceID res = li_InstanceID load /\
    (ir_Status res = "running" /\ ir_ActualPort res = li_Port load /\ launched cfg load s s' \/
     ir_Status res = "failed" /\ ir_ActualPort res = 0 /\ launch_failed load s s').
(** What holds on the way: nothing reported, the profile's old containers dealt
    with. *)
Definition underway (load : LoadInstance) (s s1 : AgentState) : Prop :=
  a_active s1 = a_active s /\ a_reports s1 = a_reports s /\ later s s1 /\ acted (stale (li_ProfileID load) (li_InstanceID load) s) s s1.
Lemma underway_quietly load s s1 s2 : underway load s s1 -> quietly s1 s2 -> a_reports s2 = a_reports s1 -> underway load s s2.
Proof.
  intros (E1 & E2 & E3 & E4) (F1 & F2 & F3) F4. split_and!; [congruence|congruence|by etransitivity|]. etransitivity; [exact E4|by apply acted_same].
Qed.
Lemma told_later s s1 s2 s3 rep : later s s1 -> a_reports s1 = a_reports s -> told s1 s2 rep -> a_reports s3 = a_reports s2 -> later s2 s3 -> told s s3 rep.
Proof.
  intros [L1 _] E1 Ht E3 [L3 _]. unfold told in *. rewrite E3, E1 in *. destruct Ht as [?|[? Hf]]; [by left|right]. split; [done|].
  destruct Hf as (n & [? ?] & ?). exists n. split; [split; lia|done].
Qed.
Lemma wp_fail cfg load s s1 msg : underway load s s1 -> wp (fail_launch (li_InstanceID load) msg) s1 (load_outcome cfg load s).
Proof.
  intros (E1 & E2 & E3 & E4). unfold fail_launch. apply wp_bind, wp_result. intros s2 (F1 & F2 & F3) Ht.
  eapply wp_tidy; [by apply (tidy_cleanUp (fun i => i = li_InstanceID load))|]. intros [] s3 (G1 & G2 & G3 & G4).
  split; [done|]. split; [etransitivity; [exact E3|]; by etransitivity|]. eexists. split; [by eapply (told_later s s1 s2)|]. split; [done|]. right.
  split; [done|]. split; [done|]. split; [congruence|]. etransitivity; [eapply acted_mono; [|exact E4]; by right|].
  etransitivity; [by apply acted_same|]. eapply acted_mono; [|exact G4]. by left.
Qed.
Lemma underway_log load s s1 fmt (Q : result unit -> AgentState -> Prop) : underway load s s1 ->
  (forall s2, underway load s s2 -> Q (Ok tt) s2) -> wp (agent_log fmt) s1 Q.
Proof.
  intros Hu HQ. apply wp_modify, HQ. eapply underway_quietly; [exact Hu| |done]. split_and!; [done|done|split; cbn; lia].
Qed.
Lemma underway_call {X} load s s1 (f : N -> X) (Q : result X -> AgentState -> Prop) : underway load s s1 ->
  (forall s2, underway load s s2 -> between (a_calls s) (a_calls s2) (a_calls s1) -> Q (Ok (f (a_calls s1))) s2) -> wp (call f) s1 Q.
Proof.
  intros Hu HQ. apply wp_call, HQ.
  - eapply underway_quietly; [exact Hu| |done]. split_and!; [done|done|split; cbn; lia].
  - destruct Hu as (_ & _ & [? _] & _). split; cbn; lia.
Qed.
Lemma wp_verify cfg load s s1 id mechanism (Q : result unit -> AgentState -> Prop) : underway load s s1 ->
  (forall r s2, underway load s s2 -> later s1 s2 -> Q r s2) -> wp (verifyGPUApplied cfg id mechanism) s1 Q.
Proof.
  intros Hu HQ. unfold verifyGPUApplied. case_bool_decide; [by apply wp_ret, HQ|]. destruct eng_verify as [verify|]; [|by apply wp_ret, HQ].
  assert (Hu2 : underway load s (after_call s1)) by (eapply underway_quietly; [exact Hu| |done]; split_and!; [done|done|split; cbn; lia]).
  assert (L2 : later s1 (after_call s1)) by (split; cbn; lia).
  apply wp_bind, wp_call. destruct (verify _ _ _) as [e|]; [|by apply wp_ret, HQ].
  destruct (errors_Is e _); [by apply wp_throw, HQ|]. apply wp_modify, HQ; [|split; cbn; lia].
  eapply underway_quietly; [exact Hu2| |done]. split_and!; [done|done|split; cbn; lia].
Qed.
Lemma completed_mono n1 n2 m1 m2 engineType port modelPath : (m1 <= n1)%N -> (n2 <= m2)%N ->
  completed n1 n2 engineType port modelPath -> completed m1 m2 engineType port modelPath.
Proof.
  intros L1 L2 (probe & model & E & Hc & Hr & Hm). exists probe, model. split; [done|]. split; [by eapply answered_mono|].
  split; [by eapply answered_mono|]. destruct Hm as [?|Hm]; [by left|right; by eapply answered_mono].
Qed.
Lemma runLoad_wp cfg load s : wp (runLoad cfg load) s (load_outcome cfg load s).
Proof.
  assert (Hu0 : underway load s s) by (split_and!; [done|done|done|by apply acted_same]).
  unfold runLoad. apply wp_bind. eapply underway_call; [exact Hu0|]. intros s1 Hu1 Hb1.
  destruct (resolveModelPath _ _ _ _ _) as [modelPath|e] eqn:Emodel.
  2: { apply wp_bind. eapply underway_log; [exact Hu1|]. intros s2 (E1 & E2 & E3 & E4). apply wp_result. intros s3 (F1 & F2 & F3) Ht.
       split; [done|]. split; [by etransitivity|]. eexists. split; [by eapply (told_later s s2 s3)|]. split; [done|]. right.
       split; [done|]. split; [done|]. split; [congruence|]. etransitivity; [eapply acted_mono; [|exact E4]; by right|by apply acted_same]. }
  apply wp_bind, wp_replace. intros s2 T2.
  assert (Hu2 : underway load s s2).
  { destruct Hu1 as (E1 & E2 & E3 & E4), T2 as (F1 & F2 & F3 & F4). split_and!; [congruence|congruence|by etransitivity|]. etransitivity; [exact E4|].
    eapply acted_mono; [|exact F4]. intros i (? & Hi & ?). split; [done|]. by rewrite E1 in Hi. }
  apply wp_bind. eapply underway_call; [exact Hu2|]. intros s3 Hu3 Hb3. destruct (eng_start _ _) as [e|] eqn:Estart.
  { apply wp_bind. eapply underway_log; [exact Hu3|]. intros s4 Hu4. by apply wp_fail. }
  apply wp_bind, wp_attempt. eapply wp_verify; [exact Hu3|]. intros [[]|e] s4 Hu4 [L4 _].
  2: { apply wp_bind. eapply underway_log; [exact Hu4|]. intros s5 Hu5. by apply wp_fail. }
  apply wp_bind, wp_attempt. eapply wp_mono; [apply waitForReady_wp|]. intros r s5 [Q5 Ho]. destruct (only_time_quietly _ _ Q5) as [Q5' R5].
  assert (Hu5 : underway load s s5) by (by eapply underway_quietly). destruct r as [[]|e].
  2: { apply wp_bind. unfold with_logs. apply wp_bind. eapply underway_call; [exact Hu5|]. intros s6 Hu6 _. apply wp_ret, wp_bind.
       eapply underway_log; [exact Hu6|]. intros s7 Hu7. by apply wp_fail. }
  destruct Hu5 as (E1 & E2 & E3 & E4). apply wp_bind, wp_modify, wp_result. intros s6 (F1 & F2 & F3) Ht. cbn in F1, F2, F3.
  assert (Lc : (a_calls s5 <= a_calls s6)%N) by (destruct F3 as [Lc _]; exact Lc). destruct Q5 as (_ & Lc5 & _).
  split; [done|]. split; [etransitivity; [exact E3|exact F3]|]. eexists. split; [eapply (told_later s _ s6); [exact E3|exact E2|exact Ht|done|done]|].
  split; [done|]. left. split; [done|]. split; [done|]. exists modelPath. destruct Hb1 as [B1 B1'], Hb3 as [B3 B3'], T2 as (_ & _ & [L2 _] & _).
  split_and!; [exists (a_calls s); split; [split; lia|done]|exists (a_calls s2); split; [split; lia|done]| | |].
  - eapply completed_mono; [| |exact Ho]; lia.
  - by rewrite F1, E1.
  - etransitivity; [exact E4|by apply acted_same].
Qed.
End Spec.
