(* ===== verification/AgentReports.v ===== *)
(** * What a node reports of its instances is so

    Over any run of a node: what each report rests on, and why an instance is
    watched.  The waits between two connections. *)
From stdpp Require Import base list strings gmap relations.
From Stdlib Require Import ZArith Lia.
From Stdlib Require Import Ascii.
From Stdlib Require String.
From S2P Require Import Prelude Text Json Db GoTime Wire Paths ContainerLogs AgentStale AgentLogs EngineProbe AgentInstances AgentInstancesSpec.
Local Open Scope string_scope.
Local Open Scope list_scope.
Local Open Scope Z_scope.

Section Reports.
Context `{Host} `{Gzip} `{EngineHost}.
(** ** A node's run *)
(** The unloads whose container is stopped and whose log is being stored are
    kept beside the node's state. *)
Definition NodeState : Type := AgentState * gset string.
Inductive node_step : NodeState -> NodeState -> Prop :=
| step_load cfg load s p : node_step (s, p) (snd (runLoad cfg load s), p)
| step_stop id s p :
    node_step (s, p) (snd (unload_stop id s), match fst (unload_stop id s) with Ok true => {[id]} ∪ p | _ => p end)
| step_rest id s p : id ∈ p -> node_step (s, p) (snd (unload_rest id s), p ∖ {[id]})
| step_check id port engineType s p : node_step (s, p) (snd (runCheckInstance id port engineType s), p)
| step_tick s p : node_step (s, p) (snd (health_tick s), p)
| step_other s s' p : a_active s' = a_active s -> a_reports s' = a_reports s -> later s s' -> node_step (s, p) (s', p).

Lemma step_stopped id s p : fst (unload_stop id s) = Ok true -> node_step (s, p) (snd (unload_stop id s), {[id]} ∪ p).
Proof. intros E. pose proof (step_stop id s p) as Hs. by rewrite E in Hs. Qed.

(** ** What a report rests on: answers of the step that made it *)
Definition health_true (n1 n2 : N) (inst : activeInstance) (h : InstanceHealth) : Prop :=
  let id := ih_InstanceID h in
  ih_Status h = "dead" /\ gone n1 n2 id /\ ih_Detail h = ∅ \/
  up n1 n2 id /\ exists probe, engineProbes (ai_EngineType inst) = Some probe /\
    let models n := eng_get n (ai_Port inst) (modelsPath probe) in
    (ih_Status h = "unhealthy" /\ answered n1 n2 (fun n => httpGetOK (models n) = false) /\ ih_Detail h = ∅ \/
     ih_Status h = "healthy" /\ answered n1 n2 (fun n => httpGetOK (models n) = true) /\
     answered n1 n2 (fun n => ih_Detail h = readMetrics (eng_get n (ai_Port inst) (metricsPath probe))) /\ marshals (ih_Detail h) = true).
Definition result_true (s s' : AgentState) (r : InstanceResult) : Prop :=
  let id := ir_InstanceID r in
  ir_Status r = "running" /\ (up (a_calls s) (a_calls s') id \/ exists cfg load, id = li_InstanceID load /\ launched cfg load s s') \/
  ir_Status r = "stopped" /\ answered (a_calls s) (a_calls s') (fun n => host_halt n id = None) \/
  ir_Status r = "failed" /\ forall inst, a_active s' !! id = Some inst -> a_active s !! id = Some inst.
Definition report_true (s s' : AgentState) (rep : Report) : Prop :=
  match rep with
  | RepResult r => result_true s s' r
  | RepHealth h => ih_Status h = "dead" /\ gone (a_calls s) (a_calls s') (ih_InstanceID h) \/
      exists inst, a_active s' !! ih_InstanceID h = Some inst /\ health_true (a_calls s) (a_calls s') inst h
  end.
(** Why an instance is watched: it completed a prompt, or the server asked for
    it while it ran. *)
Definition watched (s : AgentState) (id : string) (inst : activeInstance) : Prop :=
  completed 0 (a_calls s) (ai_EngineType inst) (ai_Port inst) (ai_ModelPath inst) \/
  ai_ModelPath inst = "" /\ 0 < ai_Port inst /\ is_Some (engineProbes (ai_EngineType inst)) /\ up 0 (a_calls s) id.
Lemma watched_later s s' id inst : (a_calls s <= a_calls s')%N -> watched s id inst -> watched s' id inst.
Proof.
  intros Hle [Hc|(? & ? & ? & Hu)]; [left; eapply completed_mono; [| |exact Hc]; lia|right]. split_and!; try done. eapply answered_mono; [| |exact Hu]; lia.
Qed.
(** ** One check *)
Definition one_report (s s' : AgentState) (P : InstanceHealth -> Prop) : Prop :=
  a_reports s' = a_reports s \/ exists h, P h /\ a_reports s' = a_reports s ++ [RepHealth h].
Lemma quietly_call s : quietly s (after_call s).
Proof. split_and!; [done|done|split; cbn; lia]. Qed.
#[local] Instance quietly_preorder : PreOrder quietly.
Proof.
  split; [intros s; split_and!; [done|done|split; lia]|]. intros s1 s2 s3 (E1 & E2 & [? ?]) (F1 & F2 & [? ?]).
  split_and!; [congruence|congruence|split; lia].
Qed.
Lemma wp_health id st detail s (Q : result unit -> AgentState -> Prop) :
  (forall s', quietly s s' ->
     one_report s s' (fun h => ih_InstanceID h = id /\ ih_Status h = st /\ ih_Detail h = detail /\ marshals detail = true) -> Q (Ok tt) s') ->
  wp (sendInstanceHealthReport id st detail) s Q.
Proof.
  intros HQ. unfold sendInstanceHealthReport, send_report. apply wp_bind, wp_gets. destruct (marshals detail) eqn:Em; cbn [negb].
  2: { apply wp_modify, HQ; [split_and!; [done|done|split; cbn; lia]|by left]. }
  apply wp_bind, wp_call. destruct (host_send (a_calls s)) as [e|]; apply wp_modify, HQ; try (split_and!; [done|done|split; cbn; lia]); [by left|].
  right. eexists. split; [|reflexivity]. done.
Qed.
Lemma marshals_empty : marshals ∅ = true.
Proof. by vm_compute. Qed.
Lemma one_report_impl s1 s s' (P P' : InstanceHealth -> Prop) : a_reports s1 = a_reports s -> (forall h, P h -> P' h) -> one_report s1 s' P -> one_report s s' P'.
Proof. intros E Himp [?|(h & Hp & Er)]; [left; congruence|right; exists h; split; [by apply Himp|congruence]]. Qed.
Lemma check_wp id inst s : wp (checkInstanceHealth id inst) s (fun r s' => r = Ok tt /\ quietly s s' /\
  one_report s s' (fun h => ih_InstanceID h = id /\ health_true (a_calls s) (a_calls s') inst h)).
Proof.
  unfold checkInstanceHealth. apply wp_bind, wp_call. set (s1 := after_call s). assert (Q1 : quietly s s1) by apply quietly_call.
  assert (Hc1 : a_calls s1 = N.succ (a_calls s)) by done.
  destruct (eng_running (a_calls s) id) as [[]|e] eqn:Er.
  3: { apply wp_modify. split; [done|]. split; [|by left]. split_and!; [done|done|split; cbn; lia]. }
  2: { apply wp_bind. apply wp_modify, wp_health. intros s' Q' Hr. split; [done|]. split; [etransitivity; [exact Q1|exact Q']|].
       eapply one_report_impl; [|  |exact Hr]; [done|]. intros h (<- & Est & Ede & _). unfold health_true. rewrite Est, Ede. split; [done|]. left. split; [done|]. split; [|done].
       exists (a_calls s). split; [|done]. destruct Q' as (_ & _ & [Hle _]). cbn in Hle. split; lia. }
  destruct (engineProbes (ai_EngineType inst)) as [probe|] eqn:Ep; [|apply wp_ret; split; [done|]; split; [done|by left]].
  apply wp_bind, wp_call. set (s2 := after_call s1). assert (Q2 : quietly s1 s2) by apply quietly_call. assert (Hc2 : a_calls s2 = N.succ (a_calls s1)) by done.
  assert (Hup : forall s', later s2 s' -> up (a_calls s) (a_calls s') id) by (intros s' [? _]; exists (a_calls s); split; [split; lia|done]).
  destruct (httpGetOK _) eqn:Eg; cbn [negb].
  2: { apply wp_health. intros s' Q' Hr. split; [done|]. split; [etransitivity; [exact Q1|]; by etransitivity|]. eapply one_report_impl; [|  |exact Hr]; [done|].
       intros h (<- & Est & Ede & _). unfold health_true. rewrite Est, Ede. split; [done|]. destruct Q' as (_ & _ & L). right. split; [by apply Hup|]. exists probe. split; [done|]. left.
       split; [done|]. split; [|done]. exists (a_calls s1). split; [|done]. destruct L. split; lia. }
  assert (Hend : forall s3 detail, quietly s2 s3 -> answered (a_calls s) (a_calls s3) (fun n => detail = readMetrics (eng_get n (ai_Port inst) (metricsPath probe))) ->
    a_reports s3 = a_reports s2 -> wp (sendInstanceHealthReport id "healthy" detail) s3 (fun r s' => r = Ok tt /\ quietly s s' /\
      one_report s s' (fun h => ih_InstanceID h = id /\ health_true (a_calls s) (a_calls s') inst h))).
  { intros s3 detail Q3 Hd E3. apply wp_health. intros s' Q' Hr. assert (Q4 : quietly s2 s') by (by etransitivity). split; [done|].
    split; [etransitivity; [exact Q1|]; by etransitivity|]. eapply one_report_impl; [|  |exact Hr]; [by rewrite E3|].
    intros h (<- & Est & Ede & Hm). unfold health_true. rewrite Est, Ede. split; [done|]. destruct Q4 as (_ & _ & L), Q' as (_ & _ & [L' _]). right. split; [by apply Hup|]. exists probe. split; [done|]. right.
    split; [done|]. split; [|split; [|done]].
    - exists (a_calls s1). split; [|done]. destruct L. split; lia.
    - eapply answered_mono; [| |exact Hd]; lia. }
  assert (Hpath : metricsPath probe <> "") by (unfold engineProbes in Ep; case_bool_decide; by simplify_eq).
  rewrite bool_decide_false by exact Hpath. cbn [negb]. apply wp_bind, wp_bind, wp_call, wp_ret. apply Hend; [apply quietly_call| |done].
  exists (a_calls s2). split; [split; cbn; lia|done].
Qed.

(** ** One step *)
Definition good_step (s s' : AgentState) : Prop :=
  later s s' /\ (exists news, a_reports s' = a_reports s ++ news /\ Forall (report_true s s') news) /\
  forall id inst, a_active s' !! id = Some inst -> a_active s !! id = Some inst \/ watched s' id inst.
Lemma good_quiet s s' : later s s' -> a_reports s' = a_reports s -> (forall id inst, a_active s' !! id = Some inst -> a_active s !! id = Some inst) -> good_step s s'.
Proof. intros L E Ha. split; [done|]. split; [exists []; by rewrite app_nil_r|]. intros id inst Hi. left. by apply Ha. Qed.
Lemma load_good cfg load s : good_step s (snd (runLoad cfg load s)).
Proof.
  pose proof (runLoad_wp cfg load s) as Hwp. unfold wp in Hwp. set (s' := snd _) in *. clearbody s'.
  destruct Hwp as (_ & L & res & Ht & Hid & Ho). split; [done|]. split.
  - destruct Ht as [E|[E _]]; [|exists []; by rewrite app_nil_r]. exists [RepResult res]. split; [done|]. constructor; [|done]. cbn. unfold result_true.
    rewrite Hid. destruct Ho as [(-> & _ & Hl)|(-> & _ & Ha & _)]; [left|right; right]; (split; [done|]); [right; by exists cfg, load|]. by rewrite Ha.
  - intros id inst Hi. destruct Ho as [(_ & _ & modelPath & _ & _ & Hc & Ha & _)|(_ & _ & Ha & _)]; rewrite Ha in Hi; [|by left].
    apply lookup_insert_Some in Hi as [[<- <-]|[_ ?]]; [right; left|by left]. eapply completed_mono; [| |exact Hc]; [lia|done].
Qed.
Lemma stop_good id s : good_step s (snd (unload_stop id s)).
Proof.
  change (wp (unload_stop id) s (fun _ s' => good_step s s')). unfold unload_stop, halt. apply wp_bind, wp_bind, wp_call, wp_bind, wp_modify, wp_ret.
  set (s1 := set_done _ _). assert (L1 : later s s1) by (split; cbn; lia).
  destruct (host_halt (a_calls s) id) as [e|] eqn:Eh.
  - apply wp_bind. apply wp_modify, wp_bind, wp_result. intros s2 (A2 & _ & L2) Ht. apply wp_bind, wp_modify, wp_ret.
    split; [split; cbn; destruct L1, L2; cbn in *; lia|]. cbn [a_reports a_active set_active]. split; [|rewrite A2; intros i inst Hi; apply lookup_delete_Some in Hi as [_ ?]; by left].
    destruct Ht as [E|[E _]]; rewrite E; [|exists []; by rewrite app_nil_r]. eexists. split; [reflexivity|]. constructor; [|done]. right; right. split; [done|].
    intros inst Hi. cbn in Hi. by rewrite lookup_delete_eq in Hi.
  - apply wp_bind, wp_result. intros s2 (A2 & _ & L2) Ht. apply wp_ret. split; [by etransitivity|]. rewrite A2. split; [|by left].
    destruct Ht as [E|[E _]]; rewrite E; [|exists []; by rewrite app_nil_r]. eexists. split; [reflexivity|]. constructor; [|done]. right; left. split; [done|].
    exists (a_calls s). split; [|done]. destruct L2 as [L2 _]. cbn in L2. split; lia.
Qed.
Lemma rest_good id s : good_step s (snd (unload_rest id s)).
Proof.
  change (wp (unload_rest id) s (fun _ s' => good_step s s')). unfold unload_rest. apply wp_bind. eapply wp_tidy; [by apply (tidy_archiveAndRemove (fun i => i = id))|].
  intros [] s1 (E1 & E2 & L & _). apply wp_modify. apply good_quiet; [done|done|]. cbn. rewrite E1. intros i inst Hi. by apply lookup_delete_Some in Hi as [_ ?].
Qed.
Lemma good_one s s' : quietly s s' -> one_report s s' (fun h => report_true s s' (RepHealth h)) -> good_step s s'.
Proof.
  intros (E & _ & L) Ho. split; [done|]. split; [|rewrite E; by left]. destruct Ho as [Er|(h & Hh & Er)]; rewrite Er; [exists []; by rewrite app_nil_r|].
  exists [RepHealth h]. split; [done|]. by constructor.
Qed.
Lemma report_mono s1 s s' s2 h : a_active s2 = a_active s' -> (a_calls s1 <= a_calls s)%N -> (a_calls s' <= a_calls s2)%N ->
  report_true s s' (RepHealth h) -> report_true s1 s2 (RepHealth h).
Proof.
  intros Ea L1 L2. cbn. unfold gone, health_true. rewrite Ea.
  assert (Hm : forall P, answered (a_calls s) (a_calls s') P -> answered (a_calls s1) (a_calls s2) P) by (intros P; by apply answered_mono).
  intros [[? ?]|(inst & Hi & Ho)]; [left; by auto|right]. exists inst. split; [done|]. unfold gone, up in *.
  destruct Ho as [(?&?&?)|(?&probe&?&Ho)]; [left; by auto|right]. split; [by auto|]. exists probe. split; [done|]. destruct Ho as [(?&?&?)|(?&?&?&?)]; [left|right]; auto.
Qed.
Lemma tick_good s : good_step s (snd (health_tick s)).
Proof.
  change (wp health_tick s (fun _ s' => good_step s s')). unfold health_tick, snapshotActiveInstances. apply wp_bind, wp_gets.
  assert (Hin : forall kv, kv ∈ map_to_list (a_active s) -> a_active s !! kv.1 = Some kv.2) by (intros [k v] ?; by apply elem_of_map_to_list).
  eapply (wp_forM (fun s' => quietly s s' /\ exists news, a_reports s' = a_reports s ++ news /\ Forall (fun r => exists h, r = RepHealth h /\ report_true s s' (RepHealth h)) news)).
  - split; [done|]. exists []. by rewrite app_nil_r.
  - intros [id inst] s1 Hx [Q1 (news & E1 & F1)]. eapply wp_mono; [apply check_wp|]. cbn. intros r s2 (-> & Q2 & Ho). split; [done|].
    assert (Q : quietly s s2) by (by etransitivity). split; [done|]. destruct Q1 as (A1 & _ & [L1 _]), Q2 as (A2 & _ & [L2 _]).
    assert (F2 : Forall (fun r => exists h, r = RepHealth h /\ report_true s s2 (RepHealth h)) news).
    { eapply Forall_impl; [exact F1|]. intros r (h & -> & Hh). exists h. split; [done|]. eapply report_mono; [exact A2| |exact L2|exact Hh]. lia. }
    destruct Ho as [E2|(h & (Eid & Hh) & E2)]; [exists news; split; [congruence|done]|].
    exists (news ++ [RepHealth h]). split; [by rewrite E2, E1, app_assoc|]. apply Forall_app. split; [done|]. constructor; [|done]. exists h. split; [done|].
    eapply (report_mono s s1 s2 s2); [done|exact L1|done|]. right. exists inst. split; [|done]. rewrite Eid, A2, A1. by apply (Hin (id, inst)).
  - intros s' [(E & _ & L) (news & Er & F)]. split; [done|]. split; [|rewrite E; by left]. exists news. split; [done|].
    eapply Forall_impl; [exact F|]. by intros r (h & -> & Hh).
Qed.

Lemma runCheck_good id port engineType s : good_step s (snd (runCheckInstance id port engineType s)).
Proof.
  change (wp (runCheckInstance id port engineType) s (fun _ s' => good_step s s')). unfold runCheckInstance. apply wp_bind, wp_call.
  set (s1 := after_call s). assert (Q1 : quietly s s1) by apply quietly_call. assert (Hc1 : a_calls s1 = N.succ (a_calls s)) by done.
  destruct (eng_running (a_calls s) id) as [[]|e] eqn:Er.
  3: { apply wp_modify, good_quiet; [split; cbn; lia|done|done]. }
  2: { apply wp_bind. apply wp_modify, wp_health. intros s' Q' Ho. apply good_one; [etransitivity; [exact Q1|exact Q']|].
       eapply one_report_impl; [|  |exact Ho]; [done|]. intros h (<- & Est & _). left. split; [done|]. exists (a_calls s). split; [|done].
       destruct Q' as (_ & _ & [Hle _]). cbn in Hle. split; lia. }
  apply wp_bind, wp_result. intros s2 (A2 & D2 & L2) Ht. assert (L : later s s2) by (etransitivity; [apply Q1|done]).
  assert (Hup : forall s', (a_calls s2 <= a_calls s')%N -> up (a_calls s) (a_calls s') id) by (intros s' ?; exists (a_calls s); split; [destruct L2; split; lia|done]).
  assert (Hnews : exists news, a_reports s2 = a_reports s ++ news /\ forall s', (a_calls s2 <= a_calls s')%N -> Forall (report_true s s') news).
  { destruct Ht as [E|[E _]]; rewrite E; [|exists []; by rewrite app_nil_r]. eexists. split; [reflexivity|]. intros s' ?. constructor; [|done]. left. split; [done|]. left. by apply Hup. }
  assert (Hsame : forall s', a_active s' = a_active s2 -> a_reports s' = a_reports s2 -> later s2 s' -> good_step s s').
  { intros s' Ea Er' L'. split; [by etransitivity|]. rewrite Ea, Er', A2. split; [|by left]. destruct Hnews as (news & ? & Hf). exists news. split; [done|]. apply Hf, L'. }
  unfold resumeHealthTracking. destruct (Z.leb_spec port 0); [by apply wp_ret, Hsame|].
  destruct (engineProbes engineType) as [probe|] eqn:Ep; [|by apply wp_modify, Hsame]. apply wp_bind. unfold isActiveInstance. apply wp_gets.
  case_bool_decide as Ea; [by apply wp_ret, Hsame|]. apply wp_bind, wp_modify, wp_bind, wp_modify. set (inst := MkActive port "" engineType). set (s3 := set_alogs _ _).
  eapply wp_mono; [apply check_wp|]. intros r s' (-> & (A' & _ & [L' T']) & Ho). cbn in A', L', T'. destruct Hnews as (news & En & Hn).
  split; [destruct L; split; lia|]. split.
  - destruct Ho as [E'|(h & (Eid & Hh) & E')]; rewrite E'; cbn [a_reports s3 set_alogs set_active]; [exists news; split; [done|by apply Hn]|].
    exists (news ++ [RepHealth h]). split; [by rewrite En, app_assoc|]. apply Forall_app. split; [by apply Hn|]. constructor; [|done].
    eapply (report_mono s s3 s' s'); [done|destruct L; cbn; lia|done|]. right. exists inst. split; [|done]. by rewrite A', Eid, lookup_insert_eq.
  - rewrite A'. intros i x Hi. apply lookup_insert_Some in Hi as [[<- <-]|[_ Hx]]; [right|left; cbn in Hx; by rewrite A2 in Hx]. right. split; [done|]. split; [done|]. split; [by exists probe|].
    eapply answered_mono; [|  |apply (Hup s'); lia]; lia.
Qed.
Lemma node_step_good x y : node_step x y -> good_step x.1 y.1.
Proof.
  intros []; cbn [fst]; [apply load_good|apply stop_good|apply rest_good|apply runCheck_good|apply tick_good|apply good_quiet; [done|done|]]. congruence.
Qed.
Lemma run_watched x y : rtc node_step x y -> map_Forall (watched x.1) (a_active x.1) -> map_Forall (watched y.1) (a_active y.1).
Proof.
  induction 1 as [|x y z Hs _ IH]; [done|]. intros Hx. apply IH. intros id inst Hi. destruct (node_step_good _ _ Hs) as ([Hle _] & _ & Ha).
  destruct (Ha id inst Hi) as [Hi'|]; [|done]. eapply watched_later; [exact Hle|by apply Hx].
Qed.
(** A node only reports what is so, each load, check, health tick and half of
    an unload taken as one step.  From a start where no instance is
    watched, whatever loads, unloads, checks, health ticks and other work the
    node does, in whatever order (with work between the stop of an unload and
    its end): each report that a step sends rests on answers of that very step
    - [running] on the container running or on a load that started it and got
    a completed prompt, [stopped] on a halt that succeeded, [dead] on the
    container being gone, [healthy] and [unhealthy] on the container running
    and on the answer of the engine at the watched port - and an instance is
    only ever watched because it completed a prompt for the model it was
    loaded with, or because the server asked for it while it ran. *)
Theorem node_reports_true (start : AgentState) (x y : NodeState) :
  a_active start = ∅ -> rtc node_step (start, ∅) x -> node_step x y ->
  (exists news, a_reports y.1 = a_reports x.1 ++ news /\ Forall (report_true x.1 y.1) news) /\
  map_Forall (watched y.1) (a_active y.1).
Proof.
  intros Hstart Hrun Hstep. destruct (node_step_good _ _ Hstep) as (_ & Hnews & _). split; [exact Hnews|].
  eapply run_watched; [eapply rtc_r; [exact Hrun|exact Hstep]|]. cbn. rewrite Hstart. apply map_Forall_empty.
Qed.
(** C35: a wait for an engine ends: the rounds its loop is given, one and one
    for each tick of two seconds up to the time limit, are always enough.  It
    ends well only if, after it began, the engine listed its models and
    completed a prompt - for the id it listed, or for the model's path if it
    listed none -; else because no probe is known for the engine's type, because
    the container was gone, because the time limit had passed, or because the
    node was told to stop.  It changes nothing but the time. *)
Theorem waitForReady_ends (cfg : Config) (id engineType : string) (port : Z) (modelPath : string) (s : AgentState) :
  let (r, s') := waitForReady cfg id engineType port modelPath s in
  wait_spec cfg id engineType port modelPath s r s'.
Proof. pose proof (waitForReady_wp cfg id engineType port modelPath s) as Hwp. unfold wp in Hwp. by destruct (waitForReady _ _ _ _ _ s). Qed.
End Reports.

(** ** The waits between two connections *)
Definition Int63n (rand : Z -> Z) : Prop := forall n, 0 < n -> 0 <= rand n < n.
Definition doubled (b : Z) (failed : nat) : Z := Z.min defaultMaxBackoff (b * 2 ^ Z.of_nat failed).
Lemma jitter_bounds rand d : Int63n rand -> 2 <= d -> d / 2 <= jitter rand d < d.
Proof.
  intros Hr Hd. unfold jitter. destruct (Z.leb_spec d 1); [lia|]. specialize (Hr (d / 2)). cbv zeta. pose proof (Z.div_le_lower_bound d 2 1). pose proof (Z.mul_div_le d 2). lia.
Qed.
(** After how many failed attempts each wait comes: since the last accepted
    connection, or since the start. *)
Fixpoint failed_before (n : nat) (connected : list bool) : list nat :=
  match connected with [] => [] | c :: rest => let n := if c : bool then O else n in n :: failed_before (S n) rest end.
Lemma reconnect_waits rand connected : (forall n, Int63n (rand n)) ->
  Forall2 (fun w n => doubled defaultMinBackoff n / 2 <= w < doubled defaultMinBackoff n)
    (reconnects rand defaultMinBackoff connected) (failed_before 0 connected).
Proof.
  intros Hr. assert (Hmin : defaultMinBackoff = 1000000000) by reflexivity. assert (Hmax : defaultMaxBackoff = 30000000000) by reflexivity.
  assert (Hpow : forall n, 1 <= 2 ^ Z.of_nat n) by (intros n; pose proof (Z.pow_pos_nonneg 2 (Z.of_nat n)); lia).
  assert (Hd : forall n, after_wait (doubled defaultMinBackoff n) = doubled defaultMinBackoff (S n)).
  { intros n. unfold after_wait, doubled. rewrite Nat2Z.inj_succ, Z.pow_succ_r by lia. specialize (Hpow n). destruct (Z.ltb_spec defaultMaxBackoff (Z.min defaultMaxBackoff (defaultMinBackoff * 2 ^ Z.of_nat n) * 2)); lia. }
  assert (Hgen : forall n, Forall2 (fun w n => doubled defaultMinBackoff n / 2 <= w < doubled defaultMinBackoff n)
    (reconnects rand (doubled defaultMinBackoff n) connected) (failed_before n connected)); [|exact (Hgen 0%nat)].
  induction connected as [|c rest IH]; intros n; [constructor|]. cbn [reconnects failed_before]. cbv zeta.
  replace (if c then defaultMinBackoff else doubled defaultMinBackoff n) with (doubled defaultMinBackoff (if c then 0%nat else n)) by (by destruct c).
  constructor; [|rewrite Hd; apply IH]. apply jitter_bounds; [apply Hr|]. unfold doubled. specialize (Hpow (if c then 0%nat else n)). lia.
Qed.
