(* ===== verification/AgentNode.v ===== *)
(** * A node at work

    A concrete host: a load, an unload that a health tick meets, and what the
    server makes of the reports. *)
From stdpp Require Import base list strings gmap relations.
From Stdlib Require Import ZArith Lia.
From Stdlib Require Import Ascii.
From Stdlib Require String.
From S2P Require Import Prelude Text Json Db GoTime Wire Paths ContainerLogs ContainerLogsSpec AgentStale AgentLogs EngineProbe AgentInstances AgentInstancesSpec AgentReports InstanceStore Alerts AlertFacts AlertRaiser Lifecycle LifecycleSpec.
Local Open Scope string_scope.
Local Open Scope list_scope.
Local Open Scope Z_scope.

(** Nothing is left to capture, every call takes a second and succeeds. *)
#[local] Instance lab_host : Host := {|
  host_tick := fun _ => 1000000000%N;
  host_capture := fun _ _ _ => NothingToCapture;
  host_random := fun _ => Err (Opaque "");
  host_send := fun _ => None;
  host_acks := fun _ => [];
  host_gives_up := fun _ => false;
  host_halt := fun _ _ => None;
  host_remove := fun _ _ => None;
  host_instances := fun _ _ => Ok []
|}.
#[local] Existing Instance plain_gzip.
Definition listed : RawMessage := Raw (JObj [("data", JArr [JObj [("id", JStr "qwen")]])]) false.
Definition chatted : RawMessage := Raw (JObj [("choices", JArr [JObj [("message", JObj [("content", JStr "ok")])]])]) false.
(** One model in one file; the engine completes a prompt from call 8 on, and its
    container is gone from call 12 on. *)
#[local] Instance lab_engine : EngineHost := {|
  eng_names := fun _ d => if bool_decide (d = "/models/qwen") then Some ["qwen-Q4_K_M.gguf"] else None;
  eng_start := fun _ _ => None;
  eng_verify := None;
  eng_running := fun n _ => Ok (n <? 12)%N;
  eng_logs := fun _ _ _ => Ok "";
  eng_get := fun _ _ _ => Some (MkResponse 200 "" listed);
  eng_complete := fun n _ _ _ => if (n <? 8)%N then Some (MkResponse 503 "" RawEmpty) else Some (MkResponse 200 "" chatted);
  eng_cancelled := fun _ => false
|}.
Definition lab_config : Config := MkConfig "/models" {[ "llamacpp" := "/opt/llama-server" ]} "" "docker" (20 * second) (30 * second).
Definition lab_load : Db.LoadInstance :=
  Db.MkLoadInstance "i1" "qwen" "llamacpp" "" "Q4_K_M" "ghcr.io/llama" [] 8080 false 0 "" "sparky-qwen" "p1".
Definition idle : AgentState := MkAgent 0 0 [] ∅ ∅ [] [] ∅ [].
Definition loaded : AgentState := snd (AgentInstances.runLoad lab_config lab_load idle).
Example load_runs :
  a_reports loaded = [RepResult (MkInstanceResult "i1" "running" 8080 "")] /\
  a_active loaded = {[ "i1" := MkActive 8080 "/models/qwen/qwen-Q4_K_M.gguf" "llamacpp" ]} /\ a_calls loaded = 10%N.
Proof. by vm_compute. Qed.
Definition halted : AgentState := snd (unload_stop "i1" loaded).
Definition ticked : AgentState := snd (health_tick halted).
Lemma halts : fst (unload_stop "i1" loaded) = Ok true.
Proof. by vm_compute. Qed.
Lemma idle_loaded : node_step (idle, ∅) (loaded, ∅).
Proof. unfold loaded. apply AgentReports.step_load. Qed.
Lemma loaded_halted : node_step (loaded, ∅) (halted, {["i1"]} ∪ ∅).
Proof. unfold halted. apply step_stopped, halts. Qed.
Lemma loads_and_halts : rtc node_step (idle, ∅) (halted, {["i1"]} ∪ ∅).
Proof. eapply rtc_l; [exact idle_loaded|]. apply rtc_once, loaded_halted. Qed.
Lemma node_reports_true_witness :
  (exists news, a_reports ticked = a_reports halted ++ news /\ Forall (report_true halted ticked) news) /\
  map_Forall (watched ticked) (a_active ticked) /\
  a_reports ticked = [RepResult (MkInstanceResult "i1" "running" 8080 ""); RepResult (MkInstanceResult "i1" "stopped" 0 "");
    RepHealth (MkInstanceHealth "i1" "dead" (13 * second) ∅)].
Proof.
  pose proof (node_reports_true idle (halted, {["i1"]} ∪ ∅) (ticked, {["i1"]} ∪ ∅) eq_refl loads_and_halts (AgentReports.step_tick halted ({["i1"]} ∪ ∅))) as [Hn Hw].
  split; [exact Hn|]. split; [exact Hw|]. vm_compute. reflexivity.
Defined.

(** An instance that is unloaded is watched until its log is stored, so a health
    tick in between reports the stopped instance as dead; the server takes the
    report for an instance that is [Stopped], and opens an alert that nothing
    resolves. *)
Definition envelope (r : Report) : Envelope := match r with RepResult r => EInstanceResult (Ok r) | RepHealth h => EInstanceHealth (Ok h) end.
Definition hear (w : World) (r : Report) : World :=
  snd ((@HandleInstanceResult quiet_env (@alert_raiser quiet_env no_notifier) "n1" (envelope r);;
        @HandleInstanceHealth quiet_env (@alert_raiser quiet_env no_notifier) "n1" (envelope r)) w).
Definition told_world : World := foldl hear (lab_with (inst1 Stopping HealthHealthy)) (drop 1 (a_reports ticked)).
Example stopped_then_dead :
  (i ← w_instances told_world !! "i1"; Some (InstStatus i, HealthStatus i)) = Some (Stopped, HealthDead) /\
  map (fun ka => (ATitle ka.2, ResolvedAt ka.2)) (map_to_list (w_alerts told_world)) =
    [("llama-8b is no longer running", None)].
Proof. vm_compute. done. Qed.
(** A load figure that is not finite loses the whole health report. *)
Example nan_is_lost :
  marshals (readMetrics (Some (MkResponse 200 "vllm:num_requests_running NaN" RawEmpty))) = false.
Proof. by vm_compute. Qed.
(** What the import accepts but a load does not find: a model in shards, one of
    unknown quantization, one in a directory with brackets. *)
Definition dir_names (names : list string) (d : string) : option (list string) :=
  if bool_decide (d = "/models/qwen") || bool_decide (d = "/models/qwen[1]") then Some names else None.
Example not_launched : forall quantization ref names, (quantization, ref, names) ∈
    [("Q8_0", "qwen", ["qwen-Q8_0-00001-of-00002.gguf"; "qwen-Q8_0-00002-of-00002.gguf"]); ("UNKNOWN", "qwen", ["qwen.gguf"]);
     ("Q4_K_M", "qwen[1]", ["qwen-Q4_K_M.gguf"])] ->
  exists e, resolveModelPath lab_config (dir_names names) ref quantization false = Err e.
Proof.
  intros q r n Hin. rewrite !elem_of_cons, elem_of_nil in Hin. destruct Hin as [E|[E|[E|[]]]]; simplify_eq; eexists; by vm_compute.
Qed.
